(* ===== verification/_CoqProject ===== *)
-Q . S2P
Prelude.v
CausalTime.v
Contracts.v
Text.v
Base64.v
Migrations.v
Paths.v
PyValues.v
Bundles.v
ResourcePolicies.v
Containers.v
EventStore.v
JobStore.v
JobLifecycle.v
RecordStore.v
Auth.v
Urls.v
DirectoryUi.v
Quoting.v
KubeSettings.v
KubeManifest.v
Registry.v
World.v
Polling.v
NotebookClient.v
WebSockets.v
Delivery.v
Validation.v
Scheduler.v
Attempts.v
Gate.v
Project.v
Doctor.v
Schedules.v
Claims.v
KubeArtifacts.v
KubeForwarder.v
RunEvents.v
WorkerChannel.v
DockerRuntime.v
KubeRuntime.v
KubeValidation.v
Fanout.v
Repository.v
Drain.v
Cleanup.v
Api.v
ApiJobs.v
NotebookServices.v
ApiServices.v
ApiDirectory.v
ApiTenancy.v
ApiIsolation.v
ApiReview.v
ApiSpecs.v
ApiRuntimes.v
ApiProxy.v
ApiFiles.v
ApiAdmin.v
ApiValidation.v
StoreRows.v
