(* ===== verification/Prelude.v ===== *)
(** * Verification of the Goblin King control plane

    Goblin King ([src/src/goblin_king]) runs small workloads, "goblins".  A control
    plane keeps jobs, runs, schedules, events, identities and a shared directory of
    goblins in one SQLite store; schedulers claim due jobs under a lease, prove a
    worker image before they run it, execute one attempt in a container, on Docker or
    on Kubernetes, and settle the job and its run; an HTTP API submits, observes, hosts
    notebook services and relays to them.  This library models that program as Rocq
    functions on explicit state and proves what makes it correct.

    ** How the program is modelled

    A Python call that reads and writes a state [S] is [M S A]: a function from a
    state to a state and a [result], a value or the exception it raised.  What was
    written before a [raise] stays, unless the call is a transaction ([atomic], for
    [with engine.begin()]).  A component's operations work on its own state; a
    [lens] and [zoom] run them inside a larger one.  Tables are [gmap]s from the
    primary key to the row, a row is the record it was written from ([StoreRows] proves
    that columns keep it), timestamps are microseconds since 1970 in UTC, integers are
    unbounded as in Python, strings are the bytes of their UTF-8 encoding, and the
    readings of clocks, UUIDs and random tokens are streams indexed by how often they
    were read.  Blanks and line ends are Python's, and the case of a project's name is a
    table of [Env]; elsewhere patterns and case are those of ASCII, and URLs hold no control
    characters.  SQL sorting is any function that returns a sorted permutation
    ([Sqlite]), as the order of ties is not documented.  What is outside the repository -
    container engines, clusters, Redis, the network, files, libraries - is a class of
    calls that may answer or raise anything, on any state; where the code relies on a
    documented behaviour, a class of laws states it.  Coroutines that interleave are step
    relations ([Drain], [WebSockets]).

    ** The files

    Shared: [Prelude] (this file: the monad, exceptions, lenses, JSON, tables, and the
    reasoning about calls: [Preserves], [Within], [Raises], [triple]); [CausalTime]
    (causal_time.py); [Contracts] (contracts.py: the typed records, status literals and
    validators); [Text], [Paths], [PyValues], [Urls], [Quoting], [Base64] (what the code
    uses of Python's strings, paths, conversions, URLs and encodings, with their round
    trips); [Polling] (loops that wait, with fuel); [Containers] (container_logs.py,
    runtime_helpers.py, worker_environment.py, docker_runtime_paths.py).

    The store (store.py and its modules): [Migrations] (store_schema.py,
    store_migrations.py and the attempts of a start), [StoreRows] (store_rows.py: rows and
    records), [EventStore] (events, heartbeats, the bus of events.py), [JobStore] and
    [JobLifecycle] (jobs, runs, store_run_lifecycle.py, and the life of a job whoever
    calls in whatever order), [RecordStore] (the plain tables), [Repository] (the
    directory's catalog and the abstract catalog it refines), [Cleanup] (the deletion of
    history), [Delivery] (event_delivery.py: the log on a Redis Stream).

    Running goblins: [ResourcePolicies] (resource_policies.py), [Registry] (registry.py,
    workers.py, metadata.py), [Project] (project.py), [World] (the tables and the process as
    one state), [Validation] (validation.py, versions.py), [Scheduler] (scheduler.py,
    scheduler_failures.py, scheduler_leases.py, runtime.py), [Fanout] (fanout.py);
    [Attempts], [Gate], [Schedules], [Claims]: what the scheduler guarantees.

    Containers: [WorkerChannel], [DockerRuntime] (runtime.py), [KubeSettings],
    [KubeManifest], [KubeRuntime] (the kubernetes_*.py modules), [KubeArtifacts] and
    [KubeForwarder] (kubernetes_artifacts.py, kubernetes_result_forwarder.py),
    [KubeValidation] (kubernetes_validation.py), [RunEvents] (run_events.py),
    [NotebookServices] (notebook_services.py).

    The API (api.py and the api_*.py modules): [Auth] (auth.py), [Api] (the state and the
    gate), [ApiJobs], [ApiServices], [ApiDirectory], [ApiRuntimes] (services that are
    started and replaced), [ApiProxy] (HTTP and websocket proxies), [ApiFiles], [ApiAdmin]
    (reloads, promotions, termination.py, deployment.py), [ApiValidation], [Bundles]
    (directory_bundles.py); [ApiTenancy], [ApiIsolation], [ApiReview], [ApiSpecs]: what its
    handlers guarantee together.  [Drain] (service_websocket_drain.py) and [WebSockets]
    (service_websocket_proxy.py) are the coroutines behind a service.

    Around it: [NotebookClient] (notebooks.py: the client of a workbook), [DirectoryUi]
    (directory_ui.py: the browser's service), [Doctor] (doctor.py).

    ** What the theorems show

    - Attempts: while the lease lasts, and whatever the registry, the image, the container
      engine or the goblin's code returns or raises, the boundary of an attempt leaves the
      job unleased with its run finished, or stands back from a job that was cancelled
      ([attempt_boundary_settles]);
      a container runs only behind a stored proof of its image and source
      ([gate_requires_proof]); both container runtimes are what the scheduler assumes of
      its workers ([container_runtimes_tend]), and what the API and the doctor take for a
      proof is what opens the gate ([notebook_proof_opens_gate], [coverage_opens_gate]).
    - Jobs: an invariant of the tables, the legal history of a job, leases as mutual
      exclusion, the fencing of workers that lost their lease, one finalization per run
      ([JobLifecycle]); due schedules, claims, batches and retries.
    - Time and events: strictly increasing timestamps, a log whose sequence numbers and
      timestamps agree, and a stream that refines it whatever fails in between
      ([event_log_total_order], [stream_refines_log]); a run's events reach a websocket in
      order and for its project only ([run_stream_ordered]).
    - The store's file: starting on an old file loses no row, and one undisturbed attempt
      among the ten opens it ([startup_keeps_rows], [initialization_completes]); records
      read back as they were written ([store_rows_roundtrip]).
    - The directory: nothing is published without its review, over any history of HTTP
      requests, and only admins sign ([published_versions_signed]).
    - Tenants: over the requests of [ApiRequest], a caller who is no admin sees nothing of
      another project and changes none of its jobs, schedules, services, entries and
      versions ([tenant_isolation], which says what it leaves out).
    - Containers: the restricted profile of a Pod, the deletion of what a run creates,
      the bytes that are retained, waits that end ([KubeManifest], [KubeRuntime],
      [KubeArtifacts], [KubeForwarder], [KubeValidation]).
    - Services: a failed start keeps the old service, a finished one retires it exactly
      once, a relay opens only behind its gate and forwards what it was given
      ([ApiRuntimes], [Drain], [ApiProxy], [WebSockets]).
    - Clients: a workbook's token goes to no other host, its requests reach the route they
      name and its waits end ([NotebookClient]); a browser's call is forwarded with the
      token the Hub granted to its own session ([DirectoryUi]).
    A theorem over all interleavings of store operations quantifies over lists of
    operations, each one transaction; inside an attempt, what others do to the store
    happens in the calls of the classes.

    ** Parameters and their laws

    [Env] (clocks, UUIDs), [Sqlite] (sorting), [Crypto], [Jwt], [Hub], [Pydantic], [Floats],
    [Quantities], [Imports], [CronParser], [IsoFormat] (libraries); [Host], [Workers],
    [DockerEngine], [KubeCluster], [WorkerChannel], [ServiceHost], [ArtifactSource],
    [ForwarderHost], [TerminationHost], [DirectoryRuntime] (containers and clusters);
    [RedisStream], [RunEventRedis] (Redis); [HttpProbe], [ProxyHost], [NotebookHost],
    [UiHost] (HTTP); [FileHost], [BundleReaders], [ProjectFiles], [DiscoveryLoader],
    [DoctorHost], [Startup] (files, commands, other processes).  Laws are classes of their
    own: [HostWithin], [WorkersTend], [EngineWithin], [ClusterWithin] and [ChannelWithin] say
    that a call leaves a leased job to its scheduler, [TimePasses], [HostSleeps] and
    [Sleeps] that sleeping takes its time, [RedisLaws] and [RunEventLaws] what the commands
    are documented to do, [Cooperative] that other processes migrate the same way,
    [KillsByLabel] and [SameEngine] what Docker filters by and which engine is asked.  Every
    theorem that assumes a law has an instance with concrete parameters.

    ** Fuel and bounds

    The scheduler's outer loop, the lease renewal and the rounds of an event websocket are
    functions of a number of iterations, as their code runs until it is stopped.  Waits
    ([poll], [wait_loop], [wait_turns]) and the copying of a file ([copy_loop]) take fuel;
    theorems show that one turn per interval of the timeout, or one per chunk of the bytes
    that may be read, is enough.  A start makes ten attempts, as its code does.  Everything
    else is structural recursion.

    ** What is not modelled

    The command line (cli.py, cli_support.py: parsing arguments and printing around
    operations modelled here), project templates (templates.py: rendering literal texts),
    demonstrations and smoke tests (demo.py but for its project check, smoke.py), JSON files
    and file modes (jsonio.py, artifact_storage.py), the JupyterHub server extension
    (jupyter_directory.py), the browser's own code, charts and sample workers (other
    languages), the assembly of the FastAPI application (parsing of requests is
    FastAPI's and Pydantic's), health and metrics pages, and the construction of API
    clients.  Reading settings from files is outside; they are the values read.  The
    catalog's calls read outside the transaction that writes; two callers interleaving
    between the read and the write of one call are not modelled, nor is a coroutine
    cancelled from outside. *)

From Stdlib Require Export ZArith Lia.
From Stdlib Require Import Ascii.
From stdpp Require Export base option list gmap strings pretty sorting relations.
From stdpp Require Export tactics numbers.
Export list_basics.list list_relations.list list_monad.list list_misc.list.

Create HintDb causal.
Create HintDb store.

#[global] Open Scope string_scope.
#[global] Open Scope Z_scope.
#[global] Open Scope list_scope.

(** ** Exceptions

    The exception classes the modelled code raises or catches, with the text
    the code gives them.  [exn_name] is [type(error).__name__] and [exn_str] is
    [str(error)]. *)
Inductive exn :=
| ValueError (msg : string)
| TypeError (msg : string)
| ValidationError (msg : string)
| KeyError (key : string)
| RuntimeError (msg : string)
| AssertionError
| IntegrityError (msg : string)
| MultipleResultsFound
| RegistryError (msg : string)
| WorkerConfigError (msg : string)
| ResourcePolicyError (msg : string)
| JobAttemptSuperseded (msg : string)
| AuthError (msg : string) (status_code : Z)
| RateLimitExceeded (msg : string)
| HTTPException (status_code : Z) (detail : string)
| OtherValueError (name : string) (msg : string)
| OtherException (name : string) (msg : string).

#[export] Instance exn_eq_dec : EqDecision exn.
Proof. solve_decision. Defined.

(** The classes that derive from Python's [ValueError]: what an
    [except ValueError] clause catches.  ([pydantic.ValidationError] derives
    from it too.) *)
Definition is_value_error (e : exn) : bool :=
  match e with
  | ValueError _ | ValidationError _ | RegistryError _ | WorkerConfigError _
  | ResourcePolicyError _ | AuthError _ _ | RateLimitExceeded _ | OtherValueError _ _ => true
  | _ => false
  end.

Definition exn_name (e : exn) : string :=
  match e with
  | ValueError _ => "ValueError"
  | TypeError _ => "TypeError"
  | ValidationError _ => "ValidationError"
  | KeyError _ => "KeyError"
  | RuntimeError _ => "RuntimeError"
  | AssertionError => "AssertionError"
  | IntegrityError _ => "IntegrityError"
  | MultipleResultsFound => "MultipleResultsFound"
  | RegistryError _ => "RegistryError"
  | WorkerConfigError _ => "WorkerConfigError"
  | ResourcePolicyError _ => "ResourcePolicyError"
  | JobAttemptSuperseded _ => "JobAttemptSuperseded"
  | AuthError _ _ => "AuthError"
  | RateLimitExceeded _ => "RateLimitExceeded"
  | HTTPException _ _ => "HTTPException"
  | OtherValueError n _ | OtherException n _ => n
  end.

(** ** Results and the state-and-exception monad

    [M S A] is a Python call that reads and writes a state [S] and either
    returns or raises.  The state survives an exception: what was committed
    before a [raise] stays.  [atomic] is the transaction a
    [with engine.begin()] block (or an explicit BEGIN IMMEDIATE / commit /
    rollback) puts around its body: an exception restores the state. *)
Inductive result (A : Type) :=
| Ok (a : A)
| Err (e : exn).
Arguments Ok {A} a.
Arguments Err {A} e.

Definition M (S A : Type) : Type := S → S * result A.

Definition ret {S A} (a : A) : M S A := λ s, (s, Ok a).
Definition raise {S A} (e : exn) : M S A := λ s, (s, Err e).
Definition bind {S A B} (m : M S A) (k : A → M S B) : M S B :=
  λ s, match m s with
       | (s', Ok a) => k a s'
       | (s', Err e) => (s', Err e)
       end.
Definition get_state {S} : M S S := λ s, (s, Ok s).
Definition gets {S A} (f : S → A) : M S A := λ s, (s, Ok (f s)).
Definition modify {S} (f : S → S) : M S unit := λ s, (f s, Ok tt).
Definition lift_result {S A} (r : result A) : M S A := λ s, (s, r).
Definition atomic {S A} (m : M S A) : M S A :=
  λ s, match m s with
       | (s', Ok a) => (s', Ok a)
       | (_, Err e) => (s, Err e)
       end.
(** [try m except e: h e] *)
Definition try_catch {S A} (m : M S A) (h : exn → M S A) : M S A :=
  λ s, match m s with
       | (s', Ok a) => (s', Ok a)
       | (s', Err e) => h e s'
       end.

Declare Scope py_scope.
Delimit Scope py_scope with py.
Notation "'let*' x ':=' m 'in' k" := (bind m (fun x => k))
  (at level 10, x pattern, m at level 100, k at level 200,
   format "'[v' 'let*'  x  ':='  m  'in' '/' k ']'") : py_scope.
Notation "'do*' m 'in' k" := (bind m (fun _ => k))
  (at level 10, m at level 100, k at level 200) : py_scope.
#[global] Open Scope py_scope.

Definition result_bind {A B} (r : result A) (k : A → result B) : result B :=
  match r with Ok a => k a | Err e => Err e end.
Notation "'let?' x ':=' m 'in' k" := (result_bind m (fun x => k))
  (at level 10, x pattern, m at level 100, k at level 200) : py_scope.

(** [if c: raise e] *)
Definition raise_if {S} (c : bool) (e : exn) : M S unit :=
  if c then raise e else ret tt.

(** [for x in l: body] with the loop's accumulator threaded. *)
Fixpoint foldM {S A B} (f : B → A → M S B) (acc : B) (l : list A) : M S B :=
  match l with
  | [] => ret acc
  | x :: l' => let* acc' := f acc x in foldM f acc' l'
  end.

Fixpoint forM_ {S A} (l : list A) (f : A → M S unit) : M S unit :=
  match l with
  | [] => ret tt
  | x :: l' => do* f x in forM_ l' f
  end.

Fixpoint mapM_result {A B} (f : A → result B) (l : list A) : result (list B) :=
  match l with
  | [] => Ok []
  | x :: l' => let? y := f x in let? ys := mapM_result f l' in Ok (y :: ys)
  end.

Definition is_ok {A} (r : result A) : bool :=
  match r with Ok _ => true | Err _ => false end.

Lemma mapM_is_ok {A B} (f : A → result B) l :
  (∀ x, x ∈ l → is_ok (f x) = true) → is_ok (mapM_result f l) = true.
Proof.
  induction l as [|x l IH]; intros Hf; simpl; [done|].
  specialize (Hf x (list_elem_of_here _ _)) as Hx. destruct (f x) as [y|]; [simpl|done].
  assert (is_ok (mapM_result f l) = true) as Hl by (apply IH; intros z Hz; apply Hf; by right).
  by destruct (mapM_result f l).
Qed.

Lemma mapM_result_ok {A B} (f : A → result B) l ys :
  mapM_result f l = Ok ys ↔ Forall2 (λ x y, f x = Ok y) l ys.
Proof.
  revert ys. induction l as [|x l IH]; intros ys; simpl.
  - split; [intros [= <-]; constructor|by intros ->%Forall2_nil_inv_l].
  - split.
    + destruct (f x) as [y|] eqn:Hy; simpl; [|done]. destruct (mapM_result f l); simpl; [|done].
      intros [= <-]. constructor; [done|by apply IH].
    + intros (y & ys' & Hy & Hys & ->)%Forall2_cons_inv_l. rewrite Hy. simpl.
      by rewrite (proj2 (IH ys') Hys).
Qed.

(** ** Filters that keep everything, or nothing *)
Lemma list_filter_all {A} (P : A → Prop) `{!∀ x, Decision (P x)} (l : list A) :
  (∀ x, x ∈ l → P x) → filter P l = l.
Proof.
  induction l as [|x l IH]; intros Hl; [done|]. rewrite filter_cons_True by (apply Hl; left).
  f_equal. apply IH. intros y Hy. apply Hl. by right.
Qed.
Lemma list_filter_none {A} (P : A → Prop) `{!∀ x, Decision (P x)} (l : list A) :
  (∀ x, x ∈ l → ¬ P x) → filter P l = [].
Proof.
  induction l as [|x l IH]; intros Hl; [done|]. rewrite filter_cons_False by (apply Hl; left).
  apply IH. intros y Hy. apply Hl. by right.
Qed.

(** ** Lenses: a component's state inside a larger one *)
Record lens (S T : Type) := Lens {
  view : S → T;
  put : T → S → S
}.
Arguments Lens {S T} view put.
Arguments view {S T} l s.
Arguments put {S T} l t s.

Class LawfulLens {S T} (l : lens S T) : Prop := {
  view_put : ∀ t s, view l (put l t s) = t;
  put_view : ∀ s, put l (view l s) s = s;
  put_put : ∀ t t' s, put l t (put l t' s) = put l t s
}.

(** Two lenses onto different parts of one state. *)
Class DisjointLens {S T U} (l : lens S T) (k : lens S U) : Prop :=
  view_put_other : ∀ u s, view l (put k u s) = view l s.

Definition lens_compose {S T U} (l : lens S T) (k : lens T U) : lens S U :=
  Lens (λ s, view k (view l s)) (λ u s, put l (put k u (view l s)) s).

#[export] Instance lens_compose_lawful {S T U} (l : lens S T) (k : lens T U) :
  LawfulLens l → LawfulLens k → LawfulLens (lens_compose l k).
Proof.
  intros Hl Hk. split; simpl.
  - intros u s. by rewrite view_put, view_put.
  - intros s. by rewrite put_view, put_view.
  - intros u u' s. by rewrite view_put, put_put, put_put.
Qed.

(** Run a component's operation inside the larger state. *)
Definition zoom {S T A} (l : lens S T) (m : M T A) : M S A :=
  λ s, let '(t, r) := m (view l s) in (put l t s, r).

Lemma zoom_eq {S T A} (l : lens S T) (m : M T A) s :
  zoom l m s = (put l (m (view l s)).1 s, (m (view l s)).2).
Proof. unfold zoom. by destruct (m (view l s)). Qed.

Lemma zoom_compose {S T U A} (l : lens S T) (k : lens T U) (m : M U A) s :
  zoom (lens_compose l k) m s = zoom l (zoom k m) s.
Proof. unfold zoom. simpl. by destruct (m (view k (view l s))). Qed.

Lemma atomic_err {S A} (m : M S A) s s' e : atomic m s = (s', Err e) → s' = s.
Proof. unfold atomic. destruct (m s) as [? []]; congruence. Qed.

Lemma atomic_ok {S A} (m : M S A) s s' a :
  atomic m s = (s', Ok a) ↔ m s = (s', Ok a).
Proof. unfold atomic. destruct (m s) as [? []]; split; congruence. Qed.

Lemma bind_step {S A B} (m : M S A) (k : A → M S B) s s' a : m s = (s', Ok a) → bind m k s = k a s'.
Proof. unfold bind. by intros ->. Qed.
Lemma bind_stop {S A B} (m : M S A) (k : A → M S B) s s' e : m s = (s', Err e) → bind m k s = (s', Err e).
Proof. unfold bind. by intros ->. Qed.
Lemma bind_ok {S A B} (m : M S A) (k : A → M S B) s s' b :
  bind m k s = (s', Ok b) ↔ ∃ s1 a, m s = (s1, Ok a) ∧ k a s1 = (s', Ok b).
Proof.
  unfold bind. destruct (m s) as [s1 [a|e]]; split.
  - eauto.
  - intros (? & ? & ? & ?). by simplify_eq.
  - done.
  - intros (? & ? & ? & ?). by simplify_eq.
Qed.

(** Running a read, a lifted result or a guard. *)
Lemma bind_gets {S A B} (f : S → A) (k : A → M S B) s : bind (gets f) k s = k (f s) s.
Proof. done. Qed.
Lemma bind_lift {S A B} (r : result A) (k : A → M S B) s :
  bind (lift_result r) k s = match r with Ok a => k a s | Err e => (s, Err e) end.
Proof. done. Qed.
Lemma bind_raise_if {S B} (c : bool) e (k : unit → M S B) s :
  bind (raise_if c e) k s = if c then (s, Err e) else k tt s.
Proof. by destruct c. Qed.
Lemma bind_zoom {S T A B} (l : lens S T) (m : M T A) (k : A → M S B) s t a :
  m (view l s) = (t, Ok a) → bind (zoom l m) k s = k a (put l t s).
Proof. intros Hm. unfold bind. by rewrite zoom_eq, Hm. Qed.
(** A transaction leaves what its body committed, or nothing. *)
Lemma atomic_state {S A} (m : M S A) s :
  (atomic m s).1 = match (m s).2 with Ok _ => (m s).1 | Err _ => s end.
Proof. unfold atomic. by destruct (m s) as [? []]. Qed.

(** ** JSON values

    The [dict[str, Any]] payloads of the records, and the text columns that
    hold them: a JSON column is modelled by the value its text denotes.
    Objects keep their keys in insertion order, as Python's [dict] does. *)
#[warnings="-register-all"]
Inductive Json :=
| JNull
| JBool (b : bool)
| JInt (z : Z)
| JStr (s : string)
| JList (l : list Json)
| JObj (o : list (string * Json)).

(** The dictionaries the records hold at their top level. *)
Abbreviation dict := (gmap string Json).

Definition JOptStr (o : option string) : Json :=
  match o with Some s => JStr s | None => JNull end.
Definition JOptInt (o : option Z) : Json :=
  match o with Some z => JInt z | None => JNull end.
Definition is_obj (j : Json) : bool :=
  match j with JObj _ => true | _ => false end.

(** [obj.get(key)] on an object. *)
Fixpoint obj_get (o : list (string * Json)) (key : string) : option Json :=
  match o with
  | [] => None
  | (k, v) :: o' => if String.eqb k key then Some v else obj_get o' key
  end.

(** ** Python strings *)

(** Truth of a string and of an optional string. *)
Definition truthy (s : string) : bool := negb (bool_decide (s = EmptyString)).
Definition truthy_opt (o : option string) : bool :=
  match o with Some s => truthy s | None => false end.
(** [a or b] on optional strings: the first truthy operand, else the last. *)
Definition or_opt (a b : option string) : option string :=
  if truthy_opt a then a else b.
Definition opt_truthy {A} (o : option A) : bool :=
  match o with Some _ => true | None => false end.

Definition newline : string := String (ascii_of_nat 10) EmptyString.

(** [str.join] *)
Fixpoint py_join (sep : string) (l : list string) : string :=
  match l with
  | [] => EmptyString
  | [x] => x
  | x :: l' => x +:+ sep +:+ py_join sep l'
  end.

Definition has_char (c : ascii) (s : string) : bool :=
  existsb (Ascii.eqb c) (String.list_ascii_of_string s).

(** [repr] of a string: single quotes unless the text holds one and no double
    quote, with backslash escapes for the quote, the backslash, tab, newline,
    carriage return and the other control characters. *)
Definition hex_digit (n : nat) : ascii :=
  ascii_of_nat (if Nat.ltb n 10 then n + 48 else n + 87).
Definition repr_char (q c : ascii) : string :=
  let n := nat_of_ascii c in
  let bs := ascii_of_nat 92 in
  if Ascii.eqb c q || Nat.eqb n 92 then String bs (String c EmptyString)
  else if Nat.eqb n 9 then String bs "t"
  else if Nat.eqb n 10 then String bs "n"
  else if Nat.eqb n 13 then String bs "r"
  else if Nat.ltb n 32 || Nat.eqb n 127
  then String bs (String "x"%char
         (String (hex_digit (Nat.div n 16)) (String (hex_digit (Nat.modulo n 16)) EmptyString)))
  else String c EmptyString.
Definition py_repr (s : string) : string :=
  let sq := ascii_of_nat 39 in
  let dq := ascii_of_nat 34 in
  let q := if has_char sq s && negb (has_char dq s) then dq else sq in
  String q (foldr (λ c acc, repr_char q c +:+ acc) (String q EmptyString)
              (String.list_ascii_of_string s)).

Definition exn_str (e : exn) : string :=
  match e with
  | ValueError m | TypeError m | ValidationError m | RuntimeError m
  | IntegrityError m | RegistryError m | WorkerConfigError m
  | ResourcePolicyError m | JobAttemptSuperseded m | AuthError m _
  | RateLimitExceeded m | OtherValueError _ m | OtherException _ m => m
  | KeyError k => py_repr k
  | HTTPException code detail => pretty code +:+ ": " +:+ detail
  | AssertionError => EmptyString
  | MultipleResultsFound => "Multiple rows were found when one or none was required"
  end.

(** ** Tables

    A table with a text primary key is a [gmap] from the key to its row.  The
    order in which SQLite returns the rows an ORDER BY leaves tied is not
    documented, so the sort is a parameter: any function that returns a sorted
    permutation. *)
Class Sqlite := {
  order_by : ∀ {A : Type}, (A → A → bool) → list A → list A;
  order_by_perm : ∀ A (le : A → A → bool) l, order_by le l ≡ₚ l;
  order_by_sorted : ∀ A (le : A → A → bool) l,
    (∀ x y, le x y || le y x = true) →
    (∀ x y z, le x y = true → le y z = true → le x z = true) →
    StronglySorted (λ x y, le x y = true) (order_by le l)
}.

(** The rows of a table, in no particular order. *)
Definition rows {R} (t : gmap string R) : list R := (map_to_list t).*2.

(** [SELECT ... LIMIT n]: a negative limit means no limit. *)
Definition sql_limit {A} (n : Z) (l : list A) : list A :=
  if n <? 0 then l else take (Z.to_nat n) l.
(** [query.offset(max(offset, 0)).limit(max(1, min(limit, 500)))] *)
Definition sql_page {A} (offset limit : Z) (l : list A) : list A :=
  take (Z.to_nat (Z.max 1 (Z.min limit 500))) (drop (Z.to_nat (Z.max offset 0)) l).

(** ORDER BY keys. *)
Definition le_asc {A} (f : A → Z) (x y : A) : bool := f x <=? f y.
Definition le_desc {A} (f : A → Z) (x y : A) : bool := f y <=? f x.
Definition le_str {A} (f : A → string) (x y : A) : bool := String.leb (f x) (f y).
(** ORDER BY a, b *)
Definition le_then {A} (le1 le2 : A → A → bool) (x y : A) : bool :=
  if le1 x y then (if le1 y x then le2 x y else true) else false.

Definition insert_row {R} (table key : string) (r : R) : M (gmap string R) unit :=
  λ t, match t !! key with
       | Some _ => (t, Err (IntegrityError ("UNIQUE constraint failed: " +:+ table)))
       | None => (<[key := r]> t, Ok tt)
       end.

(** [UPDATE ... WHERE id = key AND p]: the result is [rowcount = 1]. *)
Definition update_row {R} (key : string) (p : R → bool) (f : R → R)
    : M (gmap string R) bool :=
  λ t, match t !! key with
       | Some r => if p r then (<[key := f r]> t, Ok true) else (t, Ok false)
       | None => (t, Ok false)
       end.

(** Insert the row, or replace the one that has its key. *)
Definition upsert_row {R} (key : string) (mk : option R → R) : M (gmap string R) unit :=
  λ t, (<[key := mk (t !! key)]> t, Ok tt).

(** [UPDATE ... WHERE p] over a whole table. *)
Definition update_rows {R} (p : R → bool) (f : R → R) (t : gmap string R) : gmap string R :=
  (λ r, if p r then f r else r) <$> t.

(** [DELETE ... WHERE p]: the rows that stay. *)
Definition delete_rows {R} (p : R → bool) (t : gmap string R) : gmap string R :=
  filter (λ kv, p kv.2 = false) t.
Definition count_rows {R} (p : R → bool) (t : gmap string R) : Z :=
  Z.of_nat (length (filter (λ r, p r = true) (rows t))).

Section tables.
Context {R : Type}.
Implicit Types (t : gmap string R) (r : R) (k : string).

Lemma elem_of_rows t r : r ∈ rows t ↔ ∃ k, t !! k = Some r.
Proof.
  unfold rows. rewrite list_elem_of_fmap. split.
  - intros ([k r'] & -> & H). exists k. by apply elem_of_map_to_list.
  - intros [k H]. exists (k, r). split; [done|]. by apply elem_of_map_to_list.
Qed.

(** Rows that know their key are pairwise distinct. *)
Lemma rows_NoDup (key : R → string) t :
  map_Forall (λ k r, key r = k) t → NoDup (rows t).
Proof.
  intros Hkey. unfold rows. apply NoDup_fmap_2_strong; [|apply NoDup_map_to_list].
  intros [k1 r1] [k2 r2] H1%elem_of_map_to_list H2%elem_of_map_to_list. simpl. intros <-.
  apply Hkey in H1. apply Hkey in H2. congruence.
Qed.

Lemma insert_row_ok table k r t t' :
  insert_row table k r t = (t', Ok tt) ↔ t !! k = None ∧ t' = <[k := r]> t.
Proof.
  unfold insert_row. destruct (t !! k); split.
  - done.
  - by intros [? _].
  - intros [= <-]. done.
  - by intros [_ ->].
Qed.

Lemma update_row_true k p f t t' :
  update_row k p f t = (t', Ok true) ↔
  ∃ r, t !! k = Some r ∧ p r = true ∧ t' = <[k := f r]> t.
Proof.
  unfold update_row. destruct (t !! k) as [r|]; [destruct (p r) eqn:?|]; split.
  - intros [= <-]. by exists r.
  - by intros (? & [= <-] & _ & ->).
  - done.
  - intros (? & ? & ? & ?). congruence.
  - done.
  - by intros (? & ? & _).
Qed.

Lemma update_row_false k p f t t' :
  update_row k p f t = (t', Ok false) →
  t' = t ∧ ∀ r, t !! k = Some r → p r = false.
Proof.
  unfold update_row. destruct (t !! k) as [r|]; [destruct (p r) eqn:?|];
    intros [= <-]; (split; [done|]); intros; congruence.
Qed.

Lemma lookup_update_rows p f t k :
  update_rows p f t !! k = (λ r, if p r then f r else r) <$> t !! k.
Proof. unfold update_rows. by rewrite lookup_fmap. Qed.

Lemma lookup_delete_rows p t k r :
  delete_rows p t !! k = Some r ↔ t !! k = Some r ∧ p r = false.
Proof. unfold delete_rows. apply map_lookup_filter_Some. Qed.
End tables.

Lemma order_by_elem `{Sqlite} {A} (le : A → A → bool) l x :
  x ∈ order_by le l ↔ x ∈ l.
Proof. by rewrite order_by_perm. Qed.

Lemma StronglySorted_weaken {A} (R R' : A → A → Prop) l :
  (∀ x y, x ∈ l → y ∈ l → R x y → R' x y) → StronglySorted R l → StronglySorted R' l.
Proof.
  intros Himp Hs. induction Hs as [|x l Hs IH HF]; constructor.
  - apply IH. intros y z Hy Hz. apply Himp; by right.
  - apply Forall_forall. intros y Hy. rewrite Forall_forall in HF.
    apply Himp; [left|by right|auto].
Qed.

Lemma le_asc_sorted `{Sqlite} {A} (f : A → Z) l :
  StronglySorted (λ x y, f x ≤ f y) (order_by (le_asc f) l).
Proof.
  eapply StronglySorted_weaken; [|apply (order_by_sorted _ (le_asc f))]; unfold le_asc; lia.
Qed.

Lemma le_then_total {A} (le1 le2 : A → A → bool) x y :
  le1 x y || le1 y x = true → le2 x y || le2 y x = true →
  le_then le1 le2 x y || le_then le1 le2 y x = true.
Proof. unfold le_then. by destruct (le1 x y), (le1 y x), (le2 x y), (le2 y x). Qed.

Lemma le_then_trans {A} (le1 le2 : A → A → bool) :
  (∀ x y z, le1 x y = true → le1 y z = true → le1 x z = true) →
  (∀ x y z, le2 x y = true → le2 y z = true → le2 x z = true) →
  ∀ x y z, le_then le1 le2 x y = true → le_then le1 le2 y z = true → le_then le1 le2 x z = true.
Proof.
  unfold le_then. intros H1 H2 x y z.
  destruct (le1 x y) eqn:Exy; [|done]. destruct (le1 y z) eqn:Eyz; [|by destruct (le1 y x)].
  rewrite (H1 x y z) by done.
  destruct (le1 y x) eqn:Eyx, (le1 z y) eqn:Ezy, (le1 z x) eqn:Ezx; try done; eauto;
    exfalso;
    repeat match goal with
    | Ha : le1 ?a ?b = true, Hb : le1 ?b ?c = true, Hc : le1 ?a ?c = false |- _ =>
        rewrite (H1 a b c Ha Hb) in Hc; discriminate Hc
    end.
Qed.

(** The first row of a descending order is a maximal one. *)
Lemma order_by_desc_head `{Sqlite} {A} (f : A → Z) l :
  match head (order_by (le_desc f) l) with
  | Some x => x ∈ l ∧ ∀ y, y ∈ l → f y ≤ f x
  | None => l = []
  end.
Proof.
  pose proof (order_by_sorted _ (le_desc f) l) as Hs.
  pose proof (order_by_elem (le_desc f) l) as Hin.
  destruct (order_by (le_desc f) l) as [|x l'] eqn:E; simpl.
  - destruct l as [|y l]; [done|]. exfalso.
    apply (not_elem_of_nil y), Hin. left.
  - split; [apply Hin; left|]. intros y Hy%Hin.
    assert (StronglySorted (λ x y, le_desc f x y = true) (x :: l')) as Hs'
      by (apply Hs; unfold le_desc; lia).
    apply StronglySorted_inv in Hs' as [_ HF].
    apply elem_of_cons in Hy as [->|Hy]; [lia|].
    rewrite Forall_forall in HF. specialize (HF y Hy). unfold le_desc in HF. lia.
Qed.

(** A concrete sort, for the runs on concrete inputs. *)
Definition le_dec {A} (le : A → A → bool) (x y : A) : Decision (le x y = true) :=
  bool_eq_dec (le x y) true.
Definition merge_by {A} (le : A → A → bool) (l : list A) : list A :=
  @merge_sort A (λ x y, le x y = true) (le_dec le) l.

Lemma merge_by_sorted A (le : A → A → bool) l :
  (∀ x y, le x y || le y x = true) →
  (∀ x y z, le x y = true → le y z = true → le x z = true) →
  StronglySorted (λ x y, le x y = true) (merge_by le l).
Proof.
  intros Htot Htrans. apply StronglySorted_merge_sort.
  - intros x y z. apply Htrans.
  - intros x y. specialize (Htot x y).
    destruct (le x y) eqn:?, (le y x) eqn:?; auto; discriminate.
Qed.

Definition sqlite_merge : Sqlite := {|
  order_by := @merge_by;
  order_by_perm := λ A le l, @merge_sort_Permutation A _ (le_dec le) l;
  order_by_sorted := merge_by_sorted
|}.

(** ** Frames

    [Preserves f m]: the call [m] leaves the part [f] of the state as it was,
    whether it returns or raises.  The instances let the proofs about a long
    handler step over the calls that do not touch the table at hand. *)
Class Preserves {S A B} (f : S → B) (m : M S A) : Prop :=
  preserves : ∀ s, f (m s).1 = f s.

Section preserves.
Context {S A B C : Type} (f : S → B).

#[export] Instance preserves_ret (a : A) : Preserves f (ret a).
Proof. by intros s. Qed.
#[export] Instance preserves_raise e : Preserves f (raise (A := A) e).
Proof. by intros s. Qed.
#[export] Instance preserves_gets (g : S → A) : Preserves f (gets g).
Proof. by intros s. Qed.
#[export] Instance preserves_lift (r : result A) : Preserves f (lift_result r).
Proof. by intros s. Qed.
#[export] Instance preserves_bind (m : M S A) (k : A → M S C) :
  Preserves f m → (∀ a, Preserves f (k a)) → Preserves f (bind m k).
Proof.
  intros Hm Hk s. unfold bind. specialize (Hm s).
  destruct (m s) as [s' [a|e]]; simpl in *; [|done].
  by rewrite <- Hm, (Hk a s').
Qed.
#[export] Instance preserves_atomic (m : M S A) :
  Preserves f m → Preserves f (atomic m).
Proof.
  intros Hm s. unfold atomic. specialize (Hm s).
  by destruct (m s) as [s' [a|e]].
Qed.
#[export] Instance preserves_try (m : M S A) h :
  Preserves f m → (∀ e, Preserves f (h e)) → Preserves f (try_catch m h).
Proof.
  intros Hm Hh s. unfold try_catch. specialize (Hm s).
  destruct (m s) as [s' [a|e]]; simpl in *; [done|].
  by rewrite <- Hm, (Hh e s').
Qed.
Lemma preserves_modify (g : S → S) : (∀ s, f (g s) = f s) → Preserves f (modify g).
Proof. intros Hg s. apply Hg. Qed.
End preserves.

#[export] Instance preserves_raise_if {S B} (f : S → B) c e : Preserves f (raise_if c e).
Proof. destruct c; apply _. Qed.
#[export] Instance preserves_forM {S A B} (f : S → B) (l : list A) (g : A → M S unit) :
  (∀ x, Preserves f (g x)) → Preserves f (forM_ l g).
Proof. intros Hg. induction l as [|x l IH]; [by intros s|]. simpl. by apply preserves_bind. Qed.

#[export] Instance preserves_zoom_disjoint {S T U A}
    (l : lens S T) (k : lens S U) (m : M U A) :
  DisjointLens l k → Preserves (view l) (zoom k m).
Proof. intros Hd s. rewrite zoom_eq. simpl. apply Hd. Qed.

(** ** Calls within a relation

    [Within R m]: whatever happens, the state after [m] is related to the one before.
    A frame is the case of an equality; a preorder composes along the syntax. *)
Class Within {S A} (R : S → S → Prop) (m : M S A) : Prop := within : ∀ s, R s (m s).1.

Section within.
Context {S A B : Type} (R : S → S → Prop) `{!PreOrder R}.

#[export] Instance within_ret (x : A) : Within R (ret x).
Proof. by intros s. Qed.
#[export] Instance within_raise e : Within R (raise (A := A) e).
Proof. by intros s. Qed.
#[export] Instance within_gets (f : S → A) : Within R (gets f).
Proof. by intros s. Qed.
#[export] Instance within_lift (r : result A) : Within R (lift_result r).
Proof. by intros s. Qed.
#[export] Instance within_raise_if c e : Within R (raise_if c e).
Proof. intros s. by destruct c. Qed.
#[export] Instance within_bind (m : M S A) (k : A → M S B) :
  Within R m → (∀ x, Within R (k x)) → Within R (bind m k).
Proof.
  intros Hm Hk s. unfold bind. specialize (Hm s). destruct (m s) as [s' [x|e]]; [|done].
  etransitivity; [exact Hm|apply Hk].
Qed.
#[export] Instance within_try (m : M S A) h :
  Within R m → (∀ e, Within R (h e)) → Within R (try_catch m h).
Proof.
  intros Hm Hh s. unfold try_catch. specialize (Hm s). destruct (m s) as [s' [x|e]]; [done|].
  etransitivity; [exact Hm|apply Hh].
Qed.
#[export] Instance within_atomic (m : M S A) : Within R m → Within R (atomic m).
Proof. intros Hm s. rewrite atomic_state. specialize (Hm s). by destruct (m s).2. Qed.
End within.
#[export] Instance within_forM {S A} (R : S → S → Prop) `{!PreOrder R} (l : list A) (f : A → M S unit) :
  (∀ x, Within R (f x)) → Within R (forM_ l f).
Proof. intros Hf. induction l as [|x l IH]; [by intros s|]. simpl. by apply within_bind. Qed.

(** A log that only grows, by entries that are all [P] *)
Definition appends {S A} (log : S → list A) (P : A → Prop) (s s' : S) : Prop :=
  ∃ new, log s' = log s ++ new ∧ Forall P new.
#[export] Instance appends_preorder {S A} (log : S → list A) P : PreOrder (appends log P).
Proof.
  split.
  - intros s. exists []. split; [by rewrite app_nil_r|constructor].
  - intros s1 s2 s3 (n1 & E1 & F1) (n2 & E2 & F2). exists (n1 ++ n2). rewrite E2, E1, app_assoc.
    split; [done|by apply Forall_app_2].
Qed.
Lemma appends_nothing {S A} (log : S → list A) P s s' : log s' = log s → appends log P s s'.
Proof. intros E. exists []. split; [by rewrite app_nil_r|constructor]. Qed.
Lemma appends_one {S A} (log : S → list A) (P : A → Prop) s s' x : log s' = log s ++ [x] → P x → appends log P s s'.
Proof. intros E Hx. exists [x]. by split; [|constructor]. Qed.

(** A component's call in the larger state, one call at a time. *)
Section within_zoom.
Context {S T : Type} (l : lens S T) `{!LawfulLens l}.

Lemma zoom_bind {A B} (m : M T A) (k : A → M T B) s :
  zoom l (bind m k) s = bind (zoom l m) (λ x, zoom l (k x)) s.
Proof.
  unfold bind. rewrite !zoom_eq. destruct (m (view l s)) as [t [x|e]]; simpl; [|done].
  by rewrite zoom_eq, view_put, put_put.
Qed.

Context (R : S → S → Prop) `{!PreOrder R}.
Lemma within_zoom_bind {A B} (m : M T A) (k : A → M T B) :
  Within R (zoom l m) → (∀ x, Within R (zoom l (k x))) → Within R (zoom l (bind m k)).
Proof. intros Hm Hk s. rewrite zoom_bind. by apply within_bind. Qed.
Lemma within_zoom_pure {A} (m : M T A) : Preserves (λ t, t) m → Within R (zoom l m).
Proof. intros Hm s. rewrite zoom_eq, (Hm (view l s)). by rewrite put_view. Qed.
Lemma within_zoom_forM {A} (xs : list A) (f : A → M T unit) :
  (∀ x, Within R (zoom l (f x))) → Within R (zoom l (forM_ xs f)).
Proof.
  intros Hf. induction xs as [|x xs IH]; [apply within_zoom_pure, _|].
  simpl. by apply within_zoom_bind.
Qed.
End within_zoom.

(** ** Hoare triples: [Q] after a return, [E] after an exception *)

Definition triple {S A} (P : S → Prop) (m : M S A) (Q : A → S → Prop) (E : exn → S → Prop) : Prop :=
  ∀ s, P s → match m s with (s', Ok a) => Q a s' | (s', Err e) => E e s' end.

Lemma triple_bind {S A B} (P : S → Prop) (m : M S A) (k : A → M S B) R Q E :
  triple P m R E → (∀ a, triple (R a) (k a) Q E) → triple P (bind m k) Q E.
Proof.
  intros Hm Hk s Hs. unfold bind. specialize (Hm s Hs). destruct (m s) as [s' [a|e]]; [|done].
  by apply Hk.
Qed.

Lemma triple_weaken {S A} (P P' : S → Prop) (m : M S A) Q Q' E E' :
  triple P' m Q' E' → (∀ s, P s → P' s) → (∀ a s, Q' a s → Q a s) → (∀ e s, E' e s → E e s) →
  triple P m Q E.
Proof.
  intros Hm HP HQ HE s Hs. specialize (Hm s (HP s Hs)). destruct (m s) as [s' [a|e]]; auto.
Qed.

Lemma triple_ret {S A} (P : S → Prop) (a : A) Q E : (∀ s, P s → Q a s) → triple P (ret a) Q E.
Proof. intros HQ s Hs. by apply HQ. Qed.
Lemma triple_raise {S A} (P : S → Prop) (e : exn) (Q : A → S → Prop) E :
  (∀ s, P s → E e s) → triple P (raise e) Q E.
Proof. intros HE s Hs. by apply HE. Qed.

Lemma triple_pure {S A} (φ : Prop) (P : S → Prop) (m : M S A) Q E :
  (φ → triple P m Q E) → triple (λ s, φ ∧ P s) m Q E.
Proof. intros Hm s [Hφ Hs]. by apply Hm. Qed.

(** After a call that does not raise. *)
Lemma triple_then {S A B} (P : S → Prop) (m : M S A) (k : A → M S B) R Q E :
  triple P m R (λ _ _, False) → (∀ a, triple (R a) (k a) Q E) → triple P (bind m k) Q E.
Proof.
  intros Hm Hk s Hs. unfold bind. specialize (Hm s Hs). destruct (m s) as [s' [a|e]]; [|done].
  by apply Hk.
Qed.

Lemma triple_modify {S} (P : S → Prop) (f : S → S) (Q : unit → S → Prop) E :
  (∀ s, P s → Q tt (f s)) → triple P (modify f) Q E.
Proof. intros HQ s Hs. by apply HQ. Qed.
Lemma triple_read {S A B} (P : S → Prop) (f : S → A) (k : A → M S B) Q E :
  (∀ s, P s → triple (λ s', s' = s) (k (f s)) Q E) → triple P (bind (gets f) k) Q E.
Proof. intros Hk s Hs. rewrite bind_gets. by apply (Hk s Hs s). Qed.

(** ** Tactics *)

(** ** The exceptions a call may raise *)

Class Raises {S A} (Q : exn → Prop) (m : M S A) : Prop := raises : ∀ s e, (m s).2 = Err e → Q e.

Section raises.
Context {S A B : Type} (Q : exn → Prop).

#[export] Instance raises_ret (x : A) : Raises Q (ret (S := S) x).
Proof. by intros s e. Qed.
#[export] Instance raises_gets (f : S → A) : Raises Q (gets f).
Proof. by intros s e. Qed.
Lemma raises_raise e : Q e → Raises Q (raise (S := S) (A := A) e).
Proof. intros HQ s e'. by intros [= <-]. Qed.
Lemma raises_lift (r : result A) : (∀ e, r = Err e → Q e) → Raises Q (lift_result (S := S) r).
Proof. intros HQ s e. apply HQ. Qed.
#[export] Instance raises_bind (m : M S A) (k : A → M S B) :
  Raises Q m → (∀ x, Raises Q (k x)) → Raises Q (bind m k).
Proof.
  intros Hm Hk s e. unfold bind. specialize (Hm s). destruct (m s) as [s' [x|e']]; [apply Hk|]. intros [= <-]. by apply Hm.
Qed.
Lemma raises_try (m : M S A) h : Raises Q m → (∀ e, Q e → Raises Q (h e)) → Raises Q (try_catch m h).
Proof.
  intros Hm Hh s e. unfold try_catch. specialize (Hm s). destruct (m s) as [s' [x|e']]; [done|].
  apply Hh. by apply Hm.
Qed.
Lemma raises_ok (m : M S A) : (∀ s, is_ok (m s).2 = true) → Raises Q m.
Proof. intros Hm s e He. specialize (Hm s). by rewrite He in Hm. Qed.
Lemma raises_if c e : Q e → Raises Q (raise_if (S := S) c e).
Proof. intros HQ s e'. destruct c; [by intros [= <-]|done]. Qed.
#[export] Instance raises_modify (f : S → S) : Raises Q (modify f).
Proof. by intros s e. Qed.
#[export] Instance raises_atomic (m : M S A) : Raises Q m → Raises Q (atomic m).
Proof. intros Hm s e. unfold atomic. specialize (Hm s). destruct (m s) as [s' [x|e']]; [done|]. apply Hm. Qed.
#[export] Instance raises_zoom {T} (l : lens T S) (m : M S A) : Raises Q m → Raises Q (zoom l m).
Proof. intros Hm s e. rewrite zoom_eq. apply Hm. Qed.
End raises.
#[export] Instance raises_forM {S A} Q (l : list A) (f : A → M S unit) :
  (∀ x, Raises Q (f x)) → Raises Q (forM_ l f).
Proof. intros Hf. induction l as [|x l IH]; [by intros s e|]. simpl. by apply raises_bind. Qed.
#[export] Instance raises_foldM {S A B} Q (f : B → A → M S B) acc (l : list A) :
  (∀ y x, Raises Q (f y x)) → Raises Q (foldM f acc l).
Proof. intros Hf. revert acc. induction l as [|x l IH]; intros acc; [by intros s e|]. simpl. by apply raises_bind. Qed.
#[export] Instance within_foldM {S A B} (R : S → S → Prop) `{!PreOrder R} (f : B → A → M S B) acc (l : list A) :
  (∀ y x, Within R (f y x)) → Within R (foldM f acc l).
Proof. intros Hf. revert acc. induction l as [|x l IH]; intros acc; [by intros s|]. simpl. by apply within_bind. Qed.

(** A call raises only what is allowed, by its syntax; an exception it builds itself is
    compared with what is allowed by computation. *)
Ltac solve_raises :=
  repeat (intros; first
    [ apply _ | apply raises_bind | apply raises_try | apply raises_zoom | apply raises_atomic
    | apply raises_if; hnf; by intros | apply raises_raise; hnf; by intros
    | match goal with
      | |- Raises _ (match ?x with _ => _ end) => destruct x eqn:?
      | |- Raises _ (lift_result ?x) => apply raises_lift; intros
      end | progress cbv zeta ]); intros.

(** A call within a preorder, by its syntax. *)
Ltac solve_within :=
  repeat (intros; first
    [ apply _
    | apply within_bind; [apply _|..] | apply within_try; [apply _|..] | apply within_atomic; [apply _|]
    | apply within_zoom_bind; [apply _..|idtac|] | solve [apply within_zoom_pure; apply _]
    | apply within_zoom_forM; [apply _..|] | apply within_forM; [apply _..|]
    | match goal with
      | |- Within _ (match ?x with _ => _ end) => destruct x
      | |- Within _ (zoom _ (match ?x with _ => _ end)) => destruct x
      end
    | progress cbv zeta ]); intros.

(** Frame a call by its syntax. *)
Ltac solve_preserves :=
  repeat (intros; first [ apply _ | apply preserves_modify; by intros []
                        | apply preserves_bind | apply preserves_atomic
                        | apply preserves_try
                        | match goal with |- Preserves _ (match ?x with _ => _ end) => destruct x end
                        | progress cbv zeta ]).
