(* ===== verification/CausalTime.v ===== *)
(** * Causal timestamps ([src/src/goblin_king/causal_time.py])

    The process-wide monotonic clock and the causal floor every persisted
    timestamp is placed after.  A timezone-aware UTC value is the number of
    microseconds since the epoch ([utc]); a [datetime] is what Python code hands
    in: local fields in microseconds and, unless naive, a UTC offset.

    The outside world is the class [Env]: the n-th reading of the wall clock and
    of the monotonic clock and the n-th [uuid4].  [Process] is what the process
    remembers between calls. *)

From S2P Require Import Prelude.

Definition utc := Z.

Record datetime := mkDatetime {
  dt_local : Z;             (* local fields, microseconds *)
  dt_offset : option Z      (* utcoffset, microseconds; None when naive *)
}.

(** The aware UTC datetime of an instant. *)
Definition of_utc (t : utc) : datetime := mkDatetime t (Some 0).

Definition MINIMUM_CAUSAL_STEP : Z := 1.

(** [ensure_utc]: a naive value is taken as UTC, an offset one is converted. *)
Definition ensure_utc (value : datetime) : utc :=
  match dt_offset value with
  | None => dt_local value
  | Some off => dt_local value - off
  end.

(** Readings of the outside world. *)
Class Env := {
  wall_clock : nat → datetime;
  monotonic_clock : nat → Z;     (* time.monotonic(), microseconds *)
  uuid4 : nat → string;
  (* Python's Unicode tables, beyond ASCII: str.lower of a text, str.isalnum of a character *)
  unicode_lower : string → string;
  unicode_isalnum : string → bool
}.

Record Process := mkProcess {
  clk_reads : nat;               (* wall-clock readings so far *)
  clk_last : option utc;         (* MonotonicUtcClock._last *)
  mono_reads : nat;
  uuids : nat
}.

Definition init_process : Process := mkProcess 0 None 0 0.

Section clock.
Context `{Env}.

(** [MonotonicUtcClock.now], the body under the lock. *)
Definition monotonic_utc_now : M Process utc :=
  λ p,
    let candidate := ensure_utc (wall_clock (clk_reads p)) in
    let value := match clk_last p with
                 | Some last => if candidate <=? last
                                then last + MINIMUM_CAUSAL_STEP else candidate
                 | None => candidate
                 end in
    (mkProcess (S (clk_reads p)) (Some value) (mono_reads p) (uuids p), Ok value).

(** [contracts.utc_now] *)
Definition utc_now : M Process utc := monotonic_utc_now.

Definition time_monotonic : M Process Z :=
  λ p, (mkProcess (clk_reads p) (clk_last p) (S (mono_reads p)) (uuids p),
        Ok (monotonic_clock (mono_reads p))).

Definition new_uuid : M Process string :=
  λ p, (mkProcess (clk_reads p) (clk_last p) (mono_reads p) (S (uuids p)),
        Ok (uuid4 (uuids p))).
End clock.

(** [max] of a non-empty list. *)
Fixpoint max_utc (first : utc) (rest : list utc) : utc :=
  match rest with
  | [] => first
  | x :: rest' => max_utc (Z.max first x) rest'
  end.

(** [causally_after] from the second line on: the value placed after the
    predecessors, given the current one. *)
Definition place_after (predecessors : list (option datetime)) (current : utc) : utc :=
  match omap (λ v, ensure_utc <$> v) predecessors with
  | [] => current
  | x :: rest =>
      let floor := max_utc x rest in
      if floor <? current then current else floor + MINIMUM_CAUSAL_STEP
  end.

Definition causally_after `{Env} (predecessors : list (option datetime))
    (candidate : option datetime) : M Process utc :=
  let* current := match candidate with
                  | Some c => ret (ensure_utc c)
                  | None => monotonic_utc_now
                  end in
  ret (place_after predecessors current).

(** ** Lemmas *)

Lemma max_utc_ge x l y : y ∈ x :: l → y ≤ max_utc x l.
Proof.
  revert x y. induction l as [|z l IH]; intros x y Hy; simpl.
  - apply list_elem_of_singleton in Hy. lia.
  - apply elem_of_cons in Hy as [->|Hy].
    + transitivity (Z.max x z); [lia|]. apply IH. left.
    + apply elem_of_cons in Hy as [->|Hy].
      * transitivity (Z.max x z); [lia|]. apply IH. left.
      * apply IH. by right.
Qed.

Lemma max_utc_in x l : max_utc x l ∈ x :: l.
Proof.
  revert x. induction l as [|z l IH]; intros x; simpl; [left|].
  specialize (IH (Z.max x z)). apply elem_of_cons in IH as [E|E].
  - rewrite E. destruct (Z.max_spec x z) as [[_ ->]|[_ ->]]; [right; left|left].
  - right. by right.
Qed.

Lemma place_after_gt preds current v :
  Some v ∈ preds → ensure_utc v < place_after preds current.
Proof.
  intros Hv. unfold place_after.
  assert (ensure_utc v ∈ omap (λ o, ensure_utc <$> o) preds) as Hin.
  { apply list_elem_of_omap. by exists (Some v). }
  destruct (omap _ preds) as [|x l]; [by apply not_elem_of_nil in Hin|].
  apply max_utc_ge in Hin. destruct (Z.ltb_spec (max_utc x l) current);
    unfold MINIMUM_CAUSAL_STEP; lia.
Qed.

Lemma place_after_ge preds current : current ≤ place_after preds current.
Proof.
  unfold place_after. destruct (omap _ _) as [|u l]; [lia|].
  destruct (Z.ltb_spec (max_utc u l) current); unfold MINIMUM_CAUSAL_STEP; lia.
Qed.

Lemma place_after_none preds current :
  Forall (λ o, o = None) preds → place_after preds current = current.
Proof.
  intros Hp. unfold place_after.
  replace (omap _ preds) with (@nil utc); [done|].
  induction Hp as [|? ? -> ? IH]; [done|]. simpl. apply IH.
Qed.

#[export] Hint Resolve place_after_gt place_after_ge : causal.

(** Clock readings: the values of [n] successive calls. *)
Fixpoint nows `{Env} (n : nat) : M Process (list utc) :=
  match n with
  | O => ret []
  | S n' => let* t := monotonic_utc_now in let* ts := nows n' in ret (t :: ts)
  end.

Lemma monotonic_utc_now_spec `{Env} p :
  ∃ v, monotonic_utc_now p =
         (mkProcess (S (clk_reads p)) (Some v) (mono_reads p) (uuids p), Ok v)
     ∧ ensure_utc (wall_clock (clk_reads p)) ≤ v
     ∧ (∀ last, clk_last p = Some last → last < v).
Proof.
  unfold monotonic_utc_now. eexists. split; [reflexivity|].
  destruct (clk_last p) as [last|]; [|split; [lia|done]].
  destruct (Z.leb_spec (ensure_utc (wall_clock (clk_reads p))) last);
    unfold MINIMUM_CAUSAL_STEP; (split; [lia|]); intros ? [= <-]; lia.
Qed.

Lemma nows_spec `{Env} n p :
  ∃ ts p', nows n p = (p', Ok ts) ∧ length ts = n
    ∧ StronglySorted Z.lt ts
    ∧ (∀ last, clk_last p = Some last → Forall (Z.lt last) ts).
Proof.
  revert p. induction n as [|n IH]; intros p; simpl.
  - exists [], p. repeat split; [constructor|by constructor].
  - destruct (monotonic_utc_now_spec p) as (v & Hnow & _ & Hlast).
    unfold bind. rewrite Hnow.
    destruct (IH (mkProcess (S (clk_reads p)) (Some v) (mono_reads p) (uuids p)))
      as (ts & p' & -> & Hlen & Hsorted & Hv).
    specialize (Hv v eq_refl).
    exists (v :: ts), p'. repeat split; simpl; [lia|by constructor|].
    intros last Hl. constructor; [by apply Hlast|].
    eapply Forall_impl; [exact Hv|]. intros x Hx. simpl in Hx. specialize (Hlast _ Hl). lia.
Qed.

(** ** Properties *)

(** Whatever the wall clock does (repeats, jumps back), the values the
    process-wide clock hands out in one process strictly increase. *)
Theorem monotonic_clock_strictly_increases `{Env} (n : nat) (p : Process) :
  ∃ ts p', nows n p = (p', Ok ts) ∧ length ts = n ∧ StronglySorted Z.lt ts.
Proof.
  destruct (nows_spec n p) as (ts & p' & Heq & Hlen & Hs & _). by exists ts, p'.
Qed.

(** [causally_after] returns, and its value is strictly after every
    predecessor given, never before the candidate (or the clock reading), and
    no later than it has to be: it is the current value itself, or one
    microsecond after some predecessor. *)
Theorem causally_after_spec `{Env} (preds : list (option datetime))
    (candidate : option datetime) (p : Process) :
  ∃ p' current v, causally_after preds candidate p = (p', Ok v)
    ∧ (∀ c, candidate = Some c → current = ensure_utc c ∧ p' = p)
    ∧ (candidate = None → monotonic_utc_now p = (p', Ok current))
    ∧ (∀ d, Some d ∈ preds → ensure_utc d < v)
    ∧ current ≤ v
    ∧ (v = current ∨ ∃ d, Some d ∈ preds ∧ v = ensure_utc d + 1).
Proof.
  assert (∀ current, let v := place_after preds current in
            v = current ∨ ∃ d, Some d ∈ preds ∧ v = ensure_utc d + 1) as Hmin.
  { intros current. unfold place_after.
    destruct (omap _ preds) as [|x l] eqn:E; [by left|]. simpl.
    destruct (Z.ltb_spec (max_utc x l) current); [by left|right].
    pose proof (max_utc_in x l) as Hin. rewrite <- E in Hin.
    apply list_elem_of_omap in Hin as ([d|] & Hd & Heq); [|done].
    injection Heq as Heq. exists d. split; [done|].
    unfold MINIMUM_CAUSAL_STEP. lia. }
  unfold causally_after. destruct candidate as [c|]; unfold bind, ret.
  - exists p, (ensure_utc c), (place_after preds (ensure_utc c)).
    split_and!; auto with causal; [|done].
    by intros ? [= ->].
  - destruct (monotonic_utc_now p) as [p' [t|e]] eqn:E; [|discriminate E].
    exists p', t, (place_after preds t).
    split_and!; auto with causal. done.
Qed.
