(* ===== verification/Contracts.v ===== *)
(** * The typed contracts ([src/src/goblin_king/contracts.py])

    Every Pydantic model of the contracts module as a record with the source's
    fields (a short prefix keeps the projections apart), the status literals as
    enumerations, and the validators that decide what a value may look like.
    Timestamps are UTC instants (see [CausalTime]); strings are ASCII text. *)

From Stdlib Require Import Ascii.
From S2P Require Import Prelude CausalTime.

(** ** Status literals *)

Inductive JobStatus :=
| JQueued | JLeased | JRunning | JCompleted | JFailed | JRetrying | JTimedOut | JCancelled.
Inductive RunStatus := RRunning | RCompleted | RFailed | RTimedOut.
Inductive EventSource := SrcApi | SrcScheduler | SrcRuntime | SrcWorker | SrcCli.
Inductive HeartbeatOwnerType := OwnerScheduler | OwnerWorker.
Inductive PrincipalRole := RoleAdmin | RoleMember | RoleViewer.
Inductive LongServiceStatus := LsRegistered | LsRunning | LsFailed | LsStopped.
Inductive ImagePromotionStatus := IpPlanned | IpBuilt | IpPushed | IpPromoted | IpFailed.
Inductive DeploymentRecordStatus := DpPlanned | DpRendered | DpDryRun | DpApplied | DpFailed.
Inductive ValidationStatus := ValidationPassed | ValidationFailed.
Inductive RepositoryGoblinType := NotebookFunction | NotebookService.
Inductive RepositoryEntryStatus :=
| Draft | Validated | PendingReview | Approved | Published | Rejected | Retired.
Inductive ResultStatus := ResSuccess | ResFailed.

#[export] Instance JobStatus_eq : EqDecision JobStatus. Proof. solve_decision. Defined.
#[export] Instance RunStatus_eq : EqDecision RunStatus. Proof. solve_decision. Defined.
#[export] Instance EventSource_eq : EqDecision EventSource. Proof. solve_decision. Defined.
#[export] Instance HeartbeatOwnerType_eq : EqDecision HeartbeatOwnerType.
Proof. solve_decision. Defined.
#[export] Instance PrincipalRole_eq : EqDecision PrincipalRole. Proof. solve_decision. Defined.
#[export] Instance LongServiceStatus_eq : EqDecision LongServiceStatus.
Proof. solve_decision. Defined.
#[export] Instance ValidationStatus_eq : EqDecision ValidationStatus.
Proof. solve_decision. Defined.
#[export] Instance RepositoryGoblinType_eq : EqDecision RepositoryGoblinType.
Proof. solve_decision. Defined.
#[export] Instance RepositoryEntryStatus_eq : EqDecision RepositoryEntryStatus.
Proof. solve_decision. Defined.
#[export] Instance ResultStatus_eq : EqDecision ResultStatus. Proof. solve_decision. Defined.

Definition job_status_str (s : JobStatus) : string :=
  match s with
  | JQueued => "queued" | JLeased => "leased" | JRunning => "running"
  | JCompleted => "completed" | JFailed => "failed" | JRetrying => "retrying"
  | JTimedOut => "timed_out" | JCancelled => "cancelled"
  end.
Definition run_status_str (s : RunStatus) : string :=
  match s with
  | RRunning => "running" | RCompleted => "completed"
  | RFailed => "failed" | RTimedOut => "timed_out"
  end.
Definition entry_status_str (s : RepositoryEntryStatus) : string :=
  match s with
  | Draft => "draft" | Validated => "validated" | PendingReview => "pending_review"
  | Approved => "approved" | Published => "published" | Rejected => "rejected"
  | Retired => "retired"
  end.
(** A Run status as the job status of the same name. *)
Definition job_status_of_run (s : RunStatus) : JobStatus :=
  match s with
  | RRunning => JRunning | RCompleted => JCompleted
  | RFailed => JFailed | RTimedOut => JTimedOut
  end.

(** ** The kind pattern

    One or more segments of lowercase letters and digits, separated by single
    dots or dashes, matched from the start of the value to its end.  The end
    anchor of Python's [re] is the dollar sign, which also matches before a
    newline that ends the string. *)
Definition is_kind_char (c : ascii) : bool :=
  let n := nat_of_ascii c in
  (Nat.leb 97 n && Nat.leb n 122) || (Nat.leb 48 n && Nat.leb n 57).
Definition is_kind_sep (c : ascii) : bool :=
  let n := nat_of_ascii c in Nat.eqb n 46 || Nat.eqb n 45.
Definition is_newline (c : ascii) : bool := Nat.eqb (nat_of_ascii c) 10.

Fixpoint kind_chars (in_segment : bool) (l : list ascii) : bool :=
  match l with
  | [] => in_segment
  | c :: l' =>
      if is_kind_char c then kind_chars true l'
      else if in_segment && is_kind_sep c then kind_chars false l'
      else in_segment && is_newline c && match l' with [] => true | _ => false end
  end.

Definition GOBLIN_KIND_PATTERN (value : string) : bool :=
  kind_chars false (String.list_ascii_of_string value).

(** [validate_kind], shared by every model with a [kind]. *)
Definition validate_kind (value : string) : result string :=
  if GOBLIN_KIND_PATTERN value then Ok value
  else Err (ValueError "kind must use lowercase letters, digits, dots, or dashes").

(** [str.strip()] and [str.lower()] on ASCII text. *)
Definition is_space (c : ascii) : bool :=
  let n := nat_of_ascii c in
  (Nat.leb 9 n && Nat.leb n 13) || (Nat.leb 28 n && Nat.leb n 32).
Fixpoint drop_spaces (l : list ascii) : list ascii :=
  match l with
  | c :: l' => if is_space c then drop_spaces l' else l
  | [] => []
  end.
Definition strip_chars (l : list ascii) : list ascii :=
  rev (drop_spaces (rev (drop_spaces l))).
Definition lower_char (c : ascii) : ascii :=
  let n := nat_of_ascii c in
  if Nat.leb 65 n && Nat.leb n 90 then ascii_of_nat (n + 32) else c.
Definition strip_lower (s : string) : string :=
  String.string_of_list_ascii (map lower_char (strip_chars (String.list_ascii_of_string s))).

(** [validate_tags]: the loop with its accumulator [tags]. *)
Fixpoint validate_tags_loop (tags value : list string) : result (list string) :=
  match value with
  | [] => Ok tags
  | tag :: value' =>
      let cleaned := strip_lower tag in
      if bool_decide (cleaned = EmptyString) then validate_tags_loop tags value'
      else if negb (GOBLIN_KIND_PATTERN cleaned)
      then Err (ValueError "tags must use lowercase letters, digits, dots, or dashes")
      else validate_tags_loop
             (if bool_decide (cleaned ∈ tags) then tags else tags ++ [cleaned]) value'
  end.
Definition validate_tags (value : list string) : result (list string) :=
  validate_tags_loop [] value.

(** [NotebookServiceRecord.validate_probe_path] *)
Definition validate_probe_path (value : string) : string :=
  match value with
  | String c _ => if Nat.eqb (nat_of_ascii c) 47 then value else "/" +:+ value
  | EmptyString => "/"
  end.

(** ** Goblins, results, jobs and runs *)

Record ArtifactRecord := mkArtifact {
  a_name : string; a_uri : string; a_media_type : option string }.
Record HandoffRecord := mkHandoff { h_kind : string; h_payload : dict }.

Record GoblinDefinition := mkGoblinDefinition {
  gd_kind : string;
  gd_display_name : string;
  gd_module : string;
  gd_entrypoint : string;
  gd_timeout_seconds : option Z;
  gd_max_retries : option Z;
  gd_metadata : dict
}.

Record GoblinContext := mkGoblinContext {
  gc_run_id : string; gc_artifact_root : string; gc_metadata : dict }.

Record GoblinResult := mkGoblinResult {
  gr_status : ResultStatus;
  gr_data : dict;
  gr_artifacts : list ArtifactRecord;
  gr_metrics : dict;
  gr_handoff : list HandoffRecord;
  gr_error : option string
}.

(** [GoblinResult.ok] and [GoblinResult.failed]; an omitted argument is empty. *)
Definition GoblinResult_ok (data : dict) (artifacts : list ArtifactRecord)
    (metrics : dict) (handoff : list HandoffRecord) : GoblinResult :=
  mkGoblinResult ResSuccess data artifacts metrics handoff None.
Definition GoblinResult_failed (error : string) (data : dict)
    (artifacts : list ArtifactRecord) (metrics : dict)
    (handoff : list HandoffRecord) : GoblinResult :=
  mkGoblinResult ResFailed data artifacts metrics handoff (Some error).
(** [GoblinResult.failed(error=..., data=...)] *)
Definition failed_result (error : string) (data : dict) : GoblinResult :=
  GoblinResult_failed error data [] ∅ [].

Record JobRecord := mkJob {
  j_id : string;
  j_kind : string;
  j_input : dict;
  j_created_at : utc;
  j_created_by : string;
  j_correlation_id : option string;
  j_project_id : option string;
  j_fanout_id : option string;
  j_metadata : dict;
  j_status : JobStatus;
  j_priority : Z;
  j_schedule_id : option string;
  j_due_at : option utc;
  j_lease_owner : option string;
  j_leased_until : option utc;
  j_attempt_count : Z;
  j_max_retries : Z;
  j_timeout_seconds : option Z;
  j_last_error : option string
}.

(** [JobRecord.effective_policy] *)
Definition job_effective_policy (j : JobRecord) : Json :=
  match j_metadata j !! "resource_policy" with
  | Some p => if is_obj p then p else JObj []
  | None => JObj []
  end.

Record FanoutRecord := mkFanout {
  f_id : string; f_created_at : utc; f_created_by : string;
  f_project_id : option string; f_correlation_id : option string;
  f_description : option string }.

Record EventRecord := mkEvent {
  e_id : string;
  e_sequence : Z;
  e_created_at : utc;
  e_event_type : string;
  e_source : EventSource;
  e_project_id : option string;
  e_job_id : option string;
  e_run_id : option string;
  e_fanout_id : option string;
  e_schedule_id : option string;
  e_worker_id : option string;
  e_scheduler_id : option string;
  e_payload : dict
}.

Record HeartbeatRecord := mkHeartbeat {
  hb_owner_id : string; hb_owner_type : HeartbeatOwnerType; hb_status : string;
  hb_last_seen_at : utc; hb_job_id : option string; hb_run_id : option string;
  hb_payload : dict }.

Record LongServiceRecord := mkLongService {
  ls_id : string; ls_kind : string; ls_project_id : option string;
  ls_image : option string; ls_base_url : string; ls_probe_path : string;
  ls_status : LongServiceStatus; ls_created_at : utc; ls_created_by : string;
  ls_last_probe_at : option utc; ls_last_probe_json : option dict }.

Record NotebookGoblinRecord := mkNotebookGoblin {
  ng_kind : string; ng_project_id : option string; ng_display_name : string;
  ng_image : string; ng_source : string; ng_source_hash : string;
  ng_function_name : string; ng_timeout_seconds : option Z; ng_max_retries : Z;
  ng_created_at : utc; ng_updated_at : utc; ng_created_by : string;
  ng_metadata : dict }.

Record NotebookServiceRecord := mkNotebookService {
  ns_kind : string; ns_project_id : option string; ns_display_name : string;
  ns_image : string; ns_source : string; ns_source_hash : string;
  ns_app_name : string; ns_requirements : list string; ns_port : Z;
  ns_probe_path : string; ns_created_at : utc; ns_updated_at : utc;
  ns_created_by : string; ns_metadata : dict;
  ns_runtime_backend : option string; ns_runtime_name : option string;
  ns_runtime_status : string; ns_active_service_id : option string }.

(** ** The Goblin Directory *)

Record RepositoryEntryRecord := mkRepositoryEntry {
  re_id : string; re_name : string; re_kind : string;
  re_type : RepositoryGoblinType; re_project_id : option string;
  re_owner : string; re_display_name : string; re_description : option string;
  re_tags : list string; re_status : RepositoryEntryStatus;
  re_published_version : option Z; re_created_at : utc; re_updated_at : utc }.

Record RepositoryVersionRecord := mkRepositoryVersion {
  rv_id : string; rv_entry_id : string; rv_version : Z; rv_kind : string;
  rv_source_hash : string; rv_runner_image : string; rv_validation_proof : dict;
  rv_approval_status : RepositoryEntryStatus; rv_status : RepositoryEntryStatus;
  rv_approved_by : option string; rv_approved_at : option utc;
  rv_published_at : option utc; rv_created_at : utc; rv_updated_at : utc }.

Record ImagePromotionRecord := mkImagePromotion {
  ip_id : string; ip_kind : string; ip_source_image : string;
  ip_target_image : string; ip_status : ImagePromotionStatus; ip_actor : string;
  ip_digest : option string; ip_created_at : utc; ip_updated_at : utc;
  ip_detail : dict }.

Record WorkerValidationRecord := mkWorkerValidation {
  wv_id : string; wv_kind : string; wv_image : string; wv_image_digest : string;
  wv_contract_version : string; wv_validator_version : string;
  wv_validated_at : utc; wv_status : ValidationStatus;
  wv_failure_reasons : list string; wv_effective_policy : dict }.

Record DeploymentRecord := mkDeployment {
  dr_id : string; dr_name : string; dr_action : string;
  dr_status : DeploymentRecordStatus; dr_actor : string;
  dr_command : list string; dr_output : option string; dr_created_at : utc;
  dr_updated_at : utc; dr_detail : dict }.

(** ** Runs and schedules *)

Record RunRecord := mkRun {
  r_id : string;
  r_job_id : string;
  r_kind : string;
  r_project_id : option string;
  r_attempt : Z;
  r_status : RunStatus;
  r_started_at : utc;
  r_finished_at : option utc;
  r_result : option GoblinResult;
  r_error : option string;
  r_timeout_seconds : option Z;
  r_max_retries : Z;
  r_leased_until : option utc;
  r_resource_policy : option dict
}.

(** The model validator [validate_timestamp_order], which every construction of
    a RunRecord goes through. *)
Definition validate_timestamp_order (r : RunRecord) : result RunRecord :=
  match r_finished_at r with
  | Some finished =>
      if finished <? r_started_at r
      then Err (ValidationError "finished_at must be greater than or equal to started_at")
      else Ok r
  | None => Ok r
  end.

(** [RunRecord.effective_policy] *)
Definition run_effective_policy (r : RunRecord) : dict :=
  default ∅ (r_resource_policy r).

Record ScheduleRecord := mkSchedule {
  sc_id : string; sc_kind : string; sc_project_id : option string; sc_input : dict;
  sc_cron : string; sc_timezone : string; sc_enabled : bool; sc_priority : Z;
  sc_created_at : utc; sc_next_run_at : utc; sc_last_materialized_at : option utc;
  sc_max_retries : Z; sc_timeout_seconds : option Z }.

(** ** Identity *)

Record UserRecord := mkUser {
  u_id : string; u_email : string; u_display_name : string; u_created_at : utc;
  u_disabled : bool }.
Record TeamRecord := mkTeam { tm_id : string; tm_name : string; tm_created_at : utc }.
Record ProjectRecord := mkProject { p_id : string; p_name : string; p_created_at : utc }.
Record MembershipRecord := mkMembership {
  mb_id : string; mb_project_id : string; mb_role : PrincipalRole;
  mb_user_id : option string; mb_team_id : option string; mb_created_at : utc }.
Record ApiTokenRecord := mkApiToken {
  t_id : string; t_name : string; t_token_hash : string; t_created_at : utc;
  t_user_id : string; t_project_id : option string; t_role : PrincipalRole;
  t_revoked_at : option utc }.
Record AuditLogRecord := mkAuditLog {
  al_id : string; al_created_at : utc; al_action : string; al_outcome : string;
  al_user_id : option string; al_token_id : option string;
  al_project_id : option string; al_resource_type : option string;
  al_resource_id : option string; al_detail : dict }.
Record RateLimitRecord := mkRateLimit {
  rl_key : string; rl_window_started_at : utc; rl_count : Z }.

(** ** Lemmas: the kind pattern *)

Definition segment (s : list ascii) : Prop := s ≠ [] ∧ Forall (λ c, is_kind_char c = true) s.

(** The words the pattern means: segments separated by single dots or dashes. *)
Inductive kind_word : list ascii → Prop :=
| kw_segment s : segment s → kind_word s
| kw_more s c w :
    segment s → is_kind_sep c = true → kind_word w → kind_word (s ++ c :: w).

Definition end_of_text (nl : list ascii) : Prop := nl = [] ∨ nl = [ascii_of_nat 10].

Lemma is_newline_eq c : is_newline c = true ↔ c = ascii_of_nat 10.
Proof.
  unfold is_newline. rewrite Nat.eqb_eq. split; [|by intros ->].
  intros E. by rewrite <- (ascii_nat_embedding c), E.
Qed.

Lemma kind_char_not_newline c : is_kind_char c = true → is_newline c = false.
Proof.
  intros H. destruct (is_newline c) eqn:E; [|done].
  apply is_newline_eq in E as ->. discriminate H.
Qed.

Lemma kind_word_cons c w : is_kind_char c = true → kind_word w → kind_word (c :: w).
Proof.
  intros Hc [s [Hs HF] | s d w' [Hs HF] Hd Hw].
  - apply kw_segment. split; [done|by constructor].
  - apply (kw_more (c :: s)); [|done..]. split; [done|by constructor].
Qed.

Lemma kind_chars_sound l :
  (kind_chars true l = true →
     ∃ w nl, l = w ++ nl ∧ end_of_text nl ∧ ∀ c, is_kind_char c = true → kind_word (c :: w))
  ∧ (kind_chars false l = true → ∃ w nl, l = w ++ nl ∧ end_of_text nl ∧ kind_word w).
Proof.
  induction l as [|x l [IHt IHf]]; split; simpl; intros H.
  - exists [], []. split_and!; [done|by left|]. intros c Hc.
    apply kw_segment. split; [done|by constructor].
  - done.
  - destruct (is_kind_char x) eqn:Hx; [|destruct (is_kind_sep x) eqn:Hs]; simpl in H.
    + destruct (IHt H) as (w & nl & -> & Hnl & Hw). exists (x :: w), nl.
      split_and!; [done..|]. intros c Hc. apply kind_word_cons; auto.
    + destruct (IHf H) as (w & nl & -> & Hnl & Hw). exists (x :: w), nl.
      split_and!; [done..|]. intros c Hc. apply (kw_more [c]); [|done..].
      split; [done|by constructor].
    + apply andb_true_iff in H as [Hn H]. destruct l; [|done].
      apply is_newline_eq in Hn as ->. exists [], [ascii_of_nat 10].
      split_and!; [done|by right|]. intros c Hc.
      apply kw_segment. split; [done|by constructor].
  - destruct (is_kind_char x) eqn:Hx; [|done].
    destruct (IHt H) as (w & nl & -> & Hnl & Hw). exists (x :: w), nl. auto.
Qed.

Lemma kind_chars_segment s r b :
  Forall (λ c, is_kind_char c = true) s → s ≠ [] ∨ b = true →
  kind_chars b (s ++ r) = kind_chars true r.
Proof.
  intros HF. revert b. induction HF as [|c s Hc HF IH]; intros b Hb; simpl.
  - by destruct Hb as [| ->].
  - rewrite Hc. apply IH. by right.
Qed.

Lemma kind_sep_not_char c : is_kind_sep c = true → is_kind_char c = false.
Proof.
  unfold is_kind_sep, is_kind_char. cbv zeta. intros H.
  apply orb_true_iff in H as [H%Nat.eqb_eq|H%Nat.eqb_eq]; by rewrite H.
Qed.

Lemma kind_chars_complete w nl :
  kind_word w → end_of_text nl → kind_chars false (w ++ nl) = true.
Proof.
  intros Hw Hnl. induction Hw as [s [Hs HF] | s c w [Hs HF] Hc Hw IH].
  - rewrite kind_chars_segment by auto. by destruct Hnl as [->| ->].
  - rewrite <- app_assoc, kind_chars_segment by auto. simpl.
    by rewrite kind_sep_not_char, Hc.
Qed.

(** ** Lemmas: tags *)

Lemma drop_spaces_app l :
  ∃ pre, l = pre ++ drop_spaces l ∧ Forall (λ c, is_space c = true) pre.
Proof.
  induction l as [|c l (pre & Heq & HF)]; simpl; [by exists []|].
  destruct (is_space c) eqn:Hc; [|by exists []].
  exists (c :: pre). simpl. split; [by f_equal|by constructor].
Qed.

Lemma drop_spaces_length l : (length (drop_spaces l) ≤ length l)%nat.
Proof. induction l as [|c l IH]; simpl; [done|]. destruct (is_space c); simpl; lia. Qed.

Lemma drop_spaces_fix l :
  drop_spaces l = l ↔ (∀ c, head l = Some c → is_space c = false).
Proof.
  destruct l as [|c l]; simpl; [done|]. destruct (is_space c) eqn:Hc; split.
  - intros E. pose proof (drop_spaces_length l) as Hl. rewrite E in Hl. simpl in Hl. lia.
  - intros H. by rewrite (H c eq_refl) in Hc.
  - intros _ ? [= <-]. done.
  - done.
Qed.

Lemma drop_spaces_head l c : head (drop_spaces l) = Some c → is_space c = false.
Proof.
  induction l as [|x l IH]; simpl; [done|]. destruct (is_space x) eqn:Hx; [done|].
  by intros [= <-].
Qed.

Lemma strip_chars_head l c : head (strip_chars l) = Some c → is_space c = false.
Proof.
  unfold strip_chars. intros H.
  destruct (drop_spaces_app (rev (drop_spaces l))) as (pre & Heq & _).
  apply (f_equal (@rev ascii)) in Heq. rewrite rev_involutive, rev_app_distr in Heq.
  apply (drop_spaces_head l). rewrite Heq.
  by destruct (rev (drop_spaces (rev (drop_spaces l)))).
Qed.

Lemma strip_chars_idemp l : strip_chars (strip_chars l) = strip_chars l.
Proof.
  unfold strip_chars at 1.
  rewrite (proj2 (drop_spaces_fix (strip_chars l))) by apply strip_chars_head.
  unfold strip_chars. rewrite rev_involutive.
  by rewrite (proj2 (drop_spaces_fix (drop_spaces (rev (drop_spaces l)))))
    by apply drop_spaces_head.
Qed.

Lemma is_space_lower c : is_space (lower_char c) = is_space c.
Proof. by destruct c as [[] [] [] [] [] [] [] []]. Qed.
Lemma lower_char_idemp c : lower_char (lower_char c) = lower_char c.
Proof. by destruct c as [[] [] [] [] [] [] [] []]. Qed.

Lemma drop_spaces_lower l : drop_spaces (map lower_char l) = map lower_char (drop_spaces l).
Proof.
  induction l as [|c l IH]; simpl; [done|]. rewrite is_space_lower.
  by destruct (is_space c).
Qed.

Lemma strip_lower_idemp s : strip_lower (strip_lower s) = strip_lower s.
Proof.
  unfold strip_lower. rewrite String.list_ascii_of_string_of_list_ascii. f_equal.
  rewrite <- (strip_chars_idemp (String.list_ascii_of_string s)) at 2.
  unfold strip_chars at 1 3.
  rewrite drop_spaces_lower, <- map_rev, drop_spaces_lower, <- map_rev, map_map.
  apply map_ext. intros c. apply lower_char_idemp.
Qed.

(** The tags the loop has kept. *)
Definition clean_tag (t : string) : Prop :=
  t ≠ EmptyString ∧ GOBLIN_KIND_PATTERN t = true ∧ strip_lower t = t.

Lemma validate_tags_loop_ok value acc ts :
  validate_tags_loop acc value = Ok ts → NoDup acc → Forall clean_tag acc →
  NoDup ts ∧ Forall clean_tag ts
  ∧ ∀ t, t ∈ ts ↔ t ∈ acc ∨ t ≠ EmptyString ∧ ∃ v, v ∈ value ∧ strip_lower v = t.
Proof.
  revert acc. induction value as [|v value IH]; intros acc; simpl.
  - intros [= ->] Hnd HF. split_and!; [done..|]. intros t. split; [by left|].
    intros [?|(_ & v & Hv & _)]; [done|]. by apply not_elem_of_nil in Hv.
  - intros H Hnd HF. case_bool_decide as Hempty.
    { destruct (IH _ H Hnd HF) as (? & ? & Hiff). split_and!; [done..|].
      intros t. rewrite Hiff. setoid_rewrite elem_of_cons. naive_solver. }
    destruct (GOBLIN_KIND_PATTERN (strip_lower v)) eqn:Hk; simpl in H; [|done].
    case_bool_decide as Hin.
    { destruct (IH _ H Hnd HF) as (? & ? & Hiff). split_and!; [done..|].
      intros t. rewrite Hiff. setoid_rewrite elem_of_cons. naive_solver. }
    destruct (IH _ H) as (? & ? & Hiff).
    { apply NoDup_app. split_and!; [done| |apply NoDup_singleton].
      intros x Hx Hx'%list_elem_of_singleton. congruence. }
    { apply Forall_app. split; [done|]. constructor; [|done].
      split_and!; [done..|apply strip_lower_idemp]. }
    split_and!; [done..|]. intros t. rewrite Hiff, elem_of_app, list_elem_of_singleton.
    setoid_rewrite elem_of_cons. naive_solver.
Qed.

Lemma validate_tags_loop_clean ts acc :
  Forall clean_tag ts → NoDup (acc ++ ts) → validate_tags_loop acc ts = Ok (acc ++ ts).
Proof.
  revert acc. induction ts as [|t ts IH]; intros acc HF Hnd; simpl; [by rewrite app_nil_r|].
  apply Forall_cons in HF as [(Hne & Hk & Hs) HF]. rewrite Hs.
  rewrite bool_decide_eq_false_2 by done. rewrite Hk. simpl.
  rewrite bool_decide_eq_false_2.
  - rewrite IH; [by rewrite <- app_assoc|done|by rewrite <- app_assoc].
  - apply NoDup_app in Hnd as (_ & Hd & _). intros Hin. by apply (Hd t Hin); left.
Qed.

(** ** Properties *)

(** The kind pattern accepts a value exactly when it is a sequence of
    lowercase alphanumeric segments separated by single dots or dashes, followed
    by nothing or by one newline. *)
Theorem kind_pattern_spec (value : string) :
  GOBLIN_KIND_PATTERN value = true ↔
  ∃ w nl, String.list_ascii_of_string value = w ++ nl ∧ kind_word w ∧ end_of_text nl.
Proof.
  unfold GOBLIN_KIND_PATTERN. split.
  - intros H. apply (proj2 (kind_chars_sound _)) in H as (w & nl & ? & ? & ?). eauto.
  - intros (w & nl & -> & Hw & Hnl). by apply kind_chars_complete.
Qed.

(** The tags that pass validation are distinct, non-empty, lowercase kind
    words: exactly the cleaned non-blank inputs; and validating them again
    changes nothing. *)
Theorem validate_tags_spec (value tags : list string) :
  validate_tags value = Ok tags →
  NoDup tags ∧ Forall clean_tag tags
  ∧ (∀ t, t ∈ tags ↔ t ≠ EmptyString ∧ ∃ v, v ∈ value ∧ strip_lower v = t)
  ∧ validate_tags tags = Ok tags.
Proof.
  intros H. apply validate_tags_loop_ok in H as (Hnd & HF & Hiff); [|constructor..].
  split_and!; [done..| |by apply (validate_tags_loop_clean tags [])].
  intros t. rewrite Hiff. set_solver.
Qed.

Lemma validate_tags_spec_witness :
  validate_tags ["math"; "data-prep"] = Ok ["math"; "data-prep"].
Proof.
  apply (validate_tags_spec [" Math"; "data-prep "; "  "; "MATH"] ["math"; "data-prep"]).
  vm_compute. reflexivity.
Defined.
