(* ===== verification/Text.v ===== *)
(** * Text: splitting, joining and UTF-8

    Python strings are modelled as the bytes of their UTF-8 encoding.  This file holds
    what the code uses of [str] and of the codec: [split], [splitlines], [strip], and
    decoding with [errors="replace"], where every maximal run of bytes that starts no
    valid character becomes U+FFFD. *)

From Stdlib Require Import Ascii.
From S2P Require Import Prelude Contracts.

Definition chars (s : string) : list ascii := String.list_ascii_of_string s.
Definition text (l : list ascii) : string := String.string_of_list_ascii l.
Lemma text_chars s : text (chars s) = s.
Proof. apply String.string_of_list_ascii_of_string. Qed.
Lemma chars_text l : chars (text l) = l.
Proof. apply String.list_ascii_of_string_of_list_ascii. Qed.
Lemma chars_inj s t : chars s = chars t → s = t.
Proof. intros Heq. by rewrite <- (text_chars s), Heq, text_chars. Qed.
Lemma chars_app s t : chars (s +:+ t) = (chars s ++ chars t)%list.
Proof. induction s as [|c s IH]; [done|]. unfold chars in *. simpl. by rewrite IH. Qed.
Lemma text_app l k : text (l ++ k)%list = text l +:+ text k.
Proof. apply chars_inj. by rewrite chars_app, !chars_text. Qed.

(** ** [split] and [join] on one separator *)

Fixpoint split_on (c : ascii) (l : list ascii) : list (list ascii) :=
  match l with
  | [] => [[]]
  | x :: l' =>
      if Ascii.eqb x c then [] :: split_on c l'
      else match split_on c l' with
           | w :: ws => (x :: w) :: ws
           | [] => [[x]]
           end
  end.
Fixpoint join_with (c : ascii) (ws : list (list ascii)) : list ascii :=
  match ws with
  | [] => []
  | [w] => w
  | w :: ws' => w ++ c :: join_with c ws'
  end.
Definition lacks (c : ascii) (w : list ascii) : Prop := Forall (λ x, Ascii.eqb x c = false) w.

Lemma split_on_not_nil c l : split_on c l ≠ [].
Proof. destruct l as [|x l]; simpl; [done|]. destruct (Ascii.eqb x c); [done|]. by destruct (split_on c l). Qed.

Lemma split_on_lacks c l : Forall (lacks c) (split_on c l).
Proof.
  induction l as [|x l IH]; simpl; [by repeat constructor|].
  destruct (Ascii.eqb x c) eqn:Hx; [by repeat constructor|].
  destruct (split_on c l) as [|w ws]; [by repeat constructor|].
  inversion IH as [|? ? Hw Hws]; subst. constructor; [by constructor|done].
Qed.

Lemma join_split c l : join_with c (split_on c l) = l.
Proof.
  induction l as [|x l IH]; simpl; [done|]. pose proof (split_on_not_nil c l) as Hne.
  destruct (Ascii.eqb_spec x c) as [->|Hx].
  - destruct (split_on c l) as [|w ws]; [done|]. change (c :: join_with c (w :: ws) = c :: l). by rewrite IH.
  - destruct (split_on c l) as [|w [|w' ws]]; [done|by rewrite <- IH|]. simpl in *. by rewrite IH.
Qed.

Lemma split_on_app c w l : lacks c w → split_on c (w ++ c :: l) = w :: split_on c l.
Proof.
  induction 1 as [|x w Hx Hw IH]; simpl; [by rewrite Ascii.eqb_refl|]. by rewrite Hx, IH.
Qed.
Lemma split_on_word c w : lacks c w → split_on c w = [w].
Proof. induction 1 as [|x w Hx Hw IH]; simpl; [done|]. by rewrite Hx, IH. Qed.

Lemma split_join c ws : ws ≠ [] → Forall (lacks c) ws → split_on c (join_with c ws) = ws.
Proof.
  intros Hne Hws. induction Hws as [|w ws Hw Hws IH]; [done|]. destruct ws as [|w' ws].
  - by apply split_on_word.
  - simpl. rewrite split_on_app by done. f_equal. by apply IH.
Qed.

(** [str.partition(c)]: the text before the first [c] and, if there is one, what follows. *)
Fixpoint partition_at (c : ascii) (l : list ascii) : list ascii * option (list ascii) :=
  match l with
  | [] => ([], None)
  | x :: l' => if Ascii.eqb x c then ([], Some l')
               else let '(a, b) := partition_at c l' in (x :: a, b)
  end.
Lemma partition_at_some c l a b : partition_at c l = (a, Some b) ↔ l = a ++ c :: b ∧ lacks c a.
Proof.
  revert a b. induction l as [|x l IH]; intros a b; simpl.
  - split; [done|]. intros [Heq _]. by destruct a.
  - destruct (Ascii.eqb_spec x c) as [->|Hx].
    + split; [intros [= <- <-]; split; [done|constructor]|]. intros [Heq Ha]. destruct a as [|y a]; [by injection Heq as ->|].
      injection Heq as -> _. inversion Ha as [|? ? Hy]; subst. by rewrite Ascii.eqb_refl in Hy.
    + apply Ascii.eqb_neq in Hx as Hf. destruct (partition_at c l) as [a' b'] eqn:Hl. split.
      * intros [= <- ->]. destruct (proj1 (IH a' b) eq_refl) as [-> Ha]. split; [done|by constructor].
      * intros [Heq Ha]. destruct a as [|y a]; [by injection Heq as ->|]. injection Heq as -> ->.
        inversion Ha as [|? ? Hy Ha']; subst.
        assert ((a', b') = (a, Some b)) as [= -> ->] by (apply IH; done). done.
Qed.

(** [str.rsplit(c, 1)]: the text before and after the last [c]. *)
Definition rsplit_once (c : ascii) (l : list ascii) : option (list ascii * list ascii) :=
  match partition_at c (rev l) with
  | (b, Some a) => Some (rev a, rev b)
  | _ => None
  end.
Lemma lacks_rev c w : lacks c w → lacks c (rev w).
Proof. apply List.Forall_rev. Qed.
Lemma rsplit_once_some c l a b : rsplit_once c l = Some (a, b) ↔ l = a ++ c :: b ∧ lacks c b.
Proof.
  unfold rsplit_once. destruct (partition_at c (rev l)) as [y o] eqn:Hp. split.
  - destruct o as [x|]; [|done]. intros [= <- <-]. apply partition_at_some in Hp as [Hl Hy].
    split; [|by apply lacks_rev]. rewrite <- (rev_involutive l), Hl, rev_app_distr. simpl.
    by rewrite <- app_assoc.
  - intros [-> Hb]. assert (partition_at c (rev (a ++ c :: b)) = (rev b, Some (rev a))) as Heq.
    { apply partition_at_some. split; [|by apply lacks_rev]. rewrite rev_app_distr. simpl.
      by rewrite <- app_assoc. }
    rewrite Hp in Heq. injection Heq as -> ->. by rewrite !rev_involutive.
Qed.

(** Strings are ordered by their bytes. *)
Lemma string_leb_trans s t u : String.leb s t = true → String.leb t u = true → String.leb s u = true.
Proof.
  unfold String.leb. revert t u. induction s as [|a s IH]; intros [|b t] [|c u]; simpl; try done.
  unfold Ascii.compare. destruct (N.compare_spec (N_of_ascii a) (N_of_ascii b)) as [Hab|Hab|Hab];
    destruct (N.compare_spec (N_of_ascii b) (N_of_ascii c)) as [Hbc|Hbc|Hbc]; try done;
    destruct (N.compare_spec (N_of_ascii a) (N_of_ascii c)) as [Hac|Hac|Hac]; try lia; try done; try apply IH.
Qed.
Lemma merge_by_text_sorted {A} (key : A → string) (l : list A) :
  NoDup (key <$> l) → StronglySorted (λ x y, String.ltb (key x) (key y) = true)
                        (merge_by (λ x y, String.leb (key x) (key y)) l).
Proof.
  intros Hnd. set (le := λ x y, String.leb (key x) (key y)).
  assert (StronglySorted (λ x y, le x y = true) (merge_by le l)) as Hs.
  { apply merge_by_sorted; unfold le.
    - intros x y. destruct (String.leb_total (key x) (key y)) as [-> | ->]; [done|apply orb_true_r].
    - intros x y z. apply string_leb_trans. }
  assert (NoDup (key <$> merge_by le l)) as Hnd'.
  { eapply NoDup_Permutation_proper; [apply fmap_Permutation, merge_sort_Permutation|done]. }
  revert Hnd'. induction Hs as [|x k Hk IH Hx]; intros Hnd'; constructor.
  - apply IH. by apply NoDup_cons in Hnd' as [_ ?].
  - apply NoDup_cons in Hnd' as [Hnin _]. apply Forall_forall. intros y Hy.
    apply (proj1 (Forall_forall _ _) Hx) in Hy as Hle. unfold le, String.leb in Hle. unfold String.ltb.
    destruct (String.compare (key x) (key y)) eqn:Hc; try done.
    apply String.compare_eq_iff in Hc. exfalso. apply Hnin. apply list_elem_of_fmap. by exists y.
Qed.

(** ** Lines and whitespace *)

(** The characters of a text, each as its UTF-8 bytes: a continuation byte belongs to the byte
    before it. *)
Definition is_continuation (c : ascii) : bool := let n := nat_of_ascii c in Nat.leb 128 n && Nat.leb n 191.
Fixpoint characters (l : list ascii) : list (list ascii) :=
  match l with
  | [] => []
  | c :: l' =>
      match characters l' with
      | ((d :: _) as w) :: ws => if is_continuation d then (c :: w) :: ws else [c] :: w :: ws
      | ws => [c] :: ws
      end
  end.
(** [str.isspace] of one character: the blanks of ASCII, U+0085, U+00A0, U+1680, U+2000 to
    U+200A, U+2028, U+2029, U+202F, U+205F and U+3000 *)
Definition wide_blanks : list (list nat) :=
  [[194; 133]; [194; 160]; [225; 154; 128]; [226; 129; 159]; [227; 128; 128]]%nat
  ++ ((λ b, [226; 128; b]%nat) <$> seq 128 11 ++ [168; 169; 175]%nat).
Definition blank_character (w : list ascii) : bool :=
  match w with [c] => is_space c | _ => bool_decide ((nat_of_ascii <$> w) ∈ wide_blanks) end.
Definition is_ascii (s : string) : bool := forallb (λ c, Nat.ltb (nat_of_ascii c) 128) (chars s).
Lemma characters_ascii l : Forall (λ c, Nat.ltb (nat_of_ascii c) 128 = true) l → characters l = (λ c, [c]) <$> l.
Proof.
  induction 1 as [|c l Hc Hl IH]; simpl; [done|]. rewrite IH. destruct Hl as [|d l Hd Hl]; [done|]. simpl.
  unfold is_continuation. apply Nat.ltb_lt in Hd. destruct (Nat.leb_spec 128 (nat_of_ascii d)); [lia|done].
Qed.
Fixpoint drop_blanks (l : list (list ascii)) : list (list ascii) :=
  match l with
  | w :: l' => if blank_character w then drop_blanks l' else l
  | [] => []
  end.
(** [str.strip] *)
Definition strip (s : string) : string :=
  text (concat (rev (drop_blanks (rev (drop_blanks (characters (chars s))))))).
Definition lower (s : string) : string := text (map lower_char (chars s)).
Definition starts_with (prefix s : string) : bool := String.prefix prefix s.
Definition text_ends_with (suffix s : string) : bool :=
  let l := chars s in let x := chars suffix in
  Nat.leb (length x) (length l) && bool_decide (drop (length l - length x) l = x).

(** [needle in haystack] on strings *)
Fixpoint text_contains (needle : list ascii) (hay : list ascii) : bool :=
  bool_decide (take (length needle) hay = needle)
  || match hay with [] => false | _ :: hay' => text_contains needle hay' end.
Definition in_text (query s : string) : bool :=
  text_contains (chars query) (chars s).
(** [str.split()]: the words between runs of whitespace. *)
Definition split_words (s : string) : list string :=
  text <$> filter (λ w, w ≠ []) (split_on " " ((λ c, if is_space c then " "%char else c) <$> chars s)).

(** [str.splitlines]: the line boundaries of ASCII, U+0085, U+2028 and U+2029; a carriage return
    and a newline are one. *)
Definition line_break (w : list ascii) : bool :=
  match w with
  | [c] => let n := nat_of_ascii c in (Nat.leb 10 n && Nat.leb n 13) || (Nat.leb 28 n && Nat.leb n 30)
  | _ => bool_decide ((nat_of_ascii <$> w) ∈ [[194; 133]; [226; 128; 168]; [226; 128; 169]]%nat)
  end.
Definition carriage_return : ascii := ascii_of_nat 13.
Definition line_feed : ascii := ascii_of_nat 10.
Fixpoint splitlines_from (line l : list (list ascii)) : list (list ascii) :=
  match l with
  | [] => match line with [] => [] | _ => [concat (rev line)] end
  | x :: l' =>
      if line_break x
      then concat (rev line) :: splitlines_from []
                         (match l' with
                          | y :: l'' => if bool_decide (x = [carriage_return] ∧ y = [line_feed]) then l'' else l'
                          | [] => l' end)
      else splitlines_from (x :: line) l'
  end.
Definition splitlines (s : string) : list string := text <$> splitlines_from [] (characters (chars s)).
Example splitlines_example :
  splitlines ("a" +:+ String (ascii_of_nat 13) (String (ascii_of_nat 10) ("b" +:+ newline +:+ newline)))
  = ["a"; "b"; EmptyString].
Proof. reflexivity. Qed.
(** A no-break space is a blank, a line separator ends a line, an e with an accent is neither. *)
Example wide_characters :
  strip (text (ascii_of_nat <$> [32; 194; 160; 195; 169; 226; 128; 137]%nat)) = text (ascii_of_nat <$> [195; 169]%nat)
  ∧ length (splitlines (text (ascii_of_nat <$> [97; 226; 128; 168; 195; 169]%nat))) = 2%nat.
Proof. vm_compute. done. Qed.

(** ** UTF-8

    The ranges the bytes after a leading byte must lie in. *)
Definition utf8_ranges (lead : nat) : option (list (nat * nat)) :=
  let c := (128, 191)%nat in
  let between lo hi := Nat.leb lo lead && Nat.leb lead hi in
  if Nat.ltb lead 128 then Some []
  else if between 194%nat 223%nat then Some [c]
  else if Nat.eqb lead 224 then Some [(160, 191); c]%nat
  else if Nat.eqb lead 237 then Some [(128, 159); c]%nat
  else if between 225%nat 239%nat then Some [c; c]
  else if Nat.eqb lead 240 then Some [(144, 191); c; c]%nat
  else if between 241%nat 243%nat then Some [c; c; c]
  else if Nat.eqb lead 244 then Some [(128, 143); c; c]%nat
  else None.

(** How many bytes fit the ranges, and whether all ranges were used. *)
Fixpoint match_ranges (rs : list (nat * nat)) (l : list ascii) : nat * bool :=
  match rs with
  | [] => (O, true)
  | (lo, hi) :: rs' =>
      match l with
      | x :: l' =>
          if Nat.leb lo (nat_of_ascii x) && Nat.leb (nat_of_ascii x) hi
          then let '(n, ok) := match_ranges rs' l' in (S n, ok) else (O, false)
      | [] => (O, false)
      end
  end.
Definition utf8_lead (b : ascii) (l : list ascii) : nat * bool :=
  match utf8_ranges (nat_of_ascii b) with
  | Some rs => match_ranges rs l
  | None => (O, false)
  end.

(** The characters of a byte string: each with its bytes and whether they are one. *)
Fixpoint utf8_from (fuel : nat) (l : list ascii) : list (list ascii * bool) :=
  match fuel, l with
  | S fuel', b :: l' =>
      let '(n, ok) := utf8_lead b l' in (b :: take n l', ok) :: utf8_from fuel' (drop n l')
  | _, _ => []
  end.
Definition utf8_chars (l : list ascii) : list (list ascii * bool) := utf8_from (length l) l.
Definition utf8_valid (l : list ascii) : bool := forallb snd (utf8_chars l).
(** [bytes.decode("utf-8")], strict: the model of a string is its bytes. *)
Definition utf8_decode (s : string) : option string := if utf8_valid (chars s) then Some s else None.
(** U+FFFD *)
Definition replacement : list ascii := ascii_of_nat <$> [239; 191; 189]%nat.
Definition replace_char (w : list ascii * bool) : list ascii := if w.2 then w.1 else replacement.
(** [bytes.decode("utf-8", errors="replace")] *)
Definition decode_replace (l : list ascii) : list ascii := concat (replace_char <$> utf8_chars l).
(** [len] and slicing of a string count characters. *)
Definition str_len (s : string) : Z := Z.of_nat (length (utf8_chars (chars s))).
Definition str_take (n : Z) (s : string) : string :=
  text (concat (fst <$> take (Z.to_nat n) (utf8_chars (chars s)))).

Lemma utf8_from_fuel n m l :
  (length l ≤ n)%nat → (length l ≤ m)%nat → utf8_from n l = utf8_from m l.
Proof.
  revert m l. induction n as [|n IH]; intros [|m] l Hn Hm; try (by destruct l; simpl in *; [|lia]).
  destruct l as [|b l]; [done|]. simpl in *. destruct (utf8_lead b l) as [k ok]. f_equal.
  apply IH; rewrite length_drop; lia.
Qed.
Lemma utf8_chars_cons b l :
  utf8_chars (b :: l) = (b :: take (utf8_lead b l).1 l, (utf8_lead b l).2) :: utf8_chars (drop (utf8_lead b l).1 l).
Proof.
  unfold utf8_chars at 1. simpl. destruct (utf8_lead b l) as [k ok]. simpl. f_equal.
  apply utf8_from_fuel; rewrite ?length_drop; lia.
Qed.

(** Induction along the characters. *)
Lemma utf8_ind (P : list ascii → Prop) :
  P [] → (∀ b l, P (drop (utf8_lead b l).1 l) → P (b :: l)) → ∀ l, P l.
Proof.
  intros Hnil Hcons l. assert (∀ n l, (length l ≤ n)%nat → P l) as Hall; [|by apply (Hall (length l))].
  clear l. induction n as [|n IH]; intros [|b l] Hl; simpl in Hl; [done|lia|done|].
  apply Hcons, IH. rewrite length_drop. lia.
Qed.

Lemma utf8_chars_concat l : concat (utf8_chars l).*1 = l.
Proof.
  induction l as [|b l IH] using utf8_ind; [done|]. rewrite utf8_chars_cons.
  cbn [fmap list_fmap concat fst]. rewrite IH. simpl. by rewrite take_drop.
Qed.
Lemma utf8_valid_cons b l :
  utf8_valid (b :: l) = (utf8_lead b l).2 && utf8_valid (drop (utf8_lead b l).1 l).
Proof. unfold utf8_valid. by rewrite utf8_chars_cons. Qed.
Lemma decode_replace_cons b l :
  decode_replace (b :: l)
  = replace_char (b :: take (utf8_lead b l).1 l, (utf8_lead b l).2) ++ decode_replace (drop (utf8_lead b l).1 l).
Proof. unfold decode_replace. by rewrite utf8_chars_cons. Qed.
Lemma decode_replace_valid l : utf8_valid l = true → decode_replace l = l.
Proof.
  induction l as [|b l IH] using utf8_ind; [done|].
  rewrite utf8_valid_cons, decode_replace_cons, andb_true_iff. intros [Hok Hv].
  rewrite IH by done. unfold replace_char. simpl. rewrite Hok. simpl. by rewrite take_drop.
Qed.

(** Cutting valid text at any byte leaves the rest of one character, then valid text. *)
Definition continues (c : ascii) : bool :=
  Nat.leb 128 (nat_of_ascii c) && Nat.leb (nat_of_ascii c) 191.
Lemma match_ranges_continue rs l :
  Forall (λ r, (128 ≤ r.1 ∧ r.2 ≤ 191)%nat) rs →
  Forall (λ c, continues c = true) (take (match_ranges rs l).1 l) ∧ ((match_ranges rs l).1 ≤ length rs)%nat.
Proof.
  intros Hrs. revert l. induction Hrs as [|[lo hi] rs [Hlo Hhi] Hrs IH]; intros l; simpl; [by split; [constructor|]|].
  destruct l as [|x l]; simpl; [split; [constructor|lia]|].
  destruct (Nat.leb_spec lo (nat_of_ascii x)), (Nat.leb_spec (nat_of_ascii x) hi); simpl;
    try (split; [by constructor|lia]).
  destruct (IH l) as [Hf Hn]. destruct (match_ranges rs l) as [n ok]. simpl in *. split; [|lia].
  constructor; [|done]. unfold continues. apply andb_true_iff. split; apply Nat.leb_le; lia.
Qed.
Lemma utf8_ranges_continue n rs :
  utf8_ranges n = Some rs → Forall (λ r, (128 ≤ r.1 ∧ r.2 ≤ 191)%nat) rs ∧ (length rs ≤ 3)%nat.
Proof.
  unfold utf8_ranges. repeat case_match; intros [= <-]; (split; [repeat constructor; simpl; lia|simpl; lia]).
Qed.
Lemma utf8_lead_continue b l :
  Forall (λ c, continues c = true) (take (utf8_lead b l).1 l) ∧ ((utf8_lead b l).1 ≤ 3)%nat.
Proof.
  unfold utf8_lead. destruct (utf8_ranges (nat_of_ascii b)) as [rs|] eqn:Hrs; [|split; [constructor|simpl; lia]].
  apply utf8_ranges_continue in Hrs as [Hf Hl]. destruct (match_ranges_continue rs l Hf). split; [done|lia].
Qed.
Lemma utf8_cut l k :
  utf8_valid l = true →
  ∃ w r, drop k l = w ++ r ∧ (length w ≤ 3)%nat ∧ Forall (λ c, continues c = true) w ∧ utf8_valid r = true.
Proof.
  revert k. induction l as [|b l IH] using utf8_ind; intros k Hv.
  { exists [], []. rewrite drop_nil. split_and!; [done|simpl; lia|constructor|done]. }
  destruct k as [|k]; [exists [], (b :: l); split_and!; [done|simpl; lia|constructor|done]|].
  rewrite utf8_valid_cons, andb_true_iff in Hv. destruct Hv as [Hok Hv].
  destruct (utf8_lead_continue b l) as [Hc Hn]. set (n := (utf8_lead b l).1) in *. simpl.
  destruct (decide (k ≤ n)%nat) as [Hk|Hk].
  - exists (drop k (take n l)), (drop n l). split_and!; [|rewrite length_drop, length_take; lia|by apply Forall_drop|done].
    rewrite <- (take_drop n l) at 1. destruct (decide (n ≤ length l)%nat) as [Hl|Hl].
    + rewrite drop_app_le by (rewrite length_take; lia). done.
    + rewrite (drop_ge l n) by lia. by rewrite !app_nil_r.
  - destruct (IH (k - n)%nat Hv) as (w & r & Heq & Hw). exists w, r. split; [|done].
    rewrite drop_drop in Heq. rewrite <- Heq. f_equal. lia.
Qed.

(** A continuation byte starts no character. *)
Lemma continues_lead b l : continues b = true → utf8_lead b l = (O, false).
Proof.
  unfold continues, utf8_lead, utf8_ranges. intros [H1%Nat.leb_le H2%Nat.leb_le]%andb_true_iff.
  repeat (case_match; rewrite ?andb_true_iff, ?andb_false_iff, ?Nat.leb_le, ?Nat.ltb_lt, ?Nat.eqb_eq in *; try lia; try done).
Qed.
Lemma decode_replace_continues w r :
  Forall (λ c, continues c = true) w →
  decode_replace (w ++ r) = concat (replicate (length w) replacement) ++ decode_replace r.
Proof.
  induction 1 as [|c w Hc Hw IH]; [done|]. simpl app. rewrite decode_replace_cons, continues_lead by done.
  cbn [fst snd drop length replicate concat]. by rewrite drop_0, IH, app_assoc.
Qed.
Lemma length_replacements n : length (concat (replicate n replacement)) = (3 * n)%nat.
Proof. induction n as [|n IH]; [done|]. simpl. simpl in IH. rewrite IH. lia. Qed.
