(* ===== verification/Base64.v ===== *)
(** * URL-safe base64 ([base64.urlsafe_b64encode], [base64.urlsafe_b64decode])

    Encoding writes a padded text; decoding reads as CPython's [a2b_base64] does when it is
    not strict: characters outside the alphabet are skipped, and what follows complete
    padding is not read.  What is encoded decodes to itself, with its padding or after the
    padding was stripped and put back. *)

From Stdlib Require Import Ascii ZifyNat.
From S2P Require Import Prelude Contracts Text.

Definition base64_char (n : nat) : ascii :=
  ascii_of_nat (if Nat.ltb n 26 then n + 65 else if Nat.ltb n 52 then n + 71 else if Nat.ltb n 62 then n - 4
                else if Nat.eqb n 62 then 45 else 95).
Definition base64_value (c : ascii) : option nat :=
  let n := nat_of_ascii c in
  if Nat.leb 65 n && Nat.leb n 90 then Some (n - 65)%nat
  else if Nat.leb 97 n && Nat.leb n 122 then Some (n - 71)%nat
  else if Nat.leb 48 n && Nat.leb n 57 then Some (n + 4)%nat
  else if Nat.eqb n 45 || Nat.eqb n 43 then Some 62%nat
  else if Nat.eqb n 95 || Nat.eqb n 47 then Some 63%nat
  else None.
Definition pad_char : ascii := "=".

(** Groups of three bytes; the last one may be shorter. *)
Fixpoint encode_bytes (l : list ascii) : list ascii * nat :=
  match l with
  | [] => ([], O)
  | [a] =>
      let x := nat_of_ascii a in
      ([base64_char (x / 4); base64_char (x mod 4 * 16)], 2%nat)
  | [a; b] =>
      let x := nat_of_ascii a in let y := nat_of_ascii b in
      ([base64_char (x / 4); base64_char (x mod 4 * 16 + y / 16); base64_char (y mod 16 * 4)], 1%nat)
  | a :: b :: c :: rest =>
      let x := nat_of_ascii a in let y := nat_of_ascii b in let z := nat_of_ascii c in
      let '(more, pads) := encode_bytes rest in
      (base64_char (x / 4) :: base64_char (x mod 4 * 16 + y / 16) :: base64_char (y mod 16 * 4 + z / 64)
        :: base64_char (z mod 64) :: more, pads)
  end%nat.
Definition urlsafe_b64encode (l : list ascii) : list ascii :=
  let '(text, pads) := encode_bytes l in text ++ replicate pads pad_char.
(** [.rstrip("=")] *)
Fixpoint drop_pads (l : list ascii) : list ascii :=
  match l with c :: l' => if Ascii.eqb c pad_char then drop_pads l' else l | [] => [] end.
Definition rstrip_pads (l : list ascii) : list ascii := reverse (drop_pads (reverse l)).

(** The state of the decoder: its place in a group of four, the bits left over, the pads
    seen since the last character.  [None] is binascii.Error. *)
Fixpoint decode_bytes (place left pads : nat) (l : list ascii) : option (list ascii) :=
  match l with
  | [] => if Nat.eqb place 0 then Some [] else None
  | c :: l' =>
      if Ascii.eqb c pad_char then
        if Nat.leb 2 place && Nat.leb 4 (place + S pads) then Some [] else decode_bytes place left (if Nat.leb 2 place then S pads else pads) l'
      else
        match base64_value c with
        | None => decode_bytes place left pads l'
        | Some v =>
            match place with
            | 0 => decode_bytes 1 v 0 l'
            | 1 => (λ r, ascii_of_nat (left * 4 + v / 16) :: r) <$> decode_bytes 2 (v mod 16) 0 l'
            | 2 => (λ r, ascii_of_nat (left * 16 + v / 4) :: r) <$> decode_bytes 3 (v mod 4) 0 l'
            | _ => (λ r, ascii_of_nat (left * 64 + v) :: r) <$> decode_bytes 0 0 0 l'
            end
        end
  end%nat.
Definition urlsafe_b64decode (l : list ascii) : option (list ascii) := decode_bytes 0 0 0 l.

Example base64_examples :
  text (urlsafe_b64encode (chars "goblins?>")) = "Z29ibGlucz8-" ∧ text (urlsafe_b64encode (chars "ab")) = "YWI="
  ∧ text <$> urlsafe_b64decode (chars "YW I=ignored") = Some "ab" ∧ urlsafe_b64decode (chars "YWI") = None.
Proof. vm_compute. by split_and!. Qed.

(** ** Round trip *)

Lemma six_bits (P : nat → Prop) : Forall P (seq 0 64) → ∀ n, (n < 64)%nat → P n.
Proof. intros HP n Hn. rewrite Forall_forall in HP. apply HP. apply elem_of_seq. lia. Qed.
Lemma base64_value_char n : (n < 64)%nat → base64_value (base64_char n) = Some n ∧ Ascii.eqb (base64_char n) pad_char = false.
Proof.
  revert n. apply six_bits. simpl seq. repeat (apply Forall_cons; split; [vm_compute; by split|]). constructor.
Qed.
Lemma decode_char place left pads n l : (n < 64)%nat →
  decode_bytes place left pads (base64_char n :: l) = (match place with
    | 0 => decode_bytes 1 n 0 l
    | 1 => (λ r, ascii_of_nat (left * 4 + n / 16) :: r) <$> decode_bytes 2 (n mod 16) 0 l
    | 2 => (λ r, ascii_of_nat (left * 16 + n / 4) :: r) <$> decode_bytes 3 (n mod 4) 0 l
    | _ => (λ r, ascii_of_nat (left * 64 + n) :: r) <$> decode_bytes 0 0 0 l
    end)%nat.
Proof. intros Hn. destruct (base64_value_char n Hn) as [Hv Hp]. cbn [decode_bytes]. by rewrite Hp, Hv. Qed.
Lemma byte_back a n : n = nat_of_ascii a → ascii_of_nat n = a.
Proof. intros ->. apply ascii_nat_embedding. Qed.

(** The bits of three bytes in four characters *)
Ltac Zify.zify_post_hook ::= Z.to_euclidean_division_equations.
Lemma bits_bound x y z : (x < 256)%nat → (y < 256)%nat → (z < 256)%nat →
  (x / 4 < 64 ∧ x mod 4 * 16 + y / 16 < 64 ∧ y mod 16 * 4 + z / 64 < 64 ∧ z mod 64 < 64)%nat.
Proof. lia. Qed.
Lemma bits_first x y : (x < 256)%nat → (y < 256)%nat → (x / 4 * 4 + (x mod 4 * 16 + y / 16) / 16 = x)%nat.
Proof. lia. Qed.
Lemma bits_second x y z : (x < 256)%nat → (y < 256)%nat → (z < 256)%nat →
  ((x mod 4 * 16 + y / 16) mod 16 * 16 + (y mod 16 * 4 + z / 64) / 4 = y)%nat.
Proof. lia. Qed.
Lemma bits_third y z : (y < 256)%nat → (z < 256)%nat → ((y mod 16 * 4 + z / 64) mod 4 * 64 + z mod 64 = z)%nat.
Proof. lia. Qed.
Ltac Zify.zify_post_hook ::= idtac.

Lemma three_bytes (P : list ascii → Prop) :
  P [] → (∀ a, P [a]) → (∀ a b, P [a; b]) → (∀ a b c l, P l → P (a :: b :: c :: l)) → ∀ l, P l.
Proof.
  intros H0 H1 H2 H3. assert (∀ n l, (length l ≤ n)%nat → P l) as H; [|intros l; by apply (H (length l))].
  induction n as [|n IH]; intros [|a [|b [|c l]]] Hl; simpl in Hl; try lia; try done. apply H3, IH. lia.
Qed.
Lemma decode_encode_pads l :
  urlsafe_b64decode ((encode_bytes l).1 ++ replicate (encode_bytes l).2 pad_char) = Some l.
Proof.
  unfold urlsafe_b64decode. assert (0 < 256)%nat as H0 by lia.
  induction l as [|a|a b|a b c l IH] using three_bytes; [done|..].
  - pose proof (nat_ascii_bounded a) as Ha. cbn [encode_bytes fst snd].
    destruct (bits_bound _ 0 0 Ha H0 H0) as (B1 & B2 & _). pose proof (bits_first _ 0 Ha H0) as E.
    change (0 / 16)%nat with 0%nat in *. rewrite Nat.add_0_r in B2, E. cbn [app]. rewrite !decode_char by done. cbn. repeat f_equal. by apply byte_back.
  - pose proof (nat_ascii_bounded a) as Ha. pose proof (nat_ascii_bounded b) as Hb. cbn [encode_bytes fst snd].
    destruct (bits_bound _ _ 0 Ha Hb H0) as (B1 & B2 & B3 & _). pose proof (bits_first _ _ Ha Hb) as E1.
    pose proof (bits_second (nat_of_ascii a) _ 0 Ha Hb H0) as E2. change (0 / 64)%nat with 0%nat in *. rewrite Nat.add_0_r in B3, E2.
    cbn [app]. rewrite !decode_char by done. cbn. repeat f_equal; by apply byte_back.
  - pose proof (nat_ascii_bounded a) as Ha. pose proof (nat_ascii_bounded b) as Hb. pose proof (nat_ascii_bounded c) as Hc.
    destruct (bits_bound _ _ _ Ha Hb Hc) as (B1 & B2 & B3 & B4). pose proof (bits_first _ _ Ha Hb) as E1.
    pose proof (bits_second _ _ _ Ha Hb Hc) as E2. pose proof (bits_third _ _ Hb Hc) as E3.
    cbn [encode_bytes]. destruct (encode_bytes l) as [more pads]. cbn [fst snd app] in *.
    rewrite !decode_char by done. rewrite IH. cbn. repeat f_equal; by apply byte_back.
Qed.
(** What is written: characters of the alphabet, and at most two pads that fill the last group. *)
Lemma encode_alphabet l : Forall (λ c, ∃ n, (n < 64)%nat ∧ c = base64_char n) (encode_bytes l).1.
Proof.
  induction l as [|a|a b|a b c l IH] using three_bytes; [constructor|..]; assert (0 < 256)%nat as H0 by lia;
    pose proof (nat_ascii_bounded a) as Ha; try pose proof (nat_ascii_bounded b) as Hb; try pose proof (nat_ascii_bounded c) as Hc.
  - destruct (bits_bound _ 0 0 Ha H0 H0) as (B1 & B2 & _). change (0 / 16)%nat with 0%nat in *. rewrite Nat.add_0_r in B2.
    cbn [encode_bytes fst]. repeat (apply Forall_cons; split; [eexists; split; [|reflexivity]; assumption|]). constructor.
  - destruct (bits_bound _ _ 0 Ha Hb H0) as (B1 & B2 & B3 & _). change (0 / 64)%nat with 0%nat in *. rewrite Nat.add_0_r in B3.
    cbn [encode_bytes fst]. repeat (apply Forall_cons; split; [eexists; split; [|reflexivity]; assumption|]). constructor.
  - destruct (bits_bound _ _ _ Ha Hb Hc) as (B1 & B2 & B3 & B4). cbn [encode_bytes].
    destruct (encode_bytes l) as [more pads]. cbn [fst] in *. repeat (apply Forall_cons; split; [eexists; split; [|reflexivity]; assumption|]). done.
Qed.
Lemma encode_length l :
  ((length (encode_bytes l).1 + (encode_bytes l).2) mod 4 = 0)%nat ∧ ((encode_bytes l).2 < 3)%nat.
Proof.
  induction l as [|a|a b|a b c l IH] using three_bytes; try (by split; [reflexivity|simpl; lia]). cbn [encode_bytes].
  destruct (encode_bytes l) as [more pads]. cbn [fst snd length] in *. destruct IH as [IH ?]. split; [|done].
  etransitivity; [|exact IH]. replace (S (S (S (S (length more)))) + pads)%nat with (length more + pads + 1 * 4)%nat by lia.
  apply Nat.Div0.mod_add.
Qed.
Lemma rstrip_encoded l : rstrip_pads (urlsafe_b64encode l) = (encode_bytes l).1.
Proof.
  unfold urlsafe_b64encode, rstrip_pads. pose proof (encode_alphabet l) as Hl. destruct (encode_bytes l) as [text pads].
  cbn [fst] in Hl. rewrite reverse_app, reverse_replicate.
  assert (drop_pads (replicate pads pad_char ++ reverse text) = reverse text) as ->; [|apply reverse_involutive].
  induction pads as [|pads IH]; [|done]. simpl. apply Forall_reverse in Hl. destruct (reverse text) as [|c r]; [done|].
  apply Forall_cons in Hl as [(n & Hn & ->) _]. simpl. by rewrite (proj2 (base64_value_char n Hn)).
Qed.
(** Padding that was stripped is put back: [-len(encoded) % 4] pads. *)
Lemma decode_stripped l :
  let encoded := rstrip_pads (urlsafe_b64encode l) in
  urlsafe_b64decode (encoded ++ replicate (Z.to_nat ((- Z.of_nat (length encoded)) mod 4)) pad_char) = Some l.
Proof.
  cbv zeta. rewrite rstrip_encoded. rewrite <- (decode_encode_pads l). do 3 f_equal.
  destruct (encode_length l) as [H1 H2]. revert H1 H2. generalize (length (encode_bytes l).1) as n, (encode_bytes l).2 as p.
  intros n p H1 H2. pose proof (Nat.div_mod_eq (n + p) 4) as E. rewrite H1 in E.
  symmetry. replace (- Z.of_nat n) with (Z.of_nat p + - Z.of_nat ((n + p) / 4) * 4) by lia.
  rewrite Z.mod_add by lia. rewrite Z.mod_small by lia. lia.
Qed.
Lemma encoded_lacks (d : ascii) l : base64_value d = None → lacks d (encode_bytes l).1.
Proof.
  intros Hd. eapply Forall_impl; [apply encode_alphabet|]. intros c (n & Hn & ->). apply Ascii.eqb_neq. intros <-.
  by rewrite (proj1 (base64_value_char n Hn)) in Hd.
Qed.
