(* ===== verification/Migrations.v ===== *)
(** * Creating and migrating the schema ([src/src/goblin_king/store_schema.py],
    [src/src/goblin_king/store_migrations.py], [_initialize_schema] of
    [src/src/goblin_king/store.py])

    The database file as SQLite keeps it before the store gives it its types: tables
    with their columns and their rows in the order of their rowids, a row a map from
    columns to cells, and the names of the unique indexes.  A statement is atomic.
    Python's sqlite3 module opens a transaction before the first INSERT, UPDATE or
    DELETE and not before an ALTER TABLE or a WITH: what precedes INSERT OR IGNORE in
    [ensure_schema_columns] is committed statement by statement.

    Several processes may start on one file.  [Startup] is what they do to it between
    an attempt's look at the schema and its first statement, and whether the file is
    then locked. *)

From S2P Require Import Prelude Text.

Inductive cell :=
| Null
| Integer (z : Z)
| Str (s : string).

#[export] Instance cell_eq_dec : EqDecision cell.
Proof. solve_decision. Defined.

Notation Row := (gmap string cell).

Record Tab := mkTab {
  columns : list string;
  table_rows : list Row
}.

Record Db := mkDb {
  tabs : gmap string Tab;
  indexes : gset string
}.

Definition empty_db : Db := mkDb ∅ ∅.

Definition get_cell (c : string) (r : Row) : cell := default Null (r !! c).

Definition OperationalError (msg : string) : exn := OtherException "OperationalError" msg.

(** The order of SQLite's values: numbers before texts, texts by their bytes; a
    comparison with NULL is NULL. *)
Definition cell_leb (a b : cell) : bool :=
  match a, b with
  | Null, _ => true
  | _, Null => false
  | Integer x, Integer y => x <=? y
  | Integer _, Str _ => true
  | Str _, Integer _ => false
  | Str s, Str t => String.leb s t
  end.
Definition cell_lt (a b : cell) : bool :=
  match a, b with
  | Null, _ | _, Null => false
  | _, _ => cell_leb a b && negb (cell_leb b a)
  end.
Definition coalesce (a b : cell) : cell := match a with Null => b | _ => a end.
(** [MAX(a, b)] and the aggregate [MAX] *)
Definition max_cell (a b : cell) : cell :=
  match a, b with
  | Null, _ | _, Null => Null
  | _, _ => if cell_leb a b then b else a
  end.
Definition max_of (cells : list cell) : cell :=
  foldr (λ c m, match c, m with Null, _ => m | _, Null => c | _, _ => max_cell c m end) Null cells.

(** ** The tables of the schema

    Columns in their order and the groups of columns a constraint keeps unique, the
    primary key apart.  Column types do not constrain what SQLite stores. *)
Record TableDef := mkTable {
  td_name : string;
  td_key : string;
  td_columns : list string;
  td_unique : list (list string)
}.

#[export] Instance table_def_eq_dec : EqDecision TableDef.
Proof. solve_decision. Defined.

Definition causal_sequences_table : TableDef := mkTable "causal_sequences" "scope"
  ["scope"; "value"]
  [].
Definition event_stream_deliveries_table : TableDef := mkTable "event_stream_deliveries" "target"
  ["target"; "delivered_sequence"; "stream_id_offset"]
  [].
Definition jobs_table : TableDef := mkTable "jobs" "id"
  ["id"; "kind"; "input_json"; "created_at"; "created_by"; "correlation_id"; "project_id";
   "fanout_id"; "metadata_json"; "status"; "priority"; "schedule_id"; "due_at";
   "lease_owner"; "leased_until"; "attempt_count"; "max_retries"; "timeout_seconds";
   "last_error"]
  [].
Definition fanouts_table : TableDef := mkTable "fanouts" "id"
  ["id"; "created_at"; "created_by"; "project_id"; "correlation_id"; "description"]
  [].
Definition schedules_table : TableDef := mkTable "schedules" "id"
  ["id"; "kind"; "project_id"; "input_json"; "cron"; "timezone"; "enabled"; "priority";
   "created_at"; "next_run_at"; "last_materialized_at"; "max_retries"; "timeout_seconds"]
  [].
Definition runs_table : TableDef := mkTable "runs" "id"
  ["id"; "job_id"; "kind"; "project_id"; "attempt"; "status"; "started_at"; "finished_at";
   "result_json"; "error"; "timeout_seconds"; "max_retries"; "leased_until";
   "resource_policy_json"]
  [].
Definition artifacts_table : TableDef := mkTable "artifacts" "id"
  ["id"; "run_id"; "name"; "uri"; "media_type"]
  [].
Definition handoffs_table : TableDef := mkTable "handoffs" "id"
  ["id"; "run_id"; "kind"; "payload_json"]
  [].
Definition events_table : TableDef := mkTable "events" "id"
  ["id"; "sequence"; "created_at"; "event_type"; "source"; "project_id"; "job_id"; "run_id";
   "fanout_id"; "schedule_id"; "worker_id"; "scheduler_id"; "payload_json"]
  [].
Definition users_table : TableDef := mkTable "users" "id"
  ["id"; "email"; "display_name"; "created_at"; "disabled"]
  [].
Definition teams_table : TableDef := mkTable "teams" "id"
  ["id"; "name"; "created_at"]
  [].
Definition projects_table : TableDef := mkTable "projects" "id"
  ["id"; "name"; "created_at"]
  [].
Definition memberships_table : TableDef := mkTable "memberships" "id"
  ["id"; "project_id"; "role"; "user_id"; "team_id"; "created_at"]
  [].
Definition api_tokens_table : TableDef := mkTable "api_tokens" "id"
  ["id"; "name"; "token_hash"; "created_at"; "user_id"; "project_id"; "role"; "revoked_at"]
  [].
Definition audit_logs_table : TableDef := mkTable "audit_logs" "id"
  ["id"; "created_at"; "action"; "outcome"; "user_id"; "token_id"; "project_id";
   "resource_type"; "resource_id"; "detail_json"]
  [].
Definition rate_limits_table : TableDef := mkTable "rate_limits" "key"
  ["key"; "window_started_at"; "count"]
  [].
Definition heartbeats_table : TableDef := mkTable "heartbeats" "owner_id"
  ["owner_id"; "owner_type"; "status"; "last_seen_at"; "job_id"; "run_id"; "payload_json"]
  [].
Definition long_services_table : TableDef := mkTable "long_services" "id"
  ["id"; "kind"; "project_id"; "image"; "base_url"; "probe_path"; "status"; "created_at";
   "created_by"; "last_probe_at"; "last_probe_json"]
  [].
Definition notebook_goblins_table : TableDef := mkTable "notebook_goblins" "kind"
  ["kind"; "project_id"; "display_name"; "image"; "source"; "source_hash"; "function_name";
   "timeout_seconds"; "max_retries"; "created_at"; "updated_at"; "created_by";
   "metadata_json"]
  [].
Definition notebook_services_table : TableDef := mkTable "notebook_services" "kind"
  ["kind"; "project_id"; "display_name"; "image"; "source"; "source_hash"; "app_name";
   "requirements_json"; "port"; "probe_path"; "created_at"; "updated_at"; "created_by";
   "metadata_json"; "runtime_backend"; "runtime_name"; "runtime_status"; "active_service_id"]
  [].
Definition repository_entries_table : TableDef := mkTable "repository_entries" "id"
  ["id"; "name"; "kind"; "type"; "project_id"; "owner"; "display_name"; "description";
   "tags_json"; "status"; "published_version"; "created_at"; "updated_at"]
  [].
Definition repository_versions_table : TableDef := mkTable "repository_versions" "id"
  ["id"; "entry_id"; "version"; "kind"; "source_hash"; "runner_image";
   "validation_proof_json"; "approval_status"; "status"; "approved_by"; "approved_at";
   "published_at"; "created_at"; "updated_at"]
  [["entry_id"; "version"]].
Definition image_promotions_table : TableDef := mkTable "image_promotions" "id"
  ["id"; "kind"; "source_image"; "target_image"; "status"; "actor"; "digest"; "created_at";
   "updated_at"; "detail_json"]
  [].
Definition deployment_records_table : TableDef := mkTable "deployment_records" "id"
  ["id"; "name"; "action"; "status"; "actor"; "command_json"; "output"; "created_at";
   "updated_at"; "detail_json"]
  [].
Definition worker_validations_table : TableDef := mkTable "worker_validations" "id"
  ["id"; "kind"; "image"; "image_digest"; "contract_version"; "validator_version";
   "validated_at"; "status"; "failure_reasons_json"; "effective_policy_json"]
  [].
Definition metadata : list TableDef :=
  [causal_sequences_table; event_stream_deliveries_table; jobs_table; fanouts_table;
   schedules_table; runs_table; artifacts_table; handoffs_table; events_table; users_table;
   teams_table; projects_table; memberships_table; api_tokens_table; audit_logs_table;
   rate_limits_table; heartbeats_table; long_services_table; notebook_goblins_table;
   notebook_services_table; repository_entries_table; repository_versions_table;
   image_promotions_table; deployment_records_table; worker_validations_table].

(** ** Statements *)

Definition put_table (t : string) (tab : Tab) : M Db unit :=
  modify (λ d, mkDb (<[t := tab]> (tabs d)) (indexes d)).
Definition add_index (name : string) : M Db unit :=
  modify (λ d, mkDb (tabs d) ({[name]} ∪ indexes d)).

Definition create_table (td : TableDef) : M Db unit :=
  let* d := get_state in
  match tabs d !! td_name td with
  | Some _ => raise (OperationalError ("table " +:+ td_name td +:+ " already exists"))
  | None => put_table (td_name td) (mkTab (td_columns td) [])
  end.

(** The type, NOT NULL and DEFAULT of an added column *)
Record Ddl := mkDdl { ddl_type : string; ddl_not_null : bool; ddl_default : cell }.
Definition nullable (type : string) : Ddl := mkDdl type false Null.
Definition text_default (s : string) : Ddl := mkDdl "TEXT" true (Str s).
Definition int_default (z : Z) : Ddl := mkDdl "INTEGER" true (Integer z).

Definition no_such_table (t : string) : exn := OperationalError ("no such table: " +:+ t).

Definition with_column (c : string) (x : cell) (tab : Tab) : Tab :=
  mkTab (columns tab ++ [c]) (<[c := x]> <$> table_rows tab).

(** [ALTER TABLE t ADD COLUMN c ddl] *)
Definition add_column (t c : string) (ddl : Ddl) : M Db unit :=
  let* d := get_state in
  match tabs d !! t with
  | None => raise (no_such_table t)
  | Some tab =>
      if bool_decide (c ∈ columns tab) then raise (OperationalError ("duplicate column name: " +:+ c))
      else if ddl_not_null ddl && bool_decide (ddl_default ddl = Null)
      then raise (OperationalError "Cannot add a NOT NULL column with default value NULL")
      else put_table t (with_column c (ddl_default ddl) tab)
  end.

Definition on_table {A} (t : string) (k : Tab → M Db A) : M Db A :=
  let* d := get_state in
  match tabs d !! t with
  | None => raise (no_such_table t)
  | Some tab => k tab
  end.

(** [UPDATE t SET ... WHERE ...] of columns no unique index covers *)
Definition update_where (t : string) (p : Row → bool) (f : Row → Row) : M Db unit :=
  on_table t (λ tab,
    put_table t (mkTab (columns tab) ((λ r, if p r then f r else r) <$> table_rows tab))).

(** [CREATE UNIQUE INDEX IF NOT EXISTS name ON t (key) WHERE p]; a key with a NULL in
    it equals no other ([None]). *)
Definition create_unique_index {K} `{EqDecision K} (name t : string) (key : Row → option K)
    (p : Row → bool) : M Db unit :=
  on_table t (λ tab,
    let* d := get_state in
    if bool_decide (name ∈ indexes d) then ret tt
    else if bool_decide (NoDup (omap key (filter p (table_rows tab)))) then add_index name
    else raise (IntegrityError ("UNIQUE constraint failed: index '" +:+ name +:+ "'"))).

(** ** [ensure_schema_columns] *)

Definition job_additions : list (string * Ddl) :=
  [("fanout_id", nullable "TEXT"); ("project_id", nullable "TEXT");
   ("metadata_json", text_default "{}"); ("status", text_default "queued");
   ("priority", int_default 100); ("schedule_id", nullable "TEXT"); ("due_at", nullable "DATETIME");
   ("lease_owner", nullable "TEXT"); ("leased_until", nullable "DATETIME");
   ("attempt_count", int_default 0); ("max_retries", int_default 0);
   ("timeout_seconds", nullable "INTEGER"); ("last_error", nullable "TEXT")].
Definition run_additions : list (string * Ddl) :=
  [("project_id", nullable "TEXT"); ("timeout_seconds", nullable "INTEGER");
   ("max_retries", int_default 0); ("leased_until", nullable "DATETIME");
   ("resource_policy_json", nullable "TEXT")].
Definition repository_entry_additions : list (string * Ddl) :=
  [("name", text_default EmptyString); ("kind", text_default EmptyString);
   ("type", text_default "notebook_function"); ("project_id", nullable "TEXT");
   ("owner", text_default EmptyString); ("display_name", text_default EmptyString);
   ("description", nullable "TEXT"); ("tags_json", text_default "[]");
   ("status", text_default "draft"); ("published_version", nullable "INTEGER");
   ("created_at", nullable "DATETIME"); ("updated_at", nullable "DATETIME")].
Definition repository_version_additions : list (string * Ddl) :=
  [("entry_id", text_default EmptyString); ("version", int_default 1);
   ("kind", text_default "repository.unknown.v1"); ("source_hash", text_default EmptyString);
   ("runner_image", text_default EmptyString); ("validation_proof_json", text_default "{}");
   ("approval_status", text_default "draft"); ("status", text_default "draft");
   ("approved_by", nullable "TEXT"); ("approved_at", nullable "DATETIME");
   ("published_at", nullable "DATETIME"); ("created_at", nullable "DATETIME");
   ("updated_at", nullable "DATETIME")].
Definition project_addition : list (string * Ddl) := [("project_id", nullable "TEXT")].
Definition event_additions : list (string * Ddl) :=
  [("project_id", nullable "TEXT"); ("sequence", int_default 0)].
Definition service_additions : list (string * Ddl) := [("probe_path", text_default "/hello")].

(** [{column["name"] for column in inspector.get_columns(t)}] *)
Definition get_columns (d : Db) (t : string) : result (list string) :=
  match tabs d !! t with
  | Some tab => Ok (columns tab)
  | None => Err (OtherException "NoSuchTableError" t)
  end.

(** [for column, ddl in additions.items(): if column not in existing: ALTER TABLE] *)
Definition add_missing (t : string) (existing : list string) (additions : list (string * Ddl)) : M Db unit :=
  forM_ additions (λ '(c, ddl),
    if bool_decide (c ∈ existing) then ret tt else add_column t c ddl).

(** [SELECT COUNT( * ) FROM events WHERE sequence = 0] *)
Definition unnumbered (rs : list Row) : bool :=
  existsb (λ r, bool_decide (get_cell "sequence" r = Integer 0)) rs.

(** [ROW_NUMBER() OVER (ORDER BY rowid)] of the first row with this id; NULL is the id
    of none. *)
Fixpoint row_number (n : Z) (id : cell) (rs : list Row) : cell :=
  match rs with
  | [] => Null
  | r :: rs' =>
      if bool_decide (id ≠ Null ∧ get_cell "id" r = id) then Integer n else row_number (n + 1) id rs'
  end.

Definition not_null_failed : exn := IntegrityError "NOT NULL constraint failed: events.sequence".
Definition sequence_taken : exn := IntegrityError "UNIQUE constraint failed: events.sequence".

(** The UPDATE goes row by row, and so does the check of the index when there is one. *)
Fixpoint renumber_rows (indexed : bool) (all done todo : list Row) : result (list Row) :=
  match todo with
  | [] => Ok done
  | r :: todo' =>
      match row_number 1 (get_cell "id" r) all with
      | Null => Err not_null_failed
      | n =>
          if indexed && bool_decide (n ∈ get_cell "sequence" <$> done ++ todo') then Err sequence_taken
          else renumber_rows indexed all (done ++ [<["sequence" := n]> r]) todo'
      end
  end.

Definition index_of_events : string := "ix_events_causal_sequence".

Definition renumber : M Db unit :=
  on_table "events" (λ tab,
    if unnumbered (table_rows tab) then
      let* d := get_state in
      let* rs := lift_result (renumber_rows (bool_decide (index_of_events ∈ indexes d))
                   (table_rows tab) [] (table_rows tab)) in
      put_table "events" (mkTab (columns tab) rs)
    else ret tt).

(** [COALESCE(MAX(sequence), 0)] *)
Definition last_sequence (tab : Tab) : cell :=
  coalesce (max_of (get_cell "sequence" <$> table_rows tab)) (Integer 0).

Definition scope_is (r : Row) : bool := bool_decide (get_cell "scope" r = Str "events").

(** [INSERT OR IGNORE INTO causal_sequences] *)
Definition insert_counter : M Db unit :=
  on_table "events" (λ ev, on_table "causal_sequences" (λ tab,
    if existsb scope_is (table_rows tab) then ret tt
    else put_table "causal_sequences" (mkTab (columns tab)
           (table_rows tab ++ [<["scope" := Str "events"]> {["value" := last_sequence ev]}])))).

Definition raise_counter : M Db unit :=
  on_table "events" (λ ev, update_where "causal_sequences" scope_is
    (λ r, <["value" := max_cell (get_cell "value" r) (last_sequence ev)]> r)).

Definition finished_states : list cell := [Str "completed"; Str "failed"; Str "timed_out"].
Definition run_unsettled (r : Row) : bool :=
  let finished := get_cell "finished_at" r in
  negb (bool_decide (finished = Null)) && cell_lt finished (get_cell "started_at" r)
  || bool_decide (finished = Null) && bool_decide (get_cell "status" r ∈ finished_states).
Definition settle_runs : M Db unit :=
  update_where "runs" run_unsettled (λ r, <["finished_at" := get_cell "started_at" r]> r).

(** [COALESCE(project_id, ''), name] and [entry_id, version]; [status != 'retired'] *)
Definition entry_key (r : Row) : option (cell * cell) :=
  match get_cell "name" r with
  | Null => None
  | name => Some (coalesce (get_cell "project_id" r) (Str EmptyString), name)
  end.
Definition entry_active (r : Row) : bool :=
  match get_cell "status" r with Null => false | s => bool_decide (s ≠ Str "retired") end.
Definition version_key (r : Row) : option (cell * cell) :=
  match get_cell "entry_id" r, get_cell "version" r with
  | Null, _ | _, Null => None
  | e, v => Some (e, v)
  end.
Definition sequence_key (r : Row) : option cell :=
  match get_cell "sequence" r with Null => None | n => Some n end.

Definition index_of_entries : string := "uq_repository_entries_active_project_name".
Definition index_of_versions : string := "ix_repository_versions_entry_version".

Record Inspected := mkInspected {
  job_columns : list string;
  run_columns : list string;
  fanout_columns : list string;
  schedule_columns : list string;
  event_columns : list string;
  long_service_columns : list string;
  repository_entry_columns : list string;
  repository_version_columns : list string
}.

Definition inspect (d : Db) : result Inspected :=
  let? jobs := get_columns d "jobs" in
  let? runs := get_columns d "runs" in
  let? fanouts := get_columns d "fanouts" in
  let? schedules := get_columns d "schedules" in
  let? events := get_columns d "events" in
  let? services := get_columns d "long_services" in
  let? entries := get_columns d "repository_entries" in
  let? versions := get_columns d "repository_versions" in
  Ok (mkInspected jobs runs fanouts schedules events services entries versions).

(** The statements before the first INSERT: each committed by itself. *)
Definition autocommitted (i : Inspected) : M Db unit :=
  do* add_missing "jobs" (job_columns i) job_additions in
  do* add_missing "runs" (run_columns i) run_additions in
  do* add_missing "fanouts" (fanout_columns i) project_addition in
  do* add_missing "schedules" (schedule_columns i) project_addition in
  do* add_missing "events" (event_columns i) event_additions in
  renumber.

(** The statements of the transaction it opens *)
Definition in_transaction (i : Inspected) : M Db unit :=
  do* insert_counter in
  do* raise_counter in
  do* add_missing "long_services" (long_service_columns i) service_additions in
  do* add_missing "repository_entries" (repository_entry_columns i) repository_entry_additions in
  do* add_missing "repository_versions" (repository_version_columns i) repository_version_additions in
  do* settle_runs in
  do* create_unique_index index_of_entries "repository_entries" entry_key entry_active in
  do* create_unique_index index_of_versions "repository_versions" version_key (λ _, true) in
  create_unique_index index_of_events "events" sequence_key (λ _, true).

(** ** Starting, beside other processes *)

(** What others do to the file between the [phase]'s inspection of attempt [attempt] and
    its first statement, and the error of a locked file.  [false] is the phase of
    [create_all], [true] that of [ensure_schema_columns]. *)
Class Startup := { others : nat → bool → M Db unit }.

(** [metadata.create_all]: inspect which tables exist, create those that do not *)
Definition create_all (meanwhile : M Db unit) : M Db unit :=
  let* d := get_state in
  do* meanwhile in
  forM_ (filter (λ td, tabs d !! td_name td = None) metadata) create_table.

Definition ensure_schema_columns (meanwhile : M Db unit) : M Db unit :=
  let* d := get_state in
  let* i := lift_result (inspect d) in
  do* meanwhile in
  do* autocommitted i in
  atomic (in_transaction i).

Definition retryable : list string := ["already exists"; "duplicate column name"; "database is locked"].
Definition is_retryable (e : exn) : bool :=
  bool_decide (exn_name e = "OperationalError")
  && existsb (λ token, in_text token (lower (exn_str e))) retryable.

(** The loop from attempt [attempt] on, with [left] attempts to go *)
Fixpoint initialize_from `{Startup} (attempt left : nat) (last_error : option exn) : M Db unit :=
  match left with
  | O => match last_error with Some e => raise e | None => ret tt end
  | S left' =>
      try_catch
        (do* create_all (others attempt false) in ensure_schema_columns (others attempt true))
        (λ e, if is_retryable e then initialize_from (S attempt) left' (Some e) else raise e)
  end.

Definition _initialize_schema `{Startup} : M Db unit := initialize_from 0 10 None.

Definition alone : Startup := {| others _ _ := ret tt |}.

(** ** No row is lost *)

(** The cells a migration computes anew *)
Definition rewritten (t c : string) : bool :=
  bool_decide ((t, c) ∈ [("events", "sequence"); ("runs", "finished_at"); ("causal_sequences", "value")]).

Definition row_kept (t : string) (cols : list string) (r r' : Row) : Prop :=
  ∀ c, c ∈ cols → rewritten t c = false → get_cell c r' = get_cell c r.

Definition tab_kept (t : string) (tab tab' : Tab) : Prop :=
  columns tab ⊆ columns tab' ∧ ∃ rs more, table_rows tab' = rs ++ more
    ∧ Forall2 (row_kept t (columns tab)) (table_rows tab) rs
    ∧ (t ≠ "causal_sequences" → more = []).

(** Tables, columns, indexes and rows stay, the rows in their order and with the cells
    they had; new rows only in the table of counters. *)
Definition Kept (d d' : Db) : Prop :=
  indexes d ⊆ indexes d'
  ∧ ∀ t tab, tabs d !! t = Some tab → ∃ tab', tabs d' !! t = Some tab' ∧ tab_kept t tab tab'.

#[export] Instance row_kept_refl t cols : Reflexive (row_kept t cols).
Proof. by intros r c. Qed.

Lemma rows_kept_refl t cols rs : Forall2 (row_kept t cols) rs rs.
Proof. induction rs; by constructor. Qed.
#[local] Hint Resolve rows_kept_refl : core.

Lemma tab_kept_refl t tab : tab_kept t tab tab.
Proof. split; [done|]. exists (table_rows tab), []. by rewrite app_nil_r. Qed.
#[local] Hint Resolve tab_kept_refl : core.

Lemma tab_kept_trans t tab1 tab2 tab3 : tab_kept t tab1 tab2 → tab_kept t tab2 tab3 → tab_kept t tab1 tab3.
Proof.
  intros (Hc1 & rs1 & m1 & E1 & H1 & L1) (Hc2 & rs2 & m2 & E2 & H2 & L2). split; [set_solver|].
  rewrite E1 in H2. apply Forall2_app_inv_l in H2 as (ra & rb & Ha & Hb & ->).
  exists ra, (rb ++ m2). split; [by rewrite E2, app_assoc|]. split.
  - eapply Forall2_trans; [|exact H1|exact Ha]. intros x y z Hxy Hyz c Hc Hn.
    rewrite Hyz; [by apply Hxy|by apply Hc1|done].
  - intros Hne. rewrite (L2 Hne). specialize (L1 Hne) as ->. inversion Hb. done.
Qed.

#[export] Instance kept_preorder : PreOrder Kept.
Proof.
  split.
  - intros d. split; [done|]. intros t tab Ht. by exists tab.
  - intros d1 d2 d3 [I1 H1] [I2 H2]. split; [set_solver|]. intros t tab Ht.
    destruct (H1 t tab Ht) as (tab2 & Ht2 & K1). destruct (H2 t tab2 Ht2) as (tab3 & Ht3 & K2).
    exists tab3. split; [done|]. by eapply tab_kept_trans.
Qed.

Lemma kept_put t tab tab' d :
  tabs d !! t = Some tab → tab_kept t tab tab' → Kept d (put_table t tab' d).1.
Proof.
  intros Ht Hk. split; [done|]. intros u tu Hu. simpl.
  destruct (decide (u = t)) as [->|Hne].
  - rewrite lookup_insert_eq. exists tab'. split; [done|]. by rewrite Ht in Hu; injection Hu as <-.
  - rewrite lookup_insert_ne by done. by exists tu.
Qed.

Lemma tab_kept_rows t tab rs more :
  Forall2 (row_kept t (columns tab)) (table_rows tab) rs → (t ≠ "causal_sequences" → more = []) →
  tab_kept t tab (mkTab (columns tab) (rs ++ more)).
Proof. intros H L. split; [done|]. by exists rs, more. Qed.
Lemma tab_kept_map t tab (f : Row → Row) :
  (∀ r, row_kept t (columns tab) r (f r)) → tab_kept t tab (mkTab (columns tab) (f <$> table_rows tab)).
Proof.
  intros Hf. rewrite <- (app_nil_r (f <$> _)). apply tab_kept_rows; [|done].
  induction (table_rows tab); constructor; auto.
Qed.

Lemma get_cell_insert c c' x (r : Row) : get_cell c (<[c' := x]> r) = if decide (c' = c) then x else get_cell c r.
Proof. unfold get_cell. rewrite lookup_insert. by case_decide. Qed.
Lemma get_cell_insert_ne c c' x (r : Row) : c' ≠ c → get_cell c (<[c' := x]> r) = get_cell c r.
Proof. intros. rewrite get_cell_insert. by rewrite decide_False. Qed.
Lemma get_cell_insert_eq c x (r : Row) : get_cell c (<[c := x]> r) = x.
Proof. rewrite get_cell_insert. by rewrite decide_True. Qed.

Lemma row_kept_rewritten t c cols x (r : Row) : rewritten t c = true → row_kept t cols r (<[c := x]> r).
Proof. intros H c' _ Hn. apply get_cell_insert_ne. intros ->. congruence. Qed.

#[export] Instance create_table_kept td : Within Kept (create_table td).
Proof.
  intros d. unfold create_table, bind, get_state. destruct (tabs d !! td_name td) as [tab|] eqn:Ht; [done|].
  split; [done|]. intros u tu Hu. simpl. rewrite lookup_insert_ne by (intros <-; congruence).
  by exists tu.
Qed.

#[export] Instance on_table_kept {A} t (k : Tab → M Db A) :
  (∀ tab d, tabs d !! t = Some tab → Kept d (k tab d).1) → Within Kept (on_table t k).
Proof.
  intros Hk d. unfold on_table, bind, get_state. destruct (tabs d !! t) as [tab|] eqn:Ht; [|done]. by apply Hk.
Qed.

(** The columns the program adds and rewrites are not the same but for [sequence], which
    is rewritten when it is new. *)
Lemma with_column_kept t c x tab : c ∉ columns tab → tab_kept t tab (with_column c x tab).
Proof.
  intros Hc. split; [simpl; set_solver|]. exists (<[c := x]> <$> table_rows tab), [].
  simpl. rewrite app_nil_r. split_and!; [done| |done].
  induction (table_rows tab); constructor; [|done].
  intros c' Hc' _. apply get_cell_insert_ne. by intros ->.
Qed.
#[export] Instance add_column_kept t c ddl : Within Kept (add_column t c ddl).
Proof.
  intros d. unfold add_column, bind, get_state. destruct (tabs d !! t) as [tab|] eqn:Ht; [|done].
  case_bool_decide; [done|]. case_match; [done|]. by eapply kept_put, with_column_kept.
Qed.
#[export] Instance add_missing_kept t existing adds : Within Kept (add_missing t existing adds).
Proof. unfold add_missing. solve_within. Qed.

#[export] Instance update_where_kept t p f :
  (∀ cols r, row_kept t cols r (f r)) → Within Kept (update_where t p f).
Proof.
  intros Hf. apply on_table_kept. intros tab d Ht. eapply kept_put; [done|].
  apply tab_kept_map. intros r. by destruct (p r).
Qed.
#[export] Instance raise_counter_kept : Within Kept raise_counter.
Proof.
  apply on_table_kept. intros ev d _. apply (update_where_kept "causal_sequences").
  intros cols r. by apply row_kept_rewritten.
Qed.
#[export] Instance settle_runs_kept : Within Kept settle_runs.
Proof. apply update_where_kept. intros cols r. by apply row_kept_rewritten. Qed.

#[export] Instance insert_counter_kept : Within Kept insert_counter.
Proof.
  apply on_table_kept. intros ev d _. apply on_table_kept. intros tab d' Ht.
  destruct (existsb scope_is (table_rows tab)); [done|]. by eapply kept_put, tab_kept_rows.
Qed.

Definition numbered_from (r r' : Row) : Prop := ∃ n, r' = <["sequence" := n]> r.
Lemma renumber_rows_numbers ix all todo done rs :
  renumber_rows ix all done todo = Ok rs → ∃ new, rs = done ++ new ∧ Forall2 numbered_from todo new.
Proof.
  revert done rs. induction todo as [|r todo IH]; intros done rs; simpl.
  - intros [= <-]. exists []. by rewrite app_nil_r.
  - intros H. assert (∃ n, renumber_rows ix all (done ++ [<["sequence" := n]> r]) todo = Ok rs) as [n Hn].
    { destruct (row_number 1 (get_cell "id" r) all); [done|..]; destruct (_ && _); try done; by eexists. }
    destruct (IH _ _ Hn) as (new & -> & Hf). exists (<["sequence" := n]> r :: new).
    rewrite <- app_assoc. split; [done|]. constructor; [by exists n|done].
Qed.
#[export] Instance renumber_kept : Within Kept renumber.
Proof.
  apply on_table_kept. intros tab d Ht. case_match; [|done].
  unfold bind, get_state, lift_result. destruct (renumber_rows _ _ _ _) as [rs|] eqn:Hr; [|done].
  apply renumber_rows_numbers in Hr as (new & -> & Hf). eapply kept_put; [done|].
  rewrite <- (app_nil_r (_ ++ _)). apply tab_kept_rows; [|done]. simpl.
  eapply Forall2_impl; [done|]. intros r r' [n ->]. by apply row_kept_rewritten.
Qed.
#[export] Instance add_index_kept name : Within Kept (add_index name).
Proof. intros d. split; [simpl; set_solver|]. intros t tab Ht. by exists tab. Qed.
#[export] Instance create_unique_index_kept {K} `{EqDecision K} name t (key : Row → option K) p :
  Within Kept (create_unique_index name t key p).
Proof.
  apply on_table_kept. intros tab d Ht. unfold bind, get_state.
  case_bool_decide; [done|]. case_bool_decide; [apply add_index_kept|done].
Qed.
#[export] Instance get_state_kept : Within Kept get_state.
Proof. by intros d. Qed.

#[export] Instance ensure_schema_columns_kept m : Within Kept m → Within Kept (ensure_schema_columns m).
Proof. unfold ensure_schema_columns, autocommitted, in_transaction. solve_within. Qed.
#[export] Instance create_all_kept m : Within Kept m → Within Kept (create_all m).
Proof. unfold create_all. solve_within. Qed.

(** C16: whatever state the database is in and whatever goes wrong, starting the store
    loses nothing: every table, column, index and row that was there is still there, a row
    in its place and with its cells, apart from the sequence numbers of events, the counter
    and the end of runs; and this holds beside other processes that lose nothing. *)
Theorem startup_keeps_rows `{Startup} :
  (∀ k phase, Within Kept (others k phase)) → ∀ d, Kept d (_initialize_schema d).1.
Proof.
  intros Ho. assert (∀ n k e, Within Kept (initialize_from k n e)) as Hw; [|apply Hw].
  induction n as [|n IH]; intros k e; simpl; solve_within.
Qed.

(** ** Databases that can be migrated *)

Definition all_additions : list (string * list (string * Ddl)) :=
  [("jobs", job_additions); ("runs", run_additions); ("fanouts", project_addition);
   ("schedules", project_addition); ("events", event_additions); ("long_services", service_additions);
   ("repository_entries", repository_entry_additions);
   ("repository_versions", repository_version_additions)].

(** The cells of the columns that are still missing, and the rows once they are added *)
Definition fresh (cols : list string) (adds : list (string * Ddl)) : Row :=
  list_to_map ((λ '(c, ddl), (c, ddl_default ddl)) <$> filter (λ cd, cd.1 ∉ cols) adds).
Definition completed (adds : list (string * Ddl)) (tab : Tab) : list Row :=
  (λ r, fresh (columns tab) adds ∪ r) <$> table_rows tab.

Definition sequences (rs : list Row) : list cell := get_cell "sequence" <$> rs.
Definition counting (x : cell) : Prop := match x with Integer _ => True | _ => False end.

(** What the migration relies on: events have their own ids, sequence numbers are numbers
    and the numbered events differ in them, the counter is a number, and the catalog's
    rows will satisfy the indexes that are missing. *)
Record Sound (d : Db) : Prop := {
  so_ids : ∀ tab, tabs d !! "events" = Some tab →
    NoDup (get_cell "id" <$> table_rows tab) ∧ Null ∉ get_cell "id" <$> table_rows tab;
  so_sequences : ∀ tab, tabs d !! "events" = Some tab → "sequence" ∈ columns tab →
    Forall counting (sequences (table_rows tab))
    ∧ (unnumbered (table_rows tab) = false → NoDup (sequences (table_rows tab)));
  so_indexed : ∀ tab, tabs d !! "events" = Some tab → index_of_events ∈ indexes d →
    "sequence" ∈ columns tab ∧ unnumbered (table_rows tab) = false;
  so_counter : ∀ tab r, tabs d !! "causal_sequences" = Some tab → r ∈ table_rows tab →
    scope_is r = true → counting (get_cell "value" r);
  so_entries : ∀ tab, tabs d !! "repository_entries" = Some tab → index_of_entries ∉ indexes d →
    NoDup (omap entry_key (filter entry_active (completed repository_entry_additions tab)));
  so_versions : ∀ tab, tabs d !! "repository_versions" = Some tab → index_of_versions ∉ indexes d →
    NoDup (omap version_key (filter (λ _, true) (completed repository_version_additions tab)))
}.

(** One more column, of those to be added *)
Definition extend (adds : list (string * Ddl)) (tab tab' : Tab) : Prop :=
  ∃ c ddl, (c, ddl) ∈ adds ∧ c ∉ columns tab ∧ tab' = with_column c (ddl_default ddl) tab.

Lemma lookup_fresh cols adds c ddl :
  NoDup adds.*1 → (c, ddl) ∈ adds → c ∉ cols → fresh cols adds !! c = Some (ddl_default ddl).
Proof.
  intros Hnd Hin Hc. unfold fresh. apply elem_of_list_to_map.
  - rewrite <- list_fmap_compose, (list_fmap_ext _ fst) by (by intros ? [] ?).
    eapply sublist_NoDup; [exact Hnd|]. apply fmap_sublist, sublist_filter.
  - apply list_elem_of_fmap. exists (c, ddl). split; [done|]. by apply list_elem_of_filter.
Qed.
Lemma lookup_fresh_None cols adds c : (c ∈ cols ∨ c ∉ adds.*1) → fresh cols adds !! c = None.
Proof.
  intros Hc. unfold fresh. apply not_elem_of_list_to_map_1. rewrite <- list_fmap_compose.
  rewrite list_elem_of_fmap. intros ([c' ddl] & -> & Hin). apply list_elem_of_filter in Hin as [Hn Hin].
  destruct Hc as [Hc|Hc]; simpl in *; [done|]. apply Hc, list_elem_of_fmap. by exists (c', ddl).
Qed.

Lemma completed_extend adds tab tab' :
  NoDup adds.*1 → extend adds tab tab' → completed adds tab' = completed adds tab.
Proof.
  intros Hnd (c & ddl & Hin & Hc & ->). unfold completed. simpl. rewrite <- list_fmap_compose.
  apply list_fmap_ext. intros i r _. unfold compose. apply map_eq. intros k.
  rewrite !lookup_union. destruct (decide (k = c)) as [->|Hne].
  - rewrite lookup_insert_eq, (lookup_fresh_None _ _ c) by (left; set_solver).
    rewrite (lookup_fresh (columns tab) adds c ddl) by done. by destruct (r !! c).
  - rewrite lookup_insert_ne by done. f_equal. destruct (decide (k ∈ columns tab)).
    + rewrite !lookup_fresh_None by (left; set_solver). done.
    + destruct (decide (k ∈ adds.*1)) as [Hk|Hk]; [|by rewrite !lookup_fresh_None by (by right)].
      apply list_elem_of_fmap in Hk as ([k' ddl'] & -> & Hin').
      rewrite !(lookup_fresh _ _ _ ddl') by (done || set_solver). done.
Qed.
Lemma completed_done adds tab : (∀ c, c ∈ adds.*1 → c ∈ columns tab) → completed adds tab = table_rows tab.
Proof.
  intros H. unfold completed. assert (fresh (columns tab) adds = ∅) as ->.
  { apply map_empty. intros c. apply lookup_fresh_None. destruct (decide (c ∈ adds.*1)); auto. }
  rewrite (list_fmap_ext _ id); [by rewrite list_fmap_id|]. intros i r _. by rewrite map_empty_union.
Qed.

Lemma unnumbered_false rs : unnumbered rs = false ↔ Integer 0 ∉ sequences rs.
Proof.
  unfold unnumbered, sequences. split.
  - intros Hf (r & Hr & Hin)%list_elem_of_fmap. assert (existsb (λ r, bool_decide (get_cell "sequence" r = Integer 0)) rs = true); [|congruence].
    apply existsb_exists. exists r. rewrite <- list_elem_of_In. split; [done|]. by apply bool_decide_eq_true.
  - intros Hn. apply not_true_is_false. intros (r & Hin & Hr)%existsb_exists. apply Hn.
    apply bool_decide_eq_true in Hr. apply list_elem_of_fmap. exists r. by rewrite list_elem_of_In.
Qed.

Lemma cells_insert_ne c c' x (rs : list Row) : c ≠ c' → get_cell c <$> (<[c' := x]> <$> rs) = get_cell c <$> rs.
Proof. intros. rewrite <- list_fmap_compose. apply list_fmap_ext. intros i r _. by apply get_cell_insert_ne. Qed.
Lemma cells_insert_eq c x (rs : list Row) : get_cell c <$> (<[c := x]> <$> rs) = (λ _, x) <$> rs.
Proof. rewrite <- list_fmap_compose. apply list_fmap_ext. intros i r _. apply get_cell_insert_eq. Qed.

(** The events table with one more column *)
Lemma sequences_extend tab tab' :
  extend event_additions tab tab' →
  (get_cell "id" <$> table_rows tab') = (get_cell "id" <$> table_rows tab)
  ∧ ("sequence" ∈ columns tab → sequences (table_rows tab') = sequences (table_rows tab))
  ∧ ("sequence" ∉ columns tab → "sequence" ∈ columns tab' →
     sequences (table_rows tab') = (λ _, Integer 0) <$> table_rows tab).
Proof.
  intros (c & ddl & Hin & Hc & ->). unfold event_additions in Hin. simpl.
  apply elem_of_cons in Hin as [[= -> ->]|Hin%list_elem_of_singleton]; [|injection Hin as -> ->];
    (split; [by apply cells_insert_ne|split; intros Hs]); try done.
  - by apply cells_insert_ne.
  - intros [?|Hs']%elem_of_app; [done|]. by apply list_elem_of_singleton in Hs'.
  - intros _. apply cells_insert_eq.
Qed.

Lemma sequences_of_zeros (rs : list Row) : sequences rs = (λ _, Integer 0) <$> rs →
  Forall counting (sequences rs) ∧ (unnumbered rs = false → NoDup (sequences rs)).
Proof.
  intros E. rewrite unnumbered_false, E. split; [by apply Forall_fmap, Forall_true|].
  destruct rs; [intros; constructor|]. intros Hn. exfalso. apply Hn. left.
Qed.

Lemma sound_events_extend d tab tab' :
  tabs d !! "events" = Some tab → extend event_additions tab tab' → Sound d →
  Sound (mkDb (<["events" := tab']> (tabs d)) (indexes d)).
Proof.
  intros Ht Hx [S1 S2 S3 S4 S5 S6].
  pose proof (sequences_extend _ _ Hx) as (Eid & Esame & Enew).
  assert (length (table_rows tab') = length (table_rows tab)) as Hlen.
  { destruct Hx as (? & ? & _ & _ & ->). apply length_fmap. }
  assert (∀ c, c ∈ columns tab → c ∈ columns tab') as Hcols.
  { destruct Hx as (? & ? & _ & _ & ->). simpl. set_solver. }
  split; simpl; intros tab0; try (rewrite lookup_insert_ne by done; eauto);
    rewrite lookup_insert_eq; intros [= <-].
  - rewrite Eid. by apply S1.
  - intros Hs. destruct (decide ("sequence" ∈ columns tab)) as [Hold|Hold].
    + rewrite unnumbered_false, Esame by done. rewrite <- unnumbered_false. by apply S2.
    + apply sequences_of_zeros. rewrite Enew by done. clear -Hlen.
      revert Hlen. generalize (table_rows tab), (table_rows tab').
      induction l as [|r l IH]; intros [|r' l'] [=]; simpl; [done|]. f_equal. by apply IH.
  - intros Hi. destruct (S3 tab Ht Hi) as [Hs Hn]. split; [by apply Hcols|].
    rewrite unnumbered_false, Esame by done. by rewrite <- unnumbered_false.
Qed.

(** SQLite accepts the added columns, and none is added twice. *)
Lemma additions_valid t adds : (t, adds) ∈ all_additions →
  NoDup adds.*1 ∧ ∀ c ddl, (c, ddl) ∈ adds → ddl_not_null ddl && bool_decide (ddl_default ddl = Null) = false.
Proof.
  intros Hin.
  assert (Forall (λ x : string * list (string * Ddl), NoDup x.2.*1
    ∧ Forall (λ cd : string * Ddl, ddl_not_null cd.2 && bool_decide (ddl_default cd.2 = Null) = false) x.2)
    all_additions) as Hall by (by apply (bool_decide_unpack _)).
  rewrite Forall_forall in Hall. destruct (Hall _ Hin) as [Hnd Hv]. split; [done|].
  intros c ddl Hc. rewrite Forall_forall in Hv. by apply (Hv (c, ddl)).
Qed.

(** Adding one of the columns of a table keeps a database sound. *)
Lemma sound_extend d t adds tab tab' :
  (t, adds) ∈ all_additions → tabs d !! t = Some tab → extend adds tab tab' → Sound d →
  Sound (mkDb (<[t := tab']> (tabs d)) (indexes d)).
Proof.
  intros Hin Ht Hx HS. destruct (decide (t = "events")) as [->|Hne].
  { assert (adds = event_additions) as ->; [|by eapply sound_events_extend].
    repeat (apply elem_of_cons in Hin as [Heq|Hin]; [first [discriminate Heq|by injection Heq]|]).
    by apply elem_of_nil in Hin. }
  pose proof (additions_valid _ _ Hin) as [Hnd _].
  destruct HS as [S1 S2 S3 S4 S5 S6]. unfold all_additions in Hin.
  repeat (apply elem_of_cons in Hin as [[= -> ->]|Hin]); [..|by apply elem_of_nil in Hin]; try done;
    split; simpl; intros tab0; try (rewrite lookup_insert_ne by done; eauto);
    rewrite lookup_insert_eq; intros [= <-] Hi.
  - rewrite (completed_extend _ tab) by done. by apply S5.
  - rewrite (completed_extend _ tab) by done. by apply S6.
Qed.

Lemma sound_extends d t adds tab tab' :
  (t, adds) ∈ all_additions → tabs d !! t = Some tab → rtc (extend adds) tab tab' → Sound d →
  Sound (mkDb (<[t := tab']> (tabs d)) (indexes d)).
Proof.
  intros Hin Ht Hx. revert d Ht. induction Hx as [tab|tab tab1 tab2 Hx _ IH]; intros d Ht HS.
  - rewrite insert_id by done. by destruct d.
  - specialize (IH (mkDb (<[t := tab1]> (tabs d)) (indexes d))). simpl in IH.
    rewrite insert_insert_eq in IH. apply IH; [apply lookup_insert_eq|]. by eapply sound_extend.
Qed.

(** ** One attempt *)

Definition Retry (e : exn) (d : Db) : Prop := is_retryable e = true ∧ Sound d.

Definition has (t : string) (cols : list string) (d : Db) : Prop :=
  ∃ tab, tabs d !! t = Some tab ∧ ∀ c, c ∈ cols → c ∈ columns tab.

(** What [Kept] keeps *)
Class Stable (F : Db → Prop) : Prop := stable : ∀ d d', Kept d d' → F d → F d'.
#[export] Instance stable_and F G : Stable F → Stable G → Stable (λ d, F d ∧ G d).
Proof. intros HF HG d d' K [? ?]. split; [by eapply HF|by eapply HG]. Qed.
#[export] Instance stable_has t cols : Stable (has t cols).
Proof.
  intros d d' [_ K] (tab & Ht & Hc). destruct (K t tab Ht) as (tab' & Ht' & Hcols & _).
  exists tab'. split; [done|]. intros c Hin. by apply Hcols, Hc.
Qed.
#[export] Instance stable_Forall {A} (F : A → Db → Prop) (l : list A) :
  (∀ x, Stable (F x)) → Stable (λ d, Forall (λ x, F x d) l).
Proof. intros HF d d' K Hl. eapply Forall_impl; [exact Hl|]. intros x. by apply HF. Qed.
#[export] Instance stable_indexed name : Stable (λ d, name ∈ indexes d).
Proof. intros d d' [K _] Hn. by apply K. Qed.

Lemma triple_stable {A} (F P : Db → Prop) (m : M Db A) (Q : A → Db → Prop) E :
  Stable F → Within Kept m → triple P m Q E → triple (λ d, F d ∧ P d) m (λ a d, F d ∧ Q a d) E.
Proof.
  intros HF Hk Ht d [Hf Hp]. specialize (Ht d Hp). specialize (Hk d).
  destruct (m d) as [d' [a|e]]; [|done]. split; [by eapply HF|done].
Qed.
Lemma triple_preserves {A B} (f : Db → B) (G : B → Prop) (P : Db → Prop) (m : M Db A) Q E :
  Preserves f m → triple P m Q E → triple (λ d, G (f d) ∧ P d) m (λ a d, G (f d) ∧ Q a d) E.
Proof.
  intros Hf Ht d [Hg Hp]. specialize (Ht d Hp). specialize (Hf d).
  destruct (m d) as [d' [a|e]]; [|done]. simpl in Hf. by rewrite Hf.
Qed.

Lemma duplicate_retryable c : is_retryable (OperationalError ("duplicate column name: " +:+ c)) = true.
Proof.
  unfold is_retryable. rewrite bool_decide_eq_true_2 by done. change (true && ?b) with b.
  apply existsb_exists. exists "duplicate column name". split; [right; by left|reflexivity].
Qed.
Lemma exists_retryable td : td ∈ metadata →
  is_retryable (OperationalError ("table " +:+ td_name td +:+ " already exists")) = true.
Proof.
  intros Hin. assert (Forall (λ td,
    is_retryable (OperationalError ("table " +:+ td_name td +:+ " already exists")) = true) metadata) as Hall.
  { apply (bool_decide_unpack _). by vm_compute. }
  rewrite Forall_forall in Hall. by apply Hall.
Qed.

Lemma extends_columns adds tab tab' c : rtc (extend adds) tab tab' → c ∈ columns tab → c ∈ columns tab'.
Proof.
  induction 1 as [|tab1 tab2 tab3 (c' & ddl & _ & _ & ->) _ IH]; [done|]. intros Hc. apply IH. simpl. set_solver.
Qed.

Lemma add_column_eq t c ddl d tab :
  tabs d !! t = Some tab → ddl_not_null ddl && bool_decide (ddl_default ddl = Null) = false →
  add_column t c ddl d =
    if bool_decide (c ∈ columns tab) then (d, Err (OperationalError ("duplicate column name: " +:+ c)))
    else (mkDb (<[t := with_column c (ddl_default ddl) tab]> (tabs d)) (indexes d), Ok tt).
Proof.
  intros Ht Hv. unfold add_column, bind, get_state. rewrite Ht, Hv. by destruct (bool_decide (c ∈ columns tab)).
Qed.

Lemma add_missing_spec t existing adds l d tab :
  (t, adds) ∈ all_additions → l ⊆ adds → tabs d !! t = Some tab →
  ∃ tab', (add_missing t existing l d).1 = mkDb (<[t := tab']> (tabs d)) (indexes d)
    ∧ rtc (extend adds) tab tab'
    ∧ match (add_missing t existing l d).2 with
      | Ok _ => ∀ c, c ∈ l.*1 → c ∈ existing ∨ c ∈ columns tab'
      | Err e => is_retryable e = true
      end.
Proof.
  intros Hin. pose proof (additions_valid _ _ Hin) as [_ Hvalid].
  revert d tab. induction l as [|[c ddl] l IH]; intros d tab Hl Ht.
  - exists tab. simpl. rewrite insert_id by done. destruct d. split; [done|]. split; [done|]. set_solver.
  - unfold add_missing. simpl forM_. fold (add_missing t existing l). unfold bind.
    case_bool_decide as Hc.
    { simpl. destruct (IH d tab) as (tab' & E & Hx & Hr); [set_solver|done|].
      exists tab'. split; [exact E|]. split; [done|]. destruct (add_missing t existing l d).2; [|done].
      simpl. intros c' [->|Hc']%elem_of_cons; [by left|by apply Hr]. }
    assert ((c, ddl) ∈ adds) as Hcd by (apply Hl; left).
    rewrite (add_column_eq _ _ _ _ _ Ht) by by apply (Hvalid c). case_bool_decide as Hdup.
    { exists tab. simpl. rewrite insert_id by done. destruct d. split; [done|]. split; [done|].
      apply duplicate_retryable. }
    set (tab1 := with_column c (ddl_default ddl) tab).
    destruct (IH (mkDb (<[t := tab1]> (tabs d)) (indexes d)) tab1) as (tab' & E & Hx & Hr);
      [set_solver|apply lookup_insert_eq|].
    assert (extend adds tab tab1) as Hx1 by (by exists c, ddl).
    exists tab'. split; [|split; [by eapply rtc_l|]].
    + rewrite E. simpl. by rewrite insert_insert_eq.
    + destruct (add_missing _ _ _ _).2; [|done]. intros c' [->|Hc']%elem_of_cons; [right|by apply Hr].
      eapply extends_columns; [done|]. simpl. set_solver.
Qed.

(** What was inspected is still there. *)
Definition snapped (l : list (string * list string)) (d : Db) : Prop := Forall (λ x, has x.1 x.2 d) l.
#[export] Instance stable_snapped l : Stable (snapped l).
Proof. unfold snapped. apply _. Qed.

Lemma add_missing_triple t existing adds :
  (t, adds) ∈ all_additions →
  triple (λ d, has t existing d ∧ Sound d) (add_missing t existing adds)
    (λ _ d, has t adds.*1 d ∧ Sound d) Retry.
Proof.
  intros Hin d [(tab & Ht & Hex) HS].
  destruct (add_missing_spec t existing adds adds d tab) as (tab' & E & Hx & Hr); [done..|].
  pose proof (sound_extends _ _ _ _ _ Hin Ht Hx HS) as HS'. rewrite <- E in HS'.
  destruct (add_missing t existing adds d) as [d' [[]|e]]; simpl in *; [|by split].
  split; [|done]. exists tab'. split; [subst; apply lookup_insert_eq|].
  intros c Hc. destruct (Hr c Hc) as [Hold|]; [|done]. eapply extends_columns; [done|]. by apply Hex.
Qed.

Lemma row_number_at n pre r post :
  NoDup (get_cell "id" <$> pre ++ r :: post) → get_cell "id" r ≠ Null →
  row_number n (get_cell "id" r) (pre ++ r :: post) = Integer (n + Z.of_nat (length pre)).
Proof.
  revert n. induction pre as [|r' pre IH]; intros n Hnd Hr; simpl.
  - rewrite bool_decide_eq_true_2 by done. f_equal. lia.
  - inversion Hnd as [|? ? Hn Hnd']. rewrite bool_decide_eq_false_2.
    + rewrite IH by done. f_equal. lia.
    + intros [_ Heq]. apply Hn. simpl. rewrite Heq, fmap_app. set_solver.
Qed.

(** The events in their order, with their positions from [n] on *)
Fixpoint numbered_rows (n : Z) (rs : list Row) : list Row :=
  match rs with
  | [] => []
  | r :: rs' => <["sequence" := Integer n]> r :: numbered_rows (n + 1) rs'
  end.

Lemma renumber_rows_ok pre done todo :
  length done = length pre → NoDup (get_cell "id" <$> pre ++ todo) → Null ∉ get_cell "id" <$> pre ++ todo →
  renumber_rows false (pre ++ todo) done todo = Ok (done ++ numbered_rows (1 + Z.of_nat (length pre)) todo).
Proof.
  revert pre done. induction todo as [|r todo IH]; intros pre done Hlen Hnd Hnull; simpl.
  - by rewrite app_nil_r.
  - assert (get_cell "id" r ≠ Null) as Hr.
    { intros E. apply Hnull. rewrite fmap_app. apply elem_of_app. right. simpl. rewrite E. left. }
    rewrite row_number_at by done. simpl.
    replace (pre ++ r :: todo) with ((pre ++ [r]) ++ todo) in * by by rewrite <- app_assoc.
    rewrite IH; [|rewrite !length_app; simpl; lia|done|done].
    f_equal. rewrite <- app_assoc. simpl. rewrite length_app. simpl. do 3 f_equal. lia.
Qed.

Lemma numbered_rows_sequences n rs x :
  x ∈ sequences (numbered_rows n rs) → ∃ k, x = Integer k ∧ n ≤ k < n + Z.of_nat (length rs).
Proof.
  revert n. induction rs as [|r rs IH]; intros n; simpl; [by intros ?%elem_of_nil|].
  rewrite get_cell_insert_eq. intros [->|Hx]%elem_of_cons; [exists n; split; [done|lia]|].
  destruct (IH _ Hx) as (k & -> & ?). exists k. split; [done|lia].
Qed.
Lemma numbered_rows_NoDup n rs : NoDup (sequences (numbered_rows n rs)).
Proof.
  revert n. induction rs as [|r rs IH]; intros n; simpl; [constructor|].
  rewrite get_cell_insert_eq. constructor; [|apply IH].
  intros (k & [= ->] & ?)%numbered_rows_sequences. lia.
Qed.

(** The rows of the events table after [renumber] *)
Definition renumbered (rs : list Row) : list Row :=
  if unnumbered rs then numbered_rows 1 rs else rs.

Lemma renumber_eq d tab :
  tabs d !! "events" = Some tab → Sound d →
  renumber d = (mkDb (<["events" := mkTab (columns tab) (renumbered (table_rows tab))]> (tabs d)) (indexes d), Ok tt).
Proof.
  intros Ht [S1 _ S3 _ _ _]. unfold renumber, on_table, bind, get_state. rewrite Ht. unfold renumbered.
  destruct (unnumbered (table_rows tab)) eqn:Hun.
  - rewrite bool_decide_eq_false_2 by (intros Hi; destruct (S3 tab Ht Hi); congruence).
    destruct (S1 tab Ht) as [Hnd Hnull].
    by rewrite (renumber_rows_ok [] [] (table_rows tab) eq_refl Hnd Hnull : renumber_rows _ (table_rows tab) _ _ = _).
  - rewrite insert_id; [by destruct d|]. rewrite Ht. by destruct tab.
Qed.

Definition numbered (o : option Tab) : Prop :=
  ∃ tab, o = Some tab ∧ unnumbered (table_rows tab) = false
    ∧ Forall counting (sequences (table_rows tab)) ∧ NoDup (sequences (table_rows tab)).

Lemma renumbered_ok rs :
  Forall counting (sequences rs) ∧ (unnumbered rs = false → NoDup (sequences rs)) →
  unnumbered (renumbered rs) = false ∧ Forall counting (sequences (renumbered rs))
  ∧ NoDup (sequences (renumbered rs)).
Proof.
  intros [Hc Hnd]. unfold renumbered. destruct (unnumbered rs) eqn:Hun; [|by auto].
  rewrite unnumbered_false. split_and!; [| |apply numbered_rows_NoDup].
  - intros (k & [= <-] & ?)%numbered_rows_sequences. lia.
  - apply Forall_forall. intros x (k & -> & _)%numbered_rows_sequences. done.
Qed.

Lemma renumbered_ids rs : get_cell "id" <$> renumbered rs = get_cell "id" <$> rs.
Proof.
  unfold renumbered. destruct (unnumbered rs); [|done]. generalize 1.
  induction rs as [|r rs IH]; intros n; simpl; [done|]. by rewrite get_cell_insert_ne, IH.
Qed.

Lemma renumber_triple :
  triple (λ d, has "events" event_additions.*1 d ∧ Sound d) renumber
    (λ _ d, numbered (tabs d !! "events") ∧ Sound d) Retry.
Proof.
  intros d [(tab & Ht & Hcols) HS]. rewrite (renumber_eq d tab) by done. simpl.
  destruct HS as [S1 S2 S3 S4 S5 S6].
  assert ("sequence" ∈ columns tab) as Hs by (apply Hcols; right; by left).
  destruct (renumbered_ok _ (S2 tab Ht Hs)) as (Hun & Hc & Hnd).
  rewrite lookup_insert_eq. split; [by eexists|].
  split; simpl; intros tab0; try (rewrite lookup_insert_ne by done; eauto);
    rewrite lookup_insert_eq; intros [= <-]; simpl; auto.
  rewrite renumbered_ids. by apply S1.
Qed.

Definition inspected (i : Inspected) : list (string * list string) :=
  [("jobs", job_columns i); ("runs", run_columns i); ("fanouts", fanout_columns i);
   ("schedules", schedule_columns i); ("events", event_columns i);
   ("long_services", long_service_columns i); ("repository_entries", repository_entry_columns i);
   ("repository_versions", repository_version_columns i)].

#[export] Instance stable_True : Stable (λ _, True).
Proof. by intros d d'. Qed.

Lemma add_step i t existing adds (F : Db → Prop) :
  (t, existing) ∈ inspected i → (t, adds) ∈ all_additions → Stable F →
  triple (λ d, (snapped (inspected i) d ∧ F d) ∧ Sound d) (add_missing t existing adds)
    (λ _ d, (snapped (inspected i) d ∧ (F d ∧ has t adds.*1 d)) ∧ Sound d) Retry.
Proof.
  intros Hi Hadd HF.
  eapply triple_weaken; [apply (triple_stable (λ d, snapped (inspected i) d ∧ F d));
    [apply _|apply _|by apply add_missing_triple]|..]; simpl; [|tauto|done].
  intros d [[Hs Hf] HS]. split; [done|]. split; [|done].
  unfold snapped in Hs. rewrite Forall_forall in Hs. apply (Hs _ Hi).
Qed.

Ltac in_list := first [left; fail | repeat first [by left | right]].

Lemma autocommitted_triple i (F : Db → Prop) : Stable F →
  triple (λ d, (snapped (inspected i) d ∧ F d) ∧ Sound d) (autocommitted i)
    (λ _ d, (snapped (inspected i) d ∧ ((((F d ∧ has "jobs" job_additions.*1 d)
      ∧ has "runs" run_additions.*1 d) ∧ has "fanouts" project_addition.*1 d)
      ∧ has "schedules" project_addition.*1 d) ∧ has "events" event_additions.*1 d)
      ∧ numbered (tabs d !! "events") ∧ Sound d) Retry.
Proof.
  intros HF. unfold autocommitted.
  do 5 (eapply triple_bind; [apply add_step; [in_list..|apply _]|intros []]).
  match goal with |- triple (λ d, (@?G d) ∧ Sound d) _ _ _ =>
    eapply triple_weaken; [apply (triple_stable G); [apply _|apply _|apply renumber_triple]|..]
  end; simpl; [|tauto|done].
  intros d [H HS]. split; [exact H|]. split; [apply H|done].
Qed.

(** ** The counter *)

Lemma max_of_cells (cells : list cell) : Forall counting cells → cells ≠ [] →
  ∃ m, max_of cells = Integer m ∧ ∀ k, Integer k ∈ cells → k ≤ m.
Proof.
  induction 1 as [|x cells Hx _ IH]; [done|]. intros _. destruct x as [|n|]; [done| |done].
  destruct (decide (cells = [])) as [->|Hne].
  { exists n. split; [done|]. by intros k [= ->]%list_elem_of_singleton. }
  destruct (IH Hne) as (m & Hm & Hle). simpl. rewrite Hm. exists (if n <=? m then m else n).
  split; [simpl; by destruct (n <=? m)|].
  intros k [[= ->]|Hk]%elem_of_cons; [|specialize (Hle k Hk)];
    match goal with |- _ ≤ (if ?a <=? ?b then _ else _) => destruct (Z.leb_spec a b) end; lia.
Qed.
Lemma last_sequence_max tab : Forall counting (sequences (table_rows tab)) →
  ∃ m, last_sequence tab = Integer m ∧ ∀ k, Integer k ∈ sequences (table_rows tab) → k ≤ m.
Proof.
  intros Hc. unfold last_sequence. fold (sequences (table_rows tab)).
  destruct (decide (sequences (table_rows tab) = [])) as [E|Hne].
  - rewrite E. exists 0. split; [done|]. by intros k ?%elem_of_nil.
  - destruct (max_of_cells _ Hc Hne) as (m & -> & Hm). by exists m.
Qed.

(** The counter of events is the least that is behind no event. *)
Definition counted (x : option Tab * option Tab) : Prop :=
  ∃ ev ct, x = (Some ev, Some ct) ∧ existsb scope_is (table_rows ct) = true
  ∧ ∀ r, r ∈ table_rows ct → scope_is r = true →
    ∃ n m, r !! "value" = Some (Integer n) ∧ last_sequence ev = Integer m ∧ m ≤ n
    ∧ ∀ k, Integer k ∈ sequences (table_rows ev) → k ≤ n.

Definition events_and_counter (d : Db) : option Tab * option Tab :=
  (tabs d !! "events", tabs d !! "causal_sequences").

Definition bump (last : cell) (r : Row) : Row :=
  if scope_is r then <["value" := max_cell (get_cell "value" r) last]> r else r.

Lemma sound_counters d tab :
  Sound d → (∀ r, r ∈ table_rows tab → scope_is r = true → counting (get_cell "value" r)) →
  Sound (mkDb (<["causal_sequences" := tab]> (tabs d)) (indexes d)).
Proof.
  intros [S1 S2 S3 S4 S5 S6] Hc. split; simpl; intros tab0; try (rewrite lookup_insert_ne by done; eauto).
  intros r. rewrite lookup_insert_eq. intros [= <-]. apply Hc.
Qed.

Lemma insert_counter_triple :
  triple (λ d, numbered (tabs d !! "events") ∧ has "causal_sequences" [] d ∧ Sound d) insert_counter
    (λ _ d, numbered (tabs d !! "events")
      ∧ (∃ ct, tabs d !! "causal_sequences" = Some ct ∧ existsb scope_is (table_rows ct) = true) ∧ Sound d)
    (λ _ _, False).
Proof.
  intros d (Hn & (ct & Hct & _) & HS). pose proof Hn as (ev & Hev & _ & Hcount & _).
  unfold insert_counter, on_table, bind, get_state. rewrite Hev, Hct.
  destruct (existsb scope_is (table_rows ct)) eqn:Hs.
  { simpl. split; [done|]. split; [by exists ct|done]. }
  simpl. rewrite lookup_insert_ne by done. split; [done|]. split.
  - eexists. split; [apply lookup_insert_eq|]. simpl. rewrite existsb_app, Hs. done.
  - apply sound_counters; [done|]. simpl. intros r [Hr|Hr%list_elem_of_singleton]%elem_of_app Hsc; [|subst r].
    + by apply (so_counter d HS ct).
    + destruct (last_sequence_max ev Hcount) as (m & -> & _). done.
Qed.

Lemma raise_counter_triple :
  triple (λ d, numbered (tabs d !! "events")
      ∧ (∃ ct, tabs d !! "causal_sequences" = Some ct ∧ existsb scope_is (table_rows ct) = true) ∧ Sound d)
    raise_counter
    (λ _ d, (numbered (tabs d !! "events") ∧ counted (events_and_counter d)) ∧ Sound d)
    (λ _ _, False).
Proof.
  intros d (Hn & (ct & Hct & Hs) & HS). pose proof Hn as (ev & Hev & _ & Hcount & _).
  destruct (last_sequence_max ev Hcount) as (m & Hm & Hle).
  unfold raise_counter, update_where, on_table, bind, get_state. rewrite Hev, Hct, Hm.
  assert (∀ r, scope_is (bump (Integer m) r) = scope_is r) as Hscope.
  { intros r. unfold bump. destruct (scope_is r) eqn:Hr; [|done]. unfold scope_is.
    by rewrite get_cell_insert_ne. }
  assert (∀ r, r ∈ table_rows ct → scope_is r = true →
    ∃ n, bump (Integer m) r !! "value" = Some (Integer n) ∧ m ≤ n) as Hb.
  { intros r Hr Hsr. pose proof (so_counter d HS ct r Hct Hr Hsr) as Hv. unfold bump. rewrite Hsr.
    rewrite lookup_insert_eq. destruct (get_cell "value" r) as [|v|]; [done| |done]. simpl.
    destruct (Z.leb_spec v m); eexists; (split; [done|lia]). }
  simpl. fold (bump (Integer m)). split; [split|].
  - by rewrite lookup_insert_ne.
  - unfold events_and_counter. simpl. rewrite lookup_insert_eq, lookup_insert_ne by done. rewrite Hev.
    eexists _, _. split; [done|]. simpl. split.
    + change (existsb scope_is (bump (Integer m) <$> table_rows ct) = true).
      rewrite <- Hs. clear -Hscope. induction (table_rows ct) as [|r rs IH]; [done|].
      rewrite fmap_cons. change (scope_is (bump (Integer m) r) || existsb scope_is (bump (Integer m) <$> rs)
        = scope_is r || existsb scope_is rs). by rewrite IH, Hscope.
    + intros r' (r & -> & Hr)%list_elem_of_fmap. rewrite Hscope. intros Hsr.
      destruct (Hb r Hr Hsr) as (n & Hv & Hmn). exists n, m. split_and!; [done..|].
      intros k Hk. specialize (Hle k Hk). lia.
  - apply sound_counters; [done|]. simpl. intros r' (r & -> & Hr)%list_elem_of_fmap. rewrite Hscope.
    intros Hsr. destruct (Hb r Hr Hsr) as (n & Hv & _). unfold get_cell. by rewrite Hv.
Qed.

(** ** The rest of the transaction *)

Lemma preserves_put u t tab : u ≠ t → Preserves (λ d, tabs d !! u) (put_table t tab).
Proof. intros Hne d. simpl. by rewrite lookup_insert_ne. Qed.
#[export] Instance preserves_add_column u t c ddl : 
  TCEq (bool_decide (u = t)) false → Preserves (λ d, tabs d !! u) (add_column t c ddl).
Proof.
  intros Hne%TCEq_eq%bool_decide_eq_false d. unfold add_column, bind, get_state.
  destruct (tabs d !! t); [|done]. destruct (bool_decide _); [done|]. destruct (_ && _); [done|].
  by apply preserves_put.
Qed.
#[export] Instance preserves_add_missing u t existing adds :
  TCEq (bool_decide (u = t)) false → Preserves (λ d, tabs d !! u) (add_missing t existing adds).
Proof. intros Hne. apply preserves_forM. intros [c ddl]. destruct (bool_decide (c ∈ existing)); apply _. Qed.
#[export] Instance preserves_update_where u t p f :
  TCEq (bool_decide (u = t)) false → Preserves (λ d, tabs d !! u) (update_where t p f).
Proof.
  intros Hne%TCEq_eq%bool_decide_eq_false d. unfold update_where, on_table, bind, get_state.
  destruct (tabs d !! t); [|done]. by apply preserves_put.
Qed.
#[export] Instance preserves_pair {S A B C} (f : S → A) (g : S → B) (m : M S C) :
  Preserves f m → Preserves g m → Preserves (λ s, (f s, g s)) m.
Proof. intros Hf Hg s. by rewrite (Hf s), (Hg s). Qed.

Definition settled (o : option Tab) : Prop :=
  ∃ tab, o = Some tab ∧ ∀ r, r ∈ table_rows tab → run_unsettled r = true →
    get_cell "started_at" r = Null ∧ r !! "finished_at" = Some Null.

Lemma cell_lt_irrefl x : cell_lt x x = false.
Proof. unfold cell_lt. destruct x; [done|..]; by destruct (cell_leb _ _). Qed.

Lemma settle_runs_triple :
  triple (λ d, has "runs" run_additions.*1 d ∧ Sound d) settle_runs
    (λ _ d, settled (tabs d !! "runs") ∧ Sound d) (λ _ _, False).
Proof.
  intros d [(tab & Ht & _) HS]. unfold settle_runs, update_where, on_table, bind, get_state. rewrite Ht.
  simpl. rewrite lookup_insert_eq. split.
  - eexists. split; [done|]. simpl. intros r' (r & -> & _)%list_elem_of_fmap.
    destruct (run_unsettled r) eqn:Hr; [|congruence]. intros Hr'. revert Hr'. unfold run_unsettled.
    rewrite get_cell_insert_eq, !get_cell_insert_ne, cell_lt_irrefl, andb_false_r by done. simpl.
    intros [Hnull%bool_decide_eq_true _]%andb_true_iff. rewrite lookup_insert_eq. by rewrite Hnull.
  - destruct HS as [S1 S2 S3 S4 S5 S6]. split; simpl; intros tab0;
      rewrite lookup_insert_ne by done; eauto.
Qed.

Lemma create_unique_index_eq {K} `{EqDecision K} name t (key : Row → option K) (p : Row → bool) d tab :
  tabs d !! t = Some tab → (name ∉ indexes d → NoDup (omap key (filter p (table_rows tab)))) →
  create_unique_index name t key p d = (mkDb (tabs d) ({[name]} ∪ indexes d), Ok tt).
Proof.
  intros Ht Hnd. unfold create_unique_index, on_table, bind, get_state. rewrite Ht.
  case_bool_decide as Hin.
  - replace ({[name]} ∪ indexes d) with (indexes d) by set_solver. by destruct d.
  - by rewrite bool_decide_eq_true_2 by auto.
Qed.

Lemma sequence_keys rs :
  Forall counting (sequences rs) → omap sequence_key (filter (λ _, true) rs) = sequences rs.
Proof.
  rewrite list_filter_all by done. unfold sequences. induction rs as [|r rs IH]; [done|].
  intros Hf. inversion Hf as [|? ? Hx Hf']; subst. simpl. unfold sequence_key at 1.
  destruct (get_cell "sequence" r); [done| |done]. f_equal. by apply IH.
Qed.

Definition all_indexed (d : Db) : Prop :=
  index_of_entries ∈ indexes d ∧ index_of_versions ∈ indexes d ∧ index_of_events ∈ indexes d.

Lemma indexes_triple :
  triple (λ d, (has "repository_entries" repository_entry_additions.*1 d
      ∧ has "repository_versions" repository_version_additions.*1 d
      ∧ numbered (tabs d !! "events")) ∧ Sound d)
    (do* create_unique_index index_of_entries "repository_entries" entry_key entry_active in
     do* create_unique_index index_of_versions "repository_versions" version_key (λ _, true) in
     create_unique_index index_of_events "events" sequence_key (λ _, true))
    (λ _ d, all_indexed d) (λ _ _, False).
Proof.
  intros d [((te & Hte & Hce) & (tv & Htv & Hcv) & (ev & Hev & Hun & Hcount & Hnd)) HS].
  pose proof (so_entries d HS te Hte) as He. pose proof (so_versions d HS tv Htv) as Hv.
  rewrite completed_done in He by done. rewrite completed_done in Hv by done.
  unfold bind. rewrite (create_unique_index_eq _ _ _ _ d te) by done. simpl.
  rewrite (create_unique_index_eq _ _ _ _ _ tv); [|done|intros Hn; apply Hv; set_solver]. simpl.
  rewrite (create_unique_index_eq _ _ _ _ _ ev); [|done|by rewrite sequence_keys]. simpl.
  unfold all_indexed. simpl. set_solver.
Qed.

(** ** The whole of an attempt *)

Definition Tables (d : Db) : Prop := ∀ td, td ∈ metadata → has (td_name td) [] d.
#[export] Instance stable_Tables : Stable Tables.
Proof. intros d d' K H td Hin. eapply stable; [exact K|]. by apply H. Qed.

Lemma has_nil t cols d : has t cols d → has t [] d.
Proof. intros (tab & Ht & _). exists tab. split; [done|]. by intros c ?%elem_of_nil. Qed.

Definition added_columns (d : Db) : Prop :=
  Forall (λ x : string * list (string * Ddl), has x.1 x.2.*1 d) all_additions.

(** A migrated database *)
Record Migrated (d : Db) : Prop := {
  mi_tables : Tables d;
  mi_columns : added_columns d;
  mi_numbered : numbered (tabs d !! "events");
  mi_counted : counted (events_and_counter d);
  mi_settled : settled (tabs d !! "runs");
  mi_indexed : all_indexed d
}.

(** The events and the counter once they agree, beside what changes *)
Definition counters_done (x : option Tab * option Tab) : Prop := numbered x.1 ∧ counted x.

Lemma triple_frame {A B} (f : Db → B) (G : B → Prop) (F P : Db → Prop) (m : M Db A) Q E :
  Stable F → Within Kept m → Preserves f m → triple P m Q E →
  triple (λ d, F d ∧ G (f d) ∧ P d) m (λ a d, F d ∧ G (f d) ∧ Q a d) E.
Proof. intros. apply triple_stable; [done..|]. by apply triple_preserves. Qed.

Lemma triple_no_error {A} (P : Db → Prop) (m : M Db A) Q E : triple P m Q (λ _ _, False) → triple P m Q E.
Proof. intros H d Hp. specialize (H d Hp). by destruct (m d) as [d' [a|e]]. Qed.

Lemma insert_step (F : Db → Prop) : Stable F → (∀ d, F d → has "causal_sequences" [] d) →
  triple (λ d, F d ∧ numbered (tabs d !! "events") ∧ Sound d) insert_counter
    (λ _ d, F d ∧ numbered (tabs d !! "events")
      ∧ (∃ ct, tabs d !! "causal_sequences" = Some ct ∧ existsb scope_is (table_rows ct) = true) ∧ Sound d) Retry.
Proof.
  intros HF Hc.
  eapply triple_weaken; [apply (triple_stable F); [done|apply _|apply triple_no_error, insert_counter_triple]|..];
    simpl; [|done|done]. intros d (Hf & Hn & HS). auto.
Qed.

Lemma add_step_counted i t existing adds (F : Db → Prop) :
  (t, existing) ∈ inspected i → (t, adds) ∈ all_additions → Stable F →
  TCEq (bool_decide ("events" = t)) false → TCEq (bool_decide ("causal_sequences" = t)) false →
  triple (λ d, (snapped (inspected i) d ∧ F d) ∧ counters_done (events_and_counter d) ∧ Sound d)
    (add_missing t existing adds)
    (λ _ d, (snapped (inspected i) d ∧ (F d ∧ has t adds.*1 d))
      ∧ counters_done (events_and_counter d) ∧ Sound d) Retry.
Proof.
  intros Hi Hadd HF He Hc.
  eapply triple_weaken; [apply (triple_preserves events_and_counter counters_done);
    [unfold events_and_counter; apply _|by apply (add_step i t existing adds F)]|..]; simpl; [tauto|tauto|done].
Qed.

Lemma indexing_triple (F : Db → Prop) : Stable F →
  (∀ d, F d → has "repository_entries" repository_entry_additions.*1 d
    ∧ has "repository_versions" repository_version_additions.*1 d) →
  triple (λ d, F d ∧ (counters_done (events_and_counter d) ∧ settled (tabs d !! "runs")) ∧ Sound d)
    (do* create_unique_index index_of_entries "repository_entries" entry_key entry_active in
     do* create_unique_index index_of_versions "repository_versions" version_key (λ _, true) in
     create_unique_index index_of_events "events" sequence_key (λ _, true))
    (λ _ d, F d ∧ (counters_done (events_and_counter d) ∧ settled (tabs d !! "runs")) ∧ all_indexed d) Retry.
Proof.
  intros HF Hh.
  eapply triple_weaken; [apply (triple_frame (λ d, (events_and_counter d, tabs d !! "runs"))
      (λ x, counters_done x.1 ∧ settled x.2) F); [done|apply _| |apply triple_no_error, indexes_triple]|..];
    simpl; [|intros d (Hf & (Hn & Hs) & HS)|done|done].
  - assert (∀ K `{EqDecision K} name t (key : Row → option K) p u,
      Preserves (λ d, tabs d !! u) (create_unique_index name t key p)) as Hp.
    { intros K ? name t key p u d. unfold create_unique_index, on_table, bind, get_state.
      destruct (tabs d !! t); [|done]. case_bool_decide; [done|]. by case_bool_decide. }
    unfold events_and_counter. apply _.
  - destruct (Hh d Hf). split; [done|]. split; [done|]. split; [|done]. split; [done|]. split; [done|apply Hn].
Qed.

Lemma raise_step (F : Db → Prop) : Stable F →
  triple (λ d, F d ∧ numbered (tabs d !! "events")
      ∧ (∃ ct, tabs d !! "causal_sequences" = Some ct ∧ existsb scope_is (table_rows ct) = true) ∧ Sound d)
    raise_counter (λ _ d, F d ∧ counters_done (events_and_counter d) ∧ Sound d) Retry.
Proof. intros HF. apply triple_stable; [done|apply _|apply triple_no_error, raise_counter_triple]. Qed.

Lemma settle_step (F : Db → Prop) : Stable F → (∀ d, F d → has "runs" run_additions.*1 d) →
  triple (λ d, F d ∧ counters_done (events_and_counter d) ∧ Sound d) settle_runs
    (λ _ d, F d ∧ (counters_done (events_and_counter d) ∧ settled (tabs d !! "runs")) ∧ Sound d) Retry.
Proof.
  intros HF Hr. eapply triple_weaken; [apply (triple_frame events_and_counter counters_done F);
      [done|apply _|unfold events_and_counter; apply _|apply triple_no_error, settle_runs_triple]|..]; simpl;
    [|tauto|done].
  intros d (Hf & Hc & HS). auto.
Qed.

Lemma in_transaction_triple i (F : Db → Prop) : Stable F → (∀ d, F d → has "causal_sequences" [] d) →
  (∀ d, F d → has "runs" run_additions.*1 d) →
  triple (λ d, (snapped (inspected i) d ∧ F d) ∧ numbered (tabs d !! "events") ∧ Sound d) (in_transaction i)
    (λ _ d, (snapped (inspected i) d ∧ ((F d ∧ has "long_services" service_additions.*1 d)
      ∧ has "repository_entries" repository_entry_additions.*1 d)
      ∧ has "repository_versions" repository_version_additions.*1 d)
      ∧ (counters_done (events_and_counter d) ∧ settled (tabs d !! "runs")) ∧ all_indexed d) Retry.
Proof.
  intros HF Hc Hr. unfold in_transaction.
  eapply triple_bind; [apply insert_step; [apply _|by intros d [_ Hf]; auto]|intros []].
  eapply triple_bind; [apply raise_step, _|intros []].
  do 3 (eapply triple_bind; [apply add_step_counted; [in_list..|apply _|done|done]|intros []]).
  eapply triple_bind; [apply settle_step; [apply _|intros d H; apply Hr; tauto]|intros []].
  apply indexing_triple; [apply _|tauto].
Qed.

(** ** Starting *)

(** The other processes lose nothing and leave the database one that can be migrated; a
    file they have locked is tried again. *)
Class Cooperative `{Startup} : Prop := {
  co_keeps : ∀ k phase, Within Kept (others k phase);
  co_sound : ∀ k phase, triple Sound (others k phase) (λ _, Sound) Retry
}.

Lemma create_table_triple td : td ∈ metadata →
  triple Sound (create_table td) (λ _ d, has (td_name td) [] d ∧ Sound d) Retry.
Proof.
  intros Hin d HS. unfold create_table, bind, get_state.
  destruct (tabs d !! td_name td) as [tab|] eqn:Ht; [by split; [apply exists_retryable|]|].
  simpl. split.
  - eexists. split; [apply lookup_insert_eq|]. by intros c ?%elem_of_nil.
  - destruct HS as [S1 S2 S3 S4 S5 S6]. assert (td_name td = "events" → "sequence" ∈ td_columns td) as Hs.
    { intros E. assert (Forall (λ td, td_name td = "events" → "sequence" ∈ td_columns td) metadata) as Hall
        by (by apply (bool_decide_unpack _)). rewrite Forall_forall in Hall. by apply Hall. }
    split; simpl; intros tab0; lazymatch goal with |- ∀ r : Row, _ => intros r | _ => idtac end;
      rewrite lookup_insert; case_decide as Hn; eauto; intros [= <-]; simpl; try (intros; apply NoDup_nil_2).
    + split; [apply NoDup_nil_2|]. by intros ?%elem_of_nil.
    + intros _. split; [constructor|intros; apply NoDup_nil_2].
    + intros _. split; [by apply Hs|done].
    + by intros ?%elem_of_nil.
Qed.

Lemma create_tables_triple l : l ⊆ metadata →
  triple Sound (forM_ l create_table) (λ _ d, (∀ td, td ∈ l → has (td_name td) [] d) ∧ Sound d) Retry.
Proof.
  induction l as [|td l IH]; intros Hl; simpl.
  - apply triple_ret. intros d HS. split; [|done]. by intros td ?%elem_of_nil.
  - eapply triple_bind; [apply create_table_triple, Hl; left|intros []].
    eapply triple_weaken; [apply (triple_stable (has (td_name td) [])); [apply _|apply _|apply IH; set_solver]
      |done| |done]. simpl. intros _ d (Hf & Hr & HS). split; [|done].
    intros td' [->|Hin]%elem_of_cons; [done|by apply Hr].
Qed.

Lemma create_all_triple m : Within Kept m → triple Sound m (λ _, Sound) Retry →
  triple Sound (create_all m) (λ _ d, Tables d ∧ Sound d) Retry.
Proof.
  intros Hk Hm d HS. unfold create_all. unfold bind at 1, get_state.
  set (missing := filter _ metadata).
  assert (triple (λ d', (∀ td, td ∈ metadata → td ∉ missing → has (td_name td) [] d') ∧ Sound d')
    (do* m in forM_ missing create_table) (λ _ d', Tables d' ∧ Sound d') Retry) as Ht.
  { eapply triple_bind; [apply triple_stable; [|done|exact Hm]|intros []].
    - intros d1 d2 K H td Hin Hn. eapply stable; [exact K|]. by apply H.
    - eapply triple_weaken;
        [apply (triple_stable (λ d, ∀ td, td ∈ metadata → td ∉ missing → has (td_name td) [] d));
          [|apply _|apply (create_tables_triple missing)]|..]; simpl.
      + intros d1 d2 K H td Hin Hn. eapply stable; [exact K|]. by apply H.
      + intros td Hin. by apply list_elem_of_filter in Hin as [_ Hin].
      + done.
      + intros _ d' (Hold & Hnew & HS'). split; [|done]. intros td Hin.
        destruct (decide (td ∈ missing)); auto.
      + done. }
  apply Ht. split; [|done]. intros td Hin Hn.
  destruct (tabs d !! td_name td) as [tab|] eqn:E; [|by destruct Hn; apply list_elem_of_filter].
  exists tab. split; [done|]. by intros c ?%elem_of_nil.
Qed.

Lemma inspect_ok d : Tables d → ∃ i, inspect d = Ok i ∧ snapped (inspected i) d.
Proof.
  intros HT. assert (∀ t, t ∈ td_name <$> metadata → ∃ cols, get_columns d t = Ok cols ∧ has t cols d) as Hg.
  { intros t (td & -> & Hin)%list_elem_of_fmap. destruct (HT td Hin) as (tab & Ht & _).
    exists (columns tab). unfold get_columns. rewrite Ht. split; [done|]. by exists tab. }
  unfold inspect.
  destruct (Hg "jobs") as (? & -> & ?); [by apply (bool_decide_unpack _)|].
  destruct (Hg "runs") as (? & -> & ?); [by apply (bool_decide_unpack _)|].
  destruct (Hg "fanouts") as (? & -> & ?); [by apply (bool_decide_unpack _)|].
  destruct (Hg "schedules") as (? & -> & ?); [by apply (bool_decide_unpack _)|].
  destruct (Hg "events") as (? & -> & ?); [by apply (bool_decide_unpack _)|].
  destruct (Hg "long_services") as (? & -> & ?); [by apply (bool_decide_unpack _)|].
  destruct (Hg "repository_entries") as (? & -> & ?); [by apply (bool_decide_unpack _)|].
  destruct (Hg "repository_versions") as (? & -> & ?); [by apply (bool_decide_unpack _)|].
  simpl. eexists. split; [done|]. unfold snapped, inspected. simpl. by repeat constructor.
Qed.

Lemma ensure_schema_columns_triple m : Within Kept m → triple Sound m (λ _, Sound) Retry →
  triple (λ d, Tables d ∧ Sound d) (ensure_schema_columns m) (λ _, Migrated) Retry.
Proof.
  intros Hk Hm d [HT HS]. unfold ensure_schema_columns.
  unfold bind at 1, get_state. destruct (inspect_ok d HT) as (i & Hi & Hsnap).
  unfold bind at 1, lift_result. rewrite Hi.
  assert (triple (λ d, (snapped (inspected i) d ∧ Tables d) ∧ Sound d)
    (do* m in do* autocommitted i in atomic (in_transaction i)) (λ _, Migrated) Retry) as Ht; [|by apply Ht].
  eapply triple_bind; [apply triple_stable; [|done|exact Hm]; apply _|intros []].
  eapply triple_bind; [apply autocommitted_triple, _|intros []].
  match goal with |- triple (λ d, (_ ∧ @?F d) ∧ _) _ _ _ => pose proof (in_transaction_triple i F) as Hin end.
  simpl in Hin. intros d1 H1. specialize (Hin _).
  assert (Hpost := Hin ltac:(intros ? (((((HT' & _) & _) & _) & _) & _); exact (HT' causal_sequences_table ltac:(by left)))
    ltac:(tauto) d1 H1). unfold atomic.
  destruct (in_transaction i d1) as [d2 [[]|e]]; [|split; [apply Hpost|apply H1]].
  destruct Hpost as ((_ & (((((((HT' & Hj) & Hr) & Hf) & Hs) & He) & Hl) & Hre) & Hrv)
    & ((Hn & Hc) & Hset) & Hidx).
  split; [done| |exact Hn|done..]. unfold added_columns, all_additions. by repeat constructor.
Qed.

(** The whole loop, once an attempt finds the others quiet. *)
Lemma initialize_triple `{Cooperative} n k e :
  triple Sound (initialize_from k n e) (λ _ d, Migrated d ∨ (n = 0%nat ∧ e = None)) (λ _, Sound).
Proof.
  revert k e. induction n as [|n IH]; intros k e; simpl.
  { destruct e; [by apply triple_raise|by apply triple_ret; right]. }
  intros d HS. unfold try_catch.
  assert (triple Sound (do* create_all (others k false) in ensure_schema_columns (others k true))
    (λ _, Migrated) Retry) as Hm.
  { eapply triple_bind; [apply create_all_triple; [apply co_keeps|apply co_sound]|intros []].
    apply ensure_schema_columns_triple; [apply co_keeps|apply co_sound]. }
  specialize (Hm d HS). destruct (bind _ _ d) as [d' [[]|e']]; [by left|].
  destruct Hm as [Hr HS']. rewrite Hr. specialize (IH (S k) (Some e') d' HS').
  destruct (initialize_from _ _ _ d') as [d'' [[]|?]]; [|done]. left. by destruct IH as [|[_ ?]].
Qed.

(** ** An undisturbed attempt

    The only errors to be tried again are those of tables and columns that appear after
    they were looked for. *)
Definition Final (e : exn) (d : Db) : Prop := is_retryable e = false.

Definition exact (l : list (string * list string)) (d : Db) : Prop :=
  Forall (λ x, ∃ tab, tabs d !! x.1 = Some tab ∧ columns tab = x.2) l.

Lemma exact_put l t tab tab' d :
  tabs d !! t = Some tab → columns tab' = columns tab → exact l d →
  exact l (mkDb (<[t := tab']> (tabs d)) (indexes d)).
Proof.
  intros Ht Hc He. eapply Forall_impl; [exact He|]. intros [u cols] (tu & Hu & E). simpl in *.
  destruct (decide (t = u)) as [->|Hne].
  - exists tab'. rewrite lookup_insert_eq. split; [done|]. rewrite Ht in Hu. injection Hu as ->. congruence.
  - exists tu. by rewrite lookup_insert_ne.
Qed.

Lemma exact_on_table {A} l t (k : Tab → M Db A) :
  is_retryable (no_such_table t) = false →
  (∀ tab, triple (λ d, tabs d !! t = Some tab ∧ exact l d) (k tab) (λ _, exact l) Final) →
  triple (exact l) (on_table t k) (λ _, exact l) Final.
Proof.
  intros Ht Hk d He. unfold on_table, bind, get_state. destruct (tabs d !! t) as [tab|] eqn:E; [|done].
  by apply Hk.
Qed.
Lemma exact_put_table l t tab rs :
  triple (λ d, tabs d !! t = Some tab ∧ exact l d) (put_table t (mkTab (columns tab) rs)) (λ _, exact l) Final.
Proof. intros d [Ht He]. by eapply exact_put. Qed.
Lemma exact_update l t p f : is_retryable (no_such_table t) = false →
  triple (exact l) (update_where t p f) (λ _, exact l) Final.
Proof. intros Ht. apply exact_on_table; [done|]. intros tab. apply exact_put_table. Qed.
Lemma triple_forget {A} (φ P : Db → Prop) (m : M Db A) Q E : triple P m Q E → triple (λ d, φ d ∧ P d) m Q E.
Proof. intros H d [_ Hp]. by apply H. Qed.

Lemma renumber_final ix all acc todo e : renumber_rows ix all acc todo = Err e → is_retryable e = false.
Proof.
  revert acc. induction todo as [|r todo IH]; intros acc; simpl; [done|].
  destruct (row_number _ _ _); [by intros [= <-]|..]; (destruct (_ && _); [by intros [= <-]|apply IH]).
Qed.
Lemma exact_renumber l : triple (exact l) renumber (λ _, exact l) Final.
Proof.
  apply exact_on_table; [done|]. intros tab d [Ht He]. destruct (unnumbered _); [|done].
  unfold bind, get_state, lift_result. destruct (renumber_rows _ _ _ _) eqn:Hr; [|by eapply renumber_final].
  by eapply exact_put.
Qed.
Lemma exact_insert_counter l : triple (exact l) insert_counter (λ _, exact l) Final.
Proof.
  apply exact_on_table; [done|]. intros ev. apply triple_forget. apply exact_on_table; [done|].
  intros tab. destruct (existsb _ _); [by intros d [_ He]|apply exact_put_table].
Qed.
Lemma exact_raise_counter l : triple (exact l) raise_counter (λ _, exact l) Final.
Proof. apply exact_on_table; [done|]. intros ev. by apply triple_forget, exact_update. Qed.
Lemma exact_index {K} `{EqDecision K} l name t (key : Row → option K) p :
  is_retryable (no_such_table t) = false →
  triple (exact l) (create_unique_index name t key p) (λ _, exact l) Final.
Proof.
  intros Ht. apply exact_on_table; [done|]. intros tab d [_ He]. unfold bind, get_state.
  case_bool_decide; [done|]. by case_bool_decide.
Qed.

(** Every column is added once: those that were missing are still missing. *)
Lemma add_missing_fresh t existing adds (l : list (string * list string)) d tab :
  NoDup adds.*1 → (∀ c ddl, (c, ddl) ∈ adds → ddl_not_null ddl && bool_decide (ddl_default ddl = Null) = false) →
  tabs d !! t = Some tab → (∀ c, c ∈ adds.*1 → c ∈ columns tab → c ∈ existing) → t ∉ l.*1 → exact l d →
  exact l (add_missing t existing adds d).1 ∧ (add_missing t existing adds d).2 = Ok tt.
Proof.
  intros Hnd Hv Ht Hold Hn He. revert d tab Ht Hold He.
  induction adds as [|[c ddl] adds IH]; intros d tab Ht Hold He; [done|].
  unfold add_missing. simpl forM_. fold (add_missing t existing adds). unfold bind.
  inversion Hnd as [|? ? Hc Hnd']; subst. simpl in Hc.
  specialize (IH Hnd' ltac:(intros c' ddl' Hin; apply (Hv c'); by right)). case_bool_decide as Hex.
  { simpl. apply (IH d tab); [done| |done]. intros c' Hc'. apply Hold. by right. }
  rewrite (add_column_eq _ _ _ _ _ Ht) by (apply (Hv c); left).
  rewrite bool_decide_eq_false_2 by (intros Hin; apply Hex, Hold; [left|done]).
  apply (IH _ (with_column c (ddl_default ddl) tab)); [apply lookup_insert_eq|..].
  - intros c' Hc' [Hin|Hin]%elem_of_app; [apply Hold; [by right|done]|].
    apply list_elem_of_singleton in Hin as ->. done.
  - eapply Forall_impl; [apply Forall_and; split; [exact He|]|].
    { apply Forall_forall. intros x Hx. instantiate (1 := λ x, x.1 ≠ t). simpl. intros <-.
      apply Hn, list_elem_of_fmap. by exists x. }
    simpl. intros x [(tu & Hu & E) Hne]. exists tu. by rewrite lookup_insert_ne.
Qed.
Lemma add_missing_exact t existing adds l :
  (t, adds) ∈ all_additions → t ∉ l.*1 →
  triple (exact ((t, existing) :: l)) (add_missing t existing adds) (λ _, exact l) Final.
Proof.
  intros Hin Hn d He. inversion He as [|? ? (tab & Ht & Hc) Hl]; subst. simpl in *. subst existing.
  destruct (additions_valid _ _ Hin) as [Hnd Hv].
  destruct (add_missing_fresh t (columns tab) adds l d tab) as [H1 H2]; auto.
  destruct (add_missing _ _ _ d) as [d' [[]|e]]; [exact H1|done].
Qed.

Lemma autocommitted_exact i : triple (exact (inspected i)) (autocommitted i)
  (λ _, exact [("long_services", long_service_columns i); ("repository_entries", repository_entry_columns i);
               ("repository_versions", repository_version_columns i)]) Final.
Proof.
  unfold autocommitted, inspected.
  do 5 (eapply triple_bind; [apply add_missing_exact; [in_list|by apply (bool_decide_unpack _)]|intros []]).
  apply exact_renumber.
Qed.
Lemma in_transaction_exact i :
  triple (exact [("long_services", long_service_columns i); ("repository_entries", repository_entry_columns i);
               ("repository_versions", repository_version_columns i)]) (in_transaction i) (λ _ _, True) Final.
Proof.
  unfold in_transaction. eapply triple_bind; [apply exact_insert_counter|intros []].
  eapply triple_bind; [apply exact_raise_counter|intros []].
  do 3 (eapply triple_bind; [apply add_missing_exact; [in_list|by apply (bool_decide_unpack _)]|intros []]).
  eapply triple_bind; [by apply exact_update|intros []].
  do 2 (eapply triple_bind; [by apply exact_index|intros []]).
  eapply triple_weaken; [by apply (exact_index [])|done..].
Qed.

Lemma create_tables_fresh l d :
  NoDup (td_name <$> l) → (∀ td, td ∈ l → tabs d !! td_name td = None) →
  (forM_ l create_table d).2 = Ok tt.
Proof.
  revert d. induction l as [|td l IH]; intros d Hnd Hnew; [done|]. simpl. unfold bind.
  inversion Hnd as [|? ? Hn Hnd']; subst. unfold create_table, bind at 1, get_state.
  rewrite Hnew by left. simpl. apply IH; [done|]. intros td' Hin. simpl.
  rewrite lookup_insert_ne; [apply Hnew; by right|]. intros E. apply Hn. rewrite E. by apply list_elem_of_fmap_2.
Qed.

Lemma inspect_exact d i : inspect d = Ok i → exact (inspected i) d.
Proof.
  assert (∀ t cols, get_columns d t = Ok cols → ∃ tab, tabs d !! t = Some tab ∧ columns tab = cols) as Hg.
  { intros t cols. unfold get_columns. destruct (tabs d !! t) as [tab|]; [|done]. intros [= <-]. by exists tab. }
  unfold inspect.
  destruct (get_columns d "jobs") eqn:?; [simpl|done]. destruct (get_columns d "runs") eqn:?; [simpl|done].
  destruct (get_columns d "fanouts") eqn:?; [simpl|done]. destruct (get_columns d "schedules") eqn:?; [simpl|done].
  destruct (get_columns d "events") eqn:?; [simpl|done]. destruct (get_columns d "long_services") eqn:?; [simpl|done].
  destruct (get_columns d "repository_entries") eqn:?; [simpl|done].
  destruct (get_columns d "repository_versions") eqn:?; [simpl|done]. intros [= <-].
  unfold exact, inspected. simpl. repeat (constructor; [by apply Hg|]). constructor.
Qed.

(** With nobody else at the file, a database that can be migrated is. *)
Lemma quiet_attempt d : Sound d → ∃ d',
  (do* create_all (ret tt) in ensure_schema_columns (ret tt)) d = (d', Ok tt) ∧ Migrated d'.
Proof.
  intros HS. assert (triple Sound (ret (S := Db) tt) (λ _, Sound) Retry) as Hret by (by apply triple_ret).
  pose proof (create_all_triple (ret tt) _ Hret d HS) as H1.
  assert ((create_all (ret tt) d).2 = Ok tt) as Hok1.
  { unfold create_all, bind, get_state, ret. apply create_tables_fresh.
    - eapply sublist_NoDup; [|apply fmap_sublist, sublist_filter]. by apply (bool_decide_unpack _).
    - intros td Hin. by apply list_elem_of_filter in Hin as [Hin _]. }
  unfold bind at 1. destruct (create_all (ret tt) d) as [d1 r]. simpl in Hok1. subst r. destruct H1 as [HT HS1].
  pose proof (ensure_schema_columns_triple (ret tt) _ Hret d1 (conj HT HS1)) as H2.
  assert (∀ e, (ensure_schema_columns (ret tt) d1).2 = Err e → is_retryable e = false) as Hfinal.
  { destruct (inspect_ok d1 HT) as (i & Hi & _). pose proof (inspect_exact d1 i Hi) as He.
    intros e. unfold ensure_schema_columns, bind, get_state, lift_result, ret. rewrite Hi.
    pose proof (autocommitted_exact i d1 He) as H3. destruct (autocommitted i d1) as [d2 [[]|e']]; [|by intros [= <-]].
    pose proof (in_transaction_exact i d2 H3) as H4. unfold atomic.
    destruct (in_transaction i d2) as [d3 [[]|e']]; [done|by intros [= <-]]. }
  destruct (ensure_schema_columns (ret tt) d1) as [d2 [[]|e]]; [by exists d2|].
  destruct H2 as [Hr _]. rewrite (Hfinal e) in Hr; done.
Qed.

(** Starting on one database file beside other processes that start too, however often
    they add a table or a column first or hold the file locked: once an attempt, of the ten,
    is left undisturbed, the store opens.  Every table and every added column is then there,
    the events carry different sequence numbers, none of them 0 or ahead of the counter, no
    run with a start has ended before it, and no finished one is without an end, and the
    unique indexes hold. *)
Theorem initialization_completes `{Startup} `{!Cooperative} (d : Db) (k : nat) :
  Sound d → (k < 10)%nat → (∀ phase, others k phase = ret tt) →
  ∃ d', _initialize_schema d = (d', Ok tt) ∧ Migrated d'.
Proof.
  intros HS Hk Hq. unfold _initialize_schema.
  assert (∀ n j e, Sound d → (j ≤ k < j + n)%nat → ∃ d', initialize_from j n e d = (d', Ok tt) ∧ Migrated d')
    as Hgen; [|apply Hgen; [done|lia]].
  clear HS Hk. intros n. revert d. induction n as [|n IH]; intros d j e HS Hj; [lia|]. simpl. unfold try_catch.
  destruct (decide (j = k)) as [->|Hne].
  { rewrite !Hq. destruct (quiet_attempt d HS) as (d' & -> & HM). by exists d'. }
  assert (triple Sound (do* create_all (others j false) in ensure_schema_columns (others j true))
    (λ _, Migrated) Retry) as Hm.
  { eapply triple_bind; [apply create_all_triple; [apply co_keeps|apply co_sound]|intros []].
    apply ensure_schema_columns_triple; [apply co_keeps|apply co_sound]. }
  specialize (Hm d HS). destruct (bind _ _ d) as [d1 [[]|e1]]; [by exists d1|].
  destruct Hm as [-> HS1]. apply IH; [done|lia].
Qed.

(** ** Starting again *)

Lemma add_missing_present t existing adds d :
  (∀ c, c ∈ adds.*1 → c ∈ existing) → add_missing t existing adds d = (d, Ok tt).
Proof.
  unfold add_missing. induction adds as [|[c ddl] adds IH]; intros Hc; [done|]. simpl. unfold bind.
  rewrite bool_decide_eq_true_2 by (apply Hc; left). apply IH. intros c' Hc'. apply Hc. by right.
Qed.
Lemma update_same t p f d tab :
  tabs d !! t = Some tab → (∀ r, r ∈ table_rows tab → p r = true → f r = r) → update_where t p f d = (d, Ok tt).
Proof.
  intros Ht Hf. unfold update_where, on_table, bind, get_state. rewrite Ht.
  assert ((λ r, if p r then f r else r) <$> table_rows tab = table_rows tab) as ->.
  { clear Ht. induction (table_rows tab) as [|r rs IH]; [done|]. rewrite fmap_cons, IH by (intros; apply Hf; [by right|done]).
    destruct (p r) eqn:Hp; [|done]. by rewrite Hf by (by left || done). }
  unfold put_table, modify. rewrite insert_id by (rewrite Ht; by destruct tab). by destruct d.
Qed.

Lemma raise_counter_same d : counted (events_and_counter d) → raise_counter d = (d, Ok tt).
Proof.
  intros (ev & ct & [= Hev Hct] & _ & Hv). unfold raise_counter, on_table, bind at 1, get_state.
  rewrite Hev. apply (update_same _ _ _ _ ct); [done|]. intros r Hr Hs.
  destruct (Hv r Hr Hs) as (n & m & Hn & Hm & Hle & _). apply insert_id. unfold get_cell. rewrite Hn, Hm. simpl.
  destruct (Z.leb_spec n m); [|done]. by replace m with n by lia.
Qed.
Lemma settle_runs_same d : settled (tabs d !! "runs") → settle_runs d = (d, Ok tt).
Proof.
  intros (tab & Ht & Hs). apply (update_same _ _ _ _ tab); [done|]. intros r Hr Hu.
  destruct (Hs r Hr Hu) as [E1 E2]. by rewrite E1, insert_id.
Qed.
Lemma renumber_same d : numbered (tabs d !! "events") → renumber d = (d, Ok tt).
Proof.
  intros (tab & Ht & Hu & _). unfold renumber, on_table, bind, get_state. by rewrite Ht, Hu.
Qed.

Lemma create_all_same d : Tables d → create_all (ret tt) d = (d, Ok tt).
Proof.
  intros HT. unfold create_all, bind, get_state, ret. rewrite list_filter_none; [done|].
  intros td Hin Hnone. destruct (HT td Hin) as (tab & Ht & _). congruence.
Qed.

Lemma present_columns d t adds cols :
  added_columns d → (t, adds) ∈ all_additions → get_columns d t = Ok cols → ∀ c, c ∈ adds.*1 → c ∈ cols.
Proof.
  intros Hc Hin Hg. unfold added_columns in Hc. rewrite Forall_forall in Hc.
  destruct (Hc _ Hin) as (tab & Ht & H). unfold get_columns in Hg. simpl in Ht. rewrite Ht in Hg.
  by injection Hg as <-.
Qed.

(** A store that is opened on a migrated database leaves it as it is. *)
Theorem initialization_idempotent (d : Db) :
  Migrated d → @_initialize_schema alone d = (d, Ok tt).
Proof.
  intros [HT Hc Hn Hcount Hset (Hi1 & Hi2 & Hi3)]. unfold _initialize_schema. simpl. unfold try_catch, bind at 1.
  rewrite create_all_same by done. unfold ensure_schema_columns.
  destruct (inspect_ok d HT) as (i & Hi & _). pose proof (inspect_exact d i Hi) as He.
  assert (∀ t cols adds, (t, cols) ∈ inspected i → (t, adds) ∈ all_additions →
    add_missing t cols adds d = (d, Ok tt)) as Hadd.
  { intros t cols adds Hin Ha. apply add_missing_present. unfold exact in He. rewrite Forall_forall in He.
    destruct (He _ Hin) as (tab & Ht & E). apply (present_columns d t); [done..|].
    unfold get_columns. simpl in *. by rewrite Ht, E. }
  unfold bind, get_state, lift_result, ret. rewrite Hi.
  unfold autocommitted, in_transaction, bind, atomic.
  rewrite !Hadd by in_list. rewrite renumber_same by done.
  destruct Hcount as (ev & ct & [= Hev Hct] & Hex & Hv).
  assert (insert_counter d = (d, Ok tt)) as ->.
  { unfold insert_counter, on_table, bind, get_state. by rewrite Hev, Hct, Hex. }
  rewrite raise_counter_same by (exists ev, ct; unfold events_and_counter; by rewrite Hev, Hct).
  rewrite !Hadd by in_list. rewrite settle_runs_same by done.
  assert (∀ K `{EqDecision K} name t (key : Row → option K) p, t ∈ td_name <$> metadata → name ∈ indexes d →
    create_unique_index name t key p d = (d, Ok tt)) as Hindex.
  { intros K ? name t key p (td & -> & Hin)%list_elem_of_fmap Hname. destruct (HT td Hin) as (tab & Ht & _).
    unfold create_unique_index, on_table, bind, get_state. by rewrite Ht, bool_decide_eq_true_2. }
  by rewrite !Hindex by (done || by apply (bool_decide_unpack _)).
Qed.

(** ** A file of an old version *)

Definition old_event (id : string) : Row :=
  list_to_map [("id", Str id); ("created_at", Str "2024-05-01 10:00:00.000000"); ("payload_json", Str "{}")].
Definition old_run (id status : string) (finished : cell) : Row :=
  list_to_map [("id", Str id); ("status", Str status); ("started_at", Str "2024-05-01 10:00:00.000000");
    ("finished_at", finished)].
Definition old_db : Db :=
  mkDb (list_to_map
    [("jobs", mkTab ["id"; "kind"; "input_json"] [list_to_map [("id", Str "j1"); ("kind", Str "demo.v1")]]);
     ("runs", mkTab ["id"; "status"; "started_at"; "finished_at"]
        [old_run "r1" "completed" Null; old_run "r2" "failed" (Str "2024-05-01 09:59:59.000000");
         old_run "r3" "running" Null]);
     ("events", mkTab ["id"; "created_at"; "payload_json"] [old_event "b"; old_event "a"])]) ∅.

Definition column_of (c t : string) (d : Db) : option (list cell) :=
  (λ tab, get_cell c <$> table_rows tab) <$> tabs d !! t.

Example old_file_migrated :
  let '(d, r) := @_initialize_schema alone old_db in
  r = Ok tt
  ∧ column_of "sequence" "events" d = Some [Integer 1; Integer 2]
  ∧ column_of "value" "causal_sequences" d = Some [Integer 2]
  ∧ column_of "status" "jobs" d = Some [Str "queued"]
  ∧ column_of "finished_at" "runs" d = Some
      [Str "2024-05-01 10:00:00.000000"; Str "2024-05-01 10:00:00.000000"; Null].
Proof. by vm_compute. Qed.

(** Entries whose names were not stored get the same one: the index cannot be built, the
    transaction is undone and the store does not open. *)
Example nameless_entries_refused :
  let d0 := mkDb (list_to_map [("repository_entries", mkTab ["id"]
              [list_to_map [("id", Str "e1")]; list_to_map [("id", Str "e2")]])]) ∅ in
  let '(d, r) := @_initialize_schema alone d0 in
  r = Err (IntegrityError ("UNIQUE constraint failed: index '" +:+ index_of_entries +:+ "'"))
  ∧ columns <$> tabs d !! "repository_entries" = Some ["id"]
  ∧ column_of "sequence" "events" d = Some [].
Proof. by vm_compute. Qed.

Definition old_events : Tab := mkTab ["id"; "created_at"; "payload_json"] [old_event "b"; old_event "a"].

Lemma old_db_sound : Sound old_db.
Proof.
  assert (tabs old_db !! "events" = Some old_events) as He by reflexivity.
  assert (tabs old_db !! "causal_sequences" = None) as Hc by reflexivity.
  assert (tabs old_db !! "repository_entries" = None) as Hr by reflexivity.
  assert (tabs old_db !! "repository_versions" = None) as Hv by reflexivity.
  split; intros tab; rewrite ?He, ?Hc, ?Hr, ?Hv; try done; intros [= <-].
  - split; apply (bool_decide_unpack _); by vm_compute.
  - intros Hs. exfalso. revert Hs. apply (bool_decide_unpack _). by vm_compute.
Qed.

(** Another process adds a column first, and then the file is locked. *)
Definition first_column : M Db unit :=
  let* d := get_state in
  match tabs d !! "jobs" with
  | None => ret tt
  | Some tab => if bool_decide ("fanout_id" ∈ columns tab) then ret tt
                else put_table "jobs" (with_column "fanout_id" Null tab)
  end.
Definition busy : Startup := {|
  others k phase := match k, phase with
                    | 0%nat, true => first_column
                    | 1%nat, false => raise (OperationalError "database is locked")
                    | _, _ => ret tt
                    end |}.

Lemma busy_cooperative : @Cooperative busy.
Proof.
  split.
  - intros [|[|k]] [|]; simpl; try apply _. intros d. unfold first_column, bind, get_state.
    destruct (tabs d !! "jobs") as [tab|] eqn:Ht; [|done]. case_bool_decide; [done|].
    by eapply kept_put, with_column_kept.
  - assert (triple Sound (ret (S := Db) tt) (λ _, Sound) Retry) as Hret by (by apply triple_ret).
    intros [|[|k]] [|]; simpl; try exact Hret.
    + intros d HS. unfold first_column, bind, get_state.
      destruct (tabs d !! "jobs") as [tab|] eqn:Ht; [|done]. case_bool_decide as Hn; [done|].
      apply (sound_extend d "jobs" job_additions tab); [by left|done| |done].
      exists "fanout_id", (nullable "TEXT"). split; [left|done].
    + apply triple_raise. by intros d HS.
Qed.

Lemma initialization_completes_witness :
  (@_initialize_schema busy old_db).2 = Ok tt
  ∧ ∃ d', @_initialize_schema busy old_db = (d', Ok tt) ∧ Migrated d'.
Proof.
  split; [by vm_compute|].
  apply (@initialization_completes busy busy_cooperative old_db 2 old_db_sound); [lia|by intros []].
Defined.

Lemma startup_keeps_rows_witness : Kept old_db (@_initialize_schema busy old_db).1.
Proof. apply (@startup_keeps_rows busy). apply busy_cooperative. Defined.

Lemma migrated_old_db : Migrated (@_initialize_schema alone old_db).1.
Proof.
  destruct (quiet_attempt old_db old_db_sound) as (d' & E & HM).
  unfold _initialize_schema. simpl. unfold try_catch.
  replace (bind (create_all (ret tt)) _ old_db) with (d', @Ok unit tt) by (symmetry; exact E). exact HM.
Qed.
Lemma initialization_idempotent_witness :
  @_initialize_schema alone (@_initialize_schema alone old_db).1
  = ((@_initialize_schema alone old_db).1, Ok tt).
Proof. apply (initialization_idempotent _ migrated_old_db). Defined.
