(* ===== verification/Paths.v ===== *)
(** * Paths: [pathlib.PurePosixPath]

    A path is its anchor and its names.  Parsing drops empty names and [.], keeps [..];
    two leading slashes, and only two, are an anchor of their own. *)

From Stdlib Require Import Ascii.
From S2P Require Import Prelude Contracts Text.

Definition slash_char : ascii := "/".

Record PosixPath := mkPath { anchor : string; names : list string }.
#[export] Instance PosixPath_eq_dec : EqDecision PosixPath.
Proof. solve_decision. Defined.

Definition path_name (w : list ascii) : bool := negb (bool_decide (w = []) || bool_decide (w = ["."%char])).
Definition path_anchor (l : list ascii) : string :=
  match split_on slash_char l with
  | [] :: [] :: [] :: _ :: _ => "/"
  | [] :: [] :: _ :: _ => "//"
  | [] :: _ :: _ => "/"
  | _ => EmptyString
  end.
Definition parse_path (s : string) : PosixPath :=
  mkPath (path_anchor (chars s)) (text <$> filter (λ w, path_name w = true) (split_on slash_char (chars s))).

Definition is_absolute (p : PosixPath) : bool := truthy (anchor p).
(** [path.parts] *)
Definition parts (p : PosixPath) : list string := (if is_absolute p then [anchor p] else []) ++ names p.
(** [path.as_posix()], [str(path)] *)
Definition as_posix (p : PosixPath) : string :=
  match names p with
  | [] => if is_absolute p then anchor p else "."
  | ns => anchor p +:+ text (join_with slash_char (chars <$> ns))
  end.
(** [p / q] *)
Definition path_join (p q : PosixPath) : PosixPath :=
  if is_absolute q then q else mkPath (anchor p) (names p ++ names q).
(** [p.relative_to(q)]: [None] is the ValueError. *)
Definition relative_to (p q : PosixPath) : option PosixPath :=
  if bool_decide (anchor p = anchor q) && bool_decide (take (length (names q)) (names p) = names q)
  then Some (mkPath EmptyString (drop (length (names q)) (names p))) else None.
(** [path.name], [path.parent], [path.suffix] *)
Definition last_name (p : PosixPath) : string := default EmptyString (last (names p)).
Definition parent (p : PosixPath) : PosixPath := mkPath (anchor p) (removelast (names p)).
Definition suffix (p : PosixPath) : string :=
  match rsplit_once "." (chars (last_name p)) with
  | Some (_ :: _, (_ :: _) as ext) => text ("."%char :: ext)
  | _ => EmptyString
  end.

Example parse_path_examples :
  parse_path "a//./b/" = mkPath EmptyString ["a"; "b"] ∧ parse_path "//x" = mkPath "//" ["x"]
  ∧ parse_path "///x/.." = mkPath "/" ["x"; ".."] ∧ parse_path "/" = mkPath "/" []
  ∧ parse_path "//" = mkPath "//" [] ∧ as_posix (parse_path "./.") = "." ∧ as_posix (parse_path "//a/b/") = "//a/b"
  ∧ suffix (parse_path "x/a.tar.gz") = ".gz" ∧ suffix (parse_path ".profile") = EmptyString
  ∧ suffix (parse_path "a.") = EmptyString.
Proof. split_and!; reflexivity. Qed.

(** ** Names *)

(** A name a path can hold. *)
Definition good_name (s : string) : Prop := lacks slash_char (chars s) ∧ s ≠ EmptyString ∧ s ≠ ".".
Record path_ok (p : PosixPath) : Prop := {
  po_anchor : anchor p = EmptyString ∨ anchor p = "/" ∨ anchor p = "//";
  po_names : Forall good_name (names p)
}.

Lemma path_name_good w : lacks slash_char w → path_name w = true → good_name (text w).
Proof.
  unfold path_name, good_name. intros Hw Hn. rewrite chars_text. split_and!; [done| |];
    intros Heq; apply (f_equal chars) in Heq; rewrite chars_text in Heq; subst w; discriminate.
Qed.
Lemma good_path_name s : good_name s → path_name (chars s) = true.
Proof.
  intros (_ & Hne & Hdot). unfold path_name. apply negb_true_iff, orb_false_iff.
  split; apply bool_decide_eq_false; intros Heq; [apply Hne|apply Hdot]; by apply chars_inj.
Qed.

Lemma parse_path_ok s : path_ok (parse_path s).
Proof.
  split; simpl.
  - unfold path_anchor. repeat case_match; auto.
  - apply Forall_fmap, Forall_forall. intros w [Hn Hw]%list_elem_of_filter.
    apply path_name_good; [|done]. by apply (proj1 (Forall_forall _ _) (split_on_lacks slash_char (chars s))).
Qed.

Lemma filter_names ns : Forall good_name ns → filter (λ w, path_name w = true) (chars <$> ns) = chars <$> ns.
Proof.
  intros Hns. apply list_filter_all. intros w (s & -> & Hs)%list_elem_of_fmap.
  apply good_path_name. by apply (proj1 (Forall_forall _ _) Hns).
Qed.
Lemma names_lack ns : Forall good_name ns → Forall (lacks slash_char) (chars <$> ns).
Proof. intros Hns. apply Forall_fmap. eapply Forall_impl; [exact Hns|]. by intros s [Hs _]. Qed.
Lemma text_chars_list (ns : list string) : text <$> (chars <$> ns) = ns.
Proof. induction ns as [|n ns IH]; [done|]. cbn [fmap list_fmap]. rewrite text_chars. by f_equal. Qed.

(** Printing a path and parsing it gives the path back. *)
Lemma parse_as_posix p : path_ok p → parse_path (as_posix p) = p.
Proof.
  destruct p as [a ns]. intros [Ha Hns]. unfold as_posix. cbn [names anchor] in *. destruct ns as [|n ns].
  { by destruct Ha as [->|[->| ->]]. }
  set (l := join_with slash_char (chars <$> n :: ns)).
  assert (split_on slash_char l = chars <$> n :: ns) as Hl by (apply split_join; [done|by apply names_lack]).
  assert (chars n ≠ []) as Hn.
  { inversion Hns as [|? ? (_ & Hne & _)]; subst. intros Heq. apply Hne. by apply chars_inj. }
  pose proof (filter_names _ Hns) as Hf.
  unfold parse_path, path_anchor. rewrite chars_app, chars_text.
  destruct Ha as [->|[->| ->]]; simpl chars; simpl app.
  - rewrite Hl, Hf, text_chars_list. simpl. by destruct (chars n).
  - cbn [split_on]. change (Ascii.eqb "/" slash_char) with true. cbn iota. rewrite Hl.
    rewrite filter_cons_False by done. rewrite Hf, text_chars_list. simpl. by destruct (chars n).
  - cbn [split_on]. change (Ascii.eqb "/" slash_char) with true. cbn iota. rewrite Hl.
    rewrite !filter_cons_False by done. rewrite Hf, text_chars_list. simpl. by destruct (chars n).
Qed.

(** ** Inside a directory

    The file a relative path names below a directory, when no name is a symbolic
    link: [..] goes up, and may leave the directory. *)
Fixpoint walk (below : list string) (ns : list string) : option (list string) :=
  match ns with
  | [] => Some below
  | n :: ns' => if String.eqb n ".." then match below with
                                          | _ :: below' => walk below' ns'
                                          | [] => None
                                          end
                else walk (n :: below) ns'
  end.
Lemma walk_inside below ns : Forall (λ n, n ≠ "..") ns → walk below ns = Some (rev ns ++ below).
Proof.
  intros Hns. revert below. induction Hns as [|n ns Hn Hns IH]; intros below; [done|]. simpl.
  destruct (String.eqb_spec n "..") as [|_]; [done|]. rewrite IH. by rewrite <- app_assoc.
Qed.

Lemma relative_to_some p q r :
  relative_to p q = Some r → names p = names q ++ names r ∧ anchor p = anchor q ∧ anchor r = EmptyString.
Proof.
  unfold relative_to. destruct (bool_decide _) eqn:Ha; [|done]. destruct (bool_decide (take _ _ = _)) eqn:Hn; [|done].
  intros [= <-]. apply bool_decide_eq_true in Ha, Hn. simpl. split_and!; [|done|done].
  rewrite <- Hn at 1. by rewrite take_drop.
Qed.
