(* ===== verification/PyValues.v ===== *)
(** * Python's conversions of JSON values

    What the code does to a value that came out of [json.loads]: its truth, [int],
    [str] and [==].  Floating-point numbers are not among the values of [Json]. *)

From Stdlib Require Import Ascii.
From S2P Require Import Prelude Contracts.

(** ** [int] *)

Definition digit (c : ascii) : option Z :=
  let n := Z.of_nat (nat_of_ascii c) in
  if (48 <=? n) && (n <=? 57) then Some (n - 48) else None.

(** Decimal digits, with single underscores between them. *)
Fixpoint int_digits (acc : Z) (after_digit : bool) (l : list ascii) : option Z :=
  match l with
  | [] => if after_digit then Some acc else None
  | c :: l' =>
      match digit c with
      | Some d => int_digits (10 * acc + d) true l'
      | None => if after_digit && Ascii.eqb c "_" then int_digits acc false l' else None
      end
  end.

Definition int_of_text (s : string) : option Z :=
  match strip_chars (String.list_ascii_of_string s) with
  | c :: l => if Ascii.eqb c "-" then Z.opp <$> int_digits 0 false l
              else if Ascii.eqb c "+" then int_digits 0 false l
              else int_digits 0 false (c :: l)
  | [] => None
  end.

Definition py_int_text (s : string) : result Z :=
  match int_of_text s with
  | Some z => Ok z
  | None => Err (ValueError ("invalid literal for int() with base 10: " +:+ py_repr s))
  end.

Definition py_int (j : Json) : result Z :=
  match j with
  | JInt z => Ok z
  | JBool b => Ok (if b then 1 else 0)
  | JStr s => py_int_text s
  | JNull | JList _ | JObj _ => Err (TypeError "int() argument must be a string or a real number")
  end.

(** ** [bool], [a or b] *)

Definition py_truthy (j : Json) : bool :=
  match j with
  | JNull => false
  | JBool b => b
  | JInt z => negb (z =? 0)
  | JStr s => truthy s
  | JList l => match l with [] => false | _ => true end
  | JObj o => match o with [] => false | _ => true end
  end.
Definition py_or (o : option Json) (default : Json) : Json :=
  match o with Some j => if py_truthy j then j else default | None => default end.

(** ** Dictionaries: a key that is set again keeps its place *)

Fixpoint dict_set {A} (d : list (string * A)) (key : string) (value : A) : list (string * A) :=
  match d with
  | [] => [(key, value)]
  | (k, v) :: d' => if String.eqb k key then (k, value) :: d' else (k, v) :: dict_set d' key value
  end.
(** [{**d, **e}] *)
Definition dict_update {A} (d e : list (string * A)) : list (string * A) := foldl (λ d kv, dict_set d kv.1 kv.2) d e.
Fixpoint dict_get {A} (d : list (string * A)) (key : string) : option A :=
  match d with [] => None | (k, v) :: d' => if String.eqb k key then Some v else dict_get d' key end.

(** ** [repr] and [str] *)

Fixpoint py_repr_json (j : Json) : string :=
  match j with
  | JNull => "None"
  | JBool b => if b then "True" else "False"
  | JInt z => pretty z
  | JStr s => py_repr s
  | JList l => "[" +:+ py_join ", " (map py_repr_json l) +:+ "]"
  | JObj o => "{" +:+ py_join ", " (map (λ kv, py_repr kv.1 +:+ ": " +:+ py_repr_json kv.2) o) +:+ "}"
  end.
Definition py_str (j : Json) : string :=
  match j with JStr s => s | _ => py_repr_json j end.

(** ** [==]: a boolean is the number it counts as, an object is compared key by
    key whatever the order *)

Definition json_number (j : Json) : option Z :=
  match j with JInt z => Some z | JBool b => Some (if b then 1 else 0) | _ => None end.

Fixpoint py_eq (x y : Json) : bool :=
  match x, y with
  | JNull, JNull => true
  | JStr s, JStr t => String.eqb s t
  | JList l, JList m =>
      (fix eq_lists (l m : list Json) : bool :=
         match l, m with
         | [], [] => true
         | a :: l', b :: m' => py_eq a b && eq_lists l' m'
         | _, _ => false
         end) l m
  | JObj o, JObj p =>
      Nat.eqb (length o) (length p)
      && forallb (λ kv, match obj_get p kv.1 with Some v => py_eq kv.2 v | None => false end) o
  | _, _ =>
      match json_number x, json_number y with
      | Some a, Some b => a =? b
      | _, _ => false
      end
  end.

Example py_int_examples :
  map py_int [JStr " -1_000 "; JStr "+7"; JStr "1__0"; JBool true; JNull]
  = [Ok (-1000); Ok 7; Err (ValueError "invalid literal for int() with base 10: '1__0'"); Ok 1;
     Err (TypeError "int() argument must be a string or a real number")].
Proof. vm_compute. reflexivity. Qed.
Example py_str_example :
  py_str (JObj [("a", JList [JNull; JInt (-3)]); ("b", JStr "x")]) = "{'a': [None, -3], 'b': 'x'}".
Proof. vm_compute. reflexivity. Qed.
Example py_eq_examples :
  py_eq (JObj [("a", JInt 1); ("b", JNull)]) (JObj [("b", JNull); ("a", JBool true)]) = true
  ∧ py_eq (JStr "1") (JInt 1) = false ∧ py_eq (JList [JNull]) (JList []) = false.
Proof. by vm_compute. Qed.

(** Distinct keys on every level: what [json.loads] returns. *)
Fixpoint json_wf (j : Json) : Prop :=
  match j with
  | JList l => foldr (λ x acc, json_wf x ∧ acc) True l
  | JObj o => NoDup o.*1 ∧ foldr (λ kv acc, json_wf kv.2 ∧ acc) True o
  | _ => True
  end.

Lemma obj_get_In o k v : NoDup o.*1 → (k, v) ∈ o → obj_get o k = Some v.
Proof.
  induction o as [|[k' v'] o IH]; simpl; intros Hnd Hin; [by apply not_elem_of_nil in Hin|].
  apply NoDup_cons in Hnd as [Hk Hnd]. apply elem_of_cons in Hin as [[= -> ->]|Hin].
  - by rewrite String.eqb_refl.
  - destruct (String.eqb_spec k' k) as [->|]; [|by apply IH].
    exfalso. apply Hk, list_elem_of_fmap. by exists (k, v).
Qed.

(** Induction over the values inside lists and objects. *)
Lemma Json_ind' (P : Json → Prop) :
  P JNull → (∀ b, P (JBool b)) → (∀ z, P (JInt z)) → (∀ s, P (JStr s)) →
  (∀ l, (∀ x, x ∈ l → P x) → P (JList l)) →
  (∀ o, (∀ kv, kv ∈ o → P kv.2) → P (JObj o)) → ∀ j, P j.
Proof.
  intros Hn Hb Hi Hs Hl Ho. fix IH 1. intros [|b|z|s|l|o].
  - exact Hn.
  - apply Hb.
  - apply Hi.
  - apply Hs.
  - apply Hl. induction l as [|y l IHl]; intros x Hx; [destruct (not_elem_of_nil _ Hx)|].
    apply elem_of_cons in Hx as [->|Hx]; [apply (IH y)|exact (IHl _ Hx)].
  - apply Ho. induction o as [|[k y] o IHo]; intros kv Hx; [destruct (not_elem_of_nil _ Hx)|].
    apply elem_of_cons in Hx as [->|Hx]; [apply (IH y)|exact (IHo _ Hx)].
Qed.

Lemma py_eq_refl j : json_wf j → py_eq j j = true.
Proof.
  induction j as [| | | |l IH|o IH] using Json_ind'; simpl; intros Hwf.
  - done.
  - by destruct b.
  - by rewrite Z.eqb_refl.
  - apply String.eqb_refl.
  - induction l as [|x l IHl]; [done|]. destruct Hwf as [Hx Hl].
    rewrite (IH x) by (by left || done). simpl. apply IHl; [|done].
    intros y Hy. apply IH. by right.
  - rewrite Nat.eqb_refl. simpl. destruct Hwf as [Hnd Hwf].
    apply forallb_forall. intros [k v] Hin%list_elem_of_In. simpl.
    rewrite (obj_get_In o k v) by done. apply (IH (k, v)); [done|].
    clear IH Hnd. induction o as [|[k' v'] o IHo]; [by apply not_elem_of_nil in Hin|].
    destruct Hwf as [Hv Hwf]. apply elem_of_cons in Hin as [[= -> ->]|Hin]; [done|by apply IHo].
Qed.

#[global] Arguments py_eq : simpl never.

(** ** [json.dumps]

    ASCII text: quotes and backslashes are escaped, and so is everything outside the
    printable range, by its short escape or its code. *)
Definition json_char (c : ascii) : string :=
  let n := nat_of_ascii c in
  let bs := ascii_of_nat 92 in
  let short d := String bs (String d EmptyString) in
  if Nat.eqb n 34 || Nat.eqb n 92 then short c
  else if Nat.eqb n 10 then short "n"%char
  else if Nat.eqb n 13 then short "r"%char
  else if Nat.eqb n 9 then short "t"%char
  else if Nat.eqb n 8 then short "b"%char
  else if Nat.eqb n 12 then short "f"%char
  else if Nat.ltb n 32 || Nat.ltb 126 n
  then String bs ("u00" +:+ String (hex_digit (Nat.div n 16))
                              (String (hex_digit (Nat.modulo n 16)) EmptyString))
  else String c EmptyString.
Definition json_quote (s : string) : string :=
  let dq := ascii_of_nat 34 in
  String dq (foldr (λ c acc, json_char c +:+ acc) (String dq EmptyString) (String.list_ascii_of_string s)).

Fixpoint json_dumps (j : Json) : string :=
  match j with
  | JNull => "null"
  | JBool b => if b then "true" else "false"
  | JInt z => pretty z
  | JStr s => json_quote s
  | JList l => "[" +:+ py_join ", " (map json_dumps l) +:+ "]"
  | JObj o => "{" +:+ py_join ", " (map (λ kv, json_quote kv.1 +:+ ": " +:+ json_dumps kv.2) o) +:+ "}"
  end.

Example json_dumps_bundle :
  json_dumps (JObj [("a", JList [JStr "x"; JStr newline]); ("b", JInt (-2))])
  = String.concat (String (ascii_of_nat 34) EmptyString)
      ["{"; "a"; ": ["; "x"; ", "; String (ascii_of_nat 92) "n"; "], "; "b"; ": -2}"].
Proof. vm_compute. reflexivity. Qed.

(** [json.dumps(..., sort_keys=True, separators=(",", ":"))] *)
Fixpoint json_sorted (j : Json) : Json :=
  match j with
  | JList l => JList (map json_sorted l)
  | JObj o => JObj (merge_by (λ x y, String.leb x.1 y.1) (map (λ kv, (kv.1, json_sorted kv.2)) o))
  | _ => j
  end.
Fixpoint json_compact (j : Json) : string :=
  match j with
  | JNull => "null"
  | JBool b => if b then "true" else "false"
  | JInt z => pretty z
  | JStr s => json_quote s
  | JList l => "[" +:+ py_join "," (map json_compact l) +:+ "]"
  | JObj o => "{" +:+ py_join "," (map (λ kv, json_quote kv.1 +:+ ":" +:+ json_compact kv.2) o) +:+ "}"
  end.
Definition json_canonical (j : Json) : string := json_compact (json_sorted j).
