(* ===== verification/Bundles.v ===== *)
(** * Directory upload bundles ([src/src/goblin_king/directory_bundles.py])

    A zip archive becomes the payload of a directory submission: size and count
    limits, member paths that stay inside the bundle, the manifest, the entry point's
    source and the requirements.  Unpacking zip archives, parsing JSON and reading the
    typed fields of the manifest are the class [BundleReaders]; the manifest's own
    validators and constraints are here. *)

From Stdlib Require Import Ascii.
From S2P Require Import Prelude Contracts Text Paths PyValues.

Definition DIRECTORY_MANIFEST : string := "goblin-directory.json".
Definition DirectoryBundleError (msg : string) : exn := OtherValueError "DirectoryBundleError" msg.

Record DirectoryBundleLimits := mkBundleLimits {
  max_bundle_bytes : Z; max_source_bytes : Z; max_requirements_bytes : Z; max_files : Z
}.
Definition default_limits : DirectoryBundleLimits :=
  mkBundleLimits (5 * 1024 * 1024) (1024 * 1024) (64 * 1024) 50.

Record DirectoryBundleFile := mkBundleFile { bf_path : string; bf_size : Z; bf_executable : bool }.

Record DirectoryBundleManifest := mkManifest {
  schema_version : Z; bm_name : string; bm_type : RepositoryGoblinType; entrypoint : string;
  bm_display_name : option string; bm_description : option string; bm_tags : list string;
  bm_project_id : option string; bm_image : option string; bm_function_name : string;
  bm_timeout_seconds : option Z; bm_max_retries : Z; bm_app_name : string;
  bm_requirements : list string; requirements_file : option string; bm_port : Z; bm_probe_path : string
}.
Record DirectoryBundlePreview := mkPreview {
  manifest : DirectoryBundleManifest; files : list DirectoryBundleFile; source_preview : string;
  requirements : list string; warnings : list string; submit_payload : list (string * Json)
}.

(** One member: what reading it returns, or raises. *)
Record ZipInfo := mkZipInfo { filename : string; file_size : Z; content : result string }.
Definition is_dir (i : ZipInfo) : bool := text_ends_with "/" (filename i).

Definition JSONDecodeError (msg : string) : exn := OtherValueError "JSONDecodeError" msg.
Definition is_json_decode_error (e : exn) : bool :=
  match e with OtherValueError n _ => String.eqb n "JSONDecodeError" | _ => false end.
Definition BadZipFile (msg : string) : exn := OtherException "BadZipFile" msg.
Definition is_bad_zip (e : exn) : bool :=
  match e with OtherException n _ => String.eqb n "BadZipFile" | _ => false end.

Class BundleReaders := {
  (** [zipfile.ZipFile(BytesIO(data)).infolist()] *)
  infolist : string → result (list ZipInfo);
  json_loads : string → result Json;
  (** the typed fields of a manifest with their defaults, before its constraints *)
  manifest_fields : list (string * Json) → result DirectoryBundleManifest
}.

(** ** Paths *)

Definition backslash : ascii := ascii_of_nat 92.
Definition forward_slashes (l : list ascii) : list ascii :=
  (λ c, if Ascii.eqb c backslash then slash_char else c) <$> l.

Definition validate_safe_bundle_path (value : string) : result string :=
  let normalized := strip (text (forward_slashes (chars value))) in
  if negb (truthy normalized) then Err (ValueError "bundle paths cannot be empty")
  else
    let path := parse_path normalized in
    if is_absolute path then Err (ValueError ("bundle paths must be relative: " +:+ value))
    else if existsb (λ part, bool_decide (part ∈ [EmptyString; "."; ".."])) (parts path)
    then Err (ValueError ("bundle path is not safe: " +:+ value))
    else Ok (as_posix path).

(** ** The manifest *)

(** The [Field] constraints of the manifest. *)
Definition manifest_constraints (m : DirectoryBundleManifest) : bool :=
  (schema_version m =? 1) && truthy (bm_function_name m)
  && match bm_timeout_seconds m with Some t => 0 <? t | None => true end
  && (0 <=? bm_max_retries m) && truthy (bm_app_name m) && (0 <? bm_port m) && truthy (bm_probe_path m).

(** [model_validate]: a ValidationError names the first failing validator here, all of
    them in Pydantic's text. *)
Definition as_validation_error {A} (r : result A) : result A :=
  match r with Err e => Err (ValidationError (exn_str e)) | Ok x => Ok x end.
Definition manifest_validate `{BundleReaders} (payload : list (string * Json)) : result DirectoryBundleManifest :=
  as_validation_error (
    let? m := manifest_fields payload in
    if negb (manifest_constraints m) then Err (ValueError "field constraint")
    else if negb (GOBLIN_KIND_PATTERN (bm_name m))
    then Err (ValueError "name must use lowercase letters, digits, dots, or dashes")
    else
      let? entry := validate_safe_bundle_path (entrypoint m) in
      let? req := (match requirements_file m with
                   | Some f => let? f := validate_safe_bundle_path f in Ok (Some f)
                   | None => Ok None
                   end) in
      let? tags := validate_tags (bm_tags m) in
      Ok (mkManifest (schema_version m) (bm_name m) (bm_type m) entry (bm_display_name m) (bm_description m)
            tags (bm_project_id m) (bm_image m) (bm_function_name m) (bm_timeout_seconds m) (bm_max_retries m)
            (bm_app_name m) (bm_requirements m) req (bm_port m) (bm_probe_path m))).

Definition _read_text_file (info : ZipInfo) (label : string) : result string :=
  let? data := content info in
  match utf8_decode data with
  | Some s => Ok s
  | None => Err (DirectoryBundleError (label +:+ " must be UTF-8 text"))
  end.

Definition _read_manifest `{BundleReaders} (info : ZipInfo) : result DirectoryBundleManifest :=
  match (let? raw := _read_text_file info "manifest" in json_loads raw) with
  | Ok (JObj payload) =>
      match manifest_validate payload with
      | Ok m => Ok m
      | Err (ValidationError msg) => Err (DirectoryBundleError msg)
      | Err e => Err e
      end
  | Ok _ => Err (DirectoryBundleError (DIRECTORY_MANIFEST +:+ " must contain a JSON object"))
  | Err e => Err (if is_json_decode_error e
                  then DirectoryBundleError (DIRECTORY_MANIFEST +:+ " must be valid JSON") else e)
  end.

(** ** Requirements *)

Definition _read_requirements (info : ZipInfo) : result (list string) :=
  let? s := _read_text_file info "requirements_file" in
  Ok (filter (λ r, truthy r && negb (starts_with "#" r) = true) (strip <$> splitlines s)).

Fixpoint dedupe_loop (deduped requirements : list string) : list string :=
  match requirements with
  | [] => deduped
  | r :: requirements' =>
      let cleaned := strip r in
      dedupe_loop (if truthy cleaned && negb (bool_decide (cleaned ∈ deduped))
                   then deduped ++ [cleaned] else deduped) requirements'
  end.
Definition _dedupe_requirements (requirements : list string) : list string := dedupe_loop [] requirements.

(** ** The payload *)

Definition goblin_type_json (t : RepositoryGoblinType) : string :=
  match t with NotebookFunction => "notebook_function" | NotebookService => "notebook_service" end.
Definition file_dump (f : DirectoryBundleFile) : Json :=
  JObj [("path", JStr (bf_path f)); ("size", JInt (bf_size f)); ("executable", JBool (bf_executable f))].

Definition _submit_payload (m : DirectoryBundleManifest) (source : string) (requirements : list string)
    (files : list DirectoryBundleFile) : list (string * Json) :=
  [("name", JStr (bm_name m)); ("type", JStr (goblin_type_json (bm_type m))); ("source", JStr source);
   ("display_name", JOptStr (bm_display_name m)); ("description", JOptStr (bm_description m));
   ("tags", JList (JStr <$> bm_tags m)); ("project_id", JOptStr (bm_project_id m));
   ("image", JOptStr (bm_image m));
   ("metadata", JObj [("bundle_schema_version", JInt (schema_version m));
                      ("bundle_entrypoint", JStr (entrypoint m));
                      ("bundle_files", JList (file_dump <$> files))])]
  ++ match bm_type m with
     | NotebookFunction =>
         [("function_name", JStr (bm_function_name m)); ("timeout_seconds", JOptInt (bm_timeout_seconds m));
          ("max_retries", JInt (bm_max_retries m))]
     | NotebookService =>
         [("app_name", JStr (bm_app_name m)); ("requirements", JList (JStr <$> requirements));
          ("port", JInt (bm_port m)); ("probe_path", JStr (bm_probe_path m))]
     end.

(** ** Parsing *)

Definition member_of (path : string) (paths : list (string * ZipInfo)) : option ZipInfo :=
  snd <$> List.find (λ p, String.eqb p.1 path) paths.

(** [for info in infos]: the members so far, in archive order, and their total size. *)
Fixpoint collect_members (limits : DirectoryBundleLimits) (paths : list (string * ZipInfo)) (total : Z)
    (infos : list ZipInfo) : result (list (string * ZipInfo)) :=
  match infos with
  | [] => Ok paths
  | info :: infos' =>
      let? path := validate_safe_bundle_path (filename info) in
      if bool_decide (path ∈ paths.*1)
      then Err (DirectoryBundleError ("bundle contains duplicate file path: " +:+ path))
      else if max_bundle_bytes limits <? total + file_size info
      then Err (DirectoryBundleError ("bundle uncompressed content exceeds "
                  +:+ pretty (max_bundle_bytes limits) +:+ " bytes"))
      else collect_members limits (paths ++ [(path, info)]) (total + file_size info) infos'
  end.

(** The entry point's text. *)
Definition read_source (limits : DirectoryBundleLimits) (paths : list (string * ZipInfo))
    (m : DirectoryBundleManifest) : result string :=
  match member_of (entrypoint m) paths with
  | None => Err (DirectoryBundleError ("bundle entrypoint is missing: " +:+ entrypoint m))
  | Some info =>
      if max_source_bytes limits <? file_size info
      then Err (DirectoryBundleError ("entrypoint is too large: " +:+ pretty (file_size info)
                  +:+ " exceeds " +:+ pretty (max_source_bytes limits)))
      else _read_text_file info "entrypoint"
  end.

Definition read_requirements (limits : DirectoryBundleLimits) (paths : list (string * ZipInfo))
    (m : DirectoryBundleManifest) : result (list string) :=
  let? extra :=
    (match requirements_file m with
     | Some f =>
         if negb (truthy f) then Ok [] else
         match member_of f paths with
         | None => Err (DirectoryBundleError ("requirements_file is missing: " +:+ f))
         | Some info =>
             if max_requirements_bytes limits <? file_size info
             then Err (DirectoryBundleError ("requirements_file is too large: " +:+ pretty (file_size info)
                         +:+ " exceeds " +:+ pretty (max_requirements_bytes limits)))
             else _read_requirements info
         end
     | None => Ok []
     end) in
  Ok (_dedupe_requirements (bm_requirements m ++ extra)).

Definition by_path (x y : string * ZipInfo) : bool := String.leb x.1 y.1.
Definition bundle_files (m : DirectoryBundleManifest) (paths : list (string * ZipInfo)) : list DirectoryBundleFile :=
  (λ p, mkBundleFile p.1 (file_size p.2) (bool_decide (p.1 = entrypoint m))) <$> merge_by by_path paths.
Definition ignored_files (m : DirectoryBundleManifest) (files : list DirectoryBundleFile) : list string :=
  filter (λ p, ¬ p ∈ [DIRECTORY_MANIFEST; entrypoint m; default EmptyString (requirements_file m)]) (bf_path <$> files).

Definition parse_directory_bundle `{BundleReaders} (data : string) (limits : DirectoryBundleLimits)
    : result DirectoryBundlePreview :=
  let size := Z.of_nat (String.length data) in
  if negb (truthy data) then Err (DirectoryBundleError "bundle is empty")
  else if max_bundle_bytes limits <? size
  then Err (DirectoryBundleError ("bundle is too large: " +:+ pretty size +:+ " bytes exceeds "
              +:+ pretty (max_bundle_bytes limits)))
  else
    match infolist data with
    | Err e => Err (if is_bad_zip e then DirectoryBundleError "bundle must be a valid zip file" else e)
    | Ok members =>
        let infos := filter (λ i, is_dir i = false) members in
        let count := Z.of_nat (length infos) in
        if max_files limits <? count
        then Err (DirectoryBundleError ("bundle has too many files: " +:+ pretty count +:+ " exceeds "
                    +:+ pretty (max_files limits)))
        else
          let? paths := collect_members limits [] 0 infos in
          match member_of DIRECTORY_MANIFEST paths with
          | None => Err (DirectoryBundleError ("bundle must contain " +:+ DIRECTORY_MANIFEST +:+ " at the root"))
          | Some info =>
              let? m := _read_manifest info in
              let? source := read_source limits paths m in
              let? reqs := read_requirements limits paths m in
              let files := bundle_files m paths in
              let warnings := match ignored_files m files with
                | [] => []
                | _ => ["extra files are shown for review but not executed in bundle schema v1"]
                end in
              Ok (mkPreview m files (str_take 2000 source) reqs warnings (_submit_payload m source reqs files))
          end
    end.

(** ** Lemmas: paths and members *)

(** A relative path that names a file below the directory it is unpacked in. *)
Definition bundle_path (p : string) : Prop :=
  ∃ path, p = as_posix path ∧ path_ok path ∧ anchor path = EmptyString ∧ Forall (λ n, n ≠ "..") (names path).


(** Unpacking such a path never leaves the directory. *)
Lemma bundle_path_stays p : bundle_path p → walk [] (names (parse_path p)) = Some (rev (names (parse_path p))).
Proof.
  intros (path & -> & Hok & _ & Hn). rewrite parse_as_posix by done.
  rewrite walk_inside by done. by rewrite app_nil_r.
Qed.



(** ** Lemmas: manifest, requirements, files *)








Lemma bundle_files_paths m paths : bf_path <$> bundle_files m paths = (merge_by by_path paths).*1.
Proof. unfold bundle_files. rewrite <- list_fmap_compose. by apply list_fmap_ext. Qed.

(** ** Properties *)







(** ** Concrete bundles *)

Definition hello_manifest : DirectoryBundleManifest :=
  mkManifest 1 "hello" NotebookFunction "src\main.py" None None [" Math"; "math"] None None "run" None 0 "app"
    ["b"; " a"; "b "] None 8080 "/hello".
Definition plain_readers (members : list ZipInfo) : BundleReaders :=
  {| infolist _ := Ok members; json_loads _ := Ok (JObj []); manifest_fields _ := Ok hello_manifest |}.
Definition member (name body : string) : ZipInfo := mkZipInfo name (Z.of_nat (String.length body)) (Ok body).
Definition hello_members : list ZipInfo :=
  [member "src/" EmptyString; member "src/./main.py" "def run(): pass"; member DIRECTORY_MANIFEST "{}";
   member "README.md" "hi"].
Definition parse_plain (members : list ZipInfo) : result DirectoryBundlePreview :=
  @parse_directory_bundle (plain_readers members) "zip" default_limits.

Example hello_bundle :
  match parse_plain hello_members with
  | Ok p => (bf_path <$> files p) = ["README.md"; DIRECTORY_MANIFEST; "src/main.py"]
      ∧ requirements p = ["b"; "a"] ∧ bm_tags (manifest p) = ["math"] ∧ length (warnings p) = 1%nat
  | Err _ => False
  end.
Proof. vm_compute. done. Qed.
Example escaping_members :
  (λ name, match parse_plain (hello_members ++ [member name "x"]) with Ok _ => None | Err e => Some (exn_name e) end)
    <$> ["../x"; "/etc/x"; "a\..\x"; "src/main.py"; "ok/x"]
  = [Some "ValueError"; Some "ValueError"; Some "ValueError"; Some "DirectoryBundleError"; None].
Proof. vm_compute. reflexivity. Qed.
(** A member whose checksum is wrong raises past the handlers' [except] clause. *)
Example damaged_member :
  parse_plain [member DIRECTORY_MANIFEST "{}"; mkZipInfo "src/main.py" 3 (Err (BadZipFile "Bad CRC-32"))]
  = Err (BadZipFile "Bad CRC-32") ∧ is_value_error (BadZipFile "Bad CRC-32") = false.
Proof. split; vm_compute; reflexivity. Qed.
