(* ===== verification/ResourcePolicies.v ===== *)
(** * Resource policies ([src/src/goblin_king/resource_policies.py])

    The policy models, the resolution of a kind's effective policy from the
    defaults, the kind's override and the caller's limits, the ceilings it is
    checked against, and the policy persisted in a job's metadata.

    Reading JSON into a model is Pydantic's work.  [Pydantic] is what the code
    relies on: a value whose fields all have the declared type and range is
    accepted as it stands ([read_policy] is that reading), what is accepted is in
    range, and a refusal is a [ValidationError].  [Floats] stands for the binary64
    arithmetic of the CPU quantities. *)

From Stdlib Require Import Ascii.
From S2P Require Import Prelude.

(** ** The models *)

Record CpuPolicy := mkCpuPolicy { cpu_request : option string; cpu_limit : option string }.
Record MemoryPolicy := mkMemoryPolicy {
  memory_request : option string; memory_limit : option string }.
Record ProcessPolicy := mkProcessPolicy { pids_limit : option Z }.
Record NetworkPolicy := mkNetworkPolicy { network_mode : option string }.
Record FilesystemPolicy := mkFilesystemPolicy {
  read_only_root : option bool;
  tmpfs : list string;
  artifact_max_bytes : option Z;
  artifact_max_files : option Z
}.
Record LogsPolicy := mkLogsPolicy { logs_max_bytes : option Z }.
Record ConcurrencyPolicy := mkConcurrencyPolicy {
  max_running : option Z; max_project_running : option Z }.
Record ResourcePolicy := mkResourcePolicy {
  timeout_seconds : option Z;
  max_retries : option Z;
  cpu : CpuPolicy;
  memory : MemoryPolicy;
  process : ProcessPolicy;
  network : NetworkPolicy;
  filesystem : FilesystemPolicy;
  logs : LogsPolicy;
  concurrency : ConcurrencyPolicy
}.

(** [ResourcePolicy()]: every field at its default. *)
Definition default_policy : ResourcePolicy :=
  mkResourcePolicy None None (mkCpuPolicy None None) (mkMemoryPolicy None None)
    (mkProcessPolicy None) (mkNetworkPolicy None) (mkFilesystemPolicy None [] None None)
    (mkLogsPolicy None) (mkConcurrencyPolicy None None).

Record ResourcePolicySet := mkResourcePolicySet {
  version : Z;
  defaults : ResourcePolicy;
  goblins : gmap string ResourcePolicy;
  ceilings : ResourcePolicy
}.

(** The [gt=0] and [ge=0] constraints of the fields. *)
Definition opt_all {A} (p : A → bool) (o : option A) : bool :=
  match o with Some a => p a | None => true end.
Definition gt0 : option Z → bool := opt_all (λ z, 0 <? z).
Definition ge0 : option Z → bool := opt_all (λ z, 0 <=? z).
Definition policy_in_range (p : ResourcePolicy) : bool :=
  gt0 (timeout_seconds p) && ge0 (max_retries p) && gt0 (pids_limit (process p))
  && ge0 (artifact_max_bytes (filesystem p)) && ge0 (artifact_max_files (filesystem p))
  && ge0 (logs_max_bytes (logs p)) && gt0 (max_running (concurrency p))
  && gt0 (max_project_running (concurrency p)).

(** ** Dumping: [model_dump(mode=json, exclude_none=True)] *)

Definition obj := list (string * Json).

Definition field {A} (name : string) (mk : A → Json) (o : option A) : obj :=
  match o with Some a => [(name, mk a)] | None => [] end.
(** [exclude_defaults=True] also leaves out the fields at their default: here
    the empty sections and the empty [tmpfs]. *)
Definition section (compact : bool) (name : string) (fields : obj) : obj :=
  match compact, fields with
  | true, [] => []
  | _, _ => [(name, JObj fields)]
  end.
Definition list_field (compact : bool) (name : string) (l : list string) : obj :=
  match compact, l with
  | true, [] => []
  | _, _ => [(name, JList (JStr <$> l))]
  end.

Definition cpu_fields (p : CpuPolicy) : obj :=
  field "request" JStr (cpu_request p) ++ field "limit" JStr (cpu_limit p).
Definition memory_fields (p : MemoryPolicy) : obj :=
  field "request" JStr (memory_request p) ++ field "limit" JStr (memory_limit p).
Definition process_fields (p : ProcessPolicy) : obj :=
  field "pids_limit" JInt (pids_limit p).
Definition network_fields (p : NetworkPolicy) : obj := field "mode" JStr (network_mode p).
Definition filesystem_fields (exclude_defaults : bool) (p : FilesystemPolicy) : obj :=
  field "read_only_root" JBool (read_only_root p)
  ++ list_field exclude_defaults "tmpfs" (tmpfs p)
  ++ field "artifact_max_bytes" JInt (artifact_max_bytes p)
  ++ field "artifact_max_files" JInt (artifact_max_files p).
Definition logs_fields (p : LogsPolicy) : obj := field "max_bytes" JInt (logs_max_bytes p).
Definition concurrency_fields (p : ConcurrencyPolicy) : obj :=
  field "max_running" JInt (max_running p)
  ++ field "max_project_running" JInt (max_project_running p).

Definition model_dump (exclude_defaults : bool) (p : ResourcePolicy) : obj :=
  field "timeout_seconds" JInt (timeout_seconds p)
  ++ field "max_retries" JInt (max_retries p)
  ++ section exclude_defaults "cpu" (cpu_fields (cpu p))
  ++ section exclude_defaults "memory" (memory_fields (memory p))
  ++ section exclude_defaults "process" (process_fields (process p))
  ++ section exclude_defaults "network" (network_fields (network p))
  ++ section exclude_defaults "filesystem"
       (filesystem_fields exclude_defaults (filesystem p))
  ++ section exclude_defaults "logs" (logs_fields (logs p))
  ++ section exclude_defaults "concurrency" (concurrency_fields (concurrency p)).

(** [ResourcePolicy.compact] *)
Definition compact (p : ResourcePolicy) : obj := model_dump true p.

(** ** Reading: the value each declared field takes from an object *)

Definition read_opt {A} (dec : Json → option A) (o : obj) (name : string) : option (option A) :=
  match obj_get o name with
  | None | Some JNull => Some None
  | Some j => Some <$> dec j
  end.
Definition as_int (j : Json) : option Z := match j with JInt z => Some z | _ => None end.
Definition as_str (j : Json) : option string := match j with JStr s => Some s | _ => None end.
Definition as_bool (j : Json) : option bool := match j with JBool b => Some b | _ => None end.
Definition as_strs (j : Json) : option (list string) :=
  match j with JList l => mapM as_str l | _ => None end.
(** A field whose default is a value: absent means the default. *)
Definition read_default {A} (dec : Json → option A) (d : A) (o : obj) (name : string) : option A :=
  match obj_get o name with None => Some d | Some j => dec j end.
(** [extra=forbid] *)
Definition only_keys (names : list string) (o : obj) : bool :=
  forallb (λ kv, existsb (String.eqb kv.1) names) o.
Definition read_obj {A} (names : list string) (dec : obj → option A) (j : Json) : option A :=
  match j with JObj o => if only_keys names o then dec o else None | _ => None end.

Definition read_cpu : Json → option CpuPolicy :=
  read_obj ["request"; "limit"] (λ o,
    request ← read_opt as_str o "request"; limit ← read_opt as_str o "limit";
    Some (mkCpuPolicy request limit)).
Definition read_memory : Json → option MemoryPolicy :=
  read_obj ["request"; "limit"] (λ o,
    request ← read_opt as_str o "request"; limit ← read_opt as_str o "limit";
    Some (mkMemoryPolicy request limit)).
Definition read_process : Json → option ProcessPolicy :=
  read_obj ["pids_limit"] (λ o,
    pids ← read_opt as_int o "pids_limit"; Some (mkProcessPolicy pids)).
Definition read_network : Json → option NetworkPolicy :=
  read_obj ["mode"] (λ o, mode ← read_opt as_str o "mode"; Some (mkNetworkPolicy mode)).
Definition read_filesystem : Json → option FilesystemPolicy :=
  read_obj ["read_only_root"; "tmpfs"; "artifact_max_bytes"; "artifact_max_files"] (λ o,
    ro ← read_opt as_bool o "read_only_root"; t ← read_default as_strs [] o "tmpfs";
    b ← read_opt as_int o "artifact_max_bytes"; f ← read_opt as_int o "artifact_max_files";
    Some (mkFilesystemPolicy ro t b f)).
Definition read_logs : Json → option LogsPolicy :=
  read_obj ["max_bytes"] (λ o, b ← read_opt as_int o "max_bytes"; Some (mkLogsPolicy b)).
Definition read_concurrency : Json → option ConcurrencyPolicy :=
  read_obj ["max_running"; "max_project_running"] (λ o,
    r ← read_opt as_int o "max_running"; p ← read_opt as_int o "max_project_running";
    Some (mkConcurrencyPolicy r p)).

Definition policy_fields : list string :=
  ["timeout_seconds"; "max_retries"; "cpu"; "memory"; "process"; "network";
   "filesystem"; "logs"; "concurrency"].
Definition read_policy : Json → option ResourcePolicy :=
  read_obj policy_fields (λ o,
    t ← read_opt as_int o "timeout_seconds"; r ← read_opt as_int o "max_retries";
    c ← read_default read_cpu (cpu default_policy) o "cpu";
    m ← read_default read_memory (memory default_policy) o "memory";
    p ← read_default read_process (process default_policy) o "process";
    n ← read_default read_network (network default_policy) o "network";
    f ← read_default read_filesystem (filesystem default_policy) o "filesystem";
    l ← read_default read_logs (logs default_policy) o "logs";
    k ← read_default read_concurrency (concurrency default_policy) o "concurrency";
    Some (mkResourcePolicy t r c m p n f l k)).

Class Pydantic := {
  model_validate : Json → result ResourcePolicy;
  model_validate_reads : ∀ j p,
    read_policy j = Some p → policy_in_range p = true → model_validate j = Ok p;
  model_validate_in_range : ∀ j p, model_validate j = Ok p → policy_in_range p = true;
  model_validate_error : ∀ j e, model_validate j = Err e → ∃ msg, e = ValidationError msg
}.

(** The strictest validator of the class: what the runs on concrete inputs use. *)
Definition strict_validate (j : Json) : result ResourcePolicy :=
  match read_policy j with
  | Some p => if policy_in_range p then Ok p else Err (ValidationError "out of range")
  | None => Err (ValidationError "invalid resource policy")
  end.
Definition strict_pydantic : Pydantic.
Proof.
  refine {| model_validate := strict_validate |}; unfold strict_validate.
  - by intros j p -> ->.
  - intros j p. destruct (read_policy j) as [q|]; [|done].
    destruct (policy_in_range q) eqn:E; [|done]. by intros [= <-].
  - intros j e. destruct (read_policy j) as [q|]; [destruct (policy_in_range q)|];
      [done| |]; intros [= <-]; eauto.
Defined.

(** ** Quantities *)

Class Floats := {
  float : Type;
  float_of_string : string → option float;     (* float(s), None when it raises *)
  float_div_1000 : float → float;
  float_gt : float → float → bool;
  float_str : float → string
}.

Definition ends_with (c : ascii) (s : string) : bool :=
  match rev (String.list_ascii_of_string s) with x :: _ => Ascii.eqb x c | [] => false end.
Definition drop_last (s : string) : string :=
  String.string_of_list_ascii (rev (tail (rev (String.list_ascii_of_string s)))).

Definition py_float `{Floats} (s : string) : result float :=
  match float_of_string s with
  | Some f => Ok f
  | None => Err (ValueError ("could not convert string to float: " +:+ py_repr s))
  end.

Definition _parse_cpu `{Floats} (value : option string) : result (option float) :=
  match value with
  | None => Ok None
  | Some v =>
      if ends_with "m"%char v
      then let? f := py_float (drop_last v) in Ok (Some (float_div_1000 f))
      else let? f := py_float v in Ok (Some f)
  end.

(** [_BYTES_RE] and [_BYTE_MULTIPLIERS]. *)
Definition is_digit (c : ascii) : bool :=
  let n := nat_of_ascii c in Nat.leb 48 n && Nat.leb n 57.
Fixpoint span_digits (l : list ascii) : list ascii * list ascii :=
  match l with
  | c :: l' => if is_digit c then let '(d, r) := span_digits l' in (c :: d, r) else ([], l)
  | [] => ([], [])
  end.
Definition digits_value (l : list ascii) : Z :=
  foldl (λ acc c, 10 * acc + (Z.of_nat (nat_of_ascii c) - 48)) 0 l.
Definition byte_multiplier (unit : string) : option Z :=
  if decide (unit = EmptyString) then Some 1
  else if decide (unit = "K") then Some 1000
  else if decide (unit = "M") then Some (1000 ^ 2)
  else if decide (unit = "G") then Some (1000 ^ 3)
  else if decide (unit = "T") then Some (1000 ^ 4)
  else if decide (unit = "Ki") then Some 1024
  else if decide (unit = "Mi") then Some (1024 ^ 2)
  else if decide (unit = "Gi") then Some (1024 ^ 3)
  else if decide (unit = "Ti") then Some (1024 ^ 4)
  else None.
(** The text after the digits, less one newline at its very end. *)
Definition drop_final_newline (l : list ascii) : list ascii :=
  match rev l with
  | c :: r => if Nat.eqb (nat_of_ascii c) 10 then rev r else l
  | [] => l
  end.
Definition bytes_of_string (v : string) : option Z :=
  let '(digits, rest) := span_digits (String.list_ascii_of_string v) in
  match digits with
  | [] => None
  | _ => (λ m, digits_value digits * m)
           <$> byte_multiplier (String.string_of_list_ascii (drop_final_newline rest))
  end.
Definition _parse_bytes (value : option string) : result (option Z) :=
  match value with
  | None => Ok None
  | Some v => match bytes_of_string v with
              | Some n => Ok (Some n)
              | None => Err (ResourcePolicyError ("invalid byte quantity: " +:+ v))
              end
  end.

(** ** Merging *)

(** [d[key] = value]: an existing key keeps its place. *)
Fixpoint obj_set (o : obj) (key : string) (value : Json) : obj :=
  match o with
  | [] => [(key, value)]
  | (k, v) :: o' => if String.eqb k key then (k, value) :: o' else (k, v) :: obj_set o' key value
  end.

(** [_deep_merge], the override walked with the merged dictionary threaded. *)
Fixpoint deep_merge_into (merged : obj) (override : Json) {struct override} : obj :=
  match override with
  | JObj o =>
      (fix go (merged : obj) (o : obj) {struct o} : obj :=
         match o with
         | [] => merged
         | (k, v) :: o' =>
             go (obj_set merged k
                   (match v, obj_get merged k with
                    | JObj _, Some (JObj b) => JObj (deep_merge_into b v)
                    | _, _ => v
                    end)) o'
         end) merged o
  | _ => merged
  end.
Definition _deep_merge (base override : obj) : obj := deep_merge_into base (JObj override).

(** ** Ceilings *)

Definition opt_gt {A} (gt : A → A → bool) (v m : option A) : bool :=
  match v, m with Some v, Some m => gt v m | _, _ => false end.

Definition exceeds_message {A} (str : A → string) (kind field : string) (v m : option A) : string :=
  match v, m with
  | Some v, Some m => kind +:+ " resource policy exceeds ceiling for " +:+ field +:+ ": "
                      +:+ str v +:+ " > " +:+ str m
  | _, _ => EmptyString
  end.

Definition check {A} (gt : A → A → bool) (str : A → string) (kind field : string)
    (v m : option A) : result unit :=
  if opt_gt gt v m then Err (ResourcePolicyError (exceeds_message str kind field v m)) else Ok tt.
Definition check_z (kind field : string) (v m : option Z) : result unit :=
  check (λ a b, b <? a) pretty kind field v m.

Definition validate_within_ceilings `{Floats} (s : ResourcePolicySet) (kind : string)
    (p : ResourcePolicy) : result unit :=
  let ceiling := ceilings s in
  (* the quantities are parsed while the table of checks is built *)
  let? cpu_v := _parse_cpu (cpu_limit (cpu p)) in
  let? cpu_m := _parse_cpu (cpu_limit (cpu ceiling)) in
  let? mem_v := _parse_bytes (memory_limit (memory p)) in
  let? mem_m := _parse_bytes (memory_limit (memory ceiling)) in
  let? _ := check_z kind "timeout_seconds" (timeout_seconds p) (timeout_seconds ceiling) in
  let? _ := check_z kind "max_retries" (max_retries p) (max_retries ceiling) in
  let? _ := check float_gt float_str kind "cpu.limit" cpu_v cpu_m in
  let? _ := check_z kind "memory.limit" mem_v mem_m in
  let? _ := check_z kind "process.pids_limit" (pids_limit (process p))
              (pids_limit (process ceiling)) in
  let? _ := check_z kind "filesystem.artifact_max_bytes" (artifact_max_bytes (filesystem p))
              (artifact_max_bytes (filesystem ceiling)) in
  let? _ := check_z kind "filesystem.artifact_max_files" (artifact_max_files (filesystem p))
              (artifact_max_files (filesystem ceiling)) in
  let? _ := check_z kind "logs.max_bytes" (logs_max_bytes (logs p))
              (logs_max_bytes (logs ceiling)) in
  let? _ := check_z kind "concurrency.max_running" (max_running (concurrency p))
              (max_running (concurrency ceiling)) in
  check_z kind "concurrency.max_project_running" (max_project_running (concurrency p))
    (max_project_running (concurrency ceiling)).

(** ** Resolution *)

Definition merged_dump (s : ResourcePolicySet) (kind : string)
    (timeout retries : option Z) : obj :=
  let merged := _deep_merge (model_dump false (defaults s))
                  (model_dump true (default default_policy (goblins s !! kind))) in
  let merged := match timeout with
                | Some t => obj_set merged "timeout_seconds" (JInt t) | None => merged end in
  match retries with
  | Some r => obj_set merged "max_retries" (JInt r) | None => merged end.

Definition effective_for `{Pydantic} `{Floats} (s : ResourcePolicySet) (kind : string)
    (timeout retries : option Z) : result ResourcePolicy :=
  let? policy := model_validate (JObj (merged_dump s kind timeout retries)) in
  let? _ := validate_within_ceilings s kind policy in
  Ok policy.

Definition policy_from_job_metadata `{Pydantic} (metadata : dict)
    : result (option ResourcePolicy) :=
  match metadata !! "resource_policy" with
  | None | Some JNull => Ok None
  | Some payload =>
      match model_validate payload with
      | Ok p => Ok (Some p)
      | Err e => if is_value_error e
                 then Err (ResourcePolicyError ("invalid persisted resource policy: " +:+ exn_str e))
                 else Err e
      end
  end.

(** ** Lemmas: objects *)

Lemma eqb_sym_refl (k : string) : String.eqb k k = true.
Proof. apply String.eqb_refl. Qed.

Lemma obj_get_app o1 o2 k :
  obj_get (o1 ++ o2) k = match obj_get o1 k with Some v => Some v | None => obj_get o2 k end.
Proof. induction o1 as [|[k' v] o1 IH]; simpl; [done|]. by destruct (String.eqb k' k). Qed.

Lemma obj_get_set o k v k' :
  obj_get (obj_set o k v) k' = if String.eqb k k' then Some v else obj_get o k'.
Proof.
  induction o as [|[k1 v1] o IH]; simpl; [done|].
  destruct (String.eqb_spec k1 k) as [->|Hne]; simpl.
  - by destruct (String.eqb k k').
  - rewrite IH. destruct (String.eqb_spec k1 k') as [->|]; [|done].
    destruct (String.eqb_spec k k'); congruence.
Qed.

Lemma obj_get_field {A} n (mk : A → Json) o k :
  obj_get (field n mk o) k = if String.eqb n k then mk <$> o else None.
Proof. destruct o; simpl; by destruct (String.eqb n k). Qed.

Lemma obj_get_section c n fs k :
  obj_get (section c n fs) k =
    if String.eqb n k then (if c && bool_decide (fs = []) then None else Some (JObj fs)) else None.
Proof. destruct c, fs; simpl; by destruct (String.eqb n k). Qed.

Lemma obj_get_list_field c n l k :
  obj_get (list_field c n l) k =
    if String.eqb n k then (if c && bool_decide (l = []) then None
                            else Some (JList (JStr <$> l))) else None.
Proof. destruct c, l; simpl; by destruct (String.eqb n k). Qed.

Definition merge_value (v : Json) (old : option Json) : Json :=
  match v, old with
  | JObj _, Some (JObj b) => JObj (deep_merge_into b v)
  | _, _ => v
  end.

Lemma deep_merge_cons m k v o :
  _deep_merge m ((k, v) :: o) = _deep_merge (obj_set m k (merge_value v (obj_get m k))) o.
Proof. reflexivity. Qed.

Lemma obj_get_None o k : k ∉ o.*1 → obj_get o k = None.
Proof.
  induction o as [|[k' v] o IH]; simpl; [done|]. intros [Hne Hin]%not_elem_of_cons.
  destruct (String.eqb_spec k' k); [congruence|auto].
Qed.

(** What a merged dictionary holds under each key. *)
Lemma obj_get_deep_merge m o k :
  NoDup (o.*1) →
  obj_get (_deep_merge m o) k =
    match obj_get o k with Some v => Some (merge_value v (obj_get m k)) | None => obj_get m k end.
Proof.
  revert m. induction o as [|[k' v] o IH]; intros m Hnd; [done|].
  simpl in Hnd. apply NoDup_cons in Hnd as [Hk' Hnd].
  rewrite deep_merge_cons, IH by done. rewrite obj_get_set. simpl.
  destruct (String.eqb_spec k' k) as [->|]; [|done]. by rewrite obj_get_None.
Qed.

Lemma only_keys_app ns o1 o2 : only_keys ns (o1 ++ o2) = only_keys ns o1 && only_keys ns o2.
Proof. apply forallb_app. Qed.

Lemma only_keys_set ns o k v :
  existsb (String.eqb k) ns = true → only_keys ns o = true → only_keys ns (obj_set o k v) = true.
Proof.
  intros Hk. induction o as [|[k' v'] o IH]; simpl; [by rewrite Hk|].
  intros [H1 H2]%andb_true_iff. destruct (String.eqb k' k); simpl; rewrite H1; simpl; auto.
Qed.

Lemma only_keys_deep_merge ns m o :
  only_keys ns m = true → only_keys ns o = true → only_keys ns (_deep_merge m o) = true.
Proof.
  revert m. induction o as [|[k v] o IH]; intros m Hm; [done|]. simpl.
  intros [H1 H2]%andb_true_iff. rewrite deep_merge_cons. apply IH; [|done].
  by apply only_keys_set.
Qed.

Lemma keys_field {A} n (mk : A → Json) o : (field n mk o).*1 `sublist_of` [n].
Proof. destruct o; simpl; [done|]. repeat constructor. Qed.
Lemma keys_section c n fs : (section c n fs).*1 `sublist_of` [n].
Proof. destruct c, fs; simpl; repeat constructor. Qed.
Lemma keys_list_field c n l : (list_field c n l).*1 `sublist_of` [n].
Proof. destruct c, l; simpl; repeat constructor. Qed.

Lemma only_keys_field {A} ns n (mk : A → Json) o :
  existsb (String.eqb n) ns = true → only_keys ns (field n mk o) = true.
Proof. intros H. destruct o; simpl; by rewrite ?H. Qed.
Lemma only_keys_section ns c n fs :
  existsb (String.eqb n) ns = true → only_keys ns (section c n fs) = true.
Proof. intros H. destruct c, fs; simpl; by rewrite ?H. Qed.
Lemma only_keys_list_field ns c n l :
  existsb (String.eqb n) ns = true → only_keys ns (list_field c n l) = true.
Proof. intros H. destruct c, l; simpl; by rewrite ?H. Qed.

(** Solve the side conditions about the declared field names. *)
Ltac solve_keys :=
  rewrite ?only_keys_app, ?only_keys_field, ?only_keys_section, ?only_keys_list_field
    by reflexivity; reflexivity.
Ltac solve_nodup names :=
  apply (sublist_NoDup _ names);
  [ apply (bool_decide_eq_true_1 (NoDup names)); vm_compute; reflexivity
  | rewrite ?fmap_app;
    repeat first [ apply keys_field | apply keys_section | apply keys_list_field
                 | apply (sublist_app _ [_]) ] ].
(** The value a literal key has in a dump. *)
Ltac get_key :=
  rewrite ?obj_get_app, ?obj_get_field, ?obj_get_section, ?obj_get_list_field; cbn [String.eqb Ascii.eqb Bool.eqb].
Lemma option_eta {A} (o : option A) : match o with Some v => Some v | None => None end = o.
Proof. by destruct o. Qed.
Ltac get_field := get_key; rewrite ?option_eta; reflexivity.

Lemma model_dump_NoDup c p : NoDup ((model_dump c p).*1).
Proof. unfold model_dump. solve_nodup policy_fields. Qed.
Lemma model_dump_keys c p : only_keys policy_fields (model_dump c p) = true.
Proof. unfold model_dump. solve_keys. Qed.

(** ** Lemmas: reading a merged policy *)

(** The override's value where it has one, else the default's. *)
Definition or_else {A} (o d : option A) : option A := match o with Some _ => o | None => d end.
Definition list_or_else {A} (o d : list A) : list A := match o with [] => d | _ => o end.

Definition merge_filesystem (d o : FilesystemPolicy) : FilesystemPolicy :=
  mkFilesystemPolicy (or_else (read_only_root o) (read_only_root d))
    (list_or_else (tmpfs o) (tmpfs d))
    (or_else (artifact_max_bytes o) (artifact_max_bytes d))
    (or_else (artifact_max_files o) (artifact_max_files d)).

(** The field-wise reference definition of an override on top of defaults. *)
Definition merge_policy (d o : ResourcePolicy) : ResourcePolicy :=
  mkResourcePolicy
    (or_else (timeout_seconds o) (timeout_seconds d))
    (or_else (max_retries o) (max_retries d))
    (mkCpuPolicy (or_else (cpu_request (cpu o)) (cpu_request (cpu d)))
       (or_else (cpu_limit (cpu o)) (cpu_limit (cpu d))))
    (mkMemoryPolicy (or_else (memory_request (memory o)) (memory_request (memory d)))
       (or_else (memory_limit (memory o)) (memory_limit (memory d))))
    (mkProcessPolicy (or_else (pids_limit (process o)) (pids_limit (process d))))
    (mkNetworkPolicy (or_else (network_mode (network o)) (network_mode (network d))))
    (merge_filesystem (filesystem d) (filesystem o))
    (mkLogsPolicy (or_else (logs_max_bytes (logs o)) (logs_max_bytes (logs d))))
    (mkConcurrencyPolicy
       (or_else (max_running (concurrency o)) (max_running (concurrency d)))
       (or_else (max_project_running (concurrency o)) (max_project_running (concurrency d)))).

Definition with_limits (timeout retries : option Z) (p : ResourcePolicy) : ResourcePolicy :=
  mkResourcePolicy (or_else timeout (timeout_seconds p)) (or_else retries (max_retries p))
    (cpu p) (memory p) (process p) (network p) (filesystem p) (logs p) (concurrency p).

(** A scalar field of a merged object. *)
Lemma read_opt_merged {A} (mk : A → Json) (dec : Json → option A) m o n (x y : option A) :
  (∀ a old, merge_value (mk a) old = mk a) →
  (∀ a, match mk a with JNull => None | j => dec j end = Some a) →
  NoDup (o.*1) → obj_get o n = mk <$> x → obj_get m n = mk <$> y →
  read_opt dec (_deep_merge m o) n = Some (or_else x y).
Proof.
  intros Hmv Hdec Hnd Ho Hm. unfold read_opt. rewrite obj_get_deep_merge by done.
  rewrite Ho, Hm. destruct x as [x|]; simpl; [|destruct y as [y|]; simpl; [|done]].
  - rewrite Hmv. specialize (Hdec x). by destruct (mk x); rewrite ?Hdec.
  - specialize (Hdec y). by destruct (mk y); rewrite ?Hdec.
Qed.

Lemma as_strs_dump l : as_strs (JList (JStr <$> l)) = Some l.
Proof. by apply mapM_fmap_Some. Qed.

(** A section of a merged policy is the merge of the sections. *)
Lemma obj_get_merged_section m o n c bf ovf :
  NoDup (o.*1) →
  obj_get m n = Some (JObj bf) →
  obj_get o n = (if c && bool_decide (ovf = []) then None else Some (JObj ovf)) →
  obj_get (_deep_merge m o) n = Some (JObj (_deep_merge bf ovf)).
Proof.
  intros Hnd Hm Ho. rewrite obj_get_deep_merge, Hm, Ho by done.
  destruct (c && bool_decide (ovf = [])) eqn:E; [|done].
  apply andb_true_iff in E as [_ ->%bool_decide_eq_true]. done.
Qed.

(** Read a merged section: its keys are declared ones, then field by field. *)
Ltac unfold_fields :=
  unfold cpu_fields, memory_fields, process_fields, network_fields, filesystem_fields,
    logs_fields, concurrency_fields.
Ltac read_merged names :=
  unfold_fields; unfold read_obj; rewrite only_keys_deep_merge by solve_keys;
  repeat (first [ erewrite (read_opt_merged JStr) | erewrite (read_opt_merged JInt)
                | erewrite (read_opt_merged JBool) ];
          [ cbn [mbind option_bind] | done | done | solve_nodup names | get_field | get_field ]).

Lemma read_cpu_merged d o :
  read_cpu (JObj (_deep_merge (cpu_fields d) (cpu_fields o)))
  = Some (mkCpuPolicy (or_else (cpu_request o) (cpu_request d))
            (or_else (cpu_limit o) (cpu_limit d))).
Proof. unfold read_cpu. read_merged ["request"; "limit"]. reflexivity. Qed.

Lemma read_memory_merged d o :
  read_memory (JObj (_deep_merge (memory_fields d) (memory_fields o)))
  = Some (mkMemoryPolicy (or_else (memory_request o) (memory_request d))
            (or_else (memory_limit o) (memory_limit d))).
Proof. unfold read_memory. read_merged ["request"; "limit"]. reflexivity. Qed.

Lemma read_process_merged d o :
  read_process (JObj (_deep_merge (process_fields d) (process_fields o)))
  = Some (mkProcessPolicy (or_else (pids_limit o) (pids_limit d))).
Proof. unfold read_process. read_merged ["pids_limit"]. reflexivity. Qed.

Lemma read_network_merged d o :
  read_network (JObj (_deep_merge (network_fields d) (network_fields o)))
  = Some (mkNetworkPolicy (or_else (network_mode o) (network_mode d))).
Proof. unfold read_network. read_merged ["mode"]. reflexivity. Qed.

Lemma read_logs_merged d o :
  read_logs (JObj (_deep_merge (logs_fields d) (logs_fields o)))
  = Some (mkLogsPolicy (or_else (logs_max_bytes o) (logs_max_bytes d))).
Proof. unfold read_logs. read_merged ["max_bytes"]. reflexivity. Qed.

Lemma read_concurrency_merged d o :
  read_concurrency (JObj (_deep_merge (concurrency_fields d) (concurrency_fields o)))
  = Some (mkConcurrencyPolicy (or_else (max_running o) (max_running d))
            (or_else (max_project_running o) (max_project_running d))).
Proof. unfold read_concurrency. read_merged ["max_running"; "max_project_running"]. reflexivity. Qed.

Definition filesystem_names : list string :=
  ["read_only_root"; "tmpfs"; "artifact_max_bytes"; "artifact_max_files"].

Lemma read_tmpfs_merged d o :
  read_default as_strs []
    (_deep_merge (filesystem_fields false d) (filesystem_fields true o)) "tmpfs"
  = Some (list_or_else (tmpfs o) (tmpfs d)).
Proof.
  unfold read_default. rewrite obj_get_deep_merge
    by (unfold_fields; solve_nodup filesystem_names).
  assert (∀ c p, obj_get (filesystem_fields c p) "tmpfs"
            = if c && bool_decide (tmpfs p = []) then None
              else Some (JList (JStr <$> tmpfs p))) as Hget
    by (intros; unfold_fields; get_field).
  rewrite !Hget. simpl. destruct (tmpfs o) as [|x l]; [apply as_strs_dump|].
  rewrite bool_decide_eq_false_2 by done. apply (as_strs_dump (x :: l)).
Qed.

Lemma read_filesystem_merged d o :
  read_filesystem (JObj (_deep_merge (filesystem_fields false d) (filesystem_fields true o)))
  = Some (merge_filesystem d o).
Proof.
  pose proof (read_tmpfs_merged d o) as Ht. unfold read_filesystem. revert Ht.
  read_merged filesystem_names. intros ->. reflexivity.
Qed.

(** A section read through its decoder. *)
Lemma read_default_section {A} (dec : Json → option A) (d v : A) m o n c bf ovf :
  NoDup (o.*1) →
  obj_get m n = Some (JObj bf) →
  obj_get o n = (if c && bool_decide (ovf = []) then None else Some (JObj ovf)) →
  dec (JObj (_deep_merge bf ovf)) = Some v →
  read_default dec d (_deep_merge m o) n = Some v.
Proof.
  intros Hnd Hm Ho Hdec. unfold read_default.
  by erewrite obj_get_merged_section by eauto.
Qed.

Ltac read_section dec lem :=
  erewrite (read_default_section dec);
  [ cbn [mbind option_bind] | apply model_dump_NoDup | unfold model_dump; get_field
  | unfold model_dump; get_field | apply lem ].

Lemma read_policy_merged d o :
  read_policy (JObj (_deep_merge (model_dump false d) (model_dump true o)))
  = Some (merge_policy d o).
Proof.
  unfold read_policy, read_obj.
  rewrite only_keys_deep_merge by apply model_dump_keys.
  do 2 (erewrite (read_opt_merged JInt);
    [ cbn [mbind option_bind] | done | done | apply model_dump_NoDup
    | unfold model_dump; get_field | unfold model_dump; get_field ]).
  read_section read_cpu read_cpu_merged. read_section read_memory read_memory_merged.
  read_section read_process read_process_merged. read_section read_network read_network_merged.
  read_section read_filesystem read_filesystem_merged. read_section read_logs read_logs_merged.
  read_section read_concurrency read_concurrency_merged. reflexivity.
Qed.

(** Setting a limit over a readable policy object. *)
Lemma read_policy_set_timeout x p t :
  read_policy (JObj x) = Some p →
  read_policy (JObj (obj_set x "timeout_seconds" (JInt t))) = Some (with_limits (Some t) None p).
Proof.
  unfold read_policy, read_obj. destruct (only_keys _ x) eqn:E; [|done].
  rewrite only_keys_set by done. unfold read_opt, read_default. rewrite !obj_get_set.
  cbn [String.eqb Ascii.eqb Bool.eqb as_int]. intros H.
  repeat (apply bind_Some in H as (? & Heq & H); simpl in *;
          first [rewrite Heq; simpl; clear Heq | clear Heq]).
  by injection H as <-.
Qed.
Lemma read_policy_set_retries x p r :
  read_policy (JObj x) = Some p →
  read_policy (JObj (obj_set x "max_retries" (JInt r))) = Some (with_limits None (Some r) p).
Proof.
  unfold read_policy, read_obj. destruct (only_keys _ x) eqn:E; [|done].
  rewrite only_keys_set by done. unfold read_opt, read_default. rewrite !obj_get_set.
  cbn [String.eqb Ascii.eqb Bool.eqb as_int]. intros H.
  repeat (apply bind_Some in H as (? & Heq & H); simpl in *;
          first [rewrite Heq; simpl; clear Heq | clear Heq]).
  by injection H as <-.
Qed.

Lemma read_merged_dump s kind timeout retries :
  read_policy (JObj (merged_dump s kind timeout retries))
  = Some (with_limits timeout retries
            (merge_policy (defaults s) (default default_policy (goblins s !! kind)))).
Proof.
  unfold merged_dump.
  pose proof (read_policy_merged (defaults s) (default default_policy (goblins s !! kind))) as H.
  destruct timeout as [t|]; [apply (read_policy_set_timeout _ _ t) in H|];
    (destruct retries as [r|]; [apply (read_policy_set_retries _ _ r) in H|]); exact H.
Qed.

Lemma read_filesystem_dump p : read_filesystem (JObj (filesystem_fields true p)) = Some p.
Proof.
  destruct p as [ro t b f].
  assert (read_default as_strs [] (filesystem_fields true (mkFilesystemPolicy ro t b f)) "tmpfs"
          = Some t) as Ht.
  { unfold read_default, filesystem_fields. get_key. rewrite option_eta. simpl.
    destruct t; [reflexivity|]. apply as_strs_dump. }
  assert (only_keys filesystem_names (filesystem_fields true (mkFilesystemPolicy ro t b f)) = true)
    as Hk by (unfold_fields; solve_keys).
  unfold read_filesystem, read_obj. unfold filesystem_names in Hk. rewrite Hk, Ht.
  unfold read_opt, filesystem_fields. get_key. rewrite !option_eta.
  by destruct ro, b, f.
Qed.

(** A section of a compact dump, absent when it has no field set. *)
Lemma read_default_dump {A} (dec : Json → option A) (d v : A) o n fs :
  obj_get o n = (if bool_decide (fs = []) then None else Some (JObj fs)) →
  dec (JObj fs) = Some v → dec (JObj []) = Some d →
  read_default dec d o n = Some v.
Proof.
  intros Ho Hv Hd. unfold read_default. rewrite Ho.
  case_bool_decide as Hfs; [rewrite Hfs in Hv|]; congruence.
Qed.

Lemma read_policy_compact p : read_policy (JObj (compact p)) = Some p.
Proof.
  unfold read_policy, read_obj, compact. rewrite model_dump_keys.
  destruct p as [t r c m pr n f l k]. unfold read_opt.
  assert (∀ o, match JInt <$> o with
               | None | Some JNull => Some None
               | Some j => Some <$> as_int j
               end = Some o) as Hint by by intros [].
  replace (obj_get (model_dump true _) "timeout_seconds") with (JInt <$> t)
    by (unfold model_dump; get_field).
  replace (obj_get (model_dump true _) "max_retries") with (JInt <$> r)
    by (unfold model_dump; get_field).
  rewrite !Hint. cbn [mbind option_bind].
  assert (∀ A (dec : Json → option A) (d v : A) nm fs,
    obj_get (model_dump true (mkResourcePolicy t r c m pr n f l k)) nm
      = (if bool_decide (fs = []) then None else Some (JObj fs)) →
    dec (JObj fs) = Some v → dec (JObj []) = Some d →
    read_default dec d (model_dump true (mkResourcePolicy t r c m pr n f l k)) nm = Some v)
    as Hsec by (intros; by eapply read_default_dump).
  rewrite (Hsec _ read_cpu _ c _ (cpu_fields c)); [|unfold model_dump; get_field|by destruct c as [[] []]|done].
  rewrite (Hsec _ read_memory _ m _ (memory_fields m)); [|unfold model_dump; get_field|by destruct m as [[] []]|done].
  rewrite (Hsec _ read_process _ pr _ (process_fields pr)); [|unfold model_dump; get_field|by destruct pr as [[]]|done].
  rewrite (Hsec _ read_network _ n _ (network_fields n)); [|unfold model_dump; get_field|by destruct n as [[]]|done].
  rewrite (Hsec _ read_filesystem _ f _ (filesystem_fields true f)); [|unfold model_dump; get_field|apply read_filesystem_dump|done].
  rewrite (Hsec _ read_logs _ l _ (logs_fields l)); [|unfold model_dump; get_field|by destruct l as [[]]|done].
  rewrite (Hsec _ read_concurrency _ k _ (concurrency_fields k)); [|unfold model_dump; get_field|by destruct k as [[] []]|done].
  reflexivity.
Qed.

(** ** Lemmas: ranges and ceilings *)

Lemma gt0_or_else o d : gt0 o = true → gt0 d = true → gt0 (or_else o d) = true.
Proof. by destruct o. Qed.
Lemma ge0_or_else o d : ge0 o = true → ge0 d = true → ge0 (or_else o d) = true.
Proof. by destruct o. Qed.

Lemma with_limits_merge_in_range d o t r :
  policy_in_range d = true → policy_in_range o = true → gt0 t = true → ge0 r = true →
  policy_in_range (with_limits t r (merge_policy d o)) = true.
Proof.
  unfold policy_in_range. rewrite !andb_true_iff. simpl. intros ? ? ? ?. destruct_and!.
  repeat split; auto using gt0_or_else, ge0_or_else.
Qed.

Lemma check_ok {A} gt str kind f (v m : option A) :
  check gt str kind f v m = Ok tt ↔ opt_gt gt v m = false.
Proof. unfold check. by destruct (opt_gt gt v m). Qed.

Lemma result_bind_ok {A B} (r : result A) (k : A → result B) b :
  result_bind r k = Ok b ↔ ∃ a, r = Ok a ∧ k a = Ok b.
Proof.
  destruct r as [a|e]; simpl; split; [by eauto| |done|].
  - intros (? & [= <-] & ?). done.
  - by intros (? & ? & _).
Qed.

(** No limit of the policy is over a ceiling that is set. *)
Definition le_opt (v m : option Z) : Prop :=
  ∀ a b, v = Some a → m = Some b → a ≤ b.
Record within_ceilings `{Floats} (p c : ResourcePolicy) : Prop := {
  wc_timeout : le_opt (timeout_seconds p) (timeout_seconds c);
  wc_retries : le_opt (max_retries p) (max_retries c);
  wc_cpu : ∃ v m, _parse_cpu (cpu_limit (cpu p)) = Ok v ∧ _parse_cpu (cpu_limit (cpu c)) = Ok m
             ∧ opt_gt float_gt v m = false;
  wc_memory : ∃ v m, _parse_bytes (memory_limit (memory p)) = Ok v
             ∧ _parse_bytes (memory_limit (memory c)) = Ok m ∧ le_opt v m;
  wc_pids : le_opt (pids_limit (process p)) (pids_limit (process c));
  wc_artifact_bytes :
    le_opt (artifact_max_bytes (filesystem p)) (artifact_max_bytes (filesystem c));
  wc_artifact_files :
    le_opt (artifact_max_files (filesystem p)) (artifact_max_files (filesystem c));
  wc_logs : le_opt (logs_max_bytes (logs p)) (logs_max_bytes (logs c));
  wc_running : le_opt (max_running (concurrency p)) (max_running (concurrency c));
  wc_project_running :
    le_opt (max_project_running (concurrency p)) (max_project_running (concurrency c))
}.

Lemma check_z_ok kind f v m : check_z kind f v m = Ok tt → le_opt v m.
Proof.
  intros H%check_ok a b -> ->. simpl in H. by apply Z.ltb_ge in H.
Qed.

Lemma validate_within_ceilings_ok `{Floats} s kind p :
  validate_within_ceilings s kind p = Ok tt → within_ceilings p (ceilings s).
Proof.
  unfold validate_within_ceilings. intros H0.
  repeat (apply result_bind_ok in H0 as (?a & ?Ha & H0)).
  destruct a3, a4, a5, a6, a7, a8, a9, a10, a11.
  constructor; eauto using check_z_ok.
  - exists a, a0. split_and!; [done..|]. by apply check_ok in Ha5.
  - exists a1, a2. split_and!; eauto using check_z_ok.
Qed.

(** ** Properties *)

(** C38: [effective_for] resolves a kind's policy as the field-wise override of
    the defaults, with the caller's timeout and retries on top, and answers that
    policy or the ceiling violation: the JSON dump, recursive merge and
    revalidation in between lose nothing. *)
Theorem effective_for_resolves `{Pydantic} `{Floats} (s : ResourcePolicySet) (kind : string)
    (timeout retries : option Z) :
  policy_in_range (defaults s) = true →
  map_Forall (λ _ p, policy_in_range p = true) (goblins s) →
  gt0 timeout = true → ge0 retries = true →
  let p := with_limits timeout retries
             (merge_policy (defaults s) (default default_policy (goblins s !! kind))) in
  effective_for s kind timeout retries = (let? _ := validate_within_ceilings s kind p in Ok p).
Proof.
  intros Hd Hg Ht Hr p. unfold effective_for.
  rewrite (model_validate_reads _ p); [done|apply read_merged_dump|].
  apply with_limits_merge_in_range; [done| |done|done].
  destruct (goblins s !! kind) as [o|] eqn:E; simpl; [exact (Hg _ _ E)|done].
Qed.

(** C39: A policy [effective_for] answers respects every configured ceiling. *)
Theorem effective_for_within_ceilings `{Pydantic} `{Floats} (s : ResourcePolicySet)
    (kind : string) (timeout retries : option Z) (p : ResourcePolicy) :
  effective_for s kind timeout retries = Ok p → within_ceilings p (ceilings s).
Proof.
  unfold effective_for. intros (q & _ & ([] & Hc & [= <-])%result_bind_ok)%result_bind_ok.
  by apply validate_within_ceilings_ok in Hc.
Qed.

(** C40: the policy resolved at submission is the one the scheduler reads back
    from the job's metadata, whatever else the metadata holds. *)
Theorem persisted_policy_roundtrip `{Pydantic} `{Floats} (s : ResourcePolicySet)
    (kind : string) (timeout retries : option Z) (p : ResourcePolicy) (metadata : dict) :
  effective_for s kind timeout retries = Ok p →
  policy_from_job_metadata (<["resource_policy" := JObj (compact p)]> metadata) = Ok (Some p).
Proof.
  unfold effective_for. intros (q & Hq & ([] & _ & [= <-])%result_bind_ok)%result_bind_ok.
  unfold policy_from_job_metadata. rewrite lookup_insert_eq.
  rewrite (model_validate_reads _ q); [done|apply read_policy_compact|].
  by eapply model_validate_in_range.
Qed.

(** ** Runs on concrete inputs *)

(** Whole-number CPU quantities. *)
Definition int_floats : Floats := {|
  float := Z;
  float_of_string := λ s, bytes_of_string s;
  float_div_1000 := λ z, z;
  float_gt := λ a b, b <? a;
  float_str := pretty
|}.

Definition sample_policies : ResourcePolicySet :=
  mkResourcePolicySet 1
    (mkResourcePolicy (Some 60) (Some 1) (mkCpuPolicy None (Some "2"))
       (mkMemoryPolicy (Some "128Mi") (Some "1Gi")) (mkProcessPolicy None)
       (mkNetworkPolicy (Some "none")) (mkFilesystemPolicy None ["/tmp"] None None)
       (mkLogsPolicy None) (mkConcurrencyPolicy None None))
    {[ "report" := mkResourcePolicy None (Some 3) (mkCpuPolicy None None)
         (mkMemoryPolicy None (Some "512Mi")) (mkProcessPolicy None) (mkNetworkPolicy None)
         (mkFilesystemPolicy (Some true) [] None None) (mkLogsPolicy None)
         (mkConcurrencyPolicy (Some 2) None) ]}
    (mkResourcePolicy (Some 300) None (mkCpuPolicy None (Some "4"))
       (mkMemoryPolicy None (Some "1Gi")) (mkProcessPolicy None) (mkNetworkPolicy None)
       (mkFilesystemPolicy None [] None None) (mkLogsPolicy None)
       (mkConcurrencyPolicy None None)).

Definition sample_effective : ResourcePolicy :=
  mkResourcePolicy (Some 90) (Some 3) (mkCpuPolicy None (Some "2"))
    (mkMemoryPolicy (Some "128Mi") (Some "512Mi")) (mkProcessPolicy None)
    (mkNetworkPolicy (Some "none")) (mkFilesystemPolicy (Some true) ["/tmp"] None None)
    (mkLogsPolicy None) (mkConcurrencyPolicy (Some 2) None).

Lemma effective_for_resolves_witness :
  @effective_for strict_pydantic int_floats sample_policies "report" (Some 90) None
  = Ok sample_effective.
Proof.
  rewrite (@effective_for_resolves strict_pydantic int_floats sample_policies "report" (Some 90) None);
    [vm_compute; reflexivity|reflexivity| |reflexivity|reflexivity].
  apply map_Forall_singleton. reflexivity.
Defined.

Lemma effective_for_within_ceilings_witness :
  @within_ceilings int_floats sample_effective (ceilings sample_policies).
Proof.
  apply (@effective_for_within_ceilings strict_pydantic int_floats sample_policies "report"
           (Some 90) None).
  vm_compute. reflexivity.
Defined.

Lemma persisted_policy_roundtrip_witness :
  @policy_from_job_metadata strict_pydantic
    (<["resource_policy" := JObj (compact sample_effective)]> {[ "team" := JStr "a" ]})
  = Ok (Some sample_effective).
Proof.
  apply (@persisted_policy_roundtrip strict_pydantic int_floats sample_policies "report"
           (Some 90) None).
  vm_compute. reflexivity.
Defined.
