(* ===== verification/Containers.v ===== *)
(** * What the container runtimes share

    [runtime_helpers.py], [container_logs.py], [worker_environment.py],
    [docker_runtime_paths.py] and [kubernetes_result_keys.py]: the translation of a
    resource policy into Docker and Kubernetes settings, bounded log payloads, the
    worker's literal environment, and the Docker data directories.
    [Path.resolve] is the parameter [resolve]: symbolic links are the host's. *)

From Stdlib Require Import Ascii.
From S2P Require Import Prelude Contracts Text Paths PyValues ResourcePolicies.

(** ** URLs

    [urlparse] on text without control characters and brackets: scheme, network
    location and what follows it. *)
Record SplitUrl := mkUrl { url_scheme : string; url_netloc : option string; url_path : string }.

Definition scheme_char (c : ascii) : bool :=
  let n := nat_of_ascii (lower_char c) in
  (Nat.leb 97 n && Nat.leb n 122) || (Nat.leb 48 n && Nat.leb n 57)
  || Ascii.eqb c "+" || Ascii.eqb c "-" || Ascii.eqb c ".".
Definition is_letter (c : ascii) : bool :=
  let n := nat_of_ascii (lower_char c) in Nat.leb 97 n && Nat.leb n 122.
Definition netloc_end (c : ascii) : bool := Ascii.eqb c "/" || Ascii.eqb c "?" || Ascii.eqb c "#".
Fixpoint split_netloc (l : list ascii) : list ascii * list ascii :=
  match l with
  | [] => ([], [])
  | c :: l' => if netloc_end c then ([], l) else let '(a, b) := split_netloc l' in (c :: a, b)
  end.
Definition urlsplit (s : string) : SplitUrl :=
  let '(scheme, rest) :=
    match partition_at ":" (chars s) with
    | (c :: a, Some b) => if is_letter c && forallb scheme_char (c :: a)
                          then (map lower_char (c :: a), b) else ([], chars s)
    | _ => ([], chars s)
    end in
  match rest with
  | x :: y :: l =>
      if Ascii.eqb x "/" && Ascii.eqb y "/"
      then let '(netloc, path) := split_netloc l in mkUrl (text scheme) (Some (text netloc)) (text path)
      else mkUrl (text scheme) None (text rest)
  | _ => mkUrl (text scheme) None (text rest)
  end.
(** [urlparse(...).hostname] *)
Definition url_hostname (u : SplitUrl) : option string :=
  match url_netloc u with
  | None => None
  | Some netloc =>
      let hostinfo := match rsplit_once "@" (chars netloc) with Some (_, h) => h | None => chars netloc end in
      let host := text (map lower_char (fst (partition_at ":" hostinfo))) in
      if truthy host then Some host else None
  end.
(** [str.replace(old, new, 1)] for a non-empty [old] *)
Fixpoint replace_first (old new l : list ascii) : list ascii :=
  if bool_decide (take (length old) l = old) then new ++ drop (length old) l
  else match l with [] => [] | c :: l' => c :: replace_first old new l' end.
(** [urlunparse] drops the marks of an empty query and fragment. *)
Definition unsplit_path (path : string) : string :=
  let '(before, fragment) := partition_at "#" (chars path) in
  let '(base, query) := partition_at "?" before in
  let part mark o := match o with Some (x :: l) => mark :: x :: l | _ => [] end in
  text (base ++ part "?"%char query ++ part "#"%char fragment).
Definition urlunsplit (u : SplitUrl) : string :=
  (if truthy (url_scheme u) then url_scheme u +:+ ":" else EmptyString)
  +:+ (match url_netloc u with Some n => "//" +:+ n | None => EmptyString end) +:+ unsplit_path (url_path u).

Definition container_redis_url (redis_url : string) : string :=
  let parsed := urlsplit redis_url in
  match url_hostname parsed, url_netloc parsed with
  | Some host, Some netloc =>
      if bool_decide (host ∈ ["localhost"; "127.0.0.1"])
      then urlunsplit (mkUrl (url_scheme parsed)
             (Some (text (replace_first (chars host) (chars "host.docker.internal") (chars netloc))))
             (url_path parsed))
      else redis_url
  | _, _ => redis_url
  end.
Example container_redis_urls :
  container_redis_url <$> ["redis://localhost:6379/0"; "redis://u:p@127.0.0.1/1?x=#"; "redis://cache:6379";
                           "redis://localhost@localhost"]
  = ["redis://host.docker.internal:6379/0"; "redis://u:p@host.docker.internal/1?x="; "redis://cache:6379";
     "redis://host.docker.internal@localhost"].
Proof. reflexivity. Qed.

(** ** Policies *)

Definition docker_memory_quantity (value : string) : string :=
  match List.find (λ p : string * string, text_ends_with p.1 value)
          [("Ki", "k"); ("Mi", "m"); ("Gi", "g"); ("Ti", "t")] with
  | Some (suffix, docker_suffix) =>
      text (take (String.length value - String.length suffix) (chars value)) +:+ docker_suffix
  | None => value
  end.

Definition cpu_argument `{Floats} (limit : string) : result string :=
  if ends_with "m"%char limit
  then let? f := py_float (drop_last limit) in Ok (float_str (float_div_1000 f))
  else Ok limit.
Definition flag (name : string) (o : option string) : list string :=
  match o with Some v => if truthy v then [name; v] else [] | None => [] end.
Definition docker_policy_args `{Floats} (policy : ResourcePolicy) : result (list string) :=
  let? cpus := (match cpu_limit (cpu policy) with
                | Some limit => if truthy limit then let? v := cpu_argument limit in Ok ["--cpus"; v] else Ok []
                | None => Ok []
                end) in
  Ok (cpus
      ++ flag "--memory" (match memory_limit (memory policy) with
                          | Some m => if truthy m then Some (docker_memory_quantity m) else None
                          | None => None end)
      ++ (match pids_limit (process policy) with Some n => ["--pids-limit"; pretty n] | None => [] end)
      ++ flag "--network" (network_mode (network policy))
      ++ (if bool_decide (read_only_root (filesystem policy) = Some true) then ["--read-only"] else [])
      ++ concat ((λ t, ["--tmpfs"; t]) <$> tmpfs (filesystem policy))
      ++ (match logs_max_bytes (logs policy) with
          | Some n => ["--log-opt"; "max-size=" +:+ pretty n] | None => [] end)).

Definition resource_policy_env (policy : ResourcePolicy) : string := json_canonical (JObj (compact policy)).

(** The container fields of a policy: its resources and its security context. *)
Definition quantities (cpu memory : option string) : list (string * Json) :=
  (match cpu with Some v => if truthy v then [("cpu", JStr v)] else [] | None => [] end)
  ++ (match memory with Some v => if truthy v then [("memory", JStr v)] else [] | None => [] end).
Definition kubernetes_policy_fields (policy : ResourcePolicy) : list (string * Json) :=
  let requests := quantities (cpu_request (cpu policy)) (memory_request (memory policy)) in
  let limits := quantities (cpu_limit (cpu policy)) (memory_limit (memory policy)) in
  let part name l := match l with [] => [] | _ => [(name, JObj l)] end in
  match part "requests" requests ++ part "limits" limits with
  | [] => []
  | resources => [("resources", JObj resources)]
  end
  ++ (if bool_decide (read_only_root (filesystem policy) = Some true)
      then [("securityContext", JObj [("readOnlyRootFilesystem", JBool true)])] else []).

Definition worker_result_key (run_id : string) : string := "goblin-king:results:" +:+ run_id.
Definition forwarded_result_key (run_id : string) : string := "goblin-king:forwarded-results:" +:+ run_id.

(** [kubernetes_name]: [str.isalnum] on ASCII, of which the names it is given are made (kinds,
    uuids and fixed prefixes). *)
Definition alphanumeric (c : ascii) : bool :=
  let n := nat_of_ascii c in
  (Nat.leb 48 n && Nat.leb n 57) || (Nat.leb 65 n && Nat.leb n 90) || (Nat.leb 97 n && Nat.leb n 122).
Definition hyphen : ascii := "-".
Fixpoint drop_hyphens (l : list ascii) : list ascii :=
  match l with
  | c :: l' => if Ascii.eqb c hyphen then drop_hyphens l' else l
  | [] => []
  end.
Definition strip_hyphens (l : list ascii) : list ascii := rev (drop_hyphens (rev (drop_hyphens l))).
Definition kubernetes_name (value : string) : string :=
  let lowered := (λ c, if alphanumeric c then c else hyphen) <$> map lower_char (chars value) in
  let normalized := join_with hyphen (filter (λ part, part ≠ []) (split_on hyphen lowered)) in
  let name := text (strip_hyphens (take 63 normalized)) in
  if truthy name then name else "goblin-worker".

(** ** The worker's literal environment ([worker_environment.py]) *)

Definition is_null (j : Json) : bool := match j with JNull => true | _ => false end.
Definition literal_worker_environment (definition : GoblinDefinition) : list (string * string) :=
  match gd_metadata definition !! "env" with
  | Some (JObj env) =>
      (λ kv, (kv.1, py_str kv.2)) <$> filter (λ kv, truthy kv.1 && negb (is_null kv.2) = true) env
  | _ => []
  end.
Definition _worker_secret_refs (definition : GoblinDefinition) : list string :=
  match gd_metadata definition !! "secret_refs" with
  | Some (JList names) => filter (λ n, truthy n = true) (py_str <$> names)
  | _ => []
  end.

(** ** Environment names ([run_events.py], [events.py]) *)

Definition GOBLIN_CONTAINER_CONTRACT_VERSION : string := "goblin-king/v1alpha1".
Definition WORKER_RUN_EVENT_CONTRACT_VERSION : string := "goblin-king/v1alpha1".
Definition DEFAULT_HEARTBEAT_CHANNEL : string := "goblin-king:heartbeats".
Definition worker_heartbeat_key (run_id : string) : string := "goblin-king:heartbeats:" +:+ run_id.
Definition run_event_stream_key (run_id : string) : string := "goblin-king:run-events:" +:+ run_id.
Definition run_event_sequence_key (run_id : string) : string := run_event_stream_key run_id +:+ ":sequence".
Definition run_event_rate_key (run_id : string) : string := run_event_stream_key run_id +:+ ":rate".
Definition worker_run_event_environment (run_id redis_url : string) : list (string * string) :=
  [("GOBLIN_RUN_EVENT_CONTRACT_VERSION", WORKER_RUN_EVENT_CONTRACT_VERSION);
   ("GOBLIN_RUN_EVENT_REDIS_URL", redis_url);
   ("GOBLIN_RUN_EVENT_STREAM", run_event_stream_key run_id);
   ("GOBLIN_RUN_EVENT_SEQUENCE_KEY", run_event_sequence_key run_id);
   ("GOBLIN_RUN_EVENT_RATE_KEY", run_event_rate_key run_id);
   ("GOBLIN_RUN_EVENT_MAX_EVENTS", "256"); ("GOBLIN_RUN_EVENT_MAX_PAYLOAD_BYTES", "4096");
   ("GOBLIN_RUN_EVENT_MIN_INTERVAL_MS", "50"); ("GOBLIN_RUN_EVENT_TTL_SECONDS", "3600")].

(** ** Log payloads ([container_logs.py]) *)

Definition DEFAULT_RUNTIME_LOG_CAPTURE_BYTES : Z := 64 * 1024.

(** [tail_text] of a string: the text, whether it was cut, and its size. *)
Definition tail_text (value : option string) (max_bytes : Z) : string * bool * Z :=
  match value with
  | None => (EmptyString, false, 0)
  | Some v =>
      let byte_count := Z.of_nat (String.length v) in
      if max_bytes <=? 0 then (EmptyString, 0 <? byte_count, byte_count)
      else if byte_count <=? max_bytes then (v, false, byte_count)
      else (text (decode_replace (drop (Z.to_nat (byte_count - max_bytes)) (chars v))), true, byte_count)
  end.

Definition log_capture_limit (policy : option ResourcePolicy) : Z :=
  match policy ≫= (λ p, logs_max_bytes (logs p)) with
  | Some n => n
  | None => DEFAULT_RUNTIME_LOG_CAPTURE_BYTES
  end.

Record LogOptions := mkLogOptions {
  lo_combined : bool; lo_stdout_truncated : bool; lo_stderr_truncated : bool;
  lo_stdout_bytes : option Z; lo_stderr_bytes : option Z
}.
Definition plain_logs : LogOptions := mkLogOptions false false false None None.
(** What each stream may hold. *)
Definition stream_limits (combined : bool) (max_bytes : Z) : Z * Z :=
  if combined then (max_bytes, 0) else ((max_bytes + 1) / 2, max_bytes / 2).
Definition container_log_payload (kind image container_name : string) (stdout stderr : option string)
    (exit_code : option Z) (timed_out : bool) (max_bytes : Z) (o : LogOptions) : dict :=
  let '(stdout_limit, stderr_limit) := stream_limits (lo_combined o) max_bytes in
  let '(stdout_tail, stdout_cut, stdout_bytes) := tail_text stdout stdout_limit in
  let '(stderr_tail, stderr_cut, stderr_bytes) := tail_text stderr stderr_limit in
  let stdout_truncated := stdout_cut || lo_stdout_truncated o in
  let stderr_truncated := stderr_cut || lo_stderr_truncated o in
  list_to_map
    ([("kind", JStr kind); ("image", JStr image); ("container_name", JStr container_name);
      ("exit_code", match exit_code with Some n => JInt n | None => JNull end);
      ("timed_out", JBool timed_out); ("stdout", JStr stdout_tail); ("stderr", JStr stderr_tail);
      ("stdout_truncated", JBool stdout_truncated); ("stderr_truncated", JBool stderr_truncated);
      ("truncated", JBool (stdout_truncated || stderr_truncated)); ("max_bytes", JInt max_bytes);
      ("stdout_bytes", JInt (default stdout_bytes (lo_stdout_bytes o)));
      ("stderr_bytes", JInt (default stderr_bytes (lo_stderr_bytes o)))]
     ++ (if lo_combined o then [("stream_mode", JStr "combined")] else [])).

(** ** Docker data directories ([docker_runtime_paths.py]) *)

Definition DockerRuntimePathError (msg : string) : exn := OtherValueError "DockerRuntimePathError" msg.
Definition is_path_error (e : exn) : bool :=
  match e with OtherValueError n _ => String.eqb n "DockerRuntimePathError" | _ => false end.
Definition DEFAULT_DOCKER_RUN_ROOT : PosixPath := parse_path ".goblin-king/runs".

Section docker_paths.
Context (environ : string → option string) (resolve : PosixPath → PosixPath).

Definition configured_docker_run_root (run_root : option string) : option PosixPath :=
  match run_root with
  | Some r => Some (parse_path r)
  | None => match environ "GOBLIN_KING_RUN_ROOT" with
            | Some v => if truthy v then Some (parse_path v) else None
            | None => None
            end
  end.

Definition resolve_docker_run_root (run_root : option string) : result PosixPath :=
  let data_volume := truthy_opt (environ "GOBLIN_KING_DOCKER_DATA_VOLUME") in
  match configured_docker_run_root run_root with
  | None =>
      if data_volume
      then Err (DockerRuntimePathError "GOBLIN_KING_RUN_ROOT is required when GOBLIN_KING_DOCKER_DATA_VOLUME is set; configure an absolute writable path inside the shared data-volume mount")
      else Ok DEFAULT_DOCKER_RUN_ROOT
  | Some resolved =>
      if data_volume && negb (is_absolute resolved)
      then Err (DockerRuntimePathError ("GOBLIN_KING_RUN_ROOT must be absolute when GOBLIN_KING_DOCKER_DATA_VOLUME is set: " +:+ as_posix resolved))
      else Ok resolved
  end.

Definition resolve_docker_artifact_root (run_root : PosixPath) (artifact_root : string) : PosixPath :=
  let configured := parse_path artifact_root in
  if is_absolute configured then resolve configured
  else
    let relative := default configured (relative_to configured (parse_path ".goblin-king")) in
    resolve (path_join (parent (resolve run_root)) relative).

Definition relative_to_docker_data_root (path run_root : PosixPath) (label : string) : result string :=
  let data_root := parent (resolve run_root) in
  match relative_to (resolve path) data_root with
  | Some r => Ok (as_posix r)
  | None => Err (DockerRuntimePathError (label +:+ " must be inside Docker data root " +:+ as_posix data_root
                   +:+ ": " +:+ as_posix (resolve path)))
  end.
End docker_paths.

(** ** Lemmas: bounds *)

Lemma length_text l : String.length (text l) = length l.
Proof. induction l as [|c l IH]; [done|]. simpl. by rewrite IH. Qed.
Lemma length_chars s : length (chars s) = String.length s.
Proof. by rewrite <- length_text, text_chars. Qed.

(** A cut text exceeds its limit by at most six bytes: up to three bytes of a cut
    character, each replaced by the three of U+FFFD. *)
Lemma tail_text_bound value max_bytes t cut n :
  0 ≤ max_bytes → utf8_valid (chars (default EmptyString value)) = true →
  tail_text value max_bytes = (t, cut, n) →
  n = Z.of_nat (String.length (default EmptyString value))
  ∧ (cut = true ↔ max_bytes < n) ∧ (cut = false → t = default EmptyString value)
  ∧ Z.of_nat (String.length t) ≤ max_bytes + 6.
Proof.
  intros Hmax Hv Ht. destruct value as [v|]; simpl in *.
  2: { unfold tail_text in Ht. injection Ht as <- <- <-. split_and!; [done|split; [done|lia]|done|simpl; lia]. }
  set (len := Z.of_nat (String.length v)) in *. unfold tail_text in Ht.
  destruct (Z.leb_spec max_bytes 0) as [Hz|Hz].
  { injection Ht as <- <- <-. split_and!; [done|rewrite Z.ltb_lt; lia| |simpl; lia].
    intros Hlen%Z.ltb_ge. destruct v; [done|simpl in Hlen; unfold len in Hlen; simpl in Hlen; lia]. }
  destruct (Z.leb_spec (len) max_bytes) as [Hle|Hgt].
  { injection Ht as <- <- <-. split_and!; [done|split; [done|lia]|done|lia]. }
  injection Ht as <- <- <-. split_and!; [done|split; [lia|done]|done|].
  destruct (utf8_cut (chars v) (Z.to_nat (len - max_bytes)) Hv) as (w & r & Hdrop & Hw & Hc & Hr).
  rewrite Hdrop, decode_replace_continues, decode_replace_valid, length_text, length_app,
    length_replacements by done.
  assert (length (w ++ r) = Z.to_nat max_bytes) as Hlen.
  { rewrite <- Hdrop, length_drop, length_chars. lia. }
  rewrite length_app in Hlen. lia.
Qed.
Example tail_text_exceeds :
  let smile := text (ascii_of_nat <$> [240; 159; 152; 128]%nat) in
  (λ r : string * bool * Z, (String.length r.1.1, r.1.2, r.2)) (tail_text (Some smile) 3) = (9%nat, true, 4).
Proof. reflexivity. Qed.

(** [resolve] gives absolute paths without [..]. *)
Definition resolves (resolve : PosixPath → PosixPath) : Prop :=
  ∀ p, path_ok (resolve p) ∧ anchor (resolve p) = "/" ∧ Forall (λ n, n ≠ "..") (names (resolve p)).
Lemma relative_inside resolve path run_root label s :
  resolves resolve → relative_to_docker_data_root resolve path run_root label = Ok s →
  ∃ r, s = as_posix r ∧ path_ok r ∧ anchor r = EmptyString ∧ Forall (λ n, n ≠ "..") (names r)
    ∧ names (resolve path) = names (parent (resolve run_root)) ++ names r.
Proof.
  intros Hres H. unfold relative_to_docker_data_root in H.
  destruct (relative_to (resolve path) (parent (resolve run_root))) as [r|] eqn:Hr; [|done]. injection H as <-.
  apply relative_to_some in Hr as (Hnames & _ & Ha). destruct (Hres path) as ([_ Hok] & _ & Hdots).
  rewrite Hnames in Hok, Hdots. apply Forall_app in Hok as [_ Hok], Hdots as [_ Hdots].
  exists r. split_and!; [done|split; [by left|done]|done|done|done].
Qed.
