(* ===== verification/EventStore.v ===== *)
(** * The event log and the event bus

    [src/src/goblin_king/store.py] (the events and heartbeats tables) and
    [src/src/goblin_king/events.py] (the [EventBus]).  [EventTables] holds the
    rows of the events table under their id, the [causal_sequences] counter of
    the scope "events" (the row exists from the migration on) and the heartbeats
    under their owner.  A [Bus] adds the process whose clock stamps the events.

    Mirroring onto Redis ([_publish], [_append_stream]) writes none of these tables; the
    bus with its mirrors is in [Delivery]. *)

From S2P Require Import Prelude CausalTime Contracts.

Record EventTables := mkEventTables {
  events : gmap string EventRecord;
  event_sequence : Z;
  heartbeats : gmap string HeartbeatRecord
}.

Definition empty_event_tables : EventTables := mkEventTables ∅ 0 ∅.

(** ** [SQLiteStore]: writing *)

(** [event.model_copy(update={sequence, created_at})] *)
Definition stamp_event (sequence : Z) (created_at : utc) (e : EventRecord) : EventRecord :=
  mkEvent (e_id e) sequence created_at (e_event_type e) (e_source e) (e_project_id e)
    (e_job_id e) (e_run_id e) (e_fanout_id e) (e_schedule_id e) (e_worker_id e)
    (e_scheduler_id e) (e_payload e).

(** The insert: [id] is the primary key and [sequence] has a unique index. *)
Definition insert_event (e : EventRecord) : M EventTables unit :=
  λ t,
    if bool_decide (is_Some (events t !! e_id e))
    then (t, Err (IntegrityError "UNIQUE constraint failed: events.id"))
    else if existsb (λ x, e_sequence x =? e_sequence e) (rows (events t))
    then (t, Err (IntegrityError "UNIQUE constraint failed: events.sequence"))
    else (mkEventTables (<[e_id e := e]> (events t)) (event_sequence t) (heartbeats t), Ok tt).

Section store.
Context `{Sqlite}.

(** [select(created_at).order_by(sequence.desc()).limit(1)] *)
Definition newest_event (t : EventTables) : option EventRecord :=
  head (order_by (le_desc e_sequence) (rows (events t))).

Definition persist_event (event : EventRecord) : M EventTables EventRecord :=
  atomic (
    let* previous := gets (λ t, e_created_at <$> newest_event t) in
    let created_at := place_after [of_utc <$> previous] (e_created_at event) in
    do* modify (λ t, mkEventTables (events t) (event_sequence t + 1) (heartbeats t)) in
    let* sequence := gets event_sequence in
    do* insert_event (stamp_event sequence created_at event) in
    ret (stamp_event sequence created_at event)).

Definition save_event (event : EventRecord) : M EventTables unit :=
  do* persist_event event in ret tt.

(** ** [SQLiteStore]: reading *)

(** [if value is not None: query = query.where(column == value)] *)
Definition where_eq (value column : option string) : bool :=
  match value with None => true | Some _ => bool_decide (column = value) end.

(** The keyword arguments of [list_events]. *)
Record EventQuery := mkEventQuery {
  q_limit : Z; q_event_type : option string; q_after_id : option string;
  q_job_id : option string; q_run_id : option string; q_fanout_id : option string;
  q_schedule_id : option string; q_worker_id : option string;
  q_scheduler_id : option string; q_project_id : option string; q_offset : Z
}.

Definition event_matches (q : EventQuery) (e : EventRecord) : bool :=
  where_eq (q_event_type q) (Some (e_event_type e))
  && where_eq (q_project_id q) (e_project_id e)
  && where_eq (q_job_id q) (e_job_id e) && where_eq (q_run_id q) (e_run_id e)
  && where_eq (q_fanout_id q) (e_fanout_id e) && where_eq (q_schedule_id q) (e_schedule_id e)
  && where_eq (q_worker_id q) (e_worker_id e)
  && where_eq (q_scheduler_id q) (e_scheduler_id e).

(** The sequence of the [after_id] event, when it is still there. *)
Definition event_cursor (q : EventQuery) (t : EventTables) : option Z :=
  id ← q_after_id q; e_sequence <$> events t !! id.

Definition list_events (q : EventQuery) (t : EventTables) : list EventRecord :=
  let after := match event_cursor q t with
               | Some c => λ e, c <? e_sequence e
               | None => λ _, true
               end in
  sql_page (q_offset q) (q_limit q)
    (order_by (le_asc e_sequence)
       (filter (λ e, event_matches q e && after e = true) (rows (events t)))).

Definition latest_event_created_at (job_id event_type : option string) (t : EventTables)
    : option utc :=
  e_created_at <$>
    head (order_by (le_desc e_sequence)
      (filter (λ e, where_eq job_id (e_job_id e)
                    && where_eq event_type (Some (e_event_type e)) = true) (rows (events t)))).

Definition count_events (project_id : option string) (t : EventTables) : Z :=
  count_rows (λ e, where_eq project_id (e_project_id e)) (events t).

(** ** Heartbeats *)

Definition upsert_heartbeat (heartbeat : HeartbeatRecord) : M EventTables unit :=
  λ t, (mkEventTables (events t) (event_sequence t)
          (<[hb_owner_id heartbeat := heartbeat]> (heartbeats t)), Ok tt).
Definition list_heartbeats (t : EventTables) : list HeartbeatRecord :=
  order_by (le_asc hb_last_seen_at) (rows (heartbeats t)).
Definition get_heartbeat (owner_id : string) (t : EventTables) : option HeartbeatRecord :=
  heartbeats t !! owner_id.
End store.

(** ** [EventBus] *)

Record Bus := mkBus { bus_process : Process; bus_events : EventTables }.

Definition process_lens : lens Bus Process :=
  Lens bus_process (λ p b, mkBus p (bus_events b)).
Definition events_lens : lens Bus EventTables :=
  Lens bus_events (λ t b, mkBus (bus_process b) t).

(** The keyword arguments of [emit]. *)
Record EmitArgs := mkEmit {
  em_source : EventSource; em_payload : dict;
  em_project_id : option string; em_job_id : option string; em_run_id : option string;
  em_fanout_id : option string; em_schedule_id : option string;
  em_worker_id : option string; em_scheduler_id : option string;
  em_after : option utc
}.

Section bus.
Context `{Sqlite} `{Env}.

Definition emit (event_type : string) (a : EmitArgs) : M Bus EventRecord :=
  let* id := zoom process_lens new_uuid in
  let* created_at := zoom process_lens
    (match em_after a with
     | Some after => causally_after [Some (of_utc after)] None
     | None => utc_now
     end) in
  zoom events_lens
    (persist_event
       (mkEvent id 0 created_at event_type (em_source a) (em_project_id a) (em_job_id a)
          (em_run_id a) (em_fanout_id a) (em_schedule_id a) (em_worker_id a)
          (em_scheduler_id a) (em_payload a))).

Definition heartbeat (owner_id : string) (owner_type : HeartbeatOwnerType) (status : string)
    (payload : dict) (job_id run_id : option string) : M Bus HeartbeatRecord :=
  let* now := zoom process_lens utc_now in
  let record := mkHeartbeat owner_id owner_type status now job_id run_id payload in
  do* zoom events_lens (upsert_heartbeat record) in
  ret record.

(** [record_worker_heartbeat_payload]: [decode] is the UTF-8 decoding, the JSON
    parse and the Pydantic validation of the raw text. *)
Definition record_worker_heartbeat_payload (decode : string → result HeartbeatRecord)
    (raw_payload : string) : M Bus (option HeartbeatRecord) :=
  match decode raw_payload with
  | Ok hb => do* zoom events_lens (upsert_heartbeat hb) in ret (Some hb)
  | Err e =>
      if is_value_error e || match e with TypeError _ => true | _ => false end
      then do* emit "worker.heartbeat_invalid"
             (mkEmit SrcRuntime {[ "error" := JStr (exn_str e); "raw" := JStr raw_payload ]}
                None None None None None None None None) in
           ret None
      else raise e
  end.
End bus.

(** ** The log invariant *)

Record log_ok (t : EventTables) : Prop := {
  lo_key : map_Forall (λ id e, e_id e = id) (events t);
  lo_counter : 0 ≤ event_sequence t;
  lo_range : ∀ e, e ∈ rows (events t) → 0 < e_sequence e ≤ event_sequence t;
  lo_unique : ∀ e1 e2, e1 ∈ rows (events t) → e2 ∈ rows (events t) →
    e_sequence e1 = e_sequence e2 → e1 = e2;
  lo_causal : ∀ e1 e2, e1 ∈ rows (events t) → e2 ∈ rows (events t) →
    e_sequence e1 < e_sequence e2 → e_created_at e1 < e_created_at e2
}.

Lemma empty_log_ok : log_ok empty_event_tables.
Proof.
  assert (∀ e, e ∉ rows (events empty_event_tables)) as Hno.
  { intros e [k Hk]%elem_of_rows. simpl in Hk. by rewrite lookup_empty in Hk. }
  split; simpl; [by intros ???|lia| | |]; intros; exfalso; eapply Hno; eassumption.
Qed.

(** A cleanup removes any rows and leaves the counter alone. *)
Definition cleanup_events (p : EventRecord → bool) (t : EventTables) : EventTables :=
  mkEventTables (delete_rows p (events t)) (event_sequence t) (heartbeats t).

Lemma cleanup_log_ok p t : log_ok t → log_ok (cleanup_events p t).
Proof.
  intros [Hk Hc Hr Hu Hca].
  assert (∀ e, e ∈ rows (events (cleanup_events p t)) → e ∈ rows (events t)) as Hsub.
  { intros e [k [Hlk _]%lookup_delete_rows]%elem_of_rows. apply elem_of_rows. eauto. }
  split; eauto. intros id e [Hid _]%lookup_delete_rows. by apply Hk in Hid.
Qed.

Lemma upsert_heartbeat_log_ok hb t : log_ok t → log_ok (upsert_heartbeat hb t).1.
Proof. by intros []; split. Qed.

Lemma elem_of_rows_insert {R} (k : string) (r x : R) t :
  t !! k = None → x ∈ rows (<[k := r]> t) ↔ x = r ∨ x ∈ rows t.
Proof.
  intros Hk. rewrite !elem_of_rows. split.
  - intros [k' H]. destruct (decide (k' = k)) as [->|Hne].
    + rewrite lookup_insert_eq in H. left. congruence.
    + rewrite lookup_insert_ne in H by done. eauto.
  - intros [->|[k' H]]; [exists k; by rewrite lookup_insert_eq|].
    exists k'. rewrite lookup_insert_ne; [done|]. congruence.
Qed.

(** A cleaned-up column value that is not in the log yet. *)
Lemma insert_log_ok e t :
  log_ok t → events t !! e_id e = None → event_sequence t < e_sequence e →
  (∀ x, x ∈ rows (events t) → e_created_at x < e_created_at e) →
  log_ok (mkEventTables (<[e_id e := e]> (events t)) (e_sequence e) (heartbeats t)).
Proof.
  intros [Hk Hc Hr Hu Hca] Hnew Hseq Hlate.
  split; simpl; [|lia| | |].
  - intros id x. destruct (decide (id = e_id e)) as [->|Hne].
    + rewrite lookup_insert_eq. by intros [= ->].
    + rewrite lookup_insert_ne by done. apply Hk.
  - intros x [->|Hx]%elem_of_rows_insert; [lia| |done]. specialize (Hr _ Hx). lia.
  - intros x y [->|Hx]%elem_of_rows_insert [->|Hy]%elem_of_rows_insert Heq; try done.
    + specialize (Hr _ Hy). lia.
    + specialize (Hr _ Hx). lia.
    + by apply Hu.
  - intros x y [->|Hx]%elem_of_rows_insert [->|Hy]%elem_of_rows_insert Heq; try done.
    + lia.
    + specialize (Hr _ Hy). lia.
    + by apply Hlate.
    + by apply Hca.
Qed.

Section persist.
Context `{Sqlite}.

Lemma newest_event_late t e x :
  log_ok t → newest_event t = Some e → x ∈ rows (events t) → e_created_at x ≤ e_created_at e.
Proof.
  intros Hok He Hx. unfold newest_event in He.
  pose proof (order_by_desc_head e_sequence (rows (events t))) as Hmax.
  rewrite He in Hmax. destruct Hmax as [Hin Hmax]. specialize (Hmax _ Hx).
  destruct (decide (e_sequence x = e_sequence e)) as [Heq|Hne].
  - by rewrite (lo_unique _ Hok _ _ Hx Hin Heq).
  - apply Z.lt_le_incl, (lo_causal _ Hok); [done..|lia].
Qed.

(** What [persist_event] does on a well-formed log. *)
Lemma persist_event_run event t :
  log_ok t →
  (events t !! e_id event = None ∧
   ∃ created, let e := stamp_event (event_sequence t + 1) created event in
     persist_event event t =
       (mkEventTables (<[e_id event := e]> (events t)) (event_sequence t + 1) (heartbeats t), Ok e)
     ∧ e_created_at event ≤ created
     ∧ ∀ x, x ∈ rows (events t) → e_created_at x < created)
  ∨ (is_Some (events t !! e_id event) ∧
     persist_event event t = (t, Err (IntegrityError "UNIQUE constraint failed: events.id"))).
Proof.
  intros Hok. unfold persist_event, atomic, bind, gets, modify, insert_event. simpl.
  destruct (events t !! e_id event) as [old|] eqn:Hid; [right|left]; (split; [by eauto|]).
  - by rewrite bool_decide_eq_true_2 by eauto.
  - set (created := place_after _ _). exists created.
    rewrite bool_decide_eq_false_2 by (by intros []).
    assert (existsb (λ x, e_sequence x =? event_sequence t + 1) (rows (events t)) = false) as ->.
    { apply not_true_is_false. intros (x & Hx & Heq)%existsb_exists.
      apply list_elem_of_In in Hx. pose proof (lo_range _ Hok _ Hx). lia. }
    split_and!; [done|apply place_after_ge|].
    intros x Hx. unfold created. destruct (newest_event t) as [e|] eqn:He.
    + apply Z.le_lt_trans with (e_created_at e); [by eapply newest_event_late|].
      change (e_created_at e) with (e_created_at e) at 1.
      replace (e_created_at e) with (ensure_utc (of_utc (e_created_at e))) at 1
        by (unfold ensure_utc; simpl; lia).
      apply place_after_gt. left.
    + unfold newest_event in He.
      pose proof (order_by_desc_head e_sequence (rows (events t))) as Hmax.
      rewrite He in Hmax. rewrite Hmax in Hx. by apply not_elem_of_nil in Hx.
Qed.

Lemma persist_event_log_ok event t : log_ok t → log_ok (persist_event event t).1.
Proof.
  intros Hok. destruct (persist_event_run event t Hok)
    as [(Hnew & created & -> & _ & Hlate)|[_ ->]]; simpl; [|done].
  apply (insert_log_ok (stamp_event (event_sequence t + 1) created event)); simpl; auto with lia.
Qed.
End persist.

#[export] Hint Resolve empty_log_ok cleanup_log_ok upsert_heartbeat_log_ok
  persist_event_log_ok : store.

(** ** Histories of the log *)

(** What happens to the tables: events persisted, owners' heartbeats, cleanups. *)
Inductive log_op :=
| LogPersist (e : EventRecord)
| LogHeartbeat (hb : HeartbeatRecord)
| LogCleanup (p : EventRecord → bool).

(** The tables after the operations, and the events they returned, in order. *)
Fixpoint run_log `{Sqlite} (ops : list log_op) (t : EventTables)
    : EventTables * list EventRecord :=
  match ops with
  | [] => (t, [])
  | LogPersist e :: ops' =>
      match persist_event e t with
      | (t1, Ok e') => let '(t2, es) := run_log ops' t1 in (t2, e' :: es)
      | (t1, Err _) => run_log ops' t1
      end
  | LogHeartbeat hb :: ops' => run_log ops' (upsert_heartbeat hb t).1
  | LogCleanup p :: ops' => run_log ops' (cleanup_events p t)
  end.

Lemma run_log_spec `{Sqlite} ops t :
  log_ok t →
  log_ok (run_log ops t).1
  ∧ StronglySorted (λ e1 e2, e_sequence e1 < e_sequence e2) (run_log ops t).2
  ∧ Forall (λ e, event_sequence t < e_sequence e) (run_log ops t).2.
Proof.
  revert t. induction ops as [|[e|hb|p] ops IH]; intros t Hok; simpl.
  - split_and!; [done|constructor|constructor].
  - pose proof (persist_event_log_ok e t Hok) as Hok1.
    destruct (persist_event_run e t Hok) as [(_ & c & Hrun & _)|[_ Hrun]];
      rewrite Hrun in Hok1 |- *; [|by apply IH].
    destruct (IH _ Hok1) as (Hok2 & Hs & HF).
    destruct (run_log ops _) as [t2 es] eqn:E. simpl in *.
    split_and!; [done|constructor; [done|]|constructor; [simpl; lia|]];
      (eapply Forall_impl; [exact HF|]); simpl; lia.
  - destruct (IH (upsert_heartbeat hb t).1) as (? & ? & ?); auto with store.
  - destruct (IH (cleanup_events p t)) as (? & ? & ?); auto with store.
Qed.

(** ** Lemmas: reading *)

Lemma elem_of_sql_page {A} offset limit (l : list A) x : x ∈ sql_page offset limit l → x ∈ l.
Proof. unfold sql_page. by intros Hx%subseteq_take%subseteq_drop. Qed.

Lemma StronglySorted_take {A} (R : A → A → Prop) n l :
  StronglySorted R l → StronglySorted R (take n l).
Proof. intros Hs. rewrite <- (take_drop n l) in Hs. by apply StronglySorted_app_1_l in Hs. Qed.
Lemma StronglySorted_drop {A} (R : A → A → Prop) n l :
  StronglySorted R l → StronglySorted R (drop n l).
Proof. intros Hs. rewrite <- (take_drop n l) in Hs. by apply StronglySorted_app_1_r in Hs. Qed.
Lemma sql_page_sorted {A} (R : A → A → Prop) offset limit l :
  StronglySorted R l → StronglySorted R (sql_page offset limit l).
Proof. intros Hs. unfold sql_page. by apply StronglySorted_take, StronglySorted_drop. Qed.

(** An element of a sorted list is on its first page or after all of it. *)
Lemma sql_page_complete {A} (R : A → A → Prop) offset limit l x :
  StronglySorted R l → offset ≤ 0 → x ∈ l →
  x ∈ sql_page offset limit l ∨
  (Z.of_nat (length (sql_page offset limit l)) = Z.max 1 (Z.min limit 500)
   ∧ ∀ y, y ∈ sql_page offset limit l → R y x).
Proof.
  intros Hs Hoff Hx. unfold sql_page.
  replace (Z.to_nat (Z.max offset 0)) with 0%nat by lia. rewrite drop_0.
  set (n := Z.to_nat _). rewrite <- (take_drop n l) in Hx.
  apply elem_of_app in Hx as [Hx|Hx]; [by left|right].
  assert (n < length l)%nat.
  { destruct (decide (n < length l)%nat); [done|]. rewrite drop_ge in Hx by lia.
    by apply not_elem_of_nil in Hx. }
  split; [rewrite length_take; lia|]. intros y Hy.
  rewrite <- (take_drop n l) in Hs. by eapply StronglySorted_app_1_elem_of.
Qed.

(** ** Properties *)

(** C11: the event log is a total order.  Over any history of events persisted
    (whatever timestamps they arrive with), heartbeats and cleanups, the log
    stays well formed: sequence numbers are unique, and a higher one always means
    a strictly later timestamp.  The sequence numbers handed out strictly
    increase and are above the initial counter, so a cleanup never makes one
    come back. *)
Theorem event_log_total_order `{Sqlite} (ops : list log_op) (t : EventTables) :
  log_ok t →
  log_ok (run_log ops t).1
  ∧ StronglySorted (λ e1 e2, e_sequence e1 < e_sequence e2) (run_log ops t).2
  ∧ Forall (λ e, event_sequence t < e_sequence e) (run_log ops t).2.
Proof. apply run_log_spec. Qed.

(** Persisting an event with a new id succeeds: the row gets the next
    sequence number and a timestamp that is not before the one it came with and
    strictly after every event of the log; nothing else of it changes.  An id that
    is taken is refused and the transaction leaves no trace, the counter
    included. *)
Theorem persist_event_spec `{Sqlite} (event : EventRecord) (t : EventTables) :
  log_ok t →
  match events t !! e_id event with
  | None => ∃ created,
      let e := stamp_event (event_sequence t + 1) created event in
      persist_event event t
        = (mkEventTables (<[e_id event := e]> (events t)) (event_sequence t + 1) (heartbeats t), Ok e)
      ∧ e_created_at event ≤ created
      ∧ ∀ x, x ∈ rows (events t) → e_created_at x < created
  | Some _ => persist_event event t
        = (t, Err (IntegrityError "UNIQUE constraint failed: events.id"))
  end.
Proof.
  intros Hok. destruct (persist_event_run event t Hok) as [(-> & Hrun)|[[e ->] Hrun]]; exact Hrun.
Qed.

(** A page of [list_events] holds matching events after the cursor in
    strictly increasing sequence and time; and a reader that polls from the start
    of the remaining events misses none: a matching event after the cursor is
    either on the page, or the page is full and lies wholly before it. *)
Theorem list_events_spec `{Sqlite} (q : EventQuery) (t : EventTables) :
  log_ok t →
  let page := list_events q t in
  let wanted e := event_matches q e = true ∧ (∀ c, event_cursor q t = Some c → c < e_sequence e) in
  StronglySorted (λ e1 e2, e_sequence e1 < e_sequence e2 ∧ e_created_at e1 < e_created_at e2) page
  ∧ (∀ e, e ∈ page → e ∈ rows (events t) ∧ wanted e)
  ∧ (q_offset q ≤ 0 → ∀ e, e ∈ rows (events t) → wanted e →
       e ∈ page ∨
       (Z.of_nat (length page) = Z.max 1 (Z.min (q_limit q) 500)
        ∧ ∀ x, x ∈ page → e_sequence x < e_sequence e)).
Proof.
  intros Hok page wanted. unfold page, list_events.
  set (p := λ e, event_matches q e && _ e = true).
  set (hits := filter p (rows (events t))).
  assert (∀ e, e ∈ order_by (le_asc e_sequence) hits ↔ wanted e ∧ e ∈ rows (events t)) as Hhits.
  { intros e. rewrite order_by_elem. unfold hits, p, wanted.
    rewrite list_elem_of_filter, andb_true_iff.
    destruct (event_cursor q t); [rewrite Z.ltb_lt|]; naive_solver. }
  assert (StronglySorted
    (λ e1 e2, e_sequence e1 < e_sequence e2 ∧ e_created_at e1 < e_created_at e2)
    (order_by (le_asc e_sequence) hits)) as Hsorted.
  { assert (NoDup (order_by (le_asc e_sequence) hits)) as Hnd.
    { rewrite order_by_perm. apply NoDup_filter, (rows_NoDup e_id), Hok. }
    pose proof (le_asc_sorted e_sequence hits) as Hs.
    assert (∀ e, e ∈ order_by (le_asc e_sequence) hits → e ∈ rows (events t)) as Hsub
      by (intros e He; by apply Hhits in He as [_ He]).
    clear Hhits. induction Hs as [|x l Hs IH HF]; [constructor|].
    apply NoDup_cons in Hnd as [Hx Hnd]. constructor.
    - apply IH; [done|]. intros e He. apply Hsub. by right.
    - apply Forall_forall. intros y Hy. rewrite Forall_forall in HF. specialize (HF _ Hy).
      assert (e_sequence x < e_sequence y) as Hlt.
      { apply Z.le_neq. split; [done|]. intros Heq. apply Hx.
        rewrite (lo_unique _ Hok x y); [done|apply Hsub; left|apply Hsub; by right|done]. }
      split; [done|]. apply (lo_causal _ Hok); [apply Hsub; left|apply Hsub; by right|done]. }
  split_and!.
  - by apply sql_page_sorted.
  - intros e He%elem_of_sql_page. by apply Hhits in He as [? ?].
  - intros Hoff e He Hw.
    destruct (sql_page_complete _ (q_offset q) (q_limit q) _ e Hsorted Hoff)
      as [?|[? Hlt]]; [by apply Hhits|by left|right].
    split; [done|]. intros x Hx. by apply Hlt.
Qed.

Lemma latest_event_created_at_max `{Sqlite} job_id event_type t v x :
  log_ok t → latest_event_created_at job_id event_type t = Some v →
  x ∈ rows (events t) → where_eq job_id (e_job_id x) = true →
  where_eq event_type (Some (e_event_type x)) = true →
  e_created_at x ≤ v.
Proof.
  intros Hok Hv Hx Hj Hty. unfold latest_event_created_at in Hv.
  set (l := filter _ _) in Hv. pose proof (order_by_desc_head e_sequence l) as Hmax.
  destruct (head _) as [e|]; [|done]. injection Hv as <-. destruct Hmax as [He Hmax].
  apply list_elem_of_filter in He as [_ He].
  assert (x ∈ l) as Hxl by (apply list_elem_of_filter; by rewrite Hj, Hty).
  specialize (Hmax _ Hxl). destruct (decide (e_sequence x = e_sequence e)) as [Heq|Hne].
  - by rewrite (lo_unique _ Hok _ _ Hx He Heq).
  - apply Z.lt_le_incl, (lo_causal _ Hok); [done..|lia].
Qed.

#[export] Instance process_lens_lawful : LawfulLens process_lens.
Proof. split; by intros; repeat match goal with b : Bus |- _ => destruct b end. Qed.
#[export] Instance events_lens_lawful : LawfulLens events_lens.
Proof. split; by intros; repeat match goal with b : Bus |- _ => destruct b end. Qed.
#[export] Instance process_events_disjoint : DisjointLens process_lens events_lens.
Proof. by intros t []. Qed.
#[export] Instance events_process_disjoint : DisjointLens events_lens process_lens.
Proof. by intros t []. Qed.

(** The next [uuid4] is not the id of a stored event. *)
Definition event_id_fresh `{Env} (b : Bus) : Prop :=
  events (bus_events b) !! uuid4 (uuids (bus_process b)) = None.

(** The timestamp [emit] chooses, before the log's floor is applied. *)
Lemma emit_stamp `{Env} (after : option utc) (p : Process) :
  ∃ v p', (match after with
           | Some a => causally_after [Some (of_utc a)] None
           | None => utc_now
           end) p = (p', Ok v)
    ∧ uuids p' = uuids p
    ∧ (∀ a, after = Some a → a < v)
    ∧ (∀ last, clk_last p = Some last → last < v).
Proof.
  destruct (monotonic_utc_now_spec p) as (c & Hnow & _ & Hlast).
  destruct after as [a|].
  - unfold causally_after, bind. rewrite Hnow. unfold ret.
    eexists _, _. split; [reflexivity|]. split_and!; [done| |].
    + intros ? [= <-]. replace a with (ensure_utc (of_utc a)) at 1
        by (unfold ensure_utc; simpl; lia). apply place_after_gt. left.
    + intros last Hl. apply Z.lt_le_trans with c; [by apply Hlast|apply place_after_ge].
  - exists c. eexists. split; [exact Hnow|]. split_and!; [done|done|done].
Qed.

Lemma emit_run `{Sqlite} `{Env} event_type a b :
  log_ok (bus_events b) → event_id_fresh b →
  ∃ b' e, emit event_type a b = (b', Ok e)
    ∧ e_id e = uuid4 (uuids (bus_process b)) ∧ e_event_type e = event_type
    ∧ e_job_id e = em_job_id a ∧ e_payload e = em_payload a ∧ e_source e = em_source a
    ∧ e_sequence e = event_sequence (bus_events b) + 1
    ∧ (∀ after, em_after a = Some after → after < e_created_at e)
    ∧ (∀ x, x ∈ rows (events (bus_events b)) → e_created_at x < e_created_at e)
    ∧ events (bus_events b') = <[e_id e := e]> (events (bus_events b))
    ∧ event_sequence (bus_events b') = e_sequence e
    ∧ log_ok (bus_events b')
    ∧ uuids (bus_process b') = S (uuids (bus_process b)).
Proof.
  intros Hok Hfresh. unfold emit, bind. rewrite zoom_eq. simpl.
  set (p0 := mkProcess _ _ _ _).
  destruct (emit_stamp (em_after a) p0) as (v & p' & Hstamp & Huuid & Hafter & _).
  rewrite zoom_eq. simpl. rewrite Hstamp. simpl. rewrite zoom_eq. simpl.
  set (ev := mkEvent _ _ _ _ _ _ _ _ _ _ _ _ _).
  pose proof (persist_event_log_ok ev (bus_events b) Hok) as Hok'.
  destruct (persist_event_run ev (bus_events b) Hok)
    as [(Hnew & created & Hrun & Hge & Hlate)|[[e He] _]].
  - rewrite Hrun in Hok' |- *. eexists _, _. split; [reflexivity|]. simpl in *.
    split_and!; try done. intros after Hat. specialize (Hafter _ Hat). lia.
  - unfold event_id_fresh in Hfresh. simpl in He. congruence.
Qed.

(** [emit] stores exactly one event, with the fields it was given, the next
    sequence number and a timestamp strictly after [after] and strictly after
    every event of the log, whatever the wall clock reads. *)
Theorem emit_spec `{Sqlite} `{Env} (event_type : string) (a : EmitArgs) (b : Bus) :
  log_ok (bus_events b) → event_id_fresh b →
  ∃ b' e, emit event_type a b = (b', Ok e)
    ∧ e_event_type e = event_type ∧ e_job_id e = em_job_id a ∧ e_payload e = em_payload a
    ∧ e_sequence e = event_sequence (bus_events b) + 1
    ∧ (∀ after, em_after a = Some after → after < e_created_at e)
    ∧ (∀ x, x ∈ rows (events (bus_events b)) → e_created_at x < e_created_at e)
    ∧ events (bus_events b') = <[e_id e := e]> (events (bus_events b))
    ∧ log_ok (bus_events b').
Proof.
  intros Hok Hfresh. destruct (emit_run event_type a b Hok Hfresh) as (b' & e & Hrun & H1).
  destruct_and!. exists b', e. split_and!; done.
Qed.

(** ** Runs on concrete inputs *)

(** A wall clock that stands still, and distinct ids. *)
Definition frozen_env : Env := {|
  wall_clock := λ _, of_utc 1000;
  monotonic_clock := λ n, Z.of_nat n;
  uuid4 := λ n, "id-" +:+ pretty n;
  unicode_lower := λ s, s; unicode_isalnum := λ _, true
|}.

Definition plain_emit (after : option utc) : EmitArgs :=
  mkEmit SrcApi ∅ None (Some "j1") None None None None None after.
Definition sample_event (id : string) (created : utc) : EventRecord :=
  mkEvent id 0 created "job.queued" SrcApi None (Some "j1") None None None None None ∅.

Definition sample_history : list log_op :=
  [ LogPersist (sample_event "a" 50); LogPersist (sample_event "b" 20);
    LogCleanup (λ e, bool_decide (e_id e = "b")); LogPersist (sample_event "c" 10) ].

Definition sample_log `{Sqlite} : EventTables := (run_log sample_history empty_event_tables).1.

Lemma event_log_total_order_witness :
  StronglySorted (λ e1 e2, e_sequence e1 < e_sequence e2)
    (@run_log sqlite_merge sample_history empty_event_tables).2
  ∧ map e_sequence (@run_log sqlite_merge sample_history empty_event_tables).2 = [1; 2; 3].
Proof.
  split; [|vm_compute; reflexivity].
  apply (@event_log_total_order sqlite_merge sample_history empty_event_tables empty_log_ok).
Defined.

Lemma sample_log_ok : log_ok (@sample_log sqlite_merge).
Proof. apply run_log_spec, empty_log_ok. Qed.

Lemma persist_event_spec_witness :
  @persist_event sqlite_merge (sample_event "a" 7) (@sample_log sqlite_merge)
  = (@sample_log sqlite_merge, Err (IntegrityError "UNIQUE constraint failed: events.id")).
Proof.
  exact (@persist_event_spec sqlite_merge (sample_event "a" 7) (@sample_log sqlite_merge)
           sample_log_ok).
Defined.

Definition job_query : EventQuery :=
  mkEventQuery 2 None None (Some "j1") None None None None None None 0.

Lemma list_events_spec_witness :
  StronglySorted (λ e1 e2, e_sequence e1 < e_sequence e2 ∧ e_created_at e1 < e_created_at e2)
    (@list_events sqlite_merge job_query (@sample_log sqlite_merge))
  ∧ map e_id (@list_events sqlite_merge job_query (@sample_log sqlite_merge)) = ["a"; "c"].
Proof.
  split; [|vm_compute; reflexivity].
  apply (@list_events_spec sqlite_merge job_query (@sample_log sqlite_merge) sample_log_ok).
Defined.

Lemma emit_spec_witness :
  ∃ b' e, @emit sqlite_merge frozen_env "job.running" (plain_emit (Some 5000))
            (mkBus init_process (@sample_log sqlite_merge)) = (b', Ok e)
    ∧ 5000 < e_created_at e.
Proof.
  destruct (@emit_spec sqlite_merge frozen_env "job.running" (plain_emit (Some 5000))
              (mkBus init_process (@sample_log sqlite_merge)) sample_log_ok)
    as (b' & e & Hrun & _ & _ & _ & _ & Hafter & _); [vm_compute; reflexivity|].
  exists b', e. split; [exact Hrun|by apply Hafter].
Defined.
