(* ===== verification/JobStore.v ===== *)
(** * Jobs, runs and their children in the store

    The jobs, runs, artifacts and handoffs tables of
    [src/src/goblin_king/store.py], the row conversions of
    [src/src/goblin_king/store_rows.py] and the attempt reconciliation of
    [src/src/goblin_king/store_run_lifecycle.py].  A jobs row has the columns of a
    [JobRecord] and a runs row those of a [RunRecord]; artifacts and handoffs have
    an autoincrement key, so they are lists in insertion order.  Every operation
    is one transaction. *)

From S2P Require Import Prelude CausalTime Contracts EventStore.

Record JobTables := mkJobTables {
  jobs : gmap string JobRecord;
  runs : gmap string RunRecord;
  artifacts : list (string * ArtifactRecord);
  handoffs : list (string * HandoffRecord)
}.

Definition empty_job_tables : JobTables := mkJobTables ∅ ∅ [] [].

Definition jobs_lens : lens JobTables (gmap string JobRecord) :=
  Lens jobs (λ j t, mkJobTables j (runs t) (artifacts t) (handoffs t)).
Definition runs_lens : lens JobTables (gmap string RunRecord) :=
  Lens runs (λ r t, mkJobTables (jobs t) r (artifacts t) (handoffs t)).

(** ** Rows *)

(** The columns an UPDATE of a job may set. *)
Definition set_job (status : JobStatus) (due_at : option utc) (lease_owner : option string)
    (leased_until : option utc) (attempt_count : Z) (last_error : option string)
    (j : JobRecord) : JobRecord :=
  mkJob (j_id j) (j_kind j) (j_input j) (j_created_at j) (j_created_by j) (j_correlation_id j)
    (j_project_id j) (j_fanout_id j) (j_metadata j) status (j_priority j) (j_schedule_id j)
    due_at lease_owner leased_until attempt_count (j_max_retries j) (j_timeout_seconds j)
    last_error.

(** [_row_to_job]: [priority or 100] replaces a zero priority; the other
    defaults only replace values their columns cannot hold or equal values. *)
Definition _row_to_job (row : JobRecord) : JobRecord :=
  mkJob (j_id row) (j_kind row) (j_input row) (j_created_at row) (j_created_by row)
    (j_correlation_id row) (j_project_id row) (j_fanout_id row) (j_metadata row) (j_status row)
    (if j_priority row =? 0 then 100 else j_priority row)
    (j_schedule_id row) (j_due_at row) (j_lease_owner row) (j_leased_until row)
    (j_attempt_count row) (j_max_retries row) (j_timeout_seconds row) (j_last_error row).

(** [_row_to_run]: constructing the record validates the timestamps. *)
Definition _row_to_run (row : RunRecord) : result RunRecord := validate_timestamp_order row.

(** [_run_values]: an empty policy is stored as NULL. *)
Definition _run_values (run : RunRecord) : RunRecord :=
  mkRun (r_id run) (r_job_id run) (r_kind run) (r_project_id run) (r_attempt run) (r_status run)
    (r_started_at run) (r_finished_at run) (r_result run) (r_error run) (r_timeout_seconds run)
    (r_max_retries run) (r_leased_until run)
    (match r_resource_policy run with
     | Some p => if bool_decide (p = ∅) then None else Some p
     | None => None
     end).

Definition set_run_finished (finished : option utc) (r : RunRecord) : RunRecord :=
  mkRun (r_id r) (r_job_id r) (r_kind r) (r_project_id r) (r_attempt r) (r_status r)
    (r_started_at r) finished (r_result r) (r_error r) (r_timeout_seconds r) (r_max_retries r)
    (r_leased_until r) (r_resource_policy r).

(** ** Jobs *)

Definition save_job (job : JobRecord) : M JobTables unit :=
  zoom jobs_lens (insert_row "jobs.id" (j_id job) job).

Definition get_job (job_id : string) (t : JobTables) : option JobRecord :=
  _row_to_job <$> jobs t !! job_id.

(** [status.in_([leased, running])] *)
Definition is_active (s : JobStatus) : bool :=
  match s with JLeased | JRunning => true | _ => false end.
Definition is_terminal (s : JobStatus) : bool :=
  match s with JCompleted | JFailed | JTimedOut | JCancelled => true | _ => false end.

(** [claimable_status] and [due] of [claim_due_jobs]. *)
Definition claimable_status (now : utc) (j : JobRecord) : bool :=
  match j_status j with
  | JQueued | JRetrying => true
  | JLeased | JRunning =>
      match j_leased_until j with Some until => until <=? now | None => false end
  | _ => false
  end.
Definition due (now : utc) (j : JobRecord) : bool :=
  match j_due_at j with Some d => d <=? now | None => true end.

Definition lease_job (worker_id : string) (lease_until : utc) (j : JobRecord) : JobRecord :=
  set_job JLeased (j_due_at j) (Some worker_id) (Some lease_until) (j_attempt_count j)
    (j_last_error j) j.

(** The body of the loop over the selected rows. *)
Definition claim_row (worker_id : string) (now lease_until : utc)
    (claimed : list JobRecord) (row : JobRecord) : M JobTables (list JobRecord) :=
  let* updated := zoom jobs_lens
    (update_row (j_id row) (λ j, claimable_status now j && due now j)
       (lease_job worker_id lease_until)) in
  if negb updated then ret claimed
  else ret (claimed ++ [_row_to_job (lease_job worker_id lease_until row)]).

Section reads.
Context `{Sqlite}.

Definition claimable_rows (now : utc) (limit : Z) (t : JobTables) : list JobRecord :=
  sql_limit limit
    (order_by (le_then (le_desc j_priority) (le_asc j_created_at))
       (filter (λ j, claimable_status now j && due now j = true) (rows (jobs t)))).

Definition claim_due_jobs (worker_id : string) (now lease_until : utc) (limit : Z)
    : M JobTables (list JobRecord) :=
  atomic (
    let* rows := gets (claimable_rows now limit) in
    foldM (claim_row worker_id now lease_until) [] rows).

Definition list_jobs (t : JobTables) : list JobRecord :=
  _row_to_job <$> order_by (le_asc j_created_at) (rows (jobs t)).

Definition list_jobs_page (project_id : option string) (status : option JobStatus)
    (limit offset : Z) (t : JobTables) : list JobRecord :=
  _row_to_job <$>
    sql_page offset limit
      (order_by (le_desc j_created_at)
         (filter (λ j, where_eq project_id (j_project_id j)
                       && match status with
                          | Some s => bool_decide (j_status j = s) | None => true end = true)
            (rows (jobs t)))).

Definition list_fanout_jobs (fanout_id : string) (t : JobTables) : list JobRecord :=
  _row_to_job <$>
    order_by (le_asc j_created_at)
      (filter (λ j, j_fanout_id j = Some fanout_id) (rows (jobs t))).

Definition list_job_runs (job_id : string) (t : JobTables) : result (list RunRecord) :=
  mapM_result _row_to_run
    (order_by (le_asc r_attempt) (filter (λ r, r_job_id r = job_id) (rows (runs t)))).

Definition list_runs_page (project_id : option string) (status : option RunStatus)
    (kind : option string) (limit offset : Z) (t : JobTables) : result (list RunRecord) :=
  mapM_result _row_to_run
    (sql_page offset limit
       (order_by (le_desc r_started_at)
          (filter (λ r, where_eq project_id (r_project_id r)
                        && match status with
                           | Some s => bool_decide (r_status r = s) | None => true end
                        && where_eq kind (Some (r_kind r)) = true)
             (rows (runs t))))).

Definition list_run_artifacts (run_id : string) (t : JobTables) : list ArtifactRecord :=
  order_by (λ x y, String.leb (a_name x) (a_name y))
    (snd <$> filter (λ a, a.1 = run_id) (artifacts t)).

(** The inner join with runs drops the artifacts whose run is gone. *)
Definition list_artifacts_for_project (project_id : option string) (t : JobTables)
    : list ArtifactRecord :=
  order_by (λ x y, String.leb (a_name x) (a_name y))
    (snd <$>
       match project_id with
       | None => artifacts t
       | Some p => filter (λ a, (runs t !! a.1) ≫= r_project_id = Some p) (artifacts t)
       end).
End reads.

Definition get_run (run_id : string) (t : JobTables) : result (option RunRecord) :=
  match runs t !! run_id with
  | None => Ok None
  | Some row => let? r := _row_to_run row in Ok (Some r)
  end.

(** *** Leases and statuses *)

(** [case((or_(leased_until IS NULL, leased_until < lease_until), lease_until),
    else_=leased_until)] *)
Definition extended_until (lease_until : utc) (j : JobRecord) : option utc :=
  match j_leased_until j with
  | None => Some lease_until
  | Some u => if u <? lease_until then Some lease_until else Some u
  end.

Definition owns_active_lease (owner : string) (j : JobRecord) : bool :=
  is_active (j_status j) && bool_decide (j_lease_owner j = Some owner).

Definition try_renew_job_lease (job_id expected_lease_owner : string) (lease_until : utc)
    : M JobTables bool :=
  zoom jobs_lens
    (update_row job_id (owns_active_lease expected_lease_owner)
       (λ j, set_job (j_status j) (j_due_at j) (j_lease_owner j) (extended_until lease_until j)
               (j_attempt_count j) (j_last_error j) j)).

Definition run_job (attempt_count : Z) (j : JobRecord) : JobRecord :=
  set_job JRunning (j_due_at j) (j_lease_owner j) (j_leased_until j) attempt_count
    (j_last_error j) j.

Definition mark_job_running (job_id : string) (attempt_count : Z) : M JobTables unit :=
  do* zoom jobs_lens (update_row job_id (λ _, true) (run_job attempt_count)) in ret tt.

Definition try_mark_job_running (job_id : string) (attempt_count : Z)
    (expected_lease_owner : string) : M JobTables bool :=
  zoom jobs_lens
    (update_row job_id
       (λ j, bool_decide (j_status j = JLeased)
             && bool_decide (j_lease_owner j = Some expected_lease_owner))
       (run_job attempt_count)).

Definition count_active_jobs (kind : string) (exclude_job_id : option string) (t : JobTables) : Z :=
  count_rows (λ j, bool_decide (j_kind j = kind) && is_active (j_status j)
                   && match exclude_job_id with
                      | Some x => negb (bool_decide (j_id j = x)) | None => true end) (jobs t).

Definition count_active_project_jobs (project_id : option string)
    (exclude_job_id : option string) (t : JobTables) : Z :=
  count_rows (λ j, is_active (j_status j) && bool_decide (j_project_id j = project_id)
                   && match exclude_job_id with
                      | Some x => negb (bool_decide (j_id j = x)) | None => true end) (jobs t).

(** The values [finish_job] and [finalize_attempt] write. *)
Definition finished_job (status : JobStatus) (last_error : option string) (due_at : option utc)
    (j : JobRecord) : JobRecord :=
  set_job status (match due_at with Some _ => due_at | None => j_due_at j end) None None
    (j_attempt_count j) last_error j.

Definition finish_job (job_id : string) (status : JobStatus) (last_error : option string)
    (due_at : option utc) : M JobTables unit :=
  do* zoom jobs_lens (update_row job_id (λ _, true) (finished_job status last_error due_at)) in
  ret tt.

Definition cancelled_job (j : JobRecord) : JobRecord :=
  set_job JCancelled (j_due_at j) None None (j_attempt_count j) (Some "cancelled by API") j.

Definition try_cancel_job (job_id : string) : M JobTables (option JobRecord * bool) :=
  let* changed := zoom jobs_lens
    (update_row job_id (λ j, negb (is_terminal (j_status j))) cancelled_job) in
  let* row := gets (λ t, jobs t !! job_id) in
  ret (_row_to_job <$> row, changed).

Definition cancel_job (job_id : string) : M JobTables (option JobRecord) :=
  let* (job, _) := try_cancel_job job_id in ret job.

(** ** Runs ([store_run_lifecycle.py]) *)

Inductive AttemptOutcome := Finalized | OutcomeCancelled | Stale.
#[export] Instance AttemptOutcome_eq : EqDecision AttemptOutcome.
Proof. solve_decision. Defined.
Definition outcome_str (o : AttemptOutcome) : string :=
  match o with Finalized => "finalized" | OutcomeCancelled => "cancelled" | Stale => "stale" end.
Record AttemptFinalization := mkFinalization {
  af_run : RunRecord; af_outcome : AttemptOutcome }.

(** [TERMINAL_RUN_STATUSES] *)
Definition is_terminal_run (s : RunStatus) : bool :=
  match s with RRunning => false | _ => true end.

Definition normalize_persisted_run (run : RunRecord) : RunRecord :=
  if is_terminal_run (r_status run) && bool_decide (r_finished_at run = None)
  then set_run_finished (Some (r_started_at run)) run else run.

Definition _insert_run_children (run : RunRecord) : M JobTables unit :=
  match r_result run with
  | None => ret tt
  | Some res =>
      modify (λ t, mkJobTables (jobs t) (runs t)
                     (artifacts t ++ (pair (r_id run) <$> gr_artifacts res))
                     (handoffs t ++ (pair (r_id run) <$> gr_handoff res)))
  end.

Definition _insert_run (run : RunRecord) : M JobTables unit :=
  do* zoom runs_lens (insert_row "runs.id" (r_id run) (_run_values run)) in
  _insert_run_children run.

Definition persist_run (run : RunRecord) : M JobTables RunRecord :=
  let normalized := normalize_persisted_run run in
  atomic (do* _insert_run normalized in ret normalized).

(** [SQLiteStore.save_run] *)
Definition save_run (run : RunRecord) : M JobTables unit := do* persist_run run in ret tt.

Definition start_run (run : RunRecord) : M JobTables RunRecord :=
  do* raise_if (negb (bool_decide (r_status run = RRunning)))
        (ValueError "a started Run must have status='running'") in
  do* raise_if (opt_truthy (r_finished_at run))
        (ValueError "a started Run cannot have finished_at") in
  do* raise_if (opt_truthy (r_result run)) (ValueError "a started Run cannot have a result") in
  do* raise_if (opt_truthy (r_error run)) (ValueError "a started Run cannot have an error") in
  atomic (do* _insert_run run in ret run).

(** The lineage a finalized run must share with its running projection. *)
Definition lineage (r : RunRecord) : string * string * option string * Z :=
  (r_job_id r, r_kind r, r_project_id r, r_attempt r).

Definition repr_lineage (r : RunRecord) : string :=
  "(" +:+ py_repr (r_job_id r) +:+ ", " +:+ py_repr (r_kind r) +:+ ", "
  +:+ (match r_project_id r with Some p => py_repr p | None => "None" end) +:+ ", "
  +:+ pretty (r_attempt r) +:+ ")".

Definition _finalize_run (run : RunRecord) : M JobTables unit :=
  do* raise_if (negb (is_terminal_run (r_status run)))
        (ValueError ("cannot finalize Run " +:+ py_repr (r_id run) +:+ " with status "
                     +:+ py_repr (run_status_str (r_status run)))) in
  let* existing := gets (λ t, runs t !! r_id run) in
  match existing with
  | None => _insert_run run
  | Some row =>
      do* raise_if (negb (bool_decide (r_status row = RRunning)))
            (ValueError ("cannot finalize Run " +:+ py_repr (r_id run) +:+ " from status "
                         +:+ py_repr (run_status_str (r_status row)))) in
      do* raise_if (negb (bool_decide (lineage run = lineage row)))
            (ValueError ("cannot change Run " +:+ py_repr (r_id run)
                         +:+ " lineage while finalizing: expected " +:+ repr_lineage row
                         +:+ ", received " +:+ repr_lineage run)) in
      do* modify (λ t, mkJobTables (jobs t) (<[r_id run := _run_values run]> (runs t))
                         (filter (λ a, a.1 ≠ r_id run) (artifacts t))
                         (filter (λ h, h.1 ≠ r_id run) (handoffs t))) in
      _insert_run_children run
  end.

(** [owns_lease and (owns_running_attempt or owns_leased_attempt)] *)
Definition owns_attempt (owner : string) (attempt : Z) (row : JobRecord) : bool :=
  bool_decide (j_lease_owner row = Some owner)
  && ((bool_decide (j_status row = JRunning) && (j_attempt_count row =? attempt))
      || (bool_decide (j_status row = JLeased) && (j_attempt_count row + 1 =? attempt))).

Definition finalize_attempt (run : RunRecord) (job_status : JobStatus)
    (last_error : option string) (due_at : option utc) (expected_lease_owner : string)
    : M JobTables AttemptFinalization :=
  let normalized := normalize_persisted_run run in
  atomic (
    let* row := gets (λ t, jobs t !! r_job_id run) in
    match row with
    | None => raise (ValueError ("job not found while finalizing attempt: " +:+ r_job_id run))
    | Some row =>
        let* outcome :=
          (if owns_attempt expected_lease_owner (r_attempt run) row
           then do* zoom jobs_lens
                      (update_row (r_job_id run) (λ _, true)
                         (finished_job job_status last_error due_at)) in
                ret Finalized
           else if bool_decide (j_status row = JCancelled) then ret OutcomeCancelled
           else ret Stale) in
        do* _finalize_run normalized in
        ret (mkFinalization normalized outcome)
    end).

(** [SQLiteStore.finalize_job_attempt] *)
Definition finalize_job_attempt (run : RunRecord) (status : JobStatus)
    (last_error : option string) (due_at : option utc) (expected_lease_owner : string)
    : M JobTables AttemptFinalization :=
  finalize_attempt run status last_error due_at expected_lease_owner.
