(* ===== verification/JobLifecycle.v ===== *)
(** * The life of a job in the store

    What the operations of [JobStore] do to the tables, whoever calls them and in
    whatever order: each operation as one atomic step ([job_op], [run_op]), what a
    step may do to one row ([row_step]), the invariant of the tables, the legal
    transitions of a job, leases as a mutual exclusion, the fencing of attempts
    that lost their lease, and the one-time finalization of runs. *)

From S2P Require Import Prelude CausalTime Contracts EventStore JobStore.

(** ** Operations as steps *)

Inductive job_op :=
| OpSave (job : JobRecord)
| OpClaim (worker_id : string) (now lease_until : utc) (limit : Z)
| OpRenew (job_id owner : string) (lease_until : utc)
| OpStart (job_id : string) (attempt : Z) (owner : string)
| OpFinalize (run : RunRecord) (status : JobStatus) (last_error : option string)
    (due_at : option utc) (owner : string)
| OpFinish (job_id : string) (status : JobStatus) (last_error : option string)
    (due_at : option utc)
| OpCancel (job_id : string)
| OpStartRun (run : RunRecord)
| OpSaveRun (run : RunRecord).

Definition run_op `{Sqlite} (op : job_op) : M JobTables unit :=
  match op with
  | OpSave job => save_job job
  | OpClaim w now until limit => do* claim_due_jobs w now until limit in ret tt
  | OpRenew id w until => do* try_renew_job_lease id w until in ret tt
  | OpStart id attempt w => do* try_mark_job_running id attempt w in ret tt
  | OpFinalize run st err due w => do* finalize_attempt run st err due w in ret tt
  | OpFinish id st err due => finish_job id st err due
  | OpCancel id => do* try_cancel_job id in ret tt
  | OpStartRun run => do* start_run run in ret tt
  | OpSaveRun run => save_run run
  end.

(** The tables after a sequence of operations, raised errors included. *)
Definition step `{Sqlite} (op : job_op) (t : JobTables) : JobTables := (run_op op t).1.
Definition steps `{Sqlite} (ops : list job_op) (t : JobTables) : JobTables :=
  foldl (λ t op, step op t) t ops.

(** What one step may do to the row of job [id]. *)
Inductive row_step (id : string) : job_op → option JobRecord → option JobRecord → Prop :=
| rs_same op o : row_step id op o o
| rs_save job : j_id job = id → row_step id (OpSave job) None (Some job)
| rs_claim w now until limit j :
    claimable_status now j = true → due now j = true →
    row_step id (OpClaim w now until limit) (Some j) (Some (lease_job w until j))
| rs_renew w until j :
    owns_active_lease w j = true →
    row_step id (OpRenew id w until) (Some j)
      (Some (set_job (j_status j) (j_due_at j) (j_lease_owner j) (extended_until until j)
               (j_attempt_count j) (j_last_error j) j))
| rs_start attempt w j :
    j_status j = JLeased → j_lease_owner j = Some w →
    row_step id (OpStart id attempt w) (Some j) (Some (run_job attempt j))
| rs_finalize run st err due_at w j :
    r_job_id run = id → owns_attempt w (r_attempt run) j = true →
    row_step id (OpFinalize run st err due_at w) (Some j) (Some (finished_job st err due_at j))
| rs_finish st err due_at j :
    row_step id (OpFinish id st err due_at) (Some j) (Some (finished_job st err due_at j))
| rs_cancel j :
    is_terminal (j_status j) = false →
    row_step id (OpCancel id) (Some j) (Some (cancelled_job j)).

(** ** Lemmas: single operations *)

Definition keyed (t : JobTables) : Prop := map_Forall (λ id j, j_id j = id) (jobs t).

(** The loop of [claim_due_jobs] over rows as they are in the table. *)
Lemma claim_loop w now until acc l t :
  NoDup (j_id <$> l) →
  (∀ j, j ∈ l → jobs t !! j_id j = Some j ∧ claimable_status now j = true ∧ due now j = true) →
  ∃ js, foldM (claim_row w now until) acc l t
          = (mkJobTables js (runs t) (artifacts t) (handoffs t),
             Ok (acc ++ (_row_to_job ∘ lease_job w until <$> l)))
    ∧ ∀ id, js !! id = (λ j, if bool_decide (id ∈ j_id <$> l) then lease_job w until j else j)
                         <$> jobs t !! id.
Proof.
  revert acc t. induction l as [|j l IH]; intros acc t Hnd Hl.
  - exists (jobs t). split; [simpl; rewrite app_nil_r; by destruct t|].
    intros id. rewrite bool_decide_eq_false_2 by apply not_elem_of_nil.
    by destruct (jobs t !! id).
  - simpl in Hnd. apply NoDup_cons in Hnd as [Hj Hnd].
    destruct (Hl j) as (Hlk & Hc & Hd); [left|].
    set (t1 := mkJobTables (<[j_id j := lease_job w until j]> (jobs t)) (runs t) (artifacts t)
                 (handoffs t)).
    assert (claim_row w now until acc j t
            = (t1, Ok (acc ++ [_row_to_job (lease_job w until j)]))) as Hrow.
    { unfold claim_row, bind. rewrite zoom_eq. simpl. unfold update_row.
      by rewrite Hlk, Hc, Hd. }
    simpl. unfold bind at 1. rewrite Hrow.
    destruct (IH (acc ++ [_row_to_job (lease_job w until j)]) t1 Hnd) as (js & Hrun & Hjs).
    { intros k Hk. simpl. rewrite lookup_insert_ne; [by apply Hl; right|].
      intros Heq. apply Hj. rewrite Heq. by apply list_elem_of_fmap_2. }
    exists js. split; [rewrite Hrun; simpl; by rewrite <- app_assoc|].
    intros id. rewrite Hjs. simpl. destruct (decide (id = j_id j)) as [->|Hne].
    + rewrite lookup_insert_eq, Hlk. simpl.
      rewrite bool_decide_eq_false_2 by done. by rewrite bool_decide_eq_true_2 by left.
    + rewrite lookup_insert_ne by done. destruct (jobs t !! id); [|done]. simpl.
      repeat case_bool_decide; set_solver.
Qed.

Section ops.
Context `{Sqlite}.

Lemma claimable_rows_elem now limit t j :
  j ∈ claimable_rows now limit t →
  j ∈ rows (jobs t) ∧ claimable_status now j = true ∧ due now j = true.
Proof.
  unfold claimable_rows. intros Hj.
  assert (j ∈ order_by (le_then (le_desc j_priority) (le_asc j_created_at))
       (filter (λ j, claimable_status now j && due now j = true) (rows (jobs t)))) as Hj'.
  { unfold sql_limit in Hj. destruct (limit <? 0); [done|]. by apply subseteq_take in Hj. }
  apply order_by_elem, list_elem_of_filter in Hj' as [[? ?]%andb_true_iff ?]. done.
Qed.

Lemma claimable_rows_NoDup now limit t :
  keyed t → NoDup (j_id <$> claimable_rows now limit t).
Proof.
  intros Hkey.
  assert (NoDup (j_id <$> order_by (le_then (le_desc j_priority) (le_asc j_created_at))
       (filter (λ j, claimable_status now j && due now j = true) (rows (jobs t))))) as Hnd.
  { rewrite order_by_perm. apply NoDup_fmap_2_strong.
    - intros x y [_ [k Hx]%elem_of_rows]%list_elem_of_filter
        [_ [k' Hy]%elem_of_rows]%list_elem_of_filter Heq.
      pose proof (Hkey _ _ Hx). pose proof (Hkey _ _ Hy). congruence.
    - apply NoDup_filter, (rows_NoDup j_id), Hkey. }
  unfold claimable_rows, sql_limit. destruct (limit <? 0); [done|].
  rewrite fmap_take. eapply sublist_NoDup; [exact Hnd|]. apply sublist_take.
Qed.

Lemma claim_due_jobs_run w now until limit t :
  keyed t →
  let l := claimable_rows now limit t in
  ∃ js, claim_due_jobs w now until limit t
          = (mkJobTables js (runs t) (artifacts t) (handoffs t),
             Ok (_row_to_job ∘ lease_job w until <$> l))
    ∧ ∀ id, js !! id = (λ j, if bool_decide (id ∈ j_id <$> l) then lease_job w until j else j)
                         <$> jobs t !! id.
Proof.
  intros Hkey l. unfold claim_due_jobs, atomic, bind, gets.
  destruct (claim_loop w now until [] l t) as (js & Hrun & Hjs).
  - by apply claimable_rows_NoDup.
  - intros j Hj. apply claimable_rows_elem in Hj as ([k Hk]%elem_of_rows & Hc & Hd).
    pose proof (Hkey _ _ Hk) as Heq. simpl in Heq. by subst k.
  - exists js. split; [|done]. unfold l in Hrun. by rewrite Hrun.
Qed.

Lemma update_row_lookup {R} (k id : string) (p : R → bool) f t :
  (update_row k p f t).1 !! id =
    (λ r, if bool_decide (id = k) && p r then f r else r) <$> t !! id.
Proof.
  unfold update_row. destruct (decide (id = k)) as [->|Hne].
  - rewrite bool_decide_eq_true_2 by done. destruct (t !! k) as [r|] eqn:E; simpl.
    + destruct (p r); simpl; by rewrite ?lookup_insert_eq, ?E.
    + by rewrite E.
  - rewrite bool_decide_eq_false_2 by done. simpl.
    assert ((update_row k p f t).1 !! id = t !! id) as Heq.
    { unfold update_row. destruct (t !! k) as [r|]; [|done]. destruct (p r); [|done].
      simpl. by rewrite lookup_insert_ne. }
    unfold update_row in Heq. rewrite Heq. by destruct (t !! id).
Qed.

(** An UPDATE of one job row, as a step on the row. *)
Lemma zoom_jobs_lookup {A} (m : M (gmap string JobRecord) A) t id :
  jobs (zoom jobs_lens m t).1 !! id = (m (jobs t)).1 !! id.
Proof. by rewrite zoom_eq. Qed.

End ops.

#[export] Instance preserves_jobs_runs {A} (m : M (gmap string RunRecord) A) :
  Preserves jobs (zoom runs_lens m).
Proof. intros t. by rewrite zoom_eq. Qed.
#[export] Instance preserves_jobs_insert_children run :
  Preserves jobs (_insert_run_children run).
Proof. unfold _insert_run_children. solve_preserves. Qed.
#[export] Instance preserves_jobs_insert_run run : Preserves jobs (_insert_run run).
Proof. unfold _insert_run. solve_preserves. Qed.
#[export] Instance preserves_jobs_finalize_run run : Preserves jobs (_finalize_run run).
Proof. unfold _finalize_run. solve_preserves. Qed.
#[export] Instance preserves_jobs_persist_run run : Preserves jobs (persist_run run).
Proof. unfold persist_run. solve_preserves. Qed.
#[export] Instance preserves_jobs_start_run run : Preserves jobs (start_run run).
Proof. unfold start_run. solve_preserves. Qed.

(** The outcome [finalize_attempt] reports for the row it reads. *)
Definition attempt_outcome (w : string) (attempt : Z) (row : JobRecord) : AttemptOutcome :=
  if owns_attempt w attempt row then Finalized
  else if bool_decide (j_status row = JCancelled) then OutcomeCancelled else Stale.

Definition transition_jobs (run : RunRecord) (st : JobStatus) (err : option string)
    (due_at : option utc) (w : string) (row : JobRecord) (t : JobTables) : JobTables :=
  if owns_attempt w (r_attempt run) row
  then mkJobTables (<[r_job_id run := finished_job st err due_at row]> (jobs t)) (runs t)
         (artifacts t) (handoffs t)
  else t.

Lemma finalize_attempt_run run st err due_at w t :
  finalize_attempt run st err due_at w t =
  match jobs t !! r_job_id run with
  | None => (t, Err (ValueError ("job not found while finalizing attempt: " +:+ r_job_id run)))
  | Some row =>
      match _finalize_run (normalize_persisted_run run) (transition_jobs run st err due_at w row t)
      with
      | (t', Ok _) => (t', Ok (mkFinalization (normalize_persisted_run run)
                                 (attempt_outcome w (r_attempt run) row)))
      | (_, Err e) => (t, Err e)
      end
  end.
Proof.
  unfold finalize_attempt, atomic, transition_jobs, attempt_outcome. unfold bind at 1, gets.
  destruct (jobs t !! r_job_id run) as [row|] eqn:Hrow; [|done].
  destruct (owns_attempt w (r_attempt run) row).
  - unfold bind, ret. rewrite zoom_eq. simpl. unfold update_row. rewrite Hrow. simpl.
    by destruct (_finalize_run _ _) as [t' [[]|e]].
  - unfold bind, ret. case_bool_decide; by destruct (_finalize_run _ _) as [t' [[]|e]].
Qed.

Lemma finalize_attempt_lookup run st err due_at w t id :
  row_step id (OpFinalize run st err due_at w) (jobs t !! id)
    (jobs (finalize_attempt run st err due_at w t).1 !! id).
Proof.
  rewrite finalize_attempt_run. destruct (jobs t !! r_job_id run) as [row|] eqn:Hrow;
    [|apply rs_same].
  pose proof (preserves (f := jobs) (m := _finalize_run (normalize_persisted_run run))
                (transition_jobs run st err due_at w row t)) as Hp.
  destruct (_finalize_run _ _) as [t' [[]|e]]; [|apply rs_same]. simpl in *. rewrite Hp.
  unfold transition_jobs. destruct (owns_attempt w (r_attempt run) row) eqn:Ho;
    [|apply rs_same]. simpl. destruct (decide (id = r_job_id run)) as [->|Hne].
  - rewrite lookup_insert_eq, Hrow. by apply rs_finalize.
  - rewrite lookup_insert_ne by done. apply rs_same.
Qed.

Lemma bind_ret_state {S A} (m : M S A) s : (bind m (λ _, ret tt) s).1 = (m s).1.
Proof. unfold bind. by destruct (m s) as [s' [a|e]]. Qed.

(** Every operation is a legal step on every row. *)
Lemma step_row `{Sqlite} op t id :
  keyed t → row_step id op (jobs t !! id) (jobs (step op t) !! id).
Proof.
  intros Hkey. unfold step. destruct op as [job|w now until limit|k w until|k attempt w
    |run st err due_at w|k st err due_at|k|run|run]; simpl; rewrite ?bind_ret_state.
  - unfold save_job. rewrite zoom_jobs_lookup. unfold insert_row.
    destruct (jobs t !! j_id job) eqn:E; [apply rs_same|]. simpl.
    destruct (decide (id = j_id job)) as [->|Hne].
    + rewrite lookup_insert_eq, E. by apply rs_save.
    + rewrite lookup_insert_ne by done. apply rs_same.
  - destruct (claim_due_jobs_run w now until limit t Hkey) as (js & -> & Hjs). simpl.
    rewrite Hjs. destruct (jobs t !! id) as [j|] eqn:E; [|apply rs_same]. simpl.
    case_bool_decide as Hin; [|apply rs_same].
    apply list_elem_of_fmap in Hin as (j' & -> & Hj').
    apply claimable_rows_elem in Hj' as ([k Hk]%elem_of_rows & Hc & Hd).
    pose proof (Hkey _ _ Hk) as Heq. simpl in Heq. subst k. simplify_eq.
    by apply rs_claim.
  - unfold try_renew_job_lease. rewrite zoom_jobs_lookup, update_row_lookup.
    destruct (jobs t !! id) as [j|]; [|apply rs_same]. simpl.
    case_bool_decide as Hid; [subst k|apply rs_same].
    destruct (owns_active_lease w j) eqn:Ho; [by apply rs_renew|apply rs_same].
  - unfold try_mark_job_running. rewrite zoom_jobs_lookup, update_row_lookup.
    destruct (jobs t !! id) as [j|]; [|apply rs_same]. simpl.
    case_bool_decide as Hid; [subst k|apply rs_same]. simpl.
    repeat case_bool_decide; simpl; [by apply rs_start|apply rs_same..].
  - apply finalize_attempt_lookup.
  - unfold finish_job. rewrite bind_ret_state, zoom_jobs_lookup, update_row_lookup.
    destruct (jobs t !! id) as [j|]; [|apply rs_same]. simpl.
    case_bool_decide as Hid; [subst k; apply rs_finish|apply rs_same].
  - replace (try_cancel_job k t).1 with
      (zoom jobs_lens (update_row k (λ j, negb (is_terminal (j_status j))) cancelled_job) t).1
      by (unfold try_cancel_job, bind; by destruct (zoom _ _ t) as [? []]).
    rewrite zoom_jobs_lookup, update_row_lookup.
    destruct (jobs t !! id) as [j|]; [|apply rs_same]. simpl.
    case_bool_decide as Hid; [subst k|apply rs_same].
    destruct (is_terminal (j_status j)) eqn:Ht; [apply rs_same|by apply rs_cancel].
  - rewrite (preserves (f := jobs)). apply rs_same.
  - unfold save_run. rewrite bind_ret_state, (preserves (f := jobs)). apply rs_same.
Qed.

(** ** The invariant *)

Record job_ok (id : string) (j : JobRecord) : Prop := {
  jk_id : j_id j = id;
  jk_owner : is_Some (j_lease_owner j) ↔ is_active (j_status j) = true;
  jk_until : is_Some (j_leased_until j) ↔ is_active (j_status j) = true;
  jk_attempt : 0 ≤ j_attempt_count j;
  jk_running : j_status j = JRunning → 1 ≤ j_attempt_count j
}.

(** A stored run: its finish is not before its start, and a finished status has
    one. *)
Record run_ok (id : string) (r : RunRecord) : Prop := {
  rk_id : r_id r = id;
  rk_order : ∀ f, r_finished_at r = Some f → r_started_at r ≤ f;
  rk_finished : is_terminal_run (r_status r) = true → is_Some (r_finished_at r)
}.

Record tables_ok (t : JobTables) : Prop := {
  ok_jobs : map_Forall job_ok (jobs t);
  ok_runs : map_Forall run_ok (runs t)
}.

(** What the callers pass: a new job holds no lease; a status given to a finished
    job is not an active one; an attempt is a positive number; and a run is a
    [RunRecord], so its timestamps passed validation. *)
Definition op_ok (op : job_op) : Prop :=
  match op with
  | OpSave job => job_ok (j_id job) job
  | OpStart _ attempt _ => 1 ≤ attempt
  | OpFinalize run st _ _ _ => is_active st = false ∧ validate_timestamp_order run = Ok run
  | OpFinish _ st _ _ => is_active st = false
  | OpStartRun run | OpSaveRun run => validate_timestamp_order run = Ok run
  | _ => True
  end.

Lemma tables_ok_keyed t : tables_ok t → keyed t.
Proof. intros [Hj _] id j Hid. by apply Hj in Hid as [? _]. Qed.

Lemma job_ok_finished id st err due_at j :
  is_active st = false → job_ok id j → job_ok id (finished_job st err due_at j).
Proof.
  intros Hst [Hid Ho Hu Ha Hr]. split; simpl; [done| | |done|].
  - rewrite Hst. split; [by intros []|done].
  - rewrite Hst. split; [by intros []|done].
  - intros ->. discriminate Hst.
Qed.

Lemma row_step_ok id op o o' :
  op_ok op → row_step id op o o' →
  (∀ j, o = Some j → job_ok id j) → ∀ j, o' = Some j → job_ok id j.
Proof.
  intros Hop Hstep Hok j' Hj'. destruct Hstep; simplify_eq/=.
  - by apply Hok.
  - done.
  - destruct (Hok _ eq_refl) as [Hid Ho Hu Ha Hr]. by split; simpl.
  - destruct (Hok _ eq_refl) as [Hid Ho Hu Ha Hr]. split; simpl; auto.
    apply andb_true_iff in H as [H _]. rewrite H. split; [done|].
    unfold extended_until. destruct (j_leased_until j) as [u|]; [|eauto].
    destruct (u <? until); eauto.
  - destruct (Hok _ eq_refl) as [Hid Ho Hu Ha Hr]. rewrite H in Ho, Hu. simpl in Ho, Hu.
    split; simpl; [done..|lia|done].
  - destruct Hop. apply job_ok_finished; auto.
  - apply job_ok_finished; auto.
  - destruct (Hok _ eq_refl) as [Hid Ho Hu Ha Hr].
    split; simpl; [done|split; [by intros []|done]..|done|done].
Qed.

(** ** Lemmas: runs *)

(** Children kept under a run's id. *)
Lemma filter_key_of_others {A} (k : string) (l : list (string * A)) :
  filter (λ a, a.1 = k) (filter (λ a, a.1 ≠ k) l) = [].
Proof.
  rewrite list_filter_filter. induction l as [|a l IH]; [done|].
  rewrite filter_cons. by destruct (decide _) as [[]|].
Qed.
Lemma filter_key_of_own {A} (k : string) (l : list A) :
  filter (λ a : string * A, a.1 = k) (pair k <$> l) = (pair k <$> l).
Proof.
  induction l as [|a l IH]; [done|]. rewrite fmap_cons, filter_cons_True by done. by rewrite IH.
Qed.
Lemma filter_others_of_own {A} (k : string) (l : list A) :
  filter (λ a : string * A, a.1 ≠ k) (pair k <$> l) = [].
Proof.
  induction l as [|a l IH]; [done|].
  rewrite fmap_cons, filter_cons_False by (simpl; tauto). by rewrite IH.
Qed.
Lemma filter_others_twice {A} (k : string) (l : list (string * A)) :
  filter (λ a, a.1 ≠ k) (filter (λ a, a.1 ≠ k) l) = filter (λ a, a.1 ≠ k) l.
Proof. rewrite list_filter_filter. apply list_filter_iff. tauto. Qed.

Definition run_artifacts (run : RunRecord) : list (string * ArtifactRecord) :=
  match r_result run with Some res => pair (r_id run) <$> gr_artifacts res | None => [] end.
Definition run_handoffs (run : RunRecord) : list (string * HandoffRecord) :=
  match r_result run with Some res => pair (r_id run) <$> gr_handoff res | None => [] end.

Lemma run_children_own run :
  (filter (λ a, a.1 ≠ r_id run) (run_artifacts run) = [] ∧ filter (λ h, h.1 ≠ r_id run) (run_handoffs run) = [])
  ∧ filter (λ a, a.1 = r_id run) (run_artifacts run) = run_artifacts run
  ∧ filter (λ h, h.1 = r_id run) (run_handoffs run) = run_handoffs run.
Proof.
  unfold run_artifacts, run_handoffs. destruct (r_result run); by rewrite ?filter_others_of_own, ?filter_key_of_own.
Qed.

(** The tables with the run's row and children written. *)
Definition add_run (run : RunRecord) (t : JobTables) : JobTables :=
  mkJobTables (jobs t) (<[r_id run := _run_values run]> (runs t))
    (artifacts t ++ run_artifacts run) (handoffs t ++ run_handoffs run).
Definition drop_children (run_id : string) (t : JobTables) : JobTables :=
  mkJobTables (jobs t) (runs t) (filter (λ a, a.1 ≠ run_id) (artifacts t))
    (filter (λ h, h.1 ≠ run_id) (handoffs t)).

Lemma insert_run_run run t :
  _insert_run run t =
  match runs t !! r_id run with
  | None => (add_run run t, Ok tt)
  | Some _ => (t, Err (IntegrityError "UNIQUE constraint failed: runs.id"))
  end.
Proof.
  unfold _insert_run, bind. rewrite zoom_eq. simpl. unfold insert_row.
  destruct (runs t !! r_id run); simpl; [by destruct t|].
  unfold _insert_run_children, add_run, run_artifacts, run_handoffs, modify, ret.
  destruct (r_result run); simpl; [done|]. by rewrite !app_nil_r.
Qed.

(** The errors of [_finalize_run]. *)
Definition finalize_error (run : RunRecord) (t : JobTables) : option exn :=
  if negb (is_terminal_run (r_status run))
  then Some (ValueError ("cannot finalize Run " +:+ py_repr (r_id run) +:+ " with status "
                         +:+ py_repr (run_status_str (r_status run))))
  else match runs t !! r_id run with
       | None => None
       | Some row =>
           if negb (bool_decide (r_status row = RRunning))
           then Some (ValueError ("cannot finalize Run " +:+ py_repr (r_id run) +:+ " from status "
                                  +:+ py_repr (run_status_str (r_status row))))
           else if negb (bool_decide (lineage run = lineage row))
           then Some (ValueError ("cannot change Run " +:+ py_repr (r_id run)
                                  +:+ " lineage while finalizing: expected " +:+ repr_lineage row
                                  +:+ ", received " +:+ repr_lineage run))
           else None
       end.

Lemma finalize_run_run run t :
  _finalize_run run t =
  match finalize_error run t with
  | Some e => (t, Err e)
  | None => (add_run run (match runs t !! r_id run with
                          | Some _ => drop_children (r_id run) t | None => t end), Ok tt)
  end.
Proof.
  unfold _finalize_run, finalize_error, raise_if, bind, gets, raise, ret, modify.
  destruct (is_terminal_run (r_status run)); simpl; [|done].
  destruct (runs t !! r_id run) as [row|] eqn:Hrow; simpl; [|by rewrite insert_run_run, Hrow].
  case_bool_decide; simpl; [|done]. case_bool_decide; simpl; [|done].
  unfold _insert_run_children, add_run, drop_children, run_artifacts, run_handoffs, modify, ret.
  simpl. destruct (r_result run); simpl; [done|]. by rewrite !app_nil_r.
Qed.

#[export] Instance preserves_runs_jobs {A} (m : M (gmap string JobRecord) A) :
  Preserves runs (zoom jobs_lens m).
Proof. intros t. by rewrite zoom_eq. Qed.

Lemma foldM_claim_runs w now until acc l t :
  runs (foldM (claim_row w now until) acc l t).1 = runs t.
Proof.
  revert acc t. induction l as [|j l IH]; intros acc t; [done|]. simpl.
  assert (Preserves runs (claim_row w now until acc j)) as Hp
    by (unfold claim_row; solve_preserves).
  specialize (Hp t). unfold bind at 1. destruct (claim_row _ _ _ _ _ t) as [t1 [acc'|e]];
    simpl in *; [by rewrite IH|done].
Qed.

Lemma run_ok_values id r : run_ok id r → run_ok id (_run_values r).
Proof. by intros [Hid Ho Hf]; split. Qed.

Lemma run_ok_normalize run :
  validate_timestamp_order run = Ok run → run_ok (r_id run) (normalize_persisted_run run).
Proof.
  unfold validate_timestamp_order, normalize_persisted_run.
  destruct (r_finished_at run) as [f|] eqn:Hf.
  - destruct (Z.ltb_spec f (r_started_at run)) as [|Hle]; [done|]. intros _.
    rewrite bool_decide_eq_false_2 by done. rewrite andb_false_r.
    split; [done| |]; rewrite Hf; [by intros ? [= <-]|by eauto].
  - intros _. rewrite bool_decide_eq_true_2 by done. rewrite andb_true_r.
    destruct (is_terminal_run (r_status run)) eqn:Ht.
    + split; simpl; [done| |by eauto]. by intros ? [= <-].
    + split; [done|by rewrite Hf|by rewrite Ht].
Qed.

Lemma normalize_id run : r_id (normalize_persisted_run run) = r_id run.
Proof. unfold normalize_persisted_run. by destruct (_ && _). Qed.

Lemma add_run_ok run t :
  run_ok (r_id run) run → map_Forall run_ok (runs t) → map_Forall run_ok (runs (add_run run t)).
Proof. intros Hr Ht. simpl. apply map_Forall_insert_2; [by apply run_ok_values|done]. Qed.

(** The errors of [start_run] before it writes. *)
Definition start_error (run : RunRecord) : option exn :=
  if negb (bool_decide (r_status run = RRunning))
  then Some (ValueError "a started Run must have status='running'")
  else if opt_truthy (r_finished_at run)
  then Some (ValueError "a started Run cannot have finished_at")
  else if opt_truthy (r_result run) then Some (ValueError "a started Run cannot have a result")
  else if opt_truthy (r_error run) then Some (ValueError "a started Run cannot have an error")
  else None.

Lemma start_run_run run t :
  start_run run t =
  match start_error run with
  | Some e => (t, Err e)
  | None => match runs t !! r_id run with
            | None => (add_run run t, Ok run)
            | Some _ => (t, Err (IntegrityError "UNIQUE constraint failed: runs.id"))
            end
  end.
Proof.
  unfold start_run, start_error, raise_if, bind, raise, ret.
  destruct (negb _); [done|]. destruct (opt_truthy (r_finished_at run)); [done|].
  destruct (opt_truthy (r_result run)); [done|]. destruct (opt_truthy (r_error run)); [done|].
  unfold atomic. rewrite insert_run_run. by destruct (runs t !! r_id run).
Qed.

Lemma persist_run_run run t :
  let run' := normalize_persisted_run run in
  persist_run run t =
  match runs t !! r_id run with
  | None => (add_run run' t, Ok run')
  | Some _ => (t, Err (IntegrityError "UNIQUE constraint failed: runs.id"))
  end.
Proof.
  unfold persist_run, atomic, bind, ret. rewrite insert_run_run, normalize_id.
  by destruct (runs t !! r_id run).
Qed.

Lemma start_run_ok run t :
  validate_timestamp_order run = Ok run → map_Forall run_ok (runs t) →
  map_Forall run_ok (runs (start_run run t).1).
Proof.
  intros Hv Ht. rewrite start_run_run. destruct (start_error run) eqn:He; [done|].
  destruct (runs t !! r_id run); [done|]. apply add_run_ok; [|done].
  apply run_ok_normalize in Hv. unfold start_error in He.
  case_bool_decide as Hst; [|done]. simpl in He.
  unfold normalize_persisted_run in Hv. rewrite Hst in Hv. exact Hv.
Qed.

Lemma persist_run_ok run t :
  validate_timestamp_order run = Ok run → map_Forall run_ok (runs t) →
  map_Forall run_ok (runs (persist_run run t).1).
Proof.
  intros Hv Ht. rewrite persist_run_run. destruct (runs t !! r_id run); [done|].
  apply add_run_ok; [|done]. rewrite normalize_id. by apply run_ok_normalize.
Qed.

Lemma finalize_attempt_ok run st err due_at w t :
  validate_timestamp_order run = Ok run → map_Forall run_ok (runs t) →
  map_Forall run_ok (runs (finalize_attempt run st err due_at w t).1).
Proof.
  intros Hv Ht. rewrite finalize_attempt_run. destruct (jobs t !! r_job_id run) as [row|]; [|done].
  rewrite finalize_run_run. destruct (finalize_error _ _); [done|].
  assert (runs (transition_jobs run st err due_at w row t) = runs t) as Hruns
    by (unfold transition_jobs; by destruct (owns_attempt _ _ _)).
  apply add_run_ok; [rewrite normalize_id; by apply run_ok_normalize|].
  destruct (runs (transition_jobs run st err due_at w row t) !! _); simpl; by rewrite Hruns.
Qed.

Lemma step_ok `{Sqlite} op t : op_ok op → tables_ok t → tables_ok (step op t).
Proof.
  intros Hop Ht. pose proof (tables_ok_keyed t Ht) as Hkey. destruct Ht as [Hj Hr]. split.
  - intros id j Hid. pose proof (step_row op t id Hkey) as Hstep.
    eapply row_step_ok; [exact Hop|exact Hstep| |exact Hid]. intros j' Hj'. by apply Hj in Hj'.
  - unfold step. destruct op; simpl in *; rewrite ?bind_ret_state.
    + unfold save_job. by rewrite (preserves (f := runs)).
    + destruct (claim_due_jobs_run worker_id now lease_until limit t Hkey) as (js & -> & _).
      exact Hr.
    + unfold try_renew_job_lease. by rewrite (preserves (f := runs)).
    + unfold try_mark_job_running. by rewrite (preserves (f := runs)).
    + destruct Hop. by apply finalize_attempt_ok.
    + unfold finish_job. rewrite bind_ret_state. by rewrite (preserves (f := runs)).
    + assert (Preserves runs (try_cancel_job job_id)) as Hp
        by (unfold try_cancel_job; solve_preserves). by rewrite Hp.
    + by apply start_run_ok.
    + unfold save_run. rewrite bind_ret_state. by apply persist_run_ok.
Qed.

Lemma steps_ok `{Sqlite} ops t : Forall op_ok ops → tables_ok t → tables_ok (steps ops t).
Proof.
  intros Hops. revert t. induction Hops as [|op ops Hop Hops IH]; intros t Ht; [done|].
  apply IH. by apply step_ok.
Qed.

#[export] Hint Resolve step_ok steps_ok tables_ok_keyed : store.

(** ** Lemmas: leases, transitions and ordering *)

(** The operations that check who owns the job; [finish_job] does not. *)
Definition guarded (op : job_op) : bool :=
  match op with OpFinish _ _ _ _ => false | _ => true end.

(** Everything of a job but the columns the store updates. *)
Definition same_job (j j' : JobRecord) : Prop :=
  j' = set_job (j_status j') (j_due_at j') (j_lease_owner j') (j_leased_until j')
         (j_attempt_count j') (j_last_error j') j.

Lemma same_job_refl j : same_job j j.
Proof. by destruct j. Qed.
Lemma same_job_trans j1 j2 j3 : same_job j1 j2 → same_job j2 j3 → same_job j1 j3.
Proof. unfold same_job. intros H1 H2. rewrite H2. rewrite H1. by destruct j1. Qed.
#[export] Hint Resolve same_job_refl : store.

Lemma row_step_history id op o j o' :
  row_step id op o o' → o = Some j → guarded op = true →
  ∃ j', o' = Some j' ∧ same_job j j' ∧ (is_terminal (j_status j) = true → j' = j).
Proof.
  intros Hstep Hj Hg. destruct Hstep as [op o|job|w now until limit k Hc Hd|w until k Ho
    |attempt w k Hl Hw|run st err due_at w k Hid Ho|st err due_at k|k Ht]; simplify_eq/=.
  - exists j. auto with store.
  - exists (lease_job w until j). split_and!; [done..|]. intros Ht.
    unfold claimable_status in Hc. by destruct (j_status j).
  - eexists. split_and!; [done..|]. intros Ht.
    apply andb_true_iff in Ho as [Ho _]. by destruct (j_status j).
  - eexists. split_and!; [done..|]. by rewrite Hl.
  - eexists. split_and!; [done..|]. intros Ht. unfold owns_attempt in Ho.
    apply andb_true_iff in Ho as [_ Ho]. by destruct (j_status j).
  - eexists. split_and!; [done..|]. by rewrite Ht.
Qed.

(** Held by [w] at least until [u], or cancelled. *)
Definition held_or_cancelled (w : string) (u : utc) (j : JobRecord) : Prop :=
  (is_active (j_status j) = true ∧ j_lease_owner j = Some w
   ∧ ∃ u', j_leased_until j = Some u' ∧ u ≤ u')
  ∨ j_status j = JCancelled.

(** An operation of somebody else while [w]'s lease until [u] has not expired:
    any claim is made before [u], and only [w] finalizes as [w]. *)
Definition before_expiry (w : string) (u : utc) (op : job_op) : Prop :=
  match op with
  | OpClaim _ now _ _ => now < u
  | OpFinalize _ _ _ _ w' => w' ≠ w
  | OpFinish _ _ _ _ => False
  | _ => True
  end.

Lemma row_step_held id op o j o' w u :
  row_step id op o o' → o = Some j → before_expiry w u op → held_or_cancelled w u j →
  ∃ j', o' = Some j' ∧ held_or_cancelled w u j'.
Proof.
  intros Hstep Hj Hop Hheld. destruct Hstep as [op o|job|w' now until limit k Hc Hd|w' until k Ho
    |attempt w' k Hl Hw|run st err due_at w' k Hid Ho|st err due_at k|k Ht]; simplify_eq/=.
  - eauto.
  - exfalso. unfold claimable_status in Hc.
    destruct Hheld as [(Ha & _ & u' & Hu & Hle)|Hcan]; [|by rewrite Hcan in Hc].
    rewrite Hu in Hc. destruct (j_status j); try done; apply Z.leb_le in Hc; lia.
  - eexists. split; [done|]. destruct Hheld as [(Ha & Hown & u' & Hu & Hle)|Hcan]; [left|by right].
    split_and!; [done..|]. simpl. unfold extended_until. rewrite Hu.
    destruct (Z.ltb_spec u' until); eexists; (split; [done|lia]).
  - eexists. split; [done|]. destruct Hheld as [(Ha & Hown & u' & Hu & Hle)|Hcan];
      [left; simpl; eauto|congruence].
  - exfalso. unfold owns_attempt in Ho. apply andb_true_iff in Ho as [Ho%bool_decide_eq_true Hst].
    destruct Hheld as [(_ & Hown & _)|Hcan]; [congruence|]. by rewrite Hcan in Hst.
  - done.
  - eexists. split; [done|]. by right.
Qed.

(** The operations a worker issues under its own name. *)
Definition issued_by (w : string) (op : job_op) : Prop :=
  match op with
  | OpRenew _ w' _ | OpStart _ _ w' | OpFinalize _ _ _ _ w' => w' = w
  | OpStartRun _ | OpSaveRun _ => True
  | _ => False
  end.

Lemma row_step_fenced id op o j o' w :
  row_step id op o o' → o = Some j → issued_by w op → j_lease_owner j ≠ Some w → o' = o.
Proof.
  intros Hstep Hj Hop Hne. destruct Hstep as [op o|job|w' now until limit k Hc Hd|w' until k Ho
    |attempt w' k Hl Hw|run st err due_at w' k Hid Ho|st err due_at k|k Ht]; simplify_eq/=;
    try done.
  - apply andb_true_iff in Ho as [_ Ho%bool_decide_eq_true]. congruence.
  - unfold owns_attempt in Ho. apply andb_true_iff in Ho as [Ho%bool_decide_eq_true _]. congruence.
Qed.

(** Carry a fact about one row along a sequence of steps. *)
Lemma steps_row `{Sqlite} (P : JobRecord → Prop) (Q : job_op → Prop) id ops t j :
  (∀ op o j o', row_step id op o o' → o = Some j → Q op → P j → ∃ j', o' = Some j' ∧ P j') →
  tables_ok t → Forall op_ok ops → Forall Q ops → jobs t !! id = Some j → P j →
  ∃ j', jobs (steps ops t) !! id = Some j' ∧ P j'.
Proof.
  intros Hstep Ht Hok HQ. revert t j Ht. induction ops as [|op ops IH]; intros t j Ht Hj HP;
    [by exists j|].
  apply Forall_cons in Hok as [Hop Hok], HQ as [HQop HQ].
  destruct (Hstep op _ j _ (step_row op t id (tables_ok_keyed t Ht)) Hj HQop HP) as (j' & Hj' & HP').
  apply (IH Hok HQ (step op t) j'); auto with store.
Qed.

(** The order jobs are claimed in: higher priority first, then older first. *)
Definition claim_before (x y : JobRecord) : Prop :=
  j_priority y < j_priority x
  ∨ (j_priority x = j_priority y ∧ j_created_at x ≤ j_created_at y).

Lemma le_then_claim_before x y :
  le_then (le_desc j_priority) (le_asc j_created_at) x y = true → claim_before x y.
Proof.
  unfold le_then, le_desc, le_asc, claim_before.
  destruct (Z.leb_spec (j_priority y) (j_priority x)), (Z.leb_spec (j_priority x) (j_priority y));
    try done; rewrite ?Z.leb_le; lia.
Qed.

Lemma sql_limit_complete {A} (R : A → A → Prop) limit l x :
  StronglySorted R l → x ∈ l →
  x ∈ sql_limit limit l ∨
  (Z.of_nat (length (sql_limit limit l)) = limit ∧ ∀ y, y ∈ sql_limit limit l → R y x).
Proof.
  intros Hs Hx. unfold sql_limit. destruct (Z.ltb_spec limit 0); [by left|].
  rewrite <- (take_drop (Z.to_nat limit) l) in Hx.
  apply elem_of_app in Hx as [Hx|Hx]; [by left|right].
  assert (Z.to_nat limit < length l)%nat.
  { destruct (decide (Z.to_nat limit < length l)%nat); [done|].
    rewrite drop_ge in Hx by lia. by apply not_elem_of_nil in Hx. }
  split; [rewrite length_take; lia|]. intros y Hy.
  rewrite <- (take_drop (Z.to_nat limit) l) in Hs. by eapply StronglySorted_app_1_elem_of.
Qed.

Lemma claimable_rows_sorted `{Sqlite} now limit t :
  StronglySorted claim_before (claimable_rows now limit t).
Proof.
  assert (StronglySorted claim_before
    (order_by (le_then (le_desc j_priority) (le_asc j_created_at))
       (filter (λ j, claimable_status now j && due now j = true) (rows (jobs t))))) as Hs.
  { eapply StronglySorted_weaken; [|apply order_by_sorted].
    - intros x y _ _. apply le_then_claim_before.
    - intros x y. apply le_then_total; unfold le_desc, le_asc; lia.
    - apply le_then_trans; unfold le_desc, le_asc; lia. }
  unfold claimable_rows, sql_limit. destruct (limit <? 0); [done|].
  by apply StronglySorted_take.
Qed.

Lemma claimable_rows_complete `{Sqlite} now limit t j :
  j ∈ rows (jobs t) → claimable_status now j = true → due now j = true →
  j ∈ claimable_rows now limit t ∨
  (Z.of_nat (length (claimable_rows now limit t)) = limit
   ∧ ∀ p, p ∈ claimable_rows now limit t → claim_before p j).
Proof.
  intros Hj Hc Hd. apply sql_limit_complete.
  - eapply StronglySorted_weaken; [|apply order_by_sorted].
    + intros x y _ _. apply le_then_claim_before.
    + intros x y. apply le_then_total; unfold le_desc, le_asc; lia.
    + apply le_then_trans; unfold le_desc, le_asc; lia.
  - apply order_by_elem, list_elem_of_filter. by rewrite Hc, Hd.
Qed.

(** ** Properties *)

(** C8: the tables stay well formed under the operations the program calls, in any order, by
    any worker and with any of them refused, as long as what is passed is what its callers pass
    ([op_ok]: a new job is well formed and unleased, a finished job gets a status that is not
    active, attempts count from one, a run's timestamps are those of a validated
    [RunRecord]): a job is under its own id, holds a lease owner and a lease
    deadline exactly while it is leased or running, counts its attempts from
    zero; a stored run never finishes before it started and has a finish as soon
    as its status is final. *)
Theorem job_tables_invariant `{Sqlite} (ops : list job_op) :
  Forall op_ok ops → tables_ok (steps ops empty_job_tables).
Proof.
  intros Hops. apply steps_ok; [done|]. split; intros ? ? Hl; simpl in Hl;
    by rewrite lookup_empty in Hl.
Qed.

(** C10: no sequence of the ownership-checked operations loses a job or rewrites
    what was submitted: only its status, due time, lease, attempt count and last
    error can differ; and a job in a terminal status never changes again. *)
Theorem job_history `{Sqlite} (ops : list job_op) (t : JobTables) (id : string) (j : JobRecord) :
  tables_ok t → Forall op_ok ops → Forall (λ op, guarded op = true) ops →
  jobs t !! id = Some j →
  ∃ j', jobs (steps ops t) !! id = Some j' ∧ same_job j j'
    ∧ (is_terminal (j_status j) = true → j' = j).
Proof.
  intros Ht Hok Hg Hj.
  apply (steps_row (λ j', same_job j j' ∧ (is_terminal (j_status j) = true → j' = j))
           (λ op, guarded op = true) id ops t j); auto with store.
  intros op o k o' Hstep Hk Hgop [Hs Ht1].
  destruct (row_step_history _ _ _ _ _ Hstep Hk Hgop) as (k' & Hk' & Hs' & Ht').
  exists k'. split; [done|]. split; [by eapply same_job_trans|].
  intros Hterm. rewrite (Ht1 Hterm) in Ht'. auto.
Qed.

(** C5: leases exclude.  Once a worker has claimed a job, and until its lease
    runs out or it finalizes the attempt itself, every interleaving of other
    schedulers' claims, renewals, starts and finalizations and of cancellations
    leaves the job either held by that worker with at least that deadline, or
    cancelled; nobody else can start it. *)
Theorem lease_exclusive `{Sqlite} (w : string) (now until : utc) (limit : Z)
    (t t1 : JobTables) (claimed : list JobRecord) (j : JobRecord) (ops : list job_op) :
  tables_ok t → claim_due_jobs w now until limit t = (t1, Ok claimed) → j ∈ claimed →
  Forall op_ok ops → Forall (before_expiry w until) ops →
  ∃ j', jobs (steps ops t1) !! j_id j = Some j' ∧ held_or_cancelled w until j'
    ∧ ∀ w' attempt, w' ≠ w →
        (try_mark_job_running (j_id j) attempt w' (steps ops t1)) = (steps ops t1, Ok false).
Proof.
  intros Ht Hclaim Hj Hok Hops.
  assert (tables_ok t1) as Ht1.
  { replace t1 with (step (OpClaim w now until limit) t); [by apply step_ok|].
    unfold step. simpl. by rewrite bind_ret_state, Hclaim. }
  destruct (claim_due_jobs_run w now until limit t (tables_ok_keyed t Ht)) as (js & Hrun & Hjs).
  rewrite Hrun in Hclaim. injection Hclaim as <- <-.
  apply list_elem_of_fmap in Hj as (row & -> & Hrow). simpl in *.
  pose proof (claimable_rows_elem _ _ _ _ Hrow) as ([k Hk]%elem_of_rows & _).
  pose proof (tables_ok_keyed t Ht _ _ Hk) as Hid. simpl in Hid. subst k.
  assert (js !! j_id row = Some (lease_job w until row)) as Hlk.
  { rewrite Hjs, Hk. simpl. rewrite bool_decide_eq_true_2; [done|].
    by apply list_elem_of_fmap_2. }
  destruct (steps_row (held_or_cancelled w until) (before_expiry w until) (j_id row) ops
    (mkJobTables js (runs t) (artifacts t) (handoffs t)) (lease_job w until row))
    as (j' & Hj' & Hheld); try done.
  - intros. by eapply row_step_held.
  - left. simpl. split_and!; [done..|]. exists until. split; [done|lia].
  - exists j'. split_and!; [done..|]. intros w' attempt Hne.
    unfold try_mark_job_running. rewrite zoom_eq. simpl. unfold update_row. rewrite Hj'.
    destruct Hheld as [(_ & Hown & _)|Hcan].
    + rewrite Hown, (bool_decide_eq_false_2 (Some w = Some w')) by congruence.
      rewrite andb_false_r. simpl. by destruct (steps ops _).
    + rewrite Hcan. simpl. by destruct (steps ops _).
Qed.

(** C6: a worker that lost its lease is harmless.  If the row of a job is no
    longer owned by [w], nothing [w] sends under its own name (renewals, starts,
    finalizations of any attempt, run records) changes that row, and any
    finalization it gets through reports that it owned nothing. *)
Theorem stale_worker_fenced `{Sqlite} (w : string) (ops : list job_op) (t : JobTables)
    (id : string) (j : JobRecord) :
  tables_ok t → Forall op_ok ops → Forall (issued_by w) ops →
  jobs t !! id = Some j → j_lease_owner j ≠ Some w →
  jobs (steps ops t) !! id = Some j
  ∧ ∀ run st err due_at t' f, r_job_id run = id →
      finalize_attempt run st err due_at w (steps ops t) = (t', Ok f) → af_outcome f ≠ Finalized.
Proof.
  intros Ht Hok Hops Hj Hne.
  destruct (steps_row (λ k, k = j) (issued_by w) id ops t j) as (j' & Hj' & ->); try done.
  { intros op o k o' Hstep Hk Hop ->. exists j. split; [|done].
    by rewrite (row_step_fenced _ _ _ _ _ _ Hstep Hk Hop Hne). }
  split; [done|]. intros run st err due_at t' f Hid Hrun.
  rewrite finalize_attempt_run, Hid, Hj' in Hrun.
  destruct (_finalize_run _ _) as [t2 [[]|e]]; [|done]. injection Hrun as _ <-. simpl.
  unfold attempt_outcome, owns_attempt.
  rewrite (bool_decide_eq_false_2 (j_lease_owner j = Some w)) by done. simpl.
  by case_bool_decide.
Qed.

(** What a claim takes.  It always succeeds and leases exactly the rows it
    returns to the caller: due and claimable ones (queued, retrying, or active
    with an expired lease), in claiming order, no job twice, no more than the
    limit; and a claimable due job that was passed over means that the limit was
    reached with jobs that come before it.  No other row changes. *)
Theorem claim_due_jobs_spec `{Sqlite} (w : string) (now until : utc) (limit : Z) (t : JobTables) :
  tables_ok t →
  ∃ js picked,
    claim_due_jobs w now until limit t
      = (mkJobTables js (runs t) (artifacts t) (handoffs t),
         Ok (_row_to_job ∘ lease_job w until <$> picked))
    ∧ NoDup (j_id <$> picked) ∧ StronglySorted claim_before picked
    ∧ (0 ≤ limit → Z.of_nat (length picked) ≤ limit)
    ∧ (∀ j, j ∈ picked →
         jobs t !! j_id j = Some j ∧ claimable_status now j = true ∧ due now j = true)
    ∧ (∀ j, j ∈ rows (jobs t) → claimable_status now j = true → due now j = true →
         j ∈ picked ∨ (Z.of_nat (length picked) = limit ∧ ∀ p, p ∈ picked → claim_before p j))
    ∧ ∀ id, js !! id =
        (λ j, if bool_decide (id ∈ j_id <$> picked) then lease_job w until j else j)
          <$> jobs t !! id.
Proof.
  intros Ht. pose proof (tables_ok_keyed t Ht) as Hkey.
  destruct (claim_due_jobs_run w now until limit t Hkey) as (js & Hrun & Hjs).
  exists js, (claimable_rows now limit t). split_and!.
  - exact Hrun.
  - by apply claimable_rows_NoDup.
  - apply claimable_rows_sorted.
  - intros Hl. unfold claimable_rows, sql_limit. destruct (Z.ltb_spec limit 0); [lia|].
    rewrite length_take. lia.
  - intros j Hj. apply claimable_rows_elem in Hj as ([k Hk]%elem_of_rows & Hc & Hd).
    pose proof (Hkey _ _ Hk) as Hid. simpl in Hid. by subst k.
  - intros j Hj Hc Hd. by apply claimable_rows_complete.
  - exact Hjs.
Qed.

(** C9: what finalizing an attempt does.  It needs the job to exist and the run
    to be new or the running projection with the same lineage; otherwise it
    raises and nothing changes.  When it goes through, the job row is finished
    exactly if the caller still owned this very attempt, and is untouched
    otherwise; the run row holds the run.  Of a run that was projected before, the artifacts
    and handoffs become exactly those of its result; those of a new run are added after what
    is stored under its id; no other run's artifacts and handoffs change. *)
Theorem finalize_attempt_spec (run : RunRecord) (st : JobStatus) (err : option string)
    (due_at : option utc) (w : string) (t : JobTables) :
  match finalize_attempt run st err due_at w t with
  | (t', Err _) =>
      t' = t ∧ (jobs t !! r_job_id run = None
                ∨ is_Some (finalize_error (normalize_persisted_run run) t))
  | (t', Ok f) =>
      let run' := normalize_persisted_run run in
      ∃ row, jobs t !! r_job_id run = Some row
        ∧ finalize_error run' t = None
        ∧ f = mkFinalization run' (attempt_outcome w (r_attempt run) row)
        ∧ jobs t' = (if owns_attempt w (r_attempt run) row
                     then <[r_job_id run := finished_job st err due_at row]> (jobs t) else jobs t)
        ∧ runs t' = <[r_id run := _run_values run']> (runs t)
        ∧ (let kept {A} (l : list (string * A)) :=
               match runs t !! r_id run with Some _ => [] | None => filter (λ a, a.1 = r_id run) l end in
           filter (λ a, a.1 = r_id run) (artifacts t') = kept (artifacts t) ++ run_artifacts run'
           ∧ filter (λ h, h.1 = r_id run) (handoffs t') = kept (handoffs t) ++ run_handoffs run')
        ∧ filter (λ a, a.1 ≠ r_id run) (artifacts t') = filter (λ a, a.1 ≠ r_id run) (artifacts t)
        ∧ filter (λ h, h.1 ≠ r_id run) (handoffs t') = filter (λ h, h.1 ≠ r_id run) (handoffs t)
  end.
Proof.
  rewrite finalize_attempt_run.
  destruct (jobs t !! r_job_id run) as [row|] eqn:Hrow; [|split; [done|by left]].
  set (run' := normalize_persisted_run run).
  assert (runs (transition_jobs run st err due_at w row t) = runs t) as Hruns
    by (unfold transition_jobs; by destruct (owns_attempt _ _ _)).
  assert (finalize_error run' (transition_jobs run st err due_at w row t) = finalize_error run' t)
    as Herr by (unfold finalize_error; by rewrite Hruns).
  assert (r_id run' = r_id run) as Hid by apply normalize_id.
  rewrite finalize_run_run, Herr.
  destruct (finalize_error run' t) as [e|] eqn:He; [split; [done|right; eauto]|].
  exists row. rewrite Hruns, Hid.
  assert (artifacts (transition_jobs run st err due_at w row t) = artifacts t
          ∧ handoffs (transition_jobs run st err due_at w row t) = handoffs t) as [Ha Hh]
    by (unfold transition_jobs; by destruct (owns_attempt _ _ _)).
  destruct (run_children_own run') as ([Hnone Hnone'] & Hown & Hown'). rewrite Hid in Hnone, Hnone', Hown, Hown'.
  split_and!; try done.
  - unfold transition_jobs. by destruct (owns_attempt _ _ _), (runs t !! r_id run).
  - simpl. rewrite Hid. destruct (runs t !! r_id run); simpl; by rewrite Hruns.
  - destruct (runs t !! r_id run) as [old|]; simpl;
      by rewrite Ha, Hh, !filter_app, ?Hid, ?filter_key_of_others, Hown, Hown'.
  - destruct (runs t !! r_id run); simpl; by rewrite Ha, filter_app, ?Hid, ?filter_others_twice, Hnone, app_nil_r.
  - destruct (runs t !! r_id run); simpl; by rewrite Hh, filter_app, ?Hid, ?filter_others_twice, Hnone', app_nil_r.
Qed.

Lemma start_run_lookup run t id r :
  runs t !! id = Some r → runs (start_run run t).1 !! id = Some r.
Proof.
  intros Hr. rewrite start_run_run. destruct (start_error run); [done|].
  destruct (runs t !! r_id run) eqn:Hnew; [done|]. simpl.
  rewrite lookup_insert_ne; [done|]. congruence.
Qed.

Lemma persist_run_lookup run t id r :
  runs t !! id = Some r → runs (persist_run run t).1 !! id = Some r.
Proof.
  intros Hr. rewrite persist_run_run. destruct (runs t !! r_id run) eqn:Hnew; [done|]. simpl.
  rewrite lookup_insert_ne; [done|]. rewrite normalize_id. congruence.
Qed.

Lemma finalize_attempt_keeps_finished run st err due_at w t id r :
  runs t !! id = Some r → is_terminal_run (r_status r) = true →
  runs (finalize_attempt run st err due_at w t).1 !! id = Some r.
Proof.
  intros Hr Hterm. rewrite finalize_attempt_run.
  destruct (jobs t !! r_job_id run) as [row|]; [|done].
  assert (runs (transition_jobs run st err due_at w row t) = runs t) as Hruns
    by (unfold transition_jobs; by destruct (owns_attempt _ _ _)).
  rewrite finalize_run_run. unfold finalize_error.
  destruct (is_terminal_run (r_status (normalize_persisted_run run))); simpl; [|done].
  rewrite Hruns, normalize_id. destruct (decide (r_id run = id)) as [<-|Hne].
  - rewrite Hr. rewrite bool_decide_eq_false_2 by (intros E; by rewrite E in Hterm). done.
  - destruct (runs t !! r_id run) as [old|]; repeat case_bool_decide; simpl; try done;
      rewrite normalize_id, lookup_insert_ne by done; by rewrite Hruns.
Qed.

Lemma step_keeps_finished `{Sqlite} op t id r :
  keyed t → runs t !! id = Some r → is_terminal_run (r_status r) = true →
  runs (step op t) !! id = Some r.
Proof.
  intros Hkey Hr Hterm. unfold step. destruct op; simpl; rewrite ?bind_ret_state.
  - unfold save_job. by rewrite (preserves (f := runs)).
  - by destruct (claim_due_jobs_run worker_id now lease_until limit t Hkey) as (js & -> & _).
  - unfold try_renew_job_lease. by rewrite (preserves (f := runs)).
  - unfold try_mark_job_running. by rewrite (preserves (f := runs)).
  - by apply finalize_attempt_keeps_finished.
  - unfold finish_job. rewrite bind_ret_state. by rewrite (preserves (f := runs)).
  - assert (Preserves runs (try_cancel_job job_id)) as Hp
      by (unfold try_cancel_job; solve_preserves). by rewrite Hp.
  - by apply start_run_lookup.
  - unfold save_run. rewrite bind_ret_state. by apply persist_run_lookup.
Qed.

(** A run is finished once.  Whatever operations follow, a run row in a
    final status is never rewritten or dropped, and an attempt to finalize it
    again raises and leaves the tables as they are, the job row included. *)
Theorem finished_run_immutable `{Sqlite} (ops : list job_op) (t : JobTables) (id : string)
    (r : RunRecord) :
  tables_ok t → Forall op_ok ops →
  runs t !! id = Some r → is_terminal_run (r_status r) = true →
  runs (steps ops t) !! id = Some r
  ∧ ∀ run st err due_at w, r_id run = id →
      ∃ e, finalize_attempt run st err due_at w (steps ops t) = (steps ops t, Err e).
Proof.
  intros Ht Hok Hr Hterm.
  assert (runs (steps ops t) !! id = Some r) as Hfinal.
  { revert t Ht Hr. induction ops as [|op ops IH]; intros t Ht Hr; [done|].
    apply Forall_cons in Hok as [Hop Hok]. apply (IH Hok); [by apply step_ok|].
    apply step_keeps_finished; auto with store. }
  split; [done|]. intros run st err due_at w Hid.
  pose proof (finalize_attempt_run run st err due_at w (steps ops t)) as Hrun.
  destruct (jobs (steps ops t) !! r_job_id run) as [row|]; [|by eexists].
  rewrite finalize_run_run in Hrun.
  assert (runs (transition_jobs run st err due_at w row (steps ops t)) = runs (steps ops t)) as E
    by (unfold transition_jobs; by destruct (owns_attempt _ _ _)).
  unfold finalize_error in Hrun. rewrite E, normalize_id, Hid, Hfinal in Hrun.
  destruct (is_terminal_run (r_status (normalize_persisted_run run))); simpl in Hrun;
    [|by eexists].
  rewrite bool_decide_eq_false_2 in Hrun by (intros E'; by rewrite E' in Hterm).
  simpl in Hrun. eexists. exact Hrun.
Qed.

(** ** Runs on concrete inputs *)

Definition sample_job (id : string) (priority created : Z) : JobRecord :=
  mkJob id "report" ∅ created "cli" None (Some "p1") None ∅ JQueued priority None (Some created)
    None None 0 1 (Some 60) None.
Definition sample_run (id job_id : string) (attempt : Z) (st : RunStatus) (started : utc)
    (finished : option utc) (res : option GoblinResult) : RunRecord :=
  mkRun id job_id "report" (Some "p1") attempt st started finished res None (Some 60) 1 None None.

(** Two queued jobs; worker [w1] claims one, starts it and opens its run. *)
Definition sample_ops : list job_op :=
  [ OpSave (sample_job "low" 10 1); OpSave (sample_job "high" 200 2);
    OpClaim "w1" 5 65 1; OpStart "high" 1 "w1";
    OpStartRun (sample_run "r1" "high" 1 RRunning 6 None None) ].

Lemma sample_job_ok id priority created : job_ok id (sample_job id priority created).
Proof. split; simpl; try done; (split; [by intros []|done]). Qed.

Lemma sample_ops_ok : Forall op_ok sample_ops.
Proof. repeat constructor; simpl; try done; apply sample_job_ok. Qed.

Definition sample_tables `{Sqlite} : JobTables := steps sample_ops empty_job_tables.

Lemma empty_tables_ok : tables_ok empty_job_tables.
Proof. split; intros ? ? Hl; simpl in Hl; by rewrite lookup_empty in Hl. Qed.
Lemma sample_tables_ok : tables_ok (@sample_tables sqlite_merge).
Proof. apply steps_ok; [apply sample_ops_ok|apply empty_tables_ok]. Qed.

(** Two queued jobs *)
Definition queued_tables : JobTables :=
  @steps sqlite_merge [OpSave (sample_job "low" 10 1); OpSave (sample_job "high" 200 2)]
    empty_job_tables.
Lemma queued_tables_ok : tables_ok queued_tables.
Proof.
  apply steps_ok; [|apply empty_tables_ok].
  repeat constructor; simpl; try done; apply sample_job_ok.
Qed.

(** [mark_job_running], which nothing calls, asks for no lease: it is not among the operations
    of [job_op], and it would break what they keep. *)
Example unguarded_start_breaks : ¬ tables_ok (mark_job_running "high" 1 queued_tables).1.
Proof.
  intros [Hj _]. assert (jobs (mark_job_running "high" 1 queued_tables).1 !! "high"
    = Some (run_job 1 (sample_job "high" 200 2))) as Hrow by (vm_compute; reflexivity).
  apply Hj in Hrow as [_ Ho _ _ _]. destruct (proj2 Ho eq_refl) as [w Hw]. discriminate Hw.
Qed.

Lemma job_tables_invariant_witness : tables_ok (@steps sqlite_merge sample_ops empty_job_tables).
Proof. apply (@job_tables_invariant sqlite_merge sample_ops sample_ops_ok). Defined.

Lemma job_history_witness :
  ∃ j', jobs (@steps sqlite_merge sample_ops queued_tables) !! "high" = Some j'
    ∧ same_job (sample_job "high" 200 2) j'
    ∧ (is_terminal (j_status (sample_job "high" 200 2)) = true → j' = sample_job "high" 200 2).
Proof.
  apply (@job_history sqlite_merge sample_ops queued_tables "high" (sample_job "high" 200 2)).
  - apply queued_tables_ok.
  - apply sample_ops_ok.
  - repeat constructor.
  - vm_compute. reflexivity.
Defined.

(** While [w1] holds the job: [w2] claims too early, then the job is cancelled. *)
Definition rival_ops : list job_op := [ OpClaim "w2" 60 120 10; OpCancel "high" ].

Lemma lease_exclusive_witness :
  ∃ t1 claimed j,
    @claim_due_jobs sqlite_merge "w1" 5 65 1 queued_tables = (t1, Ok claimed) ∧ j ∈ claimed
    ∧ ∃ j', jobs (@steps sqlite_merge rival_ops t1) !! j_id j = Some j'
        ∧ held_or_cancelled "w1" 65 j'.
Proof.
  set (res := @claim_due_jobs sqlite_merge "w1" 5 65 1 queued_tables).
  set (job := _row_to_job (lease_job "w1" 65 (sample_job "high" 200 2))).
  assert (res = (res.1, Ok [job])) as Hres by (vm_compute; reflexivity).
  exists res.1, [job], job. split; [exact Hres|]. split; [left|].
  destruct (@lease_exclusive sqlite_merge "w1" 5 65 1 queued_tables res.1 [job] job rival_ops)
    as (j' & Hj' & Hheld & _).
  - apply queued_tables_ok.
  - exact Hres.
  - left.
  - repeat constructor.
  - repeat constructor; simpl; lia.
  - exists j'. split; assumption.
Defined.

(** The lease of [w1] expired and [w2] took over. *)
Definition taken_over : JobTables := @step sqlite_merge (OpClaim "w2" 70 130 1) (@sample_tables sqlite_merge).
Lemma taken_over_ok : tables_ok taken_over.
Proof. apply step_ok; [done|apply sample_tables_ok]. Qed.
Definition late_run : RunRecord :=
  sample_run "r1" "high" 1 RCompleted 6 (Some 80) (Some (GoblinResult_ok ∅ [] ∅ [])).

Lemma stale_worker_fenced_witness :
  jobs (@steps sqlite_merge [OpRenew "high" "w1" 500; OpFinalize late_run JCompleted None None "w1"]
          taken_over) !! "high" = jobs taken_over !! "high".
Proof.
  set (row := lease_job "w2" 130 (run_job 1 (lease_job "w1" 65 (sample_job "high" 200 2)))).
  assert (jobs taken_over !! "high" = Some row) as Hrow by (vm_compute; reflexivity).
  rewrite Hrow.
  apply (@stale_worker_fenced sqlite_merge "w1"
           [OpRenew "high" "w1" 500; OpFinalize late_run JCompleted None None "w1"]
           taken_over "high" row).
  - apply taken_over_ok.
  - repeat constructor.
  - repeat constructor.
  - exact Hrow.
  - discriminate.
Defined.

Lemma claim_due_jobs_spec_witness :
  (∃ js picked,
    @claim_due_jobs sqlite_merge "w1" 5 65 1 queued_tables
      = (mkJobTables js (runs queued_tables) [] [], Ok (_row_to_job ∘ lease_job "w1" 65 <$> picked))
    ∧ StronglySorted claim_before picked)
  ∧ is_ok (@claim_due_jobs sqlite_merge "w1" 5 65 1 queued_tables).2 = true.
Proof.
  split; [|vm_compute; reflexivity].
  destruct (@claim_due_jobs_spec sqlite_merge "w1" 5 65 1 queued_tables queued_tables_ok)
    as (js & picked & Hrun & _ & Hs & _).
  exists js, picked. split; [exact Hrun|exact Hs].
Defined.

Lemma finished_run_immutable_witness :
  ∃ r, r_status r = RCompleted
    ∧ runs (@steps sqlite_merge [OpSaveRun late_run; OpFinalize late_run JFailed None None "w1"]
              (@step sqlite_merge (OpFinalize late_run JCompleted None None "w1")
                 (@sample_tables sqlite_merge))) !! "r1" = Some r.
Proof.
  exists late_run. split; [reflexivity|].
  apply (@finished_run_immutable sqlite_merge
           [OpSaveRun late_run; OpFinalize late_run JFailed None None "w1"]).
  - apply step_ok; [done|apply sample_tables_ok].
  - repeat constructor.
  - vm_compute. reflexivity.
  - reflexivity.
Defined.
