(* ===== verification/RecordStore.v ===== *)
(** * The record tables of the store

    The tables of [src/src/goblin_king/store.py] that hold plain records:
    schedules, fanouts, worker validations, notebook goblins and services, users,
    teams, projects, memberships, API tokens, audit logs, rate limits, long
    services, and deployment records.  A table is a [gmap] from
    the primary key to the record, and an operation is a call over that one table;
    the components that use several tables put them in one state.

    A row is the record it was written from: JSON columns are the values they
    denote, timestamps are UTC instants, and the validators accept again what they
    accepted.  The row conversions that replace values are written out. *)

From S2P Require Import Prelude CausalTime Contracts EventStore.

Abbreviation table := (gmap string).

(** [None] keeps every row, [Some p] the rows of project [p]. *)
Definition in_project {R} (project : R → option string) (project_id : option string) (r : R) : bool :=
  where_eq project_id (project r).

(** ** Schedules *)

Definition save_schedule (schedule : ScheduleRecord) : M (table ScheduleRecord) unit :=
  insert_row "schedules.id" (sc_id schedule) schedule.
Definition get_schedule (schedule_id : string) (t : table ScheduleRecord) : option ScheduleRecord :=
  t !! schedule_id.
(** Every column but the id and the creation time. *)
Definition update_schedule (s : ScheduleRecord) : M (table ScheduleRecord) unit :=
  do* update_row (sc_id s) (λ _, true)
    (λ old, mkSchedule (sc_id old) (sc_kind s) (sc_project_id s) (sc_input s) (sc_cron s)
              (sc_timezone s) (sc_enabled s) (sc_priority s) (sc_created_at old)
              (sc_next_run_at s) (sc_last_materialized_at s) (sc_max_retries s)
              (sc_timeout_seconds s)) in
  ret tt.
Definition advance_schedule (last_materialized_at next_run_at : utc) (s : ScheduleRecord)
    : ScheduleRecord :=
  mkSchedule (sc_id s) (sc_kind s) (sc_project_id s) (sc_input s) (sc_cron s) (sc_timezone s)
    (sc_enabled s) (sc_priority s) (sc_created_at s) next_run_at (Some last_materialized_at)
    (sc_max_retries s) (sc_timeout_seconds s).
Definition update_schedule_after_materialize (schedule_id : string)
    (last_materialized_at next_run_at : utc) : M (table ScheduleRecord) unit :=
  do* update_row schedule_id (λ _, true) (advance_schedule last_materialized_at next_run_at) in
  ret tt.

(** ** Fanouts *)

Definition save_fanout (fanout : FanoutRecord) : M (table FanoutRecord) unit :=
  insert_row "fanouts.id" (f_id fanout) fanout.
Definition get_fanout (fanout_id : string) (t : table FanoutRecord) : option FanoutRecord :=
  t !! fanout_id.

(** ** Worker validations *)

Definition save_worker_validation (v : WorkerValidationRecord)
    : M (table WorkerValidationRecord) unit :=
  insert_row "worker_validations.id" (wv_id v) v.

(** ** Notebook goblins and services: insert, or replace and keep the creation
    time *)

Definition save_notebook_goblin (r : NotebookGoblinRecord) : M (table NotebookGoblinRecord) unit :=
  upsert_row (ng_kind r) (λ existing,
    match existing with
    | None => r
    | Some old =>
        mkNotebookGoblin (ng_kind r) (ng_project_id r) (ng_display_name r) (ng_image r)
          (ng_source r) (ng_source_hash r) (ng_function_name r) (ng_timeout_seconds r)
          (ng_max_retries r) (ng_created_at old) (ng_updated_at r) (ng_created_by r)
          (ng_metadata r)
    end).
Definition get_notebook_goblin (kind : string) (t : table NotebookGoblinRecord)
    : option NotebookGoblinRecord := t !! kind.

Definition save_notebook_service (r : NotebookServiceRecord)
    : M (table NotebookServiceRecord) unit :=
  upsert_row (ns_kind r) (λ existing,
    match existing with
    | None => r
    | Some old =>
        mkNotebookService (ns_kind r) (ns_project_id r) (ns_display_name r) (ns_image r)
          (ns_source r) (ns_source_hash r) (ns_app_name r) (ns_requirements r) (ns_port r)
          (ns_probe_path r) (ns_created_at old) (ns_updated_at r) (ns_created_by r)
          (ns_metadata r) (ns_runtime_backend r) (ns_runtime_name r) (ns_runtime_status r)
          (ns_active_service_id r)
    end).

(** [_row_to_notebook_service]: zero and empty values become the defaults, and
    the probe path goes through its validator. *)
Definition _row_to_notebook_service (r : NotebookServiceRecord) : NotebookServiceRecord :=
  mkNotebookService (ns_kind r) (ns_project_id r) (ns_display_name r) (ns_image r) (ns_source r)
    (ns_source_hash r) (ns_app_name r) (ns_requirements r)
    (if ns_port r =? 0 then 8080 else ns_port r)
    (validate_probe_path (if truthy (ns_probe_path r) then ns_probe_path r else "/hello"))
    (ns_created_at r) (ns_updated_at r) (ns_created_by r) (ns_metadata r)
    (ns_runtime_backend r) (ns_runtime_name r)
    (if truthy (ns_runtime_status r) then ns_runtime_status r else "declared")
    (ns_active_service_id r).
Definition get_notebook_service (kind : string) (t : table NotebookServiceRecord)
    : option NotebookServiceRecord := _row_to_notebook_service <$> t !! kind.

(** [update_notebook_service_runtime]: an omitted [updated_at] stays. *)
Definition update_notebook_service_runtime (kind runtime_status : string)
    (runtime_backend runtime_name active_service_id : option string) (updated_at : option utc)
    : M (table NotebookServiceRecord) (option NotebookServiceRecord) :=
  do* update_row kind (λ _, true)
    (λ r, mkNotebookService (ns_kind r) (ns_project_id r) (ns_display_name r) (ns_image r)
            (ns_source r) (ns_source_hash r) (ns_app_name r) (ns_requirements r) (ns_port r)
            (ns_probe_path r) (ns_created_at r) (default (ns_updated_at r) updated_at)
            (ns_created_by r) (ns_metadata r) runtime_backend runtime_name runtime_status
            active_service_id) in
  gets (get_notebook_service kind).

(** ** Users, teams, projects, memberships, tokens *)

Definition save_user (u : UserRecord) : M (table UserRecord) unit :=
  insert_row "users.id" (u_id u) u.
Definition save_team (x : TeamRecord) : M (table TeamRecord) unit :=
  insert_row "teams.id" (tm_id x) x.
Definition save_project (p : ProjectRecord) : M (table ProjectRecord) unit :=
  insert_row "projects.id" (p_id p) p.
Definition save_membership (m : MembershipRecord) : M (table MembershipRecord) unit :=
  insert_row "memberships.id" (mb_id m) m.
Definition save_api_token (x : ApiTokenRecord) : M (table ApiTokenRecord) unit :=
  insert_row "api_tokens.id" (t_id x) x.

Definition get_user (user_id : string) (t : table UserRecord) : option UserRecord := t !! user_id.
Definition get_project (project_id : string) (t : table ProjectRecord) : option ProjectRecord :=
  t !! project_id.

(** The non-revoked rows with the hash; [one_or_none] raises on several. *)
Definition get_api_token_by_hash (token_hash : string) (t : table ApiTokenRecord)
    : result (option ApiTokenRecord) :=
  match filter (λ x, t_token_hash x = token_hash ∧ t_revoked_at x = None) (rows t) with
  | [] => Ok None
  | [x] => Ok (Some x)
  | _ => Err MultipleResultsFound
  end.

Definition revoked_token (revoked_at : utc) (x : ApiTokenRecord) : ApiTokenRecord :=
  mkApiToken (t_id x) (t_name x) (t_token_hash x) (t_created_at x) (t_user_id x) (t_project_id x)
    (t_role x) (Some revoked_at).
Definition revoke_api_token (token_id : string) (revoked_at : utc)
    : M (table ApiTokenRecord) (option ApiTokenRecord) :=
  do* update_row token_id (λ _, true) (revoked_token revoked_at) in
  gets (λ t, t !! token_id).

(** ** Audit logs and rate limits *)

Definition save_audit_log (a : AuditLogRecord) : M (table AuditLogRecord) unit :=
  insert_row "audit_logs.id" (al_id a) a.

Definition increment_rate_limit (key : string) (window_started_at : utc) (reset_existing : bool)
    : M (table RateLimitRecord) RateLimitRecord :=
  let* row := gets (λ t, t !! key) in
  let record :=
    match row with
    | None => mkRateLimit key window_started_at 1
    | Some row => if reset_existing then mkRateLimit key window_started_at 1
                  else mkRateLimit key (rl_window_started_at row) (rl_count row + 1)
    end in
  do* modify (λ t, <[key := record]> t) in
  ret record.

(** ** Long services *)

Definition save_long_service (s : LongServiceRecord) : M (table LongServiceRecord) unit :=
  insert_row "long_services.id" (ls_id s) s.
Definition _row_to_long_service (s : LongServiceRecord) : LongServiceRecord :=
  mkLongService (ls_id s) (ls_kind s) (ls_project_id s) (ls_image s) (ls_base_url s)
    (if truthy (ls_probe_path s) then ls_probe_path s else "/hello")
    (ls_status s) (ls_created_at s) (ls_created_by s) (ls_last_probe_at s) (ls_last_probe_json s).
Definition get_long_service (service_id : string) (t : table LongServiceRecord)
    : option LongServiceRecord := _row_to_long_service <$> t !! service_id.
Definition update_long_service_probe (service_id : string) (status : LongServiceStatus)
    (last_probe_at : utc) (last_probe_json : dict)
    : M (table LongServiceRecord) (option LongServiceRecord) :=
  do* update_row service_id (λ _, true)
    (λ s, mkLongService (ls_id s) (ls_kind s) (ls_project_id s) (ls_image s) (ls_base_url s)
            (ls_probe_path s) status (ls_created_at s) (ls_created_by s) (Some last_probe_at)
            (Some last_probe_json)) in
  gets (get_long_service service_id).
Definition update_long_service_status (service_id : string) (status : LongServiceStatus)
    (last_probe_json : option dict) : M (table LongServiceRecord) (option LongServiceRecord) :=
  do* update_row service_id (λ _, true)
    (λ s, mkLongService (ls_id s) (ls_kind s) (ls_project_id s) (ls_image s) (ls_base_url s)
            (ls_probe_path s) status (ls_created_at s) (ls_created_by s) (ls_last_probe_at s)
            (match last_probe_json with Some _ => last_probe_json | None => ls_last_probe_json s end)) in
  gets (get_long_service service_id).

(** ** Deployments *)

Definition save_deployment_record (d : DeploymentRecord) : M (table DeploymentRecord) unit :=
  insert_row "deployment_records.id" (dr_id d) d.
Definition get_deployment_record (record_id : string) (t : table DeploymentRecord)
    : option DeploymentRecord := t !! record_id.

(** ** Ordered reads *)

Section reads.
Context `{Sqlite}.

Definition by_kind {R} (kind : R → string) (x y : R) : bool := String.leb (kind x) (kind y).

Definition list_schedules (t : table ScheduleRecord) : list ScheduleRecord :=
  order_by (le_asc sc_next_run_at) (rows t).
Definition list_due_schedules (now : utc) (t : table ScheduleRecord) : list ScheduleRecord :=
  order_by (le_asc sc_next_run_at)
    (filter (λ s, sc_enabled s && (sc_next_run_at s <=? now) = true) (rows t)).
Definition list_fanouts (t : table FanoutRecord) : list FanoutRecord :=
  order_by (le_asc f_created_at) (rows t).

Definition get_latest_worker_validation (kind image_digest contract_version validator_version : string)
    (t : table WorkerValidationRecord) : option WorkerValidationRecord :=
  head (order_by (le_desc wv_validated_at)
    (filter (λ v, wv_kind v = kind ∧ wv_image_digest v = image_digest
                  ∧ wv_contract_version v = contract_version
                  ∧ wv_validator_version v = validator_version) (rows t))).
Definition list_worker_validations (kind : option string) (limit : Z)
    (t : table WorkerValidationRecord) : list WorkerValidationRecord :=
  sql_limit limit
    (order_by (le_desc wv_validated_at)
       (filter (λ v, where_eq kind (Some (wv_kind v)) = true) (rows t))).
Definition latest_worker_validation_for_kind (kind : string) (t : table WorkerValidationRecord)
    : option WorkerValidationRecord :=
  head (order_by (le_desc wv_validated_at) (filter (λ v, wv_kind v = kind) (rows t))).

Definition list_notebook_goblins (project_id : option string) (t : table NotebookGoblinRecord)
    : list NotebookGoblinRecord :=
  order_by (by_kind ng_kind) (filter (λ r, in_project ng_project_id project_id r = true) (rows t)).
Definition list_notebook_services (project_id : option string) (t : table NotebookServiceRecord)
    : list NotebookServiceRecord :=
  _row_to_notebook_service <$>
    order_by (by_kind ns_kind) (filter (λ r, in_project ns_project_id project_id r = true) (rows t)).
Definition list_projects (t : table ProjectRecord) : list ProjectRecord :=
  order_by (by_kind p_name) (rows t).
Definition list_audit_logs (project_id : option string) (limit offset : Z)
    (t : table AuditLogRecord) : list AuditLogRecord :=
  sql_page offset limit
    (order_by (le_asc al_created_at)
       (filter (λ a, in_project al_project_id project_id a = true) (rows t))).
Definition list_long_services (project_id : option string) (t : table LongServiceRecord)
    : list LongServiceRecord :=
  _row_to_long_service <$>
    order_by (le_asc ls_created_at)
      (filter (λ s, in_project ls_project_id project_id s = true) (rows t)).
Definition list_deployment_records (limit : Z) (t : table DeploymentRecord)
    : list DeploymentRecord :=
  sql_page 0 limit (order_by (le_desc dr_created_at) (rows t)).
End reads.

(** ** Lemmas *)

(** The newest validation of one image identity: it is of that identity, and no
    later one is. *)
Lemma latest_validation_spec `{Sqlite} kind digest cv vv t v :
  get_latest_worker_validation kind digest cv vv t = Some v →
  v ∈ rows t ∧ wv_kind v = kind ∧ wv_image_digest v = digest
  ∧ wv_contract_version v = cv ∧ wv_validator_version v = vv
  ∧ ∀ x, x ∈ rows t → wv_kind x = kind → wv_image_digest x = digest →
      wv_contract_version x = cv → wv_validator_version x = vv →
      wv_validated_at x ≤ wv_validated_at v.
Proof.
  unfold get_latest_worker_validation. set (l := filter _ _). intros Hv.
  pose proof (order_by_desc_head wv_validated_at l) as Hmax. rewrite Hv in Hmax.
  destruct Hmax as [Hin Hmax].
  apply list_elem_of_filter in Hin as [(? & ? & ? & ?) ?]. split_and!; [done..|].
  intros x Hx ? ? ? ?. apply Hmax, list_elem_of_filter. done.
Qed.

Lemma list_due_schedules_elem `{Sqlite} now t s :
  s ∈ list_due_schedules now t ↔
  s ∈ rows t ∧ sc_enabled s = true ∧ sc_next_run_at s ≤ now.
Proof.
  unfold list_due_schedules. rewrite order_by_elem, list_elem_of_filter, andb_true_iff, Z.leb_le.
  tauto.
Qed.
