(* ===== verification/Auth.v ===== *)
(** * Authentication, authorization, audit and rate limits ([src/src/goblin_king/auth.py])

    Bearer tokens resolve to a [Principal] through the bootstrap token, a stored
    token hash, an OIDC token or JupyterHub, in that order.  The state is the part
    of the store the module uses, the process, and the Hub token cache.

    Outside the code: the SHA-256 digest and the random tokens ([Crypto]), the JWT
    library ([Jwt]) and the answers of JupyterHub's HTTP API ([Hub]). *)

From Stdlib Require Import Ascii.
From S2P Require Import Prelude CausalTime Contracts EventStore RecordStore.

Class Crypto := {
  sha256_hex : string → string;
  token_urlsafe : nat → string          (* the n-th secrets.token_urlsafe(32) *)
}.

Record OidcConfig := mkOidc {
  oidc_enabled : bool; oidc_issuer : option string; oidc_audience : option string;
  oidc_jwks_url : option string; oidc_clock_skew_seconds : Z; oidc_user_claim : string;
  oidc_email_claim : string; oidc_role_claim : string; oidc_project_claim : string;
  oidc_admin_roles : list string }.

Record JupyterHubConfig := mkHub {
  hub_enabled : bool; hub_api_url : option string; hub_service_token : option string;
  hub_cache_ttl_seconds : Z; hub_allowed_users : list string; hub_allowed_groups : list string;
  hub_admin_groups : list string; hub_viewer_groups : list string;
  hub_project_groups : gmap string string; hub_default_project_id : option string }.

(** The claims of a token the JWT library accepts, or its [PyJWTError]. *)
Class Jwt := { jwt_decode : string → OidcConfig → dict + string }.

(** What the n-th request for a URL with a token brings back. *)
Inductive HubResponse :=
| HubJson (body : Json)
| HubHttpError (code : Z)
| HubUndecodable            (* a body that is not UTF-8 *)
| HubUnavailable.           (* connection errors, and bodies that are not JSON *)
Class Hub := { hub_get : nat → string → string → HubResponse }.

Record Principal := mkPrincipal {
  pr_user_id : string; pr_token_id : string; pr_role : PrincipalRole;
  pr_project_id : option string; pr_bootstrap : bool; pr_auth_provider : string }.

Definition is_admin (p : Principal) : bool := bool_decide (pr_role p = RoleAdmin).

(** ** State *)

Record AuthState := mkAuthState {
  au_process : Process;
  au_users : table UserRecord;
  au_projects : table ProjectRecord;
  au_tokens : table ApiTokenRecord;
  au_audit : table AuditLogRecord;
  au_rates : table RateLimitRecord;
  au_randoms : nat;                              (* random tokens drawn so far *)
  au_hub_requests : nat;
  au_hub_cache : gmap string (utc * dict)        (* _JUPYTERHUB_TOKEN_CACHE *)
}.

Definition au_process_lens : lens AuthState Process :=
  Lens au_process (λ x s, mkAuthState x (au_users s) (au_projects s) (au_tokens s) (au_audit s)
                            (au_rates s) (au_randoms s) (au_hub_requests s) (au_hub_cache s)).
Definition au_users_lens : lens AuthState (table UserRecord) :=
  Lens au_users (λ x s, mkAuthState (au_process s) x (au_projects s) (au_tokens s) (au_audit s)
                          (au_rates s) (au_randoms s) (au_hub_requests s) (au_hub_cache s)).
Definition au_projects_lens : lens AuthState (table ProjectRecord) :=
  Lens au_projects (λ x s, mkAuthState (au_process s) (au_users s) x (au_tokens s) (au_audit s)
                             (au_rates s) (au_randoms s) (au_hub_requests s) (au_hub_cache s)).
Definition au_tokens_lens : lens AuthState (table ApiTokenRecord) :=
  Lens au_tokens (λ x s, mkAuthState (au_process s) (au_users s) (au_projects s) x (au_audit s)
                           (au_rates s) (au_randoms s) (au_hub_requests s) (au_hub_cache s)).
Definition au_rates_lens : lens AuthState (table RateLimitRecord) :=
  Lens au_rates (λ x s, mkAuthState (au_process s) (au_users s) (au_projects s) (au_tokens s)
                          (au_audit s) x (au_randoms s) (au_hub_requests s) (au_hub_cache s)).

(** The process and the audit table: what [audit] needs. *)
Record Audited := mkAudited { ad_process : Process; ad_logs : table AuditLogRecord }.
Definition ad_process_lens : lens Audited Process :=
  Lens ad_process (λ x s, mkAudited x (ad_logs s)).
Definition ad_logs_lens : lens Audited (table AuditLogRecord) :=
  Lens ad_logs (λ x s, mkAudited (ad_process s) x).
Definition au_audited_lens : lens AuthState Audited :=
  Lens (λ s, mkAudited (au_process s) (au_audit s))
       (λ x s, mkAuthState (ad_process x) (au_users s) (au_projects s) (au_tokens s) (ad_logs x)
                 (au_rates s) (au_randoms s) (au_hub_requests s) (au_hub_cache s)).

(** ** OIDC *)

(** [_claim_as_string] *)
Definition _claim_as_string (claims : dict) (key : string) : option string :=
  match claims !! key with
  | Some (JStr s) => if truthy s then Some s else None
  | _ => None
  end.

Definition _claim_values (value : option Json) : list string :=
  match value with
  | Some (JStr s) => [s]
  | Some (JList l) => omap (λ j, match j with JStr s => Some s | _ => None end) l
  | _ => []
  end.

Definition _role_from_claims (claims : dict) (oidc : OidcConfig) : PrincipalRole :=
  let values := _claim_values (claims !! oidc_role_claim oidc) in
  if existsb (λ v, bool_decide (v ∈ oidc_admin_roles oidc)) values then RoleAdmin
  else if bool_decide ("viewer" ∈ values) then RoleViewer
  else RoleMember.

Definition _decode_oidc_jwt `{Jwt} (token : string) (oidc : OidcConfig) : result dict :=
  if negb (truthy_opt (oidc_issuer oidc)) || negb (truthy_opt (oidc_audience oidc))
     || negb (truthy_opt (oidc_jwks_url oidc))
  then Err (AuthError "OIDC issuer, audience, and JWKS URL are required" 500)
  else match jwt_decode token oidc with
       | inl claims => Ok claims
       | inr error => Err (AuthError ("missing or invalid OIDC bearer token: " +:+ error) 401)
       end.

Definition authenticate_oidc_token `{Jwt} (token : string) (oidc : OidcConfig) : result Principal :=
  let? claims := _decode_oidc_jwt token oidc in
  match _claim_as_string claims (oidc_user_claim oidc) with
  | None => Err (AuthError ("OIDC token missing required claim: " +:+ oidc_user_claim oidc) 401)
  | Some user_id =>
      Ok (mkPrincipal user_id ("oidc:" +:+ user_id) (_role_from_claims claims oidc)
            (_claim_as_string claims (oidc_project_claim oidc)) false "oidc")
  end.

(** ** JupyterHub *)

Definition dict_of (j : Json) : option dict :=
  match j with JObj o => Some (list_to_map o) | _ => None end.

Definition _jupyterhub_user_model (model : dict) : result dict :=
  let model := match model !! "user" with
               | Some j => default model (dict_of j)
               | None => model
               end in
  match model !! "kind" with
  | None | Some JNull => Ok model
  | Some (JStr kind) =>
      if bool_decide (kind = "user") then Ok model
      else Err (AuthError "JupyterHub token does not belong to a user" 403)
  | Some _ => Err (AuthError "JupyterHub token does not belong to a user" 403)
  end.

Definition group_name (item : Json) : option string :=
  match item with
  | JStr s => Some s
  | JObj o => match obj_get o "name" with Some (JStr s) => Some s | _ => None end
  | _ => None
  end.
Definition _jupyterhub_groups (model : dict) : list string :=
  match model !! "groups" with Some (JList l) => omap group_name l | _ => [] end.

(** [set(groups).intersection(names)] is not empty. *)
Definition intersects (groups names : list string) : bool :=
  existsb (λ g, bool_decide (g ∈ names)) groups.

Definition _jupyterhub_user_allowed (user_id : string) (groups : list string)
    (c : JupyterHubConfig) : bool :=
  if bool_decide (hub_allowed_users c = []) && bool_decide (hub_allowed_groups c = []) then true
  else bool_decide (user_id ∈ hub_allowed_users c) || intersects groups (hub_allowed_groups c).

Definition _jupyterhub_role (model : dict) (groups : list string) (c : JupyterHubConfig)
    : PrincipalRole :=
  if match model !! "admin" with Some (JBool true) => true | _ => false end
     || intersects groups (hub_admin_groups c) then RoleAdmin
  else if intersects groups (hub_viewer_groups c) then RoleViewer
  else RoleMember.

Fixpoint _jupyterhub_project_id (groups : list string) (c : JupyterHubConfig) : option string :=
  match groups with
  | [] => hub_default_project_id c
  | group :: groups' =>
      if truthy_opt (hub_project_groups c !! group) then hub_project_groups c !! group
      else _jupyterhub_project_id groups' c
  end.

Section hub.
Context `{Env} `{Crypto} `{Jwt} `{Hub}.

Definition hash_api_token (token : string) : string := sha256_hex token.

Definition hub_request (url token : string) : M AuthState HubResponse :=
  λ s, (mkAuthState (au_process s) (au_users s) (au_projects s) (au_tokens s) (au_audit s)
          (au_rates s) (au_randoms s) (S (au_hub_requests s)) (au_hub_cache s),
        Ok (hub_get (au_hub_requests s) url token)).

Definition _request_jupyterhub_json (url token invalid_token_message : string)
    (permission_message : option string) : M AuthState dict :=
  let* response := hub_request url token in
  match response with
  | HubJson body =>
      match dict_of body with
      | Some model => ret model
      | None => raise (AuthError "JupyterHub token response was not an object" 503)
      end
  | HubHttpError code =>
      if (code =? 401) || (code =? 404) then raise (AuthError invalid_token_message 401)
      else if code =? 403 then
        match permission_message with
        | Some message => raise (AuthError message 500)
        | None => raise (AuthError invalid_token_message 401)
        end
      else raise (AuthError "JupyterHub token validation failed" 503)
  | HubUndecodable => raise (OtherValueError "UnicodeDecodeError" "'utf-8' codec can't decode the body")
  | HubUnavailable => raise (AuthError "JupyterHub is unavailable for token validation" 503)
  end.

(** [urlparse.quote(text, safe='')] on ASCII text, and [str.rstrip('/')]. *)
Definition unreserved (c : ascii) : bool :=
  let n := nat_of_ascii c in
  (Nat.leb 48 n && Nat.leb n 57) || (Nat.leb 65 n && Nat.leb n 90)
  || (Nat.leb 97 n && Nat.leb n 122)
  || Nat.eqb n 45 || Nat.eqb n 46 || Nat.eqb n 95 || Nat.eqb n 126.
Definition upper_hex (n : nat) : ascii :=
  ascii_of_nat (if Nat.ltb n 10 then n + 48 else n + 55).
Definition quote (text : string) : string :=
  String.string_of_list_ascii
    (flat_map (λ c, if unreserved c then [c]
                    else [ascii_of_nat 37; upper_hex (Nat.div (nat_of_ascii c) 16);
                          upper_hex (Nat.modulo (nat_of_ascii c) 16)])
       (String.list_ascii_of_string text)).
Fixpoint drop_slashes (l : list ascii) : list ascii :=
  match l with
  | c :: l' => if Nat.eqb (nat_of_ascii c) 47 then drop_slashes l' else l
  | [] => []
  end.
Definition rstrip_slash (s : string) : string :=
  String.string_of_list_ascii (rev (drop_slashes (rev (String.list_ascii_of_string s)))).

Definition user_name (user : dict) : option string :=
  match user !! "name" with
  | Some (JStr s) => if truthy s then Some s else None
  | _ => None
  end.

Definition seconds (n : Z) : Z := n * 1000000.
#[global] Arguments seconds : simpl never.

(** The cached user, when caching is on and the entry is young enough. *)
Definition cached_hub_user (c : JupyterHubConfig) (cache_key : string) : M AuthState (option dict) :=
  if 0 <? hub_cache_ttl_seconds c then
    let* cached := gets (λ s, au_hub_cache s !! cache_key) in
    match cached with
    | None => ret None
    | Some (at_, user) =>
        let* now := zoom au_process_lens utc_now in
        ret (if now - at_ <? seconds (hub_cache_ttl_seconds c) then Some user else None)
    end
  else ret None.

Definition store_hub_user (c : JupyterHubConfig) (cache_key : string) (user : dict)
    : M AuthState unit :=
  if 0 <? hub_cache_ttl_seconds c then
    let* now := zoom au_process_lens utc_now in
    modify (λ s, mkAuthState (au_process s) (au_users s) (au_projects s) (au_tokens s) (au_audit s)
                   (au_rates s) (au_randoms s) (au_hub_requests s)
                   (<[cache_key := (now, user)]> (au_hub_cache s)))
  else ret tt.

Definition _identify_jupyterhub_token (token : string) (c : JupyterHubConfig)
    : M AuthState dict :=
  do* raise_if (negb (truthy_opt (hub_api_url c))) (AuthError "JupyterHub api_url is required" 500) in
  do* raise_if (negb (truthy_opt (hub_service_token c)))
        (AuthError "JupyterHub service token is required" 500) in
  let cache_key := hash_api_token token in
  let* cached := cached_hub_user c cache_key in
  match cached with
  | Some user => ret user
  | None =>
      let api_url := rstrip_slash (default EmptyString (hub_api_url c)) in
      let* model := _request_jupyterhub_json (api_url +:+ "/user") token
                      "missing or invalid JupyterHub bearer token" None in
      let* user := lift_result (_jupyterhub_user_model model) in
      let* user :=
        match user_name user with
        | Some user_id =>
            let* detail := _request_jupyterhub_json (api_url +:+ "/users/" +:+ quote user_id)
                             (default EmptyString (hub_service_token c))
                             "JupyterHub service token is invalid"
                             (Some "JupyterHub service token lacks user/group permission") in
            ret (detail ∪ user)
        | None => ret user
        end in
      do* store_hub_user c cache_key user in
      ret user
  end.

Definition authenticate_jupyterhub_token (token : string) (c : JupyterHubConfig)
    : M AuthState Principal :=
  let* model := _identify_jupyterhub_token token c in
  let* user := lift_result (_jupyterhub_user_model model) in
  match user_name user with
  | None => raise (AuthError "JupyterHub token response missing user name" 401)
  | Some user_id =>
      let groups := _jupyterhub_groups user in
      if negb (_jupyterhub_user_allowed user_id groups c)
      then raise (AuthError "JupyterHub user is not authorized" 403)
      else ret (mkPrincipal user_id
                  ("jupyterhub:" +:+ String.substring 0 16 (hash_api_token token))
                  (_jupyterhub_role user groups c) (_jupyterhub_project_id groups c)
                  false "jupyterhub")
  end.

(** ** [authenticate_token] *)

Definition hub_on (c : option JupyterHubConfig) : bool :=
  match c with Some c => hub_enabled c | None => false end.
Definition oidc_on (c : option OidcConfig) : bool :=
  match c with Some c => oidc_enabled c | None => false end.

(** Without a stored token: JupyterHub when it is on, else the final refusal. *)
Definition hub_or_refuse (token : string) (jupyterhub : option JupyterHubConfig)
    : M AuthState Principal :=
  match jupyterhub with
  | Some c => if hub_enabled c then authenticate_jupyterhub_token token c
              else raise (AuthError "missing or invalid bearer token" 401)
  | None => raise (AuthError "missing or invalid bearer token" 401)
  end.

Definition authenticate_token (token bootstrap_token : string) (oidc : option OidcConfig)
    (jupyterhub : option JupyterHubConfig) : M AuthState Principal :=
  if bool_decide (token = bootstrap_token)
  then ret (mkPrincipal "bootstrap-admin" "bootstrap" RoleAdmin None true "local")
  else
    let* found := gets (λ s, get_api_token_by_hash (hash_api_token token) (au_tokens s)) in
    let* token_record := lift_result found in
    match token_record with
    | None =>
        match oidc with
        | Some o =>
            if oidc_enabled o then
              match authenticate_oidc_token token o with
              | Ok p => ret p
              | Err (AuthError msg code) =>
                  if (500 <=? code) || negb (hub_on jupyterhub) then raise (AuthError msg code)
                  else hub_or_refuse token jupyterhub
              | Err e => raise e
              end
            else hub_or_refuse token jupyterhub
        | None => hub_or_refuse token jupyterhub
        end
    | Some record =>
        let* user := gets (λ s, get_user (t_user_id record) (au_users s)) in
        if match user with Some u => u_disabled u | None => true end
        then raise (AuthError "user is disabled or missing" 403)
        else ret (mkPrincipal (t_user_id record) (t_id record) (t_role record)
                    (t_project_id record) false "local")
    end.

(** ** Creation *)

Definition generate_api_token : M AuthState string :=
  λ s, (mkAuthState (au_process s) (au_users s) (au_projects s) (au_tokens s) (au_audit s)
          (au_rates s) (S (au_randoms s)) (au_hub_requests s) (au_hub_cache s),
        Ok ("gk_" +:+ token_urlsafe (au_randoms s))).

Definition create_user (email display_name : string) : M AuthState UserRecord :=
  let* id := zoom au_process_lens new_uuid in
  let* now := zoom au_process_lens utc_now in
  let user := mkUser id email display_name now false in
  do* zoom au_users_lens (save_user user) in
  ret user.

Definition create_project (name : string) : M AuthState ProjectRecord :=
  let* id := zoom au_process_lens new_uuid in
  let* now := zoom au_process_lens utc_now in
  let project := mkProject id name now in
  do* zoom au_projects_lens (save_project project) in
  ret project.

Definition create_api_token (name user_id : string) (project_id : option string)
    (role : PrincipalRole) : M AuthState (ApiTokenRecord * string) :=
  let* raw_token := generate_api_token in
  let* id := zoom au_process_lens new_uuid in
  let* now := zoom au_process_lens utc_now in
  let token := mkApiToken id name (hash_api_token raw_token) now user_id project_id role None in
  do* zoom au_tokens_lens (save_api_token token) in
  ret (token, raw_token).

(** ** Audit and rate limits *)

Definition audit (action outcome : string) (principal : option Principal)
    (project_id resource_type resource_id : option string) (detail : dict) : M Audited unit :=
  let* id := zoom ad_process_lens new_uuid in
  let* now := zoom ad_process_lens utc_now in
  zoom ad_logs_lens
    (save_audit_log
       (mkAuditLog id now action outcome (pr_user_id <$> principal) (pr_token_id <$> principal)
          project_id resource_type resource_id detail)).

Definition rate_limit_key (principal : Principal) (route : string) : string :=
  pr_token_id principal +:+ ":" +:+ route.

Definition check_rate_limit (principal : Principal) (route : string) (max_per_minute : Z)
    : M AuthState unit :=
  if max_per_minute <=? 0 then ret tt
  else
    let* now := zoom au_process_lens utc_now in
    let key := rate_limit_key principal route in
    let* existing := zoom au_rates_lens (increment_rate_limit key now false) in
    let* existing :=
      (if seconds 60 <=? now - rl_window_started_at existing
       then zoom au_rates_lens (increment_rate_limit key now true)
       else ret existing) in
    if max_per_minute <? rl_count existing
    then do* zoom au_audited_lens
               (audit "rate_limit.denied" "denied" (Some principal) None None None
                  {[ "route" := JStr route; "limit" := JInt max_per_minute;
                     "count" := JInt (rl_count existing) ]}) in
         raise (RateLimitExceeded "rate limit exceeded")
    else ret tt.
End hub.

(** ** Authorization *)

Definition require_admin (p : Principal) : result unit :=
  if negb (is_admin p) then Err (AuthError "admin role required" 403) else Ok tt.

Definition require_project_access (p : Principal) (project_id : option string) : result unit :=
  if is_admin p then Ok tt
  else if bool_decide (pr_project_id p = None) || negb (bool_decide (project_id = pr_project_id p))
  then Err (AuthError "project access denied" 403)
  else Ok tt.

(** ** Lemmas: tokens *)

Lemma token_by_hash_some h t x :
  get_api_token_by_hash h t = Ok (Some x) → x ∈ rows t ∧ t_token_hash x = h ∧ t_revoked_at x = None.
Proof.
  unfold get_api_token_by_hash. destruct (filter _ (rows t)) as [|y [|z l]] eqn:E; [done| |done].
  intros [= ->]. assert (x ∈ filter (λ x, t_token_hash x = h ∧ t_revoked_at x = None) (rows t)) as Hx
    by (rewrite E; left).
  apply list_elem_of_filter in Hx as [[? ?] ?]. done.
Qed.

Lemma filter_none {A} (P : A → Prop) `{∀ x, Decision (P x)} l :
  (∀ x, x ∈ l → ¬ P x) → filter P l = [].
Proof.
  induction l as [|x l IH]; intros HP; [done|]. rewrite filter_cons_False by (apply HP; left).
  apply IH. intros y Hy. apply HP. by right.
Qed.

Lemma token_by_hash_none h t :
  (∀ x, x ∈ rows t → t_token_hash x = h → t_revoked_at x ≠ None) →
  get_api_token_by_hash h t = Ok None.
Proof.
  intros Hno. unfold get_api_token_by_hash. rewrite filter_none; [done|].
  intros x Hx [? ?]. by eapply Hno.
Qed.

Lemma token_by_hash_unique h t x :
  filter (λ x, t_token_hash x = h ∧ t_revoked_at x = None) (rows t) ≡ₚ [x] →
  get_api_token_by_hash h t = Ok (Some x).
Proof.
  intros Hp%Permutation_singleton_r. unfold get_api_token_by_hash. by rewrite Hp.
Qed.

Lemma rows_insert_perm {R} (k : string) (r : R) t :
  t !! k = None → rows (<[k := r]> t) ≡ₚ r :: rows t.
Proof. intros Hk. unfold rows. by rewrite map_to_list_insert by done. Qed.

(** A stored hash that is new is found. *)
Lemma token_by_hash_insert t x :
  t !! t_id x = None → t_revoked_at x = None →
  (∀ y, y ∈ rows t → t_token_hash y ≠ t_token_hash x) →
  get_api_token_by_hash (t_token_hash x) (<[t_id x := x]> t) = Ok (Some x).
Proof.
  intros Hk Hrev Hno. apply token_by_hash_unique.
  rewrite rows_insert_perm by done. rewrite filter_cons_True by done.
  rewrite filter_none; [done|]. intros y Hy [Heq _]. by apply (Hno y).
Qed.

(** ** Lemmas: providers *)

Lemma oidc_ok `{Jwt} token c p :
  authenticate_oidc_token token c = Ok p →
  ∃ claims, jwt_decode token c = inl claims ∧ pr_role p = _role_from_claims claims c
    ∧ _claim_as_string claims (oidc_user_claim c) = Some (pr_user_id p).
Proof.
  unfold authenticate_oidc_token, _decode_oidc_jwt. destruct (_ || _); [done|]. simpl.
  destruct (jwt_decode token c) as [claims|]; [|done]. simpl.
  destruct (_claim_as_string claims (oidc_user_claim c)) as [u|] eqn:Hu; [|done].
  intros [= <-]. exists claims. by split_and!.
Qed.

Lemma role_from_claims_admin claims c :
  _role_from_claims claims c = RoleAdmin →
  ∃ v, v ∈ _claim_values (claims !! oidc_role_claim c) ∧ v ∈ oidc_admin_roles c.
Proof.
  unfold _role_from_claims. destruct (existsb _ _) eqn:E.
  - intros _. apply existsb_exists in E as (v & Hv & Hin%bool_decide_eq_true).
    exists v. split; [by apply list_elem_of_In|done].
  - by case_bool_decide.
Qed.

Definition hub_admin_grant (user : dict) (c : JupyterHubConfig) : Prop :=
  user !! "admin" = Some (JBool true)
  ∨ ∃ g, g ∈ _jupyterhub_groups user ∧ g ∈ hub_admin_groups c.

Lemma hub_role_admin user c :
  _jupyterhub_role user (_jupyterhub_groups user) c = RoleAdmin → hub_admin_grant user c.
Proof.
  unfold _jupyterhub_role, hub_admin_grant. destruct (_ || _) eqn:E.
  - intros _. apply orb_true_iff in E as [E|E].
    + left. by destruct (user !! "admin") as [[|[]| | | |]|].
    + right. apply existsb_exists in E as (g & Hg%list_elem_of_In & Hin%bool_decide_eq_true). eauto.
  - intros Hr. destruct (intersects _ (hub_viewer_groups c)); discriminate Hr.
Qed.

Section providers.
Context `{Env} `{Crypto} `{Jwt} `{Hub}.

Lemma hub_ok token c s s' p :
  authenticate_jupyterhub_token token c s = (s', Ok p) →
  ∃ model user, (_identify_jupyterhub_token token c s).2 = Ok model
    ∧ _jupyterhub_user_model model = Ok user
    ∧ user_name user = Some (pr_user_id p)
    ∧ _jupyterhub_user_allowed (pr_user_id p) (_jupyterhub_groups user) c = true
    ∧ pr_role p = _jupyterhub_role user (_jupyterhub_groups user) c.
Proof.
  unfold authenticate_jupyterhub_token. intros (s1 & model & Hid & Hrun)%bind_ok.
  apply bind_ok in Hrun as (s2 & user & Hu & Hrun). injection Hu as <- Hu.
  destruct (user_name user) as [uid|] eqn:Hname; [|done].
  destruct (_jupyterhub_user_allowed uid _ c) eqn:Hal; simpl in Hrun; [|done].
  injection Hrun as <- <-. exists model, user. rewrite Hid. by split_and!.
Qed.

Lemma hub_or_refuse_ok token c s s' p :
  hub_or_refuse token c s = (s', Ok p) →
  ∃ k, c = Some k ∧ hub_enabled k = true ∧ authenticate_jupyterhub_token token k s = (s', Ok p).
Proof.
  unfold hub_or_refuse. destruct c as [k|]; [|done]. destruct (hub_enabled k) eqn:E; [|done].
  eauto.
Qed.

(** Where a principal comes from. *)
Lemma authenticate_token_ok token boot oidc hub s s' p :
  authenticate_token token boot oidc hub s = (s', Ok p) →
  (token = boot)
  ∨ (∃ x u, get_api_token_by_hash (hash_api_token token) (au_tokens s) = Ok (Some x)
       ∧ au_users s !! t_user_id x = Some u ∧ u_disabled u = false
       ∧ p = mkPrincipal (t_user_id x) (t_id x) (t_role x) (t_project_id x) false "local")
  ∨ (∃ c, oidc = Some c ∧ oidc_enabled c = true ∧ authenticate_oidc_token token c = Ok p)
  ∨ (∃ c, hub = Some c ∧ hub_enabled c = true
       ∧ authenticate_jupyterhub_token token c s = (s', Ok p)).
Proof.
  unfold authenticate_token. case_bool_decide as Hb; [by left|]. intros Hauth. right.
  apply bind_ok in Hauth as (s1 & r & Hf & Hrun). injection Hf as <- <-.
  apply bind_ok in Hrun as (s1 & rec & Hf & Hrun). injection Hf as <- Hf.
  destruct rec as [x|].
  - left. apply bind_ok in Hrun as (s1 & u & Hu & Hrun). injection Hu as <- <-.
    unfold get_user in Hrun. destruct (au_users s !! t_user_id x) as [u|] eqn:Hu; [|done].
    destruct (u_disabled u) eqn:Hd; [done|]. injection Hrun as <- <-. exists x, u. by split_and!.
  - right. destruct oidc as [c|].
    + destruct (oidc_enabled c) eqn:Hen; [|right; by apply hub_or_refuse_ok].
      destruct (authenticate_oidc_token token c) as [q|e] eqn:Ho.
      * injection Hrun as <- <-. left. eauto.
      * right. destruct e; try done. destruct (_ || _); [done|]. by apply hub_or_refuse_ok.
    + right. by apply hub_or_refuse_ok.
Qed.
End providers.

(** ** Lemmas: rate limits *)

Section rates.
Context `{Env} `{Crypto} `{Jwt} `{Hub}.

(** The row a call leaves, given the one it finds and the time it reads. *)
Definition next_rate (key : string) (now : utc) (old : option RateLimitRecord) : RateLimitRecord :=
  match old with
  | None => mkRateLimit key now 1
  | Some r => if seconds 60 <=? now - rl_window_started_at r then mkRateLimit key now 1
              else mkRateLimit key (rl_window_started_at r) (rl_count r + 1)
  end.

Lemma audit_frame action outcome pr p rt ri d (s : AuthState) :
  let s' := (zoom au_audited_lens (audit action outcome pr p rt ri d) s).1 in
  au_rates s' = au_rates s
  ∧ (∀ l, clk_last (au_process s) = Some l →
       ∃ l', clk_last (au_process s') = Some l' ∧ l ≤ l').
Proof.
  intros s'. unfold s'. rewrite zoom_eq. simpl. split; [done|]. intros l Hl.
  unfold audit, bind, utc_now, new_uuid, monotonic_utc_now, zoom. simpl. rewrite Hl.
  set (v := if _ <=? l then _ else _).
  assert (l ≤ v) as Hv.
  { unfold v. destruct (Z.leb_spec (ensure_utc (wall_clock (clk_reads (au_process s)))) l);
      unfold MINIMUM_CAUSAL_STEP; lia. }
  destruct (save_audit_log _ _). simpl. eauto.
Qed.

Lemma check_rate_limit_run principal route max s :
  0 < max →
  ∃ now, (∀ l, clk_last (au_process s) = Some l → l < now)
    ∧ let row := next_rate (rate_limit_key principal route) now
                   (au_rates s !! rate_limit_key principal route) in
      let out := check_rate_limit principal route max s in
      au_rates out.1 = <[rate_limit_key principal route := row]> (au_rates s)
      ∧ is_ok out.2 = (rl_count row <=? max)
      ∧ ∃ l, clk_last (au_process out.1) = Some l ∧ now ≤ l.
Proof.
  intros Hmax. set (key := rate_limit_key principal route).
  destruct (monotonic_utc_now_spec (au_process s)) as (now & Hnow & _ & Hlast).
  exists now. split; [done|]. set (row := next_rate key now (au_rates s !! key)).
  set (s1 := mkAuthState (mkProcess (S (clk_reads (au_process s))) (Some now)
      (mono_reads (au_process s)) (uuids (au_process s))) (au_users s) (au_projects s) (au_tokens s)
      (au_audit s) (<[key := row]> (au_rates s)) (au_randoms s) (au_hub_requests s)
      (au_hub_cache s)).
  assert (check_rate_limit principal route max s =
    (if max <? rl_count row
     then bind (zoom au_audited_lens
            (audit "rate_limit.denied" "denied" (Some principal) None None None
               {[ "route" := JStr route; "limit" := JInt max; "count" := JInt (rl_count row) ]}))
            (λ _, raise (RateLimitExceeded "rate limit exceeded"))
     else ret tt) s1) as Hrun.
  { assert (zoom au_process_lens utc_now s
            = (put au_process_lens (mkProcess (S (clk_reads (au_process s))) (Some now)
                 (mono_reads (au_process s)) (uuids (au_process s))) s, Ok now)) as Hz.
    { rewrite zoom_eq. unfold utc_now. change (view au_process_lens s) with (au_process s).
      by rewrite Hnow. }
    unfold check_rate_limit. destruct (Z.leb_spec max 0); [lia|]. unfold bind at 1.
    rewrite Hz. unfold bind at 1. fold key.
    rewrite zoom_eq. unfold increment_rate_limit at 1. unfold gets, modify, bind, ret. simpl.
    unfold row, s1, row, next_rate. destruct (au_rates s !! key) as [old|] eqn:Hold; simpl.
    - destruct (seconds 60 <=? now - rl_window_started_at old); simpl; [|done].
      unfold zoom. simpl. rewrite lookup_insert_eq. simpl. by rewrite insert_insert_eq.
    - by replace (now - now) with 0 by lia. }
  cbv zeta. rewrite Hrun. destruct (Z.ltb_spec max (rl_count row)) as [Hgt|Hle].
  - unfold bind. destruct (audit_frame "rate_limit.denied" "denied" (Some principal) None None None
      {[ "route" := JStr route; "limit" := JInt max; "count" := JInt (rl_count row) ]} s1)
      as [Hrates Hclk].
    destruct (Hclk now eq_refl) as (l' & Hl' & Hle).
    destruct (zoom au_audited_lens _ s1) as [s2 [[]|e]]; simpl in *;
      (split_and!; [done|symmetry; apply Z.leb_gt; lia|eauto]).
  - simpl. split_and!; [done|symmetry; by apply Z.leb_le|]. exists now. split; [done|lia].
Qed.
End rates.

(** Consecutive calls of one principal on one route: was each one let through? *)
Fixpoint rate_calls `{Env} (principal : Principal) (route : string) (max : Z) (n : nat)
    (s : AuthState) : AuthState * list bool :=
  match n with
  | O => (s, [])
  | S n' =>
      let '(s1, r) := check_rate_limit principal route max s in
      let '(s2, rs) := rate_calls principal route max n' s1 in
      (s2, is_ok r :: rs)
  end.

Lemma rate_calls_clock `{Env} `{Crypto} `{Jwt} `{Hub} principal route max n s l :
  0 < max → clk_last (au_process s) = Some l →
  ∃ l', clk_last (au_process (rate_calls principal route max n s).1) = Some l' ∧ l ≤ l'.
Proof.
  intros Hmax. revert s l. induction n as [|n IH]; intros s l Hl; simpl.
  - exists l. split; [done|lia].
  - destruct (check_rate_limit_run principal route max s Hmax) as (now & Hnow & _ & _ & l1 & Hl1 & Hle).
    destruct (check_rate_limit principal route max s) as [s1 r]. simpl in *.
    destruct (IH s1 l1 Hl1) as (l' & Hl' & Hle').
    destruct (rate_calls principal route max n s1) as [s2 rs]. simpl in *.
    exists l'. split; [done|]. specialize (Hnow _ Hl). lia.
Qed.

Section local.
Context `{Env} `{Crypto} `{Jwt} `{Hub}.

Lemma authenticate_found token boot s x u :
  token ≠ boot → get_api_token_by_hash (hash_api_token token) (au_tokens s) = Ok (Some x) →
  au_users s !! t_user_id x = Some u → u_disabled u = false →
  authenticate_token token boot None None s
  = (s, Ok (mkPrincipal (t_user_id x) (t_id x) (t_role x) (t_project_id x) false "local")).
Proof.
  intros Hb Hx Hu Hd. unfold authenticate_token. rewrite bool_decide_eq_false_2 by done.
  unfold bind, gets, lift_result, get_user, ret. by rewrite Hx, Hu, Hd.
Qed.

Lemma authenticate_unknown token boot s :
  token ≠ boot → get_api_token_by_hash (hash_api_token token) (au_tokens s) = Ok None →
  authenticate_token token boot None None s
  = (s, Err (AuthError "missing or invalid bearer token" 401)).
Proof.
  intros Hb Hx. unfold authenticate_token. rewrite bool_decide_eq_false_2 by done.
  unfold bind, gets, lift_result. by rewrite Hx.
Qed.

Lemma revoke_run id revoked_at s x :
  au_tokens s !! id = Some x →
  (zoom au_tokens_lens (revoke_api_token id revoked_at) s).1
  = put au_tokens_lens (<[id := revoked_token revoked_at x]> (au_tokens s)) s.
Proof.
  intros Hx. rewrite zoom_eq. unfold revoke_api_token, update_row, bind, gets. simpl.
  by rewrite Hx.
Qed.
End local.

(** ** Properties *)

(** Within one window exactly the quota gets through.  With [c] calls
    already counted in a window that started at [start], of the next [n] calls,
    all made before the window is a minute old, the i-th is let through exactly if
    it is still within the limit; the refused ones raise and are counted too. *)
Theorem rate_limit_window `{Env} `{Crypto} `{Jwt} `{Hub} (principal : Principal)
    (route : string) (max : Z) (n : nat) (s s' : AuthState) (allowed : list bool)
    (start : utc) (c : Z) :
  0 < max →
  au_rates s !! rate_limit_key principal route
    = Some (mkRateLimit (rate_limit_key principal route) start c) →
  rate_calls principal route max n s = (s', allowed) →
  (∀ l, clk_last (au_process s') = Some l → l - start < seconds 60) →
  allowed = (λ i, c + Z.of_nat i + 1 <=? max) <$> seq 0 n
  ∧ au_rates s' !! rate_limit_key principal route
    = Some (mkRateLimit (rate_limit_key principal route) start (c + Z.of_nat n)).
Proof.
  intros Hmax. set (key := rate_limit_key principal route).
  revert s c allowed. induction n as [|n IH]; intros s c allowed Hrow Hrun Hlast.
  - injection Hrun as <- <-. split; [done|]. rewrite Hrow. do 2 f_equal. lia.
  - simpl in Hrun. destruct (check_rate_limit_run principal route max s Hmax)
      as (now & Hnow & Hrates & Hok & l1 & Hl1 & Hle). fold key in Hrates, Hok.
    destruct (check_rate_limit principal route max s) as [s1 r]. simpl in *.
    pose proof (rate_calls_clock principal route max n s1 l1 Hmax Hl1) as (l' & Hl' & Hle').
    destruct (rate_calls principal route max n s1) as [s2 rs] eqn:Hrest. simpl in Hl'.
    injection Hrun as <- <-. specialize (Hlast l' Hl').
    rewrite Hrow in Hrates, Hok. unfold next_rate in Hrates, Hok. simpl in Hrates, Hok.
    destruct (Z.leb_spec (seconds 60) (now - start)); [lia|]. simpl in *.
    destruct (IH s1 (c + 1) rs) as [Hrs Hfinal].
    + rewrite Hrates, lookup_insert_eq. done.
    + done.
    + intros l Hl. rewrite Hl in Hl'. injection Hl' as ->. done.
    + rewrite Hok, Hrs, Hfinal. split; [|do 2 f_equal; lia].
      rewrite <- seq_shift. f_equal; [do 2 f_equal; lia|].
      rewrite <- list_fmap_compose. apply list_fmap_ext. intros i x _. unfold compose.
      by replace (c + 1 + Z.of_nat x + 1) with (c + Z.of_nat (S x) + 1) by lia.
Qed.

(** C34: nobody becomes an administrator without a grant.  An admin principal
    comes from the bootstrap token, from a stored, unrevoked admin token of an
    enabled user, from an OIDC token whose role claim names an admin role, or from
    a Hub user that is an admin there or in an admin group, and is let in. *)
Theorem admin_requires_grant `{Env} `{Crypto} `{Jwt} `{Hub} (token boot : string)
    (oidc : option OidcConfig) (hub : option JupyterHubConfig) (s s' : AuthState) (p : Principal) :
  authenticate_token token boot oidc hub s = (s', Ok p) → is_admin p = true →
  token = boot
  ∨ (∃ x u, x ∈ rows (au_tokens s) ∧ t_token_hash x = hash_api_token token
       ∧ t_revoked_at x = None ∧ t_role x = RoleAdmin
       ∧ au_users s !! t_user_id x = Some u ∧ u_disabled u = false)
  ∨ (∃ c claims v, oidc = Some c ∧ oidc_enabled c = true ∧ jwt_decode token c = inl claims
       ∧ v ∈ _claim_values (claims !! oidc_role_claim c) ∧ v ∈ oidc_admin_roles c)
  ∨ (∃ c model user, hub = Some c ∧ hub_enabled c = true
       ∧ (_identify_jupyterhub_token token c s).2 = Ok model
       ∧ _jupyterhub_user_model model = Ok user ∧ hub_admin_grant user c
       ∧ _jupyterhub_user_allowed (pr_user_id p) (_jupyterhub_groups user) c = true).
Proof.
  intros Hrun Hadm%bool_decide_eq_true.
  destruct (authenticate_token_ok _ _ _ _ _ _ _ Hrun)
    as [?|[(x & u & Hx & Hu & Hd & ->)|[(c & -> & Hen & Ho)|(c & -> & Hen & Hh)]]].
  - by left.
  - right. left. apply token_by_hash_some in Hx as (Hin & Hhash & Hrev).
    exists x, u. by split_and!.
  - right. right. left. apply oidc_ok in Ho as (claims & Hj & Hrole & _).
    rewrite Hadm in Hrole. symmetry in Hrole. apply role_from_claims_admin in Hrole as (v & ? & ?).
    exists c, claims, v. by split_and!.
  - right. right. right. apply hub_ok in Hh as (model & user & Hid & Hu & _ & Hal & Hrole).
    rewrite Hadm in Hrole. symmetry in Hrole. apply hub_role_admin in Hrole.
    exists c, model, user. by split_and!.
Qed.

(** C35: A token works from its creation to its revocation.  The raw value
    [create_api_token] hands out authenticates as its user, role and project as
    long as the user is enabled; after the revocation it is refused, when no
    external provider is configured. *)
Theorem api_token_lifetime `{Env} `{Crypto} `{Jwt} `{Hub} (s s1 : AuthState)
    (boot name user_id raw : string) (project_id : option string) (role : PrincipalRole)
    (token : ApiTokenRecord) (u : UserRecord) (revoked_at : utc) :
  create_api_token name user_id project_id role s = (s1, Ok (token, raw)) →
  au_users s !! user_id = Some u → u_disabled u = false → raw ≠ boot →
  (∀ x, x ∈ rows (au_tokens s) → t_token_hash x ≠ hash_api_token raw) →
  authenticate_token raw boot None None s1
    = (s1, Ok (mkPrincipal user_id (t_id token) role project_id false "local"))
  ∧ let s2 := (zoom au_tokens_lens (revoke_api_token (t_id token) revoked_at) s1).1 in
    authenticate_token raw boot None None s2
      = (s2, Err (AuthError "missing or invalid bearer token" 401)).
Proof.
  intros Hcreate Hu Hd Hboot Hno. unfold create_api_token in Hcreate.
  apply bind_ok in Hcreate as (sa & raw' & Hg & Hcreate). injection Hg as Hsa Hraw.
  apply bind_ok in Hcreate as (sb & id & Hid & Hcreate).
  rewrite zoom_eq in Hid. injection Hid as Hsb Hid.
  apply bind_ok in Hcreate as (sc & now & Hnow & Hcreate).
  rewrite zoom_eq in Hnow. injection Hnow as Hsc Hnow.
  apply bind_ok in Hcreate as (sd & [] & Hsave & Hcreate).
  rewrite zoom_eq in Hsave. injection Hsave as Hsd Hsave. injection Hcreate as <- <- ->.
  assert (au_tokens sc = au_tokens s) as Htokens by by subst.
  assert (au_users sc = au_users s) as Husers by by subst.
  clear Hsa Hsb Hsc Hid Hnow Hraw. set (x := mkApiToken _ _ _ _ _ _ _ _) in *.
  simpl in Hsd, Hsave. rewrite Htokens in Hsd, Hsave.
  destruct (save_api_token x (au_tokens s)) as [ts r] eqn:Hins. simpl in Hsd, Hsave. subst r.
  apply insert_row_ok in Hins as [Hnew ->].
  pose proof (token_by_hash_insert (au_tokens s) x Hnew eq_refl Hno) as Hfind.
  rewrite <- Hsd. split.
  - rewrite (authenticate_found _ _ _ x u); [done|done|done| |done]. simpl. by rewrite Husers.
  - cbv zeta. rewrite (revoke_run _ _ _ x) by (simpl; by rewrite lookup_insert_eq).
    apply authenticate_unknown; [done|]. simpl. rewrite insert_insert_eq.
    apply token_by_hash_none. intros y Hy Hh.
    apply elem_of_rows_insert in Hy as [->|Hy]; [done| |done]. by destruct (Hno y Hy).
Qed.

(** ** Runs on concrete inputs *)

Definition plain_crypto : Crypto :=
  {| sha256_hex := λ s, "h:" +:+ s; token_urlsafe := λ n, "tok" +:+ pretty n |}.
Definition no_jwt : Jwt := {| jwt_decode := λ _ _, inr "no key" |}.
Definition admin_hub : Hub := {|
  hub_get := λ n _ _, HubJson (JObj [("name", JStr "ada"); ("admin", JBool false);
                                      ("groups", JList [JStr "ops"])]) |}.
Definition ops_config : JupyterHubConfig :=
  mkHub true (Some "http://hub/api/") (Some "secret") 0 [] ["ops"] ["ops"] [] ∅ (Some "p1").

Definition sample_user : UserRecord := mkUser "u1" "a@b" "Ada" 1 false.
Definition sample_auth (rates : table RateLimitRecord) : AuthState :=
  mkAuthState init_process {[ "u1" := sample_user ]} ∅ ∅ ∅ rates 0 0 ∅.
Definition sample_principal : Principal := mkPrincipal "u1" "t1" RoleMember None false "local".

Definition counted : table RateLimitRecord :=
  {[ "t1:/jobs" := mkRateLimit "t1:/jobs" 900 1 ]}.

Lemma rate_limit_window_witness :
  (@rate_calls frozen_env sample_principal "/jobs" 2 3 (sample_auth counted)).2
  = [true; false; false].
Proof.
  destruct (@rate_calls frozen_env sample_principal "/jobs" 2 3 (sample_auth counted))
    as [s' allowed] eqn:E.
  destruct (@rate_limit_window frozen_env plain_crypto no_jwt admin_hub sample_principal "/jobs"
              2 3 (sample_auth counted) s' allowed 900 1) as [-> _].
  - lia.
  - vm_compute. reflexivity.
  - exact E.
  - intros l. replace s' with
      (@rate_calls frozen_env sample_principal "/jobs" 2 3 (sample_auth counted)).1 by (by rewrite E).
    assert (clk_last (au_process
      (@rate_calls frozen_env sample_principal "/jobs" 2 3 (sample_auth counted)).1) = Some 1004) as ->
      by (vm_compute; reflexivity).
    intros [= <-]. unfold seconds. lia.
  - reflexivity.
Defined.

Definition hub_login : AuthState * result Principal :=
  @authenticate_token frozen_env plain_crypto no_jwt admin_hub "abc" "boot" None (Some ops_config)
    (sample_auth ∅).

Lemma admin_requires_grant_witness :
  ∃ s' p user, hub_login = (s', Ok p) ∧ is_admin p = true ∧ hub_admin_grant user ops_config.
Proof.
  destruct hub_login as [s' [p|e]] eqn:E; [|vm_compute in E; discriminate E].
  assert (is_admin p = true) as Hadm.
  { assert (match hub_login.2 with Ok p => is_admin p | Err _ => false end = true) as H
      by (vm_compute; reflexivity). by rewrite E in H. }
  destruct (@admin_requires_grant frozen_env plain_crypto no_jwt admin_hub "abc" "boot" None
              (Some ops_config) (sample_auth ∅) s' p E Hadm)
    as [H|[(x & u & Hx & _)|[(c & _ & _ & H & _)|(c & model & user & [= <-] & _ & _ & _ & Hg & _)]]].
  - discriminate H.
  - vm_compute in Hx. by apply not_elem_of_nil in Hx.
  - discriminate H.
  - exists s', p, user. split_and!; [reflexivity|exact Hadm|exact Hg].
Defined.

Definition created : AuthState * result (ApiTokenRecord * string) :=
  @create_api_token frozen_env plain_crypto "ci" "u1" (Some "p1") RoleMember (sample_auth ∅).

Lemma api_token_lifetime_witness :
  ∃ s1 token raw, created = (s1, Ok (token, raw))
    ∧ (@authenticate_token frozen_env plain_crypto no_jwt admin_hub raw "boot" None None s1).2
      = Ok (mkPrincipal "u1" (t_id token) RoleMember (Some "p1") false "local").
Proof.
  destruct created as [s1 [[token raw]|e]] eqn:E; [|vm_compute in E; discriminate E].
  exists s1, token, raw. split; [reflexivity|].
  destruct (@api_token_lifetime frozen_env plain_crypto no_jwt admin_hub (sample_auth ∅) s1 "boot"
              "ci" "u1" raw (Some "p1") RoleMember token sample_user 99) as [H _].
  - exact E.
  - vm_compute. reflexivity.
  - reflexivity.
  - intros ->. vm_compute in E. discriminate E.
  - intros x Hx. vm_compute in Hx. by apply not_elem_of_nil in Hx.
  - by rewrite H.
Defined.
