(* ===== verification/Urls.v ===== *)
(** * URLs: [urllib.parse]

    Quoting, and the parts of a split URL that [Containers] does not name.  URLs are
    taken without control characters; a host in brackets is not taken apart. *)

From Stdlib Require Import Ascii.
From S2P Require Import Prelude Contracts Text PyValues Containers Auth.

Definition hex_value (c : ascii) : option nat :=
  let n := nat_of_ascii (lower_char c) in
  if Nat.leb 48 n && Nat.leb n 57 then Some (n - 48)%nat
  else if Nat.leb 97 n && Nat.leb n 102 then Some (n - 87)%nat else None.
(** [urllib.parse.unquote] *)
Fixpoint unquote_bytes (l : list ascii) : list ascii :=
  match l with
  | [] => []
  | c :: l' =>
      match l' with
      | a :: b :: rest =>
          if Ascii.eqb c "%" then
            match hex_value a, hex_value b with
            | Some x, Some y => ascii_of_nat (16 * x + y) :: unquote_bytes rest
            | _, _ => c :: unquote_bytes l'
            end
          else c :: unquote_bytes l'
      | _ => c :: unquote_bytes l'
      end
  end.
Definition unquote (s : string) : string := text (decode_replace (unquote_bytes (chars s))).
(** [urllib.parse.quote(s, safe=...)] *)
Definition quote_safe (safe : list ascii) (s : string) : string :=
  text (flat_map (λ c, if unreserved c || bool_decide (c ∈ safe) then [c]
                       else ["%"%char; upper_hex (Nat.div (nat_of_ascii c) 16); upper_hex (Nat.modulo (nat_of_ascii c) 16)])
          (chars s)).
(** [urlsplit]: a network location with one bracket only is refused; the path is what
    stands before a query or a fragment. *)
Definition urlsplit_checked (s : string) : result SplitUrl :=
  let u := urlsplit s in
  let netloc := chars (default EmptyString (url_netloc u)) in
  if xorb (bool_decide ("["%char ∈ netloc)) (bool_decide ("]"%char ∈ netloc))
  then Err (ValueError "Invalid IPv6 URL") else Ok u.
Definition url_path_only (u : SplitUrl) : string :=
  text (fst (partition_at "?" (fst (partition_at "#" (chars (url_path u)))))).
Definition url_fragment (u : SplitUrl) : string := text (default [] (snd (partition_at "#" (chars (url_path u))))).
Definition url_query (u : SplitUrl) : string :=
  text (default [] (snd (partition_at "?" (fst (partition_at "#" (chars (url_path u))))))).
(** [.username]: present when the network location holds an at sign *)
Definition url_username (u : SplitUrl) : option string :=
  match url_netloc u with
  | None => None
  | Some netloc => match rsplit_once "@" (chars netloc) with
                   | Some (userinfo, _) => Some (text (fst (partition_at ":" userinfo)))
                   | None => None
                   end
  end.
Definition url_password (u : SplitUrl) : option string :=
  match url_netloc u with
  | None => None
  | Some netloc => match rsplit_once "@" (chars netloc) with
                   | Some (userinfo, _) => text <$> snd (partition_at ":" userinfo)
                   | None => None
                   end
  end.
(** [.port]: an integer up to 65535, or the ValueError *)
Definition url_port (u : SplitUrl) : result (option Z) :=
  let netloc := chars (default EmptyString (url_netloc u)) in
  let hostinfo := match rsplit_once "@" netloc with Some (_, h) => h | None => netloc end in
  match snd (partition_at ":" hostinfo) with
  | None | Some [] => Ok None
  | Some digits =>
      if forallb (λ c, match digit c with Some _ => true | None => false end) digits then
        let port := foldl (λ acc c, 10 * acc + default 0 (digit c)) 0 digits in
        if port <=? 65535 then Ok (Some port) else Err (ValueError "Port out of range 0-65535")
      else Err (ValueError ("Port could not be cast to integer value as " +:+ py_repr (text digits)))
  end.

Example url_examples :
  let u := urlsplit "http://Me:pw@Proxy.local:3128/a?x=1#f" in
  (url_scheme u, url_hostname u, url_username u, url_password u, url_port u, url_path_only u, url_query u, url_fragment u)
  = ("http", Some "proxy.local", Some "Me", Some "pw", Ok (Some 3128), "/a", "x=1", "f").
Proof. vm_compute. reflexivity. Qed.

(** ** Query strings *)

Definition plus_space (c : ascii) : ascii := if Ascii.eqb c "+" then " "%char else c.
(** [unquote(text.replace('+', ' '))] *)
Definition unquote_plus (l : list ascii) : string := unquote (text (plus_space <$> l)).
(** [parse_qsl(qs, keep_blank_values=True)] *)
Definition parse_qsl (query : string) : list (string * string) :=
  (λ w, let '(name, value) := partition_at "=" w in (unquote_plus name, unquote_plus (default [] value)))
    <$> filter (λ w, w ≠ []) (split_on "&" (chars query)).
(** [quote_plus] and [urlencode] of pairs of strings *)
Definition quote_plus (s : string) : string :=
  text ((λ c, if Ascii.eqb c " " then "+"%char else c) <$> chars (quote_safe [" "%char] s)).
Definition urlencode (pairs : list (string * string)) : string :=
  text (join_with "&" ((λ kv, chars (quote_plus kv.1 +:+ "=" +:+ quote_plus kv.2)) <$> pairs)).
(** [urlunsplit] for a network location, without a fragment *)
Definition urlunsplit_origin (scheme netloc path query : string) : string :=
  scheme +:+ "://" +:+ netloc +:+ (if starts_with "/" path || negb (truthy path) then path else "/" +:+ path)
  +:+ (if truthy query then "?" +:+ query else EmptyString).

Example query_examples :
  parse_qsl "token=a%20b&x&&y=1+2&token=" = [("token", "a b"); ("x", EmptyString); ("y", "1 2"); ("token", EmptyString)]
  ∧ urlencode [("a b", "c&d"); ("e", EmptyString)] = "a+b=c%26d&e=".
Proof. split; vm_compute; reflexivity. Qed.

(** *** The origin of a URL is what stands before its path *)

Lemma split_netloc_spec l :
  let '(a, b) := split_netloc l in
  l = a ++ b ∧ Forall (λ c, netloc_end c = false) a ∧ match b with c :: _ => netloc_end c = true | [] => True end.
Proof.
  induction l as [|c l IH]; simpl; [by split_and!|]. destruct (netloc_end c) eqn:Hc; [by split_and!|].
  destruct (split_netloc l) as [a b]. destruct IH as (-> & Ha & Hb). split_and!; [done|by constructor|done].
Qed.
Lemma split_netloc_app a b :
  Forall (λ c, netloc_end c = false) a → match b with c :: _ => netloc_end c = true | [] => True end →
  split_netloc (a ++ b) = (a, b).
Proof.
  intros Ha Hb. induction Ha as [|c a Hc Ha IH]; simpl; [destruct b as [|c b]; simpl; [done|by rewrite Hb]|].
  by rewrite Hc, IH.
Qed.
(** The network location of a split URL holds no slash, question mark or hash. *)
Lemma urlsplit_netloc s netloc :
  url_netloc (urlsplit s) = Some netloc → Forall (λ c, netloc_end c = false) (chars netloc).
Proof.
  unfold urlsplit. destruct (match partition_at ":" (chars s) with (_, _) => _ end) as [scheme rest].
  destruct rest as [|x [|y l]]; [done..|]. destruct (Ascii.eqb x "/" && Ascii.eqb y "/"); [|done].
  pose proof (split_netloc_spec l) as Hl. destruct (split_netloc l) as [a b]. simpl. intros [= <-].
  rewrite chars_text. by destruct Hl as (_ & Ha & _).
Qed.
(** Putting a URL together and splitting it again yields its scheme and network location,
    whatever the path and the query are. *)
Lemma urlsplit_unsplit scheme netloc path query :
  scheme ∈ ["ws"; "wss"; "http"; "https"] → Forall (λ c, netloc_end c = false) (chars netloc) →
  let u := urlsplit (urlunsplit_origin scheme netloc path query) in
  url_scheme u = scheme ∧ url_netloc u = Some netloc.
Proof.
  intros Hs Hn. unfold urlunsplit_origin.
  set (rest := (if starts_with "/" path || negb (truthy path) then path else "/" +:+ path)
                +:+ (if truthy query then "?" +:+ query else EmptyString)).
  assert (Hrest : match chars rest with c :: _ => netloc_end c = true | [] => True end).
  { subst rest. rewrite chars_app. destruct path as [|c path].
    - simpl. by destruct query as [|c query].
    - destruct (starts_with "/" (String c path)) eqn:Hp; simpl; [|done].
      unfold starts_with in Hp. cbn [String.prefix] in Hp. destruct (ascii_dec "/" c) as [<-|]; [done|discriminate Hp]. }
  set_unfold in Hs. destruct Hs as [->|[->|[->|[->|[]]]]]; unfold urlsplit; rewrite !chars_app; simpl;
    rewrite (split_netloc_app (chars netloc) (chars rest) Hn Hrest); simpl; by rewrite text_chars.
Qed.
