(* ===== verification/DirectoryUi.v ===== *)
(** * The directory's browser service ([src/src/goblin_king/directory_ui.py])

    A service behind JupyterHub: it logs a browser in through the Hub's OAuth, keeps the
    session on its side under a signed cookie, serves the static pages, takes uploads and
    forwards calls to the API and the repository with the session's token.

    [Site] is the service: its clock and its random numbers as readings made so far, the
    sessions, the requests handed to [urlopen], and everything outside, of which nothing is
    assumed.  [UiHost] is what the code asks of Python, the network and the files.  Times are
    microseconds, in the state cookie as well.  A handler takes what FastAPI read from the
    request; paths are the decoded ones, and what a redirect does to its URL is Starlette's.
    Handlers run one after another; two that run at once share only the sessions, each access
    of which is one operation on a dictionary. *)

From Stdlib Require Import Ascii.
From S2P Require Import Prelude CausalTime Contracts Text Base64 Paths PyValues Bundles Containers Auth Urls.

(** ** Settings *)

Record DirectoryUISettings := mkUi {
  ui_api_url : string; ui_repository_url : option string; ui_hub_api_url : string; ui_hub_base_url : string;
  ui_public_url : option string; ui_service_name : string; ui_service_prefix : string; ui_service_token : option string;
  ui_service_token_env : string; ui_request_timeout : Z; ui_session_ttl : Z; ui_state_ttl : Z;
  ui_session_cookie : string; ui_state_cookie : string; ui_admin_groups : list string; ui_static_root : option PosixPath;
  ui_max_bundle_bytes : Z; ui_max_source_bytes : Z; ui_max_requirements_bytes : Z; ui_max_files : Z }.

Definition strip_slashes (s : string) : string := rstrip_slash (text (drop_slashes (chars s))).
Definition normalized_prefix (s : DirectoryUISettings) : string := "/" +:+ strip_slashes (ui_service_prefix s).
Definition client_id (s : DirectoryUISettings) : string := "service-" +:+ ui_service_name s.
Definition bundle_limits (s : DirectoryUISettings) : DirectoryBundleLimits :=
  mkBundleLimits (ui_max_bundle_bytes s) (ui_max_source_bytes s) (ui_max_requirements_bytes s) (ui_max_files s).

(** ** Requests, answers, cookies *)

Record UpRequest := mkUp {
  up_method : string; up_url : string; up_data : option string; up_headers : list (string * string) }.
Inductive UpAnswer :=
| UpReplied (status : Z) (headers : list (string * string)) (body : string)
| UpErrorReplied (status : Z) (headers : option (list (string * string))) (body : string).

Inductive Cookie :=
| SetCookie (name value : string) (max_age : Z) (path : string)
| DeleteCookie (name path : string).
Inductive UiResponse :=
| Redirect (url : string) (cookies : list Cookie)
| JsonResponse (payload : list (string * Json)) (cookies : list Cookie)
| Preview (preview : DirectoryBundlePreview)
| Forwarded (status : Z) (body : string) (media_type : option string) (headers : list (string * string))
| FileResponse (path : PosixPath)
| FallbackPage.

(** What a handler reads of a browser's request *)
Record Browser := mkBrowser {
  br_cookies : list (string * string); br_method : string; br_path : string; br_query : string;
  br_content_type : option string; br_body : string }.

Record DirectoryUISession := mkUiSession {
  us_session_id : string; us_user_name : string; us_token : string; us_groups : list string;
  us_is_admin : bool; us_expires_at : Z }.

Record Site (Outside : Type) := mkSite {
  si_clock : nat; si_random : nat; si_sessions : gmap string DirectoryUISession; si_sent : list UpRequest;
  si_outside : Outside }.
Arguments mkSite {Outside}.
Arguments si_clock {Outside}.
Arguments si_random {Outside}.
Arguments si_sessions {Outside}.
Arguments si_sent {Outside}.
Arguments si_outside {Outside}.

Class UiHost (Outside : Type) := {
  ui_now : nat → Z;
  hmac_sha256_hex : string → string → string;
  ui_urlopen : UpRequest → M Outside UpAnswer;
  ui_json_loads : string → result Json;
  ui_os_error : exn → bool;
  (** [float] of a text, in microseconds *)
  float_text : string → result Z;
  ui_getenv : string → option string;
  ui_resolve : PosixPath → PosixPath;
  ui_exists : PosixPath → bool;
  ui_is_file : PosixPath → bool;
  (** the packaged pages, or those below the working directory *)
  default_static_root : PosixPath
}.

(** ** The environment ([from_env]) *)

Definition _first_env `{UiHost Outside} (names : list string) : option string :=
  head (omap (λ n, match ui_getenv n with Some v => if truthy v then Some v else None | None => None end) names).
Definition _env_list (value : string) : list string :=
  filter (λ s, truthy s = true) (strip <$> (text <$> split_on "," (chars value))).
Definition env_name (suffix : string) : string := "GOBLIN_KING_DIRECTORY_UI_" +:+ suffix.
Section from_env.
Context `{UiHost Outside}.
Definition env_text (suffix otherwise : string) : string := default otherwise (_first_env [env_name suffix]).
Definition env_opt (suffix : string) : option string := _first_env [env_name suffix].
Definition env_seconds (suffix : string) (otherwise : Z) : result Z :=
  match env_opt suffix with None => Ok otherwise | Some v => float_text v end.
Definition env_int (suffix : string) (otherwise : Z) : result Z :=
  match env_opt suffix with None => Ok otherwise | Some v => py_int_text v end.
(** The token of the variable that is named, before the token itself *)
Definition env_token : option string :=
  match env_opt "SERVICE_TOKEN_ENV" with
  | Some name => match ui_getenv name with
                 | Some t => if truthy t then Some t else env_opt "SERVICE_TOKEN"
                 | None => env_opt "SERVICE_TOKEN"
                 end
  | None => env_opt "SERVICE_TOKEN"
  end.
Definition from_env : result DirectoryUISettings :=
  let? request_timeout := env_seconds "REQUEST_TIMEOUT_SECONDS" 10000000 in
  let? session_ttl := env_seconds "SESSION_TTL_SECONDS" (8 * 60 * 60 * 1000000) in
  let? state_ttl := env_seconds "STATE_TTL_SECONDS" (10 * 60 * 1000000) in
  let? max_bundle := env_int "MAX_BUNDLE_BYTES" (5 * 1024 * 1024) in
  let? max_source := env_int "MAX_SOURCE_BYTES" (1024 * 1024) in
  let? max_requirements := env_int "MAX_REQUIREMENTS_BYTES" (64 * 1024) in
  let? max_files := env_int "MAX_FILES" 50 in
  if negb ((0 <? request_timeout) && forallb (λ t, (0 <? t) && (t mod 1000000 =? 0)) [session_ttl; state_ttl])
  then Err (ValidationError "DirectoryUISettings")
  else Ok (mkUi (env_text "API_URL" "http://goblin-king-api:8000") (env_opt "REPOSITORY_URL")
        (env_text "HUB_API_URL" "http://hub.default.svc.cluster.local:8081/hub/api") (env_text "HUB_BASE_URL" "/hub/")
        (env_opt "PUBLIC_URL") (env_text "SERVICE_NAME" "goblin-directory")
        (env_text "SERVICE_PREFIX" "/services/goblin-directory/") env_token
        (env_text "SERVICE_TOKEN_ENV" "GOBLIN_KING_DIRECTORY_UI_SERVICE_TOKEN") request_timeout session_ttl state_ttl
        (env_text "SESSION_COOKIE_NAME" "goblin_directory_session") (env_text "STATE_COOKIE_NAME" "goblin_directory_oauth_state")
        (match env_opt "ADMIN_GROUPS" with Some v => _env_list v | None => ["goblin-admins"] end)
        (parse_path <$> env_opt "STATIC_ROOT") max_bundle max_source max_requirements max_files).
End from_env.

(** ** Signed cookies *)

Section ui.
Context {Outside : Type} `{Crypto} `{UiHost Outside} `{BundleReaders} (settings : DirectoryUISettings).
Notation Ui A := (M (Site Outside) A).

Definition _cookie_secret : string :=
  match ui_service_token settings with
  | Some t => if truthy t then t else "local-directory-ui-development-secret"
  | None => "local-directory-ui-development-secret"
  end.
Definition _signed_value (value : string) : string := value +:+ "." +:+ hmac_sha256_hex _cookie_secret value.
(** [hmac.compare_digest] of two texts refuses one that is not ASCII. *)
Definition _decode_signed_value (value : option string) : result (option string) :=
  match value with
  | None => Ok None
  | Some v =>
      match rsplit_once "." (chars v) with
      | None => Ok None
      | Some (raw, signature) =>
          if negb (is_ascii (text signature))
          then Err (TypeError "comparing strings with non-ASCII characters is not supported")
          else Ok (if String.eqb (text signature) (hmac_sha256_hex _cookie_secret (text raw)) then Some (text raw) else None)
      end
  end.
Definition _encode_signed_json (payload : list (string * Json)) : string :=
  _signed_value (text (rstrip_pads (urlsafe_b64encode (chars (json_canonical (JObj payload)))))).
Definition _decode_signed_json_cookie (value : option string) : result (option (list (string * Json))) :=
  let? encoded := _decode_signed_value value in
  match encoded with
  | None => Ok None
  | Some e =>
      if negb (truthy e) then Ok None
      else if negb (is_ascii e) then Ok None
      else
        let padding := replicate (Z.to_nat ((- Z.of_nat (String.length e)) mod 4)) pad_char in
        match urlsafe_b64decode (chars e ++ padding) with
        | None => Ok None
        | Some raw =>
            match ui_json_loads (text raw) with
            | Ok (JObj payload) => Ok (Some payload)
            | Ok _ => Ok None
            | Err e => if is_value_error e then Ok None else Err e
            end
        end
  end.

(** ** Clock, random numbers, requests *)

Definition time_now : Ui Z :=
  λ s, (mkSite (S (si_clock s)) (si_random s) (si_sessions s) (si_sent s) (si_outside s), Ok (ui_now (si_clock s))).
Definition new_token : Ui string :=
  λ s, (mkSite (si_clock s) (S (si_random s)) (si_sessions s) (si_sent s) (si_outside s), Ok (token_urlsafe (si_random s))).
Definition put_sessions (f : gmap string DirectoryUISession → gmap string DirectoryUISession) : Ui unit :=
  modify (λ s, mkSite (si_clock s) (si_random s) (f (si_sessions s)) (si_sent s) (si_outside s)).
Definition si_outside_lens : lens (Site Outside) Outside :=
  Lens si_outside (λ o s, mkSite (si_clock s) (si_random s) (si_sessions s) (si_sent s) o).
Definition urlopen_logged (q : UpRequest) : Ui UpAnswer :=
  do* modify (λ s, mkSite (si_clock s) (si_random s) (si_sessions s) (si_sent s ++ [q]) (si_outside s)) in
  zoom si_outside_lens (ui_urlopen q).

(** ** The session store *)

Definition store_cleanup : Ui unit :=
  let* now := time_now in put_sessions (filter (λ kv, ¬ us_expires_at kv.2 ≤ now)).
Definition store_create (user_name token : string) (groups : list string) (is_admin : bool) (ttl : Z) : Ui DirectoryUISession :=
  do* store_cleanup in
  let* id := new_token in
  let* now := time_now in
  let session := mkUiSession id user_name token groups is_admin (now + ttl) in
  do* put_sessions (insert id session) in
  ret session.
Definition store_get (session_id : string) : Ui (option DirectoryUISession) :=
  let* found := gets (λ s, si_sessions s !! session_id) in
  match found with
  | None => ret None
  | Some session =>
      let* now := time_now in
      if us_expires_at session <=? now then do* put_sessions (delete session_id) in ret None else ret (Some session)
  end.
Definition store_delete (session_id : string) : Ui unit := put_sessions (delete session_id).

Definition cookie (request : Browser) (name : string) : option string := dict_get (br_cookies request) name.
Definition _optional_session (request : Browser) : Ui (option DirectoryUISession) :=
  let* session_id := lift_result (_decode_signed_value (cookie request (ui_session_cookie settings))) in
  match session_id with
  | Some i => if truthy i then store_get i else ret None
  | None => ret None
  end.
Definition _require_session (request : Browser) : Ui DirectoryUISession :=
  let* session := _optional_session request in
  match session with Some s => ret s | None => raise (HTTPException 401 "directory UI login required") end.

(** ** The Hub *)

Definition hub_url (path : string) : string := rstrip_slash (ui_hub_api_url settings) +:+ path.
(** [response.read().decode("utf-8")] and [json.loads] of it *)
Definition parsed (body : string) : result Json :=
  match utf8_decode body with
  | None => Err (OtherValueError "UnicodeDecodeError" "'utf-8' codec can't decode the body")
  | Some raw => ui_json_loads raw
  end.
(** [except OSError], which FastAPI's exceptions are not, and [except json.JSONDecodeError] *)
Definition os_error (e : exn) : bool := match e with HTTPException _ _ => false | _ => ui_os_error e end.
Definition caught (e : exn) : bool := is_json_decode_error e || os_error e.

Definition exchange_request (service_token code redirect_uri : string) : UpRequest :=
  mkUp "POST" (hub_url "/oauth2/token")
    (Some (urlencode [("client_id", client_id settings); ("client_secret", service_token);
                      ("grant_type", "authorization_code"); ("code", code); ("redirect_uri", redirect_uri)]))
    [("Content-Type", "application/x-www-form-urlencoded"); ("Accept", "application/json")].
Definition hub_request (url token : string) : UpRequest :=
  mkUp "GET" url None [("Accept", "application/json"); ("Authorization", "token " +:+ token)].
Definition _exchange_oauth_code (code redirect_uri : string) : Ui string :=
  match ui_service_token settings with
  | None => raise (HTTPException 500 "directory UI service token is required")
  | Some service_token =>
      do* raise_if (negb (truthy service_token)) (HTTPException 500 "directory UI service token is required") in
      let* payload := try_catch
        (let* answer := urlopen_logged (exchange_request service_token code redirect_uri) in
         match answer with
         | UpReplied _ _ body => lift_result (parsed body)
         | UpErrorReplied code _ body =>
             raise (HTTPException 502 ("Hub OAuth token exchange failed with " +:+ pretty code +:+ ": "
                                       +:+ text (decode_replace (chars body))))
         end)
        (λ e, if is_json_decode_error e
              then raise (HTTPException 502 ("Hub OAuth token exchange returned invalid JSON: " +:+ exn_str e))
              else if os_error e then raise (HTTPException 502 ("Hub OAuth token exchange failed: " +:+ exn_str e))
              else raise e) in
      match payload with
      | JObj o => match obj_get o "access_token" with
                  | Some (JStr token) =>
                      if truthy token then ret token else raise (HTTPException 502 "Hub OAuth response missing access token")
                  | _ => raise (HTTPException 502 "Hub OAuth response missing access token")
                  end
      | _ => raise (OtherException "AttributeError" "object has no attribute 'get'")
      end
  end.

(** The model of a user, by itself or below a key *)
Definition hub_user (o : list (string * Json)) : list (string * Json) :=
  match obj_get o "user" with Some (JObj user) => user | _ => o end.
Definition _hub_json (url token invalid_message : string) : Ui (list (string * Json)) :=
  let* payload := try_catch
    (let* answer := urlopen_logged (hub_request url token) in
     match answer with
     | UpReplied _ _ body => lift_result (parsed body)
     | UpErrorReplied code _ _ =>
         raise (if bool_decide (code ∈ [401; 403; 404]) then HTTPException 401 invalid_message
                else HTTPException 503 "Hub API request failed")
     end)
    (λ e, if caught e then raise (HTTPException 503 "Hub API is unavailable") else raise e) in
  match payload with
  | JObj o => ret (hub_user o)
  | _ => raise (HTTPException 503 "Hub API response was not an object")
  end.
Definition _identify_hub_user (token : string) : Ui (list (string * Json)) :=
  _hub_json (hub_url "/user") token "Hub OAuth token is invalid".
Definition _load_hub_user_detail (user_name : string) : Ui (option (list (string * Json))) :=
  match ui_service_token settings with
  | Some service_token =>
      if truthy service_token then
        try_catch
          (let* user := _hub_json (hub_url ("/users/" +:+ quote user_name)) service_token
                          "directory UI service token is invalid" in
           ret (Some user))
          (λ e, match e with
                | HTTPException status _ => if bool_decide (status ∈ [401; 403; 404; 502; 503]) then ret None else raise e
                | _ => raise e
                end)
      else ret None
  | None => ret None
  end.
Definition group_name_of (group : Json) : option string :=
  match group with
  | JStr s => Some s
  | JObj o => match obj_get o "name" with Some (JStr s) => Some s | _ => None end
  | _ => None
  end.
Definition _hub_groups (model : list (string * Json)) : list string :=
  match obj_get model "groups" with Some (JList groups) => omap group_name_of groups | _ => [] end.

Definition _callback_url : string :=
  let callback_path := normalized_prefix settings +:+ "/oauth_callback" in
  match ui_public_url settings with
  | Some u => if truthy u then rstrip_slash u +:+ callback_path else callback_path
  | None => callback_path
  end.
Definition _hub_oauth_authorize_url : string := rstrip_slash (ui_hub_base_url settings) +:+ "/api/oauth2/authorize".

(** ** Logging in and out *)

Definition next_path (request : Browser) : string :=
  if truthy (br_query request) then br_path request +:+ "?" +:+ br_query request else br_path request.
Definition state_payload (state next : string) (expires_at : Z) : list (string * Json) :=
  [("state", JStr state); ("next", JStr next); ("expires_at", JInt expires_at)].
Definition _oauth_redirect (request : Browser) : Ui UiResponse :=
  do* raise_if (negb (truthy_opt (ui_service_token settings))) (HTTPException 500 "directory UI service token is required") in
  let* state := new_token in
  let* now := time_now in
  let payload := state_payload state (next_path request) (now + ui_state_ttl settings) in
  let params := [("client_id", client_id settings); ("redirect_uri", _callback_url); ("response_type", "code"); ("state", state)] in
  ret (Redirect (_hub_oauth_authorize_url +:+ "?" +:+ urlencode params)
         [SetCookie (ui_state_cookie settings) (_encode_signed_json payload) (ui_state_ttl settings) (normalized_prefix settings)]).

(** [float(value)], in microseconds *)
Definition py_float (j : Json) : result Z :=
  match j with
  | JInt z => Ok z
  | JBool b => Ok (if b then 1000000 else 0)
  | JStr s => float_text s
  | _ => Err (TypeError "float() argument must be a string or a real number")
  end.
Definition oauth_callback (request : Browser) (code state : string) : Ui UiResponse :=
  let* oauth_state := lift_result (_decode_signed_json_cookie (cookie request (ui_state_cookie settings))) in
  match oauth_state with
  | None | Some [] => raise (HTTPException 400 "invalid OAuth state")
  | Some stored =>
      do* raise_if (negb (py_eq (default JNull (obj_get stored "state")) (JStr state))) (HTTPException 400 "invalid OAuth state") in
      let* expires_at := lift_result (py_float (default (JInt 0) (obj_get stored "expires_at"))) in
      let* now := time_now in
      do* raise_if (expires_at <=? now) (HTTPException 400 "expired OAuth state") in
      let* token := _exchange_oauth_code code _callback_url in
      let* user := _identify_hub_user token in
      match obj_get user "name" with
      | Some (JStr user_name) =>
          do* raise_if (negb (truthy user_name)) (HTTPException 502 "Hub user response missing name") in
          let* user_detail := _load_hub_user_detail user_name in
          let groups := _hub_groups (match user_detail with Some ((_ :: _) as d) => d | _ => user end) in
          let* session := store_create user_name token groups
            (existsb (λ g, bool_decide (g ∈ ui_admin_groups settings)) groups) (ui_session_ttl settings) in
          let next := match obj_get stored "next" with
                      | Some n => if py_truthy n then py_str n else normalized_prefix settings +:+ "/"
                      | None => normalized_prefix settings +:+ "/"
                      end in
          ret (Redirect next
            [SetCookie (ui_session_cookie settings) (_signed_value (us_session_id session)) (ui_session_ttl settings)
               (normalized_prefix settings);
             DeleteCookie (ui_state_cookie settings) (normalized_prefix settings)])
      | _ => raise (HTTPException 502 "Hub user response missing name")
      end
  end.
Definition me (request : Browser) : Ui UiResponse :=
  let* session := _require_session request in
  ret (JsonResponse
    [("user", JStr (us_user_name session)); ("groups", JList (JStr <$> us_groups session));
     ("is_admin", JBool (us_is_admin session)); ("service_prefix", JStr (ui_service_prefix settings));
     ("repository_url", JStr (match ui_repository_url settings with
                              | Some u => if truthy u then u else ui_api_url settings
                              | None => ui_api_url settings end))] []).
Definition logout (request : Browser) : Ui UiResponse :=
  let* session_id := lift_result (_decode_signed_value (cookie request (ui_session_cookie settings))) in
  do* (match session_id with Some i => if truthy i then store_delete i else ret tt | None => ret tt end) in
  ret (JsonResponse [("ok", JBool true)] [DeleteCookie (ui_session_cookie settings) (normalized_prefix settings)]).

(** ** Forwarding *)

Definition ALLOWED_PROXY_PATHS : list string := ["/directory/"; "/repository/"; "/jobs"; "/jobs/"; "/runs"; "/runs/"].
Definition _proxy_path_allowed (path : string) : bool :=
  existsb (λ allowed, let base := rstrip_slash allowed in String.eqb path base || starts_with (base +:+ "/") path)
    ALLOWED_PROXY_PATHS.
Definition remove_prefix (prefix s : string) : string :=
  if starts_with prefix s then text (drop (String.length prefix) (chars s)) else s.
Definition _upstream_path (path : string) : string :=
  if starts_with "/directory/" path then "/repository/" +:+ remove_prefix "/directory/" path else path.
Definition _target_base_url (path : string) : string :=
  match ui_repository_url settings with
  | Some u => if starts_with "/repository/" path && truthy u then u else ui_api_url settings
  | None => ui_api_url settings
  end.
Definition HOP_BY_HOP_HEADERS : list string :=
  ["connection"; "keep-alive"; "proxy-authenticate"; "proxy-authorization"; "te"; "trailer"; "transfer-encoding"; "upgrade"].
Definition _response_headers (items : list (string * string)) : list (string * string) :=
  filter (λ kv, bool_decide (lower kv.1 ∈ HOP_BY_HOP_HEADERS ++ ["content-length"; "set-cookie"]) = false) (dict_update [] items).
(** [headers.get("content-type")] *)
Definition content_type_of (headers : list (string * string)) : option string :=
  head (omap (λ kv, if String.eqb (lower kv.1) "content-type" then Some kv.2 else None) headers).
Definition forwarded_request (session : DirectoryUISession) (method path query : string) (body content_type : option string)
    : UpRequest :=
  let upstream_path := _upstream_path path in
  let url := rstrip_slash (_target_base_url upstream_path) +:+ upstream_path in
  mkUp method (if truthy query then url +:+ "?" +:+ query else url) body
    ([("Accept", "application/json"); ("Authorization", "Bearer " +:+ us_token session)]
     ++ match content_type, body with Some t, Some _ => if truthy t then [("Content-Type", t)] else [] | _, _ => [] end).
Definition _forward_raw (session : DirectoryUISession) (method path query : string) (body content_type : option string)
    : Ui UiResponse :=
  try_catch
    (let* answer := urlopen_logged (forwarded_request session method path query body content_type) in
     ret (match answer with
          | UpReplied status headers content =>
              Forwarded status content (content_type_of headers) (_response_headers headers)
          | UpErrorReplied status (Some headers) content =>
              Forwarded status content
                (match headers with [] => Some "application/json" | _ => content_type_of headers end) (_response_headers headers)
          | UpErrorReplied status None content => Forwarded status content (Some "application/json") []
          end))
    (λ e, if os_error e then raise (HTTPException 503 ("API request failed: " +:+ exn_str e)) else raise e).
Definition _forward_json (session : DirectoryUISession) (method path : string) (payload : list (string * Json)) : Ui UiResponse :=
  _forward_raw session method path EmptyString (Some (json_dumps (JObj payload))) (Some "application/json").
Definition proxy_api (request : Browser) (path : string) : Ui UiResponse :=
  let* session := _require_session request in
  let api_path := "/" +:+ path in
  do* raise_if (negb (_proxy_path_allowed api_path)) (HTTPException 404 "directory UI path is not proxied") in
  _forward_raw session (br_method request) api_path (br_query request)
    (if truthy (br_body request) then Some (br_body request) else None) (br_content_type request).

(** ** Uploads *)

Definition read_bundle (data : string) : Ui DirectoryBundlePreview :=
  match parse_directory_bundle data (bundle_limits settings) with
  | Ok preview => ret preview
  | Err e => raise (if is_value_error e then HTTPException 400 (exn_str e) else e)
  end.
Definition preview_bundle (request : Browser) : Ui UiResponse :=
  do* _require_session request in
  let* preview := read_bundle (br_body request) in
  ret (Preview preview).
Definition submit_bundle (request : Browser) : Ui UiResponse :=
  let* session := _require_session request in
  let* preview := read_bundle (br_body request) in
  _forward_json session "POST" "/directory/entries" (submit_payload preview).

(** ** Pages *)

Definition page_root : PosixPath := match ui_static_root settings with Some r => r | None => default_static_root end.
Definition _static_response (path : string) : UiResponse :=
  let root := page_root in
  let safe_path := (if truthy (strip_slashes path) then strip_slashes path else "index.html") in
  let safe_path := if existsb (λ w, String.eqb (text w) "..") (split_on "/" (chars safe_path)) then "index.html" else safe_path in
  let candidate := ui_resolve (path_join root (parse_path safe_path)) in
  let index := path_join root (parse_path "index.html") in
  let candidate := (if bool_decide (is_Some (relative_to candidate (ui_resolve root))) then candidate else index) in
  if ui_exists candidate && ui_is_file candidate then FileResponse candidate
  else if ui_exists index then FileResponse index else FallbackPage.
(** [index] and [static_or_index] *)
Definition page (request : Browser) (path : string) : Ui UiResponse :=
  let* session := _optional_session request in
  match session with
  | None => _oauth_redirect request
  | Some _ => ret (_static_response (if truthy path then path else "index.html"))
  end.

(** ** The routes *)

Inductive Endpoint :=
| Callback (code state : string)
| Me
| Logout
| PreviewBundle
| SubmitBundle
| Proxy (path : string)
| PrefixRedirect
| Page (path : string).
Definition handle (e : Endpoint) (request : Browser) : Ui UiResponse :=
  match e with
  | Callback code state => oauth_callback request code state
  | Me => me request
  | Logout => logout request
  | PreviewBundle => preview_bundle request
  | SubmitBundle => submit_bundle request
  | Proxy path => proxy_api request path
  | PrefixRedirect => ret (Redirect (normalized_prefix settings +:+ "/") [])
  | Page path => page request path
  end.
Definition serve (requests : list (Endpoint * Browser)) (s : Site Outside) : Site Outside :=
  foldl (λ s r, (handle r.1 r.2 s).1) s requests.

(** ** Who a session belongs to *)

(** The Hub was asked, and this object is what it answers. *)
Definition hub_said (st : Site Outside) (q : UpRequest) (o : list (string * Json)) : Prop :=
  q ∈ si_sent st
  ∧ ∃ w w' status headers body, ui_urlopen q w = (w', Ok (UpReplied status headers body)) ∧ parsed body = Ok (JObj o).
(** The Hub exchanged a code for the session's token, said whose token that is and which groups
    the user is in; the session is an admin's if one of them is an admin group. *)
Definition granted (st : Site Outside) (s : DirectoryUISession) : Prop :=
  ∃ service code answer user model,
    ui_service_token settings = Some service
    ∧ hub_said st (exchange_request service code _callback_url) answer
    ∧ obj_get answer "access_token" = Some (JStr (us_token s))
    ∧ (∃ o, hub_said st (hub_request (hub_url "/user") (us_token s)) o ∧ user = hub_user o)
    ∧ obj_get user "name" = Some (JStr (us_user_name s))
    ∧ (model = user ∨ ∃ o, hub_said st (hub_request (hub_url ("/users/" +:+ quote (us_user_name s))) service) o ∧ model = hub_user o)
    ∧ us_groups s = _hub_groups model
    ∧ (us_is_admin s = true ↔ ∃ g, g ∈ us_groups s ∧ g ∈ ui_admin_groups settings).

Lemma granted_later st st' s : (∃ new, si_sent st' = si_sent st ++ new) → granted st s → granted st' s.
Proof.
  intros [new E] (service & code & answer & user & model & Hs & [Hq Ha] & Ht & (o & [Hu Ho] & Huser) & Hn & Hm & Hrest).
  assert (∀ q, q ∈ si_sent st → q ∈ si_sent st') as Hin by (intros q Hq'; rewrite E; apply elem_of_app; by left).
  exists service, code, answer, user, model. split; [done|]. split; [by split; [apply Hin|]|]. split; [done|].
  split; [exists o; by split; [split; [apply Hin|]|]|]. split; [done|]. split; [|done].
  destruct Hm as [Hm|(o' & [Hq' Ho'] & Hm)]; [by left|]. right. exists o'. by split; [split; [apply Hin|]|].
Qed.

(** The log only grows, and the only sessions that come are granted ones, each under its own id. *)
Definition grants (s s' : Site Outside) : Prop :=
  (∃ new, si_sent s' = si_sent s ++ new)
  ∧ ∀ id x, si_sessions s' !! id = Some x → si_sessions s !! id = Some x ∨ (granted s' x ∧ us_session_id x = id).
#[export] Instance grants_preorder : PreOrder grants.
Proof.
  split; [intros s; split; [exists []; by rewrite app_nil_r|intros id x Hx; by left]|].
  intros s1 s2 s3 [(n12 & E12) H12] [(n23 & E23) H23]. split; [exists (n12 ++ n23); by rewrite E23, E12, app_assoc|].
  intros id x Hx. destruct (H23 id x Hx) as [Hx'|Hx']; [|by right]. destruct (H12 id x Hx') as [|[Hg Hid]]; [by left|].
  right. split; [|done]. apply (granted_later s2); [by exists n23|done].
Qed.
Lemma grants_kept s s' : (∃ new, si_sent s' = si_sent s ++ new) → si_sessions s' = si_sessions s → grants s s'.
Proof. intros Hlog E. split; [done|]. intros id x. rewrite E. by left. Qed.
Lemma grants_dropped s s' : si_sent s' = si_sent s → si_sessions s' ⊆ si_sessions s → grants s s'.
Proof.
  intros Hlog Hsub. split; [exists []; by rewrite app_nil_r|]. intros id x Hx. left. by eapply lookup_weaken.
Qed.
#[export] Instance grants_now : Within grants time_now.
Proof. intros s. by apply grants_dropped. Qed.
#[export] Instance grants_token : Within grants new_token.
Proof. intros s. by apply grants_dropped. Qed.
#[export] Instance grants_urlopen q : Within grants (urlopen_logged q).
Proof. intros s. unfold urlopen_logged, bind, modify. rewrite zoom_eq. apply grants_kept; [by exists [q]|done]. Qed.
#[export] Instance grants_delete id : Within grants (put_sessions (delete id)).
Proof. intros s. apply grants_dropped; [done|]. apply delete_subseteq. Qed.
#[export] Instance grants_filter P `{∀ x, Decision (P x)} : Within grants (put_sessions (filter P)).
Proof. intros s. apply grants_dropped; [done|]. apply map_filter_subseteq. Qed.
(** A step of a handler whose rest may use what the step returned and sent *)
Lemma grants_step {A B} (m : Ui A) (k : A → Ui B) s :
  Within grants m → (∀ x s', m s = (s', Ok x) → grants s s' → grants s' (k x s').1) → grants s (bind m k s).1.
Proof.
  intros Hm Hk. specialize (Hm s). unfold bind. destruct (m s) as [s' [x|e]] eqn:E; [|done].
  etransitivity; [exact Hm|]. by apply Hk.
Qed.
Lemma grants_then {A B} (m : Ui A) (k : A → Ui B) s :
  grants s (m s).1 → (∀ x, Within grants (k x)) → grants s (bind m k s).1.
Proof.
  intros Hm Hk. unfold bind. destruct (m s) as [s' [x|e]]; [|done]. etransitivity; [exact Hm|]. apply Hk.
Qed.

(** *** What the Hub's answers mean *)

Lemma urlopen_logged_ok q s s' a : urlopen_logged q s = (s', Ok a) → q ∈ si_sent s' ∧ ∃ w w', ui_urlopen q w = (w', Ok a).
Proof.
  unfold urlopen_logged, bind, modify. rewrite zoom_eq. simpl. intros [= <- E]. split; [apply elem_of_app; right; by apply list_elem_of_singleton|].
  destruct (ui_urlopen q (si_outside s)) as [w' o] eqn:Hu. simpl in E. subst o. by exists (si_outside s), w'.
Qed.
Lemma exchange_ok code uri s s' token :
  _exchange_oauth_code code uri s = (s', Ok token) →
  ∃ service answer, ui_service_token settings = Some service ∧ hub_said s' (exchange_request service code uri) answer
    ∧ obj_get answer "access_token" = Some (JStr token).
Proof.
  unfold _exchange_oauth_code. destruct (ui_service_token settings) as [service|]; [|done].
  rewrite bind_raise_if. destruct (negb (truthy service)); [done|]. intros (s1 & payload & Hp & Ht)%bind_ok.
  unfold try_catch in Hp. destruct (bind (urlopen_logged _) _ s) as [s2 [j|e]] eqn:Hb; [|by destruct (is_json_decode_error e), (os_error e)].
  injection Hp as <- ->. apply bind_ok in Hb as (s3 & [status headers body|status headers body] & Hu & Hr); [|done].
  apply urlopen_logged_ok in Hu as (Hq & w & w' & Hu). injection Hr as -> Hr. destruct payload as [| | | | |o]; try done.
  destruct (obj_get o "access_token") as [[| | |t| |]|] eqn:Ho; try done. destruct (truthy t); [|done]. injection Ht as -> ->.
  exists service, o. split_and!; [done|split; [done|by exists w, w', status, headers, body]|done].
Qed.
Lemma hub_json_ok url token message s s' user :
  _hub_json url token message s = (s', Ok user) → ∃ o, hub_said s' (hub_request url token) o ∧ user = hub_user o.
Proof.
  unfold _hub_json. intros (s1 & payload & Hp & Ht)%bind_ok. unfold try_catch in Hp.
  destruct (bind (urlopen_logged _) _ s) as [s2 [j|e]] eqn:Hb; [|by destruct (caught e)].
  injection Hp as <- ->. apply bind_ok in Hb as (s3 & [status headers body|status headers body] & Hu & Hr); [|done].
  apply urlopen_logged_ok in Hu as (Hq & w & w' & Hu). injection Hr as -> Hr. destruct payload as [| | | | |o]; try done.
  injection Ht as -> <-. exists o. split; [split; [done|by exists w, w', status, headers, body]|done].
Qed.
Lemma user_detail_ok user_name s s' d :
  _load_hub_user_detail user_name s = (s', Ok (Some d)) →
  ∃ service o, ui_service_token settings = Some service
    ∧ hub_said s' (hub_request (hub_url ("/users/" +:+ quote user_name)) service) o ∧ d = hub_user o.
Proof.
  unfold _load_hub_user_detail. destruct (ui_service_token settings) as [service|]; [|done]. destruct (truthy service); [|done].
  unfold try_catch. destruct (bind _ _ s) as [s1 [u|e]] eqn:Hb; [|destruct e; try done; by case_bool_decide].
  intros [= -> ->]. apply bind_ok in Hb as (s2 & user & Hu & [= -> ->]). apply hub_json_ok in Hu as (o & ? & ?).
  by exists service, o.
Qed.

#[export] Instance grants_exchange code uri : Within grants (_exchange_oauth_code code uri).
Proof. unfold _exchange_oauth_code. solve_within. Qed.
#[export] Instance grants_hub_json url token message : Within grants (_hub_json url token message).
Proof. unfold _hub_json. solve_within. Qed.
#[export] Instance grants_identify token : Within grants (_identify_hub_user token).
Proof. unfold _identify_hub_user. apply _. Qed.
#[export] Instance grants_detail user_name : Within grants (_load_hub_user_detail user_name).
Proof. unfold _load_hub_user_detail. solve_within. Qed.
#[export] Instance grants_optional request : Within grants (_optional_session request).
Proof. unfold _optional_session, store_get. solve_within. Qed.
#[export] Instance grants_require request : Within grants (_require_session request).
Proof. unfold _require_session. solve_within. Qed.
Lemma grants_create user_name token groups is_admin ttl s :
  (∀ id expires, granted s (mkUiSession id user_name token groups is_admin expires)) →
  grants s (store_create user_name token groups is_admin ttl s).1.
Proof.
  intros Hg. unfold store_create, store_cleanup, bind, time_now, new_token, put_sessions, modify, ret. simpl.
  split; [exists []; simpl; by rewrite app_nil_r|]. intros id' x Hx. simpl in Hx.
  apply lookup_insert_Some in Hx as [[<- <-]|[_ Hx]].
  - right. split; [|done]. eapply granted_later; [|apply Hg]. exists []. simpl. by rewrite app_nil_r.
  - left. by apply map_lookup_filter_Some in Hx as [Hx _].
Qed.
Lemma hub_said_later s s' q o : grants s s' → hub_said s q o → hub_said s' q o.
Proof. intros [[new E] _] [Hq Ho]. split; [|done]. rewrite E. apply elem_of_app. by left. Qed.
Lemma grants_callback request code state : Within grants (oauth_callback request code state).
Proof.
  unfold oauth_callback. apply within_bind; [apply _..|]. intros [[|kv stored]|]; [apply _| |apply _]. cbv beta iota.
  apply within_bind; [apply _..|intros _]. apply within_bind; [apply _..|intros expires_at].
  apply within_bind; [apply _..|intros now]. apply within_bind; [apply _..|intros _]. intros s0.
  apply grants_step; [apply _|]. intros token s1 Ht _. apply grants_step; [apply _|]. intros user s2 Hu H12.
  destruct (obj_get user "name") as [[| | |user_name| |]|] eqn:Hn; try (by apply grants_dropped).
  rewrite bind_raise_if. destruct (negb (truthy user_name)); [by apply grants_dropped|].
  apply grants_step; [apply _|]. intros detail s3 Hd H23. cbv zeta. apply grants_then; [|intros; apply _].
  apply exchange_ok in Ht as (service & answer & Hs & Ha & Htok). apply hub_json_ok in Hu as (o & Ho & ->).
  apply grants_create. intros id expires.
  apply (hub_said_later _ _ _ _ H12), (hub_said_later _ _ _ _ H23) in Ha. apply (hub_said_later _ _ _ _ H23) in Ho.
  exists service, code, answer, (hub_user o), (match detail with Some ((_ :: _) as d) => d | _ => hub_user o end).
  split_and!; try done; [by exists o| |].
  - destruct detail as [[|kv' d]|]; [by left| |by left]. right. apply user_detail_ok in Hd as (service' & o' & Hs' & Ho' & ->).
    rewrite Hs in Hs'. injection Hs' as <-. by exists o'.
  - simpl. rewrite existsb_exists. setoid_rewrite bool_decide_eq_true. setoid_rewrite list_elem_of_In. done.
Qed.
#[export] Instance grants_forward session method path query body content_type :
  Within grants (_forward_raw session method path query body content_type).
Proof. unfold _forward_raw. solve_within. Qed.
#[export] Instance grants_read_bundle data : Within grants (read_bundle data).
Proof. unfold read_bundle. solve_within. Qed.
Lemma grants_handle e request : Within grants (handle e request).
Proof.
  destruct e; simpl; [apply grants_callback|..];
    unfold me, logout, store_delete, preview_bundle, submit_bundle, _forward_json, proxy_api, page, _oauth_redirect; solve_within.
Qed.
Lemma grants_serve requests s : grants s (serve requests s).
Proof.
  unfold serve. revert s. induction requests as [|[e request] requests IH]; intros s; simpl; [reflexivity|].
  etransitivity; [apply (grants_handle e request s)|apply IH].
Qed.

(** ** What is sent on whose behalf *)

Notation asks P := (appends (si_sent (Outside := Outside)) P).
#[export] Instance asks_now P : Within (asks P) time_now.
Proof. intros s. by apply appends_nothing. Qed.
#[export] Instance asks_token P : Within (asks P) new_token.
Proof. intros s. by apply appends_nothing. Qed.
#[export] Instance asks_put P f : Within (asks P) (put_sessions f).
Proof. intros s. by apply appends_nothing. Qed.
Lemma asks_urlopen (P : UpRequest → Prop) q : P q → Within (asks P) (urlopen_logged q).
Proof.
  intros Hq s. apply (appends_one _ _ _ _ q); [|done]. unfold urlopen_logged, bind, modify. by rewrite zoom_eq.
Qed.
#[export] Instance asks_optional P request : Within (asks P) (_optional_session request).
Proof. unfold _optional_session, store_get. solve_within. Qed.
#[export] Instance asks_require P request : Within (asks P) (_require_session request).
Proof. unfold _require_session. solve_within. Qed.
#[export] Instance asks_create P user_name token groups is_admin ttl :
  Within (asks P) (store_create user_name token groups is_admin ttl).
Proof. unfold store_create, store_cleanup. solve_within. Qed.
#[export] Instance asks_read_bundle P data : Within (asks P) (read_bundle data).
Proof. unfold read_bundle. solve_within. Qed.
#[export] Instance asks_oauth_redirect P request : Within (asks P) (_oauth_redirect request).
Proof. unfold _oauth_redirect. solve_within. Qed.

Definition to_hub (q : UpRequest) : Prop := ∃ path, up_url q = hub_url path.
#[export] Instance hub_exchange code uri : Within (asks to_hub) (_exchange_oauth_code code uri).
Proof.
  assert (∀ service, Within (asks to_hub) (urlopen_logged (exchange_request service code uri))) as Hu
    by (intros service; apply asks_urlopen; by eexists).
  unfold _exchange_oauth_code. solve_within.
Qed.
Lemma hub_json_asks path token message : Within (asks to_hub) (_hub_json (hub_url path) token message).
Proof.
  assert (Within (asks to_hub) (urlopen_logged (hub_request (hub_url path) token))) as Hu by (apply asks_urlopen; by eexists).
  unfold _hub_json. solve_within.
Qed.
#[export] Instance hub_identify token : Within (asks to_hub) (_identify_hub_user token).
Proof. apply hub_json_asks. Qed.
#[export] Instance hub_detail user_name : Within (asks to_hub) (_load_hub_user_detail user_name).
Proof. unfold _load_hub_user_detail. pose proof (hub_json_asks ("/users/" +:+ quote user_name)). solve_within. Qed.

(** A cookie that verifies is the one the service signs. *)
Lemma decode_signed_ok value raw : _decode_signed_value value = Ok (Some raw) → value = Some (_signed_value raw).
Proof.
  unfold _decode_signed_value. destruct value as [v|]; [|done].
  destruct (rsplit_once "." (chars v)) as [[r signature]|] eqn:Hs; [|done]. destruct (negb _); [done|].
  destruct (String.eqb_spec (text signature) (hmac_sha256_hex _cookie_secret (text r))) as [E|]; [|done]. intros [= <-].
  apply rsplit_once_some in Hs as [Hv _]. f_equal. apply chars_inj. unfold _signed_value.
  rewrite Hv, !chars_app, <- E, !chars_text. done.
Qed.
(** The session a request is served under: the one its signed cookie names, not yet expired. *)
Definition presents (request : Browser) (st : Site Outside) (session : DirectoryUISession) : Prop :=
  ∃ id, cookie request (ui_session_cookie settings) = Some (_signed_value id)
    ∧ si_sessions st !! id = Some session ∧ ui_now (si_clock st) < us_expires_at session.
Lemma require_session_ok request st st' session :
  _require_session request st = (st', Ok session) → presents request st session ∧ si_sent st' = si_sent st.
Proof.
  unfold _require_session. intros (s1 & [found|] & Ho & Hr)%bind_ok; [|done]. injection Hr as <- <-.
  unfold _optional_session in Ho. rewrite bind_lift in Ho.
  destruct (_decode_signed_value _) as [[id|]|] eqn:Hd; [|done..]. destruct (truthy id); [|done].
  unfold store_get in Ho. rewrite bind_gets in Ho. destruct (si_sessions st !! id) as [x|] eqn:Hx; [|done].
  unfold bind at 1, time_now in Ho. destruct (Z.leb_spec (us_expires_at x) (ui_now (si_clock st))); [done|].
  injection Ho as <- <-. split; [|done]. exists id. by apply decode_signed_ok in Hd.
Qed.

(** Why a request is sent: a login whose state cookie was verified asks the Hub, or a session
    that the browser presented, and that the Hub granted, has a call forwarded. *)
Definition authorized (st : Site Outside) (e : Endpoint) (request : Browser) (q : UpRequest) : Prop :=
  (∃ code state stored, e = Callback code state
    ∧ _decode_signed_json_cookie (cookie request (ui_state_cookie settings)) = Ok (Some stored)
    ∧ py_eq (default JNull (obj_get stored "state")) (JStr state) = true ∧ to_hub q)
  ∨ ∃ session method path query body content_type, presents request st session ∧ granted st session
    ∧ _proxy_path_allowed path = true ∧ q = forwarded_request session method path query body content_type.

Lemma callback_authorized st request code state :
  asks (authorized st (Callback code state) request) st (oauth_callback request code state st).1.
Proof.
  unfold oauth_callback. rewrite bind_lift.
  destruct (_decode_signed_json_cookie _) as [[[|kv stored]|]|e] eqn:Hd; try (by apply appends_nothing).
  rewrite bind_raise_if. destruct (py_eq _ _) eqn:Hs; simpl negb; cbv iota; [|by apply appends_nothing].
  assert (∀ P Q (a b : Site Outside), (∀ q, P q → Q q) → asks P a b → asks Q a b) as Himpl.
  { intros P Q a b HPQ (new & E & F). exists new. split; [done|]. by eapply Forall_impl. }
  apply (Himpl to_hub); [intros q Hq; left; by exists code, state, (kv :: stored)|].
  match goal with |- asks _ _ ((?m : Ui UiResponse) _).1 => assert (Within (asks to_hub) m) as Hw by solve_within; apply Hw end.
Qed.
Lemma forward_authorized st e request session method path query body content_type st' :
  presents request st session → granted st session → _proxy_path_allowed path = true → si_sent st' = si_sent st →
  asks (authorized st e request) st (_forward_raw session method path query body content_type st').1.
Proof.
  intros Hp Hg Hpath Hst. assert (Within (asks (authorized st e request))
    (urlopen_logged (forwarded_request session method path query body content_type))) as Hu.
  { apply asks_urlopen. right. by exists session, method, path, query, body, content_type. }
  assert (Within (asks (authorized st e request)) (_forward_raw session method path query body content_type)) as Hw
    by (unfold _forward_raw; solve_within).
  destruct (Hw st') as (new & E & F). exists new. by rewrite <- Hst.
Qed.

(** C24: the browser's service speaks for its user only.  Whatever was requested before, by anyone
    and with any cookies, a request that is handed to the network while the next one is
    handled either asks the Hub, for a login whose state cookie verified and holds the
    state of the query; or it is the forwarding of a call to a path that is open to it,
    with the token of a session that was not expired, that the request's own signed cookie
    names, and that the Hub granted: the service had asked the Hub, which exchanged a code
    for that token, said whose it is and which groups its user is in, and the session is an
    admin's only through them. *)
Theorem ui_calls_authorized (history : list (Endpoint * Browser)) (e : Endpoint) (request : Browser) (st0 : Site Outside) :
  si_sessions st0 = ∅ →
  let st := serve history st0 in asks (authorized st e request) st (handle e request st).1.
Proof.
  intros Hempty st. assert (∀ session, presents request st session → granted st session) as Hgranted.
  { intros session (id & _ & Hid & _). destruct (proj2 (grants_serve history st0) id session Hid) as [Hold|[Hg _]]; [|done].
    by rewrite Hempty, lookup_empty in Hold. }
  assert (∀ k : DirectoryUISession → Ui UiResponse,
    (∀ session st', presents request st session → si_sent st' = si_sent st → asks (authorized st e request) st (k session st').1) →
    asks (authorized st e request) st (bind (_require_session request) k st).1) as Hrequire.
  { intros k Hk. unfold bind. pose proof (asks_require (authorized st e request) request st) as Hw.
    destruct (_require_session request st) as [st' [session|err]] eqn:Hr; [|done].
    apply require_session_ok in Hr as [Hp Hst]. by apply Hk. }
  destruct e as [code state| | | | |path| |path]; cbn [handle]; try (by apply callback_authorized).
  - apply Hrequire. intros. by apply appends_nothing.
  - assert (Within (asks (authorized st Logout request)) (logout request)) as Hw by (unfold logout, store_delete; solve_within).
    apply Hw.
  - apply Hrequire. intros session st' _ Hst. apply appends_nothing. rewrite <- Hst.
    unfold read_bundle. by destruct (parse_directory_bundle _ _).
  - apply Hrequire. intros session st' Hp Hst. unfold read_bundle. destruct (parse_directory_bundle _ _) as [preview|err].
    + by apply forward_authorized; [|apply Hgranted| |].
    + by apply appends_nothing.
  - apply Hrequire. intros session st' Hp Hst. cbv zeta. rewrite bind_raise_if.
    destruct (_proxy_path_allowed _) eqn:Hallowed; simpl negb; cbv iota; [|by apply appends_nothing].
    by apply forward_authorized; [|apply Hgranted| |].
  - by apply appends_nothing.
  - assert (Within (asks (authorized st (Page path) request)) (page request path)) as Hw by (unfold page; solve_within).
    apply Hw.
Qed.

(** ** A login, from the first page to the session *)

(** Digests are written in hexadecimal digits. *)
Definition hex_digests : Prop :=
  ∀ key message, lacks "." (chars (hmac_sha256_hex key message)) ∧ is_ascii (hmac_sha256_hex key message) = true.
Lemma signed_decodes raw : hex_digests → _decode_signed_value (Some (_signed_value raw)) = Ok (Some raw).
Proof.
  intros Hhex. destruct (Hhex _cookie_secret raw) as [Hdot Hascii]. unfold _decode_signed_value, _signed_value.
  assert (rsplit_once "." (chars (raw +:+ "." +:+ hmac_sha256_hex _cookie_secret raw))
    = Some (chars raw, chars (hmac_sha256_hex _cookie_secret raw))) as ->.
  { apply rsplit_once_some. by rewrite !chars_app. }
  rewrite !text_chars, Hascii. simpl. by rewrite String.eqb_refl.
Qed.
Lemma encoded_ascii l : is_ascii (text (encode_bytes l).1) = true.
Proof.
  unfold is_ascii. rewrite chars_text. apply forallb_forall. intros c Hc%list_elem_of_In.
  pose proof (encode_alphabet l) as Ha. rewrite Forall_forall in Ha. destruct (Ha c Hc) as (n & Hn & ->).
  revert n Hn Hc. apply (six_bits (λ n, _ → _)). simpl seq. repeat (apply Forall_cons; split; [by intros _; vm_compute|]). constructor.
Qed.
(** What a state cookie holds comes back as the parser reads it. *)
Lemma state_cookie_decodes payload members :
  hex_digests → ui_json_loads (json_canonical (JObj payload)) = Ok (JObj members) →
  _decode_signed_json_cookie (Some (_encode_signed_json payload)) = Ok (Some members).
Proof.
  intros Hhex Hjson. unfold _decode_signed_json_cookie, _encode_signed_json. rewrite signed_decodes by done.
  cbn [result_bind]. rewrite rstrip_encoded, encoded_ascii. cbn [negb].
  assert (∃ c l, chars (json_canonical (JObj payload)) = c :: l) as (c & l & Hcl) by (by eexists _, _).
  assert (truthy (text (encode_bytes (chars (json_canonical (JObj payload)))).1) = true) as ->.
  { rewrite Hcl. destruct l as [|b [|a l]]; [done..|]. cbn [encode_bytes]. by destruct (encode_bytes l). }
  cbn [negb]. rewrite length_text, chars_text, <- rstrip_encoded, decode_stripped, text_chars, Hjson. done.
Qed.

Definition with_cookie (name value : string) : Browser := mkBrowser [(name, value)] "GET" EmptyString EmptyString None EmptyString.
(** Whatever state the network is in, the Hub answers a request with this object. *)
Definition hub_answers (q : UpRequest) (o : list (string * Json)) : Prop :=
  ∀ w, ∃ w' status headers body, ui_urlopen q w = (w', Ok (UpReplied status headers body)) ∧ parsed body = Ok (JObj o).
Lemma exchange_answers code uri service answer token s :
  ui_service_token settings = Some service → truthy service = true → hub_answers (exchange_request service code uri) answer →
  obj_get answer "access_token" = Some (JStr token) → truthy token = true →
  ∃ s', _exchange_oauth_code code uri s = (s', Ok token)
    ∧ si_clock s' = si_clock s ∧ si_random s' = si_random s ∧ si_sessions s' = si_sessions s.
Proof.
  intros Hs Ht Ha Htok Htt. destruct (Ha (si_outside s)) as (w' & status & headers & body & Hu & Hb).
  eexists. unfold _exchange_oauth_code. rewrite Hs, bind_raise_if, Ht. cbn [negb].
  unfold urlopen_logged, bind, try_catch, modify, lift_result. rewrite zoom_eq. simpl. rewrite Hu. simpl. rewrite Hb. simpl.
  rewrite Htok, Htt. by split_and!.
Qed.
Lemma hub_json_answers url token message o s :
  hub_answers (hub_request url token) o →
  ∃ s', _hub_json url token message s = (s', Ok (hub_user o))
    ∧ si_clock s' = si_clock s ∧ si_random s' = si_random s ∧ si_sessions s' = si_sessions s.
Proof.
  intros Ha. destruct (Ha (si_outside s)) as (w' & status & headers & body & Hu & Hb).
  eexists. unfold _hub_json, urlopen_logged, bind, try_catch, modify, lift_result. rewrite zoom_eq. simpl. rewrite Hu. simpl.
  rewrite Hb. by split_and!.
Qed.

(** Opening a page without a session starts a login. *)
Lemma page_redirects request path service st :
  ui_service_token settings = Some service → truthy service = true → cookie request (ui_session_cookie settings) = None →
  ∃ url st1, handle (Page path) request st = (st1, Ok (Redirect url
      [SetCookie (ui_state_cookie settings)
         (_encode_signed_json (state_payload (token_urlsafe (si_random st)) (next_path request) (ui_now (si_clock st) + ui_state_ttl settings)))
         (ui_state_ttl settings) (normalized_prefix settings)]))
    ∧ si_clock st1 = S (si_clock st) ∧ si_random st1 = S (si_random st).
Proof.
  intros Hs Ht Hc. eexists _, _. cbn [handle]. unfold page, _optional_session. rewrite Hc. simpl. unfold bind at 1 2, lift_result.
  simpl. unfold _oauth_redirect. rewrite Hs, bind_raise_if. unfold truthy_opt. rewrite Ht. cbn [negb].
  unfold bind, new_token, time_now, ret. simpl. by split_and!.
Qed.
(** The callback makes a session under a fresh id. *)
Lemma create_makes user_name token groups is_admin ttl st :
  ∃ st', let session := mkUiSession (token_urlsafe (si_random st)) user_name token groups is_admin (ui_now (S (si_clock st)) + ttl) in
    store_create user_name token groups is_admin ttl st = (st', Ok session)
    ∧ si_sessions st' !! token_urlsafe (si_random st) = Some session ∧ si_clock st' = S (S (si_clock st)).
Proof.
  eexists. cbv zeta. unfold store_create, store_cleanup, bind, time_now, new_token, put_sessions, modify, ret. simpl.
  split; [reflexivity|]. simpl. split; [by rewrite lookup_insert_eq|done].
Qed.
(** A session's own signed cookie finds it while it lasts. *)
Lemma require_finds id session st :
  hex_digests → truthy id = true → si_sessions st !! id = Some session → ui_now (si_clock st) < us_expires_at session →
  ∃ st', _require_session (with_cookie (ui_session_cookie settings) (_signed_value id)) st = (st', Ok session).
Proof.
  intros Hhex Hid Hx Hlt. eexists. unfold _require_session, _optional_session, cookie, with_cookie. simpl.
  rewrite String.eqb_refl. unfold bind, lift_result. rewrite signed_decodes, Hid by done. unfold store_get, bind, gets. rewrite Hx.
  unfold time_now. simpl. destruct (Z.leb_spec (us_expires_at session) (ui_now (si_clock st))); [lia|]. done.
Qed.

Definition stored_state (state next : string) (expires_at : Z) : list (string * Json) :=
  [("expires_at", JInt expires_at); ("next", JStr next); ("state", JStr state)].
(** What the Hub tells of a login: it exchanges the code, knows the user, and tells the service
    of the user. *)
Definition hub_knows (code service token user_name : string) (user model : list (string * Json)) : Prop :=
  (∃ answer, hub_answers (exchange_request service code _callback_url) answer
    ∧ obj_get answer "access_token" = Some (JStr token)) ∧ truthy token = true
  ∧ hub_answers (hub_request (hub_url "/user") token) user ∧ obj_get (hub_user user) "name" = Some (JStr user_name)
  ∧ truthy user_name = true ∧ hub_answers (hub_request (hub_url ("/users/" +:+ quote user_name)) service) model.
Definition known_groups (user model : list (string * Json)) : list string :=
  _hub_groups (match hub_user model with [] => hub_user user | d => d end).
Definition known_session (id token user_name : string) (user model : list (string * Json)) (expires_at : Z) : DirectoryUISession :=
  mkUiSession id user_name token (known_groups user model)
    (existsb (λ g, bool_decide (g ∈ ui_admin_groups settings)) (known_groups user model)) expires_at.

(** The Hub's part of the callback *)
Lemma hub_logs_in code service token user_name user model st :
  hub_knows code service token user_name user model → ui_service_token settings = Some service → truthy service = true →
  ∃ s2 s3 s4 detail,
    _exchange_oauth_code code _callback_url st = (s2, Ok token) ∧ _identify_hub_user token s2 = (s3, Ok (hub_user user))
    ∧ _load_hub_user_detail user_name s3 = (s4, Ok detail)
    ∧ _hub_groups (match detail with Some ((_ :: _) as d) => d | _ => hub_user user end) = known_groups user model
    ∧ si_clock s4 = si_clock st ∧ si_random s4 = si_random st.
Proof.
  intros ((answer & Hcode & Htok) & Htt & Huser & Hname & Hnn & Hmodel) Hs Ht.
  destruct (exchange_answers code _callback_url service answer token st Hs Ht Hcode Htok Htt) as (s2 & Hex & Hc2 & Hr2 & _).
  destruct (hub_json_answers (hub_url "/user") token "Hub OAuth token is invalid" user s2 Huser) as (s3 & Hid3 & Hc3 & Hr3 & _).
  destruct (hub_json_answers (hub_url ("/users/" +:+ quote user_name)) service "directory UI service token is invalid" model s3 Hmodel)
    as (s4 & Hid4 & Hc4 & Hr4 & _).
  exists s2, s3, s4, (Some (hub_user model)). split; [exact Hex|]. split; [exact Hid3|]. split.
  { unfold _load_hub_user_detail. rewrite Hs, Ht. unfold try_catch. rewrite (bind_step _ _ _ _ _ Hid4). done. }
  split; [unfold known_groups; by destruct (hub_user model)|]. split; congruence.
Qed.
(** The callback of a login that was stored in the cookie, in time *)
Lemma callback_logs_in code service token user_name user model state next expires_at state_cookie st :
  hub_knows code service token user_name user model → ui_service_token settings = Some service → truthy service = true →
  _decode_signed_json_cookie (Some state_cookie) = Ok (Some (stored_state state next expires_at)) →
  truthy next = true → ui_now (si_clock st) < expires_at →
  ∃ st', let session := known_session (token_urlsafe (si_random st)) token user_name user model
                          (ui_now (2 + si_clock st) + ui_session_ttl settings) in
    handle (Callback code state) (with_cookie (ui_state_cookie settings) state_cookie) st = (st', Ok (Redirect next
      [SetCookie (ui_session_cookie settings) (_signed_value (us_session_id session)) (ui_session_ttl settings) (normalized_prefix settings);
       DeleteCookie (ui_state_cookie settings) (normalized_prefix settings)]))
    ∧ si_sessions st' !! us_session_id session = Some session ∧ si_clock st' = S (S (S (si_clock st))).
Proof.
  intros Hhub Hs Ht Hcookie Hnext Hfresh.
  set (st1 := mkSite (S (si_clock st)) (si_random st) (si_sessions st) (si_sent st) (si_outside st)).
  destruct (hub_logs_in code service token user_name user model st1 Hhub Hs Ht)
    as (s2 & s3 & s4 & detail & Hex & Hid & Hdetail & Hgroups & Hc & Hr).
  destruct Hhub as (_ & _ & _ & Hname & Hnn & _).
  destruct (create_makes user_name token (known_groups user model)
    (existsb (λ g, bool_decide (g ∈ ui_admin_groups settings)) (known_groups user model)) (ui_session_ttl settings) s4)
    as (s5 & Hmake & Hfind & Hc5).
  exists s5. cbv zeta. rewrite Hr, Hc in Hmake, Hfind. simpl in Hmake, Hfind.
  split; [|split; [exact Hfind|rewrite Hc5, Hc; done]].
  cbn [handle]. unfold oauth_callback, cookie, with_cookie. cbn [br_cookies dict_get]. rewrite String.eqb_refl, Hcookie, bind_lift.
  unfold stored_state. cbv iota beta. rewrite bind_raise_if. fold (stored_state state next expires_at).
  set (read := obj_get (stored_state state next expires_at)).
  change (read "state") with (Some (JStr state)). change (read "expires_at") with (Some (JInt expires_at)).
  change (read "next") with (Some (JStr next)).
  change (py_eq (default JNull (Some (JStr state))) (JStr state)) with (String.eqb state state). rewrite String.eqb_refl.
  cbn [negb default id py_float]. rewrite bind_lift. cbv iota beta.
  assert (time_now st = (st1, Ok (ui_now (si_clock st)))) as Hnow by done. rewrite (bind_step _ _ _ _ _ Hnow), bind_raise_if.
  destruct (Z.leb_spec expires_at (ui_now (si_clock st))); [lia|].
  rewrite (bind_step _ _ _ _ _ Hex), (bind_step _ _ _ _ _ Hid), Hname, bind_raise_if, Hnn. cbn [negb].
  rewrite (bind_step _ _ _ _ _ Hdetail). cbv zeta. rewrite Hgroups, (bind_step _ _ _ _ _ Hmake). cbn [py_truthy]. by rewrite Hnext.
Qed.

(** A login comes full circle.  A browser without a session that opens a page is sent to the Hub
    with a signed state cookie; when it comes back in time with that cookie, the state and a
    code, and the Hub exchanges the code and knows the user, it is sent on to the very page
    it had asked for, with a session cookie; and with that cookie, while the session lasts,
    the service knows it as that user, with the user's groups. *)
Theorem login_roundtrip (request : Browser) (path code service user_name token : string)
    (user model : list (string * Json)) (st : Site Outside) :
  let state := token_urlsafe (si_random st) in
  let expires_at := ui_now (si_clock st) + ui_state_ttl settings in
  hex_digests → ui_service_token settings = Some service → truthy service = true →
  truthy (token_urlsafe (S (si_random st))) = true →
  ui_json_loads (json_canonical (JObj (state_payload state (next_path request) expires_at)))
    = Ok (JObj (stored_state state (next_path request) expires_at)) →
  hub_knows code service token user_name user model →
  cookie request (ui_session_cookie settings) = None → truthy (next_path request) = true →
  ui_now (S (si_clock st)) < expires_at → ui_now (4 + si_clock st) < ui_now (3 + si_clock st) + ui_session_ttl settings →
  ∃ url state_cookie session_cookie st1 st2 st3 payload,
    handle (Page path) request st = (st1, Ok (Redirect url
      [SetCookie (ui_state_cookie settings) state_cookie (ui_state_ttl settings) (normalized_prefix settings)]))
    ∧ handle (Callback code state) (with_cookie (ui_state_cookie settings) state_cookie) st1 = (st2, Ok (Redirect (next_path request)
      [SetCookie (ui_session_cookie settings) session_cookie (ui_session_ttl settings) (normalized_prefix settings);
       DeleteCookie (ui_state_cookie settings) (normalized_prefix settings)]))
    ∧ handle Me (with_cookie (ui_session_cookie settings) session_cookie) st2 = (st3, Ok (JsonResponse payload []))
    ∧ obj_get payload "user" = Some (JStr user_name)
    ∧ obj_get payload "groups" = Some (JList (JStr <$> known_groups user model)).
Proof.
  intros state expires_at Hhex Hs Ht Hid Hjson Hhub Hnone Hnext Hfresh Hlasts.
  destruct (page_redirects request path service st Hs Ht Hnone) as (url & st1 & Hpage & Hc1 & Hr1).
  pose proof (state_cookie_decodes _ _ Hhex Hjson) as Hcookie.
  destruct (callback_logs_in code service token user_name user model state (next_path request) expires_at _ st1
    Hhub Hs Ht Hcookie Hnext ltac:(by rewrite Hc1)) as (st2 & Hback & Hfind & Hc2). simpl in Hfind, Hback.
  rewrite <- Hr1 in Hid. destruct (require_finds _ _ st2 Hhex Hid Hfind) as (st3 & Hreq); [by simpl; rewrite Hc2, Hc1|].
  eexists url, _, _, st1, st2, st3, _. split; [exact Hpage|]. split; [exact Hback|]. split.
  - cbn [handle]. unfold me. by rewrite (bind_step _ _ _ _ _ Hreq).
  - split; reflexivity.
Qed.
End ui.

(** ** A service on concrete inputs *)

Definition ui_settings : DirectoryUISettings :=
  mkUi "http://api:8000/" (Some "http://repo:9000") "http://hub:8081/hub/api/" "/hub/" None "goblin-directory"
    "/services/goblin-directory/" (Some "s3cret") "TOKEN" 10000000 3600000000 600000000 "sess" "state" ["goblin-admins"]
    (Some (parse_path "/ui")) 5242880 1048576 65536 50.
(** A clock of one second, digests as long as what they sign, and a Hub that knows ada *)
Definition ui_ticks (n : nat) : Z := 1700000000000000 + 1000000 * Z.of_nat n.
Definition ada : list (string * Json) := [("name", JStr "ada")].
Definition ada_detail : list (string * Json) :=
  [("user", JObj [("name", JStr "ada"); ("groups", JList [JStr "goblin-admins"; JObj [("name", JStr "data")]; JInt 3])])].
Definition ui_reply (q : UpRequest) : UpAnswer :=
  let ends w := starts_with (text (rev (chars w))) (text (rev (chars (up_url q)))) in
  if ends "/oauth2/token" then UpReplied 200 [] "token"
  else if ends "/hub/api/user" then UpReplied 200 [] "user"
  else if ends "/users/ada" then UpReplied 200 [] "detail"
  else UpReplied 200 [("Content-Type", "application/json"); ("Connection", "close"); ("X-Trace", "t1"); ("Set-Cookie", "a=b")] "[]".
Definition ui_parse (body : string) : result Json :=
  if String.eqb body "token" then Ok (JObj [("access_token", JStr "user-token")])
  else if String.eqb body "user" then Ok (JObj ada)
  else if String.eqb body "detail" then Ok (JObj ada_detail)
  else Ok (JObj (stored_state "t" "/services/goblin-directory/a.html?x=1" 1700000600000000)).
#[local] Instance small_ui : UiHost nat := {|
  ui_now := ui_ticks;
  hmac_sha256_hex key message := text (replicate (String.length message) "f"%char);
  ui_urlopen q := λ w, (S w, Ok (ui_reply q));
  ui_json_loads := ui_parse;
  ui_os_error e := false;
  float_text s := let? n := py_int_text s in Ok (n * 1000000);
  ui_getenv name := if String.eqb name (env_name "ADMIN_GROUPS") then Some " ops, ,dev" else
                    if String.eqb name (env_name "SERVICE_TOKEN_ENV") then Some "HUB_TOKEN" else
                    if String.eqb name "HUB_TOKEN" then Some "from-hub" else
                    if String.eqb name (env_name "STATE_TTL_SECONDS") then Some "60" else None;
  ui_resolve p := p;
  ui_exists p := true;
  ui_is_file p := true;
  default_static_root := parse_path "/packaged" |}.
#[local] Instance ui_crypto : Crypto := {| sha256_hex s := s; token_urlsafe n := text ("t"%char :: replicate n "i"%char) |}.
#[local] Instance ui_readers : BundleReaders := plain_readers hello_members.
Definition fresh_site : Site nat := mkSite 0 0 ∅ [] 0%nat.
Definition first_visit : Browser := mkBrowser [] "GET" "/services/goblin-directory/a.html" "x=1" None EmptyString.
Definition coming_back : Browser :=
  with_cookie "state" (_encode_signed_json ui_settings (state_payload "t" (next_path first_visit) 1700000600000000)).
Definition signed_in (method query body : string) : Browser :=
  mkBrowser [("sess", _signed_value ui_settings "ti")] method EmptyString query (Some "application/json") body.
Definition a_login : list (Endpoint * Browser) := [(Page "a.html", first_visit); (Callback "c" "t", coming_back)].

Example settings_read :
  match from_env with
  | Ok s => ui_admin_groups s = ["ops"; "dev"] ∧ ui_service_token s = Some "from-hub" ∧ ui_state_ttl s = 60000000
  | Err _ => False
  end.
Proof. vm_compute. by split_and!. Qed.
(** A login asks the Hub three times; a call goes to the repository with the user's token, and
    the answer comes without the headers of its connection. *)
Example call_forwarded :
  let st := serve ui_settings a_login fresh_site in
  let r := handle ui_settings (Proxy "directory/entries") (signed_in "GET" "q=a" EmptyString) st in
  (up_url <$> si_sent st)
    = ["http://hub:8081/hub/api/oauth2/token"; "http://hub:8081/hub/api/user"; "http://hub:8081/hub/api/users/ada"]
  ∧ drop 3 (si_sent r.1) = [mkUp "GET" "http://repo:9000/repository/entries?q=a" None
      [("Accept", "application/json"); ("Authorization", "Bearer user-token")]]
  ∧ r.2 = Ok (Forwarded 200 "[]" (Some "application/json") [("Content-Type", "application/json"); ("X-Trace", "t1")]).
Proof. vm_compute. by split_and!. Qed.
(** Only the listed paths are open, with or without a session of one's own. *)
Example call_refused :
  let st := serve ui_settings a_login fresh_site in
  (handle ui_settings (Proxy "users") (signed_in "GET" EmptyString EmptyString) st).2
    = Err (HTTPException 404 "directory UI path is not proxied")
  ∧ (handle ui_settings (Proxy "jobs") first_visit st).2 = Err (HTTPException 401 "directory UI login required")
  ∧ (_proxy_path_allowed <$> ["/jobs"; "/jobs/1"; "/jobsx"; "/directory"; "/repository/a"; "/schedules"])
    = [true; true; false; true; true; false].
Proof. vm_compute. by split_and!. Qed.
(** The path is forwarded as it was decoded: a blank or a [?] in a name is not quoted again. *)
Example decoded_path_forwarded :
  up_url (forwarded_request ui_settings (mkUiSession "i" "ada" "t" [] false 0) "GET" "/directory/entries/a b?c" EmptyString None None)
    = "http://repo:9000/repository/entries/a b?c".
Proof. reflexivity. Qed.
(** A signature with a letter that is not ASCII is an error, not a login. *)
Example odd_signature :
  _decode_signed_value ui_settings (Some (text ["a"; "."; ascii_of_nat 195]%char))
    = Err (TypeError "comparing strings with non-ASCII characters is not supported")
  ∧ _decode_signed_value ui_settings (Some "ti.ff") = Ok (Some "ti")
  ∧ _decode_signed_value ui_settings (Some "ti.f") = Ok None ∧ _decode_signed_value ui_settings (Some "ti") = Ok None.
Proof. vm_compute. by split_and!. Qed.
Example pages_served :
  (_static_response ui_settings <$> ["/js/app.js/"; "a/../../etc"; EmptyString])
    = (FileResponse ∘ parse_path <$> ["/ui/js/app.js"; "/ui/index.html"; "/ui/index.html"]).
Proof. vm_compute. reflexivity. Qed.
(** After a logout the cookie opens nothing. *)
Example logged_out :
  let st := serve ui_settings (a_login ++ [(Logout, signed_in "POST" EmptyString EmptyString)]) fresh_site in
  (handle ui_settings Me (signed_in "GET" EmptyString EmptyString) st).2 = Err (HTTPException 401 "directory UI login required").
Proof. vm_compute. reflexivity. Qed.

(** ** The hypotheses hold here *)

Lemma small_digests : hex_digests (Outside := nat).
Proof.
  intros key message. unfold hmac_sha256_hex, small_ui, is_ascii, lacks. rewrite chars_text. split.
  - apply Forall_replicate. done.
  - apply forallb_forall. intros c Hc%list_elem_of_In%elem_of_replicate. by destruct Hc as [-> _].
Qed.
Lemma ui_calls_authorized_witness :
  let e := SubmitBundle in let request := signed_in "POST" EmptyString "zip" in let st := serve ui_settings a_login fresh_site in
  appends (si_sent (Outside := nat)) (authorized ui_settings st e request) st (handle ui_settings e request st).1.
Proof. apply (ui_calls_authorized ui_settings a_login SubmitBundle (signed_in "POST" EmptyString "zip") fresh_site). reflexivity. Defined.
Lemma ada_known : hub_knows ui_settings "c" "s3cret" "user-token" "ada" ada ada_detail.
Proof.
  split; [exists [("access_token", JStr "user-token")]|]; split_and!; try reflexivity;
    intros w; exists (S w), 200, []; eexists; split; reflexivity.
Qed.
Lemma login_roundtrip_witness :
  ∃ url state_cookie session_cookie st1 st2 st3 payload,
    handle ui_settings (Page "a.html") first_visit fresh_site = (st1, Ok (Redirect url
      [SetCookie (ui_state_cookie ui_settings) state_cookie (ui_state_ttl ui_settings) (normalized_prefix ui_settings)]))
    ∧ handle ui_settings (Callback "c" "t") (with_cookie (ui_state_cookie ui_settings) state_cookie) st1
      = (st2, Ok (Redirect (next_path first_visit)
          [SetCookie (ui_session_cookie ui_settings) session_cookie (ui_session_ttl ui_settings) (normalized_prefix ui_settings);
           DeleteCookie (ui_state_cookie ui_settings) (normalized_prefix ui_settings)]))
    ∧ handle ui_settings Me (with_cookie (ui_session_cookie ui_settings) session_cookie) st2 = (st3, Ok (JsonResponse payload []))
    ∧ obj_get payload "user" = Some (JStr "ada")
    ∧ obj_get payload "groups" = Some (JList (JStr <$> known_groups ada ada_detail)).
Proof.
  refine (login_roundtrip ui_settings first_visit "a.html" "c" "s3cret" "ada" "user-token" ada ada_detail fresh_site
    small_digests eq_refl eq_refl eq_refl _ ada_known eq_refl eq_refl eq_refl eq_refl).
  vm_compute. reflexivity.
Defined.
