(* ===== verification/Quoting.v ===== *)
(** * Quoted text reads back

    What [quote] and [urlencode] write, [unquote] and [parse_qsl] read: the round trips of
    [Urls] on valid UTF-8, and the characters quoted text is made of. *)

From Stdlib Require Import Ascii.
From S2P Require Import Prelude Contracts Text PyValues Containers Auth Urls.

(** ** Valid text *)

Lemma match_ranges_more rs l k n : match_ranges rs l = (n, true) → match_ranges rs (l ++ k) = (n, true).
Proof.
  revert l n. induction rs as [|[lo hi] rs IH]; intros l n; simpl; [done|]. destruct l as [|x l]; [done|]. simpl.
  destruct (_ && _); [|done]. destruct (match_ranges rs l) as [m ok] eqn:Hm. intros [= <- ->].
  by rewrite (IH _ _ Hm).
Qed.
Lemma match_ranges_length rs l n : match_ranges rs l = (n, true) → (n ≤ length l)%nat.
Proof.
  revert l n. induction rs as [|[lo hi] rs IH]; intros l n; simpl; [intros [= <-]; lia|]. destruct l as [|x l]; [done|].
  destruct (_ && _); [|done]. destruct (match_ranges rs l) as [m ok] eqn:Hm. intros [= <- ->].
  specialize (IH _ _ Hm). simpl. lia.
Qed.
Lemma utf8_valid_app l k : utf8_valid l = true → utf8_valid k = true → utf8_valid (l ++ k) = true.
Proof.
  intros Hl Hk. induction l as [|b l IH] using utf8_ind; [done|]. rewrite utf8_valid_cons in Hl. simpl app.
  rewrite utf8_valid_cons. apply andb_true_iff in Hl as [Hok Hl].
  assert (utf8_lead b (l ++ k) = utf8_lead b l ∧ (utf8_lead b l).1 ≤ length l)%nat as [-> Hle].
  { unfold utf8_lead in *. destruct (utf8_ranges _) as [rs|]; [|done]. destruct (match_ranges rs l) as [n ok] eqn:Hm.
    simpl in Hok. subst ok. split; [by apply match_ranges_more|by apply (match_ranges_length rs)]. }
  rewrite Hok, drop_app_le by done. by apply IH.
Qed.
Lemma utf8_valid_ascii l : Forall (λ c, (nat_of_ascii c < 128)%nat) l → utf8_valid l = true.
Proof.
  induction 1 as [|c l Hc _ IH]; [done|]. rewrite utf8_valid_cons.
  assert (utf8_lead c l = (O, true)) as ->; [|done].
  unfold utf8_lead, utf8_ranges. apply Nat.ltb_lt in Hc. by rewrite Hc.
Qed.
(** Decimal numerals *)
Definition valid_text (s : string) : Prop := utf8_valid (chars s) = true.
Lemma pretty_N_go_ascii n s : Forall (λ c, (nat_of_ascii c < 128)%nat) (chars s) →
  Forall (λ c, (nat_of_ascii c < 128)%nat) (chars (pretty_N_go n s)).
Proof.
  revert s. induction (N.lt_wf_0 n) as [n _ IH]; intros s Hs.
  destruct (decide (n = 0%N)) as [->|Hn]; [by rewrite pretty_N_go_0|].
  rewrite pretty_N_go_step by lia. apply IH; [apply N.div_lt; lia|]. simpl. constructor; [|done].
  generalize (n `mod` 10)%N. intros m. unfold pretty_N_char.
  repeat case_match; vm_compute; lia.
Qed.
Lemma pretty_Z_ascii (z : Z) : Forall (λ c, (nat_of_ascii c < 128)%nat) (chars (pretty z)).
Proof.
  assert (∀ n : N, Forall (λ c, (nat_of_ascii c < 128)%nat) (chars (pretty n))) as Hn.
  { intros n. unfold pretty, pretty_N. case_decide; [repeat constructor; vm_compute; lia|].
    apply pretty_N_go_ascii. constructor. }
  destruct z as [|p|p]; [apply (Hn 0%N)|apply (Hn (N.pos p))|].
  change (Forall (λ c, (nat_of_ascii c < 128)%nat) ("-"%char :: chars (pretty (N.pos p)))).
  constructor; [vm_compute; lia|apply Hn].
Qed.
Lemma pretty_valid (z : Z) : valid_text (pretty z).
Proof. apply utf8_valid_ascii, pretty_Z_ascii. Qed.

(** ** One byte *)

Definition hex_pair (c : ascii) : list ascii :=
  ["%"%char; upper_hex (Nat.div (nat_of_ascii c) 16); upper_hex (Nat.modulo (nat_of_ascii c) 16)].
Lemma nibbles (P : nat → Prop) : Forall P (seq 0 16) → ∀ n, (n < 16)%nat → P n.
Proof. intros HP n Hn. rewrite Forall_forall in HP. apply HP. apply elem_of_seq. lia. Qed.
Lemma high_nibble c : (Nat.div (nat_of_ascii c) 16 < 16)%nat.
Proof. pose proof (nat_ascii_bounded c). apply Nat.Div0.div_lt_upper_bound. lia. Qed.
Lemma low_nibble c : (Nat.modulo (nat_of_ascii c) 16 < 16)%nat.
Proof. by apply Nat.mod_upper_bound. Qed.
Lemma hex_value_upper n : (n < 16)%nat → hex_value (upper_hex n) = Some n.
Proof. revert n. apply nibbles. simpl seq. repeat (apply Forall_cons; split; [vm_compute; reflexivity|]). constructor. Qed.
Lemma unreserved_upper n : (n < 16)%nat → unreserved (upper_hex n) = true.
Proof. revert n. apply nibbles. simpl seq. repeat (apply Forall_cons; split; [vm_compute; reflexivity|]). constructor. Qed.

Lemma unquote_bytes_plain c l : Ascii.eqb c "%" = false → unquote_bytes (c :: l) = c :: unquote_bytes l.
Proof. intros Hc. cbn [unquote_bytes]. destruct l as [|a [|b l]]; [done..|]. by rewrite Hc. Qed.
Lemma unquote_bytes_hex c l : unquote_bytes (hex_pair c ++ l) = c :: unquote_bytes l.
Proof.
  cbn [unquote_bytes hex_pair app]. rewrite Ascii.eqb_refl, !hex_value_upper by (apply high_nibble || apply low_nibble).
  f_equal. rewrite <- (ascii_nat_embedding c) at 3. f_equal. symmetry. apply Nat.div_mod_eq.
Qed.
Lemma unreserved_not (d : ascii) : unreserved d = false → ∀ c, unreserved c = true → Ascii.eqb c d = false.
Proof. intros Hd c Hc. apply Ascii.eqb_neq. intros ->. congruence. Qed.

(** ** Quoting *)

Section quoting.
Context (safe : list ascii).

Definition quoted (c : ascii) : list ascii :=
  if unreserved c || bool_decide (c ∈ safe) then [c] else hex_pair c.
Lemma chars_quote s : chars (quote_safe safe s) = flat_map quoted (chars s).
Proof. unfold quote_safe. by rewrite chars_text. Qed.

Lemma quoted_bytes l k : "%"%char ∉ safe → unquote_bytes (flat_map quoted l ++ k) = l ++ unquote_bytes k.
Proof.
  intros Hs. induction l as [|c l IH]; [done|]. cbn [flat_map]. rewrite <- app_assoc. unfold quoted at 1.
  destruct (unreserved c) eqn:Hc; cbn [orb app].
  - rewrite unquote_bytes_plain by (by apply (unreserved_not "%")). by rewrite IH.
  - case_bool_decide as Hin; [|by rewrite unquote_bytes_hex, IH].
    cbn [app]. rewrite unquote_bytes_plain; [by rewrite IH|]. apply Ascii.eqb_neq. by intros ->.
Qed.
(** No character but the unreserved, the safe ones and the percent sign *)
Lemma quoted_lacks (d : ascii) s :
  unreserved d = false → Ascii.eqb "%" d = false → d ∉ safe → lacks d (chars (quote_safe safe s)).
Proof.
  intros Hu Hp Hs. rewrite chars_quote. unfold lacks. induction (chars s) as [|c l IH]; [constructor|].
  cbn [flat_map]. apply Forall_app_2; [|done]. unfold quoted. destruct (unreserved c) eqn:Hc; simpl.
  { constructor; [by apply unreserved_not|constructor]. }
  case_bool_decide.
  { constructor; [|constructor]. apply Ascii.eqb_neq. by intros ->. }
  repeat (constructor; [first [done|apply (unreserved_not d Hu), unreserved_upper; apply high_nibble || apply low_nibble]|]).
  constructor.
Qed.
End quoting.

Lemma quote_is_safe s : quote s = quote_safe [] s.
Proof.
  unfold quote, quote_safe, text, chars. f_equal. induction (String.list_ascii_of_string s) as [|c l IH]; [done|].
  cbn [flat_map]. rewrite IH. f_equal. by destruct (unreserved c).
Qed.

(** A path with one quoted part reads back as the path with the part itself. *)
Lemma unquote_quote before s safe after :
  "%"%char ∉ safe → lacks "%" (chars before) → lacks "%" (chars after) →
  valid_text before → valid_text s → valid_text after →
  unquote (before +:+ quote_safe safe s +:+ after) = before +:+ s +:+ after.
Proof.
  intros Hs Hb Ha Vb Vs Va. unfold unquote. rewrite !chars_app, chars_quote.
  assert (∀ l k, lacks "%" l → unquote_bytes (l ++ k) = l ++ unquote_bytes k) as Hplain.
  { intros l k Hl. induction Hl as [|c l Hc _ IH]; [done|]. simpl app. by rewrite unquote_bytes_plain, IH. }
  rewrite Hplain, quoted_bytes by done. rewrite <- (app_nil_r (chars after)), Hplain by done. simpl. rewrite app_nil_r.
  rewrite decode_replace_valid; [by rewrite !text_app, !text_chars|].
  apply utf8_valid_app; [done|]. by apply utf8_valid_app.
Qed.

(** ** Query strings *)

Lemma quote_plus_lacks (d : ascii) s :
  d ∈ ["&"; "="; "?"; "#"]%char → lacks d (chars (quote_plus s)).
Proof.
  intros Hd. unfold quote_plus. rewrite chars_text.
  assert (lacks d (chars (quote_safe [" "%char] s))) as Hl.
  { set_unfold in Hd. destruct Hd as [->|[->|[->|[->|[]]]]]; apply quoted_lacks; try done; set_solver. }
  unfold lacks in *. rewrite Forall_fmap. eapply Forall_impl; [exact Hl|]. intros c Hc. simpl.
  destruct (Ascii.eqb c " "); [|done]. set_unfold in Hd. by destruct Hd as [->|[->|[->|[->|[]]]]].
Qed.
Lemma unquote_quote_plus s : valid_text s → unquote_plus (chars (quote_plus s)) = s.
Proof.
  intros Hv. unfold unquote_plus, quote_plus. rewrite chars_text.
  assert (lacks "+" (chars (quote_safe [" "%char] s))) as Hp by (apply quoted_lacks; try done; set_solver).
  replace (plus_space <$> _) with (chars (quote_safe [" "%char] s)).
  - pose proof (unquote_quote EmptyString s [" "%char] EmptyString) as Hq. simpl in Hq.
    assert (∀ t, t +:+ EmptyString = t) as He by (intros t; rewrite <- (text_chars (t +:+ _)), chars_app, app_nil_r; apply text_chars).
    rewrite text_chars. rewrite !He in Hq. apply Hq; try done; try constructor; try set_solver.
  - symmetry. rewrite <- list_fmap_compose. induction Hp as [|c l Hc _ IH]; [done|]. cbn [fmap list_fmap] in *.
    rewrite IH. f_equal. unfold compose, plus_space. destruct (Ascii.eqb_spec c " ") as [->|Hsp]; [done|]. by rewrite Hc.
Qed.
Definition query_word (kv : string * string) : list ascii := chars (quote_plus kv.1 +:+ "=" +:+ quote_plus kv.2).
Lemma query_word_split kv : partition_at "=" (query_word kv) = (chars (quote_plus kv.1), Some (chars (quote_plus kv.2))).
Proof.
  apply partition_at_some. unfold query_word. rewrite !chars_app. split; [done|]. apply quote_plus_lacks. set_solver.
Qed.
Lemma query_word_lacks (d : ascii) kv : d ∈ ["&"; "?"; "#"]%char → lacks d (query_word kv).
Proof.
  intros Hd. unfold query_word, lacks. rewrite !chars_app. repeat apply Forall_app_2; try (apply quote_plus_lacks; set_solver).
  set_unfold in Hd. destruct Hd as [->|[->|[->|[]]]]; by repeat constructor.
Qed.
Lemma parse_urlencode pairs :
  Forall (λ kv, valid_text kv.1 ∧ valid_text kv.2) pairs → parse_qsl (urlencode pairs) = pairs.
Proof.
  intros Hv. unfold parse_qsl, urlencode. rewrite chars_text. destruct pairs as [|p pairs]; [done|].
  rewrite split_join; [|done|].
  2:{ rewrite Forall_fmap. apply Forall_true. intros kv. apply query_word_lacks. set_solver. }
  rewrite list_filter_all.
  2:{ intros w (kv & -> & _)%list_elem_of_fmap Hw. pose proof (query_word_split kv) as Hq. unfold query_word in Hq.
      by rewrite Hw in Hq. }
  rewrite <- list_fmap_compose. rewrite <- (list_fmap_id (p :: pairs)) at 2. apply list_fmap_ext.
  intros i kv Hi. rewrite Forall_forall in Hv. destruct (Hv kv) as [H1 H2]; [by eapply list_elem_of_lookup_2|].
  unfold compose. change (chars (quote_plus kv.1 +:+ "=" +:+ quote_plus kv.2)) with (query_word kv).
  rewrite query_word_split. simpl. rewrite !unquote_quote_plus by done. by destruct kv.
Qed.
Lemma urlencode_lacks (d : ascii) pairs : d ∈ ["?"; "#"]%char → lacks d (chars (urlencode pairs)).
Proof.
  intros Hd. unfold urlencode, lacks. rewrite chars_text.
  assert (∀ ws, Forall (lacks d) ws → Forall (λ x, Ascii.eqb x d = false) (join_with "&" ws)) as Hj.
  { induction ws as [|w ws IH]; intros Hws; [constructor|]. inversion Hws as [|? ? Hw Hrest]; subst.
    destruct ws as [|w' ws]; [done|]. change (join_with "&" (w :: w' :: ws)) with (w ++ "&"%char :: join_with "&" (w' :: ws)).
    apply Forall_app_2; [done|]. constructor; [set_unfold in Hd; by destruct Hd as [->|[->|[]]]|by apply IH]. }
  apply Hj. rewrite Forall_fmap. apply Forall_true. intros kv. apply query_word_lacks. set_solver.
Qed.

(** ** What is appended to an origin stays on it *)

Lemma split_netloc_more l k : match k with c :: _ => netloc_end c = true | [] => True end →
  (split_netloc (l ++ k)).1 = (split_netloc l).1.
Proof.
  intros Hk. induction l as [|c l IH]; simpl.
  - destruct k as [|c k]; simpl; [done|]. by rewrite Hk.
  - destruct (netloc_end c); [done|]. destruct (split_netloc l), (split_netloc (l ++ k)). simpl in *. by subst.
Qed.
Lemma partition_at_more c l k a b : partition_at c l = (a, Some b) → partition_at c (l ++ k) = (a, Some (b ++ k)).
Proof.
  intros [-> Ha]%partition_at_some. apply partition_at_some. split; [|done]. by rewrite <- app_assoc.
Qed.
Lemma partition_at_none c l a : partition_at c l = (a, None) → a = l ∧ lacks c l.
Proof.
  revert a. induction l as [|x l IH]; intros a; simpl; [intros [= <-]; by repeat constructor|].
  destruct (Ascii.eqb x c) eqn:Hx; [done|]. destruct (partition_at c l) as [a' b'] eqn:Hp. intros [= <- ->].
  destruct (IH a' eq_refl) as [-> Hl]. by repeat constructor.
Qed.
Definition url_scheme_rest (l : list ascii) : list ascii * list ascii :=
  match partition_at ":" l with
  | (c :: a, Some b) => if is_letter c && forallb scheme_char (c :: a) then (map lower_char (c :: a), b) else ([], l)
  | _ => ([], l)
  end.
Definition has_authority (l : list ascii) : bool :=
  match l with x :: y :: _ => Ascii.eqb x "/" && Ascii.eqb y "/" | _ => false end.
Lemma urlsplit_authority s netloc :
  url_netloc (urlsplit s) = Some netloc → has_authority (url_scheme_rest (chars s)).2 = true.
Proof.
  unfold urlsplit, url_scheme_rest. destruct (match partition_at ":" (chars s) with (_, _) => _ end) as [scheme rest].
  destruct rest as [|x [|y l]]; [done..|]. simpl. by destruct (Ascii.eqb x "/" && Ascii.eqb y "/").
Qed.
Lemma scheme_rest_more l k :
  has_authority (url_scheme_rest l).2 = true →
  url_scheme_rest (l ++ k) = ((url_scheme_rest l).1, (url_scheme_rest l).2 ++ k).
Proof.
  unfold url_scheme_rest. intros Ha.
  assert (∀ l', has_authority l' = true → match partition_at ":" (l' ++ k) with
    | (c :: a, Some b) => if is_letter c && forallb scheme_char (c :: a) then (map lower_char (c :: a), b) else ([], l' ++ k)
    | _ => ([], l' ++ k) end = ([], l' ++ k)) as Hslash.
  { intros [|x [|y l']] Hx; [done..|]. cbn [has_authority] in Hx. apply andb_true_iff in Hx as [->%Ascii.eqb_eq _].
    change (partition_at ":" (("/"%char :: y :: l') ++ k))
      with (let '(a, b) := partition_at ":" (y :: l' ++ k) in ("/"%char :: a, b)).
    by destruct (partition_at ":" (y :: l' ++ k)) as [? []]. }
  destruct (partition_at ":" l) as [[|c a] [b|]] eqn:Hp; try (by apply Hslash).
  destruct (is_letter c && forallb scheme_char (c :: a)) eqn:Hs; [|by apply Hslash].
  by rewrite (partition_at_more _ _ k _ _ Hp), Hs.
Qed.
(** Whatever path is appended to a URL with a network location, scheme and location stay. *)
Lemma urlsplit_more s netloc path :
  url_netloc (urlsplit s) = Some netloc → starts_with "/" path = true →
  url_scheme (urlsplit (s +:+ path)) = url_scheme (urlsplit s) ∧ url_netloc (urlsplit (s +:+ path)) = Some netloc.
Proof.
  intros Hn Hp. pose proof (urlsplit_authority _ _ Hn) as Ha. pose proof (scheme_rest_more _ (chars path) Ha) as Hm.
  assert (match chars path with c :: _ => netloc_end c = true | [] => True end) as Hk.
  { destruct path as [|c path]; [done|]. unfold starts_with in Hp. cbn [String.prefix] in Hp.
    destruct (ascii_dec "/" c) as [<-|]; [done|discriminate Hp]. }
  revert Hn. unfold urlsplit. rewrite chars_app.
  change (match partition_at ":" (chars s) with (_, _) => _ end) with (url_scheme_rest (chars s)).
  change (match partition_at ":" (chars s ++ chars path) with (_, _) => _ end) with (url_scheme_rest (chars s ++ chars path)).
  rewrite Hm. destruct (url_scheme_rest (chars s)) as [scheme rest]. destruct rest as [|x [|y l]]; [done..|]. simpl in *.
  rewrite Ha. pose proof (split_netloc_more l (chars path) Hk) as Hsp.
  destruct (split_netloc l) as [n1 p1], (split_netloc (l ++ chars path)) as [n2 p2]. simpl in *. by subst.
Qed.
