(* ===== verification/KubeSettings.v ===== *)
(** * Settings of the Kubernetes workers

    [kubernetes_workload_security.py], [kubernetes_service_account.py],
    [kubernetes_artifact_config.py] and [kubernetes_runtime_settings.py]: the typed
    settings and what their validators refuse.  Resource quantities are parsed by
    the Kubernetes client library, the class [Quantities]. *)

From Stdlib Require Import Ascii.
From S2P Require Import Prelude Text Paths PyValues Containers Auth.

(** [kubernetes.utils.quantity.parse_quantity]: [None] when it raises. *)
Class Quantities := {
  quantity : Type;
  parse_quantity : string → option quantity;
  quantity_gt : quantity → quantity → bool;
  quantity_zero : quantity
}.

Definition KubernetesWorkloadSecurityError (msg : string) : exn :=
  OtherValueError "KubernetesWorkloadSecurityError" msg.

(** ** Object names *)

Definition lower_alnum (c : ascii) : bool :=
  let n := nat_of_ascii c in (Nat.leb 97 n && Nat.leb n 122) || (Nat.leb 48 n && Nat.leb n 57).
Definition name_char (c : ascii) : bool := lower_alnum c || Ascii.eqb c "-" || Ascii.eqb c ".".
(** [[a-z0-9](?:[-a-z0-9.]*[a-z0-9])?], the whole text *)
Definition _KUBERNETES_OBJECT_NAME (s : string) : bool :=
  match chars s with
  | [] => false
  | c :: l => lower_alnum c && forallb name_char l && lower_alnum (List.last l c)
  end.
Definition kubernetes_object_name (value : Json) (field_name : string) : result string :=
  match value with
  | JStr v =>
      let normalized := strip v in
      if negb (truthy normalized) then Err (ValueError (field_name +:+ " must be a non-empty string"))
      else if (253 <? str_len normalized) || negb (_KUBERNETES_OBJECT_NAME normalized)
      then Err (ValueError (field_name +:+ " must be a Kubernetes DNS subdomain name"))
      else Ok normalized
  | _ => Err (ValueError (field_name +:+ " must be a non-empty string"))
  end.

(** ** Resources of a container *)

Record KubernetesContainerResources := mkResources {
  kr_cpu_request : string; kr_cpu_limit : string; kr_memory_request : string; kr_memory_limit : string
}.
Definition resources_manifest (r : KubernetesContainerResources) : Json :=
  JObj [("requests", JObj [("cpu", JStr (kr_cpu_request r)); ("memory", JStr (kr_memory_request r))]);
        ("limits", JObj [("cpu", JStr (kr_cpu_limit r)); ("memory", JStr (kr_memory_limit r))])].

Section resources.
Context `{Quantities}.

(** One field: [StringConstraints], then its validator. *)
Definition validate_quantity (value : string) : result string :=
  let value := strip value in
  if negb (truthy value) then Err (ValidationError "String should have at least 1 character")
  else match parse_quantity value with
       | None => Err (ValidationError ("invalid Kubernetes resource quantity: " +:+ value))
       | Some q => if quantity_gt q quantity_zero then Ok value
                   else Err (ValidationError "Kubernetes resource quantities must be greater than zero")
       end.
Definition quantity_exceeds (x y : string) : bool :=
  match parse_quantity x, parse_quantity y with Some a, Some b => quantity_gt a b | _, _ => false end.
Definition validate_requests_within_limits (r : KubernetesContainerResources)
    : result KubernetesContainerResources :=
  if quantity_exceeds (kr_cpu_request r) (kr_cpu_limit r)
  then Err (ValidationError "CPU request must not exceed CPU limit")
  else if quantity_exceeds (kr_memory_request r) (kr_memory_limit r)
  then Err (ValidationError "memory request must not exceed memory limit")
  else Ok r.
Definition container_resources (cpu_request cpu_limit memory_request memory_limit : string)
    : result KubernetesContainerResources :=
  let? cr := validate_quantity cpu_request in
  let? cl := validate_quantity cpu_limit in
  let? mr := validate_quantity memory_request in
  let? ml := validate_quantity memory_limit in
  validate_requests_within_limits (mkResources cr cl mr ml).

(** [_validated_merged_resources]: the policy's quantities over the profile's. *)
Definition override_of (overrides : Json) (category key default : string) : string :=
  match overrides with
  | JObj o => match obj_get o category with
              | Some (JObj values) =>
                  match obj_get values key with Some v => py_str v | None => default end
              | _ => default
              end
  | _ => default
  end.
Definition _validated_merged_resources (defaults : KubernetesContainerResources) (overrides : option Json)
    : result KubernetesContainerResources :=
  match overrides with
  | Some (JObj o) =>
      container_resources
        (override_of (JObj o) "requests" "cpu" (kr_cpu_request defaults))
        (override_of (JObj o) "limits" "cpu" (kr_cpu_limit defaults))
        (override_of (JObj o) "requests" "memory" (kr_memory_request defaults))
        (override_of (JObj o) "limits" "memory" (kr_memory_limit defaults))
  | _ => Ok defaults
  end.
End resources.

Definition default_worker_resources : KubernetesContainerResources := mkResources "100m" "1" "64Mi" "512Mi".
Definition default_forwarder_resources : KubernetesContainerResources := mkResources "10m" "100m" "64Mi" "128Mi".

(** ** The restricted profile *)

Record KubernetesRestrictedWorkloadSettings := mkRestricted {
  run_as_user : Z; run_as_group : Z; fs_group : Z;
  worker_resources : KubernetesContainerResources;
  result_forwarder_resources : KubernetesContainerResources;
  worker_service_account_names : gmap string string
}.
Definition default_restricted : KubernetesRestrictedWorkloadSettings :=
  mkRestricted 65532 65532 65532 default_worker_resources default_forwarder_resources ∅.

(** [validate_service_accounts], one binding after the other *)
Fixpoint bind_service_accounts (bindings : gmap string string) (items : list (string * Json))
    : result (gmap string string) :=
  match items with
  | [] => Ok bindings
  | (kind, name) :: items' =>
      if negb (truthy (strip kind)) then Err (ValueError "worker service account kinds must be non-empty strings")
      else let? name := kubernetes_object_name name ("worker service account for " +:+ kind) in
           bind_service_accounts (<[strip kind := name]> bindings) items'
  end.
Definition validate_service_accounts (value : Json) : result (gmap string string) :=
  match value with
  | JNull => Ok ∅
  | JObj items => bind_service_accounts ∅ items
  | _ => Err (ValueError "worker_service_account_names must be an object")
  end.

Definition service_account_for (s : KubernetesRestrictedWorkloadSettings) (kind : option string) : option string :=
  kind ≫= (λ k, worker_service_account_names s !! k).
Definition pod_security_context (s : KubernetesRestrictedWorkloadSettings) : Json :=
  JObj [("runAsNonRoot", JBool true); ("runAsUser", JInt (run_as_user s)); ("runAsGroup", JInt (run_as_group s));
        ("fsGroup", JInt (fs_group s)); ("fsGroupChangePolicy", JStr "OnRootMismatch");
        ("seccompProfile", JObj [("type", JStr "RuntimeDefault")])].
Definition container_security_context (s : KubernetesRestrictedWorkloadSettings) : Json :=
  JObj [("allowPrivilegeEscalation", JBool false); ("capabilities", JObj [("drop", JList [JStr "ALL"])]);
        ("privileged", JBool false); ("readOnlyRootFilesystem", JBool true); ("runAsNonRoot", JBool true);
        ("runAsUser", JInt (run_as_user s)); ("runAsGroup", JInt (run_as_group s));
        ("seccompProfile", JObj [("type", JStr "RuntimeDefault")])].

(** What Pydantic reads: each container's four quantities as texts, the ids and the
    bindings as they come; [Field(ge=1)] on the ids. *)
Definition Quantity4 : Type := string * string * string * string.
Definition resources_of `{Quantities} (q : Quantity4) : result KubernetesContainerResources :=
  let '(cr, cl, mr, ml) := q in container_resources cr cl mr ml.
Definition restricted_settings `{Quantities} (user group fsgroup : Z) (worker forwarder : option Quantity4)
    (accounts : Json) : result KubernetesRestrictedWorkloadSettings :=
  if (user <? 1) || (group <? 1) || (fsgroup <? 1)
  then Err (ValidationError "Input should be greater than or equal to 1")
  else
    let? w := (match worker with Some q => resources_of q | None => Ok default_worker_resources end) in
    let? f := (match forwarder with Some q => resources_of q | None => Ok default_forwarder_resources end) in
    let? names := validate_service_accounts accounts in
    Ok (mkRestricted user group fsgroup w f names).

(** ** Artifact retention ([kubernetes_artifact_config.py]) *)

Definition DEFAULT_ARTIFACT_MAX_BYTES : Z := 100 * 1024 * 1024.
Definition DEFAULT_ARTIFACT_MAX_FILES : Z := 100.
Definition ARTIFACT_SOURCE_ROOT : string := "/artifacts".
Definition ARTIFACT_VOLUME_MOUNT_PATH : string := "/goblin-retained-artifacts".
Definition ArtifactRetentionError (msg : string) : exn := OtherValueError "ArtifactRetentionError" msg.

Record KubernetesArtifactRetention := mkRetention {
  claim_name : string; volume_subdirectory : string; uri_root : string; volume_mount_path : string
}.
Definition _validate_absolute_posix (value label : string) : result unit :=
  let path := parse_path value in
  if negb (is_absolute path) || bool_decide (".." ∈ parts path)
  then Err (ValueError (label +:+ " must be an absolute normalized path")) else Ok tt.
(** the constructor and [__post_init__] *)
Definition artifact_retention_settings (claim subdirectory root mount : string)
    : result KubernetesArtifactRetention :=
  if (253 <? str_len claim) || negb (_KUBERNETES_OBJECT_NAME claim)
  then Err (ValueError "artifact PVC claim must be a valid Kubernetes resource name")
  else
    let? _ := _validate_absolute_posix mount "artifact volume mount path" in
    let? _ := _validate_absolute_posix root "artifact URI root" in
    let path := parse_path subdirectory in
    if is_absolute path || bool_decide (names path = []) || bool_decide (".." ∈ parts path)
    then Err (ValueError "artifact volume subdirectory must be a non-empty relative path")
    else Ok (mkRetention claim subdirectory root mount).
Definition destination_root (r : KubernetesArtifactRetention) : string := volume_mount_path r.
Definition identity_contract (r : KubernetesArtifactRetention) : Json :=
  JObj [("claim_name", JStr (claim_name r));
        ("volume_subdirectory", JStr (as_posix (parse_path (volume_subdirectory r))));
        ("uri_root", JStr (as_posix (parse_path (uri_root r))));
        ("volume_mount_path", JStr (as_posix (parse_path (volume_mount_path r))))].
Definition retention_from_environment (values : string → option string)
    : result (option KubernetesArtifactRetention) :=
  let claim := strip (default EmptyString (values "GOBLIN_KING_K8S_ARTIFACT_PVC_CLAIM")) in
  if negb (truthy claim) then Ok None
  else
    let? r := artifact_retention_settings claim
                (default "artifacts" (values "GOBLIN_KING_K8S_ARTIFACT_VOLUME_SUBDIRECTORY"))
                (default "/data/artifacts" (values "GOBLIN_KING_K8S_ARTIFACT_URI_ROOT"))
                ARTIFACT_VOLUME_MOUNT_PATH in
    Ok (Some r).

(** What one forwarder is asked to retain. *)
Record ArtifactRetentionRequest := mkRetentionRequest {
  rq_source_root : PosixPath; rq_destination_root : option PosixPath; rq_uri_root : option string;
  rq_run_id : string; rq_project_id : option string; rq_max_files : Z; rq_max_bytes : Z
}.
Definition _environment_limit (values : string → option string) (name : string) (default_value : Z) : result Z :=
  match py_int_text (default (pretty default_value) (values name)) with
  | Err _ => Err (ValueError (name +:+ " must be an integer"))
  | Ok value => if value <? 0 then Err (ValueError (name +:+ " must be non-negative")) else Ok value
  end.
Definition non_empty (s : string) : option string := if truthy s then Some s else None.
Definition request_from_environment (run_id : string) (values : string → option string)
    : result ArtifactRetentionRequest :=
  let destination := strip (default EmptyString (values "GOBLIN_ARTIFACT_DESTINATION_ROOT")) in
  let root := strip (default EmptyString (values "GOBLIN_KING_K8S_ARTIFACT_URI_ROOT")) in
  let? files := _environment_limit values "GOBLIN_ARTIFACT_MAX_FILES" DEFAULT_ARTIFACT_MAX_FILES in
  let? bytes := _environment_limit values "GOBLIN_ARTIFACT_MAX_BYTES" DEFAULT_ARTIFACT_MAX_BYTES in
  Ok (mkRetentionRequest (parse_path (default ARTIFACT_SOURCE_ROOT (values "GOBLIN_ARTIFACT_SOURCE_ROOT")))
        (parse_path <$> non_empty destination) (non_empty root) run_id
        (values "GOBLIN_ARTIFACT_PROJECT_ID" ≫= non_empty) files bytes).

(** ** Runtime settings ([kubernetes_runtime_settings.py]) *)

Inductive KubernetesImagePullPolicy := PullAlways | PullIfNotPresent | PullNever.
Definition pull_policy_str (p : KubernetesImagePullPolicy) : string :=
  match p with PullAlways => "Always" | PullIfNotPresent => "IfNotPresent" | PullNever => "Never" end.
Definition read_pull_policy (s : string) : result KubernetesImagePullPolicy :=
  match List.find (λ p, String.eqb (pull_policy_str p) s) [PullAlways; PullIfNotPresent; PullNever] with
  | Some p => Ok p
  | None => Err (ValidationError "Input should be 'Always', 'IfNotPresent' or 'Never'")
  end.
Definition DEFAULT_RESULT_FORWARDER_IMAGE : string := "goblin-king:local".

Record KubernetesRuntimeSettings := mkKubeSettings {
  result_forwarder_image : string;
  worker_image_pull_policy : KubernetesImagePullPolicy;
  result_forwarder_image_pull_policy : KubernetesImagePullPolicy;
  workload_image_pull_secret_names : list string;
  restricted_profile : bool;      (* workload_security_profile = "restricted-v1" *)
  restricted_workload : KubernetesRestrictedWorkloadSettings;
  artifact_retention : option KubernetesArtifactRetention
}.
Definition workload_security_profile (s : KubernetesRuntimeSettings) : string :=
  if restricted_profile s then "restricted-v1" else "legacy".

Definition validate_forwarder_image (value : string) : result string :=
  let normalized := strip value in
  if negb (truthy value) then Err (ValidationError "String should have at least 1 character")
  else if negb (truthy normalized) then Err (ValueError "result_forwarder_image must not be empty")
  else Ok normalized.
Fixpoint pull_secret_loop (names : list string) (value : list Json) : result (list string) :=
  match value with
  | [] => Ok names
  | item :: value' =>
      let? normalized := kubernetes_object_name item "workload image pull Secret name" in
      pull_secret_loop (if bool_decide (normalized ∈ names) then names else names ++ [normalized]) value'
  end.
Definition validate_pull_secret_names (value : Json) : result (list string) :=
  match value with
  | JNull => Ok []
  | JList items => pull_secret_loop [] items
  | _ => Err (ValueError "workload_image_pull_secret_names must be a list of names")
  end.
Definition runtime_settings (forwarder_image : string) (worker_pull forwarder_pull : string) (secrets : Json)
    (restricted : bool) (workload : KubernetesRestrictedWorkloadSettings)
    (retention : option KubernetesArtifactRetention) : result KubernetesRuntimeSettings :=
  let? image := validate_forwarder_image forwarder_image in
  let? wp := read_pull_policy worker_pull in
  let? fp := read_pull_policy forwarder_pull in
  let? names := validate_pull_secret_names secrets in
  Ok (mkKubeSettings image wp fp names restricted workload retention).
Definition from_legacy_options (environ : string → option string) (forwarder_image pull_policy : string)
    (forwarder_pull : option string) (secrets : list string) (retention : option KubernetesArtifactRetention)
    : result KubernetesRuntimeSettings :=
  let? retained := (match retention with
                    | Some r => Ok (Some r) | None => retention_from_environment environ end) in
  runtime_settings forwarder_image pull_policy (default pull_policy (or_opt forwarder_pull None))
    (JList (JStr <$> secrets)) false default_restricted retained.

Definition settings_workload_security (s : KubernetesRuntimeSettings) (kind : option string) : Json :=
  if negb (restricted_profile s) then JObj [("profile", JStr "legacy")]
  else
    let account := service_account_for (restricted_workload s) kind in
    JObj [("profile", JStr (workload_security_profile s)); ("automount_service_account_token", JBool false);
          ("service_account_name", JOptStr account);
          ("worker_service_account_token_projected", JBool (opt_truthy account));
          ("pod_security_context", pod_security_context (restricted_workload s));
          ("container_security_context", container_security_context (restricted_workload s));
          ("worker_resources", resources_manifest (worker_resources (restricted_workload s)));
          ("result_forwarder_resources", resources_manifest (result_forwarder_resources (restricted_workload s)))].
Definition settings_image_identity `{Crypto} (s : KubernetesRuntimeSettings) (image : string) (kind : option string)
    : string :=
  let base := "kubernetes:" +:+ image in
  if negb (restricted_profile s) && negb (opt_truthy (artifact_retention s)) then base
  else
    let security := settings_workload_security s kind in
    let contract := match artifact_retention s with
                    | Some r => JObj [("workload_security", security); ("artifact_retention", identity_contract r)]
                    | None => security
                    end in
    base +:+ ":workload-security:" +:+ sha256_hex (json_canonical contract).

(** ** What the validators establish *)

Section valid.
Context `{Quantities}.

Definition positive_quantity (s : string) : Prop :=
  ∃ q, parse_quantity s = Some q ∧ quantity_gt q quantity_zero = true.
(** Every bound is a positive quantity and no request exceeds its limit. *)
Record resources_ok (r : KubernetesContainerResources) : Prop := {
  ok_positive : Forall positive_quantity
    [kr_cpu_request r; kr_cpu_limit r; kr_memory_request r; kr_memory_limit r];
  ok_cpu : quantity_exceeds (kr_cpu_request r) (kr_cpu_limit r) = false;
  ok_memory : quantity_exceeds (kr_memory_request r) (kr_memory_limit r) = false
}.

Lemma validate_quantity_ok v v' : validate_quantity v = Ok v' → positive_quantity v'.
Proof.
  unfold validate_quantity. destruct (negb _); [done|]. destruct (parse_quantity _) as [q|] eqn:Hq; [|done].
  destruct (quantity_gt _ _) eqn:Hgt; [|done]. intros [= <-]. by exists q.
Qed.
Lemma container_resources_ok cr cl mr ml r : container_resources cr cl mr ml = Ok r → resources_ok r.
Proof.
  unfold container_resources.
  destruct (validate_quantity cr) as [a|] eqn:Ha; simpl; [|done].
  destruct (validate_quantity cl) as [b|] eqn:Hb; simpl; [|done].
  destruct (validate_quantity mr) as [c|] eqn:Hc; simpl; [|done].
  destruct (validate_quantity ml) as [d|] eqn:Hd; simpl; [|done].
  unfold validate_requests_within_limits. destruct (quantity_exceeds _ _) eqn:Hcpu; [done|].
  destruct (quantity_exceeds (kr_memory_request _) _) eqn:Hmem; [done|]. intros [= <-]. split; [|done..].
  repeat constructor; by eapply validate_quantity_ok.
Qed.
Lemma merged_resources_ok d o r : resources_ok d → _validated_merged_resources d o = Ok r → resources_ok r.
Proof.
  intros Hd. unfold _validated_merged_resources. destruct o as [[]|]; try (by intros [= <-]).
  apply container_resources_ok.
Qed.

Record restricted_ok (s : KubernetesRestrictedWorkloadSettings) : Prop := {
  ok_user : 1 ≤ run_as_user s; ok_group : 1 ≤ run_as_group s; ok_fs_group : 1 ≤ fs_group s;
  ok_worker : resources_ok (worker_resources s);
  ok_forwarder : resources_ok (result_forwarder_resources s)
}.
Lemma restricted_settings_ok u g f w fw acc s :
  resources_ok default_worker_resources → resources_ok default_forwarder_resources →
  restricted_settings u g f w fw acc = Ok s → restricted_ok s.
Proof.
  intros Hw Hf. unfold restricted_settings.
  destruct ((u <? 1) || (g <? 1) || (f <? 1)) eqn:Hids; [done|].
  destruct (match w with Some q => _ | None => _ end) as [rw|] eqn:Hrw; simpl; [|done].
  destruct (match fw with Some q => _ | None => _ end) as [rf|] eqn:Hrf; simpl; [|done].
  destruct (validate_service_accounts acc); simpl; [|done]. intros [= <-].
  assert (resources_ok rw ∧ resources_ok rf) as [].
  { split; [destruct w as [[[[] ?] ?]|]|destruct fw as [[[[] ?] ?]|]]; try (by simplify_eq);
      by eapply container_resources_ok. }
  split; simpl; [lia..|done|done].
Qed.
End valid.
