(* ===== verification/KubeManifest.v ===== *)
(** * The manifest of a Kubernetes worker Job

    [kubernetes_placement.py], [kubernetes_job_manifest.py] and the security pass of
    [kubernetes_workload_security.py].  A Pod is a record whose optional fields are
    the keys the code may add; [job_manifest_json] is the dictionary given to the
    Kubernetes API. *)

From Stdlib Require Import Ascii.
From S2P Require Import Prelude Contracts Text Paths PyValues ResourcePolicies Containers Auth KubeSettings.

(** ** Placement ([kubernetes_placement.py]) *)

Definition labels : Type := list (string * string).
Record Placement := mkPlacement { pl_required : labels; pl_preferred : labels }.
#[export] Instance Placement_eq : EqDecision Placement. Proof. solve_decision. Defined.

Definition by_key (x y : string * string) : bool := String.leb x.1 y.1.
Definition label_of (kv : string * Json) : option (string * string) :=
  match kv.2 with
  | JStr v => if truthy kv.1 && truthy v then Some (kv.1, v) else None
  | _ => None
  end.
Definition _placement_label_map (value : option Json) : labels :=
  match value with
  | Some (JObj items) => merge_by by_key (omap label_of items)
  | _ => []
  end.
Definition _normalize_placement (placement : option Json) : option Placement :=
  match placement with
  | Some (JObj o) =>
      let required := _placement_label_map (obj_get o "required") in
      let preferred := _placement_label_map (obj_get o "preferred") in
      match required, preferred with
      | [], [] => None
      | _, _ => Some (mkPlacement required preferred)
      end
  | _ => None
  end.
(** The declarations in order: the definition's, the one recorded in the context, the
    context's own. *)
Definition placement_sources (definition : option GoblinDefinition) (context : GoblinContext)
    : list (option Json) :=
  (match definition with Some d => [gd_metadata d !! "placement"] | None => [] end)
  ++ (match gc_metadata context !! "goblin_definition" with
      | Some (JObj o) => match obj_get o "metadata" with
                         | Some (JObj m) => [obj_get m "placement"] | _ => [None] end
      | _ => []
      end)
  ++ [gc_metadata context !! "placement"].
Definition placement_metadata (definition : option GoblinDefinition) (context : GoblinContext) : option Placement :=
  head (omap _normalize_placement (placement_sources definition context)).

(** ** Containers and Pods *)

Record Mount := mkMount { mt_name : string; mt_path : string; mt_read_only : bool; mt_sub_path : option string }.
Record Volume := mkVolume { vo_name : string; vo_source : string * Json }.
Record Container := mkContainer {
  ct_name : string; ct_image : string; ct_pull_policy : KubernetesImagePullPolicy;
  ct_command : option (list string);
  ct_env : list (string * string); ct_mounts : list Mount;
  ct_resources : option Json; ct_security : option Json
}.
Record PodSpec := mkPod {
  ps_worker : Container; ps_forwarder : Container; ps_volumes : list Volume;
  ps_pull_secrets : list string; ps_automount_token : option bool; ps_service_account : option string;
  ps_security : option Json; ps_node_selector : labels; ps_preferred : labels
}.
Record JobManifest := mkJobManifest {
  jm_name : string; jm_labels : labels; jm_pod : PodSpec; jm_deadline : option Z
}.

Definition with_security (resources security : Json) (c : Container) : Container :=
  mkContainer (ct_name c) (ct_image c) (ct_pull_policy c) (ct_command c) (ct_env c) (ct_mounts c)
    (Some resources) (Some security).
Definition add_mount (m : Mount) (c : Container) : Container :=
  mkContainer (ct_name c) (ct_image c) (ct_pull_policy c) (ct_command c) (ct_env c) (ct_mounts c ++ [m])
    (ct_resources c) (ct_security c).

(** ** tmpfs declarations *)

Definition is_digit19 (c : ascii) : bool := is_digit c && negb (Ascii.eqb c "0").
(** [_KUBERNETES_TMPFS_SIZE_PATTERN] and [_TMPFS_SIZE_PATTERN]: digits without a
    leading zero, and what follows them. *)
Definition split_size (size : string) : option (list ascii * string) :=
  match chars size with
  | c :: l => if is_digit19 c then let '(d, rest) := span_digits l in Some (c :: d, text rest) else None
  | [] => None
  end.
Definition tmpfs_unit (unit : string) : option string :=
  if bool_decide (unit ∈ [EmptyString; "b"]) then Some EmptyString
  else if bool_decide (unit ∈ ["k"; "kb"]) then Some "Ki"
  else if bool_decide (unit ∈ ["m"; "mb"]) then Some "Mi"
  else if bool_decide (unit ∈ ["g"; "gb"]) then Some "Gi"
  else if bool_decide (unit ∈ ["t"; "tb"]) then Some "Ti"
  else None.
Definition tmpfs_size (size : string) : result string :=
  match split_size size with
  | Some (amount, unit) =>
      if bool_decide (unit ∈ ["Ki"; "Mi"; "Gi"; "Ti"]) then Ok size
      else match tmpfs_unit (lower unit) with
           | Some u => Ok (text amount +:+ u)
           | None => Err (ValueError ("unsupported tmpfs size quantity: " +:+ size))
           end
  | None => Err (ValueError ("unsupported tmpfs size quantity: " +:+ size))
  end.
Definition comma : ascii := ",".
Definition _parse_tmpfs_declaration (declaration : string) : result (string * option string) :=
  let '(path, raw_options) := partition_at ":" (chars (strip declaration)) in
  let mount_path := text path in
  if negb (starts_with "/" mount_path) || text_ends_with "/" mount_path
  then Err (ValueError ("tmpfs mount path must be a normalized absolute path: " +:+ declaration))
  else if existsb (λ part, bool_decide (text part ∈ [EmptyString; "."; ".."])) (tail (split_on slash_char path))
  then Err (ValueError ("tmpfs mount path must be normalized: " +:+ declaration))
  else match raw_options with
       | None => Ok (mount_path, None)
       | Some raw =>
           match filter (λ o, truthy o = true) ((λ o, strip (text o)) <$> split_on comma raw) with
           | [option] =>
               if starts_with "size=" option
               then let? size := tmpfs_size (text (drop 5 (chars option))) in Ok (mount_path, Some size)
               else Err (ValueError "Kubernetes tmpfs declarations support only one optional size=<quantity> option")
           | _ => Err (ValueError "Kubernetes tmpfs declarations support only one optional size=<quantity> option")
           end
       end.

Definition _RESERVED_WORKER_MOUNT_PATHS : list string := ["/"; "/artifacts"; "/goblin-config"; "/goblin-result"].

Definition tmpfs_name (index : nat) : string := "worker-tmpfs-" +:+ pretty (Z.of_nat index).
(** The loop of [_attach_worker_tmpfs_volumes] from the [index]-th declaration. *)
Fixpoint attach_tmpfs (index : nat) (declarations : list string) (volumes : list Volume) (worker : Container)
    : result (list Volume * Container) :=
  match declarations with
  | [] => Ok (volumes, worker)
  | declaration :: rest =>
      let? parsed := _parse_tmpfs_declaration declaration in
      let '(mount_path, size_limit) := parsed in
      if bool_decide (mount_path ∈ _RESERVED_WORKER_MOUNT_PATHS)
         || bool_decide (mount_path ∈ mt_path <$> ct_mounts worker)
      then Err (ValueError ("tmpfs mount path conflicts with a runtime mount: " +:+ mount_path))
      else
        let volume_name := tmpfs_name index in
        let empty_dir := JObj ([("medium", JStr "Memory")]
          ++ match size_limit with Some l => [("sizeLimit", JStr l)] | None => [] end) in
        attach_tmpfs (S index) rest (volumes ++ [mkVolume volume_name ("emptyDir", empty_dir)])
          (add_mount (mkMount volume_name mount_path false None) worker)
  end.
Definition _attach_worker_tmpfs_volumes (policy : option ResourcePolicy) (volumes : list Volume)
    (worker : Container) : result (list Volume * Container) :=
  match policy with
  | Some p => attach_tmpfs 0 (tmpfs (filesystem p)) volumes worker
  | None => Ok (volumes, worker)
  end.

(** ** The two containers *)

(** Texts with double quotes, written with backquotes. *)
Definition quoted (s : string) : string :=
  text ((λ c, if Ascii.eqb c "`" then ascii_of_nat 34 else c) <$> chars s).
(** [RESULT_FORWARDER_SCRIPT] of [kubernetes_result_forwarder.py] *)
Definition RESULT_FORWARDER_SCRIPT : string := quoted "
import json
import os
import time
from pathlib import Path

from redis import Redis

run_id = os.environ[`GOBLIN_RUN_ID`]
redis_url = os.environ[`GOBLIN_REDIS_URL`]
result_path = Path(os.environ[`GOBLIN_RESULT_PATH`])
wait_seconds = int(os.environ.get(`GOBLIN_RESULT_WAIT_SECONDS`, `300`))
deadline = time.monotonic() + wait_seconds

while time.monotonic() < deadline:
    if result_path.is_file():
        raw_result = result_path.read_text(encoding=`utf-8`)
        result = json.loads(raw_result)
        if result.get(`artifacts`):
            reason = (
                `artifact retention failed: durable Kubernetes artifact storage is not configured`
            )
            previous_error = result.get(`error`)
            result[`status`] = `failed`
            result[`error`] = f`{previous_error}; {reason}` if previous_error else reason
            result[`artifacts`] = []
            result[`metrics`] = {
                key: value
                for key, value in result.get(`metrics`, {}).items()
                if not key.startswith(`artifact.`)
            }
            raw_result = json.dumps(result, separators=(`,`, `:`))
        Redis.from_url(redis_url).set(
            f`goblin-king:results:{run_id}`,
            raw_result,
            ex=3600,
        )
        raise SystemExit(0)
    time.sleep(0.25)

raise SystemExit(f`result file not found before timeout: {result_path}`)
".

Section manifest.
Context `{Quantities} (settings : KubernetesRuntimeSettings) (redis_url : string).

Definition context_text (context : GoblinContext) (key : string) : string :=
  match gc_metadata context !! key with Some j => py_str j | None => EmptyString end.
Definition contract_env (context : GoblinContext) (worker_id : string) (heartbeat_interval_seconds : Z)
    : list (string * string) :=
  [("GOBLIN_CONTRACT_VERSION", GOBLIN_CONTAINER_CONTRACT_VERSION); ("GOBLIN_RUN_ID", gc_run_id context);
   ("GOBLIN_JOB_ID", context_text context "job_id"); ("GOBLIN_WORKER_ID", worker_id);
   ("GOBLIN_INPUT_PATH", "/goblin-config/input.json"); ("GOBLIN_CONTEXT_PATH", "/goblin-config/context.json");
   ("GOBLIN_RESULT_PATH", "/goblin-result/result.json"); ("GOBLIN_ARTIFACT_ROOT", "/artifacts");
   ("GOBLIN_REDIS_URL", redis_url); ("GOBLIN_HEARTBEAT_REDIS_URL", redis_url);
   ("GOBLIN_HEARTBEAT_CHANNEL", DEFAULT_HEARTBEAT_CHANNEL);
   ("GOBLIN_HEARTBEAT_KEY", worker_heartbeat_key (gc_run_id context));
   ("GOBLIN_HEARTBEAT_INTERVAL_SECONDS", pretty heartbeat_interval_seconds)].
Definition _worker_container (image : string) (context : GoblinContext) (worker_id : string)
    (heartbeat_interval_seconds : Z) (policy : option ResourcePolicy) (worker_env : labels) : Container :=
  let fields := match policy with Some p => kubernetes_policy_fields p | None => [] end in
  mkContainer "worker" image (worker_image_pull_policy settings) None
    (contract_env context worker_id heartbeat_interval_seconds
     ++ worker_run_event_environment (gc_run_id context) redis_url
     ++ merge_by by_key worker_env
     ++ match policy with
        | Some p => [("GOBLIN_EFFECTIVE_RESOURCE_POLICY_JSON", resource_policy_env p)] | None => [] end)
    [mkMount "input" "/goblin-config" true None; mkMount "result" "/goblin-result" false None;
     mkMount "artifacts" "/artifacts" false None]
    (obj_get fields "resources") (obj_get fields "securityContext").

(** [timeout_seconds or 300] *)
Definition or_300 (timeout_seconds : option Z) : Z :=
  match timeout_seconds with Some 0 | None => 300 | Some t => t end.
Definition forwarder_env (context : GoblinContext) (timeout_seconds : option Z) : list (string * string) :=
  [("GOBLIN_RUN_ID", gc_run_id context); ("GOBLIN_REDIS_URL", redis_url);
   ("GOBLIN_RESULT_PATH", "/goblin-result/result.json");
   ("GOBLIN_RESULT_WAIT_SECONDS", pretty (or_300 timeout_seconds + 15))].
Definition forwarder (command : list string) (env : list (string * string)) (mounts : list Mount) : Container :=
  mkContainer "result-forwarder" (result_forwarder_image settings) (result_forwarder_image_pull_policy settings)
    (Some command) env mounts None None.
Definition _legacy_result_forwarder_container (context : GoblinContext) (timeout_seconds : option Z) : Container :=
  forwarder ["python"; "-c"; RESULT_FORWARDER_SCRIPT] (forwarder_env context timeout_seconds)
    [mkMount "result" "/goblin-result" false None].
(** [str(metadata.get(key) or "")] *)
Definition context_or_empty (context : GoblinContext) (key : string) : string :=
  match gc_metadata context !! key with
  | Some j => if py_truthy j then py_str j else EmptyString | None => EmptyString end.
Definition _result_forwarder_container (context : GoblinContext) (timeout_seconds : option Z)
    (policy : option ResourcePolicy) : Container :=
  match artifact_retention settings with
  | None => _legacy_result_forwarder_container context timeout_seconds
  | Some retention =>
      let max_files := default DEFAULT_ARTIFACT_MAX_FILES (policy ≫= (λ p, artifact_max_files (filesystem p))) in
      let max_bytes := default DEFAULT_ARTIFACT_MAX_BYTES (policy ≫= (λ p, artifact_max_bytes (filesystem p))) in
      forwarder ["python"; "-m"; "goblin_king.kubernetes_result_forwarder"]
        (forwarder_env context timeout_seconds
         ++ [("GOBLIN_ARTIFACT_SOURCE_ROOT", ARTIFACT_SOURCE_ROOT);
             ("GOBLIN_ARTIFACT_PROJECT_ID", context_or_empty context "project_id");
             ("GOBLIN_ARTIFACT_MAX_FILES", pretty max_files); ("GOBLIN_ARTIFACT_MAX_BYTES", pretty max_bytes);
             ("GOBLIN_ARTIFACT_DESTINATION_ROOT", destination_root retention);
             ("GOBLIN_KING_K8S_ARTIFACT_URI_ROOT", uri_root retention)])
        [mkMount "result" "/goblin-result" false None; mkMount "artifacts" ARTIFACT_SOURCE_ROOT true None;
         mkMount "retained-artifacts" (volume_mount_path retention) false (Some (volume_subdirectory retention))]
  end.

(** ** The security pass *)

Definition token_mount : Mount :=
  mkMount "worker-service-account-token" "/var/run/secrets/kubernetes.io/serviceaccount" true None.
Definition token_volume : Volume :=
  mkVolume "worker-service-account-token" ("projected", JObj [("defaultMode", JInt 420); ("sources", JList [
    JObj [("serviceAccountToken", JObj [("expirationSeconds", JInt 3600); ("path", JStr "token")])];
    JObj [("configMap", JObj [("name", JStr "kube-root-ca.crt");
                              ("items", JList [JObj [("key", JStr "ca.crt"); ("path", JStr "ca.crt")]])])];
    JObj [("downwardAPI", JObj [("items", JList [JObj [("path", JStr "namespace");
            ("fieldRef", JObj [("apiVersion", JStr "v1"); ("fieldPath", JStr "metadata.namespace")])]])])]])]).
(** [attach_worker_service_account_token] of [kubernetes_service_account.py] *)
Definition attach_worker_service_account_token (pod : PodSpec) : PodSpec :=
  mkPod (add_mount token_mount (ps_worker pod)) (ps_forwarder pod) (ps_volumes pod ++ [token_volume])
    (ps_pull_secrets pod) (ps_automount_token pod) (ps_service_account pod) (ps_security pod)
    (ps_node_selector pod) (ps_preferred pod).
Definition apply_restricted_workload_security (pod : PodSpec) (s : KubernetesRestrictedWorkloadSettings)
    (kind : option string) (policy_read_only_root : option bool) : result PodSpec :=
  if bool_decide (policy_read_only_root = Some false)
  then Err (KubernetesWorkloadSecurityError "restricted-v1 rejects filesystem.read_only_root=false")
  else
    let account := service_account_for s kind in
    let pod := match account with Some _ => attach_worker_service_account_token pod | None => pod end in
    let? resources := _validated_merged_resources (worker_resources s) (ct_resources (ps_worker pod)) in
    Ok (mkPod (with_security (resources_manifest resources) (container_security_context s) (ps_worker pod))
          (with_security (resources_manifest (result_forwarder_resources s)) (container_security_context s)
             (ps_forwarder pod))
          (ps_volumes pod) (ps_pull_secrets pod) (Some false) account (Some (pod_security_context s))
          (ps_node_selector pod) (ps_preferred pod)).

(** [apply_kubernetes_placement] on a Pod that has no selector yet *)
Definition apply_kubernetes_placement (pod : PodSpec) (placement : option Placement) : PodSpec :=
  match placement with
  | None => pod
  | Some p => mkPod (ps_worker pod) (ps_forwarder pod) (ps_volumes pod) (ps_pull_secrets pod)
                (ps_automount_token pod) (ps_service_account pod) (ps_security pod)
                (pl_required p) (pl_preferred p)
  end.

(** ** The Job *)

Definition runtime_volumes (config_name : string) : list Volume :=
  [mkVolume "input" ("configMap", JObj [("name", JStr config_name)]); mkVolume "result" ("emptyDir", JObj []);
   mkVolume "artifacts" ("emptyDir", JObj [])].
Definition retention_volumes : list Volume :=
  match artifact_retention settings with
  | Some r => [mkVolume "retained-artifacts" ("persistentVolumeClaim", JObj [("claimName", JStr (claim_name r))])]
  | None => []
  end.
(** [kind or str(context.metadata.get("kind") or "") or None] *)
Definition effective_kind (kind : option string) (context : GoblinContext) : option string :=
  or_opt kind (non_empty (context_or_empty context "kind")).
Definition build_kubernetes_job_manifest (name config_name image : string) (context : GoblinContext)
    (worker_id : string) (timeout_seconds : option Z) (heartbeat_interval_seconds : Z)
    (policy : option ResourcePolicy) (placement : option Placement) (kind : option string) (worker_env : labels)
    : result JobManifest :=
  let worker := _worker_container image context worker_id heartbeat_interval_seconds policy worker_env in
  let? attached := _attach_worker_tmpfs_volumes policy (runtime_volumes config_name) worker in
  let '(volumes, worker) := attached in
  let pod := mkPod worker (_result_forwarder_container context timeout_seconds policy)
    (volumes ++ retention_volumes) (workload_image_pull_secret_names settings) None None None [] [] in
  let? pod := (if restricted_profile settings
    then apply_restricted_workload_security pod (restricted_workload settings) (effective_kind kind context)
           (policy ≫= (λ p, read_only_root (filesystem p)))
    else Ok pod) in
  let pod := apply_kubernetes_placement pod
    (match placement with Some p => Some p | None => placement_metadata None context end) in
  Ok (mkJobManifest name
        [("goblin-king.worker", "true"); ("goblin-king.run-id", gc_run_id context);
         ("goblin-king.job-id", context_text context "job_id")] pod timeout_seconds).
End manifest.

(** ** The dictionary *)

Definition labels_json (l : labels) : Json := JObj ((λ kv, (kv.1, JStr kv.2)) <$> l).
Definition field_if (name : string) (o : option Json) : list (string * Json) :=
  match o with Some j => [(name, j)] | None => [] end.
Definition mount_json (m : Mount) : Json :=
  JObj ([("name", JStr (mt_name m)); ("mountPath", JStr (mt_path m))]
        ++ (if mt_read_only m then [("readOnly", JBool true)] else [])
        ++ field_if "subPath" (JStr <$> mt_sub_path m)).
Definition container_json (c : Container) : Json :=
  JObj ([("name", JStr (ct_name c)); ("image", JStr (ct_image c));
         ("imagePullPolicy", JStr (pull_policy_str (ct_pull_policy c)))]
        ++ field_if "command" ((λ l, JList (JStr <$> l)) <$> ct_command c)
        ++ [("env", JList ((λ kv : string * string, JObj [("name", JStr kv.1); ("value", JStr kv.2)]) <$> ct_env c));
            ("volumeMounts", JList (mount_json <$> ct_mounts c))]
        ++ field_if "resources" (ct_resources c) ++ field_if "securityContext" (ct_security c)).
Definition preference_json (l : labels) : Json :=
  JObj [("nodeAffinity", JObj [("preferredDuringSchedulingIgnoredDuringExecution", JList [JObj [
    ("weight", JInt 50);
    ("preference", JObj [("matchExpressions", JList ((λ kv : string * string,
       JObj [("key", JStr kv.1); ("operator", JStr "In"); ("values", JList [JStr kv.2])]) <$> l))])]])])].
Definition pod_json (p : PodSpec) : Json :=
  JObj ([("restartPolicy", JStr "Never");
         ("containers", JList [container_json (ps_worker p); container_json (ps_forwarder p)]);
         ("volumes", JList ((λ v, JObj [("name", JStr (vo_name v)); vo_source v]) <$> ps_volumes p))]
        ++ (match ps_pull_secrets p with
            | [] => [] | l => [("imagePullSecrets", JList ((λ n, JObj [("name", JStr n)]) <$> l))] end)
        ++ field_if "automountServiceAccountToken" (JBool <$> ps_automount_token p)
        ++ field_if "serviceAccountName" (JStr <$> ps_service_account p)
        ++ field_if "securityContext" (ps_security p)
        ++ (match ps_node_selector p with [] => [] | l => [("nodeSelector", labels_json l)] end)
        ++ (match ps_preferred p with [] => [] | l => [("affinity", preference_json l)] end)).
Definition job_manifest_json (m : JobManifest) : Json :=
  JObj [("apiVersion", JStr "batch/v1"); ("kind", JStr "Job");
        ("metadata", JObj [("name", JStr (jm_name m)); ("labels", labels_json (jm_labels m))]);
        ("spec", JObj ([("backoffLimit", JInt 0);
                        ("template", JObj [("metadata", JObj [("labels", labels_json (jm_labels m))]);
                                           ("spec", pod_json (jm_pod m))])]
                       ++ field_if "activeDeadlineSeconds" (JInt <$> jm_deadline m)))].

(** ** Volumes and mounts *)

Definition with_mounts (ms : list Mount) (c : Container) : Container :=
  mkContainer (ct_name c) (ct_image c) (ct_pull_policy c) (ct_command c) (ct_env c) (ct_mounts c ++ ms)
    (ct_resources c) (ct_security c).

#[export] Instance tmpfs_name_inj : Inj (=) (=) tmpfs_name.
Proof. intros i j. unfold tmpfs_name. simpl. intros [= Heq]. pose proof (inj (@pretty Z _) _ _ Heq). lia. Qed.

Lemma attach_tmpfs_spec ds i vs w vs' w' :
  attach_tmpfs i ds vs w = Ok (vs', w') →
  ∃ ms, w' = with_mounts ms w
    ∧ vo_name <$> vs' = (vo_name <$> vs) ++ (mt_name <$> ms)
    ∧ mt_name <$> ms = tmpfs_name <$> seq i (length ms)
    ∧ Forall (λ m, mt_path m ∉ _RESERVED_WORKER_MOUNT_PATHS) ms
    ∧ (NoDup (mt_path <$> ct_mounts w) → NoDup (mt_path <$> ct_mounts w')).
Proof.
  revert i vs w. induction ds as [|d ds IH]; intros i vs w; simpl.
  - intros [= <- <-]. exists []. rewrite !app_nil_r. split_and!; try done.
    destruct w; unfold with_mounts; simpl. by rewrite app_nil_r.
  - destruct (_parse_tmpfs_declaration d) as [[path size]|] eqn:Hd; simpl; [|done].
    destruct (bool_decide (path ∈ _)) eqn:Hres; simpl; [done|].
    destruct (bool_decide (path ∈ mt_path <$> ct_mounts w)) eqn:Hmt; simpl; [done|].
    apply bool_decide_eq_false in Hres, Hmt. intros (ms & -> & Hvs & Hnames & Hall & Hnd)%IH.
    exists (mkMount (tmpfs_name i) path false None :: ms). split_and!.
    + unfold with_mounts, add_mount. simpl. by rewrite <- app_assoc.
    + rewrite Hvs, fmap_app, <- app_assoc. done.
    + by rewrite fmap_cons, Hnames.
    + by constructor.
    + intros Hw. apply Hnd. simpl. rewrite fmap_app. apply NoDup_app. split; [done|]. split; [|apply NoDup_singleton].
      simpl. intros q Hq Hq'%list_elem_of_singleton. by subst q.
Qed.

(** What every manifest's Pod has: volume names are unique, each mount names a volume,
    and nothing is mounted over another mount of the worker, the projected token apart. *)
Definition named_in (p : PodSpec) (m : Mount) : Prop := mt_name m ∈ vo_name <$> ps_volumes p.
Definition own_mounts (c : Container) : list Mount :=
  filter (λ m, mt_name m ≠ mt_name token_mount) (ct_mounts c).
Record volumes_ok (p : PodSpec) : Prop := {
  vo_unique : NoDup (vo_name <$> ps_volumes p);
  vo_worker : Forall (named_in p) (ct_mounts (ps_worker p));
  vo_forwarder : Forall (named_in p) (ct_mounts (ps_forwarder p));
  vo_paths : NoDup (mt_path <$> own_mounts (ps_worker p))
}.

(** The Pod before the security pass, which never sets a token up. *)
Record plain_volumes (p : PodSpec) : Prop := {
  pv_ok : volumes_ok p;
  pv_no_token : mt_name token_mount ∉ vo_name <$> ps_volumes p
}.

Lemma NoDup_fmap_filter {A B} (f : A → B) (P : A → Prop) `{!∀ x, Decision (P x)} (l : list A) :
  NoDup (f <$> l) → NoDup (f <$> filter P l).
Proof.
  induction l as [|x l IH]; [done|]. rewrite fmap_cons, filter_cons. intros [Hx Hl]%NoDup_cons.
  destruct (decide (P x)); [|by apply IH]. rewrite fmap_cons. apply NoDup_cons. split; [|by apply IH].
  intros (y & Hy & Hin)%list_elem_of_fmap. apply Hx. rewrite Hy. apply list_elem_of_fmap_2.
  by apply list_elem_of_filter in Hin as [_ ?].
Qed.

Section volumes.
Context `{Quantities} (settings : KubernetesRuntimeSettings) (redis_url : string).

Lemma tmpfs_not_named n i k :
  n ∈ ["input"; "result"; "artifacts"; "retained-artifacts"; "worker-service-account-token"] →
  n ∉ tmpfs_name <$> seq i k.
Proof.
  intros Hn (j & -> & _)%list_elem_of_fmap. repeat (apply elem_of_cons in Hn as [Hn|Hn]; [done|]).
  by apply elem_of_nil in Hn.
Qed.
Lemma attached policy vs w :
  _attach_worker_tmpfs_volumes policy vs w
  = attach_tmpfs 0 (match policy with Some p => tmpfs (filesystem p) | None => [] end) vs w.
Proof. by destruct policy. Qed.

Lemma plain_names config k :
  let names := ["input"; "result"; "artifacts"] ++ (tmpfs_name <$> seq 0 k) ++ (vo_name <$> retention_volumes settings) in
  NoDup names ∧ (mt_name token_mount ∉ names) ∧ (vo_name <$> runtime_volumes config) = ["input"; "result"; "artifacts"].
Proof.
  intros names. assert ((vo_name <$> retention_volumes settings) ⊆ ["retained-artifacts"]) as Hret.
  { unfold retention_volumes. destruct (artifact_retention settings); set_solver. }
  assert (NoDup (vo_name <$> retention_volumes settings)) as Hndr.
  { unfold retention_volumes. destruct (artifact_retention settings); simpl; [apply NoDup_singleton|constructor]. }
  assert (∀ n, n ∈ ["input"; "result"; "artifacts"; "worker-service-account-token"] →
            n ∉ (tmpfs_name <$> seq 0 k) ++ (vo_name <$> retention_volumes settings)) as Hno.
  { intros n Hn [Ht|Hr]%elem_of_app.
    - revert Ht. apply tmpfs_not_named. set_solver.
    - apply Hret in Hr. apply list_elem_of_singleton in Hr. subst n. set_solver. }
  split_and!; [|clear Hret Hndr; set_solver|done].
  subst names. simpl. apply NoDup_cons. split; [set_solver|]. apply NoDup_cons. split; [set_solver|].
  apply NoDup_cons. split; [set_solver|]. apply NoDup_app. split_and!; [apply NoDup_fmap_2; [apply _|apply NoDup_seq]| |done].
  intros n Hn Hr%Hret%list_elem_of_singleton. subst n. revert Hn. apply tmpfs_not_named. set_solver.
Qed.

Lemma plain_pod_volumes config image context wid t hb policy env vs w :
  _attach_worker_tmpfs_volumes policy (runtime_volumes config)
    (_worker_container settings redis_url image context wid hb policy env) = Ok (vs, w) →
  plain_volumes (mkPod w (_result_forwarder_container settings redis_url context t policy)
    (vs ++ retention_volumes settings) (workload_image_pull_secret_names settings) None None None [] []).
Proof.
  rewrite attached. intros (ms & -> & Hvs & Hnames & _ & Hnd)%attach_tmpfs_spec.
  destruct (plain_names config (length ms)) as (Hdup & Htok & Hrun). rewrite Hrun, Hnames in Hvs.
  assert ((vo_name <$> (vs ++ retention_volumes settings)) = ["input"; "result"; "artifacts"]
    ++ (tmpfs_name <$> seq 0 (length ms)) ++ (vo_name <$> retention_volumes settings)) as Hall.
  { by rewrite fmap_app, Hvs, <- app_assoc. }
  split; [split|]; unfold named_in; cbn [ps_volumes ps_worker ps_forwarder]; rewrite ?Hall; try done.
  - simpl. repeat (apply Forall_cons; split; [set_solver|]). apply Forall_forall. intros m Hm.
    assert (mt_name m ∈ tmpfs_name <$> seq 0 (length ms)) by (rewrite <- Hnames; by apply list_elem_of_fmap_2).
    set_solver.
  - unfold _result_forwarder_container, retention_volumes. destruct (artifact_retention settings); simpl;
      repeat (apply Forall_cons; split; [set_solver|]); by apply Forall_nil.
  - apply NoDup_fmap_filter, Hnd. repeat (apply NoDup_cons; split; [set_solver|]). constructor.
Qed.
End volumes.

(** ** The finished Pod *)

(** A container's security context: not root, no way up, no capability, no writable root. *)
Definition hardened (security : option Json) : Prop :=
  ∃ o uid, security = Some (JObj o)
    ∧ obj_get o "runAsNonRoot" = Some (JBool true) ∧ obj_get o "runAsUser" = Some (JInt uid) ∧ 1 ≤ uid
    ∧ obj_get o "allowPrivilegeEscalation" = Some (JBool false) ∧ obj_get o "privileged" = Some (JBool false)
    ∧ obj_get o "readOnlyRootFilesystem" = Some (JBool true)
    ∧ obj_get o "capabilities" = Some (JObj [("drop", JList [JStr "ALL"])])
    ∧ obj_get o "seccompProfile" = Some (JObj [("type", JStr "RuntimeDefault")]).
Definition bounded `{Quantities} (resources : option Json) : Prop :=
  ∃ r, resources = Some (resources_manifest r) ∧ resources_ok r.
Definition mounts (name : string) (c : Container) : Prop := name ∈ mt_name <$> ct_mounts c.

Section finished.
Context `{Quantities} (settings : KubernetesRuntimeSettings) (redis_url : string).

Lemma restricted_pass pod s kind ro pod' :
  restricted_ok s → apply_restricted_workload_security pod s kind ro = Ok pod' →
  ro ≠ Some false ∧ ps_automount_token pod' = Some false
  ∧ ps_service_account pod' = service_account_for s kind
  ∧ ps_security pod' = Some (pod_security_context s)
  ∧ Forall (λ c, hardened (ct_security c) ∧ bounded (ct_resources c)) [ps_worker pod'; ps_forwarder pod']
  ∧ ct_mounts (ps_worker pod') = ct_mounts (ps_worker pod)
      ++ (if opt_truthy (service_account_for s kind) then [token_mount] else [])
  ∧ ct_mounts (ps_forwarder pod') = ct_mounts (ps_forwarder pod)
  ∧ ps_volumes pod' = ps_volumes pod ++ (if opt_truthy (service_account_for s kind) then [token_volume] else []).
Proof.
  intros Hs. unfold apply_restricted_workload_security. case_bool_decide as Hro; [done|]. cbv zeta.
  destruct (_validated_merged_resources _ _) as [r|] eqn:Hr; simpl; [|done]. intros [= <-].
  assert (resources_ok r) by (by eapply merged_resources_ok, Hr; apply Hs).
  assert (hardened (Some (container_security_context s))).
  { eexists _, (run_as_user s). split; [done|]. simpl. split_and!; try done. apply Hs. }
  assert (bounded (Some (resources_manifest r)) ∧ bounded (Some (resources_manifest (result_forwarder_resources s))))
    as [] by (split; eexists; (split; [done|]); [done|apply Hs]).
  destruct (service_account_for s kind); simpl; rewrite ?app_nil_r; by repeat constructor.
Qed.

Lemma restricted_volumes pod s kind ro pod' :
  restricted_ok s → plain_volumes pod → apply_restricted_workload_security pod s kind ro = Ok pod' →
  volumes_ok pod'.
Proof.
  intros Hs [[Hun Hw Hf Hp] Htok] (_ & _ & _ & _ & _ & Hmw & Hmf & Hvol)%restricted_pass; [|done].
  split; rewrite ?Hvol, ?Hmw, ?Hmf; unfold named_in, own_mounts; rewrite ?Hvol, ?Hmw, ?Hmf;
    destruct (service_account_for s kind) as [a|]; simpl; rewrite ?app_nil_r; try done.
  - rewrite fmap_app. apply NoDup_app. split; [done|]. split; [|apply NoDup_singleton].
    intros n Hn Hn'%list_elem_of_singleton. by subst n.
  - apply Forall_app. split; [|apply Forall_singleton; rewrite fmap_app; apply elem_of_app; by right; left].
    eapply Forall_impl; [exact Hw|]. unfold named_in. intros m Hm. rewrite fmap_app. apply elem_of_app. by left.
  - eapply Forall_impl; [exact Hf|]. unfold named_in. intros m Hm. rewrite fmap_app. apply elem_of_app. by left.
  - rewrite filter_app, filter_cons_False, filter_nil, app_nil_r; [done|]. by intros Hne.
Qed.

(** The Pod of a finished manifest comes from the Pod before the security pass. *)
Lemma build_inv name config image context wid t hb policy placement kind env m :
  build_kubernetes_job_manifest settings redis_url name config image context wid t hb policy placement kind env = Ok m →
  ∃ pod pod' pl, plain_volumes pod
    ∧ ps_forwarder pod = _result_forwarder_container settings redis_url context t policy
    ∧ Forall (λ v, mt_name v ≠ mt_name token_mount ∧ mt_name v ≠ "retained-artifacts") (ct_mounts (ps_worker pod))
    ∧ (if restricted_profile settings
       then apply_restricted_workload_security pod (restricted_workload settings) (effective_kind kind context)
              (policy ≫= (λ p, read_only_root (filesystem p)))
       else Ok pod) = Ok pod'
    ∧ jm_pod m = apply_kubernetes_placement pod' pl.
Proof.
  unfold build_kubernetes_job_manifest. cbv zeta.
  destruct (_attach_worker_tmpfs_volumes _ _ _) as [[vs w]|] eqn:Hat; simpl; [|done].
  destruct (if restricted_profile settings then _ else _) as [pod'|] eqn:Hsec; simpl; [|done]. intros [= <-].
  eexists _, pod', _. split; [by eapply plain_pod_volumes|]. split; [done|]. split; [|by split].
  simpl. rewrite attached in Hat. apply attach_tmpfs_spec in Hat as (ms & -> & _ & Hnames & _).
  simpl. repeat (apply Forall_cons; split; [done|]). apply Forall_forall. intros v Hv.
  assert (mt_name v ∈ tmpfs_name <$> seq 0 (length ms)) as Hin.
  { rewrite <- Hnames. by apply list_elem_of_fmap_2. }
  split; intros Heq; rewrite Heq in Hin; revert Hin; apply tmpfs_not_named; set_solver.
Qed.

(** The Pod of every manifest the runtime builds is well formed: its volumes have
    different names, every mount of both containers names one of them, and no two of
    the worker's mounts share a path, whatever tmpfs paths the resource policy
    declares (the projected service-account token apart). *)
Theorem manifest_volumes_ok name config image context wid t hb policy placement kind env m :
  (restricted_profile settings = true → restricted_ok (restricted_workload settings)) →
  build_kubernetes_job_manifest settings redis_url name config image context wid t hb policy placement kind env = Ok m →
  volumes_ok (jm_pod m).
Proof.
  intros Hset (pod & pod' & pl & Hplain & _ & _ & Hsec & ->)%build_inv.
  assert (volumes_ok pod') as [Hun Hw Hf Hp].
  { destruct (restricted_profile settings); [by eapply restricted_volumes in Hsec; auto|].
    injection Hsec as <-. apply Hplain. }
  destruct pl; by split.
Qed.

(** C15: under the restricted profile a manifest is built only when the policy does not
    ask for a writable root; then no service-account token is mounted automatically,
    the Pod and both containers run as a fixed user that is not root, without
    privileges, capabilities or a writable root, under positive quantities whose
    requests are within their limits; the token is projected into the worker exactly
    when an account is bound to the kind and never into the forwarder, and the worker
    never mounts the retained artifacts. *)
Theorem restricted_pod_secure name config image context wid t hb policy placement kind env m :
  restricted_profile settings = true → restricted_ok (restricted_workload settings) →
  build_kubernetes_job_manifest settings redis_url name config image context wid t hb policy placement kind env = Ok m →
  let pod := jm_pod m in
  policy ≫= (λ p, read_only_root (filesystem p)) ≠ Some false
  ∧ ps_automount_token pod = Some false
  ∧ ps_security pod = Some (pod_security_context (restricted_workload settings))
  ∧ Forall (λ c, hardened (ct_security c) ∧ bounded (ct_resources c)) [ps_worker pod; ps_forwarder pod]
  ∧ ps_service_account pod = service_account_for (restricted_workload settings) (effective_kind kind context)
  ∧ (mounts (mt_name token_mount) (ps_worker pod) ↔ ps_service_account pod ≠ None)
  ∧ ¬ mounts (mt_name token_mount) (ps_forwarder pod) ∧ ¬ mounts "retained-artifacts" (ps_worker pod).
Proof.
  intros Hres Hs (p0 & p1 & pl & _ & Hfw & Hown & Hsec & Hpod)%build_inv. rewrite Hres in Hsec.
  apply restricted_pass in Hsec as (Hro & Hauto & Hacc & Hctx & Hall & Hmw & Hmf & _); [|done].
  cbv zeta. rewrite Hpod. assert (∀ q, ps_worker (apply_kubernetes_placement p1 q) = ps_worker p1
    ∧ ps_forwarder (apply_kubernetes_placement p1 q) = ps_forwarder p1) as Hpl by by intros [].
  destruct (Hpl pl) as [-> ->]. assert (∀ n, n ∈ [mt_name token_mount; "retained-artifacts"] →
    n ∉ mt_name <$> ct_mounts (ps_worker p0)) as Hno.
  { intros n Hn (v & -> & Hv)%list_elem_of_fmap. rewrite Forall_forall in Hown. apply Hown in Hv as []. set_solver. }
  split_and!; try done; try (by destruct pl).
  - unfold mounts. rewrite Hmw, fmap_app, elem_of_app.
    replace (ps_service_account _) with (ps_service_account p1) by by destruct pl. rewrite Hacc.
    destruct (service_account_for _ _); simpl; split; [done|by right; left| |done].
    intros [Hin|Hin]; [|by apply elem_of_nil in Hin]. by apply Hno in Hin; [|left].
  - unfold mounts. rewrite Hmf, Hfw. unfold _result_forwarder_container.
    destruct (artifact_retention settings); simpl; set_solver.
  - unfold mounts. rewrite Hmw, fmap_app, elem_of_app. intros [Hin|Hin]; [by apply Hno in Hin; [|right; left]|].
    destruct (service_account_for _ _); simpl in Hin; set_solver.
Qed.
End finished.

(** ** Concrete manifests *)

(** Quantities in thousandths, with the suffixes the defaults use. *)
Definition plain_parse (s : string) : option Z :=
  let '(d, rest) := span_digits (chars s) in
  let n := digits_value d in
  match d, text rest with
  | [], _ => None
  | _, EmptyString => Some (1000 * n)
  | _, "m" => Some n
  | _, "Mi" => Some (1000 * 1024 * 1024 * n)
  | _, _ => None
  end.
#[export] Instance plain_quantities : Quantities :=
  {| quantity := Z; parse_quantity := plain_parse; quantity_gt := λ x y, y <? x; quantity_zero := 0 |}.

Definition bound_accounts : KubernetesRestrictedWorkloadSettings :=
  mkRestricted 65532 65532 65532 default_worker_resources default_forwarder_resources {[ "report" := "reporter" ]}.
Definition restricted_kube : KubernetesRuntimeSettings :=
  mkKubeSettings "forwarder:1" PullIfNotPresent PullIfNotPresent ["regcred"] true bound_accounts
    (Some (mkRetention "claim" "artifacts" "/data/artifacts" "/goblin-retained-artifacts")).
Definition policy_with (ro : option bool) (paths : list string) (cpu : option string) : ResourcePolicy :=
  mkResourcePolicy None None (mkCpuPolicy None cpu) (mkMemoryPolicy None None) (mkProcessPolicy None)
    (mkNetworkPolicy None) (mkFilesystemPolicy ro paths None None) (mkLogsPolicy None) (mkConcurrencyPolicy None None).
Definition kube_context : GoblinContext := mkGoblinContext "r1" "/artifacts" {[ "job_id" := JStr "j1" ]}.
Definition build_report (settings : KubernetesRuntimeSettings) (policy : ResourcePolicy) : result JobManifest :=
  build_kubernetes_job_manifest settings "redis://cache" "gk-report-r1" "gk-report-r1-input" "report:1" kube_context
    "k8s-worker-r1" (Some 60) 5 (Some policy) None (Some "report") [("MODE", "fast")].
Definition scratch_policy : ResourcePolicy := policy_with None ["/tmp:size=64m"; "/scratch"] (Some "500m").
Definition scratch_manifest : option JobManifest :=
  match build_report restricted_kube scratch_policy with Ok m => Some m | Err _ => None end.

Lemma bound_accounts_ok : restricted_ok bound_accounts.
Proof.
  assert (resources_ok default_worker_resources ∧ resources_ok default_forwarder_resources) as [].
  { split; split; try reflexivity; repeat (apply Forall_cons; split; [eexists; split; reflexivity|]); constructor. }
  split; simpl; [lia..|done|done].
Qed.

Definition mount_view (m : JobManifest) : list (string * string) :=
  (λ v, (mt_name v, mt_path v)) <$> ct_mounts (ps_worker (jm_pod m)).
Definition error_of {A} (r : result A) : option string :=
  match r with Ok _ => None | Err e => Some (exn_str e) end.

(** A restricted worker with two tmpfs volumes and a bound account, what is refused, and
    a tmpfs at the token's own path, which is not: the API server refuses that Pod. *)
Example restricted_manifests :
  mount_view <$> scratch_manifest
  = Some [("input", "/goblin-config"); ("result", "/goblin-result"); ("artifacts", "/artifacts");
          ("worker-tmpfs-0", "/tmp"); ("worker-tmpfs-1", "/scratch");
          ("worker-service-account-token", "/var/run/secrets/kubernetes.io/serviceaccount")]
  ∧ error_of (build_report restricted_kube (policy_with (Some false) [] None))
    = Some "restricted-v1 rejects filesystem.read_only_root=false"
  ∧ error_of (build_report restricted_kube (policy_with None ["/artifacts"] None))
    = Some "tmpfs mount path conflicts with a runtime mount: /artifacts"
  ∧ error_of (build_report restricted_kube (policy_with None [] (Some "50m")))
    = Some "CPU request must not exceed CPU limit"
  ∧ (λ m, (mount_view m).*2) <$>
      (match build_report restricted_kube
               (policy_with None ["/var/run/secrets/kubernetes.io/serviceaccount"] None) with
       | Ok m => Some m | Err _ => None end)
    = Some ["/goblin-config"; "/goblin-result"; "/artifacts"; "/var/run/secrets/kubernetes.io/serviceaccount";
            "/var/run/secrets/kubernetes.io/serviceaccount"].
Proof. split_and!; vm_compute; reflexivity. Qed.

Lemma manifest_volumes_ok_witness : ∃ m, build_report restricted_kube scratch_policy = Ok m ∧ volumes_ok (jm_pod m).
Proof.
  destruct (build_report restricted_kube scratch_policy) as [m|e] eqn:Hm; [|vm_compute in Hm; discriminate].
  exists m. split; [done|]. unfold build_report in Hm.
  apply (manifest_volumes_ok restricted_kube _ _ _ _ _ _ _ _ _ _ _ _ m (λ _, bound_accounts_ok) Hm).
Defined.
Lemma restricted_pod_secure_witness :
  ∃ m, build_report restricted_kube scratch_policy = Ok m ∧ ps_automount_token (jm_pod m) = Some false
    ∧ mounts (mt_name token_mount) (ps_worker (jm_pod m)).
Proof.
  destruct (build_report restricted_kube scratch_policy) as [m|e] eqn:Hm; [|vm_compute in Hm; discriminate].
  exists m. split; [done|]. unfold build_report in Hm.
  destruct (restricted_pod_secure restricted_kube _ _ _ _ _ _ _ _ _ _ _ _ m eq_refl bound_accounts_ok Hm)
    as (_ & Hauto & _ & _ & Hacc & Htok & _ & _).
  split; [exact Hauto|]. apply Htok. rewrite Hacc. vm_compute. discriminate.
Defined.
