(* ===== verification/Registry.v ===== *)
(** * Registries, worker maps and notebook-defined goblins

    [src/src/goblin_king/registry.py] (the index of goblin definitions and its
    lookups), [src/src/goblin_king/workers.py] (the worker image map),
    [src/src/goblin_king/metadata.py] and the notebook helpers at the top of
    [src/src/goblin_king/notebooks.py].  Reading files, entry points and importing
    modules stay outside: [Imports] is what importing a definition's entrypoint
    brings. *)

From Stdlib Require Import Ascii.
From S2P Require Import Prelude CausalTime Contracts ResourcePolicies Auth.

(** [sorted] on strings: the code-point order. *)
Definition sorted_strings (l : list string) : list string := merge_by String.leb l.

(** [", ".join(sorted(keys)) or "<none>"] *)
Definition available_text {R} (t : gmap string R) : string :=
  let text := py_join ", " (sorted_strings (map_to_list t).*1) in
  if truthy text then text else "<none>".

(** ** [GoblinRegistry] *)

Abbreviation Registry := (gmap string GoblinDefinition).

(** [_index_definitions]: the loop with its accumulator. *)
Fixpoint index_loop (indexed : Registry) (definitions : list GoblinDefinition) : result Registry :=
  match definitions with
  | [] => Ok indexed
  | definition :: rest =>
      match indexed !! gd_kind definition with
      | Some _ => Err (RegistryError ("duplicate goblin kind: " +:+ gd_kind definition))
      | None => index_loop (<[gd_kind definition := definition]> indexed) rest
      end
  end.
Definition _index_definitions (definitions : list GoblinDefinition) : result Registry :=
  index_loop ∅ definitions.

(** [GoblinRegistry.from_definitions] and the constructor. *)
Definition from_definitions (definitions : list GoblinDefinition) : result Registry :=
  _index_definitions definitions.

Definition registry_list (r : Registry) : list GoblinDefinition :=
  omap (λ kind, r !! kind) (sorted_strings (map_to_list r).*1).

(** [from_paths_and_definitions]: the files' registry, indexed again together
    with the external definitions. *)
Definition merge_registry (r : Registry) (definitions : list GoblinDefinition) : result Registry :=
  _index_definitions (registry_list r ++ definitions).

Definition registry_get (r : Registry) (kind : string) : result GoblinDefinition :=
  match r !! kind with
  | Some d => Ok d
  | None => Err (RegistryError ("unknown goblin kind " +:+ py_repr kind +:+ "; available: "
                                +:+ available_text r))
  end.

(** Importing the module and looking its entrypoint up. *)
Inductive Imported :=
| ImportFailed                    (* ImportError *)
| ImportRaised (e : exn)          (* anything else the module raises *)
| NoEntrypoint
| NotCallable
| Callable.
Class Imports := { import_entrypoint : GoblinDefinition → Imported }.

Definition registry_resolve `{Imports} (r : Registry) (kind : string) : result GoblinDefinition :=
  let? d := registry_get r kind in
  match import_entrypoint d with
  | ImportFailed =>
      Err (RegistryError ("could not import module " +:+ py_repr (gd_module d) +:+ " for goblin "
                          +:+ py_repr kind))
  | ImportRaised e => Err e
  | NoEntrypoint =>
      Err (RegistryError ("module " +:+ py_repr (gd_module d) +:+ " has no entrypoint "
                          +:+ py_repr (gd_entrypoint d)))
  | NotCallable =>
      Err (RegistryError ("entrypoint " +:+ gd_module d +:+ "." +:+ gd_entrypoint d
                          +:+ " is not callable"))
  | Callable => Ok d
  end.

(** ** [WorkerImageMap] *)

Record WorkerImageDefinition := mkWorkerImage {
  wi_context : string; wi_dockerfile : string; wi_image : string }.
Abbreviation WorkerImageMap := (gmap string WorkerImageDefinition).

Definition worker_get (m : WorkerImageMap) (kind : string) : result WorkerImageDefinition :=
  match m !! kind with
  | Some w => Ok w
  | None => Err (WorkerConfigError ("missing Docker worker image mapping for " +:+ py_repr kind
                                    +:+ "; available: " +:+ available_text m))
  end.
(** [from_path_and_definitions], after the file is read. *)
Definition merge_workers (loaded extra_workers : WorkerImageMap) : result WorkerImageMap :=
  let duplicates :=
    sorted_strings (filter (λ kind, is_Some (loaded !! kind)) (map_to_list extra_workers).*1) in
  match duplicates with
  | [] => Ok (extra_workers ∪ loaded)
  | _ => Err (WorkerConfigError ("duplicate worker image mapping: " +:+ py_join ", " duplicates))
  end.
Definition worker_items (m : WorkerImageMap) : list (string * WorkerImageDefinition) :=
  omap (λ kind, w ← m !! kind; Some (kind, w)) (sorted_strings (map_to_list m).*1).

(** ** Metadata *)

Definition dict_json (d : dict) : Json := JObj (map_to_list d).

(** [GoblinDefinition.model_dump(mode=json)] *)
Definition definition_dump (d : GoblinDefinition) : Json :=
  JObj [("kind", JStr (gd_kind d)); ("display_name", JStr (gd_display_name d));
        ("module", JStr (gd_module d)); ("entrypoint", JStr (gd_entrypoint d));
        ("timeout_seconds", JOptInt (gd_timeout_seconds d));
        ("max_retries", JOptInt (gd_max_retries d));
        ("metadata", dict_json (gd_metadata d))].

Definition goblin_job_metadata (d : GoblinDefinition) (policy : option ResourcePolicy) : dict :=
  let payload : dict :=
    <["goblin_source" := default (JStr "registry") (gd_metadata d !! "source")]>
      {[ "goblin_definition" := definition_dump d ]} in
  match policy with
  | Some p => <["resource_policy" := JObj (compact p)]> payload
  | None => payload
  end.

(** A JSON value survives its own encoding, so only the shape can be refused. *)
Definition goblin_validation_input (d : GoblinDefinition) (runtime_input : dict) : result dict :=
  match gd_metadata d !! "validation_input" with
  | None => Ok runtime_input
  | Some (JObj o) => Ok (list_to_map o)
  | Some _ => Err (ValueError "goblin metadata validation_input must be a JSON object")
  end.

(** ** Notebook-defined goblins *)

Definition NOTEBOOK_WORKER_MODULE : string := "goblin_king.container_only".

Definition nul : string := String Ascii.zero EmptyString.

Definition notebook_source_hash `{Crypto} (source function_name : string) : string :=
  sha256_hex (function_name +:+ nul +:+ source).

(** [image_identity or "<unresolved-runner-image>"] *)
Definition notebook_validation_identity `{Crypto} (image_identity : option string)
    (source_hash : string) : string :=
  let image_part := if truthy_opt image_identity then default EmptyString image_identity
                    else "<unresolved-runner-image>" in
  sha256_hex (image_part +:+ nul +:+ source_hash).

Definition notebook_definition (r : NotebookGoblinRecord) : GoblinDefinition :=
  mkGoblinDefinition (ng_kind r) (ng_display_name r) NOTEBOOK_WORKER_MODULE "run"
    (ng_timeout_seconds r) (Some (ng_max_retries r))
    (<["workload_type" := JStr "notebook-python-function"]>
      (<["source_hash" := JStr (ng_source_hash r)]>
        (<["function_name" := JStr (ng_function_name r)]> (ng_metadata r)))).

Definition notebook_worker_map (r : NotebookGoblinRecord) : WorkerImageMap :=
  {[ ng_kind r := mkWorkerImage "." "Dockerfile" (ng_image r) ]}.

Definition notebook_worker_input (r : NotebookGoblinRecord) (payload : dict) : dict :=
  list_to_map [("kind", JStr (ng_kind r)); ("source", JStr (ng_source r));
               ("source_hash", JStr (ng_source_hash r)); ("function", JStr (ng_function_name r));
               ("payload", dict_json payload)].

(** ** Lemmas *)

Lemma index_loop_spec indexed ds :
  match index_loop indexed ds with
  | Ok r => NoDup (gd_kind <$> ds) ∧ (∀ d, d ∈ ds → indexed !! gd_kind d = None)
      ∧ (∀ kind d, r !! kind = Some d ↔ indexed !! kind = Some d ∨ (d ∈ ds ∧ gd_kind d = kind))
  | Err e => ∃ kind, e = RegistryError ("duplicate goblin kind: " +:+ kind)
      ∧ (∃ d, d ∈ ds ∧ gd_kind d = kind)
      ∧ ¬ (NoDup (gd_kind <$> ds) ∧ ∀ d, d ∈ ds → indexed !! gd_kind d = None)
  end.
Proof.
  revert indexed. induction ds as [|d ds IH]; intros indexed; simpl.
  - split_and!; [constructor|by intros d Hd%not_elem_of_nil|].
    intros kind d. split; [by left|]. intros [?|[Hd _]]; [done|by apply not_elem_of_nil in Hd].
  - destruct (indexed !! gd_kind d) as [old|] eqn:Hold.
    { exists (gd_kind d). split_and!; [done|exists d; split; [left|done]|].
      intros [_ Hno]. rewrite Hno in Hold; [done|left]. }
    specialize (IH (<[gd_kind d := d]> indexed)).
    destruct (index_loop _ ds) as [r|e].
    + destruct IH as (Hnd & Hno & Hr).
      assert (∀ x, x ∈ ds → gd_kind x ≠ gd_kind d ∧ indexed !! gd_kind x = None) as Hds.
      { intros x Hx. specialize (Hno x Hx). destruct (decide (gd_kind x = gd_kind d)) as [E|E].
        - by rewrite E, lookup_insert_eq in Hno.
        - by rewrite lookup_insert_ne in Hno. }
      split_and!.
      * apply NoDup_cons. split; [|done]. intros (x & Hk & Hx)%list_elem_of_fmap.
        by destruct (Hds x Hx).
      * intros x [->|Hx]%elem_of_cons; [done|]. by apply Hds.
      * intros kind x. rewrite Hr, elem_of_cons. destruct (decide (kind = gd_kind d)) as [->|Hk].
        -- rewrite lookup_insert_eq. split.
           ++ intros [[= ->]|[Hx Heq]]; [by right; split; [left|]|].
              by destruct (Hds x Hx).
           ++ intros [Hx|[[->|Hx] Heq]]; [congruence|by left|by destruct (Hds x Hx)].
        -- rewrite lookup_insert_ne by done. naive_solver.
    + destruct IH as (kind & -> & (x & Hx & Hk) & Hno). exists kind.
      split_and!; [done|exists x; split; [by right|done]|].
      intros [[Hd Hnd]%NoDup_cons Hall]. apply Hno. split; [done|].
      intros y Hy. destruct (decide (gd_kind y = gd_kind d)) as [E|E].
      * destruct Hd. rewrite <- E. by apply list_elem_of_fmap_2.
      * rewrite lookup_insert_ne by done. apply Hall. by right.
Qed.

(** ** Properties *)

(** A registry is built exactly from definitions with pairwise different
    kinds; it then finds each of them under its kind and nothing else, and an
    unknown kind is refused with a [RegistryError]; a repeated kind refuses the
    whole registry and names the kind. *)
Theorem registry_index_spec (ds : list GoblinDefinition) :
  match from_definitions ds with
  | Ok r => NoDup (gd_kind <$> ds)
      ∧ ∀ kind, match registry_get r kind with
                | Ok d => d ∈ ds ∧ gd_kind d = kind
                | Err e => (∀ d, d ∈ ds → gd_kind d ≠ kind) ∧ ∃ msg, e = RegistryError msg
                end
  | Err e => ¬ NoDup (gd_kind <$> ds)
      ∧ ∃ d, d ∈ ds ∧ e = RegistryError ("duplicate goblin kind: " +:+ gd_kind d)
  end.
Proof.
  unfold from_definitions, _index_definitions. pose proof (index_loop_spec ∅ ds) as Hspec.
  destruct (index_loop ∅ ds) as [r|e].
  - destruct Hspec as (Hnd & _ & Hr). split; [done|]. intros kind. unfold registry_get.
    destruct (r !! kind) as [d|] eqn:Hk.
    + apply Hr in Hk as [Hk|Hk]; [by rewrite lookup_empty in Hk|done].
    + split; [|eauto]. intros d Hd Heq.
      assert (r !! kind = Some d) by (apply Hr; by right). congruence.
  - destruct Hspec as (kind & -> & (d & Hd & <-) & Hno). split; [|by exists d].
    intros Hnd. apply Hno. split; [done|]. intros x _. apply lookup_empty.
Qed.
