(* ===== verification/World.v ===== *)
(** * The control plane's shared state

    The tables of one [SQLiteStore] and the process that works on them, as one
    record, with a lens per component: what [Validation], [Scheduler] and
    [Fanout] run their operations in.  Also the standard-library calls they make
    on the clock ([datetime.now], [isoformat]), and the reasoning about calls
    that leave a job alone. *)

From S2P Require Import Prelude CausalTime Contracts EventStore JobStore JobLifecycle RecordStore Auth.

Record World := mkWorld {
  w_process : Process;
  w_events : EventTables;
  w_jobs : JobTables;
  w_schedules : table ScheduleRecord;
  w_fanouts : table FanoutRecord;
  w_validations : table WorkerValidationRecord;
  w_notebooks : table NotebookGoblinRecord;
  w_audit : table AuditLogRecord
}.

Definition w_process_lens : lens World Process :=
  Lens w_process (λ p w, mkWorld p (w_events w) (w_jobs w) (w_schedules w) (w_fanouts w)
                           (w_validations w) (w_notebooks w) (w_audit w)).
Definition w_bus_lens : lens World Bus :=
  Lens (λ w, mkBus (w_process w) (w_events w))
    (λ b w, mkWorld (bus_process b) (bus_events b) (w_jobs w) (w_schedules w) (w_fanouts w)
              (w_validations w) (w_notebooks w) (w_audit w)).
Definition w_jobs_lens : lens World JobTables :=
  Lens w_jobs (λ t w, mkWorld (w_process w) (w_events w) t (w_schedules w) (w_fanouts w)
                        (w_validations w) (w_notebooks w) (w_audit w)).
Definition w_schedules_lens : lens World (table ScheduleRecord) :=
  Lens w_schedules (λ t w, mkWorld (w_process w) (w_events w) (w_jobs w) t (w_fanouts w)
                             (w_validations w) (w_notebooks w) (w_audit w)).
Definition w_fanouts_lens : lens World (table FanoutRecord) :=
  Lens w_fanouts (λ t w, mkWorld (w_process w) (w_events w) (w_jobs w) (w_schedules w) t
                           (w_validations w) (w_notebooks w) (w_audit w)).
Definition w_validations_lens : lens World (table WorkerValidationRecord) :=
  Lens w_validations (λ t w, mkWorld (w_process w) (w_events w) (w_jobs w) (w_schedules w)
                               (w_fanouts w) t (w_notebooks w) (w_audit w)).
Definition w_audited_lens : lens World Audited :=
  Lens (λ w, mkAudited (w_process w) (w_audit w))
    (λ a w, mkWorld (ad_process a) (w_events w) (w_jobs w) (w_schedules w) (w_fanouts w)
              (w_validations w) (w_notebooks w) (ad_logs a)).

#[export] Instance w_process_lens_lawful : LawfulLens w_process_lens.
Proof. split; by intros; try destruct s. Qed.
#[export] Instance w_bus_lens_lawful : LawfulLens w_bus_lens.
Proof. split; [by intros [] []|by intros []|by intros [] [] []]. Qed.

(** ** Clock text *)

(** The proleptic Gregorian date of a day number (0 is 1970-01-01). *)
Definition civil_date (days : Z) : Z * Z * Z :=
  let z := days + 719468 in
  let era := z / 146097 in
  let doe := z mod 146097 in
  let yoe := (doe - doe / 1460 + doe / 36524 - doe / 146096) / 365 in
  let doy := doe - (365 * yoe + yoe / 4 - yoe / 100) in
  let mp := (5 * doy + 2) / 153 in
  let d := doy - (153 * mp + 2) / 5 + 1 in
  let m := if mp <? 10 then mp + 3 else mp - 9 in
  (yoe + era * 400 + (if m <=? 2 then 1 else 0), m, d).

Fixpoint zero_pad (width : nat) (text : string) : string :=
  match width with
  | O => text
  | S n => if Nat.ltb (String.length text) width then "0" +:+ zero_pad n text else text
  end.
Definition padded (width : nat) (n : Z) : string := zero_pad width (pretty n).

(** [datetime.isoformat] without the offset. *)
Definition iso_local (t : utc) : string :=
  let day := 86400 * 1000000 in
  let '(y, m, d) := civil_date (t / day) in
  let us := t mod day in
  let s := us / 1000000 in
  padded 4 y +:+ "-" +:+ padded 2 m +:+ "-" +:+ padded 2 d +:+ "T"
  +:+ padded 2 (s / 3600) +:+ ":" +:+ padded 2 (s / 60 mod 60) +:+ ":" +:+ padded 2 (s mod 60)
  +:+ (if us mod 1000000 =? 0 then EmptyString else "." +:+ padded 6 (us mod 1000000)).
(** [datetime.isoformat] of an aware UTC value. *)
Definition isoformat (t : utc) : string := iso_local t +:+ "+00:00".

Example isoformat_epoch : isoformat 0 = "1970-01-01T00:00:00+00:00".
Proof. reflexivity. Qed.
Example isoformat_leap_day : isoformat 951827696000123 = "2000-02-29T12:34:56.000123+00:00".
Proof. reflexivity. Qed.

Section world.
Context `{Env}.

(** [datetime.now()]: a raw reading of the wall clock, past the monotonic one. *)
Definition wall_now : M Process datetime :=
  λ p, (mkProcess (S (clk_reads p)) (clk_last p) (mono_reads p) (uuids p),
        Ok (wall_clock (clk_reads p))).

(** [runtime.new_run_context]; a job id is a single path component. *)
Definition new_run_context (job_id kind : string) (attempt : Z) : M World GoblinContext :=
  let* run_id := zoom w_process_lens new_uuid in
  let* now := zoom w_process_lens wall_now in
  ret (mkGoblinContext run_id (".goblin-king/artifacts/" +:+ job_id)
         (list_to_map [("job_id", JStr job_id); ("kind", JStr kind); ("attempt", JInt attempt);
                       ("started_at", JStr (isoformat (ensure_utc now)))])).
End world.

(** [{**context.metadata, **extra}] *)
Definition with_metadata (extra : dict) (c : GoblinContext) : GoblinContext :=
  mkGoblinContext (gc_run_id c) (gc_artifact_root c) (extra ∪ gc_metadata c).
