(* ===== verification/Polling.v ===== *)
(** * Waiting by polling

    A loop that reads the monotonic clock, gives up at a deadline and sleeps between its
    turns.  [poll] is the loop with fuel, on any state that holds the clock's process; it
    ends before its fuel does when every turn that does not finish sleeps for an
    interval. *)

From S2P Require Import Prelude CausalTime EventStore JobStore World.

(** How often the monotonic clock was read. *)
Definition reads (w : World) : nat := mono_reads (w_process w).
Definition reads_grow (w w' : World) : Prop := (reads w ≤ reads w')%nat.
#[export] Instance reads_grow_preorder : PreOrder reads_grow.
Proof. unfold reads_grow. split; [intros w|intros w1 w2 w3]; lia. Qed.

Section polling.
Context `{Env} {St : Type} (clock : lens St Process) `{!LawfulLens clock}.

Definition readings (s : St) : nat := mono_reads (view clock s).

Lemma clock_step s :
  ∃ s', zoom clock time_monotonic s = (s', Ok (monotonic_clock (readings s))) ∧ readings s' = S (readings s).
Proof. eexists. rewrite zoom_eq. split; [done|]. unfold readings. by rewrite view_put. Qed.

(** [while time.monotonic() < deadline]: a turn finishes with a value or goes on with a
    state; at the deadline the state is what is left; [None] when the fuel is spent. *)
Fixpoint poll {A B} (fuel : nat) (deadline : Z) (turn : B → M St (A + B)) (b : B) : M St (option (A + B)) :=
  match fuel with
  | O => ret None
  | S fuel =>
      let* now := zoom clock time_monotonic in
      if now <? deadline then
        let* r := turn b in
        match r with inl a => ret (Some (inl a)) | inr b => poll fuel deadline turn b end
      else ret (Some (inr b))
  end.
(** One turn per interval, and one each for its start and its end. *)
Definition poll_fuel (interval timeout : Z) : nat := Z.to_nat (Z.max 0 (timeout / interval) + 2).

(** A turn that goes on has slept: the next reading is an interval after any before it. *)
Definition sleeps_between {A B} (interval : Z) (turn : B → M St (A + B)) : Prop :=
  ∀ b s s' b' i, turn b s = (s', Ok (inr b')) → (i < readings s)%nat →
    monotonic_clock i + interval ≤ monotonic_clock (readings s').

Lemma poll_ends {A B} interval (turn : B → M St (A + B)) fuel deadline b s :
  0 < interval → sleeps_between interval turn → (0 < fuel)%nat →
  deadline - monotonic_clock (readings s) ≤ (Z.of_nat fuel - 1) * interval →
  (poll fuel deadline turn b s).2 ≠ Ok None.
Proof.
  intros Hpos Hsleep. revert b s. induction fuel as [|fuel IH]; intros b s Hfuel Hleft; [lia|]. cbn [poll].
  destruct (clock_step s) as (s1 & Hnow & Hreads). unfold bind at 1. rewrite Hnow.
  destruct (Z.ltb_spec (monotonic_clock (readings s)) deadline) as [Hlt|]; [|done].
  unfold bind. destruct (turn b s1) as [s2 [[a|b']|e]] eqn:Ht; [done| |done].
  apply (Hsleep _ _ _ _ (readings s)) in Ht; [|lia]. destruct fuel as [|fuel]; [simpl in Hleft; lia|].
  apply IH; lia.
Qed.
Lemma poll_with_fuel {A B} interval (turn : B → M St (A + B)) fuel started timeout b s :
  0 < interval → sleeps_between interval turn → (poll_fuel interval timeout ≤ fuel)%nat →
  started ≤ monotonic_clock (readings s) →
  (poll fuel (started + timeout) turn b s).2 ≠ Ok None.
Proof.
  intros Hpos Hsleep Hfuel Hstart. unfold poll_fuel in Hfuel. apply (poll_ends interval); [done|done|lia|].
  pose proof (Z.mul_succ_div_gt timeout interval Hpos).
  assert (timeout ≤ (Z.max 0 (timeout / interval) + 1) * interval) by nia. nia.
Qed.
End polling.

Lemma monotonic_reading `{Env} w :
  ∃ w', zoom w_process_lens time_monotonic w = (w', Ok (monotonic_clock (reads w))) ∧ reads w' = S (reads w).
Proof. exact (clock_step w_process_lens w). Qed.
