(* ===== verification/NotebookClient.v ===== *)
(** * The notebook client ([src/src/goblin_king/notebooks.py])

    What a workbook calls: it declares functions and services, submits them to the
    directory, follows their review and runs them, all over HTTP.

    [Desk] is the client's side: its clock, the requests it has handed to [urlopen], the
    lines it has printed, and everything outside, of which nothing is assumed.
    [NotebookHost] is what the code asks of Python and the network: [urlopen] answers a
    request, with an error status or not, or raises; JSON texts are parsed; sleeping lets
    the clock go on.  Times are microseconds.  What the server answers is arbitrary JSON;
    reading a key of it raises as Python does.  A handle on a declared function, a service
    or an entry of the directory is a record of its own, kept beside the desk. *)

From Stdlib Require Import Ascii.
From S2P Require Import Prelude CausalTime Contracts Text PyValues Containers Auth Urls Quoting Polling.

(** ** Reading JSON as Python does *)

Definition type_name (j : Json) : string :=
  match j with
  | JNull => "NoneType" | JBool _ => "bool" | JInt _ => "int" | JStr _ => "str" | JList _ => "list" | JObj _ => "dict"
  end.
(** [value[key]] *)
Definition py_item (j : Json) (key : string) : result Json :=
  match j with
  | JObj o => match obj_get o key with Some v => Ok v | None => Err (KeyError key) end
  | JList _ => Err (TypeError "list indices must be integers or slices, not str")
  | JStr _ => Err (TypeError "string indices must be integers, not 'str'")
  | _ => Err (TypeError ("'" +:+ type_name j +:+ "' object is not subscriptable"))
  end.
Definition no_attribute (j : Json) (name : string) : exn :=
  OtherException "AttributeError" ("'" +:+ type_name j +:+ "' object has no attribute '" +:+ name +:+ "'").
(** [value.get(key, default)] *)
Definition py_get (j : Json) (key : string) (otherwise : Json) : result Json :=
  match j with JObj o => Ok (default otherwise (obj_get o key)) | _ => Err (no_attribute j "get") end.
(** [key in value] *)
Definition py_in (key : string) (j : Json) : result bool :=
  match j with
  | JObj o => Ok (bool_decide (is_Some (obj_get o key)))
  | JList l => Ok (existsb (py_eq (JStr key)) l)
  | JStr s => Ok (in_text key s)
  | _ => Err (TypeError ("argument of type '" +:+ type_name j +:+ "' is not iterable"))
  end.
(** What a [for] loop goes through *)
Definition py_iter (j : Json) : result (list Json) :=
  match j with
  | JList l => Ok l
  | JObj o => Ok (JStr <$> o.*1)
  | JStr s => Ok ((λ w, JStr (text w.1)) <$> utf8_chars (chars s))
  | _ => Err (TypeError ("'" +:+ type_name j +:+ "' object is not iterable"))
  end.
(** [value[-1]] *)
Definition py_last (j : Json) : result Json :=
  match j with
  | JList l => match last l with Some v => Ok v | None => Err (OtherException "IndexError" "list index out of range") end
  | JStr s => match last (utf8_chars (chars s)) with
              | Some w => Ok (JStr (text w.1))
              | None => Err (OtherException "IndexError" "string index out of range")
              end
  | JObj _ => Err (KeyError "-1")
  | _ => Err (TypeError ("'" +:+ type_name j +:+ "' object is not subscriptable"))
  end.
(** [{**value, **more}] *)
Definition py_merge (j : Json) (more : list (string * Json)) : result Json :=
  match j with
  | JObj o => Ok (JObj (dict_update o more))
  | _ => Err (TypeError ("'" +:+ type_name j +:+ "' object is not a mapping"))
  end.
(** [value or default] *)
Definition or_json (j default : Json) : Json := if py_truthy j then j else default.

(** ** Requests, answers and progress *)

Record Request := mkRequest {
  rq_method : string; rq_url : string; rq_data : option string;
  rq_headers : list (string * string); rq_timeout : Z }.
Inductive Answer :=
| Replied (body : string)
| ErrorReplied (code : Z) (body : string).

(** A progress payload: its members but the last, and the seconds in tenths *)
Record Update := mkUpdate { up_fields : list (string * Json); up_elapsed : Z }.
(** [round(seconds, 1)], ties to the even tenth *)
Definition round_tenths (microseconds : Z) : Z :=
  let q := microseconds / 100000 in let r := microseconds mod 100000 in
  if r <? 50000 then q else if 50000 <? r then q + 1 else if Z.even q then q else q + 1.
Definition tenths_text (t : Z) : string :=
  (if t <? 0 then "-" else EmptyString) +:+ pretty (Z.abs t / 10) +:+ "." +:+ pretty (Z.abs t mod 10).
Definition field_of (u : Update) (key : string) : Json := default JNull (obj_get (up_fields u) key).

Record Desk (Outside : Type) := mkDesk {
  dk_process : Process; dk_outside : Outside; dk_sent : list Request; dk_printed : list string }.
Arguments mkDesk {Outside}.
Arguments dk_process {Outside}.
Arguments dk_outside {Outside}.
Arguments dk_sent {Outside}.
Arguments dk_printed {Outside}.

Class NotebookHost (Outside : Type) := {
  urlopen : Request → M Outside Answer;
  sleep : Z → M Process unit;
  getenv : string → option string;
  nb_json_loads : string → result Json
}.

(** A Python function: its name and [inspect.getsource] of it *)
Record PyFunction := mkFunction { fn_name : string; fn_source : result string }.
(** [progress] and [on_progress] *)
Record Reporter (Outside : Type) := mkReporter { rp_progress : bool; rp_on_progress : option (Update → M Outside unit) }.
Arguments mkReporter {Outside}.
Arguments rp_progress {Outside}.
Arguments rp_on_progress {Outside}.

Section lenses.
Context {Outside : Type}.
Definition dk_process_lens : lens (Desk Outside) Process :=
  Lens dk_process (λ p d, mkDesk p (dk_outside d) (dk_sent d) (dk_printed d)).
Definition dk_outside_lens : lens (Desk Outside) Outside :=
  Lens dk_outside (λ o d, mkDesk (dk_process d) o (dk_sent d) (dk_printed d)).
#[export] Instance dk_process_lens_lawful : LawfulLens dk_process_lens.
Proof. split; by intros; try destruct s. Qed.
#[export] Instance dk_outside_lens_lawful : LawfulLens dk_outside_lens.
Proof. split; by intros; try destruct s. Qed.
Definition send (r : Request) : M (Desk Outside) unit :=
  modify (λ d, mkDesk (dk_process d) (dk_outside d) (dk_sent d ++ [r]) (dk_printed d)).
Definition print (line : string) : M (Desk Outside) unit :=
  modify (λ d, mkDesk (dk_process d) (dk_outside d) (dk_sent d) (dk_printed d ++ [line])).
End lenses.

(** ** [textwrap.dedent] *)

Definition is_indent (c : ascii) : bool := Ascii.eqb c " " || Ascii.eqb c "009".
Fixpoint indent_of (l : list ascii) : list ascii :=
  match l with c :: l' => if is_indent c then c :: indent_of l' else [] | [] => [] end.
Fixpoint common_prefix (a b : list ascii) : list ascii :=
  match a, b with
  | x :: a', y :: b' => if Ascii.eqb x y then x :: common_prefix a' b' else []
  | _, _ => []
  end.
Definition blank_line (l : list ascii) : bool := forallb is_indent l.
Definition margin_of (lines : list (list ascii)) : list ascii :=
  match filter (λ l, blank_line l = false) lines with
  | [] => []
  | l :: rest => foldl common_prefix (indent_of l) (indent_of <$> rest)
  end.
Definition dedent (source : string) : string :=
  let lines := split_on "010" (chars source) in
  let margin := margin_of lines in
  text (join_with "010" ((λ l, if blank_line l then [] else drop (length margin) l) <$> lines)).

(** [_function_source]; [None] is not a function *)
Definition _function_source (function : option PyFunction) : result string :=
  match function with
  | None => Err (TypeError "module, class, method, function, traceback, frame, or code object was expected, got NoneType")
  | Some f =>
      match fn_source f with
      | Ok source => Ok (dedent source)
      | Err (OtherException "OSError" _) =>
          Err (ValueError "could not read function source; pass source=... when declaring this goblin")
      | Err e => Err e
      end
  end.

Record GoblinKingNotebookClient := mkClient {
  cl_api_url : string; cl_repository_url : option string; cl_request_timeout : Z; cl_token : string }.

(** [GoblinKingNotebookClient(...)] *)
Definition new_client `{NotebookHost Outside} (api_url token repository_url : option string) (request_timeout_seconds : Z)
    : result GoblinKingNotebookClient :=
  let configured := rstrip_slash (default EmptyString (or_opt api_url (getenv "GOBLIN_KING_API_URL"))) in
  let repository := rstrip_slash (default EmptyString (or_opt repository_url (getenv "GOBLIN_KING_REPOSITORY_URL"))) in
  let token := or_opt token (or_opt (getenv "GOBLIN_KING_API_TOKEN") (getenv "JUPYTERHUB_API_TOKEN")) in
  match token with
  | Some t =>
      if truthy t then
        Ok (mkClient (if truthy configured then configured else "http://127.0.0.1:8000")
              (if truthy repository then Some repository else None) request_timeout_seconds t)
      else Err (ValueError "token is required; set GOBLIN_KING_API_TOKEN or JUPYTERHUB_API_TOKEN")
  | None => Err (ValueError "token is required; set GOBLIN_KING_API_TOKEN or JUPYTERHUB_API_TOKEN")
  end.

Section client.
Context {Outside : Type} `{Env} `{NotebookHost Outside}.
(** The turns a waiting loop is given *)
Context (fuel : nat).
Notation Client A := (M (Desk Outside) A).

Definition clock_reading : Client Z := zoom dk_process_lens time_monotonic.

(** ** Progress *)

(** Hands a payload to the callback, or prints a line made of it *)
Definition report (r : Reporter Outside) (payload : result Update) (line : Update → string) : Client unit :=
  if negb (rp_progress r) && negb (opt_truthy (rp_on_progress r)) then ret tt
  else
    let* u := lift_result payload in
    match rp_on_progress r with
    | Some callback => zoom dk_outside_lens (callback u)
    | None => if rp_progress r then print (line u) else ret tt
    end.

Definition job_update (phase kind : string) (job run : Json) (elapsed : Z) : result Update :=
  let? job_id := py_get job "id" JNull in
  let? job_status := py_get job "status" JNull in
  let? run_id := (if py_truthy run then py_get run "id" JNull else Ok JNull) in
  let? run_status := (if py_truthy run then py_get run "status" JNull else Ok JNull) in
  Ok (mkUpdate [("phase", JStr phase); ("kind", JStr kind); ("job_id", job_id); ("job_status", job_status);
                ("run_id", run_id); ("run_status", run_status)] (round_tenths elapsed)).
Definition _emit_progress (r : Reporter Outside) (phase kind : string) (job run : Json) (elapsed : Z) : Client unit :=
  report r (job_update phase kind job run elapsed)
    (λ u, "[" +:+ tenths_text (up_elapsed u) +:+ "s] " +:+ kind +:+ " job=" +:+ py_str (field_of u "job_status")
          +:+ " run=" +:+ py_str (or_json (field_of u "run_status") (JStr "none"))).

Definition service_update (phase kind : string) (service : Json) (elapsed : Z) : result Update :=
  let? service_id := py_get service "active_service_id" JNull in
  let? status := py_get service "runtime_status" JNull in
  let? backend := py_get service "runtime_backend" JNull in
  let? name := py_get service "runtime_name" JNull in
  Ok (mkUpdate [("phase", JStr phase); ("kind", JStr kind); ("service_id", service_id); ("runtime_status", status);
                ("runtime_backend", backend); ("runtime_name", name)] (round_tenths elapsed)).
Definition _emit_service_progress (r : Reporter Outside) (phase kind : string) (service : Json) (elapsed : Z)
    : Client unit :=
  report r (service_update phase kind service elapsed)
    (λ u, "[" +:+ tenths_text (up_elapsed u) +:+ "s] " +:+ kind
          +:+ " service=" +:+ py_str (or_json (field_of u "service_id") (JStr "none"))
          +:+ " status=" +:+ py_str (or_json (field_of u "runtime_status") (JStr phase))).

Definition repository_update (phase : string) (detail : Json) (elapsed : Z) : result Update :=
  let? entry := py_get detail "entry" JNull in
  let entry := or_json entry (JObj []) in
  let? versions := py_get detail "versions" JNull in
  let versions := or_json versions (JList []) in
  let? version := py_get detail "version" JNull in
  let? version := (if py_truthy version then Ok version
                   else if py_truthy versions then py_last versions else Ok (JObj [])) in
  let? entry_id := py_get entry "id" JNull in
  let? name := py_get entry "name" JNull in
  let? entry_status := py_get entry "status" JNull in
  let? project_id := py_get entry "project_id" JNull in
  let? number := py_get version "version" JNull in
  let? version_status := py_get version "status" JNull in
  let? kind := py_get version "kind" JNull in
  Ok (mkUpdate [("phase", JStr phase); ("entry_id", entry_id); ("name", name); ("entry_status", entry_status);
                ("project_id", project_id); ("version", number); ("version_status", version_status); ("kind", kind)]
       (round_tenths elapsed)).
Definition _emit_repository_progress (r : Reporter Outside) (phase : string) (detail : Json) (elapsed : Z) : Client unit :=
  report r (repository_update phase detail elapsed)
    (λ u, "[" +:+ tenths_text (up_elapsed u) +:+ "s] repository "
          +:+ py_str (or_json (field_of u "name") (or_json (field_of u "entry_id") (JStr "repository-entry")))
          +:+ " entry=" +:+ py_str (or_json (field_of u "entry_status") (JStr phase))
          +:+ " version=" +:+ py_str (or_json (field_of u "version_status") (JStr "unknown"))).

(** ** Requests *)

Context (client : GoblinKingNotebookClient).

Definition hint (code : Z) (path base_url : string) : string :=
  if (code =? 404) && starts_with "/notebooks/" path then
    " The notebook helper is newer than the Goblin King API at " +:+ cl_api_url client
    +:+ ", or GOBLIN_KING_API_URL points at the wrong service. Redeploy Goblin King from the matching branch, then rerun the workbook."
  else if (code =? 404) && starts_with "/repository/" path then
    " Repository routes are unavailable at " +:+ base_url
    +:+ ". Enable repository.enabled=true on the API, or set GOBLIN_KING_REPOSITORY_URL to the optional repository service."
  else EmptyString.

Definition or_url (base_url : option string) : string :=
  match base_url with Some u => if truthy u then u else cl_api_url client | None => cl_api_url client end.
Definition build_request (method path : string) (payload : option Json) (base_url : option string) : Request :=
  mkRequest method (or_url base_url +:+ path) (json_dumps <$> payload)
    ([("Accept", "application/json"); ("Authorization", "Bearer " +:+ cl_token client)]
     ++ match payload with Some _ => [("Content-Type", "application/json")] | None => [] end)
    (cl_request_timeout client).
Definition _request (method path : string) (payload : option Json) (base_url : option string) : Client Json :=
  let request := build_request method path payload base_url in
  do* send request in
  let* answer := zoom dk_outside_lens (urlopen request) in
  match answer with
  | Replied body =>
      match utf8_decode body with
      | None => raise (OtherValueError "UnicodeDecodeError" "'utf-8' codec can't decode the body")
      | Some raw => if truthy raw then lift_result (nb_json_loads raw) else ret (JObj [])
      end
  | ErrorReplied code body =>
      raise (RuntimeError (method +:+ " " +:+ path +:+ " failed with " +:+ pretty code +:+ ": "
                           +:+ text (decode_replace (chars body)) +:+ hint code path (or_url base_url)))
  end.
Definition repository_base : string :=
  match cl_repository_url client with Some u => if truthy u then u else cl_api_url client | None => cl_api_url client end.
Definition _repository_request (method path : string) (payload : option Json) : Client Json :=
  _request method path payload (Some repository_base).

Definition _repository_entry_path (entry_id action : string) (version : option Z) : string :=
  "/repository/entries/" +:+ quote entry_id +:+ "/" +:+ action
  +:+ match version with Some v => "?" +:+ urlencode [("version", pretty v)] | None => EmptyString end.
Definition _repository_transition (entry_id action : string) (payload : list (string * Json)) (version : option Z)
    (phase : string) (r : Reporter Outside) : Client Json :=
  let* started_at := clock_reading in
  let* response := _repository_request "POST" (_repository_entry_path entry_id action version) (Some (JObj payload)) in
  let* now := clock_reading in
  do* _emit_repository_progress r phase response (now - started_at) in
  ret response.

(** ** Jobs *)

Definition TERMINAL_JOB_STATUSES : list string := ["completed"; "failed"; "timed_out"; "cancelled"].

(** The first listed run whose job is the one asked for *)
Fixpoint run_of_job (job_id : Json) (items : list Json) : result Json :=
  match items with
  | [] => Ok JNull
  | x :: rest =>
      let? owner := py_get x "job_id" JNull in
      if py_eq owner job_id then Ok x else run_of_job job_id rest
  end.
Definition _run_for_job (job_id : Json) (kind : string) : Client Json :=
  let* runs := _request "GET" ("/runs?kind=" +:+ quote kind +:+ "&limit=100") None None in
  lift_result (let? items := py_get runs "items" (JList []) in
               let? items := py_iter items in
               run_of_job job_id items).

Definition job_result (job run : Json) : list (string * Json) := [("job", job); ("run", run)].

(** One turn: the job, its run, and the next time to report *)
Definition job_turn (r : Reporter Outside) (job : Json) (kind : string) (started_at interval poll_seconds : Z)
    (next_progress : Z) : Client (list (string * Json) + Z) :=
  let* job_id := lift_result (py_item job "id") in
  let* latest_job := _request "GET" ("/jobs/" +:+ py_str job_id) None None in
  let* latest_run := _run_for_job job_id kind in
  let* now := clock_reading in
  let* status := lift_result (py_get latest_job "status" (JStr EmptyString)) in
  if bool_decide (py_str status ∈ TERMINAL_JOB_STATUSES) then
    do* _emit_progress r (py_str status) kind latest_job latest_run (now - started_at) in
    ret (inl (job_result latest_job latest_run))
  else
    let* next := (if next_progress <=? now then
                    do* _emit_progress r "polling" kind latest_job latest_run (now - started_at) in
                    ret (now + interval)
                  else ret next_progress) in
    do* zoom dk_process_lens (sleep poll_seconds) in
    ret (inr next).
Definition _wait_for_job (r : Reporter Outside) (job : Json) (kind : string)
    (started_at timeout_seconds poll_seconds interval : Z) : Client (option (list (string * Json))) :=
  let* out := poll dk_process_lens fuel (started_at + 1000000 * timeout_seconds)
                (job_turn r job kind started_at interval poll_seconds) (started_at + interval) in
  match out with
  | Some (inl found) => ret (Some found)
  | Some (inr _) =>
      let* job_id := lift_result (py_item job "id") in
      raise (OtherException "TimeoutError" ("timed out waiting for notebook goblin job " +:+ py_str job_id))
  | None => ret None
  end.

Record RunOptions := mkRunOptions {
  ro_wait : bool; ro_timeout_seconds : Z; ro_poll_seconds : Z; ro_progress_interval : Z }.
Definition default_run_options : RunOptions := mkRunOptions true 120 1000000 5000000.

(** [run] *)
Definition run (r : Reporter Outside) (kind : string) (payload : list (string * Json)) (o : RunOptions)
    : Client (option Json) :=
  let* job := _request "POST" "/jobs" (Some (JObj [("kind", JStr kind); ("input", JObj payload)])) None in
  let* start := clock_reading in
  do* _emit_progress r "submitted" kind job JNull 0 in
  if negb (ro_wait o) then ret (Some (JObj (job_result job JNull)))
  else
    let* found := _wait_for_job r job kind start (ro_timeout_seconds o) (ro_poll_seconds o) (ro_progress_interval o) in
    ret (JObj <$> found).

(** [run_repository_function] *)
Definition client_run_repository_function (r : Reporter Outside) (name : string)
    (payload input : option (list (string * Json))) (project_id : option string) (version : option Z) (o : RunOptions)
    : Client (option Json) :=
  do* raise_if (opt_truthy payload && opt_truthy input) (ValueError "pass either payload or input, not both") in
  let request_input := match input with Some i => Some i | None => payload end in
  let* response := _repository_request "POST" ("/repository/functions/" +:+ quote name +:+ "/run")
    (Some (JObj [("input", JObj (default [] request_input)); ("project_id", JOptStr project_id);
                 ("version", JOptInt version)])) in
  let* job := lift_result (py_item response "job") in
  let* kind := lift_result (let? v := py_item response "version" in let? k := py_item v "kind" in Ok (py_str k)) in
  let* start := clock_reading in
  do* _emit_progress r "submitted" kind job JNull 0 in
  if negb (ro_wait o) then
    let* merged := lift_result (py_merge response [("run", JNull)]) in ret (Some merged)
  else
    let* found := _wait_for_job r job kind start (ro_timeout_seconds o) (ro_poll_seconds o) (ro_progress_interval o) in
    match found with
    | None => ret None
    | Some run_result => let* merged := lift_result (py_merge response run_result) in ret (Some merged)
    end.
Definition run_directory_function := client_run_repository_function.

(** ** Declaring functions and services *)

Definition JStrs (l : list string) : Json := JList (JStr <$> l).
Definition or_named (o : option string) (otherwise : string) : string :=
  match o with Some s => if truthy s then s else otherwise | None => otherwise end.
(** [source or _function_source(function)] *)
Definition source_of (source : option string) (function : option PyFunction) : result string :=
  if truthy_opt source then Ok (default EmptyString source) else _function_source function.

Definition declare (function : PyFunction) (kind : string) (display_name project_id image : option string)
    (timeout_seconds : option Z) (max_retries : Z) (source : option string) (metadata : list (string * Json)) : Client Json :=
  let* text := lift_result (source_of source (Some function)) in
  _request "POST" "/notebooks/goblins"
    (Some (JObj [("kind", JStr kind); ("display_name", JStr (or_named display_name kind));
                 ("project_id", JOptStr project_id); ("image", JOptStr image); ("source", JStr text);
                 ("function_name", JStr (fn_name function)); ("timeout_seconds", JOptInt timeout_seconds);
                 ("max_retries", JInt max_retries); ("metadata", JObj metadata)])) None.
Definition declare_service (source kind app_name : string) (requirements : list string)
    (display_name project_id image : option string) (port : Z) (probe_path : string) (metadata : list (string * Json))
    : Client Json :=
  _request "POST" "/notebooks/services"
    (Some (JObj [("kind", JStr kind); ("display_name", JStr (or_named display_name kind));
                 ("project_id", JOptStr project_id); ("image", JOptStr image); ("source", JStr source);
                 ("app_name", JStr app_name); ("requirements", JStrs requirements); ("port", JInt port);
                 ("probe_path", JStr probe_path); ("metadata", JObj metadata)])) None.
Definition client_validate (kind : string) (payload : list (string * Json)) (require_success : bool) (timeout_seconds : option Z)
    : Client Json :=
  _request "POST" ("/notebooks/goblins/" +:+ quote kind +:+ "/validate")
    (Some (JObj [("input", JObj payload); ("require_success", JBool require_success);
                 ("timeout_seconds", JOptInt timeout_seconds)])) None.
Definition service_action (kind action : string) (timeout_seconds : Z) : Client Json :=
  _request "POST" ("/notebooks/services/" +:+ quote kind +:+ "/" +:+ action)
    (Some (JObj [("timeout_seconds", JInt timeout_seconds)])) None.
Definition client_validate_service (kind : string) (timeout_seconds : Z) : Client Json :=
  service_action kind "validate" timeout_seconds.
Definition client_start_service (kind : string) (timeout_seconds : Z) : Client Json :=
  service_action kind "start" timeout_seconds.
Definition client_stop_service (kind : string) : Client Json :=
  _request "POST" ("/notebooks/services/" +:+ quote kind +:+ "/stop") None None.

(** ** The directory *)

(** The client's view of a submitted entry *)
Record RepositoryEntryHandle := mkHandle {
  h_entry : Json; h_version : Json; h_notebook : Json; h_versions : Json; h_latest_response : Json }.
Definition handle_of (response : Json) : result RepositoryEntryHandle :=
  let? entry := py_item response "entry" in
  let? version := py_item response "version" in
  let? notebook := py_get response "notebook" JNull in
  Ok (mkHandle entry version notebook JNull response).

Definition submit_repository_function (function : option PyFunction) (name : string)
    (source function_name display_name description : option string) (tags : list string)
    (project_id image : option string) (timeout_seconds : option Z) (max_retries : Z) (metadata : list (string * Json))
    : Client RepositoryEntryHandle :=
  do* raise_if (bool_decide (fn_name <$> function = None) && bool_decide (source = None))
        (ValueError "function or source is required") in
  let resolved := or_named function_name (match function with Some f => fn_name f | None => "run" end) in
  let* text := lift_result (source_of source function) in
  let* response := _repository_request "POST" "/repository/entries"
    (Some (JObj [("name", JStr name); ("type", JStr "notebook_function"); ("source", JStr text);
                 ("function_name", JStr resolved); ("display_name", JStr (or_named display_name name));
                 ("description", JOptStr description); ("tags", JStrs tags); ("project_id", JOptStr project_id);
                 ("image", JOptStr image); ("timeout_seconds", JOptInt timeout_seconds);
                 ("max_retries", JInt max_retries); ("metadata", JObj metadata)])) in
  lift_result (handle_of response).
Definition submit_directory_function := submit_repository_function.
Definition submit_repository_service (source name app_name : string) (requirements : list string)
    (display_name description : option string) (tags : list string) (project_id image : option string) (port : Z)
    (probe_path : string) (metadata : list (string * Json)) : Client RepositoryEntryHandle :=
  let* response := _repository_request "POST" "/repository/entries"
    (Some (JObj [("name", JStr name); ("type", JStr "notebook_service"); ("source", JStr source);
                 ("app_name", JStr app_name); ("requirements", JStrs requirements);
                 ("display_name", JStr (or_named display_name name)); ("description", JOptStr description);
                 ("tags", JStrs tags); ("project_id", JOptStr project_id); ("image", JOptStr image);
                 ("port", JInt port); ("probe_path", JStr probe_path); ("metadata", JObj metadata)])) in
  lift_result (handle_of response).
Definition submit_directory_service := submit_repository_service.

Definition client_get_repository_entry (entry_id : string) : Client Json :=
  _repository_request "GET" ("/repository/entries/" +:+ quote entry_id) None.
Definition get_directory_entry := client_get_repository_entry.

Record EntryFilters := mkFilters {
  ef_project_id : option string; ef_type : option string; ef_status : option string; ef_limit : Z; ef_offset : Z }.
Definition default_filters : EntryFilters := mkFilters None None (Some "published") 100 0.
Definition entry_query (f : EntryFilters) (q : option string) : list (string * string) :=
  [("limit", pretty (ef_limit f)); ("offset", pretty (ef_offset f))]
  ++ (match ef_project_id f with Some p => [("project_id", p)] | None => [] end)
  ++ (match ef_type f with Some t => [("type", t)] | None => [] end)
  ++ (match ef_status f with Some s => [("status", s)] | None => [] end)
  ++ (match q with Some s => if truthy s then [("q", s)] else [] | None => [] end).
Definition client_list_repository_entries (f : EntryFilters) (q : option string) : Client Json :=
  _repository_request "GET" ("/repository/entries?" +:+ urlencode (entry_query f q)) None.
Definition list_directory_entries := client_list_repository_entries.
Definition search_repository_entries (q : string) (f : EntryFilters) : Client Json :=
  client_list_repository_entries f (Some q).
Definition search_directory_entries (q : string) (f : EntryFilters) : Client Json :=
  list_directory_entries f (Some q).

(** [validate_repository_entry]: a failure is reported and raised again *)
Definition client_validate_repository_entry (r : Reporter Outside) (entry_id : string) (payload : list (string * Json))
    (require_success : bool) (timeout_seconds version : option Z) : Client Json :=
  let* started_at := clock_reading in
  let context := JObj [("entry", JObj [("id", JStr entry_id)]); ("version", JObj [("version", JOptInt version)])] in
  do* _emit_repository_progress r "validating" context 0 in
  let* response := try_catch
    (_repository_request "POST" (_repository_entry_path entry_id "validate" version)
       (Some (JObj [("input", JObj payload); ("require_success", JBool require_success);
                    ("timeout_seconds", JOptInt timeout_seconds)])))
    (λ e, let* now := clock_reading in
          do* _emit_repository_progress r "failed" context (now - started_at) in
          raise e) in
  let* now := clock_reading in
  do* _emit_repository_progress r "validated" response (now - started_at) in
  ret response.
Definition validate_directory_entry := client_validate_repository_entry.
Definition note_of (note : option string) : list (string * Json) := [("note", JOptStr note)].
Definition client_request_review (r : Reporter Outside) (entry_id : string) (note : option string) (version : option Z) :=
  _repository_transition entry_id "request-review" (note_of note) version "review_requested" r.
Definition request_directory_review := client_request_review.
Definition client_approve_repository_entry (r : Reporter Outside) (entry_id : string) (note : option string) (version : option Z) :=
  _repository_transition entry_id "approve" (note_of note) version "approved" r.
Definition approve_directory_entry := client_approve_repository_entry.
Definition client_reject_repository_entry (r : Reporter Outside) (entry_id : string) (note : option string) (version : option Z) :=
  _repository_transition entry_id "reject" (note_of note) version "rejected" r.
Definition reject_directory_entry := client_reject_repository_entry.
Definition client_retire_repository_entry (r : Reporter Outside) (entry_id : string) (note : option string) :=
  _repository_transition entry_id "retire" (note_of note) None "retired" r.
Definition retire_directory_entry := client_retire_repository_entry.
Definition client_publish_repository_entry (r : Reporter Outside) (entry_id : string) (version : option Z) : Client Json :=
  let* started_at := clock_reading in
  let* response := _repository_request "POST" ("/repository/entries/" +:+ quote entry_id +:+ "/publish")
    (Some (JObj [("version", JOptInt version)])) in
  let* now := clock_reading in
  do* _emit_repository_progress r "published" response (now - started_at) in
  ret response.
Definition publish_directory_entry := client_publish_repository_entry.

(** One turn of the wait: the entry, and whether it has the status *)
Definition status_turn (r : Reporter Outside) (entry_id status : string) (started_at poll_seconds : Z) (_ : Json)
    : Client (Json + Json) :=
  let* latest := client_get_repository_entry entry_id in
  let* entry_status := lift_result (let? entry := py_get latest "entry" (JObj []) in py_get entry "status" JNull) in
  let* now := clock_reading in
  let reached := py_eq entry_status (JStr status) in
  do* _emit_repository_progress r (if reached then "completed" else "waiting") latest (now - started_at) in
  if reached then ret (inl latest)
  else do* zoom dk_process_lens (sleep poll_seconds) in ret (inr latest).
Definition wait_for_repository_status (r : Reporter Outside) (entry_id status : string) (timeout_seconds poll_seconds : Z)
    : Client (option Json) :=
  let* started_at := clock_reading in
  let* out := poll dk_process_lens fuel (started_at + 1000000 * timeout_seconds)
                (status_turn r entry_id status started_at poll_seconds)
                (JObj [("entry", JObj [("id", JStr entry_id)])]) in
  match out with
  | Some (inl latest) => ret (Some latest)
  | Some (inr latest) =>
      let* now := clock_reading in
      do* _emit_repository_progress r "timed_out" latest (now - started_at) in
      raise (OtherException "TimeoutError"
               ("timed out waiting for repository entry " +:+ entry_id +:+ " to be " +:+ status))
  | None => ret None
  end.
Definition wait_for_directory_status := wait_for_repository_status.

(** *** Services of the directory, by name *)

Definition scope (project_id : option string) (version : option Z) : list (string * Json) :=
  [("project_id", JOptStr project_id); ("version", JOptInt version)].
Definition client_start_repository_service (name : string) (project_id : option string) (version : option Z)
    (timeout_seconds : Z) : Client Json :=
  _repository_request "POST" ("/repository/services/" +:+ quote name +:+ "/start")
    (Some (JObj (scope project_id version ++ [("timeout_seconds", JInt timeout_seconds)]))).
Definition client_probe_repository_service (name : string) (project_id : option string) (version : option Z) : Client Json :=
  _repository_request "POST" ("/repository/services/" +:+ quote name +:+ "/probe") (Some (JObj (scope project_id version))).
Definition client_stop_repository_service (name : string) (project_id : option string) (version : option Z) : Client Json :=
  _repository_request "POST" ("/repository/services/" +:+ quote name +:+ "/stop") (Some (JObj (scope project_id version))).
Definition clean_path (path : string) : string :=
  quote_safe ["/"%char] (if starts_with "/" path then path else "/" +:+ path).
Definition client_proxy_repository_service (name path : string) (project_id : option string) (version : option Z) : Client Json :=
  let query := (match project_id with Some p => [("project_id", p)] | None => [] end)
               ++ (match version with Some v => [("version", pretty v)] | None => [] end) in
  _repository_request "GET" ("/repository/services/" +:+ quote name +:+ "/proxy" +:+ clean_path path
    +:+ match query with [] => EmptyString | _ => "?" +:+ urlencode query end) None.

(** ** Handles

    A handle is the state its methods replace; the desk is beside it. *)

Record Held (H : Type) := mkHeld { held : H; at_desk : Desk Outside }.
Arguments mkHeld {H}.
Arguments held {H}.
Arguments at_desk {H}.
Definition held_lens {H} : lens (Held H) H := Lens held (λ h s, mkHeld h (at_desk s)).
Definition desk_lens {H} : lens (Held H) (Desk Outside) := Lens at_desk (λ d s, mkHeld (held s) d).
Definition at_client {H A} (m : Client A) : M (Held H) A := zoom desk_lens m.

(** *** A declared function: its record does not change *)

Definition function_kind (record : Json) : result string := let? k := py_item record "kind" in Ok (py_str k).
Definition function_validate (record : Json) (payload : list (string * Json)) (require_success : bool)
    (timeout_seconds : option Z) : Client Json :=
  let* kind := lift_result (function_kind record) in client_validate kind payload require_success timeout_seconds.
Definition function_run (r : Reporter Outside) (record : Json) (payload : list (string * Json)) (o : RunOptions)
    : Client (option Json) :=
  let* kind := lift_result (function_kind record) in run r kind payload o.

(** *** A declared service: its record is what the server answered last *)

Definition service_id (record : Json) : result (option string) :=
  let? v := py_get record "active_service_id" JNull in Ok (if py_truthy v then Some (py_str v) else None).
Definition _require_service_id (record : Json) : result string :=
  let? found := service_id record in
  match found with
  | Some i => if truthy i then Ok i else Err (RuntimeError "service is not running; call start() first")
  | None => Err (RuntimeError "service is not running; call start() first")
  end.
Definition replace_record (response : Json) (key : string) : M (Held Json) unit :=
  let* record := lift_result (py_item response key) in zoom held_lens (modify (λ _, record)).
Definition service_validate (timeout_seconds : Z) : M (Held Json) Json :=
  let* kind := (let* record := gets held in lift_result (function_kind record)) in
  let* response := at_client (client_validate_service kind timeout_seconds) in
  do* replace_record response "service" in
  ret response.
Definition service_start (r : Reporter Outside) (timeout_seconds : Z) : M (Held Json) Json :=
  let* started_at := at_client clock_reading in
  let* kind := (let* record := gets held in lift_result (function_kind record)) in
  let* record := gets held in
  do* at_client (_emit_service_progress r "starting" kind record 0) in
  let* response := try_catch (at_client (client_start_service kind timeout_seconds))
    (λ e, let* now := at_client clock_reading in
          do* at_client (_emit_service_progress r "failed" kind record (now - started_at)) in
          raise e) in
  do* replace_record response "notebook_service" in
  let* record := gets held in
  let* kind := lift_result (function_kind record) in
  let* now := at_client clock_reading in
  do* at_client (_emit_service_progress r "running" kind record (now - started_at)) in
  ret response.
Definition service_probe (record : Json) : Client Json :=
  let* i := lift_result (_require_service_id record) in
  _request "POST" ("/services/long-running/" +:+ i +:+ "/probe") None None.
Definition service_proxy (record : Json) (path : string) : Client Json :=
  let* i := lift_result (_require_service_id record) in
  _request "GET" ("/services/long-running/" +:+ i +:+ "/proxy" +:+ clean_path path) None None.
Definition service_stop : M (Held Json) Json :=
  let* kind := (let* record := gets held in lift_result (function_kind record)) in
  let* response := at_client (client_stop_service kind) in
  do* replace_record response "notebook_service" in
  ret response.

(** *** A service of the directory, by name *)

Record RepositoryASGIService := mkService {
  sv_name : string; sv_project_id : option string; sv_version : option Z; sv_record : option Json }.
Definition repository_service (name : string) (project_id : option string) (version : option Z) : RepositoryASGIService :=
  mkService name project_id version None.
Definition directory_service := repository_service.
(** [self.record or {}] *)
Definition sv_shown (s : RepositoryASGIService) : Json := or_json (default JNull (sv_record s)) (JObj []).
Definition replace_service_record (response : Json) : M (Held RepositoryASGIService) unit :=
  let* record := lift_result (py_item response "notebook_service") in
  zoom held_lens (modify (λ s, mkService (sv_name s) (sv_project_id s) (sv_version s) (Some record))).
Definition directory_service_start (r : Reporter Outside) (timeout_seconds : Z) : M (Held RepositoryASGIService) Json :=
  let* started_at := at_client clock_reading in
  let* s := gets held in
  do* at_client (_emit_service_progress r "starting" (sv_name s) (sv_shown s) 0) in
  let* response := try_catch
    (at_client (client_start_repository_service (sv_name s) (sv_project_id s) (sv_version s) timeout_seconds))
    (λ e, let* now := at_client clock_reading in
          do* at_client (_emit_service_progress r "failed" (sv_name s) (sv_shown s) (now - started_at)) in
          raise e) in
  do* replace_service_record response in
  let* s := gets held in
  let* now := at_client clock_reading in
  do* at_client (_emit_service_progress r "running" (sv_name s) (default JNull (sv_record s)) (now - started_at)) in
  ret response.
Definition directory_service_probe : M (Held RepositoryASGIService) Json :=
  let* s := gets held in
  let* response := at_client (client_probe_repository_service (sv_name s) (sv_project_id s) (sv_version s)) in
  do* replace_service_record response in
  ret response.
Definition directory_service_proxy (path : string) : M (Held RepositoryASGIService) Json :=
  let* s := gets held in
  at_client (client_proxy_repository_service (sv_name s) path (sv_project_id s) (sv_version s)).
Definition directory_service_stop : M (Held RepositoryASGIService) Json :=
  let* s := gets held in
  let* response := at_client (client_stop_repository_service (sv_name s) (sv_project_id s) (sv_version s)) in
  do* replace_service_record response in
  ret response.

(** *** An entry of the directory *)

Definition handle_text (j : Json) (key : string) : result string := let? v := py_item j key in Ok (py_str v).
Definition entry_id (h : RepositoryEntryHandle) : result string := handle_text (h_entry h) "id".
Definition entry_name (h : RepositoryEntryHandle) : result string := handle_text (h_entry h) "name".
Definition entry_type (h : RepositoryEntryHandle) : result string := handle_text (h_entry h) "type".
Definition entry_project_id (h : RepositoryEntryHandle) : result (option string) :=
  let? v := py_get (h_entry h) "project_id" JNull in
  Ok (match v with JNull => None | v => Some (py_str v) end).
Definition version_number (h : RepositoryEntryHandle) : result Z :=
  let? v := py_item (h_version h) "version" in py_int v.
Definition entry_kind (h : RepositoryEntryHandle) : result string := handle_text (h_version h) "kind".

(** The versions whose number is the handle's *)
Fixpoint matching_versions (h : RepositoryEntryHandle) (items : list Json) : result (list Json) :=
  match items with
  | [] => Ok []
  | x :: rest =>
      let? v := py_get x "version" (JInt (-1)) in
      let? n := py_int v in
      let? number := version_number h in
      let? found := matching_versions h rest in
      Ok (if n =? number then x :: found else found)
  end.
(** [if key in response: self.field = response[key]] *)
Definition take_key {A} (response : Json) (key : string) (use : Json → M RepositoryEntryHandle A) (otherwise : A)
    : M RepositoryEntryHandle A :=
  let* there := lift_result (py_in key response) in
  if there then let* v := lift_result (py_item response key) in use v else ret otherwise.
Definition _replace_from_response (response : Json) : M RepositoryEntryHandle unit :=
  do* modify (λ h, mkHandle (h_entry h) (h_version h) (h_notebook h) (h_versions h) response) in
  do* take_key response "entry"
    (λ v, modify (λ h, mkHandle v (h_version h) (h_notebook h) (h_versions h) (h_latest_response h))) tt in
  do* take_key response "notebook"
    (λ v, modify (λ h, mkHandle (h_entry h) (h_version h) v (h_versions h) (h_latest_response h))) tt in
  do* take_key response "version"
    (λ v, modify (λ h, mkHandle (h_entry h) v (h_notebook h) (h_versions h) (h_latest_response h))) tt in
  take_key response "versions"
    (λ v, do* modify (λ h, mkHandle (h_entry h) (h_version h) (h_notebook h) v (h_latest_response h)) in
          let* h := get_state in
          let* matching := lift_result (let? items := py_iter v in matching_versions h items) in
          match matching with
          | [] => ret tt
          | x :: _ => modify (λ h, mkHandle (h_entry h) x (h_notebook h) (h_versions h) (h_latest_response h))
          end) tt.

Notation AtHandle A := (M (Held RepositoryEntryHandle) A).
Definition asked {A} (f : RepositoryEntryHandle → result A) : AtHandle A :=
  let* h := gets held in lift_result (f h).
(** The answer of a call becomes the handle's *)
Definition adopting (call : string → Z → Client Json) : AtHandle Json :=
  let* i := asked entry_id in
  let* n := asked version_number in
  let* response := at_client (call i n) in
  do* zoom held_lens (_replace_from_response response) in
  ret response.
Definition handle_refresh : AtHandle Json :=
  let* i := asked entry_id in
  let* response := at_client (client_get_repository_entry i) in
  do* zoom held_lens (_replace_from_response response) in
  ret response.
Definition handle_validate (r : Reporter Outside) (payload : list (string * Json)) (require_success : bool)
    (timeout_seconds : option Z) : AtHandle Json :=
  adopting (λ i n, client_validate_repository_entry r i payload require_success timeout_seconds (Some n)).
Definition handle_request_review (r : Reporter Outside) (note : option string) : AtHandle Json :=
  adopting (λ i n, client_request_review r i note (Some n)).
Definition handle_approve (r : Reporter Outside) (note : option string) : AtHandle Json :=
  adopting (λ i n, client_approve_repository_entry r i note (Some n)).
Definition handle_publish (r : Reporter Outside) : AtHandle Json :=
  adopting (λ i n, client_publish_repository_entry r i (Some n)).
Definition handle_reject (r : Reporter Outside) (note : option string) : AtHandle Json :=
  adopting (λ i n, client_reject_repository_entry r i note (Some n)).
Definition handle_wait_for_status (r : Reporter Outside) (status : string) (timeout_seconds poll_seconds : Z)
    : AtHandle (option Json) :=
  let* i := asked entry_id in
  let* found := at_client (wait_for_repository_status r i status timeout_seconds poll_seconds) in
  match found with
  | None => ret None
  | Some response => do* zoom held_lens (_replace_from_response response) in ret (Some response)
  end.
Definition handle_run (r : Reporter Outside) (payload : list (string * Json)) (o : RunOptions) : AtHandle (option Json) :=
  let* type := asked entry_type in
  do* raise_if (negb (String.eqb type "notebook_function")) (RuntimeError "repository entry is not a function goblin") in
  let* name := asked entry_name in
  let* project_id := asked entry_project_id in
  let* n := asked version_number in
  at_client (client_run_repository_function r name (Some payload) None project_id (Some n) o).
Definition handle_service : AtHandle RepositoryASGIService :=
  let* type := asked entry_type in
  do* raise_if (negb (String.eqb type "notebook_service")) (RuntimeError "repository entry is not an ASGI service goblin") in
  let* name := asked entry_name in
  let* project_id := asked entry_project_id in
  let* n := asked version_number in
  ret (repository_service name project_id (Some n)).
End client.
Arguments mkHeld {Outside H}.
Arguments held {Outside H}.
Arguments at_desk {Outside H}.

(** ** What the client sends *)

Section sending.
Context {Outside : Type} `{Env} `{NotebookHost Outside} (fuel : nat) (client : GoblinKingNotebookClient).
Notation Client A := (M (Desk Outside) A).

(** Nothing is sent that is not [P] *)
Definition sends : (Request → Prop) → Desk Outside → Desk Outside → Prop := appends dk_sent.
#[export] Instance sends_preorder P : PreOrder (sends P).
Proof. apply appends_preorder. Qed.
Lemma sends_nothing P d d' : dk_sent d' = dk_sent d → sends P d d'.
Proof. apply appends_nothing. Qed.
#[export] Instance sends_process {A} P (m : M Process A) : Within (sends P) (zoom (dk_process_lens (Outside := Outside)) m).
Proof. intros d. rewrite zoom_eq. by apply sends_nothing. Qed.
#[export] Instance sends_outside {A} P (m : M Outside A) : Within (sends P) (zoom dk_outside_lens m).
Proof. intros d. rewrite zoom_eq. by apply sends_nothing. Qed.
#[export] Instance sends_print P line : Within (sends P) (print (Outside := Outside) line).
Proof. intros d. by apply sends_nothing. Qed.
#[export] Instance sends_clock P : Within (sends P) (clock_reading (Outside := Outside)).
Proof. unfold clock_reading. apply _. Qed.
#[export] Instance sends_report P (r : Reporter Outside) u line : Within (sends P) (report r u line).
Proof. unfold report. solve_within. Qed.
#[export] Instance sends_progress P (r : Reporter Outside) phase kind job run e :
  Within (sends P) (_emit_progress r phase kind job run e).
Proof. unfold _emit_progress. apply _. Qed.
#[export] Instance sends_service_progress P (r : Reporter Outside) phase kind s e :
  Within (sends P) (_emit_service_progress r phase kind s e).
Proof. unfold _emit_service_progress. apply _. Qed.
#[export] Instance sends_repository_progress P (r : Reporter Outside) phase detail e :
  Within (sends P) (_emit_repository_progress r phase detail e).
Proof. unfold _emit_repository_progress. apply _. Qed.
Lemma sends_send P q : P q → Within (sends P) (send (Outside := Outside) q).
Proof. intros Hq d. by apply (appends_one _ _ _ _ q). Qed.
Lemma sends_request P method path payload base :
  P (build_request client method path payload base) → Within (sends P) (_request client method path payload base : Client Json).
Proof. intros HP. unfold _request. cbv zeta. apply within_bind; [apply _|by apply sends_send|]. solve_within. Qed.
#[export] Instance sends_poll {A B} P n deadline (turn : B → Client (A + B)) b :
  (∀ b, Within (sends P) (turn b)) → Within (sends P) (poll dk_process_lens n deadline turn b).
Proof. intros Ht. revert b. induction n as [|n IH]; intros b; simpl; solve_within. Qed.

(** *** The token goes where it was meant to go *)

(** A request to the API's or the repository's origin, with the token *)
Definition at_home (q : Request) : Prop :=
  ∃ base, base ∈ [cl_api_url client; repository_base client]
  ∧ ("Authorization", "Bearer " +:+ cl_token client) ∈ rq_headers q
  ∧ ∀ netloc, url_netloc (urlsplit base) = Some netloc →
      url_scheme (urlsplit (rq_url q)) = url_scheme (urlsplit base) ∧ url_netloc (urlsplit (rq_url q)) = Some netloc.
Lemma request_home method path payload base :
  base = None ∨ base = Some (repository_base client) → starts_with "/" path = true →
  at_home (build_request client method path payload base).
Proof.
  intros Hb Hp. exists (or_url client base). split; [|split].
  - destruct Hb as [->| ->]; simpl; [by left|]. destruct (truthy (repository_base client)); [by right; left|by left].
  - simpl. right. by left.
  - intros netloc Hn. by apply urlsplit_more.
Qed.
#[export] Instance home_request method path payload :
  TCEq (starts_with "/" path) true → Within (sends at_home) (_request client method path payload None : Client Json).
Proof. intros Hp. apply sends_request, request_home; [by left|by rewrite Hp]. Qed.
#[export] Instance home_repository_request method path payload :
  TCEq (starts_with "/" path) true → Within (sends at_home) (_repository_request client method path payload : Client Json).
Proof. intros Hp. apply sends_request, request_home; [by right|by rewrite Hp]. Qed.

(** *** Everything a workbook can do *)

Definition void {S A} (m : M S A) : M S unit := do* m in ret tt.
(** A method of a handle, whatever record the handle has *)
Definition with_handle {K A} (h : K) (m : M (Held (Outside := Outside) K) A) : Client unit :=
  λ d, let '(s, r) := m (mkHeld h d) in (at_desk s, match r with Ok _ => Ok tt | Err e => Err e end).
Inductive HandleMethod :=
| Refresh
| HandleValidate (payload : list (string * Json)) (require_success : bool) (timeout_seconds : option Z)
| HandleRequestReview (note : option string)
| HandleApprove (note : option string)
| HandlePublish
| HandleReject (note : option string)
| HandleWait (status : string) (timeout_seconds poll_seconds : Z)
| HandleRun (payload : list (string * Json)) (o : RunOptions).
Definition handle_method (r : Reporter Outside) (m : HandleMethod) : M (Held RepositoryEntryHandle) unit :=
  match m with
  | Refresh => void (handle_refresh client)
  | HandleValidate p s t => void (handle_validate client r p s t)
  | HandleRequestReview n => void (handle_request_review client r n)
  | HandleApprove n => void (handle_approve client r n)
  | HandlePublish => void (handle_publish client r)
  | HandleReject n => void (handle_reject client r n)
  | HandleWait s t p => void (handle_wait_for_status fuel client r s t p)
  | HandleRun p o => void (handle_run fuel client r p o)
  end.
Inductive ServiceMethod := ServiceStart (timeout_seconds : Z) | ServiceProbe | ServiceProxy (path : string) | ServiceStop.
Definition directory_service_method (r : Reporter Outside) (m : ServiceMethod) : M (Held RepositoryASGIService) unit :=
  match m with
  | ServiceStart t => void (directory_service_start client r t)
  | ServiceProbe => void (directory_service_probe client)
  | ServiceProxy path => void (directory_service_proxy client path)
  | ServiceStop => void (directory_service_stop client)
  end.
Inductive Call :=
| Run (kind : string) (payload : list (string * Json)) (o : RunOptions)
| RunFunction (name : string) (payload input : option (list (string * Json))) (project_id : option string)
    (version : option Z) (o : RunOptions)
| DeclareFunction (f : PyFunction) (kind : string) (display project image : option string) (timeout : option Z) (retries : Z)
    (source : option string) (metadata : list (string * Json))
| DeclareService (source kind app : string) (requirements : list string) (display project image : option string) (port : Z)
    (probe_path : string) (metadata : list (string * Json))
| Validate (kind : string) (payload : list (string * Json)) (require_success : bool) (timeout : option Z)
| ServiceAction (kind action : string) (timeout : Z)
| StopService (kind : string)
| SubmitFunction (f : option PyFunction) (name : string) (source function_name display description : option string)
    (tags : list string) (project image : option string) (timeout : option Z) (retries : Z) (metadata : list (string * Json))
| SubmitService (source name app : string) (requirements : list string) (display description : option string)
    (tags : list string) (project image : option string) (port : Z) (probe_path : string) (metadata : list (string * Json))
| ListEntries (f : EntryFilters) (q : option string)
| ValidateEntry (entry_id : string) (payload : list (string * Json)) (require_success : bool) (timeout version : option Z)
| RetireEntry (entry_id : string) (note : option string)
| OnHandle (h : RepositoryEntryHandle) (m : HandleMethod)
| OnDirectoryService (s : RepositoryASGIService) (m : ServiceMethod)
| OnService (record : Json) (m : ServiceMethod)
| OnServiceValidate (record : Json) (timeout : Z).
Definition perform (r : Reporter Outside) (c : Call) : Client unit :=
  match c with
  | Run k p o => void (run fuel client r k p o)
  | RunFunction n p i q v o => void (client_run_repository_function fuel client r n p i q v o)
  | DeclareFunction f k d p i t n s m => void (declare client f k d p i t n s m)
  | DeclareService s k a q d p i t b m => void (declare_service client s k a q d p i t b m)
  | Validate k p s t => void (client_validate client k p s t)
  | ServiceAction k a t => void (service_action client k a t)
  | StopService k => void (client_stop_service client k)
  | SubmitFunction f n s g d c t p i x y m => void (submit_repository_function client f n s g d c t p i x y m)
  | SubmitService s n a q d c t p i x y m => void (submit_repository_service client s n a q d c t p i x y m)
  | ListEntries f q => void (client_list_repository_entries client f q)
  | ValidateEntry i p s t v => void (client_validate_repository_entry client r i p s t v)
  | RetireEntry i n => void (client_retire_repository_entry client r i n)
  | OnHandle h m => with_handle h (handle_method r m)
  | OnDirectoryService s m => with_handle s (directory_service_method r m)
  | OnService record m =>
      match m with
      | ServiceStart t => with_handle record (service_start client r t)
      | ServiceProbe => void (service_probe client record)
      | ServiceProxy path => void (service_proxy client record path)
      | ServiceStop => with_handle record (service_stop client)
      end
  | OnServiceValidate record t => with_handle record (service_validate client t)
  end.
(** A workbook: call after call, whatever fails *)
Definition workbook (r : Reporter Outside) (calls : list Call) (d : Desk Outside) : Desk Outside :=
  foldl (λ d c, (perform r c d).1) d calls.

#[export] Instance home_transition entry_id action payload version phase (r : Reporter Outside) :
  Within (sends at_home) (_repository_transition client entry_id action payload version phase r).
Proof. unfold _repository_transition, _repository_entry_path. solve_within. Qed.
#[export] Instance home_run_for_job job_id kind : Within (sends at_home) (_run_for_job client job_id kind : Client Json).
Proof. unfold _run_for_job. solve_within. Qed.
#[export] Instance home_job_turn (r : Reporter Outside) job kind a b c n :
  Within (sends at_home) (job_turn client r job kind a b c n).
Proof. unfold job_turn. solve_within. Qed.
#[export] Instance home_wait_for_job (r : Reporter Outside) job kind a b c n :
  Within (sends at_home) (_wait_for_job fuel client r job kind a b c n).
Proof. unfold _wait_for_job. solve_within. Qed.
#[export] Instance home_status_turn (r : Reporter Outside) i s a b x :
  Within (sends at_home) (status_turn client r i s a b x).
Proof. unfold status_turn, client_get_repository_entry. solve_within. Qed.
#[export] Instance home_wait_for_status (r : Reporter Outside) i s a b :
  Within (sends at_home) (wait_for_repository_status fuel client r i s a b).
Proof. unfold wait_for_repository_status. solve_within. Qed.
#[export] Instance home_run (r : Reporter Outside) kind payload o : Within (sends at_home) (run fuel client r kind payload o).
Proof. unfold run. solve_within. Qed.
#[export] Instance home_run_function (r : Reporter Outside) n p i q v o :
  Within (sends at_home) (client_run_repository_function fuel client r n p i q v o).
Proof. unfold client_run_repository_function. solve_within. Qed.
#[export] Instance home_validate_entry (r : Reporter Outside) i p s t v :
  Within (sends at_home) (client_validate_repository_entry client r i p s t v).
Proof. unfold client_validate_repository_entry, _repository_entry_path. solve_within. Qed.

Definition desk_sends {K} (s s' : Held (Outside := Outside) K) : Prop := sends at_home (at_desk s) (at_desk s').
#[export] Instance desk_sends_preorder {K} : PreOrder (desk_sends (K := K)).
Proof. unfold desk_sends. split; [intros s; reflexivity|intros s1 s2 s3 H1 H2; by etransitivity]. Qed.
#[export] Instance desk_sends_client {K A} (m : Client A) : Within (sends at_home) m → Within (desk_sends (K := K)) (at_client m).
Proof. intros Hm s. unfold at_client. rewrite zoom_eq. apply Hm. Qed.
#[export] Instance desk_sends_held {K A} (m : M K A) : Within (desk_sends (K := K)) (zoom held_lens m).
Proof. intros s. rewrite zoom_eq. apply sends_nothing. done. Qed.
#[export] Instance desk_sends_record response key : Within desk_sends (replace_record (Outside := Outside) response key).
Proof. unfold replace_record. solve_within. Qed.
#[export] Instance desk_sends_service response : Within desk_sends (replace_service_record (Outside := Outside) response).
Proof. unfold replace_service_record. solve_within. Qed.
#[export] Instance desk_sends_asked {A} (f : RepositoryEntryHandle → result A) : Within desk_sends (asked (Outside := Outside) f).
Proof. unfold asked. solve_within. Qed.
#[export] Instance desk_sends_adopting (call : string → Z → Client Json) :
  (∀ i n, Within (sends at_home) (call i n)) → Within desk_sends (adopting call).
Proof. intros Hc. unfold adopting. solve_within. Qed.
Lemma home_handle {K A} (h : K) (m : M (Held K) A) : Within desk_sends m → Within (sends at_home) (with_handle h m).
Proof. intros Hm d. unfold with_handle. specialize (Hm (mkHeld h d)). by destruct (m (mkHeld h d)) as [s []]. Qed.
#[export] Instance within_void {S A} (R : S → S → Prop) `{!PreOrder R} (m : M S A) : Within R m → Within R (void m).
Proof. intros Hm. unfold void. solve_within. Qed.
Lemma home_handle_method (r : Reporter Outside) m : Within desk_sends (handle_method r m).
Proof.
  destruct m; simpl; unfold handle_refresh, client_get_repository_entry, handle_validate, handle_request_review,
    client_request_review, handle_approve, client_approve_repository_entry, handle_publish,
    client_publish_repository_entry, handle_reject, client_reject_repository_entry, handle_wait_for_status, handle_run;
    solve_within.
Qed.
Lemma home_directory_service (r : Reporter Outside) m : Within desk_sends (directory_service_method r m).
Proof.
  destruct m; simpl; unfold directory_service_start, client_start_repository_service, directory_service_probe,
    client_probe_repository_service, directory_service_proxy, client_proxy_repository_service, directory_service_stop,
    client_stop_repository_service; cbv zeta; solve_within.
Qed.
Lemma home_perform (r : Reporter Outside) c : Within (sends at_home) (perform r c).
Proof.
  destruct c as [| | | | | | | | | | | |h m|h m|record m|record t]; simpl;
    try (apply home_handle, home_handle_method || apply home_handle, home_directory_service);
    try (unfold declare, declare_service, client_validate, service_action, client_stop_service, submit_repository_function,
      submit_repository_service, client_list_repository_entries, client_retire_repository_entry; solve_within; fail).
  - destruct m; [apply home_handle| | |apply home_handle];
      unfold service_start, client_start_service, service_action, service_probe, service_proxy, service_stop, client_stop_service;
      solve_within.
  - apply home_handle. unfold service_validate, client_validate_service, service_action. solve_within.
Qed.

(** The token goes nowhere else.  Whatever a workbook calls, with whatever names, paths and
    payloads, whatever the servers answered before and whatever failed, every request that
    is sent carries the token and goes to the scheme and the host of the configured API or
    of the configured repository: no name and no identifier from an answer leads it to
    another host. *)
Theorem token_stays_home (r : Reporter Outside) (calls : list Call) (d : Desk Outside) :
  dk_sent d = [] → Forall at_home (dk_sent (workbook r calls d)).
Proof.
  intros Hd. assert (sends at_home d (workbook r calls d)) as (new & -> & Hnew); [|by rewrite Hd].
  unfold workbook. clear Hd. revert d. induction calls as [|c calls IH]; intros d; simpl; [reflexivity|].
  etransitivity; [apply (home_perform r c d)|apply IH].
Qed.
End sending.

(** ** Running a function to its end *)

(** Sleeping takes its time, and the clock does not go back. *)
Class Sleeps {Outside} `{Env} `{NotebookHost Outside} : Prop := {
  sl_forward : ∀ i j, (i ≤ j)%nat → monotonic_clock i ≤ monotonic_clock j;
  sl_sleep : ∀ t p p' i, sleep t p = (p', Ok tt) → (i < mono_reads p)%nat →
    monotonic_clock i + t ≤ monotonic_clock (mono_reads p')
}.

Section running.
Context {Outside : Type} `{Env} `{NotebookHost Outside} `{!Sleeps} (fuel : nat) (client : GoblinKingNotebookClient).
Notation Client A := (M (Desk Outside) A).
Notation clock := (dk_process_lens (Outside := Outside)).

Definition clock_grows (d d' : Desk Outside) : Prop := (readings clock d ≤ readings clock d')%nat.
#[export] Instance clock_grows_preorder : PreOrder clock_grows.
Proof. unfold clock_grows. split; [intros d|intros d1 d2 d3]; lia. Qed.
Lemma same_process d d' : dk_process d' = dk_process d → clock_grows d d'.
Proof. unfold clock_grows, readings. simpl. intros ->. lia. Qed.
#[export] Instance grows_clock : Within clock_grows (clock_reading (Outside := Outside)).
Proof. intros d. unfold clock_grows, readings, clock_reading. rewrite zoom_eq. simpl. lia. Qed.
#[export] Instance grows_outside {A} (m : M Outside A) : Within clock_grows (zoom dk_outside_lens m).
Proof. intros d. rewrite zoom_eq. by apply same_process. Qed.
#[export] Instance grows_print line : Within clock_grows (print (Outside := Outside) line).
Proof. intros d. by apply same_process. Qed.
#[export] Instance grows_send q : Within clock_grows (send (Outside := Outside) q).
Proof. intros d. by apply same_process. Qed.
#[export] Instance grows_report (r : Reporter Outside) u line : Within clock_grows (report r u line).
Proof. unfold report. solve_within. Qed.
#[export] Instance grows_request method path payload base :
  Within clock_grows (_request client method path payload base : Client Json).
Proof. unfold _request. cbv zeta. solve_within. Qed.

(** A turn that goes on has slept *)
Definition naps {A B} (interval : Z) (m : Client (A + B)) : Prop :=
  ∀ d d' b i, m d = (d', Ok (inr b)) → (i < readings clock d)%nat →
    monotonic_clock i + interval ≤ monotonic_clock (readings clock d').
Lemma naps_bind {A B T} interval (m : Client T) (k : T → Client (A + B)) :
  Within clock_grows m → (∀ x, naps interval (k x)) → naps interval (bind m k).
Proof.
  intros Hm Hk d d' b i (d1 & x & Hx & Hb)%bind_ok Hi. apply (Hk x _ _ _ _ Hb).
  specialize (Hm d). rewrite Hx in Hm. unfold clock_grows in Hm. simpl in Hm. lia.
Qed.
Lemma naps_done {A B} interval (a : A) : naps (B := B) interval (ret (inl a)).
Proof. by intros d d' b i. Qed.
Lemma naps_sleep {A B} interval (b : B) : naps (A := A) interval (do* zoom dk_process_lens (sleep interval) in ret (inr b)).
Proof.
  intros d d' b' i (d1 & [] & Hs & [= <- _])%bind_ok Hi. rewrite zoom_eq in Hs. injection Hs as <- Hs.
  destruct (sleep interval (dk_process d)) as [p o] eqn:Hp. simpl in *. subst o.
  unfold readings. simpl. rewrite ?Hp. simpl. by apply (sl_sleep interval (dk_process d)).
Qed.
Ltac solve_naps := repeat (intros; first
  [ apply naps_done | apply naps_sleep | apply naps_bind; [solve_within|]
  | match goal with |- naps _ (if ?x then _ else _) => destruct x end | progress cbv zeta ]).

Lemma job_turn_naps (r : Reporter Outside) job kind a b p n : naps p (job_turn client r job kind a b p n).
Proof. unfold job_turn, _run_for_job, _emit_progress. solve_naps. Qed.
Lemma status_turn_naps (r : Reporter Outside) i s a p x : naps p (status_turn client r i s a p x).
Proof. unfold status_turn, client_get_repository_entry, _repository_request, _emit_repository_progress. solve_naps. Qed.

Lemma clock_reading_eq d : ∃ d', clock_reading d = (d', Ok (monotonic_clock (readings clock d)))
  ∧ readings clock d' = S (readings clock d) ∧ dk_sent d' = dk_sent d.
Proof. eexists. unfold clock_reading. rewrite zoom_eq. by split_and!. Qed.

(** The loop ends before its fuel, started from a reading that has been made. *)
Lemma waited {A B} (turn : B → Client (A + B)) poll_seconds timeout i b d :
  0 < poll_seconds → (∀ b, naps poll_seconds (turn b)) → (poll_fuel poll_seconds timeout ≤ fuel)%nat →
  (i < readings clock d)%nat → (poll clock fuel (monotonic_clock i + timeout) turn b d).2 ≠ Ok None.
Proof.
  intros Hp Ht Hf Hi. apply (poll_with_fuel clock poll_seconds); [done| |done|apply sl_forward; lia].
  intros b0 s s' b' j. apply Ht.
Qed.

(** What the server answered to a request *)
Definition answered (q : Request) (j : Json) : Prop :=
  ∃ o o' body raw, urlopen q o = (o', Ok (Replied body)) ∧ utf8_decode body = Some raw
    ∧ if truthy raw then nb_json_loads raw = Ok j else j = JObj [].
Lemma request_answered method path payload base d d' j :
  _request client method path payload base d = (d', Ok j) → answered (build_request client method path payload base) j.
Proof.
  unfold _request. cbv zeta. intros (d1 & [] & _ & (d2 & a & Ha & Hr)%bind_ok)%bind_ok.
  rewrite zoom_eq in Ha. cbn [view dk_outside_lens] in Ha.
  destruct (urlopen _ (dk_outside d1)) as [o' o] eqn:Hu. cbn [fst snd] in Ha. injection Ha as <- ->.
  destruct a as [body|code body]; [|done]. destruct (utf8_decode body) as [raw|] eqn:Hd; [|done].
  exists (dk_outside d1), o', body, raw. split_and!; [done|done|].
  destruct (truthy raw); by injection Hr.
Qed.
Lemma poll_done {A B} n deadline (turn : B → Client (A + B)) b d d' a :
  poll clock n deadline turn b d = (d', Ok (Some (inl a))) → ∃ b0 d0, turn b0 d0 = (d', Ok (inl a)).
Proof.
  revert b d. induction n as [|n IH]; intros b d; [done|]. cbn [poll]. intros (d1 & now & _ & Hb)%bind_ok.
  destruct (now <? deadline); [|done]. apply bind_ok in Hb as (d2 & [a'|b'] & Ht & Hr); [|by apply IH in Hr].
  injection Hr as -> ->. by exists b, d1.
Qed.

(** The run that is shown with a job is one of that job, or there is none. *)
Definition belongs (run job_id : Json) : Prop :=
  run = JNull ∨ ∃ owner, py_get run "job_id" JNull = Ok owner ∧ py_eq owner job_id = true.
Lemma run_of_job_belongs job_id items x : run_of_job job_id items = Ok x → belongs x job_id.
Proof.
  induction items as [|y items IH]; simpl; [intros [= <-]; by left|].
  destruct (py_get y "job_id" JNull) as [owner|] eqn:Ho; simpl; [|done].
  destruct (py_eq owner job_id) eqn:He; [|done]. intros [= <-]. right. by exists owner.
Qed.
Lemma run_for_job_belongs job_id kind d d' x : _run_for_job client job_id kind d = (d', Ok x) → belongs x job_id.
Proof.
  intros (d1 & runs & _ & Hr)%bind_ok. unfold lift_result in Hr. injection Hr as _ Hr.
  destruct (py_get runs "items" _) as [items|]; [simpl in Hr|done]. destruct (py_iter items) as [l|]; [simpl in Hr|done].
  by apply run_of_job_belongs in Hr.
Qed.

(** A job that has ended, as the API answered it last, with its run *)
Definition ended (job_id : Json) (found : list (string * Json)) : Prop :=
  ∃ job run status, found = [("job", job); ("run", run)]
    ∧ answered (build_request client "GET" ("/jobs/" +:+ py_str job_id) None None) job
    ∧ py_get job "status" (JStr EmptyString) = Ok status ∧ py_str status ∈ TERMINAL_JOB_STATUSES
    ∧ belongs run job_id.
Lemma job_turn_ended (r : Reporter Outside) job kind a b p n d d' found :
  job_turn client r job kind a b p n d = (d', Ok (inl found)) →
  ∃ job_id, py_item job "id" = Ok job_id ∧ ended job_id found.
Proof.
  unfold job_turn. rewrite bind_lift. destruct (py_item job "id") as [job_id|]; [|done].
  intros (d1 & latest & Hl & (d2 & run & Hr & (d3 & now & _ & Hs)%bind_ok)%bind_ok)%bind_ok.
  exists job_id. split; [done|]. rewrite bind_lift in Hs.
  destruct (py_get latest "status" _) as [status|] eqn:Hst; [|done]. case_bool_decide as Hterm.
  - apply bind_ok in Hs as (d4 & [] & _ & [= _ <-]). exists latest, run, status.
    split_and!; [done|by apply request_answered in Hl|done|done|by apply run_for_job_belongs in Hr].
  - apply bind_ok in Hs as (d4 & next & _ & Hs). by apply bind_ok in Hs as (d5 & [] & _ & Hs).
Qed.

Lemma wait_for_job_ended (r : Reporter Outside) job kind a t p n d d' found :
  _wait_for_job fuel client r job kind a t p n d = (d', Ok (Some found)) →
  ∃ job_id, py_item job "id" = Ok job_id ∧ ended job_id found.
Proof.
  unfold _wait_for_job. intros (d1 & [[x|y]|] & Hp & Hr)%bind_ok; [| |done].
  - injection Hr as _ ->. apply poll_done in Hp as (b0 & d0 & Ht). by apply job_turn_ended in Ht.
  - by apply bind_ok in Hr as (d2 & job_id & _ & ?).
Qed.
Lemma wait_for_job_settles (r : Reporter Outside) job kind t p n i d :
  0 < p → (poll_fuel p (1000000 * t) ≤ fuel)%nat → (i < readings clock d)%nat →
  (_wait_for_job fuel client r job kind (monotonic_clock i) t p n d).2 ≠ Ok None.
Proof.
  intros Hp Hf Hi. unfold _wait_for_job, bind at 1.
  pose proof (waited (job_turn client r job kind (monotonic_clock i) n p) p (1000000 * t) i (monotonic_clock i + n) d
                Hp (λ b, job_turn_naps _ _ _ _ _ _ b) Hf Hi) as Hw.
  destruct (poll _ _ _ _ _ _) as [d' [[[x|y]|]|e]]; simpl in *; [done| |done|done].
  unfold bind, lift_result. by destruct (py_item job "id").
Qed.

Definition is_get (q : Request) : Prop := rq_method q = "GET".
Lemma wait_for_job_reads (r : Reporter Outside) job kind a t p n :
  Within (sends is_get) (_wait_for_job fuel client r job kind a t p n).
Proof.
  assert (∀ path, Within (sends is_get) (_request client "GET" path None None : Client Json)) as Hg
    by (intros path; by apply sends_request).
  assert (∀ b, Within (sends is_get) (job_turn client r job kind a n p b)) as Ht.
  { intros b. unfold job_turn, _run_for_job. solve_within. }
  unfold _wait_for_job. solve_within.
Qed.
Lemma request_sent method path payload base d :
  dk_sent (_request client method path payload base d).1 = dk_sent d ++ [build_request client method path payload base].
Proof.
  unfold _request, send. cbv zeta. unfold bind at 1, modify. unfold bind. rewrite zoom_eq. simpl.
  destruct (urlopen _ _) as [o' [[body|code body]|e]]; simpl; [|done..].
  destruct (utf8_decode body); [|done]. by destruct (truthy _).
Qed.

Definition submission (kind : string) (payload : list (string * Json)) : Request :=
  build_request client "POST" "/jobs" (Some (JObj [("kind", JStr kind); ("input", JObj payload)])) None.
(** What [run] does once the job is there *)
Definition followed (r : Reporter Outside) (kind : string) (o : RunOptions) (job : Json) : Client (option Json) :=
  let* start := clock_reading in
  do* _emit_progress r "submitted" kind job JNull 0 in
  if negb (ro_wait o) then ret (Some (JObj (job_result job JNull)))
  else
    let* found := _wait_for_job fuel client r job kind start (ro_timeout_seconds o) (ro_poll_seconds o) (ro_progress_interval o) in
    ret (JObj <$> found).
Lemma followed_settles r kind o job d :
  0 < ro_poll_seconds o → (poll_fuel (ro_poll_seconds o) (1000000 * ro_timeout_seconds o) ≤ fuel)%nat →
  (followed r kind o job d).2 ≠ Ok None.
Proof.
  intros Hp Hf. unfold followed. destruct (clock_reading_eq d) as (d1 & Hd1 & Hr & _).
  rewrite (bind_step _ _ _ _ _ Hd1). unfold bind at 1.
  pose proof (grows_report r (job_update "submitted" kind job JNull 0)
    (λ u, "[" +:+ tenths_text (up_elapsed u) +:+ "s] " +:+ kind +:+ " job=" +:+ py_str (field_of u "job_status")
          +:+ " run=" +:+ py_str (or_json (field_of u "run_status") (JStr "none"))) d1) as Hg.
  unfold _emit_progress. destruct (report r _ _ d1) as [d2 [[]|e]]; [|done]. simpl in Hg. unfold clock_grows in Hg.
  destruct (ro_wait o); [simpl|done].
  pose proof (wait_for_job_settles r job kind (ro_timeout_seconds o) (ro_poll_seconds o) (ro_progress_interval o)
    (readings clock d) d2 Hp Hf ltac:(lia)) as Hw.
  unfold bind. by destruct (_wait_for_job _ _ _ _ _ _ _ _ _ _) as [d3 [[found|]|e]].
Qed.

(** C37: a run is submitted once, and waiting for it ends.  If sleeping takes its time, a run that
    is waited for needs no more turns than its timeout holds poll intervals, whatever the
    server answers: it ends with a result or an exception.  Whatever happens, exactly one
    job is submitted and everything sent after it only reads.  A result is the submitted
    job in a final state, as the API answered it last, with a run of that very job or
    none; without waiting it is what the submission was answered, without a run. *)
Theorem client_run_settles (r : Reporter Outside) (kind : string) (payload : list (string * Json)) (o : RunOptions)
    (d : Desk Outside) :
  0 < ro_poll_seconds o → (poll_fuel (ro_poll_seconds o) (1000000 * ro_timeout_seconds o) ≤ fuel)%nat →
  (run fuel client r kind payload o d).2 ≠ Ok None
  ∧ (∃ reads, dk_sent (run fuel client r kind payload o d).1 = dk_sent d ++ submission kind payload :: reads ∧ Forall is_get reads)
  ∧ ∀ v, (run fuel client r kind payload o d).2 = Ok (Some v) →
      ∃ submitted, answered (submission kind payload) submitted
      ∧ if ro_wait o then ∃ job_id found, v = JObj found ∧ py_item submitted "id" = Ok job_id ∧ ended job_id found
        else v = JObj [("job", submitted); ("run", JNull)].
Proof.
  intros Hp Hf. change (run fuel client r kind payload o) with (bind (_request client "POST" "/jobs"
    (Some (JObj [("kind", JStr kind); ("input", JObj payload)])) None) (followed r kind o)).
  pose proof (request_sent "POST" "/jobs" (Some (JObj [("kind", JStr kind); ("input", JObj payload)])) None d) as Hsent.
  pose proof (request_answered "POST" "/jobs" (Some (JObj [("kind", JStr kind); ("input", JObj payload)])) None d) as Hans.
  unfold bind at 1 2 3. destruct (_request _ _ _ _ _ d) as [d1 [job|e]]; simpl in Hsent |- *.
  2:{ split; [done|]. split; [|done]. exists []. by split; [|constructor]. }
  specialize (Hans _ _ eq_refl). split; [by apply followed_settles|]. split.
  - assert (Within (sends is_get) (followed r kind o job)) as Hw.
    { unfold followed. pose proof (wait_for_job_reads r). solve_within. }
    destruct (Hw d1) as (reads & -> & Hreads). exists reads. by rewrite Hsent, <- app_assoc.
  - intros v Hv. exists job. split; [done|]. destruct (followed r kind o job d1) as [d' res] eqn:Hfol. simpl in Hv. subst res.
    unfold followed in Hfol. apply bind_ok in Hfol as (d2 & start & _ & (d3 & [] & _ & Hrun)%bind_ok).
    destruct (ro_wait o); simpl in Hrun; [|by injection Hrun as _ <-].
    apply bind_ok in Hrun as (d4 & [found|] & Hwait & [= _ Hv]). subst v.
    destruct (wait_for_job_ended _ _ _ _ _ _ _ _ _ _ Hwait) as (job_id & Hid & Hend). by exists job_id, found.
Qed.
End running.

(** ** Where the directory's requests arrive *)

(** How an HTTP server reads a request's target: the decoded path and the query's pairs *)
Definition target (path : string) : string * list (string * string) :=
  let '(p, q) := partition_at "?" (chars path) in (unquote (text p), parse_qsl (text (default [] q))).
Lemma target_plain path : lacks "?" (chars path) → target path = (unquote path, []).
Proof.
  intros Hp. unfold target. destruct (partition_at "?" (chars path)) as [p [q|]] eqn:Hq.
  - apply partition_at_some in Hq as [Hq _]. exfalso. unfold lacks in Hp. rewrite Hq in Hp.
    apply Forall_app in Hp as [_ Hp]. by inversion Hp.
  - apply partition_at_none in Hq as [-> _]. by rewrite text_chars.
Qed.
Lemma target_query path pairs :
  lacks "?" (chars path) → Forall (λ kv, valid_text kv.1 ∧ valid_text kv.2) pairs →
  target (path +:+ "?" +:+ urlencode pairs) = (unquote path, pairs).
Proof.
  intros Hp Hv. unfold target.
  assert (partition_at "?" (chars (path +:+ "?" +:+ urlencode pairs)) = (chars path, Some (chars (urlencode pairs)))) as ->.
  { apply partition_at_some. by rewrite chars_app. }
  simpl. by rewrite !text_chars, parse_urlencode.
Qed.

Ltac plain_text := first [by repeat constructor | vm_compute; reflexivity].

Lemma app_empty s : s +:+ EmptyString = s.
Proof. apply chars_inj. by rewrite chars_app, app_nil_r. Qed.

Section reaching.
Context {Outside : Type} `{Env} `{NotebookHost Outside} (fuel : nat) (client : GoblinKingNotebookClient).
Notation Client A := (M (Desk Outside) A).

(** A request for this route of the repository, with these query parameters *)
Definition reaches (method path : string) (query : list (string * string)) (q : Request) : Prop :=
  rq_method q = method ∧ ∃ p, rq_url q = repository_base client +:+ p ∧ target p = (path, query).
Lemma or_repository : or_url client (Some (repository_base client)) = repository_base client.
Proof.
  unfold or_url. destruct (truthy (repository_base client)) eqn:Ht; [done|]. revert Ht. unfold repository_base.
  destruct (cl_repository_url client) as [u|]; [|done]. destruct (truthy u) eqn:E; [congruence|done].
Qed.
Lemma reaches_request method p payload path query :
  target p = (path, query) →
  Within (sends (reaches method path query)) (_repository_request client method p payload : Client Json).
Proof.
  intros Ht. apply sends_request. split; [done|]. exists p. split; [|done].
  unfold build_request. cbn [rq_url]. by rewrite or_repository.
Qed.

(** One quoted name between two plain ends *)
Lemma named_target before name after :
  lacks "%" (chars before) → lacks "%" (chars after) → lacks "?" (chars before) → lacks "?" (chars after) →
  valid_text before → valid_text name → valid_text after →
  lacks "?" (chars (before +:+ quote name +:+ after)) ∧ unquote (before +:+ quote name +:+ after) = before +:+ name +:+ after.
Proof.
  intros. rewrite quote_is_safe. split; [|apply unquote_quote; try done; set_solver].
  rewrite !chars_app. unfold lacks. apply Forall_app_2; [done|]. apply Forall_app_2; [|done].
  apply quoted_lacks; [done..|set_solver].
Qed.

(** Every request a call sends reaches one route, with its parameters. *)
Definition delivers {A} (method path : string) (query : list (string * string)) (m : Client A) : Prop :=
  Within (sends (reaches method path query)) m.
Definition version_query (version : option Z) : list (string * string) :=
  match version with Some v => [("version", pretty v)] | None => [] end.
Definition plain (s : string) : Prop := lacks "%" (chars s) ∧ lacks "?" (chars s) ∧ valid_text s.
Lemma named_request method before name after payload :
  plain before → plain after → valid_text name →
  delivers method (before +:+ name +:+ after) []
    (_repository_request client method (before +:+ quote name +:+ after) payload : Client Json).
Proof.
  intros (? & ? & ?) (? & ? & ?) Hn. apply reaches_request.
  destruct (named_target before name after) as [Hl Hu]; [done..|]. by rewrite target_plain, Hu.
Qed.
Lemma entry_action_request entry_id action version payload :
  plain ("/" +:+ action) → valid_text entry_id →
  delivers "POST" ("/repository/entries/" +:+ entry_id +:+ "/" +:+ action) (version_query version)
    (_repository_request client "POST" (_repository_entry_path entry_id action version) payload : Client Json).
Proof.
  intros (? & ? & ?) Hi. apply reaches_request. unfold _repository_entry_path.
  destruct (named_target "/repository/entries/" entry_id ("/" +:+ action)) as [Hl Hu]; try done; try plain_text.
  destruct version as [v|].
  - replace ("/repository/entries/" +:+ quote entry_id +:+ "/" +:+ action +:+ "?" +:+ urlencode [("version", pretty v)])
      with (("/repository/entries/" +:+ quote entry_id +:+ "/" +:+ action) +:+ "?" +:+ urlencode [("version", pretty v)])
      by (apply chars_inj; rewrite !chars_app; by rewrite <- !app_assoc).
    rewrite target_query, Hu; [done|done|]. apply Forall_cons. split; [split; [plain_text|apply pretty_valid]|constructor].
  - replace ("/repository/entries/" +:+ quote entry_id +:+ "/" +:+ action +:+ EmptyString)
      with ("/repository/entries/" +:+ quote entry_id +:+ "/" +:+ action)
      by (apply chars_inj; rewrite !chars_app; by rewrite app_nil_r).
    by rewrite target_plain, Hu.
Qed.
Lemma transition_delivers (r : Reporter Outside) entry_id action payload version phase :
  plain ("/" +:+ action) → valid_text entry_id →
  delivers "POST" ("/repository/entries/" +:+ entry_id +:+ "/" +:+ action) (version_query version)
    (_repository_transition client entry_id action payload version phase r).
Proof.
  intros Ha Hi. pose proof (entry_action_request entry_id action version (Some (JObj payload)) Ha Hi) as Hr.
  unfold delivers, _repository_transition in *. solve_within.
Qed.

Definition valid_filters (f : EntryFilters) (q : option string) : Prop :=
  Forall valid_text (option_list (ef_project_id f) ++ option_list (ef_type f) ++ option_list (ef_status f) ++ option_list q).
Lemma entry_query_valid f q : valid_filters f q → Forall (λ kv, valid_text kv.1 ∧ valid_text kv.2) (entry_query f q).
Proof.
  unfold valid_filters, entry_query. rewrite !Forall_app. intros (Hp & Ht & Hs & Hq).
  assert (∀ k o, valid_text k → Forall valid_text (option_list o) →
    Forall (λ kv, valid_text kv.1 ∧ valid_text kv.2) (match o with Some x => [(k, x)] | None => [] end)) as Ho.
  { intros k [x|] Hk Hx; [|constructor]. apply Forall_cons in Hx as [Hx _]. by repeat constructor. }
  split_and!; try (apply Ho; [plain_text|done]).
  - repeat (apply Forall_cons; split; [split; [plain_text|apply pretty_valid]|]). constructor.
  - destruct q as [s|]; [|constructor]. destruct (truthy s); [|constructor].
    apply (Ho "q" (Some s)); [plain_text|done].
Qed.

(** A name reaches the server as it was given.  Whatever entry, name and filters a call is
    made with - slashes, blanks, percent signs and question marks included, as long as they
    are text - every request the call sends is for the one route the call is meant for: the
    server that decodes the target reads the very name in its place and the very
    parameters, and nothing of a name spills into the query or into another parameter. *)
Theorem directory_requests_reach (r : Reporter Outside) (entry_id name : string) (note : option string)
    (payload : list (string * Json)) (require_success : bool) (timeout version : option Z) (project_id : option string)
    (f : EntryFilters) (q : option string) (o : RunOptions) :
  valid_text entry_id → valid_text name → valid_filters f q →
  let entry := "/repository/entries/" +:+ entry_id in
  delivers "GET" entry [] (client_get_repository_entry client entry_id)
  ∧ delivers "GET" "/repository/entries" (entry_query f q) (client_list_repository_entries client f q)
  ∧ delivers "POST" (entry +:+ "/validate") (version_query version)
      (client_validate_repository_entry client r entry_id payload require_success timeout version)
  ∧ delivers "POST" (entry +:+ "/request-review") (version_query version) (client_request_review client r entry_id note version)
  ∧ delivers "POST" (entry +:+ "/approve") (version_query version) (client_approve_repository_entry client r entry_id note version)
  ∧ delivers "POST" (entry +:+ "/reject") (version_query version) (client_reject_repository_entry client r entry_id note version)
  ∧ delivers "POST" (entry +:+ "/publish") [] (client_publish_repository_entry client r entry_id version)
  ∧ delivers "POST" (entry +:+ "/retire") [] (client_retire_repository_entry client r entry_id note)
  ∧ (ro_wait o = false → delivers "POST" ("/repository/functions/" +:+ name +:+ "/run") []
       (client_run_repository_function fuel client r name (Some payload) None project_id version o))
  ∧ delivers "POST" ("/repository/services/" +:+ name +:+ "/start") [] (client_start_repository_service client name project_id version 120)
  ∧ delivers "POST" ("/repository/services/" +:+ name +:+ "/stop") [] (client_stop_repository_service client name project_id version).
Proof.
  intros Hi Hn Hf entry. subst entry.
  assert (∀ a b, ("/repository/entries/" +:+ a) +:+ b = "/repository/entries/" +:+ a +:+ b) as Happ
    by (intros a b; apply chars_inj; rewrite !chars_app; by rewrite <- !app_assoc).
  rewrite !Happ. split_and!; try (apply transition_delivers; [repeat split; plain_text|done]).
  - rewrite <- (app_empty (_ +:+ entry_id)), Happ. unfold client_get_repository_entry.
    rewrite <- (app_empty (_ +:+ quote entry_id)), Happ. apply named_request; [repeat split; plain_text..|done].
  - apply reaches_request.
    change ("/repository/entries?" +:+ urlencode (entry_query f q))
      with ("/repository/entries" +:+ "?" +:+ urlencode (entry_query f q)).
    rewrite target_query; [done|plain_text|by apply entry_query_valid].
  - pose proof (entry_action_request entry_id "validate" version (Some (JObj [("input", JObj payload);
      ("require_success", JBool require_success); ("timeout_seconds", JOptInt timeout)]))) as Hr.
    unfold delivers, client_validate_repository_entry in *. cbv zeta.
    assert (plain ("/" +:+ "validate")) as Hpl by (repeat split; plain_text). specialize (Hr Hpl Hi). solve_within.
  - pose proof (named_request "POST" "/repository/entries/" entry_id "/publish" (Some (JObj [("version", JOptInt version)]))) as Hr.
    unfold delivers, client_publish_repository_entry in *.
    assert (Within (sends (reaches "POST" ("/repository/entries/" +:+ entry_id +:+ "/publish") []))
      (_repository_request client "POST" ("/repository/entries/" +:+ quote entry_id +:+ "/publish")
        (Some (JObj [("version", JOptInt version)])) : Client Json)) by (apply Hr; [repeat split; plain_text..|done]).
    solve_within.
  - intros Ho. unfold client_run_repository_function. rewrite Ho. simpl negb. cbv iota.
    pose proof (named_request "POST" "/repository/functions/" name "/run"
      (Some (JObj [("input", JObj payload); ("project_id", JOptStr project_id); ("version", JOptInt version)]))) as Hr.
    assert (Within (sends (reaches "POST" ("/repository/functions/" +:+ name +:+ "/run") [])) (_repository_request client "POST"
      ("/repository/functions/" +:+ quote name +:+ "/run") (Some (JObj [("input", JObj (default [] (Some payload)));
        ("project_id", JOptStr project_id); ("version", JOptInt version)])) : Client Json))
      by (apply Hr; [repeat split; plain_text..|done]).
    unfold delivers. simpl default in *. solve_within.
  - apply named_request; [repeat split; plain_text..|done].
  - apply named_request; [repeat split; plain_text..|done].
Qed.
End reaching.

(** ** A client on a small server *)

Definition desk_env : Env := {|
  wall_clock := λ n, mkDatetime (Z.of_nat n) None; monotonic_clock := λ n, 1000000 * Z.of_nat n; uuid4 := λ n, pretty (Z.of_nat n);
  unicode_lower := λ s, s; unicode_isalnum := λ _, true |}.
Definition answer_job (status : string) : Json := JObj [("id", JStr "j1"); ("status", JStr status)].
(** A job that is done at the third look; entries that are not there *)
Definition small_server : NotebookHost nat := {|
  urlopen q n :=
    (S n, Ok (if in_text "/repository/" (rq_url q) then ErrorReplied 404 "no such entry"
              else if String.eqb (rq_method q) "POST" then Replied "queued"
              else if in_text "/runs" (rq_url q) then Replied "runs"
              else if Nat.ltb n 5 then Replied "running" else Replied "completed"));
  sleep t p := (mkProcess (clk_reads p) (clk_last p) (mono_reads p + Z.to_nat (t / 1000000 + 1)) (uuids p), Ok tt);
  getenv name := if String.eqb name "JUPYTERHUB_API_TOKEN" then Some "secret" else None;
  nb_json_loads s := Ok (if String.eqb s "runs"
    then JObj [("items", JList [JObj [("id", JStr "r0"); ("job_id", JStr "j0")]; JObj [("id", JStr "r1"); ("job_id", JStr "j1")]])]
    else answer_job s) |}.
Definition small_client : GoblinKingNotebookClient := mkClient "http://king:8000" None 120000000 "secret".
Definition fresh_desk : Desk nat := mkDesk init_process O [] [].
Definition printing : Reporter nat := mkReporter true None.

Example client_made :
  @new_client nat small_server (Some "http://king:8000/") None None 120000000 = Ok small_client
  ∧ @new_client nat small_server None (Some EmptyString) None 1 = Ok (mkClient "http://127.0.0.1:8000" None 1 "secret").
Proof. split; vm_compute; reflexivity. Qed.

(** One submission, a look at the job and at its runs per turn, and what is printed *)
Example client_runs :
  let '(d, out) := @run nat desk_env small_server 50 small_client printing "report" [] default_run_options fresh_desk in
  out = Ok (Some (JObj [("job", answer_job "completed"); ("run", JObj [("id", JStr "r1"); ("job_id", JStr "j1")])]))
  ∧ (λ q, (rq_method q, rq_url q)) <$> dk_sent d
    = [("POST", "http://king:8000/jobs");
       ("GET", "http://king:8000/jobs/j1"); ("GET", "http://king:8000/runs?kind=report&limit=100");
       ("GET", "http://king:8000/jobs/j1"); ("GET", "http://king:8000/runs?kind=report&limit=100");
       ("GET", "http://king:8000/jobs/j1"); ("GET", "http://king:8000/runs?kind=report&limit=100")]
  ∧ dk_printed d = ["[0.0s] report job=queued run=none"; "[6.0s] report job=running run=none"; "[10.0s] report job=completed run=none"].
Proof. vm_compute. by split_and!. Qed.

(** Out of time; and a missing entry is reported as if the routes were missing *)
Example client_failures :
  (@run nat desk_env small_server 50 small_client printing "report" [] (mkRunOptions true 3 1000000 5000000) fresh_desk).2
    = Err (OtherException "TimeoutError" "timed out waiting for notebook goblin job j1")
  ∧ (@client_get_repository_entry nat small_server small_client "entry 1" fresh_desk).2
    = Err (RuntimeError ("GET /repository/entries/entry%201 failed with 404: no such entry Repository routes are unavailable at "
        +:+ "http://king:8000. Enable repository.enabled=true on the API, or set GOBLIN_KING_REPOSITORY_URL to the optional repository service.")).
Proof. split; vm_compute; reflexivity. Qed.

Example dedented :
  dedent (py_join newline ["    def f():"; "  "; "      return 1"; EmptyString])
  = py_join newline ["def f():"; EmptyString; "  return 1"; EmptyString].
Proof. vm_compute. reflexivity. Qed.

(** A handle follows its own version through the versions an answer lists *)
Definition listed_version (n : Z) (status : string) : Json := JObj [("version", JInt n); ("status", JStr status)].
Example handle_follows :
  let h := mkHandle (JObj [("id", JStr "e1")]) (listed_version 2 "draft") JNull JNull JNull in
  let answer := JObj [("entry", JObj [("id", JStr "e1"); ("status", JStr "published")]);
                      ("versions", JList [listed_version 1 "retired"; listed_version 2 "published"])] in
  let '(h', out) := _replace_from_response answer h in
  out = Ok tt ∧ h_version h' = listed_version 2 "published" ∧ version_number h' = Ok 2.
Proof. vm_compute. by split_and!. Qed.

#[local] Instance small_sleeps : @Sleeps nat desk_env small_server.
Proof.
  split; [simpl; intros; lia|]. intros t p p' i [= <-] Hi. simpl in *.
  pose proof (Z.mul_succ_div_gt t 1000000). lia.
Qed.
Lemma client_run_settles_witness :
  let out := @run nat desk_env small_server 122 small_client printing "report" [] default_run_options fresh_desk in
  out.2 ≠ Ok None
  ∧ (∃ reads, dk_sent out.1 = submission small_client "report" [] :: reads ∧ Forall is_get reads)
  ∧ ∀ v, out.2 = Ok (Some v) → ∃ submitted, @answered nat small_server (submission small_client "report" []) submitted
      ∧ ∃ job_id found, v = JObj found ∧ py_item submitted "id" = Ok job_id ∧ @ended nat small_server small_client job_id found.
Proof.
  apply (client_run_settles 122 small_client printing "report" [] default_run_options fresh_desk); [done|vm_compute; constructor].
Defined.
Lemma token_stays_home_witness :
  Forall (at_home small_client)
    (dk_sent (@workbook nat desk_env small_server 5 small_client printing
       [Validate "a/../b?c" [] true None; ListEntries default_filters (Some "x&y"); RetireEntry "e#1" None] fresh_desk)).
Proof. apply token_stays_home. reflexivity. Defined.
Lemma directory_requests_reach_witness :
  delivers small_client "POST" "/repository/entries/a b/c?d%2F/approve" [("version", "2")]
    (@client_approve_repository_entry nat desk_env small_server small_client printing "a b/c?d%2F" None (Some 2)).
Proof.
  pose proof (@directory_requests_reach nat desk_env small_server 5 small_client printing "a b/c?d%2F" "n" None [] true None (Some 2) None
    default_filters None default_run_options) as H.
  assert (valid_text "a b/c?d%2F") as H1 by reflexivity. assert (valid_text "n") as H2 by reflexivity.
  assert (valid_filters default_filters None) as H3 by (repeat constructor). specialize (H H1 H2 H3).
  exact (proj1 (proj2 (proj2 (proj2 (proj2 H))))).
Defined.
