(* ===== verification/WebSockets.v ===== *)
(** * The websocket relay ([src/src/goblin_king/service_websocket_proxy.py])

    The address, headers, subprotocols and query a relay opens with, and the relay
    itself: three coroutines that read one peer each, or watch the clock, and interleave
    at their awaits.  What a coroutine does between two awaits is a function on the
    relay's state; the coroutines together are a step relation over them.

    Text frames are UTF-8 bytes, times are microseconds.  A frame that is being sent when
    its coroutine is cancelled counts as handed over, not as sent. *)

From Stdlib Require Import Ascii.
From S2P Require Import Prelude Contracts Text PyValues Containers Auth Urls.

(** ** Opening a relay *)

Definition _SENSITIVE_HEADERS : list string :=
  ["authorization"; "cookie"; "host"; "proxy-authorization"; "x-api-key"; "x-auth-token"].
Definition _HANDSHAKE_HEADERS : list string :=
  ["connection"; "keep-alive"; "proxy-authenticate"; "sec-websocket-accept"; "sec-websocket-extensions";
   "sec-websocket-key"; "sec-websocket-protocol"; "sec-websocket-version"; "te"; "trailer"; "transfer-encoding"; "upgrade"].
Definition subprotocol_char (c : ascii) : bool :=
  alphanumeric c || bool_decide (c ∈ chars "!#$%&'*+-.^_`|~").
(** [_SUBPROTOCOL.fullmatch] *)
Definition _SUBPROTOCOL (value : string) : bool := truthy value && forallb subprotocol_char (chars value).
Definition _VALID_CLOSE_CODES (code : Z) : bool :=
  ((1000 <=? code) && (code <? 1015) && negb (bool_decide (code ∈ [1004; 1005; 1006])))
  || ((3000 <=? code) && (code <? 5000)).

Record ServiceWebSocketProxyConfig := mkProxyConfig {
  px_max_message_bytes : Z; px_max_queue_messages : Z; px_write_limit_bytes : Z; px_open_timeout_seconds : Z;
  px_idle_timeout_seconds : Z; px_close_timeout_seconds : Z; px_drain_timeout_seconds : Z
}.
Record _RelayCounters := mkCounters { client_frames : Z; client_bytes : Z; upstream_frames : Z; upstream_bytes : Z }.
Record ServiceWebSocketProxyResult := mkProxyResult {
  wr_outcome : string; wr_close_code : Z; wr_reason : string; wr_traffic : _RelayCounters
}.
Record ServiceWebSocketProxyError := mkProxyError { pe_message : string; pe_close_code : Z; pe_reason : string }.

Definition websocket_scheme (scheme : string) : option string :=
  if bool_decide (scheme ∈ ["http"; "ws"]) then Some "ws" else if bool_decide (scheme ∈ ["https"; "wss"]) then Some "wss" else None.
Definition service_websocket_url (base_url path query : string) : result string :=
  let? parsed := urlsplit_checked base_url in
  match websocket_scheme (lower (url_scheme parsed)), url_hostname parsed with
  | Some scheme, Some _ =>
      if negb (bool_decide (url_username parsed = None)) || negb (bool_decide (url_password parsed = None))
      then Err (ValueError "managed service base_url must not contain credentials")
      else if truthy (url_query parsed) || truthy (url_fragment parsed)
      then Err (ValueError "managed service base_url must not contain a query or fragment")
      else
        let encoded_path := quote_safe ["/"%char] path in
        let base_path := rstrip_slash (url_path_only parsed) in
        let target_path := if truthy encoded_path then base_path +:+ "/" +:+ encoded_path
                           else if truthy base_path then base_path else "/" in
        Ok (urlunsplit_origin scheme (default EmptyString (url_netloc parsed)) target_path query)
  | _, _ => Err (ValueError "managed service base_url must use http, https, ws, or wss")
  end.

Definition proxy_request_headers (headers : list (string * string)) : list (string * string) :=
  filter (λ kv, lower kv.1 ∉ _SENSITIVE_HEADERS ++ _HANDSHAKE_HEADERS ++ ["origin"]) headers.
(** [headers.get]: the first header of that name; names are lower case. *)
Definition header (key : string) (headers : list (string * string)) : option string :=
  snd <$> head (filter (λ kv, kv.1 = key) headers).
(** [list(dict.fromkeys(values))] *)
Fixpoint first_of_each (seen values : list string) : list string :=
  match values with
  | [] => []
  | v :: values' => if bool_decide (v ∈ seen) then first_of_each seen values' else v :: first_of_each (v :: seen) values'
  end.
Definition requested_subprotocols (headers : list (string * string)) : list string + ServiceWebSocketProxyError :=
  let raw := default EmptyString (header "sec-websocket-protocol" headers) in
  let values := filter (λ v, truthy v = true) ((λ w, strip (text w)) <$> split_on "," (chars raw)) in
  if Nat.ltb 16 (length values) || existsb (λ v, negb (_SUBPROTOCOL v)) values
  then inr (mkProxyError "invalid WebSocket subprotocol request" 1008 "invalid subprotocol")
  else inl (first_of_each [] values).
Definition filtered_query_string (raw_query : string) (excluded : list string) : string :=
  let excluded_keys := lower <$> excluded in
  urlencode (filter (λ kv, lower kv.1 ∉ excluded_keys) (parse_qsl raw_query)).

(** ** Frames *)

Inductive Payload := PText (s : string) | PBytes (s : string).
Definition _payload_size (p : Payload) : Z := Z.of_nat (String.length match p with PText s | PBytes s => s end).
(** What [receive] returns: a disconnect, or a frame with text, bytes or neither. *)
Inductive ClientMessage :=
| Disconnect (code : option Z) (reason : option string)
| Frame (text bytes : option string).
Definition message_payload (text bytes : option string) : option Payload :=
  match text, bytes with Some s, _ => Some (PText s) | None, Some b => Some (PBytes b) | None, None => None end.
Definition _close_code (value : option Z) (default_ : Z) : Z :=
  match value with Some code => if _VALID_CLOSE_CODES code then code else default_ | None => default_ end.
Definition _close_reason (value : option string) : string := str_take 123 (default EmptyString value).
Definition _result (outcome : string) (close_code : Z) (reason : string) (c : _RelayCounters) : ServiceWebSocketProxyResult :=
  mkProxyResult outcome close_code reason c.

(** ** The relay *)

(** Where a coroutine is: it awaits its next message (or its timer), the end of a send or
    of a close, or it has returned, raised, or been cancelled.  A close that awaits the
    upstream's alone may raise. *)
Inductive Coroutine :=
| Waiting
| Sending (p : Payload)
| Closing (may_raise : bool) (r : ServiceWebSocketProxyResult)
| Returned (r : ServiceWebSocketProxyResult)
| Raised (e : exn)
| Cancelled.
Inductive Side := Downstream | Upstream.
Record Relay := mkRelay {
  rl_client : Coroutine;          (* _client_to_upstream *)
  rl_server : Coroutine;          (* _upstream_to_client *)
  rl_watchdog : Coroutine;        (* _idle_watchdog *)
  rl_counters : _RelayCounters;
  rl_activity : Z;
  rl_now : Z;                     (* loop.time() *)
  rl_recorded : list ServiceWebSocketProxyResult;   (* what on_result was called with *)
  rl_stopping : bool;             (* the waits are over: the pending coroutines are cancelled *)
  rl_from_client : list Payload; rl_to_server : list Payload;   (* frames read, frames handed to send *)
  rl_from_server : list Payload; rl_to_client : list Payload;
  rl_closes : list (Side * Z)     (* the close frames asked for *)
}.
Definition start_relay (now : Z) : Relay :=
  mkRelay Waiting Waiting Waiting (mkCounters 0 0 0 0) now now [] false [] [] [] [] [].

Definition set_client (c : Coroutine) (r : Relay) : Relay :=
  mkRelay c (rl_server r) (rl_watchdog r) (rl_counters r) (rl_activity r) (rl_now r) (rl_recorded r) (rl_stopping r)
    (rl_from_client r) (rl_to_server r) (rl_from_server r) (rl_to_client r) (rl_closes r).
Definition set_server (c : Coroutine) (r : Relay) : Relay :=
  mkRelay (rl_client r) c (rl_watchdog r) (rl_counters r) (rl_activity r) (rl_now r) (rl_recorded r) (rl_stopping r)
    (rl_from_client r) (rl_to_server r) (rl_from_server r) (rl_to_client r) (rl_closes r).
Definition set_watchdog (c : Coroutine) (r : Relay) : Relay :=
  mkRelay (rl_client r) (rl_server r) c (rl_counters r) (rl_activity r) (rl_now r) (rl_recorded r) (rl_stopping r)
    (rl_from_client r) (rl_to_server r) (rl_from_server r) (rl_to_client r) (rl_closes r).
Definition record_once (result : ServiceWebSocketProxyResult) (recorded : list ServiceWebSocketProxyResult)
    : list ServiceWebSocketProxyResult := match recorded with [] => [result] | _ => recorded end.
(** [finish] *)
Definition finish (result : ServiceWebSocketProxyResult) (r : Relay) : Relay :=
  mkRelay (rl_client r) (rl_server r) (rl_watchdog r) (rl_counters r) (rl_activity r) (rl_now r)
    (record_once result (rl_recorded r)) (rl_stopping r)
    (rl_from_client r) (rl_to_server r) (rl_from_server r) (rl_to_client r) (rl_closes r).
Definition close_frames (code : Z) (sides : list Side) : list (Side * Z) := (λ side, (side, code)) <$> sides.
Arguments close_frames : simpl never.
Definition ask_close (sides : list Side) (code : Z) (r : Relay) : Relay :=
  mkRelay (rl_client r) (rl_server r) (rl_watchdog r) (rl_counters r) (rl_activity r) (rl_now r) (rl_recorded r)
    (rl_stopping r) (rl_from_client r) (rl_to_server r) (rl_from_server r) (rl_to_client r)
    (rl_closes r ++ close_frames code sides).
Definition read_client (p : Payload) (r : Relay) : Relay :=
  mkRelay (rl_client r) (rl_server r) (rl_watchdog r) (rl_counters r) (rl_activity r) (rl_now r) (rl_recorded r)
    (rl_stopping r) (rl_from_client r ++ [p]) (rl_to_server r) (rl_from_server r) (rl_to_client r) (rl_closes r).
Definition hand_to_server (p : Payload) (r : Relay) : Relay :=
  mkRelay (Sending p) (rl_server r) (rl_watchdog r) (rl_counters r) (rl_activity r) (rl_now r) (rl_recorded r)
    (rl_stopping r) (rl_from_client r) (rl_to_server r ++ [p]) (rl_from_server r) (rl_to_client r) (rl_closes r).
(** A frame of the upstream is read and handed to the client. *)
Definition pass_to_client (p : Payload) (r : Relay) : Relay :=
  mkRelay (rl_client r) (Sending p) (rl_watchdog r) (rl_counters r) (rl_activity r) (rl_now r) (rl_recorded r)
    (rl_stopping r) (rl_from_client r) (rl_to_server r) (rl_from_server r ++ [p]) (rl_to_client r ++ [p]) (rl_closes r).
(** The counters and the time of activity after a send *)
Definition count (c : _RelayCounters) (r : Relay) : Relay :=
  mkRelay (rl_client r) (rl_server r) (rl_watchdog r) c (rl_now r) (rl_now r) (rl_recorded r) (rl_stopping r)
    (rl_from_client r) (rl_to_server r) (rl_from_server r) (rl_to_client r) (rl_closes r).
Definition tick (t : Z) (r : Relay) : Relay :=
  mkRelay (rl_client r) (rl_server r) (rl_watchdog r) (rl_counters r) (rl_activity r) (rl_now r + t) (rl_recorded r)
    (rl_stopping r) (rl_from_client r) (rl_to_server r) (rl_from_server r) (rl_to_client r) (rl_closes r).
Definition stop_waiting (r : Relay) : Relay :=
  mkRelay (rl_client r) (rl_server r) (rl_watchdog r) (rl_counters r) (rl_activity r) (rl_now r) (rl_recorded r)
    true (rl_from_client r) (rl_to_server r) (rl_from_server r) (rl_to_client r) (rl_closes r).

Section relay.
Context (config : ServiceWebSocketProxyConfig).

(** *** The coroutines between their awaits *)

(** [_client_to_upstream] after [receive] *)
Definition client_receives (m : ClientMessage) (r : Relay) : Relay :=
  match m with
  | Disconnect code reason =>
      let code := _close_code code 1000 in
      let result := _result "client_closed" code (_close_reason reason) (rl_counters r) in
      set_client (Closing true result) (ask_close [Upstream] code (finish result r))
  | Frame text bytes =>
      match message_payload text bytes with
      | None => r
      | Some payload =>
          if px_max_message_bytes config <? _payload_size payload then
            let reason := "message exceeds " +:+ pretty (px_max_message_bytes config) +:+ " bytes" in
            let result := _result "message_too_large" 1009 reason (rl_counters r) in
            set_client (Closing false result) (ask_close [Downstream; Upstream] 1009 (finish result (read_client payload r)))
          else hand_to_server payload (read_client payload r)
      end
  end.
(** ... and after [upstream.send] *)
Definition client_sent (p : Payload) (r : Relay) : Relay :=
  let c := rl_counters r in
  set_client Waiting (count (mkCounters (client_frames c + 1) (client_bytes c + _payload_size p)
                               (upstream_frames c) (upstream_bytes c)) r).
(** [_upstream_to_client] after a send to the client *)
Definition server_sent (p : Payload) (r : Relay) : Relay :=
  let c := rl_counters r in
  set_server Waiting (count (mkCounters (client_frames c) (client_bytes c)
                               (upstream_frames c + 1) (upstream_bytes c + _payload_size p)) r).
(** ... and when [recv] reports a closed connection, with the frame received or sent *)
Definition server_closed (code : option Z) (reason : option string) (r : Relay) : Relay :=
  let code := _close_code code 1011 in
  let result := _result "upstream_closed" code (_close_reason reason) (rl_counters r) in
  set_server (Closing false result) (ask_close [Downstream] code (finish result r)).
(** [_idle_watchdog] after its sleep *)
Definition watchdog_wakes (r : Relay) : Relay :=
  if rl_now r - rl_activity r <? px_idle_timeout_seconds config then r
  else
    let result := _result "idle_timeout" 1001 "managed service WebSocket idle timeout" (rl_counters r) in
    set_watchdog (Closing false result) (ask_close [Downstream; Upstream] 1001 (finish result r)).

Definition done (c : Coroutine) : bool := match c with Returned _ | Raised _ | Cancelled => true | _ => false end.
Definition raises (c : Coroutine) : bool := match c with Waiting | Sending _ | Closing true _ => true | _ => false end.

Inductive relay_step (r : Relay) : Relay → Prop :=
| client_message m : rl_stopping r = false → rl_client r = Waiting → relay_step r (client_receives m r)
| client_send p : rl_stopping r = false → rl_client r = Sending p → relay_step r (client_sent p r)
| client_raise e : rl_stopping r = false → raises (rl_client r) = true → relay_step r (set_client (Raised e) r)
| client_return b res : rl_stopping r = false → rl_client r = Closing b res → relay_step r (set_client (Returned res) r)
| server_frame p : rl_stopping r = false → rl_server r = Waiting → relay_step r (pass_to_client p r)
| server_send p : rl_stopping r = false → rl_server r = Sending p → relay_step r (server_sent p r)
| server_close code reason : rl_stopping r = false → rl_server r = Waiting → relay_step r (server_closed code reason r)
| server_raise e : rl_stopping r = false → raises (rl_server r) = true → relay_step r (set_server (Raised e) r)
| server_return b res : rl_stopping r = false → rl_server r = Closing b res → relay_step r (set_server (Returned res) r)
| watchdog_wake : rl_stopping r = false → rl_watchdog r = Waiting → relay_step r (watchdog_wakes r)
| watchdog_return b res : rl_stopping r = false → rl_watchdog r = Closing b res → relay_step r (set_watchdog (Returned res) r)
| clock t : 0 ≤ t → relay_step r (tick t r)
| waits_over : rl_stopping r = false → done (rl_client r) || done (rl_server r) || done (rl_watchdog r) = true →
    relay_step r (stop_waiting r)
| cancel_client : rl_stopping r = true → done (rl_client r) = false → relay_step r (set_client Cancelled r)
| cancel_server : rl_stopping r = true → done (rl_server r) = false → relay_step r (set_server Cancelled r)
| cancel_watchdog : rl_stopping r = true → done (rl_watchdog r) = false → relay_step r (set_watchdog Cancelled r).
Definition relayed (now : Z) (r : Relay) : Prop := rtc relay_step (start_relay now) r.

(** *** The result of the relay *)

Definition priority (r : ServiceWebSocketProxyResult) : Z :=
  match wr_outcome r with
  | "message_too_large" => 4 | "idle_timeout" => 3 | "upstream_closed" => 2 | "client_closed" => 1 | _ => 0 end.
(** [max(results, key=...)]: the first of the greatest *)
Definition best (r : ServiceWebSocketProxyResult) (rs : list ServiceWebSocketProxyResult) : ServiceWebSocketProxyResult :=
  foldl (λ best r, if priority best <? priority r then r else best) r rs.
Definition returned (c : Coroutine) : option ServiceWebSocketProxyResult := match c with Returned r => Some r | _ => None end.
Definition raised (c : Coroutine) : option exn := match c with Raised e => Some e | _ => None end.
Definition RelayEnded : exn := OtherException "ServiceWebSocketProxyError" "managed service WebSocket relay ended without a result".
(** What [_relay] makes of its finished coroutines, in the order of the set *)
Definition relay_outcome (finished : list Coroutine) : result ServiceWebSocketProxyResult :=
  match omap returned finished with
  | r :: rs => Ok (best r rs)
  | [] => match omap raised finished with e :: _ => Err e | [] => Err RelayEnded end
  end.
(** The relay is over: with its state, what [_relay] returns or raises. *)
Definition relay_over (now : Z) (r : Relay) (out : result ServiceWebSocketProxyResult) : Prop :=
  relayed now r ∧ rl_stopping r = true
  ∧ done (rl_client r) = true ∧ done (rl_server r) = true ∧ done (rl_watchdog r) = true
  ∧ ∃ finished, finished ≡ₚ [rl_client r; rl_server r; rl_watchdog r] ∧ out = relay_outcome finished.

(** [proxy_managed_service_websocket], whose connection to the upstream may fail: what it
    has recorded, and what it returns or raises. *)
Definition upstream_failed (e : exn) : ServiceWebSocketProxyError :=
  mkProxyError ("managed service WebSocket upstream failed: " +:+ exn_str e) 1013 "upstream unavailable".
Definition managed_outcome (out : result ServiceWebSocketProxyResult) : ServiceWebSocketProxyResult + ServiceWebSocketProxyError :=
  match out with
  | Ok res => inl res
  | Err (OtherException "ServiceWebSocketProxyError" message) => inr (mkProxyError message 1011 "relay failed")
  | Err e => inr (upstream_failed e)
  end.
Inductive proxied (headers : list (string * string)) (now : Z)
    : list ServiceWebSocketProxyResult → ServiceWebSocketProxyResult + ServiceWebSocketProxyError → Prop :=
| refused_subprotocols e : requested_subprotocols headers = inr e → proxied headers now [] (inr e)
| not_connected l e : requested_subprotocols headers = inl l → proxied headers now [] (inr (upstream_failed e))
| relay_ran l r out : requested_subprotocols headers = inl l → relay_over now r out →
    proxied headers now (rl_recorded r) (managed_outcome out).
End relay.

(** ** The invariant of the relay *)

Section invariant.
Context (config : ServiceWebSocketProxyConfig).

Definition total (l : list Payload) : Z := foldr (λ p n, _payload_size p + n) 0 l.
Lemma total_app l k : total (l ++ k) = total l + total k.
Proof. induction l as [|p l IH]; simpl; [lia|]. unfold total in *. lia. Qed.
(** What was handed over was sent and counted, except at most the last frame. *)
Definition accounted (frames bytes : Z) (handed : list Payload) (c : Coroutine) : Prop :=
  ∃ sent pending, handed = sent ++ pending ∧ frames = Z.of_nat (length sent) ∧ bytes = total sent
    ∧ (length pending ≤ 1)%nat
    ∧ match c with Sending p => pending = [p] | Raised _ | Cancelled => True | _ => pending = [] end.
(** A coroutine that ends has recorded a result, and its close code is one that may be sent. *)
Definition settled (recorded : list ServiceWebSocketProxyResult) (c : Coroutine) : Prop :=
  match c with
  | Closing _ res | Returned res => recorded ≠ [] ∧ _VALID_CLOSE_CODES (wr_close_code res) = true
  | _ => True
  end.
Arguments settled : simpl never.
(** Every frame read was handed over, unless the last one was too large. *)
Definition handed_over (read handed : list Payload) (c : Coroutine) : Prop :=
  ∃ refused, read = handed ++ refused
    ∧ match c with Waiting | Sending _ => refused = [] | _ => True end.
Record relay_ok (r : Relay) : Prop := {
  ro_recorded : (length (rl_recorded r) ≤ 1)%nat;
  ro_settled : settled (rl_recorded r) (rl_client r) ∧ settled (rl_recorded r) (rl_server r) ∧ settled (rl_recorded r) (rl_watchdog r);
  ro_closes : Forall (λ sc, _VALID_CLOSE_CODES sc.2 = true) (rl_closes r);
  ro_handed : handed_over (rl_from_client r) (rl_to_server r) (rl_client r) ∧ rl_to_client r = rl_from_server r;
  ro_bounded : Forall (λ p, _payload_size p ≤ px_max_message_bytes config) (rl_to_server r);
  ro_client : accounted (client_frames (rl_counters r)) (client_bytes (rl_counters r)) (rl_to_server r) (rl_client r);
  ro_server : accounted (upstream_frames (rl_counters r)) (upstream_bytes (rl_counters r)) (rl_to_client r) (rl_server r)
}.

Lemma close_code_valid value default_ :
  _VALID_CLOSE_CODES default_ = true → _VALID_CLOSE_CODES (_close_code value default_) = true.
Proof. intros Hd. unfold _close_code. destruct value as [code|]; [|done]. by destruct (_VALID_CLOSE_CODES code) eqn:Hc. Qed.
Lemma record_once_length res recorded : (length recorded ≤ 1 → length (record_once res recorded) ≤ 1)%nat.
Proof. by destruct recorded. Qed.
Lemma record_once_some res recorded : record_once res recorded ≠ [].
Proof. by destruct recorded. Qed.
Lemma settled_once res recorded c : settled recorded c → settled (record_once res recorded) c.
Proof. destruct c; simpl; try done; intros [Hr Hc]; by destruct recorded. Qed.
Lemma settled_closing res recorded b : _VALID_CLOSE_CODES (wr_close_code res) = true → settled (record_once res recorded) (Closing b res).
Proof. intros Hc. split; [apply record_once_some|done]. Qed.
Lemma closes_asked sides code closes :
  Forall (λ sc : Side * Z, _VALID_CLOSE_CODES sc.2 = true) closes → _VALID_CLOSE_CODES code = true →
  Forall (λ sc : Side * Z, _VALID_CLOSE_CODES sc.2 = true) (closes ++ close_frames code sides).
Proof. intros Hc Hcode. apply Forall_app. split; [done|]. apply Forall_fmap, Forall_forall. done. Qed.
(** A coroutine with no frame in flight, and one that stopped. *)
Definition quiet (c : Coroutine) : bool := match c with Waiting | Closing _ _ | Returned _ => true | _ => false end.
Definition broken (c : Coroutine) : bool := match c with Raised _ | Cancelled => true | _ => false end.
Lemma accounted_quiet frames bytes handed c c' :
  quiet c = true → quiet c' = true → accounted frames bytes handed c → accounted frames bytes handed c'.
Proof. intros Hc Hc' (sent & pending & Hh). exists sent, pending. destruct c; try done; by destruct c'. Qed.
Lemma accounted_broken frames bytes handed c c' :
  broken c' = true → accounted frames bytes handed c → accounted frames bytes handed c'.
Proof. intros Hc' (sent & pending & ? & ? & ? & ? & _). exists sent, pending. split_and!; try done. by destruct c'. Qed.
Lemma accounted_hand frames bytes handed p : accounted frames bytes handed Waiting → accounted frames bytes (handed ++ [p]) (Sending p).
Proof.
  intros (sent & pending & -> & -> & -> & Hl & Hp). exists sent, [p]. rewrite Hp, app_nil_r. by split_and!.
Qed.
Lemma accounted_sent frames bytes handed p :
  accounted frames bytes handed (Sending p) → accounted (frames + 1) (bytes + _payload_size p) handed Waiting.
Proof.
  intros (sent & pending & -> & -> & -> & Hl & Hp). exists (sent ++ pending), []. rewrite Hp, app_nil_r.
  split_and!; [done|rewrite length_app; simpl; lia|rewrite total_app; simpl; lia|simpl; lia|done].
Qed.

Lemma start_ok now : relay_ok (start_relay now).
Proof.
  assert (Hnone : accounted 0 0 [] Waiting) by (exists [], []; split_and!; simpl; try done; lia).
  split; simpl; [lia|done|constructor|split; [by exists []|done]|constructor|exact Hnone..].
Qed.


Ltac ok_tac :=
  repeat match goal with |- _ ∧ _ => split end;
  eauto using record_once_length, settled_once, settled_closing, closes_asked, accounted_quiet, accounted_broken,
    accounted_hand, accounted_sent, close_code_valid.

Lemma client_receives_ok m r : relay_ok r → rl_client r = Waiting → relay_ok (client_receives config m r).
Proof.
  intros [Hr (Hc & Hs & Hw) Hcl [(refused & Hh & Hrf) Hto] Hb Ha Hsv] Hcw. rewrite Hcw in *. subst refused.
  destruct m as [code reason|text bytes]; simpl.
  - assert (Hcode := close_code_valid code 1000 eq_refl). split; simpl; ok_tac. by exists [].
  - destruct (message_payload text bytes) as [payload|]; [|by split; rewrite ?Hcw; ok_tac; exists []].
    destruct (px_max_message_bytes config <? _payload_size payload) eqn:Hsize.
    + split; simpl; ok_tac. exists [payload]. by rewrite Hh, app_nil_r.
    + split; simpl; ok_tac; [exists []; by rewrite Hh, !app_nil_r|]. apply Forall_app. split; [done|]. repeat constructor. lia.
Qed.
Lemma server_closed_ok code reason r : relay_ok r → rl_server r = Waiting → relay_ok (server_closed code reason r).
Proof.
  intros [Hr (Hc & Hs & Hw) Hcl [Hh Hto] Hb Ha Hsv] Hsw. rewrite Hsw in *.
  assert (Hcode := close_code_valid code 1011 eq_refl). split; simpl; ok_tac.
Qed.
Lemma watchdog_wakes_ok r : relay_ok r → rl_watchdog r = Waiting → relay_ok (watchdog_wakes config r).
Proof.
  intros Hok Hww. unfold watchdog_wakes. destruct (rl_now r - rl_activity r <? px_idle_timeout_seconds config); [done|].
  destruct Hok as [Hr (Hc & Hs & Hw) Hcl [Hh Hto] Hb Ha Hsv]. split; simpl; ok_tac.
Qed.
Lemma client_sent_ok p r : relay_ok r → rl_client r = Sending p → relay_ok (client_sent p r).
Proof.
  intros [Hr (Hc & Hs & Hw) Hcl [Hh Hto] Hb Ha Hsv] Hcs. rewrite Hcs in *. split; simpl; ok_tac.
Qed.
Lemma server_sent_ok p r : relay_ok r → rl_server r = Sending p → relay_ok (server_sent p r).
Proof.
  intros [Hr (Hc & Hs & Hw) Hcl [Hh Hto] Hb Ha Hsv] Hss. rewrite Hss in *. split; simpl; ok_tac.
Qed.
Lemma pass_to_client_ok p r : relay_ok r → rl_server r = Waiting → relay_ok (pass_to_client p r).
Proof.
  intros [Hr (Hc & Hs & Hw) Hcl [Hh Hto] Hb Ha Hsv] Hsw. rewrite Hsw in *. split; simpl; ok_tac; by rewrite Hto.
Qed.
(** A coroutine that ends: it returns what it was closing with, or it raises or is cancelled. *)
Definition ends_as (c c' : Coroutine) : Prop :=
  broken c' = true ∨ ∃ b res, c = Closing b res ∧ c' = Returned res.
Lemma ends_settled recorded c c' : ends_as c c' → settled recorded c → settled recorded c'.
Proof. intros [Hb|(b & res & -> & ->)]; [by destruct c'|done]. Qed.
Lemma ends_accounted frames bytes handed c c' : ends_as c c' → accounted frames bytes handed c → accounted frames bytes handed c'.
Proof. intros [Hb|(b & res & -> & ->)]; [by apply accounted_broken|by apply accounted_quiet]. Qed.
Lemma ends_handed read handed c c' : ends_as c c' → handed_over read handed c → handed_over read handed c'.
Proof. intros He (refused & Hh & _). exists refused. split; [done|]. destruct He as [Hb|(b & res & -> & ->)]; [by destruct c'|done]. Qed.
Lemma client_ends_ok c r : relay_ok r → ends_as (rl_client r) c → relay_ok (set_client c r).
Proof.
  intros [Hr (Hc & Hs & Hw) Hcl [Hh Hto] Hb Ha Hsv] He. split; simpl; ok_tac; eauto using ends_settled, ends_accounted, ends_handed.
Qed.
Lemma server_ends_ok c r : relay_ok r → ends_as (rl_server r) c → relay_ok (set_server c r).
Proof.
  intros [Hr (Hc & Hs & Hw) Hcl [Hh Hto] Hb Ha Hsv] He. split; simpl; ok_tac; eauto using ends_settled, ends_accounted.
Qed.
Lemma watchdog_ends_ok c r : relay_ok r → ends_as (rl_watchdog r) c → relay_ok (set_watchdog c r).
Proof.
  intros [Hr (Hc & Hs & Hw) Hcl [Hh Hto] Hb Ha Hsv] He. split; simpl; ok_tac; eauto using ends_settled.
Qed.

Lemma relay_step_ok r r' : relay_step config r r' → relay_ok r → relay_ok r'.
Proof.
  intros Hstep Hok. destruct Hstep;
    eauto using client_receives_ok, server_closed_ok, watchdog_wakes_ok, client_sent_ok, server_sent_ok, pass_to_client_ok;
    try (first [apply client_ends_ok|apply server_ends_ok|apply watchdog_ends_ok]; [done|];
         first [by left|right; eauto]);
    by destruct Hok.
Qed.
Lemma relayed_ok now r : relayed config now r → relay_ok r.
Proof. intros Hr. pose proof (start_ok now) as Hok. induction Hr; eauto using relay_step_ok. Qed.
End invariant.

Section theorems.
Context (config : ServiceWebSocketProxyConfig).

(** A relay is faithful and bounded.  However its coroutines interleave, and whenever
    it is observed: the frames handed to the service are the first ones the client sent,
    in their order, and none is larger than the limit; the client is handed exactly the
    frames of the service; the counters are the number and the bytes of the frames handed
    over, apart from one that is still on its way; every close frame carries a code that
    may be sent; and at most one outcome has been recorded. *)
Theorem relay_faithful (now : Z) (r : Relay) :
  relayed config now r →
  rl_to_server r `prefix_of` rl_from_client r ∧ rl_to_client r = rl_from_server r
  ∧ Forall (λ p, _payload_size p ≤ px_max_message_bytes config) (rl_to_server r)
  ∧ (∃ sent last, rl_to_server r = sent ++ last ∧ (length last ≤ 1)%nat
       ∧ client_frames (rl_counters r) = Z.of_nat (length sent) ∧ client_bytes (rl_counters r) = total sent)
  ∧ (∃ sent last, rl_to_client r = sent ++ last ∧ (length last ≤ 1)%nat
       ∧ upstream_frames (rl_counters r) = Z.of_nat (length sent) ∧ upstream_bytes (rl_counters r) = total sent)
  ∧ Forall (λ sc, _VALID_CLOSE_CODES sc.2 = true) (rl_closes r) ∧ (length (rl_recorded r) ≤ 1)%nat.
Proof.
  intros [Hr _ Hcl [(refused & Hh & _) Hto] Hb (s1 & p1 & H1 & Hf1 & Hb1 & Hl1 & _) (s2 & p2 & H2 & Hf2 & Hb2 & Hl2 & _)]%relayed_ok.
  split_and!; try done; [by exists refused|by exists s1, p1|by exists s2, p2].
Qed.

Lemma best_in r rs : best r rs ∈ r :: rs.
Proof.
  unfold best. revert r. induction rs as [|x rs IH]; intros r; simpl; [left|].
  destruct (priority r <? priority x); specialize (IH x) as Hx || specialize (IH r) as Hx; set_solver.
Qed.
Lemma relay_outcome_returned finished res :
  relay_outcome finished = Ok res → Returned res ∈ finished.
Proof.
  unfold relay_outcome. destruct (omap returned finished) as [|r rs] eqn:Ho; [by destruct (omap raised finished)|].
  intros [= <-]. pose proof (best_in r rs) as Hb. rewrite <- Ho in Hb. apply list_elem_of_omap in Hb as (c & Hc & Hr).
  destruct c; try done. by injection Hr as ->.
Qed.

(** A relay that returns an outcome has recorded one, once, and both carry a close
    code that may be sent. *)
Theorem relay_records_its_end (now : Z) (r : Relay) (res : ServiceWebSocketProxyResult) :
  relay_over config now r (Ok res) →
  _VALID_CLOSE_CODES (wr_close_code res) = true ∧ ∃ recorded, rl_recorded r = [recorded].
Proof.
  intros (Hr & _ & _ & _ & _ & finished & Hperm & Hout). symmetry in Hout. apply relay_outcome_returned in Hout.
  rewrite Hperm in Hout. apply relayed_ok in Hr as [Hl (Hc & Hs & Hw) _ _ _ _ _].
  assert (settled (rl_recorded r) (Returned res)) as [Hne Hcode].
  { set_unfold in Hout. destruct Hout as [->|[->|[->|[]]]]; done. }
  split; [done|]. destruct (rl_recorded r) as [|x [|y l]]; simpl in *; [done|by exists x|lia].
Qed.

Lemma websocket_scheme_some scheme s :
  websocket_scheme scheme = Some s →
  s ∈ ["ws"; "wss"; "http"; "https"] ∧ s = (if bool_decide (scheme ∈ ["https"; "wss"]) then "wss" else "ws").
Proof.
  unfold websocket_scheme. case_bool_decide as H1; [|case_bool_decide as H2]; intros [= <-].
  - rewrite bool_decide_false; [set_solver|]. set_unfold in H1. destruct H1 as [->|[->|[]]]; set_solver.
  - set_solver.
Qed.

(** A relay goes to the registered service and nowhere else.  Whatever path and query
    the client asks for, the address that is opened has the network location of the
    service's registered address, with the websocket scheme that belongs to its own, and
    carries no credentials. *)
Theorem relay_url_same_origin (base_url path query url : string) :
  service_websocket_url base_url path query = Ok url →
  let base := urlsplit base_url in
  let opened := urlsplit url in
  url_netloc opened = url_netloc base ∧ url_hostname opened = url_hostname base ∧ url_hostname base ≠ None
  ∧ url_username opened = None ∧ url_password opened = None
  ∧ url_scheme opened = (if bool_decide (lower (url_scheme base) ∈ ["https"; "wss"]) then "wss" else "ws").
Proof.
  intros Hu base opened. unfold service_websocket_url, urlsplit_checked in Hu.
  destruct (xorb _ _); [discriminate Hu|]. simpl in Hu. change (urlsplit base_url) with base in Hu.
  destruct (websocket_scheme (lower (url_scheme base))) as [s|] eqn:Hscheme; [|discriminate Hu].
  apply websocket_scheme_some in Hscheme as [Hin Hs].
  destruct (url_hostname base) as [host|] eqn:Hhost; [|discriminate Hu].
  destruct (negb (bool_decide (url_username base = None)) || negb (bool_decide (url_password base = None))) eqn:Hcred; [discriminate Hu|].
  apply orb_false_iff in Hcred as [Hname Hpw]. apply negb_false_iff, bool_decide_eq_true in Hname, Hpw.
  destruct (truthy (url_query base) || truthy (url_fragment base)); [discriminate Hu|]. injection Hu as <-.
  destruct (url_netloc base) as [netloc|] eqn:Hn; [|by unfold url_hostname in Hhost; rewrite Hn in Hhost].
  pose proof (urlsplit_netloc base_url netloc Hn) as Hends.
  match goal with opened := urlsplit (urlunsplit_origin s _ ?p query) |- _ =>
    destruct (urlsplit_unsplit s netloc p query Hin Hends) as [E1 E2] end.
  subst opened. simpl in E1, E2 |- *. unfold url_hostname, url_username, url_password in *. rewrite Hn in *. rewrite E1, E2.
  by split_and!.
Qed.
End theorems.

(** ** Concrete relays *)

Definition plain_proxy : ServiceWebSocketProxyConfig := mkProxyConfig 8 16 32768 10000000 300000000 10000000 30000000.
(** The client's greeting is passed on and counted; its second frame is too large. *)
Definition after_greeting : Relay :=
  client_sent (PText "hello") (client_receives plain_proxy (Frame (Some "hello") None) (start_relay 0)).
Definition after_overflow : Relay := client_receives plain_proxy (Frame None (Some "123456789")) after_greeting.
Definition overflow_over : Relay :=
  match rl_client after_overflow with
  | Closing _ res => set_watchdog Cancelled (set_server Cancelled (stop_waiting (set_client (Returned res) after_overflow)))
  | _ => after_overflow
  end.
Lemma after_overflow_relayed : relayed plain_proxy 0 after_overflow.
Proof.
  eapply rtc_l; [apply (client_message plain_proxy _ (Frame (Some "hello") None)); reflexivity|].
  eapply rtc_l; [apply (client_send plain_proxy _ (PText "hello")); reflexivity|].
  eapply rtc_l; [apply (client_message plain_proxy _ (Frame None (Some "123456789"))); reflexivity|]. apply rtc_refl.
Qed.
Lemma overflow_over_relayed : relayed plain_proxy 0 overflow_over.
Proof.
  unfold relayed. transitivity after_overflow; [apply after_overflow_relayed|].
  eapply rtc_l; [eapply (client_return plain_proxy); reflexivity|].
  eapply rtc_l; [apply (waits_over plain_proxy); reflexivity|].
  eapply rtc_l; [apply (cancel_server plain_proxy); reflexivity|].
  eapply rtc_l; [apply (cancel_watchdog plain_proxy); reflexivity|]. apply rtc_refl.
Qed.
Lemma relay_faithful_witness :
  rl_to_server after_overflow = [PText "hello"] ∧ rl_from_client after_overflow = [PText "hello"; PBytes "123456789"]
  ∧ Forall (λ p, _payload_size p ≤ px_max_message_bytes plain_proxy) (rl_to_server after_overflow).
Proof.
  split_and!; [reflexivity..|].
  destruct (relay_faithful plain_proxy 0 after_overflow after_overflow_relayed) as (_ & _ & Hb & _). exact Hb.
Defined.
Lemma relay_records_its_end_witness :
  (wr_close_code <$> rl_recorded overflow_over) = [1009] ∧ ∃ recorded, rl_recorded overflow_over = [recorded].
Proof.
  split; [reflexivity|].
  destruct (relay_records_its_end plain_proxy 0 overflow_over (mkProxyResult "message_too_large" 1009 "message exceeds 8 bytes" (mkCounters 1 5 0 0)))
    as [_ Hone]; [|exact Hone].
  split_and!; [apply overflow_over_relayed|reflexivity..|].
  eexists. split; [reflexivity|]. vm_compute. reflexivity.
Defined.
Lemma relay_url_same_origin_witness :
  service_websocket_url "https://svc.local:8443/app/" "a b/../@evil//x" "q=1" = Ok "wss://svc.local:8443/app/a%20b/../%40evil//x?q=1"
  ∧ url_hostname (urlsplit "wss://svc.local:8443/app/a%20b/../%40evil//x?q=1") = Some "svc.local".
Proof.
  assert (Hu : service_websocket_url "https://svc.local:8443/app/" "a b/../@evil//x" "q=1"
               = Ok "wss://svc.local:8443/app/a%20b/../%40evil//x?q=1") by (vm_compute; reflexivity).
  split; [exact Hu|]. destruct (relay_url_same_origin _ _ _ _ Hu) as (_ & Hh & _). rewrite Hh. vm_compute. reflexivity.
Defined.

(** The same address climbs out of the registered path: quoting leaves dots alone. *)
Example relay_url_climbs :
  service_websocket_url "https://svc.local/tenants/a" "../b/ws" EmptyString = Ok "wss://svc.local/tenants/a/../b/ws".
Proof. vm_compute. reflexivity. Qed.
Example relay_headers :
  proxy_request_headers [("Authorization", "Bearer x"); ("Cookie", "c"); ("origin", "o"); ("x-trace", "1"); ("upgrade", "websocket")]
    = [("x-trace", "1")]
  ∧ requested_subprotocols [("sec-websocket-protocol", "chat, json,chat")] = inl ["chat"; "json"]
  ∧ requested_subprotocols [("sec-websocket-protocol", "a b")] = inr (mkProxyError "invalid WebSocket subprotocol request" 1008 "invalid subprotocol")
  ∧ filtered_query_string "Token=s&x=1&token=t&version=2" ["token"; "project_id"; "version"] = "x=1".
Proof. split_and!; vm_compute; reflexivity. Qed.

(** A relay that raises may have recorded an outcome already: the client leaves while a
    frame is on its way to it.  The send fails, the client's disconnect is recorded, and
    the close of the upstream is still pending when the grace period ends. *)
Definition client_left : Relay :=
  let frame := pass_to_client (PText "tick") (start_relay 0) in
  set_watchdog Cancelled (set_client Cancelled (stop_waiting
    (client_receives plain_proxy (Disconnect (Some 1001) None) (set_server (Raised (OtherException "WebSocketDisconnect" "1006")) frame)))).
Example raised_after_recording :
  ∃ recorded e, wr_outcome recorded = "client_closed"
    ∧ proxied plain_proxy [] 0 [recorded] (inr (upstream_failed e)).
Proof.
  exists (mkProxyResult "client_closed" 1001 EmptyString (mkCounters 0 0 0 0)), (OtherException "WebSocketDisconnect" "1006").
  split; [reflexivity|]. apply (relay_ran plain_proxy [] 0 [] client_left (Err (OtherException "WebSocketDisconnect" "1006"))); [reflexivity|].
  split_and!; try reflexivity.
  - eapply rtc_l; [apply (server_frame plain_proxy _ (PText "tick")); reflexivity|].
    eapply rtc_l; [apply (server_raise plain_proxy _ (OtherException "WebSocketDisconnect" "1006")); reflexivity|].
    eapply rtc_l; [apply (client_message plain_proxy _ (Disconnect (Some 1001) None)); reflexivity|].
    eapply rtc_l; [apply (waits_over plain_proxy); reflexivity|].
    eapply rtc_l; [apply (cancel_client plain_proxy); reflexivity|].
    eapply rtc_l; [apply (cancel_watchdog plain_proxy); reflexivity|]. apply rtc_refl.
  - eexists. split; [reflexivity|]. reflexivity.
Qed.
