(* ===== verification/Delivery.v ===== *)
(** * Delivering the event log to a Redis Stream ([src/src/goblin_king/event_delivery.py])

    [OrderedEventStreamDelivery] copies the causal event log, in order, onto one
    stream.  Its cursor lives in SQLite and moves in one transaction per call; the
    stream is another system, so what was appended before an error stays there
    while the cursor rolls back, and a later call must recognise it.

    Redis is the class [RedisStream]: the three commands the code sends, over an
    abstract server state, with the documented behaviour of XADD, XRANGE and
    XREVRANGE as laws.  A stream id is a pair (milliseconds, number), its order the
    lexicographic one; [stream_history] is every entry ever added to the stream.
    The event bus that calls the delivery ([events.py]) is at the end. *)

From S2P Require Import Prelude CausalTime Contracts PyValues EventStore JobStore JobLifecycle RecordStore Auth World.

Definition stream_id : Type := Z * Z.
Definition id_lt (x y : stream_id) : Prop := x.1 < y.1 ∨ (x.1 = y.1 ∧ x.2 < y.2).

(** The "event" field of an entry: absent, or what [json.loads] makes of its text. *)
Definition StreamFields : Type := option (result Json).
Definition StreamEntry : Type := stream_id * StreamFields.

Class RedisStream := {
  redis : Type;
  stream_history : redis → list StreamEntry;
  (** XADD id MAXLEN ~ n of one "event" field, XRANGE id id COUNT 1 and
      XREVRANGE + - COUNT 1 *)
  xadd : Json → stream_id → Z → M redis unit;
  xrange : stream_id → M redis (list StreamEntry);
  xrevrange : M redis (list StreamEntry);
  (** PUBLISH channel message *)
  publish : string → Json → M redis unit;
  (** [RedisError] and its subclass [ResponseError] *)
  is_redis_error : exn → bool;
  is_response_error : exn → bool
}.

(** An entry was added: its id is above every earlier one. *)
Definition added `{RedisStream} (entry : StreamEntry) (r r' : redis) : Prop :=
  stream_history r' = stream_history r ++ [entry]
  ∧ ∀ x, x ∈ stream_history r → id_lt x.1 entry.1.

(** An error reply means that nothing was added; a connection that fails may have
    lost the reply of a command that was executed.  Trimming to a positive length
    keeps the newest entry. *)
Class RedisLaws `{RedisStream} : Prop := {
  xadd_ok : ∀ p id n r r', xadd p id n r = (r', Ok tt) → added (id, Some (Ok p)) r r';
  xadd_refused : ∀ p id n r r' e, xadd p id n r = (r', Err e) →
    is_response_error e = true → stream_history r' = stream_history r;
  xadd_lost : ∀ p id n r r' e, xadd p id n r = (r', Err e) →
    is_redis_error e = true
    ∧ (stream_history r' = stream_history r ∨ added (id, Some (Ok p)) r r');
  xrange_reads : ∀ id r, stream_history (xrange id r).1 = stream_history r;
  xrange_held : ∀ id r r' l x, xrange id r = (r', Ok l) → x ∈ l →
    x.1 = id ∧ x ∈ stream_history r;
  xrange_error : ∀ id r r' e, xrange id r = (r', Err e) → is_redis_error e = true;
  xrevrange_reads : ∀ r, stream_history (xrevrange r).1 = stream_history r;
  xrevrange_last : ∀ r r' l, xrevrange r = (r', Ok l) →
    l = option_list (last (stream_history r));
  xrevrange_error : ∀ r r' e, xrevrange r = (r', Err e) → is_redis_error e = true;
  publish_keeps : ∀ c j r, stream_history (publish c j r).1 = stream_history r;
  publish_error : ∀ c j r r' e, publish c j r = (r', Err e) → is_redis_error e = true;
  response_is_redis : ∀ e, is_response_error e = true → is_redis_error e = true
}.

(** ** The event as JSON *)

Definition event_source_str (s : EventSource) : string :=
  match s with
  | SrcApi => "api" | SrcScheduler => "scheduler" | SrcRuntime => "runtime"
  | SrcWorker => "worker" | SrcCli => "cli"
  end.

(** Pydantic's JSON text of a UTC instant: the ISO text with Z. *)
Definition json_datetime (t : utc) : string := iso_local t +:+ "Z".

(** [_event_payload]: [model_dump(mode="json")] of the row's record. *)
Definition _event_payload (e : EventRecord) : list (string * Json) :=
  [("id", JStr (e_id e)); ("sequence", JInt (e_sequence e));
   ("created_at", JStr (json_datetime (e_created_at e)));
   ("event_type", JStr (e_event_type e)); ("source", JStr (event_source_str (e_source e)));
   ("project_id", JOptStr (e_project_id e)); ("job_id", JOptStr (e_job_id e));
   ("run_id", JOptStr (e_run_id e)); ("fanout_id", JOptStr (e_fanout_id e));
   ("schedule_id", JOptStr (e_schedule_id e)); ("worker_id", JOptStr (e_worker_id e));
   ("scheduler_id", JOptStr (e_scheduler_id e));
   ("payload", JObj (map_to_list (e_payload e)))].

(** [_stream_payload]: [json.loads] of the field, or an empty dict. *)
Definition _stream_payload (fields : StreamFields) : result Json :=
  match fields with Some parsed => parsed | None => Ok (JObj []) end.
(** [payload.get] on what may not be a dict. *)
Definition as_dict (j : Json) : result (list (string * Json)) :=
  match j with
  | JObj o => Ok o
  | _ => Err (OtherException "AttributeError" "object has no attribute 'get'")
  end.

(** ** [OrderedEventStreamDelivery] *)

Definition MAX_DELIVERY_BATCH : nat := 100.

(** A row of [event_stream_deliveries]. *)
Record DeliveryRow := mkDeliveryRow {
  delivered_sequence : Z;
  stream_id_offset : option Z
}.

(** The two tables it uses, of which the transaction can undo the writes, and the
    server. *)
Record Delivery `{RedisStream} := mkDelivery {
  d_events : EventTables;
  d_rows : gmap string DeliveryRow;
  d_redis : redis
}.
Arguments mkDelivery {_} d_events d_rows d_redis.

Section delivery.
Context `{Sqlite} `{RedisStream}.
(** The key of the stream ([sha256] of its URL and name), its length limit, and
    whether SQLite refuses the commit. *)
Context (target : string) (maxlen : Z) (commit_error : Delivery → option exn).

Definition redis_lens : lens Delivery redis :=
  Lens d_redis (λ r d, mkDelivery (d_events d) (d_rows d) r).

(** BEGIN IMMEDIATE ... commit, or rollback and raise: the tables, not the server. *)
Definition db_transaction {A} (body : M Delivery A) : M Delivery A :=
  λ d, let rollback (d' : Delivery) := mkDelivery (d_events d) (d_rows d) (d_redis d') in
       match body d with
       | (d', Ok a) => match commit_error d' with
                       | None => (d', Ok a)
                       | Some e => (rollback d', Err e)
                       end
       | (d', Err e) => (rollback d', Err e)
       end.

Definition insert_or_ignore : M Delivery unit :=
  modify (λ d, mkDelivery (d_events d)
    (match d_rows d !! target with
     | Some _ => d_rows d
     | None => <[target := mkDeliveryRow 0 None]> (d_rows d)
     end) (d_redis d)).
Definition read_state : M Delivery DeliveryRow :=
  λ d, match d_rows d !! target with
       | Some row => (d, Ok row)
       | None => (d, Err (OtherException "NoResultFound" "No row was found when one was required"))
       end.

Definition _save_state (sequence offset : Z) : M Delivery unit :=
  modify (λ d, mkDelivery (d_events d)
    (alter (λ _, mkDeliveryRow sequence (Some offset)) target (d_rows d)) (d_redis d)).

(** [select(sequence).order_by(sequence).limit(1)] *)
Definition first_sequence (d : Delivery) : option Z :=
  e_sequence <$> head (order_by (le_asc e_sequence) (rows (events (d_events d)))).
(** [select(sequence).where(id == ...)], or 0 *)
Definition sequence_of_id (id : string) (d : Delivery) : Z :=
  match events (d_events d) !! id with Some e => e_sequence e | None => 0 end.

Definition _bootstrap (cursor : Z) : M Delivery (Z * Z) :=
  let* entries := zoom redis_lens xrevrange in
  match entries with
  | [] =>
      let* first := gets first_sequence in
      ret (match first with
           | Some f => if f =? 0 then cursor else Z.max cursor (f - 1)
           | None => cursor
           end, 0)
  | (message_id, fields) :: _ =>
      let last_milliseconds := message_id.1 in
      let* payload := lift_result (let? j := _stream_payload fields in as_dict j) in
      let* sequence := lift_result (py_int (py_or (obj_get payload "sequence") (JInt 0))) in
      let* sequence :=
        (match obj_get payload "id" with
         | Some id => if (sequence <? 1) && py_truthy id
                      then gets (sequence_of_id (py_str id)) else ret sequence
         | None => ret sequence
         end) in
      ret (if sequence <? 1 then (cursor, last_milliseconds)
           else (Z.max cursor sequence, Z.max 0 (last_milliseconds - sequence)))
  end.

(** [_append] *)
Definition payload_sequence (payload : list (string * Json)) : result Z :=
  match obj_get payload "sequence" with
  | Some j => py_int j
  | None => Err (KeyError "sequence")
  end.
Definition _append (offset : Z) (payload : list (string * Json)) : M Delivery unit :=
  let* sequence := lift_result (payload_sequence payload) in
  let id : stream_id := (offset + sequence, 0) in
  try_catch (zoom redis_lens (xadd (JObj payload) id maxlen))
    (λ e,
       if is_response_error e then
         let* entries := zoom redis_lens (xrange id) in
         match entries with
         | [] => raise e
         | (_, fields) :: _ =>
             let* stored := lift_result (_stream_payload fields) in
             if py_eq stored (JObj payload) then ret tt else raise e
         end
       else raise e).

Definition delivery_batch (cursor target_sequence : Z) (d : Delivery) : list EventRecord :=
  take MAX_DELIVERY_BATCH
    (order_by (le_asc e_sequence)
       (filter (λ e, (cursor <? e_sequence e) && (e_sequence e <=? target_sequence) = true)
          (rows (events (d_events d))))).

(** [for row in rows]: the cursor it leaves. *)
Definition deliver_row (offset cursor : Z) (row : EventRecord) : M Delivery Z :=
  let sequence := e_sequence row in
  do* (if cursor + 1 <? sequence then _save_state (sequence - 1) offset else ret tt) in
  do* _append offset (_event_payload row) in
  do* _save_state sequence offset in
  ret sequence.

(** [while cursor < target_sequence]: [false] when the fuel is spent. *)
Fixpoint deliver_loop (fuel : nat) (offset target_sequence cursor : Z) : M Delivery bool :=
  if negb (cursor <? target_sequence) then ret true
  else match fuel with
  | O => ret false
  | S fuel' =>
      let* batch := gets (delivery_batch cursor target_sequence) in
      match batch with
      | [] => do* _save_state target_sequence offset in ret true
      | _ => let* cursor' := foldM (deliver_row offset) cursor batch in
             deliver_loop fuel' offset target_sequence cursor'
      end
  end.

(** Up to the loop: where the copy goes on. *)
Definition deliver_start : M Delivery (Z * Z) :=
  do* insert_or_ignore in
  let* state := read_state in
  match stream_id_offset state with
  | Some offset => ret (delivered_sequence state, offset)
  | None =>
      let* (cursor, offset) := _bootstrap (delivered_sequence state) in
      do* _save_state cursor offset in
      ret (cursor, offset)
  end.

Definition deliver_through (target_sequence : Z) : M Delivery bool :=
  db_transaction (
    let* (cursor, offset) := deliver_start in
    deliver_loop (Z.to_nat (target_sequence - cursor)) offset target_sequence cursor).
End delivery.

(** ** [EventBus] with its mirror ([events.py]) *)

(** The process, the store and Redis. *)
Record Mirror `{RedisStream} := mkMirror { mi_process : Process; mi_delivery : Delivery }.

Section mirror.
Context `{Sqlite} `{Env} `{RedisStream}.
Context (target event_channel heartbeat_channel : string) (maxlen : Z).
Context (commit_error : Delivery → option exn) (is_sqlalchemy_error : exn → bool).

Definition delivery_lens : lens Mirror Delivery :=
  Lens mi_delivery (λ d m, mkMirror _ (mi_process m) d).
Definition mirror_bus_lens : lens Mirror Bus :=
  Lens (λ m, mkBus (mi_process m) (d_events (mi_delivery m)))
    (λ b m, mkMirror _ (bus_process b)
       (mkDelivery (bus_events b) (d_rows (mi_delivery m)) (d_redis (mi_delivery m)))).
Definition mirror_redis_lens : lens Mirror redis := lens_compose delivery_lens redis_lens.

(** [except (RedisError, SQLAlchemyError, TypeError, ValueError): return] *)
Definition swallowed (x : exn) : bool :=
  is_redis_error x || is_value_error x || match x with TypeError _ => true | _ => false end.
Definition _append_stream (payload : list (string * Json)) : M Mirror unit :=
  try_catch
    (let* sequence := lift_result (payload_sequence payload) in
     do* zoom delivery_lens (deliver_through target maxlen commit_error sequence) in ret tt)
    (λ x, if swallowed x || is_sqlalchemy_error x then ret tt else raise x).

Definition _publish (channel : string) (payload : Json) : M Mirror unit :=
  try_catch (zoom mirror_redis_lens (publish channel payload))
    (λ x, if is_redis_error x then ret tt else raise x).

(** [emit]: the log first, then the mirrors. *)
Definition emit_mirrored (event_type : string) (a : EmitArgs) : M Mirror EventRecord :=
  let* event := zoom mirror_bus_lens (emit event_type a) in
  let event_payload := _event_payload event in
  do* _append_stream event_payload in
  do* _publish event_channel (JObj event_payload) in
  ret event.
End mirror.

(** ** What the stream holds

    The specification of the copy: what was there before ([h0]), then the entry of
    each delivered event [l], in the order of the log, each once, under an id that
    follows from its sequence number.  Nothing up to [b] is copied; nothing between
    [b] and [k] is missing. *)

Definition entry_of (o : Z) (e : EventRecord) : StreamEntry :=
  ((o + e_sequence e, 0), Some (Ok (JObj (_event_payload e)))).

Record copied (h0 : list StreamEntry) (o b k : Z) (l : list EventRecord)
    (ev : EventTables) (h : list StreamEntry) : Prop := {
  cp_log : log_ok ev;
  cp_history : h = h0 ++ map (entry_of o) l;
  cp_sorted : StronglySorted (λ x y, e_sequence x < e_sequence y) l;
  cp_range : ∀ e, e ∈ l → b < e_sequence e ≤ k;
  cp_old : ∀ x, x ∈ h0 → x.1.1 ≤ o + b;
  cp_offset : 0 ≤ o;
  cp_base : 0 ≤ b ≤ k;
  cp_mark : k ≤ Z.max b (event_sequence ev);
  cp_complete : ∀ e, e ∈ rows (events ev) → b < e_sequence e ≤ k → e ∈ l
}.

(** Rows the loop goes through: in order, above the cursor, none left out. *)
Record gapless (ev : EventTables) (c : Z) (batch : list EventRecord) : Prop := {
  gl_sorted : StronglySorted (λ x y, e_sequence x < e_sequence y) batch;
  gl_rows : ∀ e, e ∈ batch → e ∈ rows (events ev) ∧ c < e_sequence e;
  gl_none : ∀ x y, x ∈ rows (events ev) → y ∈ batch → c < e_sequence x →
    e_sequence x ≤ e_sequence y → x ∈ batch
}.

Lemma gapless_tail ev c e batch :
  gapless ev c (e :: batch) → gapless ev (e_sequence e) batch.
Proof.
  intros [Hs Hr Hn]. apply StronglySorted_inv in Hs as [Hs HF]. rewrite Forall_forall in HF.
  split; [done| |].
  - intros x Hx. split; [apply Hr; by right|by apply HF].
  - intros x y Hx Hy Hlt Hle. pose proof (Hr e ltac:(left)) as [_ He].
    assert (x ∈ e :: batch) as Hin by (apply (Hn x y); [done|by right|lia|done]).
    apply elem_of_cons in Hin as [->|?]; [lia|done].
Qed.

(** Sorting by sequence is strict, as no two rows share one. *)
Lemma strictly_sorted ev l :
  log_ok ev → NoDup l → (∀ e, e ∈ l → e ∈ rows (events ev)) →
  StronglySorted (λ x y, e_sequence x ≤ e_sequence y) l →
  StronglySorted (λ x y, e_sequence x < e_sequence y) l.
Proof.
  intros Hok Hnd Hsub Hs. induction Hs as [|x l Hs IH HF]; [constructor|].
  apply NoDup_cons in Hnd as [Hx Hnd]. rewrite Forall_forall in HF. constructor.
  - apply IH; [done|]. intros e He. apply Hsub. by right.
  - apply Forall_forall. intros y Hy. apply Z.le_neq. split; [by apply HF|]. intros Heq. apply Hx.
    rewrite (lo_unique _ Hok x y); [done|apply Hsub; left|apply Hsub; by right|done].
Qed.

Section batch.
Context `{Sqlite} `{RedisStream}.

Lemma delivery_batch_gapless c T d :
  log_ok (d_events d) →
  gapless (d_events d) c (delivery_batch c T d)
  ∧ (∀ e, e ∈ delivery_batch c T d → e_sequence e ≤ T)
  ∧ (delivery_batch c T d = [] → ∀ e, e ∈ rows (events (d_events d)) → c < e_sequence e → T < e_sequence e).
Proof.
  intros Hok. unfold delivery_batch.
  set (p := λ e, (c <? e_sequence e) && (e_sequence e <=? T) = true).
  set (hits := filter p (rows (events (d_events d)))).
  set (sorted := order_by (le_asc e_sequence) hits).
  assert (∀ e, e ∈ sorted ↔ e ∈ rows (events (d_events d)) ∧ c < e_sequence e ≤ T) as Hin.
  { intros e. unfold sorted. rewrite order_by_elem. unfold hits, p.
    rewrite list_elem_of_filter, andb_true_iff, Z.ltb_lt, Z.leb_le. tauto. }
  assert (StronglySorted (λ x y, e_sequence x < e_sequence y) sorted) as Hs.
  { apply (strictly_sorted (d_events d)); [done| |by intros e [? _]%Hin|apply le_asc_sorted].
    unfold sorted. rewrite order_by_perm. apply NoDup_filter, (rows_NoDup e_id), Hok. }
  split_and!.
  - split; [by apply StronglySorted_take| |].
    + intros e He%subseteq_take. apply Hin in He. naive_solver.
    + intros x y Hx Hy Hc Hle. pose proof (Hin y) as Hiy.
      pose proof (subseteq_take _ _ _ Hy) as Hy'. apply Hin in Hy' as [_ Hyr].
      assert (x ∈ sorted) as Hxs by (apply Hin; split; [done|lia]).
      rewrite <- (take_drop MAX_DELIVERY_BATCH sorted) in Hxs, Hs.
      apply elem_of_app in Hxs as [?|Hxd]; [done|].
      assert (e_sequence y < e_sequence x); [|lia].
      by eapply (StronglySorted_app_1_elem_of (λ u v, e_sequence u < e_sequence v)).
  - intros e He%subseteq_take. apply Hin in He. lia.
  - intros Hnil e He Hc. destruct (decide (T < e_sequence e)) as [|Hle]; [done|exfalso].
    assert (e ∈ sorted) as Hes by (apply Hin; split; [done|lia]).
    destruct sorted as [|x sorted']; [by apply not_elem_of_nil in Hes|].
    unfold MAX_DELIVERY_BATCH in Hnil. done.
Qed.
End batch.

Lemma copied_extend h0 o b k l ev h e :
  copied h0 o b k l ev h → e ∈ rows (events ev) → k < e_sequence e →
  (∀ x, x ∈ rows (events ev) → k < e_sequence x → e_sequence e ≤ e_sequence x) →
  copied h0 o b (e_sequence e) (l ++ [e]) ev (h ++ [entry_of o e]).
Proof.
  intros [Hlog -> Hs Hr Hold Ho Hb Hm Hc] He Hlt Hnone.
  pose proof (lo_range _ Hlog e He). split; try done; try lia.
  - by rewrite map_app, app_assoc.
  - apply StronglySorted_app_2; [| done |repeat constructor].
    intros x y Hx ->%list_elem_of_singleton. specialize (Hr x Hx). lia.
  - intros x [Hx| ->%list_elem_of_singleton]%elem_of_app; [specialize (Hr x Hx)|]; lia.
  - intros x Hx Hrange. apply elem_of_app. destruct (decide (e_sequence x ≤ k)).
    + left. apply Hc; [done|lia].
    + right. apply list_elem_of_singleton, (lo_unique _ Hlog); [done..|].
      specialize (Hnone x Hx). lia.
Qed.

(** An entry under the id of a copied sequence number is its event's. *)
Lemma copied_entry h0 o b k l ev h (x : StreamEntry) s n :
  copied h0 o b k l ev h → x ∈ h → x.1 = (o + s, n) → b < s →
  ∃ e, e ∈ l ∧ e_sequence e = s ∧ x = entry_of o e.
Proof.
  intros [_ -> _ _ Hold _ _ _ _] Hx Hid Hs. apply elem_of_app in Hx as [Hx|Hx].
  - specialize (Hold x Hx). destruct x as [xid f]. simpl in *. subst xid. simpl in Hold. lia.
  - apply list_elem_of_fmap in Hx as (e & -> & He). exists e. split_and!; [done| |done].
    unfold entry_of in Hid. simpl in Hid. injection Hid. lia.
Qed.

(** The two outcomes of a command that may add the entry of [e]. *)
Lemma copied_added `{RedisStream} h0 o b k l ev r r' e :
  copied h0 o b k l ev (stream_history r) → e ∈ rows (events ev) → b < e_sequence e →
  (∀ x, x ∈ rows (events ev) → k < e_sequence x → e_sequence e ≤ e_sequence x) →
  added (entry_of o e) r r' →
  copied h0 o b (e_sequence e) (l ++ [e]) ev (stream_history r') ∧ k < e_sequence e.
Proof.
  intros Hcp He Hb Hnone [-> Hids].
  assert (k < e_sequence e) as Hk.
  { destruct (decide (k < e_sequence e)) as [|Hle]; [done|exfalso].
    assert (e ∈ l) as Hel by (apply (cp_complete _ _ _ _ _ _ _ Hcp); [done|lia]).
    assert (entry_of o e ∈ stream_history r) as Hin.
    { rewrite (cp_history _ _ _ _ _ _ _ Hcp). apply elem_of_app. right.
      apply list_elem_of_fmap. by exists e. }
    specialize (Hids _ Hin). unfold id_lt in Hids. lia. }
  split; [|done]. by apply copied_extend with k.
Qed.

Section deliver.
Context `{Sqlite} `{RedisLaws}.
Context (target : string) (maxlen : Z) (commit_error : Delivery → option exn).
Abbreviation history d := (stream_history (d_redis d)).

(** [_append] of the next event: it is on the stream, once, whenever it returns; an
    error is Redis's, and the stream has it or not. *)
Lemma append_spec h0 o b k l c d e :
  copied h0 o b k l (d_events d) (history d) → e ∈ rows (events (d_events d)) →
  b ≤ c ≤ k → c < e_sequence e →
  (∀ x, x ∈ rows (events (d_events d)) → c < e_sequence x → e_sequence e ≤ e_sequence x) →
  ∃ r' res k' l', _append maxlen o (_event_payload e) d
      = (mkDelivery (d_events d) (d_rows d) r', res)
    ∧ copied h0 o b k' l' (d_events d) (stream_history r') ∧ k ≤ k' ∧ (l' = l ∨ l' = l ++ [e])
    ∧ match res with Ok _ => e_sequence e ≤ k' | Err x => is_redis_error x = true end.
Proof.
  intros Hcp He Hc Hlt Hnone. destruct d as [ev rows_d r]. simpl in *.
  assert (∀ r', added (entry_of o e) r r' →
            copied h0 o b (e_sequence e) (l ++ [e]) ev (stream_history r') ∧ k < e_sequence e) as Hadd.
  { intros r1 Hr1. apply (copied_added h0 o b k l ev r r1 e); [done|done|lia| |done].
    intros x Hx Hkx. apply Hnone; [done|lia]. }
  unfold _append. rewrite bind_lift. change (payload_sequence (_event_payload e)) with (Ok (e_sequence e)).
  cbv zeta iota beta. unfold try_catch. rewrite zoom_eq. simpl.
  destruct (xadd _ _ maxlen r) as [r1 [[]|x]] eqn:Hx; simpl.
  { destruct (Hadd r1 (xadd_ok _ _ _ _ _ Hx)) as [Hcp' Hk]. do 4 eexists.
    split; [done|]. split; [exact Hcp'|]. split; [lia|]. split; [by auto|done]. }
  destruct (xadd_lost _ _ _ _ _ _ Hx) as [Hred Hlost].
  destruct (is_response_error x) eqn:Hresp.
  - pose proof (xadd_refused _ _ _ _ _ _ Hx Hresp) as Hsame.
    set (id := (o + e_sequence e, 0)) in *. unfold bind. rewrite zoom_eq. simpl.
    pose proof (xrange_reads id r1) as Hsame2. destruct (xrange id r1) as [r2 [entries|y]] eqn:Hr2.
    + simpl in *. rewrite Hsame in Hsame2.
      assert (∃ res, (match entries with
                | [] => raise x
                | (_, fields) :: _ =>
                    bind (lift_result (_stream_payload fields))
                      (λ stored, if py_eq stored (JObj (_event_payload e)) then ret tt else raise x)
                end) (mkDelivery ev rows_d r2) = (mkDelivery ev rows_d r2, res)
              ∧ match res with Ok _ => e_sequence e ≤ k | Err z => is_redis_error z = true end)
        as (res & Hres & Hpost).
      { destruct entries as [|[id' fields] entries']; [by eexists|].
        destruct (xrange_held _ _ _ _ (id', fields) Hr2 ltac:(left)) as [Hid Hheld].
        rewrite Hsame in Hheld.
        destruct (copied_entry _ _ _ _ _ _ _ _ (e_sequence e) 0 Hcp Hheld Hid ltac:(lia))
          as (e2 & He2 & Hseq & [= _ ->]).
        rewrite bind_lift. simpl. pose proof (cp_range _ _ _ _ _ _ _ Hcp e2 He2).
        destruct (py_eq _ _); (eexists; split; [reflexivity|simpl]); [lia|done]. }
      do 4 eexists. split; [exact Hres|]. rewrite Hsame2. split; [exact Hcp|]. split; [lia|].
      split; [by auto|]. by destruct res.
    + simpl in *. do 4 eexists. split; [done|]. rewrite Hsame2, Hsame. split; [exact Hcp|].
      split; [lia|]. split; [by auto|]. by eapply xrange_error.
  - destruct Hlost as [Hsame|Hr1].
    + do 4 eexists. split; [done|]. rewrite Hsame. split; [exact Hcp|]. split; [lia|]. split; [by auto|done].
    + destruct (Hadd r1 Hr1) as [Hcp' Hk]. do 4 eexists.
      split; [done|]. split; [exact Hcp'|]. split; [lia|]. split; [by auto|done].
Qed.
(** Inside the transaction: the row holds the cursor, and the stream holds the copy
    up to some [k] that is not below the cursor nor below [k0]: [l0], and then rows of
    the log. *)
Definition from_log (ev : EventTables) (n : list EventRecord) : Prop :=
  ∀ e, e ∈ n → e ∈ rows (events ev).
Definition holding h0 o b k0 l0 ev (d : Delivery) : Prop :=
  d_events d = ev
  ∧ ∃ k n, k0 ≤ k ∧ from_log ev n ∧ copied h0 o b k (l0 ++ n) ev (history d).
Definition in_tx h0 o b k0 l0 ev c (d : Delivery) : Prop :=
  d_events d = ev ∧ d_rows d !! target = Some (mkDeliveryRow c (Some o))
  ∧ ∃ k n, k0 ≤ k ∧ b ≤ c ≤ k ∧ from_log ev n ∧ copied h0 o b k (l0 ++ n) ev (history d).
Definition redis_failed h0 o b k0 l0 ev (x : exn) (d : Delivery) : Prop :=
  is_redis_error x = true ∧ holding h0 o b k0 l0 ev d.

Lemma in_tx_holding h0 o b k0 l0 ev c d : in_tx h0 o b k0 l0 ev c d → holding h0 o b k0 l0 ev d.
Proof. intros (Hev & _ & k & n & ? & _ & ? & ?). split; [done|]. by exists k, n. Qed.

Lemma copied_raise h0 o b k k' l ev h :
  copied h0 o b k l ev h → k ≤ k' ≤ Z.max b (event_sequence ev) →
  (∀ e, e ∈ rows (events ev) → k < e_sequence e → k' < e_sequence e) →
  copied h0 o b k' l ev h.
Proof.
  intros [Hlog Hh Hs Hr Hold Ho Hb Hm Hc] Hk Hnone. split; try done; try lia.
  - intros e He. specialize (Hr e He). lia.
  - intros e He Hrange. apply Hc; [done|]. split; [lia|].
    destruct (decide (e_sequence e ≤ k)); [done|]. specialize (Hnone e He). lia.
Qed.

(** The cursor moves over sequence numbers no row has, or only back to the copy. *)
Lemma save_state_spec h0 o b k0 l0 ev c c' :
  c ≤ c' ≤ event_sequence ev → (∀ e, e ∈ rows (events ev) → c < e_sequence e → c' < e_sequence e) →
  triple (in_tx h0 o b k0 l0 ev c) (_save_state target c' o)
    (λ _, in_tx h0 o b k0 l0 ev c') (redis_failed h0 o b k0 l0 ev).
Proof.
  intros Hc Hnone. apply triple_modify. intros d (Hev & Hrow & k & n & Hk0 & Hk & Hn & Hcp).
  split; [done|]. split; [simpl; by rewrite lookup_alter_eq, Hrow|].
  exists (Z.max k c'), n. split; [lia|]. split; [lia|]. split; [done|].
  apply copied_raise with k; [done| |].
  - pose proof (cp_mark _ _ _ _ _ _ _ Hcp). lia.
  - intros e He Hlt. destruct (decide (c' ≤ k)); [lia|]. specialize (Hnone e He). lia.
Qed.

Lemma append_triple h0 o b k0 l0 ev c e :
  e ∈ rows (events ev) → c < e_sequence e →
  (∀ x, x ∈ rows (events ev) → c < e_sequence x → e_sequence e ≤ e_sequence x) →
  triple (in_tx h0 o b k0 l0 ev c) (_append maxlen o (_event_payload e))
    (λ _ d, in_tx h0 o b k0 l0 ev c d ∧
            ∃ k n, k0 ≤ k ∧ e_sequence e ≤ k ∧ from_log ev n
              ∧ copied h0 o b k (l0 ++ n) ev (history d))
    (redis_failed h0 o b k0 l0 ev).
Proof.
  intros He Hlt Hnone d (Hev & Hrow & k & n & Hk0 & Hk & Hn & Hcp). subst ev.
  destruct (append_spec h0 o b k (l0 ++ n) c d e Hcp He Hk Hlt Hnone)
    as (r' & res & k' & l' & -> & Hcp' & Hkk & Hl' & Hres).
  assert (∃ n', l' = l0 ++ n' ∧ from_log (d_events d) n') as (n' & -> & Hn').
  { destruct Hl' as [->| ->]; [by exists n|]. exists (n ++ [e]). split; [by rewrite app_assoc|].
    by intros x [Hx| ->%list_elem_of_singleton]%elem_of_app; [apply Hn|]. }
  destruct res as [u|x].
  - split; [split; [done|]; split; [done|]; exists k', n'; split_and!; by (lia || done)|].
    exists k', n'. split_and!; by (lia || done).
  - split; [done|]. split; [done|]. exists k', n'. split_and!; by (lia || done).
Qed.

Lemma deliver_row_spec h0 o b k0 l0 ev c e :
  log_ok ev → e ∈ rows (events ev) → c < e_sequence e →
  (∀ x, x ∈ rows (events ev) → c < e_sequence x → e_sequence e ≤ e_sequence x) →
  triple (in_tx h0 o b k0 l0 ev c) (deliver_row target maxlen o c e)
    (λ c' d, c' = e_sequence e ∧ in_tx h0 o b k0 l0 ev c' d) (redis_failed h0 o b k0 l0 ev).
Proof.
  intros Hlog He Hlt Hnone. pose proof (lo_range _ Hlog e He) as Hes. unfold deliver_row. cbv zeta.
  set (c1 := if c + 1 <? e_sequence e then e_sequence e - 1 else c).
  apply triple_bind with (λ _, in_tx h0 o b k0 l0 ev c1).
  { unfold c1. destruct (c + 1 <? e_sequence e) eqn:E; [|by apply triple_ret].
    apply Z.ltb_lt in E. apply save_state_spec; [lia|].
    intros x Hx Hc. specialize (Hnone x Hx Hc). lia. }
  assert (c ≤ c1 < e_sequence e) as Hc1.
  { unfold c1. destruct (Z.ltb_spec (c + 1) (e_sequence e)); lia. }
  intros _. eapply triple_bind; [apply (append_triple h0 o b k0 l0 ev c1 e); [done|lia|]|].
  { intros x Hx Hc. apply Hnone; [done|lia]. }
  intros []. apply triple_bind with (λ _, in_tx h0 o b k0 l0 ev (e_sequence e));
    [|intros []; by apply triple_ret].
  apply triple_modify. intros d [(Hev & Hrow & kk & nn & _ & Hb & _) (k & n & Hk0 & Hk & Hn & Hcp)].
  split; [done|]. split; [simpl; by rewrite lookup_alter_eq, Hrow|].
  exists k, n. split_and!; by (lia || done).
Qed.

Lemma deliver_batch_spec h0 o b k0 l0 ev batch c :
  log_ok ev → gapless ev c batch →
  triple (in_tx h0 o b k0 l0 ev c) (foldM (deliver_row target maxlen o) c batch)
    (λ c' d, c' = default c (e_sequence <$> last batch) ∧ in_tx h0 o b k0 l0 ev c' d)
    (redis_failed h0 o b k0 l0 ev).
Proof.
  intros Hlog. revert c. induction batch as [|e batch IH]; intros c Hgl; simpl.
  { by apply triple_ret. }
  pose proof (gl_rows _ _ _ Hgl e ltac:(left)) as [He Hlt].
  eapply triple_bind.
  - apply (deliver_row_spec h0 o b k0 l0 ev c e); [done..|]. intros x Hx Hc.
    destruct (decide (e_sequence e ≤ e_sequence x)) as [|Hgt]; [done|].
    assert (x ∈ e :: batch) as Hin by (apply (gl_none _ _ _ Hgl x e); [done|left|done|lia]).
    apply elem_of_cons in Hin as [->|Hin]; [done|].
    pose proof (gl_sorted _ _ _ Hgl) as Hs. apply StronglySorted_inv in Hs as [_ HF].
    rewrite Forall_forall in HF. specialize (HF x Hin). simpl in HF. lia.
  - intros c'. apply triple_pure. intros ->.
    eapply triple_weaken; [apply (IH (e_sequence e)); by eapply gapless_tail|done| |done].
    intros c' d [Hc' Hd]. split; [|done]. rewrite Hc'.
    destruct batch as [|y batch]; [done|]. rewrite last_cons_cons.
    destruct (last (y :: batch)) eqn:Hl; [done|]. by apply last_None in Hl.
Qed.
Lemma deliver_loop_spec h0 o b k0 l0 ev T fuel c :
  log_ok ev → T ≤ event_sequence ev → (Z.to_nat (T - c) ≤ fuel)%nat →
  triple (in_tx h0 o b k0 l0 ev c) (deliver_loop target maxlen fuel o T c)
    (λ fin d, fin = true ∧ in_tx h0 o b k0 l0 ev (Z.max c T) d) (redis_failed h0 o b k0 l0 ev).
Proof.
  intros Hlog HT. revert c. induction fuel as [|fuel IH]; intros c Hfuel; simpl.
  - destruct (Z.ltb_spec c T); [lia|]. simpl. apply triple_ret. intros d Hd.
    by replace (Z.max c T) with c by lia.
  - destruct (Z.ltb_spec c T) as [Hlt|]; simpl.
    2: { apply triple_ret. intros d Hd. by replace (Z.max c T) with c by lia. }
    apply triple_read. intros d0 Hd0. pose proof Hd0 as (Hev & _). subst ev.
    destruct (delivery_batch_gapless c T d0 Hlog) as (Hgl & Hmax & Hnil).
    set (batch := delivery_batch c T d0) in *.
    eapply triple_weaken with (P' := in_tx h0 o b k0 l0 (d_events d0) c);
      [| by intros s -> | by intros ?? Hq; apply Hq | by intros ?? Hq; apply Hq].
    destruct batch as [|e batch'] eqn:E.
    + eapply triple_bind; [apply (save_state_spec h0 o b k0 l0 (d_events d0) c T); [lia|auto]|].
      intros []. apply triple_ret. intros d Hd. by replace (Z.max c T) with T by lia.
    + eapply triple_bind; [by apply (deliver_batch_spec h0 o b k0 l0 (d_events d0) (e :: batch') c)|].
      intros c'. apply triple_pure. intros Hc'.
      destruct (last (e :: batch')) as [y|] eqn:Hl; [|by apply last_None in Hl].
      pose proof (last_Some_elem_of _ _ Hl) as Hy. simpl in Hc'. subst c'.
      pose proof (gl_rows _ _ _ Hgl y Hy) as [_ Hcy]. specialize (Hmax y Hy).
      replace (Z.max c T) with (Z.max (e_sequence y) T) by lia. apply IH. lia.
Qed.

(** A stream as some earlier version left it: ids in order, entries that are
    objects, or no JSON at all. *)
Definition legible (fields : StreamFields) : Prop :=
  match fields with
  | None | Some (Ok (JObj _)) => True
  | Some (Ok _) => False
  | Some (Err x) => is_value_error x = true
  end.
Record old_stream (h0 : list StreamEntry) : Prop := {
  os_sorted : StronglySorted (λ x y, id_lt x.1 y.1) h0;
  os_positive : ∀ x, x ∈ h0 → 0 ≤ x.1.1;
  os_legible : ∀ x, x ∈ h0 → legible x.2
}.

(** Where the copy starts: at the cursor [c0] an earlier version left, or later; on
    an empty stream before every event that is left. *)
Definition base_ok (h0 : list StreamEntry) (c0 : Z) (ev : EventTables) (b : Z) : Prop :=
  c0 ≤ b ∧ (h0 = [] → b ≤ Z.max c0 (event_sequence ev)
             ∧ ∀ e, e ∈ rows (events ev) → c0 < e_sequence e → b < e_sequence e).

Lemma head_asc_min {A} (f : A → Z) l x :
  head (order_by (le_asc f) l) = Some x → ∀ y, y ∈ l → f x ≤ f y.
Proof.
  intros Hx y Hy. pose proof (le_asc_sorted f l) as Hs. rewrite <- (order_by_elem (le_asc f)) in Hy.
  destruct (order_by (le_asc f) l) as [|z l']; [done|]. injection Hx as ->.
  apply StronglySorted_inv in Hs as [_ HF]. rewrite Forall_forall in HF.
  apply elem_of_cons in Hy as [->|Hy]; [done|by apply HF].
Qed.

Lemma last_id_max (h0 : list StreamEntry) x y :
  StronglySorted (λ x y, id_lt x.1 y.1) h0 → last h0 = Some x → y ∈ h0 → y.1.1 ≤ x.1.1.
Proof.
  intros Hs Hx Hy. apply last_Some in Hx as [h1 ->].
  apply elem_of_app in Hy as [Hy| ->%list_elem_of_singleton]; [|done].
  pose proof (StronglySorted_app_1_elem_of _ _ _ _ x Hs Hy ltac:(left)) as Hlt.
  destruct x as [[] ?], y as [[] ?]. unfold id_lt in Hlt. simpl in *. lia.
Qed.

(** A copy that has not begun: its base may still be chosen. *)
Lemma copied_nothing h0 o b ev :
  log_ok ev → (∀ x, x ∈ h0 → x.1.1 ≤ o + b) → 0 ≤ o → 0 ≤ b → copied h0 o b b [] ev h0.
Proof.
  intros Hlog Hold Ho Hb. split; try done; try lia.
  - by rewrite app_nil_r.
  - constructor.
  - by intros e ?%not_elem_of_nil.
Qed.

Definition bootstrapped h0 c0 l ev (co : Z * Z) (d : Delivery) : Prop :=
  ∃ b k, base_ok h0 c0 ev b ∧ b ≤ co.1 ≤ k ∧ copied h0 co.2 b k l ev (history d).

(** The entry the stream ends with says where the copy goes on. *)
Lemma bootstrap_entry h0 o b k c0 l ev h ms n f s :
  let x : StreamEntry := ((ms, n), f) in
  old_stream h0 → 0 ≤ c0 → base_ok h0 c0 ev b → copied h0 o b k l ev h → last h = Some x →
  (∀ e, x = entry_of o e → 1 ≤ e_sequence e → s = e_sequence e) →
  let co := if s <? 1 then (c0, ms) else (Z.max c0 s, Z.max 0 (ms - s)) in
  ∃ b' k', base_ok h0 c0 ev b' ∧ b' ≤ co.1 ≤ k' ∧ copied h0 co.2 b' k' l ev h.
Proof.
  intros x Hold Hc0 Hbase Hcp Hx Hs co. pose proof (cp_history _ _ _ _ _ _ _ Hcp) as Hh.
  pose proof (cp_log _ _ _ _ _ _ _ Hcp) as Hlog.
  destruct l as [|e l1 _] using rev_ind.
  - simpl in Hh. rewrite app_nil_r in Hh. subst h.
    assert (x ∈ h0) as Hin by by apply last_Some_elem_of.
    assert (0 ≤ ms) as Hpos by apply (os_positive _ Hold x Hin).
    assert (∀ y, y ∈ h0 → y.1.1 ≤ ms) as Hmax
      by (intros y Hy; by apply (last_id_max h0 x); [apply Hold| |]).
    assert (h0 ≠ []) as Hne by (intros ->; by apply not_elem_of_nil in Hin).
    exists co.1, co.1. split; [|split; [lia|]].
    + split; [|done]. unfold co. destruct (s <? 1); simpl; lia.
    + apply copied_nothing; [done| | |]; unfold co; destruct (Z.ltb_spec s 1); simpl; try lia.
      all: intros y Hy; specialize (Hmax y Hy); simpl in *; lia.
  - assert (x = entry_of o e) as Hxe.
    { subst h. rewrite map_app, app_assoc in Hx. simpl in Hx. rewrite last_snoc in Hx. congruence. }
    pose proof (cp_range _ _ _ _ _ _ _ Hcp e ltac:(apply elem_of_app; right; left)) as Hr.
    pose proof (cp_base _ _ _ _ _ _ _ Hcp). pose proof (cp_offset _ _ _ _ _ _ _ Hcp).
    assert (s = e_sequence e) as -> by (apply Hs; [done|lia]).
    assert (co = (e_sequence e, o)) as ->.
    { injection Hxe as -> _ _. unfold co. destruct (Z.ltb_spec (e_sequence e) 1); [lia|]. destruct Hbase as [Hb _].
      simpl. f_equal; lia. }
    exists b, k. split; [done|]. split; [simpl; lia|done].
Qed.

(** An empty stream: everything that is left of the log. *)
Lemma bootstrap_empty h0 o b k c0 l ev d :
  d_events d = ev → 0 ≤ c0 → copied h0 o b k l ev (history d) → last (history d) = None →
  bootstrapped h0 c0 l ev
    (match first_sequence d with
     | Some f => if f =? 0 then c0 else Z.max c0 (f - 1)
     | None => c0
     end, 0) d.
Proof.
  intros Hev Hc0 Hcp Hl%last_None. pose proof (cp_history _ _ _ _ _ _ _ Hcp) as Hh.
  pose proof (cp_log _ _ _ _ _ _ _ Hcp) as Hlog.
  rewrite Hl in Hh. symmetry in Hh. apply app_nil in Hh as [-> Hm%map_eq_nil]. subst l.
  set (c := match first_sequence d with Some f => _ | None => c0 end).
  assert (c0 ≤ c) as Hc by (unfold c; destruct (first_sequence d) as [f|]; [destruct (f =? 0)|]; lia).
  exists c, c. split; [|split; [simpl; lia|]].
  - split; [done|]. intros _. unfold c, first_sequence. rewrite Hev.
    destruct (head (order_by (le_asc e_sequence) (rows (events ev)))) as [e1|] eqn:Hh; simpl.
    + pose proof (head_asc_min _ _ _ Hh) as Hmin.
      assert (e1 ∈ rows (events ev)) as He1.
      { apply (order_by_elem (le_asc e_sequence)). by apply head_Some_elem_of. }
      pose proof (lo_range _ Hlog e1 He1). split; [destruct (e_sequence e1 =? 0); lia|].
      intros e He Hlt. specialize (Hmin e He). destruct (e_sequence e1 =? 0); lia.
    + split; [lia|]. intros e He _.
       pose proof (order_by_elem (le_asc e_sequence) (rows (events ev)) e) as Hin.
      destruct (order_by (le_asc e_sequence) (rows (events ev))); [|done].
      apply Hin, elem_of_nil in He. done.
  - rewrite Hl. apply copied_nothing; [done| |simpl; lia|lia]. by intros x ?%not_elem_of_nil.
Qed.

Lemma py_int_error j x : py_int j = Err x → swallowed x = true.
Proof.
  unfold swallowed. destruct j; simpl; try (intros [= <-]; by rewrite orb_true_r); [done..|].
  unfold py_int_text. destruct (int_of_text s); [done|]. intros [= <-]. simpl. by rewrite orb_true_r.
Qed.

Lemma copied_legible h0 o b k l ev h x :
  old_stream h0 → copied h0 o b k l ev h → x ∈ h → legible x.2.
Proof.
  intros Hold Hcp Hx. rewrite (cp_history _ _ _ _ _ _ _ Hcp) in Hx.
  apply elem_of_app in Hx as [Hx|(e & -> & _)%list_elem_of_fmap]; [|done].
  by apply os_legible with h0.
Qed.

Lemma bootstrap_spec h0 o b k c0 l ev rows_d r :
  old_stream h0 → 0 ≤ c0 → base_ok h0 c0 ev b → copied h0 o b k l ev (stream_history r) →
  triple (λ d, d = mkDelivery ev rows_d r) (_bootstrap c0)
    (λ co d, d_events d = ev ∧ d_rows d = rows_d ∧ bootstrapped h0 c0 l ev co d)
    (λ x d, swallowed x = true ∧ d_events d = ev ∧ history d = stream_history r).
Proof.
  intros Hold Hc0 Hbase Hcp d ->. unfold _bootstrap, bind at 1. rewrite zoom_eq. simpl.
  pose proof (xrevrange_reads r) as Hsame. destruct (xrevrange r) as [r1 [entries|x]] eqn:Hr; simpl in *.
  2: { split; [|done]. unfold swallowed. by rewrite (xrevrange_error _ _ _ Hr). }
  pose proof (xrevrange_last _ _ _ Hr) as Hentries. rewrite <- Hsame in Hcp.
  destruct entries as [|[[ms n] fields] entries'].
  { unfold ret. split; [done|]. split; [done|].
    apply (bootstrap_empty h0 o b k c0 l ev (mkDelivery ev rows_d r1)); [done..|]. simpl.
    rewrite Hsame. by destruct (last (stream_history r)). }
  assert (last (stream_history r1) = Some ((ms, n), fields)) as Hlast.
  { rewrite Hsame. destruct (last (stream_history r)) as [y|]; simpl in Hentries; [|done].
    by injection Hentries as <- _. }
  pose proof (copied_legible _ _ _ _ _ _ _ _ Hold Hcp (last_Some_elem_of _ _ Hlast)) as Hleg.
  assert (∀ s, (∀ e, fields = (entry_of o e).2 → 1 ≤ e_sequence e → s = e_sequence e) →
    bootstrapped h0 c0 l ev (if s <? 1 then (c0, ms) else (Z.max c0 s, Z.max 0 (ms - s)))
      (mkDelivery ev rows_d r1)) as Hboot.
  { intros s Hs. apply (bootstrap_entry h0 o b k c0 l ev _ ms n fields s); try done.
    intros e [= _ _ ->]. by apply Hs. }
  clear Hr Hentries. destruct fields as [[[| | | | |p]|x]|]; simpl in Hleg; try done.
  - unfold bind at 1. cbn [_stream_payload result_bind as_dict lift_result].
    rewrite bind_lift. destruct (py_int _) as [s|x] eqn:Hs; [|by split; [eapply py_int_error|]].
    assert (∃ s', (match obj_get p "id" with
         | Some id => if (s <? 1) && py_truthy id
                      then gets (sequence_of_id (py_str id)) else ret s
         | None => ret s
         end) (mkDelivery ev rows_d r1) = (mkDelivery ev rows_d r1, Ok s') ∧ (1 ≤ s → s' = s))
      as (s' & Hs' & Hss).
    { destruct (obj_get p "id") as [id|]; [|by exists s]. destruct (Z.ltb_spec s 1); simpl.
      - destruct (py_truthy id); eexists; (split; [reflexivity|lia]).
      - by exists s. }
    unfold bind. rewrite Hs'. simpl. split; [done|]. split; [done|]. apply Hboot.
    intros e [= ->] He. rewrite Hss.
    + cbn in Hs. destruct (Z.eqb_spec (e_sequence e) 0); [lia|]. cbn in Hs. congruence.
    + cbn in Hs. destruct (Z.eqb_spec (e_sequence e) 0); [lia|]. cbn in Hs. injection Hs. lia.
  - split; [|done]. unfold swallowed. rewrite Hleg. by rewrite orb_true_r.
  - split; [done|]. split; [done|]. by apply (Hboot 0).
Qed.

(** The committed state: the copy, and the row that knows how far it came. *)
Definition row_ok (rows_d : gmap string DeliveryRow) (c0 o b k : Z) : Prop :=
  match rows_d !! target with
  | None => c0 = 0
  | Some row => match stream_id_offset row with
                | None => delivered_sequence row = c0
                | Some o' => o' = o ∧ b ≤ delivered_sequence row ≤ k
                end
  end.
Record Copy (h0 : list StreamEntry) (c0 o b k : Z) (l : list EventRecord) (d : Delivery) : Prop := {
  co_copied : copied h0 o b k l (d_events d) (history d);
  co_base : base_ok h0 c0 (d_events d) b;
  co_row : row_ok (d_rows d) c0 o b k
}.

Lemma row_ok_mono rows_d c0 o b k k' : row_ok rows_d c0 o b k → k ≤ k' → row_ok rows_d c0 o b k'.
Proof.
  unfold row_ok. destruct (rows_d !! target) as [[c [o'|]]|]; [|done..]. simpl.
  intros (? & ? & ?) ?. split_and!; by (lia || done).
Qed.

(** A rolled back transaction keeps the row, the stream keeps the entries. *)
Definition aborted h0 c0 l (d0 : Delivery) (r' : redis) : Prop :=
  ∃ o b k n, from_log (d_events d0) n
    ∧ Copy h0 c0 o b k (l ++ n) (mkDelivery (d_events d0) (d_rows d0) r').

Lemma holding_aborted h0 c0 o b k0 l d0 d :
  holding h0 o b k0 l (d_events d0) d → base_ok h0 c0 (d_events d0) b →
  row_ok (d_rows d0) c0 o b k0 → aborted h0 c0 l d0 (d_redis d).
Proof.
  intros (_ & k & n & Hk & Hn & Hcp) Hbase Hrow. exists o, b, k, n. split; [done|].
  split; [done|done|]. by apply row_ok_mono with k0.
Qed.

Lemma deliver_start_spec h0 c0 o b k l d0 :
  old_stream h0 → 0 ≤ c0 → Copy h0 c0 o b k l d0 →
  triple (λ d, d = d0) (deliver_start target)
    (λ co d, ∃ b' k0, in_tx h0 co.2 b' k0 l (d_events d0) co.1 d
       ∧ base_ok h0 c0 (d_events d0) b' ∧ row_ok (d_rows d0) c0 co.2 b' k0)
    (λ x d, swallowed x = true ∧ d_events d = d_events d0 ∧ history d = history d0).
Proof.
  intros Hold Hc0 [Hcp Hbase Hrow] d ->. destruct d0 as [ev rows_d r]. simpl in *.
  assert (∀ c, row_ok rows_d c0 o b k → (rows_d !! target = None ∨ rows_d !! target = Some (mkDeliveryRow c None)) →
    ∀ o' b' k', row_ok rows_d c0 o' b' k') as Hfree.
  { intros c Hr [E|E] o' b' k'; unfold row_ok in *; by rewrite E in *. }
  assert (∀ rows1, rows1 !! target = Some (mkDeliveryRow c0 None) →
    (rows_d !! target = None ∨ rows_d !! target = Some (mkDeliveryRow c0 None)) →
    triple (λ d, d = mkDelivery ev rows1 r)
      (let* (cursor, offset) := _bootstrap c0 in
       do* _save_state target cursor offset in ret (cursor, offset))
      (λ co d, ∃ b' k0, in_tx h0 co.2 b' k0 l ev co.1 d
         ∧ base_ok h0 c0 ev b' ∧ row_ok rows_d c0 co.2 b' k0)
      (λ x d, swallowed x = true ∧ d_events d = ev ∧ history d = stream_history r)) as Hboot.
  { intros rows1 Hr1 Hnone. eapply triple_bind;
      [by apply (bootstrap_spec h0 o b k c0 l ev rows1 r)|]. intros [c' o'].
    apply triple_bind with (λ _ d, ∃ b' k0, in_tx h0 o' b' k0 l ev c' d
         ∧ base_ok h0 c0 ev b' ∧ row_ok rows_d c0 o' b' k0); [|intros []; by apply triple_ret].
    apply triple_modify. intros d (Hev & Hrows & b' & k' & Hb' & Hc' & Hcp').
    exists b', k'. split; [|split; [done|by apply (Hfree c0)]].
    split; [done|]. split; [simpl; by rewrite lookup_alter_eq, Hrows, Hr1|].
    simpl in Hc'. exists k', []. rewrite app_nil_r. split_and!; try done; try lia; by intros ? ?%not_elem_of_nil. }
  unfold deliver_start, insert_or_ignore, modify, bind at 1. cbv beta iota. simpl.
  unfold bind at 1, read_state. simpl. destruct (rows_d !! target) as [[c [o1|]]|] eqn:E; simpl.
  - rewrite E. simpl. unfold row_ok in Hrow. rewrite E in Hrow. simpl in Hrow.
    destruct Hrow as [-> Hc]. exists b, k. split; [|split; [done|unfold row_ok; by rewrite E]].
    split; [done|]. split; [done|]. exists k, []. rewrite app_nil_r.
    split_and!; try done; try lia. by intros ? ?%not_elem_of_nil.
  - rewrite E. simpl. unfold row_ok in Hrow. rewrite E in Hrow. simpl in Hrow. subst c.
    apply (Hboot rows_d); auto.
  - rewrite lookup_insert_eq. simpl. unfold row_ok in Hrow. rewrite E in Hrow. subst c0.
    apply (Hboot (<[target := mkDeliveryRow 0 None]> rows_d)); [by rewrite lookup_insert_eq|by left|done].
Qed.

(** One call: an exception leaves the tables as they were. *)
Lemma deliver_through_run h0 c0 o b k l T d0 :
  old_stream h0 → 0 ≤ c0 → Copy h0 c0 o b k l d0 → T ≤ event_sequence (d_events d0) →
  triple (λ d, d = d0) (deliver_through target maxlen commit_error T)
    (λ fin d, fin = true ∧ d_events d = d_events d0 ∧
       ∃ o' b' k' c' n, Copy h0 c0 o' b' k' (l ++ n) d ∧ from_log (d_events d0) n
         ∧ d_rows d !! target = Some (mkDeliveryRow c' (Some o')) ∧ T ≤ c' ≤ k')
    (λ x d, (swallowed x = true ∨ ∃ d', commit_error d' = Some x)
       ∧ d_events d = d_events d0 ∧ d_rows d = d_rows d0 ∧ aborted h0 c0 l d0 (d_redis d)).
Proof.
  intros Hold Hc0 Hcopy HT. pose proof (cp_log _ _ _ _ _ _ _ (co_copied _ _ _ _ _ _ _ Hcopy)) as Hlog.
  assert (triple (λ d, d = d0)
    (let* (cursor, offset) := deliver_start target in
     deliver_loop target maxlen (Z.to_nat (T - cursor)) offset T cursor)
    (λ fin d, fin = true ∧ ∃ o' b' k0 c', in_tx h0 o' b' k0 l (d_events d0) (Z.max c' T) d
       ∧ base_ok h0 c0 (d_events d0) b' ∧ row_ok (d_rows d0) c0 o' b' k0)
    (λ x d, swallowed x = true ∧ aborted h0 c0 l d0 (d_redis d))) as Hbody.
  { eapply triple_bind.
    - eapply triple_weaken; [by apply (deliver_start_spec h0 c0 o b k l d0)|done|by intros ?? Hq; apply Hq|].
      intros x d (Hx & Hev & Hh). split; [done|]. exists o, b, k, []. rewrite app_nil_r.
      split; [by intros ? ?%not_elem_of_nil|]. destruct Hcopy as [Hcp Hb Hr].
      split; [simpl; by rewrite Hh|done|done].
    - intros [c' o'] d (b' & k0 & Htx & Hbase & Hrow). simpl in *.
      pose proof (deliver_loop_spec h0 o' b' k0 l (d_events d0) T (Z.to_nat (T - c')) c'
                    Hlog HT ltac:(lia) d Htx) as Hloop.
      destruct (deliver_loop _ _ _ _ _ _ d) as [d' [fin|x]].
      + destruct Hloop as [-> Hd']. split; [done|]. by exists o', b', k0, c'.
      + destruct Hloop as [Hx Hd']. split; [unfold swallowed; by rewrite Hx|].
        by apply (holding_aborted h0 c0 o' b' k0). }
  intros d ->. specialize (Hbody d0 eq_refl). unfold deliver_through, db_transaction.
  destruct (bind _ _ d0) as [d' [fin|x]]; [|by destruct Hbody as [Hx Ha]; split_and!; [left|..]].
  destruct Hbody as (-> & o' & b' & k0 & c' & Htx & Hbase & Hrow).
  destruct (commit_error d') as [x|] eqn:Hcommit.
  - split; [right; eauto|]. split_and!; [done..|]. simpl.
    apply (holding_aborted h0 c0 o' b' k0); [by eapply in_tx_holding|done|done].
  - split; [done|]. destruct Htx as (Hev & Hr & k' & n & Hk0 & Hk' & Hn & Hcp). split; [done|].
    exists o', b', k', (Z.max c' T), n. split; [|split_and!; [done|done|lia|lia]].
    split; [by rewrite Hev|by rewrite Hev|]. unfold row_ok. rewrite Hr. simpl. split; [done|lia].
Qed.

(** ** The copy over time *)

Lemma copied_log h0 o b k l ev ev' h :
  copied h0 o b k l ev h → log_ok ev' → event_sequence ev ≤ event_sequence ev' →
  (∀ e, e ∈ rows (events ev') → e ∈ rows (events ev) ∨ event_sequence ev < e_sequence e) →
  copied h0 o b k l ev' h.
Proof.
  intros [Hlog Hh Hs Hr Hold Ho Hb Hm Hc] Hlog' Hle Hnew. split; try done; try lia.
  intros e He Hrange. destruct (Hnew e He) as [He'|]; [by apply Hc|lia].
Qed.

Lemma base_ok_log h0 c0 b ev ev' :
  base_ok h0 c0 ev b → event_sequence ev ≤ event_sequence ev' →
  (∀ e, e ∈ rows (events ev') → e ∈ rows (events ev) ∨ event_sequence ev < e_sequence e) →
  base_ok h0 c0 ev' b.
Proof.
  intros [Hb Hfresh] Hle Hnew. split; [done|]. intros Hnil. destruct (Hfresh Hnil) as [Hmax Hall].
  split; [lia|]. intros e He Hlt. destruct (Hnew e He) as [He'|]; [by apply Hall|lia].
Qed.

(** A log operation adds rows above the counter only. *)
Lemma log_step op ev :
  log_ok ev → let ev' := (run_log [op] ev).1 in
  log_ok ev' ∧ event_sequence ev ≤ event_sequence ev'
  ∧ ∀ e, e ∈ rows (events ev') → e ∈ rows (events ev) ∨ event_sequence ev < e_sequence e.
Proof.
  intros Hok ev'. split; [by apply run_log_spec|]. unfold ev'. destruct op as [e|hb|p]; simpl.
  - destruct (persist_event_run e ev Hok) as [(Hnew & c & -> & _)|[_ ->]]; simpl; [|by auto with lia].
    split; [lia|]. intros x [->|Hx]%elem_of_rows_insert; [right; simpl; lia|by left|done].
  - split; [lia|by auto].
  - split; [lia|]. intros x [i [Hi _]%lookup_delete_rows]%elem_of_rows. left.
    apply elem_of_rows. eauto.
Qed.

(** What happens to the three parties: the log is written, read and cleaned up, other
    streams' rows move, the server changes its state, and some process delivers. *)
Inductive dstep : Delivery → Delivery → Prop :=
| step_log op d : dstep d (mkDelivery (run_log [op] (d_events d)).1 (d_rows d) (d_redis d))
| step_row rows' d : rows' !! target = d_rows d !! target →
    dstep d (mkDelivery (d_events d) rows' (d_redis d))
| step_redis r' d : stream_history r' = history d → dstep d (mkDelivery (d_events d) (d_rows d) r')
| step_deliver T d : T ≤ event_sequence (d_events d) →
    dstep d (deliver_through target maxlen commit_error T d).1.

(** The specification: an append-only list of rows of the log, in its order. *)
Inductive copy_step : EventTables * list EventRecord → EventTables * list EventRecord → Prop :=
| copy_log op ev l : copy_step (ev, l) ((run_log [op] ev).1, l)
| copy_rows ev l n : from_log ev n →
    StronglySorted (λ x y, e_sequence x < e_sequence y) (l ++ n) → copy_step (ev, l) (ev, l ++ n).

Lemma copy_stay ev l : StronglySorted (λ x y, e_sequence x < e_sequence y) l → copy_step (ev, l) (ev, l).
Proof.
  intros Hs. rewrite <- (app_nil_r l) at 2. apply copy_rows; [by intros e ?%not_elem_of_nil|].
  by rewrite app_nil_r.
Qed.

Lemma dstep_simulates h0 c0 o b k l d d' :
  old_stream h0 → 0 ≤ c0 → Copy h0 c0 o b k l d → dstep d d' →
  ∃ o' b' k' l', Copy h0 c0 o' b' k' l' d' ∧ copy_step (d_events d, l) (d_events d', l').
Proof.
  intros Hold Hc0 Hcopy Hstep. pose proof (cp_sorted _ _ _ _ _ _ _ (co_copied _ _ _ _ _ _ _ Hcopy)) as Hs.
  destruct Hstep as [op d|rows' d Hrow|r' d Hr|T d HT].
  - pose proof (cp_log _ _ _ _ _ _ _ (co_copied _ _ _ _ _ _ _ Hcopy)) as Hlog.
    destruct (log_step op (d_events d) Hlog) as (Hlog' & Hle & Hnew). destruct Hcopy as [Hcp Hb Hrow].
    exists o, b, k, l. split; [|constructor].
    split; [by eapply copied_log|by eapply base_ok_log|done].
  - destruct Hcopy as [Hcp Hb Hr]. exists o, b, k, l. split; [|by apply copy_stay].
    split; [done|done|]. unfold row_ok in *. simpl. by rewrite Hrow.
  - destruct Hcopy as [Hcp Hb Hrow]. exists o, b, k, l. split; [|by apply copy_stay].
    split; [simpl; by rewrite Hr|done|done].
  - pose proof (deliver_through_run h0 c0 o b k l T d Hold Hc0 Hcopy HT d eq_refl) as Hrun.
    destruct (deliver_through _ _ _ T d) as [d' [fin|x]]; simpl.
    + destruct Hrun as (_ & Hev & o' & b' & k' & c' & n & Hcopy' & Hn & _).
      exists o', b', k', (l ++ n). split; [done|]. rewrite Hev. apply copy_rows; [done|].
      apply Hcopy'.
    + destruct Hrun as (_ & Hev & Hrows & o' & b' & k' & n & Hn & Hcopy').
      exists o', b', k', (l ++ n). destruct d' as [ev' rows' r']. simpl in *. subst ev' rows'.
      split; [done|]. apply copy_rows; [done|]. apply Hcopy'.
Qed.

(** The cursor a version without offsets left. *)
Definition legacy_cursor (c0 : Z) (d : Delivery) : Prop :=
  0 ≤ c0 ∧ match d_rows d !! target with
           | None => c0 = 0
           | Some row => row = mkDeliveryRow c0 None
           end.

Lemma copy_start c0 d :
  log_ok (d_events d) → old_stream (history d) → legacy_cursor c0 d →
  ∃ o, Copy (history d) c0 o c0 c0 [] d.
Proof.
  intros Hlog Hold [Hc0 Hrow]. exists (foldr (λ x, Z.max x.1.1) 0 (history d)).
  assert (∀ h : list StreamEntry, 0 ≤ foldr (λ x, Z.max x.1.1) 0 h ∧
            ∀ x, x ∈ h → x.1.1 ≤ foldr (λ x, Z.max x.1.1) 0 h) as Hmax.
  { intros h. induction h as [|y h [IH1 IH2]]; simpl; [split; [lia|by intros ? ?%not_elem_of_nil]|].
    split; [lia|]. intros x [->|Hx]%elem_of_cons; [lia|]. specialize (IH2 x Hx). lia. }
  destruct (Hmax (history d)) as [Hpos Hle]. split.
  - apply copied_nothing; [done| |done|done]. intros x Hx. specialize (Hle x Hx). lia.
  - split; [lia|]. intros _. split; [lia|done].
  - unfold row_ok. destruct (d_rows d !! target) as [row|]; [by subst row|done].
Qed.

Lemma append_stream_run h0 c0 o b k l is_sqlalchemy_error p e d1 :
  (∀ d x, commit_error d = Some x → is_sqlalchemy_error x = true) →
  old_stream h0 → 0 ≤ c0 → Copy h0 c0 o b k l d1 → e_sequence e ≤ event_sequence (d_events d1) →
  ∃ d2, _append_stream target maxlen commit_error is_sqlalchemy_error (_event_payload e) (mkMirror _ p d1)
      = (mkMirror _ p d2, Ok tt)
    ∧ d_events d2 = d_events d1 ∧ ∃ o' b' k' l', Copy h0 c0 o' b' k' l' d2.
Proof.
  intros Hsql Hold Hc0 Hcopy Hle.
  pose proof (deliver_through_run h0 c0 o b k l (e_sequence e) d1 Hold Hc0 Hcopy Hle d1 eq_refl) as Hrun.
  unfold _append_stream, try_catch.
  change (payload_sequence (_event_payload e)) with (Ok (e_sequence e)).
  rewrite bind_lift. unfold bind. rewrite zoom_eq. simpl.
  destruct (deliver_through _ _ _ _ d1) as [d2 [fin|x]]; simpl.
  - destruct Hrun as (_ & Hev2 & o' & b' & k' & c' & n & Hcopy' & _).
    exists d2. split; [done|]. split; [done|]. by exists o', b', k', (l ++ n).
  - destruct Hrun as (Hx & Hev2 & Hrows & o' & b' & k' & n & _ & Hcopy').
    exists d2. split.
    + destruct Hx as [->|[d' Hd']]; [done|]. by rewrite (Hsql _ _ Hd'), orb_true_r.
    + split; [done|]. exists o', b', k', (l ++ n). destruct d2. simpl in *. by subst.
Qed.

Lemma copy_emitted h0 c0 o b k l d ev e :
  Copy h0 c0 o b k l d → log_ok ev →
  events ev = <[e_id e := e]> (events (d_events d)) → event_sequence ev = e_sequence e →
  e_sequence e = event_sequence (d_events d) + 1 →
  Copy h0 c0 o b k l (mkDelivery ev (d_rows d) (d_redis d)).
Proof.
  intros [Hcp Hb Hrow] Hlog Hev Hes Hseq.
  assert (∀ x, x ∈ rows (events ev) →
            x ∈ rows (events (d_events d)) ∨ event_sequence (d_events d) < e_sequence x) as Hnew.
  { intros x. rewrite Hev. intros [k1 Hx]%elem_of_rows. destruct (decide (k1 = e_id e)) as [->|Hne].
    - rewrite lookup_insert_eq in Hx. injection Hx as <-. right. lia.
    - rewrite lookup_insert_ne in Hx by done. left. apply elem_of_rows. by exists k1. }
  split; simpl; [|eapply base_ok_log; [exact Hb|lia|done]|done].
  eapply copied_log; [exact Hcp|done|lia|done].
Qed.

Lemma emit_mirrored_run `{Env} event_channel is_sqlalchemy_error h0 c0 o b k l event_type a m :
  (∀ d x, commit_error d = Some x → is_sqlalchemy_error x = true) →
  old_stream h0 → 0 ≤ c0 → Copy h0 c0 o b k l (mi_delivery m) →
  event_id_fresh (view mirror_bus_lens m) →
  ∃ m' e, emit_mirrored target event_channel maxlen commit_error is_sqlalchemy_error event_type a m
      = (m', Ok e)
    ∧ emit event_type a (view mirror_bus_lens m) = (view mirror_bus_lens m', Ok e)
    ∧ ∃ o' b' k' l', Copy h0 c0 o' b' k' l' (mi_delivery m').
Proof.
  intros Hsql Hold Hc0 Hcopy Hfresh.
  pose proof (cp_log _ _ _ _ _ _ _ (co_copied _ _ _ _ _ _ _ Hcopy)) as Hlog.
  destruct (emit_run event_type a (view mirror_bus_lens m) Hlog Hfresh)
    as (bus & e & Hemit & _ & _ & _ & _ & _ & Hseq & _ & _ & Hev & Hes & Hlog' & _).
  set (d1 := mkDelivery (bus_events bus) (d_rows (mi_delivery m)) (d_redis (mi_delivery m))).
  assert (Copy h0 c0 o b k l d1) as Hcopy1 by by eapply copy_emitted.
  unfold emit_mirrored. rewrite (bind_zoom _ _ _ _ _ _ Hemit). cbv zeta.
  change (put mirror_bus_lens bus m) with (mkMirror _ (bus_process bus) d1).
  destruct (append_stream_run h0 c0 o b k l is_sqlalchemy_error (bus_process bus) e d1 Hsql Hold Hc0
              Hcopy1 ltac:(simpl; lia)) as (d2 & Happ & Hev2 & o2 & b2 & k2 & l2 & Hcopy2).
  unfold bind at 1. rewrite Happ. unfold bind, _publish, try_catch. rewrite zoom_eq. simpl.
  pose proof (publish_keeps event_channel (JObj (_event_payload e)) (d_redis d2)) as Hkeep.
  destruct (publish _ _ (d_redis d2)) as [r3 res] eqn:Hpub. simpl in *.
  exists (mkMirror _ (bus_process bus) (mkDelivery (d_events d2) (d_rows d2) r3)), e. split.
  { destruct res as [[]|x]; [done|]. by rewrite (publish_error _ _ _ _ _ Hpub). }
  simpl in Hemit. simpl. split; [rewrite Hemit, Hev2; by destruct bus|].
  exists o2, b2, k2, l2. destruct Hcopy2 as [Hcp Hb Hr]. split; [simpl; by rewrite Hkeep|done|done].
Qed.

Lemma steps_copy c0 d d' :
  log_ok (d_events d) → old_stream (history d) → legacy_cursor c0 d → rtc dstep d d' →
  ∃ o b k l, Copy (history d) c0 o b k l d' ∧ rtc copy_step (d_events d, []) (d_events d', l).
Proof.
  intros Hlog Hold Hleg Hsteps. destruct (copy_start c0 d Hlog Hold Hleg) as [o Hcopy].
  revert d' Hsteps. apply (rtc_ind_r (λ d1, ∃ o b k l, Copy (history d) c0 o b k l d1
                            ∧ rtc copy_step (d_events d, []) (d_events d1, l))).
  - exists o, c0, c0, []. split; [done|constructor].
  - intros d1 d2 _ Hd2 (o1 & b & k & l & Hc & Hspec).
    destruct (dstep_simulates _ _ _ _ _ _ _ _ Hold (proj1 Hleg) Hc Hd2) as (o2 & b2 & k2 & l2 & Hc2 & Hs2).
    exists o2, b2, k2, l2. split; [done|]. by eapply rtc_r.
Qed.
End deliver.

(** The loop needs no assumption on the log or on Redis to end. *)
Section termination.
Context `{Sqlite} `{RedisStream}.
Context (target : string) (maxlen : Z) (commit_error : Delivery → option exn).

Lemma deliver_row_cursor o c e d d' c' :
  deliver_row target maxlen o c e d = (d', Ok c') → c' = e_sequence e.
Proof.
  unfold deliver_row. cbv zeta. intros (d1 & [] & _ & H1)%bind_ok.
  apply bind_ok in H1 as (d2 & [] & _ & H2). apply bind_ok in H2 as (d3 & [] & _ & H3).
  by injection H3.
Qed.

Lemma deliver_batch_cursor o batch c d d' c' :
  foldM (deliver_row target maxlen o) c batch d = (d', Ok c') →
  c' = c ∨ ∃ e, e ∈ batch ∧ c' = e_sequence e.
Proof.
  revert c d. induction batch as [|e batch IH]; intros c d; simpl.
  - intros [= _ <-]. by left.
  - intros (d1 & c1 & H1 & H2)%bind_ok. apply deliver_row_cursor in H1 as ->. right.
    destruct (IH _ _ H2) as [->|(x & Hx & ->)]; [exists e; split; [left|done]|].
    exists x. split; [by right|done].
Qed.

Lemma deliver_batch_above o batch c d d' c' e :
  e ∈ batch → (∀ x, x ∈ batch → c < e_sequence x) →
  foldM (deliver_row target maxlen o) c batch d = (d', Ok c') → c < c'.
Proof.
  intros He Hall. destruct batch as [|x batch]; [by apply not_elem_of_nil in He|].
  simpl. intros (d1 & c1 & H1 & H2)%bind_ok. apply deliver_row_cursor in H1 as ->.
  pose proof (Hall x ltac:(left)). destruct (deliver_batch_cursor _ _ _ _ _ _ H2) as [->|(y & Hy & ->)];
    [done|]. apply Hall. by right.
Qed.

Lemma delivery_batch_above c T d e : e ∈ delivery_batch c T d → c < e_sequence e.
Proof.
  unfold delivery_batch. intros He%subseteq_take. rewrite order_by_elem in He.
  apply list_elem_of_filter in He as [He _]. apply andb_true_iff in He as [He _].
  by apply Z.ltb_lt.
Qed.
End termination.

(** ** Properties *)

(** C4: the stream is a copy of the log that loses and repeats nothing.  However calls of
    [deliver_through] (that fail anywhere: a command that is refused, whose reply is
    lost, a commit that fails), writes and cleanups of the log and changes of the
    server follow each other, the stream holds what was there before and then rows
    of the log as the append-only specification [copy_step] adds them: each once, in
    strictly increasing order of sequence, under an id that follows from it; and it
    holds every row of the log from the base [b] up to the committed cursor. *)
Theorem stream_refines_log `{Sqlite} `{RedisLaws} (target : string) (maxlen : Z)
    (commit_error : Delivery → option exn) (c0 : Z) (d d' : Delivery) :
  log_ok (d_events d) → old_stream (stream_history (d_redis d)) → legacy_cursor target c0 d →
  rtc (dstep target maxlen commit_error) d d' →
  ∃ o b l, stream_history (d_redis d') = stream_history (d_redis d) ++ map (entry_of o) l
    ∧ rtc copy_step (d_events d, []) (d_events d', l)
    ∧ StronglySorted (λ x y, e_sequence x < e_sequence y) l
    ∧ base_ok (stream_history (d_redis d)) c0 (d_events d') b
    ∧ (∀ row, d_rows d' !! target = Some row → is_Some (stream_id_offset row) →
        ∀ e, e ∈ rows (events (d_events d')) → b < e_sequence e ≤ delivered_sequence row → e ∈ l).
Proof.
  intros Hlog Hold Hleg Hsteps.
  destruct (steps_copy target maxlen commit_error c0 d d' Hlog Hold Hleg Hsteps)
    as (o & b & k & l & [Hcp Hbase Hrow] & Hspec).
  exists o, b, l. split_and!; [by apply Hcp|done|by apply Hcp|done|].
  intros row Hr [o' Ho'] e He Hrange. unfold row_ok in Hrow. rewrite Hr, Ho' in Hrow.
  destruct Hrow as [_ Hk]. apply (cp_complete _ _ _ _ _ _ _ Hcp); [done|lia].
Qed.

(** A call that returns has delivered everything up to its target: every row of the
    log above the base is on the stream and the cursor says so.  A call that raises
    has left both tables as they were, and raised what Redis, the last entry's text or
    the commit raised. *)
Theorem deliver_through_spec `{Sqlite} `{RedisLaws} (target : string) (maxlen : Z)
    (commit_error : Delivery → option exn) (c0 T : Z) (d0 d : Delivery) :
  log_ok (d_events d0) → old_stream (stream_history (d_redis d0)) → legacy_cursor target c0 d0 →
  rtc (dstep target maxlen commit_error) d0 d → T ≤ event_sequence (d_events d) →
  match deliver_through target maxlen commit_error T d with
  | (d', Ok fin) => fin = true ∧ d_events d' = d_events d
      ∧ ∃ o b row, base_ok (stream_history (d_redis d0)) c0 (d_events d) b
          ∧ d_rows d' !! target = Some row ∧ stream_id_offset row = Some o
          ∧ T ≤ delivered_sequence row
          ∧ ∀ e, e ∈ rows (events (d_events d)) → b < e_sequence e ≤ T →
              entry_of o e ∈ stream_history (d_redis d')
  | (d', Err x) => d_events d' = d_events d ∧ d_rows d' = d_rows d
      ∧ (swallowed x = true ∨ ∃ s, commit_error s = Some x)
  end.
Proof.
  intros Hlog Hold Hleg Hsteps HT.
  destruct (steps_copy target maxlen commit_error c0 d0 d Hlog Hold Hleg Hsteps)
    as (o & b & k & l & Hcopy & _).
  pose proof (deliver_through_run target maxlen commit_error _ _ _ _ _ _ T d Hold (proj1 Hleg)
                Hcopy HT d eq_refl) as Hrun.
  destruct (deliver_through _ _ _ T d) as [d' [fin|x]].
  - destruct Hrun as (-> & Hev & o' & b' & k' & c' & n & [Hcp Hbase _] & _ & Hrow & Hc).
    rewrite Hev in Hcp, Hbase. split_and!; [done|done|]. exists o', b', (mkDeliveryRow c' (Some o')).
    split_and!; [done|done|done|simpl; lia|]. intros e He Hrange.
    rewrite (cp_history _ _ _ _ _ _ _ Hcp). apply elem_of_app. right.
    apply list_elem_of_fmap. exists e. split; [done|].
    apply (cp_complete _ _ _ _ _ _ _ Hcp); [done|lia].
  - by destruct Hrun as (Hx & Hev & Hrows & _).
Qed.

(** Delivery terminates: whatever the log, the cursor and the server hold, the loop
    ends within as many passes as the cursor is below the target, so that more fuel
    changes nothing and a call never stops short. *)
Theorem deliver_loop_terminates `{Sqlite} `{RedisStream} (target : string) (maxlen o T c : Z)
    (fuel : nat) (d : Delivery) :
  (Z.to_nat (T - c) ≤ fuel)%nat →
  deliver_loop target maxlen fuel o T c d = deliver_loop target maxlen (Z.to_nat (T - c)) o T c d
  ∧ (deliver_loop target maxlen fuel o T c d).2 ≠ Ok false.
Proof.
  assert (∀ n m c d, (Z.to_nat (T - c) ≤ n)%nat → (Z.to_nat (T - c) ≤ m)%nat →
    deliver_loop target maxlen n o T c d = deliver_loop target maxlen m o T c d
    ∧ (deliver_loop target maxlen n o T c d).2 ≠ Ok false) as Hany.
  { clear. intros n. induction n as [|n IH]; intros m c d Hn Hm.
    - assert ((c <? T) = false) as Hc by (apply Z.ltb_ge; lia).
      destruct m; simpl; rewrite Hc; done.
    - destruct (Z.ltb_spec c T) as [Hlt|Hge].
      2: { apply Z.ltb_ge in Hge. destruct m; simpl; rewrite Hge; done. }
      destruct m as [|m]; [lia|]. pose proof Hlt as Hc%Z.ltb_lt.
      simpl. rewrite Hc. simpl. rewrite !bind_gets.
      destruct (delivery_batch c T d) as [|e batch] eqn:Hb; [done|].
      unfold bind. destruct (foldM _ c (e :: batch) d) as [d' [c'|x]] eqn:Hf; [|done].
      assert (c < c') as Hcc.
      { apply (deliver_batch_above target maxlen o (e :: batch) c d d' c' e); [left| |done].
        intros x Hx. rewrite <- Hb in Hx. by apply delivery_batch_above in Hx. }
      apply IH; lia. }
  intros Hfuel. by apply Hany.
Qed.

(** The mirror never fails an event: whatever Redis and the commit of the cursor do,
    [emit] returns the event the log has stored, as if there were no mirror, and the
    stream stays a copy of the log. *)
Theorem emit_survives_mirror `{Sqlite} `{Env} `{RedisLaws} (target event_channel : string) (maxlen : Z)
    (commit_error : Delivery → option exn) (is_sqlalchemy_error : exn → bool) (c0 : Z)
    (event_type : string) (a : EmitArgs) (d0 : Delivery) (m : Mirror) :
  (∀ d x, commit_error d = Some x → is_sqlalchemy_error x = true) →
  log_ok (d_events d0) → old_stream (stream_history (d_redis d0)) → legacy_cursor target c0 d0 →
  rtc (dstep target maxlen commit_error) d0 (mi_delivery m) →
  event_id_fresh (view mirror_bus_lens m) →
  ∃ m' e, emit_mirrored target event_channel maxlen commit_error is_sqlalchemy_error event_type a m
      = (m', Ok e)
    ∧ emit event_type a (view mirror_bus_lens m) = (view mirror_bus_lens m', Ok e)
    ∧ ∃ o l, stream_history (d_redis (mi_delivery m'))
        = stream_history (d_redis d0) ++ map (entry_of o) l
      ∧ StronglySorted (λ x y, e_sequence x < e_sequence y) l.
Proof.
  intros Hsql Hlog Hold Hleg Hsteps Hfresh.
  destruct (steps_copy target maxlen commit_error c0 d0 _ Hlog Hold Hleg Hsteps)
    as (o & b & k & l & Hcopy & _).
  destruct (emit_mirrored_run target maxlen commit_error event_channel is_sqlalchemy_error _ _ _ _ _ _
              event_type a m Hsql Hold (proj1 Hleg) Hcopy Hfresh)
    as (m' & e & Hrun & Hemit & o' & b' & k' & l' & [Hcp _ _]).
  exists m', e. split_and!; [done|done|]. exists o', l'. by split; apply Hcp.
Qed.

(** ** A server in memory

    It executes a number of commands and then stops answering; the reply of the last
    one is lost.  It holds as many entries as MAXLEN asks for. *)

Record MemRedis := mkMemRedis { mr_history : list StreamEntry; mr_trimmed : nat; mr_budget : nat }.

Definition connection_error : exn := OtherException "ConnectionError" "Connection refused".
Definition response_error : exn :=
  OtherException "ResponseError" "The ID specified in XADD is equal or smaller than the target stream top item".
Definition id_ltb (x y : stream_id) : bool := (x.1 <? y.1) || ((x.1 =? y.1) && (x.2 <? y.2)).

(** Run a command on a server that is up. *)
Definition mem_command {A} (f : MemRedis → MemRedis * result A) : M MemRedis A :=
  λ r, match mr_budget r with
       | O => (r, Err connection_error)
       | S n =>
           match f (mkMemRedis (mr_history r) (mr_trimmed r) n) with
           | (r', Ok a) => (r', match n with O => Err connection_error | S _ => Ok a end)
           | (r', Err e) => (r', Err e)
           end
       end.
Definition mem_xadd (p : Json) (id : stream_id) (n : Z) : M MemRedis unit :=
  mem_command (λ r,
    if forallb (λ x, id_ltb x.1 id) (mr_history r)
    then (mkMemRedis (mr_history r ++ [(id, Some (Ok p))])
            (Nat.max (mr_trimmed r) (S (length (mr_history r)) - Z.to_nat n)) (mr_budget r), Ok tt)
    else (r, Err response_error)).
Definition mem_xrange (id : stream_id) : M MemRedis (list StreamEntry) :=
  mem_command (λ r, (r, Ok (take 1 (filter (λ x, x.1 = id) (drop (mr_trimmed r) (mr_history r)))))).

Definition mem_redis : RedisStream := {|
  redis := MemRedis;
  stream_history := mr_history;
  xadd := mem_xadd;
  xrange := mem_xrange;
  xrevrange := mem_command (λ r, (r, Ok (option_list (last (mr_history r)))));
  publish := λ _ _, mem_command (λ r, (r, Ok tt));
  is_redis_error := λ e, bool_decide (e = connection_error) || bool_decide (e = response_error);
  is_response_error := λ e, bool_decide (e = response_error)
|}.

Lemma mem_command_reads {A} (g : MemRedis → A) r :
  mr_history (mem_command (λ r, (r, Ok (g r))) r).1 = mr_history r.
Proof. unfold mem_command. by destruct r as [h t [|n]]. Qed.
Lemma mem_command_error {A} (g : MemRedis → A) r r' e :
  mem_command (λ r, (r, Ok (g r))) r = (r', Err e) → e = connection_error.
Proof. unfold mem_command. destruct r as [h t [|[|n]]]; simpl; congruence. Qed.
Lemma mem_command_ok {A} (g : MemRedis → A) r r' a :
  mem_command (λ r, (r, Ok (g r))) r = (r', Ok a) →
  ∃ n, a = g (mkMemRedis (mr_history r) (mr_trimmed r) n).
Proof. unfold mem_command. destruct r as [h t [|[|n]]]; simpl; intros [= _ <-]. by exists (S n). Qed.

Lemma mem_xadd_cases p id n r r' res :
  mem_xadd p id n r = (r', res) →
  (res = Err connection_error ∧ mr_history r' = mr_history r)
  ∨ (res = Err response_error ∧ mr_history r' = mr_history r)
  ∨ ((res = Ok tt ∨ res = Err connection_error) ∧ @added mem_redis (id, Some (Ok p)) r r').
Proof.
  unfold mem_xadd, mem_command. destruct r as [h t [|b]]; simpl; [intros [= <- <-]; by left|].
  destruct (forallb (λ x, id_ltb x.1 id) h) eqn:Hall; intros [= <- <-]; right; [right|by left].
  split; [destruct b; auto|]. split; [done|]. intros x Hx%list_elem_of_In.
  rewrite forallb_forall in Hall. specialize (Hall x Hx). unfold id_ltb in Hall. unfold id_lt. simpl. lia.
Qed.

Lemma mem_redis_laws : @RedisLaws mem_redis.
Proof.
  split; simpl.
  - intros p id n r r' H. destruct (mem_xadd_cases _ _ _ _ _ _ H) as [[? _]|[[? _]|[_ ?]]]; done.
  - intros p id n r r' e H He. apply bool_decide_eq_true in He as ->.
    destruct (mem_xadd_cases _ _ _ _ _ _ H) as [[? _]|[[_ ?]|[[?|?] _]]]; done.
  - intros p id n r r' e H.
    destruct (mem_xadd_cases _ _ _ _ _ _ H) as [[[= ->] ?]|[[[= ->] ?]|[[?|[= ->]] ?]]]; auto; done.
  - intros id r. apply mem_command_reads.
  - intros id r r' l x Hl Hx. apply mem_command_ok in Hl as [n ->]. simpl in Hx.
    apply subseteq_take, list_elem_of_filter in Hx as [Hid Hx]. split; [done|].
    by apply subseteq_drop in Hx.
  - intros id r r' e H%mem_command_error. by subst e.
  - intros r. apply mem_command_reads.
  - intros r r' l Hl. by apply mem_command_ok in Hl as [n ->].
  - intros r r' e H%mem_command_error. by subst e.
  - intros c j r. apply (mem_command_reads (λ _, tt)).
  - intros c j r r' e H%mem_command_error. by subst e.
  - intros e ->. by rewrite orb_true_r.
Qed.

(** A log of two events, its second delivery interrupted after the entry was added;
    the server comes back and the call is repeated. *)
Definition crash_log : EventTables := @sample_log sqlite_merge.
Definition crash_start : @Delivery mem_redis := @mkDelivery mem_redis crash_log ∅ (mkMemRedis [] 0 3).
Definition no_commit_error (d : @Delivery mem_redis) : option exn := None.
Definition deliver_mem (T : Z) : M (@Delivery mem_redis) bool :=
  @deliver_through sqlite_merge mem_redis "stream" 10000 no_commit_error T.
Definition crash_lost : @Delivery mem_redis := (deliver_mem 3 crash_start).1.
Definition server_back : @Delivery mem_redis :=
  @mkDelivery mem_redis (d_events crash_lost) (d_rows crash_lost)
    (mkMemRedis (mr_history (d_redis crash_lost)) 0 50).
Definition crash_recovered : @Delivery mem_redis := (deliver_mem 3 server_back).1.

Example crash_run :
  (deliver_mem 3 crash_start).2 = Err connection_error
  ∧ d_rows crash_lost !! "stream" = None
  ∧ map (λ x, x.1) (mr_history (d_redis crash_recovered)) = [(1, 0); (3, 0)]
  ∧ d_rows crash_recovered !! "stream" = Some (mkDeliveryRow 3 (Some 0)).
Proof. split_and!; vm_compute; reflexivity. Qed.

(** An interrupted call that appended more than the stream holds cannot be repeated: the
    entry that the retry meets first is trimmed, so the refusal is raised again, on
    every later call too. *)
Definition long_log : EventTables :=
  (@run_log sqlite_merge [LogPersist (sample_event "d" 80); LogPersist (sample_event "e" 90)] crash_log).1.
Definition deliver_short (T : Z) : M (@Delivery mem_redis) bool :=
  @deliver_through sqlite_merge mem_redis "stream" 1 no_commit_error T.
Definition with_budget (n : nat) (d : @Delivery mem_redis) : @Delivery mem_redis :=
  @mkDelivery mem_redis (d_events d) (d_rows d)
    (mkMemRedis (mr_history (d_redis d)) (mr_trimmed (d_redis d)) n).
Definition first_delivered : @Delivery mem_redis :=
  (deliver_short 1 (@mkDelivery mem_redis long_log ∅ (mkMemRedis [] 0 50))).1.
Definition interrupted : @Delivery mem_redis := (deliver_short 5 (with_budget 3 first_delivered)).1.

Example trimmed_retry_stuck :
  d_rows interrupted !! "stream" = Some (mkDeliveryRow 1 (Some 0))
  ∧ map (λ x, x.1.1) (mr_history (d_redis interrupted)) = [1; 3; 4; 5]
  ∧ (deliver_short 5 (with_budget 50 interrupted)).2 = Err response_error
  ∧ d_rows (deliver_short 5 (with_budget 50 interrupted)).1 !! "stream"
    = Some (mkDeliveryRow 1 (Some 0)).
Proof. split_and!; vm_compute; reflexivity. Qed.

Lemma crash_steps :
  rtc (@dstep sqlite_merge mem_redis "stream" 10000 no_commit_error) crash_start server_back.
Proof.
  apply rtc_l with crash_lost.
  - apply (@step_deliver sqlite_merge mem_redis "stream" 10000 no_commit_error 3 crash_start).
    vm_compute. discriminate.
  - apply rtc_once, (@step_redis sqlite_merge mem_redis). reflexivity.
Qed.
Lemma crash_old : @old_stream (@stream_history mem_redis (d_redis crash_start)).
Proof. split; [constructor|by intros ? ?%not_elem_of_nil..]. Qed.
Lemma crash_legacy : @legacy_cursor mem_redis "stream" 0 crash_start.
Proof. by split. Qed.

Lemma stream_refines_log_witness :
  ∃ o b l, mr_history (d_redis crash_recovered) = map (entry_of o) l ∧ b < 1
    ∧ StronglySorted (λ x y, e_sequence x < e_sequence y) l.
Proof.
  destruct (@stream_refines_log sqlite_merge mem_redis mem_redis_laws "stream" 10000 no_commit_error 0
              crash_start crash_recovered sample_log_ok crash_old crash_legacy)
    as (o & b & l & Hh & _ & Hs & [_ Hb] & _).
  { eapply rtc_r; [exact crash_steps|].
    apply (@step_deliver sqlite_merge mem_redis "stream" 10000 no_commit_error 3 server_back).
    vm_compute. discriminate. }
  exists o, b, l. split; [exact Hh|split; [|exact Hs]].
  destruct (Hb eq_refl) as [_ Hall].
  apply (Hall (stamp_event 1 50 (sample_event "a" 50))); [|done].
  apply elem_of_rows. exists "a". vm_compute. reflexivity.
Defined.

Lemma deliver_through_spec_witness :
  ∃ o, entry_of o (stamp_event 1 50 (sample_event "a" 50)) ∈ mr_history (d_redis crash_recovered).
Proof.
  pose proof (@deliver_through_spec sqlite_merge mem_redis mem_redis_laws "stream" 10000 no_commit_error 0 3
              crash_start server_back sample_log_ok crash_old crash_legacy crash_steps) as Hspec.
  assert (3 ≤ event_sequence (d_events server_back)) as HT by (vm_compute; discriminate).
  specialize (Hspec HT). fold (deliver_mem 3) in Hspec.
  assert (deliver_mem 3 server_back = (crash_recovered, Ok true)) as E by (vm_compute; reflexivity).
  rewrite E in Hspec. destruct Hspec as (_ & _ & o & b & row & [_ Hb] & _ & _ & _ & Hall).
  destruct (Hb eq_refl) as [_ Hbase]. exists o.
  assert (stamp_event 1 50 (sample_event "a" 50) ∈ rows (events (d_events server_back))) as Hin
    by (apply elem_of_rows; exists "a"; vm_compute; reflexivity).
  apply Hall; [exact Hin|]. split; [by apply Hbase|vm_compute; discriminate].
Defined.

Lemma deliver_loop_terminates_witness :
  (@deliver_loop sqlite_merge mem_redis "stream" 10000 7 0 3 1 server_back).2 ≠ Ok false.
Proof.
  apply (@deliver_loop_terminates sqlite_merge mem_redis "stream" 10000 0 3 1 7 server_back). lia.
Defined.

Lemma emit_survives_mirror_witness :
  ∃ m' e, @emit_mirrored sqlite_merge frozen_env mem_redis "stream" "events" 10000 no_commit_error
    (λ _, false) "job.running" (plain_emit None)
    (@mkMirror mem_redis init_process crash_lost) = (m', Ok e) ∧ e_sequence e = 4.
Proof.
  destruct (@emit_survives_mirror sqlite_merge frozen_env mem_redis mem_redis_laws "stream" "events" 10000
    no_commit_error (λ _, false) 0 "job.running" (plain_emit None) crash_start
    (@mkMirror mem_redis init_process crash_lost))
    as (m' & e & Hrun & Hemit & _).
  - discriminate.
  - exact sample_log_ok.
  - exact crash_old.
  - exact crash_legacy.
  - apply rtc_once, (@step_deliver sqlite_merge mem_redis "stream" 10000 no_commit_error 3 crash_start).
    vm_compute. discriminate.
  - vm_compute. reflexivity.
  - exists m', e. split; [exact Hrun|].
    pose proof (f_equal (λ p, match p.2 with Ok x => e_sequence x | Err _ => 0 end) Hemit) as Hseq.
    vm_compute in Hseq. symmetry. exact Hseq.
Defined.
