(* ===== verification/Validation.v ===== *)
(** * Worker validation ([src/src/goblin_king/validation.py])

    The durable validation record, the texts of the scheduler's gate, the image
    identity check and the validation of workers.  The container engine, the
    worker folders and the result files are the class [Host]: arbitrary calls on
    the shared state, so whatever other processes do meanwhile is covered. *)

From S2P Require Import Prelude CausalTime Contracts Text ResourcePolicies Containers EventStore JobStore JobLifecycle RecordStore Auth Registry World.

Definition VALIDATOR_VERSION : string := "goblin-king-validator/v1".

Record WorkerValidationResult := mkValidationResult {
  vr_kind : string;
  vr_ok : bool;
  vr_image : option string;
  vr_image_digest : option string;
  vr_contract_version : string;
  vr_validator_version : string;
  vr_validated_at : option datetime;
  vr_result_status : option string;
  vr_result_file : option string;
  vr_artifact_count : Z;
  vr_error : option string;
  vr_checks : list string
}.

(** The constructor call with the fields the code passes, the others at their
    defaults. *)
Definition validation_result (kind : string) (ok : bool) (image image_digest : option string)
    (validated_at : option datetime) (result_status result_file : option string)
    (artifact_count : Z) (error : option string) (checks : list string) : WorkerValidationResult :=
  mkValidationResult kind ok image image_digest GOBLIN_CONTAINER_CONTRACT_VERSION VALIDATOR_VERSION
    validated_at result_status result_file artifact_count error checks.

(** [result.model_copy(update={image_digest})] *)
Definition with_digest (digest : string) (r : WorkerValidationResult) : WorkerValidationResult :=
  mkValidationResult (vr_kind r) (vr_ok r) (vr_image r) (Some digest) (vr_contract_version r)
    (vr_validator_version r) (vr_validated_at r) (vr_result_status r) (vr_result_file r)
    (vr_artifact_count r) (vr_error r) (vr_checks r).

(** [text or default] on an optional string. *)
Definition text_or (o : option string) (d : string) : string :=
  match o with Some s => if truthy s then s else d | None => d end.

(** What a finished [subprocess.run] shows. *)
Record ProcessOutput := mkOutput { po_code : Z; po_stdout : string; po_stderr : string }.


Class Host := {
  (** [docker image inspect], with the executable and the image *)
  image_inspect : string → string → M World ProcessOutput;
  (** [TemporaryDirectory] and the [DockerRuntime] of [validate_workers]: its [run_root] *)
  open_validation_runtime : WorkerImageMap → option string → M World string;
  (** [DockerRuntime.build_image] *)
  build_image : WorkerImageMap → string → M World unit;
  (** the worker folder and its Dockerfile: their paths and whether they exist *)
  context_path : WorkerImageMap → WorkerImageDefinition → string;
  dockerfile_path : WorkerImageMap → WorkerImageDefinition → string;
  path_is_dir : string → M World bool;
  path_is_file : string → M World bool;
  (** [run_root.parent / "artifacts" / run_id] and [run_root / run_id / "result.json"] *)
  validation_artifact_root : string → string → string;
  result_path : string → string → string;
  (** reading and parsing a result envelope *)
  read_result : string → M World GoblinResult;
  artifact_exists : string → string → M World bool;
  (** [DockerRuntime.run] of the validation runtime *)
  validation_run : WorkerImageMap → string → GoblinDefinition → dict → GoblinContext →
    option Z → M World GoblinResult;
  (** [validation_job_id] *)
  validation_job_id : string → string
}.

Section validation.
Context `{Env} `{Host}.

(** ** Image identity *)

Definition inspect_image_identity (docker_executable image : string)
    : M World (option string * option string) :=
  let* completed := image_inspect docker_executable image in
  if po_code completed =? 0 then
    let digest := strip (po_stdout completed) in
    ret (if truthy digest then Some digest else None, None)
  else
    let detail := if truthy (strip (po_stderr completed)) then strip (po_stderr completed)
                  else strip (po_stdout completed) in
    ret (None, Some ("worker image unavailable: " +:+ image +:+ "; " +:+ detail)).

(** ** Records and texts *)

(** The store's column keeps the local fields of a timestamp and drops its
    offset, so that is what the record holds. *)
Definition validation_record (r : WorkerValidationResult) (effective_policy : dict)
    : M World WorkerValidationRecord :=
  let* id := zoom w_process_lens new_uuid in
  let* validated_at := (match vr_validated_at r with
                        | Some t => ret t
                        | None => zoom w_process_lens wall_now
                        end) in
  ret (mkWorkerValidation id (vr_kind r) (text_or (vr_image r) EmptyString)
         (text_or (vr_image_digest r) EmptyString) (vr_contract_version r)
         (vr_validator_version r) (dt_local validated_at)
         (if vr_ok r then ValidationPassed else ValidationFailed)
         (if vr_ok r then [] else [text_or (vr_error r) "validation failed"])
         effective_policy).

Inductive GateRuntime := GateDocker | GateKubernetes.

Definition format_validation_gate_error (kind : string) (image : option string) (reason : string)
    (image_digest stale_from_digest : option string) (contract_version validator_version : string)
    (runtime : GateRuntime) : string :=
  py_join newline
    (["Goblin image failed contract validation and cannot be run by default.";
      "Kind: " +:+ kind;
      "Image: " +:+ text_or image "<unknown>";
      "Image digest: " +:+ text_or image_digest "<unresolved>";
      "Contract version: " +:+ contract_version;
      "Validator version: " +:+ validator_version]
     ++ (if truthy_opt stale_from_digest
         then ["Previous validation digest: " +:+ default EmptyString stale_from_digest] else [])
     ++ ["Reason: " +:+ reason;
         "Validate first, then schedule.";
         "Revalidate with: " +:+
         match runtime with
         | GateKubernetes =>
             "goblin-king workers validate --runtime kubernetes --kind " +:+ kind
             +:+ " --input <input-json> --require-success"
         | GateDocker =>
             "goblin-king workers validate --kind " +:+ kind
             +:+ " --input <input-json> --build --require-success"
         end]).

Inductive ProofState := ProofUnknown | ProofStale | ProofValidated | ProofFailed.

(** [validation_status_payload]: the state and the message; the other fields copy
    the record. *)
Definition validation_status_payload (worker_image : option string)
    (validation : option WorkerValidationRecord) : ProofState * string :=
  match validation with
  | None => (ProofUnknown, "No validation proof has been recorded. Validate first, then schedule.")
  | Some v =>
      if match worker_image with
         | Some image => truthy (wv_image v) && negb (bool_decide (wv_image v = image))
         | None => false
         end
      then (ProofStale, "Latest validation proof was recorded for a different configured image.")
      else if bool_decide (wv_status v = ValidationPassed)
      then (ProofValidated, "Latest validation proof passed for this configured image.")
      else
        let reasons := py_join "; " (wv_failure_reasons v) in
        (ProofFailed, if truthy reasons then reasons else "Latest validation failed.")
  end.

Definition kubernetes_image_identity (image : string) : string := "kubernetes:" +:+ image.

(** ** Validating one worker *)

Definition result_status_str (s : ResultStatus) : string :=
  match s with ResSuccess => "success" | ResFailed => "failed" end.

(** [uri.startswith("artifact://")] *)
Definition is_artifact_uri (uri : string) : bool := String.prefix "artifact://" uri.

Fixpoint missing_artifacts (root : string) (l : list ArtifactRecord) : M World (list string) :=
  match l with
  | [] => ret []
  | a :: l' =>
      let* missing := (if is_artifact_uri (a_uri a)
                       then let* there := artifact_exists root (a_name a) in ret (negb there)
                       else ret false) in
      let* rest := missing_artifacts root l' in
      ret (if missing then a_name a :: rest else rest)
  end.

(** [datetime.now().astimezone()] *)
Definition now_astimezone : M World (option datetime) :=
  let* t := zoom w_process_lens wall_now in ret (Some t).

Definition is_worker_config_error (e : exn) : bool :=
  match e with WorkerConfigError _ => true | _ => false end.

(** One call inside [try ... except WorkerConfigError]: the handler ends the
    validation with the checks passed so far. *)
Definition config_guard {A B} (kind : string) (checks : list string) (m : M World A)
    (k : A → M World (WorkerValidationResult + B)) : M World (WorkerValidationResult + B) :=
  let* r := try_catch (let* a := m in ret (inr a))
    (λ e, if is_worker_config_error e
          then let* now := now_astimezone in
               ret (inl (validation_result kind false None None now None None 0
                           (Some (exn_str e)) checks))
          else raise e) in
  match r with inl verdict => ret (inl verdict) | inr a => k a end.

(** The image part: a verdict that ends the validation, or the image, its digest
    and the checks passed. *)
Definition check_image_identity (kind image : string) (checks passed : list string)
    : M World (WorkerValidationResult + (string * option string * list string)) :=
  config_guard kind checks (inspect_image_identity "docker" image) (λ '(digest, image_error),
    match image_error with
    | Some e =>
        let* now := now_astimezone in
        ret (inl (validation_result kind false (Some image) None now None None 0 (Some e) checks))
    | None => ret (inr (image, digest, passed))
    end).

Definition check_worker_image (workers : WorkerImageMap) (kind : string)
    (build prebuilt_image : bool)
    : M World (WorkerValidationResult + (string * option string * list string)) :=
  config_guard kind [] (lift_result (worker_get workers kind)) (λ worker,
  let image := wi_image worker in
  let missing what path checks :=
    ret (inl (validation_result kind false (Some image) None None None None 0
                (Some ("worker " +:+ what +:+ " missing: " +:+ path)) checks)) in
  if prebuilt_image then check_image_identity kind image [] ["image"]
  else
    config_guard kind [] (path_is_dir (context_path workers worker)) (λ context_there,
    if negb context_there then missing "context" (context_path workers worker) []
    else
    config_guard kind ["context"] (path_is_file (dockerfile_path workers worker)) (λ dockerfile_there,
    if negb dockerfile_there
    then missing "Dockerfile" (dockerfile_path workers worker) ["context"]
    else
    config_guard kind ["context"; "dockerfile"]
      (if build then build_image workers kind else ret tt) (λ _,
    let checks := ["context"; "dockerfile"] ++ (if build then ["build"] else []) in
    check_image_identity kind image checks checks)))).

(** Reading the parsed envelope of a run, from [checks.append("result-file")]. *)
Definition check_envelope (kind image : string) (digest : option string) (checks : list string)
    (path artifact_root : string) (require_success : bool) (parsed : GoblinResult)
    : M World WorkerValidationResult :=
  let checks := checks ++ ["result-envelope"]
                ++ (if bool_decide (gr_metrics parsed = ∅) then [] else ["metrics"])
                ++ match gr_handoff parsed with [] => [] | _ => ["handoff"] end in
  let count := Z.of_nat (length (gr_artifacts parsed)) in
  let status := Some (result_status_str (gr_status parsed)) in
  let* missing := missing_artifacts artifact_root (gr_artifacts parsed) in
  match missing with
  | _ :: _ =>
      let* now := now_astimezone in
      ret (validation_result kind false (Some image) digest now status (Some path) count
             (Some ("artifact metadata points to missing files: " +:+ py_join ", " missing)) checks)
  | [] =>
      let checks := checks ++ ["artifacts"] in
      let* now := now_astimezone in
      if require_success && negb (bool_decide (gr_status parsed = ResSuccess))
      then ret (validation_result kind false (Some image) digest now status (Some path) count
                  (Some (text_or (gr_error parsed) "worker returned failed status")) checks)
      else ret (validation_result kind true (Some image) digest now status (Some path) count None
                  checks)
  end.

Definition _validate_one (workers : WorkerImageMap) (run_root kind : string)
    (input_payload : dict) (build require_success prebuilt_image : bool)
    (timeout_seconds : option Z) : M World WorkerValidationResult :=
  let* checked := check_worker_image workers kind build prebuilt_image in
  match checked with
  | inl verdict => ret verdict
  | inr (image, digest, checks) =>
      let* context := new_run_context (validation_job_id kind) kind 1 in
      let artifact_root := validation_artifact_root run_root (gc_run_id context) in
      let context := mkGoblinContext (gc_run_id context) artifact_root (gc_metadata context) in
      let* result := validation_run workers run_root
        (mkGoblinDefinition kind kind "container.only" "run" None None ∅)
        input_payload context timeout_seconds in
      let path := result_path run_root (gc_run_id context) in
      let* there := path_is_file path in
      if negb there then
        let* now := now_astimezone in
        ret (validation_result kind false (Some image) digest now
               (Some (result_status_str (gr_status result))) None 0
               (Some (text_or (gr_error result) "worker did not write result.json")) checks)
      else
        let checks := checks ++ ["result-file"] in
        let* parsed := try_catch (let* p := read_result path in ret (inr p)) (λ e, ret (inl e)) in
        match parsed with
        | inl e =>
            let* now := now_astimezone in
            ret (validation_result kind false (Some image) digest now None (Some path) 0
                   (Some ("result envelope invalid: " +:+ exn_str e)) checks)
        | inr parsed =>
            check_envelope kind image digest checks path artifact_root require_success parsed
        end
  end.

(** ** [validate_workers] *)

Fixpoint validate_each (one : string → M World WorkerValidationResult)
    (l : list GoblinDefinition) (results : list WorkerValidationResult)
    : M World (list WorkerValidationResult) :=
  match l with
  | [] => ret results
  | d :: l' => let* r := one (gd_kind d) in validate_each one l' (results ++ [r])
  end.

(** [None] and [[]] both select every definition. *)
Definition validate_workers (registry : Registry) (workers : WorkerImageMap)
    (input_payload : dict) (kinds : list string) (build require_success prebuilt_image : bool)
    (timeout_seconds : option Z) (run_root : option string)
    : M World (list WorkerValidationResult) :=
  let all := registry_list registry in
  let definitions :=
    match kinds with [] => all | _ => filter (λ d, gd_kind d ∈ kinds) all end in
  let missing :=
    filter (λ kind, kind ∉ gd_kind <$> definitions) (sorted_strings (remove_dups kinds)) in
  let results :=
    (λ kind, validation_result kind false None None None None None 0
               (Some ("unknown goblin kind: " +:+ kind)) []) <$> missing in
  let* runtime_root := open_validation_runtime workers run_root in
  validate_each
    (λ kind, _validate_one workers runtime_root kind input_payload build require_success prebuilt_image
               timeout_seconds)
    definitions results.
End validation.

(** ** What a validation may do

    Whatever relation the host's calls, the clock and the store of validations stay
    within, a whole validation does. *)
Section within.
Context (R : World → World → Prop) `{!PreOrder R} `{Env} `{Host}.

Class HostWithin : Prop := {
  hw_inspect :: ∀ x i, Within R (image_inspect x i);
  hw_open :: ∀ m r, Within R (open_validation_runtime m r);
  hw_build :: ∀ m k, Within R (build_image m k);
  hw_dir :: ∀ p, Within R (path_is_dir p);
  hw_file :: ∀ p, Within R (path_is_file p);
  hw_read :: ∀ p, Within R (read_result p);
  hw_artifact :: ∀ p n, Within R (artifact_exists p n);
  hw_validation :: ∀ m r d i c t, Within R (validation_run m r d i c t)
}.
Class ClockWithin : Prop := {
  cw_wall :: Within R (zoom w_process_lens wall_now);
  cw_now :: Within R (zoom w_process_lens utc_now);
  cw_uuid :: Within R (zoom w_process_lens new_uuid)
}.
Context `{!HostWithin} `{!ClockWithin} `{Pydantic} `{Floats}.

#[export] Instance within_run_context job kind n : Within R (new_run_context job kind n).
Proof. unfold new_run_context. solve_within. Qed.
#[export] Instance within_now : Within R now_astimezone.
Proof. unfold now_astimezone. solve_within. Qed.
#[export] Instance within_identity x i : Within R (inspect_image_identity x i).
Proof. unfold inspect_image_identity. solve_within. Qed.
#[export] Instance within_guard {A B} kind checks (m : M World A) (k : A → M World (WorkerValidationResult + B)) :
  Within R m → (∀ x, Within R (k x)) → Within R (config_guard kind checks m k).
Proof. intros Hm Hk. unfold config_guard. solve_within. Qed.
#[export] Instance within_check_identity kind image checks passed :
  Within R (check_image_identity kind image checks passed).
Proof. unfold check_image_identity. apply within_guard; solve_within. Qed.
#[export] Instance within_check_image workers kind build prebuilt :
  Within R (check_worker_image workers kind build prebuilt).
Proof.
  unfold check_worker_image. apply within_guard; [apply _|]. intros worker. cbv zeta.
  destruct prebuilt; [apply _|]. apply within_guard; [apply _|]. intros there.
  destruct there; [|apply _]. apply within_guard; [apply _|]. intros there.
  destruct there; [|apply _]. apply within_guard; [destruct build; apply _|]. solve_within.
Qed.
#[export] Instance within_missing root l : Within R (missing_artifacts root l).
Proof. induction l as [|a l IH]; simpl; solve_within. Qed.
#[export] Instance within_envelope kind image d checks path root req parsed :
  Within R (check_envelope kind image d checks path root req parsed).
Proof. unfold check_envelope. solve_within. Qed.
#[export] Instance within_validate_one workers root kind payload b r p t :
  Within R (_validate_one workers root kind payload b r p t).
Proof. unfold _validate_one. solve_within. Qed.
#[export] Instance within_validate_each one l acc :
  (∀ k, Within R (one k)) → Within R (validate_each one l acc).
Proof. intros Hone. revert acc. induction l as [|d l IH]; intros acc; simpl; solve_within. Qed.
#[export] Instance within_record r p : Within R (validation_record r p).
Proof. unfold validation_record. solve_within. Qed.
#[export] Instance within_validate_workers reg workers payload kinds b r p t root :
  Within R (validate_workers reg workers payload kinds b r p t root).
Proof. unfold validate_workers. solve_within. Qed.
End within.
