(* ===== verification/Scheduler.v ===== *)
(** * The scheduler

    [src/src/goblin_king/scheduler.py], with the failure reconciliation of
    [scheduler_failures.py], the lease renewal of [scheduler_leases.py] and the
    in-process runtime and run context of [runtime.py].  A [Scheduler] is the
    object's attributes; its methods run on the shared [World].

    The container engines and the goblins' own code are the class [Workers]:
    arbitrary calls on the [World].  Whatever other schedulers, the API and this
    scheduler's own lease threads do to the store while an attempt runs happens
    inside those calls. *)

From S2P Require Import Prelude CausalTime Contracts ResourcePolicies EventStore JobStore JobLifecycle RecordStore Auth Registry World Containers Validation.

Inductive RuntimeMode := ModeDocker | ModeKubernetes | ModeInProcess.
#[export] Instance RuntimeMode_eq : EqDecision RuntimeMode. Proof. solve_decision. Defined.
Definition runtime_mode_str (m : RuntimeMode) : string :=
  match m with
  | ModeDocker => "docker" | ModeKubernetes => "kubernetes" | ModeInProcess => "in-process"
  end.

Inductive Runtime :=
| DockerRuntime (workers : option WorkerImageMap)
| KubernetesRuntime (workers : option WorkerImageMap)
| InProcessRuntime.

(** [isinstance(runtime, DockerRuntime | KubernetesRuntime)] *)
Definition is_container_runtime (r : Runtime) : bool :=
  match r with InProcessRuntime => false | _ => true end.
Definition is_kubernetes (r : Runtime) : bool :=
  match r with KubernetesRuntime _ => true | _ => false end.

Record Scheduler := mkScheduler {
  s_registry : Registry;
  s_workers : option WorkerImageMap;
  s_worker_id : string;
  s_lease_seconds : Z;
  s_claim_limit : Z;
  s_runtime_mode : RuntimeMode;
  s_resource_policies : option ResourcePolicySet;
  s_runtime : Runtime;
  s_discovery_version : Z
}.

(** What a goblin's entrypoint may return. *)
Inductive EntrypointValue :=
| ReturnedResult (r : GoblinResult)
| ReturnedDict (d : dict)
| ReturnedOther (type_name : string).

Class Workers := {
  (** the constructors of the two container runtimes: they may refuse the paths
      or settings they are configured with *)
  open_runtime : RuntimeMode → option WorkerImageMap → result unit;
  (** [DockerRuntime.run] and [KubernetesRuntime.run] *)
  container_run : Runtime → GoblinDefinition → dict → GoblinContext → option Z →
    option ResourcePolicy → M World GoblinResult;
  entrypoint_call : GoblinDefinition → dict → GoblinContext → M World EntrypointValue;
  (** [run_root] of a Docker runtime; the settings of a Kubernetes one *)
  docker_run_root : option string;
  validation_image_identity : string → string → string;
  effective_workload_security : string → Json;
  (** [ZoneInfo(timezone)] and [croniter(cron, now).get_next]: an unknown zone or
      a bad expression raises; the answer is after its start *)
  croniter_next : string → string → utc → result datetime;
  croniter_after : ∀ cron timezone now t,
    croniter_next cron timezone now = Ok t → now < ensure_utc t
}.

(** [{**job.metadata, "resource_policy": policy.compact()}] *)
Definition policy_metadata (policy : ResourcePolicy) (metadata : dict) : dict :=
  <["resource_policy" := JObj (compact policy)]> metadata.
(** [resource_policy.compact() if resource_policy else None] *)
Definition compact_dict (policy : ResourcePolicy) : dict := list_to_map (compact policy).

Section scheduler.
Context `{Sqlite} `{Env} `{Crypto} `{Pydantic} `{Floats} `{Imports} `{Host} `{Workers}.

(** ** Construction and discovery *)

Definition _build_runtime (mode : RuntimeMode) (workers : option WorkerImageMap) : result Runtime :=
  match mode with
  | ModeDocker => let? _ := open_runtime mode workers in Ok (DockerRuntime workers)
  | ModeKubernetes => let? _ := open_runtime mode workers in Ok (KubernetesRuntime workers)
  | ModeInProcess => Ok InProcessRuntime
  end.

(** A one-off runtime for another worker map; in-process schedulers keep theirs. *)
Definition _build_runtime_for_workers (s : Scheduler) (workers : WorkerImageMap) : result Runtime :=
  match s_runtime_mode s with
  | ModeInProcess => Ok (s_runtime s)
  | mode => _build_runtime mode (Some workers)
  end.

(** The check [__init__] and [reload_discovery] share. *)
Definition require_workers (mode : RuntimeMode) (workers : option WorkerImageMap) : result unit :=
  if negb (bool_decide (mode = ModeInProcess)) && negb (opt_truthy workers)
  then Err (ValueError ("workers image map is required when runtime_mode="
                        +:+ py_repr (runtime_mode_str mode)))
  else Ok tt.

Definition Scheduler_init (registry : Registry) (worker_id : option string)
    (lease_seconds claim_limit : Z) (mode : RuntimeMode) (workers : option WorkerImageMap)
    (resource_policies : option ResourcePolicySet) : M World Scheduler :=
  let* id := (if truthy_opt worker_id then ret (default EmptyString worker_id)
              else let* u := zoom w_process_lens new_uuid in ret ("scheduler-" +:+ u)) in
  do* lift_result (require_workers mode workers) in
  let* runtime := lift_result (_build_runtime mode workers) in
  ret (mkScheduler registry workers id lease_seconds claim_limit mode resource_policies runtime 1).

Definition reload_discovery (s : Scheduler) (registry : Registry)
    (workers : option WorkerImageMap) : result (Scheduler * Z) :=
  let? _ := require_workers (s_runtime_mode s) workers in
  let active_workers := match workers with Some _ => workers | None => s_workers s end in
  let? runtime := _build_runtime (s_runtime_mode s) active_workers in
  let version := s_discovery_version s + 1 in
  Ok (mkScheduler registry active_workers (s_worker_id s) (s_lease_seconds s) (s_claim_limit s)
        (s_runtime_mode s) (s_resource_policies s) runtime version, version).

(** ** Schedules *)

(** [_ensure_utc(now or utc_now())] *)
Definition current_time (now : option datetime) : M World utc :=
  match now with
  | Some d => ret (ensure_utc d)
  | None => zoom w_process_lens utc_now
  end.

Definition next_run_after (schedule : ScheduleRecord) (now : utc) : result utc :=
  let? next_local := croniter_next (sc_cron schedule) (sc_timezone schedule) now in
  Ok (ensure_utc next_local).

(** The job a due schedule becomes, before its resource policy. *)
Definition scheduled_job (id : string) (schedule : ScheduleRecord) (definition : GoblinDefinition)
    (current : utc) : JobRecord :=
  mkJob id (gd_kind definition) (sc_input schedule) current "scheduler" None
    (sc_project_id schedule) None (goblin_job_metadata definition None) JQueued
    (sc_priority schedule) (Some (sc_id schedule)) (Some current) None None 0
    (sc_max_retries schedule) (sc_timeout_seconds schedule) None.

(** [job.model_copy(update={metadata, timeout_seconds, max_retries})] *)
Definition with_policy (policy : ResourcePolicy) (j : JobRecord) : JobRecord :=
  mkJob (j_id j) (j_kind j) (j_input j) (j_created_at j) (j_created_by j) (j_correlation_id j)
    (j_project_id j) (j_fanout_id j) (policy_metadata policy (j_metadata j)) (j_status j)
    (j_priority j) (j_schedule_id j) (j_due_at j) (j_lease_owner j) (j_leased_until j)
    (j_attempt_count j) (default 0 (max_retries policy)) (timeout_seconds policy)
    (j_last_error j).

(** What the schedule's policy makes of the job: unchanged without policies, and
    refused with the [ValueError] the code catches. *)
Definition apply_policies (s : Scheduler) (schedule : ScheduleRecord) (job : JobRecord)
    : result JobRecord :=
  match s_resource_policies s with
  | None => Ok job
  | Some policies =>
      let? policy := effective_for policies (sc_kind schedule) (sc_timeout_seconds schedule)
                       (Some (sc_max_retries schedule)) in
      Ok (with_policy policy job)
  end.

(** The loop body of [materialize_due_schedules]. *)
Definition materialize_schedule (s : Scheduler) (current : utc)
    (materialized : list JobRecord) (schedule : ScheduleRecord) : M World (list JobRecord) :=
  let* definition := lift_result (registry_get (s_registry s) (sc_kind schedule)) in
  let* id := zoom w_process_lens new_uuid in
  let job := scheduled_job id schedule definition current in
  match apply_policies s schedule job with
  | Err e =>
      if is_value_error e then
        do* zoom w_bus_lens (emit "resource_policy.rejected"
              (mkEmit SrcScheduler
                 (list_to_map [("kind", JStr (sc_kind schedule)); ("error", JStr (exn_str e))])
                 (sc_project_id schedule) None None None (Some (sc_id schedule)) None
                 (Some (s_worker_id s)) None)) in
        ret materialized
      else raise e
  | Ok job =>
      do* zoom w_jobs_lens (save_job job) in
      let* next_run_at := lift_result (next_run_after schedule current) in
      do* zoom w_schedules_lens
            (update_schedule_after_materialize (sc_id schedule) current next_run_at) in
      do* zoom w_bus_lens (emit "schedule.materialized"
            (mkEmit SrcScheduler
               (list_to_map [("kind", JStr (sc_kind schedule)); ("due_at", JStr (isoformat current))])
               (sc_project_id schedule) (Some (j_id job)) None None (Some (sc_id schedule)) None
               (Some (s_worker_id s)) (Some (j_created_at job)))) in
      ret (materialized ++ [job])
  end.

Definition materialize_due_schedules (s : Scheduler) (now : option datetime)
    : M World (list JobRecord) :=
  let* current := current_time now in
  let* due := gets (λ w, list_due_schedules current (w_schedules w)) in
  foldM (materialize_schedule s current) [] due.

(** ** Claiming *)

(** The arguments of an event about a job. *)
Definition job_event (s : Scheduler) (job : JobRecord) (run_id : option string) (payload : dict)
    (after : option utc) : EmitArgs :=
  mkEmit SrcScheduler payload (j_project_id job) (Some (j_id job)) run_id (j_fanout_id job)
    (j_schedule_id job) None (Some (s_worker_id s)) after.

(** [finish_job(status="queued")] and the deferral event. *)
Definition defer_job (s : Scheduler) (current : utc) (job : JobRecord) (message : string)
    (payload : dict) : M World unit :=
  do* zoom w_jobs_lens (finish_job (j_id job) JQueued (Some message) (Some current)) in
  do* zoom w_bus_lens (emit "resource_policy.concurrency_deferred"
        (job_event s job None payload None)) in
  ret tt.

Definition deferral_message (scope field : string) (active limit : Z) : string :=
  "deferred by " +:+ scope +:+ " concurrency policy: active=" +:+ pretty active
  +:+ " " +:+ field +:+ "=" +:+ pretty limit.

(** The loop body of [claim_due_jobs]. *)
Definition admit_job (s : Scheduler) (current : utc) (runnable : list JobRecord)
    (job : JobRecord) : M World (list JobRecord) :=
  let* policy := lift_result (policy_from_job_metadata (j_metadata job)) in
  let* project_active :=
    gets (λ w, count_active_project_jobs (j_project_id job) (Some (j_id job)) (w_jobs w)) in
  let* kind_active := gets (λ w, count_active_jobs (j_kind job) (Some (j_id job)) (w_jobs w)) in
  let over limit active :=
    match limit with Some m => if m <=? active then Some m else None | None => None end in
  match over (policy ≫= λ p, max_project_running (concurrency p)) project_active with
  | Some limit =>
      let message := deferral_message "project" "max_project_running" project_active limit in
      do* defer_job s current job message
        (list_to_map [("kind", JStr (j_kind job)); ("scope", JStr "project");
                      ("max_project_running", JInt limit); ("active_count", JInt project_active);
                      ("reason", JStr message)]) in
      ret runnable
  | None =>
  match over (policy ≫= λ p, max_running (concurrency p)) kind_active with
  | Some limit =>
      let message := deferral_message "goblin" "max_running" kind_active limit in
      do* defer_job s current job message
        (list_to_map [("kind", JStr (j_kind job)); ("scope", JStr "goblin");
                      ("max_running", JInt limit); ("active_count", JInt kind_active);
                      ("reason", JStr message)]) in
      ret runnable
  | None =>
      let* leased_until := lift_result (match j_leased_until job with
                                        | Some u => Ok u
                                        | None => Err (OtherException "AttributeError"
                                            "'NoneType' object has no attribute 'isoformat'")
                                        end) in
      do* zoom w_bus_lens (emit "job.leased"
            (job_event s job None
               (list_to_map [("kind", JStr (j_kind job));
                             ("leased_until", JStr (isoformat leased_until))])
               (Some (j_created_at job)))) in
      ret (runnable ++ [job])
  end
  end.

Definition claim_due_jobs (s : Scheduler) (now : option datetime) : M World (list JobRecord) :=
  let* current := current_time now in
  let* claimed := zoom w_jobs_lens
    (JobStore.claim_due_jobs (s_worker_id s) current (current + seconds (s_lease_seconds s))
       (s_claim_limit s)) in
  foldM (admit_job s current) [] claimed.

(** ** The validation gate *)

Definition head_or {A} (l : list A) (e : exn) : result A :=
  match l with x :: _ => Ok x | [] => Err e end.

(** [or] on optional strings, left to right. *)
Definition text_or_opt (a b : option string) : option string := if truthy_opt a then a else b.

(** The image identity of the gate, the error of looking it up, and the policy
    the validation record keeps. *)
Definition gate_identity (runtime : Runtime) (image kind : string) (resource_policy : dict)
    : M World (option string * option string * dict) :=
  if is_kubernetes runtime then
    ret (Some (validation_image_identity image kind), None,
         <["kubernetes_workload_security" := effective_workload_security kind]> resource_policy)
  else
    let* (digest, error) := inspect_image_identity "docker" image in
    ret (digest, error, resource_policy).

(** [result.model_copy(update={image_digest})] for a notebook worker. *)
Definition notebook_result (notebook_source_hash : option string) (r : WorkerValidationResult)
    : WorkerValidationResult :=
  match notebook_source_hash with
  | Some h => with_digest (notebook_validation_identity (vr_image_digest r) h) r
  | None => r
  end.

(** [validate_workers(kinds=[kind], prebuilt_image=True)[0]], stored as the newest
    proof. *)
Definition revalidate (registry : Registry) (workers : WorkerImageMap) (kind : string)
    (payload : dict) (timeout_seconds : option Z) (run_root notebook_source_hash : option string)
    (validation_policy : dict) : M World WorkerValidationResult :=
  let* results := validate_workers registry workers payload [kind] false false true
                    timeout_seconds run_root in
  let* result := lift_result (head_or results (OtherException "IndexError" "list index out of range")) in
  let result := notebook_result notebook_source_hash result in
  let* record := validation_record result validation_policy in
  do* zoom w_validations_lens (save_worker_validation record) in
  ret result.

Definition _validate_before_container_run (s : Scheduler) (job : JobRecord) (kind : string)
    (registry : Registry) (workers : option WorkerImageMap) (runtime : Runtime)
    (payload : dict) (notebook_source_hash : option string) (resource_policy : dict)
    : M World (option string) :=
  let gate := if is_kubernetes runtime then GateKubernetes else GateDocker in
  let error image digest stale reason :=
    Some (format_validation_gate_error kind image reason digest stale
            GOBLIN_CONTAINER_CONTRACT_VERSION VALIDATOR_VERSION gate) in
  match (match workers with Some _ => workers | None => s_workers s end) with
  | None => ret (error None None None "worker image map is required for validation")
  | Some worker_map =>
  match worker_get worker_map kind with
  | Err e =>
      if is_worker_config_error e then ret (error None None None (exn_str e)) else raise e
  | Ok worker =>
      let image := wi_image worker in
      let run_root := match runtime with DockerRuntime _ => docker_run_root | _ => None end in
      let* (image_digest, image_error, validation_policy) :=
        gate_identity runtime image kind resource_policy in
      let validation_identity :=
        match notebook_source_hash with
        | Some h => Some (notebook_validation_identity image_digest h)
        | None => image_digest
        end in
      let* latest_for_kind :=
        gets (λ w, latest_worker_validation_for_kind kind (w_validations w)) in
      let identity := text_or_opt validation_identity image_digest in
      let revalidate_with timeout :=
        revalidate registry worker_map kind payload timeout run_root notebook_source_hash
          validation_policy in
      match image_error, image_digest with
      | Some _, _ | _, None =>
          let reason := text_or image_error ("worker image digest unavailable: " +:+ image) in
          do* revalidate_with None in
          ret (error (Some image) validation_identity (wv_image_digest <$> latest_for_kind) reason)
      | None, Some digest =>
          let* cached := gets (λ w,
            get_latest_worker_validation kind (text_or validation_identity digest)
              GOBLIN_CONTAINER_CONTRACT_VERSION VALIDATOR_VERSION (w_validations w)) in
          if match cached with
             | Some v => bool_decide (wv_status v = ValidationPassed)
             | None => false
             end
          then ret None
          else if is_kubernetes runtime
          then ret (error (Some image) identity (wv_image_digest <$> latest_for_kind)
                      "no current Kubernetes validation proof exists; validate first")
          else
            let* result := revalidate_with (j_timeout_seconds job) in
            if vr_ok result then ret None
            else
              let stale :=
                match latest_for_kind with
                | Some v =>
                    if bool_decide (wv_status v = ValidationPassed)
                       && negb (bool_decide (wv_image_digest v = digest))
                    then Some (wv_image_digest v) else None
                | None => None
                end in
              ret (Some (format_validation_gate_error kind (text_or_opt (vr_image result) (Some image))
                           (text_or (vr_error result) "worker validation failed")
                           (text_or_opt (vr_image_digest result) identity) stale
                           (vr_contract_version result) (vr_validator_version result) gate))
      end
  end
  end.

(** ** One attempt *)

(** [InProcessRuntime.run] *)
Definition in_process_run (definition : GoblinDefinition) (input_payload : dict)
    (context : GoblinContext) : M World GoblinResult :=
  try_catch
    (let* raw := entrypoint_call definition input_payload context in
     ret (match raw with
          | ReturnedResult r => r
          | ReturnedDict d => GoblinResult_ok d [] ∅ []
          | ReturnedOther type_name =>
              failed_result (gd_kind definition +:+ " returned unsupported result type "
                             +:+ type_name) ∅
          end))
    (λ e, ret (failed_result (gd_kind definition +:+ " failed: " +:+ exn_str e) ∅)).

Definition _status_for_result (r : GoblinResult) (elapsed : Z) (timeout : option Z) : RunStatus :=
  if match timeout with Some t => t * 1000000 <? elapsed | None => false end then RTimedOut
  else match gr_status r with ResSuccess => RCompleted | ResFailed => RFailed end.

Definition _finish_attempt_timestamp (job_id : string) (started_at : utc) : M World utc :=
  let* latest := gets (λ w, latest_event_created_at (Some job_id) None (w_events w)) in
  let* now := zoom w_process_lens utc_now in
  zoom w_process_lens
    (causally_after [Some (of_utc started_at); of_utc <$> latest] (Some (of_utc now))).

(** What the attempt runs. *)
Record Workload := mkWorkload {
  wl_definition : GoblinDefinition;
  wl_registry : Registry;
  wl_workers : option WorkerImageMap;
  wl_runtime : Runtime;
  wl_input : dict;
  wl_notebook : option NotebookGoblinRecord
}.

Definition is_registry_error (e : exn) : bool :=
  match e with RegistryError _ => true | _ => false end.

(** The registry's definition of the job's kind, or the notebook goblin of that
    name: the [try ... except RegistryError] of both runtime families. *)
Definition resolve_workload (s : Scheduler) (job : JobRecord) : M World Workload :=
  let container := negb (bool_decide (s_runtime_mode s = ModeInProcess)) in
  match (if container then registry_get (s_registry s) (j_kind job)
         else registry_resolve (s_registry s) (j_kind job)) with
  | Ok definition =>
      ret (mkWorkload definition (s_registry s) (s_workers s) (s_runtime s) (j_input job) None)
  | Err e =>
      if negb (is_registry_error e) then raise e else
      let* record := gets (λ w, get_notebook_goblin (j_kind job) (w_notebooks w)) in
      match record with
      | None => raise e
      | Some notebook =>
          let definition := notebook_definition notebook in
          let input := notebook_worker_input notebook (j_input job) in
          if container then
            let workers := notebook_worker_map notebook in
            let* registry := lift_result (from_definitions [definition]) in
            let* runtime := lift_result (_build_runtime_for_workers s workers) in
            ret (mkWorkload definition registry (Some workers) runtime input (Some notebook))
          else
            ret (mkWorkload definition (s_registry s) (s_workers s) (s_runtime s) input
                   (Some notebook))
      end
  end.

(** The metadata the run context gets on top of its own. *)
Definition source_metadata (job : JobRecord) : dict :=
  let pick key := match j_metadata job !! key with
                  | Some JNull | None => []
                  | Some v => [(key, v)]
                  end in
  list_to_map (pick "goblin_source" ++ pick "goblin_definition").

Definition attempt_context (job : JobRecord) (policy : option ResourcePolicy)
    (context : GoblinContext) : GoblinContext :=
  let context := match j_project_id job with
                 | Some p => with_metadata {[ "project_id" := JStr p ]} context
                 | None => context
                 end in
  let context := with_metadata (source_metadata job) context in
  match policy with
  | Some p => with_metadata {[ "resource_policy" := JObj (compact p) ]} context
  | None => context
  end.

(** The attempt's [RunRecord]. *)
Definition attempt_run (job : JobRecord) (run_id kind : string) (attempt : Z) (status : RunStatus)
    (started_at : utc) (finished_at : option utc) (res : option GoblinResult)
    (error : option string) (policy : option ResourcePolicy) : result RunRecord :=
  validate_timestamp_order
    (mkRun run_id (j_id job) kind (j_project_id job) attempt status started_at finished_at res
       error (j_timeout_seconds job) (j_max_retries job) (j_leased_until job)
       (compact_dict <$> policy)).

(** The gate before a container run: an error text when the run is refused. *)
Definition container_gate (s : Scheduler) (job : JobRecord) (wl : Workload)
    (policy : option ResourcePolicy) : M World (option string) :=
  try_catch
    (let* payload := lift_result (goblin_validation_input (wl_definition wl) (wl_input wl)) in
     _validate_before_container_run s job (gd_kind (wl_definition wl)) (wl_registry wl)
       (wl_workers wl) (wl_runtime wl) payload (ng_source_hash <$> wl_notebook wl)
       (match policy with Some p => compact_dict p | None => ∅ end))
    (λ e, ret (Some ("Goblin image validation could not start; the job was failed and its lease "
                     +:+ "was released. " +:+ exn_name e +:+ ": " +:+ exn_str e))).

(** A refused attempt: a failed run, a failed job, and the audit entry. *)
Definition reject_attempt (s : Scheduler) (job : JobRecord) (wl : Workload)
    (context : GoblinContext) (attempt : Z) (started_at : utc) (policy : option ResourcePolicy)
    (validation_error : string) : M World RunRecord :=
  let* finished_at := _finish_attempt_timestamp (j_id job) started_at in
  let* run := lift_result
    (attempt_run job (gc_run_id context) (gd_kind (wl_definition wl)) attempt RFailed started_at
       (Some finished_at) (Some (failed_result validation_error ∅)) (Some validation_error) policy) in
  let* finalization := zoom w_jobs_lens
    (finalize_job_attempt run JFailed (Some validation_error) None (s_worker_id s)) in
  let run := af_run finalization in
  do* (if bool_decide (af_outcome finalization = Finalized) then
         do* zoom w_bus_lens (emit "validation.scheduling_rejected"
               (job_event s job (Some (r_id run))
                  (list_to_map [("kind", JStr (j_kind job)); ("error", JStr validation_error)])
                  (r_finished_at run))) in
         ret tt
       else ret tt) in
  do* zoom w_audited_lens
        (audit "validation.scheduling_rejected" "failure" None (j_project_id job) (Some "job")
           (Some (j_id job))
           (list_to_map [("kind", JStr (j_kind job)); ("error", JStr validation_error);
                         ("job_transition", JStr (outcome_str (af_outcome finalization)))])) in
  ret run.

(** Running the workload on its runtime. *)
Definition run_workload (job : JobRecord) (wl : Workload) (context : GoblinContext)
    (policy : option ResourcePolicy) : M World GoblinResult :=
  if is_container_runtime (wl_runtime wl) then
    container_run (wl_runtime wl) (wl_definition wl) (wl_input wl) context (j_timeout_seconds job)
      policy
  else match wl_notebook wl with
       | Some _ =>
           ret (failed_result "notebook-defined goblins require docker or kubernetes runtime" ∅)
       | None => in_process_run (wl_definition wl) (wl_input wl) context
       end.

(** [status == "failed" and attempt <= job.max_retries] *)
Definition retrying (job : JobRecord) (attempt : Z) (status : RunStatus) : bool :=
  bool_decide (status = RFailed) && (attempt <=? j_max_retries job).

(** The result and error that are stored: a timeout without an error gets one. *)
Definition settled_result (job : JobRecord) (status : RunStatus) (res : GoblinResult)
    : GoblinResult * option string :=
  if bool_decide (status = RTimedOut) && negb (opt_truthy (gr_error res)) then
    let error := "job exceeded timeout_seconds="
                 +:+ match j_timeout_seconds job with Some t => pretty t | None => "None" end in
    (failed_result error (gr_data res), Some error)
  else (res, gr_error res).

(** From the result of the workload to the stored attempt. *)
Definition settle_attempt (s : Scheduler) (job : JobRecord) (context : GoblinContext) (attempt : Z)
    (requested_start started_at started_monotonic : Z) (policy : option ResourcePolicy)
    (res : GoblinResult) : M World RunRecord :=
  let* finished_at := _finish_attempt_timestamp (j_id job) started_at in
  let* now_monotonic := zoom w_process_lens time_monotonic in
  let status := _status_for_result res (now_monotonic - started_monotonic)
                  (j_timeout_seconds job) in
  let '(res, error) := settled_result job status res in
  let* run := lift_result
    (attempt_run job (gc_run_id context) (j_kind job) attempt status started_at
       (Some finished_at) (Some res) error policy) in
  let again := retrying job attempt status in
  let* finalization := zoom w_jobs_lens
    (finalize_job_attempt run (if again then JRetrying else job_status_of_run status) error
       (if again then Some requested_start else None) (s_worker_id s)) in
  let run := af_run finalization in
  if negb (bool_decide (af_outcome finalization = Finalized)) then ret run
  else
    do* zoom w_bus_lens
          (emit (if again then "job.retrying" else "job." +:+ run_status_str status)
             (job_event s job (Some (r_id run))
                (list_to_map [("kind", JStr (j_kind job)); ("attempt", JInt attempt);
                              ("error", JOptStr error)])
                (r_finished_at run))) in
    ret run.

(** Opening the run, running it, storing what came out. *)
Definition run_attempt (s : Scheduler) (job : JobRecord) (wl : Workload) (context : GoblinContext)
    (attempt : Z) (requested_start started_at started_monotonic : Z)
    (policy : option ResourcePolicy) : M World RunRecord :=
  let* opened := lift_result
    (attempt_run job (gc_run_id context) (j_kind job) attempt RRunning started_at None None None
       policy) in
  do* zoom w_jobs_lens (start_run opened) in
  let* res := run_workload job wl context policy in
  settle_attempt s job context attempt requested_start started_at started_monotonic policy res.

Definition superseded (s : Scheduler) (job : JobRecord) : exn :=
  JobAttemptSuperseded ("job " +:+ py_repr (j_id job) +:+ " no longer belongs to scheduler "
                        +:+ py_repr (s_worker_id s)).

Definition _execute_claimed_job (s : Scheduler) (job : JobRecord) (now : option datetime)
    : M World RunRecord :=
  let* requested_start := current_time now in
  let attempt := j_attempt_count job + 1 in
  let* started := zoom w_jobs_lens (try_mark_job_running (j_id job) attempt (s_worker_id s)) in
  if negb started then raise (superseded s job) else
  let* running_event := zoom w_bus_lens
    (emit "job.running"
       (job_event s job None
          (list_to_map [("kind", JStr (j_kind job)); ("attempt", JInt attempt)])
          (Some (j_created_at job)))) in
  let* started_at := zoom w_process_lens
    (causally_after [Some (of_utc (e_created_at running_event))] (Some (of_utc requested_start))) in
  let* started_monotonic := zoom w_process_lens time_monotonic in
  let* wl := resolve_workload s job in
  let* context := new_run_context (j_id job) (j_kind job) attempt in
  let* policy := lift_result (policy_from_job_metadata (j_metadata job)) in
  let context := attempt_context job policy context in
  let* refused := (if is_container_runtime (wl_runtime wl) then container_gate s job wl policy
                   else ret None) in
  match refused with
  | Some validation_error =>
      reject_attempt s job wl context attempt started_at policy validation_error
  | None =>
      run_attempt s job wl context attempt requested_start started_at started_monotonic policy
  end.

(** ** Unexpected failures ([scheduler_failures.py]) *)

(** The [key] of the [max] over a job's runs: attempt, finished or not, time. *)
Definition run_key (r : RunRecord) : Z * Z * utc :=
  (r_attempt r, if opt_truthy (r_finished_at r) then 1 else 0,
   default (r_started_at r) (r_finished_at r)).
Definition key_lt (a b : Z * Z * utc) : bool :=
  let '(a1, a2, a3) := a in
  let '(b1, b2, b3) := b in
  (a1 <? b1) || ((a1 =? b1) && ((a2 <? b2) || ((a2 =? b2) && (a3 <? b3)))).

(** [max(runs, key)]: the first maximal element. *)
Fixpoint max_run (best : RunRecord) (l : list RunRecord) : RunRecord :=
  match l with
  | [] => best
  | r :: l' => max_run (if key_lt (run_key best) (run_key r) then r else best) l'
  end.
Definition latest_run (l : list RunRecord) : option RunRecord :=
  match l with [] => None | r :: l' => Some (max_run r l') end.

(** What the prior runs say about the raised attempt. *)
Inductive FailureCase :=
| AlreadyReconciled (latest : RunRecord)   (* the job is terminal too *)
| RepairJob (latest : RunRecord)           (* a finished run, an open job *)
| FinishRunning (running : RunRecord)      (* this attempt's run is open *)
| NewFailedRun.

Definition failure_case (current : JobRecord) (prior_runs : list RunRecord) : FailureCase :=
  match latest_run prior_runs with
  | None => NewFailedRun
  | Some latest =>
      let covers := j_attempt_count current <=? r_attempt latest in
      if negb (bool_decide (r_status latest = RRunning)) then
        if is_terminal (j_status current) && covers then AlreadyReconciled latest
        else if negb (bool_decide (j_status current = JLeased)) && covers then RepairJob latest
        else NewFailedRun
      else if covers then FinishRunning latest else NewFailedRun
  end.

Definition failed_attempt_number (current claimed : JobRecord) : Z :=
  Z.max (if bool_decide (j_status current = JLeased) then j_attempt_count current + 1
         else j_attempt_count current)
    (j_attempt_count claimed + 1).

Definition boundary_message (e : exn) : string :=
  "Scheduler job execution failed at the job boundary; the lease was released. "
  +:+ exn_name e +:+ ": " +:+ exn_str e.

(** From the attempt number on: one failed run and a failed job. *)
Definition fail_attempt (scheduler_id : string) (current : JobRecord) (attempt : Z)
    (running_run : option RunRecord) (started_at : utc) (message : string) : M World RunRecord :=
  let* context := new_run_context (j_id current) (j_kind current) attempt in
  let* policy := lift_result (policy_from_job_metadata (j_metadata current)) in
  let* attempt_started_at :=
    (match running_run with
     | Some r => ret (r_started_at r)
     | None =>
         let* latest := gets (λ w,
           latest_event_created_at (Some (j_id current)) (Some "job.running") (w_events w)) in
         zoom w_process_lens
           (causally_after [Some (of_utc (j_created_at current)); of_utc <$> latest]
              (Some (of_utc started_at)))
     end) in
  let* finished_at := _finish_attempt_timestamp (j_id current) attempt_started_at in
  let* run := lift_result
    (attempt_run current
       (match running_run with Some r => r_id r | None => gc_run_id context end)
       (j_kind current) attempt RFailed attempt_started_at (Some finished_at)
       (Some (failed_result message ∅)) (Some message) policy) in
  let* finalization := zoom w_jobs_lens
    (finalize_job_attempt run JFailed (Some message) None scheduler_id) in
  let run := af_run finalization in
  do* (if bool_decide (af_outcome finalization = Finalized) then
         do* zoom w_bus_lens (emit "job.failed"
               (mkEmit SrcScheduler
                  (list_to_map [("kind", JStr (j_kind current)); ("attempt", JInt attempt);
                                ("error", JStr message); ("scheduler_exception", JBool true)])
                  (j_project_id current) (Some (j_id current)) (Some (r_id run))
                  (j_fanout_id current) (j_schedule_id current) None (Some scheduler_id)
                  (r_finished_at run))) in
         ret tt
       else ret tt) in
  ret run.

Definition record_unexpected_job_failure (scheduler_id : string) (claimed_job : JobRecord)
    (started_at : utc) (error : exn) : M World RunRecord :=
  let* current := gets (λ w, get_job (j_id claimed_job) (w_jobs w)) in
  match current with
  | None => raise (RuntimeError ("cannot recover scheduler failure because job "
                                 +:+ py_repr (j_id claimed_job) +:+ " disappeared"))
  | Some current =>
      let* prior_runs := gets (λ w, list_job_runs (j_id current) (w_jobs w)) in
      let* prior_runs := lift_result prior_runs in
      let finish running_run :=
        fail_attempt scheduler_id current (failed_attempt_number current claimed_job) running_run
          started_at (boundary_message error) in
      match failure_case current prior_runs with
      | AlreadyReconciled latest => ret latest
      | RepairJob latest =>
          do* zoom w_jobs_lens
                (finish_job (j_id current) (job_status_of_run (r_status latest)) (r_error latest)
                   None) in
          ret latest
      | FinishRunning running => finish (Some running)
      | NewFailedRun => finish None
      end
  end.

(** ** Lease renewal ([scheduler_leases.py]) *)

(** [ActiveJobLease.__init__]; entering it starts the thread. *)
Definition open_lease (lease_seconds : Z) : M World unit :=
  raise_if (lease_seconds <=? 0) (ValueError "lease_seconds must be greater than zero").

(** One turn of [_renew_loop]: false when ownership is lost. *)
Definition renew_tick (job_id lease_owner : string) (lease_seconds : Z) : M World bool :=
  let* now := zoom w_process_lens utc_now in
  try_catch
    (zoom w_jobs_lens (try_renew_job_lease job_id lease_owner (now + seconds lease_seconds)))
    (λ _, ret true).

(** The loop until the stop event is set: each wait lets the others act. *)
Fixpoint _renew_loop (job_id lease_owner : string) (lease_seconds : Z)
    (waits : list (M World unit)) : M World unit :=
  match waits with
  | [] => ret tt
  | wait :: waits' =>
      let* renewed := renew_tick job_id lease_owner lease_seconds in
      if renewed
      then do* wait in _renew_loop job_id lease_owner lease_seconds waits'
      else ret tt
  end.

(** ** A scheduler pass *)

(** [run_claimed_job]: the lease is maintained around the attempt. *)
Definition run_claimed_job (s : Scheduler) (job : JobRecord) (now : option datetime)
    : M World RunRecord :=
  do* open_lease (s_lease_seconds s) in
  _execute_claimed_job s job now.

(** The body of the loop of [run_once]: the boundary around one attempt. *)
Definition attempt_boundary (s : Scheduler) (current : utc) (job : JobRecord)
    : M World (option RunRecord) :=
  try_catch
    (let* run := _execute_claimed_job s job (Some (of_utc current)) in ret (Some run))
    (λ e, match e with
          | JobAttemptSuperseded _ => ret None
          | _ => let* run := record_unexpected_job_failure (s_worker_id s) job current e in
                 ret (Some run)
          end).

Definition run_claimed (s : Scheduler) (current : utc) (acc : list RunRecord) (job : JobRecord)
    : M World (list RunRecord) :=
  let* run := attempt_boundary s current job in
  ret (match run with Some r => acc ++ [r] | None => acc end).

Definition run_once (s : Scheduler) (now : option datetime) : M World (list RunRecord) :=
  let* current := current_time now in
  do* zoom w_bus_lens
        (heartbeat (s_worker_id s) OwnerScheduler "running"
           {[ "runtime" := JStr (runtime_mode_str (s_runtime_mode s)) ]} None None) in
  do* materialize_due_schedules s (Some (of_utc current)) in
  let* claimed := claim_due_jobs s (Some (of_utc current)) in
  do* forM_ claimed (λ _, open_lease (s_lease_seconds s)) in
  foldM (run_claimed s current) [] claimed.

(** [run_loop] for the passes the stop event allows. *)
Fixpoint run_loop (s : Scheduler) (passes : nat) : M World unit :=
  match passes with
  | O => ret tt
  | S n => do* run_once s None in run_loop s n
  end.
End scheduler.
