(* ===== verification/Attempts.v ===== *)
(** * The attempt boundary

    Whatever happens inside one attempt of a claimed job (the registry does not
    know the kind, the image has no validation, the container engine or the
    goblin's code raises), the scheduler leaves exactly one finished run and a
    job that is no longer leased; only a cancellation can make it stand back.
    The proofs follow the handler with one assertion, [at_job], which every call
    that does not concern the job keeps. *)

From S2P Require Import Prelude CausalTime Contracts ResourcePolicies EventStore JobStore JobLifecycle RecordStore Auth Registry World Validation Scheduler.

(** ** Assertions on the shared state *)

(** The rows of a job's runs. *)
Definition runs_of (id : string) (t : JobTables) : gmap string RunRecord :=
  filter (λ kv, r_job_id kv.2 = id) (runs t).

(** What may happen to a job while its scheduler holds it: its lease is extended,
    or it is cancelled. *)
Definition tended (j j' : JobRecord) : Prop :=
  same_job j j' ∧ j_attempt_count j' = j_attempt_count j
  ∧ ((j_status j' = j_status j ∧ j_lease_owner j' = j_lease_owner j) ∨ j_status j' = JCancelled).

Section attempts.
Context `{Env}.

(** The ids the process will still draw are not in use. *)
Definition ids_free (w : World) : Prop :=
  ∀ n, (uuids (w_process w) ≤ n)%nat →
    events (w_events w) !! uuid4 n = None ∧ jobs (w_jobs w) !! uuid4 n = None
    ∧ runs (w_jobs w) !! uuid4 n = None ∧ w_audit w !! uuid4 n = None.

Record good (w : World) : Prop := {
  good_log : log_ok (w_events w);
  good_tables : tables_ok (w_jobs w);
  good_ids : ids_free w
}.

(** A run id that was drawn and is not used yet. *)
Definition reserved (rid : string) (w : World) : Prop :=
  runs (w_jobs w) !! rid = None ∧ ∀ n, (uuids (w_process w) ≤ n)%nat → uuid4 n ≠ rid.

(** Job [id] is [j] up to tending, its runs are [rs], and [res] is reserved. *)
Record at_job (id : string) (j : JobRecord) (rs : gmap string RunRecord) (res : option string)
    (w : World) : Prop := {
  at_good : good w;
  at_row : ∃ j', jobs (w_jobs w) !! id = Some j' ∧ tended j j';
  at_runs : runs_of id (w_jobs w) = rs;
  at_res : ∀ rid, res = Some rid → reserved rid w
}.

(** A call that keeps the assertion, and one that also never raises. *)
Definition keeps_job (id : string) (w w' : World) : Prop :=
  ∀ j rs res, at_job id j rs res w → at_job id j rs res w'.
#[export] Instance keeps_job_preorder id : PreOrder (keeps_job id).
Proof. split; [by intros w j|]. intros w1 w2 w3 H12 H23 j rs res Hw. by apply H23, H12. Qed.
Abbreviation Keeps id m := (Within (keeps_job id) m).
Class Safe (id : string) {A} (m : M World A) : Prop := {
  safe_keeps :: Keeps id m;
  safe_ok : ∀ w, good w → is_ok (m w).2 = true
}.

(** Steps of a proof that follows a handler. *)
Lemma triple_keep {A B} id j rs res (m : M World A) (k : A → M World B) Q E :
  Keeps id m → (∀ a, triple (at_job id j rs res) (k a) Q E) →
  (∀ e w, at_job id j rs res w → E e w) → triple (at_job id j rs res) (bind m k) Q E.
Proof.
  intros Hm Hk HE. apply triple_bind with (λ _, at_job id j rs res); [|done].
  intros w Hw. specialize (Hm _ _ _ _ Hw). destruct (m w) as [w' [a|e]]; auto.
Qed.

Lemma triple_safe {A B} id j rs res (m : M World A) (k : A → M World B) Q E :
  Safe id m → (∀ a, triple (at_job id j rs res) (k a) Q E) →
  triple (at_job id j rs res) (bind m k) Q E.
Proof.
  intros Hm Hk w Hw. pose proof (safe_keeps _ _ _ _ Hw) as Hw'.
  pose proof (safe_ok w (at_good _ _ _ _ _ Hw)) as Hok. unfold bind.
  destruct (m w) as [w' [a|e]]; [|done]. by apply Hk.
Qed.

Lemma triple_gets {A B} id j rs res (f : World → A) (k : A → M World B) Q E :
  (∀ w, at_job id j rs res w → match k (f w) w with (w', Ok a) => Q a w' | (w', Err e) => E e w' end) →
  triple (at_job id j rs res) (bind (gets f) k) Q E.
Proof. intros Hk w Hw. unfold bind, gets. by apply Hk. Qed.

(** ** Calls that keep the assertion *)

Section keeps.
Context (id : string) {A : Type}.

(** Calls on the tables the assertion does not read. *)
#[export] Instance keeps_validations (m : M (table WorkerValidationRecord) A) :
  Keeps id (zoom w_validations_lens m).
Proof. intros w j rs res [[] ? ? ?]. rewrite zoom_eq. by split. Qed.

(** Clock readings and drawn ids. *)
Lemma keeps_process (m : M Process A) :
  (∀ p, uuids p ≤ uuids (m p).1)%nat → Keeps id (zoom w_process_lens m).
Proof.
  intros Hm w j rs res [[Hlog Htab Hids] Hrow Hruns Hres]. rewrite zoom_eq.
  specialize (Hm (w_process w)). split; simpl; [split; simpl; [done..|]|done|done|].
  - intros n Hn. apply Hids. simpl in Hn. lia.
  - intros rid Hrid. destruct (Hres rid Hrid) as [Hno Hne]. split; [done|].
    intros n Hn. apply Hne. simpl in Hn. lia.
Qed.
End keeps.

Lemma safe_process {A} id (m : M Process A) :
  (∀ p, uuids p ≤ uuids (m p).1)%nat → (∀ p, is_ok (m p).2 = true) →
  Safe id (zoom w_process_lens m).
Proof.
  intros Hm Hok. split; [by apply keeps_process|]. intros w _. rewrite zoom_eq. apply Hok.
Qed.

#[export] Instance safe_utc_now id : Safe id (zoom w_process_lens utc_now).
Proof. by apply safe_process; intros p; simpl. Qed.
#[export] Instance safe_wall_now id : Safe id (zoom w_process_lens wall_now).
Proof. by apply safe_process; intros p; simpl. Qed.
#[export] Instance safe_monotonic id : Safe id (zoom w_process_lens time_monotonic).
Proof. by apply safe_process; intros p; simpl. Qed.
#[export] Instance safe_uuid id : Safe id (zoom w_process_lens new_uuid).
Proof. apply safe_process; intros p; simpl; [lia|done]. Qed.
#[export] Instance safe_causally id preds c :
  Safe id (zoom w_process_lens (causally_after preds (Some c))).
Proof. by apply safe_process; intros p; unfold causally_after, bind, ret; simpl. Qed.
#[export] Instance safe_current_time id now : Safe id (current_time now).
Proof. destruct now as [d|]; [|apply _]. split; [apply _|done]. Qed.
#[export] Instance keeps_clock id : ClockWithin (keeps_job id).
Proof. split; apply _. Qed.
End attempts.

Abbreviation Keeps id m := (Within (keeps_job id) m).

Section attempt.
Context `{Sqlite} `{Env} `{Crypto} `{Pydantic} `{Floats} `{Imports} `{Host} `{Workers}.
Context `{!Inj eq eq uuid4}.

(** Events and audit entries draw their own ids. *)
Lemma emit_world event_type a w :
  good w →
  ∃ b' e, zoom w_bus_lens (emit event_type a) w = (put w_bus_lens b' w, Ok e)
    ∧ uuids (bus_process b') = S (uuids (w_process w)) ∧ good (put w_bus_lens b' w)
    ∧ e_event_type e = event_type ∧ e_job_id e = em_job_id a
    ∧ events (bus_events b') = <[e_id e := e]> (events (w_events w)).
Proof.
  intros [Hlog Htab Hids].
  destruct (emit_run event_type a (view w_bus_lens w)) as (b' & e & Hrun & Hid & He);
    [exact Hlog|by apply Hids|]. simpl in Hid. destruct_and!.
  exists b', e. rewrite zoom_eq, Hrun. split_and!; [done|done| |done..]. split; simpl; [done..|].
  intros n Hle. simpl in Hle. destruct (Hids n) as (? & ? & ? & ?); [simpl in *; lia|].
  split_and!; [|done..]. simpl.
  match goal with He : events (bus_events b') = _ |- _ => rewrite He end.
  rewrite Hid, lookup_insert_ne; [done|]. intros Heq%(inj uuid4). simpl in *. lia.
Qed.

#[export] Instance safe_emit id event_type a : Safe id (zoom w_bus_lens (emit event_type a)).
Proof.
  split.
  - intros w j rs res [Hgood Hrow Hruns Hres].
    destruct (emit_world event_type a w Hgood) as (b' & e & Hb & Hn & Hgood' & _).
    rewrite Hb. split; simpl; [done..|]. intros rid Hrid. destruct (Hres rid Hrid) as [? Hne].
    split; [done|]. intros n Hle. apply Hne. simpl in Hle. lia.
  - intros w Hgood. by destruct (emit_world event_type a w Hgood) as (b' & e & -> & _).
Qed.

Lemma audit_world action outcome pr p rt ri d w :
  good w →
  ∃ x' r, zoom w_audited_lens (audit action outcome pr p rt ri d) w = (put w_audited_lens x' w, Ok tt)
    ∧ uuids (ad_process x') = S (uuids (w_process w)) ∧ good (put w_audited_lens x' w)
    ∧ al_action r = action ∧ al_outcome r = outcome ∧ w_audit w !! al_id r = None
    ∧ ad_logs x' = <[al_id r := r]> (w_audit w).
Proof.
  intros [Hlog Htab Hids]. rewrite zoom_eq. unfold audit.
  erewrite bind_zoom by reflexivity. erewrite bind_zoom by reflexivity.
  match goal with |- context [save_audit_log ?row] => set (r := row) end.
  unfold save_audit_log. rewrite zoom_eq. unfold insert_row.
  destruct (Hids (uuids (w_process w))) as (_ & _ & _ & Hnew); [done|].
  change (view ad_logs_lens _) with (w_audit w). change (al_id r) with (uuid4 (uuids (w_process w))).
  rewrite Hnew. cbn [fst snd]. eexists (mkAudited _ _), r. split; [reflexivity|].
  split_and!; [done| |done..]. split; [exact Hlog|exact Htab|]. intros n Hle. cbn in Hle.
  destruct (Hids n) as (? & ? & ? & ?); [lia|]. split_and!; [done..|].
  change (<[al_id r := r]> (w_audit w) !! uuid4 n = None).
  rewrite lookup_insert_ne; [done|]. intros Heq%(inj uuid4). simpl in Heq. lia.
Qed.

#[export] Instance safe_audit id action outcome pr p rt ri d :
  Safe id (zoom w_audited_lens (audit action outcome pr p rt ri d)).
Proof.
  split.
  - intros w j rs res [Hgood Hrow Hruns Hres].
    destruct (audit_world action outcome pr p rt ri d w Hgood) as (x' & r & Hb & Hn & Hgood' & _).
    rewrite Hb. split; simpl; [done..|]. intros rid Hrid. destruct (Hres rid Hrid) as [? Hne].
    split; [done|]. intros n Hle. apply Hne. simpl in Hle. lia.
  - intros w Hgood. by destruct (audit_world action outcome pr p rt ri d w Hgood) as (x' & r & -> & _).
Qed.

(** ** The three calls that change the job *)

Lemma tended_refl j : tended j j.
Proof. split_and!; auto with store. Qed.
Lemma tended_trans j1 j2 j3 : tended j1 j2 → tended j2 j3 → tended j1 j3.
Proof.
  intros (Hs1 & Ha1 & Ht1) (Hs2 & Ha2 & Ht2). split; [by eapply same_job_trans|].
  split; [congruence|]. destruct Ht2 as [[Hst Ho]|?]; [|by right].
  destruct Ht1 as [[? ?]|?]; [left|right]; intuition congruence.
Qed.
Lemma tended_run_job n j j' :
  tended j j' → j_status j' ≠ JCancelled → tended (run_job n j) (run_job n j').
Proof.
  intros (Hs & Ha & Hst) Hno. destruct Hst as [[Hst Ho]|]; [|done].
  split_and!; [|done|by left]. unfold same_job in *. rewrite Hs. by destruct j.
Qed.
Lemma tended_finished_job st err due_at j j' :
  tended j j' → tended (finished_job st err due_at j) (finished_job st err due_at j').
Proof.
  intros (Hs & Ha & Hst). split_and!; [|done|by left]. unfold same_job in *. rewrite Hs. by destruct j.
Qed.
Lemma tended_cancelled_finished st err due_at j j' :
  tended j j' → j_status j' = JCancelled → tended (finished_job st err due_at j) j'.
Proof.
  intros (Hs & Ha & _) Hst. split_and!; [|done|by right]. unfold same_job in *. rewrite Hs. by destruct j.
Qed.

(** A change of the job tables that keeps the ids free. *)
Lemma good_jobs w t :
  good w → tables_ok t →
  (∀ k, is_Some (jobs t !! k) → is_Some (jobs (w_jobs w) !! k) ∨
                                ∀ n, (uuids (w_process w) ≤ n)%nat → uuid4 n ≠ k) →
  (∀ k, is_Some (runs t !! k) → is_Some (runs (w_jobs w) !! k) ∨
                                ∀ n, (uuids (w_process w) ≤ n)%nat → uuid4 n ≠ k) →
  good (put w_jobs_lens t w).
Proof.
  intros [Hlog Htab Hids] Ht Hj Hr. split; simpl; [done..|]. intros n Hn. simpl in *.
  destruct (Hids n Hn) as (? & Hjn & Hrn & ?). split_and!; [done| | |done].
  - destruct (jobs t !! uuid4 n) eqn:E; [|done]. exfalso. destruct (Hj (uuid4 n)) as [[]|Hno];
      [eauto|congruence|by apply (Hno n)].
  - destruct (runs t !! uuid4 n) eqn:E; [|done]. exfalso. destruct (Hr (uuid4 n)) as [[]|Hno];
      [eauto|congruence|by apply (Hno n)].
Qed.

(** Starting: the row is still leased, or it was cancelled meanwhile. *)
Lemma try_mark_triple id j rs res n w :
  1 ≤ n → j_status j = JLeased → j_lease_owner j = Some w →
  triple (at_job id j rs res) (zoom w_jobs_lens (try_mark_job_running id n w))
    (λ started w', if started then at_job id (run_job n j) rs res w'
                   else at_job id j rs res w' ∧
                        ∃ j', jobs (w_jobs w') !! id = Some j' ∧ j_status j' = JCancelled)
    (λ _ _, False).
Proof.
  intros Hn Hst Ho s [Hgood (j' & Hj' & Htend) Hruns Hres].
  rewrite zoom_eq. simpl. unfold try_mark_job_running. rewrite zoom_eq. simpl.
  pose proof (step_ok (OpStart id n w) (w_jobs s) Hn (good_tables _ Hgood)) as Ht.
  unfold step in Ht. simpl in Ht. rewrite bind_ret_state in Ht. unfold try_mark_job_running in Ht.
  rewrite zoom_eq in Ht. simpl in Ht. unfold update_row in *. rewrite Hj' in *.
  destruct Htend as (Hs & Ha & Htend). destruct Htend as [[Hst' Ho']|Hc].
  - rewrite bool_decide_eq_true_2 in * by congruence.
    rewrite bool_decide_eq_true_2 in * by congruence. simpl in *. split; simpl.
    + apply good_jobs; [done|exact Ht| |]; simpl; intros k Hk; left; [|done].
      destruct (decide (k = id)) as [->|Hne]; [by eauto|by rewrite lookup_insert_ne in Hk].
    + exists (run_job n j'). rewrite lookup_insert_eq. split; [done|].
      apply tended_run_job; [|congruence]. split_and!; auto.
    + exact Hruns.
    + intros rid Hrid. by destruct (Hres rid Hrid).
  - rewrite (bool_decide_eq_false_2 (j_status j' = JLeased)) in * by congruence. simpl in *.
    assert (mkJobTables (jobs (w_jobs s)) (runs (w_jobs s)) (artifacts (w_jobs s))
              (handoffs (w_jobs s)) = w_jobs s) as -> by (by destruct (w_jobs s)).
    assert (∀ s', s' = s → at_job id j rs res s' ∧
              ∃ j0, jobs (w_jobs s') !! id = Some j0 ∧ j_status j0 = JCancelled) as Hsame.
    { intros s' ->. split; [|by eauto]. split; [done| |done|done]. exists j'. split_and!; [done|].
      split_and!; auto. }
    match goal with |- at_job _ _ _ _ ?x ∧ _ => apply (Hsame x) end. by destruct s.
Qed.

(** ** Runs of one job *)

Lemma runs_of_lookup id t k r :
  runs_of id t !! k = Some r ↔ runs t !! k = Some r ∧ r_job_id r = id.
Proof. unfold runs_of. by rewrite map_lookup_filter_Some. Qed.

Lemma runs_of_insert id k r (t : gmap string RunRecord) :
  r_job_id r = id → filter (λ kv : string * RunRecord, r_job_id kv.2 = id) (<[k := r]> t)
    = <[k := r]> (filter (λ kv : string * RunRecord, r_job_id kv.2 = id) t).
Proof. intros Hid. by rewrite map_filter_insert_True. Qed.

(** The run's id is the reserved one, or that of the job's open run with the same
    lineage: the two ways an attempt ends. *)
Definition closes (rs : gmap string RunRecord) (res : option string) (run : RunRecord) : Prop :=
  res = Some (r_id run)
  ∨ ∃ old, rs !! r_id run = Some old ∧ r_status old = RRunning ∧ lineage run = lineage old.

Lemma reserved_not_used id j rs rid w k :
  at_job id j rs (Some rid) w → k = rid → ∀ n, (uuids (w_process w) ≤ n)%nat → uuid4 n ≠ k.
Proof. intros [_ _ _ Hres] ->. by destruct (Hres rid eq_refl). Qed.

Lemma start_run_triple id j rs run :
  r_job_id run = id → start_error run = None → validate_timestamp_order run = Ok run →
  triple (at_job id j rs (Some (r_id run))) (zoom w_jobs_lens (start_run run))
    (λ _, at_job id j (<[r_id run := _run_values run]> rs) None) (λ _ _, False).
Proof.
  intros Hid Herr Hval w Hw. pose proof Hw as [Hgood (j' & Hj' & Htend) Hruns Hres].
  destruct (Hres _ eq_refl) as [Hfree _].
  pose proof (step_ok (OpStartRun run) (w_jobs w) Hval (good_tables _ Hgood)) as Ht.
  unfold step in Ht. simpl in Ht. rewrite bind_ret_state, start_run_run, Herr, Hfree in Ht.
  rewrite zoom_eq. simpl. rewrite start_run_run, Herr, Hfree. simpl in Ht |- *. split.
  - apply good_jobs; [done|exact Ht|by left|]. simpl. intros k Hk.
    destruct (decide (k = r_id run)) as [->|Hne]; [|by left; rewrite lookup_insert_ne in Hk].
    right. by eapply reserved_not_used.
  - simpl. eauto.
  - simpl. rewrite <- Hruns. unfold runs_of. simpl. by rewrite runs_of_insert.
  - done.
Qed.

Lemma closes_no_error id j rs res run w :
  at_job id j rs res w → r_job_id run = id → is_terminal_run (r_status run) = true →
  closes rs res run → finalize_error run (w_jobs w) = None.
Proof.
  intros [_ _ Hruns Hres] Hid Hterm Hc. unfold finalize_error. rewrite Hterm. simpl.
  destruct Hc as [Hr|(old & Hold & Hst & Hlin)].
  - by destruct (Hres _ Hr) as [-> _].
  - rewrite <- Hruns in Hold. apply runs_of_lookup in Hold as [-> _].
    rewrite bool_decide_eq_true_2 by done. simpl. by rewrite bool_decide_eq_true_2.
Qed.

(** The row [finalize_attempt] reads: still owned, or cancelled. *)
Lemma tended_owned w n j j' :
  owns_attempt w n j = true → tended j j' →
  (owns_attempt w n j' = true ∧ j_status j' ≠ JCancelled)
  ∨ (owns_attempt w n j' = false ∧ j_status j' = JCancelled).
Proof.
  intros Ho (Hs & Ha & [[Hst Hw]|Hc]).
  - left. unfold owns_attempt in *. rewrite Hst, Hw, Ha. split; [done|]. intros E.
    rewrite E in Ho. apply andb_true_iff in Ho as [_ Ho]. discriminate Ho.
  - right. split; [|done]. unfold owns_attempt. rewrite Hc. by rewrite andb_false_r.
Qed.

(** Finalizing: the job is finished unless it was cancelled, the run is stored,
    and nothing is raised. *)
Lemma finalize_triple id j rs res run st err due_at w :
  r_job_id run = id → is_terminal_run (r_status run) = true → is_Some (r_finished_at run) →
  validate_timestamp_order run = Ok run → is_active st = false →
  owns_attempt w (r_attempt run) j = true → closes rs res run →
  triple (at_job id j rs res) (zoom w_jobs_lens (finalize_job_attempt run st err due_at w))
    (λ f s, af_run f = run
      ∧ at_job id (finished_job st err due_at j) (<[r_id run := _run_values run]> rs) None s
      ∧ (af_outcome f = Finalized
         ∨ af_outcome f = OutcomeCancelled ∧
           ∃ row, jobs (w_jobs s) !! id = Some row ∧ j_status row = JCancelled))
    (λ _ _, False).
Proof.
  intros Hid Hterm [fin Hfin] Hval Hst Hown Hcl s Hw.
  pose proof (closes_no_error _ _ _ _ _ _ Hw Hid Hterm Hcl) as Hno.
  pose proof Hw as [Hgood (j' & Hj' & Htend) Hruns Hres].
  assert (normalize_persisted_run run = run) as Hnorm.
  { unfold normalize_persisted_run. rewrite Hfin. rewrite bool_decide_eq_false_2 by done.
    by rewrite andb_false_r. }
  pose proof (step_ok (OpFinalize run st err due_at w) (w_jobs s) (conj Hst Hval)
                (good_tables _ Hgood)) as Ht.
  unfold step in Ht. simpl in Ht. rewrite bind_ret_state in Ht.
  rewrite zoom_eq. unfold finalize_job_attempt. simpl.
  rewrite finalize_attempt_run, Hid, Hj', Hnorm, finalize_run_run in *.
  set (t1 := transition_jobs run st err due_at w j' (w_jobs s)) in *.
  assert (runs t1 = runs (w_jobs s)) as Hr1
    by (unfold t1, transition_jobs; by destruct (owns_attempt w (r_attempt run) j')).
  assert (finalize_error run t1 = None) as He1
    by (unfold finalize_error in *; by rewrite Hr1).
  rewrite He1 in *. set (t2 := match runs t1 !! _ with Some _ => _ | None => _ end) in *.
  assert (jobs t2 = jobs t1 ∧ runs t2 = runs t1) as [Hj2 Hr2]
    by (unfold t2; by destruct (runs t1 !! r_id run)).
  assert (∃ row, jobs t1 !! id = Some row ∧ tended (finished_job st err due_at j) row
    ∧ (attempt_outcome w (r_attempt run) j' = Finalized
       ∨ attempt_outcome w (r_attempt run) j' = OutcomeCancelled ∧ j_status row = JCancelled)
    ∧ ∀ k, is_Some (jobs t1 !! k) → is_Some (jobs (w_jobs s) !! k)) as (row & Hrow & Htr & Hout & Hdom).
  { unfold t1, transition_jobs, attempt_outcome.
    destruct (tended_owned _ _ _ _ Hown Htend) as [[Ho Hne]|[Ho Hc]]; rewrite Ho; simpl.
    - exists (finished_job st err due_at j'). rewrite Hid, lookup_insert_eq. split_and!; [done| |by left|].
      + by apply tended_finished_job.
      + intros k Hk. destruct (decide (k = id)) as [->|Hk']; [by eauto|].
        by rewrite lookup_insert_ne in Hk.
    - exists j'. split_and!; [done| | |done].
      + by apply tended_cancelled_finished.
      + right. by rewrite bool_decide_eq_true_2. }
  simpl in Ht |- *. split; [done|]. split; [split|].
  - apply good_jobs; [done|exact Ht| |]; simpl.
    + rewrite Hj2. intros k Hk. left. by apply Hdom.
    + rewrite Hr2, Hr1. intros k Hk. destruct (decide (k = r_id run)) as [->|Hne];
        [|by left; rewrite lookup_insert_ne in Hk].
      destruct Hcl as [->|(old & Hold & _)]; [right; by eapply reserved_not_used|left].
      rewrite <- Hruns in Hold. apply runs_of_lookup in Hold as [-> _]. eauto.
  - simpl. rewrite Hj2. by exists row.
  - simpl. unfold runs_of. simpl. rewrite Hr2, Hr1, <- Hruns. by apply runs_of_insert.
  - done.
  - destruct Hout as [?|[? ?]]; [by left|right]. split; [done|]. simpl. rewrite Hj2. by exists row.
Qed.

(** ** The pieces of an attempt *)

(** The container engine, the worker folders and the goblins' code: arbitrary, but
    they leave the job to its scheduler, and only the scheduler raises
    [JobAttemptSuperseded]. *)
Class WorkersTend (id : string) : Prop := {
  wt_run :: ∀ r d i c t p, Keeps id (container_run r d i c t p);
  wt_call :: ∀ d i c, Keeps id (entrypoint_call d i c);
  wt_not_superseded : ∀ r d i c t p w m,
    (container_run r d i c t p w).2 ≠ Err (JobAttemptSuperseded m);
  wt_import_not_superseded : ∀ d m, import_entrypoint d ≠ ImportRaised (JobAttemptSuperseded m);
  wt_open_not_superseded : ∀ mode ws m, open_runtime mode ws ≠ Err (JobAttemptSuperseded m)
}.

Context (id : string) `{!HostWithin (keeps_job id)} `{!WorkersTend id}.

#[export] Instance keeps_revalidate reg workers kind payload t root h p :
  Keeps id (revalidate reg workers kind payload t root h p).
Proof. unfold revalidate. solve_within. Qed.
#[export] Instance keeps_gate_identity r image kind p : Keeps id (gate_identity r image kind p).
Proof. unfold gate_identity. solve_within. Qed.
#[export] Instance keeps_gate s job kind reg workers r payload h p :
  Keeps id (_validate_before_container_run s job kind reg workers r payload h p).
Proof. unfold _validate_before_container_run. solve_within. Qed.

(** The gate never raises: its own failures become a refusal. *)
#[export] Instance safe_container_gate s job wl policy : Safe id (container_gate s job wl policy).
Proof.
  split; [unfold container_gate; solve_within|].
  intros w _. unfold container_gate, try_catch. by destruct (bind _ _ w) as [w' [a|e]].
Qed.
#[export] Instance keeps_resolve s job : Keeps id (resolve_workload s job).
Proof. unfold resolve_workload. cbv zeta. solve_within. Qed.
#[export] Instance safe_in_process d i c : Safe id (in_process_run d i c).
Proof.
  split; [unfold in_process_run; solve_within|].
  intros w _. unfold in_process_run, try_catch. by destruct (bind _ _ w) as [w' [a|e]].
Qed.
#[export] Instance keeps_run_workload job wl c p : Keeps id (run_workload job wl c p).
Proof. unfold run_workload. solve_within. Qed.

(** A finish is after the attempt's start. *)
Lemma finish_timestamp_triple j rs res jid started :
  triple (at_job id j rs res) (_finish_attempt_timestamp jid started)
    (λ v w, started < v ∧ at_job id j rs res w) (λ _ _, False).
Proof.
  unfold _finish_attempt_timestamp. apply triple_gets. intros w Hw.
  generalize (of_utc <$> latest_event_created_at (Some jid) None (w_events w)). intros latest.
  revert w Hw. change (triple (at_job id j rs res)
    (let* now := zoom w_process_lens utc_now in zoom w_process_lens
      (causally_after [Some (of_utc started); latest] (Some (of_utc now))))
    (λ v w, started < v ∧ at_job id j rs res w) (λ _ _, False)).
  apply triple_safe; [apply _|]. intros now w Hw.
  pose proof (safe_keeps (A := utc)
    (m := zoom w_process_lens (causally_after [Some (of_utc started); latest] (Some (of_utc now))))
    _ _ _ _ Hw) as Hk.
  rewrite zoom_eq in *. unfold causally_after, bind, ret in *. simpl in *. split; [|done].
  replace started with (ensure_utc (of_utc started)) at 1 by (unfold ensure_utc; simpl; lia).
  apply place_after_gt. left.
Qed.

Lemma attempt_run_ok job rid kind n st (started : utc) (fin : option utc) res err policy :
  (∀ f, fin = Some f → started ≤ f) →
  ∃ run, attempt_run job rid kind n st started fin res err policy = Ok run
    ∧ validate_timestamp_order run = Ok run
    ∧ r_id run = rid ∧ r_status run = st ∧ r_finished_at run = fin ∧ r_result run = res
    ∧ r_error run = err ∧ lineage run = (j_id job, kind, j_project_id job, n).
Proof.
  intros Hle. unfold attempt_run. set (run := mkRun _ _ _ _ _ _ _ _ _ _ _ _ _ _).
  assert (validate_timestamp_order run = Ok run) as Hv.
  { unfold validate_timestamp_order. simpl. destruct fin as [f|]; [|done].
    specialize (Hle f eq_refl). destruct (Z.ltb_spec f started); [lia|done]. }
  by exists run.
Qed.

(** ** One attempt, from the claimed row [row] to its end *)

Section one.
Context (s : Scheduler) (row job : JobRecord) (rs : gmap string RunRecord).
Context (Hjob : job = _row_to_job row) (Hid : j_id row = id).
Context (Howner : j_lease_owner row = Some (s_worker_id s)).
Let n : Z := j_attempt_count row + 1.
Context (Hcount : 0 ≤ j_attempt_count row).

(** How an attempt ends: its run is finished and stored among the others, and the
    job has the run's status, or is to be retried after a failure. *)
Definition settled (run : RunRecord) (w : World) : Prop :=
  r_job_id run = id ∧ r_attempt run = n ∧ is_terminal_run (r_status run) = true
  ∧ ∃ st err due_at,
      (st = job_status_of_run (r_status run)
       ∨ st = JRetrying ∧ r_status run = RFailed ∧ n ≤ j_max_retries row)
      ∧ at_job id (finished_job st err due_at (run_job n row))
          (<[r_id run := _run_values run]> rs) None w.

Lemma owns_running : owns_attempt (s_worker_id s) n (run_job n row) = true.
Proof.
  unfold owns_attempt. simpl. rewrite Howner, !bool_decide_eq_true_2 by done.
  by rewrite Z.eqb_refl.
Qed.

Lemma not_active_of_run st : is_terminal_run st = true → is_active (job_status_of_run st) = false.
Proof. by destruct st. Qed.

(** Finalizing and the event that follows it. *)
Lemma settle_triple {A} run st err due_at rs1 res (k : AttemptFinalization → M World A) Q :
  r_job_id run = id → r_attempt run = n → is_terminal_run (r_status run) = true →
  is_Some (r_finished_at run) → validate_timestamp_order run = Ok run →
  (st = job_status_of_run (r_status run)
   ∨ st = JRetrying ∧ r_status run = RFailed ∧ n ≤ j_max_retries row) →
  closes rs1 res run →
  <[r_id run := _run_values run]> rs1 = <[r_id run := _run_values run]> rs →
  (∀ f, af_run f = run →
     triple (at_job id (finished_job st err due_at (run_job n row))
               (<[r_id run := _run_values run]> rs) None)
       (k f) (λ a w, Q a ∧ at_job id (finished_job st err due_at (run_job n row))
               (<[r_id run := _run_values run]> rs) None w) (λ _ _, False)) →
  triple (at_job id (run_job n row) rs1 res)
    (let* f := zoom w_jobs_lens (finalize_job_attempt run st err due_at (s_worker_id s)) in k f)
    (λ a w, Q a ∧ settled run w) (λ _ _, False).
Proof.
  intros Hrid Hn Hterm Hfin Hval Hst Hcl Heq Hk.
  eapply triple_bind.
  - apply finalize_triple; try done.
    + destruct Hst as [->|[-> _]]; [by apply not_active_of_run|done].
    + rewrite Hn. apply owns_running.
  - intros f w (Hf & Hw & _). rewrite Heq in Hw. specialize (Hk f Hf w Hw).
    destruct (k f w) as [w' [a|e]]; [|done]. destruct Hk as [HQ Hw']. split; [done|].
    split_and!; [done..|]. by exists st, err, due_at.
Qed.

Lemma settle_attempt_triple c requested started mono policy res rs1 old :
  rs1 !! gc_run_id c = Some old → r_status old = RRunning →
  lineage old = (id, j_kind job, j_project_id job, n) →
  (∀ v, <[gc_run_id c := v]> rs1 = <[gc_run_id c := v]> rs) →
  triple (at_job id (run_job n row) rs1 None)
    (settle_attempt s job c n requested started mono policy res) settled (λ _ _, False).
Proof.
  intros Hold Hst Hlin Heq. unfold settle_attempt.
  eapply triple_bind; [apply finish_timestamp_triple|]. intros fin. apply triple_pure. intros Hlt.
  apply triple_safe; [apply _|]. intros now. cbv zeta.
  set (status := _status_for_result res (now - mono) (j_timeout_seconds job)).
  destruct (settled_result job status res) as [res' err].
  destruct (attempt_run_ok job (gc_run_id c) (j_kind job) n status started (Some fin) (Some res')
              err policy) as (run & -> & Hval & Hrid & Hstat & Hfin & _ & _ & Hlineage);
    [intros f [= <-]; lia|..].
  change (triple (at_job id (run_job n row) rs1 None)
    (let* f := zoom w_jobs_lens (finalize_job_attempt run
       (if retrying job n status then JRetrying else job_status_of_run status) err
       (if retrying job n status then Some requested else None) (s_worker_id s)) in
     (λ f, if negb (bool_decide (af_outcome f = Finalized)) then ret (af_run f)
      else let* _ := zoom w_bus_lens
        (emit (if retrying job n status then "job.retrying" else "job." +:+ run_status_str status)
           (job_event s job (Some (r_id (af_run f)))
              (list_to_map [("kind", JStr (j_kind job)); ("attempt", JInt n); ("error", JOptStr err)])
              (r_finished_at (af_run f)))) in ret (af_run f)) f) settled (λ _ _, False)).
  assert (r_job_id run = id ∧ r_attempt run = n) as [Hj Ha].
  { unfold lineage in Hlineage. injection Hlineage as Hj _ _ Ha. split; [|done]. by rewrite Hj, Hjob. }
  assert (is_terminal_run status = true) as Hterm.
  { unfold status, _status_for_result. by repeat case_match. }
  apply triple_weaken with (P' := at_job id (run_job n row) rs1 None)
    (Q' := λ r w, r = run ∧ settled run w) (E' := λ _ _, False);
    [|done|by intros ? ? [-> ?]|done].
  apply settle_triple with (Q := λ r, r = run).
  - exact Hj.
  - exact Ha.
  - by rewrite Hstat.
  - rewrite Hfin. eauto.
  - exact Hval.
  - rewrite Hstat. unfold retrying. case_bool_decide as Hf; simpl; [|by left].
    destruct (Z.leb_spec n (j_max_retries job)); [right|by left]. by subst job.
  - right. exists old. rewrite Hrid, Hlin, Hlineage. subst job. by rewrite <- Hid.
  - by rewrite Hrid.
  - intros f Hf. destruct (negb _).
    + apply triple_ret. intros w Hw. by rewrite Hf.
    + apply triple_safe; [apply _|]. intros e. apply triple_ret. intros w Hw. by rewrite Hf.
Qed.

Lemma unreserve j rs1 res w : at_job id j rs1 res w → at_job id j rs1 None w.
Proof. by intros [? ? ? ?]. Qed.

Lemma reserved_not_run j rs1 rid w : at_job id j rs1 (Some rid) w → rs1 !! rid = None.
Proof.
  intros [_ _ Hruns Hres]. destruct (Hres rid eq_refl) as [Hno _]. rewrite <- Hruns.
  destruct (runs_of id (w_jobs w) !! rid) eqn:E; [|done].
  apply runs_of_lookup in E as [E _]. congruence.
Qed.

(** The context of an attempt reserves its run id. *)
Lemma run_context_triple j rs1 job_id kind k :
  triple (at_job id j rs1 None) (new_run_context job_id kind k)
    (λ c, at_job id j rs1 (Some (gc_run_id c))) (λ _ _, False).
Proof.
  intros w Hw. pose proof (within (R := keeps_job id) (m := new_run_context job_id kind k) _ _ _ _ Hw) as Hw'.
  destruct Hw as [[_ _ Hids] _ _ _]. unfold new_run_context, bind, ret, zoom in *.
  simpl in *.
  destruct Hw' as [Hgood Hrow Hruns _]. split; [done..|]. intros rid [= <-]. split; simpl.
  - apply Hids. simpl. lia.
  - simpl. intros m Hm Heq%(inj uuid4). lia.
Qed.

Lemma attempt_context_id policy c : gc_run_id (attempt_context job policy c) = gc_run_id c.
Proof. unfold attempt_context. by destruct (j_project_id job), policy. Qed.

(** A run of a refused image. *)
Lemma reject_attempt_triple wl c started policy err :
  triple (at_job id (run_job n row) rs (Some (gc_run_id c)))
    (reject_attempt s job wl c n started policy err) settled (λ _ _, False).
Proof.
  unfold reject_attempt.
  eapply triple_bind; [apply finish_timestamp_triple|]. intros fin. apply triple_pure. intros Hlt.
  destruct (attempt_run_ok job (gc_run_id c) (gd_kind (wl_definition wl)) n RFailed started (Some fin)
              (Some (failed_result err ∅)) (Some err) policy)
    as (run & -> & Hval & Hrid & Hstat & Hfin & _ & _ & Hlineage); [intros f [= <-]; lia|].
  unfold lineage in Hlineage. injection Hlineage as Hj _ _ Ha.
  match goal with |- triple _ (bind (lift_result (Ok ?r)) ?k) _ _ =>
    change (triple (at_job id (run_job n row) rs (Some (gc_run_id c))) (k r) settled (λ _ _, False))
  end. cbv beta.
  apply triple_weaken with (P' := at_job id (run_job n row) rs (Some (gc_run_id c)))
    (Q' := λ r w, r = run ∧ settled run w) (E' := λ _ _, False);
    [|done|by intros ? ? [-> ?]|done].
  apply settle_triple with (Q := λ r, r = run).
  - by rewrite Hj, Hjob.
  - exact Ha.
  - by rewrite Hstat.
  - rewrite Hfin. eauto.
  - exact Hval.
  - left. by rewrite Hstat.
  - left. by rewrite Hrid.
  - done.
  - intros f Hf. apply triple_safe.
    + destruct (bool_decide _); [|split; [apply _|done]].
      split; [apply _|]. intros w Hw. unfold bind.
      match goal with |- context [zoom w_bus_lens (emit ?t ?a) w] =>
        pose proof (safe_ok (Safe := safe_emit id t a) w Hw) as Hok;
        destruct (zoom w_bus_lens (emit t a) w) as [? []] end; done.
    + intros []. apply triple_safe; [apply _|]. intros []. apply triple_ret. intros w Hw. by rewrite Hf.
Qed.

(** An attempt that was cut short by an exception: nothing stored yet, or its run
    still open. *)
Definition interrupted (w : World) : Prop :=
  at_job id (run_job n row) rs None w
  ∨ ∃ opened, r_status opened = RRunning ∧ lineage opened = (id, j_kind row, j_project_id row, n)
      ∧ rs !! r_id opened = None
      ∧ at_job id (run_job n row) (<[r_id opened := _run_values opened]> rs) None w.

Definition is_superseded (e : exn) : bool :=
  match e with JobAttemptSuperseded _ => true | _ => false end.

Lemma run_workload_not_superseded wl c policy w m :
  (run_workload job wl c policy w).2 ≠ Err (JobAttemptSuperseded m).
Proof.
  unfold run_workload. destruct (is_container_runtime _); [apply wt_not_superseded|].
  destruct (wl_notebook wl); [done|]. unfold in_process_run, try_catch.
  by destruct (bind _ _ w) as [w' [a|e]].
Qed.

Lemma run_attempt_triple wl c requested started mono policy :
  triple (at_job id (run_job n row) rs (Some (gc_run_id c)))
    (run_attempt s job wl c n requested started mono policy) settled
    (λ e w, is_superseded e = false ∧ interrupted w).
Proof.
  unfold run_attempt.
  destruct (attempt_run_ok job (gc_run_id c) (j_kind job) n RRunning started None None None policy)
    as (opened & -> & Hval & Hrid & Hstat & Hfin & Hres & Herr & Hlineage); [done|].
  match goal with |- triple _ (bind (lift_result (Ok ?r)) ?k) _ _ =>
    change (triple (at_job id (run_job n row) rs (Some (gc_run_id c))) (k r) settled
              (λ e w, is_superseded e = false ∧ interrupted w))
  end. cbv beta.
  assert (lineage opened = (id, j_kind row, j_project_id row, n)) as Hlin
    by (rewrite Hlineage, Hjob; simpl; by rewrite Hid).
  intros w Hw. pose proof (reserved_not_run _ _ _ _ Hw) as Hnew. revert w Hw.
  change (triple (at_job id (run_job n row) rs (Some (gc_run_id c)))
    (let* _ := zoom w_jobs_lens (start_run opened) in
     let* res := run_workload job wl c policy in
     settle_attempt s job c n requested started mono policy res) settled
    (λ e w, is_superseded e = false ∧ interrupted w)).
  eapply triple_bind.
  - rewrite <- Hrid.
    apply triple_weaken with (P' := at_job id (run_job n row) rs (Some (r_id opened)))
      (Q' := λ _, at_job id (run_job n row) (<[r_id opened := _run_values opened]> rs) None)
      (E' := λ _ _, False); [|done|by intros a w Hw; exact Hw|done].
    apply start_run_triple; [|by unfold start_error; rewrite Hstat, Hfin, Hres, Herr|done].
    unfold lineage in Hlin. congruence.
  - intros r w Hw. simpl in Hw. rewrite Hrid in Hw. unfold bind.
    pose proof (within (R := keeps_job id) (m := run_workload job wl c policy) _ _ _ _ Hw) as Hw1.
    pose proof (run_workload_not_superseded wl c policy w) as Hns.
    destruct (run_workload job wl c policy w) as [w1 [res|e]]; simpl in *.
    + pose proof (settle_attempt_triple c requested started mono policy res
        (<[gc_run_id c := _run_values opened]> rs) (_run_values opened)) as Ht.
      specialize (Ht ltac:(by rewrite lookup_insert_eq) Hstat
        ltac:(transitivity (lineage opened); [done|by rewrite Hlin, Hjob])
        ltac:(intros v; by rewrite insert_insert_eq) w1 Hw1).
      destruct (settle_attempt _ _ _ _ _ _ _ _ _ w1) as [w2 [run|e]]; done.
    + split; [destruct e; try done; by destruct (Hns msg)|]. right. exists opened.
      rewrite Hrid. done.
Qed.

Lemma resolve_not_superseded w m : (resolve_workload s job w).2 ≠ Err (JobAttemptSuperseded m).
Proof.
  unfold resolve_workload. cbv zeta. set (container := negb _).
  assert (∀ kind, registry_get (s_registry s) kind ≠ Err (JobAttemptSuperseded m)) as Hget
    by (intros kind; unfold registry_get; by destruct (s_registry s !! kind)).
  destruct (if container then _ else _) as [d|e] eqn:Hlook; [done|].
  assert (e ≠ JobAttemptSuperseded m) as Hne.
  { intros ->. destruct container; [by apply Hget in Hlook|]. unfold registry_resolve in Hlook.
    destruct (registry_get _ _) as [d|e] eqn:Hg; simpl in Hlook; [|by apply (Hget (j_kind job)); congruence].
    destruct (import_entrypoint d) as [| e' | | |] eqn:Hi; try discriminate Hlook.
    injection Hlook as ->. by apply wt_import_not_superseded in Hi. }
  destruct (negb (is_registry_error e)); [intros [= ?]; congruence|].
  unfold bind at 1, gets. destruct (get_notebook_goblin _ _) as [nb|]; [|intros [= ?]; congruence].
  destruct container; [|done].
  assert (∃ r, from_definitions [notebook_definition nb] = Ok r) as [r ->]
    by (unfold from_definitions, _index_definitions; simpl; rewrite lookup_empty; by eexists).
  unfold bind, lift_result.
  destruct (_build_runtime_for_workers s (notebook_worker_map nb)) as [rt|e'] eqn:Hb; [done|].
  simpl. intros [= ->]. unfold _build_runtime_for_workers, _build_runtime in Hb.
  destruct (s_runtime_mode s); [| |discriminate Hb].
  all: destruct (open_runtime _ _) eqn:Ho; simpl in Hb; [discriminate Hb|];
    injection Hb as ->; by apply wt_open_not_superseded in Ho.
Qed.

(** The whole attempt. *)
Lemma execute_triple now policy :
  j_status row = JLeased → policy_from_job_metadata (j_metadata row) = Ok policy →
  triple (at_job id row rs None) (_execute_claimed_job s job now) settled
    (λ e w, (is_superseded e = true ∧ at_job id row rs None w
             ∧ ∃ j', jobs (w_jobs w) !! id = Some j' ∧ j_status j' = JCancelled)
            ∨ (is_superseded e = false ∧ interrupted w)).
Proof.
  intros Hst Hpol. unfold _execute_claimed_job.
  apply triple_safe; [apply _|]. intros requested. cbv zeta.
  assert (j_attempt_count job + 1 = n ∧ j_id job = id) as [-> ->] by (subst job; done).
  eapply triple_then; [apply try_mark_triple; [unfold n; lia|done|done]|].
  intros [|]; [|intros w [Hw Hc]; by left]. simpl.
  apply triple_weaken with (P' := at_job id (run_job n row) rs None) (Q' := settled)
    (E' := λ e w, is_superseded e = false ∧ interrupted w); [|done|done|by right].
  apply triple_safe; [apply _|]. intros ev. apply triple_safe; [apply _|]. intros started.
  apply triple_safe; [apply _|]. intros mono.
  intros w Hw. unfold bind at 1.
  pose proof (within (R := keeps_job id) (m := resolve_workload s job) _ _ _ _ Hw) as Hw1.
  pose proof (resolve_not_superseded w) as Hns.
  destruct (resolve_workload s job w) as [w1 [wl|e]]; simpl in *;
    [|split; [destruct e; try done; by destruct (Hns msg)|by left]].
  clear w Hw Hns. revert w1 Hw1.
  match goal with |- ∀ w, at_job _ _ _ _ w → match ?m w with _ => _ end =>
    change (triple (at_job id (run_job n row) rs None) m settled
              (λ e w, is_superseded e = false ∧ interrupted w)) end.
  eapply triple_then; [apply run_context_triple|].
  intros c. replace (policy_from_job_metadata (j_metadata job)) with (@Ok _ policy)
    by (subst job; by rewrite <- Hpol).
  match goal with |- triple ?P (bind (lift_result (Ok ?r)) ?k) ?Q ?E =>
    change (triple P (k r) Q E) end. cbv beta.
  rewrite <- (attempt_context_id policy c).
  apply triple_safe.
  { destruct (is_container_runtime _); [apply _|]. split; [apply _|done]. }
  intros [err|].
  - apply triple_weaken with (P' := at_job id (run_job n row) rs (Some (gc_run_id (attempt_context job policy c))))
      (Q' := settled) (E' := λ _ _, False); [apply reject_attempt_triple|done..].
  - apply run_attempt_triple.
Qed.

(** ** Reconciling an attempt that raised *)

Lemma max_run_spec best l :
  max_run best l ∈ best :: l ∧ ∀ r, r ∈ best :: l → r_attempt r ≤ r_attempt (max_run best l).
Proof.
  revert best. induction l as [|x l IH]; intros best; cbn [max_run].
  - split; [left|]. intros r Hr%list_elem_of_singleton. subst. lia.
  - destruct (key_lt (run_key best) (run_key x)) eqn:Hk.
    + destruct (IH x) as [Hin Hmax]. split; [by right|].
      intros r [->|Hr]%elem_of_cons; [|by apply Hmax].
      assert (r_attempt best ≤ r_attempt x); [|specialize (Hmax x (list_elem_of_here _ _)); lia].
      unfold key_lt, run_key in Hk. lia.
    + destruct (IH best) as [Hin Hmax]. split; [apply elem_of_cons in Hin as [E|?]; [rewrite E; left|by right; right]|].
      intros r [->|[->|Hr]%elem_of_cons]%elem_of_cons; [apply Hmax; left| |apply Hmax; by right].
      assert (r_attempt x ≤ r_attempt best); [|specialize (Hmax best (list_elem_of_here _ _)); lia].
      unfold key_lt, run_key in Hk. destruct (Z.ltb_spec (r_attempt best) (r_attempt x)); [done|lia].
Qed.

Lemma mapM_ok {A B} (f : A → result B) l (g : A → B) :
  (∀ x, x ∈ l → f x = Ok (g x)) → mapM_result f l = Ok (map g l).
Proof.
  induction l as [|x l IH]; intros Hf; simpl; [done|]. rewrite (Hf x) by left. simpl.
  rewrite IH; [done|]. intros y Hy. apply Hf. by right.
Qed.

(** Stored runs read back: they are the job's rows. *)
Lemma list_job_runs_ok j rs1 w :
  at_job id j rs1 None w →
  ∃ l, list_job_runs id (w_jobs w) = Ok l ∧ ∀ r, r ∈ l ↔ ∃ k, rs1 !! k = Some r.
Proof.
  intros [[_ [_ Hruns] _] _ Hrs _]. unfold list_job_runs.
  set (l := order_by _ _). assert (∀ r, r ∈ l ↔ ∃ k, rs1 !! k = Some r) as Hl.
  { intros r. unfold l. rewrite order_by_elem, list_elem_of_filter, elem_of_rows. rewrite <- Hrs.
    setoid_rewrite runs_of_lookup. naive_solver. }
  exists l. split; [|done]. rewrite (mapM_ok _ _ (λ r, r)); [by rewrite map_id|].
  intros r Hr. apply Hl in Hr as [k Hk]. rewrite <- Hrs in Hk. apply runs_of_lookup in Hk as [Hk _].
  specialize (Hruns k r Hk). unfold _row_to_run, validate_timestamp_order.
  destruct (r_finished_at r) as [f|] eqn:Hf; [|done].
  pose proof (rk_order _ _ Hruns f Hf). destruct (Z.ltb_spec f (r_started_at r)); [lia|done].
Qed.

(** The row the reconciliation reads. *)
Lemma tended_current j' :
  tended (run_job n row) j' →
  let current := _row_to_job j' in
  j_id current = id ∧ j_kind current = j_kind row ∧ j_project_id current = j_project_id row
  ∧ j_metadata current = j_metadata row ∧ j_attempt_count current = n
  ∧ (j_status current = JRunning ∨ j_status current = JCancelled).
Proof.
  intros (Hs & Ha & Hst). unfold same_job in Hs.
  assert (j_id j' = id ∧ j_kind j' = j_kind row ∧ j_project_id j' = j_project_id row
          ∧ j_metadata j' = j_metadata row) as (? & ? & ? & ?) by (rewrite Hs; simpl; by rewrite Hid).
  simpl. split_and!; try done. destruct Hst as [[-> _]| ->]; [by left|by right].
Qed.

Lemma fail_attempt_triple current rs1 running started message policy :
  j_id current = id → j_kind current = j_kind row → j_project_id current = j_project_id row →
  policy_from_job_metadata (j_metadata current) = Ok policy →
  match running with
  | None => rs1 = rs
  | Some old => rs1 !! r_id old = Some old ∧ r_status old = RRunning
      ∧ lineage old = (id, j_kind row, j_project_id row, n)
      ∧ ∀ v, <[r_id old := v]> rs1 = <[r_id old := v]> rs
  end →
  triple (at_job id (run_job n row) rs1 None)
    (fail_attempt (s_worker_id s) current n running started message) settled (λ _ _, False).
Proof.
  intros Hcid Hkind Hproj Hpol Hrun. unfold fail_attempt.
  eapply triple_then; [apply run_context_triple|]. intros c. rewrite Hpol.
  match goal with |- triple ?P (bind (lift_result (Ok ?r)) ?k) ?Q ?E =>
    change (triple P (k r) Q E) end. cbv beta.
  apply triple_safe.
  { destruct running; (split; [solve_within|done]). }
  intros start. eapply triple_then; [rewrite Hcid; apply finish_timestamp_triple|].
  intros fin. apply triple_pure. intros Hlt. cbv zeta.
  set (rid := match running with Some r => r_id r | None => gc_run_id c end).
  destruct (attempt_run_ok current rid (j_kind current) n RFailed start (Some fin)
              (Some (failed_result message ∅)) (Some message) policy)
    as (run & -> & Hval & Hrid & Hstat & Hfin & _ & _ & Hlin); [intros f [= <-]; lia|].
  match goal with |- triple ?P (bind (lift_result (Ok ?r)) ?k) ?Q ?E =>
    change (triple P (k r) Q E) end. cbv beta.
  rewrite Hcid, Hkind, Hproj in Hlin.
  assert (r_job_id run = id ∧ r_attempt run = n) as [Hj Ha]
    by (unfold lineage in Hlin; split; congruence).
  apply triple_weaken with (P' := at_job id (run_job n row) rs1 (Some (gc_run_id c)))
    (Q' := λ r w, r = run ∧ settled run w) (E' := λ _ _, False);
    [|done|by intros ? ? [-> ?]|done].
  apply settle_triple with (Q := λ r, r = run).
  - exact Hj.
  - exact Ha.
  - by rewrite Hstat.
  - rewrite Hfin. eauto.
  - exact Hval.
  - left. by rewrite Hstat.
  - destruct running as [old|]; simpl in rid.
    + destruct Hrun as (Hold & Hst & Hlin' & _). right. exists old.
      rewrite Hrid. unfold rid. split_and!; [done|done|congruence].
    + left. by rewrite Hrid.
  - rewrite Hrid. unfold rid. destruct running as [old|]; [by destruct Hrun as (_ & _ & _ & ->)|].
    by subst rs1.
  - intros f Hf. apply triple_safe.
    + destruct (bool_decide _); [|split; [apply _|done]].
      split; [apply _|]. intros w Hw. unfold bind.
      match goal with |- context [zoom w_bus_lens (emit ?t ?a) w] =>
        pose proof (safe_ok (Safe := safe_emit id t a) w Hw) as Hok;
        destruct (zoom w_bus_lens (emit t a) w) as [? []] end; done.
    + intros []. apply triple_ret. intros w Hw. by rewrite Hf.
Qed.

Context (Hearlier : map_Forall (λ _ r, r_attempt r ≤ j_attempt_count row) rs).

(** What the reconciliation finds after an interruption: no run of this attempt, or
    its open run. *)
Lemma failure_case_new current l :
  j_attempt_count current = n → (∀ r, r ∈ l ↔ ∃ k, rs !! k = Some r) →
  failure_case current l = NewFailedRun.
Proof.
  intros Hn Hl. unfold failure_case. destruct l as [|r l]; [done|]. simpl.
  destruct (max_run_spec r l) as [Hin _]. apply Hl in Hin as [k Hk].
  specialize (Hearlier k _ Hk). simpl in Hearlier.
  destruct (Z.leb_spec (j_attempt_count current) (r_attempt (max_run r l))); [unfold n in Hn; lia|].
  rewrite !andb_false_r. by destruct (negb _).
Qed.

Lemma failure_case_open current l rid open :
  j_attempt_count current = n → rs !! rid = None → r_attempt open = n → r_status open = RRunning →
  (∀ r, r ∈ l ↔ ∃ k, <[rid := open]> rs !! k = Some r) →
  failure_case current l = FinishRunning open.
Proof.
  intros Hn Hnew Ha Hst Hl. unfold failure_case.
  assert (open ∈ l) as Hopen by (apply Hl; exists rid; by rewrite lookup_insert_eq).
  destruct l as [|r l]; [by apply not_elem_of_nil in Hopen|]. simpl.
  destruct (max_run_spec r l) as [Hin Hmax]. specialize (Hmax _ Hopen).
  assert (max_run r l = open) as ->.
  { apply Hl in Hin as [k Hk]. destruct (decide (k = rid)) as [->|Hne];
      [rewrite lookup_insert_eq in Hk; congruence|].
    rewrite lookup_insert_ne in Hk by done. specialize (Hearlier k _ Hk). simpl in Hearlier.
    unfold n in Ha. lia. }
  rewrite Hst, bool_decide_eq_true_2 by done. simpl.
  destruct (Z.leb_spec (j_attempt_count current) (r_attempt open)); [done|lia].
Qed.

Lemma record_failure_triple started e policy :
  policy_from_job_metadata (j_metadata row) = Ok policy →
  triple interrupted (record_unexpected_job_failure (s_worker_id s) job started e)
    settled (λ _ _, False).
Proof.
  intros Hpol w Hw.
  assert (∃ rs1 running, at_job id (run_job n row) rs1 None w
    ∧ (∀ current l, j_attempt_count current = n → (∀ r, r ∈ l ↔ ∃ k, rs1 !! k = Some r) →
         failure_case current l = match running with
                                  | Some r => FinishRunning r | None => NewFailedRun end)
    ∧ match running with
      | None => rs1 = rs
      | Some old => rs1 !! r_id old = Some old ∧ r_status old = RRunning
          ∧ lineage old = (id, j_kind row, j_project_id row, n)
          ∧ ∀ v, <[r_id old := v]> rs1 = <[r_id old := v]> rs
      end) as (rs1 & running & Hat & Hcase & Hrun).
  { destruct Hw as [Hw|(opened & Hst & Hlin & Hnew & Hw)].
    - exists rs, None. split_and!; [done| |done]. intros. by apply failure_case_new.
    - exists (<[r_id opened := _run_values opened]> rs), (Some (_run_values opened)).
      split_and!; [done| | |done|done|].
      + intros. eapply failure_case_open; [done|exact Hnew| |done|done].
        unfold lineage in Hlin. simpl. congruence.
      + simpl. by rewrite lookup_insert_eq.
      + intros v. simpl. by rewrite insert_insert_eq. }
  pose proof (at_row _ _ _ _ _ Hat) as (j' & Hj' & Htend).
  destruct (tended_current j' Htend) as (Hcid & Hkind & Hproj & Hmeta & Hcount' & Hst).
  assert (j_id job = id) as Hjid by (by rewrite Hjob).
  destruct (list_job_runs_ok _ _ _ Hat) as (l & Hl & Hels).
  assert (get_job (j_id job) (w_jobs w) = Some (_row_to_job j')) as Hget
    by (unfold get_job; by rewrite Hjid, Hj').
  unfold record_unexpected_job_failure, bind at 1, gets. rewrite Hget.
  unfold bind at 1. rewrite Hcid, Hl. unfold bind at 1.
  unfold lift_result at 1. rewrite (Hcase (_row_to_job j') l Hcount' Hels).
  assert (failed_attempt_number (_row_to_job j') job = n) as ->.
  { unfold failed_attempt_number. rewrite Hcount', Hjob. simpl.
    rewrite bool_decide_eq_false_2 by (intros E; simpl in Hst; destruct Hst; congruence).
    unfold n. lia. }
  rewrite <- Hmeta in Hpol.
  destruct running as [old|]; eapply (fail_attempt_triple (_row_to_job j') rs1); eauto.
Qed.
End one.
End attempt.

(** ** Properties *)

(** C1: the attempt boundary, while the job stays with its scheduler.  Assume that the calls of the
    host and of the runtimes, and so whatever others do to the store meanwhile, leave the
    job leased to this scheduler, with its lease extended, or cancelled ([HostWithin],
    [WorkersTend]; what a worker that lost its lease may still do is [stale_worker_fenced]),
    that none of them raises the scheduler's own JobAttemptSuperseded, and that the policy
    stored with the job can be read.  Then, whatever else the registry lookup, the image
    gate, the container run and the goblin's code return or raise, the job leaves the
    scheduler with a result.  Either it had been cancelled before it started: the attempt
    stands back and stores nothing.  Or exactly one run was added, a finished one with the
    next attempt number, every earlier run is as it was, and the job holds no lease: it has
    the run's status, or is to be retried because the run failed and attempts are left, or
    was cancelled meanwhile. *)
Theorem attempt_boundary_settles `{Sqlite} `{Env} `{Crypto} `{Pydantic} `{Floats} `{Imports}
    `{Host} `{Workers} `{!Inj eq eq uuid4} (s : Scheduler) (current : utc) (row : JobRecord)
    (rs : gmap string RunRecord) (policy : option ResourcePolicy) (w : World) :
  HostWithin (keeps_job (j_id row)) → WorkersTend (j_id row) →
  at_job (j_id row) row rs None w →
  j_status row = JLeased → j_lease_owner row = Some (s_worker_id s) → 0 ≤ j_attempt_count row →
  policy_from_job_metadata (j_metadata row) = Ok policy →
  map_Forall (λ _ r, r_attempt r ≤ j_attempt_count row) rs →
  ∃ w' outcome row',
    attempt_boundary s current (_row_to_job row) w = (w', Ok outcome) ∧ good w'
    ∧ jobs (w_jobs w') !! j_id row = Some row' ∧ same_job row row'
    ∧ is_active (j_status row') = false ∧ j_lease_owner row' = None
    ∧ match outcome with
      | None => j_status row' = JCancelled ∧ runs_of (j_id row) (w_jobs w') = rs
      | Some run =>
          r_job_id run = j_id row ∧ r_attempt run = j_attempt_count row + 1
          ∧ is_terminal_run (r_status run) = true
          ∧ runs_of (j_id row) (w_jobs w') = <[r_id run := _run_values run]> rs
          ∧ j_attempt_count row' = j_attempt_count row + 1
          ∧ (j_status row' = job_status_of_run (r_status run)
             ∨ (j_status row' = JRetrying ∧ r_status run = RFailed
                ∧ j_attempt_count row + 1 ≤ j_max_retries row)
             ∨ j_status row' = JCancelled)
      end.
Proof.
  intros Hhost Hworkers Hw Hst Howner Hcount Hpol Hearlier.
  set (id := j_id row) in *. set (job := _row_to_job row).
  assert (triple (at_job id row rs None) (attempt_boundary s current job)
    (λ o w', match o with
             | None => at_job id row rs None w'
                 ∧ ∃ j', jobs (w_jobs w') !! id = Some j' ∧ j_status j' = JCancelled
             | Some run => settled id row rs run w'
             end) (λ _ _, False)) as Ht.
  { intros w0 Hw0. unfold attempt_boundary, try_catch, bind at 1.
    pose proof (execute_triple id s row job rs eq_refl eq_refl Howner Hcount
                  (Some (of_utc current)) policy Hst Hpol w0 Hw0) as Hex.
    destruct (_execute_claimed_job _ _ _ w0) as [w1 [run|e]]; [exact Hex|].
    destruct Hex as [(Hsup & Hw1 & Hc)|(Hsup & Hint)].
    - destruct e; try done.
    - pose proof (record_failure_triple id s row job rs eq_refl eq_refl Howner Hearlier
                    current e policy Hpol w1 Hint) as Hrec.
      destruct e; try done; unfold bind; by destruct (record_unexpected_job_failure _ _ _ _ w1)
        as [w2 [run|e']]. }
  specialize (Ht w Hw). destruct (attempt_boundary s current job w) as [w' [o|e]]; [|done].
  assert (∀ j, good w' → jobs (w_jobs w') !! id = Some j → is_active (j_status j) = false →
            j_lease_owner j = None) as Hfree.
  { intros j [_ [Hjobs _] _] Hj Ha. specialize (Hjobs _ _ Hj). simpl in Hjobs.
    destruct (j_lease_owner j) eqn:Ho; [|done].
    assert (is_active (j_status j) = true) by (apply (jk_owner _ _ Hjobs); rewrite Ho; eauto).
    congruence. }
  destruct o as [run|].
  - destruct Ht as (Hrid & Hra & Hterm & st & err & due_at & Hstat & [Hgood (row' & Hrow & Htend) Hruns _]).
    destruct Htend as (Hsame & Hcnt & Hend). exists w', (Some run), row'.
    assert (is_active (j_status row') = false) as Hact.
    { destruct Hend as [[-> _]| ->]; [|done]. simpl.
      destruct Hstat as [->|[-> _]]; [by destruct (r_status run)|done]. }
    split_and!; try done; try by apply Hfree.
    destruct Hend as [[-> _]| ->]; [|by right; right]. simpl.
      destruct Hstat as [->|[-> [Hf Hm]]]; [by left|by right; left].
  - destruct Ht as ([Hgood (row' & Hrow & Htend) Hruns _] & j' & Hj' & Hc).
    exists w', None, row'. assert (row' = j') as -> by congruence.
    destruct Htend as (Hsame & _). split_and!; try done; [by rewrite Hc|].
    apply Hfree; [done..|by rewrite Hc].
Qed.

(** ** Runs on concrete inputs *)

(** A host without images whose engine is down. *)
Definition down_host : Host := {|
  image_inspect := λ _ _, ret (mkOutput 1 EmptyString "no such image");
  open_validation_runtime := λ _ _, ret "runs";
  build_image := λ _ _, ret tt;
  context_path := λ _ w, wi_context w;
  dockerfile_path := λ _ w, wi_dockerfile w;
  path_is_dir := λ _, ret true;
  path_is_file := λ _, ret false;
  validation_artifact_root := λ root id, root +:+ "/artifacts/" +:+ id;
  result_path := λ root id, root +:+ "/" +:+ id +:+ "/result.json";
  read_result := λ _, raise (OtherException "FileNotFoundError" "result.json");
  artifact_exists := λ _ _, ret false;
  validation_run := λ _ _ _ _ _ _, raise (RuntimeError "engine down");
  validation_job_id := λ kind, "validation-" +:+ kind
|}.
(** Schedules run every minute; goblins raise. *)
Definition down_workers : Workers := {|
  open_runtime := λ _ _, Ok tt;
  container_run := λ _ _ _ _ _ _, raise (RuntimeError "engine down");
  entrypoint_call := λ _ _ _, raise (RuntimeError "goblin failed");
  docker_run_root := None;
  validation_image_identity := λ image _, kubernetes_image_identity image;
  effective_workload_security := λ _, JNull;
  croniter_next := λ _ _ now, Ok (of_utc (now + 60000000));
  croniter_after := ltac:(intros ? ? now t [= <-]; unfold ensure_utc; simpl; lia)
|}.
Definition all_callable : Imports := {| import_entrypoint := λ _, Callable |}.

Lemma frozen_inj : Inj eq eq (@uuid4 frozen_env).
Proof.
  intros m n. simpl. intros Heq. injection Heq as Heq. apply (inj (pretty (A := nat))). exact Heq.
Qed.

Definition sample_goblin : GoblinDefinition :=
  mkGoblinDefinition "report" "Report" "reports" "run" None None ∅.
Definition local_scheduler : Scheduler :=
  mkScheduler {[ "report" := sample_goblin ]} None "w1" 60 10 ModeInProcess None InProcessRuntime 1.

(** Job [high], claimed by [w1]. *)
Definition claimed_row : JobRecord := lease_job "w1" 65 (sample_job "high" 200 2).
Definition world_with (t : JobTables) : World :=
  mkWorld init_process empty_event_tables t ∅ ∅ ∅ ∅ ∅.
Definition claimed_world : World := world_with (mkJobTables {[ "high" := claimed_row ]} ∅ [] []).

Lemma claimed_row_ok : job_ok "high" claimed_row.
Proof. by split; simpl; eauto. Qed.

Lemma claimed_at_job : @at_job frozen_env "high" claimed_row ∅ None claimed_world.
Proof.
  split; [split|..].
  - apply empty_log_ok.
  - split; [apply map_Forall_singleton, claimed_row_ok|apply map_Forall_empty].
  - intros n _. simpl. rewrite lookup_singleton_ne by discriminate. by rewrite !lookup_empty.
  - exists claimed_row. split; [reflexivity|split_and!; auto with store].
  - reflexivity.
  - discriminate.
Qed.

Lemma down_host_tends id : @HostWithin (@keeps_job frozen_env id) down_host.
Proof. split; intros; apply _. Qed.
Lemma down_workers_tend id : @WorkersTend frozen_env all_callable down_workers id.
Proof. split; try (intros; apply _); done. Qed.

Lemma attempt_boundary_settles_witness :
  ∃ w' outcome,
    @attempt_boundary sqlite_merge frozen_env plain_crypto strict_pydantic all_callable down_host
      down_workers local_scheduler 7 (_row_to_job claimed_row) claimed_world = (w', Ok outcome)
    ∧ from_option (λ j, is_active (j_status j) = false) False (jobs (w_jobs w') !! "high").
Proof.
  destruct (@attempt_boundary_settles sqlite_merge frozen_env plain_crypto strict_pydantic int_floats
    all_callable down_host down_workers frozen_inj local_scheduler 7 claimed_row ∅ None claimed_world
    (down_host_tends "high") (down_workers_tend "high") claimed_at_job)
    as (w' & outcome & row' & Hrun & _ & Hrow & _ & Hact & _);
    [reflexivity|reflexivity|discriminate|reflexivity|apply map_Forall_empty|].
  exists w', outcome. split; [exact Hrun|]. simpl in Hrow. rewrite Hrow. exact Hact.
Defined.
