(* ===== verification/Gate.v ===== *)
(** * The validation gate

    What a passed validation means, and that no container run starts without one:
    [validation._validate_one] and [Scheduler._validate_before_container_run]. *)

From S2P Require Import Prelude CausalTime Contracts ResourcePolicies EventStore JobStore JobLifecycle RecordStore Auth Registry World Containers Validation Scheduler Attempts.

(** A result of the current versions for [kind]. *)
Definition current_result (kind : string) (r : WorkerValidationResult) : Prop :=
  vr_kind r = kind ∧ vr_contract_version r = GOBLIN_CONTAINER_CONTRACT_VERSION
  ∧ vr_validator_version r = VALIDATOR_VERSION.

(** Calls whose returned values all satisfy a predicate. *)
Class Returns {A} (P : A → Prop) (m : M World A) : Prop :=
  returns : ∀ w w' a, m w = (w', Ok a) → P a.

Lemma returns_ret {A} (P : A → Prop) a : P a → Returns P (ret a).
Proof. by intros HP w w' ? [= <- <-]. Qed.
Lemma returns_raise {A} (P : A → Prop) e : Returns P (raise e).
Proof. by intros w w' ?. Qed.
Lemma returns_bind {A B} (P : B → Prop) (m : M World A) k :
  (∀ a, Returns P (k a)) → Returns P (bind m k).
Proof. intros Hk w w' b (w1 & a & _ & Hb)%bind_ok. by eapply Hk. Qed.
Lemma returns_bind_with {A B} (R : A → Prop) (P : B → Prop) (m : M World A) k :
  Returns R m → (∀ a, R a → Returns P (k a)) → Returns P (bind m k).
Proof. intros Hm Hk w w' b (w1 & a & Ha & Hb)%bind_ok. eapply Hk; [by eapply Hm|done]. Qed.
Lemma returns_try {A} (P : A → Prop) (m : M World A) h :
  Returns P m → (∀ e, Returns P (h e)) → Returns P (try_catch m h).
Proof.
  intros Hm Hh w w' a. unfold try_catch. destruct (m w) as [w1 [x|e]] eqn:E.
  - intros [= <- <-]. by eapply Hm.
  - intros Ha. by eapply Hh.
Qed.

Ltac solve_returns :=
  repeat (intros; first
    [ apply returns_raise | apply returns_bind | apply returns_try
    | match goal with |- Returns _ (match ?x with _ => _ end) => destruct x end
    | progress cbv zeta | apply returns_ret ]).

Section gate.
Context `{Sqlite} `{Env} `{Crypto} `{Imports} `{Host} `{Workers}.

(** ** Results *)

Definition of_kind {B} (kind : string) (r : WorkerValidationResult + B) : Prop :=
  match r with inl v => current_result kind v ∧ vr_ok v = false | inr _ => True end.

Lemma config_guard_kind {A B} kind checks (m : M World A)
    (k : A → M World (WorkerValidationResult + B)) :
  (∀ a, Returns (of_kind kind) (k a)) → Returns (of_kind kind) (config_guard kind checks m k).
Proof.
  intros Hk. unfold config_guard.
  apply returns_bind_with with (R := λ r, match r with inl v => of_kind (B := B) kind (inl v) | inr _ => True end).
  - apply returns_try; [by solve_returns|]. by solve_returns.
  - intros [v|a] Hr; [by apply returns_ret|apply Hk].
Qed.

Lemma check_image_identity_kind kind image checks passed :
  Returns (of_kind kind) (check_image_identity kind image checks passed).
Proof. apply config_guard_kind. by solve_returns. Qed.

Lemma check_worker_image_kind workers kind build prebuilt :
  Returns (of_kind kind) (check_worker_image workers kind build prebuilt).
Proof.
  unfold check_worker_image. apply config_guard_kind. intros worker. cbv zeta.
  destruct prebuilt; [apply check_image_identity_kind|].
  apply config_guard_kind. intros [|]; [|by apply returns_ret].
  apply config_guard_kind. intros [|]; [|by apply returns_ret].
  apply config_guard_kind. intros _. apply check_image_identity_kind.
Qed.

Lemma check_envelope_kind kind image digest checks path root require_success parsed :
  Returns (current_result kind)
    (check_envelope kind image digest checks path root require_success parsed).
Proof. unfold check_envelope. by solve_returns. Qed.

Lemma validate_one_kind workers root kind payload build require_success prebuilt t :
  Returns (current_result kind)
    (_validate_one workers root kind payload build require_success prebuilt t).
Proof.
  unfold _validate_one. eapply returns_bind_with; [apply check_worker_image_kind|].
  intros [v|[[image digest] checks]] Hv; [apply returns_ret, Hv|].
  repeat (apply returns_bind; intros). destruct (negb _); [by solve_returns|].
  apply returns_bind. intros [e|parsed]; [by solve_returns|]. apply check_envelope_kind.
Qed.

Lemma validate_each_kind one l acc (P : WorkerValidationResult → Prop) :
  (∀ d, d ∈ l → Returns P (one (gd_kind d))) → Forall P acc →
  Returns (Forall P) (validate_each one l acc).
Proof.
  revert acc. induction l as [|d l IH]; intros acc Hone Hacc; simpl; [by apply returns_ret|].
  eapply returns_bind_with; [apply Hone; left|]. intros r Hr. apply IH.
  - intros x Hx. apply Hone. by right.
  - apply Forall_app. split; [done|by constructor].
Qed.

(** Validating one kind: every result is about it. *)
Lemma validate_workers_kind registry workers payload kind build require_success prebuilt t root :
  Returns (Forall (current_result kind))
    (validate_workers registry workers payload [kind] build require_success prebuilt t root).
Proof.
  unfold validate_workers. apply returns_bind. intros runtime_root. apply validate_each_kind.
  - intros d [Hd _]%list_elem_of_filter. apply list_elem_of_singleton in Hd. rewrite Hd.
    apply validate_one_kind.
  - apply Forall_forall. intros r (k & -> & Hk)%list_elem_of_fmap. split_and!; try done. simpl.
    apply list_elem_of_filter in Hk as [_ Hk]. unfold sorted_strings in Hk.
    pose proof (@order_by_elem sqlite_merge string String.leb (remove_dups [kind]) k) as Hel.
    apply Hel, elem_of_remove_dups, list_elem_of_singleton in Hk. done.
Qed.

(** A record of the current versions for [kind] in the table. *)
Definition stored_proof (kind : string) (status : ValidationStatus) (w : World)
    (v : WorkerValidationRecord) : Prop :=
  v ∈ rows (w_validations w) ∧ wv_kind v = kind ∧ wv_status v = status
  ∧ wv_contract_version v = GOBLIN_CONTAINER_CONTRACT_VERSION
  ∧ wv_validator_version v = VALIDATOR_VERSION.

Lemma zoom_ok {S T A} (l : lens S T) (m : M T A) s s' a :
  zoom l m s = (s', Ok a) → ∃ t, m (view l s) = (t, Ok a) ∧ s' = put l t s.
Proof. rewrite zoom_eq. destruct (m (view l s)) as [t r]. simpl. intros [= <- ->]. eauto. Qed.

(** A revalidation is recorded under the digest it found. *)
Lemma revalidate_stored registry workers kind payload t root hash policy w w' r :
  revalidate registry workers kind payload t root hash policy w = (w', Ok r) →
  current_result kind r
  ∧ ∃ v, stored_proof kind (if vr_ok r then ValidationPassed else ValidationFailed) w' v
      ∧ wv_image_digest v = text_or (vr_image_digest r) EmptyString
      ∧ wv_effective_policy v = policy.
Proof.
  unfold revalidate. intros (w1 & results & Hres & Hrest)%bind_ok.
  apply validate_workers_kind in Hres.
  apply bind_ok in Hrest as (w2 & r0 & Hr0 & Hrest). unfold lift_result in Hr0.
  injection Hr0 as <- Hr0.
  assert (current_result kind (notebook_result hash r0)) as Hcur.
  { destruct results as [|x l]; [discriminate Hr0|]. injection Hr0 as <-.
    apply Forall_cons in Hres as [Hres _]. by destruct hash. }
  apply bind_ok in Hrest as (w2 & record & Hrec & Hrest).
  apply bind_ok in Hrest as (w3 & [] & Hsave & [= <- <-]).
  unfold validation_record in Hrec. apply bind_ok in Hrec as (w4 & id & _ & Hrec).
  apply bind_ok in Hrec as (w5 & at_ & _ & [= <- <-]).
  apply zoom_ok in Hsave as (t' & [_ ->]%insert_row_ok & ->).
  destruct Hcur as (Hk & Hc & Hv). split; [done|]. eexists. split; [split|].
  - apply elem_of_rows. eexists. simpl. apply lookup_insert_eq.
  - simpl. rewrite Hk. by destruct (vr_ok _).
  - done.
Qed.

(** ** What a passed validation saw *)

(** The call answered [a] at some point. *)
Definition answered {A} (m : M World A) (a : A) : Prop := ∃ w w', m w = (w', Ok a).

Definition image_seen (workers : WorkerImageMap) (kind : string)
    (r : WorkerValidationResult + (string * option string * list string)) : Prop :=
  match r with
  | inl v => vr_ok v = false
  | inr (image, digest, _) => ∃ worker, worker_get workers kind = Ok worker ∧ wi_image worker = image
      ∧ answered (inspect_image_identity "docker" image) (digest, None)
  end.

Lemma config_guard_seen {A B} (P : WorkerValidationResult + B → Prop) kind checks (m : M World A)
    (k : A → M World (WorkerValidationResult + B)) :
  (∀ v, vr_ok v = false → P (inl v)) → (∀ a, answered m a → Returns P (k a)) →
  Returns P (config_guard kind checks m k).
Proof.
  intros Hv Hk w w' b (w1 & x & Hx & Hb)%bind_ok. unfold try_catch, bind at 1 in Hx.
  destruct (m w) as [w2 [a|e]] eqn:Hm.
  - injection Hx as <- <-. eapply Hk; [by exists w, w2|exact Hb].
  - destruct (is_worker_config_error e); [|done].
    apply bind_ok in Hx as (w3 & t & _ & [= <- <-]). injection Hb as <- <-. by apply Hv.
Qed.

Lemma check_worker_image_seen workers kind build prebuilt :
  Returns (image_seen workers kind) (check_worker_image workers kind build prebuilt).
Proof.
  assert (∀ worker image checks passed, worker_get workers kind = Ok worker → wi_image worker = image →
    Returns (image_seen workers kind) (check_image_identity kind image checks passed)) as Hlast.
  { intros worker image checks passed Hw Hi. apply config_guard_seen; [done|].
    intros [digest [err|]] Hans; [by solve_returns|]. apply returns_ret. by exists worker. }
  unfold check_worker_image. apply config_guard_seen; [done|].
  intros worker (w & w' & [= _ Hw]). cbv zeta.
  destruct prebuilt; [by eapply Hlast|].
  apply config_guard_seen; [done|]. intros [|] _; [|by apply returns_ret].
  apply config_guard_seen; [done|]. intros [|] _; [|by apply returns_ret].
  apply config_guard_seen; [done|]. intros _ _. by eapply Hlast.
Qed.

Lemma missing_artifacts_none root l :
  Returns (λ missing, missing = [] → ∀ a, a ∈ l → is_artifact_uri (a_uri a) = true →
             answered (artifact_exists root (a_name a)) true) (missing_artifacts root l).
Proof.
  induction l as [|x l IH]; simpl.
  - apply returns_ret. by intros _ a ?%not_elem_of_nil.
  - intros w w' missing (w1 & gone & Hgone & Hrest)%bind_ok.
    apply bind_ok in Hrest as (w2 & rest & Hrest & [= <- <-]).
    apply IH in Hrest. destruct gone; [done|]. intros Hno a [->|Ha]%elem_of_cons Huri; [|by apply Hrest].
    rewrite Huri in Hgone. apply bind_ok in Hgone as (w3 & there & Hex & [= _ Hthere]).
    exists w, w3. by destruct there.
Qed.

(** The envelope a passed validation parsed. *)
Definition envelope_seen (require_success : bool) (root : string) (parsed : GoblinResult)
    (r : WorkerValidationResult) : Prop :=
  vr_ok r = true →
  vr_result_status r = Some (result_status_str (gr_status parsed))
  ∧ vr_artifact_count r = Z.of_nat (length (gr_artifacts parsed))
  ∧ (require_success = true → gr_status parsed = ResSuccess)
  ∧ ∀ a, a ∈ gr_artifacts parsed → is_artifact_uri (a_uri a) = true →
      answered (artifact_exists root (a_name a)) true.

Lemma check_envelope_seen kind image digest checks path root require_success parsed :
  Returns (λ r, envelope_seen require_success root parsed r
                ∧ (vr_ok r = true → vr_image r = Some image ∧ vr_image_digest r = digest))
    (check_envelope kind image digest checks path root require_success parsed).
Proof.
  unfold check_envelope. cbv zeta. eapply returns_bind_with; [apply missing_artifacts_none|].
  intros [|m missing] Hmiss; [|by solve_returns]. apply returns_bind. intros now.
  destruct (require_success && _) eqn:Hfail; apply returns_ret; [done|].
  split; intros _; split_and!; auto. intros ->. simpl in Hfail.
  apply negb_false_iff, bool_decide_eq_true in Hfail. done.
Qed.

Definition gate_identity_of (hash : option string) (digest : string) : string :=
  match hash with
  | Some h => text_or (Some (notebook_validation_identity (Some digest) h)) digest
  | None => text_or (Some digest) digest
  end.
End gate.

(** ** Properties *)

(** C7: no container run without a proof.  When the gate lets a kind pass, the
    store holds a passed validation of that kind for the current contract and
    validator versions.  On Kubernetes the gate validates nothing itself: the
    proof was there before, it is for exactly the image's workload identity (with
    the notebook's source hashed in), and no later validation of that identity
    failed. *)
Theorem gate_requires_proof `{Sqlite} `{Env} `{Crypto} `{Host} `{Workers} (s : Scheduler)
    (job : JobRecord) (kind : string) (registry : Registry) (workers : option WorkerImageMap)
    (runtime : Runtime) (payload : dict) (hash : option string) (policy : dict) (w w' : World) :
  _validate_before_container_run s job kind registry workers runtime payload hash policy w
    = (w', Ok None) →
  ∃ v, stored_proof kind ValidationPassed w' v
    ∧ (is_kubernetes runtime = true →
       w_validations w' = w_validations w
       ∧ ∃ ws worker, (match workers with Some _ => workers | None => s_workers s end) = Some ws
           ∧ worker_get ws kind = Ok worker
           ∧ wv_image_digest v
             = gate_identity_of hash (validation_image_identity (wi_image worker) kind)
           ∧ ∀ x, stored_proof kind ValidationFailed w x →
               wv_image_digest x = wv_image_digest v → wv_validated_at x ≤ wv_validated_at v).
Proof.
  unfold _validate_before_container_run.
  destruct (match workers with Some _ => workers | None => s_workers s end) as [ws|] eqn:Hws; [|done].
  destruct (worker_get ws kind) as [worker|e] eqn:Hworker;
    [|by destruct (is_worker_config_error e)].
  cbv zeta. intros (w1 & [[digest error] vpolicy] & Hid & Hgate)%bind_ok.
  apply bind_ok in Hgate as (w2 & latest & [= <- <-] & Hgate).
  destruct error as [err|]; [by apply bind_ok in Hgate as (? & ? & _ & ?)|].
  destruct digest as [digest|]; [|by apply bind_ok in Hgate as (? & ? & _ & ?)].
  apply bind_ok in Hgate as (w2 & cached & [= <- Hcached] & Hgate).
  set (identity := text_or _ digest) in Hcached.
  assert (identity = gate_identity_of hash digest) as Hidentity by (by destruct hash).
  destruct (match cached with Some v => _ | None => false end) eqn:Hpassed.
  - injection Hgate as <-. destruct cached as [v|]; [|done].
    apply bool_decide_eq_true in Hpassed.
    apply latest_validation_spec in Hcached as (Hin & Hk & Hd & Hc & Hv & Hmax).
    exists v. split; [done|]. intros Hk8s. unfold gate_identity in Hid. rewrite Hk8s in Hid.
    injection Hid as <- <- _. split; [done|]. exists ws, worker.
    split_and!; [done|done|congruence|].
    intros x (Hx & Hxk & _ & Hxc & Hxv) Hxd. by apply Hmax; [| |congruence|..].
  - destruct (is_kubernetes runtime); [done|].
    apply bind_ok in Hgate as (w2 & r & Hr & Hgate).
    apply revalidate_stored in Hr as (_ & v & Hv & _).
    destruct (vr_ok r); [|done]. injection Hgate as <-. by exists v.
Qed.

(** What a passed validation means.  A result that says ok names the image the
    map configures for the kind and the digest the engine reported for it; the
    worker's result file parsed, its artifacts with a store URI were all found, and
    its status was success where success was required. *)
Theorem validate_one_sound `{Env} `{Host} (workers : WorkerImageMap) (root kind : string)
    (payload : dict) (build require_success prebuilt : bool) (timeout : option Z)
    (w w' : World) (r : WorkerValidationResult) :
  _validate_one workers root kind payload build require_success prebuilt timeout w = (w', Ok r) →
  vr_ok r = true →
  ∃ worker run_id parsed, worker_get workers kind = Ok worker
    ∧ vr_image r = Some (wi_image worker)
    ∧ answered (inspect_image_identity "docker" (wi_image worker)) (vr_image_digest r, None)
    ∧ answered (read_result (result_path root run_id)) parsed
    ∧ vr_result_status r = Some (result_status_str (gr_status parsed))
    ∧ vr_artifact_count r = Z.of_nat (length (gr_artifacts parsed))
    ∧ (require_success = true → gr_status parsed = ResSuccess)
    ∧ ∀ a, a ∈ gr_artifacts parsed → is_artifact_uri (a_uri a) = true →
        answered (artifact_exists (validation_artifact_root root run_id) (a_name a)) true.
Proof.
  unfold _validate_one. intros (w1 & checked & Hcheck & Hrest)%bind_ok Hok.
  apply check_worker_image_seen in Hcheck.
  destruct checked as [v|[[image digest] checks]]; simpl in Hcheck.
  { injection Hrest as _ <-. congruence. }
  destruct Hcheck as (worker & Hworker & <- & Hdigest).
  apply bind_ok in Hrest as (w2 & context & _ & Hrest). cbv zeta in Hrest.
  apply bind_ok in Hrest as (w3 & result & _ & Hrest).
  apply bind_ok in Hrest as (w4 & there & _ & Hrest). simpl in Hrest.
  destruct there; simpl in Hrest.
  2: { apply bind_ok in Hrest as (? & ? & _ & [= _ <-]). done. }
  apply bind_ok in Hrest as (w5 & parsed & Hparsed & Hrest).
  destruct parsed as [e|parsed].
  { apply bind_ok in Hrest as (? & ? & _ & [= _ <-]). done. }
  apply check_envelope_seen in Hrest as [Henv Himg].
  destruct (Himg Hok) as [Hi Hd]. destruct (Henv Hok) as (? & ? & ? & ?).
  exists worker, (gc_run_id context), parsed. rewrite Hd. split_and!; try done.
  unfold try_catch, bind in Hparsed.
  destruct (read_result _ w4) as [w6 [p|e]] eqn:Hread; [|done]. injection Hparsed as <- ->.
  by exists w4, w6.
Qed.

(** ** Runs on concrete inputs *)

Definition sample_workers : WorkerImageMap :=
  {[ "report" := mkWorkerImage "workers/report" "Dockerfile" "reports:1" ]}.
Definition sample_envelope : GoblinResult :=
  GoblinResult_ok ∅ [mkArtifact "out.csv" "artifact://out.csv" None] ∅ [].

(** An engine that has the image and runs it. *)
Definition ready_host : Host := {|
  image_inspect := λ _ _, ret (mkOutput 0 "sha256:abc" EmptyString);
  open_validation_runtime := λ _ _, ret "runs";
  build_image := λ _ _, ret tt;
  context_path := λ _ w, wi_context w;
  dockerfile_path := λ _ w, wi_dockerfile w;
  path_is_dir := λ _, ret true;
  path_is_file := λ _, ret true;
  validation_artifact_root := λ root id, root +:+ "/artifacts/" +:+ id;
  result_path := λ root id, root +:+ "/" +:+ id +:+ "/result.json";
  read_result := λ _, ret sample_envelope;
  artifact_exists := λ _ _, ret true;
  validation_run := λ _ _ _ _ _ _, ret sample_envelope;
  validation_job_id := λ kind, "validation-" +:+ kind
|}.

Definition cluster_proof : WorkerValidationRecord :=
  mkWorkerValidation "v1" "report" "reports:1" "kubernetes:reports:1"
    GOBLIN_CONTAINER_CONTRACT_VERSION VALIDATOR_VERSION 10 ValidationPassed [] ∅.
Definition proof_world : World :=
  mkWorld init_process empty_event_tables empty_job_tables ∅ ∅ {[ "v1" := cluster_proof ]} ∅ ∅.
Definition cluster_scheduler : Scheduler :=
  mkScheduler {[ "report" := sample_goblin ]} (Some sample_workers) "w1" 60 10 ModeKubernetes None
    (KubernetesRuntime (Some sample_workers)) 1.

Definition cluster_gate : World * result (option string) :=
  @_validate_before_container_run sqlite_merge frozen_env plain_crypto ready_host down_workers
    cluster_scheduler claimed_row "report" (s_registry cluster_scheduler) (Some sample_workers)
    (KubernetesRuntime (Some sample_workers)) ∅ None ∅ proof_world.

Lemma gate_requires_proof_witness :
  cluster_gate.2 = Ok None ∧ ∃ v, stored_proof "report" ValidationPassed cluster_gate.1 v.
Proof.
  assert (cluster_gate = (proof_world, Ok None)) as Hrun by (vm_compute; reflexivity).
  rewrite Hrun. split; [reflexivity|].
  destruct (@gate_requires_proof sqlite_merge frozen_env plain_crypto ready_host down_workers
    cluster_scheduler claimed_row "report" (s_registry cluster_scheduler) (Some sample_workers)
    (KubernetesRuntime (Some sample_workers)) ∅ None ∅ proof_world proof_world Hrun) as (v & Hv & _).
  exists v. exact Hv.
Defined.

Definition one_validation : World * result WorkerValidationResult :=
  @_validate_one frozen_env ready_host sample_workers "runs" "report" ∅ false true true None proof_world.

Lemma validate_one_sound_witness :
  ∃ r, one_validation.2 = Ok r ∧ vr_ok r = true ∧ vr_image r = Some "reports:1"
    ∧ vr_artifact_count r = 1.
Proof.
  set (r := match one_validation.2 with Ok r => r | Err _ => validation_result EmptyString false None None
              None None None 0 None [] end).
  exists r. split; [vm_compute; reflexivity|]. split; [vm_compute; reflexivity|].
  destruct (@validate_one_sound frozen_env ready_host sample_workers "runs" "report" ∅ false true true
    None proof_world one_validation.1 r) as (worker & run_id & parsed & Hworker & Hi & _);
    [vm_compute; reflexivity|vm_compute; reflexivity|].
  rewrite Hi. vm_compute in Hworker. injection Hworker as <-. split; [reflexivity|].
  vm_compute. reflexivity.
Defined.
