(* ===== verification/Project.v ===== *)
(** * Project files ([src/src/goblin_king/project.py])

    What an adopting project declares in its own file: container goblins and services
    with their labels, placement and resources, the resource defaults every one of them
    gets, and what becomes of it - registry definitions, worker images and the set of
    resource policies that is layered on the operator's.

    A JSON object is the list of its members, in order and each key once.  Reading the
    JSON of a file, the typed fields of a model and [Path.resolve] are the class
    [ProjectFiles]; the models' own validators are definitions. *)

From Stdlib Require Import Ascii.
From S2P Require Import Prelude Contracts Text Paths PyValues ResourcePolicies EventStore JobStore JobLifecycle RecordStore Auth Registry World Validation.

Definition ProjectSettingsError (msg : string) : exn := OtherValueError "ProjectSettingsError" msg.

(** ** Dictionaries *)

(** [dict(sorted(d.items()))] *)
Definition sorted_items {A} (d : list (string * A)) : list (string * A) :=
  omap (λ k, (λ v, (k, v)) <$> dict_get d k) (sorted_strings d.*1).

(** ** Labels

    The two patterns end with the dollar sign: one newline may end the text. *)

Definition ascii_alnum (c : ascii) : bool := let n := nat_of_ascii c in
  (Nat.leb 97 n && Nat.leb n 122) || (Nat.leb 65 n && Nat.leb n 90) || (Nat.leb 48 n && Nat.leb n 57).
Definition label_inner (c : ascii) : bool := ascii_alnum c || existsb (Ascii.eqb c) ["_"; "."; "-"]%char.
Definition dns_inner (c : ascii) : bool := is_kind_char c || Ascii.eqb c "-".
(** One character of [ends], then at most 61 of [inner] and one of [ends] *)
Definition bounded_word (ends inner : ascii → bool) (s : string) : bool :=
  match drop_final_newline (chars s) with
  | [] => false
  | c :: rest =>
      ends c && match rev rest with
                | [] => true
                | d :: middle => ends d && forallb inner middle && Nat.leb (length middle) 61
                end
  end.
Definition _LABEL_NAME_RE : string → bool := bounded_word ascii_alnum label_inner.
Definition _DNS_LABEL_RE : string → bool := bounded_word is_kind_char dns_inner.

Definition label_name (name : string) : bool := negb (Nat.ltb 63 (String.length name)) && _LABEL_NAME_RE name.
Definition _validate_label_key (value : string) : result unit :=
  if negb (truthy value) then Err (ValueError "placement label keys must not be empty")
  else
    let? name := (match rsplit_once "/" (chars value) with
                  | None => Ok value
                  | Some (prefix, name) =>
                      if negb (truthy (text prefix)) || negb (truthy (text name)) || existsb (Ascii.eqb "/") prefix
                      then Err (ValueError ("invalid placement label key: " +:+ py_repr value))
                      else if Nat.ltb 253 (length prefix)
                      then Err (ValueError ("placement label key prefix is too long: " +:+ py_repr value))
                      else if existsb (λ part, negb (truthy part) || negb (_DNS_LABEL_RE part)) (text <$> split_on "." prefix)
                      then Err (ValueError ("invalid placement label key prefix: " +:+ py_repr value))
                      else Ok (text name)
                  end) in
    if label_name name then Ok tt else Err (ValueError ("invalid placement label key name: " +:+ py_repr value)).
Definition _validate_label_value (value : string) : result unit :=
  if negb (truthy value) then Err (ValueError "placement label values must not be empty")
  else if label_name value then Ok tt else Err (ValueError ("invalid placement label value: " +:+ py_repr value)).

Abbreviation Labels := (list (string * string)).
Record ProjectPlacementSpec := mkPlacement { pp_required : Labels; pp_preferred : Labels }.
Fixpoint validate_labels (l : obj) : result Labels :=
  match l with
  | [] => Ok []
  | (key, JStr label_value) :: l' =>
      let? _ := _validate_label_key key in
      let? _ := _validate_label_value label_value in
      let? labels := validate_labels l' in
      Ok ((key, label_value) :: labels)
  | _ => Err (ValueError "placement label values must be strings")
  end.
Definition validate_label_map (value : Json) : result Labels :=
  match value with
  | JObj l => validate_labels l
  | _ => Err (ValueError "placement labels must be an object")
  end.
Definition label_map_json (l : Labels) : Json := JObj ((λ kv, (kv.1, JStr kv.2)) <$> l).
Definition normalized (p : ProjectPlacementSpec) : Json :=
  JObj [("required", label_map_json (sorted_items (pp_required p))); ("preferred", label_map_json (sorted_items (pp_preferred p)))].

(** ** The models *)

Record ProjectGoblinSpec := mkGoblinSpec {
  gs_image : string; gs_description : option string; gs_display_name : option string; gs_context : PosixPath;
  gs_dockerfile : string; gs_input_schema : option PosixPath; gs_resource_policy : Json; gs_resources : obj;
  gs_artifacts : obj; gs_labels : Labels; gs_tags : list string; gs_placement : ProjectPlacementSpec; gs_env : Labels;
  gs_secret_refs : list string; gs_schedule : obj; gs_timeout_seconds : option Z; gs_max_retries : option Z }.
Record ProjectServiceSpec := mkServiceSpec {
  ps_image : string; ps_description : option string; ps_display_name : option string; ps_context : PosixPath;
  ps_dockerfile : string; ps_base_url : option string; ps_port : option Z; ps_probe_path : string; ps_resources : obj;
  ps_labels : Labels; ps_tags : list string; ps_env : Labels; ps_secret_refs : list string }.
Record ProjectSettings := mkSettings {
  st_api_version : option string; st_kind : option string; st_registries : list PosixPath; st_entry_points : bool;
  st_images : PosixPath; st_api_settings : PosixPath; st_defaults : obj; st_goblins : list (string * ProjectGoblinSpec);
  st_services : list (string * ProjectServiceSpec) }.

Definition with_goblin_resources (r : obj) (g : ProjectGoblinSpec) : ProjectGoblinSpec :=
  mkGoblinSpec (gs_image g) (gs_description g) (gs_display_name g) (gs_context g) (gs_dockerfile g) (gs_input_schema g)
    (gs_resource_policy g) r (gs_artifacts g) (gs_labels g) (gs_tags g) (gs_placement g) (gs_env g) (gs_secret_refs g)
    (gs_schedule g) (gs_timeout_seconds g) (gs_max_retries g).
Definition with_goblin_paths (context : PosixPath) (input_schema : option PosixPath) (g : ProjectGoblinSpec) : ProjectGoblinSpec :=
  mkGoblinSpec (gs_image g) (gs_description g) (gs_display_name g) context (gs_dockerfile g) input_schema
    (gs_resource_policy g) (gs_resources g) (gs_artifacts g) (gs_labels g) (gs_tags g) (gs_placement g) (gs_env g)
    (gs_secret_refs g) (gs_schedule g) (gs_timeout_seconds g) (gs_max_retries g).
Definition with_service_resources (r : obj) (s : ProjectServiceSpec) : ProjectServiceSpec :=
  mkServiceSpec (ps_image s) (ps_description s) (ps_display_name s) (ps_context s) (ps_dockerfile s) (ps_base_url s) (ps_port s)
    (ps_probe_path s) r (ps_labels s) (ps_tags s) (ps_env s) (ps_secret_refs s).
Definition with_service_context (context : PosixPath) (s : ProjectServiceSpec) : ProjectServiceSpec :=
  mkServiceSpec (ps_image s) (ps_description s) (ps_display_name s) context (ps_dockerfile s) (ps_base_url s) (ps_port s)
    (ps_probe_path s) (ps_resources s) (ps_labels s) (ps_tags s) (ps_env s) (ps_secret_refs s).
Definition with_workloads (goblins : list (string * ProjectGoblinSpec)) (services : list (string * ProjectServiceSpec))
    (s : ProjectSettings) : ProjectSettings :=
  mkSettings (st_api_version s) (st_kind s) (st_registries s) (st_entry_points s) (st_images s) (st_api_settings s)
    (st_defaults s) goblins services.

(** *** Validators *)

Definition validate_secret_refs (value : list string) : result (list string) :=
  if existsb (in_text "=") value then Err (ValueError "secretRefs must name secrets, not contain secret values") else Ok value.
Definition validate_probe_path (value : string) : result string :=
  if starts_with "/" value then Ok value else Err (ValueError "probePath must start with /").
Definition validate_endpoint (s : ProjectServiceSpec) : result ProjectServiceSpec :=
  match ps_base_url s, ps_port s with
  | None, None => Err (ValueError "service workloads must set either baseUrl or port")
  | _, _ => Ok s
  end.
Definition PROJECT_CONFIG_API_VERSION : string := "goblin-king/v1alpha1".
Definition PROJECT_CONFIG_KIND : string := "GoblinProject".
Definition validate_api_version (value : option string) : result (option string) :=
  match value with
  | Some v => if String.eqb v PROJECT_CONFIG_API_VERSION then Ok value
              else Err (ValueError ("apiVersion must be " +:+ PROJECT_CONFIG_API_VERSION))
  | None => Ok None
  end.
Definition validate_config_kind (value : option string) : result (option string) :=
  match value with
  | Some v => if String.eqb v PROJECT_CONFIG_KIND then Ok value else Err (ValueError ("kind must be " +:+ PROJECT_CONFIG_KIND))
  | None => Ok None
  end.
Definition validate_unique_workload_kinds (s : ProjectSettings) : result ProjectSettings :=
  let duplicates := sorted_strings (filter (λ k, k ∈ (st_services s).*1) (st_goblins s).*1) in
  match duplicates with
  | [] => Ok s
  | _ => Err (ValueError ("project service kind also defined as goblin: " +:+ py_join ", " duplicates))
  end.
(** The constraints on the fields ([min_length], [gt], [ge], [le]) *)
Definition goblin_in_range (g : ProjectGoblinSpec) : bool :=
  truthy (gs_image g) && gt0 (gs_timeout_seconds g) && ge0 (gs_max_retries g).
Definition service_in_range (s : ProjectServiceSpec) : bool :=
  truthy (ps_image s) && truthy (ps_probe_path s) && opt_all (λ p, (0 <? p) && (p <=? 65535)) (ps_port s).
Fixpoint all_ok {A B} (f : A → result B) (l : list A) : result unit :=
  match l with [] => Ok tt | x :: l' => let? _ := f x in all_ok f l' end.
Definition labels_ok (l : Labels) : result Labels := validate_label_map (label_map_json l).
Definition goblin_spec_ok (g : ProjectGoblinSpec) : result unit :=
  if negb (goblin_in_range g) then Err (ValueError "out of range")
  else
    let? _ := labels_ok (pp_required (gs_placement g)) in
    let? _ := labels_ok (pp_preferred (gs_placement g)) in
    let? _ := validate_secret_refs (gs_secret_refs g) in
    Ok tt.
Definition service_spec_ok (s : ProjectServiceSpec) : result unit :=
  if negb (service_in_range s) then Err (ValueError "out of range")
  else
    let? _ := validate_probe_path (ps_probe_path s) in
    let? _ := validate_secret_refs (ps_secret_refs s) in
    let? _ := validate_endpoint s in
    Ok tt.
(** The model's validators, each over the fields it names *)
Definition settings_ok (s : ProjectSettings) : result ProjectSettings :=
  let? _ := validate_api_version (st_api_version s) in
  let? _ := validate_config_kind (st_kind s) in
  let? _ := all_ok (λ kv, goblin_spec_ok kv.2) (st_goblins s) in
  let? _ := all_ok (λ kv, service_spec_ok kv.2) (st_services s) in
  validate_unique_workload_kinds s.

(** ** Loading *)

Class ProjectFiles := {
  (** [read_json_file] *)
  pf_read_json : PosixPath → result Json;
  pf_exists : PosixPath → bool;
  pf_resolve : PosixPath → PosixPath;
  (** the typed fields of [ProjectSettings] and [ResourcePolicySet] *)
  pf_settings : Json → result ProjectSettings;
  pf_policy_set : Json → result ResourcePolicySet;
  pf_settings_keys : ∀ j s, pf_settings j = Ok s → NoDup (st_goblins s).*1 ∧ NoDup (st_services s).*1
}.
Definition is_named (name : string) (e : exn) : bool := String.eqb (exn_name e) name.

Section project.
Context `{Pydantic} `{Floats} `{ProjectFiles}.

(** [ResourcePolicySet.from_path] *)
Definition policy_set_from_path (policy_path : PosixPath) : result ResourcePolicySet :=
  match pf_read_json policy_path with
  | Err e =>
      if is_named "FileNotFoundError" e then Err (ResourcePolicyError ("resource policy file not found: " +:+ as_posix policy_path))
      else if is_named "JSONDecodeError" e then Err (ResourcePolicyError ("resource policy file is not valid JSON: " +:+ as_posix policy_path))
      else Err e
  | Ok payload =>
      match pf_policy_set payload with
      | Err e => if is_value_error e then Err (ResourcePolicyError (exn_str e)) else Err e
      | Ok policies =>
          if negb (version policies =? 1) then Err (ResourcePolicyError ("unsupported resource policy version: " +:+ pretty (version policies)))
          else Ok policies
      end
  end.
Definition _discover_resource_ceilings (root : PosixPath) : result (option ResourcePolicy) :=
  let policy_path := path_join root (parse_path "goblin-resource-policies.json") in
  if negb (pf_exists policy_path) then Ok None
  else let? policies := policy_set_from_path policy_path in Ok (Some (ceilings policies)).
Definition _validate_resource_policy (kind : string) (resources : obj) (limits : option ResourcePolicy) : result unit :=
  let? policy := model_validate (JObj resources) in
  match limits with
  | Some c => validate_within_ceilings (mkResourcePolicySet 1 default_policy ∅ c) kind policy
  | None => Ok tt
  end.
(** The loop over the goblins, and the one over the services *)
Fixpoint effective_specs {A} (get : A → obj) (set_ : obj → A → A) (defaults : obj) (limits : option ResourcePolicy)
    (specs : list (string * A)) : result (list (string * A)) :=
  match specs with
  | [] => Ok []
  | (kind, spec) :: rest =>
      let resources := _deep_merge defaults (get spec) in
      let? _ := _validate_resource_policy kind resources limits in
      let? rest := effective_specs get set_ defaults limits rest in
      Ok ((kind, set_ resources spec) :: rest)
  end.
Definition with_effective_resource_defaults (limits : option ResourcePolicy) (s : ProjectSettings) : result ProjectSettings :=
  let defaults := st_defaults s in
  let? _ := _validate_resource_policy "defaults.resources" defaults limits in
  let? goblins := effective_specs gs_resources with_goblin_resources defaults limits (st_goblins s) in
  let? services := effective_specs ps_resources with_service_resources defaults limits (st_services s) in
  Ok (with_workloads goblins services s).
Definition _resolve (root path : PosixPath) : PosixPath :=
  if is_absolute path then path else pf_resolve (path_join root path).
Definition resolve_relative_to (root : PosixPath) (s : ProjectSettings) : ProjectSettings :=
  mkSettings (st_api_version s) (st_kind s) (_resolve root <$> st_registries s) (st_entry_points s) (_resolve root (st_images s))
    (_resolve root (st_api_settings s)) (st_defaults s)
    ((λ kv, (kv.1, with_goblin_paths (_resolve root (gs_context kv.2)) (_resolve root <$> gs_input_schema kv.2) kv.2)) <$> st_goblins s)
    ((λ kv, (kv.1, with_service_context (_resolve root (ps_context kv.2)) kv.2)) <$> st_services s).
(** [ProjectSettings.from_path] *)
Definition settings_from_path (settings_path : PosixPath) : result ProjectSettings :=
  match pf_read_json settings_path with
  | Err e =>
      if is_named "FileNotFoundError" e then Err (ProjectSettingsError ("project settings file not found: " +:+ as_posix settings_path))
      else if is_named "JSONDecodeError" e then Err (ProjectSettingsError ("project settings file is not valid JSON: " +:+ as_posix settings_path))
      else Err e
  | Ok payload =>
      match (let? s := pf_settings payload in settings_ok s) with
      | Err e => Err (ProjectSettingsError (exn_str e))
      | Ok settings =>
          let root := parent (pf_resolve settings_path) in
          match (let? limits := _discover_resource_ceilings root in with_effective_resource_defaults limits settings) with
          | Err e => if is_value_error e then Err (ProjectSettingsError (exn_str e)) else Err e
          | Ok settings => Ok (resolve_relative_to root settings)
          end
      end
  end.

(** ** Definitions and images *)

Definition upper_char (c : ascii) : ascii :=
  let n := nat_of_ascii c in if Nat.leb 97 n && Nat.leb n 122 then ascii_of_nat (n - 32) else c.
Definition capitalize (s : string) : string :=
  match chars s with [] => EmptyString | c :: l => text (upper_char c :: (lower_char <$> l)) end.
Definition _display_name (kind : string) : string :=
  py_join " " ((λ part, capitalize (text part)) <$> split_on "." ((λ c, if Ascii.eqb c "-" then "."%char else c) <$> chars kind)).
Definition strs (l : list string) : Json := JList (JStr <$> l).
Definition _project_metadata (g : ProjectGoblinSpec) : dict := list_to_map
  [("source", JStr "project-config"); ("description", JOptStr (gs_description g));
   ("input_schema", JOptStr (as_posix <$> gs_input_schema g)); ("resource_policy", gs_resource_policy g);
   ("resources", JObj (gs_resources g)); ("artifacts", JObj (gs_artifacts g)); ("labels", label_map_json (gs_labels g));
   ("tags", strs (gs_tags g)); ("placement", normalized (gs_placement g)); ("env", label_map_json (gs_env g));
   ("secret_refs", strs (gs_secret_refs g)); ("schedule", JObj (gs_schedule g))].
Definition _project_service_metadata (s : ProjectServiceSpec) : dict := list_to_map
  [("source", JStr "project-config"); ("workload_type", JStr "service"); ("description", JOptStr (ps_description s));
   ("base_url", JOptStr (ps_base_url s)); ("port", JOptInt (ps_port s)); ("probe_path", JStr (ps_probe_path s));
   ("resources", JObj (ps_resources s)); ("labels", label_map_json (ps_labels s)); ("tags", strs (ps_tags s));
   ("env", label_map_json (ps_env s)); ("secret_refs", strs (ps_secret_refs s))].
(** [GoblinDefinition(kind=..., ...)] validates its kind. *)
Definition goblin_definition (kind display_name : string) (timeout retries : option Z) (metadata : dict) : result GoblinDefinition :=
  match validate_kind kind with
  | Ok kind => Ok (mkGoblinDefinition kind display_name "goblin_king.container_only" "run" timeout retries metadata)
  | Err e => Err (ValidationError (exn_str e))
  end.
Definition goblin_entry (kv : string * ProjectGoblinSpec) : result GoblinDefinition :=
  goblin_definition kv.1 (text_or (gs_display_name kv.2) (_display_name kv.1)) (gs_timeout_seconds kv.2) (gs_max_retries kv.2)
    (_project_metadata kv.2).
Definition service_entry (kv : string * ProjectServiceSpec) : result GoblinDefinition :=
  goblin_definition kv.1 (text_or (ps_display_name kv.2) (_display_name kv.1)) None None (_project_service_metadata kv.2).
Fixpoint map_ok {A B} (f : A → result B) (l : list A) : result (list B) :=
  match l with [] => Ok [] | x :: l' => let? y := f x in let? ys := map_ok f l' in Ok (y :: ys) end.
Definition registry_definitions (s : ProjectSettings) : result (list GoblinDefinition) :=
  let? goblins := map_ok goblin_entry (st_goblins s) in
  let? services := map_ok service_entry (st_services s) in
  Ok (goblins ++ services).
Definition worker_definitions (s : ProjectSettings) : WorkerImageMap :=
  list_to_map ((λ kv, (kv.1, mkWorkerImage (as_posix (ps_context kv.2)) (ps_dockerfile kv.2) (ps_image kv.2))) <$> st_services s)
  ∪ list_to_map ((λ kv, (kv.1, mkWorkerImage (as_posix (gs_context kv.2)) (gs_dockerfile kv.2) (gs_image kv.2))) <$> st_goblins s).

(** ** Policies *)

Definition declared {A} (get : A → obj) (specs : list (string * A)) : list (string * obj) :=
  filter (λ kv, kv.2 ≠ []) ((λ kv, (kv.1, get kv.2)) <$> specs).
Definition project_workloads (s : ProjectSettings) : list (string * obj) :=
  dict_update (declared gs_resources (st_goblins s)) (declared ps_resources (st_services s)).
Fixpoint layer_workloads (goblins : gmap string ResourcePolicy) (workloads : list (string * obj)) : result (gmap string ResourcePolicy) :=
  match workloads with
  | [] => Ok goblins
  | (kind, resources) :: rest =>
      let base_resources := compact (default default_policy (goblins !! kind)) in
      let? policy := model_validate (JObj (_deep_merge base_resources resources)) in
      layer_workloads (<[kind := policy]> goblins) rest
  end.
Definition validate_workload (merged : ResourcePolicySet) (kind : string) : result unit :=
  let? policy := effective_for merged kind None None in
  validate_within_ceilings merged kind policy.
Definition resource_policy_set (operator_policies : option ResourcePolicySet) (s : ProjectSettings) : result (option ResourcePolicySet) :=
  let project_defaults := st_defaults s in
  let workloads := project_workloads s in
  match project_defaults, workloads, operator_policies with
  | [], [], None => Ok None
  | _, _, _ =>
      let base := default (mkResourcePolicySet 1 default_policy ∅ default_policy) operator_policies in
      let? defaults := model_validate (JObj (_deep_merge (compact (defaults base)) project_defaults)) in
      let? goblins := layer_workloads (goblins base) workloads in
      let merged := mkResourcePolicySet (version base) defaults goblins (ceilings base) in
      let? _ := validate_within_ceilings merged "<project defaults>" defaults in
      let? _ := all_ok (validate_workload merged) workloads.*1 in
      Ok (Some merged)
  end.
End project.

(** ** Lemmas: the policies of a project *)

Section policies.
Context `{Pydantic} `{Floats}.

Lemma check_kind {A} gt str kind kind' f (v m : option A) : check gt str kind f v m = Ok tt → check gt str kind' f v m = Ok tt.
Proof. unfold check. by destruct (opt_gt gt v m). Qed.
(** A policy within the ceilings is so under whatever name it is checked. *)
Lemma validate_any_kind s kind kind' p : validate_within_ceilings s kind p = Ok tt → validate_within_ceilings s kind' p = Ok tt.
Proof.
  unfold validate_within_ceilings. intros Hv.
  repeat (apply result_bind_ok in Hv as (?a & ?Ha & Hv)). rewrite Ha, Ha0, Ha1, Ha2. simpl.
  destruct a3, a4, a5, a6, a7, a8, a9, a10, a11. unfold check_z in *.
  repeat (erewrite (check_kind _ _ kind kind') by eassumption; simpl). done.
Qed.
Lemma all_ok_elem {A B} (f : A → result B) l x : all_ok f l = Ok tt → x ∈ l → ∃ y, f x = Ok y.
Proof.
  induction l as [|a l IH]; [by intros _ ?%elem_of_nil|]. simpl. intros (y & Hy & Hl)%result_bind_ok [->|Hx]%elem_of_cons; eauto.
Qed.
Lemma merge_default d : merge_policy d default_policy = d.
Proof. by destruct d as [? ? [] [] [] [] [] [] []]. Qed.
(** A kind without an override gets the defaults. *)
Lemma effective_defaults s kind :
  policy_in_range (defaults s) = true → goblins s !! kind = None →
  validate_within_ceilings s kind (defaults s) = Ok tt → effective_for s kind None None = Ok (defaults s).
Proof.
  intros Hd Hk Hv. unfold effective_for.
  assert (Hr : read_policy (JObj (merged_dump s kind None None)) = Some (defaults s)).
  { rewrite read_merged_dump, Hk. change (default default_policy None) with default_policy. rewrite merge_default. by destruct (defaults s). }
  rewrite (model_validate_reads _ _ Hr Hd). simpl. by rewrite Hv.
Qed.

(** A project never runs past its operator's ceilings.  When the project's resources
    can be layered on the operator's policies at all, the ceilings stay the operator's,
    and every workload of the project that declares resources, and every kind that
    nothing overrides, has an effective policy, which is within those ceilings: no such
    job is refused for its policy later. *)
Theorem project_policies_bounded (operator_policies : option ResourcePolicySet) (s : ProjectSettings) (merged : ResourcePolicySet) (kind : string) :
  resource_policy_set operator_policies s = Ok (Some merged) →
  (kind ∈ (project_workloads s).*1 ∨ goblins merged !! kind = None) →
  ceilings merged = match operator_policies with Some base => ceilings base | None => default_policy end
  ∧ ∃ p, effective_for merged kind None None = Ok p ∧ within_ceilings p (ceilings merged).
Proof.
  unfold resource_policy_set. intros Hs Hkind.
  set (base := default (mkResourcePolicySet 1 default_policy ∅ default_policy) operator_policies) in *.
  assert (∃ defaults goblins, model_validate (JObj (_deep_merge (compact (ResourcePolicies.defaults base)) (st_defaults s))) = Ok defaults
    ∧ merged = mkResourcePolicySet (version base) defaults goblins (ceilings base)
    ∧ validate_within_ceilings merged "<project defaults>" defaults = Ok tt ∧ all_ok (validate_workload merged) (project_workloads s).*1 = Ok tt)
    as (defaults & layered & Hd & -> & Hc & Hall).
  { destruct (st_defaults s), (project_workloads s), operator_policies; try discriminate Hs;
      apply result_bind_ok in Hs as (d & Hd & Hs); apply result_bind_ok in Hs as (g & _ & Hs);
      apply result_bind_ok in Hs as ([] & Hc & Hs); apply result_bind_ok in Hs as ([] & Ha & [= <-]);
      by exists d, g. }
  split; [by destruct operator_policies|]. simpl. destruct Hkind as [Hk|Hk].
  - destruct (all_ok_elem _ _ _ Hall Hk) as ([] & (p & Hp & Hv)%result_bind_ok). exists p. split; [done|].
    by apply validate_within_ceilings_ok in Hv.
  - exists defaults. apply (validate_any_kind _ _ kind) in Hc. split.
    + apply (effective_defaults (mkResourcePolicySet (version base) defaults layered (ceilings base))); [by eapply model_validate_in_range|done|done].
    + by apply validate_within_ceilings_ok in Hc.
Qed.
End policies.

(** ** Lemmas: the kinds of a project *)

Section kinds.
Context `{Pydantic} `{Floats} `{ProjectFiles}.

(** Every kind once, goblins and services together *)
Definition kinds_once (s : ProjectSettings) : Prop := NoDup ((st_goblins s).*1 ++ (st_services s).*1).

Lemma effective_specs_keys {A} (get : A → obj) set_ defaults limits specs specs' :
  effective_specs get set_ defaults limits specs = Ok specs' → specs'.*1 = specs.*1.
Proof.
  revert specs'. induction specs as [|[k x] specs IH]; intros specs'; simpl; [by intros [= <-]|].
  intros (? & _ & (rest & Hrest & [= <-])%result_bind_ok)%result_bind_ok. simpl. f_equal. by apply IH.
Qed.
Lemma keys_mapped {A B} (f : string * A → B) (l : list (string * A)) : ((λ kv, (kv.1, f kv)) <$> l).*1 = l.*1.
Proof. induction l as [|kv l IH]; [done|]. rewrite !fmap_cons. by f_equal. Qed.
Lemma unique_kinds s s' : NoDup (st_goblins s).*1 → NoDup (st_services s).*1 →
  validate_unique_workload_kinds s = Ok s' → kinds_once s.
Proof.
  unfold validate_unique_workload_kinds, kinds_once. intros Hg Hs Hu. apply NoDup_app. split_and!; [done| |done].
  intros k Hk Hk'. destruct (sorted_strings _) as [|x l] eqn:Hsort; [|done].
  assert (k ∈ sorted_strings (filter (λ k, k ∈ (st_services s).*1) (st_goblins s).*1)) as Hin; [|rewrite Hsort in Hin; by apply elem_of_nil in Hin].
  apply (@order_by_elem sqlite_merge string String.leb). by apply list_elem_of_filter.
Qed.
(** What [from_path] answers has each kind once. *)
Lemma loaded_kinds path s : settings_from_path path = Ok s → kinds_once s.
Proof.
  unfold settings_from_path. destruct (pf_read_json path) as [payload|e]; [|by repeat destruct (is_named _ e)].
  destruct (let? s0 := pf_settings payload in settings_ok s0) as [s1|e] eqn:Hs1; [|done].
  apply result_bind_ok in Hs1 as (s0 & Hread & Hok). destruct (pf_settings_keys _ _ Hread) as [Hg Hsv].
  assert (s1 = s0 ∧ kinds_once s0) as [-> Honce].
  { unfold settings_ok in Hok. do 4 apply result_bind_ok in Hok as (? & _ & Hok).
    split; [|by eapply unique_kinds]. revert Hok. unfold validate_unique_workload_kinds. by destruct (sorted_strings _); intros [= ->]. }
  destruct (let? limits := _ in _) as [s2|e] eqn:Hs2; [|by destruct (is_value_error e)]. intros [= <-].
  apply result_bind_ok in Hs2 as (limits & _ & Heff). unfold with_effective_resource_defaults in Heff.
  apply result_bind_ok in Heff as (? & _ & Heff). apply result_bind_ok in Heff as (goblins & Hgo & Heff).
  apply result_bind_ok in Heff as (services & Hse & [= <-]). apply effective_specs_keys in Hgo, Hse.
  unfold kinds_once, resolve_relative_to. cbn [st_goblins st_services with_workloads].
  by rewrite !keys_mapped, Hgo, Hse.
Qed.

Lemma map_ok_spec {A B} (f : A → result B) l ys : map_ok f l = Ok ys → Forall2 (λ x y, f x = Ok y) l ys.
Proof.
  revert ys. induction l as [|x l IH]; intros ys; simpl; [intros [= <-]; constructor|].
  intros (y & Hy & (ys' & Hys & [= <-])%result_bind_ok)%result_bind_ok. constructor; auto.
Qed.
Lemma goblin_definition_ok kind name t r m d :
  goblin_definition kind name t r m = Ok d → gd_kind d = kind ∧ GOBLIN_KIND_PATTERN kind = true.
Proof. unfold goblin_definition, validate_kind. destruct (GOBLIN_KIND_PATTERN kind); [|done]. by intros [= <-]. Qed.
Lemma entries_kinds {A} (entry : string * A → result GoblinDefinition) l ds :
  (∀ kv d, entry kv = Ok d → gd_kind d = kv.1) → Forall2 (λ x y, entry x = Ok y) l ds → gd_kind <$> ds = l.*1.
Proof. intros He Hl. induction Hl as [|x y l ds Hxy _ IH]; simpl; [done|]. f_equal; auto. Qed.
Lemma entry_of {A} (entry : string * A → result GoblinDefinition) l ds d :
  Forall2 (λ x y, entry x = Ok y) l ds → d ∈ ds → ∃ kv, kv ∈ l ∧ entry kv = Ok d.
Proof. intros Hl Hd. apply list_elem_of_lookup in Hd as [i Hi]. destruct (Forall2_lookup_r _ _ _ _ _ Hl Hi) as (x & Hx & Hxy). exists x. split; [by eapply list_elem_of_lookup_2|done]. Qed.

(** The image that is mapped for a definition of the project *)
Definition image_for (s : ProjectSettings) (d : GoblinDefinition) : Prop :=
  (∃ g, (gd_kind d, g) ∈ st_goblins s ∧ goblin_entry (gd_kind d, g) = Ok d
     ∧ worker_definitions s !! gd_kind d = Some (mkWorkerImage (as_posix (gs_context g)) (gs_dockerfile g) (gs_image g)))
  ∨ (∃ v, (gd_kind d, v) ∈ st_services s ∧ service_entry (gd_kind d, v) = Ok d
     ∧ worker_definitions s !! gd_kind d = Some (mkWorkerImage (as_posix (ps_context v)) (ps_dockerfile v) (ps_image v))).
Lemma worker_of_goblin s kind g : kinds_once s → (kind, g) ∈ st_goblins s →
  worker_definitions s !! kind = Some (mkWorkerImage (as_posix (gs_context g)) (gs_dockerfile g) (gs_image g)).
Proof.
  intros (Hg & Hdis & _)%NoDup_app Hin. unfold worker_definitions. apply lookup_union_Some_raw. right. split.
  - apply not_elem_of_list_to_map_1. rewrite keys_mapped. intros Hk. apply (Hdis kind); [|done].
    by apply (list_elem_of_fmap_2' fst _ (kind, g)).
  - apply elem_of_list_to_map_1; [by rewrite keys_mapped|]. apply list_elem_of_fmap. by exists (kind, g).
Qed.
Lemma worker_of_service s kind v : kinds_once s → (kind, v) ∈ st_services s →
  worker_definitions s !! kind = Some (mkWorkerImage (as_posix (ps_context v)) (ps_dockerfile v) (ps_image v)).
Proof.
  intros (_ & _ & Hs)%NoDup_app Hin. unfold worker_definitions. apply lookup_union_Some_raw. left.
  apply elem_of_list_to_map_1; [by rewrite keys_mapped|]. apply list_elem_of_fmap. by exists (kind, v).
Qed.

(** What a project declares can be run.  The definitions of a project that loads make a
    registry, without a repeated kind; it has exactly the kinds of the project's goblins
    and services; and each definition carries its own kind, which is a valid one, and has
    the image, context and Dockerfile of its own declaration mapped. *)
Theorem project_discovery (path : PosixPath) (s : ProjectSettings) (definitions : list GoblinDefinition) :
  settings_from_path path = Ok s → registry_definitions s = Ok definitions →
  ∃ registry, from_definitions definitions = Ok registry
    ∧ (∀ kind, is_Some (registry !! kind) ↔ kind ∈ (st_goblins s).*1 ++ (st_services s).*1)
    ∧ ∀ kind d, registry !! kind = Some d → gd_kind d = kind ∧ GOBLIN_KIND_PATTERN kind = true ∧ image_for s d.
Proof.
  intros Honce%loaded_kinds (gs & Hg & (vs & Hv & [= <-])%result_bind_ok)%result_bind_ok.
  apply map_ok_spec in Hg, Hv.
  assert (Hkinds : gd_kind <$> gs ++ vs = (st_goblins s).*1 ++ (st_services s).*1).
  { rewrite fmap_app. f_equal; (eapply entries_kinds; [|eassumption]); intros kv d Hd; by apply goblin_definition_ok in Hd as [? _]. }
  pose proof (index_loop_spec ∅ (gs ++ vs)) as Hspec. unfold from_definitions, _index_definitions.
  destruct (index_loop ∅ (gs ++ vs)) as [registry|e].
  2:{ destruct Hspec as (? & _ & _ & Hno). exfalso. apply Hno. rewrite Hkinds. split; [exact Honce|]. intros d _. apply lookup_empty. }
  destruct Hspec as (_ & _ & Hr). exists registry. split; [done|].
  assert (Hreg : ∀ kind d, registry !! kind = Some d ↔ d ∈ gs ++ vs ∧ gd_kind d = kind).
  { intros kind d. rewrite Hr, lookup_empty. naive_solver. }
  split.
  - intros kind. rewrite <- Hkinds, list_elem_of_fmap. split; [intros [d [Hd <-]%Hreg]; by exists d|].
    intros (d & -> & Hd). exists d. by apply Hreg.
  - intros kind d [Hd <-]%Hreg. apply elem_of_app in Hd as [Hd|Hd].
    + destruct (entry_of _ _ _ _ Hg Hd) as ([k g] & Hin & Hentry). destruct (goblin_definition_ok _ _ _ _ _ _ Hentry) as [Hk Hp].
      simpl in Hk, Hp. subst k. split_and!; [done|done|]. left. exists g. split_and!; [done|done|]. by apply worker_of_goblin.
    + destruct (entry_of _ _ _ _ Hv Hd) as ([k v] & Hin & Hentry). destruct (goblin_definition_ok _ _ _ _ _ _ Hentry) as [Hk Hp].
      simpl in Hk, Hp. subst k. split_and!; [done|done|]. right. exists v. split_and!; [done|done|]. by apply worker_of_service.
Qed.
End kinds.

(** ** Runs on concrete inputs *)

Definition no_placement : ProjectPlacementSpec := mkPlacement [] [].
Definition report_spec : ProjectGoblinSpec :=
  mkGoblinSpec "reports:1" None None (parse_path "workers/report") "Dockerfile" None JNull
    [("cpu", JObj [("limit", JStr "3")])] [] [] [] (mkPlacement [("topology.kubernetes.io/zone", "eu-1")] []) [] ["REPORT_KEY"] [] (Some 90) None.
Definition web_spec : ProjectServiceSpec :=
  mkServiceSpec "web:1" None (Some "The web") (parse_path "/srv/web") "Dockerfile" None (Some 8080) "/hello" [] [] [] [] [].
Definition project_with (kind : string) (spec : ProjectGoblinSpec) : ProjectSettings :=
  mkSettings None None [parse_path "goblins.json"] true (parse_path "goblin-images.json") (parse_path "api.json")
    [("timeout_seconds", JInt 60)] [(kind, spec)] [("web", web_spec)].
(** A file that holds a project, and no policies beside it *)
Definition project_file (kind : string) : ProjectFiles.
Proof.
  refine {| pf_read_json := λ _, Ok (JObj []); pf_exists := λ _, false; pf_resolve := λ p, p;
            pf_settings := λ _, Ok (project_with kind report_spec); pf_policy_set := λ _, Err (ValidationError "version") |}.
  intros _ s [= <-]. split; apply NoDup_singleton.
Defined.
Definition project_path : PosixPath := parse_path "/srv/app/goblin-project.json".
Definition loaded (kind : string) : result ProjectSettings :=
  @settings_from_path strict_pydantic int_floats (project_file kind) project_path.
Definition loaded_project : ProjectSettings := match loaded "report" with Ok s => s | Err _ => project_with "report" report_spec end.
Definition loaded_definitions : list GoblinDefinition := match registry_definitions loaded_project with Ok l => l | Err _ => [] end.
Definition layered_policies : ResourcePolicySet :=
  match @resource_policy_set strict_pydantic int_floats (Some sample_policies) loaded_project with
  | Ok (Some merged) => merged
  | _ => sample_policies
  end.

Lemma project_policies_bounded_witness :
  ceilings layered_policies = ceilings sample_policies
  ∧ ∃ p, @effective_for strict_pydantic int_floats layered_policies "report" None None = Ok p
      ∧ @within_ceilings int_floats p (ceilings layered_policies).
Proof.
  assert (Hset : @resource_policy_set strict_pydantic int_floats (Some sample_policies) loaded_project = Ok (Some layered_policies)) by (vm_compute; reflexivity).
  apply (@project_policies_bounded strict_pydantic int_floats (Some sample_policies) loaded_project layered_policies "report" Hset).
  left. vm_compute. by left.
Defined.
Lemma project_discovery_witness :
  ∃ registry, from_definitions loaded_definitions = Ok registry
    ∧ (∀ kind, is_Some (registry !! kind) ↔ kind ∈ (st_goblins loaded_project).*1 ++ (st_services loaded_project).*1)
    ∧ ∀ kind d, registry !! kind = Some d → gd_kind d = kind ∧ GOBLIN_KIND_PATTERN kind = true ∧ image_for loaded_project d.
Proof.
  assert (Hs : loaded "report" = Ok loaded_project) by (vm_compute; reflexivity).
  assert (Hd : registry_definitions loaded_project = Ok loaded_definitions) by (vm_compute; reflexivity).
  exact (@project_discovery strict_pydantic int_floats (project_file "report") project_path loaded_project loaded_definitions Hs Hd).
Defined.
(** The defaults reach every workload, a path is taken from the file's directory, and the
    operator's ceiling on CPU stands. *)
Example project_loaded :
  (gs_resources <$> dict_get (st_goblins loaded_project) "report") = Some [("timeout_seconds", JInt 60); ("cpu", JObj [("limit", JStr "3")])]
  ∧ (ps_resources <$> dict_get (st_services loaded_project) "web") = Some [("timeout_seconds", JInt 60)]
  ∧ (as_posix ∘ gs_context <$> dict_get (st_goblins loaded_project) "report") = Some "/srv/app/workers/report"
  ∧ gd_display_name <$> loaded_definitions = ["Report"; "The web"].
Proof. split_and!; vm_compute; reflexivity. Qed.
Example over_the_ceiling :
  @resource_policy_set strict_pydantic int_floats (Some sample_policies)
    (with_workloads [("report", with_goblin_resources [("cpu", JObj [("limit", JStr "5")])] report_spec)] [] loaded_project)
  = Err (ResourcePolicyError "report resource policy exceeds ceiling for cpu.limit: 5 > 4").
Proof. vm_compute. reflexivity. Qed.
(** A kind that is none passes the loading and is found out by the registry's own model,
    with an exception that is not the project's. *)
Example invalid_kind_loads :
  is_ok (loaded "Bad Kind") = true
  ∧ (let? s := loaded "Bad Kind" in registry_definitions s) = Err (ValidationError "kind must use lowercase letters, digits, dots, or dashes").
Proof. split; vm_compute; reflexivity. Qed.
(** Labels: what Kubernetes allows, and a newline that it does not. *)
Example label_examples :
  _validate_label_key "topology.kubernetes.io/zone" = Ok tt ∧ _validate_label_value "eu-1" = Ok tt
  ∧ is_ok (_validate_label_key "/zone") = false ∧ is_ok (_validate_label_key "Big.io/zone") = false ∧ is_ok (_validate_label_value "-x") = false
  ∧ _validate_label_value ("gpu" +:+ newline) = Ok tt ∧ _validate_label_key ("gpu" +:+ newline) = Ok tt.
Proof. split_and!; vm_compute; reflexivity. Qed.
Example display_names : _display_name "daily-report.v2" = "Daily Report V2".
Proof. vm_compute. reflexivity. Qed.
