(* ===== verification/Doctor.v ===== *)
(** * Diagnosis ([src/src/goblin_king/doctor.py], and [validate_demo_project] of [demo.py])

    The checks [goblin-king doctor] makes of an environment and of a project, each a
    name, a status and a text, and the report they add up to.  The store is that of the
    control plane; commands, files, Redis and HTTP are the class [DoctorHost], loading a
    project is its result.  The theorem ties the coverage check to the scheduler's
    validation gate. *)

From Stdlib Require Import Ascii.
From S2P Require Import Prelude CausalTime Contracts Text Paths PyValues ResourcePolicies EventStore JobStore JobLifecycle RecordStore Auth Registry World Containers KubeSettings KubeManifest Validation Scheduler Attempts Gate Project.

Record DoctorCheck := mkCheck {
  dc_name : string; dc_status : string; dc_message : string; dc_repair : option string; dc_doc : option string }.
Record DoctorResult := mkDoctorResult {
  do_ok : bool; do_project : string; do_kind : string; do_admin_url : string; do_checks : list DoctorCheck }.
(** [DemoContext] *)
Record DemoContext := mkContext {
  dx_settings : ProjectSettings; dx_registry : Registry; dx_workers : WorkerImageMap; dx_db : string }.

Class DoctorHost := {
  (** [CommandRunner.run] with its timeout *)
  dh_run : list string → Z → M World ProcessOutput;
  dh_which : string → bool;
  dh_exists : PosixPath → bool;
  dh_read_text : PosixPath → result string;
  dh_is_os_error : exn → bool;
  (** importing the Kubernetes client: the text of the ImportError *)
  dh_kubernetes : option string;
  (** [Redis.from_url(url).ping()] *)
  dh_ping : string → result unit;
  dh_is_redis_error : exn → bool;
  (** [JsonHttpClient.request_json] of a URL, with a token *)
  dh_request : string → option string → result unit;
  dh_is_request_error : exn → bool;
  (** [admin_api_base_url] of the admin page's URL *)
  dh_api_base : string → string
}.

Definition passing (name message : string) : DoctorCheck := mkCheck name "pass" message None None.
Definition VALIDATION_DOC : string := "docs/goblin-contract-validation.md".

Definition runtime_modes_for (runtime : string) : result (list string) :=
  if String.eqb runtime "both" then Ok ["docker"; "kubernetes"]
  else if bool_decide (runtime ∈ ["docker"; "kubernetes"]) then Ok [runtime]
  else Err (ValueError "doctor runtime must be docker, kubernetes, or both").
Definition summarize_items (label : string) (items : list string) : string :=
  let suffix := if Nat.ltb 5 (length items) then " (+" +:+ pretty (Z.of_nat (length items) - 5) +:+ " more)" else EmptyString in
  label +:+ ": " +:+ py_join ", " (take 5 items) +:+ suffix +:+ ".".

Section doctor.
Context `{Sqlite} `{Env} `{Pydantic} `{Floats} `{ProjectFiles} `{DoctorHost}.

(** [result.stderr.strip() or result.stdout.strip() or fallback] *)
Definition failure_detail (output : ProcessOutput) (fallback : string) : string :=
  text_or (Some (strip (po_stderr output))) (text_or (Some (strip (po_stdout output))) fallback).
Definition command_check (args : list string) (name success_message failure_message repair_command failure_status : string)
    : M World DoctorCheck :=
  let* output := dh_run args 15 in
  if po_code output =? 0 then ret (passing name success_message)
  else ret (mkCheck name failure_status (failure_message +:+ " " +:+ failure_detail output failure_message) (Some repair_command) None).
Definition docker_checks : M World (list DoctorCheck) :=
  if negb (dh_which "docker") then
    ret [mkCheck "docker_cli" "fail" "Docker CLI was not found on PATH."
           (Some "Install Docker Desktop or another local Docker engine.") (Some "docs/testing-your-project-with-the-admin-panel.md")]
  else
    let* cli := command_check ["docker"; "--version"] "docker_cli" "Docker CLI is available." "Docker CLI did not run successfully."
                  "Install or repair Docker, then rerun goblin-king doctor." "fail" in
    let* daemon := command_check ["docker"; "info"] "docker_daemon" "Docker daemon is reachable." "Docker daemon is not reachable."
                     "Start Docker Desktop or your local Docker daemon." "fail" in
    let* compose := command_check ["docker"; "compose"; "version"] "docker_compose" "Docker Compose is available."
                      "Docker Compose did not run successfully." "Install Docker Compose v2 or repair your Docker install." "fail" in
    ret [cli; daemon; compose].
Definition kubernetes_package_check : DoctorCheck :=
  match dh_kubernetes with
  | Some error => mkCheck "kubernetes_package" "fail" ("Python Kubernetes client is not importable: " +:+ error)
                    (Some "Install the project runtime dependencies.") None
  | None => passing "kubernetes_package" "Python Kubernetes client is importable."
  end.
Definition kubernetes_checks : M World (list DoctorCheck) :=
  let package := kubernetes_package_check in
  if negb (dh_which "kubectl") then
    ret [package; mkCheck "kubectl_cli" "warn" "kubectl was not found on PATH; Kubernetes runtime debugging will be limited."
                    (Some "Install kubectl if you plan to inspect Kubernetes runtime jobs.") None]
  else
    let* cli := command_check ["kubectl"; "version"; "--client=true"; "--output=json"] "kubectl_cli" "kubectl client is available."
                  "kubectl client did not run successfully." "Install or repair kubectl." "warn" in
    let* context := command_check ["kubectl"; "config"; "current-context"] "kubectl_context" "kubectl has a current context configured."
                      "kubectl current context is not configured." "Configure a kubeconfig context before using Kubernetes runtime." "warn" in
    ret [package; cli; context].
(** The Compose files that exist, and those among them that mount the socket *)
Fixpoint socket_mounts (files : list PosixPath) : result (list string * list string) :=
  match files with
  | [] => Ok ([], [])
  | path :: rest =>
      if negb (dh_exists path) then socket_mounts rest
      else
        let mounted := match dh_read_text path with
                       | Ok text => Ok (in_text "/var/run/docker.sock" text)
                       | Err e => if dh_is_os_error e then Ok false else Err e
                       end in
        let? mounted := mounted in
        let? (inspected, mounts) := socket_mounts rest in
        Ok (as_posix path :: inspected, if mounted : bool then as_posix path :: mounts else mounts)
  end.
Definition docker_socket_posture_check (compose_files : list PosixPath) : result DoctorCheck :=
  let? (inspected, mounts) := socket_mounts compose_files in
  Ok (match inspected, mounts with
      | [], _ => mkCheck "docker_socket_posture" "warn" "No known Compose files were available for Docker socket posture inspection." None None
      | _, _ :: _ => mkCheck "docker_socket_posture" "warn"
          ("Docker socket mounts are present for local nested worker launch: " +:+ py_join ", " mounts
           +:+ ". Use only with trusted local project configs.") None None
      | _, [] => passing "docker_socket_posture" ("No Docker socket mounts found in known Compose files: " +:+ py_join ", " inspected +:+ ".")
      end).
(** [helm_template_command(chart, release=goblin-king, values)] *)
Definition DEFAULT_HELM_CHART : PosixPath := parse_path "charts/goblin-king".
Definition helm_template_check (helm_values : PosixPath) : M World DoctorCheck :=
  let values := as_posix helm_values in
  let failing message repair := ret (mkCheck "helm_template" "fail" message repair None) in
  if negb (dh_exists helm_values) then
    failing ("Helm values file was not found: " +:+ values)
      (Some ("Create the values file or rerun without --helm-values " +:+ values +:+ "."))
  else if negb (dh_exists DEFAULT_HELM_CHART) then failing ("Helm chart was not found: " +:+ as_posix DEFAULT_HELM_CHART) None
  else if negb (dh_which "helm") then
    failing "Helm CLI was not found on PATH." (Some "Install Helm or rerun doctor without --helm-values.")
  else
    let* output := dh_run ["helm"; "template"; "goblin-king"; as_posix DEFAULT_HELM_CHART; "-f"; values] 30 in
    if po_code output =? 0 then ret (passing "helm_template" ("Helm template rendered successfully with values file: " +:+ values))
    else failing ("Helm template rendering failed. " +:+ failure_detail output "helm template failed")
           (Some "Fix the chart values, then rerun the same doctor command.").

(** ** The project *)

(** [validate_demo_project]: the messages of what is missing *)
Definition missing_dockerfiles (resolved_context : WorkerImageDefinition → PosixPath) (context : DemoContext) : list string * list string :=
  let definitions := registry_list (dx_registry context) in
  (omap (λ d, match worker_get (dx_workers context) (gd_kind d) with Ok _ => None | Err _ => Some (gd_kind d) end) definitions,
   omap (λ d, match worker_get (dx_workers context) (gd_kind d) with
              | Ok worker =>
                  let dockerfile := path_join (resolved_context worker) (parse_path (wi_dockerfile worker)) in
                  if dh_exists dockerfile then None else Some (gd_kind d +:+ ": " +:+ as_posix dockerfile)
              | Err _ => None
              end) definitions).
Definition validate_demo_project (resolved_context : WorkerImageDefinition → PosixPath) (context : DemoContext) : result unit :=
  let (missing, invalid) := missing_dockerfiles resolved_context context in
  match missing, invalid with
  | [], [] => Ok tt
  | _, _ => Err (ValueError (py_join "; "
      ((match missing with [] => [] | _ => ["missing worker mapping: " +:+ py_join ", " missing] end)
       ++ (match invalid with [] => [] | _ => ["missing Dockerfile: " +:+ py_join ", " invalid] end))))
  end.

Definition effective_resource_policy_set (context : DemoContext) (resource_policies : option PosixPath) : result (option ResourcePolicySet) :=
  let? operator_policies := (match resource_policies with
                             | Some path => let? p := policy_set_from_path path in Ok (Some p)
                             | None => Ok None
                             end) in
  resource_policy_set operator_policies (dx_settings context).
Definition policy_summary (kind : string) (policy : ResourcePolicy) (docker_args : list string) : Json :=
  JObj [("kind", JStr kind); ("effective_policy", JObj (compact policy)); ("docker_args", JList (JStr <$> docker_args));
        ("kubernetes_fields", JObj (kubernetes_policy_fields policy))].
Definition resource_policy_check (context : DemoContext) (kind : string) (resource_policies : option PosixPath) : result DoctorCheck :=
  let failing message repair := Ok (mkCheck "resource_policy" "fail" message (Some repair) None) in
  match effective_resource_policy_set context resource_policies with
  | Err (ResourcePolicyError msg) => failing msg "Fix the resource policy file, then rerun doctor."
  | Err e => if is_value_error e then failing (exn_str e) "Adjust project resource defaults or operator ceilings." else Err e
  | Ok None => Ok (mkCheck "resource_policy" "warn" "No resource policy is configured; runtime resource limits are not enforced."
                     (Some "Add project resources or pass --resource-policies with a policy file.") None)
  | Ok (Some policy_set) =>
      match effective_for policy_set kind None None with
      | Err e =>
          if is_value_error e then
            failing ("Effective resource policy for " +:+ kind +:+ " is invalid: " +:+ exn_str e)
              "Adjust resource policy defaults, overrides, or ceilings."
          else Err e
      | Ok policy =>
          let? docker_args := docker_policy_args policy in
          Ok (passing "resource_policy"
                ("Effective resource policy summary: " +:+ json_dumps (json_sorted (policy_summary kind policy docker_args))))
      end
  end.

(** ** Validation coverage *)

Record Coverage := mkCoverage {
  cv_required : nat; cv_passed : list string; cv_missing : list string; cv_stale : list string; cv_failed : list string;
  cv_image_errors : list string }.
Definition no_coverage : Coverage := mkCoverage 0 [] [] [] [] [].
Definition problems (c : Coverage) : list string := cv_missing c ++ cv_stale c ++ cv_failed c ++ cv_image_errors c.
Definition requires (c : Coverage) : Coverage :=
  mkCoverage (S (cv_required c)) (cv_passed c) (cv_missing c) (cv_stale c) (cv_failed c) (cv_image_errors c).
Definition covers (label : string) (c : Coverage) : Coverage :=
  mkCoverage (cv_required c) (cv_passed c ++ [label]) (cv_missing c) (cv_stale c) (cv_failed c) (cv_image_errors c).
Definition misses (text : string) (c : Coverage) : Coverage :=
  mkCoverage (cv_required c) (cv_passed c) (cv_missing c ++ [text]) (cv_stale c) (cv_failed c) (cv_image_errors c).
Definition stales (text : string) (c : Coverage) : Coverage :=
  mkCoverage (cv_required c) (cv_passed c) (cv_missing c) (cv_stale c ++ [text]) (cv_failed c) (cv_image_errors c).
Definition fails (text : string) (c : Coverage) : Coverage :=
  mkCoverage (cv_required c) (cv_passed c) (cv_missing c) (cv_stale c) (cv_failed c ++ [text]) (cv_image_errors c).
Definition unidentified (text : string) (c : Coverage) : Coverage :=
  mkCoverage (cv_required c) (cv_passed c) (cv_missing c) (cv_stale c) (cv_failed c) (cv_image_errors c ++ [text]).

Definition inspect_command (image : string) : list string := ["docker"; "image"; "inspect"; image; "--format"; "{{.Id}}"].
Definition runtime_image_identity (mode image : string) : M World (option string * option string) :=
  if String.eqb mode "kubernetes" then ret (Some ("kubernetes:" +:+ image), None)
  else if negb (String.eqb mode "docker") then ret (None, Some ("unsupported runtime mode: " +:+ mode))
  else if negb (dh_which "docker") then ret (None, Some "Docker CLI was not found on PATH")
  else
    let* output := dh_run (inspect_command image) 15 in
    if po_code output =? 0 then
      let digest := strip (po_stdout output) in
      ret (if truthy digest then (Some digest, None) else (None, Some ("Docker did not report an image id: " +:+ image)))
    else ret (None, Some ("worker image unavailable: " +:+ image +:+ "; " +:+ failure_detail output "docker image inspect failed")).
Definition validation_status_str (s : ValidationStatus) : string := match s with ValidationPassed => "passed" | ValidationFailed => "failed" end.
(** One kind on one runtime *)
Definition is_passed (v : option WorkerValidationRecord) : bool :=
  match v with Some v => bool_decide (wv_status v = ValidationPassed) | None => false end.
Definition unproven (label : string) (latest : option WorkerValidationRecord) : Coverage → Coverage :=
  match latest with
  | None => misses (label +:+ ": no validation proof")
  | Some v =>
      if bool_decide (wv_status v = ValidationPassed) then stales (label +:+ ": latest proof is not for the current runtime image")
      else fails (label +:+ ": latest proof is " +:+ validation_status_str (wv_status v))
  end.
Definition cover_mode (kind image : string) (c : Coverage) (mode : string) : M World Coverage :=
  let label := kind +:+ "/" +:+ mode in
  let* (identity, identity_error) := runtime_image_identity mode image in
  match identity_error, identity with
  | None, Some identity =>
      let* validation := gets (λ w, get_latest_worker_validation kind identity GOBLIN_CONTAINER_CONTRACT_VERSION VALIDATOR_VERSION (w_validations w)) in
      let* latest := gets (λ w, latest_worker_validation_for_kind kind (w_validations w)) in
      ret ((if is_passed validation then covers label else unproven label latest) (requires c))
  | _, _ => ret (unidentified (label +:+ ": " +:+ text_or identity_error "image identity unavailable") (requires c))
  end.
Definition cover_definition (workers : WorkerImageMap) (modes : list string) (c : Coverage) (definition : GoblinDefinition) : M World Coverage :=
  let kind := gd_kind definition in
  match worker_get workers kind with
  | Ok worker => foldM (cover_mode kind (wi_image worker)) c modes
  | Err e => ret (misses (kind +:+ ": " +:+ exn_str e) c)
  end.
Definition coverage_repair (project : string) : string :=
  "goblin-king workers validate --project " +:+ project +:+ " --input examples/input.json --build --require-success".
Definition coverage_check (project : string) (c : Coverage) : DoctorCheck :=
  let passed := Nat.ltb 0 (cv_required c) && Nat.eqb (length (cv_passed c)) (cv_required c) && bool_decide (problems c = []) in
  let message := "Validation freshness and image coverage: " +:+ pretty (Z.of_nat (length (cv_passed c))) +:+ "/"
                 +:+ pretty (Z.of_nat (cv_required c)) +:+ " selected runtime image identities have passing proof."
                 +:+ (if bool_decide (problems c = []) then EmptyString else " " +:+ summarize_items "Issues" (problems c)) in
  mkCheck "validation_coverage" (if passed then "pass" else "warn") message
    (if passed then None else Some (coverage_repair project)) (if passed then None else Some VALIDATION_DOC).
Definition validation_coverage_check (context : DemoContext) (modes : list string) (project : string) : M World DoctorCheck :=
  match registry_list (dx_registry context) with
  | [] => ret (mkCheck "validation_coverage" "warn" "No registered workload definitions were found for validation coverage." None None)
  | definitions =>
      let* c := foldM (cover_definition (dx_workers context) modes) no_coverage definitions in
      ret (coverage_check project c)
  end.

(** ** Schedules, placement and the control plane *)

(** Whether each enabled schedule is due, the clock read for each *)
Fixpoint due_schedules (l : list ScheduleRecord) : M World (list ScheduleRecord) :=
  match l with
  | [] => ret []
  | schedule :: l' =>
      let* now := zoom w_process_lens utc_now in
      let* rest := due_schedules l' in
      ret (if sc_next_run_at schedule <=? now then schedule :: rest else rest)
  end.
Definition declared_schedule (d : GoblinDefinition) : option obj :=
  match gd_metadata d !! "schedule" with Some (JObj o) => Some o | _ => None end.
Definition declares_schedule (d : GoblinDefinition) : bool := match declared_schedule d with Some (_ :: _) => true | _ => false end.
Definition enables_schedule (d : GoblinDefinition) : bool :=
  match o ← declared_schedule d; obj_get o "enabled" with Some (JBool true) => true | _ => false end.
Definition unmapped (workers : WorkerImageMap) (kind : string) : option string :=
  match worker_get workers kind with Ok _ => None | Err e => Some (kind +:+ ": " +:+ exn_str e) end.
Definition size_text {A} (l : list A) : string := pretty (Z.of_nat (length l)).
Definition note (label : string) (items : list string) : string :=
  match items with [] => EmptyString | _ => " " +:+ summarize_items label items end.
Definition schedule_readiness_check (context : DemoContext) (modes : list string) : M World DoctorCheck :=
  let definitions := registry_list (dx_registry context) in
  let known kind := bool_decide (kind ∈ gd_kind <$> definitions) in
  let* schedules := gets (λ w, list_schedules (w_schedules w)) in
  let enabled := filter (λ s, sc_enabled s = true) schedules in
  let* due := due_schedules enabled in
  let unknown := sorted_strings (remove_dups (filter (λ kind, known kind = false) (sc_kind <$> schedules))) in
  let missing_workers := if existsb (λ mode, bool_decide (mode ∈ ["docker"; "kubernetes"])) modes then
      omap (λ s, if known (sc_kind s) then unmapped (dx_workers context) (sc_kind s) else None) enabled
    else [] in
  let failing := negb (bool_decide (unknown = [])) || negb (bool_decide (missing_workers = [])) in
  let message := "Schedule readiness: persisted=" +:+ size_text schedules +:+ ", enabled=" +:+ size_text enabled +:+ ", due=" +:+ size_text due
                 +:+ ", project_declared=" +:+ size_text (filter (λ d, declares_schedule d = true) definitions) +:+ "."
                 +:+ note "Enabled project-declared schedules" (gd_kind <$> filter (λ d, enables_schedule d = true) definitions)
                 +:+ note "Unknown persisted schedule kinds" unknown +:+ note "Worker mapping issues" missing_workers in
  ret (mkCheck "schedule_readiness" (if failing then "fail" else "pass") message
         (if failing then Some ("goblin-king schedules list --db " +:+ dx_db context) else None) None).
(** [any(placement.values())] *)
Definition placed (d : GoblinDefinition) : bool :=
  match gd_metadata d !! "placement" with Some (JObj o) => existsb py_truthy o.*2 | _ => false end.
Definition placement_runtime_check (context : DemoContext) (kind : string) (modes : list string) : result DoctorCheck :=
  let? definition := registry_get (dx_registry context) kind in
  Ok (if negb (placed definition) then passing "placement_runtime" ("No Kubernetes placement is configured for " +:+ kind +:+ ".")
      else if negb (bool_decide ("kubernetes" ∈ modes)) then
        mkCheck "placement_runtime" "warn" "Placement is configured but only Kubernetes runtime diagnostics can apply it."
          (Some "goblin-king doctor --runtime kubernetes") (Some "docs/kubernetes-placement-and-federation-roadmap.md")
      else passing "placement_runtime" ("Kubernetes placement metadata is configured for " +:+ kind +:+ ".")).
Definition redis_check (redis_url : string) : result DoctorCheck :=
  match dh_ping redis_url with
  | Ok _ => Ok (passing "redis" ("Redis is reachable at " +:+ redis_url +:+ "."))
  | Err e =>
      if dh_is_redis_error e
      then Ok (mkCheck "redis" "warn" ("Redis is not reachable at " +:+ redis_url +:+ ": " +:+ exn_str e)
                 (Some "docker compose up -d redis") (Some "docs/demo-and-doctor-roadmap.md"))
      else Err e
  end.
Definition request_check (outcome : result unit) (name success failure : string) : result DoctorCheck :=
  match outcome with
  | Ok _ => Ok (passing name success)
  | Err e =>
      if dh_is_request_error e
      then Ok (mkCheck name "warn" (failure +:+ ": " +:+ exn_str e) (Some "goblin-king demo up")
                 (Some "docs/testing-your-project-with-the-admin-panel.md"))
      else Err e
  end.
Definition admin_checks (admin_url token : string) : result (list DoctorCheck) :=
  let api_base := dh_api_base admin_url in
  let? api := request_check (dh_request (api_base +:+ "/health") None) "admin_api"
                ("Admin-proxied API is reachable at " +:+ api_base +:+ ".") ("Admin-proxied API is not reachable at " +:+ api_base) in
  let? auth := request_check (dh_request (api_base +:+ "/goblins") (Some token)) "admin_auth"
                 "Admin API accepted the configured local token." "Admin API auth/list check is not ready" in
  Ok [api; auth].
Definition validation_status_check (kind project : string) : M World DoctorCheck :=
  let* validation := gets (λ w, latest_worker_validation_for_kind kind (w_validations w)) in
  let warning message := mkCheck "validation_status" "warn" message
    (Some ("goblin-king workers validate --project " +:+ project +:+ " --input examples/input.json --kind " +:+ kind +:+ " --build --require-success"))
    (Some VALIDATION_DOC) in
  ret (match validation with
       | None => warning ("No validation proof has been recorded for " +:+ kind +:+ ".")
       | Some v =>
           if negb (is_passed validation) then warning ("Latest validation for " +:+ kind +:+ " is " +:+ validation_status_str (wv_status v) +:+ ".")
           else passing "validation_status" ("Latest validation proof for " +:+ kind +:+ " passed.")
       end).

(** ** [run_doctor] *)

Record DoctorRequest := mkDoctorRequest {
  rd_project : string; rd_kind : string; rd_admin_url : string; rd_token : string; rd_redis_url : string; rd_runtime : string;
  rd_resource_policies : option PosixPath; rd_helm_values : option PosixPath }.
Definition project_repair (project : string) : option string := Some ("goblin-king project validate --project " +:+ project).
Definition skipped (project name what : string) : DoctorCheck :=
  mkCheck name "warn" (what +:+ " skipped because project config could not be loaded.") (project_repair project) None.
Definition doctor_result (request : DoctorRequest) (checks : list DoctorCheck) : DoctorResult :=
  mkDoctorResult (negb (existsb (λ c, String.eqb (dc_status c) "fail") checks)) (rd_project request) (rd_kind request)
    (rd_admin_url request) checks.
(** The context stands once it is loaded, whatever its validation says. *)
Definition project_check (resolved_context : WorkerImageDefinition → PosixPath) (project : string) (loaded : result DemoContext) : DoctorCheck :=
  match (let? context := loaded in validate_demo_project resolved_context context) with
  | Ok _ => passing "project_config" ("Project config is valid: " +:+ project)
  | Err e => mkCheck "project_config" "fail" (exn_str e) (project_repair project) (Some "docs/project-template-quickstart.md")
  end.
Definition context_checks (request : DoctorRequest) (modes : list string) (context : DemoContext) : M World (list DoctorCheck) :=
  let* policy := lift_result (resource_policy_check context (rd_kind request) (rd_resource_policies request)) in
  let* coverage := validation_coverage_check context modes (rd_project request) in
  let* schedules := schedule_readiness_check context modes in
  let* placement := lift_result (placement_runtime_check context (rd_kind request) modes) in
  ret [policy; coverage; schedules; placement].
Definition run_doctor (resolved_context : WorkerImageDefinition → PosixPath) (compose_files : list PosixPath)
    (loaded : result DemoContext) (request : DoctorRequest) : M World DoctorResult :=
  let project := rd_project request in
  let imported := passing "python_package" "Goblin King imported successfully." in
  match runtime_modes_for (rd_runtime request) with
  | Err e =>
      ret (mkDoctorResult false project (rd_kind request) (rd_admin_url request)
             [imported; mkCheck "runtime_selection" "fail" (exn_str e) None None])
  | Ok modes =>
      let selected := passing "runtime_selection" ("Runtime diagnostics selected: " +:+ py_join ", " modes +:+ ".") in
      let* docker := (if bool_decide ("docker" ∈ modes) then
                        let* checks := docker_checks in
                        let* posture := lift_result (docker_socket_posture_check compose_files) in
                        ret (checks ++ [posture])
                      else ret []) in
      let* kubernetes := (if bool_decide ("kubernetes" ∈ modes) then kubernetes_checks else ret []) in
      let* helm := (match rd_helm_values request with
                    | Some values => let* check := helm_template_check values in ret [check]
                    | None => ret []
                    end) in
      let config := project_check resolved_context project loaded in
      let* of_project := (match loaded with
                          | Ok context => context_checks request modes context
                          | Err _ => ret [skipped project "resource_policy" "Resource policy summary";
                                          skipped project "validation_coverage" "Validation coverage";
                                          skipped project "schedule_readiness" "Schedule readiness"]
                          end) in
      let* redis := lift_result (redis_check (rd_redis_url request)) in
      let* admin := lift_result (admin_checks (rd_admin_url request) (rd_token request)) in
      let* status := (match loaded with
                      | Ok _ => validation_status_check (rd_kind request) project
                      | Err _ => ret (skipped project "validation_status" "Validation status")
                      end) in
      ret (doctor_result request ([imported; selected] ++ docker ++ kubernetes ++ helm ++ [config] ++ of_project ++ [redis] ++ admin ++ [status]))
  end.
End doctor.

(** ** Coverage and the gate *)

Section coverage.
Context `{Sqlite} `{Env} `{Crypto} `{Host} `{Workers} `{DoctorHost}.

(** The doctor and the gate ask the same Docker, and asking changes nothing. *)
Class SameEngine : Prop := {
  se_inspect : ∀ image w, dh_run (inspect_command image) 15 w = image_inspect "docker" image w;
  se_reads : ∀ image w, (image_inspect "docker" image w).1 = w
}.
Context `{!SameEngine}.

(** The proof the gate looks for *)
Definition proven (mode kind image : string) (w : World) : Prop :=
  ∃ identity, runtime_image_identity mode image w = (w, Ok (Some identity, None))
    ∧ is_passed (get_latest_worker_validation kind identity GOBLIN_CONTAINER_CONTRACT_VERSION VALIDATOR_VERSION (w_validations w)) = true.

Lemma identity_reads mode image w : (runtime_image_identity mode image w).1 = w.
Proof.
  unfold runtime_image_identity. destruct (String.eqb mode "kubernetes"), (negb (String.eqb mode "docker")), (negb (dh_which "docker")); try done.
  unfold bind. pose proof (se_inspect image w) as Hi. pose proof (se_reads image w) as Hr.
  rewrite Hi. destruct (image_inspect "docker" image w) as [w' [output|e]]; simpl in *; [|done]. by destruct (po_code output =? 0).
Qed.
Lemma cover_mode_reads kind image c mode w : (cover_mode kind image c mode w).1 = w.
Proof.
  unfold cover_mode, bind. pose proof (identity_reads mode image w) as Hi.
  destruct (runtime_image_identity mode image w) as [w1 [[[identity|] [error|]]|e]]; exact Hi.
Qed.
(** A problem found stays one. *)
Lemma problems_kept kind image c mode w c' :
  (cover_mode kind image c mode w).2 = Ok c' → problems c' = [] → problems c = [] ∧ proven mode kind image w.
Proof.
  unfold cover_mode, bind. pose proof (identity_reads mode image w) as Hi. unfold proven.
  destruct (runtime_image_identity mode image w) as [w1 [[[identity|] [error|]]|e]]; simpl in Hi; subst w1;
    try (intros [= <-]; unfold problems; simpl; intros Hp; by destruct (app_nil _ _ Hp) as [? ?%app_nil]).
  all: try (intros [= <-]; unfold problems; simpl; rewrite !app_assoc; intros Hp%app_nil; by destruct Hp).
  - simpl. intros [= <-]. destruct (is_passed _) eqn:Hv; [intros Hp; split; [exact Hp|]; by exists identity|].
    unfold unproven. destruct (latest_worker_validation_for_kind kind (w_validations w)) as [v|]; [case_bool_decide|];
      unfold problems; simpl; intros Hp; exfalso; repeat (apply app_nil in Hp as [? Hp] || apply app_nil in Hp as [Hp ?]); try done;
      repeat match goal with E : _ ++ _ = [] |- _ => apply app_nil in E as [? ?] end; done.
Qed.
(** A fold that reads, and whose steps keep every problem *)
Lemma fold_reads {B} (f : Coverage → B → M World Coverage) l : (∀ c x w, (f c x w).1 = w) → ∀ c w, (foldM f c l w).1 = w.
Proof.
  intros Hf. induction l as [|x l IH]; intros c w; [done|]. simpl. unfold bind. specialize (Hf c x w).
  destruct (f c x w) as [w1 [c1|e]]; simpl in *; subst w1; [apply IH|done].
Qed.
Lemma fold_kept {B} (f : Coverage → B → M World Coverage) (P : B → Prop) l w :
  (∀ c x, (f c x w).1 = w) → (∀ c x c', x ∈ l → (f c x w).2 = Ok c' → problems c' = [] → problems c = [] ∧ P x) →
  ∀ c c', (foldM f c l w).2 = Ok c' → problems c' = [] → problems c = [] ∧ Forall P l.
Proof.
  intros Hr. induction l as [|x l IH]; intros Hf c c'; [by intros [= <-]|]. simpl. unfold bind.
  pose proof (Hr c x) as Hw. destruct (f c x w) as [w1 [c1|e]] eqn:Hx; simpl in *; [|done]. subst w1. intros Hl Hp.
  destruct (IH (λ c x c' Hin, Hf c x c' (list_elem_of_further _ _ _ Hin)) c1 c' Hl Hp) as [Hc1 Hall].
  destruct (Hf c x c1 (list_elem_of_here _ _)) as [Hc HP]; [by rewrite Hx|done|]. split; [done|by constructor].
Qed.

Definition all_proven (workers : WorkerImageMap) (modes : list string) (w : World) (d : GoblinDefinition) : Prop :=
  ∃ worker, worker_get workers (gd_kind d) = Ok worker ∧ Forall (λ mode, proven mode (gd_kind d) (wi_image worker) w) modes.
Lemma cover_definition_reads workers modes c d w : (cover_definition workers modes c d w).1 = w.
Proof. unfold cover_definition. destruct (worker_get workers (gd_kind d)); [|done]. apply fold_reads. intros. apply cover_mode_reads. Qed.
Lemma cover_definition_kept workers modes c d w c' :
  (cover_definition workers modes c d w).2 = Ok c' → problems c' = [] → problems c = [] ∧ all_proven workers modes w d.
Proof.
  unfold cover_definition, all_proven. destruct (worker_get workers (gd_kind d)) as [worker|e].
  - intros Hc Hp. destruct (fold_kept (cover_mode (gd_kind d) (wi_image worker)) (λ mode, proven mode (gd_kind d) (wi_image worker) w) modes w)
      with c c' as [Hc0 Hall]; [intros; apply cover_mode_reads|intros ? ? ? _; apply problems_kept|done|done|]. split; [done|by exists worker].
  - intros [= <-] Hp. unfold problems in Hp. simpl in Hp. by destruct (cv_missing c).
Qed.
(** A check that passes has proofs for every kind and runtime. *)
Lemma coverage_passes context modes project w check :
  (validation_coverage_check context modes project w).2 = Ok check → dc_status check = "pass" →
  (validation_coverage_check context modes project w).1 = w
  ∧ Forall (all_proven (dx_workers context) modes w) (registry_list (dx_registry context)).
Proof.
  unfold validation_coverage_check. destruct (registry_list (dx_registry context)) as [|d l]; [by intros [= <-]|].
  unfold bind. pose proof (fold_reads (cover_definition (dx_workers context) modes) (d :: l)
    (λ c x w, cover_definition_reads (dx_workers context) modes c x w) no_coverage w) as Hw.
  pose proof (fold_kept (cover_definition (dx_workers context) modes) (all_proven (dx_workers context) modes w) (d :: l) w
    (λ c x, cover_definition_reads (dx_workers context) modes c x w) (λ c x c' _, cover_definition_kept (dx_workers context) modes c x w c') no_coverage) as Hk.
  destruct (foldM _ no_coverage (d :: l) w) as [w1 [c|e]]; [|done]. cbn [fst] in Hw. subst w1. intros [= <-] Hs. split; [done|].
  apply (Hk c); [done|]. unfold coverage_check in Hs. cbn [dc_status] in Hs.
  destruct (Nat.ltb 0 (cv_required c) && Nat.eqb (length (cv_passed c)) (cv_required c) && bool_decide (problems c = [])) eqn:Hp; [|done].
  apply andb_true_iff in Hp as [_ Hp]. by apply bool_decide_eq_true in Hp.
Qed.

(** The runtime the doctor's mode stands for; a Kubernetes runtime whose settings add
    nothing to the image's identity *)
Definition runtime_of (mode : string) (runtime : Runtime) (kind image : string) : Prop :=
  if is_kubernetes runtime then mode = "kubernetes" ∧ validation_image_identity image kind = "kubernetes:" +:+ image
  else mode = "docker".
Lemma proven_gate_identity mode runtime kind image policy w :
  runtime_of mode runtime kind image → proven mode kind image w →
  ∃ identity policy', gate_identity runtime image kind policy w = (w, Ok (Some identity, None, policy')) ∧ truthy identity = true
    ∧ is_passed (get_latest_worker_validation kind identity GOBLIN_CONTAINER_CONTRACT_VERSION VALIDATOR_VERSION (w_validations w)) = true.
Proof.
  unfold runtime_of, gate_identity, proven. destruct (is_kubernetes runtime).
  - intros [-> ->] (identity & [= <-] & Hv). eexists _, _. split_and!; [done|done|exact Hv].
  - intros -> (identity & Hid & Hv). exists identity, policy. unfold runtime_image_identity in Hid. cbn [String.eqb Ascii.eqb Bool.eqb negb] in Hid.
    destruct (negb (dh_which "docker")); [done|]. unfold bind in Hid. rewrite se_inspect in Hid.
    pose proof (se_reads image w) as Hr. unfold inspect_image_identity, bind at 1 2.
    destruct (image_inspect "docker" image w) as [w1 [output|e]]; [|done]. cbn [fst] in Hr. subst w1.
    destruct (po_code output =? 0); [|done]. destruct (truthy (strip (po_stdout output))) eqn:Ht; [|done].
    injection Hid as <-. split_and!; [done|done|exact Hv].
Qed.

(** What the doctor finds covered, the scheduler runs.  When the coverage check passes
    it has changed nothing, and then, for every kind of the registry and every runtime that
    was selected, the scheduler's validation gate lets a job of that kind through with the
    proofs that are there: it starts no validation and refuses nothing. *)
Theorem coverage_opens_gate (context : DemoContext) (modes : list string) (project : string) (w : World) (check : DoctorCheck)
    (s : Scheduler) (job : JobRecord) (d : GoblinDefinition) (registry : Registry) (mode : string) (runtime : Runtime)
    (payload policy : dict) :
  (validation_coverage_check context modes project w).2 = Ok check → dc_status check = "pass" →
  d ∈ registry_list (dx_registry context) → mode ∈ modes →
  (∀ worker, worker_get (dx_workers context) (gd_kind d) = Ok worker → runtime_of mode runtime (gd_kind d) (wi_image worker)) →
  (validation_coverage_check context modes project w).1 = w
  ∧ _validate_before_container_run s job (gd_kind d) registry (Some (dx_workers context)) runtime payload None policy w = (w, Ok None).
Proof.
  intros Hcheck Hpass Hd Hmode Hrt. destruct (coverage_passes _ _ _ _ _ Hcheck Hpass) as [Hw Hall]. split; [exact Hw|].
  rewrite Forall_forall in Hall. destruct (Hall d Hd) as (worker & Hworker & Hmodes). rewrite Forall_forall in Hmodes.
  destruct (proven_gate_identity mode runtime (gd_kind d) (wi_image worker) policy w (Hrt worker Hworker) (Hmodes mode Hmode))
    as (identity & policy' & Hid & Htruthy & Hv).
  unfold _validate_before_container_run. rewrite Hworker. cbv zeta. rewrite (bind_step _ _ _ _ _ Hid).
  unfold bind at 1, gets at 1. unfold bind at 1, gets at 1. cbn [fst snd].
  replace (text_or (Some identity) identity) with identity by (unfold text_or, truthy_opt; by rewrite ?Htruthy).
  unfold is_passed in Hv. destruct (get_latest_worker_validation _ _ _ _ _) as [v|]; [|done]. by rewrite Hv.
Qed.
End coverage.

(** ** Runs on concrete inputs *)

Definition sample_context : DemoContext :=
  mkContext loaded_project {[ "report" := sample_goblin ]} sample_workers "/srv/app/goblins.sqlite3".
(** A machine with every tool, whose Docker has the image, and no server running *)
Definition local_machine : DoctorHost := {|
  dh_run args timeout := if bool_decide (args = ["docker"; "info"]) then raise (OtherException "TimeoutExpired" "timed out after 15 seconds")
                         else ret (mkOutput 0 "sha256:abc" EmptyString);
  dh_which _ := true;
  dh_exists _ := true;
  dh_read_text _ := Ok "services: {}";
  dh_is_os_error _ := false;
  dh_kubernetes := None;
  dh_ping _ := Err (OtherException "ConnectionError" "refused");
  dh_is_redis_error _ := true;
  dh_request _ _ := Err (OtherException "URLError" "refused");
  dh_is_request_error _ := true;
  dh_api_base url := url
|}.
#[local] Instance same_engine : @SameEngine ready_host local_machine.
Proof. split; reflexivity. Qed.
Definition coverage_run (modes : list string) : World * result DoctorCheck :=
  @validation_coverage_check sqlite_merge local_machine sample_context modes "goblin-project.json" proof_world.
Definition report_check (modes : list string) : DoctorCheck :=
  match (coverage_run modes).2 with Ok c => c | Err _ => passing EmptyString EmptyString end.

Lemma coverage_opens_gate_witness : cluster_gate = (proof_world, Ok None).
Proof.
  assert (Hrun : (coverage_run ["kubernetes"]).2 = Ok (report_check ["kubernetes"])) by (vm_compute; reflexivity).
  assert (Hpass : dc_status (report_check ["kubernetes"]) = "pass") by (vm_compute; reflexivity).
  refine (proj2 (@coverage_opens_gate sqlite_merge frozen_env plain_crypto ready_host down_workers local_machine same_engine
    sample_context ["kubernetes"] "goblin-project.json" proof_world (report_check ["kubernetes"]) cluster_scheduler claimed_row
    sample_goblin (s_registry cluster_scheduler) "kubernetes" (KubernetesRuntime (Some sample_workers)) ∅ ∅ Hrun Hpass _ _ _)).
  - vm_compute. left.
  - left.
  - intros worker _. split; reflexivity.
Defined.
(** A proof for the cluster is none for Docker. *)
Example coverage_by_runtime :
  dc_message (report_check ["kubernetes"]) = "Validation freshness and image coverage: 1/1 selected runtime image identities have passing proof."
  ∧ dc_status (report_check ["docker"; "kubernetes"]) = "warn"
  ∧ dc_message (report_check ["docker"; "kubernetes"])
    = "Validation freshness and image coverage: 1/2 selected runtime image identities have passing proof. Issues: report/docker: latest proof is not for the current runtime image.".
Proof. split_and!; vm_compute; reflexivity. Qed.
Definition diagnosed (kind runtime : string) : result DoctorResult :=
  (@run_doctor sqlite_merge frozen_env strict_pydantic int_floats (project_file "report") local_machine
     (λ w, parse_path (wi_context w)) [] (Ok sample_context)
     (mkDoctorRequest "goblin-project.json" kind "http://localhost:3000/admin" "local-dev-token" "redis://localhost:6379/0" runtime None None)
     proof_world).2.
Example diagnosis :
  match diagnosed "report" "kubernetes" with
  | Ok r => do_ok r = true ∧ (λ c, (dc_name c, dc_status c)) <$> do_checks r
      = [("python_package", "pass"); ("runtime_selection", "pass"); ("kubernetes_package", "pass"); ("kubectl_cli", "pass");
         ("kubectl_context", "pass"); ("project_config", "pass"); ("resource_policy", "pass"); ("validation_coverage", "pass");
         ("schedule_readiness", "pass"); ("placement_runtime", "pass"); ("redis", "warn"); ("admin_api", "warn"); ("admin_auth", "warn");
         ("validation_status", "pass")]
  | Err _ => False
  end.
Proof. vm_compute. split; reflexivity. Qed.
(** The diagnosis itself fails on a kind that is not registered, and on a command that
    does not end in time. *)
Example diagnosis_raises :
  is_ok (diagnosed "nothing" "kubernetes") = false
  ∧ diagnosed "report" "docker" = Err (OtherException "TimeoutExpired" "timed out after 15 seconds")
  ∧ (let? r := diagnosed "report" "podman" in Ok (do_ok r)) = Ok false.
Proof. split_and!; vm_compute; reflexivity. Qed.
(** Under the restricted profile the gate's identity is not the doctor's: a proof that
    opens the gate looks stale to the doctor. *)
Example restricted_identity :
  @runtime_image_identity local_machine "kubernetes" "reports:1" proof_world = (proof_world, Ok (Some "kubernetes:reports:1", None))
  ∧ bool_decide (@settings_image_identity plain_crypto restricted_kube "reports:1" (Some "report") = "kubernetes:reports:1") = false.
Proof. split; vm_compute; reflexivity. Qed.
