(* ===== verification/Schedules.v ===== *)
(** * Materializing schedules

    [Scheduler.materialize_due_schedules]: each due schedule the policies accept
    becomes one queued job and moves past the present, a refused one stays, and a
    second pass at the same time finds nothing more to do. *)

From S2P Require Import Prelude CausalTime Contracts ResourcePolicies EventStore JobStore JobLifecycle RecordStore Auth Registry World Validation Scheduler Attempts.

Section schedules.
Context `{Sqlite} `{Env} `{Pydantic} `{Floats} `{Workers} `{!Inj eq eq uuid4}.

(** The policies' verdict on a schedule. *)
Definition accepted (s : Scheduler) (schedule : ScheduleRecord) : bool :=
  match s_resource_policies s with
  | None => true
  | Some policies =>
      is_ok (effective_for policies (sc_kind schedule) (sc_timeout_seconds schedule)
               (Some (sc_max_retries schedule)))
  end.

(** A schedule the pass can handle: its kind is registered, its cron expression
    and zone are readable, and the policies refuse it only with a [ValueError]. *)
Record materializable (s : Scheduler) (current : utc) (schedule : ScheduleRecord) : Prop := {
  mz_kind : is_ok (registry_get (s_registry s) (sc_kind schedule)) = true;
  mz_next : is_ok (next_run_after schedule current) = true;
  mz_refusal : ∀ policies e, s_resource_policies s = Some policies →
    effective_for policies (sc_kind schedule) (sc_timeout_seconds schedule)
      (Some (sc_max_retries schedule)) = Err e → is_value_error e = true
}.

(** The job of an accepted schedule. *)
Definition job_of (current : utc) (schedule : ScheduleRecord) (job : JobRecord) : Prop :=
  j_schedule_id job = Some (sc_id schedule) ∧ j_input job = sc_input schedule
  ∧ j_project_id job = sc_project_id schedule ∧ j_priority job = sc_priority schedule
  ∧ j_status job = JQueued ∧ j_lease_owner job = None ∧ j_attempt_count job = 0
  ∧ j_due_at job = Some current ∧ j_created_at job = current.

Lemma next_run_late schedule current t :
  next_run_after schedule current = Ok t → current < t.
Proof.
  unfold next_run_after. destruct (croniter_next _ _ _) as [d|e] eqn:Hd; [|done].
  intros [= <-]. by eapply croniter_after.
Qed.

Lemma apply_policies_accepted s schedule job :
  j_status job = JQueued → j_lease_owner job = None → j_leased_until job = None →
  j_attempt_count job = 0 →
  match apply_policies s schedule job with
  | Ok job' => accepted s schedule = true ∧ job_ok (j_id job) job' ∧ j_id job' = j_id job
      ∧ (∀ current, job_of current schedule job → job_of current schedule job')
  | Err e => accepted s schedule = false ∧
      ∃ policies, s_resource_policies s = Some policies
        ∧ effective_for policies (sc_kind schedule) (sc_timeout_seconds schedule)
            (Some (sc_max_retries schedule)) = Err e
  end.
Proof.
  intros Hst Ho Hu Ha.
  assert (∀ j, j_id j = j_id job → j_status j = JQueued → j_lease_owner j = None →
            j_leased_until j = None → j_attempt_count j = 0 → job_ok (j_id job) j) as Hok.
  { intros j Hid Hs Hlo Hlu Hac. split; rewrite ?Hs, ?Hlo, ?Hlu, ?Hac; try done;
      (split; [by intros []|done]). }
  unfold apply_policies, accepted. destruct (s_resource_policies s) as [policies|].
  - destruct (effective_for policies _ _ _) as [p|e] eqn:Heff; simpl; [|by split; [|exists policies]].
    split_and!; [done|by apply Hok|done|done].
  - split_and!; [done|by apply Hok|done|done].
Qed.

(** ** One schedule *)

Lemma good_schedules w t : good w → good (put w_schedules_lens t w).
Proof. by intros []; split. Qed.

(** Saving a job under a fresh id. *)
Lemma save_fresh_job w w1 job :
  good w → uuid4 (uuids (w_process w)) = j_id job → job_ok (j_id job) job →
  w1 = put w_process_lens (new_uuid (w_process w)).1 w →
  zoom w_jobs_lens (save_job job) w1
    = (put w_jobs_lens (mkJobTables (<[j_id job := job]> (jobs (w_jobs w))) (runs (w_jobs w))
         (artifacts (w_jobs w)) (handoffs (w_jobs w))) w1, Ok tt)
  ∧ good (put w_jobs_lens (mkJobTables (<[j_id job := job]> (jobs (w_jobs w))) (runs (w_jobs w))
            (artifacts (w_jobs w)) (handoffs (w_jobs w))) w1)
  ∧ jobs (w_jobs w) !! j_id job = None.
Proof.
  intros [Hlog Htab Hids] Hid Hok ->.
  destruct (Hids (uuids (w_process w))) as (_ & Hnew & _ & _); [lia|]. rewrite Hid in Hnew.
  pose proof (step_ok (OpSave job) (w_jobs w) Hok Htab) as Ht.
  unfold step in Ht. simpl in Ht. unfold save_job in *. rewrite !zoom_eq in *. simpl in *.
  unfold insert_row in *. rewrite Hnew in *. simpl in *.
  split_and!; [done| |done]. split; simpl; [done|done|]. intros n Hn. simpl in Hn.
  destruct (Hids n) as (? & ? & ? & ?); [lia|]. split_and!; try done. simpl.
  rewrite <- Hid, lookup_insert_ne; [done|]. intros Heq%(inj uuid4). lia.
Qed.

Lemma advance_run current next w schedule :
  w_schedules w !! sc_id schedule = Some schedule →
  zoom w_schedules_lens (update_schedule_after_materialize (sc_id schedule) current next) w
  = (put w_schedules_lens
       (<[sc_id schedule := advance_schedule current next schedule]> (w_schedules w)) w, Ok tt).
Proof.
  intros Hrow. rewrite zoom_eq. unfold update_schedule_after_materialize, bind, update_row. simpl.
  by rewrite Hrow.
Qed.

Lemma materialize_schedule_run s current acc w schedule :
  good w → materializable s current schedule →
  w_schedules w !! sc_id schedule = Some schedule →
  ∃ w' r, materialize_schedule s current acc schedule w = (w', Ok r) ∧ good w' ∧
    if accepted s schedule then
      ∃ job next, r = acc ++ [job]
        ∧ job_of current schedule job ∧ jobs (w_jobs w) !! j_id job = None
        ∧ jobs (w_jobs w') = <[j_id job := job]> (jobs (w_jobs w))
        ∧ w_schedules w' = <[sc_id schedule := advance_schedule current next schedule]> (w_schedules w)
        ∧ current < next
    else r = acc ∧ w_jobs w' = w_jobs w ∧ w_schedules w' = w_schedules w.
Proof.
  intros Hgood [Hkind Hnext Href] Hrow.
  unfold materialize_schedule, bind at 1, lift_result at 1.
  destruct (registry_get _ _) as [d|e]; [|done]. clear Hkind. unfold bind at 1. rewrite zoom_eq.
  set (w1 := put w_process_lens _ w). cbn [new_uuid fst snd].
  set (job0 := scheduled_job _ schedule d current).
  assert (job_of current schedule job0) as Hof by (by split_and!).
  pose proof (apply_policies_accepted s schedule job0 eq_refl eq_refl eq_refl eq_refl) as Hpol.
  destruct (apply_policies s schedule job0) as [job|e].
  - destruct Hpol as (-> & Hok & Hid & Hjob). specialize (Hjob _ Hof).
    destruct (save_fresh_job w w1 job Hgood) as (Hsave & Hgood2 & Hnew);
      [by rewrite Hid|by rewrite Hid|done|].
    unfold bind at 1. rewrite Hsave. set (w2 := put w_jobs_lens _ w1) in *.
    unfold bind at 1, lift_result at 1. destruct (next_run_after schedule current) as [next|] eqn:Hn;
      [|done].
    unfold bind at 1. rewrite (advance_run current next w2 schedule Hrow).
    set (w3 := put w_schedules_lens _ w2).
    match goal with |- context [emit ?t ?a] =>
      destruct (emit_world t a w3) as (b' & e & Hemit & _ & Hgood' & _) end;
      [by apply good_schedules|].
    exists (put w_bus_lens b' w3), (acc ++ [job]). unfold bind at 1. rewrite Hemit.
    split_and!; [done..|]. exists job, next. split_and!; try done. by eapply next_run_late.
  - destruct Hpol as (-> & policies & Hps & Heff). rewrite (Href _ _ Hps Heff).
    assert (good w1) as Hgood1.
    { destruct Hgood as [? ? Hids]. split; [done..|]. intros n Hn. apply Hids. simpl in Hn. lia. }
    match goal with |- context [emit ?t ?a] =>
      destruct (emit_world t a w1 Hgood1) as (b' & ev & Hemit & _ & Hgood' & _) end.
    exists (put w_bus_lens b' w1), acc. unfold bind at 1. by rewrite Hemit.
Qed.

(** ** The whole pass *)

(** What a pass over [l] leaves: the jobs [js] of the accepted schedules, and those
    schedules past the present. *)
Record pass_done (s : Scheduler) (current : utc) (l : list ScheduleRecord) (js : list JobRecord)
    (w w' : World) : Prop := {
  pd_jobs : Forall2 (job_of current) (filter (λ sc, accepted s sc = true) l) js;
  pd_new : ∀ j, j ∈ js → jobs (w_jobs w) !! j_id j = None ∧ jobs (w_jobs w') !! j_id j = Some j;
  pd_distinct : NoDup (j_id <$> js);
  pd_only : ∀ id j, jobs (w_jobs w') !! id = Some j → jobs (w_jobs w) !! id = Some j ∨ j ∈ js;
  pd_kept : jobs (w_jobs w) ⊆ jobs (w_jobs w');
  pd_moved : ∀ sc, sc ∈ l → accepted s sc = true →
    ∃ next, current < next
      ∧ w_schedules w' !! sc_id sc = Some (advance_schedule current next sc);
  pd_still : ∀ id, (∀ sc, sc ∈ l → accepted s sc = true → sc_id sc ≠ id) →
    w_schedules w' !! id = w_schedules w !! id
}.

Lemma pass_done_nil s current w : pass_done s current [] [] w w.
Proof.
  split; [constructor| |constructor|auto|done| |done].
  - by intros j ?%not_elem_of_nil.
  - by intros sc ?%not_elem_of_nil.
Qed.

(** A refused schedule in front. *)
Lemma pass_done_skip s current sc l js w w1 w' :
  accepted s sc = false → w_jobs w1 = w_jobs w → w_schedules w1 = w_schedules w →
  pass_done s current l js w1 w' → pass_done s current (sc :: l) js w w'.
Proof.
  intros Hacc Hj Hs []. rewrite Hj in *. rewrite Hs in *. split; try done.
  - rewrite filter_cons_False; [done|by rewrite Hacc].
  - intros x [->|Hx]%elem_of_cons; [congruence|auto].
  - intros id Hid. apply pd_still0. intros x Hx. apply Hid. by right.
Qed.

(** An accepted one. *)
Lemma pass_done_take s current sc l job next js w w1 w' :
  accepted s sc = true → job_of current sc job → jobs (w_jobs w) !! j_id job = None →
  jobs (w_jobs w1) = <[j_id job := job]> (jobs (w_jobs w)) →
  w_schedules w1 = <[sc_id sc := advance_schedule current next sc]> (w_schedules w) →
  current < next → sc_id sc ∉ sc_id <$> l →
  pass_done s current l js w1 w' → pass_done s current (sc :: l) (job :: js) w w'.
Proof.
  intros Hacc Hjob Hnew Hj Hs Hnext Hnot [].
  assert (jobs (w_jobs w) ⊆ jobs (w_jobs w1)) as Hsub by (rewrite Hj; by apply insert_subseteq).
  assert (jobs (w_jobs w1) !! j_id job = Some job) as Hin by (by rewrite Hj, lookup_insert_eq).
  split.
  - rewrite filter_cons_True by done. by constructor.
  - intros j [->|Hx]%elem_of_cons.
    + split; [done|]. by eapply lookup_weaken.
    + destruct (pd_new0 j Hx) as [Hno ?]. split; [|done].
      by eapply lookup_weaken_None.
  - apply NoDup_cons. split; [|done]. intros (j & Hid & Hx)%list_elem_of_fmap.
    destruct (pd_new0 j Hx) as [Hno _]. congruence.
  - intros id j Hl. destruct (pd_only0 id j Hl) as [Hl1|]; [|right; by right].
    rewrite Hj in Hl1. apply lookup_insert_Some in Hl1 as [[<- <-]|[_ ?]]; [right; left|by left].
  - by etransitivity.
  - intros x [->|Hx]%elem_of_cons Hax; [|auto]. exists next. split; [done|].
    rewrite pd_still0, Hs; [apply lookup_insert_eq|]. intros y Hy _ Heq. apply Hnot.
    rewrite <- Heq. by apply list_elem_of_fmap_2.
  - intros id Hid. rewrite pd_still0, Hs.
    + rewrite lookup_insert_ne; [done|]. apply Hid; [left|done].
    + intros x Hx. apply Hid. by right.
Qed.

Lemma materialize_loop s current l acc w :
  good w → NoDup (sc_id <$> l) →
  (∀ sc, sc ∈ l → materializable s current sc ∧ w_schedules w !! sc_id sc = Some sc) →
  ∃ w' js, foldM (materialize_schedule s current) acc l w = (w', Ok (acc ++ js))
    ∧ good w' ∧ pass_done s current l js w w'.
Proof.
  revert acc w. induction l as [|sc l IH]; intros acc w Hgood Hnd Hl.
  - exists w, []. rewrite app_nil_r. split_and!; [done..|]. apply pass_done_nil.
  - simpl in Hnd. apply NoDup_cons in Hnd as [Hnot Hnd].
    destruct (Hl sc) as [Hmz Hrow]; [left|].
    destruct (materialize_schedule_run s current acc w sc Hgood Hmz Hrow)
      as (w1 & r & Hrun & Hgood1 & Hcase).
    simpl. unfold bind. rewrite Hrun. destruct (accepted s sc) eqn:Hacc.
    + destruct Hcase as (job & next & -> & Hjob & Hnew & Hj & Hs & Hnext).
      destruct (IH (acc ++ [job]) w1 Hgood1 Hnd) as (w' & js & Hfold & Hgood' & Hdone).
      { intros x Hx. destruct (Hl x) as [? Hxr]; [by right|]. split; [done|].
        rewrite Hs, lookup_insert_ne; [done|]. intros Heq. apply Hnot. rewrite Heq.
        by apply list_elem_of_fmap_2. }
      exists w', (job :: js). rewrite Hfold, <- app_assoc. split_and!; [done..|].
      by eapply pass_done_take.
    + destruct Hcase as (-> & Hj & Hs).
      destruct (IH acc w1 Hgood1 Hnd) as (w' & js & Hfold & Hgood' & Hdone).
      { intros x Hx. rewrite Hs. apply Hl. by right. }
      exists w', js. split_and!; [done..|]. by eapply pass_done_skip.
Qed.

(** ** Due schedules before and after *)

Definition schedules_keyed (t : table ScheduleRecord) : Prop :=
  map_Forall (λ id sc, sc_id sc = id) t.

Lemma due_row current t sc :
  schedules_keyed t → sc ∈ list_due_schedules current t → t !! sc_id sc = Some sc.
Proof.
  intros Hkey (Hin & _)%list_due_schedules_elem. apply elem_of_rows in Hin as [k Hk].
  pose proof (Hkey _ _ Hk) as Hid. simpl in Hid. by subst k.
Qed.

Lemma due_NoDup current t : schedules_keyed t → NoDup (sc_id <$> list_due_schedules current t).
Proof.
  intros Ht. unfold list_due_schedules. rewrite order_by_perm. apply NoDup_fmap_2_strong.
  - intros x y [_ [k Hx]%elem_of_rows]%list_elem_of_filter
      [_ [k' Hy]%elem_of_rows]%list_elem_of_filter Heq.
    pose proof (Ht _ _ Hx). pose proof (Ht _ _ Hy). congruence.
  - by apply NoDup_filter, (rows_NoDup sc_id).
Qed.

(** Either the pass moved the schedule of that id, or it left the row alone. *)
Lemma pass_row s current l js w w' id :
  pass_done s current l js w w' →
  (∃ sc next, sc ∈ l ∧ accepted s sc = true ∧ sc_id sc = id ∧ current < next
     ∧ w_schedules w' !! id = Some (advance_schedule current next sc))
  ∨ w_schedules w' !! id = w_schedules w !! id.
Proof.
  intros Hdone. destruct (decide (Exists (λ x, sc_id x = id ∧ accepted s x = true) l)) as [Hex|Hno].
  - apply Exists_exists in Hex as (x & Hx & <- & Hacc). left.
    destruct (pd_moved _ _ _ _ _ _ Hdone x Hx Hacc) as (next & ? & ?). by exists x, next.
  - right. apply (pd_still _ _ _ _ _ _ Hdone). intros x Hx Hacc Heq.
    apply Hno, Exists_exists. by exists x.
Qed.

Lemma pass_keyed s current l js w w' :
  schedules_keyed (w_schedules w) → pass_done s current l js w w' → schedules_keyed (w_schedules w').
Proof.
  intros Hkey Hdone id sc Hl.
  destruct (pass_row _ _ _ _ _ _ id Hdone) as [(x & next & _ & _ & <- & _ & Hl')|Hl'].
  - rewrite Hl in Hl'. by injection Hl' as ->.
  - rewrite Hl' in Hl. by apply Hkey.
Qed.

Lemma pass_still_due s current js w w' sc :
  schedules_keyed (w_schedules w) →
  pass_done s current (list_due_schedules current (w_schedules w)) js w w' →
  sc ∈ list_due_schedules current (w_schedules w') ↔
  sc ∈ list_due_schedules current (w_schedules w) ∧ accepted s sc = false.
Proof.
  intros Hkey Hdone. split.
  - intros Hsc. pose proof (due_row _ _ _ (pass_keyed _ _ _ _ _ _ Hkey Hdone) Hsc) as Hl.
    apply list_due_schedules_elem in Hsc as (_ & Hen & Hle).
    destruct (pass_row _ _ _ _ _ _ (sc_id sc) Hdone) as [(x & next & _ & _ & _ & Hlt & Hl')|Hl'].
    { rewrite Hl in Hl'. injection Hl' as ->. simpl in Hle. lia. }
    rewrite Hl in Hl'.
    assert (sc ∈ list_due_schedules current (w_schedules w)) as Hdue
      by (apply list_due_schedules_elem; split; [apply elem_of_rows; eauto|done]).
    split; [done|]. destruct (accepted s sc) eqn:Hacc; [|done].
    destruct (pd_moved _ _ _ _ _ _ Hdone sc Hdue Hacc) as (next & Hlt & Hm).
    rewrite Hl in Hm. injection Hm as Hm. rewrite Hm in Hle. simpl in Hle. lia.
  - intros [Hdue Hacc]. pose proof (due_row _ _ _ Hkey Hdue) as Hl.
    destruct (pass_row _ _ _ _ _ _ (sc_id sc) Hdone) as [(x & next & Hx & Hax & Hid & _)|Hl'].
    { pose proof (due_row _ _ _ Hkey Hx). rewrite Hid in *. congruence. }
    apply list_due_schedules_elem in Hdue as (_ & ? & ?). apply list_due_schedules_elem.
    split; [|done]. apply elem_of_rows. exists (sc_id sc). congruence.
Qed.

(** A pass over refused schedules adds no job. *)
Lemma pass_refused s current l js w w' :
  (∀ sc, sc ∈ l → accepted s sc = false) → pass_done s current l js w w' →
  js = [] ∧ jobs (w_jobs w') = jobs (w_jobs w).
Proof.
  intros Hno [Hjobs _ _ Honly Hkept _ _].
  assert (filter (λ sc, accepted s sc = true) l = []) as Hnil.
  { destruct (filter _ l) as [|x l'] eqn:E; [done|]. assert (x ∈ filter (λ sc, accepted s sc = true) l)
      as Hx by (rewrite E; left). apply list_elem_of_filter in Hx as [Hacc Hx].
    rewrite Hno in Hacc; done. }
  rewrite Hnil in Hjobs. apply Forall2_nil_inv_l in Hjobs as ->. split; [done|].
  apply map_eq. intros id. apply option_eq. intros j. split.
  - intros Hl. destruct (Honly id j Hl) as [?|Hj]; [done|by apply not_elem_of_nil in Hj].
  - intros Hl. by eapply lookup_weaken.
Qed.
End schedules.

(** ** Properties *)

(** C32: a scheduling pass materializes each due schedule once.  When the due
    schedules' kinds are registered and their cron expressions readable, the pass
    returns one queued job per schedule the policies accept, in order of their due
    times, each stored under a new id and carrying the schedule's input, project and
    priority; no other job appears or changes.  The accepted schedules move past the
    present and the refused ones stay as they are, so the schedules that are still
    due are exactly the refused ones, and a second pass at the same time creates
    nothing. *)
Theorem schedules_materialized_once `{Sqlite} `{Env} `{Pydantic} `{Floats} `{Workers}
    `{!Inj eq eq uuid4} (s : Scheduler) (now : datetime) (w : World) :
  let current := ensure_utc now in
  let due := list_due_schedules current (w_schedules w) in
  good w → schedules_keyed (w_schedules w) →
  (∀ sc, sc ∈ due → materializable s current sc) →
  ∃ w' js,
    materialize_due_schedules s (Some now) w = (w', Ok js)
    ∧ pass_done s current due js w w'
    ∧ (∀ sc, sc ∈ list_due_schedules current (w_schedules w') ↔ sc ∈ due ∧ accepted s sc = false)
    ∧ ∃ w2, materialize_due_schedules s (Some now) w' = (w2, Ok [])
        ∧ jobs (w_jobs w2) = jobs (w_jobs w').
Proof.
  intros current due Hgood Hkey Hmz.
  destruct (materialize_loop s current due [] w Hgood (due_NoDup _ _ Hkey))
    as (w' & js & Hrun & Hgood' & Hdone).
  { intros sc Hsc. split; [by apply Hmz|by eapply due_row]. }
  pose proof (pass_keyed _ _ _ _ _ _ Hkey Hdone) as Hkey'.
  assert (∀ sc, sc ∈ list_due_schedules current (w_schedules w') ↔ sc ∈ due ∧ accepted s sc = false)
    as Hstill by (intros sc; by eapply pass_still_due).
  destruct (materialize_loop s current (list_due_schedules current (w_schedules w')) [] w' Hgood'
              (due_NoDup _ _ Hkey')) as (w2 & js2 & Hrun2 & _ & Hdone2).
  { intros sc Hsc. split; [by apply Hmz, Hstill|by eapply due_row]. }
  destruct (pass_refused _ _ _ _ _ _ (λ sc Hsc, proj2 (proj1 (Hstill sc) Hsc)) Hdone2) as [-> Hsame].
  exists w', js. split_and!; [exact Hrun|done|done|]. exists w2. split; [exact Hrun2|done].
Qed.

(** ** Runs on concrete inputs *)

Definition sample_schedule (id : string) (next_run_at timeout : Z) : ScheduleRecord :=
  mkSchedule id "report" (Some "p1") {[ "n" := JInt 1 ]} "* * * * *" "UTC" true 50 1 next_run_at None 2
    (Some timeout).

(** At 1000: [s1] is due, [s2] is not, and [s3] is due but asks for more time than
    the ceiling. *)
Definition schedule_scheduler : Scheduler :=
  mkScheduler {[ "report" := sample_goblin ]} None "w1" 60 10 ModeInProcess (Some sample_policies)
    InProcessRuntime 1.
Definition schedule_world : World :=
  mkWorld init_process empty_event_tables empty_job_tables
    (list_to_map [("s1", sample_schedule "s1" 500 30); ("s2", sample_schedule "s2" 2000 30);
                  ("s3", sample_schedule "s3" 400 400)])
    ∅ ∅ ∅ ∅.

Lemma schedule_world_good : @good frozen_env schedule_world.
Proof.
  split; [apply empty_log_ok|apply empty_tables_ok|]. intros n _. simpl. by rewrite !lookup_empty.
Qed.

Lemma schedules_materialized_once_witness :
  ∃ w' js,
    @materialize_due_schedules sqlite_merge frozen_env strict_pydantic int_floats down_workers
      schedule_scheduler (Some (of_utc 1000)) schedule_world = (w', Ok js)
    ∧ j_schedule_id <$> js = [Some "s1"].
Proof.
  set (run := @materialize_due_schedules sqlite_merge frozen_env strict_pydantic int_floats
                down_workers schedule_scheduler (Some (of_utc 1000)) schedule_world).
  assert (match run.2 with Ok js => j_schedule_id <$> js | Err _ => [] end = [Some "s1"]) as Hjs
    by (vm_compute; reflexivity).
  assert (@list_due_schedules sqlite_merge 1000 (w_schedules schedule_world)
          = [sample_schedule "s3" 400 400; sample_schedule "s1" 500 30]) as Hdue
    by (vm_compute; reflexivity).
  destruct (@schedules_materialized_once sqlite_merge frozen_env strict_pydantic
    int_floats down_workers frozen_inj schedule_scheduler (of_utc 1000) schedule_world)
    as (w' & js & Hrun & _ & _ & _).
  - apply schedule_world_good.
  - repeat (apply map_Forall_insert_2; [reflexivity|]). apply map_Forall_empty.
  - intros sc Hsc. change (ensure_utc (of_utc 1000)) with 1000 in Hsc. rewrite Hdue in Hsc.
    assert (∀ sc, sc = sample_schedule "s3" 400 400 ∨ sc = sample_schedule "s1" 500 30 →
      match @effective_for strict_pydantic int_floats sample_policies (sc_kind sc)
              (sc_timeout_seconds sc) (Some (sc_max_retries sc)) with
      | Err e => is_value_error e | Ok _ => true end = true) as Hvalue
      by (intros x [->| ->]; vm_compute; reflexivity).
    assert (sc = sample_schedule "s3" 400 400 ∨ sc = sample_schedule "s1" 500 30) as Hcase
      by (apply elem_of_cons in Hsc as [?|Hsc]; [by left|right; by apply list_elem_of_singleton in Hsc]).
    specialize (Hvalue sc Hcase). split; [by destruct Hcase as [->| ->]; vm_compute..|].
    intros policies e [= <-] He. rewrite He in Hvalue. exact Hvalue.
  - exists w', js. split; [exact Hrun|]. unfold run in Hjs. rewrite Hrun in Hjs. exact Hjs.
Defined.
