(* ===== verification/Claims.v ===== *)
(** * Claiming under the concurrency policies

    [Scheduler.claim_due_jobs]: of the jobs the store leases to this scheduler, the
    ones over their project's or kind's limit go back to the queue, and the ones it
    starts stay within the limits. *)

From S2P Require Import Prelude CausalTime Contracts ResourcePolicies EventStore JobStore JobLifecycle RecordStore Auth Registry World Validation Scheduler Attempts.

(** ** Counting rows *)

Section counts.
Context {R : Type}.
Implicit Types (t : gmap string R) (p q : R → bool).

Lemma count_rows_insert p k r t :
  t !! k = None → count_rows p (<[k := r]> t) = (if p r then 1 else 0) + count_rows p t.
Proof.
  intros Hk. unfold count_rows. rewrite (rows_insert_perm k r t Hk), filter_cons.
  destruct (p r) eqn:Hp, (decide _) as [Hd|Hd]; simpl; try lia; congruence.
Qed.

Lemma count_rows_split p k r t :
  t !! k = Some r → count_rows p t = (if p r then 1 else 0) + count_rows p (delete k t).
Proof.
  intros Hk. rewrite <- (insert_delete_id t k r Hk) at 1. by rewrite count_rows_insert by apply lookup_delete_eq.
Qed.

Lemma count_rows_mono p q t :
  (∀ r, r ∈ rows t → p r = true → q r = true) → count_rows p t ≤ count_rows q t.
Proof.
  intros Hpq. unfold count_rows. induction (rows t) as [|r l IH]; [done|].
  rewrite !filter_cons.
  assert (∀ x, x ∈ l → p x = true → q x = true) as Hl by (intros x Hx; apply Hpq; by right).
  specialize (IH Hl). pose proof (Hpq r (list_elem_of_here _ _)) as Hr.
  destruct (decide (p r = true)), (decide (q r = true)); simpl; try lia. tauto.
Qed.

(** Replacing a row by one that counts no more. *)
Lemma count_rows_replace p k r r' t :
  t !! k = Some r → (p r' = true → p r = true) → count_rows p (<[k := r']> t) ≤ count_rows p t.
Proof.
  intros Hk Himp. rewrite (count_rows_split p k r t Hk).
  rewrite <- insert_delete_eq, count_rows_insert by apply lookup_delete_eq.
  destruct (p r'), (p r); try lia.
Qed.

(** Counting with one key left out. *)
Lemma count_rows_without p (key : R → string) k t :
  map_Forall (λ k r, key r = k) t →
  count_rows p t ≤ 1 + count_rows (λ r, p r && negb (bool_decide (key r = k))) t.
Proof.
  intros Hkey. destruct (t !! k) as [r|] eqn:Hk.
  - rewrite (count_rows_split p k r t Hk), (count_rows_split _ k r t Hk).
    assert (count_rows p (delete k t)
      ≤ count_rows (λ r, p r && negb (bool_decide (key r = k))) (delete k t)) as Hle.
    { apply count_rows_mono. intros x [k' [Hne Hx]%lookup_delete_Some]%elem_of_rows Hp.
      rewrite Hp, bool_decide_eq_false_2; [done|]. pose proof (Hkey _ _ Hx) as Hxk. simpl in Hxk. congruence. }
    destruct (p r), (_ && _); lia.
  - transitivity (count_rows (λ r, p r && negb (bool_decide (key r = k))) t); [|lia].
    apply count_rows_mono. intros x [k' Hx]%elem_of_rows Hp.
    rewrite Hp, bool_decide_eq_false_2; [done|]. pose proof (Hkey _ _ Hx) as Hxk. simpl in Hxk. congruence.
Qed.
End counts.

Section claims.
Context `{Sqlite} `{Env} `{Crypto} `{Pydantic} `{!Inj eq eq uuid4}.

Lemma active_kind_bound kind id t :
  keyed t → count_active_jobs kind None t ≤ 1 + count_active_jobs kind (Some id) t.
Proof.
  intros Hkey. unfold count_active_jobs.
  etransitivity; [apply (count_rows_without _ j_id id); exact Hkey|].
  apply Z.add_le_mono_l, count_rows_mono. intros r _. by rewrite andb_true_r.
Qed.
Lemma active_project_bound project id t :
  keyed t → count_active_project_jobs project None t ≤ 1 + count_active_project_jobs project (Some id) t.
Proof.
  intros Hkey. unfold count_active_project_jobs.
  etransitivity; [apply (count_rows_without _ j_id id); exact Hkey|].
  apply Z.add_le_mono_l, count_rows_mono. intros r _. by rewrite andb_true_r.
Qed.

(** Nothing becomes active. *)
Definition calmer (t t' : JobTables) : Prop :=
  (∀ kind, count_active_jobs kind None t' ≤ count_active_jobs kind None t)
  ∧ (∀ project, count_active_project_jobs project None t' ≤ count_active_project_jobs project None t).

Lemma calmer_refl t : calmer t t.
Proof. by split. Qed.
Lemma calmer_trans t1 t2 t3 : calmer t1 t2 → calmer t2 t3 → calmer t1 t3.
Proof. intros [Hk1 Hp1] [Hk2 Hp2]. split; intros x; etransitivity; eauto. Qed.
Lemma calmer_replace id row row' t t' :
  jobs t !! id = Some row → is_active (j_status row') = false → jobs t' = <[id := row']> (jobs t) →
  calmer t t'.
Proof.
  intros Hrow Hact Hjobs. unfold calmer, count_active_jobs, count_active_project_jobs.
  rewrite Hjobs. split; intros x; (eapply count_rows_replace; [exact Hrow|]);
    rewrite Hact, ?andb_false_r; done.
Qed.

(** The limits of the job's own policy hold. *)
Definition within_limits (job : JobRecord) (t : JobTables) : Prop :=
  ∀ p, policy_from_job_metadata (j_metadata job) = Ok (Some p) →
    (∀ m, max_running (concurrency p) = Some m → count_active_jobs (j_kind job) None t ≤ m)
    ∧ (∀ m, max_project_running (concurrency p) = Some m →
         count_active_project_jobs (j_project_id job) None t ≤ m).

Lemma within_limits_calmer job t t' : calmer t t' → within_limits job t → within_limits job t'.
Proof.
  intros [Hk Hp] Hw p Hpol. destruct (Hw p Hpol) as [Hw1 Hw2].
  split; intros m Hm; [specialize (Hw1 m Hm); specialize (Hk (j_kind job))
                      |specialize (Hw2 m Hm); specialize (Hp (j_project_id job))]; lia.
Qed.

(** ** One claimed job *)

(** A row this scheduler has just leased, and the record it was told about. *)
Definition leased_row (s : Scheduler) (t : JobTables) (job : JobRecord) : Prop :=
  ∃ row, jobs t !! j_id job = Some row ∧ job = _row_to_job row ∧ j_status row = JLeased
    ∧ j_lease_owner row = Some (s_worker_id s) ∧ is_Some (j_leased_until row)
    ∧ is_ok (policy_from_job_metadata (j_metadata row)) = true.

(** Sent back to the queue, due now, with the reason. *)
Definition deferred (current : utc) (t t' : JobTables) (job : JobRecord) : Prop :=
  ∃ row message, jobs t !! j_id job = Some row
    ∧ jobs t' !! j_id job = Some (finished_job JQueued (Some message) (Some current) row).

(** What the loop does to one job: it stays leased within its limits, or is
    deferred; the other rows are as they were. *)
Definition admitted (s : Scheduler) (current : utc) (job : JobRecord) (w w' : World)
    (taken : bool) : Prop :=
  good w' ∧ calmer (w_jobs w) (w_jobs w')
  ∧ (∀ id, id ≠ j_id job → jobs (w_jobs w') !! id = jobs (w_jobs w) !! id)
  ∧ if taken then jobs (w_jobs w') = jobs (w_jobs w) ∧ within_limits job (w_jobs w')
    else deferred current (w_jobs w) (w_jobs w') job.

Lemma defer_job_run s current job message payload w :
  good w → leased_row s (w_jobs w) job →
  ∃ w', defer_job s current job message payload w = (w', Ok tt)
    ∧ admitted s current job w w' false.
Proof.
  intros Hgood (row & Hrow & -> & Hst & _).
  assert (j_id (_row_to_job row) = j_id row) as Hid by done. rewrite Hid in *.
  unfold defer_job, bind at 1. rewrite zoom_eq.
  pose proof (step_ok (OpFinish (j_id row) JQueued (Some message) (Some current)) (w_jobs w) eq_refl
                (good_tables _ Hgood)) as Ht.
  unfold step in Ht. simpl in Ht.
  set (t' := mkJobTables
    (<[j_id row := finished_job JQueued (Some message) (Some current) row]> (jobs (w_jobs w)))
    (runs (w_jobs w)) (artifacts (w_jobs w)) (handoffs (w_jobs w))).
  assert (finish_job (j_id row) JQueued (Some message) (Some current) (w_jobs w) = (t', Ok tt)) as Hfin.
  { unfold finish_job, bind. rewrite zoom_eq. simpl. unfold update_row. by rewrite Hrow. }
  change (view w_jobs_lens w) with (w_jobs w). rewrite Hid, Hfin in *. cbn [fst snd].
  assert (good (put w_jobs_lens t' w)) as Hgood'.
  { apply good_jobs; [done|exact Ht| |by left]. simpl. intros k Hk. left.
    destruct (decide (k = j_id row)) as [->|Hne]; [by eauto|by rewrite lookup_insert_ne in Hk]. }
  match goal with |- context [emit ?ty ?a] =>
    destruct (emit_world ty a (put w_jobs_lens t' w) Hgood') as (b' & e & Hemit & _ & Hgood2 & _) end.
  exists (put w_bus_lens b' (put w_jobs_lens t' w)). unfold bind. rewrite Hemit. split; [done|].
  split_and!; [done| | |].
  - by eapply (calmer_replace (j_id row) row (finished_job JQueued (Some message) (Some current) row)).
  - intros k Hk. simpl. by rewrite lookup_insert_ne.
  - exists row, message. split; [exact Hrow|]. simpl. by rewrite lookup_insert_eq.
Qed.

Lemma admit_job_run s current acc job w :
  good w → leased_row s (w_jobs w) job →
  ∃ w' taken, admit_job s current acc job w = (w', Ok (if taken : bool then acc ++ [job] else acc))
    ∧ admitted s current job w w' taken.
Proof.
  intros Hgood Hleased.
  assert (∀ msg payload, ∃ w' taken,
    (let* _ := defer_job s current job msg payload in ret acc) w
      = (w', Ok (if taken : bool then acc ++ [job] else acc))
    ∧ admitted s current job w w' taken) as Hdefer.
  { intros msg payload. destruct (defer_job_run s current job msg payload w Hgood Hleased)
      as (w' & Hrun & Hadm). exists w', false. unfold bind. by rewrite Hrun. }
  destruct Hleased as (row & Hrow & -> & Hst & Ho & [until Hu] & Hpol).
  pose proof (tables_ok_keyed _ (good_tables _ Hgood)) as Hkey.
  unfold admit_job, bind at 1, lift_result at 1.
  change (j_metadata (_row_to_job row)) with (j_metadata row).
  destruct (policy_from_job_metadata (j_metadata row)) as [policy|] eqn:Hp; [|done].
  unfold bind at 1, gets at 1. unfold bind at 1, gets at 1. cbv zeta.
  set (pa := count_active_project_jobs _ _ _). set (ka := count_active_jobs _ _ _).
  destruct (match policy ≫= λ p, max_project_running (concurrency p) with
            | Some m => if m <=? pa then Some m else None | None => None end) as [limit|] eqn:Hpl;
    [apply Hdefer|].
  destruct (match policy ≫= λ p, max_running (concurrency p) with
            | Some m => if m <=? ka then Some m else None | None => None end) as [limit|] eqn:Hkl;
    [apply Hdefer|].
  change (j_leased_until (_row_to_job row)) with (j_leased_until row). rewrite Hu.
  unfold bind at 1, lift_result at 1.
  match goal with |- context [emit ?ty ?a] =>
    destruct (emit_world ty a w Hgood) as (b' & e & Hemit & _ & Hgood' & _) end.
  exists (put w_bus_lens b' w), true. unfold bind at 1. rewrite Hemit. split; [done|].
  split_and!; [done|apply calmer_refl|done|done|].
  intros p Hpp. change (j_metadata (_row_to_job row)) with (j_metadata row) in Hpp.
  rewrite Hp in Hpp. injection Hpp as ->. simpl in Hpl, Hkl. split; intros m Hm.
  - rewrite Hm in Hkl. destruct (Z.leb_spec m ka); [done|].
    pose proof (active_kind_bound (j_kind row) (j_id row) (w_jobs w) Hkey).
    change ka with (count_active_jobs (j_kind row) (Some (j_id row)) (w_jobs w)) in *. simpl. lia.
  - rewrite Hm in Hpl. destruct (Z.leb_spec m pa); [done|].
    pose proof (active_project_bound (j_project_id row) (j_id row) (w_jobs w) Hkey).
    change pa with (count_active_project_jobs (j_project_id row) (Some (j_id row)) (w_jobs w)) in *.
    simpl. lia.
Qed.

(** ** The loop *)

Lemma admit_loop s current l acc w :
  good w → NoDup (j_id <$> l) → (∀ job, job ∈ l → leased_row s (w_jobs w) job) →
  ∃ w' js, foldM (admit_job s current) acc l w = (w', Ok (acc ++ js))
    ∧ good w' ∧ calmer (w_jobs w) (w_jobs w') ∧ js `sublist_of` l
    ∧ (∀ id, id ∉ j_id <$> l → jobs (w_jobs w') !! id = jobs (w_jobs w) !! id)
    ∧ (∀ job, job ∈ l →
         (job ∈ js ∧ within_limits job (w_jobs w')
          ∧ jobs (w_jobs w') !! j_id job = jobs (w_jobs w) !! j_id job)
         ∨ ((job ∉ js) ∧ deferred current (w_jobs w) (w_jobs w') job)).
Proof.
  revert acc w. induction l as [|job l IH]; intros acc w Hgood Hnd Hl.
  - exists w, []. rewrite app_nil_r. split_and!; [done|done|apply calmer_refl|done|done|].
    by intros job ?%not_elem_of_nil.
  - simpl in Hnd. apply NoDup_cons in Hnd as [Hnot Hnd].
    destruct (admit_job_run s current acc job w Hgood (Hl job (list_elem_of_here _ _)))
      as (w1 & taken & Hrun & Hgood1 & Hcalm1 & Hsame1 & Hcase).
    simpl. unfold bind. rewrite Hrun.
    assert (∀ x, x ∈ l → jobs (w_jobs w1) !! j_id x = jobs (w_jobs w) !! j_id x) as Hrest.
    { intros x Hx. apply Hsame1. intros Heq. apply Hnot. rewrite <- Heq. by apply list_elem_of_fmap_2. }
    destruct (IH (if taken : bool then acc ++ [job] else acc) w1 Hgood1 Hnd)
      as (w' & js & Hfold & Hgood' & Hcalm & Hsub & Hsame & Hall).
    { intros x Hx. destruct (Hl x) as (row & Hrow & ?); [by right|]. exists row. by rewrite Hrest. }
    assert (job ∉ js) as Hjs.
    { intros Hin. apply Hnot, list_elem_of_fmap_2. by eapply elem_of_sublist. }
    exists w', (if taken : bool then job :: js else js). rewrite Hfold.
    split_and!; [by destruct taken; rewrite <- ?app_assoc|done|by eapply calmer_trans| | |].
    + destruct taken; by constructor.
    + intros id Hid. simpl in Hid. apply not_elem_of_cons in Hid as [Hne Hid].
      rewrite Hsame by done. by apply Hsame1.
    + assert (jobs (w_jobs w') !! j_id job = jobs (w_jobs w1) !! j_id job) as Hkeep by by apply Hsame.
      intros x [->|Hx]%elem_of_cons.
      * destruct taken.
        -- destruct Hcase as [Heq Hwl]. left. split_and!; [left|by eapply within_limits_calmer|].
           by rewrite Hkeep, Heq.
        -- right. split; [done|]. destruct Hcase as (row & msg & ? & Hd). exists row, msg.
           by rewrite Hkeep.
      * destruct (Hall x Hx) as [(Hin & Hwl & Heq)|(Hno & row & msg & Hrow & Hd)].
        -- left. split_and!; [destruct taken; [by right|done]|done|]. by rewrite Heq, Hrest.
        -- right. split.
           ++ destruct taken; [|done]. intros [->|?]%elem_of_cons; [|done].
              apply Hnot, list_elem_of_fmap_2, Hx.
           ++ exists row, msg. by rewrite <- (Hrest x Hx).
Qed.
End claims.

(** ** Properties *)

(** C33: claiming respects the concurrency policies.  When the stored policies are
    readable, the pass returns, in claiming order, a part of the jobs the store
    leased to it.  Each job it returns is leased to this scheduler, and as many jobs
    of its kind (of its project) are active in the end as its policy allows, itself
    included; each leased job it does not return is back in the queue with its lease
    released; every other job is as it was. *)
Theorem claims_within_limits `{Sqlite} `{Env} `{Pydantic} `{!Inj eq eq uuid4} (s : Scheduler)
    (now : datetime) (w : World) :
  let current := ensure_utc now in
  good w →
  map_Forall (λ _ j, is_ok (policy_from_job_metadata (j_metadata j)) = true) (jobs (w_jobs w)) →
  ∃ w' js claimed t1,
    claim_due_jobs s (Some now) w = (w', Ok js) ∧ good w'
    ∧ JobStore.claim_due_jobs (s_worker_id s) current (current + seconds (s_lease_seconds s))
        (s_claim_limit s) (w_jobs w) = (t1, Ok claimed)
    ∧ js `sublist_of` claimed
    ∧ (∀ job, job ∈ claimed →
         (job ∈ js ∧ within_limits job (w_jobs w')
          ∧ ∃ row, jobs (w_jobs w') !! j_id job = Some row ∧ j_status row = JLeased
              ∧ j_lease_owner row = Some (s_worker_id s))
         ∨ ((job ∉ js) ∧ deferred current t1 (w_jobs w') job))
    ∧ (∀ id, id ∉ j_id <$> claimed → jobs (w_jobs w') !! id = jobs (w_jobs w) !! id).
Proof.
  intros current Hgood Hpol. set (until := current + seconds (s_lease_seconds s)).
  pose proof (tables_ok_keyed _ (good_tables _ Hgood)) as Hkey.
  set (picked := claimable_rows current (s_claim_limit s) (w_jobs w)).
  destruct (claim_due_jobs_run (s_worker_id s) current until (s_claim_limit s) (w_jobs w) Hkey)
    as (jt & Hrun & Hjt). fold picked in Hrun, Hjt.
  set (claimed := _row_to_job ∘ lease_job (s_worker_id s) until <$> picked) in Hrun.
  set (t1 := mkJobTables jt _ _ _) in Hrun. set (w1 := put w_jobs_lens t1 w).
  assert (j_id <$> claimed = j_id <$> picked) as Hids
    by (unfold claimed; rewrite <- list_fmap_compose; by apply list_fmap_ext).
  assert (∀ p, p ∈ picked → jobs (w_jobs w) !! j_id p = Some p) as Hpicked.
  { intros p ([k Hk]%elem_of_rows & _)%claimable_rows_elem. pose proof (Hkey _ _ Hk) as Hid.
    simpl in Hid. by subst k. }
  assert (good w1) as Hgood1.
  { pose proof (step_ok (OpClaim (s_worker_id s) current until (s_claim_limit s)) (w_jobs w) I
      (good_tables _ Hgood)) as Ht. unfold step in Ht. simpl in Ht. rewrite bind_ret_state, Hrun in Ht.
    apply good_jobs; [done|exact Ht| |by left]. simpl. intros k. rewrite Hjt.
    intros [x Hx]. left. destruct (jobs (w_jobs w) !! k); [eauto|done]. }
  assert (∀ job, job ∈ claimed → leased_row s (w_jobs w1) job) as Hleased.
  { intros job (p & -> & Hp)%list_elem_of_fmap. exists (lease_job (s_worker_id s) until p).
    split; [|split_and!; [done|done|done|by eexists|by apply (Hpol _ _ (Hpicked p Hp))]].
    simpl. rewrite Hjt, (Hpicked p Hp). simpl. rewrite bool_decide_eq_true_2; [done|].
    by apply list_elem_of_fmap_2. }
  destruct (admit_loop s current claimed [] w1 Hgood1) as (w' & js & Hfold & Hgood' & _ & Hsub & Hsame & Hall);
    [rewrite Hids; by apply claimable_rows_NoDup|done|].
  exists w', js, claimed, t1. split_and!; [|done|exact Hrun|done| |].
  - unfold claim_due_jobs, current_time, bind at 1, ret. fold current until.
    unfold bind. rewrite zoom_eq. change (view w_jobs_lens w) with (w_jobs w). rewrite Hrun. exact Hfold.
  - intros job Hjob. destruct (Hall job Hjob) as [(Hin & Hw & Heq)|[Hno Hdef]]; [left|by right].
    split_and!; [done..|]. destruct (Hleased job Hjob) as (row & Hrow & _ & Hst & Ho & _).
    exists row. by rewrite Heq.
  - intros id Hid. rewrite Hsame by done. simpl. rewrite Hjt, <- Hids.
    rewrite bool_decide_eq_false_2 by done. by destruct (jobs (w_jobs w) !! id).
Qed.

(** ** Runs on concrete inputs *)

Definition one_at_a_time : ResourcePolicy :=
  mkResourcePolicy None None (mkCpuPolicy None None) (mkMemoryPolicy None None)
    (mkProcessPolicy None) (mkNetworkPolicy None) (mkFilesystemPolicy None [] None None)
    (mkLogsPolicy None) (mkConcurrencyPolicy (Some 1) None).
Definition limited_job (id : string) (priority created : Z) : JobRecord :=
  mkJob id "report" ∅ created "cli" None (Some "p1") None (policy_metadata one_at_a_time ∅) JQueued
    priority None (Some created) None None 0 1 (Some 60) None.

(** Two due jobs of a kind that may run one at a time. *)
Definition limited_world : World :=
  world_with (mkJobTables (list_to_map [("low", limited_job "low" 10 1); ("high", limited_job "high" 200 2)])
                ∅ [] []).

Lemma limited_world_good : @good frozen_env limited_world.
Proof.
  assert (∀ id p c, job_ok id (limited_job id p c)) as Hok
    by (intros; split; simpl; [done|split; [by intros []|done]..|lia|done]).
  split; [apply empty_log_ok| |].
  - split; [repeat (apply map_Forall_insert_2; [apply Hok|])|]; apply map_Forall_empty.
  - intros n _. simpl. rewrite !lookup_insert_ne by discriminate. by rewrite !lookup_empty.
Qed.

Definition limited_claim : World * result (list JobRecord) :=
  @claim_due_jobs sqlite_merge frozen_env strict_pydantic local_scheduler (Some (of_utc 5)) limited_world.

(** The pass leases both jobs before it looks at the limits, so the first one in
    claiming order is deferred because the later one counts as active: the job of
    priority 10 starts and the one of priority 200 waits. *)
Example limit_inverts_priority :
  match limited_claim.2 with Ok js => j_id <$> js | Err _ => [] end = ["low"]
  ∧ j_status <$> (jobs (w_jobs limited_claim.1) !! "high") = Some JQueued.
Proof. split; vm_compute; reflexivity. Qed.

Lemma claims_within_limits_witness :
  ∃ js, limited_claim.2 = Ok js ∧ j_id <$> js = ["low"]
    ∧ count_active_jobs "report" None (w_jobs limited_claim.1) ≤ 1.
Proof.
  destruct (@claims_within_limits sqlite_merge frozen_env strict_pydantic frozen_inj local_scheduler
    (of_utc 5) limited_world limited_world_good) as (w' & js & claimed & t1 & Hrun & _ & _ & Hsub & Hall & _).
  { repeat (apply map_Forall_insert_2; [vm_compute; reflexivity|]). apply map_Forall_empty. }
  assert (match limited_claim.2 with Ok js => j_id <$> js | Err _ => [] end = ["low"]) as Hids
    by (vm_compute; reflexivity).
  assert (match limited_claim.2 with Ok js => map j_kind js | Err _ => [] end = ["report"]) as Hkinds
    by (vm_compute; reflexivity).
  assert (match limited_claim.2 with
          | Ok js => forallb (λ j, match @policy_from_job_metadata strict_pydantic (j_metadata j) with
                                   | Ok (Some p) => bool_decide (max_running (concurrency p) = Some 1)
                                   | _ => false end) js
          | Err _ => false end = true) as Hpols by (vm_compute; reflexivity).
  unfold limited_claim in *. rewrite Hrun in *. simpl in *. exists js. split_and!; [done..|].
  destruct js as [|job [|? ?]]; try discriminate Hids.
  destruct (Hall job) as [(_ & Hw & _)|[Hno _]].
  - eapply elem_of_sublist; [left|exact Hsub].
  - simpl in Hpols. destruct (policy_from_job_metadata (j_metadata job)) as [[p|]|] eqn:Hp; try discriminate Hpols.
    rewrite andb_true_r in Hpols. apply bool_decide_eq_true in Hpols.
    destruct (Hw p Hp) as [Hk _]. specialize (Hk 1 Hpols). injection Hkinds as Hkind. by rewrite Hkind in Hk.
  - exfalso. apply Hno. left.
Defined.
