(* ===== verification/KubeArtifacts.v ===== *)
(** * Retaining a worker's artifacts ([kubernetes_artifacts.py])

    Before its Pod disappears, the result forwarder copies every declared artifact from
    the worker's directory to the retention volume, into a staging directory that one
    rename makes the run's own.  The worker's side is the class [ArtifactSource]: calls
    on an arbitrary state, for the worker may change its files at any time.  The volume
    is a map of directories to the files and links in them; any of its operations may
    fail ([io_error]), and another forwarder may act just before the rename
    ([meanwhile]).  Links on the volume lead nowhere. *)

From Stdlib Require Import Ascii.
From S2P Require Import Prelude Contracts Text Paths PyValues ResourcePolicies Containers Auth Urls Bundles KubeSettings.

(** ** The worker's side *)

Record Stat := mkStat { st_regular : bool; st_dev : Z; st_ino : Z; st_bytes : Z; st_mtime_ns : Z; st_ctime_ns : Z }.
Definition _file_identity (s : Stat) : Z * Z * Z * Z * Z := (st_dev s, st_ino s, st_bytes s, st_mtime_ns s, st_ctime_ns s).
Definition _opened_file_identity (s : Stat) : Z * Z * Z * Z := (st_dev s, st_ino s, st_bytes s, st_mtime_ns s).

Class ArtifactSource := {
  source : Type;
  (** [Path.resolve(strict=True)], [lstat] (is it a link?), [stat] *)
  resolve_strict : PosixPath → M source PosixPath;
  lstat_link : PosixPath → M source bool;
  stat_file : PosixPath → M source Stat;
  (** open component by component without following links; [fstat]; [os.read] of at
      most a mebibyte, empty at the end; the file itself is named by the root and parts *)
  open_nofollow : PosixPath → list string → M source Z;
  fstat : Z → M source Stat;
  read_chunk : Z → M source string;
  (** [OSError] and its [FileNotFoundError] *)
  is_os_error : exn → bool;
  is_not_found : exn → bool
}.

(** ** The retention volume *)

Inductive Leaf := LFile (bytes : string) | LLink.
#[export] Instance Leaf_eq_dec : EqDecision Leaf.
Proof. solve_decision. Defined.
Abbreviation DirPath := (list string).
Abbreviation Files := (gmap string Leaf).
Abbreviation Disk := (gmap DirPath Files).
Definition base_name (p : DirPath) : string := default EmptyString (last p).
Definition leaf_at (p : DirPath) (d : Disk) : option Leaf := d !! removelast p ≫= (λ files, files !! base_name p).
Definition is_directory (p : DirPath) (d : Disk) : bool := opt_truthy (d !! p).
Definition is_regular (p : DirPath) (d : Disk) : bool := match leaf_at p d with Some (LFile _) => true | _ => false end.
Definition exists_at (p : DirPath) (d : Disk) : bool := is_directory p d || is_regular p d.
Definition below (p q : DirPath) : bool := bool_decide (take (length p) q = p).
Definition subdirectories (p : DirPath) (d : Disk) : list DirPath :=
  filter (λ q, below p q && Nat.eqb (length q) (S (length p)) = true) (elements (dom d)).

Record Depot `{ArtifactSource} := mkDepot { dp_source : source; dp_disk : Disk; dp_io : nat }.
Arguments mkDepot {_} dp_source dp_disk dp_io.

(** [OSError] and the subclasses the code tells apart *)
Definition OSError (msg : string) : exn := OtherException "OSError" msg.
Definition FileExistsError : exn := OtherException "FileExistsError" "File exists".
Definition FileNotFoundError : exn := OtherException "FileNotFoundError" "No such file or directory".
Definition file_exists_error (e : exn) : bool := bool_decide (e = FileExistsError).
Definition os_error (e : exn) : bool :=
  match e with OtherException n _ => bool_decide (n ∈ ["OSError"; "FileExistsError"; "FileNotFoundError"]) | _ => false end.
Definition is_retention_error (e : exn) : bool :=
  match e with OtherValueError n _ => String.eqb n "ArtifactRetentionError" | _ => false end.

(** The conditions one retention runs under: which of its disk operations fail, what
    another forwarder of the same run puts in place just before the rename, the last
    random suffix [mkdtemp] tries, and [mimetypes.guess_type]. *)
Record Conditions := mkConditions {
  io_error : nat → bool; rival : option Files; temp_suffix : Disk → string; guess_type : string → option string
}.

(** ** Names, metadata and places *)

Definition unsafe_character (c : ascii) : bool :=
  bool_decide (c ∈ ["/"%char; backslash]) || Nat.ltb (nat_of_ascii c) 32.
Definition _validate_artifact_name (name : string) : result unit :=
  if (255 <? str_len name) || bool_decide (name ∈ ["."; ".."]) || existsb unsafe_character (chars name)
  then Err (ArtifactRetentionError "artifact names must be safe single path segments") else Ok tt.

Definition alnum (c : ascii) : bool := lower_alnum (lower_char c).
Definition _SAFE_SUFFIX (s : string) : bool :=
  match chars s with
  | "."%char :: ext => Nat.leb 1 (length ext) && Nat.leb (length ext) 10 && forallb alnum ext
  | _ => false
  end.
(** [f"{index:04d}"] *)
Definition pad4 (n : Z) : string :=
  let digits := pretty n in text (replicate (4 - String.length digits) "0"%char) +:+ digits.
Definition _stored_name `{Crypto} (index : Z) (name : string) : string :=
  let ext := suffix (parse_path name) in
  pad4 index +:+ "-" +:+ str_take 16 (sha256_hex name) +:+ (if _SAFE_SUFFIX ext then lower ext else EmptyString).

Definition _retained_directory `{Crypto} (project_id : option string) (run_id : string) : DirPath :=
  ["projects"; match project_id with None => "unscoped" | Some p => sha256_hex p end; "runs"; sha256_hex run_id].
Definition _retained_uri (uri_root : string) (relative_directory : DirPath) (stored_name : string) : string :=
  let encoded := quote_safe ["/"%char] (as_posix (mkPath EmptyString (relative_directory ++ [stored_name]))) in
  if starts_with "file://" uri_root then rstrip_slash uri_root +:+ "/" +:+ encoded
  else "file://" +:+ rstrip_slash (quote_safe ["/"; ":"]%char (as_posix (parse_path uri_root))) +:+ "/" +:+ encoded.

Definition bytes_key (name : string) : string := "artifact." +:+ name +:+ ".bytes".
Definition sha256_key (name : string) : string := "artifact." +:+ name +:+ ".sha256".
Definition lower_hex (c : ascii) : bool := let n := nat_of_ascii c in (Nat.leb 48 n && Nat.leb n 57) || (Nat.leb 97 n && Nat.leb n 102).
Definition _SHA256 (s : string) : bool := Nat.eqb (String.length s) 64 && forallb lower_hex (chars s).
Definition remove_prefix (prefix s : string) : string :=
  if starts_with prefix s then text (drop (String.length prefix) (chars s)) else s.
Definition _verify_declared_metrics (r : GoblinResult) (name : string) (actual_size : Z) (actual_digest : string)
    : result unit :=
  let? _ := match gr_metrics r !! bytes_key name with
            | None | Some JNull => Ok tt
            | Some (JInt n) => if n =? actual_size then Ok tt else Err (ArtifactRetentionError
                ("artifact " +:+ py_repr name +:+ " byte count does not match its metadata"))
            | Some _ => Err (ArtifactRetentionError
                ("artifact " +:+ py_repr name +:+ " byte count does not match its metadata"))
            end in
  match gr_metrics r !! sha256_key name with
  | None | Some JNull => Ok tt
  | Some (JStr declared) =>
      let normalized := remove_prefix "sha256:" (lower declared) in
      if _SHA256 normalized && String.eqb normalized actual_digest then Ok tt
      else Err (ArtifactRetentionError ("artifact " +:+ py_repr name +:+ " SHA-256 digest does not match"))
  | Some _ => Err (ArtifactRetentionError ("artifact " +:+ py_repr name +:+ " SHA-256 metadata is invalid"))
  end.

(** [_MEDIA_TYPE]: a type and a subtype, then parameters after semicolons, with white
    space around a semicolon but not after the last value (a value may hold blanks). *)
Definition token_char (c : ascii) : bool := alnum c || bool_decide (c ∈ chars "!#$&^_.+-").
Definition value_char (c : ascii) : bool := token_char c || bool_decide (c ∈ [" "%char; ascii_of_nat 34]).
Definition word_of (p : ascii → bool) (l : list ascii) : bool := negb (bool_decide (l = [])) && forallb p l.
Definition trim_end (final : bool) (l : list ascii) : list ascii := if final then l else rev (drop_spaces (rev l)).
Definition media_base (final : bool) (piece : list ascii) : bool :=
  match partition_at "/" (trim_end final piece) with
  | (a, Some b) => word_of token_char a && word_of token_char b
  | _ => false
  end.
Definition media_value (final : bool) (value : list ascii) : bool :=
  let core := trim_end final value in
  forallb value_char core && (word_of value_char core || (negb final && bool_decide (head value = Some " "%char))).
Definition media_parameter (final : bool) (piece : list ascii) : bool :=
  match partition_at "=" (drop_spaces piece) with
  | (a, Some b) => word_of token_char a && media_value final b
  | _ => false
  end.
Fixpoint media_parameters (pieces : list (list ascii)) : bool :=
  match pieces with
  | [] => true
  | p :: rest => media_parameter (bool_decide (rest = [])) p && media_parameters rest
  end.
Definition _MEDIA_TYPE (s : string) : bool :=
  match split_on ";" (chars s) with
  | [] => false
  | base :: rest => media_base (bool_decide (rest = [])) base && media_parameters rest
  end.
Definition _validated_media_type (world : Conditions) (artifact : ArtifactRecord) : result string :=
  let media_type := match or_opt (a_media_type artifact) (guess_type world (a_name artifact)) with
                    | Some t => if truthy t then t else "application/octet-stream"
                    | None => "application/octet-stream"
                    end in
  if (255 <? str_len media_type) || negb (_MEDIA_TYPE media_type)
  then Err (ArtifactRetentionError ("artifact " +:+ py_repr (a_name artifact) +:+ " media type is invalid"))
  else Ok media_type.

(** A failed envelope that names no artifact. *)
Definition unretained (metrics : dict) : dict := filter (λ kv, starts_with "artifact." kv.1 = false) metrics.
Definition artifact_retention_failure (r : GoblinResult) (reason : string) : GoblinResult :=
  let message := "artifact retention failed: " +:+ reason in
  GoblinResult_failed
    (if truthy_opt (gr_error r) then default EmptyString (gr_error r) +:+ "; " +:+ message else message)
    (gr_data r) [] (unretained (gr_metrics r)) (gr_handoff r).

Section retention.
Context `{Crypto} `{ArtifactSource} (world : Conditions).

Definition source_lens : lens Depot source := Lens dp_source (λ s d, mkDepot s (dp_disk d) (dp_io d)).
(** One operation on the volume. *)
Definition disk_op {A} (f : Disk → Disk * result A) : M Depot A := λ d,
  if io_error world (dp_io d) then (mkDepot (dp_source d) (dp_disk d) (S (dp_io d)), Err (OSError "Input/output error"))
  else let '(k, r) := f (dp_disk d) in (mkDepot (dp_source d) k (S (dp_io d)), r).
Definition look {A} (f : Disk → A) : M Depot A := disk_op (λ d, (d, Ok (f d))).
(** [except OSError] sees the volume's errors and the source's. *)
Definition caught_os_error (e : exn) : bool := is_os_error e || os_error e.

(** [os.mkdir], and [Path.mkdir(exist_ok=True)] without and with [parents] *)
Definition os_mkdir (p : DirPath) : M Depot unit := disk_op (λ d,
  if is_directory p d || opt_truthy (leaf_at p d) then (d, Err FileExistsError)
  else if is_directory (removelast p) d then (<[p := ∅]> d, Ok tt) else (d, Err FileNotFoundError)).
Definition unless_directory (p : DirPath) (e : exn) : M Depot unit :=
  let* there := look (is_directory p) in if there then ret tt else raise e.
Definition path_mkdir (p : DirPath) : M Depot unit :=
  try_catch (os_mkdir p) (λ e,
    if os_error e && negb (bool_decide (e = FileNotFoundError)) then unless_directory p e else raise e).
Fixpoint mkdir_parents (up : list string) : M Depot unit :=
  let p := rev up in
  try_catch (os_mkdir p) (λ e,
    if bool_decide (e = FileNotFoundError)
    then match up with [] => raise e | _ :: above => do* mkdir_parents above in path_mkdir p end
    else if os_error e then unless_directory p e else raise e).
(** [chmod], [tempfile.mkdtemp], [open("xb")] and a write, [shutil.rmtree] *)
Definition change_mode (p : DirPath) : M Depot unit := disk_op (λ d,
  (d, if exists_at p d then Ok tt else Err FileNotFoundError)).
Definition mkdtemp (prefix : string) (p : DirPath) : M Depot DirPath := disk_op (λ d,
  let q := p ++ [prefix +:+ temp_suffix world d] in
  if is_directory q d || opt_truthy (leaf_at q d) then (d, Err FileExistsError)
  else if is_directory p d then (<[q := ∅]> d, Ok q) else (d, Err FileNotFoundError)).
Definition create_file (dir : DirPath) (name : string) : M Depot unit := disk_op (λ d,
  match d !! dir with
  | Some files => if opt_truthy (files !! name) then (d, Err FileExistsError)
                  else (<[dir := <[name := LFile EmptyString]> files]> d, Ok tt)
  | None => (d, Err FileNotFoundError)
  end).
Definition append_file (dir : DirPath) (name chunk : string) : M Depot unit := disk_op (λ d,
  match d !! dir with
  | Some files => match files !! name with
                  | Some (LFile b) => (<[dir := <[name := LFile (b +:+ chunk)]> files]> d, Ok tt)
                  | _ => (d, Err (OSError "Bad file descriptor"))
                  end
  | None => (d, Err (OSError "Bad file descriptor"))
  end).
Definition remove_tree (p : DirPath) : M Depot unit := disk_op (λ d, (filter (λ kv, below p kv.1 = false) d, Ok tt)).
(** [Path.rename] of a directory of files: onto nothing or onto an empty directory.
    Linux reports a directory with entries as ENOTEMPTY, which is a plain [OSError]. *)
Definition rename_dir (p q : DirPath) : M Depot unit := disk_op (λ d,
  if negb (is_directory (removelast q) d) then (d, Err FileNotFoundError) else
  let d := match d !! q, rival world with None, Some files => <[q := files]> d | _, _ => d end in
  match d !! p, d !! q with
  | Some files, None => if opt_truthy (leaf_at q d) then (d, Err (OSError "Not a directory"))
                        else (<[q := files]> (delete p d), Ok tt)
  | Some files, Some old =>
      if bool_decide (old = ∅) && bool_decide (subdirectories q d = []) then (<[q := files]> (delete p d), Ok tt)
      else (d, Err (OSError "Directory not empty"))
  | None, _ => (d, Err FileNotFoundError)
  end).

(** ** Finding the source *)

Definition outside (name : string) : exn :=
  ArtifactRetentionError ("artifact " +:+ py_repr name +:+ " is missing or outside the worker artifact root").
Definition changed (name : string) : exn :=
  ArtifactRetentionError ("artifact " +:+ py_repr name +:+ " changed or became unsafe before retention").
Definition irregular (name : string) : exn :=
  ArtifactRetentionError ("artifact " +:+ py_repr name +:+ " is not a regular file").

Record SourceFile := mkSourceFile { sf_root : PosixPath; sf_relative : PosixPath; sf_identity : Z * Z * Z * Z }.

Fixpoint reject_links_from (current : PosixPath) (components : list string) (name : string) : M source unit :=
  match components with
  | [] => ret tt
  | part :: rest =>
      let current := path_join current (mkPath EmptyString [part]) in
      let* is_link := try_catch (lstat_link current) (λ e, raise (if is_os_error e then outside name else e)) in
      do* raise_if is_link (ArtifactRetentionError ("artifact " +:+ py_repr name +:+ " may not use symbolic links")) in
      reject_links_from current rest name
  end.
Definition _reject_symbolic_link_components (root relative : PosixPath) (name : string) : M source unit :=
  reject_links_from root (parts relative) name.

(** [resolved.relative_to(root)] *)
Definition require_within (resolved root : PosixPath) : M source unit :=
  match relative_to resolved root with
  | Some _ => ret tt
  | None => raise (ValueError (as_posix resolved +:+ " is not in the subpath of " +:+ as_posix root))
  end.
Definition _resolve_source (root : PosixPath) (artifact : ArtifactRecord) : M source SourceFile :=
  let name := a_name artifact in
  let* parsed := lift_result (urlsplit_checked (a_uri artifact)) in
  let scheme := url_scheme parsed in
  do* raise_if (truthy scheme && negb (String.eqb scheme "file"))
        (ArtifactRetentionError ("artifact " +:+ py_repr name +:+ " must use a local file URI")) in
  do* raise_if (String.eqb scheme "file" && negb (bool_decide (default EmptyString (url_netloc parsed) ∈ [EmptyString; "localhost"])))
        (ArtifactRetentionError ("artifact " +:+ py_repr name +:+ " has a remote file authority")) in
  let raw_path := if String.eqb scheme "file" then unquote (url_path_only parsed) else a_uri artifact in
  let candidate := path_join root (parse_path raw_path) in
  match relative_to candidate root with
  | None => raise (outside name)
  | Some relative =>
      do* raise_if (bool_decide (".." ∈ parts relative)) (outside name) in
      do* _reject_symbolic_link_components root relative name in
      let* resolved := try_catch (let* r := resolve_strict candidate in do* require_within r root in ret r)
                         (λ e, raise (if is_not_found e || is_value_error e then outside name else e)) in
      let* st := stat_file resolved in
      do* raise_if (negb (st_regular st)) (irregular name) in
      ret (mkSourceFile root relative (_opened_file_identity st))
  end.

(** ** Copying one artifact *)

Definition OutOfFuel : exn := OtherException "RuntimeError" "out of fuel".
Fixpoint copy_loop (fuel : nat) (fd : Z) (dir : DirPath) (stored : string) (remaining size : Z) (copied : string)
    : M Depot (Z * string) :=
  match fuel with
  | O => raise OutOfFuel
  | S fuel =>
      let* chunk := zoom source_lens (read_chunk fd) in
      if negb (truthy chunk) then ret (size, copied)
      else
        let size := size + Z.of_nat (String.length chunk) in
        do* raise_if (remaining <? size) (ArtifactRetentionError "artifact bytes exceed policy") in
        do* append_file dir stored chunk in
        copy_loop fuel fd dir stored remaining size (copied +:+ chunk)
  end.
(** Every turn but the last two adds a byte to a size that may not exceed [remaining]. *)
Definition copy_fuel (remaining : Z) : nat := S (S (Z.to_nat remaining)).

Definition _copy_fd_and_hash (fd : Z) (dir : DirPath) (stored : string) (remaining : Z) (name : string)
    (validated_identity : Z * Z * Z * Z) : M Depot (Z * string) :=
  let* before := zoom source_lens (fstat fd) in
  do* raise_if (negb (st_regular before)) (irregular name) in
  do* raise_if (negb (bool_decide (_opened_file_identity before = validated_identity))) (changed name) in
  do* create_file dir stored in
  do* change_mode (dir ++ [stored]) in
  let* r := copy_loop (copy_fuel remaining) fd dir stored remaining 0 EmptyString in
  let '(size, copied) := r in
  let* after := zoom source_lens (fstat fd) in
  do* raise_if (negb (bool_decide (_file_identity before = _file_identity after)) || negb (size =? st_bytes after))
        (ArtifactRetentionError ("artifact " +:+ py_repr name +:+ " changed while it was retained")) in
  ret (size, sha256_hex copied).
(** [_copy_and_hash] on POSIX.  The descriptors are closed on every path. *)
Definition _copy_and_hash_posix (file : SourceFile) (dir : DirPath) (stored : string) (remaining : Z) (name : string)
    : M Depot (Z * string) :=
  let* fd := try_catch
    (let* fd := zoom source_lens (open_nofollow (sf_root file) (parts (sf_relative file))) in
     do* raise_if (bool_decide (parts (sf_relative file) = [])) (OtherException "IndexError" "tuple index out of range") in
     ret fd)
    (λ e, raise (if is_os_error e then changed name else e)) in
  _copy_fd_and_hash fd dir stored remaining name (sf_identity file).
Definition _copy_and_hash (file : SourceFile) (dir : DirPath) (stored : string) (remaining : Z) (name : string)
    : M Depot (Z * string) := _copy_and_hash_posix file dir stored remaining name.

(** ** Making the run's directory *)

Fixpoint shared_tree_from (current : DirPath) (components : list string) : M Depot unit :=
  match components with
  | [] => ret tt
  | component :: rest =>
      let current := current ++ [component] in
      do* path_mkdir current in
      let* directory := look (is_directory current) in
      do* raise_if (negb directory) (ArtifactRetentionError "retained artifact path must contain only directories") in
      do* change_mode current in
      shared_tree_from current rest
  end.
Definition _ensure_shared_directory_tree (root relative : DirPath) : M Depot unit := shared_tree_from root relative.

(** [iterdir]: the leaves and the subdirectories *)
Definition iterdir (p : DirPath) : M Depot (Files * list DirPath) := disk_op (λ d,
  (d, match d !! p with Some files => Ok (files, subdirectories p d) | None => Err FileNotFoundError end)).
Definition all_regular (files : Files) : bool :=
  forallb (λ kv, match kv.2 with LFile _ => true | LLink => false end) (map_to_list files).
Definition _file_sha256 (leaf : Leaf) : string := match leaf with LFile b => sha256_hex b | LLink => EmptyString end.
Definition _directories_match (left right : DirPath) : M Depot bool :=
  let* l := iterdir left in
  let* r := iterdir right in
  let '(left_files, left_dirs) := l in
  let '(right_files, right_dirs) := r in
  if negb (all_regular left_files && all_regular right_files
           && bool_decide (left_dirs = []) && bool_decide (right_dirs = [])) then ret false
  else if negb (bool_decide (dom left_files = dom right_files)) then ret false
  else look (λ _, bool_decide (_file_sha256 <$> left_files = _file_sha256 <$> right_files)).
Definition _apply_retained_modes (directory : DirPath) : M Depot unit :=
  do* change_mode directory in
  let* entries := iterdir directory in
  let '(files, dirs) := entries in
  do* forM_ (map_to_list files) (λ kv,
        do* raise_if (match kv.2 with LFile _ => false | LLink => true end)
              (ArtifactRetentionError "retained artifact directory contains an unsafe entry") in
        change_mode (directory ++ [kv.1])) in
  raise_if (negb (bool_decide (dirs = []))) (ArtifactRetentionError "retained artifact directory contains an unsafe entry").
Definition _commit_staging (staging final : DirPath) : M Depot unit :=
  let* there := look (exists_at final) in
  if (there : bool) then
    let* same := _directories_match staging final in
    do* raise_if (negb same) (ArtifactRetentionError "retained artifact destination already contains other bytes") in
    do* remove_tree staging in
    _apply_retained_modes final
  else
    do* try_catch (rename_dir staging final) (λ e,
          if file_exists_error e then
            let* same := _directories_match staging final in
            do* raise_if (negb same) (ArtifactRetentionError "retained artifact destination changed concurrently") in
            remove_tree staging
          else raise e) in
    _apply_retained_modes final.

(** ** Retaining a result *)

(** One turn of the loop of [_retain_all]: what is retained, the metrics, the bytes. *)
Definition Progress : Type := list ArtifactRecord * dict * Z.
Definition retain_one (r : GoblinResult) (request : ArtifactRetentionRequest) (source_root : PosixPath)
    (uri_root : string) (relative staging : DirPath) (acc : Progress) (item : nat * ArtifactRecord)
    : M Depot Progress :=
  let '(retained, metrics, total_bytes) := acc in
  let '(index, artifact) := item in
  let name := a_name artifact in
  do* lift_result (_validate_artifact_name name) in
  let* file := zoom source_lens (_resolve_source source_root artifact) in
  let stored := _stored_name (Z.of_nat index) name in
  let* copy := _copy_and_hash file staging stored (rq_max_bytes request - total_bytes) name in
  let '(size, digest) := copy in
  do* lift_result (_verify_declared_metrics r name size digest) in
  let* media_type := lift_result (_validated_media_type world artifact) in
  ret (retained ++ [mkArtifact name (_retained_uri uri_root relative stored) (Some media_type)],
       <[sha256_key name := JStr digest]> (<[bytes_key name := JInt size]> metrics),
       total_bytes + size).

Definition stage_and_commit (r : GoblinResult) (request : ArtifactRetentionRequest) (source_root : PosixPath)
    (uri_root : string) (relative staging final : DirPath) : M Depot Progress :=
  try_catch
    (let* out := foldM (retain_one r request source_root uri_root relative staging) ([], gr_metrics r, 0)
                   (zip (seq 0 (length (gr_artifacts r))) (gr_artifacts r)) in
     do* _commit_staging staging final in ret out)
    (λ e, do* try_catch (remove_tree staging) (λ _, ret tt) in raise e).

Definition prefix_of (relative : DirPath) : string := "." +:+ base_name relative +:+ ".staging-".
Definition _retain_all (r : GoblinResult) (request : ArtifactRetentionRequest) : M Depot (list ArtifactRecord * dict) :=
  match rq_destination_root request, rq_uri_root request with
  | Some destination, Some uri_root =>
      do* raise_if ((rq_max_files request <? 0) || (rq_max_bytes request <? 0))
            (ArtifactRetentionError "artifact limits must be non-negative") in
      let count := Z.of_nat (length (gr_artifacts r)) in
      do* raise_if (rq_max_files request <? count) (ArtifactRetentionError
            ("artifact file count exceeds policy: " +:+ pretty count +:+ " > " +:+ pretty (rq_max_files request))) in
      do* raise_if (negb (bool_decide (NoDup (a_name <$> gr_artifacts r))))
            (ArtifactRetentionError "artifact names must be unique within a result") in
      let* source_root := zoom source_lens (resolve_strict (rq_source_root request)) in
      let root := names destination in
      do* mkdir_parents (rev root) in
      do* (let* resolved := look (is_directory root) in raise_if (negb resolved) FileNotFoundError) in
      let relative := _retained_directory (rq_project_id request) (rq_run_id request) in
      let final := root ++ relative in
      do* _ensure_shared_directory_tree root (removelast relative) in
      let* staging := mkdtemp (prefix_of relative) (removelast final) in
      do* change_mode staging in
      let* out := stage_and_commit r request source_root uri_root relative staging final in
      let '(retained, metrics, total_bytes) := out in
      ret (retained, <["artifact.retained.bytes" := JInt total_bytes]>
                       (<["artifact.retained.files" := JInt (Z.of_nat (length retained))]> metrics))
  | _, _ => raise (ArtifactRetentionError "durable Kubernetes artifact storage is not configured")
  end.

Definition retain_result_artifacts (r : GoblinResult) (request : ArtifactRetentionRequest) : M Depot GoblinResult :=
  if bool_decide (gr_artifacts r = []) then ret r
  else
    try_catch
      (let* out := _retain_all r request in
       let '(artifacts, metrics) := out in
       ret (mkGoblinResult (gr_status r) (gr_data r) artifacts metrics (gr_handoff r) (gr_error r)))
      (λ e, if is_retention_error e then ret (artifact_retention_failure r (exn_str e))
            else if caught_os_error e then ret (artifact_retention_failure r "artifact storage I/O did not complete")
            else raise e).

(** ** Removing a run that is not kept *)

Definition _local_retention_root (uri_root : string) : result PosixPath :=
  let direct := parse_path uri_root in
  if is_absolute direct then Ok direct
  else
    let? parsed := urlsplit_checked uri_root in
    if negb (bool_decide (url_scheme parsed ∈ [EmptyString; "file"]))
       || negb (bool_decide (default EmptyString (url_netloc parsed) ∈ [EmptyString; "localhost"]))
    then Err (ArtifactRetentionError "artifact URI root must identify local storage")
    else Ok (parse_path (if String.eqb (url_scheme parsed) "file" then unquote (url_path_only parsed) else uri_root)).
Definition retained_run_path (uri_root : string) (project_id : option string) (run_id : string) : result DirPath :=
  let? root := _local_retention_root uri_root in Ok (names root ++ _retained_directory project_id run_id).
(** [rmdir] *)
Definition remove_empty (p : DirPath) : M Depot unit := disk_op (λ d,
  match d !! p with
  | None => (d, Err FileNotFoundError)
  | Some files => if bool_decide (files = ∅) && bool_decide (subdirectories p d = []) then (delete p d, Ok tt)
                  else (d, Err (OSError "Directory not empty"))
  end).
(** The parents of the removed directory, from the nearest, up to the root *)
Fixpoint prune (parents : list DirPath) : M Depot unit :=
  match parents with
  | [] => ret tt
  | p :: rest =>
      let* removed := try_catch (do* remove_empty p in ret true) (λ e, if os_error e then ret false else raise e) in
      if (removed : bool) then prune rest else ret tt
  end.
Definition cleanup_retained_run (uri_root : string) (project_id : option string) (run_id : string) : M Depot unit :=
  let* root := lift_result (_local_retention_root uri_root) in
  let root := names root in
  do* (let* resolved := look (is_directory root) in raise_if (negb resolved) FileNotFoundError) in
  let relative := _retained_directory project_id run_id in
  let target := root ++ relative in
  let* there := look (exists_at target) in
  if (there : bool) then
    let* directory := look (is_directory target) in
    do* raise_if (negb directory) (OtherException "NotADirectoryError" "Not a directory") in
    do* remove_tree target in
    prune [root ++ take 3 relative; root ++ take 2 relative; root ++ take 1 relative]
  else ret tt.
End retention.

(** ** A tree of directories *)

Definition tree_ok (d : Disk) : Prop := ∀ p n, is_Some (d !! (p ++ [n])) → is_Some (d !! p).
(** Calls that keep a property of the volume *)
Definition keeps `{ArtifactSource} (I : Disk → Prop) (w w' : Depot) : Prop := I (dp_disk w) → I (dp_disk w').
#[export] Instance keeps_preorder `{ArtifactSource} I : PreOrder (keeps I).
Proof. split; unfold keeps; [by intros w|intros w1 w2 w3; tauto]. Qed.

Lemma below_spec p q : below p q = true ↔ ∃ l, q = p ++ l.
Proof.
  unfold below. rewrite bool_decide_eq_true. split.
  - intros Hp. exists (drop (length p) q). by rewrite <- Hp at 1; rewrite take_drop.
  - intros [l ->]. by rewrite take_app_length.
Qed.
Lemma removelast_app_one {A} (p : list A) x : removelast (p ++ [x]) = p.
Proof. apply removelast_last. Qed.
Lemma removelast_spec (p : DirPath) n q : p = q ++ [n] → removelast p = q.
Proof. intros ->. apply removelast_app_one. Qed.

Lemma tree_below d p l : tree_ok d → is_Some (d !! (p ++ l)) → is_Some (d !! p).
Proof.
  intros Hd. induction l as [|n l IH] using rev_ind; [by rewrite app_nil_r|].
  rewrite app_assoc. intros Hl. apply IH. by eapply Hd.
Qed.
Lemma tree_insert_old d p files files' : tree_ok d → d !! p = Some files → tree_ok (<[p := files']> d).
Proof.
  intros Hd Hp q n. destruct (decide (q = p)) as [->|]; [by rewrite lookup_insert_eq|].
  rewrite (lookup_insert_ne _ p q) by done. intros Hq. apply (Hd q n).
  destruct (decide (q ++ [n] = p)) as [<-|]; [by rewrite Hp|]. by rewrite lookup_insert_ne in Hq.
Qed.
Lemma tree_insert_new d p files : tree_ok d → is_directory (removelast p) d = true → tree_ok (<[p := files]> d).
Proof.
  intros Hd Hp q n. destruct (decide (q = p)) as [->|]; [by rewrite lookup_insert_eq|].
  rewrite (lookup_insert_ne _ p q) by done. intros Hq.
  destruct (decide (q ++ [n] = p)) as [<-|].
  - rewrite removelast_app_one in Hp. unfold is_directory in Hp. by destruct (d !! q).
  - apply (Hd q n). by rewrite lookup_insert_ne in Hq.
Qed.
Lemma tree_remove d p : tree_ok d → tree_ok (filter (λ kv, below p kv.1 = false) d).
Proof.
  intros Hd q n [files Hq]. apply map_lookup_filter_Some in Hq as [Hq Hn]. simpl in Hn.
  destruct (Hd q n) as [files' Hf]; [by eexists|]. exists files'. apply map_lookup_filter_Some_2; [done|]. simpl.
  apply not_true_iff_false in Hn. apply not_true_iff_false. intros Hb. apply Hn.
  apply below_spec in Hb as [l ->]. apply below_spec. exists (l ++ [n]). by rewrite app_assoc.
Qed.
Lemma tree_delete d p : tree_ok d → (∀ n, d !! (p ++ [n]) = None) → tree_ok (delete p d).
Proof.
  intros Hd Hn q n Hq. destruct (decide (q ++ [n] = p)) as [<-|]; [rewrite lookup_delete_eq in Hq; by destruct Hq|].
  rewrite lookup_delete_ne in Hq by done. destruct (decide (q = p)) as [->|].
  - rewrite Hn in Hq. by destruct Hq.
  - rewrite lookup_delete_ne by done. by apply (Hd q n).
Qed.

(** ** Retention only adds *)

(** [kept]: what stood before still stands, and the directories form a tree. *)
Definition kept (d0 d : Disk) : Prop := d0 ⊆ d ∧ tree_ok d.
(** [staged]: moreover the staging directory is new and holds no directory. *)
Record staged (d0 : Disk) (s : DirPath) (d : Disk) : Prop := {
  stg_kept : kept d0 d;
  stg_new : ∀ q, below s q = true → d0 !! q = None;
  stg_flat : ∀ q, below s q = true → q ≠ s → d !! q = None
}.

Lemma kept_new d0 d p files : kept d0 d → d !! p = None → is_directory (removelast p) d = true → kept d0 (<[p := files]> d).
Proof. intros [Hs Ht] Hp Hdir. split; [apply insert_subseteq_r; [by eapply lookup_weaken_None|done]|by apply tree_insert_new]. Qed.
Lemma below_refl s : below s s = true.
Proof. apply below_spec. exists []. by rewrite app_nil_r. Qed.
Lemma below_child s n : below s (s ++ [n]) = true.
Proof. apply below_spec. by exists [n]. Qed.

Lemma staged_write d0 s d files files' : staged d0 s d → d !! s = Some files → staged d0 s (<[s := files']> d).
Proof.
  intros [[Hs Ht] Hn Hf] Hd. split; [split|done|].
  - apply insert_subseteq_r; [by apply Hn, below_refl|done].
  - by eapply tree_insert_old.
  - intros q Hb Hq. rewrite lookup_insert_ne by done. by apply Hf.
Qed.
Lemma staged_remove d0 s d : staged d0 s d → staged d0 s (filter (λ kv, below s kv.1 = false) d).
Proof.
  intros [[Hs Ht] Hn Hf]. split; [split|done|].
  - apply map_subseteq_spec. intros q x Hq. apply map_lookup_filter_Some_2; [by eapply lookup_weaken|]. simpl.
    apply not_true_iff_false. intros Hb. by rewrite (Hn q Hb) in Hq.
  - by apply tree_remove.
  - intros q Hb Hq. apply map_lookup_filter_None_2. left. by apply Hf.
Qed.

Section additions.
Context `{Crypto} `{ArtifactSource} (world : Conditions).

Lemma within_disk_op {A : Type} (I : Disk → Prop) (f : Disk → Disk * result A) :
  (∀ d, I d → I (f d).1) → Within (keeps I) (disk_op world f).
Proof.
  intros Hf w. unfold keeps, disk_op. destruct (io_error world (dp_io w)); [done|].
  specialize (Hf (dp_disk w)). by destruct (f (dp_disk w)).
Qed.
Lemma keeps_after {A : Type} (I : Disk → Prop) (m : M Depot A) w :
  Within (keeps I) m → I (dp_disk w) → I (dp_disk (m w).1).
Proof. intros Hm. apply (Hm w). Qed.
#[export] Instance within_look {A : Type} (I : Disk → Prop) (f : Disk → A) : Within (keeps I) (look world f).
Proof. unfold look. apply within_disk_op; intros d Hd; exact Hd. Qed.
#[local] Instance within_source {A : Type} (I : Disk → Prop) (m : M source A) : Within (keeps I) (zoom source_lens m).
Proof. intros w Hw. rewrite zoom_eq. exact Hw. Qed.
#[local] Instance within_change_mode (I : Disk → Prop) p : Within (keeps I) (change_mode world p).
Proof. unfold change_mode. apply within_disk_op; intros d Hd; exact Hd. Qed.
#[local] Instance within_iterdir (I : Disk → Prop) p : Within (keeps I) (iterdir world p).
Proof. unfold iterdir. apply within_disk_op; intros d Hd; exact Hd. Qed.
#[local] Instance within_match (I : Disk → Prop) p q : Within (keeps I) (_directories_match world p q).
Proof. unfold _directories_match. solve_within. Qed.
#[local] Instance within_modes (I : Disk → Prop) p : Within (keeps I) (_apply_retained_modes world p).
Proof. unfold _apply_retained_modes. solve_within. Qed.

Section before_staging.
Context (d0 : Disk).
#[local] Instance within_mkdir p : Within (keeps (kept d0)) (os_mkdir world p).
Proof.
  apply within_disk_op. intros d Hd. unfold is_directory. destruct (d !! p) eqn:Hp; [done|].
  simpl. destruct (opt_truthy _); [done|]. destruct (opt_truthy (d !! removelast p)) eqn:Hup; [|done].
  by apply kept_new.
Qed.
#[local] Instance within_path_mkdir p : Within (keeps (kept d0)) (path_mkdir world p).
Proof. unfold path_mkdir, unless_directory. solve_within. Qed.
Lemma within_mkdir_parents up : Within (keeps (kept d0)) (mkdir_parents world up).
Proof. induction up as [|n up IH]; simpl; unfold unless_directory; solve_within. Qed.
Lemma within_shared_tree p l : Within (keeps (kept d0)) (shared_tree_from world p l).
Proof. revert p. induction l as [|n l IH]; intros p; simpl; solve_within. Qed.
End before_staging.

Lemma mkdtemp_staged d0 prefix p w w' s :
  kept d0 (dp_disk w) → mkdtemp world prefix p w = (w', Ok s) → staged d0 s (dp_disk w') ∧ dp_disk w' !! s = Some ∅.
Proof.
  unfold mkdtemp, disk_op. intros Hk. destruct (io_error world (dp_io w)); [done|].
  set (q := p ++ _). unfold is_directory. destruct (dp_disk w !! q) eqn:Hq; [done|]. simpl.
  destruct (opt_truthy (leaf_at q (dp_disk w))); [done|].
  destruct (opt_truthy (dp_disk w !! p)) eqn:Hp; [|done]. intros [= <- <-]. simpl.
  assert (Hnone : ∀ r, below q r = true → dp_disk w !! r = None).
  { intros r Hr. apply below_spec in Hr as [l ->]. apply eq_None_not_Some. intros Hr.
    apply (tree_below _ q l) in Hr; [|by apply Hk]. rewrite Hq in Hr. by destruct Hr. }
  split; [|by rewrite lookup_insert_eq]. split.
  - apply kept_new; [done|done|]. subst q. by rewrite removelast_app_one.
  - intros r Hr. eapply lookup_weaken_None; [by apply Hnone|apply Hk].
  - intros r Hr Hrq. rewrite lookup_insert_ne by done. by apply Hnone.
Qed.

Section after_staging.
Context (d0 : Disk) (s : DirPath).
#[local] Instance within_create name : Within (keeps (staged d0 s)) (create_file world s name).
Proof.
  apply within_disk_op. intros d Hd. destruct (d !! s) as [files|] eqn:Hs; [|done].
  destruct (opt_truthy _); [done|]. by eapply staged_write.
Qed.
#[local] Instance within_append name chunk : Within (keeps (staged d0 s)) (append_file world s name chunk).
Proof.
  apply within_disk_op. intros d Hd. destruct (d !! s) as [files|] eqn:Hs; [|done].
  destruct (files !! name) as [[b|]|]; [|done..]. by eapply staged_write.
Qed.
#[local] Instance within_remove : Within (keeps (staged d0 s)) (remove_tree world s).
Proof. apply within_disk_op. intros d Hd. by apply staged_remove. Qed.
#[local] Instance within_copy_loop fuel fd name remaining size copied :
  Within (keeps (staged d0 s)) (copy_loop world fuel fd s name remaining size copied).
Proof. revert size copied. induction fuel as [|fuel IH]; intros size copied; simpl; solve_within. Qed.
#[local] Instance within_copy file name remaining artifact :
  Within (keeps (staged d0 s)) (_copy_and_hash world file s name remaining artifact).
Proof. unfold _copy_and_hash, _copy_and_hash_posix, _copy_fd_and_hash. solve_within. Qed.
#[local] Instance within_retain_one r request root uri relative acc item :
  Within (keeps (staged d0 s)) (retain_one world r request root uri relative s acc item).
Proof. unfold retain_one. solve_within. Qed.

Lemma staged_final d final files :
  staged d0 s d → d0 !! final = None → length final = length s → is_directory (removelast final) d = true →
  staged d0 s (<[final := files]> d).
Proof.
  intros [[Hs Ht] Hn Hf] Hnone Hlen Hup. split; [split|done|].
  - by apply insert_subseteq_r.
  - by apply tree_insert_new.
  - intros q Hb Hq. rewrite lookup_insert_ne; [by apply Hf|]. intros <-. apply Hq.
    apply below_spec in Hb as [l ->]. rewrite length_app in Hlen. destruct l; [by rewrite app_nil_r|simpl in Hlen; lia].
Qed.
Lemma staged_moved d final files :
  final ≠ [] → staged d0 s d → d0 !! final = None → length final = length s → is_directory (removelast final) d = true →
  staged d0 s (<[final := files]> (delete s d)).
Proof.
  intros Hne Hd Hnone Hlen Hup. apply staged_final; [|done..|].
  - destruct Hd as [[Hs Ht] Hn Hf]. split; [split|done|].
    + apply map_subseteq_spec. intros q x Hq. rewrite lookup_delete_ne; [by eapply lookup_weaken|].
      intros <-. by rewrite Hn in Hq by apply below_refl.
    + apply tree_delete; [done|]. intros n. apply Hf; [apply below_child|]. intros Hq. apply (f_equal length) in Hq.
      rewrite length_app in Hq. simpl in Hq. lia.
    + intros q Hb Hq. rewrite lookup_delete_ne by done. by apply Hf.
  - unfold is_directory in *. rewrite lookup_delete_ne; [done|]. intros Hs.
    apply (f_equal length) in Hs. pose proof (app_removelast_last EmptyString Hne) as Hf.
    apply (f_equal length) in Hf. rewrite length_app in Hf. simpl in Hf. lia.
Qed.

Lemma look_false (f : Disk → bool) w : f (dp_disk w) = true → (look world f w).2 ≠ Ok false.
Proof. unfold look, disk_op. by destruct (io_error world (dp_io w)); simpl; [|intros -> [=]]. Qed.
Lemma within_rename final :
  final ≠ [] → length final = length s → d0 !! final = None → Within (keeps (staged d0 s)) (rename_dir world s final).
Proof.
  intros Hne Hlen Hnone. apply within_disk_op. intros d Hd.
  destruct (is_directory (removelast final) d) eqn:Hup; [|done]. simpl.
  set (d1 := match d !! final with Some _ => d | None => _ end).
  assert (Hd1 : staged d0 s d1 ∧ is_directory (removelast final) d1 = true).
  { subst d1. destruct (d !! final); [done|]. destruct (rival world) as [files|]; [|done].
    split; [by apply staged_final|]. unfold is_directory in *. rewrite lookup_insert_ne; [done|]. intros Hs.
    apply (f_equal length) in Hs. pose proof (app_removelast_last EmptyString Hne) as Hf.
    apply (f_equal length) in Hf. rewrite length_app in Hf. simpl in Hf. lia. }
  destruct Hd1 as [Hd1 Hup1]. destruct (d1 !! s), (d1 !! final); [..|done|done].
  - destruct (_ && _); [|done]. by apply staged_moved.
  - destruct (opt_truthy _); [done|]. by apply staged_moved.
Qed.
Lemma commit_keeps final w :
  final ≠ [] → length final = length s → keeps (staged d0 s) w (_commit_staging world s final w).1.
Proof.
  intros Hne Hlen Hw. unfold _commit_staging. unfold bind at 1. pose proof (within_look (staged d0 s) (exists_at final) w Hw) as Hl.
  pose proof (look_false (exists_at final) w) as Hfalse.
  destruct (look world (exists_at final) w) as [w1 [[|]|e]]; simpl in *; [| |done].
  - apply (keeps_after (staged d0 s)); [solve_within|done].
  - assert (Hnone : d0 !! final = None).
    { apply eq_None_not_Some. intros [files Hf]. apply Hfalse; [|done]. unfold exists_at, is_directory.
      by rewrite (lookup_weaken _ _ _ _ Hf (proj1 (stg_kept _ _ _ Hw))). }
    pose proof (within_rename final Hne Hlen Hnone). apply (keeps_after (staged d0 s)); [solve_within|done].
Qed.
Lemma stage_keeps r request root uri relative final :
  final ≠ [] → length final = length s →
  Within (keeps (staged d0 s)) (stage_and_commit world r request root uri relative s final).
Proof.
  intros Hne Hlen. unfold stage_and_commit.
  assert (Within (keeps (staged d0 s)) (_commit_staging world s final)) by (intros w; by apply commit_keeps).
  solve_within.
Qed.
End after_staging.

(** Whatever happens, a directory of the volume keeps its files. *)
Lemma retain_all_keeps d0 r request : Within (keeps (kept d0)) (_retain_all world r request).
Proof.
  unfold _retain_all. destruct (rq_destination_root request) as [destination|]; [|solve_within].
  destruct (rq_uri_root request) as [uri|]; [|solve_within]. cbv zeta.
  do 3 (apply within_bind; [apply _..|intros _]). apply within_bind; [apply _..|intros root].
  apply within_bind; [apply _|apply within_mkdir_parents|intros _].
  apply within_bind; [apply _|solve_within|intros _].
  apply within_bind; [apply _|apply within_shared_tree|intros _].
  intros w Hw. unfold bind at 1. set (parent := removelast _). set (prefix := prefix_of _).
  destruct (mkdtemp world prefix parent w) as [w1 [s|e]] eqn:Ht; [|].
  2: { revert Ht. unfold mkdtemp, disk_op. destruct (io_error world (dp_io w)); [by intros [= <- _]|].
       destruct (_ || _); [by intros [= <- _]|]. by destruct (is_directory _ _); intros [= <- _]. }
  assert (Hs : length s = S (length parent)).
  { revert Ht. unfold mkdtemp, disk_op. destruct (io_error world (dp_io w)); [done|]. destruct (_ || _); [done|].
    destruct (is_directory _ _); [|done]. intros [= _ <-]. rewrite length_app. simpl. lia. }
  apply (mkdtemp_staged d0) in Ht as [Hst _]; [|done].
  set (final := names destination ++ _retained_directory _ _).
  assert (Hne : final ≠ []) by by (subst final; unfold _retained_directory; destruct (names destination)).
  assert (Hlen : length final = length s).
  { rewrite Hs. subst parent. pose proof (app_removelast_last EmptyString Hne) as Hf.
    apply (f_equal length) in Hf. rewrite length_app in Hf. simpl in Hf. fold final. lia. }
  pose proof (stage_keeps d0 s r request root uri (_retained_directory (rq_project_id request) (rq_run_id request)) final Hne Hlen).
  apply (stg_kept d0 s). apply (keeps_after (staged d0 s)); [solve_within|done].
Qed.

(** C18: retention only adds to the volume.  Whatever the worker does to its files while
    they are read, whichever disk operations fail and whatever another forwarder commits
    in between, every directory that stood before still holds the same files, in
    particular those of runs already retained, and the directories still form a tree. *)
Theorem retention_only_adds (r : GoblinResult) (request : ArtifactRetentionRequest) (w : Depot) :
  tree_ok (dp_disk w) →
  let w' := (retain_result_artifacts world r request w).1 in
  dp_disk w ⊆ dp_disk w' ∧ tree_ok (dp_disk w').
Proof.
  intros Hw. pose proof (retain_all_keeps (dp_disk w) r request).
  assert (Hk : Within (keeps (kept (dp_disk w))) (retain_result_artifacts world r request)).
  { unfold retain_result_artifacts. solve_within. }
  apply (Hk w). by split.
Qed.
End additions.

(** ** A retained result describes the bytes it keeps *)

Definition lengths (copies : list string) : Z := foldr (λ c n, Z.of_nat (String.length c) + n) 0 copies.
Lemma lengths_app l c : lengths (l ++ [c]) = lengths l + Z.of_nat (String.length c).
Proof. unfold lengths. induction l as [|x l IH]; simpl; [lia|]. rewrite IH. lia. Qed.

(** One artifact [a] of the worker's result [r], what the retained result says of it
    ([a'], [metrics]), what was read ([copy]) and the files of the run's directory. *)
Record entry_ok `{Crypto} (r : GoblinResult) (uri_root : string) (relative : DirPath) (files : Files) (metrics : dict)
    (i : nat) (a a' : ArtifactRecord) (copy : string) : Prop := {
  en_name : a_name a' = a_name a;
  en_uri : a_uri a' = _retained_uri uri_root relative (_stored_name (Z.of_nat i) (a_name a));
  en_media : ∃ m, a_media_type a' = Some m ∧ _MEDIA_TYPE m = true;
  en_file : ∃ body, files !! _stored_name (Z.of_nat i) (a_name a) = Some (LFile body) ∧ sha256_hex body = sha256_hex copy;
  en_digest : metrics !! sha256_key (a_name a) = Some (JStr (sha256_hex copy));
  en_declared : ∀ declared, gr_metrics r !! sha256_key (a_name a) = Some (JStr declared) →
                remove_prefix "sha256:" (lower declared) = sha256_hex copy;
  en_bytes : a_name a ≠ "retained" → metrics !! bytes_key (a_name a) = Some (JInt (Z.of_nat (String.length copy)))
}.
Record retained_ok `{Crypto} (r r' : GoblinResult) (request : ArtifactRetentionRequest) (d : Disk) : Prop := {
  ro_same : gr_status r' = gr_status r ∧ gr_data r' = gr_data r ∧ gr_handoff r' = gr_handoff r ∧ gr_error r' = gr_error r;
  ro_count : length (gr_artifacts r') = length (gr_artifacts r) ∧ Z.of_nat (length (gr_artifacts r)) ≤ rq_max_files request;
  ro_entries : ∃ destination uri_root copies files,
    let relative := _retained_directory (rq_project_id request) (rq_run_id request) in
    rq_destination_root request = Some destination ∧ rq_uri_root request = Some uri_root
    ∧ d !! (names destination ++ relative) = Some files
    ∧ lengths copies ≤ rq_max_bytes request
    ∧ gr_metrics r' !! "artifact.retained.bytes" = Some (JInt (lengths copies))
    ∧ ∀ i a, gr_artifacts r !! i = Some a → ∃ a' copy, gr_artifacts r' !! i = Some a' ∧ copies !! i = Some copy
        ∧ entry_ok r uri_root relative files (gr_metrics r') i a a' copy
}.

(** The metrics of different artifacts have different keys. *)
Lemma bytes_key_inj a b : bytes_key a = bytes_key b → a = b.
Proof.
  unfold bytes_key. intros Hk. apply (f_equal chars) in Hk. rewrite !chars_app in Hk.
  apply app_inv_head, app_inv_tail in Hk. by apply chars_inj.
Qed.
Lemma sha256_key_inj a b : sha256_key a = sha256_key b → a = b.
Proof.
  unfold sha256_key. intros Hk. apply (f_equal chars) in Hk. rewrite !chars_app in Hk.
  apply app_inv_head, app_inv_tail in Hk. by apply chars_inj.
Qed.
Lemma bytes_key_last a : last (chars (bytes_key a)) = Some "s"%char.
Proof. unfold bytes_key. by rewrite !chars_app, !last_app. Qed.
Lemma sha256_key_last a : last (chars (sha256_key a)) = Some "6"%char.
Proof. unfold sha256_key. by rewrite !chars_app, !last_app. Qed.
Lemma keys_differ a b : bytes_key a ≠ sha256_key b.
Proof. intros Hk. pose proof (bytes_key_last a) as Ha. by rewrite Hk, sha256_key_last in Ha. Qed.
Lemma files_key_bytes a : bytes_key a ≠ "artifact.retained.files".
Proof.
  unfold bytes_key. intros Hk. apply (f_equal (λ s, rev (chars s))) in Hk. rewrite !chars_app, !rev_app_distr in Hk. by simpl in Hk.
Qed.
Lemma retained_keys_sha256 a : sha256_key a ≠ "artifact.retained.files" ∧ sha256_key a ≠ "artifact.retained.bytes".
Proof. split; intros Hk; pose proof (sha256_key_last a) as Ha; by rewrite Hk in Ha. Qed.

Section genuine.
Context `{Crypto} `{ArtifactSource} (world : Conditions).

Lemma disk_op_ok {A : Type} (f : Disk → Disk * result A) w w' a :
  disk_op world f w = (w', Ok a) → f (dp_disk w) = (dp_disk w', Ok a).
Proof.
  unfold disk_op. destruct (io_error world (dp_io w)); [done|]. destruct (f (dp_disk w)) as [d x]. by intros [= <- <-].
Qed.
Lemma source_disk {A : Type} (m : M source A) w w' x : zoom source_lens m w = (w', x) → dp_disk w' = dp_disk w.
Proof. rewrite zoom_eq. intros [= <- _]. done. Qed.
Lemma look_ok {A : Type} (f : Disk → A) w w' a : look world f w = (w', Ok a) → dp_disk w' = dp_disk w ∧ a = f (dp_disk w).
Proof. unfold look. intros Hl%disk_op_ok. by injection Hl as <- <-. Qed.
Lemma change_mode_ok p w w' : change_mode world p w = (w', Ok tt) → dp_disk w' = dp_disk w.
Proof. unfold change_mode. intros Hl%disk_op_ok. injection Hl as <- _. done. Qed.
Lemma raise_if_ok {S} c e (s s' : S) u : raise_if c e s = (s', Ok u) → c = false ∧ s' = s.
Proof. destruct c; [done|]. by intros [= <-]. Qed.
Lemma lift_ok {S A} (x : result A) (s s' : S) a : lift_result x s = (s', Ok a) → x = Ok a ∧ s' = s.
Proof. by intros [= <- ->]. Qed.

Context (s : DirPath).

Lemma create_file_ok name w w' :
  create_file world s name w = (w', Ok tt) → ∃ files, dp_disk w !! s = Some files ∧ files !! name = None
  ∧ dp_disk w' = <[s := <[name := LFile EmptyString]> files]> (dp_disk w).
Proof.
  unfold create_file. intros Hc%disk_op_ok. destruct (dp_disk w !! s) as [files|]; [|done].
  destruct (files !! name) eqn:Hn; [done|]. injection Hc as <-. by exists files.
Qed.
Lemma append_file_ok name chunk files b w w' :
  dp_disk w !! s = Some files → files !! name = Some (LFile b) → append_file world s name chunk w = (w', Ok tt) →
  dp_disk w' = <[s := <[name := LFile (b +:+ chunk)]> files]> (dp_disk w).
Proof. unfold append_file. intros Hs Hn Hc%disk_op_ok. rewrite Hs, Hn in Hc. by injection Hc as <-. Qed.
Lemma copy_loop_ok fuel fd name remaining size copied d files w w' out :
  size = Z.of_nat (String.length copied) → size ≤ remaining →
  dp_disk w = <[s := <[name := LFile copied]> files]> d →
  copy_loop world fuel fd s name remaining size copied w = (w', Ok out) →
  out.1 = Z.of_nat (String.length out.2) ∧ out.1 ≤ remaining ∧ dp_disk w' = <[s := <[name := LFile out.2]> files]> d.
Proof.
  revert size copied w. induction fuel as [|fuel IH]; intros size copied w Hsize Hle Hd; simpl; [done|].
  intros (w1 & chunk & Hr%source_disk & Hk)%bind_ok. destruct (truthy chunk); [|by injection Hk as <- <-; rewrite Hr].
  simpl in Hk. apply bind_ok in Hk as (w2 & [] & [Hlim ->]%raise_if_ok & Hk). apply Z.ltb_ge in Hlim.
  apply bind_ok in Hk as (w3 & [] & Ha & Hk).
  apply (append_file_ok _ _ (<[name := LFile copied]> files) copied) in Ha;
    [|by rewrite Hr, Hd, lookup_insert_eq|by rewrite lookup_insert_eq].
  rewrite Hr, Hd, !insert_insert_eq in Ha. revert Hk. apply IH; [|lia|done].
  rewrite <- !length_chars, chars_app, length_app, !length_chars in *. lia.
Qed.

Lemma raise_never {S A} e (w w' : S) (a : A) : raise e w ≠ (w', Ok a).
Proof. done. Qed.
Lemma try_raise_ok {S A} (m : M S A) (f : exn → exn) w w' a :
  try_catch m (λ e, raise (f e)) w = (w', Ok a) → m w = (w', Ok a).
Proof. unfold try_catch. by destruct (m w) as [w1 [x|e]]. Qed.
Lemma copy_ok file name remaining artifact w w' size digest :
  0 ≤ remaining → _copy_and_hash world file s name remaining artifact w = (w', Ok (size, digest)) →
  ∃ files copied, dp_disk w !! s = Some files ∧ files !! name = None ∧ digest = sha256_hex copied
  ∧ size = Z.of_nat (String.length copied) ∧ size ≤ remaining
  ∧ dp_disk w' = <[s := <[name := LFile copied]> files]> (dp_disk w).
Proof.
  intros Hrem. unfold _copy_and_hash, _copy_and_hash_posix, _copy_fd_and_hash.
  intros (w1 & fd & Ho%try_raise_ok & Hk)%bind_ok.
  apply bind_ok in Ho as (w0 & fd' & Ho%source_disk & Hf). apply bind_ok in Hf as (w0' & [] & [_ ->]%raise_if_ok & [= <- _]).
  apply bind_ok in Hk as (w2 & before & Hb%source_disk & Hk). apply bind_ok in Hk as (w2' & [] & [_ ->]%raise_if_ok & Hk).
  apply bind_ok in Hk as (w2' & [] & [_ ->]%raise_if_ok & Hk).
  apply bind_ok in Hk as (w3 & [] & (files & Hs & Hn & Hd)%create_file_ok & Hk).
  apply bind_ok in Hk as (w4 & [] & Hm%change_mode_ok & Hk).
  apply bind_ok in Hk as (w5 & out & Hl & Hk).
  apply (copy_loop_ok _ _ _ _ _ _ (dp_disk w) files) in Hl as (Hlen & Hle & Hdisk);
    [|done|done|by rewrite Hm, Hd, Hb, Ho].
  destruct out as [sz copied]. apply bind_ok in Hk as (w6 & after & Ha%source_disk & Hk).
  apply bind_ok in Hk as (w7 & [] & [_ ->]%raise_if_ok & [= <- <- <-]). simpl in *.
  exists files, copied. rewrite Hb, Ho in Hs. by rewrite Ha.
Qed.

Lemma verify_ok r name size digest declared :
  _verify_declared_metrics r name size digest = Ok tt → gr_metrics r !! sha256_key name = Some (JStr declared) →
  remove_prefix "sha256:" (lower declared) = digest.
Proof.
  unfold _verify_declared_metrics. intros Hv Hd. rewrite Hd in Hv. apply result_bind_ok in Hv as (u & _ & Hx).
  destruct (_SHA256 _); [|done]. simpl in Hx. destruct (String.eqb_spec (remove_prefix "sha256:" (lower declared)) digest); done.
Qed.
Lemma media_ok artifact m : _validated_media_type world artifact = Ok m → _MEDIA_TYPE m = true.
Proof.
  unfold _validated_media_type. set (t := match or_opt _ _ with Some _ => _ | None => _ end).
  destruct (255 <? str_len t); [done|]. simpl. destruct (_MEDIA_TYPE t) eqn:Ht; [|done]. simpl. by intros [= <-].
Qed.

(** What the loop has established after [k] artifacts. *)
Section loop.
Context (r : GoblinResult) (request : ArtifactRetentionRequest) (uri_root : string) (relative : DirPath).
Record progress_ok (k : nat) (acc : Progress) (d : Disk) : Prop := {
  pg_length : length acc.1.1 = k;
  pg_copies : ∃ copies files, d !! s = Some files ∧ length copies = k
    ∧ acc.2 = lengths copies ∧ lengths copies ≤ rq_max_bytes request
    ∧ ∀ i a, (i < k)%nat → gr_artifacts r !! i = Some a → ∃ a' copy, acc.1.1 !! i = Some a' ∧ copies !! i = Some copy
        ∧ entry_ok r uri_root relative files acc.1.2 i a a' copy
}.

(** A later artifact, under another name, leaves an entry as it is. *)
Lemma entry_later files metrics i a a' copy stored body name size digest :
  files !! stored = None → a_name a ≠ name →
  entry_ok r uri_root relative files metrics i a a' copy →
  entry_ok r uri_root relative (<[stored := LFile body]> files)
    (<[sha256_key name := JStr digest]> (<[bytes_key name := JInt size]> metrics)) i a a' copy.
Proof.
  intros Hn Hne [H1 H2 H3 (b & Hf & Hb) H5 H6 H7]. split; [done|done|done| | |done|].
  - exists b. rewrite lookup_insert_ne; [done|]. congruence.
  - rewrite !lookup_insert_ne; [done|apply keys_differ|]. intros Hk%sha256_key_inj. by apply Hne.
  - intros Hret. rewrite !lookup_insert_ne; [by apply H7| |].
    + intros Hk%bytes_key_inj. by apply Hne.
    + intros Hk. symmetry in Hk. by apply keys_differ in Hk.
Qed.
Lemma retain_one_ok root k a acc acc' w w' :
  NoDup (a_name <$> gr_artifacts r) → gr_artifacts r !! k = Some a → progress_ok k acc (dp_disk w) →
  retain_one world r request root uri_root relative s acc (k, a) w = (w', Ok acc') → progress_ok (S k) acc' (dp_disk w').
Proof.
  intros Hdup Ha [Hlen (copies & files & Hs & Hcopies & Htotal & Hmax & Hall)]. destruct acc as [[retained metrics] total].
  unfold retain_one. simpl in *. intros (w1 & u & [_ ->]%lift_ok & Hk)%bind_ok.
  apply bind_ok in Hk as (w2 & file & Hr%source_disk & Hk).
  apply bind_ok in Hk as (w3 & [size digest] & Hc & Hk).
  apply copy_ok in Hc as (files' & copy & Hs' & Hn & -> & -> & Hle & Hd); [|lia].
  rewrite Hr, Hs in Hs'. injection Hs' as <-.
  apply bind_ok in Hk as (w4 & [] & [Hv ->]%lift_ok & Hk).
  apply bind_ok in Hk as (w5 & m & [Hm%media_ok ->]%lift_ok & [= <- <-]). split; simpl.
  { rewrite length_app. simpl. lia. }
  exists (copies ++ [copy]), (<[_stored_name (Z.of_nat k) (a_name a) := LFile copy]> files).
  rewrite length_app, lengths_app. simpl. split_and!; [by rewrite Hd, Hr, lookup_insert_eq|lia|lia|lia|].
  intros i b Hi Hb. destruct (decide (i = k)) as [->|Hik].
  - rewrite Ha in Hb. injection Hb as <-. eexists _, copy.
    rewrite !list_lookup_middle by done. split_and!; [done|done|]. split; simpl; [done|done|by exists m| | | |].
    + exists copy. by rewrite lookup_insert_eq.
    + by rewrite lookup_insert_eq.
    + intros declared Hdecl. by eapply verify_ok.
    + intros _. rewrite lookup_insert_ne; [by rewrite lookup_insert_eq|]. intros Hk. symmetry in Hk. by apply keys_differ in Hk.
  - destruct (Hall i b) as (a' & c & Ha' & Hc & He); [lia|done|]. exists a', c.
    rewrite !lookup_app_l by (eapply lookup_lt_Some; eassumption). split_and!; [done|done|].
    apply entry_later; [done| |done]. intros Hname. apply Hik.
    eapply (NoDup_lookup _ i k (a_name b) Hdup); rewrite list_lookup_fmap; [by rewrite Hb|by rewrite Ha, Hname].
Qed.
Lemma retain_loop_ok root (arts : list ArtifactRecord) k acc out w w' :
  NoDup (a_name <$> gr_artifacts r) → drop k (gr_artifacts r) = arts → progress_ok k acc (dp_disk w) →
  foldM (retain_one world r request root uri_root relative s) acc (zip (seq k (length arts)) arts) w = (w', Ok out) →
  progress_ok (k + length arts) out (dp_disk w').
Proof.
  intros Hdup. revert k acc w. induction arts as [|a arts IH]; intros k acc w Hdrop Hp; simpl.
  { intros [= <- <-]. by rewrite Nat.add_0_r. }
  intros (w1 & acc' & Ha & Hk)%bind_ok. rewrite Nat.add_succ_r, <- Nat.add_succ_l.
  assert (Hat : gr_artifacts r !! k = Some a).
  { rewrite <- (Nat.add_0_r k), <- lookup_drop, Hdrop. done. }
  apply retain_one_ok in Ha; [|done..]. revert Hk. apply IH; [|done].
  apply drop_S in Hat. congruence.
Qed.
End loop.

Definition same_bytes (files files' : Files) : Prop :=
  ∀ name b, files !! name = Some (LFile b) → ∃ b', files' !! name = Some (LFile b') ∧ sha256_hex b' = sha256_hex b.
Lemma match_ok final w w' :
  _directories_match world s final w = (w', Ok true) →
  dp_disk w' = dp_disk w ∧ ∃ files files', dp_disk w !! s = Some files ∧ dp_disk w !! final = Some files' ∧ same_bytes files files'.
Proof.
  unfold _directories_match, iterdir. intros (w1 & l & Hl%disk_op_ok & Hk)%bind_ok.
  apply bind_ok in Hk as (w2 & q & Hq%disk_op_ok & Hk).
  destruct (dp_disk w !! s) as [files|] eqn:Hs; [|done]. injection Hl as Hd1 <-. rewrite <- Hd1 in Hq.
  destruct (dp_disk w !! final) as [files'|] eqn:Hf; [|done]. injection Hq as Hd2 <-.
  destruct (all_regular files && all_regular files' && _ && _) eqn:Hreg; [|done].
  destruct (bool_decide (dom files = dom files')); [|done]. cbn [negb] in Hk.
  apply look_ok in Hk as [Hd3 Heq]. symmetry in Heq. apply bool_decide_eq_true in Heq.
  split; [congruence|]. exists files, files'. split_and!; [done|done|].
  intros name b Hb. apply (f_equal (λ m, m !! name)) in Heq. rewrite !lookup_fmap, Hb in Heq. simpl in Heq.
  destruct (files' !! name) as [leaf|] eqn:Hleaf; [|done]. simpl in Heq. injection Heq as Heq.
  apply andb_true_iff in Hreg as [[[_ Hreg]%andb_true_iff _]%andb_true_iff _].
  unfold all_regular in Hreg. rewrite forallb_forall in Hreg. specialize (Hreg (name, leaf)).
  destruct leaf as [b'|]; [by exists b'|]. 
  assert (false = true) by (apply Hreg, list_elem_of_In, elem_of_map_to_list; done). done.
Qed.
(** Linux does not raise [FileExistsError] for a directory that is in the way. *)
Lemma rename_never_exists final w w' e : rename_dir world s final w = (w', Err e) → file_exists_error e = false.
Proof.
  unfold rename_dir, disk_op. destruct (io_error world (dp_io w)); [by intros [= _ <-]|].
  destruct (negb _); [by intros [= _ <-]|]. set (d1 := match dp_disk w !! final with Some _ => _ | None => _ end).
  destruct (d1 !! s), (d1 !! final); [..|by intros [= _ <-]|by intros [= _ <-]].
  - destruct (_ && _); [done|by intros [= _ <-]].
  - destruct (opt_truthy _); [by intros [= _ <-]|done].
Qed.
Lemma rename_ok final files w w' :
  dp_disk w !! s = Some files → rename_dir world s final w = (w', Ok tt) → dp_disk w' !! final = Some files.
Proof.
  intros Hs Hr%disk_op_ok. cbv beta zeta in Hr. destruct (negb _); [done|].
  set (d1 := match dp_disk w !! final with Some _ => _ | None => _ end) in Hr.
  assert (Hs1 : d1 !! s = Some files).
  { subst d1. destruct (dp_disk w !! final) eqn:Hf; [done|]. destruct (rival world); [|done].
    rewrite lookup_insert_ne; [done|]. congruence. }
  rewrite Hs1 in Hr. destruct (d1 !! final).
  - destruct (_ && _); [|done]. injection Hr as <-. by rewrite lookup_insert_eq.
  - destruct (opt_truthy _); [done|]. injection Hr as <-. by rewrite lookup_insert_eq.
Qed.
Lemma modes_ok p w w' : _apply_retained_modes world p w = (w', Ok tt) → dp_disk w' = dp_disk w.
Proof.
  unfold _apply_retained_modes, iterdir. intros (w1 & [] & Hm%change_mode_ok & Hk)%bind_ok.
  apply bind_ok in Hk as (w2 & [files dirs] & Hi%disk_op_ok & Hk). injection Hi as Hi _. rewrite <- Hm, Hi. clear Hm Hi.
  apply bind_ok in Hk as (w3 & [] & Hl & [_ ->]%raise_if_ok). revert w2 Hl.
  induction (map_to_list files) as [|kv l IH]; intros w2; simpl; [by intros [= <-]|].
  intros (w4 & [] & Hc & Hk)%bind_ok. apply bind_ok in Hc as (w5 & [] & [_ ->]%raise_if_ok & Hc%change_mode_ok).
  rewrite <- Hc. by apply IH.
Qed.
Lemma commit_ok final files w w' :
  below s final = false → dp_disk w !! s = Some files → _commit_staging world s final w = (w', Ok tt) →
  ∃ files', dp_disk w' !! final = Some files' ∧ same_bytes files files'.
Proof.
  intros Hb Hs. unfold _commit_staging. intros (w1 & there & [Hd _]%look_ok & Hk)%bind_ok. destruct there.
  - apply bind_ok in Hk as (w2 & same & Hm & Hk). apply bind_ok in Hk as (w3 & [] & [Hsame ->]%raise_if_ok & Hk).
    destruct same; [|done]. apply match_ok in Hm as (Hd2 & files1 & files' & Hs1 & Hf & Hbytes).
    rewrite Hd, Hs in Hs1. injection Hs1 as <-.
    apply bind_ok in Hk as (w4 & [] & Hr & Hk%modes_ok). unfold remove_tree in Hr. apply disk_op_ok in Hr. injection Hr as Hr.
    exists files'. split; [|done]. rewrite Hk, <- Hr, Hd2. by apply map_lookup_filter_Some_2.
  - apply bind_ok in Hk as (w2 & [] & Hr & Hk%modes_ok). exists files. split; [|intros name b Hn; by exists b].
    rewrite Hk. unfold try_catch in Hr. destruct (rename_dir world s final w1) as [w3 [[]|e]] eqn:Hren.
    + injection Hr as <-. apply (rename_ok final files) in Hren; [done|by rewrite Hd].
    + by rewrite (rename_never_exists _ _ _ _ Hren) in Hr.
Qed.
End genuine.

Section retained.
Context `{Crypto} `{ArtifactSource} (world : Conditions).

Lemma entry_moved r uri relative files files' metrics metrics' i a a' copy :
  same_bytes files files' → (∀ k, k ≠ "artifact.retained.files" → k ≠ "artifact.retained.bytes" → metrics' !! k = metrics !! k) →
  entry_ok r uri relative files metrics i a a' copy → entry_ok r uri relative files' metrics' i a a' copy.
Proof.
  intros Hb Hm [H1 H2 H3 (b & Hf & Hsha) H5 H6 H7]. destruct (retained_keys_sha256 (a_name a)). split; [done|done|done| | |done|].
  - destruct (Hb _ _ Hf) as (b' & Hf' & Hsha'). exists b'. by rewrite Hsha'.
  - by rewrite Hm.
  - intros Hne. rewrite Hm; [by apply H7|apply files_key_bytes|]. intros Hk. by apply (bytes_key_inj _ "retained") in Hk.
Qed.
(** The staging directory is not the run's own: its name is longer. *)
Lemma staging_elsewhere (final parent : DirPath) d :
  final ≠ [] → parent = removelast final → below (parent ++ [prefix_of final +:+ temp_suffix world d]) final = false.
Proof.
  intros Hne ->. apply not_true_iff_false. intros [l Hl]%below_spec.
  pose proof (app_removelast_last EmptyString Hne) as Hf.
  assert (l = []) as ->.
  { apply (f_equal length) in Hl. apply (f_equal length) in Hf. rewrite !length_app in *. simpl in *. destruct l; [done|simpl in *; lia]. }
  rewrite app_nil_r in Hl. rewrite Hf in Hl at 1. apply app_inj_tail in Hl as [_ Hl].
  assert (Hb : base_name final = List.last final EmptyString).
  { unfold base_name. rewrite Hf at 1. by rewrite last_snoc. }
  unfold prefix_of in Hl. rewrite <- Hb in Hl. apply (f_equal (λ t, length (chars t))) in Hl.
  rewrite !chars_app, !length_app in Hl. simpl in Hl. lia.
Qed.

Lemma stage_ok r request root uri relative s final w w' retained metrics total :
  NoDup (a_name <$> gr_artifacts r) → 0 ≤ rq_max_bytes request → below s final = false → dp_disk w !! s = Some ∅ →
  stage_and_commit world r request root uri relative s final w = (w', Ok (retained, metrics, total)) →
  length retained = length (gr_artifacts r) ∧ ∃ copies files,
    dp_disk w' !! final = Some files ∧ total = lengths copies ∧ lengths copies ≤ rq_max_bytes request
    ∧ ∀ i a, gr_artifacts r !! i = Some a → ∃ a' copy, retained !! i = Some a' ∧ copies !! i = Some copy
        ∧ entry_ok r uri relative files metrics i a a' copy.
Proof.
  intros Hdup Hbytes Hbelow Hs. unfold stage_and_commit, try_catch. destruct (bind _ _ w) as [w1 [out|e]] eqn:Hb.
  2:{ intros (? & ? & _ & ?)%bind_ok. done. }
  intros [= -> ->]. apply bind_ok in Hb as (w2 & out & Hloop & Hk). apply bind_ok in Hk as (w3 & [] & Hc & [= -> ->]).
  apply (retain_loop_ok world s r request uri relative) in Hloop; [|done|done|].
  2:{ split; [done|]. exists [], ∅. split_and!; [done|done|done|simpl; lia|]. intros i a Hi. lia. }
  destruct Hloop as [Hlen (copies & files & Hf & Hcopies & Htotal & Hmax & Hall)]. simpl in *.
  apply (commit_ok world s final files) in Hc as (files' & Hf' & Hsame); [|done..].
  split; [done|]. exists copies, files'. split_and!; [done|done|done|].
  intros i a Ha. destruct (Hall i a) as (a' & copy & Ha' & Hcopy & He); [by eapply lookup_lt_Some|done|].
  exists a', copy. split_and!; [done|done|]. by eapply entry_moved.
Qed.

Lemma mkdtemp_fresh final w w' s :
  final ≠ [] → mkdtemp world (prefix_of final) (removelast final) w = (w', Ok s) →
  below s final = false ∧ dp_disk w' !! s = Some ∅.
Proof.
  intros Hne Ht%disk_op_ok. cbv beta zeta in Ht. destruct (_ || _); [done|]. destruct (is_directory _ _); [|done].
  injection Ht as Hd Hs. rewrite <- Hd, Hs, lookup_insert_eq. split; [|done]. rewrite <- Hs. by apply staging_elsewhere.
Qed.
Lemma prefix_of_app p relative : relative ≠ [] → prefix_of relative = prefix_of (p ++ relative).
Proof. intros Hne. unfold prefix_of, base_name. rewrite last_app. by destruct (last relative) eqn:Hl; [|apply last_None in Hl]. Qed.

Lemma retain_all_ok r request w w' artifacts metrics :
  _retain_all world r request w = (w', Ok (artifacts, metrics)) →
  retained_ok r (mkGoblinResult (gr_status r) (gr_data r) artifacts metrics (gr_handoff r) (gr_error r)) request (dp_disk w').
Proof.
  unfold _retain_all. destruct (rq_destination_root request) as [destination|] eqn:Hdest; [|done].
  destruct (rq_uri_root request) as [uri|] eqn:Huri; [|done]. cbv zeta.
  intros (w0 & [] & [Hlimits ->]%raise_if_ok & Hk)%bind_ok.
  apply orb_false_iff in Hlimits as [_ Hbytes]. apply Z.ltb_ge in Hbytes.
  apply bind_ok in Hk as (w0 & [] & [Hcount%Z.ltb_ge ->]%raise_if_ok & Hk).
  apply bind_ok in Hk as (w0 & [] & [Hdup ->]%raise_if_ok & Hk). apply negb_false_iff, bool_decide_eq_true in Hdup.
  apply bind_ok in Hk as (w1 & root & _ & Hk). apply bind_ok in Hk as (w2 & [] & _ & Hk).
  apply bind_ok in Hk as (w3 & [] & _ & Hk). apply bind_ok in Hk as (w4 & [] & _ & Hk).
  rewrite (prefix_of_app (names destination)) in Hk by done.
  apply bind_ok in Hk as (w5 & s & Ht & Hk). apply bind_ok in Hk as (w6 & [] & Hm%change_mode_ok & Hk).
  apply bind_ok in Hk as (w7 & [[retained metrics0] total] & Hout & [= <- <- <-]).
  apply mkdtemp_fresh in Ht as [Hbelow Hs]; [|by destruct (names destination)]. rewrite <- Hm in Hs.
  apply stage_ok in Hout as (Hlen & copies & files & Hf & -> & Hmax & Hall); [|done..].
  split; simpl; [done|by split|]. exists destination, uri, copies, files.
  split_and!; [done..|by rewrite lookup_insert_eq|]. intros i a Ha.
  destruct (Hall i a Ha) as (a' & copy & Ha' & Hc & He). exists a', copy. split_and!; [done|done|].
  eapply entry_moved; [|intros k Hk1 Hk2|exact He]; [intros name b Hb; by exists b|].
  by rewrite !lookup_insert_ne.
Qed.

(** The three outcomes of a retention. *)
Definition retention_outcome (r r' : GoblinResult) (request : ArtifactRetentionRequest) (d : Disk) : Prop :=
  (gr_artifacts r = [] ∧ r' = r)
  ∨ (gr_status r' = ResFailed ∧ gr_artifacts r' = [] ∧ ∀ k v, gr_metrics r' !! k = Some v → starts_with "artifact." k = false)
  ∨ retained_ok r r' request d.
Lemma failure_outcome r reason request d : retention_outcome r (artifact_retention_failure r reason) request d.
Proof. right; left. split_and!; [done|done|]. intros k v Hk. by apply map_lookup_filter_Some in Hk as [_ Hk]. Qed.
Lemma retention_result r r' request w w' :
  retain_result_artifacts world r request w = (w', Ok r') → retention_outcome r r' request (dp_disk w').
Proof.
  unfold retain_result_artifacts. case_bool_decide as Hempty; [intros [= _ <-]; by left|].
  unfold try_catch. destruct (bind _ _ w) as [w1 [r1|e]] eqn:Hb.
  - intros [= -> ->]. apply bind_ok in Hb as (w2 & [artifacts metrics] & Hr & [= <- <-]).
    right; right. by eapply retain_all_ok.
  - destruct (is_retention_error e); [intros [= _ <-]; apply failure_outcome|].
    destruct (caught_os_error e); [intros [= _ <-]; apply failure_outcome|done].
Qed.

(** C17: what a retained result says of its artifacts is true of the bytes kept.  Either
    the worker declared no artifact; or the result is the failure that names no artifact
    and no artifact metric; or the result is the worker's with, for each artifact in its
    order, the same name, a URI of the run's own directory and a valid media type.  Then
    the stored file has the reported SHA-256 digest, which is the one the worker declared
    if it declared any, the reported size is that of the bytes read, and the sizes add up
    to the reported total, within the limits.  (An artifact called [retained] loses its
    own size: the total has the same key.) *)
Theorem retained_artifacts_genuine (r r' : GoblinResult) (request : ArtifactRetentionRequest) (w w' : Depot) :
  retain_result_artifacts world r request w = (w', Ok r') →
  (gr_artifacts r = [] ∧ r' = r)
  ∨ (gr_status r' = ResFailed ∧ gr_artifacts r' = [] ∧ ∀ k v, gr_metrics r' !! k = Some v → starts_with "artifact." k = false)
  ∨ retained_ok r r' request (dp_disk w').
Proof. intros Hr. by apply retention_result in Hr. Qed.
End retained.

(** ** Removing a run removes nothing else *)

(** Compared with [d0], only [target] and empty directories are gone. *)
Definition only_without (target : DirPath) (d0 d : Disk) : Prop :=
  (∀ q files, d0 !! q = Some files → below target q = false → files ≠ ∅ → d !! q = Some files)
  ∧ (∀ q, is_Some (d !! q) → is_Some (d0 !! q)) ∧ (tree_ok d0 → tree_ok d).
Lemma only_without_refl target d : only_without target d d.
Proof. split_and!; [done|done|done]. Qed.

Section cleanup.
Context `{Crypto} `{ArtifactSource} (world : Conditions) (target : DirPath) (d0 : Disk).

Lemma subdirectories_none p d n : subdirectories p d = [] → d !! (p ++ [n]) = None.
Proof.
  intros Hs. apply eq_None_not_Some. intros Hn. apply (filter_nil_not_elem_of _ _ (p ++ [n])) in Hs; [|].
  - apply Hs, elem_of_elements, elem_of_dom, Hn.
  - rewrite below_child, length_app. simpl. by rewrite Nat.add_1_r, Nat.eqb_refl.
Qed.
Lemma within_remove_target : Within (keeps (only_without target d0)) (remove_tree world target).
Proof.
  apply within_disk_op. intros d (Hkeep & Hold & Htree). split_and!.
  - intros q files Hq Hb Hne. apply map_lookup_filter_Some_2; [by apply Hkeep|done].
  - intros q [files Hq]. apply map_lookup_filter_Some in Hq as [Hq _]. apply Hold. by exists files.
  - intros Ht. by apply tree_remove, Htree.
Qed.
Lemma within_remove_empty p : Within (keeps (only_without target d0)) (remove_empty world p).
Proof.
  apply within_disk_op. intros d (Hkeep & Hold & Htree). destruct (d !! p) as [files|] eqn:Hp; [|done].
  destruct (bool_decide (files = ∅) && _) eqn:He; [|done]. apply andb_true_iff in He as [He Hs].
  apply bool_decide_eq_true in He, Hs. subst files. simpl. split_and!.
  - intros q files Hq Hb Hne. rewrite lookup_delete_ne; [by apply Hkeep|]. intros <-.
    rewrite (Hkeep _ _ Hq Hb Hne) in Hp. by injection Hp.
  - intros q Hq. apply Hold. destruct (decide (q = p)) as [->|]; [rewrite lookup_delete_eq in Hq; by destruct Hq|].
    by rewrite lookup_delete_ne in Hq.
  - intros Ht. apply tree_delete; [by apply Htree|]. intros n. by apply subdirectories_none.
Qed.
Lemma within_prune ps : Within (keeps (only_without target d0)) (prune world ps).
Proof.
  induction ps as [|p ps IH]; simpl; [solve_within|]. pose proof (within_remove_empty p). solve_within.
Qed.
End cleanup.

(** Pruning brings nothing back. *)
Definition gone_from (target : DirPath) (d : Disk) : Prop := d !! target = None.
Lemma within_prune_gone `{Crypto} `{ArtifactSource} (world : Conditions) target ps :
  Within (keeps (gone_from target)) (prune world ps).
Proof.
  assert (Hone : ∀ p, Within (keeps (gone_from target)) (remove_empty world p)).
  { intros p. apply within_disk_op. intros d Hd. destruct (d !! p); [|done]. destruct (_ && _); [|done].
    unfold gone_from in *. simpl. destruct (decide (p = target)) as [->|]; [by rewrite lookup_delete_eq|by rewrite lookup_delete_ne]. }
  induction ps as [|p ps IH]; simpl; [solve_within|]. specialize (Hone p). solve_within.
Qed.
(** Cleaning up a run removes its directory and nothing that holds files of another,
    whatever fails on the way; and when the cleanup returns, the directory is gone. *)
Lemma cleanup_spec `{Crypto} `{ArtifactSource} (world : Conditions) uri_root project_id run_id root w w' x :
  _local_retention_root uri_root = Ok root → cleanup_retained_run world uri_root project_id run_id w = (w', x) →
  only_without (names root ++ _retained_directory project_id run_id) (dp_disk w) (dp_disk w')
  ∧ (x = Ok tt → dp_disk w' !! (names root ++ _retained_directory project_id run_id) = None).
Proof.
  intros Hroot. unfold cleanup_retained_run. rewrite bind_lift, Hroot. cbv zeta.
  set (relative := _retained_directory project_id run_id). set (target := names root ++ relative). intros Hc.
  assert (Hw : only_without target (dp_disk w) (dp_disk w)) by apply only_without_refl.
  pose proof (within_remove_target world target (dp_disk w)) as Hrm. pose proof (within_prune world target (dp_disk w)) as Hpr.
  split.
  - revert Hc. match goal with |- ?m w = _ → _ => intros Hc; enough (Hm : Within (keeps (only_without target (dp_disk w))) m) end.
    { specialize (Hm w Hw). by rewrite Hc in Hm. }
    pose proof (λ f : Disk → bool, within_look world (only_without target (dp_disk w)) f). solve_within.
  - intros ->. apply bind_ok in Hc as (w1 & [] & Hl & Hk). apply bind_ok in Hl as (w2 & b & _ & [_ ->]%raise_if_ok).
    apply bind_ok in Hk as (w3 & there & [Hd Hthere]%look_ok & Hk). destruct there.
    + apply bind_ok in Hk as (w4 & b' & _ & Hk). apply bind_ok in Hk as (w5 & [] & [_ ->]%raise_if_ok & Hk).
      apply bind_ok in Hk as (w6 & [] & Hr & Hk).
      pose proof (within_prune_gone world target [names root ++ take 3 relative; names root ++ take 2 relative;
        names root ++ take 1 relative] w6) as Hg. rewrite Hk in Hg. apply Hg. unfold remove_tree in Hr. apply disk_op_ok in Hr. injection Hr as Hr.
      unfold gone_from. rewrite <- Hr. apply map_lookup_filter_None_2. right. intros files _. simpl. by rewrite below_refl.
    + injection Hk as <-. rewrite Hd. symmetry in Hthere. unfold exists_at, is_directory in Hthere.
      apply orb_false_iff in Hthere as [Hthere _]. by destruct (dp_disk w2 !! target).
Qed.
(** ** The copy loop ends *)

Lemma copy_loop_fuel `{Crypto} `{ArtifactSource} (world : Conditions) fd s name remaining n m size copied w :
  (Z.to_nat (remaining - size) + 2 ≤ n)%nat → (Z.to_nat (remaining - size) + 2 ≤ m)%nat →
  copy_loop world n fd s name remaining size copied w = copy_loop world m fd s name remaining size copied w.
Proof.
  revert m size copied w. induction n as [|n IH]; intros m size copied w Hn Hm; [lia|]. destruct m as [|m]; [lia|]. simpl.
  unfold bind at 1 4. destruct (zoom source_lens (read_chunk fd) w) as [w1 [chunk|e]]; [|done].
  destruct chunk as [|c chunk]; [done|]. change (truthy (String c chunk)) with true. cbn [negb].
  set (size' := size + _). rewrite !bind_raise_if. destruct (remaining <? size') eqn:Hlim; [done|]. apply Z.ltb_ge in Hlim.
  unfold bind. destruct (append_file world s name (String c chunk) w1) as [w2 [[]|e]]; [|done].
  apply IH; subst size'; simpl String.length in *; lia.
Qed.
(** Copying an artifact ends: the loop's fuel is never what stops it, whatever the
    worker's file yields, so every larger amount gives the same outcome. *)
Theorem copy_terminates `{Crypto} `{ArtifactSource} (world : Conditions) fd s name remaining n w :
  (copy_fuel remaining ≤ n)%nat →
  copy_loop world n fd s name remaining 0 EmptyString w = copy_loop world (copy_fuel remaining) fd s name remaining 0 EmptyString w.
Proof. unfold copy_fuel. intros Hn. apply copy_loop_fuel; rewrite Z.sub_0_r; lia. Qed.

(** ** Runs of the definitions *)

(** A worker with one file, and a volume that works. *)
Definition one_file (body : string) : ArtifactSource := {|
  source := string;
  resolve_strict := λ p, ret p;
  lstat_link := λ _, ret false;
  stat_file := λ _, ret (mkStat true 1 2 (Z.of_nat (String.length body)) 3 4);
  open_nofollow := λ _ _ _, (body, Ok 7);
  fstat := λ _, ret (mkStat true 1 2 (Z.of_nat (String.length body)) 3 4);
  read_chunk := λ _ rest, (EmptyString, Ok rest);
  is_os_error := λ _, false; is_not_found := λ _, false
|}.
Definition calm : Conditions := mkConditions (λ _, false) None (λ _, "x1") (λ _, Some "text/plain").
Definition report_request (max_bytes : Z) : ArtifactRetentionRequest :=
  mkRetentionRequest (parse_path "/artifacts") (Some (parse_path "/volume")) (Some "/data/artifacts") "r1" (Some "p1") 10 max_bytes.
Definition report_result (uri name : string) : GoblinResult :=
  GoblinResult_ok ∅ [mkArtifact name uri None] {[ "artifact.report.txt.bytes" := JInt 5; "rows" := JInt 3 ]} [].
Definition run_report (body uri name : string) (max_bytes : Z) (disk : Disk) :=
  retain_result_artifacts (H := plain_crypto) (H0 := one_file body) calm (report_result uri name) (report_request max_bytes)
    (@mkDepot (one_file body) EmptyString disk 0).
Definition old_run : Disk := <[["volume"; "old"] := {[ "a" := LFile "kept" ]}]> (<[["volume"] := ∅]> {[ [] := ∅ ]}).

(** One report is retained; one byte too many, or bytes other than declared, is a failure
    that leaves nothing but empty directories; a URI with half a bracket pair is not
    caught: [ValueError] is neither of the exceptions [retain_result_artifacts] expects. *)
Definition summary (x : result GoblinResult) : string + exn :=
  match x with Ok r => inl (default "retained" (gr_error r)) | Err e => inr e end.
Example report_runs :
  (summary (run_report "hello" "file:///artifacts/report.txt" "report.txt" 100 old_run).2,
   summary (run_report "hello" "report.txt" "report.txt" 4 old_run).2,
   summary (run_report "hell" "report.txt" "report.txt" 100 old_run).2,
   summary (run_report "hello" "/etc/passwd" "report.txt" 100 old_run).2)
  = (inl "retained", inl "artifact retention failed: artifact bytes exceed policy",
     inl "artifact retention failed: artifact 'report.txt' byte count does not match its metadata",
     inl "artifact retention failed: artifact 'report.txt' is missing or outside the worker artifact root").
Proof. vm_compute. reflexivity. Qed.
Example malformed_uri_escapes :
  (run_report "hello" "file://[" "report.txt" 100 old_run).2 = Err (ValueError "Invalid IPv6 URL").
Proof. vm_compute. reflexivity. Qed.
(** An artifact called [retained] reports the total as its size. *)
Example retained_name_collides :
  bytes_key "retained" = "artifact.retained.bytes".
Proof. reflexivity. Qed.

Lemma copy_terminates_witness :
  copy_loop (H0 := one_file "hello") calm 50 7 ["volume"] "a" 5 0 EmptyString (@mkDepot (one_file "hello") "hello" {[ ["volume"] := {[ "a" := LFile EmptyString ]} ]} 0)
  = copy_loop (H0 := one_file "hello") calm (copy_fuel 5) 7 ["volume"] "a" 5 0 EmptyString (@mkDepot (one_file "hello") "hello" {[ ["volume"] := {[ "a" := LFile EmptyString ]} ]} 0).
Proof. apply (copy_terminates (H := plain_crypto) (H0 := one_file "hello")). unfold copy_fuel. simpl. lia. Defined.
Definition retained_report := run_report "hello" "report.txt" "report.txt" 100 old_run.
Lemma retained_artifacts_genuine_witness :
  ∃ w' r', retained_report = (w', Ok r')
  ∧ retained_ok (H := plain_crypto) (report_result "report.txt" "report.txt") r' (report_request 100) (dp_disk w').
Proof.
  assert (Hok : match retained_report.2 with Ok r' => match gr_artifacts r' with [] => false | _ => true end | Err _ => false end = true)
    by (vm_compute; reflexivity).
  destruct retained_report as [w' [r'|e]] eqn:Hr; [|discriminate Hok]. unfold retained_report, run_report in Hr.
  exists w', r'. split; [reflexivity|]. simpl in Hok.
  destruct (retained_artifacts_genuine (H := plain_crypto) (H0 := one_file "hello") calm _ _ _ _ _ Hr) as [[Ha _]|[(_ & Ha & _)|Hkept]];
    [discriminate Ha|by rewrite Ha in Hok|exact Hkept].
Defined.
Lemma old_run_tree : tree_ok old_run.
Proof.
  apply tree_insert_new; [|reflexivity]. apply tree_insert_new; [|reflexivity].
  intros p n [files Hf]. apply lookup_singleton_Some in Hf as [Hp _]. by destruct p.
Qed.
Lemma retention_only_adds_witness :
  tree_ok old_run ∧ let w' := (run_report "hello" "report.txt" "report.txt" 100 old_run).1 in
  dp_disk w' !! ["volume"; "old"] = Some {[ "a" := LFile "kept" ]}.
Proof.
  split; [exact old_run_tree|].
  pose proof (retention_only_adds (H := plain_crypto) (H0 := one_file "hello") calm (report_result "report.txt" "report.txt")
    (report_request 100) (@mkDepot (one_file "hello") EmptyString old_run 0) old_run_tree) as [Hsub _].
  eapply lookup_weaken; [|exact Hsub]. reflexivity.
Defined.
