(* ===== verification/KubeForwarder.v ===== *)
(** * The result forwarder ([kubernetes_result_forwarder.py])

    The sidecar of a worker's Pod: it waits for the result file, retains the artifacts it
    declares ([KubeArtifacts]) and only then publishes the result in Redis; and the
    script that runs in its place where no retention is configured.  What a look at the
    result file finds, the clock, Redis and the JSON codec are the class
    [ForwarderHost]. *)

From S2P Require Import Prelude CausalTime Contracts Text Paths PyValues ResourcePolicies Containers Auth Bundles Urls KubeSettings KubeArtifacts.

(** What the n-th look at the result file finds: nothing, an unreadable file, or a text. *)
Inductive ResultFile := Missing | Unreadable (e : exn) | Written (text : string).
Record Publication := mkPublication { pb_url : string; pb_key : string; pb_value : string; pb_expires : Z }.

(** How a SET ends: stored; refused before it was; or stored with its reply lost. *)
Inductive SetReply := SetStored | SetRefused (e : exn) | SetReplyLost (e : exn).

Class ForwarderHost := {
  (** [time.monotonic] in milliseconds, by the count of its readings *)
  monotonic_ms : nat → Z;
  result_file : nat → ResultFile;
  result_loads : string → result GoblinResult;   (* GoblinResult.model_validate_json *)
  result_dumps : GoblinResult → string;          (* model_dump_json *)
  script_loads : string → result Json;           (* json.loads *)
  redis_reply : string → SetReply                (* SET at a URL *)
}.

Record Forwarder `{ArtifactSource} := mkForwarder {
  fw_readings : nat; fw_looks : nat; fw_published : list Publication; fw_depot : Depot
}.
Arguments mkForwarder {_} fw_readings fw_looks fw_published fw_depot.

Record ResultForwarderSettings := mkForwarderSettings {
  fs_run_id : string; fs_redis_url : string; fs_result_path : PosixPath; fs_wait_seconds : Z
}.
Definition required (values : string → option string) (key : string) : result string :=
  match values key with Some v => Ok v | None => Err (KeyError key) end.
Definition settings_from_environment (values : string → option string) : result ResultForwarderSettings :=
  let? wait_seconds := py_int_text (default "300" (values "GOBLIN_RESULT_WAIT_SECONDS")) in
  if wait_seconds <=? 0 then Err (ValueError "GOBLIN_RESULT_WAIT_SECONDS must be positive")
  else
    let? run_id := required values "GOBLIN_RUN_ID" in
    let? redis_url := required values "GOBLIN_REDIS_URL" in
    let? path := required values "GOBLIN_RESULT_PATH" in
    Ok (mkForwarderSettings run_id redis_url (parse_path path) wait_seconds).

Section forwarder.
Context `{Crypto} `{ArtifactSource} `{ForwarderHost} (world : Conditions).

Definition depot_lens : lens Forwarder Depot :=
  Lens fw_depot (λ d f, mkForwarder (fw_readings f) (fw_looks f) (fw_published f) d).
Definition monotonic : M Forwarder Z := λ f,
  (mkForwarder (S (fw_readings f)) (fw_looks f) (fw_published f) (fw_depot f), Ok (monotonic_ms (fw_readings f))).
Definition look_at_result : M Forwarder ResultFile := λ f,
  (mkForwarder (fw_readings f) (S (fw_looks f)) (fw_published f) (fw_depot f), Ok (result_file (fw_looks f))).
Definition redis_set (url key value : string) (expires : Z) : M Forwarder unit := λ f,
  let stored := mkForwarder (fw_readings f) (fw_looks f) (fw_published f ++ [mkPublication url key value expires]) (fw_depot f) in
  match redis_reply url with
  | SetStored => (stored, Ok tt)
  | SetRefused e => (f, Err e)
  | SetReplyLost e => (stored, Err e)
  end.

(** ** Waiting *)

Definition RuntimeError (msg : string) : exn := OtherException "RuntimeError" msg.
(** [except (ValueError, OSError)] around the reading and the parsing of the file *)
Definition read_result (file : ResultFile) : result (option GoblinResult) :=
  match file with
  | Missing => Ok None
  | Unreadable e => if is_value_error e || caught_os_error e then Ok None else Err e
  | Written text => match result_loads text with
                    | Ok r => Ok (Some r)
                    | Err e => if is_value_error e || caught_os_error e then Ok None else Err e
                    end
  end.
(** The loop; [None] when the fuel is spent.  [time.sleep(0.25)] shows in the readings. *)
Fixpoint wait_turns (fuel : nat) (deadline : Z) (failed : bool) : M Forwarder (option GoblinResult) :=
  match fuel with
  | O => ret None
  | S fuel =>
      let* now := monotonic in
      if now <? deadline then
        let* file := look_at_result in
        let* o := lift_result (read_result file) in
        match o with
        | Some r => ret (Some r)
        | None => wait_turns fuel deadline (failed || match file with Missing => false | _ => true end)
        end
      else raise (RuntimeError (if failed then "result file did not become a valid result envelope before timeout"
                                else "result file was not created before timeout"))
  end.
(** Four turns a second, and the turn that finds the time over. *)
Definition wait_turns_fuel (wait_seconds : Z) : nat := S (Z.to_nat (4 * wait_seconds)).
Definition wait_for_result (wait_seconds : Z) : M Forwarder GoblinResult :=
  let* started := monotonic in
  let* o := wait_turns (wait_turns_fuel wait_seconds) (started + 1000 * wait_seconds) false in
  match o with Some r => ret r | None => raise OutOfFuel end.

(** ** Forwarding *)

Definition retained_result (r : GoblinResult) (run_id : string) (environ : string → option string)
    : M Forwarder GoblinResult :=
  match request_from_environment run_id environ with
  | Err e => if is_value_error e then ret (artifact_retention_failure r (exn_str e)) else raise e
  | Ok request => zoom depot_lens (retain_result_artifacts world r request)
  end.
Definition forward_result (settings : ResultForwarderSettings) (environ : string → option string)
    : M Forwarder GoblinResult :=
  let* r := wait_for_result (fs_wait_seconds settings) in
  let* r := retained_result r (fs_run_id settings) environ in
  do* redis_set (fs_redis_url settings) (forwarded_result_key (fs_run_id settings)) (result_dumps r) 3600 in
  ret r.
(** [main] *)
Definition forwarder_main (environ : string → option string) : M Forwarder GoblinResult :=
  let* settings := lift_result (settings_from_environment environ) in forward_result settings environ.

(** ** The script without retention ([RESULT_FORWARDER_SCRIPT]) *)

Definition attribute_error (j : Json) (name : string) : exn :=
  OtherException "AttributeError" (py_str j +:+ " object has no attribute " +:+ py_repr name).
(** A result that declares artifacts is rewritten as a failure. *)
Definition without_artifacts (o : list (string * Json)) : result string :=
  let reason := "artifact retention failed: durable Kubernetes artifact storage is not configured" in
  let previous := default JNull (obj_get o "error") in
  let o := obj_set o "status" (JStr "failed") in
  let o := obj_set o "error" (JStr (if py_truthy previous then py_str previous +:+ "; " +:+ reason else reason)) in
  let o := obj_set o "artifacts" (JList []) in
  match default (JObj []) (obj_get o "metrics") with
  | JObj metrics =>
      Ok (json_compact (JObj (obj_set o "metrics" (JObj (filter (λ kv, starts_with "artifact." kv.1 = false) metrics)))))
  | other => Err (attribute_error other "items")
  end.
Definition script_result (raw : string) : result string :=
  let? j := script_loads raw in
  match j with
  | JObj o => if py_truthy (default JNull (obj_get o "artifacts")) then without_artifacts o else Ok raw
  | other => Err (attribute_error other "get")
  end.
Definition SystemExit (msg : string) : exn := OtherException "SystemExit" msg.
Fixpoint script_turns (fuel : nat) (run_id redis_url result_path : string) (deadline : Z) : M Forwarder unit :=
  match fuel with
  | O => raise OutOfFuel
  | S fuel =>
      let* now := monotonic in
      if now <? deadline then
        let* file := look_at_result in
        match file with
        | Missing => script_turns fuel run_id redis_url result_path deadline
        | Unreadable e => raise e
        | Written raw =>
            let* value := lift_result (script_result raw) in
            redis_set redis_url (worker_result_key run_id) value 3600
        end
      else raise (SystemExit ("result file not found before timeout: " +:+ as_posix (parse_path result_path)))
  end.
Definition run_forwarder_script (values : string → option string) : M Forwarder unit :=
  let* run_id := lift_result (required values "GOBLIN_RUN_ID") in
  let* redis_url := lift_result (required values "GOBLIN_REDIS_URL") in
  let* path := lift_result (required values "GOBLIN_RESULT_PATH") in
  let* wait_seconds := lift_result (py_int_text (default "300" (values "GOBLIN_RESULT_WAIT_SECONDS"))) in
  let* started := monotonic in
  script_turns (wait_turns_fuel wait_seconds) run_id redis_url path (started + 1000 * wait_seconds).
End forwarder.

(** ** The wait ends *)

Section waiting.
Context `{Crypto} `{ArtifactSource} `{ForwarderHost}.

(** From the reading [n] on, the clock does not go back, and between two turns of the
    loop, that is from the next reading on, a quarter of a second passes. *)
Definition sleeps_from (n : nat) : Prop :=
  monotonic_ms n ≤ monotonic_ms (S n) ∧ ∀ i, (n < i)%nat → monotonic_ms i + 250 ≤ monotonic_ms (S i).

Lemma wait_turns_end fuel deadline failed f n :
  sleeps_from n → (n < fw_readings f)%nat → (0 < fuel)%nat →
  deadline - monotonic_ms (fw_readings f) ≤ 250 * (Z.of_nat fuel - 1) → (wait_turns fuel deadline failed f).2 ≠ Ok None.
Proof.
  intros [_ Hsleep]. revert failed f. induction fuel as [|fuel IH]; intros failed f Hn Hfuel Hleft; [lia|]. cbn [wait_turns].
  unfold bind at 1. simpl. destruct (Z.ltb_spec (monotonic_ms (fw_readings f)) deadline); [|done].
  unfold bind. simpl. destruct (read_result _) as [[r|]|e]; [done| |done].
  destruct fuel as [|fuel]; [lia|]. specialize (Hsleep (fw_readings f) Hn). apply IH; simpl; lia.
Qed.
(** The forwarder's wait ends.  If sleeping takes its time and the clock does not go
    back, the loop returns a result or raises before its fuel, four turns a second and
    one, is spent, whatever it finds at the place of the result file. *)
Theorem forwarder_wait_ends (wait_seconds : Z) (f : Forwarder) :
  sleeps_from (fw_readings f) → 0 ≤ wait_seconds →
  (wait_turns (wait_turns_fuel wait_seconds) (monotonic_ms (fw_readings f) + 1000 * wait_seconds) false (monotonic f).1).2 ≠ Ok None.
Proof.
  intros Hs Hw. pose proof (proj1 Hs). eapply wait_turns_end; [exact Hs|simpl; lia|unfold wait_turns_fuel; lia|].
  unfold wait_turns_fuel. simpl fw_readings. lia.
Qed.
End waiting.

(** ** What is published *)

Section publishing.
Context `{Crypto} `{ArtifactSource} `{ForwarderHost} (world : Conditions).

Definition same_published (f f' : Forwarder) : Prop := fw_published f' = fw_published f.
#[export] Instance same_published_preorder : PreOrder same_published.
Proof. split; unfold same_published; [by intros f|intros f1 f2 f3; congruence]. Qed.
#[local] Instance within_monotonic : Within same_published monotonic.
Proof. by intros f. Qed.
#[local] Instance within_look_at : Within same_published look_at_result.
Proof. by intros f. Qed.
#[local] Instance within_depot {A : Type} (m : M Depot A) : Within same_published (zoom depot_lens m).
Proof. intros f. by rewrite zoom_eq. Qed.
#[local] Instance within_wait_turns fuel deadline failed : Within same_published (wait_turns fuel deadline failed).
Proof. revert failed. induction fuel as [|fuel IH]; intros failed; simpl; solve_within. Qed.
#[local] Instance within_wait wait_seconds : Within same_published (wait_for_result wait_seconds).
Proof. unfold wait_for_result. solve_within. Qed.
#[local] Instance within_retained r run_id environ : Within same_published (retained_result world r run_id environ).
Proof. unfold retained_result. solve_within. Qed.

Definition read_by_now (f : Forwarder) (r : GoblinResult) : Prop :=
  ∃ n text, (n < fw_looks f)%nat ∧ result_file n = Written text ∧ result_loads text = Ok r.
Lemma wait_turns_read fuel deadline failed f f' r :
  wait_turns fuel deadline failed f = (f', Ok (Some r)) → read_by_now f' r.
Proof.
  revert failed f. induction fuel as [|fuel IH]; intros failed f; simpl; [done|]. unfold bind at 1. simpl.
  destruct (_ <? deadline); [|done]. unfold bind. simpl.
  destruct (read_result (result_file (fw_looks f))) as [[r'|]|e] eqn:Hr; [| |done].
  - intros [= <- <-]. unfold read_by_now. simpl. exists (fw_looks f).
    destruct (result_file (fw_looks f)) as [|e|text] eqn:Hf; simpl in Hr; [done|by destruct (_ || _)|].
    exists text. destruct (result_loads text) as [r|e]; [|by destruct (_ || _)]. injection Hr as <-. split_and!; [lia|done|done].
  - apply IH.
Qed.
Lemma retained_result_outcome r run_id environ f f' r' :
  retained_result world r run_id environ f = (f', Ok r') →
  (∃ e, request_from_environment run_id environ = Err e ∧ r' = artifact_retention_failure r (exn_str e))
  ∨ ∃ request, request_from_environment run_id environ = Ok request ∧ retention_outcome r r' request (dp_disk (fw_depot f')).
Proof.
  unfold retained_result. destruct (request_from_environment run_id environ) as [request|e].
  - rewrite zoom_eq. intros [= <- Hr]. right. exists request. split; [done|].
    apply (retention_result world r r' request (fw_depot f)). simpl. by rewrite <- Hr, <- surjective_pairing.
  - destruct (is_value_error e); [|done]. intros [= _ <-]. left. by exists e.
Qed.

(** What may be published for a run: the JSON of what became of a result that was read from the
    file, either the failure that says that the settings are wrong, or one of the three
    outcomes of a retention on the volume as it is. *)
Definition forwarded (settings : ResultForwarderSettings) (environ : string → option string) (f : Forwarder) (r' : GoblinResult) : Prop :=
  ∃ r, read_by_now f r ∧
    ((∃ e, request_from_environment (fs_run_id settings) environ = Err e ∧ r' = artifact_retention_failure r (exn_str e))
     ∨ ∃ request, request_from_environment (fs_run_id settings) environ = Ok request
         ∧ retention_outcome r r' request (dp_disk (fw_depot f))).
Definition publication (settings : ResultForwarderSettings) (r : GoblinResult) : Publication :=
  mkPublication (fs_redis_url settings) (forwarded_result_key (fs_run_id settings)) (result_dumps r) 3600.

(** C19: the forwarder publishes at most one result, and only after its artifacts are dealt with.
    If it returns, the last thing it did was to publish one text, for an hour, under the
    run's key for forwarded results: the JSON of what became of a result it had read
    from the file, either the failure that says that the settings are wrong, or one of
    the three outcomes of a retention on the volume as it is then.  If it raises,
    nothing was published, or such a text was and only Redis's reply was lost. *)
Theorem forwarder_publishes (settings : ResultForwarderSettings) (environ : string → option string) (f f' : Forwarder) (x : result GoblinResult) :
  forward_result world settings environ f = (f', x) →
  match x with
  | Ok r' => fw_published f' = fw_published f ++ [publication settings r'] ∧ forwarded settings environ f' r'
  | Err e => fw_published f' = fw_published f
      ∨ redis_reply (fs_redis_url settings) = SetReplyLost e
        ∧ ∃ r', fw_published f' = fw_published f ++ [publication settings r'] ∧ forwarded settings environ f' r'
  end.
Proof.
  unfold forward_result. unfold bind at 1. pose proof (within_wait (fs_wait_seconds settings) f) as Hp1.
  destruct (wait_for_result (fs_wait_seconds settings) f) as [f1 [r|e]] eqn:Hwait; [|by intros [= <- <-]; left].
  unfold bind at 1. pose proof (within_retained r (fs_run_id settings) environ f1) as Hp2.
  assert (Hlooks : fw_looks (retained_result world r (fs_run_id settings) environ f1).1 = fw_looks f1).
  { unfold retained_result. destruct (request_from_environment _ _) as [q|e]; [by rewrite zoom_eq|by destruct (is_value_error e)]. }
  destruct (retained_result world r (fs_run_id settings) environ f1) as [f2 [r2|e]] eqn:Hret; unfold same_published in *; simpl in *.
  2:{ intros [= <- <-]. left. congruence. }
  assert (forwarded settings environ
    (mkForwarder (fw_readings f2) (fw_looks f2) (fw_published f2 ++ [publication settings r2]) (fw_depot f2)) r2) as Hout.
  { exists r. split; [|by apply retained_result_outcome in Hret].
    unfold wait_for_result in Hwait. apply bind_ok in Hwait as (f0 & started & Hm & Hk).
    apply bind_ok in Hk as (f3 & [r0|] & Hturns & Hk); [|done]. injection Hk as -> ->.
    apply wait_turns_read in Hturns as (n & text & Hn & Hfile). exists n, text. simpl. by rewrite Hlooks. }
  unfold bind, redis_set. destruct (redis_reply _) as [|e|e] eqn:Hreply; intros [= <- <-]; simpl.
  - split; [by rewrite Hp2, Hp1|done].
  - left. congruence.
  - right. split; [done|]. exists r2. split; [by rewrite Hp2, Hp1|done].
Qed.
End publishing.

(** ** Without retention no artifact is named *)

Record stripped (o : list (string * Json)) : Prop := {
  sp_status : obj_get o "status" = Some (JStr "failed");
  sp_artifacts : obj_get o "artifacts" = Some (JList []);
  sp_metrics : ∃ metrics, obj_get o "metrics" = Some (JObj metrics) ∧ ∀ k v, (k, v) ∈ metrics → starts_with "artifact." k = false
}.
(** The script that runs without retention publishes the worker's text as it is when
    it declares no artifact, and else the JSON of a failure with no artifact and no
    artifact metric. *)
Theorem script_names_no_artifact `{ForwarderHost} (raw value : string) :
  script_result raw = Ok value → ∃ o, script_loads raw = Ok (JObj o)
  ∧ ((py_truthy (default JNull (obj_get o "artifacts")) = false ∧ value = raw)
     ∨ ∃ o', stripped o' ∧ value = json_compact (JObj o')).
Proof.
  unfold script_result. intros (j & Hj & Hv)%result_bind_ok. destruct j as [| | | | |o]; try done.
  exists o. split; [done|]. destruct (py_truthy _); [|injection Hv as <-; by left]. right.
  unfold without_artifacts in Hv. destruct (default (JObj []) _) as [| | | | |metrics]; try done. injection Hv as <-.
  eexists. split; [|done]. split; rewrite !obj_get_set; [done|done|].
  exists (filter (λ kv, starts_with "artifact." kv.1 = false) metrics). split; [done|].
  intros k v Hkv. by apply list_elem_of_filter in Hkv as [Hk _].
Qed.

(** ** Runs of the definitions *)

(** A host whose clock ticks a quarter of a second per reading; the file appears half
    written at the third look, and whole at the fourth. *)
Definition late_host (uri : string) : ForwarderHost := {|
  monotonic_ms := λ n, 250 * Z.of_nat n;
  result_file := λ n, if Nat.ltb n 2 then Missing else if Nat.eqb n 2 then Written "{" else Written "{}";
  result_loads := λ t, if String.eqb t "{}" then Ok (report_result uri "report.txt") else Err (ValidationError "Invalid JSON");
  result_dumps := λ r, default "ok" (gr_error r);
  script_loads := λ t, if String.eqb t "{" then Err (JSONDecodeError "Expecting property name") else
    Ok (JObj [("error", JStr "tired"); ("artifacts", JList [JObj []]); ("metrics", JObj [("artifact.a.bytes", JInt 3); ("rows", JInt 1)])]);
  redis_reply := λ _, SetStored
|}.
Definition pod_environment : string → option string := λ key,
  (list_to_map [("GOBLIN_RUN_ID", "r1"); ("GOBLIN_REDIS_URL", "redis://r"); ("GOBLIN_RESULT_PATH", "/result/result.json");
    ("GOBLIN_RESULT_WAIT_SECONDS", "5"); ("GOBLIN_ARTIFACT_DESTINATION_ROOT", "/volume");
    ("GOBLIN_KING_K8S_ARTIFACT_URI_ROOT", "/data/artifacts"); ("GOBLIN_ARTIFACT_MAX_BYTES", "100")] : gmap string string) !! key.
Definition start_forwarder : @Forwarder (one_file "hello") := @mkForwarder (one_file "hello") 0 0 [] (@mkDepot (one_file "hello") EmptyString old_run 0).
Definition forward_late (uri : string) :=
  forwarder_main (H := plain_crypto) (H0 := one_file "hello") (H1 := late_host uri) calm pod_environment start_forwarder.

(** The half-written file is read again; the script in its place stops there, and the
    worker's result never reaches Redis.  A malformed artifact URI stops the forwarder. *)
Example forwards_late : fw_published (forward_late "report.txt").1 =
  [mkPublication "redis://r" "goblin-king:forwarded-results:r1" "ok" 3600].
Proof. vm_compute. reflexivity. Qed.
Example malformed_uri_unpublished :
  let out := forward_late "file://[" in fw_published out.1 = [] ∧ out.2 = Err (ValueError "Invalid IPv6 URL").
Proof. vm_compute. done. Qed.
Example script_reads_once :
  let out := run_forwarder_script (H0 := one_file "hello") (H1 := late_host "report.txt") pod_environment start_forwarder in
  fw_published out.1 = [] ∧ out.2 = Err (JSONDecodeError "Expecting property name").
Proof. vm_compute. done. Qed.

Lemma forwarder_wait_ends_witness :
  let f := start_forwarder in
  (wait_turns (H0 := one_file "hello") (H1 := late_host "report.txt") (wait_turns_fuel 5) (0 + 1000 * 5) false (monotonic (H0 := one_file "hello") (H1 := late_host "report.txt") f).1).2 ≠ Ok None.
Proof.
  intros f. apply (forwarder_wait_ends (H0 := one_file "hello") (H1 := late_host "report.txt") 5 f); [|lia].
  split; simpl; intros; lia.
Defined.
Definition publish_late :=
  forward_result (H := plain_crypto) (H0 := one_file "hello") (H1 := late_host "report.txt") calm
    (mkForwarderSettings "r1" "redis://r" (parse_path "/r") 5) pod_environment start_forwarder.
Lemma forwarder_publishes_witness :
  is_ok publish_late.2 = true ∧ length (fw_published publish_late.1) = 1%nat.
Proof.
  assert (Hok : is_ok publish_late.2 = true) by (vm_compute; reflexivity). split; [exact Hok|].
  destruct publish_late as [f' x] eqn:Hf. unfold publish_late in Hf.
  pose proof (forwarder_publishes (H := plain_crypto) (H0 := one_file "hello") (H1 := late_host "report.txt") calm _ _ _ _ _ Hf) as Hp.
  destruct x as [r'|e]; [|discriminate Hok]. destruct Hp as [Hp _]. cbn [fst]. rewrite Hp. reflexivity.
Defined.
Lemma script_names_no_artifact_witness :
  ∃ value o, script_loads (ForwarderHost := late_host "report.txt") "x" = Ok (JObj o)
  ∧ script_result (H1 := late_host "report.txt") "x" = Ok value ∧ (∃ o', stripped o' ∧ value = json_compact (JObj o')).
Proof.
  destruct (script_result (H1 := late_host "report.txt") "x") as [value|e] eqn:Hs; [|vm_compute in Hs; discriminate].
  destruct (script_names_no_artifact (H := late_host "report.txt") _ _ Hs) as (o & Ho & [[Ht _]|Hok]).
  - injection Ho as <-. by vm_compute in Ht.
  - by exists value, o.
Defined.
