(* ===== verification/RunEvents.v ===== *)
(** * Worker-authored run events ([run_events.py])

    A worker publishes progress and text on its own run's stream, the control plane
    replays them.  The publisher bounds each event, the rate and the stream; the reader
    trusts nothing it finds there, for any worker can write to its stream directly.
    Redis is the class [RunEventRedis]: the commands both send, with what the publisher
    relies on as laws. *)

From Stdlib Require Import Ascii.
From S2P Require Import Prelude CausalTime Contracts Text PyValues Containers.

Definition DEFAULT_RUN_EVENT_MAX_EVENTS : Z := 256.
Definition DEFAULT_RUN_EVENT_MAX_PAYLOAD_BYTES : Z := 4 * 1024.
Definition DEFAULT_RUN_EVENT_MIN_INTERVAL_MS : Z := 50.
Definition DEFAULT_RUN_EVENT_TTL_SECONDS : Z := 60 * 60.
Definition MAX_RUN_EVENT_READ_LIMIT : Z := 256.
Definition RUN_EVENT_TYPES : list string := ["progress"; "stdout"; "stderr"; "message"].

Definition RunEventError (msg : string) : exn := OtherValueError "RunEventError" msg.
Definition RunEventTransportError (msg : string) : exn := OtherException "RunEventTransportError" msg.
Definition is_run_event_error (e : exn) : bool :=
  match e with OtherValueError n _ => String.eqb n "RunEventError" | _ => false end.
Definition is_transport_error (e : exn) : bool :=
  match e with OtherException n _ => String.eqb n "RunEventTransportError" | _ => false end.
Definition transport_unavailable : exn := RunEventTransportError "run event transport is unavailable".

(** ** Payload text: [json.dumps(..., separators=(",", ":"), ensure_ascii=False)] *)

Definition raw_char (c : ascii) : string :=
  if Nat.leb 127 (nat_of_ascii c) then String c EmptyString else json_char c.
Definition raw_quote (s : string) : string :=
  let dq := ascii_of_nat 34 in
  String dq (foldr (λ c acc, raw_char c +:+ acc) (String dq EmptyString) (chars s)).
Fixpoint json_raw (j : Json) : string :=
  match j with
  | JNull => "null"
  | JBool b => if b then "true" else "false"
  | JInt z => pretty z
  | JStr s => raw_quote s
  | JList l => "[" +:+ py_join "," (map json_raw l) +:+ "]"
  | JObj o => "{" +:+ py_join "," (map (λ kv, raw_quote kv.1 +:+ ":" +:+ json_raw kv.2) o) +:+ "}"
  end.
Definition byte_size (s : string) : Z := Z.of_nat (String.length s).
Definition payload_size (payload : list (string * Json)) : Z := byte_size (json_raw (JObj payload)).

(** [RunEventEnvelope] of [contracts.py] *)
Record RunEventEnvelope := mkRunEvent {
  ev_sequence : Z; ev_created_at : utc; ev_event_type : string; ev_run_id : string; ev_payload : list (string * Json)
}.
Definition envelope_ok (e : RunEventEnvelope) : bool :=
  (1 <=? ev_sequence e) && bool_decide (ev_event_type e ∈ RUN_EVENT_TYPES) && truthy (ev_run_id e).

Class RunEventRedis := {
  server : Type;
  (** SET key 1 NX PX ms; INCR key *)
  set_nx_px : string → Z → M server bool;
  incr : string → M server Z;
  (** the transaction XADD stream MAXLEN = n, EXPIRE stream ttl, EXPIRE sequence ttl *)
  xadd_expire : string → string → Z → string → Z → M server unit;
  (** XRANGE stream - + COUNT n: ids and "event" fields *)
  run_xrange : string → Z → M server (list (string * option string));
  redis_error : exn → bool;
  (** [model_dump_json] and [model_validate_json] of the envelope *)
  envelope_json : RunEventEnvelope → string;
  parse_envelope : string → result RunEventEnvelope
}.

(** ** The publisher *)

Record RunEventPublisher := mkPublisher {
  pb_run_id : string; pb_stream : string; pb_sequence_key : string; pb_rate_key : string;
  pb_max_events : Z; pb_max_payload_bytes : Z; pb_min_interval_ms : Z; pb_ttl_seconds : Z
}.
Definition in_range (low high n : Z) : bool := (low <=? n) && (n <=? high).
(** the constructor's checks, in order *)
Definition publisher (p : RunEventPublisher) : result RunEventPublisher :=
  if negb (in_range 1 DEFAULT_RUN_EVENT_MAX_EVENTS (pb_max_events p))
  then Err (RunEventError ("max_events must be between 1 and " +:+ pretty DEFAULT_RUN_EVENT_MAX_EVENTS))
  else if negb (in_range 1 DEFAULT_RUN_EVENT_MAX_PAYLOAD_BYTES (pb_max_payload_bytes p))
  then Err (RunEventError ("max_payload_bytes must be between 1 and " +:+ pretty DEFAULT_RUN_EVENT_MAX_PAYLOAD_BYTES))
  else if negb (in_range DEFAULT_RUN_EVENT_MIN_INTERVAL_MS 60000 (pb_min_interval_ms p))
  then Err (RunEventError ("min_interval_ms must be at least " +:+ pretty DEFAULT_RUN_EVENT_MIN_INTERVAL_MS))
  else if negb (in_range 1 DEFAULT_RUN_EVENT_TTL_SECONDS (pb_ttl_seconds p))
  then Err (RunEventError ("ttl_seconds must be between 1 and " +:+ pretty DEFAULT_RUN_EVENT_TTL_SECONDS))
  else Ok p.

Definition required (values : string → option string) (name : string) : result string :=
  match values name with Some v => Ok v | None => Err (KeyError name) end.
Definition matches (key actual expected : string) : result unit :=
  if bool_decide (actual = expected) then Ok tt else Err (RunEventError (key +:+ " does not match GOBLIN_RUN_ID")).
Definition int_setting (values : string → option string) (name : string) : result Z :=
  let? v := required values name in py_int_text v.
Definition from_environment (values : string → option string) : result RunEventPublisher :=
  let? version := required values "GOBLIN_RUN_EVENT_CONTRACT_VERSION" in
  if negb (bool_decide (version = WORKER_RUN_EVENT_CONTRACT_VERSION))
  then Err (RunEventError ("unsupported run event contract: " +:+ version))
  else
    let? run_id := required values "GOBLIN_RUN_ID" in
    let? stream := required values "GOBLIN_RUN_EVENT_STREAM" in
    let? sequence_key := required values "GOBLIN_RUN_EVENT_SEQUENCE_KEY" in
    let? rate_key := required values "GOBLIN_RUN_EVENT_RATE_KEY" in
    let? redis_url := required values "GOBLIN_RUN_EVENT_REDIS_URL" in
    let? _ := matches "GOBLIN_RUN_EVENT_STREAM" stream (run_event_stream_key run_id) in
    let? _ := matches "GOBLIN_RUN_EVENT_SEQUENCE_KEY" sequence_key (run_event_sequence_key run_id) in
    let? _ := matches "GOBLIN_RUN_EVENT_RATE_KEY" rate_key (run_event_rate_key run_id) in
    let? max_events := int_setting values "GOBLIN_RUN_EVENT_MAX_EVENTS" in
    let? max_payload := int_setting values "GOBLIN_RUN_EVENT_MAX_PAYLOAD_BYTES" in
    let? interval := int_setting values "GOBLIN_RUN_EVENT_MIN_INTERVAL_MS" in
    let? ttl := int_setting values "GOBLIN_RUN_EVENT_TTL_SECONDS" in
    publisher (mkPublisher run_id stream sequence_key rate_key max_events max_payload interval ttl).

Section publisher.
Context `{RunEventRedis} (p : RunEventPublisher).

(** What the publisher turns into a transport error. *)
Definition transport_failure (e : exn) : bool :=
  redis_error e || is_value_error e || match e with TypeError _ => true | _ => false end.
(** The [try] block: the rate limit, the sequence number, the append. *)
Definition append_event (event_type : string) (payload : list (string * Json)) (created_at : utc)
    : M server RunEventEnvelope :=
  let* accepted := set_nx_px (pb_rate_key p) (pb_min_interval_ms p) in
  if negb accepted
  then raise (RunEventError ("run events are limited to one every " +:+ pretty (pb_min_interval_ms p) +:+ "ms"))
  else
    let* sequence := incr (pb_sequence_key p) in
    let event := mkRunEvent sequence created_at event_type (pb_run_id p) payload in
    if negb (envelope_ok event) then raise (ValidationError "RunEventEnvelope")
    else
      do* xadd_expire (pb_stream p) (envelope_json event) (pb_max_events p) (pb_sequence_key p) (pb_ttl_seconds p) in
      ret event.
Definition publish_event (event_type : string) (payload : list (string * Json)) (created_at : utc)
    : M server RunEventEnvelope :=
  if negb (bool_decide (event_type ∈ RUN_EVENT_TYPES))
  then raise (RunEventError ("unsupported run event type: " +:+ event_type))
  else if pb_max_payload_bytes p <? payload_size payload
  then raise (RunEventError ("run event payload exceeds " +:+ pretty (pb_max_payload_bytes p) +:+ " bytes: "
                +:+ pretty (payload_size payload)))
  else try_catch (append_event event_type payload created_at)
         (λ e, if is_run_event_error e then raise e
               else if transport_failure e then raise transport_unavailable else raise e).
Definition try_emit (event_type : string) (payload : list (string * Json)) (created_at : utc)
    : M server (option RunEventEnvelope) :=
  try_catch (let* e := publish_event event_type payload created_at in ret (Some e))
    (λ e, if is_run_event_error e || is_transport_error e then ret None else raise e).
Definition publish_progress (percent : Z) (message : option string) (created_at : utc) : M server RunEventEnvelope :=
  if negb (in_range 0 100 percent) then raise (RunEventError "progress percent must be between 0 and 100")
  else publish_event "progress"
         ([("percent", JInt percent)] ++ match message with Some m => [("message", JStr m)] | None => [] end) created_at.
Definition publish_stdout (t : string) : utc → M server RunEventEnvelope := publish_event "stdout" [("text", JStr t)].
Definition publish_stderr (t : string) : utc → M server RunEventEnvelope := publish_event "stderr" [("text", JStr t)].
End publisher.

(** ** The reader *)

Section reader.
Context `{RunEventRedis}.

(** One entry of the stream: skipped, or a validated event of this run. *)
Definition decode_entry (run_id : string) (after_sequence : Z) (entry : string * option string)
    : result (option (string * RunEventEnvelope)) :=
  match entry.2 with
  | None => Ok None
  | Some raw =>
      if negb (truthy raw) then Ok None
      else match utf8_decode raw with
      | None => Err (OtherValueError "UnicodeDecodeError" "invalid start byte")
      | Some t =>
          if DEFAULT_RUN_EVENT_MAX_PAYLOAD_BYTES + 1024 <? byte_size t then Ok None
          else match parse_envelope t with
          | Err e => if is_value_error e then Ok None else Err e
          | Ok event =>
              if (DEFAULT_RUN_EVENT_MAX_PAYLOAD_BYTES <? payload_size (ev_payload event))
                 || negb (bool_decide (ev_run_id event = run_id)) || (ev_sequence event <=? after_sequence)
              then Ok None else Ok (Some (entry.1, event))
          end
      end
  end.
Fixpoint decode_entries (run_id : string) (after_sequence : Z) (entries : list (string * option string))
    : result (list (string * RunEventEnvelope)) :=
  match entries with
  | [] => Ok []
  | entry :: rest =>
      let? o := decode_entry run_id after_sequence entry in
      let? l := decode_entries run_id after_sequence rest in
      Ok (match o with Some x => x :: l | None => l end)
  end.
Definition sequence_of (x : string * RunEventEnvelope) : Z := ev_sequence x.2.
(** [list.sort(key=...)]: stable *)
Fixpoint place (x : string * RunEventEnvelope) (l : list (string * RunEventEnvelope)) : list (string * RunEventEnvelope) :=
  match l with
  | [] => [x]
  | y :: l' => if sequence_of x <=? sequence_of y then x :: l else y :: place x l'
  end.
Definition sort_events (l : list (string * RunEventEnvelope)) : list (string * RunEventEnvelope) := foldr place [] l.
(** the first event of each sequence number *)
Fixpoint monotonic_events (last_sequence : Z) (l : list (string * RunEventEnvelope)) : list (string * RunEventEnvelope) :=
  match l with
  | [] => []
  | x :: l' => if sequence_of x <=? last_sequence then monotonic_events last_sequence l'
               else x :: monotonic_events (sequence_of x) l'
  end.
Definition replay (run_id : string) (after_sequence limit : Z) (entries : list (string * option string))
    : result (list (string * RunEventEnvelope)) :=
  let? decoded := decode_entries run_id after_sequence entries in
  Ok (take (Z.to_nat limit) (monotonic_events after_sequence (sort_events decoded))).
Definition read_run_event_entries (run_id : string) (after_sequence limit : Z)
    : M server (list (string * RunEventEnvelope)) :=
  if after_sequence <? 0 then raise (RunEventError "after_sequence must be non-negative")
  else if negb (in_range 1 MAX_RUN_EVENT_READ_LIMIT limit)
  then raise (RunEventError ("limit must be between 1 and " +:+ pretty MAX_RUN_EVENT_READ_LIMIT))
  else
    let* entries := try_catch (run_xrange (run_event_stream_key run_id) DEFAULT_RUN_EVENT_MAX_EVENTS)
      (λ e, if redis_error e then raise transport_unavailable else raise e) in
    lift_result (replay run_id after_sequence limit entries).
End reader.

(** ** Lemmas: sorting and selecting *)

Abbreviation seq_le := (λ x y, sequence_of x ≤ sequence_of y).
Abbreviation seq_lt := (λ x y, sequence_of x < sequence_of y).

Lemma place_perm x l : place x l ≡ₚ x :: l.
Proof.
  induction l as [|y l IH]; [done|]. simpl. destruct (_ <=? _); [done|]. rewrite IH. apply perm_swap.
Qed.
Lemma sort_events_perm l : sort_events l ≡ₚ l.
Proof. induction l as [|x l IH]; [done|]. simpl. by rewrite place_perm, IH. Qed.
Lemma place_sorted x l : StronglySorted seq_le l → StronglySorted seq_le (place x l).
Proof.
  induction 1 as [|y l Hl IH Hy]; simpl; [by repeat constructor|].
  destruct (Z.leb_spec (sequence_of x) (sequence_of y)).
  - constructor; [by constructor|]. constructor; [done|]. eapply Forall_impl; [exact Hy|]. simpl. lia.
  - constructor; [done|]. rewrite place_perm. constructor; [lia|done].
Qed.
Lemma sort_events_sorted l : StronglySorted seq_le (sort_events l).
Proof. induction l as [|x l IH]; [constructor|]. by apply place_sorted. Qed.

Record selected (last : Z) (l m : list (string * RunEventEnvelope)) : Prop := {
  sel_sorted : StronglySorted seq_lt m;
  sel_above : Forall (λ x, last < sequence_of x) m;
  sel_from : ∀ x, x ∈ m → x ∈ l;
  sel_all : ∀ x, x ∈ l → last < sequence_of x → ∃ y, y ∈ m ∧ sequence_of y = sequence_of x
}.
Lemma monotonic_selected last l : StronglySorted seq_le l → selected last l (monotonic_events last l).
Proof.
  intros Hl. revert last. induction Hl as [|x l Hl IH Hx]; intros last; simpl; [by split; try constructor; set_solver|].
  destruct (Z.leb_spec (sequence_of x) last) as [Hle|Hlt].
  - destruct (IH last) as [Hs Ha Hf Hall]. split; [done|done|set_solver|]. intros z [->|Hz]%elem_of_cons Hz'; [lia|auto].
  - destruct (IH (sequence_of x)) as [Hs Ha Hf Hall]. split.
    + by constructor.
    + constructor; [done|]. eapply Forall_impl; [exact Ha|]. simpl. lia.
    + set_solver.
    + intros z [->|Hz]%elem_of_cons Hz'; [exists x; split; [left|done]|].
      rewrite Forall_forall in Hx. specialize (Hx z Hz).
      destruct (decide (sequence_of z = sequence_of x)) as [Heq|Hne]; [exists x; split; [left|done]|].
      destruct (Hall z Hz) as (y & Hy & Heq); [lia|]. exists y. split; [by right|done].
Qed.
Lemma sorted_take {A} (R : A → A → Prop) n l : StronglySorted R l → StronglySorted R (take n l).
Proof.
  intros Hl. revert n. induction Hl as [|x l Hl IH Hx]; intros [|n]; simpl; constructor; auto using Forall_take.
Qed.
Lemma take_or_full n l y :
  StronglySorted seq_lt l → y ∈ l →
  y ∈ take n l ∨ (length (take n l) = n ∧ Forall (λ x, sequence_of x < sequence_of y) (take n l)).
Proof.
  intros Hl. revert n. induction Hl as [|x l Hl IH Hx]; intros n Hy; [by apply elem_of_nil in Hy|].
  destruct n as [|n]; [right; split; [done|constructor]|]. simpl.
  apply elem_of_cons in Hy as [->|Hy]; [left; left|]. destruct (IH n Hy) as [Hin|[Hlen Hall]]; [left; by right|].
  right. split; [by rewrite Hlen|]. constructor; [|done]. rewrite Forall_forall in Hx. by apply Hx.
Qed.

Section replay.
Context `{RunEventRedis}.

(** An event of the run that its stream really holds. *)
Definition held_event (run_id : string) (after : Z) (entries : list (string * option string))
    (x : string * RunEventEnvelope) : Prop :=
  ∃ raw, (x.1, Some raw) ∈ entries ∧ parse_envelope raw = Ok x.2
    ∧ byte_size raw ≤ DEFAULT_RUN_EVENT_MAX_PAYLOAD_BYTES + 1024
    ∧ payload_size (ev_payload x.2) ≤ DEFAULT_RUN_EVENT_MAX_PAYLOAD_BYTES
    ∧ ev_run_id x.2 = run_id ∧ after < ev_sequence x.2.

Lemma decode_entry_some run after entry x :
  decode_entry run after entry = Ok (Some x) → held_event run after [entry] x.
Proof.
  unfold decode_entry. destruct entry as [id [raw|]]; simpl; [|done]. destruct (truthy raw); simpl; [|done].
  unfold utf8_decode. destruct (utf8_valid (chars raw)); [|done]. destruct (Z.ltb_spec (DEFAULT_RUN_EVENT_MAX_PAYLOAD_BYTES + 1024) (byte_size raw)); [done|].
  destruct (parse_envelope raw) as [ev|e] eqn:Hp; [|by destruct (is_value_error e)].
  destruct (Z.ltb_spec DEFAULT_RUN_EVENT_MAX_PAYLOAD_BYTES (payload_size (ev_payload ev))); simpl; [done|].
  case_bool_decide as Hrun; simpl; [|done]. destruct (Z.leb_spec (ev_sequence ev) after); simpl; [done|].
  intros [= <-]. exists raw. split_and!; [by left|done..].
Qed.
Lemma decode_entries_elem run after entries l x :
  decode_entries run after entries = Ok l →
  x ∈ l ↔ ∃ entry, entry ∈ entries ∧ decode_entry run after entry = Ok (Some x).
Proof.
  revert l. induction entries as [|entry entries IH]; intros l; simpl; [intros [= <-]; set_solver|].
  destruct (decode_entry run after entry) as [o|] eqn:Ho; simpl; [|done].
  destruct (decode_entries run after entries) as [l'|] eqn:Hl; simpl; [|done]. intros [= <-].
  specialize (IH l' eq_refl). destruct o as [y|].
  - rewrite elem_of_cons, IH. split; [intros [->|(e & He & Hd)]; [by exists entry; split; [left|]|exists e; split; [by right|done]]|].
    intros (e & [->|He]%elem_of_cons & Hd); [left; congruence|right; eauto].
  - rewrite IH. split; intros (e & He & Hd); exists e; [by split; [right|]|].
    apply elem_of_cons in He as [->|He]; [congruence|done].
Qed.

(** What a replay makes of the entries that were read.  Whatever a worker wrote to its
    stream, the answer holds only validated, bounded events of this run out of these
    entries, strictly increasing in sequence, at most as many as asked for; and of the
    entries that [decode_entry] lets pass each has its sequence number in the answer,
    unless the answer is full and ends below it.  Entries that were not read (the reader
    takes the oldest ones of the stream, [read_run_event_entries]) are not spoken of. *)
Theorem replay_spec run_id after limit entries out :
  replay run_id after limit entries = Ok out →
  StronglySorted seq_lt out ∧ Forall (held_event run_id after entries) out
  ∧ (length out ≤ Z.to_nat limit)%nat
  ∧ ∀ entry x, entry ∈ entries → decode_entry run_id after entry = Ok (Some x) →
      (∃ y, y ∈ out ∧ sequence_of y = sequence_of x)
      ∨ (length out = Z.to_nat limit ∧ Forall (λ y, sequence_of y < sequence_of x) out).
Proof.
  unfold replay. destruct (decode_entries run_id after entries) as [l|] eqn:Hl; simpl; [|done]. intros [= <-].
  destruct (monotonic_selected after (sort_events l)) as [Hs Ha Hf Hall]; [apply sort_events_sorted|].
  split_and!; [by apply sorted_take| |by rewrite length_take; lia|].
  - apply Forall_take, Forall_forall. intros x Hx%Hf. rewrite sort_events_perm in Hx.
    apply (decode_entries_elem _ _ _ _ x Hl) in Hx as (entry & He & (raw & Hin & Hrest)%decode_entry_some).
    exists raw. split; [|done]. apply list_elem_of_singleton in Hin. by rewrite Hin.
  - intros entry x He Hd. destruct (Hall x) as (y & Hy & Heq).
    + rewrite sort_events_perm. apply (decode_entries_elem _ _ _ _ x Hl). eauto.
    + apply decode_entry_some in Hd as (? & _ & _ & _ & _ & _ & Hgt). exact Hgt.
    + destruct (take_or_full (Z.to_nat limit) _ y Hs Hy) as [Hin|[Hlen Hless]]; [left; eauto|right].
      split; [done|]. by rewrite <- Heq.
Qed.
End replay.

(** ** The publisher and the stream *)

(** Redis as the publisher uses it: a counter and a bounded stream per key. *)
Class RunEventLaws `{RunEventRedis} := {
  counter : server → string → Z;
  held : server → string → list (string * option string);
  set_error : ∀ k t r r' e, set_nx_px k t r = (r', Err e) → redis_error e = true;
  set_keeps : ∀ k t r, held (set_nx_px k t r).1 = held r ∧ counter (set_nx_px k t r).1 = counter r;
  incr_error : ∀ k r r' e, incr k r = (r', Err e) → redis_error e = true;
  incr_next : ∀ k r r' n, incr k r = (r', Ok n) → n = counter r k + 1 ∧ counter r' k = n ∧ held r' = held r;
  xadd_error : ∀ s t m k ttl r r' e, xadd_expire s t m k ttl r = (r', Err e) → redis_error e = true;
  xadd_appends : ∀ s t m k ttl r r', 1 ≤ m → xadd_expire s t m k ttl r = (r', Ok tt) →
    ∃ id, let l := held r s ++ [(id, Some t)] in
      held r' s = drop (length l - Z.to_nat m) l ∧ counter r' = counter r;
  run_xrange_reads : ∀ s n r r' l, run_xrange s n r = (r', Ok l) → l = take (Z.to_nat n) (held r s)
}.

Section publishing.
Context `{RunEventLaws} (p : RunEventPublisher).

Definition publisher_ok : Prop :=
  1 ≤ pb_max_events p ≤ DEFAULT_RUN_EVENT_MAX_EVENTS
  ∧ 1 ≤ pb_max_payload_bytes p ≤ DEFAULT_RUN_EVENT_MAX_PAYLOAD_BYTES.
Lemma publisher_accepts q : publisher p = Ok q → q = p ∧ publisher_ok.
Proof.
  unfold publisher, publisher_ok, in_range. repeat case_match; try done. intros [= <-]. split; [done|]. lia.
Qed.

(** What an event that was published satisfies. *)
Definition published (payload : list (string * Json)) (ev : RunEventEnvelope) : Prop :=
  envelope_ok ev = true ∧ ev_run_id ev = pb_run_id p ∧ ev_payload ev = payload
  ∧ payload_size payload ≤ pb_max_payload_bytes p.

(** The stream holds only what the publisher wrote: bounded events numbered up to the
    counter, in order, and no more of them than allowed. *)
Record own_stream (r : server) : Prop := {
  os_length : Z.of_nat (length (held r (pb_stream p))) ≤ pb_max_events p;
  os_events : ∃ evs, (held r (pb_stream p)).*2 = (λ ev, Some (envelope_json ev)) <$> evs
    ∧ Forall (λ ev, published (ev_payload ev) ev ∧ ev_sequence ev ≤ counter r (pb_sequence_key p)) evs
}.

Lemma publish_ok type payload t r r' ev :
  publish_event p type payload t r = (r', Ok ev) →
  published payload ev ∧ ev_sequence ev = counter r (pb_sequence_key p) + 1
  ∧ ∃ r1, held r1 = held r ∧ counter r1 (pb_sequence_key p) = ev_sequence ev
      ∧ xadd_expire (pb_stream p) (envelope_json ev) (pb_max_events p) (pb_sequence_key p) (pb_ttl_seconds p) r1
        = (r', Ok tt).
Proof.
  unfold publish_event. case_bool_decide; simpl; [|done].
  destruct (Z.ltb_spec (pb_max_payload_bytes p) (payload_size payload)); [done|]. unfold try_catch.
  destruct (append_event p type payload t r) as [r2 [ev'|e]] eqn:Happ.
  2: { destruct (is_run_event_error e); [done|]. by destruct (transport_failure e). }
  intros [= -> ->]. unfold append_event in Happ. apply bind_ok in Happ as (r1 & acc & Hset & Happ).
  destruct acc; simpl in Happ; [|done]. apply bind_ok in Happ as (r3 & n & Hincr & Happ).
  destruct (envelope_ok _) eqn:Hok; simpl in Happ; [|done]. apply bind_ok in Happ as (r4 & [] & Hadd & Hret).
  injection Hret as -> <-. destruct (set_keeps (pb_rate_key p) (pb_min_interval_ms p) r) as [Hheld Hcount].
  rewrite Hset in Hheld, Hcount. simpl in Hheld, Hcount.
  apply incr_next in Hincr as (Hn & Hc & Hheld'). rewrite Hcount in Hn. split; [by split_and!|]. split; [done|].
  exists r3. split; [congruence|]. by split.
Qed.

Lemma fmap_take_drop {A B} (f : A → B) n (l : list A) : f <$> drop n l = drop n (f <$> l).
Proof. revert n. induction l as [|x l IH]; intros [|n]; simpl; auto. Qed.
Lemma published_stream payload ev r r1 r' :
  publisher_ok → own_stream r → published payload ev → ev_sequence ev = counter r (pb_sequence_key p) + 1 →
  held r1 = held r → counter r1 (pb_sequence_key p) = ev_sequence ev →
  xadd_expire (pb_stream p) (envelope_json ev) (pb_max_events p) (pb_sequence_key p) (pb_ttl_seconds p) r1 = (r', Ok tt) →
  own_stream r' ∧ ∃ id, last (held r' (pb_stream p)) = Some (id, Some (envelope_json ev)).
Proof.
  intros [Hmax _] [Hlen (evs & Hevs & Hall)] Hpub Hseq Hheld Hcount Hadd.
  apply xadd_appends in Hadd as (id & Hr' & Hc'); [|lia]. cbv zeta in Hr'. rewrite Hheld in Hr'.
  set (l := held r (pb_stream p)) in *. rewrite length_app in Hr'. simpl in Hr'. split; [split|].
  - rewrite Hr', length_drop, length_app. simpl. lia.
  - exists (drop (length l + 1 - Z.to_nat (pb_max_events p)) (evs ++ [ev])). split.
    + by rewrite Hr', !fmap_take_drop, !fmap_app, Hevs.
    + apply Forall_drop, Forall_app. rewrite Hc', Hcount. split.
      * eapply Forall_impl; [exact Hall|]. intros e [He Hle]. split; [done|lia].
      * apply Forall_singleton. destruct Hpub as (Hok & Hrun & Hpay & Hsize).
        split; [|lia]. by rewrite Hpay.
  - exists id. rewrite Hr'. assert (length l + 1 - Z.to_nat (pb_max_events p) ≤ length l)%nat as Hle by lia.
    rewrite drop_app_le by done. by rewrite last_snoc.
Qed.

(** Publishing progress cannot fail a worker and cannot flood the control plane.
    [try_emit] returns on every answer of Redis; an event it returns is well formed,
    belongs to the run, is within the payload limit, carries the next sequence number,
    and is then the last entry of a stream that holds at most the allowed number of
    events, all of them such events. *)
Theorem try_emit_bounded type payload t r :
  publisher_ok → own_stream r →
  ∃ r' o, try_emit p type payload t r = (r', Ok o)
    ∧ ∀ ev, o = Some ev →
        published payload ev ∧ ev_sequence ev = counter r (pb_sequence_key p) + 1 ∧ own_stream r'
        ∧ ∃ id, last (held r' (pb_stream p)) = Some (id, Some (envelope_json ev)).
Proof.
  intros Hp Hr. unfold try_emit, try_catch, bind. destruct (publish_event p type payload t r) as [r' [ev|e]] eqn:Hpub.
  - eexists _, _. split; [done|]. intros ev' [= <-].
    apply publish_ok in Hpub as (Hpub & Hseq & r1 & Hheld & Hc & Hadd).
    destruct (published_stream payload ev r r1 r') as [Hown Hlast]; try done.
  - assert (is_run_event_error e || is_transport_error e = true) as ->; [|by eexists _, None].
    revert Hpub. unfold publish_event. case_bool_decide; simpl; [|by intros [= _ <-]].
    destruct (_ <? _); [by intros [= _ <-]|]. unfold try_catch.
    destruct (append_event p type payload t r) as [r2 [ev'|e']] eqn:Happ; [done|].
    destruct (is_run_event_error e') eqn:He'; [by intros [= _ <-]; rewrite He'|].
    assert (transport_failure e' = true) as ->; [|by intros [= _ <-]].
    revert Happ. unfold append_event, bind. destruct (set_nx_px _ _ r) as [r1 [[]|e1]] eqn:Hset; simpl.
    + destruct (incr _ r1) as [r3 [n|e1]] eqn:Hincr.
      * destruct (envelope_ok _); simpl; [|intros [= _ <-]; unfold transport_failure; simpl; by rewrite orb_true_r].
        destruct (xadd_expire _ _ _ _ _ r3) as [r4 [[]|e1]] eqn:Hadd; [done|]. intros [= _ <-].
        unfold transport_failure. by rewrite (xadd_error _ _ _ _ _ _ _ _ Hadd).
      * intros [= _ <-]. unfold transport_failure. by rewrite (incr_error _ _ _ _ Hincr).
    + intros [= _ <-]. done.
    + intros [= _ <-]. unfold transport_failure. by rewrite (set_error _ _ _ _ _ Hset).
Qed.
End publishing.

(** ** The worker's environment *)

Definition environment_of (l : list (string * string)) (name : string) : option string :=
  snd <$> List.find (λ kv, String.eqb kv.1 name) l.
Definition run_keys (q : RunEventPublisher) : Prop :=
  pb_stream q = run_event_stream_key (pb_run_id q)
  ∧ pb_sequence_key q = run_event_sequence_key (pb_run_id q) ∧ pb_rate_key q = run_event_rate_key (pb_run_id q).

(** The worker's environment is a closed contract.  What the control plane puts into a
    worker's environment makes a publisher with that run's keys and the default limits;
    and whatever the environment says, a publisher is only built with the keys of its
    own run and with limits inside the allowed ranges. *)
Theorem run_event_environment run_id url values q :
  from_environment (environment_of (("GOBLIN_RUN_ID", run_id) :: worker_run_event_environment run_id url))
  = Ok (mkPublisher run_id (run_event_stream_key run_id) (run_event_sequence_key run_id) (run_event_rate_key run_id)
          256 4096 50 3600)
  ∧ (from_environment values = Ok q →
      run_keys q ∧ publisher_ok q ∧ 50 ≤ pb_min_interval_ms q ≤ 60000 ∧ 1 ≤ pb_ttl_seconds q ≤ 3600).
Proof.
  split.
  - set (env := environment_of _).
    assert (required env "GOBLIN_RUN_EVENT_CONTRACT_VERSION" = Ok WORKER_RUN_EVENT_CONTRACT_VERSION) as E1 by reflexivity.
    assert (required env "GOBLIN_RUN_ID" = Ok run_id) as E2 by reflexivity.
    assert (required env "GOBLIN_RUN_EVENT_STREAM" = Ok (run_event_stream_key run_id)) as E3 by reflexivity.
    assert (required env "GOBLIN_RUN_EVENT_SEQUENCE_KEY" = Ok (run_event_sequence_key run_id)) as E4 by reflexivity.
    assert (required env "GOBLIN_RUN_EVENT_RATE_KEY" = Ok (run_event_rate_key run_id)) as E5 by reflexivity.
    assert (required env "GOBLIN_RUN_EVENT_REDIS_URL" = Ok url) as E6 by reflexivity.
    assert (int_setting env "GOBLIN_RUN_EVENT_MAX_EVENTS" = Ok 256) as E7 by reflexivity.
    assert (int_setting env "GOBLIN_RUN_EVENT_MAX_PAYLOAD_BYTES" = Ok 4096) as E8 by reflexivity.
    assert (int_setting env "GOBLIN_RUN_EVENT_MIN_INTERVAL_MS" = Ok 50) as E9 by reflexivity.
    assert (int_setting env "GOBLIN_RUN_EVENT_TTL_SECONDS" = Ok 3600) as E10 by reflexivity.
    clearbody env. unfold from_environment. rewrite E1, E2, E3, E4, E5, E6, E7, E8, E9, E10. cbn [result_bind].
    unfold matches. rewrite !bool_decide_true by done. reflexivity.
  - unfold from_environment. destruct (required values _) as [v|]; simpl; [|done].
    destruct (negb _); [done|]. do 5 (destruct (required values _) as [?|]; simpl; [|done]).
    unfold matches. do 3 (case_bool_decide; simpl; [|done]). do 4 (destruct (int_setting values _); simpl; [|done]).
    intros Hq. pose proof Hq as (-> & Hok)%publisher_accepts. split; [by split_and!|]. split; [done|].
    unfold publisher, in_range, DEFAULT_RUN_EVENT_MIN_INTERVAL_MS, DEFAULT_RUN_EVENT_TTL_SECONDS in Hq.
    repeat case_match; try done. simpl in *. lia.
Qed.

(** ** Concrete streams *)

Definition small_redis : RunEventRedis := {|
  server := gmap string Z * gmap string (list (string * option string));
  set_nx_px _ _ := ret true;
  incr k := λ s, let n := default 0 (s.1 !! k) + 1 in ((<[k := n]> s.1, s.2), Ok n);
  xadd_expire k t m _ _ := λ s,
    let l := default [] (s.2 !! k) ++ [(pretty (length (default [] (s.2 !! k))), Some t)] in
    ((s.1, <[k := drop (length l - Z.to_nat m) l]> s.2), Ok tt);
  run_xrange k n := λ s, (s, Ok (take (Z.to_nat n) (default [] (s.2 !! k))));
  redis_error _ := false;
  envelope_json e := pretty (ev_sequence e);
  parse_envelope t := match int_of_text t with
                      | Some n => Ok (mkRunEvent n 0 "stdout" "run-1" [("text", JStr t)])
                      | None => Err (ValueError "bad event") end
|}.
#[export] Instance small_laws : @RunEventLaws small_redis.
Proof.
  refine (@Build_RunEventLaws small_redis (λ s k, default 0 (s.1 !! k)) (λ s k, default [] (s.2 !! k)) _ _ _ _ _ _ _);
    simpl; try done.
  - intros k [c l] r' n [= <- <-]. simpl. by rewrite lookup_insert_eq.
  - intros k t m k' ttl [c l] r' Hm [= <-]. eexists. simpl. by rewrite lookup_insert_eq.
  - intros k n r r' l [= _ <-]. done.
Defined.
Definition small_publisher : RunEventPublisher :=
  mkPublisher "run-1" "s" "q" "r" 3 64 50 3600.
Definition read_texts (l : list (string * option string)) : list Z + string :=
  match @replay small_redis "run-1" 2 2 l with Ok out => inl (sequence_of <$> out) | Err e => inr (exn_name e) end.

(** Bad and repeated entries are skipped, but one that is not UTF-8 stops every reader. *)
Example replays :
  read_texts [("1", Some "7"); ("2", None); ("3", Some "x"); ("4", Some "3"); ("5", Some "7"); ("6", Some "1"); ("7", Some "5")]
  = inl [3; 5]
  ∧ read_texts [("1", Some "7"); ("2", Some (String (ascii_of_nat 255) EmptyString))] = inr "UnicodeDecodeError".
Proof. split; vm_compute; reflexivity. Qed.

Lemma replay_spec_witness :
  StronglySorted seq_lt [("4", mkRunEvent 3 0 "stdout" "run-1" [("text", JStr "3")]);
                         ("5", mkRunEvent 5 0 "stdout" "run-1" [("text", JStr "5")])].
Proof.
  apply (@replay_spec small_redis "run-1" 2 2 [("1", Some "7"); ("4", Some "3"); ("5", Some "5")]).
  vm_compute. reflexivity.
Defined.
Lemma try_emit_bounded_witness :
  ∃ r' o, @try_emit small_redis small_publisher "stdout" [("text", JStr "hi")] 5 (∅, ∅) = (r', Ok o).
Proof.
  destruct (@try_emit_bounded small_redis small_laws small_publisher "stdout" [("text", JStr "hi")] 5 (∅, ∅))
    as (r' & o & Hrun & _); [| |by exists r', o].
  - unfold publisher_ok, small_publisher, DEFAULT_RUN_EVENT_MAX_EVENTS, DEFAULT_RUN_EVENT_MAX_PAYLOAD_BYTES. simpl. lia.
  - split; [simpl; rewrite lookup_empty; simpl; lia|]. exists []. split; [reflexivity|constructor].
Defined.
Lemma run_event_environment_witness :
  run_keys (mkPublisher "run-1" (run_event_stream_key "run-1") (run_event_sequence_key "run-1")
              (run_event_rate_key "run-1") 256 4096 50 3600).
Proof.
  apply (run_event_environment "run-1" "redis://cache"
    (environment_of (("GOBLIN_RUN_ID", "run-1") :: worker_run_event_environment "run-1" "redis://cache"))).
  vm_compute. reflexivity.
Defined.
