(* ===== verification/WorkerChannel.v ===== *)
(** * What every container runtime does with its worker

    The methods that [DockerRuntime] and [KubernetesRuntime] have in common: events
    about the worker, the heartbeats it left in Redis, and the decoding of its result.
    Redis and the JSON texts of Pydantic are the class [WorkerChannel]: each an
    arbitrary call on the [World]. *)

From S2P Require Import Prelude CausalTime Contracts Text PyValues EventStore JobStore World Containers Attempts.

Class WorkerChannel := {
  (** GET, LRANGE key 0 -1 and EXPIRE of the Redis at a URL *)
  redis_get : string → string → M World (option string);
  redis_lrange : string → string → M World (list string);
  redis_expire : string → string → M World unit;
  (** [except RedisError] *)
  is_redis_error : exn → bool;
  context_json : GoblinContext → string;
  parse_result : string → result GoblinResult;
  parse_heartbeat : string → result HeartbeatRecord
}.

Section channel.
Context `{Sqlite} `{Env} `{WorkerChannel} (event_bus : bool) (redis_url : string).

(** A metadata value as an optional string field of an event. *)
Definition metadata_id (context : GoblinContext) (key : string) : result (option string) :=
  match gc_metadata context !! key with
  | Some (JStr v) => Ok (Some v)
  | None | Some JNull => Ok None
  | Some _ => Err (ValidationError "Input should be a valid string")
  end.

(** Without an event bus nothing is recorded. *)
Definition emit_worker_event (event_type : string) (context : GoblinContext) (worker_id : string)
    (payload : dict) : M World unit :=
  if negb event_bus then ret tt else
  let* project_id := lift_result (metadata_id context "project_id") in
  let* job_id := lift_result (metadata_id context "job_id") in
  do* zoom w_bus_lens (emit event_type
        (mkEmit SrcRuntime payload project_id job_id (Some (gc_run_id context)) None None (Some worker_id) None None)) in
  ret tt.

Definition record_worker_heartbeats (context : GoblinContext) : M World unit :=
  if negb event_bus then ret tt else
  try_catch
    (let key := worker_heartbeat_key (gc_run_id context) in
     let* payloads := redis_lrange redis_url key in
     do* forM_ payloads (λ raw,
           do* zoom w_bus_lens (record_worker_heartbeat_payload parse_heartbeat raw) in ret tt) in
     redis_expire redis_url key)
    (λ e, if is_redis_error e then
            let* job_id := lift_result (metadata_id context "job_id") in
            do* zoom w_bus_lens (emit "worker.heartbeat_read_failed"
                  (mkEmit SrcRuntime {[ "error" := JStr (exn_str e) ]} None job_id (Some (gc_run_id context))
                     None None None None None)) in
            ret tt
          else raise e).

Definition decoded_result (raw : string) : result GoblinResult :=
  match parse_result raw with
  | Err e => if is_value_error e
             then Ok (failed_result ("worker produced invalid result JSON: " +:+ exn_str e) ∅) else Err e
  | Ok r => Ok r
  end.
End channel.

(** ** The channel within a preorder *)

Section within.
Context `{Sqlite} `{Env} `{WorkerChannel}.

(** What Redis does to the store stays within [R]. *)
Class ChannelWithin (R : World → World → Prop) : Prop := {
  cw_get :: ∀ u k, Within R (redis_get u k);
  cw_range :: ∀ u k, Within R (redis_lrange u k);
  cw_expire :: ∀ u k, Within R (redis_expire u k)
}.
(** The two ways a runtime itself writes the store. *)
Class BusWithin (R : World → World → Prop) : Prop := {
  bw_emit :: ∀ ty a, Within R (zoom w_bus_lens (emit ty a));
  bw_heartbeat :: ∀ hb, Within R (zoom w_bus_lens (zoom events_lens (upsert_heartbeat hb)))
}.
Context (R : World → World → Prop) `{!PreOrder R} `{!ChannelWithin R} `{!BusWithin R} (bus : bool) (url : string).

#[export] Instance within_worker_event ty c w p : Within R (emit_worker_event bus ty c w p).
Proof. unfold emit_worker_event. solve_within. Qed.
Lemma within_heartbeat_payload raw :
  Within R (zoom w_bus_lens (record_worker_heartbeat_payload parse_heartbeat raw)).
Proof.
  unfold record_worker_heartbeat_payload. destruct (parse_heartbeat raw) as [hb|e].
  - apply within_zoom_bind; [apply _..|]. intros _. apply within_zoom_pure; apply _.
  - destruct (_ || _); [|apply within_zoom_pure; apply _].
    apply within_zoom_bind; [apply _..|]. intros _. apply within_zoom_pure; apply _.
Qed.
#[export] Instance within_heartbeats c : Within R (record_worker_heartbeats bus url c).
Proof.
  unfold record_worker_heartbeats. destruct (negb _); [apply _|]. apply within_try; [apply _| |solve_within].
  cbv zeta. apply within_bind; [apply _|apply _|]. intros payloads.
  apply within_bind; [apply _| |intros _; apply _]. apply within_forM; [apply _|]. intros raw.
  apply within_bind; [apply _|apply within_heartbeat_payload|intros _; apply _].
Qed.

#[export] Instance keeps_upsert id hb : Keeps id (zoom w_bus_lens (zoom events_lens (upsert_heartbeat hb))).
Proof.
  intros w j rs res [[Hlog Htab Hids] Hrow Hruns Hres]. split; [split|..]; try done.
  by apply upsert_heartbeat_log_ok.
Qed.
#[export] Instance keeps_bus `{!Inj eq eq uuid4} id : BusWithin (keeps_job id).
Proof. split; intros; apply _. Qed.
End within.

(** ** What the channel raises *)

Definition not_superseded (e : exn) : Prop := ∀ m, e ≠ JobAttemptSuperseded m.

Section raising.
Context `{Sqlite} `{Env} `{WorkerChannel}.

(** No operation of the channel raises the scheduler's own exception. *)
Class ChannelRaises (Q : exn → Prop) : Prop := {
  cr_get :: ∀ u k, Raises Q (redis_get u k);
  cr_range :: ∀ u k, Raises Q (redis_lrange u k);
  cr_expire :: ∀ u k, Raises Q (redis_expire u k);
  cr_result : ∀ t e, parse_result t = Err e → Q e;
  cr_heartbeat : ∀ t e, parse_heartbeat t = Err e → Q e
}.
Context `{!ChannelRaises not_superseded} (bus : bool) (url : string).

#[export] Instance raises_insert e : Raises not_superseded (insert_event e).
Proof. intros t x. unfold insert_event. repeat case_match; intros [= <-]; by intros m. Qed.
#[export] Instance raises_emit ty a : Raises not_superseded (emit ty a).
Proof. unfold emit, persist_event, causally_after. solve_raises; by apply raises_ok. Qed.
#[export] Instance raises_upsert hb : Raises not_superseded (upsert_heartbeat hb).
Proof. by intros t e. Qed.
#[export] Instance raises_heartbeat raw :
  Raises not_superseded (record_worker_heartbeat_payload parse_heartbeat raw).
Proof.
  unfold record_worker_heartbeat_payload. solve_raises. apply raises_raise. by apply (cr_heartbeat raw).
Qed.
#[export] Instance raises_metadata_id c key :
  Raises not_superseded (lift_result (S := World) (metadata_id c key)).
Proof. apply raises_lift. intros e. unfold metadata_id. repeat case_match; intros [= <-]; by intros m. Qed.
#[export] Instance raises_worker_event ty c w p : Raises not_superseded (emit_worker_event bus ty c w p).
Proof. unfold emit_worker_event. solve_raises. Qed.
#[export] Instance raises_record_heartbeats c : Raises not_superseded (record_worker_heartbeats bus url c).
Proof. unfold record_worker_heartbeats. solve_raises. Qed.
Lemma decoded_result_error raw e : decoded_result raw = Err e → not_superseded e.
Proof.
  unfold decoded_result. destruct (parse_result raw) as [|e'] eqn:Hp; [done|].
  destruct (is_value_error e'); [done|]. intros [= <-]. by apply (cr_result _ _ Hp).
Qed.
End raising.

(** ** A channel with one stored result *)

Definition greeting : GoblinResult := GoblinResult_ok {[ "hello" := JStr "world" ]} [] ∅ [].
Definition quiet_channel (stored : option string) : WorkerChannel := {|
  redis_get _ _ := ret stored; redis_lrange _ _ := ret []; redis_expire _ _ := ret tt; is_redis_error _ := false;
  context_json _ := "{}";
  parse_result raw := if String.eqb raw "{}" then Ok greeting else Err (ValueError "bad result");
  parse_heartbeat _ := Err (ValueError "bad heartbeat")
|}.
#[export] Instance quiet_channel_within R stored : PreOrder R → @ChannelWithin (quiet_channel stored) R.
Proof. split; intros; apply _. Qed.
#[export] Instance quiet_channel_raises stored : @ChannelRaises (quiet_channel stored) not_superseded.
Proof.
  split; intros; simpl in *; try apply _.
  - destruct (String.eqb t "{}"); [done|]. simplify_eq. by intros m.
  - simplify_eq. by intros m.
Qed.
