(* ===== verification/DockerRuntime.v ===== *)
(** * The Docker runtime ([DockerRuntime] of [src/src/goblin_king/runtime.py])

    One worker in one container: its files, its command line, the run itself, and the
    result it left in Redis or in a file.  The host is the class [DockerEngine]: the
    process environment, files, [subprocess.run] and Redis, each an arbitrary call on
    the [World] (the worker may call back into the control plane while it runs), and
    the two JSON texts that Pydantic writes and reads. *)

From Stdlib Require Import Ascii.
From S2P Require Import Prelude CausalTime Contracts Text Paths PyValues ResourcePolicies EventStore JobStore JobLifecycle RecordStore Auth Registry World Containers Validation Scheduler Attempts WorkerChannel.

(** What [subprocess.run] ends with. *)
Inductive DockerOutcome :=
| Completed (returncode : Z) (stdout stderr : string)
| LaunchError (message : string)
| Expired (stdout stderr : option string).

Class DockerEngine := {
  environ : string → option string;
  resolve : PosixPath → PosixPath;
  (** [subprocess.run(command, timeout=...)], decoded with [errors="replace"] *)
  subprocess_run : list string → option Z → M World DockerOutcome;
  make_dirs : PosixPath → M World unit;
  write_text : PosixPath → string → M World unit;
  path_exists : PosixPath → M World bool;
  read_text : PosixPath → M World string;
  is_file : PosixPath → M World bool;
  st_size : PosixPath → M World Z;
  (** [except OSError] *)
  is_os_error : exn → bool;
  docker_channel :: WorkerChannel
}.

Record DockerSettings := mkDockerSettings {
  dr_workers : WorkerImageMap;
  dr_redis_url : string;
  dr_run_root : PosixPath;
  dr_executable : string;
  dr_event_bus : bool;             (* whether there is a bus *)
  dr_heartbeat_interval_seconds : Z
}.

Section docker_runtime.
Context `{Sqlite} `{Env} `{Floats} `{DockerEngine}.
Context (s : DockerSettings).

(** ** The command line *)

Definition _docker_env_args (worker_env : list (string * string)) (secret_refs : list string) : list string :=
  concat ((λ kv : string * string, ["-e"; kv.1 +:+ "=" +:+ kv.2])
            <$> merge_by (λ x y, String.leb x.1 y.1) worker_env)
  ++ concat ((λ key, if opt_truthy (environ key) then ["-e"; key] else [])
               <$> sorted_strings (remove_dups secret_refs)).

Definition metadata_text (context : GoblinContext) (key : string) : string :=
  match gc_metadata context !! key with Some j => py_str j | None => EmptyString end.
Definition setting (name value : string) : list string := ["-e"; name +:+ "=" +:+ value].

(** Labels and contract variables of every worker. *)
Definition contract_args (context : GoblinContext) (worker_id : string) : list string :=
  let redis := container_redis_url (dr_redis_url s) in
  [dr_executable s; "run"; "--rm"; "--name"; worker_id; "--label"; "goblin-king.worker=true";
   "--label"; "goblin-king.run-id=" +:+ gc_run_id context;
   "--label"; "goblin-king.job-id=" +:+ metadata_text context "job_id";
   "--add-host"; "host.docker.internal:host-gateway"]
  ++ setting "GOBLIN_CONTRACT_VERSION" GOBLIN_CONTAINER_CONTRACT_VERSION
  ++ setting "GOBLIN_RUN_ID" (gc_run_id context)
  ++ setting "GOBLIN_JOB_ID" (metadata_text context "job_id")
  ++ setting "GOBLIN_WORKER_ID" worker_id
  ++ setting "GOBLIN_INPUT_PATH" "/goblin/input.json"
  ++ setting "GOBLIN_CONTEXT_PATH" "/goblin/context.json"
  ++ setting "GOBLIN_RESULT_PATH" "/goblin/result.json"
  ++ setting "GOBLIN_ARTIFACT_ROOT" "/artifacts"
  ++ setting "GOBLIN_REDIS_URL" redis
  ++ setting "GOBLIN_HEARTBEAT_REDIS_URL" redis
  ++ setting "GOBLIN_HEARTBEAT_CHANNEL" DEFAULT_HEARTBEAT_CHANNEL
  ++ setting "GOBLIN_HEARTBEAT_KEY" (worker_heartbeat_key (gc_run_id context))
  ++ setting "GOBLIN_HEARTBEAT_INTERVAL_SECONDS" (pretty (dr_heartbeat_interval_seconds s))
  ++ concat ((λ kv : string * string, setting kv.1 kv.2) <$> worker_run_event_environment (gc_run_id context) redis).

Definition policy_args (policy : option ResourcePolicy) : result (list string) :=
  match policy with
  | Some p =>
      let? args := docker_policy_args p in
      Ok (setting "GOBLIN_EFFECTIVE_RESOURCE_POLICY_JSON" (resource_policy_env p) ++ args)
  | None => Ok []
  end.

(** Where the worker's files are: inside the data volume, or bind mounts. *)
Definition mount_args (run_dir artifact_root : PosixPath) : result (list string) :=
  match environ "GOBLIN_KING_DOCKER_DATA_VOLUME" with
  | Some data_volume =>
      if truthy data_volume then
        let data_mount := default "/goblin-data" (environ "GOBLIN_KING_DOCKER_DATA_MOUNT") in
        let? run_rel := relative_to_docker_data_root resolve run_dir (dr_run_root s) "run directory" in
        let? artifact_rel := relative_to_docker_data_root resolve artifact_root (dr_run_root s) "artifact directory" in
        Ok (setting "GOBLIN_INPUT_PATH" (data_mount +:+ "/" +:+ run_rel +:+ "/input.json")
            ++ setting "GOBLIN_CONTEXT_PATH" (data_mount +:+ "/" +:+ run_rel +:+ "/context.json")
            ++ setting "GOBLIN_RESULT_PATH" (data_mount +:+ "/" +:+ run_rel +:+ "/result.json")
            ++ setting "GOBLIN_ARTIFACT_ROOT" (data_mount +:+ "/" +:+ artifact_rel)
            ++ ["-v"; data_volume +:+ ":" +:+ data_mount])
      else Ok ["-v"; as_posix run_dir +:+ ":/goblin"; "-v"; as_posix artifact_root +:+ ":/artifacts"]
  | None => Ok ["-v"; as_posix run_dir +:+ ":/goblin"; "-v"; as_posix artifact_root +:+ ":/artifacts"]
  end.

Definition network_args (policy : option ResourcePolicy) : list string :=
  match environ "GOBLIN_KING_DOCKER_NETWORK" with
  | Some n => if truthy n && negb (opt_truthy (policy ≫= (λ p, network_mode (network p))))
              then ["--network"; n] else []
  | None => []
  end.

Definition _docker_run_command (image : string) (run_dir : PosixPath) (context : GoblinContext)
    (worker_id : string) (timeout_seconds : option Z) (policy : option ResourcePolicy)
    (worker_env : list (string * string)) (secret_refs : list string) : result (list string) :=
  let artifact_root := resolve_docker_artifact_root resolve (dr_run_root s) (gc_artifact_root context) in
  let? policies := policy_args policy in
  let? mounts := mount_args run_dir artifact_root in
  Ok (contract_args context worker_id ++ _docker_env_args worker_env secret_refs ++ policies ++ mounts
      ++ network_args policy
      ++ (match timeout_seconds with Some t => ["--stop-timeout"; pretty (Z.max t 1)] | None => [] end)
      ++ [image]).

(** ** Files, evidence, result *)

Definition _prepare_run_dir (context : GoblinContext) (input_payload : dict) : M World PosixPath :=
  let run_dir := resolve (path_join (dr_run_root s) (parse_path (gc_run_id context))) in
  let artifact_root := resolve_docker_artifact_root resolve (dr_run_root s) (gc_artifact_root context) in
  do* make_dirs run_dir in
  do* make_dirs artifact_root in
  do* write_text (path_join run_dir (parse_path "input.json")) (json_dumps (dict_json input_payload)) in
  do* write_text (path_join run_dir (parse_path "context.json")) (context_json context) in
  ret run_dir.

Definition _emit_worker_event : string → GoblinContext → string → dict → M World unit :=
  emit_worker_event (dr_event_bus s).
Definition _record_worker_heartbeats : GoblinContext → M World unit :=
  record_worker_heartbeats (dr_event_bus s) (dr_redis_url s).

Definition _emit_container_log_event (definition : GoblinDefinition) (image : string) (context : GoblinContext)
    (worker_id : string) (stdout stderr : option string) (exit_code : option Z) (timed_out : bool)
    (policy : option ResourcePolicy) : M World unit :=
  if negb (dr_event_bus s) then ret tt else
  _emit_worker_event "worker.container_logs" context worker_id
    (container_log_payload (gd_kind definition) image worker_id stdout stderr exit_code timed_out
       (log_capture_limit policy) plain_logs).

Definition _load_result (run_id : string) (result_path : PosixPath) : M World (option GoblinResult) :=
  let* raw := try_catch (redis_get (dr_redis_url s) (worker_result_key run_id))
    (λ e, if is_redis_error e then ret None else raise e) in
  let* raw := (match raw with
    | Some _ => ret raw
    | None =>
        let* there := path_exists result_path in
        if there : bool then let* t := read_text result_path in ret (Some t) else ret None
    end) in
  match raw with
  | Some raw => let* r := lift_result (decoded_result raw) in ret (Some r)
  | None => ret None
  end.

(** [artifact_policy_error]: the bytes of one artifact, declared or measured. *)
Definition artifact_bytes (result : GoblinResult) (artifact_root : PosixPath) (a : ArtifactRecord) : M World Z :=
  match gr_metrics result !! ("artifact." +:+ a_name a +:+ ".bytes") with
  | Some (JInt n) => ret n
  | Some (JBool b) => ret (if b then 1 else 0)
  | _ =>
      let path := if starts_with "file://" (a_uri a) then parse_path (text (drop 7 (chars (a_uri a))))
                  else parse_path (a_uri a) in
      let path := if is_absolute path then path else path_join artifact_root path in
      let resolved := resolve path in
      match relative_to resolved (resolve artifact_root) with
      | None => ret 0
      | Some _ =>
          let* file := is_file resolved in
          if file : bool then st_size resolved else ret 0
      end
  end.
(** The total against the policy's limit. *)
Definition artifact_bytes_error (result : GoblinResult) (p : ResourcePolicy) (artifact_root : PosixPath)
    : M World (option string) :=
  match artifact_max_bytes (filesystem p) with
  | None => ret None
  | Some max_bytes =>
      let* total := foldM (λ total a, let* n := artifact_bytes result artifact_root a in ret (total + n))
                      0 (gr_artifacts result) in
      ret (if max_bytes <? total
           then Some ("artifact bytes exceed policy: " +:+ pretty total +:+ " > " +:+ pretty max_bytes) else None)
  end.
Definition artifact_policy_error (result : GoblinResult) (policy : option ResourcePolicy)
    (artifact_root : PosixPath) : M World (option string) :=
  match policy with
  | None => ret None
  | Some p =>
      let count := Z.of_nat (length (gr_artifacts result)) in
      match artifact_max_files (filesystem p) with
      | Some max_files =>
          if max_files <? count
          then ret (Some ("artifact file count exceeds policy: " +:+ pretty count +:+ " > " +:+ pretty max_files))
          else artifact_bytes_error result p artifact_root
      | None => artifact_bytes_error result p artifact_root
      end
  end.

(** ** The run *)

Definition setup_failed (kind : string) (e : exn) : GoblinResult :=
  failed_result (kind +:+ " Docker runtime setup failed: " +:+ exn_str e) ∅.

(** After the container ended by itself. *)
Definition settle_completed (definition : GoblinDefinition) (context : GoblinContext) (worker_id : string)
    (policy : option ResourcePolicy) (run_dir : PosixPath) (returncode : Z) (stdout stderr : string)
    : M World GoblinResult :=
  let kind := gd_kind definition in
  let* result := _load_result (gc_run_id context) (path_join run_dir (parse_path "result.json")) in
  match result with
  | Some result =>
      let* artifact_error := artifact_policy_error result policy (parse_path (gc_artifact_root context)) in
      match artifact_error with
      | Some error =>
          do* _emit_worker_event "worker.failed" context worker_id
                {[ "kind" := JStr kind; "phase" := JStr "artifact_policy"; "error" := JStr error ]} in
          ret (failed_result error (gr_data result))
      | None =>
          do* _emit_worker_event "worker.completed" context worker_id
                {[ "kind" := JStr kind; "status" := JStr (result_status_str (gr_status result)) ]} in
          ret result
      end
  | None =>
      if negb (returncode =? 0) then
        do* _emit_worker_event "worker.failed" context worker_id
              {[ "kind" := JStr kind; "exit_code" := JInt returncode ]} in
        ret (failed_result (kind +:+ " Docker worker exited " +:+ pretty returncode +:+ ": "
               +:+ (if truthy (strip stderr) then strip stderr else strip stdout)) ∅)
      else
        do* _emit_worker_event "worker.no_result" context worker_id {[ "kind" := JStr kind ]} in
        ret (failed_result (kind +:+ " Docker worker produced no result") ∅)
  end.

(** Once the command line stands. *)
Definition run_command (definition : GoblinDefinition) (image : string) (context : GoblinContext)
    (worker_id : string) (run_dir : PosixPath) (timeout_seconds : option Z) (policy : option ResourcePolicy)
    (command : list string) : M World GoblinResult :=
  let kind := gd_kind definition in
  do* _emit_worker_event "worker.started" context worker_id {[ "kind" := JStr kind ]} in
  let* completed := subprocess_run command timeout_seconds in
  match completed with
  | LaunchError error =>
      do* _emit_worker_event "worker.failed" context worker_id
            {[ "kind" := JStr kind; "phase" := JStr "launch"; "error" := JStr error ]} in
      ret (failed_result (kind +:+ " Docker runtime launch failed: " +:+ error) ∅)
  | Expired stdout stderr =>
      do* _record_worker_heartbeats context in
      do* _emit_container_log_event definition image context worker_id stdout stderr None true policy in
      do* _emit_worker_event "worker.timed_out" context worker_id
            {[ "kind" := JStr kind; "timeout_seconds" := JOptInt timeout_seconds ]} in
      ret (failed_result (kind +:+ " exceeded timeout_seconds=" +:+ py_str (JOptInt timeout_seconds)) ∅)
  | Completed returncode stdout stderr =>
      do* _record_worker_heartbeats context in
      do* _emit_container_log_event definition image context worker_id (Some stdout) (Some stderr)
            (Some returncode) false policy in
      settle_completed definition context worker_id policy run_dir returncode stdout stderr
  end.

Definition docker_run (definition : GoblinDefinition) (input_payload : dict) (context : GoblinContext)
    (timeout_seconds : option Z) (policy : option ResourcePolicy) : M World GoblinResult :=
  match worker_get (dr_workers s) (gd_kind definition) with
  | Err (WorkerConfigError msg) => ret (failed_result msg ∅)
  | Err e => raise e
  | Ok worker =>
      let context := mkGoblinContext (gc_run_id context)
        (as_posix (resolve_docker_artifact_root resolve (dr_run_root s) (gc_artifact_root context)))
        (gc_metadata context) in
      let* prepared := try_catch (let* d := _prepare_run_dir context input_payload in ret (inl d))
        (λ e, if is_path_error e || is_os_error e then ret (inr (setup_failed (gd_kind definition) e)) else raise e) in
      match prepared with
      | inr failed => ret failed
      | inl run_dir =>
          let worker_id := "worker-" +:+ gc_run_id context in
          match _docker_run_command (wi_image worker) run_dir context worker_id timeout_seconds policy
                  (literal_worker_environment definition) (_worker_secret_refs definition) with
          | Ok command => run_command definition (wi_image worker) context worker_id run_dir timeout_seconds
                            policy command
          | Err e => if is_path_error e then ret (setup_failed (gd_kind definition) e) else raise e
          end
      end
  end.
End docker_runtime.

(** ** The engine within a preorder, and what it raises *)

Section engine.
Context `{Sqlite} `{Env} `{Floats} `{DockerEngine}.

(** What the host, Redis and the worker do to the store stays within [R]. *)
Class EngineWithin (R : World → World → Prop) : Prop := {
  ew_run :: ∀ c t, Within R (subprocess_run c t);
  ew_dirs :: ∀ p, Within R (make_dirs p);
  ew_write :: ∀ p t, Within R (write_text p t);
  ew_exists :: ∀ p, Within R (path_exists p);
  ew_read :: ∀ p, Within R (read_text p);
  ew_file :: ∀ p, Within R (is_file p);
  ew_size :: ∀ p, Within R (st_size p);
  ew_channel :: ChannelWithin R
}.
Context (R : World → World → Prop) `{!PreOrder R} `{!EngineWithin R} `{!BusWithin R} (s : DockerSettings).

#[export] Instance within_docker_event ty c w p : Within R (_emit_worker_event s ty c w p).
Proof. apply _. Qed.
#[export] Instance within_docker_heartbeats c : Within R (_record_worker_heartbeats s c).
Proof. apply _. Qed.
#[export] Instance within_log_event d i c w o e x t p : Within R (_emit_container_log_event s d i c w o e x t p).
Proof. unfold _emit_container_log_event. solve_within. Qed.
#[export] Instance within_load_result r p : Within R (_load_result s r p).
Proof. unfold _load_result. solve_within. Qed.
#[export] Instance within_artifact_bytes r root a : Within R (artifact_bytes r root a).
Proof. unfold artifact_bytes. solve_within. Qed.
#[export] Instance within_bytes_error r p root : Within R (artifact_bytes_error r p root).
Proof. unfold artifact_bytes_error. solve_within. Qed.
#[export] Instance within_policy_error r p root : Within R (artifact_policy_error r p root).
Proof. unfold artifact_policy_error. solve_within. Qed.
#[export] Instance within_prepare c i : Within R (_prepare_run_dir s c i).
Proof. unfold _prepare_run_dir. solve_within. Qed.
#[export] Instance within_settle d c w p dir code o e : Within R (settle_completed s d c w p dir code o e).
Proof. unfold settle_completed. solve_within. Qed.
#[export] Instance within_run_command d i c w dir t p cmd : Within R (run_command s d i c w dir t p cmd).
Proof. unfold run_command. solve_within. Qed.
#[export] Instance within_docker_run d i c t p : Within R (docker_run s d i c t p).
Proof. unfold docker_run. solve_within. Qed.
End engine.

(** ** What the runtime raises *)

Section raising.
Context `{Sqlite} `{Env} `{Floats} `{DockerEngine}.

(** No operation of the host raises the scheduler's own exception. *)
Class EngineRaises (Q : exn → Prop) : Prop := {
  er_run :: ∀ c t, Raises Q (subprocess_run c t);
  er_dirs :: ∀ p, Raises Q (make_dirs p);
  er_write :: ∀ p t, Raises Q (write_text p t);
  er_exists :: ∀ p, Raises Q (path_exists p);
  er_read :: ∀ p, Raises Q (read_text p);
  er_file :: ∀ p, Raises Q (is_file p);
  er_size :: ∀ p, Raises Q (st_size p);
  er_channel :: ChannelRaises Q
}.
Context `{!EngineRaises not_superseded} (s : DockerSettings).

#[export] Instance raises_docker_event ty c w p : Raises not_superseded (_emit_worker_event s ty c w p).
Proof. apply _. Qed.
#[export] Instance raises_docker_heartbeats c : Raises not_superseded (_record_worker_heartbeats s c).
Proof. apply _. Qed.
#[export] Instance raises_log_event d i c w o e x t p :
  Raises not_superseded (_emit_container_log_event s d i c w o e x t p).
Proof. unfold _emit_container_log_event. solve_raises. Qed.
#[export] Instance raises_load_result r p : Raises not_superseded (_load_result s r p).
Proof.
  unfold _load_result. solve_raises. by eapply decoded_result_error.
Qed.
#[export] Instance raises_artifact_bytes r root a : Raises not_superseded (artifact_bytes r root a).
Proof. unfold artifact_bytes. solve_raises. Qed.
#[export] Instance raises_policy_error r p root : Raises not_superseded (artifact_policy_error r p root).
Proof. unfold artifact_policy_error, artifact_bytes_error. solve_raises. Qed.
#[export] Instance raises_prepare c i : Raises not_superseded (_prepare_run_dir s c i).
Proof. unfold _prepare_run_dir. solve_raises. Qed.
#[export] Instance raises_run_command d i c w dir t p cmd :
  Raises not_superseded (run_command s d i c w dir t p cmd).
Proof. unfold run_command, settle_completed. solve_raises. Qed.

(** What building the command line may raise. *)
Lemma py_float_error t e : py_float t = Err e → ∃ m, e = ValueError m.
Proof. unfold py_float. case_match; [done|]. intros [= <-]. by eexists. Qed.
Lemma policy_args_error p e : policy_args p = Err e → ∃ m, e = ValueError m.
Proof.
  unfold policy_args, docker_policy_args, cpu_argument. destruct p as [p|]; [|done].
  destruct (cpu_limit (cpu p)) as [l|]; simpl; [|done]. destruct (truthy l); simpl; [|done].
  destruct (ends_with _ l); simpl; [|done].
  destruct (py_float (drop_last l)) as [f|e'] eqn:Hf; simpl; [done|]. intros [= <-]. by apply py_float_error in Hf.
Qed.
Lemma data_root_error p r label e :
  relative_to_docker_data_root resolve p r label = Err e → is_path_error e = true.
Proof. unfold relative_to_docker_data_root. case_match; [done|]. by intros [= <-]. Qed.
Lemma mount_args_error dir root e : mount_args s dir root = Err e → is_path_error e = true.
Proof.
  unfold mount_args. destruct (environ _) as [v|]; [|done]. destruct (truthy v); [|done]. cbv zeta.
  destruct (relative_to_docker_data_root resolve dir _ _) as [a|e'] eqn:Ha; simpl.
  - destruct (relative_to_docker_data_root resolve root _ _) as [b|e'] eqn:Hb; simpl; [done|].
    intros [= <-]. by apply data_root_error in Hb.
  - intros [= <-]. by apply data_root_error in Ha.
Qed.
Lemma command_error i dir c w t p env refs e :
  _docker_run_command s i dir c w t p env refs = Err e → is_path_error e = true ∨ ∃ m, e = ValueError m.
Proof.
  unfold _docker_run_command. destruct (policy_args p) as [a|e'] eqn:Hp; simpl.
  - destruct (mount_args s dir _) as [b|e'] eqn:Hm; simpl; [done|]. intros [= <-]. left.
    by apply mount_args_error in Hm.
  - intros [= <-]. right. by apply policy_args_error in Hp.
Qed.

#[export] Instance raises_docker_run d i c t p : Raises not_superseded (docker_run s d i c t p).
Proof.
  unfold docker_run. destruct (worker_get _ _) as [wk|e] eqn:Hw.
  2: { unfold worker_get in Hw. case_match; [done|]. injection Hw as <-. apply _. }
  solve_raises. apply raises_raise.
  match goal with Hc : _docker_run_command _ _ _ _ _ _ _ _ _ = Err _ |- _ =>
    apply command_error in Hc as [?|[m ->]]; [congruence|by intros m'] end.
Qed.
End raising.

(** ** The runtime as the scheduler's [Workers] *)

Section workers.
Context `{Sqlite} `{Env} `{Crypto} `{Pydantic} `{Floats} `{Imports} `{Host} `{DockerEngine}.
(** What the scheduler passes to the constructor, and the runtimes that are not Docker. *)
Context (base : Workers) (redis_url : string).

Definition docker_settings (workers : WorkerImageMap) : DockerSettings :=
  mkDockerSettings workers redis_url
    (match resolve_docker_run_root environ (@docker_run_root base) with
     | Ok root => root | Err _ => DEFAULT_DOCKER_RUN_ROOT end) "docker" true 5.

Definition docker_workers : Workers := {|
  open_runtime mode workers :=
    match mode with
    | ModeDocker => let? _ := resolve_docker_run_root environ (@docker_run_root base) in Ok tt
    | _ => @open_runtime base mode workers
    end;
  container_run r d i c t p :=
    match r with
    | DockerRuntime (Some workers) => docker_run (docker_settings workers) d i c t p
    | _ => @container_run base r d i c t p
    end;
  entrypoint_call := @entrypoint_call base;
  docker_run_root := @docker_run_root base;
  validation_image_identity := @validation_image_identity base;
  effective_workload_security := @effective_workload_security base;
  croniter_next := @croniter_next base;
  croniter_after := @croniter_after base
|}.

Context `{!Inj eq eq uuid4}.

Lemma run_root_error root e : resolve_docker_run_root environ root = Err e → is_path_error e = true.
Proof. unfold resolve_docker_run_root. repeat case_match; by intros [= <-]. Qed.

Lemma docker_workers_tend id :
  EngineWithin (keeps_job id) → EngineRaises not_superseded → @WorkersTend _ _ base id →
  @WorkersTend _ _ docker_workers id.
Proof.
  intros Hwithin Hraises [Hrun Hcall Hsup Himp Hopen]. split; simpl.
  - intros [[ws|]| |] d i c t p; apply _.
  - apply _.
  - intros [[ws|]| |] d i c t p w m; try apply Hsup. intros Heq.
    by apply (raises (Q := not_superseded) (m := docker_run (docker_settings ws) d i c t p) w _ Heq m).
  - done.
  - intros [] ws m; try apply Hopen. destruct (resolve_docker_run_root _ _) as [r|e] eqn:He; simpl; [done|].
    intros [= ->]. by apply run_root_error in He.
Qed.
End workers.

(** ** What a success means *)

Section success.
Context `{Sqlite} `{Env} `{Floats} `{DockerEngine} (s : DockerSettings).

(** The text was the run's value in Redis, or its result file. *)
Definition result_text (run_id : string) (result_path : PosixPath) (raw : string) : Prop :=
  (∃ w w', redis_get (dr_redis_url s) (worker_result_key run_id) w = (w', Ok (Some raw)))
  ∨ ∃ w w', read_text result_path w = (w', Ok raw).

Lemma load_result_some run_id path w w' r :
  _load_result s run_id path w = (w', Ok (Some r)) →
  ∃ raw, result_text run_id path raw ∧ decoded_result raw = Ok r.
Proof.
  unfold _load_result. intros (w1 & raw & Hget & Hrest)%bind_ok.
  apply bind_ok in Hrest as (w2 & raw' & Hraw & Hdec).
  destruct raw' as [t|]; [|done]. exists t. split.
  - destruct raw as [t'|].
    + injection Hraw as -> ->. left. unfold try_catch in Hget.
      destruct (redis_get _ _ w) as [w3 [o|e]] eqn:Hg; [injection Hget as -> ->; eauto|].
      by destruct (is_redis_error e).
    + apply bind_ok in Hraw as (w3 & b & _ & Hraw). destruct b; [|done].
      apply bind_ok in Hraw as (w4 & t' & Ht & [= -> ->]). right. eauto.
  - apply bind_ok in Hdec as (w3 & r' & Hr & Hret). injection Hret as -> ->. by injection Hr.
Qed.

Lemma artifact_policy_files r p root w w' :
  artifact_policy_error r (Some p) root w = (w', Ok None) →
  ∀ n, artifact_max_files (filesystem p) = Some n → Z.of_nat (length (gr_artifacts r)) ≤ n.
Proof.
  unfold artifact_policy_error. intros Hrun n Hn. rewrite Hn in Hrun.
  destruct (Z.ltb_spec n (Z.of_nat (length (gr_artifacts r)))); [done|lia].
Qed.

(** The worker's own success. *)
Definition genuine (run_id : string) (path : PosixPath) (policy : option ResourcePolicy) (r : GoblinResult) : Prop :=
  ∃ raw, result_text run_id path raw ∧ parse_result raw = Ok r
    ∧ ∀ p n, policy = Some p → artifact_max_files (filesystem p) = Some n → Z.of_nat (length (gr_artifacts r)) ≤ n.

Lemma returned_failure {A} (m : M World A) msg data w w' r :
  (do* m in ret (failed_result msg data)) w = (w', Ok r) → gr_status r = ResFailed.
Proof. intros (w1 & x & _ & Hret)%bind_ok. by injection Hret as <- <-. Qed.

Lemma settle_genuine d c wid policy dir code out err w w' r :
  settle_completed s d c wid policy dir code out err w = (w', Ok r) → gr_status r = ResSuccess →
  genuine (gc_run_id c) (path_join dir (parse_path "result.json")) policy r.
Proof.
  unfold settle_completed. intros (w1 & o & Hload & Hrest)%bind_ok Hr. destruct o as [r0|].
  - apply bind_ok in Hrest as (w2 & o & Hpol & Hrest). destruct o as [err'|].
    { apply returned_failure in Hrest. congruence. }
    apply bind_ok in Hrest as (w3 & ? & _ & Hret). injection Hret as <- ->.
    apply load_result_some in Hload as (raw & Htext & Hdec). exists raw. split_and!; [done| |].
    + unfold decoded_result in Hdec. destruct (parse_result raw) as [r1|e]; [by injection Hdec as ->|].
      destruct (is_value_error e); [|done]. injection Hdec as <-. done.
    + intros p n -> Hn. by eapply artifact_policy_files.
  - destruct (negb (code =? 0)); apply returned_failure in Hrest; congruence.
Qed.

Lemma run_command_genuine d image c wid dir t policy cmd w w' r :
  run_command s d image c wid dir t policy cmd w = (w', Ok r) → gr_status r = ResSuccess →
  genuine (gc_run_id c) (path_join dir (parse_path "result.json")) policy r.
Proof.
  unfold run_command. intros (w1 & ? & _ & Hrest)%bind_ok Hr.
  apply bind_ok in Hrest as (w2 & o & _ & Hrest). destruct o as [code out err|msg|out err].
  - apply bind_ok in Hrest as (w3 & ? & _ & Hrest). apply bind_ok in Hrest as (w4 & ? & _ & Hrest).
    by eapply settle_genuine.
  - apply returned_failure in Hrest. congruence.
  - apply bind_ok in Hrest as (w3 & ? & _ & Hrest). apply bind_ok in Hrest as (w4 & ? & _ & Hrest).
    apply returned_failure in Hrest. congruence.
Qed.

(** A run succeeds only by its worker's word.  When the runtime answers with a
    success, the answer is what the validated text says that was read from this run's
    key in Redis or from the result file in this run's directory, and it holds no more
    artifacts than the policy allows; a missing mapping, a refused path, a launch that
    fails, a timeout, an exit without result or an invalid text are all failures. *)
Theorem docker_success_genuine d i c t policy w w' r :
  docker_run s d i c t policy w = (w', Ok r) → gr_status r = ResSuccess →
  genuine (gc_run_id c)
    (path_join (resolve (path_join (dr_run_root s) (parse_path (gc_run_id c)))) (parse_path "result.json"))
    policy r.
Proof.
  unfold docker_run. intros Hrun Hr. destruct (worker_get _ _) as [wk|e].
  2: { destruct e; try done. injection Hrun as <- <-. done. }
  apply bind_ok in Hrun as (w1 & prepared & Hprep & Hrest). destruct prepared as [dir|failed]; [|].
  - assert (dir = resolve (path_join (dr_run_root s) (parse_path (gc_run_id c)))) as ->.
    { unfold try_catch in Hprep. destruct (bind _ _ w) as [w2 [x|e]] eqn:Hb.
      - injection Hprep as -> ->. apply bind_ok in Hb as (w3 & dir' & Hdir & Hret). injection Hret as <- ->.
        unfold _prepare_run_dir in Hdir. do 4 (apply bind_ok in Hdir as (? & ? & _ & Hdir)).
        by injection Hdir as _ <-.
      - destruct (_ || _); discriminate. }
    destruct (_docker_run_command _ _ _ _ _ _ _ _ _) as [cmd|e]; [by apply run_command_genuine in Hrest|].
    destruct (is_path_error e); [|done]. injection Hrest as <- <-. done.
  - injection Hrest as <- ->. unfold try_catch in Hprep. destruct (bind _ _ w) as [w2 [x|e]] eqn:Hb.
    + injection Hprep as -> ->. apply bind_ok in Hb as (? & ? & _ & Hret). discriminate Hret.
    + destruct (_ || _); [|done]. by injection Hprep as _ <-.
Qed.
End success.

(** ** Secrets *)

Definition with_environ (env : string → option string) (e : DockerEngine) : DockerEngine := {|
  environ := env; resolve := @resolve e; subprocess_run := @subprocess_run e; make_dirs := @make_dirs e;
  write_text := @write_text e; path_exists := @path_exists e; read_text := @read_text e; is_file := @is_file e;
  st_size := @st_size e; is_os_error := @is_os_error e; docker_channel := @docker_channel e
|}.
Definition deployment_names : list string :=
  ["GOBLIN_KING_DOCKER_DATA_VOLUME"; "GOBLIN_KING_DOCKER_DATA_MOUNT"; "GOBLIN_KING_DOCKER_NETWORK"].

Lemma env_args_agree e env1 env2 worker_env refs :
  (∀ k, k ∈ refs → (is_Some (env1 k) ↔ is_Some (env2 k))) →
  @_docker_env_args (with_environ env1 e) worker_env refs = @_docker_env_args (with_environ env2 e) worker_env refs.
Proof.
  intros Hagree. unfold _docker_env_args. f_equal. f_equal. apply list_fmap_ext. intros i k Hk.
  assert (k ∈ refs) as Hin.
  { apply elem_of_remove_dups. unfold sorted_strings in Hk. apply list_elem_of_lookup_2 in Hk.
    unfold merge_by in Hk. by rewrite merge_sort_Permutation in Hk. }
  specialize (Hagree k Hin). simpl. destruct (env1 k), (env2 k); try done; simpl;
    destruct Hagree as [H1 H2]; [destruct (H1 (ltac:(eauto)))|destruct (H2 (ltac:(eauto)))]; discriminate.
Qed.

(** C26: secrets stay out of the command line.  The arguments of [docker run], which every
    user of the machine can list, depend on the process environment only through the
    deployment's own settings and on which of the goblin's secret names are set: two
    environments that agree on these give the same command, whatever the values. *)
Theorem secret_values_hidden `{Floats} e env1 env2 s image dir c wid t policy worker_env refs :
  (∀ n, n ∈ deployment_names → env1 n = env2 n) →
  (∀ k, k ∈ refs → (is_Some (env1 k) ↔ is_Some (env2 k))) →
  @_docker_run_command _ (with_environ env1 e) s image dir c wid t policy worker_env refs
  = @_docker_run_command _ (with_environ env2 e) s image dir c wid t policy worker_env refs.
Proof.
  intros Hnames Hrefs. unfold _docker_run_command.
  rewrite (env_args_agree e env1 env2 worker_env refs Hrefs).
  assert (∀ root, @mount_args (with_environ env1 e) s dir root = @mount_args (with_environ env2 e) s dir root) as Hmount.
  { intros root. unfold mount_args. simpl. rewrite !Hnames by (unfold deployment_names; set_solver). done. }
  assert (@network_args (with_environ env1 e) policy = @network_args (with_environ env2 e) policy) as Hnet.
  { unfold network_args. simpl. by rewrite Hnames by (unfold deployment_names; set_solver). }
  simpl. by rewrite Hmount, Hnet.
Qed.

(** ** Concrete runs *)

(** A host whose worker prints a greeting, exits and leaves a result. *)
Definition quiet_engine (env : string → option string) (stored : option string) (o : DockerOutcome) : DockerEngine := {|
  environ := env; resolve p := p; subprocess_run _ _ := ret o; make_dirs _ := ret tt; write_text _ _ := ret tt;
  path_exists _ := ret false; read_text _ := raise (OtherException "FileNotFoundError" "result.json");
  is_file _ := ret false; st_size _ := ret 0;
  is_os_error e := match e with OtherException _ _ => true | _ => false end;
  docker_channel := quiet_channel stored
|}.
Definition no_environ (name : string) : option string := None.
Definition report_workers : WorkerImageMap := {[ "report" := mkWorkerImage "." "Dockerfile" "report:1" ]}.
Definition plain_docker : DockerSettings :=
  mkDockerSettings report_workers "redis://cache" DEFAULT_DOCKER_RUN_ROOT "docker" true 5.
Definition report_context : GoblinContext :=
  mkGoblinContext "run-1" ".goblin-king/artifacts/high" {[ "job_id" := JStr "high" ]}.
Definition run_plain (stored : option string) (o : DockerOutcome) : World * result GoblinResult :=
  @docker_run sqlite_merge frozen_env int_floats (quiet_engine no_environ stored o) plain_docker sample_goblin ∅
    report_context (Some 5) None claimed_world.
Definition run_events (r : World * result GoblinResult) : list string :=
  e_event_type <$> merge_by (le_asc e_sequence) (rows (events (w_events r.1))).

Example docker_runs :
  (run_plain (Some "{}") (Completed 0 "hi" EmptyString)).2 = Ok greeting
  ∧ run_events (run_plain (Some "{}") (Completed 0 "hi" EmptyString))
    = ["worker.started"; "worker.container_logs"; "worker.completed"]
  ∧ (run_plain None (Completed 3 "out" " boom ")).2
    = Ok (failed_result "report Docker worker exited 3: boom" ∅)
  ∧ run_events (run_plain None (Expired (Some "out") None))
    = ["worker.started"; "worker.container_logs"; "worker.timed_out"]
  ∧ (run_plain None (LaunchError "no docker")).2
    = Ok (failed_result "report Docker runtime launch failed: no docker" ∅).
Proof. split_and!; vm_compute; reflexivity. Qed.
(** A success counts even when the container itself failed. *)
Example result_outranks_exit_code : (run_plain (Some "{}") (Completed 137 EmptyString "killed")).2 = Ok greeting.
Proof. vm_compute. reflexivity. Qed.
(** A goblin's own environment is given after the contract's: for [docker run] the last
    setting of a name counts. *)
Example environment_overrides_contract :
  let g := mkGoblinDefinition "report" "Report" "reports" "run" None None
             {[ "env" := JObj [("GOBLIN_RUN_ID", JStr "other")] ]} in
  match @_docker_run_command int_floats (quiet_engine no_environ None (LaunchError EmptyString)) plain_docker
          "report:1" (parse_path "runs/run-1") report_context "worker-run-1" None None
          (literal_worker_environment g) [] with
  | Ok command => filter (λ a, starts_with "GOBLIN_RUN_ID=" a = true) command
                  = ["GOBLIN_RUN_ID=run-1"; "GOBLIN_RUN_ID=other"]
  | Err _ => False
  end.
Proof. vm_compute. reflexivity. Qed.

Lemma quiet_within R env stored o : PreOrder R → @EngineWithin (quiet_engine env stored o) R.
Proof. split; intros; apply _. Qed.
Lemma quiet_raises env stored o : @EngineRaises (quiet_engine env stored o) not_superseded.
Proof. split; intros; simpl; try apply _. by apply raises_raise; intros m. Qed.

Lemma docker_success_genuine_witness :
  @genuine (quiet_engine no_environ (Some "{}") (Completed 0 "hi" EmptyString)) plain_docker "run-1"
    (parse_path ".goblin-king/runs/run-1/result.json") None greeting.
Proof.
  apply (@docker_success_genuine sqlite_merge frozen_env int_floats
           (quiet_engine no_environ (Some "{}") (Completed 0 "hi" EmptyString)) plain_docker sample_goblin ∅
           report_context (Some 5) None claimed_world
           (run_plain (Some "{}") (Completed 0 "hi" EmptyString)).1 greeting).
  - vm_compute. reflexivity.
  - reflexivity.
Defined.

Definition token_environ (value name : string) : option string := if String.eqb name "API_TOKEN" then Some value else None.
Lemma secret_values_hidden_witness :
  let command value :=
    @_docker_run_command int_floats (with_environ (token_environ value) (quiet_engine no_environ None (LaunchError EmptyString)))
      plain_docker "report:1" (parse_path "runs/run-1") report_context "worker-run-1" None None [] ["API_TOKEN"] in
  command "hunter2" = command "xyzzy".
Proof.
  apply (@secret_values_hidden int_floats (quiet_engine no_environ None (LaunchError EmptyString))
           (token_environ "hunter2") (token_environ "xyzzy") plain_docker).
  - intros n Hn. unfold deployment_names in Hn. repeat (apply elem_of_cons in Hn as [->|Hn]; [reflexivity|]).
    by apply not_elem_of_nil in Hn.
  - intros k ->%list_elem_of_singleton. simpl. split; intros _; by eexists.
Defined.
