(* ===== verification/KubeRuntime.v ===== *)
(** * The Kubernetes runtime

    [kubernetes_pod_diagnostics.py], [kubernetes_runtime.py] and the namespace of
    [runtime_helpers.py]: one worker as one Job.  The cluster is the class
    [KubeCluster], arbitrary calls on the [World] that may raise; what they answer is
    read by the definitions below.  A client may refuse an option it does not know with
    a TypeError, which the code takes as the sign to call again without it. *)

From Stdlib Require Import Ascii.
From S2P Require Import Prelude CausalTime Contracts Text Paths PyValues ResourcePolicies EventStore JobStore JobLifecycle RecordStore Auth Registry World Polling Containers KubeSettings KubeManifest Validation Scheduler Attempts WorkerChannel DockerRuntime.

(** ** What the cluster shows *)

Record JobStatusView := mkJobStatus { js_succeeded : Z; js_failed : Z }.
(** A container's status: the reason and message it waits with, the code it ended with. *)
Record ContainerStatus := mkStatus {
  cs_name : string; cs_reason : string; cs_message : option string; cs_exit_code : option Z
}.
Record PodView := mkPodView { pv_name : string; pv_init_statuses : list ContainerStatus; pv_statuses : list ContainerStatus }.
Inductive LogValue := LogBytes (b : string) | LogText (t : string).
(** Which transport options a call passes. *)
Inductive ReadOptions := PreloadAndTimeout | TimeoutOnly | NoOptions.

Class KubeCluster := {
  (** [kubernetes_clients()]: the two API clients, or an exception *)
  kubernetes_clients : M World unit;
  create_namespaced_config_map : string → string → list (string * string) → M World unit;
  create_namespaced_job : string → Json → M World unit;
  read_namespaced_job : string → string → M World JobStatusView;
  (** with [_request_timeout] or without it *)
  list_namespaced_pod : bool → string → string → M World (list PodView);
  (** options, namespace, Pod, container, [limit_bytes] *)
  read_namespaced_pod_log : ReadOptions → string → string → string → Z → M World LogValue;
  delete_namespaced_job : string → string → M World unit;
  delete_namespaced_config_map : string → string → M World unit;
  sleep : Z → M World unit;      (* time.sleep, microseconds *)
  kube_channel :: WorkerChannel
}.

(** ** Diagnostics ([kubernetes_pod_diagnostics.py]) *)

Definition _IMAGE_PULL_FAILURE_REASONS : list string :=
  ["ErrImageNeverPull"; "ErrImagePull"; "ImagePullBackOff"; "InvalidImageName"; "RegistryUnavailable"].
Definition _MAX_MESSAGE_CHARACTERS : Z := 400.
Definition _MAX_DIAGNOSTIC_CHARACTERS : Z := 500.
Definition DEFAULT_KUBERNETES_LOG_CAPTURE_BYTES : Z := 64 * 1024.

Record LogCapture := mkCapture { lc_text : string; lc_truncated : bool; lc_observed_bytes : Z; lc_read_failed : bool }.
Record KubernetesRunObservation := mkObservation {
  ob_result : GoblinResult; ob_job_created : bool; ob_result_received : bool; ob_envelope_valid : bool;
  ob_exit_code : option Z; ob_logs : gmap string LogCapture
}.
Definition observed (r : GoblinResult) : KubernetesRunObservation := mkObservation r false false false None ∅.
Definition with_job_created (o : KubernetesRunObservation) : KubernetesRunObservation :=
  mkObservation (ob_result o) true (ob_result_received o) (ob_envelope_valid o) (ob_exit_code o) (ob_logs o).
Definition with_runtime_diagnostics (exit_code : option Z) (logs : gmap string LogCapture)
    (o : KubernetesRunObservation) : KubernetesRunObservation :=
  mkObservation (ob_result o) (ob_job_created o) (ob_result_received o) (ob_envelope_valid o) exit_code logs.

Definition _bounded_text (value : string) (limit : Z) : string :=
  if str_len value <=? limit then value else str_take (limit - 3) value +:+ "...".
Definition _bounded_message (value : option string) : string :=
  _bounded_text (py_join " " (split_words (default EmptyString value))) _MAX_MESSAGE_CHARACTERS.

Record KubernetesContainerStartFailure := mkStartFailure {
  sf_pod : string; sf_container : string; sf_reason : string; sf_message : string }.
Definition describe (f : KubernetesContainerStartFailure) (job_name : string) : string :=
  let detail := if truthy (sf_message f) then ": " +:+ sf_message f else EmptyString in
  _bounded_text ("Kubernetes Job " +:+ job_name +:+ " Pod " +:+ sf_pod f +:+ " container " +:+ sf_container f
    +:+ " could not pull its image: " +:+ sf_reason f +:+ detail) _MAX_DIAGNOSTIC_CHARACTERS.

(** The first container of one Pod that waits for an image it cannot pull. *)
Definition pod_pull_failure (pod : PodView) : option KubernetesContainerStartFailure :=
  (λ s, mkStartFailure (pv_name pod) (cs_name s) (cs_reason s) (_bounded_message (cs_message s)))
    <$> List.find (λ s, bool_decide (cs_reason s ∈ _IMAGE_PULL_FAILURE_REASONS))
          (pv_init_statuses pod ++ pv_statuses pod).
Definition _container_exit_code (pod : PodView) (container : string) : option Z :=
  List.find (λ s, String.eqb (cs_name s) container) (pv_statuses pod) ≫= cs_exit_code.

Section diagnostics.
Context `{KubeCluster} (namespace : string).

Definition is_type_error (e : exn) : bool := match e with TypeError _ => true | _ => false end.
Definition _list_job_pods (job_name : string) : M World (option (list PodView)) :=
  try_catch (let* pods := list_namespaced_pod true namespace job_name in ret (Some pods))
    (λ e, if is_type_error e
          then try_catch (let* pods := list_namespaced_pod false namespace job_name in ret (Some pods))
                 (λ _, ret None)
          else ret None).
Definition find_image_pull_failure (job_name : string) : M World (option KubernetesContainerStartFailure) :=
  let* pods := _list_job_pods job_name in
  ret (pods ≫= (λ l, head (omap pod_pull_failure l))).

Definition log_text (v : LogValue) : string :=
  match v with LogBytes b => text (decode_replace (chars b)) | LogText t => t end.
Definition _read_kubernetes_pod_log_value (pod_name container : string) (limit_bytes : Z) (raise_on_error : bool)
    : M World string :=
  let read o := read_namespaced_pod_log o namespace pod_name container limit_bytes in
  let again (e : exn) (m : M World LogValue) := if is_type_error e then m else raise e in
  try_catch
    (let* value := try_catch (read PreloadAndTimeout)
       (λ e, again e (try_catch (read TimeoutOnly) (λ e, again e (read NoOptions)))) in
     ret (log_text value))
    (λ e, if raise_on_error then raise e
          else ret (_bounded_text ("unable to read " +:+ container +:+ " logs: " +:+ exn_str e)
                      _MAX_DIAGNOSTIC_CHARACTERS)).
Definition read_bounded_kubernetes_pod_log (pod_name container : string) : M World string :=
  _read_kubernetes_pod_log_value pod_name container DEFAULT_KUBERNETES_LOG_CAPTURE_BYTES false.
Definition _read_kubernetes_pod_log_capture (pod_name container : string) (max_bytes : Z) : M World LogCapture :=
  try_catch
    (let* value := _read_kubernetes_pod_log_value pod_name container (max_bytes + 1) true in
     let '(t, cut, n) := tail_text (Some value) max_bytes in
     ret (mkCapture t cut n false))
    (λ e, let message := _bounded_text ("unable to read " +:+ container +:+ " logs: " +:+ exn_str e)
                           _MAX_DIAGNOSTIC_CHARACTERS in
          ret (mkCapture message false (Z.of_nat (String.length message)) true)).

Definition capture_kubernetes_pod_diagnostics (job_name : string) (observation : KubernetesRunObservation)
    (worker_log_max_bytes : option Z) : M World KubernetesRunObservation :=
  let* pods := _list_job_pods job_name in
  match pods with
  | None | Some [] => ret observation
  | Some (pod :: _) =>
      let worker_limit := Z.min DEFAULT_KUBERNETES_LOG_CAPTURE_BYTES
        (match worker_log_max_bytes with
         | None => DEFAULT_KUBERNETES_LOG_CAPTURE_BYTES | Some n => Z.max n 0 end) in
      let* worker := _read_kubernetes_pod_log_capture (pv_name pod) "worker" worker_limit in
      let* forwarder_log := read_bounded_kubernetes_pod_log (pv_name pod) "result-forwarder" in
      ret (with_runtime_diagnostics (_container_exit_code pod "worker")
             (<["worker" := worker]> {[ "result-forwarder" :=
                mkCapture forwarder_log false (Z.of_nat (String.length forwarder_log)) false ]}) observation)
  end.
Definition read_kubernetes_worker_log_excerpt (job_name : string) : M World string :=
  let* pods := _list_job_pods job_name in
  match pods with
  | None | Some [] => ret "no worker pod found"
  | Some (pod :: _) =>
      let* logs := read_bounded_kubernetes_pod_log (pv_name pod) "worker" in
      ret (_bounded_text logs _MAX_DIAGNOSTIC_CHARACTERS)
  end.
End diagnostics.

(** ** The runtime ([kubernetes_runtime.py]) *)

(** [current_kubernetes_namespace]: the mounted namespace file, else the environment. *)
Definition current_kubernetes_namespace (namespace_file : option string) (environ : string → option string) : string :=
  match namespace_file with
  | Some t => strip t
  | None => default "default" (environ "GOBLIN_KING_K8S_NAMESPACE")
  end.

Record KubeRuntime := mkKubeRuntime {
  kr_workers : WorkerImageMap; kr_redis_url : string; kr_namespace : string;
  kr_settings : KubernetesRuntimeSettings; kr_event_bus : bool;
  kr_heartbeat_interval_seconds : Z; kr_poll_interval : Z      (* microseconds *)
}.

(** [timeout_seconds or 300] and half a minute for the forwarder, in microseconds. *)
Definition wait_limit (timeout_seconds : option Z) : Z := (or_300 timeout_seconds + 30) * 1000000.
Definition invalid_prefix : string := "worker produced invalid result JSON:".

(** [try: m finally: cleanup] *)
Definition try_finally {S A} (m : M S A) (cleanup : M S unit) : M S A := λ s,
  let '(s1, r) := m s in
  match cleanup s1 with (s2, Ok _) => (s2, r) | (s2, Err e) => (s2, Err e) end.

Section runtime.
Context `{Sqlite} `{Env} `{Quantities} `{KubeCluster} (k : KubeRuntime).
Abbreviation ns := (kr_namespace k).

Definition kube_worker_event : string → GoblinContext → string → dict → M World unit :=
  emit_worker_event (kr_event_bus k).
Definition kube_worker_heartbeats : GoblinContext → M World unit :=
  record_worker_heartbeats (kr_event_bus k) (kr_redis_url k).

(** *** The result *)

Definition result_key (run_id : string) : string :=
  if opt_truthy (artifact_retention (kr_settings k)) then forwarded_result_key run_id else worker_result_key run_id.
Definition kube_load_result (run_id : string) : M World (option GoblinResult) :=
  let* raw := try_catch (redis_get (kr_redis_url k) (result_key run_id))
    (λ e, if is_redis_error e then ret None else raise e) in
  match raw with
  | None => ret None
  | Some raw => let* r := lift_result (decoded_result raw) in ret (Some r)
  end.
Definition _load_result_observed (run_id : string) : M World KubernetesRunObservation :=
  let* result := kube_load_result run_id in
  match result with
  | None => ret (observed (failed_result "worker result was not received" ∅))
  | Some r =>
      let valid := negb (bool_decide (gr_status r = ResFailed)
                         && starts_with invalid_prefix (default EmptyString (gr_error r))) in
      ret (mkObservation r false true valid None ∅)
  end.

(** *** Waiting *)

Definition after_success (name run_id : string) : M World KubernetesRunObservation :=
  let* observation := _load_result_observed run_id in
  ret (if ob_result_received observation then observation
       else observed (failed_result (name +:+ " completed without a Redis result") ∅)).
Definition after_failure (name run_id : string) : M World KubernetesRunObservation :=
  let* logs := read_kubernetes_worker_log_excerpt ns name in
  let* forwarded := _load_result_observed run_id in
  ret (if ob_result_received forwarded then
         let r := ob_result forwarded in
         if bool_decide (gr_status r = ResFailed) then forwarded
         else mkObservation (GoblinResult_failed (name +:+ " failed after publishing a result: " +:+ logs)
                               (gr_data r) (gr_artifacts r) (gr_metrics r) (gr_handoff r))
                false true (ob_envelope_valid forwarded) None ∅
       else observed (failed_result (name +:+ " failed: " +:+ logs) ∅)).
(** One look at the Job: an observation when the wait is over. *)
Definition poll_job (name run_id : string) : M World (option KubernetesRunObservation) :=
  let* job := read_namespaced_job ns name in
  if negb (js_succeeded job =? 0) then let* o := after_success name run_id in ret (Some o)
  else if negb (js_failed job =? 0) then let* o := after_failure name run_id in ret (Some o)
  else
    let* pull_failure := find_image_pull_failure ns name in
    match pull_failure with
    | Some f => ret (Some (observed (failed_result (describe f name) ∅)))
    | None => do* sleep (kr_poll_interval k) in ret None
    end.
(** The loop: [None] when the fuel is spent. *)
Fixpoint wait_loop (fuel : nat) (name run_id : string) (started limit : Z)
    : M World (option KubernetesRunObservation) :=
  match fuel with
  | O => ret None
  | S fuel' =>
      let* now := zoom w_process_lens time_monotonic in
      if now - started <? limit then
        let* o := poll_job name run_id in
        match o with Some o => ret (Some o) | None => wait_loop fuel' name run_id started limit end
      else ret (Some (observed (failed_result (name +:+ " exceeded wait timeout") ∅)))
  end.
(** One iteration per poll interval, and one each for its start and its end. *)
Definition wait_fuel (timeout_seconds : option Z) : nat :=
  Z.to_nat (Z.max 0 (wait_limit timeout_seconds / kr_poll_interval k) + 2).
Definition OutOfFuel : exn := OtherException "OutOfFuel" EmptyString.
Definition _wait_for_result_observed (name run_id : string) (timeout_seconds : option Z)
    : M World KubernetesRunObservation :=
  let* started := zoom w_process_lens time_monotonic in
  let* o := wait_loop (wait_fuel timeout_seconds) name run_id started (wait_limit timeout_seconds) in
  match o with Some o => ret o | None => raise OutOfFuel end.

(** *** The run *)

(** [_cleanup]: both deletions, whatever either of them raises. *)
Definition _cleanup (job_name config_name : string) : M World unit :=
  do* try_catch (delete_namespaced_job ns job_name) (λ _, ret tt) in
  try_catch (delete_namespaced_config_map ns config_name) (λ _, ret tt).

Definition kube_log_event (definition : GoblinDefinition) (image : string) (context : GoblinContext)
    (worker_id : string) (o : KubernetesRunObservation) (max_bytes : Z) : M World unit :=
  if negb (kr_event_bus k) then ret tt else
  let capture := default (mkCapture EmptyString false 0 false) (ob_logs o !! "worker") in
  let observed_bytes := if lc_read_failed capture then Some 0 else lc_observed_bytes <$> (ob_logs o !! "worker") in
  let truncated := if lc_read_failed capture then false else lc_truncated capture in
  let payload := container_log_payload (gd_kind definition) image "worker"
    (Some (if lc_read_failed capture then EmptyString else lc_text capture)) (Some EmptyString) (ob_exit_code o)
    (in_text "exceeded wait timeout" (default EmptyString (gr_error (ob_result o)))) max_bytes
    (mkLogOptions true truncated false observed_bytes None) in
  let exact := negb (lc_read_failed capture || py_truthy (default JNull (payload !! "stdout_truncated"))) in
  kube_worker_event "worker.container_logs" context worker_id (<["byte_count_exact" := JBool exact]> payload).

(** Creating the ConfigMap and the Job: the exception that stopped it, if any. *)
Definition submit_job (definition : GoblinDefinition) (image : string) (input_payload : dict)
    (context : GoblinContext) (name config_name worker_id : string) (timeout_seconds : option Z)
    (policy : option ResourcePolicy) : M World (option exn) :=
  try_catch
    (do* create_namespaced_config_map ns config_name
           [("input.json", json_dumps (dict_json input_payload)); ("context.json", context_json context)] in
     let* manifest := lift_result (build_kubernetes_job_manifest (kr_settings k) (kr_redis_url k) name config_name
       image context worker_id timeout_seconds (kr_heartbeat_interval_seconds k) policy
       (placement_metadata (Some definition) context) (Some (gd_kind definition))
       (literal_worker_environment definition)) in
     do* create_namespaced_job ns (job_manifest_json manifest) in
     ret None)
    (λ e, ret (Some e)).
Definition worker_failed (kind : string) (job_created : bool) (e : exn) : KubernetesRunObservation :=
  mkObservation (failed_result (kind +:+ " Kubernetes worker failed: " +:+ exn_str e) ∅) job_created false false None ∅.
(** The [try] block with its [except]: whether a Job was created, and what was seen. *)
Definition observe_job (definition : GoblinDefinition) (image : string) (input_payload : dict)
    (context : GoblinContext) (name config_name worker_id : string) (timeout_seconds : option Z)
    (policy : option ResourcePolicy) : M World (bool * KubernetesRunObservation) :=
  let* refused := submit_job definition image input_payload context name config_name worker_id timeout_seconds policy in
  match refused with
  | Some e => ret (false, worker_failed (gd_kind definition) false e)
  | None =>
      let* o := try_catch
        (let* o := _wait_for_result_observed name (gc_run_id context) timeout_seconds in ret (with_job_created o))
        (λ e, ret (worker_failed (gd_kind definition) true e)) in
      ret (true, o)
  end.
(** The [finally] block before the cleanup. *)
Definition collect_evidence (definition : GoblinDefinition) (image : string) (context : GoblinContext)
    (name worker_id : string) (capture_diagnostics job_created : bool) (policy : option ResourcePolicy)
    (observation : KubernetesRunObservation) : M World KubernetesRunObservation :=
  do* kube_worker_heartbeats context in
  if capture_diagnostics && job_created then
    let max_log_bytes := Z.min (log_capture_limit policy) DEFAULT_KUBERNETES_LOG_CAPTURE_BYTES in
    let* o := capture_kubernetes_pod_diagnostics ns name observation (Some max_log_bytes) in
    do* kube_log_event definition image context worker_id o max_log_bytes in
    ret o
  else ret observation.
Definition run_kubernetes_job (definition : GoblinDefinition) (image : string) (input_payload : dict)
    (context : GoblinContext) (name config_name worker_id : string) (timeout_seconds : option Z)
    (policy : option ResourcePolicy) (capture_diagnostics : bool) : M World KubernetesRunObservation :=
  let* seen := observe_job definition image input_payload context name config_name worker_id timeout_seconds policy in
  try_finally (collect_evidence definition image context name worker_id capture_diagnostics seen.1 policy seen.2)
    (_cleanup name config_name).
Definition run_observed (definition : GoblinDefinition) (input_payload : dict) (context : GoblinContext)
    (timeout_seconds : option Z) (policy : option ResourcePolicy) (capture_diagnostics : bool)
    : M World KubernetesRunObservation :=
  let kind := gd_kind definition in
  match worker_get (kr_workers k) kind with
  | Err (WorkerConfigError msg) => ret (observed (failed_result msg ∅))
  | Err e => raise e
  | Ok worker =>
      let* refused := try_catch (do* kubernetes_clients in ret None) (λ e, ret (Some e)) in
      match refused with
      | Some e => ret (observed (failed_result ("kubernetes runtime unavailable: " +:+ exn_str e) ∅))
      | None =>
          let name := kubernetes_name ("gk-" +:+ kind +:+ "-" +:+ gc_run_id context) in
          let worker_id := "k8s-worker-" +:+ gc_run_id context in
          do* kube_worker_event "worker.started" context worker_id {[ "kind" := JStr kind ]} in
          let* observation := run_kubernetes_job definition (wi_image worker) input_payload context name (name +:+ "-input")
            worker_id timeout_seconds policy capture_diagnostics in
          let r := ob_result observation in
          do* kube_worker_event (if bool_decide (gr_status r = ResSuccess) then "worker.completed" else "worker.failed")
                context worker_id
                {[ "kind" := JStr kind; "status" := JStr (result_status_str (gr_status r));
                   "error" := JOptStr (gr_error r) ]} in
          ret observation
      end
  end.
Definition kube_run (definition : GoblinDefinition) (input_payload : dict) (context : GoblinContext)
    (timeout_seconds : option Z) (policy : option ResourcePolicy) : M World GoblinResult :=
  let* o := run_observed definition input_payload context timeout_seconds policy true in ret (ob_result o).
End runtime.

(** ** The cluster within a preorder, and what it raises *)

#[export] Instance within_finally {S A} (R : S → S → Prop) `{!PreOrder R} (m : M S A) (c : M S unit) :
  Within R m → Within R c → Within R (try_finally m c).
Proof.
  intros Hm Hc s. unfold try_finally. specialize (Hm s). destruct (m s) as [s1 r]. specialize (Hc s1).
  destruct (c s1) as [s2 [u|e]]; simpl in *; by etrans.
Qed.
#[export] Instance raises_finally {S A} (Q : exn → Prop) (m : M S A) (c : M S unit) :
  Raises Q m → Raises Q c → Raises Q (try_finally m c).
Proof.
  intros Hm Hc s e. unfold try_finally. specialize (Hm s). destruct (m s) as [s1 r]. specialize (Hc s1).
  destruct (c s1) as [s2 [u|e']]; simpl; [apply Hm|intros [= ->]; by apply Hc].
Qed.
(** [except Exception: return x] *)
Lemma raises_caught {S A} (Q : exn → Prop) (m : M S A) (h : exn → M S A) :
  (∀ e, Raises Q (h e)) → Raises Q (try_catch m h).
Proof. intros Hh s e. unfold try_catch. destruct (m s) as [s' [x|e']]; [done|]. by apply Hh. Qed.

Section cluster.
Context `{Sqlite} `{Env} `{Quantities} `{KubeCluster}.

Class ClusterWithin (R : World → World → Prop) : Prop := {
  cl_clients :: Within R kubernetes_clients;
  cl_map :: ∀ ns n d, Within R (create_namespaced_config_map ns n d);
  cl_job :: ∀ ns b, Within R (create_namespaced_job ns b);
  cl_read :: ∀ ns n, Within R (read_namespaced_job ns n);
  cl_pods :: ∀ b ns n, Within R (list_namespaced_pod b ns n);
  cl_log :: ∀ o ns p c n, Within R (read_namespaced_pod_log o ns p c n);
  cl_delete :: ∀ ns n, Within R (delete_namespaced_job ns n);
  cl_delete_map :: ∀ ns n, Within R (delete_namespaced_config_map ns n);
  cl_sleep :: ∀ t, Within R (sleep t);
  cl_clock :: Within R (zoom w_process_lens time_monotonic);
  cl_channel :: ChannelWithin R
}.
Context (R : World → World → Prop) `{!PreOrder R} `{!ClusterWithin R} `{!BusWithin R} (k : KubeRuntime).

#[export] Instance within_pods ns n : Within R (_list_job_pods ns n).
Proof. unfold _list_job_pods. solve_within. Qed.
#[export] Instance within_log_value ns p c n b : Within R (_read_kubernetes_pod_log_value ns p c n b).
Proof. unfold _read_kubernetes_pod_log_value. cbv zeta. solve_within. Qed.
#[export] Instance within_log_capture ns p c n : Within R (_read_kubernetes_pod_log_capture ns p c n).
Proof. unfold _read_kubernetes_pod_log_capture. solve_within. Qed.
#[export] Instance within_diagnostics ns n o m : Within R (capture_kubernetes_pod_diagnostics ns n o m).
Proof. unfold capture_kubernetes_pod_diagnostics, read_bounded_kubernetes_pod_log. solve_within. Qed.
#[export] Instance within_load_observed r : Within R (_load_result_observed k r).
Proof. unfold _load_result_observed, kube_load_result. solve_within. Qed.
#[export] Instance within_poll n r : Within R (poll_job k n r).
Proof.
  unfold poll_job, after_success, after_failure, find_image_pull_failure, read_kubernetes_worker_log_excerpt,
    read_bounded_kubernetes_pod_log. solve_within.
Qed.
#[export] Instance within_wait_loop fuel n r a l : Within R (wait_loop k fuel n r a l).
Proof. induction fuel; simpl; solve_within. Qed.
#[export] Instance within_submit d i p c n cn w t po : Within R (submit_job k d i p c n cn w t po).
Proof. unfold submit_job. solve_within. Qed.
#[export] Instance within_observe_job d i p c n cn w t po : Within R (observe_job k d i p c n cn w t po).
Proof. unfold observe_job, _wait_for_result_observed. solve_within. Qed.
#[export] Instance within_collect d i c n w b j p o : Within R (collect_evidence k d i c n w b j p o).
Proof. unfold collect_evidence, kube_worker_heartbeats, kube_log_event, kube_worker_event. solve_within. Qed.
#[export] Instance within_cleanup n cn : Within R (_cleanup k n cn).
Proof. unfold _cleanup. solve_within. Qed.
#[export] Instance within_run_job d i p c n cn w t po b : Within R (run_kubernetes_job k d i p c n cn w t po b).
Proof. unfold run_kubernetes_job. solve_within. Qed.
#[export] Instance within_run_observed d p c t po b : Within R (run_observed k d p c t po b).
Proof. unfold run_observed, kube_worker_event. solve_within. Qed.
#[export] Instance within_kube_run d p c t po : Within R (kube_run k d p c t po).
Proof. unfold kube_run. solve_within. Qed.
End cluster.

Section cluster_raises.
Context `{Sqlite} `{Env} `{Quantities} `{KubeCluster} `{!ChannelRaises not_superseded} (k : KubeRuntime).

#[export] Instance raises_pods ns n : Raises not_superseded (_list_job_pods ns n).
Proof.
  unfold _list_job_pods. apply raises_caught. intros e. destruct (is_type_error e); [|apply _].
  apply raises_caught. intros ?. apply _.
Qed.
#[export] Instance raises_log_capture ns p c n : Raises not_superseded (_read_kubernetes_pod_log_capture ns p c n).
Proof. apply raises_caught. intros e. apply _. Qed.
#[export] Instance raises_bounded_log ns p c : Raises not_superseded (read_bounded_kubernetes_pod_log ns p c).
Proof. unfold read_bounded_kubernetes_pod_log, _read_kubernetes_pod_log_value. cbv zeta. apply raises_caught. intros e. apply _. Qed.
#[export] Instance raises_diagnostics ns n o m : Raises not_superseded (capture_kubernetes_pod_diagnostics ns n o m).
Proof. unfold capture_kubernetes_pod_diagnostics. solve_raises. Qed.
#[export] Instance raises_submit d i p c n cn w t po : Raises not_superseded (submit_job k d i p c n cn w t po).
Proof. apply raises_caught. intros e. apply _. Qed.
#[export] Instance raises_observe_job d i p c n cn w t po : Raises not_superseded (observe_job k d i p c n cn w t po).
Proof.
  unfold observe_job. apply raises_bind; [apply _|]. intros [e|]; [apply _|]. apply raises_bind; [|intros o; apply _].
  apply raises_caught. intros e. apply _.
Qed.
#[export] Instance raises_collect d i c n w b j p o : Raises not_superseded (collect_evidence k d i c n w b j p o).
Proof. unfold collect_evidence, kube_worker_heartbeats, kube_log_event, kube_worker_event. solve_raises. Qed.
#[export] Instance raises_cleanup n cn : Raises not_superseded (_cleanup k n cn).
Proof. unfold _cleanup. apply raises_bind; [|intros _]; apply raises_caught; intros e; apply _. Qed.
#[export] Instance raises_run_observed d p c t po b : Raises not_superseded (run_observed k d p c t po b).
Proof.
  unfold run_observed, run_kubernetes_job, kube_worker_event. destruct (worker_get _ _) as [wk|e] eqn:Hw.
  2: { unfold worker_get in Hw. case_match; [done|]. injection Hw as <-. apply _. }
  apply raises_bind; [apply raises_caught; intros e; apply _|]. intros [e|]; [apply _|]. solve_raises.
Qed.
#[export] Instance raises_kube_run d p c t po : Raises not_superseded (kube_run k d p c t po).
Proof. unfold kube_run. solve_raises. Qed.
End cluster_raises.

(** ** The runtime as the scheduler's [Workers] *)

Section workers.
Context `{Sqlite} `{Env} `{Crypto} `{Pydantic} `{Floats} `{Imports} `{Host} `{Quantities} `{KubeCluster}.
(** What [_build_runtime] passes on, and the runtimes that are not Kubernetes. *)
Context (base : Workers) (redis_url namespace : string) (settings : KubernetesRuntimeSettings).

(** [build_kubernetes_runtime] *)
Definition build_kubernetes_runtime (workers : WorkerImageMap) : KubeRuntime :=
  mkKubeRuntime workers redis_url namespace settings true 5 1000000.
Definition kube_workers : Workers := {|
  open_runtime mode workers :=
    match mode with ModeKubernetes => Ok tt | _ => @open_runtime base mode workers end;
  container_run r d i c t p :=
    match r with
    | KubernetesRuntime (Some workers) => kube_run (build_kubernetes_runtime workers) d i c t p
    | _ => @container_run base r d i c t p
    end;
  entrypoint_call := @entrypoint_call base;
  docker_run_root := @docker_run_root base;
  validation_image_identity image kind := settings_image_identity settings image (Some kind);
  effective_workload_security kind := settings_workload_security settings (Some kind);
  croniter_next := @croniter_next base;
  croniter_after := @croniter_after base
|}.

Context `{!Inj eq eq uuid4}.

Lemma kube_workers_tend id :
  ClusterWithin (keeps_job id) → ChannelRaises not_superseded → @WorkersTend _ _ base id →
  @WorkersTend _ _ kube_workers id.
Proof.
  intros Hwithin Hraises [Hrun Hcall Hsup Himp Hopen]. split; simpl.
  - intros [|[ws|]|] d i c t p; apply _.
  - apply _.
  - intros [|[ws|]|] d i c t p w m; try apply Hsup. intros Heq.
    by apply (raises (Q := not_superseded) (m := kube_run (build_kubernetes_runtime ws) d i c t p) w _ Heq m).
  - done.
  - intros [] ws m; by try apply Hopen.
Qed.
End workers.

Section both.
Context `{Sqlite} `{Env} `{Crypto} `{Pydantic} `{Floats} `{Imports} `{Host} `{Quantities}.
Context (engine : DockerEngine) (cluster : KubeCluster) `{!Inj eq eq uuid4}.
Context (base : Workers) (redis_url namespace : string) (settings : KubernetesRuntimeSettings).

(** C14: both container runtimes keep the scheduler's contract.  A scheduler that runs its
    goblins with them, Docker's and Kubernetes', on a host, a cluster and a Redis that
    leave a leased job alone and do not raise the scheduler's own exception, has
    workers that do the same: through writing files, composing the command or the
    manifest, running and waiting, reading heartbeats, logs and results, cleaning up,
    and every event on the way, on every outcome. *)
Theorem container_runtimes_tend id :
  @EngineWithin engine (keeps_job id) → @EngineRaises engine not_superseded →
  @ClusterWithin _ cluster (keeps_job id) → @ChannelRaises (@kube_channel cluster) not_superseded →
  @WorkersTend _ _ base id →
  @WorkersTend _ _ (@kube_workers _ _ _ _ cluster (@docker_workers _ _ _ engine base redis_url)
                     redis_url namespace settings) id.
Proof.
  intros Hengine Heraises Hcluster Hcraises Hbase. apply kube_workers_tend; [done..|].
  by apply docker_workers_tend.
Qed.
End both.

(** ** Waiting ends *)

Section waiting.
Context `{Sqlite} `{Env} `{Quantities} `{KubeCluster} (k : KubeRuntime).

(** The monotonic clock never goes back, calls only consume readings, and a reading
    after [sleep t] is at least [t] later than every reading before it. *)
Class TimePasses : Prop := {
  tp_forward : ∀ i j, (i ≤ j)%nat → monotonic_clock i ≤ monotonic_clock j;
  tp_sleep : ∀ t w w' i, sleep t w = (w', Ok tt) → (i < reads w)%nat →
    monotonic_clock i + t ≤ monotonic_clock (reads w');
  tp_within :: ClusterWithin reads_grow
}.
Context `{!TimePasses}.

(** A look that does not end the wait slept for one interval. *)
Lemma poll_sleeps name run_id w w' i :
  poll_job k name run_id w = (w', Ok None) → (i < reads w)%nat →
  monotonic_clock i + kr_poll_interval k ≤ monotonic_clock (reads w').
Proof.
  unfold poll_job. intros (w1 & job & Hread & Hrest)%bind_ok Hi.
  pose proof (within (R := reads_grow) (m := read_namespaced_job (kr_namespace k) name) w) as Hg1.
  rewrite Hread in Hg1. unfold reads_grow in Hg1. simpl in Hg1.
  destruct (negb (js_succeeded job =? 0)); [by apply bind_ok in Hrest as (? & ? & _ & ?)|].
  destruct (negb (js_failed job =? 0)); [by apply bind_ok in Hrest as (? & ? & _ & ?)|].
  apply bind_ok in Hrest as (w2 & f & Hfind & Hrest).
  assert (Within reads_grow (find_image_pull_failure (kr_namespace k) name)) as Hw.
  { unfold find_image_pull_failure. solve_within. }
  specialize (Hw w1). rewrite Hfind in Hw. unfold reads_grow in Hw. simpl in Hw.
  destruct f as [f|]; [done|]. apply bind_ok in Hrest as (w3 & [] & Hsleep & Hret). injection Hret as ->.
  apply (tp_sleep _ _ _ i Hsleep). lia.
Qed.

Lemma wait_loop_ends name run_id started limit fuel w :
  0 < kr_poll_interval k → (0 < fuel)%nat →
  limit - (monotonic_clock (reads w) - started) ≤ (Z.of_nat fuel - 1) * kr_poll_interval k →
  (wait_loop k fuel name run_id started limit w).2 ≠ Ok None.
Proof.
  intros Hpoll. revert w. induction fuel as [|fuel IH]; intros w Hfuel Hleft; [lia|]. cbn [wait_loop].
  destruct (monotonic_reading w) as (w1 & Hnow & Hreads). unfold bind at 1. rewrite Hnow.
  destruct (Z.ltb_spec (monotonic_clock (reads w) - started) limit) as [Hlt|]; [|done].
  unfold bind. destruct (poll_job k name run_id w1) as [w2 [[o|]|e]] eqn:Hp; [done| |done].
  apply (poll_sleeps _ _ _ _ (reads w)) in Hp; [|lia]. destruct fuel as [|fuel]; [simpl in Hleft; lia|].
  apply IH; lia.
Qed.

(** C31: the wait for a Job ends.  If sleeping takes its time and the monotonic clock does
    not go back, the loop returns an observation or raises before its fuel of one
    iteration per poll interval is spent, whatever the cluster answers: the fuel of the
    definition is enough.  (The limit is compared at the start of an iteration only; the
    calls of that iteration and one poll interval may still pass after it.) *)
Theorem kube_wait_ends name run_id timeout w :
  0 < kr_poll_interval k →
  (wait_loop k (wait_fuel k timeout) name run_id (monotonic_clock (reads w)) (wait_limit timeout)
     (zoom w_process_lens time_monotonic w).1).2 ≠ Ok None.
Proof.
  intros Hpoll. destruct (monotonic_reading w) as (w1 & -> & Hreads). simpl.
  apply wait_loop_ends; [done|unfold wait_fuel; lia|]. rewrite Hreads.
  pose proof (tp_forward (reads w) (S (reads w)) ltac:(lia)). unfold wait_fuel. rewrite Z2Nat.id by lia.
  pose proof (Z.mul_succ_div_gt (wait_limit timeout) (kr_poll_interval k) Hpoll). nia.
Qed.
End waiting.

(** ** A success is the worker's *)

Section success.
Context `{Sqlite} `{Env} `{Quantities} `{KubeCluster} (k : KubeRuntime).

(** The stored value of the run's key, read by the runtime, and a Job that succeeded. *)
Definition stored_result (run_id : string) (r : GoblinResult) : Prop :=
  ∃ raw w w', redis_get (kr_redis_url k) (result_key k run_id) w = (w', Ok (Some raw)) ∧ parse_result raw = Ok r.
Definition job_succeeded (name : string) : Prop :=
  ∃ w w' st, read_namespaced_job (kr_namespace k) name w = (w', Ok st) ∧ js_succeeded st ≠ 0.

Lemma observed_success run_id w w' o :
  _load_result_observed k run_id w = (w', Ok o) → gr_status (ob_result o) = ResSuccess →
  stored_result run_id (ob_result o).
Proof.
  unfold _load_result_observed, kube_load_result. intros (w1 & r & Hload & Hret)%bind_ok Hs.
  apply bind_ok in Hload as (w2 & raw & Hget & Hload).
  destruct r as [r|]; [|by injection Hret as _ <-]. injection Hret as _ <-. simpl in *.
  destruct raw as [raw|]; [|done]. apply bind_ok in Hload as (w3 & r' & Hdec & Hr). injection Hr as -> ->.
  injection Hdec as _ Hdec. exists raw.
  unfold try_catch in Hget. destruct (redis_get _ _ w) as [w4 [v|e]] eqn:Hg.
  - injection Hget as -> ->. exists w, w2. split; [done|]. unfold decoded_result in Hdec.
    destruct (parse_result raw) as [r'|e] eqn:Hp; [by injection Hdec as ->|].
    destruct (is_value_error e); [|done]. by injection Hdec as <-.
  - by destruct (is_redis_error e).
Qed.
Lemma poll_success name run_id w w' o :
  poll_job k name run_id w = (w', Ok (Some o)) → gr_status (ob_result o) = ResSuccess →
  stored_result run_id (ob_result o) ∧ job_succeeded name.
Proof.
  unfold poll_job. intros (w1 & job & Hread & Hrest)%bind_ok Hs.
  destruct (js_succeeded job =? 0) eqn:Hok; simpl in Hrest.
  - exfalso. destruct (negb (js_failed job =? 0)).
    + apply bind_ok in Hrest as (w2 & o' & Hfail & [= -> ->]). unfold after_failure in Hfail.
      apply bind_ok in Hfail as (w3 & logs & _ & Hfail). apply bind_ok in Hfail as (w4 & f & _ & [= -> <-]).
      destruct (ob_result_received f); [|done]. by case_bool_decide; [congruence|].
    + apply bind_ok in Hrest as (w2 & [f|] & _ & Hrest); [by injection Hrest as _ <-|].
      by apply bind_ok in Hrest as (? & ? & _ & ?).
  - apply bind_ok in Hrest as (w2 & o' & Hsucc & [= -> ->]). unfold after_success in Hsucc.
    apply bind_ok in Hsucc as (w3 & o2 & Hload & [= -> <-]).
    destruct (ob_result_received o2); [|done]. split; [by eapply observed_success|].
    exists w, w1, job. split; [done|]. by apply Z.eqb_neq.
Qed.
Lemma wait_success fuel name run_id started limit w w' o :
  wait_loop k fuel name run_id started limit w = (w', Ok (Some o)) → gr_status (ob_result o) = ResSuccess →
  stored_result run_id (ob_result o) ∧ job_succeeded name.
Proof.
  revert w. induction fuel as [|fuel IH]; intros w Hw Hs; [done|]. cbn [wait_loop] in Hw.
  apply bind_ok in Hw as (w1 & now & _ & Hw). destruct (now - started <? limit); [|by injection Hw as _ <-].
  apply bind_ok in Hw as (w2 & [o'|] & Hp & Hw); [|by eapply IH].
  injection Hw as _ <-. by eapply poll_success.
Qed.

Lemma diagnostics_result ns name o m w w' o' :
  capture_kubernetes_pod_diagnostics ns name o m w = (w', Ok o') → ob_result o' = ob_result o.
Proof.
  unfold capture_kubernetes_pod_diagnostics. intros (w1 & pods & _ & Hrest)%bind_ok.
  destruct pods as [[|pod pods]|]; try (by injection Hrest as _ <-).
  apply bind_ok in Hrest as (w2 & c & _ & Hrest). apply bind_ok in Hrest as (w3 & f & _ & Hrest).
  by injection Hrest as _ <-.
Qed.
Lemma collect_result d i c n wid b j po o w w' o' :
  collect_evidence k d i c n wid b j po o w = (w', Ok o') → ob_result o' = ob_result o.
Proof.
  unfold collect_evidence. intros (w1 & ? & _ & Hrest)%bind_ok. destruct (b && j); [|by injection Hrest as _ <-].
  apply bind_ok in Hrest as (w2 & o2 & Hcap & Hrest). apply bind_ok in Hrest as (w3 & ? & _ & Hret).
  injection Hret as _ <-. by eapply diagnostics_result.
Qed.
Lemma finally_ok {S A} (m : M S A) (c : M S unit) s s' a :
  try_finally m c s = (s', Ok a) → ∃ s1, m s = (s1, Ok a).
Proof.
  unfold try_finally. destruct (m s) as [s1 r]. destruct (c s1) as [s2 [u|e]]; [|done]. intros [= _ ->]. by exists s1.
Qed.

Lemma observe_job_success d i p c n cn wid t po w w' seen :
  observe_job k d i p c n cn wid t po w = (w', Ok seen) → gr_status (ob_result seen.2) = ResSuccess →
  stored_result (gc_run_id c) (ob_result seen.2) ∧ job_succeeded n.
Proof.
  unfold observe_job. intros (w1 & [e|] & _ & Hrest)%bind_ok Hs; [by injection Hrest as _ <-|].
  apply bind_ok in Hrest as (w2 & o & Htry & Hret). injection Hret as _ <-. simpl in *. unfold try_catch in Htry.
  destruct (bind _ _ w1) as [w3 [o'|e]] eqn:Hwait; [|by injection Htry as _ <-].
  injection Htry as _ <-. apply bind_ok in Hwait as (w4 & o & Hwait & Hret). injection Hret as _ <-.
  unfold _wait_for_result_observed in Hwait. apply bind_ok in Hwait as (w5 & started & _ & Hwait).
  apply bind_ok in Hwait as (w6 & [o''|] & Hloop & Hret); [|done]. injection Hret as _ ->. by apply (wait_success _ _ _ _ _ _ _ _ Hloop Hs).
Qed.

(** *** A valid envelope is that of a Job *)

(** The run's Job was created, from the manifest of this image. *)
Definition submitted_job (d : GoblinDefinition) (image : string) (c : GoblinContext) (t : option Z) (po : option ResourcePolicy) : Prop :=
  let name := kubernetes_name ("gk-" +:+ gd_kind d +:+ "-" +:+ gc_run_id c) in
  ∃ manifest w w', build_kubernetes_job_manifest (kr_settings k) (kr_redis_url k) name (name +:+ "-input") image c
      ("k8s-worker-" +:+ gc_run_id c) t (kr_heartbeat_interval_seconds k) po (placement_metadata (Some d) c)
      (Some (gd_kind d)) (literal_worker_environment d) = Ok manifest
    ∧ create_namespaced_job (kr_namespace k) (job_manifest_json manifest) w = (w', Ok tt).
Definition envelope (o : KubernetesRunObservation) : bool * bool := (ob_envelope_valid o, ob_job_created o).

Lemma diagnostics_envelope ns name o m w w' o' :
  capture_kubernetes_pod_diagnostics ns name o m w = (w', Ok o') → envelope o' = envelope o.
Proof.
  unfold capture_kubernetes_pod_diagnostics. intros (w1 & pods & _ & Hrest)%bind_ok.
  destruct pods as [[|pod pods]|]; try (by injection Hrest as _ <-).
  apply bind_ok in Hrest as (w2 & c & _ & Hrest). apply bind_ok in Hrest as (w3 & f & _ & Hrest).
  by injection Hrest as _ <-.
Qed.
Lemma collect_envelope d i c n wid b j po o w w' o' :
  collect_evidence k d i c n wid b j po o w = (w', Ok o') → envelope o' = envelope o.
Proof.
  unfold collect_evidence. intros (w1 & ? & _ & Hrest)%bind_ok. destruct (b && j); [|by injection Hrest as _ <-].
  apply bind_ok in Hrest as (w2 & o2 & Hcap & Hrest). apply bind_ok in Hrest as (w3 & ? & _ & Hret).
  injection Hret as _ <-. by eapply diagnostics_envelope.
Qed.
Lemma submit_job_ok d i p c n cn wid t po w w' :
  submit_job k d i p c n cn wid t po w = (w', Ok None) →
  ∃ manifest w1 w2, build_kubernetes_job_manifest (kr_settings k) (kr_redis_url k) n cn i c wid t
      (kr_heartbeat_interval_seconds k) po (placement_metadata (Some d) c) (Some (gd_kind d)) (literal_worker_environment d) = Ok manifest
    ∧ create_namespaced_job (kr_namespace k) (job_manifest_json manifest) w1 = (w2, Ok tt).
Proof.
  unfold submit_job, try_catch. destruct (bind _ _ w) as [w3 [x|e]] eqn:Hb; [|done]. intros [= -> ->].
  apply bind_ok in Hb as (w1 & ? & _ & Hb). apply bind_ok in Hb as (w2 & manifest & Hm & Hb).
  apply bind_ok in Hb as (w4 & [] & Hj & _). injection Hm as -> Hm. by exists manifest, w2, w4.
Qed.
Lemma observe_job_envelope d i p c n cn wid t po w w' seen :
  observe_job k d i p c n cn wid t po w = (w', Ok seen) → ob_envelope_valid seen.2 = true →
  ob_job_created seen.2 = true ∧ ∃ w1, submit_job k d i p c n cn wid t po w = (w1, Ok None).
Proof.
  unfold observe_job. intros (w1 & [e|] & Hsub & Hrest)%bind_ok Hs; [by injection Hrest as _ <-|].
  apply bind_ok in Hrest as (w2 & o & Htry & Hret). injection Hret as _ <-. simpl in *. split; [|by exists w1].
  unfold try_catch in Htry. destruct (bind _ _ w1) as [w3 [o'|e]] eqn:Hwait; [|by injection Htry as _ <-].
  injection Htry as _ <-. apply bind_ok in Hwait as (w4 & o & _ & Hret). by injection Hret as _ <-.
Qed.
(** What a run with a valid envelope was: its Job was created from the worker's image; and if
    it was a success, the Job succeeded and the result is what is stored for the run. *)
Lemma run_observed_genuine d p c t po b w w' o :
  run_observed k d p c t po b w = (w', Ok o) → ob_envelope_valid o = true →
  ob_job_created o = true
  ∧ (∃ worker, worker_get (kr_workers k) (gd_kind d) = Ok worker ∧ submitted_job d (wi_image worker) c t po)
  ∧ (gr_status (ob_result o) = ResSuccess → stored_result (gc_run_id c) (ob_result o)
      ∧ job_succeeded (kubernetes_name ("gk-" +:+ gd_kind d +:+ "-" +:+ gc_run_id c))).
Proof.
  unfold run_observed, run_kubernetes_job. cbv zeta. intros Hrun Hv.
  destruct (worker_get _ _) as [wk|e]; [|destruct e; try done; by injection Hrun as _ <-].
  apply bind_ok in Hrun as (w2 & [e|] & _ & Hrun); [by injection Hrun as _ <-|].
  apply bind_ok in Hrun as (w3 & ? & _ & Hrun). apply bind_ok in Hrun as (w4 & o' & Hjob & Hrun).
  apply bind_ok in Hrun as (w5 & ? & _ & Hret). injection Hret as _ ->.
  apply bind_ok in Hjob as (w6 & seen & Hseen & Hfin). apply finally_ok in Hfin as (w7 & Hcol).
  pose proof (collect_result _ _ _ _ _ _ _ _ _ _ _ _ Hcol) as Hres.
  apply collect_envelope in Hcol as [= Hvalid Hcreated]. rewrite Hvalid in Hv. rewrite Hcreated, Hres.
  destruct (observe_job_envelope _ _ _ _ _ _ _ _ _ _ _ _ Hseen Hv) as (Hc & w8 & Hsub).
  split; [done|]. split; [|intros Hs; by eapply observe_job_success].
  exists wk. split; [done|]. by apply submit_job_ok in Hsub.
Qed.

(** C30: A success of the Kubernetes runtime is the worker's own: the answer is what the
    validated text says that is stored under this run's key (the forwarder's key when
    artifacts are retained, the worker's otherwise), and the cluster reported that this
    run's Job succeeded; a refused manifest, a failed or lost Job, an image that cannot
    be pulled, a timeout, a missing or invalid result are failures. *)
Theorem kube_success_genuine d p c t po w w' r :
  kube_run k d p c t po w = (w', Ok r) → gr_status r = ResSuccess →
  stored_result (gc_run_id c) r ∧ job_succeeded (kubernetes_name ("gk-" +:+ gd_kind d +:+ "-" +:+ gc_run_id c)).
Proof.
  unfold kube_run, run_observed, run_kubernetes_job. cbv zeta. intros (w1 & o & Hrun & Hret)%bind_ok Hs. injection Hret as -> <-.
  destruct (worker_get _ _) as [wk|e]; [|destruct e; try done; by injection Hrun as _ <-].
  apply bind_ok in Hrun as (w2 & [e|] & _ & Hrun); [by injection Hrun as _ <-|].
  apply bind_ok in Hrun as (w3 & ? & _ & Hrun). apply bind_ok in Hrun as (w4 & o' & Hjob & Hrun).
  apply bind_ok in Hrun as (w5 & ? & _ & Hret). injection Hret as _ ->.
  apply bind_ok in Hjob as (w6 & seen & Hseen & Hfin). apply finally_ok in Hfin as (w7 & Hcol).
  apply collect_result in Hcol. rewrite Hcol in Hs |- *. by eapply observe_job_success.
Qed.
End success.

(** ** Nothing stays in the cluster *)

Section cleanup.
Context `{Sqlite} `{Env} `{Quantities} `{KubeCluster} (k : KubeRuntime).

Lemma finally_cleans {S A} (P : S → Prop) (m : M S A) (c : M S unit) s :
  (∀ s, P (c s).1) → P (try_finally m c s).1.
Proof.
  intros Hc. unfold try_finally. destruct (m s) as [s1 r]. specialize (Hc s1). by destruct (c s1) as [s2 [u|e]].
Qed.

Lemma bind_state {S A B} (P : S → Prop) (m : M S A) (f : A → M S B) s :
  P (m s).1 → (∀ s' a, P s' → P (f a s').1) → P (bind m f s).1.
Proof. unfold bind. destruct (m s) as [s1 [x|e]]; auto. Qed.
Lemma caught_state {S A} (P : S → Prop) (m : M S A) (h : exn → A) s :
  P (m s).1 → P (try_catch m (λ e, ret (h e)) s).1 ∧ ∃ x, (try_catch m (λ e, ret (h e)) s).2 = Ok x.
Proof. unfold try_catch. destruct (m s) as [s1 [x|e]]; simpl; eauto. Qed.
Lemma observe_job_returns d i p c n cn wid t po w :
  ∃ w' seen, observe_job k d i p c n cn wid t po w = (w', Ok seen).
Proof.
  unfold observe_job, submit_job, bind at 1. unfold try_catch at 1. destruct (bind _ _ w) as [w1 [[e|]|e]]; simpl; eauto.
  unfold bind at 1, try_catch. destruct (bind _ _ w1) as [w2 [o|e]]; simpl; eauto.
Qed.

(** A run asks for its Job and its ConfigMap to be deleted, however it ends: also when the
    manifest is refused, when creating the Job fails, when the wait, the heartbeats, the
    diagnostics or an event raise, and the ConfigMap also when deleting the Job raises.  So
    if a delete call leaves the object gone, whatever it answers, and nothing that follows
    brings it back, neither is left behind.  Where a failed delete leaves the object, the
    code leaves it too: [_cleanup] passes over the error. *)
Theorem kube_objects_removed (no_job no_map : World → Prop) d p c t po b w :
  let name := kubernetes_name ("gk-" +:+ gd_kind d +:+ "-" +:+ gc_run_id c) in
  let gone w := no_job w ∧ no_map w in
  (∀ w, no_job (delete_namespaced_job (kr_namespace k) name w).1) →
  (∀ w, no_job w → no_job (delete_namespaced_config_map (kr_namespace k) (name +:+ "-input") w).1) →
  (∀ w, no_map (delete_namespaced_config_map (kr_namespace k) (name +:+ "-input") w).1) →
  (∀ w, gone w → gone (kubernetes_clients w).1) →
  (∀ ty c wid payload w, gone w → gone (kube_worker_event k ty c wid payload w).1) →
  gone w → gone (run_observed k d p c t po b w).1.
Proof.
  cbv zeta. set (name := kubernetes_name _). intros Hjob Hkeep Hmap Hclients Hevent Hw.
  assert (∀ w, no_job (_cleanup k name (name +:+ "-input") w).1 ∧ no_map (_cleanup k name (name +:+ "-input") w).1) as Hclean.
  { intros w0. unfold _cleanup, bind, try_catch. specialize (Hjob w0).
    destruct (delete_namespaced_job _ name w0) as [w1 [u|e]]; simpl in *;
      specialize (Hkeep _ Hjob); specialize (Hmap w1);
      by destruct (delete_namespaced_config_map _ _ w1) as [w2 [u'|e']]. }
  unfold run_observed. destruct (worker_get _ _) as [wk|[]]; try done.
  apply bind_state.
  { destruct (caught_state (λ w, no_job w ∧ no_map w) (do* kubernetes_clients in ret None) Some w) as [? _]; [|done].
    apply bind_state; [by apply Hclients|done]. }
  intros w1 [e|] Hw1; [done|]. cbv zeta. fold name. apply bind_state; [by apply Hevent|]. intros w2 _ Hw2.
  apply bind_state; [|intros w3 o Hw3; apply bind_state; [by apply Hevent|done]].
  unfold run_kubernetes_job, bind. destruct (observe_job_returns d (wi_image wk) p c name (name +:+ "-input")
    ("k8s-worker-" +:+ gc_run_id c) t po w2) as (w3 & seen & ->).
  by apply finally_cleans.
Qed.
End cleanup.

(** ** Concrete runs *)

(** A clock with one second per reading, and a sleep that takes its readings. *)
Definition ticking_env : Env := {|
  wall_clock := λ _, of_utc 1000; monotonic_clock := λ n, 1000000 * Z.of_nat n; uuid4 := λ n, "id-" +:+ pretty n;
  unicode_lower := λ s, s; unicode_isalnum := λ _, true
|}.
Definition tick (t : Z) : M World unit :=
  zoom w_process_lens (modify (λ p, mkProcess (clk_reads p) (clk_last p)
    (mono_reads p + Z.to_nat (t / 1000000 + 1)) (uuids p))).
(** A cluster whose objects are two rows of the world, with one Job status, Pods and log. *)
Definition proof_row : WorkerValidationRecord :=
  mkWorkerValidation "k" "report" "report:1" "d" "c" "v" 0 ValidationPassed [] ∅.
Definition exists_in_cluster (key : string) : M World unit :=
  zoom w_validations_lens (modify (λ t, <[key := proof_row]> t)).
Definition gone_from_cluster (key : string) : M World unit :=
  zoom w_validations_lens (modify (λ t, delete key t)).
Definition sample_cluster (status : JobStatusView) (pods : list PodView) (log : LogValue) (stored : option string)
    : KubeCluster := {|
  kubernetes_clients := ret tt; create_namespaced_config_map _ _ _ := exists_in_cluster "map";
  create_namespaced_job _ _ := exists_in_cluster "job"; read_namespaced_job _ _ := ret status;
  list_namespaced_pod _ _ _ := ret pods; read_namespaced_pod_log _ _ _ _ _ := ret log;
  delete_namespaced_job _ _ :=
    do* gone_from_cluster "job" in raise (OtherException "ApiException" "(500)");
  delete_namespaced_config_map _ _ := gone_from_cluster "map"; sleep := tick; kube_channel := quiet_channel stored
|}.
Definition plain_kube : KubeRuntime :=
  mkKubeRuntime {[ "report" := mkWorkerImage "." "Dockerfile" "report:1" ]} "redis://cache" "default" restricted_kube
    true 5 1000000.
Definition kube_report_context : GoblinContext :=
  mkGoblinContext "run-1" ".goblin-king/artifacts/high" {[ "job_id" := JStr "high" ]}.
Definition waiting_pod : PodView := mkPodView "pod-1" [] [mkStatus "worker" "ImagePullBackOff" (Some "no such  image") None].
Definition ended_pod : PodView := mkPodView "pod-1" [] [mkStatus "worker" EmptyString None (Some 7)].
Definition run_sample (status : JobStatusView) (pods : list PodView) (stored : option string) (policy : option ResourcePolicy)
    : World * result GoblinResult :=
  @kube_run sqlite_merge ticking_env plain_quantities (sample_cluster status pods (LogText "boom") stored) plain_kube
    sample_goblin ∅ kube_report_context (Some 5) policy claimed_world.
Definition kube_events (r : World * result GoblinResult) : list string :=
  e_event_type <$> merge_by (le_asc e_sequence) (rows (events (w_events r.1))).
Definition failure_of (r : World * result GoblinResult) : option string :=
  match r.2 with Ok g => gr_error g | Err e => Some (exn_str e) end.

Example kube_runs :
  (run_sample (mkJobStatus 1 0) [ended_pod] (Some "{}") None).2 = Ok greeting
  ∧ kube_events (run_sample (mkJobStatus 1 0) [ended_pod] (Some "{}") None)
    = ["worker.started"; "worker.container_logs"; "worker.completed"]
  ∧ w_validations (run_sample (mkJobStatus 1 0) [ended_pod] (Some "{}") None).1 = ∅
  ∧ failure_of (run_sample (mkJobStatus 1 0) [] None None)
    = Some "gk-report-run-1 completed without a Redis result"
  ∧ failure_of (run_sample (mkJobStatus 0 1) [ended_pod] (Some "{}") None)
    = Some "gk-report-run-1 failed after publishing a result: boom"
  ∧ failure_of (run_sample (mkJobStatus 0 0) [waiting_pod] None None)
    = Some "Kubernetes Job gk-report-run-1 Pod pod-1 container worker could not pull its image: ImagePullBackOff: no such image"
  ∧ failure_of (run_sample (mkJobStatus 0 0) [] None None) = Some "gk-report-run-1 exceeded wait timeout"
  ∧ failure_of (run_sample (mkJobStatus 1 0) [] (Some "{}") (Some (policy_with (Some false) [] None)))
    = Some "report Kubernetes worker failed: restricted-v1 rejects filesystem.read_only_root=false".
Proof. split_and!; vm_compute; reflexivity. Qed.

(** The cluster of a quiet day: it changes nothing the job's scheduler or the clock knows. *)
Lemma validations_keep {A} (m : M (table WorkerValidationRecord) A) : Within reads_grow (zoom w_validations_lens m).
Proof. intros w. unfold reads_grow, reads. by rewrite zoom_eq. Qed.
Lemma cluster_reads st pods log stored : @ClusterWithin ticking_env (sample_cluster st pods log stored) reads_grow.
Proof.
  split; intros; simpl; try apply _; try apply validations_keep.
  - apply within_bind; [apply _|apply validations_keep|intros _; apply _].
  - intros w. unfold tick, reads_grow, reads. rewrite zoom_eq. simpl. lia.
  - intros w. unfold reads_grow, reads. rewrite zoom_eq. simpl. lia.
Qed.
Lemma cluster_time st pods log stored : @TimePasses ticking_env (sample_cluster st pods log stored).
Proof.
  split; [simpl; lia| |apply cluster_reads]. intros t w w' i Hsleep Hi. simpl in Hsleep. unfold tick in Hsleep.
  rewrite zoom_eq in Hsleep. injection Hsleep as <-. unfold reads in *. simpl.
  pose proof (Z.mul_succ_div_gt t 1000000 ltac:(lia)). lia.
Qed.
Lemma cluster_tends id st pods log stored :
  @ClusterWithin frozen_env (sample_cluster st pods log stored) (@keeps_job frozen_env id).
Proof.
  split; intros; simpl; try apply _.
  unfold tick. apply (@keeps_process frozen_env). intros p. simpl. lia.
Qed.

Lemma container_runtimes_tend_witness :
  @WorkersTend frozen_env all_callable
    (@kube_workers sqlite_merge frozen_env plain_crypto plain_quantities
       (sample_cluster (mkJobStatus 1 0) [ended_pod] (LogText "boom") (Some "{}"))
       (@docker_workers sqlite_merge frozen_env int_floats
          (quiet_engine no_environ (Some "{}") (Completed 0 "hi" EmptyString)) down_workers "redis://cache")
       "redis://cache" "default" restricted_kube) "high".
Proof.
  apply (@container_runtimes_tend sqlite_merge frozen_env plain_crypto int_floats all_callable plain_quantities
           (quiet_engine no_environ (Some "{}") (Completed 0 "hi" EmptyString))
           (sample_cluster (mkJobStatus 1 0) [ended_pod] (LogText "boom") (Some "{}")) frozen_inj down_workers
           "redis://cache" "default" restricted_kube).
  - apply quiet_within, _.
  - apply quiet_raises.
  - apply cluster_tends.
  - apply quiet_channel_raises.
  - apply down_workers_tend.
Defined.

Lemma kube_wait_ends_witness :
  let cluster := sample_cluster (mkJobStatus 0 0) [] (LogText EmptyString) None in
  (@wait_loop ticking_env cluster plain_kube (wait_fuel plain_kube (Some 5)) "gk" "run-1" 0
     (wait_limit (Some 5)) (@zoom World Process Z w_process_lens (@time_monotonic ticking_env) claimed_world).1).2 ≠ Ok None.
Proof.
  apply (@kube_wait_ends ticking_env (sample_cluster (mkJobStatus 0 0) [] (LogText EmptyString) None) plain_kube
           (cluster_time _ _ _ _) "gk" "run-1" (Some 5) claimed_world). reflexivity.
Defined.

Lemma kube_success_genuine_witness :
  @stored_result (sample_cluster (mkJobStatus 1 0) [ended_pod] (LogText "boom") (Some "{}")) plain_kube "run-1" greeting.
Proof.
  destruct (@kube_success_genuine sqlite_merge ticking_env plain_quantities
    (sample_cluster (mkJobStatus 1 0) [ended_pod] (LogText "boom") (Some "{}")) plain_kube sample_goblin ∅
    kube_report_context (Some 5) None claimed_world (run_sample (mkJobStatus 1 0) [ended_pod] (Some "{}") None).1 greeting)
    as [Hstored _].
  - vm_compute. reflexivity.
  - reflexivity.
  - exact Hstored.
Defined.

(** Events do not touch the rows that stand for the cluster. *)
Lemma event_keeps_rows ty c wid payload w :
  w_validations (@emit_worker_event sqlite_merge ticking_env true ty c wid payload w).1 = w_validations w.
Proof.
  revert w. change (Preserves (view w_validations_lens) (@emit_worker_event sqlite_merge ticking_env true ty c wid payload)).
  unfold emit_worker_event. simpl.
  apply preserves_bind; [apply _|]. intros p. apply preserves_bind; [apply _|]. intros j.
  apply preserves_bind; [|intros e; apply _]. intros s. by rewrite zoom_eq.
Qed.

(** The Job's deletion raises here, and the ConfigMap goes all the same. *)
Lemma kube_objects_removed_witness :
  w_validations (run_sample (mkJobStatus 0 1) [ended_pod] None None).1 !! "job" = None
  ∧ w_validations (run_sample (mkJobStatus 0 1) [ended_pod] None None).1 !! "map" = None.
Proof.
  pose proof (@kube_objects_removed sqlite_merge ticking_env plain_quantities
    (sample_cluster (mkJobStatus 0 1) [ended_pod] (LogText "boom") None) plain_kube
    (λ w, w_validations w !! "job" = None) (λ w, w_validations w !! "map" = None) sample_goblin ∅
    kube_report_context (Some 5) None true claimed_world) as Hgone.
  unfold run_sample, kube_run. cbv zeta in Hgone.
  match type of Hgone with _ → _ → _ → _ → _ → _ → ?P =>
    assert P as [Hjob Hmap]; [apply Hgone|] end.
  - intros w. apply lookup_delete_eq.
  - intros w Hw. simpl. by rewrite lookup_delete_ne.
  - intros w. apply lookup_delete_eq.
  - done.
  - intros ty c wid payload w. unfold kube_worker_event. simpl kr_event_bus. by rewrite !event_keeps_rows.
  - done.
  - unfold bind. destruct (run_observed _ _ _ _ _ _ _ _) as [w [o|e]]; by split.
Defined.

(** The name of a Job is cut after 63 characters: from a kind of 60 characters on nothing is
    left of the run's id.  The second of two such runs fails at the first one's
    ConfigMap and then deletes the first one's Job. *)
Definition long_kind : string := "directory.analytics-platform.quarterly-revenue-forecast-notebook.v12".
Example job_names_collide :
  validate_kind long_kind = Ok long_kind
  ∧ kubernetes_name ("gk-" +:+ long_kind +:+ "-" +:+ "0b3f8c1e") = kubernetes_name ("gk-" +:+ long_kind +:+ "-" +:+ "77aa02d4").
Proof. split; vm_compute; reflexivity. Qed.
