(* ===== verification/KubeValidation.v ===== *)
(** * Contract validation through Kubernetes Jobs ([kubernetes_validation.py])

    The selected workers run as Jobs under the identity the scheduler's gate demands; the
    bytes a validation run retained are removed again, since no Run owns them.  The
    state is the store's [World] and the retention volume. *)

From Stdlib Require Import Ascii.
From S2P Require Import Prelude CausalTime Contracts Text Paths PyValues EventStore JobStore ResourcePolicies Containers Auth Bundles Urls KubeSettings KubeManifest Registry World Validation Attempts KubeArtifacts WorkerChannel KubeRuntime.

Record Station `{ArtifactSource} := mkStation { sn_world : World; sn_depot : Depot }.
Arguments mkStation {_} sn_world sn_depot.
(** [WorkerValidationResult] with the fields only these runs fill in *)
Record KubernetesValidation := mkKubeValidation {
  kv_result : WorkerValidationResult; kv_artifacts : list ArtifactRecord; kv_exit_code : option Z; kv_logs : gmap string string
}.
Definition plain_validation (r : WorkerValidationResult) : KubernetesValidation := mkKubeValidation r [] None ∅.

Section validation.
Context `{Sqlite} `{Env} `{Crypto} `{Quantities} `{KubeCluster} `{ArtifactSource}.
Context (conditions : Conditions) (runtime : KubeRuntime).

Definition sn_world_lens : lens Station World := Lens sn_world (λ w s, mkStation w (sn_depot s)).
Definition sn_depot_lens : lens Station Depot := Lens sn_depot (λ d s, mkStation (sn_world s) d).
Definition station_now : M Station (option datetime) :=
  let* now := zoom sn_world_lens (zoom w_process_lens wall_now) in ret (Some now).

(** [validation_job_id] *)
Definition validation_job_id (kind : string) : M World string :=
  let* id := zoom w_process_lens new_uuid in
  let suffix := take 12 (filter (λ c, negb (Ascii.eqb c hyphen) = true) (chars id)) in
  let base := chars (kubernetes_name ("validation-" +:+ kind)) in
  let prefix := text (strip_hyphens (take (63 - length suffix - 1) base)) in
  ret ((if truthy prefix then prefix else "validation") +:+ "-" +:+ text suffix).

Definition cleanup_kubernetes_validation_run (settings : KubernetesRuntimeSettings) (context : GoblinContext)
    : M Station (option string) :=
  match artifact_retention settings with
  | None => ret None
  | Some retention =>
      let project_id := match gc_metadata context !! "project_id" with
                        | Some j => if py_truthy j then Some (py_str j) else None
                        | None => None
                        end in
      try_catch
        (do* zoom sn_depot_lens (cleanup_retained_run conditions (uri_root retention) project_id (gc_run_id context)) in
         ret None)
        (λ e, if is_retention_error e || caught_os_error e
              then ret (Some ("Kubernetes validation artifact cleanup failed: " +:+ exn_str e)) else raise e)
  end.
Definition with_error (error : string) (r : WorkerValidationResult) : WorkerValidationResult :=
  mkValidationResult (vr_kind r) false (vr_image r) (vr_image_digest r) (vr_contract_version r) (vr_validator_version r)
    (vr_validated_at r) (vr_result_status r) (vr_result_file r) (vr_artifact_count r) (Some error) (vr_checks r).
Definition with_kubernetes_validation_cleanup (validation : KubernetesValidation) (settings : KubernetesRuntimeSettings)
    (context : GoblinContext) : M Station KubernetesValidation :=
  let* cleanup_error := cleanup_kubernetes_validation_run settings context in
  match cleanup_error with
  | None => ret validation
  | Some e =>
      let prior := vr_error (kv_result validation) in
      let prior_error := if truthy_opt prior then default EmptyString prior +:+ "; " else EmptyString in
      ret (mkKubeValidation (with_error (prior_error +:+ e) (kv_result validation))
             (kv_artifacts validation) (kv_exit_code validation) (kv_logs validation))
  end.

(** The verdict on what a run showed. *)
Definition observed_validation (definition : GoblinDefinition) (image image_identity : string)
    (o : KubernetesRunObservation) (validated_at : option datetime) (require_success : bool) : KubernetesValidation :=
  let r := ob_result o in
  let verdict ok error checks :=
    mkKubeValidation
      (validation_result (gd_kind definition) ok (Some image) (Some image_identity) validated_at
         (Some (result_status_str (gr_status r))) None (Z.of_nat (length (gr_artifacts r))) error checks)
      (gr_artifacts r) (ob_exit_code o) (lc_text <$> ob_logs o) in
  let checks := if ob_job_created o then ["kubernetes-job"] else [] in
  if negb (ob_envelope_valid o)
  then verdict false (Some (text_or (gr_error r) "worker did not produce a valid result envelope")) checks
  else
    let checks := checks ++ ["result-envelope"]
                  ++ (if bool_decide (gr_metrics r = ∅) then [] else ["metrics"])
                  ++ match gr_handoff r with [] => [] | _ => ["handoff"] end ++ ["artifact-metadata"] in
    if require_success && negb (bool_decide (gr_status r = ResSuccess))
    then verdict false (Some (text_or (gr_error r) "worker returned failed status")) checks
    else verdict true None checks.

Definition _validate_one_with_kubernetes (settings : KubernetesRuntimeSettings) (workers : WorkerImageMap)
    (definition : GoblinDefinition) (input_payload : dict) (require_success : bool) (timeout_seconds : Z)
    : M Station KubernetesValidation :=
  let kind := gd_kind definition in
  match worker_get workers kind with
  | Err e =>
      if is_worker_config_error e
      then let* now := station_now in
           ret (plain_validation (validation_result kind false None None now None None 0 (Some (exn_str e)) []))
      else raise e
  | Ok worker =>
      let image_identity := settings_image_identity settings (wi_image worker) (Some kind) in
      let* job_id := zoom sn_world_lens (validation_job_id kind) in
      let* context := zoom sn_world_lens (new_run_context job_id kind 1) in
      let* seen := try_catch
        (let* o := zoom sn_world_lens (run_observed runtime definition input_payload context (Some timeout_seconds) None true) in
         ret (inr o))
        (λ e, ret (inl e)) in
      let* now := station_now in
      let validation := match seen with
        | inl e => plain_validation (validation_result kind false (Some (wi_image worker)) (Some image_identity) now None None 0
                     (Some ("Kubernetes validation failed: " +:+ exn_str e)) [])
        | inr o => observed_validation definition (wi_image worker) image_identity o now require_success
        end in
      with_kubernetes_validation_cleanup validation settings context
  end.

Definition _selected_definitions (registry : Registry) (kinds : list string)
    : M Station (list GoblinDefinition * list KubernetesValidation) :=
  let all := registry_list registry in
  match kinds with
  | [] => ret (all, [])
  | _ =>
      let selected := filter (λ d, gd_kind d ∈ kinds) all in
      let missing := filter (λ kind, kind ∉ gd_kind <$> selected) (sorted_strings (remove_dups kinds)) in
      let* results := foldM (λ acc kind,
        let* now := station_now in
        ret (acc ++ [plain_validation (validation_result kind false None None now None None 0
                                         (Some ("unknown goblin kind: " +:+ kind)) [])])) [] missing in
      ret (selected, results)
  end.
(** The runtime is the one [build_kubernetes_runtime] makes of the same workers and settings. *)
Definition validate_workers_with_kubernetes (registry : Registry) (input_payload : dict) (kinds : list string)
    (require_success : bool) (timeout_seconds : Z) : M Station (list KubernetesValidation) :=
  let* selected := _selected_definitions registry kinds in
  let '(definitions, results) := selected in
  foldM (λ acc definition,
    let* v := _validate_one_with_kubernetes (kr_settings runtime) (kr_workers runtime) definition input_payload
                require_success timeout_seconds in
    ret (acc ++ [v])) results definitions.
End validation.

(** ** What a passing validation shows *)

Section soundness.
Context `{Sqlite} `{Env} `{Crypto} `{Quantities} `{KubeCluster} `{ArtifactSource} (conditions : Conditions) (runtime : KubeRuntime).

Lemma context_unscoped job_id kind attempt w w' context :
  new_run_context job_id kind attempt w = (w', Ok context) → gc_metadata context !! "project_id" = None.
Proof.
  unfold new_run_context. intros (w1 & run_id & _ & Hk)%bind_ok. apply bind_ok in Hk as (w2 & now & _ & [= _ <-]).
  reflexivity.
Qed.
Lemma world_depot {A : Type} (m : M World A) s s' x : zoom sn_world_lens m s = (s', x) → sn_depot s' = sn_depot s.
Proof. rewrite zoom_eq. by intros [= <- _]. Qed.
Lemma zoomed_ok {A : Type} (m : M World A) s s' a : zoom sn_world_lens m s = (s', Ok a) → m (sn_world s) = (sn_world s', Ok a).
Proof. rewrite zoom_eq. destruct (m (sn_world s)) as [w x] eqn:Hm. simpl. rewrite Hm. by intros [= <- <-]. Qed.
Lemma observed_ok d image identity o now rs :
  let v := observed_validation d image identity o now rs in
  vr_image_digest (kv_result v) = Some identity ∧ kv_artifacts v = gr_artifacts (ob_result o)
  ∧ (vr_ok (kv_result v) = true → ob_envelope_valid o = true ∧ (rs = true → gr_status (ob_result o) = ResSuccess)).
Proof.
  unfold observed_validation. destruct (ob_envelope_valid o); simpl; [|done]. destruct rs; simpl; [|done].
  by case_bool_decide.
Qed.
(** Cleaning up only ever turns a verdict into a refusal. *)
Lemma cleaned_ok settings context validation s s' v :
  with_kubernetes_validation_cleanup conditions validation settings context s = (s', Ok v) → vr_ok (kv_result v) = true →
  v = validation ∧ cleanup_kubernetes_validation_run conditions settings context s = (s', Ok None).
Proof.
  unfold with_kubernetes_validation_cleanup. intros (s1 & [e|] & Hc & [= <- <-])%bind_ok; [done|]. by intros _.
Qed.
Lemma cleaned_removes settings context retention root s s' :
  gc_metadata context !! "project_id" = None → artifact_retention settings = Some retention →
  _local_retention_root (uri_root retention) = Ok root →
  cleanup_kubernetes_validation_run conditions settings context s = (s', Ok None) →
  let target := names root ++ _retained_directory None (gc_run_id context) in
  only_without target (dp_disk (sn_depot s)) (dp_disk (sn_depot s')) ∧ dp_disk (sn_depot s') !! target = None.
Proof.
  intros Hp Hr Hroot. unfold cleanup_kubernetes_validation_run, try_catch. rewrite Hr, Hp.
  destruct (bind _ _ s) as [s1 [[e|]|e]] eqn:Hb; [|intros [= ->]|by destruct (_ || _)].
  { apply bind_ok in Hb as (? & ? & _ & ?). done. }
  apply bind_ok in Hb as (s2 & [] & Hz & [= ->]). rewrite zoom_eq in Hz.
  destruct (cleanup_retained_run _ _ _ _ (view sn_depot_lens s)) as [d x] eqn:Hc. injection Hz as <- ->.
  destruct (cleanup_spec conditions _ _ _ root _ _ _ Hroot Hc) as [Ho Hgone]. simpl. split; [exact Ho|by apply Hgone].
Qed.

(** The context of a validation is drawn for it: the uuids of the job and of the run are the
    next two of the process. *)
Lemma drawn_uuid w w' id :
  zoom w_process_lens new_uuid w = (w', Ok id) → id = uuid4 (uuids (w_process w)) ∧ uuids (w_process w') = S (uuids (w_process w)).
Proof. rewrite zoom_eq. by intros [= <- <-]. Qed.
Lemma ret_state {S A} (x y : A) (s s' : S) : ret x s = (s', Ok y) → s' = s.
Proof. by intros [= <- _]. Qed.
Lemma fresh_context kind w0 w1 w2 job_id context :
  validation_job_id kind w0 = (w1, Ok job_id) → new_run_context job_id kind 1 w1 = (w2, Ok context) →
  gc_run_id context = uuid4 (S (uuids (w_process w0))).
Proof.
  intros (wa & ? & [_ Hn]%drawn_uuid & Hret)%bind_ok (wb & run & [-> _]%drawn_uuid & Hctx)%bind_ok.
  apply bind_ok in Hctx as (wc & t & _ & Hc). apply ret_state in Hret as ->. rewrite <- Hn. by injection Hc as _ <-.
Qed.

(** C20: a worker passes validation through Kubernetes only on the evidence of a run.  If
    the verdict is favourable, then under a context drawn for it (its run id is the next
    but one uuid of the process) the runtime created a Job whose manifest is that of the
    image configured for the kind, the run's result was a valid envelope and, where
    success was demanded, a success: the text stored for this run says so and the cluster
    reported that this run's Job succeeded.  The digest of the verdict is the identity the
    scheduler's gate compares, its artifacts are the result's; and the bytes the run
    retained are gone, while every directory of another run that holds files is untouched. *)
Theorem kube_validation_sound (definition : GoblinDefinition) (input_payload : dict) (require_success : bool) (timeout_seconds : Z)
    (s s' : Station) (v : KubernetesValidation) :
  _validate_one_with_kubernetes conditions runtime (kr_settings runtime) (kr_workers runtime) definition input_payload require_success
    timeout_seconds s = (s', Ok v) →
  vr_ok (kv_result v) = true →
  ∃ worker job_id context o w0 w1 w2,
    worker_get (kr_workers runtime) (gd_kind definition) = Ok worker
    ∧ validation_job_id (gd_kind definition) (sn_world s) = (w0, Ok job_id)
    ∧ new_run_context job_id (gd_kind definition) 1 w0 = (w1, Ok context)
    ∧ gc_run_id context = uuid4 (S (uuids (w_process (sn_world s))))
    ∧ run_observed runtime definition input_payload context (Some timeout_seconds) None true w1 = (w2, Ok o)
    ∧ ob_job_created o = true ∧ submitted_job runtime definition (wi_image worker) context (Some timeout_seconds) None
    ∧ ob_envelope_valid o = true
    ∧ (require_success = true → gr_status (ob_result o) = ResSuccess ∧ stored_result runtime (gc_run_id context) (ob_result o)
        ∧ job_succeeded runtime (kubernetes_name ("gk-" +:+ gd_kind definition +:+ "-" +:+ gc_run_id context)))
    ∧ vr_image_digest (kv_result v) = Some (settings_image_identity (kr_settings runtime) (wi_image worker) (Some (gd_kind definition)))
    ∧ kv_artifacts v = gr_artifacts (ob_result o)
    ∧ ∀ retention root, artifact_retention (kr_settings runtime) = Some retention → _local_retention_root (uri_root retention) = Ok root →
        let target := names root ++ _retained_directory None (gc_run_id context) in
        only_without target (dp_disk (sn_depot s)) (dp_disk (sn_depot s')) ∧ dp_disk (sn_depot s') !! target = None.
Proof.
  unfold _validate_one_with_kubernetes. destruct (worker_get (kr_workers runtime) _) as [worker|e] eqn:Hw.
  2:{ destruct (is_worker_config_error e); [|done]. by intros (s1 & now & _ & [= _ <-])%bind_ok. }
  intros (s1 & job_id & Hjob & Hk)%bind_ok Hok. pose proof (zoomed_ok _ _ _ _ Hjob) as Hjob'. apply world_depot in Hjob as Hs1.
  apply bind_ok in Hk as (s2 & context & Hctx & Hk).
  apply bind_ok in Hk as (s3 & seen & Hseen & Hk). apply bind_ok in Hk as (s4 & now & Hnow & Hk).
  assert (Hs4 : sn_depot s4 = sn_depot s3).
  { unfold station_now in Hnow. apply bind_ok in Hnow as (s5 & t & Ht%world_depot & [= <- _]). done. }
  assert (Hs3 : sn_depot s3 = sn_depot s2).
  { unfold try_catch in Hseen. destruct (bind _ _ s2) as [s6 [b|e]] eqn:Hb; injection Hseen as <- _.
    - apply bind_ok in Hb as (s7 & o & Ho%world_depot & [= <- _]). done.
    - unfold bind in Hb. destruct (zoom sn_world_lens _ s2) as [s7 [o|e']] eqn:Hz; [done|]. injection Hb as <- _. by apply world_depot in Hz. }
  apply cleaned_ok in Hk as [-> Hc]; [|done]. pose proof (zoomed_ok _ _ _ _ Hctx) as Hctx'. apply world_depot in Hctx.
  destruct seen as [e|o]; [done|]. unfold try_catch in Hseen.
  destruct (bind _ _ s2) as [s6 [b|e]] eqn:Hb; [|done]. injection Hseen as -> ->.
  apply bind_ok in Hb as (s7 & o' & Ho & [= -> ->]). apply zoomed_ok in Ho.
  pose proof (observed_ok definition (wi_image worker) (settings_image_identity (kr_settings runtime) (wi_image worker) (Some (gd_kind definition))) o now require_success) as (Hdig & Harts & Hv).
  destruct (Hv Hok) as [Henv Hsucc]. destruct (run_observed_genuine _ _ _ _ _ _ _ _ _ _ Ho Henv) as (Hc' & (wk & Hwk & Hsub) & Hgen).
  rewrite Hw in Hwk. injection Hwk as <-. exists worker, job_id, context, o, (sn_world s1), (sn_world s2), (sn_world s3).
  split_and!; [done|exact Hjob'|exact Hctx'|by eapply fresh_context|exact Ho|done|exact Hsub|done|by intros Hr; auto|done|done|].
  intros retention root Hr Hroot. rewrite <- Hs1, <- Hctx, <- Hs3, <- Hs4. by eapply cleaned_removes; [eapply context_unscoped|..].
Qed.
End soundness.

(** ** A run of the definitions *)

Definition proof_cluster : KubeCluster := sample_cluster (mkJobStatus 1 0) [ended_pod] (LogText "hi") (Some "{}").
(** The volume with what the run and another one retained. *)
Definition retained_disk (run : string) : Disk :=
  let root := ["data"; "artifacts"] in
  <[root ++ ["projects"; "unscoped"; "runs"; "h:" +:+ run] := {[ "0000-x.txt" := LFile "hello" ]}]>
    (<[root ++ ["projects"; "p2"; "runs"; "other"] := {[ "a" := LFile "kept" ]}]>
       (list_to_map ((λ p, (p, ∅)) <$> [ []; ["data"]; root; root ++ ["projects"]; root ++ ["projects"; "unscoped"];
          root ++ ["projects"; "unscoped"; "runs"]; root ++ ["projects"; "p2"]; root ++ ["projects"; "p2"; "runs"] ]))).
Definition proof_station (run : string) : @Station (one_file "hello") :=
  @mkStation (one_file "hello") claimed_world (@mkDepot (one_file "hello") EmptyString (retained_disk run) 0).
Definition prove_report (run : string) :=
  @_validate_one_with_kubernetes sqlite_merge ticking_env plain_crypto plain_quantities proof_cluster (one_file "hello") calm plain_kube
    (kr_settings plain_kube) (kr_workers plain_kube) sample_goblin ∅ true 5 (proof_station run).
Definition proof_run : string := Eval vm_compute in
  match new_run_context (H := ticking_env) "j" "k" 1 (validation_job_id (H0 := ticking_env) "report" claimed_world).1 with (_, Ok c) => gc_run_id c | _ => EmptyString end.

(** The proof passes, its bytes and the empty directories above them are gone, and the
    other run's are not; without the volume it fails. *)
Example validates_report :
  match prove_report proof_run with
  | (s, Ok v) => (vr_ok (kv_result v), vr_checks (kv_result v), length (elements (dom (dp_disk (sn_depot s))))) =
      (true, ["kubernetes-job"; "result-envelope"; "artifact-metadata"], 7%nat)
  | _ => False
  end.
Proof. vm_compute. reflexivity. Qed.

Lemma kube_validation_sound_witness :
  ∃ s v, prove_report proof_run = (s, Ok v)
  ∧ vr_image_digest (kv_result v) = Some (settings_image_identity (H := plain_crypto) restricted_kube "report:1" (Some "report"))
  ∧ ∃ run, dp_disk (sn_depot s) !! (["data"; "artifacts"] ++ ["projects"; "unscoped"; "runs"; "h:" +:+ run]) = None.
Proof.
  assert (Hok : match (prove_report proof_run).2 with Ok v => vr_ok (kv_result v) | Err _ => false end = true)
    by (vm_compute; reflexivity).
  destruct (prove_report proof_run) as [s [v|e]] eqn:Hv; [|discriminate Hok]. exists s, v. split; [done|].
  pose proof Hv as Hrun. unfold prove_report in Hrun.
  destruct (@kube_validation_sound sqlite_merge ticking_env plain_crypto plain_quantities proof_cluster (one_file "hello") calm plain_kube
    sample_goblin ∅ true 5 (proof_station proof_run) s v Hrun)
    as (worker & job_id & context & o & w0 & w1 & w2 & Hworker & _ & _ & _ & _ & _ & _ & _ & _ & Hdigest & _ & Hgone).
  - exact Hok.
  - assert (worker = mkWorkerImage "." "Dockerfile" "report:1") as -> by (vm_compute in Hworker; congruence).
    split; [exact Hdigest|].
    exists (gc_run_id context).
    destruct (Hgone (mkRetention "claim" "artifacts" "/data/artifacts" "/goblin-retained-artifacts") (mkPath "/" ["data"; "artifacts"]))
      as [_ Hnone]; [reflexivity|vm_compute; reflexivity|exact Hnone].
Defined.
