(* ===== verification/Fanout.v ===== *)
(** * Fanouts and retries ([src/src/goblin_king/fanout.py])

    A fanout is a batch of jobs created together; its status is derived from its
    jobs.  A retry is a fresh job copied from a terminal one.  Both validate
    everything before they write. *)

From S2P Require Import Prelude CausalTime Contracts ResourcePolicies EventStore JobStore JobLifecycle RecordStore Auth Registry World Validation Scheduler Attempts.

Inductive FanoutStatus := FanoutQueued | FanoutRunning | FanoutCompleted | FanoutFailed | FanoutPartial.
#[export] Instance FanoutStatus_eq : EqDecision FanoutStatus. Proof. solve_decision. Defined.

Record FanoutItem := mkFanoutItem {
  fi_kind : string; fi_input : dict; fi_priority : Z; fi_max_retries : Z;
  fi_timeout_seconds : option Z }.

Record FanoutCreateRequest := mkFanoutRequest {
  fr_description : option string; fr_correlation_id : option string; fr_items : list FanoutItem }.

Record RetryCreateRequest := mkRetryRequest {
  rr_reason : option string; rr_input : option dict; rr_priority : option Z;
  rr_max_retries : option Z; rr_timeout_seconds : option Z }.

Record FanoutDetail := mkFanoutDetail {
  fd_fanout : FanoutRecord; fd_status : FanoutStatus; fd_counts : gmap string Z;
  fd_jobs : list JobRecord; fd_runs : list RunRecord }.

(** ** Derived status *)

Definition is_completed (s : JobStatus) : bool := bool_decide (s = JCompleted).
(** [{"failed", "timed_out", "cancelled"}] *)
Definition is_unsuccessful (s : JobStatus) : bool :=
  match s with JFailed | JTimedOut | JCancelled => true | _ => false end.
(** [ACTIVE_STATUSES] *)
Definition is_underway (s : JobStatus) : bool :=
  match s with JLeased | JRunning | JRetrying => true | _ => false end.

Definition derive_fanout_status (jobs : list JobRecord) : FanoutStatus :=
  match jobs with
  | [] => FanoutQueued
  | _ =>
      let statuses := map j_status jobs in
      if forallb is_completed statuses then FanoutCompleted
      else if forallb is_terminal statuses then
        if existsb is_completed statuses then FanoutPartial else FanoutFailed
      else if existsb is_completed statuses && existsb is_unsuccessful statuses then FanoutPartial
      else if existsb is_underway statuses then FanoutRunning
      else FanoutQueued
  end.

(** The loop of [_counts], and its total. *)
Fixpoint counts_loop (counts : gmap string Z) (jobs : list JobRecord) : gmap string Z :=
  match jobs with
  | [] => counts
  | j :: jobs' =>
      let key := job_status_str (j_status j) in
      counts_loop (<[key := default 0 (counts !! key) + 1]> counts) jobs'
  end.
Definition _counts (jobs : list JobRecord) : gmap string Z :=
  <["total" := Z.of_nat (length jobs)]> (counts_loop ∅ jobs).

Section fanout.
Context `{Sqlite} `{Env} `{Pydantic} `{Floats}.

(** [[run for job in jobs for run in store.list_job_runs(job.id)]] *)
Definition runs_of_jobs (jobs : list JobRecord) (t : JobTables) : result (list RunRecord) :=
  let? per_job := mapM_result (λ j, list_job_runs (j_id j) t) jobs in Ok (concat per_job).

Definition fanout_detail (fanout_id : string) (w : World) : result FanoutDetail :=
  match get_fanout fanout_id (w_fanouts w) with
  | None => Err (KeyError fanout_id)
  | Some fanout =>
      let jobs := list_fanout_jobs fanout_id (w_jobs w) in
      let? runs := runs_of_jobs jobs (w_jobs w) in
      Ok (mkFanoutDetail fanout (derive_fanout_status jobs) (_counts jobs) jobs runs)
  end.

Definition list_fanout_details (w : World) : result (list FanoutDetail) :=
  mapM_result (λ f, fanout_detail (f_id f) w) (list_fanouts (w_fanouts w)).

(** ** Creating a batch *)

(** [item.model_dump(mode="json")] *)
Definition item_dump (i : FanoutItem) : Json :=
  JObj [("kind", JStr (fi_kind i)); ("input", dict_json (fi_input i));
        ("priority", JInt (fi_priority i)); ("max_retries", JInt (fi_max_retries i));
        ("timeout_seconds", JOptInt (fi_timeout_seconds i))].

(** The definition and the effective policy of every item: both comprehensions run
    before anything is written. *)
Definition checked_items (registry : Registry) (policies : option ResourcePolicySet)
    (items : list FanoutItem)
    : result (list (GoblinDefinition * FanoutItem * option ResourcePolicy)) :=
  let? definitions := mapM_result (λ i, registry_get registry (fi_kind i)) items in
  let? effective := mapM_result (λ '(definition, i),
      match policies with
      | None => Ok None
      | Some ps =>
          let? p := effective_for ps (gd_kind definition) (fi_timeout_seconds i)
                      (Some (fi_max_retries i)) in Ok (Some p)
      end) (zip definitions items) in
  Ok (zip (zip definitions items) effective).

(** [(policy.max_retries or 0) if policy else max_retries], and the timeout. *)
Definition policy_retries (policy : option ResourcePolicy) (asked : Z) : Z :=
  match policy with Some p => default 0 (max_retries p) | None => asked end.
Definition policy_timeout (policy : option ResourcePolicy) (asked : option Z) : option Z :=
  match policy with Some p => timeout_seconds p | None => asked end.
(** [**({"resource_policy": policy.compact()} if policy else {})] *)
Definition with_policy_entry (policy : option ResourcePolicy) (metadata : dict) : dict :=
  match policy with Some p => policy_metadata p metadata | None => metadata end.

Definition item_job (fanout : FanoutRecord) (id : string) (index : Z)
    (definition : GoblinDefinition) (item : FanoutItem) (policy : option ResourcePolicy) : JobRecord :=
  mkJob id (gd_kind definition) (fi_input item) (f_created_at fanout) (f_created_by fanout)
    (f_correlation_id fanout) (f_project_id fanout) (Some (f_id fanout))
    (with_policy_entry policy
       (list_to_map [("fanout_item_index", JInt index); ("fanout_item", item_dump item)]))
    JQueued (fi_priority item) None (Some (f_created_at fanout)) None None 0
    (policy_retries policy (fi_max_retries item)) (policy_timeout policy (fi_timeout_seconds item))
    None.

(** The comprehension over the checked items: each draws a job id. *)
Fixpoint item_jobs (fanout : FanoutRecord) (index : Z)
    (l : list (GoblinDefinition * FanoutItem * option ResourcePolicy)) : M World (list JobRecord) :=
  match l with
  | [] => ret []
  | (definition, item, policy) :: l' =>
      let* id := zoom w_process_lens new_uuid in
      let* rest := item_jobs fanout (index + 1) l' in
      ret (item_job fanout id index definition item policy :: rest)
  end.

(** The batch's own record: one clock reading, one or two ids. *)
Definition fanout_header (request : FanoutCreateRequest) (created_by : string)
    (project_id : option string) : M World FanoutRecord :=
  let* now := zoom w_process_lens utc_now in
  let* id := zoom w_process_lens new_uuid in
  let* correlation := (if truthy_opt (fr_correlation_id request)
                       then ret (default EmptyString (fr_correlation_id request))
                       else zoom w_process_lens new_uuid) in
  ret (mkFanout id now created_by project_id (Some correlation) (fr_description request)).

Definition create_fanout (registry : Registry) (request : FanoutCreateRequest) (created_by : string)
    (project_id : option string) (policies : option ResourcePolicySet) : M World FanoutDetail :=
  let* checked := lift_result (checked_items registry policies (fr_items request)) in
  let* fanout := fanout_header request created_by project_id in
  let* jobs := item_jobs fanout 0 checked in
  do* zoom w_fanouts_lens (save_fanout fanout) in
  do* forM_ jobs (λ job, zoom w_jobs_lens (save_job job)) in
  let* detail := gets (fanout_detail (f_id fanout)) in
  lift_result detail.

(** ** Retrying a terminal job *)

Definition retry_metadata (source : JobRecord) (reason : option string)
    (policy : option ResourcePolicy) : dict :=
  with_policy_entry policy
    (<["retry" := JObj [("source_job_id", JStr (j_id source));
                        ("source_status", JStr (job_status_str (j_status source)));
                        ("reason", JOptStr reason)]]> (j_metadata source)).

Definition retry_of (source : JobRecord) (request : RetryCreateRequest) (created_by id : string)
    (created_at due_at : utc) (policy : option ResourcePolicy) (timeout : option Z) (retries : Z)
    : JobRecord :=
  mkJob id (j_kind source) (default (j_input source) (rr_input request)) created_at created_by
    (j_correlation_id source) (j_project_id source) (j_fanout_id source)
    (retry_metadata source (rr_reason request) policy) JQueued
    (default (j_priority source) (rr_priority request)) None (Some due_at) None None 0
    (policy_retries policy retries) (policy_timeout policy timeout) None.

(** The checks before the new job is built. *)
Definition retry_source (job_id : string) (request : RetryCreateRequest)
    (policies : option ResourcePolicySet) (t : JobTables)
    : result (JobRecord * option ResourcePolicy * option Z * Z) :=
  match get_job job_id t with
  | None => Err (KeyError job_id)
  | Some source =>
      if negb (is_terminal (j_status source)) then
        Err (ValueError ("job is not terminal: " +:+ job_status_str (j_status source)))
      else
        let timeout := match rr_timeout_seconds request with
                       | None => j_timeout_seconds source | some => some end in
        let retries := default (j_max_retries source) (rr_max_retries request) in
        match policies with
        | None => Ok (source, None, timeout, retries)
        | Some ps =>
            let? p := effective_for ps (j_kind source) timeout (Some retries) in
            Ok (source, Some p, timeout, retries)
        end
  end.

Definition retry_job (job_id : string) (request : RetryCreateRequest) (created_by : string)
    (policies : option ResourcePolicySet) : M World JobRecord :=
  let* checked := gets (λ w, retry_source job_id request policies (w_jobs w)) in
  let* (source, policy, timeout, retries) := lift_result checked in
  let* id := zoom w_process_lens new_uuid in
  let* created_at := zoom w_process_lens utc_now in
  let* due_at := zoom w_process_lens utc_now in
  let retry := retry_of source request created_by id created_at due_at policy timeout retries in
  do* zoom w_jobs_lens (save_job retry) in
  ret retry.
End fanout.

(** ** Lemmas: the derived status *)

(** A job of the batch in a given state. *)
Definition some_job (p : JobStatus → bool) (jobs : list JobRecord) : Prop :=
  ∃ j, j ∈ jobs ∧ p (j_status j) = true.
Definition all_jobs (p : JobStatus → bool) (jobs : list JobRecord) : Prop :=
  ∀ j, j ∈ jobs → p (j_status j) = true.

Lemma existsb_status (p : JobStatus → bool) jobs :
  existsb p (map j_status jobs) = true ↔ some_job p jobs.
Proof.
  rewrite existsb_exists. split.
  - intros (s & (j & <- & Hj)%in_map_iff & Hp). exists j. by rewrite list_elem_of_In.
  - intros (j & Hj & Hp). exists (j_status j). split; [|done]. apply in_map. by apply list_elem_of_In.
Qed.
Lemma forallb_status (p : JobStatus → bool) jobs :
  forallb p (map j_status jobs) = true ↔ all_jobs p jobs.
Proof.
  rewrite forallb_forall. split.
  - intros H j Hj. apply H, in_map. by apply list_elem_of_In.
  - intros H s (j & <- & Hj)%in_map_iff. apply H. by apply list_elem_of_In.
Qed.

Lemma some_or_all (p : JobStatus → bool) jobs :
  some_job p jobs ∨ all_jobs (λ s, negb (p s)) jobs.
Proof.
  destruct (existsb p (map j_status jobs)) eqn:He; [left; by apply existsb_status|right].
  intros j Hj. apply negb_true_iff, not_true_is_false. intros Hp.
  assert (existsb p (map j_status jobs) = true) by (apply existsb_status; by exists j). congruence.
Qed.

(** What each status says of the batch. *)
Definition status_means (status : FanoutStatus) (jobs : list JobRecord) : Prop :=
  let mixed := some_job is_completed jobs ∧ some_job is_unsuccessful jobs in
  match status with
  | FanoutCompleted => jobs ≠ [] ∧ all_jobs is_completed jobs
  | FanoutFailed => jobs ≠ [] ∧ all_jobs is_unsuccessful jobs
  | FanoutPartial => mixed
  | FanoutRunning => some_job is_underway jobs ∧ ¬ mixed
  | FanoutQueued => (jobs = [] ∨ some_job (λ s, bool_decide (s = JQueued)) jobs)
      ∧ all_jobs (λ s, negb (is_underway s)) jobs ∧ ¬ mixed
  end.

Lemma derive_branch jobs : status_means (derive_fanout_status jobs) jobs.
Proof.
  unfold status_means, derive_fanout_status. destruct jobs as [|j0 l].
  { split_and!; [by left|by intros j ?%not_elem_of_nil|]. intros [(j & ?%not_elem_of_nil & _) _]. done. }
  set (jobs := j0 :: l). cbv zeta.
  destruct (forallb is_completed _) eqn:Hall.
  { split; [done|]. by apply forallb_status. }
  destruct (forallb is_terminal _) eqn:Hterm.
  - assert (all_jobs is_terminal jobs) as Ht by by apply forallb_status.
    destruct (existsb is_completed _) eqn:Hc.
    + apply existsb_status in Hc. split; [exact Hc|].
      destruct (some_or_all is_unsuccessful jobs) as [?|Hno]; [done|]. exfalso.
      apply not_true_iff_false in Hall. apply Hall, forallb_status. intros j Hj.
      specialize (Hno j Hj). specialize (Ht j Hj). by destruct (j_status j).
    + split; [done|]. intros j Hj. specialize (Ht j Hj).
      destruct (j_status j) eqn:Hs; try done. exfalso.
      apply not_true_iff_false in Hc. apply Hc, existsb_status. exists j. by rewrite Hs.
  - assert (some_job (λ s, negb (is_terminal s)) jobs) as (j1 & Hj1 & Hn1).
    { destruct (some_or_all (λ s, negb (is_terminal s)) jobs) as [?|Ha]; [done|].
      apply not_true_iff_false in Hterm. exfalso. apply Hterm, forallb_status. intros j Hj.
      specialize (Ha j Hj). simpl in Ha. by rewrite negb_involutive in Ha. }
    destruct (existsb is_completed _ && _) eqn:Hp.
    { apply andb_true_iff in Hp as [?%existsb_status ?%existsb_status]. done. }
    assert (¬ (some_job is_completed jobs ∧ some_job is_unsuccessful jobs)) as Hnp.
    { intros [Hc Hu]. apply not_true_iff_false in Hp. apply Hp, andb_true_iff.
      split; by apply existsb_status. }
    destruct (existsb is_underway _) eqn:Hu; [split; [by apply existsb_status|done]|].
    assert (all_jobs (λ s, negb (is_underway s)) jobs) as Hno.
    { destruct (some_or_all is_underway jobs) as [Hs|?]; [|done].
      apply existsb_status in Hs. congruence. }
    split_and!; [right|done|done]. exists j1. split; [done|].
    specialize (Hno j1 Hj1). by destruct (j_status j1).
Qed.

(** Two claims on one batch, at one of its jobs. *)
Lemma some_all_meet p q jobs :
  some_job p jobs → all_jobs q jobs → ∃ s, p s = true ∧ q s = true.
Proof. intros (j & Hj & Hp) Hq. exists (j_status j). auto. Qed.
Lemma all_all_meet p q jobs :
  jobs ≠ [] → all_jobs p jobs → all_jobs q jobs → ∃ s, p s = true ∧ q s = true.
Proof.
  intros Hne Hp. apply some_all_meet. destruct jobs as [|j jobs]; [done|].
  exists j. split; [left|apply Hp; left].
Qed.

(** Pairs of claims no status satisfies. *)
Ltac clash :=
  match goal with
  | Hs : some_job _ ?l, Ha : all_jobs _ ?l |- _ =>
      let s := fresh "s" in let Hp := fresh in let Hq := fresh in
      destruct (some_all_meet _ _ _ Hs Ha) as (s & Hp & Hq); destruct s; discriminate
  | Hn : ?l ≠ [], Ha : all_jobs _ ?l, Hb : all_jobs _ ?l |- _ =>
      let s := fresh "s" in let Hp := fresh in let Hq := fresh in
      destruct (all_all_meet _ _ _ Hn Ha Hb) as (s & Hp & Hq); destruct s; discriminate
  end.

Lemma status_means_unique s1 s2 jobs : status_means s1 jobs → status_means s2 jobs → s1 = s2.
Proof.
  destruct s1, s2; unfold status_means; intros Ha Hb; destruct_and?; try done; exfalso;
    repeat match goal with H : _ ∨ _ |- _ => destruct H; try done end; try clash;
    by match goal with Hn : ¬ _ |- _ => apply Hn end.
Qed.

Lemma counts_loop_lookup counts jobs key :
  default 0 (counts_loop counts jobs !! key)
  = default 0 (counts !! key)
    + Z.of_nat (length (filter (λ j, job_status_str (j_status j) = key) jobs)).
Proof.
  revert counts. induction jobs as [|j jobs IH]; intros counts; simpl; [lia|].
  rewrite IH, filter_cons. destruct (decide _) as [->|Hne]; simpl.
  - rewrite lookup_insert_eq. simpl. lia.
  - by rewrite lookup_insert_ne.
Qed.

(** ** Lemmas: creating *)

Lemma list_job_runs_readable `{Sqlite} id t : tables_ok t → is_ok (list_job_runs id t) = true.
Proof.
  intros [_ Hruns]. unfold list_job_runs. erewrite mapM_ok with (g := λ r, r); [done|].
  intros r Hr. apply order_by_elem, list_elem_of_filter in Hr as [_ [k Hk]%elem_of_rows].
  specialize (Hruns k r Hk). unfold _row_to_run, validate_timestamp_order.
  destruct (r_finished_at r) as [f|] eqn:Hf; [|done].
  pose proof (rk_order _ _ Hruns f Hf). destruct (Z.ltb_spec f (r_started_at r)); [lia|done].
Qed.

Section create.
Context `{Sqlite} `{Env} `{Pydantic} `{Floats} `{!Inj eq eq uuid4}.

(** The process only. *)
Definition with_process (p : Process) (w : World) : World := put w_process_lens p w.

Lemma good_process w p :
  good w → (uuids (w_process w) ≤ uuids p)%nat → good (with_process p w).
Proof.
  intros [Hlog Htab Hids] Hle. split; [done..|]. intros n Hn. apply Hids. simpl in Hn. lia.
Qed.

(** Which ids a list of drawn ids may hold. *)
Definition drawn_between (lo hi : nat) (ids : list string) : Prop :=
  NoDup ids ∧ ∀ id, id ∈ ids → ∃ n, (lo ≤ n < hi)%nat ∧ id = uuid4 n.

Lemma item_jobs_run fanout index l w :
  ∃ p js, item_jobs fanout index l w = (with_process p w, Ok js)
    ∧ (uuids (w_process w) ≤ uuids p)%nat
    ∧ drawn_between (uuids (w_process w)) (uuids p) (j_id <$> js)
    ∧ length js = length l
    ∧ ∀ k d i pol, l !! k = Some (d, i, pol) →
        ∃ id, js !! k = Some (item_job fanout id (index + Z.of_nat k) d i pol).
Proof.
  revert index w. induction l as [|[[d i] pol] l IH]; intros index w; simpl.
  - exists (w_process w), []. split; [by destruct w|]. split; [lia|]. split; [|done].
    split; [constructor|]. by intros id ?%not_elem_of_nil.
  - unfold bind at 1. rewrite zoom_eq. simpl.
    set (w1 := with_process (new_uuid (w_process w)).1 w).
    destruct (IH (index + 1) w1) as (p & js & Hrun & Hle & [Hnd Hdr] & Hlen & Hall).
    unfold bind. change (mkWorld _ _ _ _ _ _ _ _) with w1. rewrite Hrun.
    exists p, (item_job fanout (uuid4 (uuids (w_process w))) index d i pol :: js).
    simpl in Hle. split; [done|]. split; [lia|]. split; [split|split].
    + simpl. apply NoDup_cons. split; [|done]. intros Hin. destruct (Hdr _ Hin) as (n & Hn & Heq).
      apply (inj uuid4) in Heq. simpl in Hn. lia.
    + intros id [->|Hin]%elem_of_cons; [exists (uuids (w_process w)); split; [lia|done]|].
      destruct (Hdr _ Hin) as (n & Hn & Heq). exists n. simpl in Hn. split; [lia|done].
    + simpl. by rewrite Hlen.
    + intros [|k] d' i' pol' Hk; simpl in Hk.
      * simplify_eq. eexists. simpl. by rewrite Z.add_0_r.
      * destruct (Hall k d' i' pol' Hk) as [id Hid]. exists id. simpl. rewrite Hid. do 2 f_equal. lia.
Qed.

(** Storing new jobs one by one. *)
Definition add_jobs (js : list JobRecord) (t : JobTables) : JobTables :=
  mkJobTables (foldl (λ m j, <[j_id j := j]> m) (jobs t) js) (runs t) (artifacts t) (handoffs t).

Lemma save_jobs_run js w :
  NoDup (j_id <$> js) → (∀ j, j ∈ js → jobs (w_jobs w) !! j_id j = None) →
  forM_ js (λ job, zoom w_jobs_lens (save_job job)) w
  = (put w_jobs_lens (add_jobs js (w_jobs w)) w, Ok tt).
Proof.
  revert w. induction js as [|j js IH]; intros w Hnd Hnew; simpl.
  - unfold add_jobs. simpl. unfold ret. f_equal. destruct w as [? ? [] ? ? ? ? ?]. done.
  - simpl in Hnd. apply NoDup_cons in Hnd as [Hnot Hnd].
    assert (zoom w_jobs_lens (save_job j) w
      = (put w_jobs_lens (mkJobTables (<[j_id j := j]> (jobs (w_jobs w))) (runs (w_jobs w))
           (artifacts (w_jobs w)) (handoffs (w_jobs w))) w, Ok tt)) as Hsave.
    { unfold save_job. rewrite zoom_eq. simpl. rewrite zoom_eq. simpl. unfold insert_row.
      by rewrite (Hnew j (list_elem_of_here _ _)). }
    unfold bind at 1. rewrite Hsave. rewrite IH; [done|done|].
    intros x Hx. simpl. rewrite lookup_insert_ne; [apply Hnew; by right|].
    intros Heq. apply Hnot. rewrite Heq. by apply list_elem_of_fmap_2.
Qed.

Lemma add_jobs_lookup js t :
  NoDup (j_id <$> js) → (∀ j, j ∈ js → jobs t !! j_id j = None) →
  (∀ j, j ∈ js → jobs (add_jobs js t) !! j_id j = Some j)
  ∧ (∀ id, id ∉ j_id <$> js → jobs (add_jobs js t) !! id = jobs t !! id)
  ∧ rows (jobs (add_jobs js t)) ≡ₚ js ++ rows (jobs t).
Proof.
  revert t. induction js as [|j js IH]; intros t Hnd Hnew; [split_and!; [by intros ? ?%not_elem_of_nil|done|done]|].
  simpl in Hnd. apply NoDup_cons in Hnd as [Hnot Hnd].
  set (t1 := mkJobTables (<[j_id j := j]> (jobs t)) (runs t) (artifacts t) (handoffs t)).
  destruct (IH t1 Hnd) as (Hin & Hout & Hrows).
  { intros x Hx. simpl. rewrite lookup_insert_ne; [apply Hnew; by right|].
    intros Heq. apply Hnot. rewrite Heq. by apply list_elem_of_fmap_2. }
  change (add_jobs (j :: js) t) with (add_jobs js t1). split_and!.
  - intros x [->|Hx]%elem_of_cons; [|auto]. rewrite Hout by done. apply lookup_insert_eq.
  - intros id Hid. simpl in Hid. apply not_elem_of_cons in Hid as [Hne Hid]. rewrite Hout by done.
    simpl. by rewrite lookup_insert_ne.
  - rewrite Hrows. simpl. rewrite (rows_insert_perm (j_id j) j (jobs t)) by (apply Hnew; left).
    by rewrite Permutation_middle.
Qed.

(** No stored row refers to an id the process will still draw. *)
Definition refs_free (w : World) : Prop :=
  ∀ n, (uuids (w_process w) ≤ n)%nat →
    w_fanouts w !! uuid4 n = None
    ∧ (∀ id j, jobs (w_jobs w) !! id = Some j → j_fanout_id j ≠ Some (uuid4 n))
    ∧ (∀ id r, runs (w_jobs w) !! id = Some r → r_job_id r ≠ uuid4 n).

(** A job that was just created: queued, never attempted, held by nobody. *)
Definition fresh_job (j : JobRecord) : Prop :=
  j_status j = JQueued ∧ j_attempt_count j = 0 ∧ j_lease_owner j = None ∧ j_leased_until j = None.

Lemma fresh_job_ok j : fresh_job j → job_ok (j_id j) j.
Proof.
  intros (Hs & Ha & Ho & Hu). split; rewrite ?Hs, ?Ha, ?Ho, ?Hu; simpl; try done; try lia;
    by split; [intros [? ?]|].
Qed.

Lemma add_jobs_ok js t :
  NoDup (j_id <$> js) → (∀ j, j ∈ js → jobs t !! j_id j = None ∧ fresh_job j) →
  tables_ok t → tables_ok (add_jobs js t).
Proof.
  intros Hnd Hnew [Hjobs Hruns]. split; [|exact Hruns].
  destruct (add_jobs_lookup js t Hnd (λ j Hj, proj1 (Hnew j Hj))) as (Hin & Hout & _).
  intros id j Hj. destruct (decide (id ∈ j_id <$> js)) as [(x & -> & Hx)%list_elem_of_fmap|Hno].
  - rewrite (Hin x Hx) in Hj. simplify_eq. apply fresh_job_ok, Hnew, Hx.
  - rewrite Hout in Hj by done. by apply Hjobs.
Qed.

(** A batch of fresh jobs stored under drawn ids. *)
Lemma add_drawn_good p js w :
  good w → drawn_between (uuids (w_process w)) (uuids p) (j_id <$> js) →
  (uuids (w_process w) ≤ uuids p)%nat → (∀ j, j ∈ js → fresh_job j) →
  (∀ j, j ∈ js → jobs (w_jobs w) !! j_id j = None)
  ∧ good (put w_jobs_lens (add_jobs js (w_jobs w)) (with_process p w)).
Proof.
  intros [Hlog Htab Hids] [Hnd Hdr] Hle Hfresh.
  assert (∀ j, j ∈ js → jobs (w_jobs w) !! j_id j = None) as Hnew.
  { intros j Hj. destruct (Hdr (j_id j)) as (n & Hn & ->); [by apply list_elem_of_fmap_2|].
    apply (Hids n). lia. }
  split; [done|]. split; [done|by apply add_jobs_ok; [|intros; split; auto|]|].
  destruct (add_jobs_lookup js (w_jobs w) Hnd Hnew) as (_ & Hout & _).
  intros n Hn. simpl in Hn. destruct (Hids n) as (He & Hj & Hr & Ha); [lia|].
  split_and!; [done| |done|done]. change (jobs (add_jobs js (w_jobs w)) !! uuid4 n = None).
  rewrite Hout; [done|]. intros Hin. destruct (Hdr _ Hin) as (m & Hm & Heq).
  apply (inj uuid4) in Heq. lia.
Qed.

(** A job without runs reads as one. *)
Lemma list_job_runs_none id t :
  (∀ k r, runs t !! k = Some r → r_job_id r ≠ id) → list_job_runs id t = Ok [].
Proof.
  intros Hno. unfold list_job_runs.
  assert (filter (λ r, r_job_id r = id) (rows (runs t)) = []) as ->.
  { apply elem_of_nil_inv. intros r [Heq [k Hk]%elem_of_rows]%list_elem_of_filter.
    by apply (Hno k r). }
  assert (order_by (le_asc r_attempt) [] = []) as ->; [|done].
  apply Permutation_nil. symmetry. apply order_by_perm.
Qed.

Lemma all_queued_status js :
  all_jobs (λ s, bool_decide (s = JQueued)) js → derive_fanout_status js = FanoutQueued.
Proof.
  intros Hall. apply (status_means_unique _ _ js (derive_branch js)). unfold status_means.
  assert (∀ p, some_job p js → p JQueued = true) as Hsome.
  { intros q (j & Hj & Hq). specialize (Hall j Hj). by rewrite (bool_decide_eq_true_1 _ Hall) in Hq. }
  split_and!.
  - destruct js as [|j js]; [by left|right]. exists j. split; [left|apply Hall; left].
  - intros j Hj. specialize (Hall j Hj). by rewrite (bool_decide_eq_true_1 _ Hall).
  - by intros [?%Hsome _].
Qed.

Lemma fanout_header_run request created_by project_id w :
  ∃ p now correlation,
    fanout_header request created_by project_id w
    = (with_process p w, Ok (mkFanout (uuid4 (uuids (w_process w))) now created_by project_id
                               (Some correlation) (fr_description request)))
    ∧ (uuids (w_process w) < uuids p)%nat
    ∧ (truthy_opt (fr_correlation_id request) = true → fr_correlation_id request = Some correlation).
Proof.
  unfold fanout_header, bind, utc_now, monotonic_utc_now, new_uuid, zoom. simpl.
  destruct (fr_correlation_id request) as [c|] eqn:Hc; simpl; [destruct (truthy c) eqn:Ht; simpl|];
    do 3 eexists; (split; [reflexivity|]); simpl; (split; [lia|]); intros ?; congruence.
Qed.

(** ** Theorems *)

(** The status of a batch is exactly what its jobs say.  It is completed iff
    all its jobs are (and it has some), failed iff all are unsuccessful, partial
    iff it has both a completed and an unsuccessful job, running iff it is not
    partial and some job is leased, running or retrying, and queued in the rest;
    and the counts of the read model are the numbers of jobs per status, with
    their total. *)
Theorem derive_fanout_status_spec js status :
  (derive_fanout_status js = status ↔ status_means status js)
  ∧ (∀ s, default 0 (_counts js !! job_status_str s)
          = Z.of_nat (length (filter (λ j, j_status j = s) js)))
  ∧ _counts js !! "total" = Some (Z.of_nat (length js)).
Proof.
  split; [|split].
  - split; [intros <-; apply derive_branch|]. apply status_means_unique, derive_branch.
  - intros s. unfold _counts. rewrite lookup_insert_ne by (by destruct s).
    rewrite counts_loop_lookup, lookup_empty. simpl. rewrite Z.add_0_l. do 2 f_equal. apply list_filter_iff.
    intros j. split; [|by intros ->]. by destruct (j_status j), s.
  - apply lookup_insert_eq.
Qed.

(** What the checks let through: an entry per item, in order, with the definition
    of its kind and the policy in force for it. *)
Lemma checked_items_ok registry policies items checked :
  checked_items registry policies items = Ok checked →
  length checked = length items
  ∧ ∀ k d i pol, checked !! k = Some (d, i, pol) →
      items !! k = Some i ∧ registry_get registry (fi_kind i) = Ok d
      ∧ match policies with
        | None => pol = None
        | Some ps => ∃ p, pol = Some p
            ∧ effective_for ps (gd_kind d) (fi_timeout_seconds i) (Some (fi_max_retries i)) = Ok p
        end.
Proof.
  unfold checked_items. destruct (mapM_result _ items) as [ds|] eqn:Hds; simpl; [|done].
  destruct (mapM_result _ (zip ds items)) as [ps|] eqn:Hps; simpl; [|done]. intros [= <-].
  apply mapM_result_ok in Hds, Hps. pose proof (Forall2_length _ _ _ Hds) as Hl1.
  pose proof (Forall2_length _ _ _ Hps) as Hl2. rewrite length_zip in Hl2.
  split; [rewrite !length_zip; lia|]. intros k d i pol Hk.
  apply lookup_zip_Some in Hk as [Hdi Hpol]. pose proof Hdi as Hdi'.
  apply lookup_zip_Some in Hdi as [Hd Hi].
  destruct (Forall2_lookup_lr _ _ _ _ _ _ Hds Hi Hd). split_and!; [done|done|].
  pose proof (Forall2_lookup_lr _ _ _ _ _ _ Hps Hdi' Hpol) as Heff. simpl in Heff.
  destruct policies as [set|]; [|congruence].
  destruct (effective_for set _ _ _) as [p|]; [|done]. injection Heff as <-. by exists p.
Qed.

(** A stored batch of fresh jobs reads back as itself. *)
Lemma fanout_detail_fresh f js w w' :
  w_fanouts w' !! f_id f = Some f → w_jobs w' = add_jobs js (w_jobs w) → NoDup (j_id <$> js) →
  (∀ id j, jobs (w_jobs w) !! id = Some j → j_fanout_id j ≠ Some (f_id f)) →
  (∀ j, j ∈ js → jobs (w_jobs w) !! j_id j = None ∧ fresh_job j
     ∧ j_fanout_id j = Some (f_id f)
     ∧ ∀ id r, runs (w_jobs w) !! id = Some r → r_job_id r ≠ j_id j) →
  ∃ d, fanout_detail (f_id f) w' = Ok d ∧ fd_fanout d = f ∧ fd_status d = FanoutQueued
    ∧ fd_runs d = [] ∧ fd_jobs d ≡ₚ _row_to_job <$> js.
Proof.
  intros Hf Ht Hnd Hother Hjs.
  destruct (add_jobs_lookup js (w_jobs w) Hnd (λ j Hj, proj1 (Hjs j Hj))) as (_ & _ & Hrows).
  assert (list_fanout_jobs (f_id f) (w_jobs w') ≡ₚ _row_to_job <$> js) as Hperm.
  { unfold list_fanout_jobs. rewrite Ht, order_by_perm, Hrows, filter_app.
    rewrite (list_filter_all _ js) by (intros j Hj; apply Hjs, Hj).
    rewrite (list_filter_none _ (rows _)); [by rewrite app_nil_r|].
    intros j [id Hj]%elem_of_rows. by apply (Hother id). }
  assert (∀ j, j ∈ list_fanout_jobs (f_id f) (w_jobs w') → ∃ x, x ∈ js ∧ j = _row_to_job x) as Hin.
  { intros j Hj. rewrite Hperm in Hj. apply list_elem_of_fmap in Hj as (x & -> & Hx). eauto. }
  assert (runs_of_jobs (list_fanout_jobs (f_id f) (w_jobs w')) (w_jobs w') = Ok []) as Hruns.
  { unfold runs_of_jobs. rewrite (mapM_ok _ _ (λ _, [])).
    - simpl. f_equal. clear. by induction (list_fanout_jobs _ _) as [|? ? IH].
    - intros j (x & Hx & ->)%Hin. apply list_job_runs_none. rewrite Ht. simpl. by apply Hjs. }
  unfold fanout_detail, get_fanout. rewrite Hf, Hruns. simpl. eexists. split; [reflexivity|].
  split_and!; [done| |done|done]. apply all_queued_status. intros j (x & Hx & ->)%Hin.
  destruct (Hjs x Hx) as (_ & [Hs _] & _). apply bool_decide_eq_true_2, Hs.
Qed.

(** The jobs of a new batch are fresh, and nothing refers to them yet. *)
Lemma batch_fresh f checked js p w lo :
  good w → refs_free w → (uuids (w_process w) ≤ lo)%nat →
  drawn_between lo (uuids p) (j_id <$> js) → length js = length checked →
  (∀ k d i pol, checked !! k = Some (d, i, pol) →
     ∃ id, js !! k = Some (item_job f id (0 + Z.of_nat k) d i pol)) →
  ∀ j, j ∈ js → fresh_job j ∧ j_fanout_id j = Some (f_id f)
    ∧ jobs (w_jobs w) !! j_id j = None
    ∧ ∀ id r, runs (w_jobs w) !! id = Some r → r_job_id r ≠ j_id j.
Proof.
  intros Hgood Hrefs Hlo [_ Hdr] Hlen Hall j [k Hk]%list_elem_of_lookup_1.
  destruct (lookup_lt_is_Some_2 checked k) as [[[d i] pol] Hc];
    [rewrite <- Hlen; by eapply lookup_lt_Some|].
  destruct (Hall k d i pol Hc) as [id Hid]. rewrite Hid in Hk. simplify_eq. simpl.
  assert (id ∈ j_id <$> js) as (n & Hn & ->)%Hdr.
  { apply list_elem_of_fmap. eexists. split; [|by eapply list_elem_of_lookup_2]. done. }
  split_and!; [by split_and!|done|apply (good_ids w Hgood n); lia|apply (Hrefs n); lia].
Qed.

Lemma drawn_wider lo lo' hi ids :
  drawn_between lo hi ids → (lo' ≤ lo)%nat → drawn_between lo' hi ids.
Proof. intros [Hnd Hdr] Hle. split; [done|]. intros id (n & Hn & ->)%Hdr. exists n. split; [lia|done]. Qed.

(** Creating a batch is all or nothing.  If a kind is not registered or a
    requested policy is outside its ceilings, the error is raised and nothing at
    all happened, not even a clock reading.  Otherwise the batch is stored under a
    fresh id and item [k] becomes job [k]: a queued job under a fresh id with the
    item's definition, input and priority, the policy in force for it and its
    provenance; every other job, and every run, event, schedule and validation, is
    as before; and the returned detail is the stored batch with exactly those
    jobs, queued and without runs. *)
Theorem create_fanout_spec registry request created_by project_id policies w :
  good w → refs_free w →
  match checked_items registry policies (fr_items request) with
  | Err e => create_fanout registry request created_by project_id policies w = (w, Err e)
  | Ok checked =>
      ∃ w' d f js,
        create_fanout registry request created_by project_id policies w = (w', Ok d)
        ∧ good w' ∧ w_fanouts w !! f_id f = None ∧ w_fanouts w' = <[f_id f := f]> (w_fanouts w)
        ∧ f_created_by f = created_by ∧ f_project_id f = project_id
        ∧ length checked = length (fr_items request) ∧ length js = length checked
        ∧ (∀ k def i pol, checked !! k = Some (def, i, pol) → fr_items request !! k = Some i
             ∧ ∃ id, js !! k = Some (item_job f id (Z.of_nat k) def i pol))
        ∧ NoDup (j_id <$> js)
        ∧ (∀ j, j ∈ js → jobs (w_jobs w) !! j_id j = None
                         ∧ jobs (w_jobs w') !! j_id j = Some j)
        ∧ (∀ id, id ∉ j_id <$> js → jobs (w_jobs w') !! id = jobs (w_jobs w) !! id)
        ∧ (runs (w_jobs w') = runs (w_jobs w) ∧ w_events w' = w_events w
           ∧ w_schedules w' = w_schedules w ∧ w_validations w' = w_validations w)
        ∧ fd_fanout d = f ∧ fd_status d = FanoutQueued ∧ fd_runs d = []
        ∧ fd_jobs d ≡ₚ _row_to_job <$> js
  end.
Proof.
  intros Hgood Hrefs. unfold create_fanout. unfold bind at 1, lift_result at 1.
  destruct (checked_items registry policies (fr_items request)) as [checked|e] eqn:Hchk; [|done].
  destruct (checked_items_ok _ _ _ _ Hchk) as [Hlen Hitems].
  destruct (fanout_header_run request created_by project_id w) as (p1 & now & corr & Hhdr & Hlt & _).
  unfold bind at 1. rewrite Hhdr. set (f := mkFanout _ _ _ _ _ _) in *.
  destruct (item_jobs_run f 0 checked (with_process p1 w)) as (p & js & Hjs & Hle & Hdr & Hlen2 & Hall).
  unfold bind at 1. rewrite Hjs. simpl in Hle, Hdr.
  set (w1 := with_process p (with_process p1 w)) in *.
  assert (w1 = with_process p w) as Hw1 by done. clearbody w1. subst w1.
  pose proof (batch_fresh f checked js p w (uuids p1) Hgood Hrefs ltac:(lia) Hdr Hlen2 Hall) as Hjsok.
  set (w2 := put w_fanouts_lens (<[f_id f := f]> (w_fanouts w)) (with_process p w)).
  assert (zoom w_fanouts_lens (save_fanout f) (with_process p w) = (w2, Ok tt)) as Hsave.
  { rewrite zoom_eq. unfold save_fanout, insert_row. simpl. 
    by rewrite (proj1 (Hrefs (uuids (w_process w)) ltac:(lia))). }
  destruct (add_drawn_good p js w Hgood) as [Hnew Hgood'];
    [by eapply drawn_wider; [exact Hdr|lia]|lia|by intros j Hj; apply Hjsok|].
  unfold bind at 1. rewrite Hsave. unfold bind at 1.
  rewrite save_jobs_run by (done || apply Hdr).
  set (w' := put w_jobs_lens _ w2).
  destruct (fanout_detail_fresh f js w w') as (d & Hd & Hdf & Hds & Hdr' & Hdj);
    [apply lookup_insert_eq|done|apply Hdr| | |].
  { intros id j. apply (Hrefs (uuids (w_process w))). lia. }
  { intros j Hj. destruct (Hjsok j Hj) as (? & ? & ? & ?). by split_and!. }
  unfold bind, gets, lift_result. rewrite Hd.
  destruct (add_jobs_lookup js (w_jobs w) (proj1 Hdr) Hnew) as (Hin & Hout & _).
  exists w', d, f, js. split_and!; try done.
  - by destruct Hgood'.
  - apply (Hrefs (uuids (w_process w))). lia.
  - intros k def i pol Hk. split; [by apply (Hitems k def i pol)|]. apply Hall, Hk.
  - apply Hdr.
  - intros j Hj. split; [by apply Hnew|by apply Hin].
Qed.

(** What a retry takes over, and what the request overrides. *)
Record retries (source : JobRecord) (request : RetryCreateRequest) (policy : option ResourcePolicy)
    (j : JobRecord) : Prop := {
  rt_kind : j_kind j = j_kind source;
  rt_origin : j_project_id j = j_project_id source ∧ j_fanout_id j = j_fanout_id source
    ∧ j_correlation_id j = j_correlation_id source;
  rt_input : j_input j = default (j_input source) (rr_input request);
  rt_priority : j_priority j = default (j_priority source) (rr_priority request);
  rt_provenance : j_metadata j !! "retry"
    = Some (JObj [("source_job_id", JStr (j_id source));
                  ("source_status", JStr (job_status_str (j_status source)));
                  ("reason", JOptStr (rr_reason request))]);
  rt_metadata : ∀ key, key ≠ "retry" → key ≠ "resource_policy" →
    j_metadata j !! key = j_metadata source !! key;
  rt_budget : match policy with
    | Some p => j_max_retries j = default 0 (max_retries p) ∧ j_timeout_seconds j = timeout_seconds p
    | None => j_max_retries j = default (j_max_retries source) (rr_max_retries request)
    end
}.

(** The policy in force for a retry, of what the request and the source ask. *)
Definition policy_for_retry (source : JobRecord) (request : RetryCreateRequest)
    (policies : option ResourcePolicySet) : result (option ResourcePolicy) :=
  match policies with
  | None => Ok None
  | Some ps =>
      let? p := effective_for ps (j_kind source)
                  (match rr_timeout_seconds request with
                   | Some seconds => Some seconds | None => j_timeout_seconds source end)
                  (Some (default (j_max_retries source) (rr_max_retries request))) in
      Ok (Some p)
  end.

Lemma retry_metadata_lookup source reason policy key :
  key ≠ "resource_policy" →
  retry_metadata source reason policy !! key
  = <["retry" := JObj [("source_job_id", JStr (j_id source));
                       ("source_status", JStr (job_status_str (j_status source)));
                       ("reason", JOptStr reason)]]> (j_metadata source) !! key.
Proof.
  intros Hkey. unfold retry_metadata, with_policy_entry, policy_metadata.
  destruct policy; [by rewrite lookup_insert_ne|done].
Qed.

Lemma retry_source_ok job_id source request policies t :
  get_job job_id t = Some source → is_terminal (j_status source) = true →
  retry_source job_id request policies t
  = let? policy := policy_for_retry source request policies in
    Ok (source, policy,
        match rr_timeout_seconds request with
        | Some seconds => Some seconds | None => j_timeout_seconds source end,
        default (j_max_retries source) (rr_max_retries request)).
Proof.
  intros Hsrc Hterm. unfold retry_source, policy_for_retry. rewrite Hsrc, Hterm. simpl.
  destruct policies as [ps|]; simpl; [|by destruct (rr_timeout_seconds request)].
  destruct (rr_timeout_seconds request); by destruct (effective_for _ _ _ _).
Qed.

(** Drawing the id and the two readings, and storing the retry. *)
Lemma store_retry_run source request created_by policy timeout n w :
  good w →
  ∃ w' p j created due,
    (let* id := zoom w_process_lens new_uuid in
     let* created_at := zoom w_process_lens utc_now in
     let* due_at := zoom w_process_lens utc_now in
     let retry := retry_of source request created_by id created_at due_at policy timeout n in
     do* zoom w_jobs_lens (save_job retry) in
     ret retry) w = (w', Ok j)
    ∧ j = retry_of source request created_by (uuid4 (uuids (w_process w))) created due policy timeout n
    ∧ w' = put w_jobs_lens (add_jobs [j] (w_jobs w)) (with_process p w)
    ∧ uuids p = S (uuids (w_process w)).
Proof.
  intros Hgood. set (p1 := (new_uuid (w_process w)).1).
  destruct (monotonic_utc_now_spec p1) as (created & Hc & _).
  set (p2 := mkProcess _ _ _ _) in Hc. destruct (monotonic_utc_now_spec p2) as (due & Hd & _).
  set (p3 := mkProcess _ _ _ _) in Hd.
  exists (put w_jobs_lens (add_jobs [retry_of source request created_by (uuid4 (uuids (w_process w)))
           created due policy timeout n] (w_jobs w)) (with_process p3 w)), p3.
  do 3 eexists. split; [|split_and!; [reflexivity|reflexivity|done]].
  rewrite (bind_zoom _ new_uuid _ _ p1 (uuid4 (uuids (w_process w)))) by done.
  rewrite (bind_zoom _ utc_now _ _ p2 created) by exact Hc.
  rewrite (bind_zoom _ utc_now _ _ p3 due) by exact Hd. cbv zeta.
  unfold bind. rewrite zoom_eq. unfold save_job. rewrite zoom_eq. unfold insert_row. simpl.
  by rewrite (proj1 (proj2 (good_ids w Hgood (uuids (w_process w)) ltac:(lia)))).
Qed.

(** Only a job that exists and is finished can be retried, under a policy its
    ceilings allow; otherwise the error is raised and nothing changed.  A retry is
    a new queued job under a fresh id with no attempts, which takes the source's
    kind, project, batch, correlation and metadata, the input and priority the
    request overrides, the budget of the policy in force, and a record of where it
    came from; the source, its runs and every other job are untouched. *)
Theorem retry_job_spec job_id request created_by policies w :
  good w →
  let run := retry_job job_id request created_by policies w in
  (get_job job_id (w_jobs w) = None → run = (w, Err (KeyError job_id)))
  ∧ ∀ source, get_job job_id (w_jobs w) = Some source →
    (is_terminal (j_status source) = false →
       ∃ text, run = (w, Err (ValueError text)))
    ∧ (is_terminal (j_status source) = true →
       match policy_for_retry source request policies with
       | Err e => run = (w, Err e)
       | Ok policy =>
           ∃ w' j, run = (w', Ok j) ∧ good w' ∧ fresh_job j ∧ retries source request policy j
             ∧ jobs (w_jobs w) !! j_id j = None
             ∧ jobs (w_jobs w') = <[j_id j := j]> (jobs (w_jobs w))
             ∧ runs (w_jobs w') = runs (w_jobs w) ∧ w_events w' = w_events w
       end).
Proof.
  intros Hgood run. unfold run, retry_job. split.
  { intros Hnone. unfold bind, gets, lift_result, retry_source. by rewrite Hnone. }
  intros source Hsrc. split; intros Hterm.
  { eexists. unfold bind, gets, lift_result, retry_source. by rewrite Hsrc, Hterm. }
  destruct (policy_for_retry source request policies) as [policy|e] eqn:Hpol.
  2: { unfold bind at 1, gets. unfold bind, lift_result.
       by rewrite (retry_source_ok _ _ _ _ _ Hsrc Hterm), Hpol. }
  destruct (store_retry_run source request created_by policy
    (match rr_timeout_seconds request with
     | Some seconds => Some seconds | None => j_timeout_seconds source end)
    (default (j_max_retries source) (rr_max_retries request)) w Hgood)
    as (w' & p & j & created & due & Hrun & Hj & Hw' & Hp).
  exists w', j. split.
  { unfold bind at 1, gets. unfold bind at 1, lift_result.
    rewrite (retry_source_ok _ _ _ _ _ Hsrc Hterm), Hpol. exact Hrun. }
  destruct (add_drawn_good p [j] w Hgood) as [Hnew Hgood'].
  { split; [apply NoDup_singleton|]. intros id ->%list_elem_of_singleton.
    exists (uuids (w_process w)). subst j. split; [lia|done]. }
  { lia. }
  { intros x ->%list_elem_of_singleton. by subst j. }
  rewrite Hw'. split; [done|]. split; [by subst j|].
  split; [subst j|split_and!; [apply Hnew; left|done..]].
  split; try done.
  - simpl. rewrite retry_metadata_lookup by done. apply lookup_insert_eq.
  - intros key Hr Hp'. simpl. rewrite retry_metadata_lookup by done. by apply lookup_insert_ne.
  - by destruct policy.
Qed.
End create.

(** ** Whose the jobs of a batch are *)

(** Every batch is under its own id, and every job that names a batch names one there is, of
    its own project. *)
Record batches (w : World) : Prop := {
  bt_keyed : map_Forall (λ k f, f_id f = k) (w_fanouts w);
  bt_jobs : ∀ id j k, jobs (w_jobs w) !! id = Some j → j_fanout_id j = Some k →
    ∃ f, w_fanouts w !! k = Some f ∧ j_project_id j = f_project_id f
}.
(** A job of a batch: it names it and has its project. *)
Definition of_batch (f : FanoutRecord) (j : JobRecord) : Prop :=
  j_fanout_id j = Some (f_id f) ∧ j_project_id j = f_project_id f.

Section batches.
Context `{Sqlite} `{Env} `{Pydantic} `{Floats}.

Lemma batches_process {A} (m : M Process A) w : batches w → batches (zoom w_process_lens m w).1.
Proof. intros [Hk Hj]. rewrite zoom_eq. by split. Qed.
Lemma batches_save_job w job :
  batches w → (∀ k, j_fanout_id job = Some k → ∃ f, w_fanouts w !! k = Some f ∧ j_project_id job = f_project_id f) →
  batches (zoom w_jobs_lens (save_job job) w).1.
Proof.
  intros [Hk Hj] Hjob. rewrite zoom_eq. split; [exact Hk|]. intros id j k Hid Hf. simpl in Hid. unfold save_job in Hid.
  rewrite zoom_eq in Hid. unfold insert_row in Hid. case_match; simpl in Hid |- *; [exact (Hj id j k Hid Hf)|].
  apply lookup_insert_Some in Hid as [[_ <-]|[_ Hid]]; [exact (Hjob k Hf)|exact (Hj id j k Hid Hf)].
Qed.
Lemma batches_save_fanout w f : batches w → batches (zoom w_fanouts_lens (save_fanout f) w).1.
Proof.
  intros [Hk Hj]. rewrite zoom_eq. unfold save_fanout, insert_row. simpl. destruct (w_fanouts w !! f_id f) eqn:Hf; [by split|].
  split; simpl; [by apply map_Forall_insert_2|]. intros id j k Hid Hjf. destruct (Hj id j k Hid Hjf) as (g & Hg & Hp).
  exists g. split; [|done]. rewrite lookup_insert_ne; [done|]. intros <-. by rewrite Hf in Hg.
Qed.

Lemma item_jobs_of_batch f i l w w' js : item_jobs f i l w = (w', Ok js) → Forall (of_batch f) js.
Proof.
  revert i w w' js. induction l as [|[[d item] policy] l IH]; intros i w w' js; simpl; [by intros [= _ <-]|].
  intros (w1 & id & _ & (w2 & rest & Hrest & Hd)%bind_ok)%bind_ok. injection Hd as _ <-.
  constructor; [done|by eapply IH].
Qed.
Lemma batches_item_jobs f i l w : batches w → batches (item_jobs f i l w).1.
Proof.
  revert i w. induction l as [|[[d item] policy] l IH]; intros i w Hw; simpl; [done|].
  unfold bind. pose proof (batches_process new_uuid w Hw) as Hw1. destruct (zoom w_process_lens new_uuid w) as [w1 [id|e]]; [|done].
  specialize (IH (i + 1) w1 Hw1). by destruct (item_jobs f (i + 1) l w1) as [w2 [rest|e]].
Qed.
Lemma batches_save_jobs f js w :
  batches w → w_fanouts w !! f_id f = Some f → Forall (of_batch f) js →
  batches (forM_ js (λ job, zoom w_jobs_lens (save_job job)) w).1.
Proof.
  revert w. induction js as [|job js IH]; intros w Hw Hf Hjs; [done|]. apply Forall_cons in Hjs as [[Hj Hp] Hjs]. simpl.
  assert (batches (zoom w_jobs_lens (save_job job) w).1) as Hw1.
  { apply batches_save_job; [done|]. intros k Hk. rewrite Hk in Hj. injection Hj as ->. by exists f. }
  assert (w_fanouts (zoom w_jobs_lens (save_job job) w).1 = w_fanouts w) as Hfs by (by rewrite zoom_eq).
  unfold bind. destruct (zoom w_jobs_lens (save_job job) w) as [w1 [[]|e]]; [|done]. simpl in *.
  apply IH; [done|by rewrite Hfs|done].
Qed.

(** What a batch's answer holds: its own jobs, and the runs of these. *)
Definition own_batch (d : FanoutDetail) : Prop :=
  (∀ j, j ∈ fd_jobs d → of_batch (fd_fanout d) j)
  ∧ ∀ r, r ∈ fd_runs d → ∃ j, j ∈ fd_jobs d ∧ r_job_id r = j_id j.
Lemma fanout_detail_own id w d : batches w → fanout_detail id w = Ok d → own_batch d.
Proof.
  intros [Hk Hj]. unfold fanout_detail. destruct (get_fanout id _) as [f|] eqn:Hf; [|done]. unfold get_fanout in Hf.
  destruct (runs_of_jobs _ _) as [rs|] eqn:Hr; [|done]. intros [= <-]. split; simpl.
  - intros j (row & -> & Hrow)%list_elem_of_fmap. apply order_by_elem, list_elem_of_filter in Hrow as [Hid [k Hrow]%elem_of_rows].
    destruct (Hj k row id Hrow Hid) as (g & Hg & Hp). rewrite Hf in Hg. injection Hg as <-. split; [|done]. simpl.
    rewrite Hid. f_equal. symmetry. by apply (Hk id f).
  - unfold runs_of_jobs in Hr. destruct (mapM_result _ _) as [per|] eqn:Hm; [|done]. injection Hr as <-.
    apply mapM_result_ok in Hm. intros r (l & Hrl & Hl)%list_elem_of_In%in_concat.
    apply list_elem_of_In, list_elem_of_lookup in Hrl as [i Hi]. destruct (Forall2_lookup_r _ _ _ _ _ Hm Hi) as (j & Hji & Hjr).
    exists j. split; [by eapply list_elem_of_lookup_2|]. unfold list_job_runs in Hjr. apply mapM_result_ok in Hjr.
    apply list_elem_of_In, list_elem_of_lookup in Hl as [n Hn]. destruct (Forall2_lookup_r _ _ _ _ _ Hjr Hn) as (r0 & Hr0 & Hv).
    apply list_elem_of_lookup_2, order_by_elem, list_elem_of_filter in Hr0 as [<- _].
    unfold _row_to_run, validate_timestamp_order in Hv. by repeat case_match; simplify_eq.
Qed.
(** Creating a batch keeps this, and answers with its own jobs. *)
Lemma create_fanout_own registry r u q policies w :
  batches w → batches (create_fanout registry r u q policies w).1
  ∧ ∀ d, (create_fanout registry r u q policies w).2 = Ok d → own_batch d.
Proof.
  intros Hw. destruct (create_fanout registry r u q policies w) as [w' out] eqn:Hout. unfold create_fanout in Hout.
  rewrite bind_lift in Hout. destruct (checked_items _ _ _) as [checked|]; [|by simplify_eq].
  assert (batches (fanout_header r u q w).1) as Hw1.
  { unfold fanout_header. unfold bind at 1, bind at 1. pose proof (batches_process utc_now w Hw) as Hp1.
    destruct (zoom w_process_lens utc_now w) as [w1 [n|e]]; [|done]. pose proof (batches_process new_uuid w1 Hp1) as Hp2.
    destruct (zoom w_process_lens new_uuid w1) as [w2 [i|e]]; [|done]. pose proof (batches_process new_uuid w2 Hp2) as Hp3.
    unfold bind. destruct (truthy_opt _); [exact Hp2|]. destruct (zoom w_process_lens new_uuid w2) as [w3 [c|e]]; exact Hp3. }
  unfold bind at 1 in Hout. destruct (fanout_header r u q w) as [w1 [f|e]]; [|by simplify_eq].
  pose proof (batches_item_jobs f 0 checked w1 Hw1) as Hw2. pose proof (item_jobs_of_batch f 0 checked w1) as Hjs.
  unfold bind at 1 in Hout. destruct (item_jobs f 0 checked w1) as [w2 [js|e]]; [|by simplify_eq]. specialize (Hjs _ _ eq_refl).
  pose proof (batches_save_fanout w2 f Hw2) as Hw3.
  assert (∀ w3, zoom w_fanouts_lens (save_fanout f) w2 = (w3, Ok tt) → w_fanouts w3 !! f_id f = Some f) as Hf.
  { intros w3. rewrite zoom_eq. unfold save_fanout, insert_row. simpl. destruct (w_fanouts w2 !! f_id f); [done|].
    intros [= <-]. simpl. apply lookup_insert_eq. }
  unfold bind at 1 in Hout. destruct (zoom w_fanouts_lens (save_fanout f) w2) as [w3 [[]|e]]; [|by simplify_eq].
  pose proof (batches_save_jobs f js w3 Hw3 (Hf w3 eq_refl) Hjs) as Hw4.
  unfold bind at 1 in Hout. destruct (forM_ js _ w3) as [w4 [[]|e]]; [|by simplify_eq]. rewrite bind_gets in Hout.
  injection Hout as <- <-. simpl in *. split; [done|]. intros d Hd. by eapply fanout_detail_own.
Qed.
Lemma retry_job_batches id r u policies w : batches w → batches (retry_job id r u policies w).1.
Proof.
  intros Hw. unfold retry_job. rewrite bind_gets, bind_lift. unfold retry_source.
  destruct (get_job id (w_jobs w)) as [source|] eqn:Hs; [|done]. destruct (negb _); [done|].
  unfold get_job in Hs. destruct (jobs (w_jobs w) !! id) as [row|] eqn:Hrow; [|done]. injection Hs as <-.
  assert (∀ pol t n, batches ((let* i := zoom w_process_lens new_uuid in let* c := zoom w_process_lens utc_now in
            let* d := zoom w_process_lens utc_now in
            let j := retry_of (_row_to_job row) r u i c d pol t n in
            do* zoom w_jobs_lens (save_job j) in ret j) w).1) as Hany.
  { intros pol t n. unfold bind. rewrite !zoom_eq. simpl. unfold bind.
    match goal with |- context [zoom w_jobs_lens (save_job ?j) ?w1] =>
      assert (batches (zoom w_jobs_lens (save_job j) w1).1) as Hb; [|by destruct (zoom w_jobs_lens (save_job j) w1) as [? []]] end.
    apply batches_save_job; [by destruct Hw|]. intros k Hk. simpl in Hk. destruct Hw as [_ Hj]. by apply (Hj id row k). }
  destruct policies; simpl; [|by apply Hany]. destruct (effective_for _ _ _ _); simpl; [by apply Hany|done].
Qed.
End batches.

(** ** Concrete instances *)

Definition sample_request : FanoutCreateRequest :=
  mkFanoutRequest None None [mkFanoutItem "report" ∅ 50 1 None; mkFanoutItem "report" ∅ 0 0 (Some 30)].
Definition sample_registry : Registry := {[ "report" := sample_goblin ]}.

Lemma create_fanout_spec_witness :
  ∃ w' d, @create_fanout sqlite_merge frozen_env strict_pydantic int_floats sample_registry
            sample_request "cli" (Some "p1") None claimed_world = (w', Ok d)
    ∧ fd_status d = FanoutQueued ∧ length (fd_jobs d) = 2%nat.
Proof.
  destruct (@create_fanout_spec sqlite_merge frozen_env strict_pydantic int_floats frozen_inj
    sample_registry sample_request "cli" (Some "p1") None claimed_world)
    as (w' & d & f & js & Hrun & _ & _ & _ & _ & _ & Hl1 & Hl2 & _ & _ & _ & _ & _ & _ & Hs & _ & Hj).
  - exact (at_good _ _ _ _ _ claimed_at_job).
  - intros n _. split_and!; [apply lookup_empty| |].
    + intros id j Hj. simpl in Hj. apply lookup_singleton_Some in Hj as [_ <-]. discriminate.
    + intros id r Hr. simpl in Hr. by rewrite lookup_empty in Hr.
  - exists w', d. split; [exact Hrun|]. split; [exact Hs|].
    rewrite Hj, length_fmap. exact Hl2.
Defined.

Definition finished_row : JobRecord :=
  set_job JFailed None None None 2 (Some "boom") (sample_job "high" 200 2).
Definition finished_world : World := world_with (mkJobTables {[ "high" := finished_row ]} ∅ [] []).

Lemma finished_world_good : @good frozen_env finished_world.
Proof.
  split.
  - apply empty_log_ok.
  - split; [apply map_Forall_singleton|apply map_Forall_empty].
    split; simpl; try done; try lia; by split; [intros [? ?]|].
  - intros n _. simpl. rewrite lookup_singleton_ne by discriminate. by rewrite !lookup_empty.
Qed.

Lemma retry_job_spec_witness :
  ∃ w' j, @retry_job frozen_env strict_pydantic int_floats "high"
            (mkRetryRequest (Some "again") None (Some 5) None None) "cli" None finished_world
          = (w', Ok j) ∧ fresh_job j ∧ j_priority j = 5 ∧ j_max_retries j = 1.
Proof.
  destruct (@retry_job_spec frozen_env strict_pydantic int_floats frozen_inj "high"
    (mkRetryRequest (Some "again") None (Some 5) None None) "cli" None finished_world
    finished_world_good) as [_ Hok].
  destruct (Hok finished_row eq_refl) as [_ Hterm].
  destruct (Hterm eq_refl) as (w' & j & Hrun & _ & Hfresh & [_ _ _ Hprio _ _ Hbudget] & _).
  exists w', j. split; [exact Hrun|]. split; [exact Hfresh|]. split; [exact Hprio|exact Hbudget].
Defined.
