(* ===== verification/Repository.v ===== *)
(** * The Goblin Directory's catalog ([src/src/goblin_king/store.py])

    Entries name a shared goblin, versions carry its submitted source through
    review.  The operations run on the two repository tables and on the notebook
    tables a deletion reaches into; each is a read followed by one transaction,
    as the code writes it.  The two unique indexes of
    [src/src/goblin_king/store_migrations.py] are part of the writes. *)

From S2P Require Import Prelude CausalTime Contracts EventStore RecordStore.

Record RepoTables := mkRepo {
  entries : table RepositoryEntryRecord;
  versions : table RepositoryVersionRecord;
  repo_goblins : table NotebookGoblinRecord;
  repo_services : table NotebookServiceRecord }.

Definition entries_lens : lens RepoTables (table RepositoryEntryRecord) :=
  Lens entries (λ x t, mkRepo x (versions t) (repo_goblins t) (repo_services t)).
Definition versions_lens : lens RepoTables (table RepositoryVersionRecord) :=
  Lens versions (λ x t, mkRepo (entries t) x (repo_goblins t) (repo_services t)).
Definition goblins_lens : lens RepoTables (table NotebookGoblinRecord) :=
  Lens repo_goblins (λ x t, mkRepo (entries t) (versions t) x (repo_services t)).
Definition services_lens : lens RepoTables (table NotebookServiceRecord) :=
  Lens repo_services (λ x t, mkRepo (entries t) (versions t) (repo_goblins t) x).

(** ** Tables with a unique index *)

(** A row under another key that the index takes for the same. *)
Definition index_taken {R} (clash : R → R → bool) (key : string) (r : R) (t : table R) : bool :=
  existsb (λ kv, negb (bool_decide (kv.1 = key)) && clash r kv.2) (map_to_list t).

Definition insert_unique {R} (index : string) (clash : R → R → bool) (key : string) (r : R)
    : M (table R) unit :=
  λ t, if index_taken clash key r t
       then (t, Err (IntegrityError ("UNIQUE constraint failed: " +:+ index)))
       else insert_row index key r t.

Definition update_unique {R} (index : string) (clash : R → R → bool) (key : string) (f : R → R)
    : M (table R) unit :=
  λ t, match t !! key with
       | None => (t, Ok tt)
       | Some r =>
           if index_taken clash key (f r) t
           then (t, Err (IntegrityError ("UNIQUE constraint failed: " +:+ index)))
           else (<[key := f r]> t, Ok tt)
       end.

(** [query.one_or_none()] *)
Definition one_or_none {A} (l : list A) : result (option A) :=
  match l with
  | [] => Ok None
  | [x] => Ok (Some x)
  | _ => Err MultipleResultsFound
  end.

(** [ON repository_entries (COALESCE(project_id, ''), name) WHERE status != 'retired'] *)
Definition same_active_name (x y : RepositoryEntryRecord) : bool :=
  negb (bool_decide (re_status x = Retired)) && negb (bool_decide (re_status y = Retired))
  && bool_decide (default EmptyString (re_project_id x) = default EmptyString (re_project_id y))
  && bool_decide (re_name x = re_name y).
(** [ON repository_versions (entry_id, version)] *)
Definition same_version (x y : RepositoryVersionRecord) : bool :=
  bool_decide (rv_entry_id x = rv_entry_id y) && bool_decide (rv_version x = rv_version y).

(** ** The life of a record *)

Definition REPOSITORY_STATUS_TRANSITIONS (current : RepositoryEntryStatus)
    : list RepositoryEntryStatus :=
  match current with
  | Draft => [Validated; Rejected; Retired]
  | Validated => [PendingReview; Rejected; Retired]
  | PendingReview => [Approved; Rejected; Retired]
  | Approved => [Published; Rejected; Retired]
  | Published => [Retired]
  | Rejected => [Retired]
  | Retired => []
  end.

Definition _validate_repository_transition (current target : RepositoryEntryStatus) : result unit :=
  if bool_decide (current = target) then Ok tt
  else if bool_decide (target ∈ REPOSITORY_STATUS_TRANSITIONS current) then Ok tt
  else Err (ValueError ("cannot transition repository record from " +:+ entry_status_str current
                        +:+ " to " +:+ entry_status_str target)).

Definition set_entry (status : RepositoryEntryStatus) (updated_at : utc)
    (published : option Z) (e : RepositoryEntryRecord) : RepositoryEntryRecord :=
  mkRepositoryEntry (re_id e) (re_name e) (re_kind e) (re_type e) (re_project_id e) (re_owner e)
    (re_display_name e) (re_description e) (re_tags e) status published (re_created_at e) updated_at.

Definition set_version (proof : dict) (approval status : RepositoryEntryStatus)
    (approved_by : option string) (approved_at published_at : option utc) (updated_at : utc)
    (v : RepositoryVersionRecord) : RepositoryVersionRecord :=
  mkRepositoryVersion (rv_id v) (rv_entry_id v) (rv_version v) (rv_kind v) (rv_source_hash v)
    (rv_runner_image v) proof approval status approved_by approved_at published_at
    (rv_created_at v) updated_at.

(** ** Reads *)

Definition get_repository_entry (entry_id : string) (t : RepoTables) : option RepositoryEntryRecord :=
  entries t !! entry_id.

Definition versions_of (entry_id : string) (t : RepoTables) : list RepositoryVersionRecord :=
  filter (λ v, rv_entry_id v = entry_id) (rows (versions t)).

Definition get_repository_version (entry_id : string) (version : Z) (t : RepoTables)
    : result (option RepositoryVersionRecord) :=
  one_or_none (filter (λ v, rv_version v = version) (versions_of entry_id t)).

(** The row an operation returns: [assert loaded is not None]. *)
Definition loaded_entry (entry_id : string) : M RepoTables RepositoryEntryRecord :=
  let* loaded := gets (get_repository_entry entry_id) in
  match loaded with Some e => ret e | None => raise AssertionError end.
Definition loaded_version (entry_id : string) (version : Z) : M RepoTables RepositoryVersionRecord :=
  let* r := gets (get_repository_version entry_id version) in
  let* loaded := lift_result r in
  match loaded with Some v => ret v | None => raise AssertionError end.

(** ORDER BY project_id: NULL comes first. *)
Definition le_opt_str {A} (f : A → option string) (x y : A) : bool :=
  match f x, f y with
  | None, _ => true
  | Some _, None => false
  | Some a, Some b => String.leb a b
  end.

Section catalog_reads.
Context `{Sqlite}.

Definition get_repository_entry_by_project_name (project_id : option string) (name : string)
    (include_retired : bool) (t : RepoTables) : option RepositoryEntryRecord :=
  head (order_by (le_desc re_updated_at)
    (filter (λ e, bool_decide (re_name e = name)
                  && bool_decide (re_project_id e = project_id)
                  && (include_retired || negb (bool_decide (re_status e = Retired))) = true)
       (rows (entries t)))).

Definition list_repository_entries (project_id : option string)
    (status : option RepositoryEntryStatus) (entry_type : option RepositoryGoblinType)
    (include_retired : bool) (t : RepoTables) : list RepositoryEntryRecord :=
  order_by (le_then (le_opt_str re_project_id) (le_str re_name))
    (filter (λ e, where_eq project_id (re_project_id e)
                  && match status with
                     | Some s => bool_decide (re_status e = s)
                     | None => include_retired || negb (bool_decide (re_status e = Retired))
                     end
                  && match entry_type with
                     | Some ty => bool_decide (re_type e = ty) | None => true end = true)
       (rows (entries t))).

Definition get_repository_version_by_project_name (project_id : option string) (name : string)
    (version : Z) (include_retired : bool) (t : RepoTables)
    : result (option RepositoryVersionRecord) :=
  match get_repository_entry_by_project_name project_id name include_retired t with
  | None => Ok None
  | Some entry => get_repository_version (re_id entry) version t
  end.

Definition list_repository_versions (entry_id : string) (status : option RepositoryEntryStatus)
    (t : RepoTables) : list RepositoryVersionRecord :=
  order_by (le_asc rv_version)
    (filter (λ v, match status with
                  | Some s => bool_decide (rv_status v = s) | None => true end = true)
       (versions_of entry_id t)).

Definition latest_version (entry_id : string) (t : RepoTables) : option RepositoryVersionRecord :=
  head (order_by (le_desc rv_version) (versions_of entry_id t)).
End catalog_reads.

(** ** Entries *)

Definition insert_entry (e : RepositoryEntryRecord) : M RepoTables unit :=
  zoom entries_lens
    (insert_unique "uq_repository_entries_active_project_name" same_active_name (re_id e) e).
Definition update_entry (entry_id : string) (f : RepositoryEntryRecord → RepositoryEntryRecord)
    : M RepoTables unit :=
  zoom entries_lens
    (update_unique "uq_repository_entries_active_project_name" same_active_name entry_id f).
Definition insert_version (v : RepositoryVersionRecord) : M RepoTables unit :=
  zoom versions_lens
    (insert_unique "ix_repository_versions_entry_version" same_version (rv_id v) v).

(** [_ensure_repository_entry_name_available]: NULL is compared with IS NULL. *)
Definition _ensure_repository_entry_name_available (project_id : option string) (name : string)
    (exclude_entry_id : option string) : M RepoTables unit :=
  let* taken := gets (λ t, existsb (λ e,
      bool_decide (re_name e = name) && negb (bool_decide (re_status e = Retired))
      && bool_decide (re_project_id e = project_id)
      && match exclude_entry_id with
         | Some id => negb (bool_decide (re_id e = id)) | None => true end) (rows (entries t))) in
  raise_if taken (ValueError "repository entry name already exists in project").

Definition _require_repository_version_status (entry_id : string) (version : Z)
    (status : RepositoryEntryStatus) : M RepoTables unit :=
  let* r := gets (get_repository_version entry_id version) in
  let* existing := lift_result r in
  raise_if (negb (bool_decide (rv_status <$> existing = Some status)))
    (ValueError ("repository version " +:+ pretty version +:+ " is not "
                 +:+ entry_status_str status)).

Definition not_found (entry_id : string) : exn :=
  ValueError ("repository entry not found: " +:+ entry_id).
Definition no_published_version : exn :=
  ValueError "published repository entries require a published version".

Definition create_repository_entry (entry : RepositoryEntryRecord)
    : M RepoTables RepositoryEntryRecord :=
  do* raise_if (negb (bool_decide (re_status entry = Draft)))
        (ValueError "repository entries must start as drafts") in
  do* raise_if (negb (bool_decide (re_published_version entry = None)))
        (ValueError "draft repository entries cannot be published") in
  do* atomic (
    do* _ensure_repository_entry_name_available (re_project_id entry) (re_name entry) None in
    insert_entry entry) in
  loaded_entry (re_id entry).

Definition update_repository_entry (entry : RepositoryEntryRecord)
    : M RepoTables RepositoryEntryRecord :=
  let* found := gets (get_repository_entry (re_id entry)) in
  match found with
  | None => raise (not_found (re_id entry))
  | Some existing =>
      do* lift_result (_validate_repository_transition (re_status existing) (re_status entry)) in
      do* raise_if (bool_decide (re_status entry = Published)
                    && bool_decide (re_published_version entry = None)) no_published_version in
      do* atomic (
        do* (if bool_decide (re_project_id entry = re_project_id existing)
                && bool_decide (re_name entry = re_name existing)
             then ret tt
             else _ensure_repository_entry_name_available (re_project_id entry) (re_name entry)
                    (Some (re_id entry))) in
        do* match re_published_version entry with
            | Some version => _require_repository_version_status (re_id entry) version Published
            | None => ret tt
            end in
        update_entry (re_id entry) (λ _, entry)) in
      loaded_entry (re_id entry)
  end.

(** [published_version or existing.published_version]: zero is falsy. *)
Definition nonzero_or (asked existing : option Z) : option Z :=
  match asked with
  | Some n => if n =? 0 then existing else Some n
  | None => existing
  end.

Definition transition_repository_entry_status (entry_id : string) (status : RepositoryEntryStatus)
    (updated_at : utc) (published_version : option Z) : M RepoTables RepositoryEntryRecord :=
  let* found := gets (get_repository_entry entry_id) in
  match found with
  | None => raise (not_found entry_id)
  | Some existing =>
      do* lift_result (_validate_repository_transition (re_status existing) status) in
      do* (if bool_decide (status = Published) then
             match nonzero_or published_version (re_published_version existing) with
             | None => raise no_published_version
             | Some version =>
                 atomic (
                   do* _require_repository_version_status entry_id version Published in
                   update_entry entry_id (set_entry status updated_at (Some version)))
             end
           else
             atomic (update_entry entry_id (λ row,
               set_entry status updated_at
                 (match published_version with
                  | Some n => Some n | None => re_published_version row end) row))) in
      loaded_entry entry_id
  end.

(** ** Deleting an entry *)

Record DeletedEntry := mkDeletedEntry {
  de_entry_id : string; de_name : string; de_status : RepositoryEntryStatus;
  de_deleted_versions : Z; de_deleted_notebook_records : Z }.

Definition deletable (s : RepositoryEntryStatus) : bool :=
  match s with Draft | Rejected | Retired => true | _ => false end.

(** [notebook_services.kind in kinds and active_service_id is not NULL] *)
Definition runs_service (kinds : list string) (s : NotebookServiceRecord) : bool :=
  bool_decide (ns_kind s ∈ kinds) && negb (bool_decide (ns_active_service_id s = None)).

Definition has_active_service (kinds : list string) (t : RepoTables) : bool :=
  existsb (runs_service kinds) (rows (repo_services t)).

(** The DELETE of the generated notebook records, and its row count. *)
Definition delete_notebook_records (type : RepositoryGoblinType) (kinds : list string)
    : M RepoTables Z :=
  match kinds, type with
  | [], _ => ret 0
  | _, NotebookFunction =>
      zoom goblins_lens
        (λ t, let p r := bool_decide (ng_kind r ∈ kinds) in
              (delete_rows p t, Ok (count_rows p t)))
  | _, NotebookService =>
      zoom services_lens
        (λ t, let p r := bool_decide (ns_kind r ∈ kinds) in
              (delete_rows p t, Ok (count_rows p t)))
  end.

Definition delete_repository_entry (entry_id : string) : M RepoTables DeletedEntry :=
  atomic (
    let* found := gets (get_repository_entry entry_id) in
    match found with
    | None => raise (not_found entry_id)
    | Some entry =>
        do* raise_if (negb (deletable (re_status entry)))
              (ValueError "repository entries must be draft, rejected, or retired before deletion") in
        let* kinds := gets (λ t, map rv_kind (versions_of entry_id t)) in
        let* active := gets (has_active_service kinds) in
        do* raise_if (bool_decide (re_type entry = NotebookService)
                      && negb (bool_decide (kinds = [])) && active)
              (ValueError "repository entry has an active service runtime; stop it before deleting") in
        let* deleted_notebook_records := delete_notebook_records (re_type entry) kinds in
        let* deleted_versions := zoom versions_lens
          (λ t, let p v := bool_decide (rv_entry_id v = entry_id) in
                (delete_rows p t, Ok (count_rows p t))) in
        do* modify (λ t, put entries_lens (delete entry_id (entries t)) t) in
        ret (mkDeletedEntry (re_id entry) (re_name entry) (re_status entry) deleted_versions
               deleted_notebook_records)
    end).

(** ** Versions *)

Section version_ops.
Context `{Sqlite}.

(** The checks against the entry and its latest version. *)
Definition next_version_error (version : RepositoryVersionRecord)
    (latest : option RepositoryVersionRecord) : option exn :=
  match latest with
  | None =>
      if bool_decide (rv_version version = 1) then None
      else Some (ValueError "first repository version must be 1")
  | Some row =>
      if negb (bool_decide (rv_version version = rv_version row + 1)) then
        Some (ValueError "repository source changes must create the next sequential version")
      else if bool_decide (rv_source_hash version = rv_source_hash row) then
        Some (ValueError "repository version source hash must change")
      else None
  end.

Definition raise_opt {S} (e : option exn) : M S unit :=
  match e with Some e => raise e | None => ret tt end.

Definition create_repository_version (version : RepositoryVersionRecord)
    : M RepoTables RepositoryVersionRecord :=
  do* raise_if (negb (bool_decide (rv_status version = Draft))
                || negb (bool_decide (rv_approval_status version = Draft)))
        (ValueError "repository versions must start as drafts") in
  do* raise_if (negb (bool_decide (rv_approved_by version = None))
                || negb (bool_decide (rv_approved_at version = None)))
        (ValueError "draft repository versions cannot keep approval") in
  do* raise_if (negb (bool_decide (rv_published_at version = None)))
        (ValueError "draft repository versions cannot be published") in
  do* atomic (
    let* found := gets (get_repository_entry (rv_entry_id version)) in
    match found with
    | None => raise (not_found (rv_entry_id version))
    | Some entry =>
        do* raise_if (bool_decide (re_status entry = Retired))
              (ValueError "retired repository entries cannot receive new versions") in
        let* latest := gets (latest_version (rv_entry_id version)) in
        do* raise_opt (next_version_error version latest) in
        let* r := gets (get_repository_version (rv_entry_id version) (rv_version version)) in
        let* duplicate := lift_result r in
        do* raise_if (negb (bool_decide (duplicate = None)))
              (ValueError "repository version already exists") in
        do* insert_version version in
        update_entry (rv_entry_id version)
          (λ row, set_entry Draft (rv_updated_at version) (re_published_version row) row)
    end) in
  loaded_version (rv_entry_id version) (rv_version version).
End version_ops.

(** [REPOSITORY_VERSION_IDENTITY_FIELDS]: every one of them compared. *)
Definition same_identity (x y : RepositoryVersionRecord) : bool :=
  bool_decide (rv_entry_id x = rv_entry_id y) && bool_decide (rv_version x = rv_version y)
  && bool_decide (rv_kind x = rv_kind y) && bool_decide (rv_source_hash x = rv_source_hash y)
  && bool_decide (rv_runner_image x = rv_runner_image y)
  && bool_decide (rv_created_at x = rv_created_at y).

Definition publication_needs_approval : exn :=
  ValueError "published repository versions require approval".
Definition published_immutable : exn :=
  ValueError "published repository versions are immutable".

Definition _ensure_repository_version_publishable (r : RepositoryVersionRecord) : result unit :=
  if negb (bool_decide (rv_status r = Published)) then Ok tt
  else if negb (bool_decide (rv_approval_status r = Approved)
                || bool_decide (rv_approval_status r = Published)) then
    Err publication_needs_approval
  else if bool_decide (rv_approved_by r = None) || bool_decide (rv_approved_at r = None) then
    Err publication_needs_approval
  else if bool_decide (rv_published_at r = None) then
    Err (ValueError "published repository versions require a publication timestamp")
  else Ok tt.

(** The checks on a changed source: a draft, with its review state cleared. *)
Definition source_change_error (existing version : RepositoryVersionRecord) : option exn :=
  if bool_decide (rv_source_hash existing = rv_source_hash version) then None
  else if negb (bool_decide (rv_status existing = Draft)) then
    Some (ValueError "source changes must create a new draft version")
  else if negb (bool_decide (rv_status version = Draft))
       || negb (bool_decide (rv_approval_status version = Draft))
       || negb (bool_decide (rv_validation_proof version = ∅))
       || negb (bool_decide (rv_approved_by version = None))
       || negb (bool_decide (rv_approved_at version = None))
       || negb (bool_decide (rv_published_at version = None)) then
    Some (ValueError "source changes must clear review state")
  else None.

(** The entry of a version follows it. *)
Definition follow_entry (entry_id : string) (status : RepositoryEntryStatus) (updated_at : utc)
    (published : option Z) : M RepoTables unit :=
  update_entry entry_id (λ row,
    set_entry status updated_at
      (match published with Some n => Some n | None => re_published_version row end) row).

Definition update_repository_version (version : RepositoryVersionRecord)
    : M RepoTables RepositoryVersionRecord :=
  let* found := gets (λ t, versions t !! rv_id version) in
  match found with
  | None => raise (ValueError ("repository version not found: " +:+ rv_id version))
  | Some existing =>
      do* raise_if (bool_decide (rv_status existing = Published)) published_immutable in
      do* raise_if (negb (same_identity existing version))
            (ValueError "repository version identity cannot change") in
      do* lift_result (_validate_repository_transition (rv_status existing) (rv_status version)) in
      do* raise_opt (source_change_error existing version) in
      do* atomic (
        do* lift_result (_ensure_repository_version_publishable version) in
        do* zoom versions_lens (update_row (rv_id version) (λ _, true) (λ _, version)) in
        if bool_decide (rv_status version = Published)
        then follow_entry (rv_entry_id version) Published (rv_updated_at version)
               (Some (rv_version version))
        else ret tt) in
      loaded_version (rv_entry_id version) (rv_version version)
  end.

(** [approved_by or existing.approved_by]: an empty name is falsy. *)
Definition truthy_or (asked existing : option string) : option string :=
  if truthy_opt asked then asked else existing.

(** The UPDATE of the version row that a transition makes: the columns it does not
    set keep the row's value. *)
Definition version_values (existing : RepositoryVersionRecord) (status : RepositoryEntryStatus)
    (updated_at : utc) (validation_proof : option dict) (approved_by : option string)
    (approved_at published_at : option utc)
    : result (RepositoryVersionRecord → RepositoryVersionRecord) :=
  let asked_proof row := default (rv_validation_proof row) validation_proof in
  match status with
  | Draft => Ok (λ row, set_version ∅ Draft Draft None None None updated_at row)
  | Rejected | Retired =>
      Ok (λ row, set_version (asked_proof row) status status None None (rv_published_at row)
                   updated_at row)
  | Validated =>
      let proof := default (rv_validation_proof existing) validation_proof in
      if bool_decide (proof = ∅)
      then Err (ValueError "validated repository versions require validation proof")
      else Ok (λ row, set_version proof Validated Validated (rv_approved_by row)
                        (rv_approved_at row) (rv_published_at row) updated_at row)
  | PendingReview =>
      Ok (λ row, set_version (asked_proof row) PendingReview PendingReview (rv_approved_by row)
                   (rv_approved_at row) (rv_published_at row) updated_at row)
  | Approved =>
      let approver := truthy_or approved_by (rv_approved_by existing) in
      let approved_time := match approved_at, rv_approved_at existing with
                           | Some at', _ => at' | None, Some at' => at' | None, None => updated_at end in
      if negb (truthy_opt approver)
      then Err (ValueError "approved repository versions require an approver")
      else Ok (λ row, set_version (asked_proof row) Approved Approved approver
                        (Some approved_time) (rv_published_at row) updated_at row)
  | Published =>
      let approver := truthy_or approved_by (rv_approved_by existing) in
      let approved_time : option utc :=
        match approved_at with Some at' => Some at' | None => rv_approved_at existing end in
      if negb (truthy_opt approver) || bool_decide (approved_time = None)
      then Err publication_needs_approval
      else Ok (λ row, set_version (asked_proof row) Published Published approver approved_time
                        (Some (default updated_at published_at)) updated_at row)
  end.

Definition transition_repository_version_status (entry_id : string) (version : Z)
    (status : RepositoryEntryStatus) (updated_at : utc) (validation_proof : option dict)
    (approved_by : option string) (approved_at published_at : option utc)
    : M RepoTables RepositoryVersionRecord :=
  let* r := gets (get_repository_version entry_id version) in
  let* found := lift_result r in
  match found with
  | None => raise (ValueError ("repository version not found: " +:+ entry_id +:+ ":"
                               +:+ pretty version))
  | Some existing =>
      if bool_decide (rv_status existing = Published) then
        if bool_decide (status = Published) then ret existing else raise published_immutable
      else
        do* lift_result (_validate_repository_transition (rv_status existing) status) in
        let* set_columns := lift_result
          (version_values existing status updated_at validation_proof approved_by approved_at
             published_at) in
        do* atomic (
          do* modify (λ t, put versions_lens
                (update_rows (λ v, bool_decide (rv_entry_id v = entry_id)
                                   && bool_decide (rv_version v = version))
                   set_columns (versions t)) t) in
          follow_entry entry_id status updated_at
            (if bool_decide (status = Published) then Some version else None)) in
        loaded_version entry_id version
  end.

(** ** The catalog as a state machine *)

Inductive repo_op :=
| OpCreateEntry (e : RepositoryEntryRecord)
| OpUpdateEntry (e : RepositoryEntryRecord)
| OpEntryStatus (entry_id : string) (status : RepositoryEntryStatus) (at_ : utc)
    (published_version : option Z)
| OpDeleteEntry (entry_id : string)
| OpCreateVersion (v : RepositoryVersionRecord)
| OpUpdateVersion (v : RepositoryVersionRecord)
| OpVersionStatus (entry_id : string) (version : Z) (status : RepositoryEntryStatus) (at_ : utc)
    (proof : option dict) (approved_by : option string) (approved_at published_at : option utc).

Section machine.
Context `{Sqlite}.

(** The tables after a call, whether it returned or raised. *)
Definition repo_step (op : repo_op) (t : RepoTables) : RepoTables :=
  match op with
  | OpCreateEntry e => (create_repository_entry e t).1
  | OpUpdateEntry e => (update_repository_entry e t).1
  | OpEntryStatus id s at_ pv => (transition_repository_entry_status id s at_ pv t).1
  | OpDeleteEntry id => (delete_repository_entry id t).1
  | OpCreateVersion v => (create_repository_version v t).1
  | OpUpdateVersion v => (update_repository_version v t).1
  | OpVersionStatus id n s at_ proof ab aa pa =>
      (transition_repository_version_status id n s at_ proof ab aa pa t).1
  end.

Definition repo_run (ops : list repo_op) (t : RepoTables) : RepoTables :=
  foldl (λ t op, repo_step op t) t ops.
End machine.

(** ** What a call may do to the tables

    An abstract catalog: whatever the arguments, a call leaves the tables alone,
    edits entries, adds the next version, moves one version a step along its
    review, or removes an entry with its versions. *)

(** What a published version carries. *)
Definition approved_version (v : RepositoryVersionRecord) : Prop :=
  (rv_approval_status v = Approved ∨ rv_approval_status v = Published)
  ∧ is_Some (rv_approved_by v) ∧ is_Some (rv_approved_at v) ∧ is_Some (rv_published_at v).

(** A step of the review of one version: its identity stays, its status follows
    the table of transitions, and publication needs approval. *)
Definition review_step (v v' : RepositoryVersionRecord) : Prop :=
  rv_id v' = rv_id v ∧ same_identity v v' = true
  ∧ rv_status v ≠ Published
  ∧ (rv_status v' = rv_status v ∨ rv_status v' ∈ REPOSITORY_STATUS_TRANSITIONS (rv_status v))
  ∧ (rv_status v' = Published → approved_version v').

(** A table under a unique index, and its rows under their keys. *)
Definition index_ok {R} (clash : R → R → bool) (t : table R) : Prop :=
  ∀ k1 k2 x y, t !! k1 = Some x → t !! k2 = Some y → clash x y = true → k1 = k2.
Definition entries_ok (es : table RepositoryEntryRecord) : Prop :=
  map_Forall (λ k e, re_id e = k) es ∧ index_ok same_active_name es.

(** Entries come and change, but none disappears. *)
Definition entries_edit (es es' : table RepositoryEntryRecord) : Prop :=
  (entries_ok es → entries_ok es') ∧ ∀ k, is_Some (es !! k) → is_Some (es' !! k).

(** The next version of an entry, as a draft. *)
Definition next_version (t : RepoTables) (v : RepositoryVersionRecord) : Prop :=
  versions t !! rv_id v = None ∧ rv_status v = Draft
  ∧ is_Some (entries t !! rv_entry_id v)
  ∧ (∀ k x, versions t !! k = Some x → rv_entry_id x = rv_entry_id v →
       rv_version x < rv_version v)
  ∧ (rv_version v = 1
     ∨ ∃ k x, versions t !! k = Some x ∧ rv_entry_id x = rv_entry_id v
         ∧ rv_version v = rv_version x + 1 ∧ rv_source_hash v ≠ rv_source_hash x).

Definition with_catalog (es : table RepositoryEntryRecord) (vs : table RepositoryVersionRecord)
    (t : RepoTables) : RepoTables := mkRepo es vs (repo_goblins t) (repo_services t).

Inductive catalog_change (removed : option string) (t : RepoTables) : RepoTables → Prop :=
| change_none : catalog_change removed t t
| change_entries es : entries_edit (entries t) es →
    catalog_change removed t (with_catalog es (versions t) t)
| change_new_version v es : next_version t v → entries_edit (entries t) es →
    catalog_change removed t (with_catalog es (<[rv_id v := v]> (versions t)) t)
| change_review k v v' es : versions t !! k = Some v → review_step v v' →
    entries_edit (entries t) es →
    catalog_change removed t (with_catalog es (<[k := v']> (versions t)) t)
| change_delete id e gs ss : removed = Some id →
    entries t !! id = Some e → deletable (re_status e) = true →
    catalog_change removed t
      (mkRepo (delete id (entries t))
         (delete_rows (λ v, bool_decide (rv_entry_id v = id)) (versions t)) gs ss).

(** ** Lemmas: unique indexes *)

Lemma index_taken_false {R} (clash : R → R → bool) key r (t : table R) :
  index_taken clash key r t = false ↔ ∀ k x, k ≠ key → t !! k = Some x → clash r x = false.
Proof.
  unfold index_taken. rewrite <- not_true_iff_false, existsb_exists. split.
  - intros Hno k x Hk Hx. apply not_true_is_false. intros Hc. apply Hno. exists (k, x).
    rewrite <- list_elem_of_In, elem_of_map_to_list. split; [done|]. simpl.
    by rewrite bool_decide_eq_false_2.
  - intros Hall ([k x] & Hin%list_elem_of_In%elem_of_map_to_list & Hc). simpl in Hc.
    apply andb_true_iff in Hc as [Hk Hc]. rewrite (Hall k x) in Hc; [done| |done].
    intros ->. by rewrite bool_decide_eq_true_2 in Hk.
Qed.

Lemma index_ok_insert {R} (clash : R → R → bool) key r (t : table R) :
  (∀ x y, clash x y = clash y x) → index_taken clash key r t = false →
  index_ok clash t → index_ok clash (<[key := r]> t).
Proof.
  intros Hsym Htaken Hok k1 k2 x y Hx Hy Hc.
  pose proof (proj1 (index_taken_false clash key r t) Htaken) as Hfree.
  apply lookup_insert_Some in Hx as [[<- <-]|[H1 Hx]], Hy as [[<- <-]|[H2 Hy]]; [done|..].
  - rewrite (Hfree k2 y) in Hc; congruence.
  - rewrite Hsym, (Hfree k1 x) in Hc; congruence.
  - by eapply Hok.
Qed.

Lemma same_active_name_sym x y : same_active_name x y = same_active_name y x.
Proof.
  unfold same_active_name. rewrite (bool_decide_ext (re_name x = re_name y) (re_name y = re_name x)) by done.
  rewrite (bool_decide_ext (default _ _ = _) (default EmptyString (re_project_id y)
    = default EmptyString (re_project_id x))) by done.
  by rewrite (andb_comm (negb (bool_decide (re_status x = Retired)))).
Qed.

(** What an INSERT and an UPDATE of an entry leave. *)
Lemma insert_entry_edit e t :
  ∃ es, (insert_entry e t).1 = with_catalog es (versions t) t ∧ entries_edit (entries t) es.
Proof.
  unfold insert_entry. rewrite zoom_eq. simpl. eexists. split; [reflexivity|].
  unfold insert_unique. destruct (index_taken _ _ _ _) eqn:Hfree; [by split|].
  unfold insert_row. destruct (entries t !! re_id e) eqn:Hnew; [by split|]. simpl. split.
  - intros [Hkeys Hidx]. split; [by apply map_Forall_insert_2|].
    apply index_ok_insert; [apply same_active_name_sym|done|done].
  - intros k Hk. destruct (decide (k = re_id e)) as [->|]; [by rewrite lookup_insert_eq|].
    by rewrite lookup_insert_ne.
Qed.

Lemma update_entry_edit id f t :
  (∀ e, re_id e = id → re_id (f e) = id) →
  ∃ es, (update_entry id f t).1 = with_catalog es (versions t) t ∧ entries_edit (entries t) es.
Proof.
  intros Hf. unfold update_entry. rewrite zoom_eq. simpl. eexists. split; [reflexivity|].
  unfold update_unique. destruct (entries t !! id) as [e|] eqn:He; [|by split].
  destruct (index_taken _ _ _ _) eqn:Hfree; [by split|]. simpl. split.
  - intros [Hkeys Hidx]. split; [apply map_Forall_insert_2; [apply Hf, (Hkeys id e He)|done]|].
    apply index_ok_insert; [apply same_active_name_sym|done|done].
  - intros k Hk. destruct (decide (k = id)) as [->|]; [by rewrite lookup_insert_eq|].
    by rewrite lookup_insert_ne.
Qed.

(** ** Lemmas: the calls refine the abstract catalog *)

Record repo_ok (t : RepoTables) : Prop := {
  ro_entries : entries_ok (entries t);
  ro_versions : map_Forall (λ k v, rv_id v = k) (versions t);
  ro_unique : index_ok same_version (versions t);
  ro_owner : ∀ k v, versions t !! k = Some v → is_Some (entries t !! rv_entry_id v);
  ro_first : ∀ k v, versions t !! k = Some v → 1 ≤ rv_version v;
  ro_sequence : ∀ k v, versions t !! k = Some v → 1 < rv_version v →
    ∃ k' x, versions t !! k' = Some x ∧ rv_entry_id x = rv_entry_id v
      ∧ rv_version v = rv_version x + 1 ∧ rv_source_hash v ≠ rv_source_hash x;
  ro_published : ∀ k v, versions t !! k = Some v → rv_status v = Published → approved_version v
}.

(** A call that only reads. *)
Abbreviation Reads m := (Preserves (λ s, s) m).
Lemma bind_reads {S A B} (m : M S A) (k : A → M S B) s :
  Reads m → bind m k s = match (m s).2 with Ok a => k a s | Err e => (s, Err e) end.
Proof. intros Hm. unfold bind. specialize (Hm s). destruct (m s) as [s' [a|e]]; simpl in *; congruence. Qed.
Lemma bind_tail_state {S A B} (m : M S A) (k : A → M S B) s :
  (∀ a, Reads (k a)) → (bind m k s).1 = (m s).1.
Proof. intros Hk. unfold bind. destruct (m s) as [s' [a|e]]; [|done]. apply Hk. Qed.

#[export] Instance reads_loaded_entry id : Reads (loaded_entry id).
Proof. unfold loaded_entry. apply _ || (intros s; unfold bind, gets; simpl; by destruct (get_repository_entry id s)). Qed.
#[export] Instance reads_loaded_version id n : Reads (loaded_version id n).
Proof.
  intros s. unfold loaded_version. rewrite bind_gets, bind_lift.
  by destruct (get_repository_version id n s) as [[?|]|].
Qed.
#[export] Instance reads_name_available p n x : Reads (_ensure_repository_entry_name_available p n x).
Proof. intros s. unfold _ensure_repository_entry_name_available. rewrite bind_gets. by destruct (existsb _ _). Qed.
#[export] Instance reads_version_status id n st : Reads (_require_repository_version_status id n st).
Proof.
  intros s. unfold _require_repository_version_status. rewrite bind_gets, bind_lift.
  destruct (get_repository_version id n s); [|done]. unfold raise_if. by destruct (negb _).
Qed.

(** A change of the entries, and the transaction it sits in. *)
Lemma change_entry_call (m : M RepoTables unit) t :
  (∃ es, (m t).1 = with_catalog es (versions t) t ∧ entries_edit (entries t) es) →
  catalog_change None t (atomic m t).1.
Proof.
  intros (es & Hm & Hes). rewrite atomic_state. destruct (m t).2; [rewrite Hm|]; by constructor.
Qed.
Lemma change_after_read {A} (m : M RepoTables A) (k : A → M RepoTables unit) t :
  Reads m → (∀ a, catalog_change None t (atomic (k a) t).1) → catalog_change None t (atomic (bind m k) t).1.
Proof.
  intros Hm Hk. rewrite atomic_state, (bind_reads m k t Hm). destruct (m t).2 as [a|]; [|constructor].
  specialize (Hk a). by rewrite atomic_state in Hk.
Qed.

Lemma create_entry_refines e t : catalog_change None t (create_repository_entry e t).1.
Proof.
  unfold create_repository_entry. rewrite bind_raise_if.
  destruct (negb (bool_decide (re_status e = Draft))); [constructor|]. rewrite bind_raise_if.
  destruct (negb _); [constructor|]. rewrite bind_tail_state by apply _.
  apply change_after_read; [apply _|]. intros _. apply change_entry_call, insert_entry_edit.
Qed.

Lemma update_entry_refines e t : catalog_change None t (update_repository_entry e t).1.
Proof.
  unfold update_repository_entry. rewrite bind_gets.
  destruct (get_repository_entry (re_id e) t) as [x|]; [|constructor]. rewrite bind_lift.
  destruct (_validate_repository_transition _ _); [|constructor]. rewrite bind_raise_if.
  destruct (_ && _); [constructor|]. rewrite bind_tail_state by apply _.
  apply change_after_read; [destruct (_ && _); apply _|]. intros _.
  apply change_after_read; [destruct (re_published_version e); apply _|]. intros _.
  apply change_entry_call. by apply update_entry_edit.
Qed.

Lemma entry_status_refines id s at_ pv t :
  catalog_change None t (transition_repository_entry_status id s at_ pv t).1.
Proof.
  unfold transition_repository_entry_status. rewrite bind_gets.
  destruct (get_repository_entry id t) as [x|]; [|constructor]. rewrite bind_lift.
  destruct (_validate_repository_transition _ _); [|constructor].
  rewrite bind_tail_state by apply _. destruct (bool_decide _).
  - destruct (nonzero_or _ _); [|constructor].
    apply change_after_read; [apply _|]. intros _. apply change_entry_call. by apply update_entry_edit.
  - apply change_entry_call. by apply update_entry_edit.
Qed.

(** The notebook records a deletion removes. *)
Definition generated_goblin (type : RepositoryGoblinType) (kinds : list string)
    (g : NotebookGoblinRecord) : Prop := type = NotebookFunction ∧ ng_kind g ∈ kinds.
Definition generated_service (type : RepositoryGoblinType) (kinds : list string)
    (s : NotebookServiceRecord) : Prop := type = NotebookService ∧ ns_kind s ∈ kinds.

Lemma delete_notebook_records_run type kinds t :
  ∃ gs ss n, delete_notebook_records type kinds t = (mkRepo (entries t) (versions t) gs ss, Ok n)
    ∧ (∀ k g, gs !! k = Some g ↔ repo_goblins t !! k = Some g ∧ ¬ generated_goblin type kinds g)
    ∧ (∀ k s, ss !! k = Some s ↔ repo_services t !! k = Some s ∧ ¬ generated_service type kinds s).
Proof.
  assert (∀ R (f : R → string) (m : table R) k r,
    delete_rows (λ r, bool_decide (f r ∈ kinds)) m !! k = Some r ↔ m !! k = Some r ∧ f r ∉ kinds)
    as Hdel by (intros; by rewrite lookup_delete_rows, bool_decide_eq_false).
  unfold delete_notebook_records, generated_goblin, generated_service.
  destruct (decide (kinds = [])) as [->|Hne].
  - exists (repo_goblins t), (repo_services t), 0. split; [by destruct type, t|].
    split; intros k r; split; try (by intros [? _]); intros ?;
      (split; [done|]); by intros [_ ?%not_elem_of_nil].
  - destruct kinds as [|c cs]; [done|]. destruct type; rewrite zoom_eq; simpl; do 3 eexists;
      (split; [reflexivity|]); split; intros k r; rewrite ?Hdel; naive_solver.
Qed.

Lemma delete_entry_refines id t : catalog_change (Some id) t (delete_repository_entry id t).1.
Proof.
  unfold delete_repository_entry. rewrite atomic_state, bind_gets. unfold get_repository_entry.
  destruct (entries t !! id) as [e|] eqn:He; [|constructor]. rewrite bind_raise_if.
  destruct (deletable (re_status e)) eqn:Hdel; simpl; [|constructor].
  rewrite !bind_gets, bind_raise_if. destruct (_ && _); [constructor|].
  destruct (delete_notebook_records_run (re_type e) (map rv_kind (versions_of id t)) t)
    as (gs & ss & n & Hrun & _).
  unfold bind. rewrite Hrun. simpl.
  by apply (change_delete (Some id) t id e).
Qed.

(** The rows a version number names. *)
Lemma elem_of_versions_of id v t :
  v ∈ versions_of id t ↔ rv_entry_id v = id ∧ ∃ k, versions t !! k = Some v.
Proof. unfold versions_of. by rewrite list_elem_of_filter, elem_of_rows. Qed.

Lemma get_version_some id n v t :
  get_repository_version id n t = Ok (Some v) →
  rv_entry_id v = id ∧ rv_version v = n ∧ ∃ k, versions t !! k = Some v.
Proof.
  unfold get_repository_version, one_or_none.
  destruct (filter _ _) as [|x [|]] eqn:Hf; [done| |done]. intros [= ->].
  assert (v ∈ filter (λ v, rv_version v = n) (versions_of id t)) as Hin
    by (rewrite Hf; left).
  apply list_elem_of_filter in Hin as [Hn [Hid Hk]%elem_of_versions_of]. done.
Qed.

Lemma latest_version_spec `{Sqlite} id t :
  match latest_version id t with
  | None => ∀ k v, versions t !! k = Some v → rv_entry_id v ≠ id
  | Some x => (rv_entry_id x = id ∧ ∃ k, versions t !! k = Some x)
      ∧ ∀ k v, versions t !! k = Some v → rv_entry_id v = id → rv_version v ≤ rv_version x
  end.
Proof.
  unfold latest_version. pose proof (order_by_desc_head rv_version (versions_of id t)) as Hh.
  destruct (head _) as [x|].
  - destruct Hh as [Hx Hmax]. split; [by apply elem_of_versions_of|].
    intros k v Hk Hv. apply Hmax, elem_of_versions_of. eauto.
  - intros k v Hk Hv. assert (v ∈ versions_of id t) as Hin by (apply elem_of_versions_of; eauto).
    rewrite Hh in Hin. by apply not_elem_of_nil in Hin.
Qed.

(** The INSERT of a version and the change of its entry. *)
Lemma insert_version_run v t :
  (∃ e, insert_version v t = (t, Err e))
  ∨ insert_version v t = (with_catalog (entries t) (<[rv_id v := v]> (versions t)) t, Ok tt)
    ∧ versions t !! rv_id v = None
    ∧ index_taken same_version (rv_id v) v (versions t) = false.
Proof.
  unfold insert_version. rewrite zoom_eq. simpl. unfold insert_unique.
  destruct (index_taken _ _ _ _) eqn:Ht; [left; eexists; simpl; by destruct t|].
  unfold insert_row. destruct (versions t !! rv_id v); [left; eexists; simpl; by destruct t|].
  by right.
Qed.

Lemma next_version_error_none `{Sqlite} v t :
  is_Some (entries t !! rv_entry_id v) → rv_status v = Draft → versions t !! rv_id v = None →
  next_version_error v (latest_version (rv_entry_id v) t) = None → next_version t v.
Proof.
  intros He Hs Hnew. unfold next_version_error.
  pose proof (latest_version_spec (rv_entry_id v) t) as Hl.
  destruct (latest_version _ t) as [x|].
  - destruct Hl as [[Hx [k Hk]] Hmax]. case_bool_decide as Hn; simpl; [|done].
    case_bool_decide as Hh; simpl; [done|]. intros _. split_and!; try done.
    + intros k' y Hy Hye. specialize (Hmax k' y Hy Hye). lia.
    + right. by exists k, x.
  - case_bool_decide as Hn; [|done]. intros _. split_and!; try done; [|by left].
    intros k x Hk Hx. by destruct (Hl k x Hk).
Qed.

Lemma create_version_refines `{Sqlite} v t : catalog_change None t (create_repository_version v t).1.
Proof.
  unfold create_repository_version. rewrite bind_raise_if.
  destruct (negb (bool_decide (rv_status v = Draft)) || _) eqn:Hdraft; [constructor|].
  apply orb_false_iff in Hdraft as [Hdraft _].
  rewrite bind_raise_if. destruct (negb (bool_decide (rv_approved_by v = None)) || _); [constructor|].
  rewrite bind_raise_if. destruct (negb (bool_decide (rv_published_at v = None))); [constructor|]. rewrite bind_tail_state by apply _.
  rewrite atomic_state, bind_gets. unfold get_repository_entry.
  destruct (entries t !! rv_entry_id v) as [e|] eqn:He; [|constructor]. rewrite bind_raise_if.
  destruct (bool_decide (re_status e = Retired)); [constructor|]. rewrite bind_gets.
  destruct (next_version_error _ _) as [err|] eqn:Hnext; [constructor|].
  rewrite bind_reads by (intros s; done). cbn [raise_opt ret snd fst]. rewrite bind_gets, bind_lift.
  destruct (get_repository_version _ _ t) as [dup|]; [|constructor]. rewrite bind_raise_if.
  destruct (negb (bool_decide (dup = None))); [constructor|].
  destruct (insert_version_run v t) as [[err Hins]|(Hins & Hnew & _)];
    [unfold bind; rewrite Hins; constructor|].
  unfold bind. rewrite Hins. set (t1 := with_catalog _ _ t).
  destruct (update_entry_edit (rv_entry_id v)
    (λ row, set_entry Draft (rv_updated_at v) (re_published_version row) row) t1) as (es & Hupd & Hes);
    [done|].
  destruct (update_entry _ _ t1).2; [|constructor]. rewrite Hupd.
  apply (change_new_version None t v es); [|exact Hes].
  apply next_version_error_none; [by eexists| |done|done].
  by apply negb_false_iff, bool_decide_eq_true_1 in Hdraft.
Qed.

Lemma transition_allowed s s' :
  _validate_repository_transition s s' = Ok tt → s' = s ∨ s' ∈ REPOSITORY_STATUS_TRANSITIONS s.
Proof.
  unfold _validate_repository_transition. case_bool_decide; [by left|].
  case_bool_decide; [by right|done].
Qed.

Lemma publishable_approved v :
  _ensure_repository_version_publishable v = Ok tt → rv_status v = Published → approved_version v.
Proof.
  unfold _ensure_repository_version_publishable. intros Hok Hs. rewrite bool_decide_eq_true_2 in Hok by done.
  simpl in Hok. destruct (_ || _) eqn:Ha in Hok; simpl in Hok; [|done].
  destruct (_ || _) eqn:Hb in Hok; [done|]. case_bool_decide as Hp; [done|].
  apply orb_true_iff in Ha. rewrite !bool_decide_eq_true in Ha.
  apply orb_false_iff in Hb as [?%bool_decide_eq_false ?%bool_decide_eq_false].
  split_and!; [done|by apply not_eq_None_Some..].
Qed.

(** The version row that changed, and its entry following it. *)
Lemma review_call t k v v' (m : M RepoTables unit) :
  versions t !! k = Some v → review_step v v' →
  (∃ es, (m (with_catalog (entries t) (<[k := v']> (versions t)) t)).1
         = with_catalog es (<[k := v']> (versions t)) t ∧ entries_edit (entries t) es) →
  catalog_change None t (m (with_catalog (entries t) (<[k := v']> (versions t)) t)).1.
Proof. intros Hv Hstep (es & Hm & Hes). rewrite Hm. by apply (change_review None t k v v'). Qed.

Lemma follow_entry_edit id s at_ pv vs t :
  ∃ es, (follow_entry id s at_ pv (with_catalog (entries t) vs t)).1 = with_catalog es vs t
    ∧ entries_edit (entries t) es.
Proof.
  destruct (update_entry_edit id (λ row, set_entry s at_
      (match pv with Some n => Some n | None => re_published_version row end) row)
    (with_catalog (entries t) vs t)) as (es & Hm & Hes); [done|]. by exists es.
Qed.

Lemma update_version_refines v t :
  map_Forall (λ k v, rv_id v = k) (versions t) → catalog_change None t (update_repository_version v t).1.
Proof.
  intros Hkeys. unfold update_repository_version. rewrite bind_gets.
  destruct (versions t !! rv_id v) as [x|] eqn:Hx; [|constructor]. rewrite bind_raise_if.
  destruct (bool_decide (rv_status x = Published)) eqn:Hpub; [constructor|]. rewrite bind_raise_if.
  destruct (same_identity x v) eqn:Hid; simpl; [|constructor]. rewrite bind_lift.
  destruct (_validate_repository_transition _ _) as [[]|] eqn:Htr; [|constructor].
  destruct (source_change_error x v); [constructor|].
  rewrite bind_reads by (intros s; done). cbn [raise_opt ret snd fst]. rewrite bind_tail_state by apply _.
  rewrite atomic_state, bind_lift.
  destruct (_ensure_repository_version_publishable v) as [[]|] eqn:Hok; [|constructor].
  assert (review_step x v) as Hstep.
  { apply bool_decide_eq_false in Hpub. split_and!; [by rewrite (Hkeys _ _ Hx)|done|done| |].
    - by apply transition_allowed.
    - by apply publishable_approved. }
  erewrite bind_zoom by (unfold update_row; simpl; by rewrite Hx).
  change (put versions_lens ?vs t) with (with_catalog (entries t) vs t).
  match goal with |- catalog_change _ _ (match (?m ?s).2 with _ => _ end) =>
    destruct (m s).2; [apply (review_call t _ x v m Hx Hstep)|constructor] end.
  destruct (bool_decide (rv_status v = Published)); [apply follow_entry_edit|].
  exists (entries t). by split; [|split].
Qed.

(** An UPDATE by entry and number is an UPDATE of the one row they name. *)
Lemma update_rows_one f t k v :
  index_ok same_version (versions t) → versions t !! k = Some v →
  update_rows (λ x, bool_decide (rv_entry_id x = rv_entry_id v)
                    && bool_decide (rv_version x = rv_version v)) f (versions t)
  = <[k := f v]> (versions t).
Proof.
  intros Hidx Hv. apply map_eq. intros k'. rewrite lookup_update_rows.
  destruct (decide (k' = k)) as [->|Hne].
  - rewrite Hv, lookup_insert_eq. simpl. by rewrite !bool_decide_eq_true_2.
  - rewrite lookup_insert_ne by done. destruct (versions t !! k') as [x|] eqn:Hx; [|done]. simpl.
    destruct (_ && _) eqn:Hc; [|done]. destruct Hne. by apply (Hidx k' k x v).
Qed.

Lemma truthy_opt_some o : truthy_opt o = true → is_Some o.
Proof. destruct o; [by eexists|done]. Qed.

Lemma version_values_step v status at_ proof ab aa pa f :
  rv_status v ≠ Published → (status = rv_status v ∨ status ∈ REPOSITORY_STATUS_TRANSITIONS (rv_status v)) →
  version_values v status at_ proof ab aa pa = Ok f → review_step v (f v).
Proof.
  intros Hpub Htr Hf.
  assert (rv_id (f v) = rv_id v ∧ same_identity v (f v) = true ∧ rv_status (f v) = status
          ∧ (status = Published → approved_version (f v))) as (Hid & Hsame & Hs & Happ).
  { assert (∀ p a s b c d u, same_identity v (set_version p a s b c d u v) = true) as Hsame
      by (intros; unfold same_identity; simpl; by rewrite !bool_decide_eq_true_2).
    unfold version_values in Hf.
    destruct status; simplify_eq; simpl; try by rewrite Hsame.
    - case_bool_decide; [done|]. simplify_eq. simpl. by rewrite Hsame.
    - destruct (negb (truthy_opt _)); [done|]. simplify_eq. simpl. by rewrite Hsame.
    - destruct (truthy_opt _) eqn:Ha; [|done]. simpl in Hf. case_bool_decide as Hat; [done|].
      simplify_eq. simpl. rewrite Hsame. split_and!; [done..|]. intros _. split_and!; simpl.
      + by right.
      + by apply truthy_opt_some.
      + by apply not_eq_None_Some.
      + by eexists. }
  split_and!; [done..|by rewrite Hs|by rewrite Hs].
Qed.

Lemma version_status_refines id n s at_ proof ab aa pa t :
  index_ok same_version (versions t) →
  catalog_change None t (transition_repository_version_status id n s at_ proof ab aa pa t).1.
Proof.
  intros Hidx. unfold transition_repository_version_status. rewrite bind_gets, bind_lift.
  destruct (get_repository_version id n t) as [[v|]|] eqn:Hget; [|constructor..].
  apply get_version_some in Hget as (<- & <- & k & Hv).
  destruct (bool_decide (rv_status v = Published)) eqn:Hpub.
  { destruct (bool_decide (s = Published)); constructor. }
  apply bool_decide_eq_false in Hpub. rewrite bind_lift.
  destruct (_validate_repository_transition _ s) as [[]|] eqn:Htr; [|constructor]. rewrite bind_lift.
  destruct (version_values v s at_ proof ab aa pa) as [f|] eqn:Hf; [|constructor].
  rewrite bind_tail_state by apply _. rewrite atomic_state.
  apply version_values_step in Hf as Hstep; [|done|by apply transition_allowed].
  unfold bind, modify. rewrite (update_rows_one f t k v Hidx Hv).
  change (put versions_lens ?vs t) with (with_catalog (entries t) vs t).
  match goal with |- catalog_change _ _ (match (?m ?s).2 with _ => _ end) =>
    destruct (m s).2; [apply (review_call t k v (f v) m Hv Hstep), follow_entry_edit|constructor] end.
Qed.

(** The entry a call may remove. *)
Definition removal (op : repo_op) : option string :=
  match op with OpDeleteEntry id => Some id | _ => None end.

Lemma repo_step_refines `{Sqlite} op t : repo_ok t → catalog_change (removal op) t (repo_step op t).
Proof.
  intros Hok. destruct op; simpl.
  - apply create_entry_refines.
  - apply update_entry_refines.
  - apply entry_status_refines.
  - apply delete_entry_refines.
  - apply create_version_refines.
  - apply update_version_refines, Hok.
  - apply version_status_refines, Hok.
Qed.

(** ** Lemmas: the abstract catalog keeps its invariant *)

Lemma same_identity_fields x y :
  same_identity x y = true →
  rv_entry_id x = rv_entry_id y ∧ rv_version x = rv_version y ∧ rv_source_hash x = rv_source_hash y.
Proof.
  unfold same_identity. rewrite !andb_true_iff, !bool_decide_eq_true. by intros [[[[[? ?] ?] ?] ?] ?].
Qed.

Lemma same_version_fields x y :
  same_version x y = true ↔ rv_entry_id x = rv_entry_id y ∧ rv_version x = rv_version y.
Proof. unfold same_version. by rewrite andb_true_iff, !bool_decide_eq_true. Qed.

Lemma repo_ok_entries t es :
  repo_ok t → entries_edit (entries t) es → repo_ok (with_catalog es (versions t) t).
Proof. intros [He Hk Hu Ho Hf Hs Hp] [Hes Hdom]. split; simpl; eauto. Qed.

Lemma repo_ok_new_version t v :
  repo_ok t → next_version t v →
  repo_ok (with_catalog (entries t) (<[rv_id v := v]> (versions t)) t).
Proof.
  intros [He Hk Hu Ho Hf Hs Hp] (Hnew & Hst & Hown & Hmax & Hnext).
  assert (1 ≤ rv_version v) as Hone.
  { destruct Hnext as [->|(k & x & Hx & _ & -> & _)]; [lia|]. specialize (Hf k x Hx). lia. }
  split; simpl; [done|by apply map_Forall_insert_2|..].
  - intros k1 k2 x y Hx Hy Hc%same_version_fields. destruct Hc as [Hent Hn].
    apply lookup_insert_Some in Hx as [[<- <-]|[H1 Hx]], Hy as [[<- <-]|[H2 Hy]]; [done|..].
    + specialize (Hmax k2 y Hy (eq_sym Hent)). lia.
    + specialize (Hmax k1 x Hx Hent). lia.
    + apply (Hu k1 k2 x y Hx Hy). by apply same_version_fields.
  - intros k x [[_ <-]|[_ Hx]]%lookup_insert_Some; [done|by eapply Ho].
  - intros k x [[_ <-]|[_ Hx]]%lookup_insert_Some; [done|by eapply Hf].
  - assert (∀ k x, versions t !! k = Some x → <[rv_id v := v]> (versions t) !! k = Some x) as Hkeep
      by (intros k x Hx; rewrite lookup_insert_ne; [done|congruence]).
    intros k x [[_ <-]|[_ Hx]]%lookup_insert_Some Hgt.
    + destruct Hnext as [?|(k' & x & Hx & Hent & Hn & Hh)]; [lia|]. exists k', x.
      by split; [apply Hkeep|].
    + destruct (Hs k x Hx Hgt) as (k' & y & Hy & ?). exists k', y. split; [by apply Hkeep|done].
  - intros k x [[_ <-]|[_ Hx]]%lookup_insert_Some Hpub; [congruence|by eapply Hp].
Qed.

Lemma repo_ok_review t k v v' :
  repo_ok t → versions t !! k = Some v → review_step v v' →
  repo_ok (with_catalog (entries t) (<[k := v']> (versions t)) t).
Proof.
  intros [He Hk Hu Ho Hf Hs Hp] Hv (Hid & (Hent & Hn & Hh)%same_identity_fields & _ & _ & Happ).
  (* every row stands for one of the same identity *)
  assert (∀ k' x, <[k := v']> (versions t) !! k' = Some x → ∃ y, versions t !! k' = Some y
            ∧ rv_id x = rv_id y ∧ rv_entry_id y = rv_entry_id x ∧ rv_version y = rv_version x
            ∧ rv_source_hash y = rv_source_hash x) as Hback.
  { intros k' x [[<- <-]|[_ Hx]]%lookup_insert_Some; [by exists v|by exists x]. }
  assert (∀ k' y, versions t !! k' = Some y → ∃ x, <[k := v']> (versions t) !! k' = Some x
            ∧ rv_entry_id y = rv_entry_id x ∧ rv_version y = rv_version x
            ∧ rv_source_hash y = rv_source_hash x) as Hforth.
  { intros k' y Hy. destruct (decide (k' = k)) as [->|Hne].
    - rewrite lookup_insert_eq. simplify_eq. by exists v'.
    - rewrite lookup_insert_ne by done. by exists y. }
  split; simpl; [done|..].
  - intros k' x (y & Hy & -> & _)%Hback. by apply (Hk k' y).
  - intros k1 k2 x y (x0 & Hx & _ & Hxe & Hxn & _)%Hback (y0 & Hy & _ & Hye & Hyn & _)%Hback
      [Hc1 Hc2]%same_version_fields. apply (Hu k1 k2 x0 y0 Hx Hy), same_version_fields. by split; congruence.
  - intros k' x (y & Hy & _ & <- & _)%Hback. by apply (Ho k' y).
  - intros k' x (y & Hy & _ & _ & <- & _)%Hback. by apply (Hf k' y).
  - intros k' x (y & Hy & _ & <- & <- & <-)%Hback Hgt.
    destruct (Hs k' y Hy Hgt) as (k2 & z & Hz & Hze & Hzn & Hzh).
    destruct (Hforth k2 z Hz) as (z' & Hz' & He' & Hn' & Hh'). exists k2, z'.
    by rewrite <- He', <- Hn', <- Hh'.
  - intros k' x [[_ <-]|[_ Hx]]%lookup_insert_Some Hpub; [auto|by eapply Hp].
Qed.

Lemma repo_ok_delete t id gs ss :
  repo_ok t →
  repo_ok (mkRepo (delete id (entries t))
    (delete_rows (λ v, bool_decide (rv_entry_id v = id)) (versions t)) gs ss).
Proof.
  intros [[Hek Hei] Hk Hu Ho Hf Hs Hp]. split; simpl.
  - split; [by apply map_Forall_delete|]. intros k1 k2 x y [_ Hx]%lookup_delete_Some [_ Hy]%lookup_delete_Some.
    by apply Hei.
  - intros k v [Hv _]%lookup_delete_rows. by apply Hk.
  - intros k1 k2 x y [Hx _]%lookup_delete_rows [Hy _]%lookup_delete_rows. by apply Hu.
  - intros k v [Hv Hne%bool_decide_eq_false]%lookup_delete_rows.
    rewrite lookup_delete_ne by done. by apply (Ho k v).
  - intros k v [Hv _]%lookup_delete_rows. by apply (Hf k v).
  - intros k v [Hv Hne]%lookup_delete_rows Hgt. destruct (Hs k v Hv Hgt) as (k' & x & Hx & Hent & ?).
    exists k', x. split; [|done]. apply lookup_delete_rows. by rewrite Hent.
  - intros k v [Hv _]%lookup_delete_rows. by apply (Hp k v).
Qed.

Lemma catalog_change_ok removed t t' : repo_ok t → catalog_change removed t t' → repo_ok t'.
Proof.
  intros Hok [ |es Hes|v es Hv Hes|k v v' es Hv Hstep Hes|id e gs ss _ _ _]; [done|..].
  - by apply repo_ok_entries.
  - by apply (repo_ok_entries (with_catalog _ _ t) es (repo_ok_new_version t v Hok Hv)).
  - by apply (repo_ok_entries (with_catalog _ _ t) es (repo_ok_review t k v v' Hok Hv Hstep)).
  - by apply repo_ok_delete.
Qed.

Lemma repo_run_ok `{Sqlite} ops t : repo_ok t → repo_ok (repo_run ops t).
Proof.
  revert t. induction ops as [|op ops IH]; intros t Hok; [done|]. apply IH.
  by eapply catalog_change_ok, repo_step_refines.
Qed.

Definition empty_repo : RepoTables := mkRepo ∅ ∅ ∅ ∅.
Lemma empty_repo_ok : repo_ok empty_repo.
Proof. by split; [split; [apply map_Forall_empty|]|apply map_Forall_empty|..]; intros ? **. Qed.

(** ** Theorems *)

Section theorems.
Context `{Sqlite}.

(** C28: whatever calls are made with whatever arguments, the catalog stays well
    formed.  Every version belongs to an existing entry; the versions of an entry
    are numbered 1, 2, 3, ... without gap or repetition and each has another source
    hash than the one before it; a published version carries an approval, its
    approver and time, and a publication time; and no two entries that are not
    retired share a project and a name. *)
Theorem catalog_invariant ops : repo_ok (repo_run ops empty_repo).
Proof. apply repo_run_ok, empty_repo_ok. Qed.

Lemma step_keeps_published op t k v :
  repo_ok t → versions t !! k = Some v → rv_status v = Published →
  removal op ≠ Some (rv_entry_id v) → versions (repo_step op t) !! k = Some v.
Proof.
  intros Hok Hv Hpub Hdel.
  destruct (repo_step_refines op t Hok) as
    [|es _|v1 es (Hnew & _) _|k1 v1 v1' es Hv1 (_ & _ & Hnot & _) _|id e gs ss Hid _ _];
    simpl; [done|done|..].
  - rewrite lookup_insert_ne; [done|congruence].
  - rewrite lookup_insert_ne; [done|congruence].
  - apply lookup_delete_rows. split; [done|]. apply bool_decide_eq_false_2. congruence.
Qed.

(** C27: A published version is immutable: no call changes it in any way, and only
    deleting its entry can remove it. *)
Theorem published_versions_immutable ops t k v :
  repo_ok t → versions t !! k = Some v → rv_status v = Published →
  (∀ id, OpDeleteEntry id ∈ ops → id ≠ rv_entry_id v) →
  versions (repo_run ops t) !! k = Some v.
Proof.
  revert t. induction ops as [|op ops IH]; intros t Hok Hv Hpub Hdel; [done|]. apply IH.
  - by eapply catalog_change_ok, repo_step_refines.
  - apply step_keeps_published; [done..|]. destruct op; simpl; try done. intros [= ->].
    by apply (Hdel (rv_entry_id v)); [left|].
  - done.
  - intros id Hid. apply Hdel. by right.
Qed.

(** Where the version stood one call earlier. *)
Lemma step_origin op t k v' :
  repo_ok t → versions (repo_step op t) !! k = Some v' →
  rv_status v' = Draft
  ∨ ∃ v, versions t !! k = Some v ∧ same_identity v v' = true
      ∧ (rv_status v' = rv_status v ∨ rv_status v' ∈ REPOSITORY_STATUS_TRANSITIONS (rv_status v)).
Proof.
  intros Hok Hv'. assert (∀ v, same_identity v v = true) as Hrefl
    by (intros; unfold same_identity; by rewrite !bool_decide_eq_true_2).
  destruct (repo_step_refines op t Hok) as
    [|es _|v1 es (_ & Hd & _) _|k1 v1 v1' es Hv1 (_ & Hid & _ & Hs & _) _|id e gs ss _ _ _];
    simpl in Hv'.
  - right. exists v'. auto.
  - right. exists v'. auto.
  - apply lookup_insert_Some in Hv' as [[_ <-]|[_ Hv']]; [by left|right]. exists v'. auto.
  - apply lookup_insert_Some in Hv' as [[<- <-]|[_ Hv']]; right; [by exists v1|]. exists v'. auto.
  - apply lookup_delete_rows in Hv' as [Hv' _]. right. exists v'. auto.
Qed.

(** The one status a reviewed version can come from. *)
Definition came_from (s : RepositoryEntryStatus) : option RepositoryEntryStatus :=
  match s with
  | Validated => Some Draft | PendingReview => Some Validated
  | Approved => Some PendingReview | Published => Some Approved
  | Draft | Rejected | Retired => None
  end.

(** Version [v], under its key, with status [s] after some calls. *)
Definition stood (s : RepositoryEntryStatus) (k : string) (v : RepositoryVersionRecord)
    (ops : list repo_op) : Prop :=
  ∃ x, versions (repo_run ops empty_repo) !! k = Some x ∧ rv_status x = s ∧ same_identity x v = true.

Lemma same_identity_trans x y z :
  same_identity x y = true → same_identity y z = true → same_identity x z = true.
Proof.
  unfold same_identity. rewrite !andb_true_iff, !bool_decide_eq_true.
  intros [[[[[? ?] ?] ?] ?] ?] [[[[[? ?] ?] ?] ?] ?]. split_and!; congruence.
Qed.

Lemma stood_before s p k v ops :
  stood s k v ops → came_from s = Some p → ∃ ops', ops' `prefix_of` ops ∧ stood p k v ops'.
Proof.
  induction ops as [|op ops IH] using rev_ind; intros (x & Hx & Hs & Hid) Hp;
    [simpl in Hx; by rewrite lookup_empty in Hx|].
  unfold repo_run in Hx. rewrite foldl_snoc in Hx. fold (repo_run ops empty_repo) in Hx.
  destruct (step_origin op _ k x (repo_run_ok ops _ empty_repo_ok) Hx)
    as [Hd|(y & Hy & Hid' & [Heq|Hin])].
  - by rewrite <- Hs, Hd in Hp.
  - destruct IH as (ops' & Hpre & Hst); [|done|exists ops'; split; [by apply prefix_app_r|done]].
    exists y. split; [done|]. split; [congruence|by eapply same_identity_trans].
  - exists ops. split; [by apply prefix_app_r|]. exists y. split; [done|].
    split; [|by eapply same_identity_trans]. rewrite Hs in Hin.
    destruct s, (rv_status y); simplify_eq/=; set_solver.
Qed.

(** C13: nothing is published without its review.  However the catalog came to
    hold a published version, the same version (entry, number, kind, source hash,
    image) was a draft, then validated, then pending review, then approved, in this
    order, before it was published. *)
Theorem published_after_review ops k v :
  versions (repo_run ops empty_repo) !! k = Some v → rv_status v = Published →
  ∃ o1 o2 o3 o4,
    o1 `prefix_of` o2 ∧ o2 `prefix_of` o3 ∧ o3 `prefix_of` o4 ∧ o4 `prefix_of` ops
    ∧ stood Draft k v o1 ∧ stood Validated k v o2 ∧ stood PendingReview k v o3
    ∧ stood Approved k v o4.
Proof.
  intros Hv Hpub.
  assert (stood Published k v ops) as H5.
  { exists v. split_and!; [done|done|]. unfold same_identity. by rewrite !bool_decide_eq_true_2. }
  destruct (stood_before _ Approved _ _ _ H5) as (o4 & Hp4 & H4); [done|].
  destruct (stood_before _ PendingReview _ _ _ H4) as (o3 & Hp3 & H3); [done|].
  destruct (stood_before _ Validated _ _ _ H3) as (o2 & Hp2 & H2); [done|].
  destruct (stood_before _ Draft _ _ _ H2) as (o1 & Hp1 & H1'); [done|].
  by exists o1, o2, o3, o4.
Qed.
End theorems.

Lemma no_kinds_active t : has_active_service [] t = false.
Proof. unfold has_active_service. by induction (rows _) as [|x l IH]. Qed.

(** Deleting an entry.  An unknown entry, one that is not a draft, rejected or
    retired, and a service entry one of whose kinds runs are refused, and then
    nothing changes.  Otherwise the entry, all of its versions and the notebook
    records generated for their kinds are gone, everything else stays, and the
    answer counts the versions. *)
Theorem delete_repository_entry_spec id t :
  match entries t !! id with
  | None => delete_repository_entry id t = (t, Err (not_found id))
  | Some e =>
      let kinds := map rv_kind (versions_of id t) in
      if negb (deletable (re_status e))
         || bool_decide (re_type e = NotebookService) && has_active_service kinds t
      then ∃ text, delete_repository_entry id t = (t, Err (ValueError text))
      else ∃ t' r, delete_repository_entry id t = (t', Ok r)
        ∧ entries t' = delete id (entries t)
        ∧ (∀ k v, versions t' !! k = Some v ↔ versions t !! k = Some v ∧ rv_entry_id v ≠ id)
        ∧ (∀ k g, repo_goblins t' !! k = Some g ↔
             repo_goblins t !! k = Some g ∧ ¬ generated_goblin (re_type e) kinds g)
        ∧ (∀ k s, repo_services t' !! k = Some s ↔
             repo_services t !! k = Some s ∧ ¬ generated_service (re_type e) kinds s)
        ∧ de_deleted_versions r = Z.of_nat (length (versions_of id t))
  end.
Proof.
  unfold delete_repository_entry, atomic. rewrite bind_gets. unfold get_repository_entry.
  destruct (entries t !! id) as [e|] eqn:He; [|done]. cbv zeta. rewrite bind_raise_if.
  destruct (deletable (re_status e)) eqn:Hdel; simpl; [|by eexists].
  rewrite !bind_gets, bind_raise_if. set (kinds := map rv_kind (versions_of id t)).
  assert (bool_decide (re_type e = NotebookService) && negb (bool_decide (kinds = []))
            && has_active_service kinds t
          = bool_decide (re_type e = NotebookService) && has_active_service kinds t) as ->.
  { clearbody kinds. destruct kinds as [|c cs]; [|by rewrite andb_true_r].
    rewrite no_kinds_active, andb_false_r. by rewrite andb_false_r. }
  destruct (_ && _); [by eexists|].
  destruct (delete_notebook_records_run (re_type e) kinds t) as (gs & ss & n & Hrun & Hgs & Hss).
  unfold bind. rewrite Hrun. simpl. do 2 eexists. split; [reflexivity|]. simpl.
  split_and!; [done| |done|done|].
  - intros k v. by rewrite lookup_delete_rows, bool_decide_eq_false.
  - unfold count_rows, versions_of. do 2 f_equal. apply list_filter_iff. intros v.
    apply bool_decide_eq_true.
Qed.

(** ** Concrete instances *)

Definition sample_entry : RepositoryEntryRecord :=
  mkRepositoryEntry "e1" "hello" "hello" NotebookFunction (Some "p1") "ada" "Hello" None [] Draft
    None 0 0.
Definition sample_version (id : string) (n : Z) (hash : string) : RepositoryVersionRecord :=
  mkRepositoryVersion id "e1" n "hello" hash "runner:1" ∅ Draft Draft None None None 0 0.
Definition a_proof : dict := {[ "status" := JStr "passed" ]}.

(** A version submitted, validated, reviewed, approved and published. *)
Definition publish_ops : list repo_op :=
  [OpCreateEntry sample_entry; OpCreateVersion (sample_version "v1" 1 "h1");
   OpVersionStatus "e1" 1 Validated 1 (Some a_proof) None None None;
   OpVersionStatus "e1" 1 PendingReview 2 None None None None;
   OpVersionStatus "e1" 1 Approved 3 None (Some "grace") None None;
   OpVersionStatus "e1" 1 Published 4 None None None None].
Definition published_repo : RepoTables := @repo_run sqlite_merge publish_ops empty_repo.
Definition published_row : RepositoryVersionRecord :=
  set_version a_proof Published Published (Some "grace") (Some 3) (Some 4) 4
    (sample_version "v1" 1 "h1").

Example publish_run :
  versions published_repo !! "v1" = Some published_row
  ∧ (re_status <$> entries published_repo !! "e1") = Some Published.
Proof. split; vm_compute; reflexivity. Qed.

Lemma published_versions_immutable_witness :
  versions (@repo_run sqlite_merge [OpUpdateVersion (sample_version "v1" 1 "h1");
     OpVersionStatus "e1" 1 Retired 5 None None None None;
     OpCreateVersion (sample_version "v2" 2 "h2")] published_repo) !! "v1" = Some published_row.
Proof.
  apply (@published_versions_immutable sqlite_merge);
    [apply repo_run_ok, empty_repo_ok|vm_compute; reflexivity|reflexivity|].
  intros id Hin. rewrite !elem_of_cons in Hin. destruct Hin as [?|[?|[?|Hin]]]; try discriminate.
  by apply not_elem_of_nil in Hin.
Defined.

Lemma published_after_review_witness :
  ∃ o1 o2 o3 o4,
    o1 `prefix_of` o2 ∧ o2 `prefix_of` o3 ∧ o3 `prefix_of` o4 ∧ o4 `prefix_of` publish_ops
    ∧ @stood sqlite_merge Draft "v1" published_row o1
    ∧ @stood sqlite_merge Validated "v1" published_row o2
    ∧ @stood sqlite_merge PendingReview "v1" published_row o3
    ∧ @stood sqlite_merge Approved "v1" published_row o4.
Proof.
  apply (@published_after_review sqlite_merge publish_ops); [vm_compute; reflexivity|reflexivity].
Defined.

(** Submitting a next version sets the entry back to draft, and a draft entry can be
    deleted: the published version goes with it. *)
Example draft_deletes_published :
  versions (@repo_run sqlite_merge
    [OpCreateVersion (sample_version "v2" 2 "h2"); OpDeleteEntry "e1"] published_repo) !! "v1" = None.
Proof. vm_compute. reflexivity. Qed.

(** A retired entry does not stay retired: the review of a version it still has
    writes its own status over it. *)
Example review_revives_retired :
  (λ t, re_status <$> entries t !! "e1")
    (@repo_run sqlite_merge
      [OpCreateEntry sample_entry; OpCreateVersion (sample_version "v1" 1 "h1");
       OpEntryStatus "e1" Retired 1 None; OpVersionStatus "e1" 1 Validated 2 (Some a_proof) None None None]
      empty_repo) = Some Validated.
Proof. vm_compute. reflexivity. Qed.
