(* ===== verification/Drain.v ===== *)
(** * Draining a replaced service ([src/src/goblin_king/service_websocket_drain.py])

    While a managed service is replaced, its open websocket relays may finish, no
    new one is accepted, and then its retirement callback runs.  The coroutines
    interleave at their awaits; what they do under the registry's lock is one
    step.  The sections under the lock are functions on the registry, and the
    system of running coroutines is a step relation over them.

    A websocket, a callback and a task are numbers.  Closing a websocket and
    awaiting a cancelled timer are steps that change nothing here; a coroutine is
    not itself cancelled from outside. *)

From S2P Require Import Prelude.
From stdpp Require Import gmap.

Record _DrainState := mkDrainState {
  connections : gset nat;
  retire : option nat;
  callback_started : bool;
  timeout_task : option nat }.

Definition fresh_drain : _DrainState := mkDrainState ∅ None false None.

(** [WebSocketDrainRegistry._states] *)
Abbreviation Drains := (gmap string _DrainState).

(** ** The sections under the lock *)

(** [register] *)
Definition register (service_id : string) (websocket : nat) : M Drains bool :=
  λ states,
    let state := default fresh_drain (states !! service_id) in
    match retire state with
    | Some _ => (<[service_id := state]> states, Ok false)
    | None =>
        (<[service_id := mkDrainState ({[websocket]} ∪ connections state) (retire state)
                           (callback_started state) (timeout_task state)]> states, Ok true)
    end.

(** [unregister]: the callback to run, with the timer to cancel. *)
Definition unregister (service_id : string) (websocket : nat)
    : M Drains (option (nat * option nat)) :=
  λ states,
    match states !! service_id with
    | None => (states, Ok None)
    | Some state =>
        let left := connections state ∖ {[websocket]} in
        let state' := mkDrainState left (retire state) (callback_started state)
                        (timeout_task state) in
        match retire state with
        | None =>
            if bool_decide (left = ∅) then (delete service_id states, Ok None)
            else (<[service_id := state']> states, Ok None)
        | Some callback =>
            if bool_decide (left = ∅) && negb (callback_started state)
            then (<[service_id := mkDrainState left (retire state) true (timeout_task state)]>
                    states, Ok (Some (callback, timeout_task state)))
            else (<[service_id := state']> states, Ok None)
        end
    end.

(** What [drain] does after its lock. *)
Inductive DrainOutcome := AlreadyDraining | WaitForClients | RetireNow.

(** [drain]; [timer] is the task that [create_task] would start. *)
Definition drain (service_id : string) (callback timer : nat) : M Drains DrainOutcome :=
  λ states,
    let state := default fresh_drain (states !! service_id) in
    match retire state with
    | Some _ => (<[service_id := state]> states, Ok AlreadyDraining)
    | None =>
        if bool_decide (connections state = ∅)
        then (<[service_id := mkDrainState (connections state) (Some callback) true
                                (timeout_task state)]> states, Ok RetireNow)
        else (<[service_id := mkDrainState (connections state) (Some callback)
                                (callback_started state) (Some timer)]> states, Ok WaitForClients)
    end.

(** [active_count] *)
Definition active_count (service_id : string) (states : Drains) : Z :=
  match states !! service_id with
  | Some state => Z.of_nat (size (connections state))
  | None => 0
  end.

(** [_force_drain], after the sleep: the callback to run and the relays to close. *)
Definition _force_drain (service_id : string) : M Drains (option (nat * gset nat)) :=
  λ states,
    match states !! service_id with
    | None => (states, Ok None)
    | Some state =>
        match callback_started state, retire state with
        | false, Some callback =>
            (<[service_id := mkDrainState (connections state) (Some callback) true
                               (timeout_task state)]> states,
             Ok (Some (callback, connections state)))
        | _, _ => (states, Ok None)
        end
    end.

(** The [finally] of [_retire]. *)
Definition retire_finally (service_id : string) : M Drains unit :=
  λ states, (delete service_id states, Ok tt).

(** ** The coroutines *)

(** Where a coroutine that concerns a service is: its timer sleeps, it awaits the
    closed relays or the cancelled timer, it is about to call the callback, or the
    callback returned or raised. *)
Inductive Task :=
| Sleeping (service_id : string)
| Awaiting (service_id : string) (callback : nat)
| Retiring (service_id : string) (callback : nat)
| Finishing (service_id : string).

Record Sys := mkSys {
  drains : Drains;
  tasks : gmap nat Task;
  next_task : nat;
  cancelled : gset nat;          (* timers asked to stop *)
  accepted : list nat;           (* callbacks of the drains that were accepted *)
  started : list nat             (* callbacks that were called *) }.

Definition init_sys : Sys := mkSys ∅ ∅ 0 ∅ [] [].

(** A new coroutine. *)
Definition spawn (task : Task) (states : Drains) (σ : Sys) : Sys :=
  mkSys states (<[next_task σ := task]> (tasks σ)) (S (next_task σ)) (cancelled σ) (accepted σ)
    (started σ).
Definition with_drains (states : Drains) (σ : Sys) : Sys :=
  mkSys states (tasks σ) (next_task σ) (cancelled σ) (accepted σ) (started σ).
(** A coroutine moves on, or ends. *)
Definition goto (tid : nat) (task : option Task) (states : Drains) (σ : Sys) : Sys :=
  mkSys states (partial_alter (λ _, task) tid (tasks σ)) (next_task σ) (cancelled σ) (accepted σ)
    (started σ).
Definition cancel (timer : option nat) (σ : Sys) : Sys :=
  mkSys (drains σ) (tasks σ) (next_task σ)
    (match timer with Some tid => {[tid]} ∪ cancelled σ | None => cancelled σ end)
    (accepted σ) (started σ).
Definition accept (callback : nat) (σ : Sys) : Sys :=
  mkSys (drains σ) (tasks σ) (next_task σ) (cancelled σ) (callback :: accepted σ) (started σ).
Definition call (callback : nat) (σ : Sys) : Sys :=
  mkSys (drains σ) (tasks σ) (next_task σ) (cancelled σ) (accepted σ) (callback :: started σ).

(** What the clients and the control plane do. *)
Inductive request_step (σ : Sys) : Sys → Prop :=
| step_register s ws states ok :
    register s ws (drains σ) = (states, Ok ok) →
    request_step σ (with_drains states σ)
| step_unregister s ws states :
    unregister s ws (drains σ) = (states, Ok None) →
    request_step σ (with_drains states σ)
| step_unregister_last s ws states callback timer :
    unregister s ws (drains σ) = (states, Ok (Some (callback, timer))) →
    request_step σ
      (cancel timer (spawn (match timer with
                            | Some _ => Awaiting s callback | None => Retiring s callback end)
                      states σ))
| step_drain_again s callback states :
    drain s callback (next_task σ) (drains σ) = (states, Ok AlreadyDraining) →
    request_step σ (with_drains states σ)
| step_drain_wait s callback states :
    drain s callback (next_task σ) (drains σ) = (states, Ok WaitForClients) →
    request_step σ (accept callback (spawn (Sleeping s) states σ))
| step_drain_now s callback states :
    drain s callback (next_task σ) (drains σ) = (states, Ok RetireNow) →
    request_step σ (accept callback (spawn (Retiring s callback) states σ)).

(** What the running coroutines do. *)
Inductive task_step (σ : Sys) : Sys → Prop :=
| step_timeout_late tid s states :
    tasks σ !! tid = Some (Sleeping s) →
    _force_drain s (drains σ) = (states, Ok None) →
    task_step σ (goto tid None states σ)
| step_timeout tid s states callback relays :
    tasks σ !! tid = Some (Sleeping s) →
    _force_drain s (drains σ) = (states, Ok (Some (callback, relays))) →
    task_step σ (goto tid (Some (Awaiting s callback)) states σ)
| step_cancelled tid s :
    tasks σ !! tid = Some (Sleeping s) → tid ∈ cancelled σ →
    task_step σ (goto tid None (drains σ) σ)
| step_awaited tid s callback :
    tasks σ !! tid = Some (Awaiting s callback) →
    task_step σ (goto tid (Some (Retiring s callback)) (drains σ) σ)
| step_call tid s callback :
    tasks σ !! tid = Some (Retiring s callback) →
    task_step σ (call callback (goto tid (Some (Finishing s)) (drains σ) σ))
| step_finish tid s states :
    tasks σ !! tid = Some (Finishing s) →
    retire_finally s (drains σ) = (states, Ok tt) →
    task_step σ (goto tid None states σ).

Definition sys_step (σ σ' : Sys) : Prop := request_step σ σ' ∨ task_step σ σ'.
Definition reachable (σ : Sys) : Prop := rtc sys_step init_sys σ.

(** ** The invariant *)

Definition about (task : Task) : string :=
  match task with
  | Sleeping s | Awaiting s _ | Retiring s _ | Finishing s => s
  end.
(** The callback a coroutine holds, and the one a service keeps for later. *)
Definition held (task : Task) : option nat :=
  match task with Awaiting _ cb | Retiring _ cb => Some cb | _ => None end.
Definition kept (d : _DrainState) : option nat :=
  if callback_started d then None else retire d.
(** A coroutine that retires its service. *)
Definition busy (s : string) (task : Task) : Prop := about task = s ∧ task ≠ Sleeping s.

Definition times (cb : nat) (l : list nat) : nat := length (filter (λ x, x = cb) l).
(** How often the rows of a table yield [cb]. *)
Definition occurs {K R} `{Countable K} (f : R → option nat) (cb : nat) (m : gmap K R) : nat :=
  length (filter (λ kv, f kv.2 = Some cb) (map_to_list m)).
Definition hit {R} (f : R → option nat) (cb : nat) (o : option R) : nat :=
  if decide (o ≫= f = Some cb) then 1 else 0.

Definition idle (s : string) (σ : Sys) : Prop :=
  ∀ tid task, tasks σ !! tid = Some task → ¬ busy s task.

(** One service: unknown or in use with nobody retiring it; waiting, with clients
    and a timer that will not be cancelled; or being retired by exactly one
    coroutine. *)
Definition service_ok (σ : Sys) (s : string) : Prop :=
  match drains σ !! s with
  | None => idle s σ
  | Some d =>
      match retire d, callback_started d with
      | None, started => started = false ∧ idle s σ
      | Some _, false => idle s σ ∧ connections d ≠ ∅
          ∧ ∃ tid, timeout_task d = Some tid ∧ tasks σ !! tid = Some (Sleeping s)
              ∧ tid ∉ cancelled σ
      | Some _, true => ∃ tid task, tasks σ !! tid = Some task ∧ busy s task
          ∧ ∀ tid' task', tasks σ !! tid' = Some task' → busy s task' → tid' = tid
      end
  end.

(** Every callback that was accepted was called, or is held by a coroutine, or is
    kept by a waiting service. *)
Definition conserved (σ : Sys) : Prop :=
  ∀ cb, times cb (accepted σ)
        = (times cb (started σ) + occurs held cb (tasks σ) + occurs kept cb (drains σ))%nat.

Record sys_ok (σ : Sys) : Prop := {
  so_services : ∀ s, service_ok σ s;
  so_fresh : ∀ tid, (next_task σ ≤ tid)%nat → tasks σ !! tid = None ∧ (tid ∉ cancelled σ);
  so_conserved : conserved σ
}.

(** ** Lemmas: counting *)

Lemma occurs_delete {K R} `{Countable K} f cb (m : gmap K R) k :
  occurs f cb m = (occurs f cb (delete k m) + hit f cb (m !! k))%nat.
Proof.
  unfold occurs, hit. destruct (m !! k) as [x|] eqn:Hx; simpl.
  - rewrite <- (insert_delete_id m k x Hx) at 1.
    rewrite map_to_list_insert by apply lookup_delete_eq. rewrite filter_cons. simpl.
    destruct (decide (f x = Some cb)); simpl; lia.
  - rewrite delete_id by done. lia.
Qed.

Lemma occurs_set {K R} `{Countable K} f cb (m m' : gmap K R) k :
  (∀ k', k' ≠ k → m' !! k' = m !! k') →
  (occurs f cb m' + hit f cb (m !! k) = occurs f cb m + hit f cb (m' !! k))%nat.
Proof.
  intros Hsame. rewrite (occurs_delete f cb m k), (occurs_delete f cb m' k).
  assert (delete k m' = delete k m) as ->; [|lia]. apply map_eq. intros k'.
  destruct (decide (k' = k)) as [->|Hne]; [by rewrite !lookup_delete_eq|].
  rewrite !lookup_delete_ne by done. auto.
Qed.

(** ** Lemmas: one service at a time *)

(** A step that concerns service [s] changes nothing of another service. *)
Lemma service_frame σ σ' s :
  drains σ' !! s = drains σ !! s →
  (∀ tid task, about task = s → tasks σ' !! tid = Some task ↔ tasks σ !! tid = Some task) →
  (∀ tid, tasks σ !! tid = Some (Sleeping s) → tid ∈ cancelled σ' → tid ∈ cancelled σ) →
  service_ok σ s → service_ok σ' s.
Proof.
  intros Hd Ht Hc. assert (idle s σ → idle s σ') as Hidle.
  { intros Hi tid task Hk Hb. apply (Hi tid task); [by apply Ht; [apply Hb|]|done]. }
  unfold service_ok. rewrite Hd. destruct (drains σ !! s) as [d|]; [|done].
  destruct (retire d), (callback_started d).
  - intros (tid & task & Hk & Hb & Huniq). exists tid, task. split; [by apply Ht; [apply Hb|]|].
    split; [done|]. intros tid' task' Hk' Hb'. apply (Huniq tid' task'); [by apply Ht; [apply Hb'|]|done].
  - intros (Hi & Hn & tid & Htid & Hk & Hnot). split; [auto|]. split; [done|]. exists tid.
    split; [done|]. split; [by apply Ht|]. by intros ?%Hc.
  - by intros [? _].
  - intros [? ?]. auto.
Qed.

(** A step that concerns one service and one coroutine of it. *)
Lemma sys_ok_local σ σ' s tid :
  sys_ok σ →
  (∀ s', s' ≠ s → drains σ' !! s' = drains σ !! s') →
  (∀ t, t ≠ tid → tasks σ' !! t = tasks σ !! t) →
  (∀ x, tasks σ !! tid = Some x → about x = s) →
  (∀ x, tasks σ' !! tid = Some x → about x = s ∧ (tid < next_task σ')%nat) →
  (∀ t, t ∈ cancelled σ' → t ∈ cancelled σ ∨ tasks σ !! t = Some (Sleeping s)) →
  (next_task σ ≤ next_task σ')%nat →
  service_ok σ' s →
  (∀ cb, times cb (accepted σ') + times cb (started σ) + hit held cb (tasks σ !! tid)
           + hit kept cb (drains σ !! s)
         = times cb (accepted σ) + times cb (started σ') + hit held cb (tasks σ' !! tid)
           + hit kept cb (drains σ' !! s))%nat →
  sys_ok σ'.
Proof.
  intros [Hsvc Hfresh Hcons] Hd Ht Hold Hnew Hcan Hnext Hs Hcount. split.
  - intros s'. destruct (decide (s' = s)) as [->|Hne]; [done|].
    apply (service_frame σ); [by apply Hd| |  |apply Hsvc].
    + intros t x Hx. destruct (decide (t = tid)) as [->|Hn]; [|by rewrite Ht].
      split; [intros [? _]%Hnew|intros ?%Hold]; congruence.
    + intros t Hsl [?|Hsl']%Hcan; [done|]. congruence.
  - intros t Hle. destruct (Hfresh t) as [Hnone Hnot]; [lia|]. split.
    + destruct (tasks σ' !! t) as [x|] eqn:Hx; [|done]. destruct (decide (t = tid)) as [->|Hn].
      * destruct (Hnew x Hx). lia.
      * rewrite Ht in Hx by done. congruence.
    + intros [?|?]%Hcan; [done|congruence].
  - intros cb. specialize (Hcons cb). specialize (Hcount cb).
    pose proof (occurs_set held cb (tasks σ) (tasks σ') tid Ht).
    pose proof (occurs_set kept cb (drains σ) (drains σ') s Hd). lia.
Qed.

(** The same for a step that only changes the service's own state. *)
Lemma sys_ok_state σ s states :
  sys_ok σ →
  (∀ s', s' ≠ s → states !! s' = drains σ !! s') →
  service_ok (with_drains states σ) s →
  (∀ cb, hit kept cb (states !! s) = hit kept cb (drains σ !! s)) →
  sys_ok (with_drains states σ).
Proof.
  intros Hok Hd Hs Hkept. destruct (so_fresh σ Hok (next_task σ)) as [Hnone _]; [lia|].
  apply (sys_ok_local σ _ s (next_task σ)); simpl; try done.
  - intros x Hx. congruence.
  - intros x Hx. congruence.
  - by left.
  - intros cb. rewrite Hkept. lia.
Qed.

(** A service state that changed only in its clients. *)
Lemma service_ok_clients σ s d clients :
  drains σ !! s = Some d → service_ok σ s → (kept d ≠ None → clients ≠ ∅) →
  service_ok (with_drains (<[s := mkDrainState clients (retire d) (callback_started d)
                               (timeout_task d)]> (drains σ)) σ) s.
Proof.
  unfold service_ok, kept. intros Hd. rewrite Hd. simpl. rewrite lookup_insert_eq. simpl.
  destruct (retire d), (callback_started d); [done|..]; [|done|done].
  intros (? & _ & ?) Hc. split; [done|]. split; [by apply Hc|done].
Qed.

Lemma hit_kept_clients cb d clients :
  hit kept cb (Some (mkDrainState clients (retire d) (callback_started d) (timeout_task d)))
  = hit kept cb (Some d).
Proof. done. Qed.

(** A service nobody drains. *)
Lemma idle_ok σ s d :
  drains σ !! s = Some d → retire d = None → callback_started d = false → idle s σ → service_ok σ s.
Proof. unfold service_ok. intros -> -> ->. done. Qed.

Lemma undrained_idle σ s d :
  drains σ !! s = Some d → retire d = None → service_ok σ s → callback_started d = false ∧ idle s σ.
Proof. unfold service_ok. intros -> ->. done. Qed.

(** The state a section under the lock finds: the stored one, or a fresh one. *)
Lemma found_state σ s d :
  sys_ok σ → default fresh_drain (drains σ !! s) = d →
  drains σ !! s = Some d ∨ drains σ !! s = None ∧ d = fresh_drain ∧ idle s σ.
Proof.
  intros Hok <-. pose proof (so_services σ Hok s) as Hs. unfold service_ok in Hs.
  destruct (drains σ !! s); [by left|by right].
Qed.

Lemma register_ok σ s ws states ok :
  sys_ok σ → register s ws (drains σ) = (states, Ok ok) → sys_ok (with_drains states σ).
Proof.
  intros Hok. unfold register. set (d := default _ _).
  destruct (found_state σ s d Hok eq_refl) as [Hd|(Hd & Hf & Hidle)].
  - destruct (retire d) as [cb|] eqn:Hr; intros [= <- <-].
    + rewrite insert_id by done. by destruct σ.
    + rewrite <- Hr. apply (sys_ok_state σ s); [done|intros; by rewrite lookup_insert_ne| |].
      * apply service_ok_clients; [done|apply Hok|]. unfold kept. rewrite Hr. by destruct (callback_started d).
      * intros cb. by rewrite lookup_insert_eq, Hd, hit_kept_clients.
  - rewrite Hf. simpl. intros [= <- <-].
    apply (sys_ok_state σ s); [done|intros; by rewrite lookup_insert_ne| |].
    + eapply idle_ok; [apply lookup_insert_eq|done|done|done].
    + intros cb. by rewrite lookup_insert_eq, Hd.
Qed.

Lemma unregister_ok σ s ws states :
  sys_ok σ → unregister s ws (drains σ) = (states, Ok None) → sys_ok (with_drains states σ).
Proof.
  intros Hok. unfold unregister. destruct (drains σ !! s) as [d|] eqn:Hd;
    [|intros [= <-]; by destruct σ].
  set (left := connections d ∖ {[ws]}).
  assert ((kept d ≠ None → left ≠ ∅) →
    sys_ok (with_drains (<[s := mkDrainState left (retire d) (callback_started d)
                                (timeout_task d)]> (drains σ)) σ)) as Hkeep.
  { intros Hleft. apply (sys_ok_state σ s); [done|intros; by rewrite lookup_insert_ne| |].
    - apply service_ok_clients; [done|apply Hok|done].
    - intros cb. by rewrite lookup_insert_eq, Hd, hit_kept_clients. }
  destruct (retire d) as [cb|] eqn:Hr.
  - case_bool_decide as Hl; simpl.
    + destruct (callback_started d) eqn:Hst; simpl; [|done]. intros [= <-]. apply Hkeep.
      unfold kept. by rewrite Hst.
    + intros [= <-]. by apply Hkeep.
  - case_bool_decide as Hl; intros [= <-].
    + destruct (undrained_idle σ s d Hd Hr (so_services σ Hok s)) as [Hst Hidle].
      apply (sys_ok_state σ s); [done|intros; by rewrite lookup_delete_ne| |].
      * unfold service_ok. simpl. by rewrite lookup_delete_eq.
      * intros cb. rewrite lookup_delete_eq, Hd. unfold hit, kept. simpl. by rewrite Hst, Hr.
    + apply Hkeep. unfold kept. by destruct (callback_started d); rewrite ?Hr.
Qed.

(** The one coroutine that retires a service. *)
Lemma sole_ok σ s d tid task :
  drains σ !! s = Some d → is_Some (retire d) → callback_started d = true →
  tasks σ !! tid = Some task → busy s task →
  (∀ t x, t ≠ tid → tasks σ !! t = Some x → ¬ busy s x) → service_ok σ s.
Proof.
  unfold service_ok. intros -> [cb ->] -> Ht Hb Hother. exists tid, task. split_and!; [done|apply Hb..|].
  intros t x Hx Hbx. destruct (decide (t = tid)) as [->|Hne]; [done|]. by destruct (Hother t x).
Qed.

Lemma unregister_last_ok σ s ws states cb timer task :
  sys_ok σ → unregister s ws (drains σ) = (states, Ok (Some (cb, timer))) →
  busy s task → held task = Some cb → sys_ok (cancel timer (spawn task states σ)).
Proof.
  intros Hok Hrun Hbusy Hheld. unfold unregister in Hrun.
  destruct (drains σ !! s) as [d|] eqn:Hd; [|done].
  destruct (retire d) as [c|] eqn:Hr; [|by case_bool_decide].
  case_bool_decide as Hl; [|done]. destruct (callback_started d) eqn:Hst; [done|].
  simpl in Hrun. injection Hrun as <- <- <-.
  pose proof (so_services σ Hok s) as Hs. unfold service_ok in Hs. rewrite Hd, Hr, Hst in Hs.
  destruct Hs as (Hidle & _ & tid & Htid & Hsleep & _).
  destruct (so_fresh σ Hok (next_task σ)) as [Hnone _]; [lia|].
  apply (sys_ok_local σ _ s (next_task σ)); simpl; [done|..].
  - intros; by rewrite lookup_insert_ne.
  - intros; by rewrite lookup_insert_ne.
  - intros x Hx. congruence.
  - intros x. rewrite lookup_insert_eq. intros [= <-]. split; [apply Hbusy|lia].
  - intros t. rewrite Htid. intros [->%elem_of_singleton|?]%elem_of_union; [by right|by left].
  - lia.
  - eapply sole_ok; [apply lookup_insert_eq|by eexists|done|apply lookup_insert_eq|done|].
    intros t x Hne. simpl. rewrite lookup_insert_ne by done. apply Hidle.
  - intros b. rewrite !lookup_insert_eq, Hnone, Hd. unfold hit, kept. simpl.
    rewrite Hst, Hr, Hheld. lia.
Qed.

Lemma drain_again_ok σ s cb timer states :
  sys_ok σ → drain s cb timer (drains σ) = (states, Ok AlreadyDraining) → sys_ok (with_drains states σ).
Proof.
  intros Hok. unfold drain. set (d := default _ _).
  destruct (found_state σ s d Hok eq_refl) as [Hd|(Hd & Hf & Hidle)].
  - destruct (retire d); [|by case_bool_decide]. intros [= <-]. rewrite insert_id by done. by destruct σ.
  - rewrite Hf. simpl. by case_bool_decide.
Qed.

(** What an accepted drain finds: nobody retires the service, and nothing is kept. *)
Lemma drain_found σ s cb timer states out :
  sys_ok σ → drain s cb timer (drains σ) = (states, Ok out) → out ≠ AlreadyDraining →
  idle s σ ∧ (∀ b, hit kept b (drains σ !! s) = 0%nat)
  ∧ ∃ d, callback_started d = false ∧
      match out with
      | RetireNow => states = <[s := mkDrainState (connections d) (Some cb) true (timeout_task d)]> (drains σ)
      | _ => connections d ≠ ∅
             ∧ states = <[s := mkDrainState (connections d) (Some cb) false (Some timer)]> (drains σ)
      end.
Proof.
  intros Hok Hrun Hout. unfold drain in Hrun. set (d := default _ _) in Hrun.
  assert (retire d = None → idle s σ ∧ callback_started d = false
            ∧ ∀ b, hit kept b (drains σ !! s) = 0%nat) as Hund.
  { intros Hr. destruct (found_state σ s d Hok eq_refl) as [Hd|(Hd & -> & Hidle)].
    - destruct (undrained_idle σ s d Hd Hr (so_services σ Hok s)) as [Hst Hidle].
      split_and!; [done|done|]. intros b. rewrite Hd. unfold hit, kept. simpl. by rewrite Hst, Hr.
    - split_and!; [done|done|]. intros b. by rewrite Hd. }
  destruct (retire d); [by injection Hrun as <- <-|].
  destruct (Hund eq_refl) as (Hidle & Hst & Hhit). split; [done|]. split; [done|]. exists d. split; [done|].
  case_bool_decide as Hc; injection Hrun as <- <-; [done|]. by rewrite Hst.
Qed.

Lemma times_cons b cb l : times b (cb :: l) = (times b l + hit Some b (Some cb))%nat.
Proof.
  unfold times, hit. rewrite filter_cons. simpl.
  destruct (decide (cb = b)) as [->|]; [rewrite decide_True by done|rewrite decide_False by congruence];
    simpl; lia.
Qed.

Lemma drain_wait_ok σ s cb states :
  sys_ok σ → drain s cb (next_task σ) (drains σ) = (states, Ok WaitForClients) →
  sys_ok (accept cb (spawn (Sleeping s) states σ)).
Proof.
  intros Hok Hrun. destruct (drain_found _ _ _ _ _ _ Hok Hrun) as (Hidle & Hhit & d & Hst & Hc & ->); [done|].
  destruct (so_fresh σ Hok (next_task σ)) as [Hnone Hnot]; [lia|].
  apply (sys_ok_local σ _ s (next_task σ)); simpl; [done|..].
  - intros; by rewrite lookup_insert_ne.
  - intros; by rewrite lookup_insert_ne.
  - intros x Hx. congruence.
  - intros x. rewrite lookup_insert_eq. intros [= <-]. split; [done|lia].
  - by left.
  - lia.
  - unfold service_ok. simpl. rewrite lookup_insert_eq. simpl. split_and!; [|done|].
    + intros t x. simpl. intros [[_ <-]|[_ Hx]]%lookup_insert_Some; [by intros [_ ?]|by apply (Hidle t x)].
    + exists (next_task σ). by rewrite lookup_insert_eq.
  - intros b. rewrite times_cons, !lookup_insert_eq, Hnone, Hhit. unfold hit, kept. simpl. lia.
Qed.

Lemma drain_now_ok σ s cb timer states :
  sys_ok σ → drain s cb timer (drains σ) = (states, Ok RetireNow) →
  sys_ok (accept cb (spawn (Retiring s cb) states σ)).
Proof.
  intros Hok Hrun. destruct (drain_found _ _ _ _ _ _ Hok Hrun) as (Hidle & Hhit & d & Hst & ->); [done|].
  destruct (so_fresh σ Hok (next_task σ)) as [Hnone Hnot]; [lia|].
  apply (sys_ok_local σ _ s (next_task σ)); simpl; [done|..].
  - intros; by rewrite lookup_insert_ne.
  - intros; by rewrite lookup_insert_ne.
  - intros x Hx. congruence.
  - intros x. rewrite lookup_insert_eq. intros [= <-]. split; [done|lia].
  - by left.
  - lia.
  - eapply sole_ok; [apply lookup_insert_eq|by eexists|done|apply lookup_insert_eq|by split|].
    intros t x Hne. simpl. rewrite lookup_insert_ne by done. apply Hidle.
  - intros b. rewrite times_cons, !lookup_insert_eq, Hnone, Hhit. unfold hit, kept. simpl. lia.
Qed.

(** A coroutine that exists has been created. *)
Lemma task_created σ tid task : sys_ok σ → tasks σ !! tid = Some task → (tid < next_task σ)%nat.
Proof.
  intros Hok Ht. destruct (decide (next_task σ ≤ tid)%nat) as [Hle|]; [|lia].
  destruct (so_fresh σ Hok tid Hle). congruence.
Qed.

(** A timer that ends without effect: late, or cancelled. *)
Lemma timer_ends_ok σ tid s :
  sys_ok σ → tasks σ !! tid = Some (Sleeping s) →
  (tid ∈ cancelled σ ∨ ∀ d, drains σ !! s = Some d → kept d = None) →
  sys_ok (goto tid None (drains σ) σ).
Proof.
  intros Hok Ht Hlate. pose proof (task_created σ tid _ Hok Ht).
  apply (sys_ok_local σ _ s tid); simpl; try done.
  - intros t Hne. by rewrite lookup_partial_alter_ne.
  - intros x Hx. by simplify_eq.
  - intros x. by rewrite lookup_partial_alter_eq.
  - by left.
  - assert (∀ t x, partial_alter (λ _, None) tid (tasks σ) !! t = Some x ↔
              t ≠ tid ∧ tasks σ !! t = Some x) as Hlook.
    { intros t x. destruct (decide (t = tid)) as [->|Hne];
        [rewrite lookup_partial_alter_eq|rewrite lookup_partial_alter_ne by done]; naive_solver. }
    assert (idle s σ → idle s (goto tid None (drains σ) σ)) as Hidle
      by (intros Hi t x [_ Hx]%Hlook; by apply (Hi t x)).
    pose proof (so_services σ Hok s) as Hs. unfold service_ok in *. simpl.
    destruct (drains σ !! s) as [d|]; [|auto].
    destruct (retire d) eqn:Hr, (callback_started d) eqn:Hst.
    + destruct Hs as (t & x & Hx & Hb & Huniq). exists t, x. rewrite Hlook. split_and!; [|done|apply Hb..|].
      * intros ->. rewrite Ht in Hx. injection Hx as <-. by destruct Hb.
      * intros t' x' [_ Hx']%Hlook. by apply Huniq.
    + destruct Hs as (Hi & Hn & t & Htt & Hsl & Hnot). split; [auto|]. split; [done|]. exists t.
      split; [done|]. split; [|done]. apply Hlook. split; [|done]. intros ->.
      destruct Hlate as [?|Hl]; [done|]. specialize (Hl d eq_refl). unfold kept in Hl.
      rewrite Hst in Hl. congruence.
    + by destruct Hs.
    + destruct Hs. auto.
  - intros cb. rewrite lookup_partial_alter_eq, Ht. unfold hit. simpl. lia.
Qed.

(** A busy coroutine's service is being retired. *)
Lemma busy_service σ s tid task :
  sys_ok σ → tasks σ !! tid = Some task → busy s task →
  ∃ d, drains σ !! s = Some d ∧ is_Some (retire d) ∧ callback_started d = true
    ∧ ∀ t x, tasks σ !! t = Some x → busy s x → t = tid.
Proof.
  intros Hok Ht Hb. pose proof (so_services σ Hok s) as Hs. unfold service_ok in Hs.
  destruct (drains σ !! s) as [d|]; [|by destruct (Hs tid task)].
  exists d. destruct (retire d) as [cb|], (callback_started d).
  - destruct Hs as (t0 & _ & _ & _ & Huniq). split_and!; [done|by eexists|done|].
    intros t x Hx Hbx. by rewrite (Huniq tid task Ht Hb), (Huniq t x Hx Hbx).
  - destruct Hs as [Hi _]. by destruct (Hi tid task).
  - by destruct Hs.
  - destruct Hs as [_ Hi]. by destruct (Hi tid task).
Qed.

(** A coroutine of a service that is being retired moves on. *)
Lemma moves_ok σ σ' s tid task task' d :
  sys_ok σ → tasks σ !! tid = Some task → about task = s → busy s task' →
  (∀ t x, t ≠ tid → tasks σ !! t = Some x → ¬ busy s x) →
  (∀ s', s' ≠ s → drains σ' !! s' = drains σ !! s') → drains σ' !! s = Some d →
  is_Some (retire d) → callback_started d = true →
  tasks σ' = partial_alter (λ _, Some task') tid (tasks σ) →
  cancelled σ' = cancelled σ → next_task σ' = next_task σ →
  (∀ cb, times cb (accepted σ') + times cb (started σ) + hit held cb (Some task)
           + hit kept cb (drains σ !! s)
         = times cb (accepted σ) + times cb (started σ') + hit held cb (Some task')
           + hit kept cb (Some d))%nat →
  sys_ok σ'.
Proof.
  intros Hok Ht Hab Hb Hother Hsame Hd Hr Hst Htasks Hcan Hnext Hcount.
  pose proof (task_created σ tid _ Hok Ht).
  apply (sys_ok_local σ σ' s tid); rewrite ?Htasks, ?Hnext, ?Hcan; try done.
  - intros t Hne. by rewrite lookup_partial_alter_ne.
  - intros x Hx. by simplify_eq.
  - intros x. rewrite lookup_partial_alter_eq. intros [= <-]. split; [apply Hb|lia].
  - by left.
  - eapply (sole_ok σ' s d tid task'); rewrite ?Htasks; [done..|apply lookup_partial_alter_eq|done|].
    intros t x Hne. rewrite lookup_partial_alter_ne by done. by apply Hother.
  - intros cb. rewrite lookup_partial_alter_eq, Ht, Hd. apply Hcount.
Qed.

Lemma timeout_ok σ tid s states cb relays :
  sys_ok σ → tasks σ !! tid = Some (Sleeping s) →
  _force_drain s (drains σ) = (states, Ok (Some (cb, relays))) →
  sys_ok (goto tid (Some (Awaiting s cb)) states σ).
Proof.
  intros Hok Ht Hrun. unfold _force_drain in Hrun.
  destruct (drains σ !! s) as [d|] eqn:Hd; [|done].
  destruct (callback_started d) eqn:Hst, (retire d) as [c|] eqn:Hr; try done.
  injection Hrun as <- <- <-.
  pose proof (so_services σ Hok s) as Hs. unfold service_ok in Hs. rewrite Hd, Hr, Hst in Hs.
  eapply (moves_ok σ _ s tid _ (Awaiting s c)); simpl;
    [done|exact Ht|done|by split| | |apply lookup_insert_eq|by eexists|done..|].
  - intros t x _ Hx. by apply Hs in Hx.
  - intros s' Hne. by rewrite lookup_insert_ne.
  - intros b. rewrite Hd. unfold hit, kept. simpl. rewrite Hst, Hr. lia.
Qed.

Lemma task_step_ok σ σ' : sys_ok σ → task_step σ σ' → sys_ok σ'.
Proof.
  intros Hok Hstep. inversion Hstep as [tid s states Ht Hrun|tid s states cb relays Ht Hrun|tid s Ht Hin
    |tid s cb Ht|tid s cb Ht|tid s states Ht Hrun]; subst; clear Hstep.
  - unfold _force_drain in Hrun.
    assert (states = drains σ ∧ ∀ d, drains σ !! s = Some d → kept d = None) as [-> Hlate].
    { destruct (drains σ !! s) as [d|]; [|by split; [congruence|]].
      unfold kept. destruct (callback_started d) eqn:Hst, (retire d) eqn:Hr; simplify_eq;
        (split; [done|]); intros ? [= <-]; by rewrite Hst, ?Hr. }
    apply (timer_ends_ok σ tid s); auto.
  - by eapply timeout_ok.
  - apply (timer_ends_ok σ tid s); auto.
  - destruct (busy_service σ s tid _ Hok Ht) as (d & Hd & Hr & Hst & Huniq); [by split|].
    eapply (moves_ok σ _ s tid _ (Retiring s cb)); simpl;
      [done|exact Ht|done|by split| |done|exact Hd|done..|].
    + intros t x Hne Hx Hb. by apply Hne, (Huniq t x).
    + intros b. rewrite Hd.
      change (hit held b (Some (Awaiting s cb))) with (hit held b (Some (Retiring s cb))). lia.
  - destruct (busy_service σ s tid _ Hok Ht) as (d & Hd & Hr & Hst & Huniq); [by split|].
    eapply (moves_ok σ _ s tid _ (Finishing s)); simpl;
      [done|exact Ht|done|by split| |done|exact Hd|done..|].
    + intros t x Hne Hx Hb. by apply Hne, (Huniq t x).
    + intros b. rewrite Hd, times_cons.
      change (hit held b (Some (Retiring s cb))) with (hit Some b (Some cb)).
      change (hit held b (Some (Finishing s))) with 0%nat. lia.
  - injection Hrun as <-. pose proof (task_created σ tid _ Hok Ht).
    destruct (busy_service σ s tid _ Hok Ht) as (d & Hd & Hr & Hst & Huniq); [by split|].
    apply (sys_ok_local σ _ s tid); simpl; try done.
    + intros s' Hne. by rewrite lookup_delete_ne.
    + intros t Hne. by rewrite lookup_partial_alter_ne.
    + intros x Hx. by simplify_eq.
    + intros x. by rewrite lookup_partial_alter_eq.
    + by left.
    + unfold service_ok. simpl. rewrite lookup_delete_eq. intros t x. simpl. intros Hx Hb.
      destruct (decide (t = tid)) as [->|Hne]; [by rewrite lookup_partial_alter_eq in Hx|].
      rewrite lookup_partial_alter_ne in Hx by done. by apply Hne, (Huniq t x).
    + intros b. rewrite lookup_partial_alter_eq, lookup_delete_eq, Ht, Hd. unfold hit, kept. simpl.
      rewrite Hst. simpl. lia.
Qed.

Lemma request_step_ok σ σ' : sys_ok σ → request_step σ σ' → sys_ok σ'.
Proof.
  intros Hok Hstep. inversion Hstep; subst.
  - by eapply register_ok.
  - by eapply unregister_ok.
  - eapply unregister_last_ok; [done|done|by destruct timer|by destruct timer].
  - by eapply drain_again_ok.
  - by eapply drain_wait_ok.
  - by eapply drain_now_ok.
Qed.

Lemma sys_step_ok σ σ' : sys_ok σ → sys_step σ σ' → sys_ok σ'.
Proof. intros Hok [Hs|Hs]; [by eapply request_step_ok|by eapply task_step_ok]. Qed.

Lemma init_sys_ok : sys_ok init_sys.
Proof.
  split.
  - intros s. unfold service_ok. simpl. rewrite lookup_empty. intros tid task. simpl.
    by rewrite lookup_empty.
  - intros tid _. simpl. split; [apply lookup_empty|set_solver].
  - done.
Qed.

Lemma reachable_ok σ : reachable σ → sys_ok σ.
Proof.
  intros Hr. unfold reachable in Hr. remember init_sys as σ0 eqn:H0.
  assert (sys_ok σ0) as Hok by (subst; apply init_sys_ok). clear H0.
  induction Hr as [|x y z Hxy _ IH]; [done|]. by apply IH, (sys_step_ok x).
Qed.

(** A draining service waits with a live timer, or one coroutine retires it. *)
Lemma draining_state σ s d :
  sys_ok σ → drains σ !! s = Some d → is_Some (retire d) →
  (callback_started d = false ∧ connections d ≠ ∅
   ∧ ∃ tid, timeout_task d = Some tid ∧ tasks σ !! tid = Some (Sleeping s) ∧ (tid ∉ cancelled σ))
  ∨ (callback_started d = true ∧ ∃ tid task, tasks σ !! tid = Some task ∧ busy s task
       ∧ ∀ tid' task', tasks σ !! tid' = Some task' → busy s task' → tid' = tid).
Proof.
  intros Hok Hd [cb Hr]. pose proof (so_services σ Hok s) as Hs. unfold service_ok in Hs.
  rewrite Hd, Hr in Hs. destruct (callback_started d); [by right|left]. by destruct Hs as (_ & ? & ?).
Qed.

(** ** Theorems *)

(** C12: a retirement is neither lost nor repeated.  In every interleaving of
    clients, drains, timers and retirements, each callback was called exactly as
    often as its drain was accepted, less the times one coroutine still holds it or
    a service keeps it; and a service that is draining either waits, with clients
    left and a timer running that nobody cancels, or a coroutine is retiring it. *)
Theorem retirement_exactly_once σ :
  reachable σ →
  (∀ cb, times cb (accepted σ)
         = (times cb (started σ) + occurs held cb (tasks σ) + occurs kept cb (drains σ))%nat)
  ∧ ∀ s d, drains σ !! s = Some d → is_Some (retire d) →
      (callback_started d = false ∧ connections d ≠ ∅
       ∧ ∃ tid, timeout_task d = Some tid ∧ tasks σ !! tid = Some (Sleeping s)
           ∧ (tid ∉ cancelled σ))
      ∨ (callback_started d = true ∧ ∃ tid task, tasks σ !! tid = Some task ∧ busy s task
           ∧ ∀ tid' task', tasks σ !! tid' = Some task' → busy s task' → tid' = tid).
Proof.
  intros Hok%reachable_ok. split; [apply Hok|]. intros s d. by apply draining_state.
Qed.

(** The rest of a retirement, from wherever its coroutine is. *)
Lemma finishing_ends σ s tid :
  tasks σ !! tid = Some (Finishing s) →
  ∃ σ', rtc task_step σ σ' ∧ drains σ' !! s = None ∧ started σ' = started σ.
Proof.
  intros Ht. eexists. split; [eapply rtc_once, (step_finish σ tid s); [done|reflexivity]|].
  split; [apply lookup_delete_eq|done].
Qed.
Lemma retiring_ends σ s cb tid :
  tasks σ !! tid = Some (Retiring s cb) →
  ∃ σ', rtc task_step σ σ' ∧ drains σ' !! s = None ∧ started σ' = cb :: started σ.
Proof.
  intros Ht. set (σ1 := call cb (goto tid (Some (Finishing s)) (drains σ) σ)).
  destruct (finishing_ends σ1 s tid) as (σ' & Hrun & Hd & Hs); [apply lookup_partial_alter_eq|].
  exists σ'. split; [by eapply rtc_l; [apply (step_call σ tid s cb)|]|]. done.
Qed.
Lemma awaiting_ends σ s cb tid :
  tasks σ !! tid = Some (Awaiting s cb) →
  ∃ σ', rtc task_step σ σ' ∧ drains σ' !! s = None ∧ started σ' = cb :: started σ.
Proof.
  intros Ht. set (σ1 := goto tid (Some (Retiring s cb)) (drains σ) σ).
  destruct (retiring_ends σ1 s cb tid) as (σ' & Hrun & Hd & Hs); [apply lookup_partial_alter_eq|].
  exists σ'. split; [by eapply rtc_l; [apply (step_awaited σ tid s cb)|]|]. done.
Qed.

(** C36: A drain never gets stuck.  From every state of the system in which a
    service is draining, its coroutines alone, with no help from the clients, can
    go on until the service is gone from the registry; and if its callback was not
    taken yet, it is called once on the way. *)
Theorem drain_finishes σ s d cb :
  reachable σ → drains σ !! s = Some d → retire d = Some cb →
  ∃ σ', rtc task_step σ σ' ∧ drains σ' !! s = None
    ∧ (callback_started d = false → started σ' = cb :: started σ).
Proof.
  intros Hok%reachable_ok Hd Hr.
  destruct (draining_state σ s d Hok Hd ltac:(by eexists)) as
    [(Hst & _ & tid & _ & Ht & _)|(Hst & tid & task & Ht & [Hab Hne] & _)].
  - assert (_force_drain s (drains σ)
      = (<[s := mkDrainState (connections d) (Some cb) true (timeout_task d)]> (drains σ),
         Ok (Some (cb, connections d)))) as Hrun by (unfold _force_drain; by rewrite Hd, Hst, Hr).
    set (states := <[s := _]> _) in Hrun. set (σ1 := goto tid (Some (Awaiting s cb)) states σ).
    destruct (awaiting_ends σ1 s cb tid) as (σ' & Hrtc & Hgone & Hs); [apply lookup_partial_alter_eq|].
    exists σ'. split; [by eapply rtc_l; [by eapply (step_timeout σ tid s)|]|]. done.
  - assert (∃ σ', rtc task_step σ σ' ∧ drains σ' !! s = None) as (σ' & Hrtc & Hgone).
    { destruct task as [x|x c|x c|x]; simpl in Hab; subst x; [done|..].
      - destruct (awaiting_ends σ s c tid Ht) as (σ' & ? & ? & _). by exists σ'.
      - destruct (retiring_ends σ s c tid Ht) as (σ' & ? & ? & _). by exists σ'.
      - destruct (finishing_ends σ s tid Ht) as (σ' & ? & ? & _). by exists σ'. }
    exists σ'. split_and!; [done|done|congruence].
Qed.

(** What one section under the lock may do to a draining service. *)
Definition still_draining (d : _DrainState) (o : option _DrainState) : Prop :=
  ∃ d', o = Some d' ∧ retire d' = retire d ∧ connections d' ⊆ connections d
    ∧ (callback_started d = false → callback_started d' = true → connections d' = ∅).

Lemma still_draining_refl d : still_draining d (Some d).
Proof. exists d. split_and!; [done..|congruence]. Qed.

Lemma register_draining s' ws m s d cb :
  m !! s = Some d → retire d = Some cb → still_draining d ((register s' ws m).1 !! s).
Proof.
  intros Hd Hr. unfold register. destruct (decide (s' = s)) as [->|Hne].
  - rewrite Hd. simpl. rewrite Hr. simpl. rewrite lookup_insert_eq. apply still_draining_refl.
  - destruct (retire (default _ _)); simpl; rewrite lookup_insert_ne by done; rewrite Hd;
      apply still_draining_refl.
Qed.

Lemma unregister_draining s' ws m s d cb :
  m !! s = Some d → retire d = Some cb → still_draining d ((unregister s' ws m).1 !! s).
Proof.
  intros Hd Hr. unfold unregister. destruct (decide (s' = s)) as [->|Hne].
  - rewrite Hd, Hr. case_bool_decide; destruct (callback_started d) eqn:Hst; simpl;
      rewrite lookup_insert_eq; eexists; (split; [reflexivity|]); simpl; (split; [done|]);
      (split; [set_solver|]); congruence.
  - assert (∀ x, still_draining d (<[s' := x]> m !! s)) as Hins
      by (intros; rewrite lookup_insert_ne by done; rewrite Hd; apply still_draining_refl).
    destruct (m !! s') as [x|]; [|simpl; rewrite Hd; apply still_draining_refl].
    destruct (retire x); case_bool_decide; simpl; try apply Hins.
    + destruct (callback_started x); apply Hins.
    + rewrite lookup_delete_ne by done. rewrite Hd. apply still_draining_refl.
Qed.

Lemma drain_draining s' c timer m s d cb :
  m !! s = Some d → retire d = Some cb → still_draining d ((drain s' c timer m).1 !! s).
Proof.
  intros Hd Hr. unfold drain. destruct (decide (s' = s)) as [->|Hne].
  - rewrite Hd. simpl. rewrite Hr. simpl. rewrite lookup_insert_eq. apply still_draining_refl.
  - destruct (retire (default _ _)); [|case_bool_decide]; simpl; rewrite lookup_insert_ne by done;
      rewrite Hd; apply still_draining_refl.
Qed.

Lemma request_draining σ σ' s d cb :
  request_step σ σ' → drains σ !! s = Some d → retire d = Some cb →
  still_draining d (drains σ' !! s).
Proof.
  intros Hstep Hd Hr. inversion Hstep as [s' ws st ok Hrun|s' ws st Hrun|s' ws st c timer Hrun
    |s' c st Hrun|s' c st Hrun|s' c st Hrun]; simpl.
  - pose proof (register_draining s' ws (drains σ) s d cb Hd Hr) as Hs. by rewrite Hrun in Hs.
  - pose proof (unregister_draining s' ws (drains σ) s d cb Hd Hr) as Hs. by rewrite Hrun in Hs.
  - pose proof (unregister_draining s' ws (drains σ) s d cb Hd Hr) as Hs. by rewrite Hrun in Hs.
  - pose proof (drain_draining s' c (next_task σ) (drains σ) s d cb Hd Hr) as Hs. by rewrite Hrun in Hs.
  - pose proof (drain_draining s' c (next_task σ) (drains σ) s d cb Hd Hr) as Hs. by rewrite Hrun in Hs.
  - pose proof (drain_draining s' c (next_task σ) (drains σ) s d cb Hd Hr) as Hs. by rewrite Hrun in Hs.
Qed.

(** A draining service is closed to new clients until it is gone.  Registering
    is refused; whatever happens next, it keeps its callback and gains no client;
    its callback is taken only when the last client has left or by its timer; and
    it leaves the registry only after its callback has ended. *)
Theorem draining_service_closed σ σ' s d cb :
  sys_step σ σ' → drains σ !! s = Some d → retire d = Some cb →
  (∀ ws, register s ws (drains σ) = (drains σ, Ok false))
  ∧ (still_draining d (drains σ' !! s)
     ∨ (∃ tid d', tasks σ !! tid = Some (Sleeping s) ∧ tasks σ' !! tid = Some (Awaiting s cb)
          ∧ drains σ' !! s = Some d' ∧ retire d' = Some cb ∧ connections d' = connections d)
     ∨ ∃ tid, tasks σ !! tid = Some (Finishing s) ∧ drains σ' !! s = None).
Proof.
  intros Hstep Hd Hr. split.
  { intros ws. unfold register. rewrite Hd. simpl. rewrite Hr. by rewrite insert_id. }
  destruct Hstep as [Hstep|Hstep]; [left; by eapply request_draining|].
  inversion Hstep as [tid x st Ht Hrun|tid x st c relays Ht Hrun|tid x Ht _|tid x c Ht|tid x c Ht
    |tid x st Ht Hrun]; simpl; try (left; rewrite Hd; apply still_draining_refl).
  - left. unfold _force_drain in Hrun.
    assert (st = drains σ) as ->; [|rewrite Hd; apply still_draining_refl].
    destruct (drains σ !! x) as [dx|]; [|congruence].
    destruct (callback_started dx), (retire dx); congruence.
  - unfold _force_drain in Hrun. destruct (drains σ !! x) as [dx|] eqn:Hdx; [|done].
    destruct (callback_started dx), (retire dx) as [cx|] eqn:Hrx; try done.
    injection Hrun as <- <- <-. destruct (decide (x = s)) as [->|Hne].
    + right. left. simplify_eq. exists tid. eexists. rewrite lookup_partial_alter_eq, lookup_insert_eq.
      done.
    + left. rewrite lookup_insert_ne by done. rewrite Hd. apply still_draining_refl.
  - injection Hrun as <-. destruct (decide (x = s)) as [->|Hne].
    + right. right. exists tid. by rewrite lookup_delete_eq.
    + left. rewrite lookup_delete_ne by done. rewrite Hd. apply still_draining_refl.
Qed.

(** ** Concrete instances *)

(** A service with one client, then a drain of it. *)
Definition one_client : Sys := with_drains {[ "notebook" := mkDrainState {[7%nat]} None false None ]} init_sys.
Definition one_draining : Sys :=
  accept 1 (spawn (Sleeping "notebook")
    {[ "notebook" := mkDrainState {[7%nat]} (Some 1%nat) false (Some 0%nat) ]} one_client).

Lemma one_draining_reachable : reachable one_draining.
Proof.
  apply (rtc_l _ _ one_client).
  - left. apply (step_register init_sys "notebook" 7 _ true). vm_compute. reflexivity.
  - apply rtc_once. left. apply (step_drain_wait one_client "notebook" 1). vm_compute. reflexivity.
Qed.

Lemma retirement_exactly_once_witness :
  times 1 (accepted one_draining)
  = (times 1 (started one_draining) + occurs held 1 (tasks one_draining)
     + occurs kept 1 (drains one_draining))%nat
  ∧ times 1 (accepted one_draining) = 1%nat.
Proof. split; [apply (retirement_exactly_once one_draining one_draining_reachable)|reflexivity]. Defined.

Lemma drain_finishes_witness :
  ∃ σ', rtc task_step one_draining σ' ∧ drains σ' !! "notebook" = None ∧ started σ' = [1%nat].
Proof.
  destruct (drain_finishes one_draining "notebook" (mkDrainState {[7%nat]} (Some 1%nat) false (Some 0%nat)) 1
    one_draining_reachable) as (σ' & Hrun & Hd & Hs); [reflexivity|reflexivity|].
  exists σ'. split_and!; [exact Hrun|exact Hd|exact (Hs eq_refl)].
Defined.

Lemma draining_service_closed_witness :
  register "notebook" 8 (drains one_draining) = (drains one_draining, Ok false).
Proof.
  apply (draining_service_closed one_draining
    (goto 0 (Some (Awaiting "notebook" 1))
      {[ "notebook" := mkDrainState {[7%nat]} (Some 1%nat) true (Some 0%nat) ]} one_draining)
    "notebook" (mkDrainState {[7%nat]} (Some 1%nat) false (Some 0%nat)) 1);
    [right; eapply step_timeout; vm_compute; reflexivity|reflexivity|reflexivity].
Defined.
