(* ===== verification/Cleanup.v ===== *)
(** * Deleting history ([src/src/goblin_king/store.py], [cleanup_runtime_rows])

    One transaction over the job, run, artifact, handoff, fanout, event, heartbeat
    and long-service tables that removes what is finished and returns the numbers
    of rows, or only returns them (a dry run). *)

From S2P Require Import Prelude CausalTime Contracts EventStore JobStore JobLifecycle RecordStore.

Record RuntimeRows := mkRuntimeRows {
  rr_jobs : JobTables;
  rr_fanouts : table FanoutRecord;
  rr_services : table LongServiceRecord;
  rr_events : EventTables }.

(** The dictionary the call returns. *)
Record CleanupCounts := mkCounts {
  cc_artifacts : Z; cc_handoffs : Z; cc_runs : Z; cc_jobs : Z; cc_fanouts : Z; cc_events : Z;
  cc_worker_heartbeats : Z; cc_long_services : Z }.

(** [status.in_(terminal_statuses)] of a run; a run is never cancelled. *)
Definition terminal_run (r : RunRecord) : bool :=
  match r_status r with RCompleted | RFailed | RTimedOut => true | RRunning => false end.

(** ** The rows that go *)

Definition terminal_job_ids (project_id : option string) (t : RuntimeRows) : list string :=
  j_id <$> filter (λ j, is_terminal (j_status j) && where_eq project_id (j_project_id j) = true)
             (rows (jobs (rr_jobs t))).

(** Without a terminal job the runs are not restricted to jobs. *)
Definition run_in_scope (project_id : option string) (job_ids : list string) (r : RunRecord) : bool :=
  match job_ids with
  | [] => where_eq project_id (r_project_id r)
  | _ => bool_decide (r_job_id r ∈ job_ids)
  end.
Definition terminal_run_ids (project_id : option string) (t : RuntimeRows) : list string :=
  r_id <$> filter (λ r, terminal_run r
                        && run_in_scope project_id (terminal_job_ids project_id t) r = true)
             (rows (runs (rr_jobs t))).

(** [active_child] *)
Definition has_active_child (fanout_id : string) (t : RuntimeRows) : bool :=
  existsb (λ j, bool_decide (j_fanout_id j = Some fanout_id) && negb (is_terminal (j_status j)))
    (rows (jobs (rr_jobs t))).
Definition finished_fanout_ids (project_id : option string) (t : RuntimeRows) : list string :=
  filter (λ id, has_active_child id t = false)
    (f_id <$> filter (λ f, where_eq project_id (f_project_id f) = true) (rows (rr_fanouts t))).

Definition stopped_service (s : LongServiceRecord) : bool :=
  match ls_status s with LsFailed | LsStopped => true | _ => false end.
Definition unprobed_service (s : LongServiceRecord) : bool :=
  bool_decide (ls_status s = LsRegistered) && bool_decide (ls_last_probe_at s = None).
Definition idle_service_ids (project_id : option string) (include_unprobed : bool) (t : RuntimeRows)
    : list string :=
  let ids p := ls_id <$> filter (λ s, p s = true) (rows (rr_services t)) in
  let service_ids := remove_dups
    (ids stopped_service ++ if include_unprobed then ids unprobed_service else []) in
  match project_id with
  | None => service_ids
  | Some p => filter (λ id, id ∈ ids (λ s, bool_decide (ls_project_id s = Some p))) service_ids
  end.

Definition event_ids (project_id : option string) (t : RuntimeRows) : list string :=
  e_id <$> filter (λ e, where_eq project_id (e_project_id e) = true) (rows (events (rr_events t))).
Definition worker_heartbeat_ids (t : RuntimeRows) : list string :=
  hb_owner_id <$> filter (λ h, bool_decide (hb_owner_type h = OwnerWorker) = true)
                    (rows (heartbeats (rr_events t))).

(** ** The call *)

Definition cleanup_counts (project_id : option string) (include_unprobed : bool) (t : RuntimeRows)
    : CleanupCounts :=
  let run_ids := terminal_run_ids project_id t in
  let number {A} (l : list A) := Z.of_nat (length l) in
  mkCounts
    (number (filter (λ a, a.1 ∈ run_ids) (artifacts (rr_jobs t))))
    (number (filter (λ h, h.1 ∈ run_ids) (handoffs (rr_jobs t))))
    (number run_ids) (number (terminal_job_ids project_id t))
    (number (finished_fanout_ids project_id t)) (number (event_ids project_id t))
    (number (worker_heartbeat_ids t)) (number (idle_service_ids project_id include_unprobed t)).

(** [DELETE ... WHERE key IN ids], over a table with that key. *)
Definition delete_ids {R} (key : R → string) (ids : list string) (t : table R) : table R :=
  delete_rows (λ r, bool_decide (key r ∈ ids)) t.
Definition drop_ids {A} (ids : list string) (l : list (string * A)) : list (string * A) :=
  filter (λ x, x.1 ∉ ids) l.

Definition cleaned (project_id : option string) (include_unprobed : bool) (t : RuntimeRows)
    : RuntimeRows :=
  let run_ids := terminal_run_ids project_id t in
  let tables := rr_jobs t in
  mkRuntimeRows
    (mkJobTables (delete_ids j_id (terminal_job_ids project_id t) (jobs tables))
       (delete_ids r_id run_ids (runs tables))
       (drop_ids run_ids (artifacts tables)) (drop_ids run_ids (handoffs tables)))
    (delete_ids f_id (finished_fanout_ids project_id t) (rr_fanouts t))
    (delete_ids ls_id (idle_service_ids project_id include_unprobed t) (rr_services t))
    (mkEventTables (delete_ids e_id (event_ids project_id t) (events (rr_events t)))
       (event_sequence (rr_events t))
       (delete_ids hb_owner_id (worker_heartbeat_ids t) (heartbeats (rr_events t)))).

Definition cleanup_runtime_rows (project_id : option string) (dry_run include_unprobed : bool)
    : M RuntimeRows CleanupCounts :=
  atomic (
    let* counts := gets (cleanup_counts project_id include_unprobed) in
    if dry_run then ret counts
    else
      do* modify (cleaned project_id include_unprobed) in
      ret counts).

(** ** Lemmas: deleting by id *)

Section ids.
Context {R : Type} (key : R → string).
Implicit Types (t : table R) (ids : list string).

(** Every row is stored under its own id. *)
Definition keyed t : Prop := map_Forall (λ k r, key r = k) t.

Lemma lookup_delete_ids ids t k r :
  keyed t → delete_ids key ids t !! k = Some r ↔ t !! k = Some r ∧ k ∉ ids.
Proof.
  intros Hkey. unfold delete_ids. rewrite lookup_delete_rows, bool_decide_eq_false.
  split; intros [Hk Hn]; (split; [done|]); by rewrite (Hkey k r Hk) in *.
Qed.

Lemma elem_of_ids (p : R → bool) t k r :
  keyed t → t !! k = Some r → k ∈ key <$> filter (λ r, p r = true) (rows t) ↔ p r = true.
Proof.
  intros Hkey Hk. rewrite list_elem_of_fmap. split.
  - intros (x & Hx & [Hp [k' Hk']%elem_of_rows]%list_elem_of_filter).
    rewrite (Hkey k' x Hk') in Hx. by simplify_eq.
  - intros Hp. exists r. rewrite (Hkey k r Hk). split; [done|]. apply list_elem_of_filter.
    split; [done|]. apply elem_of_rows. eauto.
Qed.

Lemma ids_are_keys (p : R → bool) t k :
  keyed t → k ∈ key <$> filter (λ r, p r = true) (rows t) → is_Some (t !! k).
Proof.
  intros Hkey (x & -> & [_ [k' Hk']%elem_of_rows]%list_elem_of_filter)%list_elem_of_fmap.
  rewrite (Hkey k' x Hk'). eauto.
Qed.

Lemma ids_NoDup (p : R → bool) t :
  keyed t → NoDup (key <$> filter (λ r, p r = true) (rows t)).
Proof.
  intros Hkey. apply NoDup_fmap_2_strong; [|by apply NoDup_filter, (rows_NoDup key)].
  intros x y [_ [k1 H1]%elem_of_rows]%list_elem_of_filter [_ [k2 H2]%elem_of_rows]%list_elem_of_filter.
  rewrite (Hkey k1 x H1), (Hkey k2 y H2). intros ->. congruence.
Qed.

(** As many rows go as there are ids. *)
Lemma delete_ids_size ids t :
  keyed t → NoDup ids → (∀ k, k ∈ ids → is_Some (t !! k)) →
  Z.of_nat (length ids) = Z.of_nat (size t) - Z.of_nat (size (delete_ids key ids t)).
Proof.
  intros Hkey Hnd Hin. assert (dom t = dom (delete_ids key ids t) ∪ list_to_set ids) as Hdom.
  { apply set_eq. intros k. rewrite elem_of_union, elem_of_list_to_set, !elem_of_dom. split.
    - intros [r Hr]. destruct (decide (k ∈ ids)); [by right|left]. exists r. by apply lookup_delete_ids.
    - intros [[r [Hr _]%lookup_delete_ids]|?]; eauto. }
  assert (dom (delete_ids key ids t) ## (list_to_set ids : gset string)) as Hdisj.
  { intros k Hk Hin'. apply elem_of_dom in Hk as [r Hr]. apply lookup_delete_ids in Hr as [_ Hr]; [|done].
    by apply elem_of_list_to_set in Hin'. }
  rewrite <- !size_dom, Hdom, size_union, size_list_to_set by done. lia.
Qed.
End ids.

(** ** Lemmas: the ids of each table *)

Record rows_ok (t : RuntimeRows) : Prop := {
  ok_tables : tables_ok (rr_jobs t);
  ok_fanouts : keyed f_id (rr_fanouts t);
  ok_services : keyed ls_id (rr_services t);
  ok_log : log_ok (rr_events t);
  ok_heartbeats : keyed hb_owner_id (heartbeats (rr_events t))
}.

Lemma jobs_keyed t : rows_ok t → keyed j_id (jobs (rr_jobs t)).
Proof. intros [[Hj _] _ _ _ _] k j Hk. by apply (Hj k j). Qed.
Lemma runs_keyed t : rows_ok t → keyed r_id (runs (rr_jobs t)).
Proof. intros [[_ Hr] _ _ _ _] k r Hk. by apply (Hr k r). Qed.

Definition doomed_job (project_id : option string) (j : JobRecord) : bool :=
  is_terminal (j_status j) && where_eq project_id (j_project_id j).
Definition doomed_fanout (project_id : option string) (t : RuntimeRows) (f : FanoutRecord) : bool :=
  where_eq project_id (f_project_id f) && negb (has_active_child (f_id f) t).
Definition doomed_service (project_id : option string) (include_unprobed : bool)
    (s : LongServiceRecord) : bool :=
  (stopped_service s || include_unprobed && unprobed_service s)
  && where_eq project_id (ls_project_id s).

Lemma finished_fanout_elem project_id t k f :
  rows_ok t → rr_fanouts t !! k = Some f →
  k ∈ finished_fanout_ids project_id t ↔ doomed_fanout project_id t f = true.
Proof.
  intros Hok Hk. unfold finished_fanout_ids, doomed_fanout.
  rewrite list_elem_of_filter, (elem_of_ids f_id _ _ _ _ (ok_fanouts t Hok) Hk), andb_true_iff, negb_true_iff.
  rewrite (ok_fanouts t Hok k f Hk). tauto.
Qed.

Lemma idle_service_elem project_id inc t k s :
  rows_ok t → rr_services t !! k = Some s →
  k ∈ idle_service_ids project_id inc t ↔ doomed_service project_id inc s = true.
Proof.
  intros Hok Hk. assert (∀ p, k ∈ ls_id <$> filter (λ s, p s = true) (rows (rr_services t)) ↔ p s = true)
    as Hids by (intros p; by apply elem_of_ids; [apply Hok|]).
  assert (k ∈ remove_dups ((ls_id <$> filter (λ s, stopped_service s = true) (rows (rr_services t)))
      ++ if inc then ls_id <$> filter (λ s, unprobed_service s = true) (rows (rr_services t)) else [])
    ↔ stopped_service s || inc && unprobed_service s = true) as Hall.
  { rewrite elem_of_remove_dups, elem_of_app, Hids, orb_true_iff. destruct inc; simpl; [by rewrite Hids|].
    split; (intros [?|Hno]; [by left|]); [by apply not_elem_of_nil in Hno|done]. }
  unfold idle_service_ids, doomed_service. rewrite andb_true_iff. destruct project_id as [p|]; simpl.
  - rewrite list_elem_of_filter, Hall, (Hids (λ s, bool_decide (ls_project_id s = Some p))).
    rewrite !bool_decide_eq_true. split; intros [? ?]; split; congruence.
  - rewrite Hall. tauto.
Qed.

Lemma finished_fanout_ids_ok project_id t :
  rows_ok t → NoDup (finished_fanout_ids project_id t)
  ∧ ∀ k, k ∈ finished_fanout_ids project_id t → is_Some (rr_fanouts t !! k).
Proof.
  intros Hok. split; [by apply NoDup_filter, ids_NoDup, Hok|].
  intros k [_ Hk]%list_elem_of_filter. eapply (ids_are_keys f_id); [apply Hok|exact Hk].
Qed.

Lemma idle_service_ids_ok project_id inc t :
  rows_ok t → NoDup (idle_service_ids project_id inc t)
  ∧ ∀ k, k ∈ idle_service_ids project_id inc t → is_Some (rr_services t !! k).
Proof.
  intros Hok. unfold idle_service_ids. set (l := remove_dups _).
  assert (NoDup l ∧ ∀ k, k ∈ l → is_Some (rr_services t !! k)) as [Hnd Hin].
  { split; [apply NoDup_remove_dups|]. intros k [Hk|Hk]%elem_of_remove_dups%elem_of_app.
    - eapply (ids_are_keys ls_id); [apply Hok|exact Hk].
    - destruct inc; [eapply (ids_are_keys ls_id); [apply Hok|exact Hk]|by apply not_elem_of_nil in Hk]. }
  destruct project_id; [|done]. split; [by apply NoDup_filter|].
  intros k [_ Hk]%list_elem_of_filter. auto.
Qed.

Lemma terminal_run_elem project_id t k r :
  rows_ok t → runs (rr_jobs t) !! k = Some r →
  k ∈ terminal_run_ids project_id t
  ↔ terminal_run r && run_in_scope project_id (terminal_job_ids project_id t) r = true.
Proof.
  intros Hok Hk. unfold terminal_run_ids.
  exact (elem_of_ids r_id (λ r, terminal_run r && run_in_scope project_id (terminal_job_ids project_id t) r)
    _ _ _ (runs_keyed t Hok) Hk).
Qed.

(** ** Theorems *)

(** The table after the call holds exactly the rows that are not doomed. *)
Definition keeps_rest {R} (doomed : R → bool) (t t' : table R) : Prop :=
  ∀ k r, t' !! k = Some r ↔ t !! k = Some r ∧ doomed r = false.
Definition removed {R} (t t' : table R) : Z := Z.of_nat (size t) - Z.of_nat (size t').

Lemma delete_ids_keeps {R} (key : R → string) (doomed : R → bool) ids t :
  keyed key t → (∀ k r, t !! k = Some r → k ∈ ids ↔ doomed r = true) →
  keeps_rest doomed t (delete_ids key ids t).
Proof.
  intros Hkey Hids k r. rewrite lookup_delete_ids by done. split; intros [Hk Hn]; (split; [done|]).
  - apply not_true_is_false. by rewrite <- (Hids k r Hk).
  - rewrite (Hids k r Hk). congruence.
Qed.

Lemma keeps_rest_Forall {R} (doomed : R → bool) (P : string → R → Prop) t t' :
  keeps_rest doomed t t' → map_Forall P t → map_Forall P t'.
Proof. intros Hk HP k r [Hr _]%Hk. by apply HP. Qed.

Definition doomed_run (project_id : option string) (t : RuntimeRows) (r : RunRecord) : bool :=
  terminal_run r && run_in_scope project_id (terminal_job_ids project_id t) r.
Definition doomed_event (project_id : option string) (e : EventRecord) : bool :=
  where_eq project_id (e_project_id e).
Definition worker_heartbeat (h : HeartbeatRecord) : bool :=
  bool_decide (hb_owner_type h = OwnerWorker).

(** What the transaction leaves in each table. *)
Record cleanup_leaves (project_id : option string) (inc : bool) (t t' : RuntimeRows) : Prop := {
  cl_jobs : keeps_rest (doomed_job project_id) (jobs (rr_jobs t)) (jobs (rr_jobs t'));
  cl_runs : keeps_rest (doomed_run project_id t) (runs (rr_jobs t)) (runs (rr_jobs t'));
  cl_fanouts : keeps_rest (doomed_fanout project_id t) (rr_fanouts t) (rr_fanouts t');
  cl_services : keeps_rest (doomed_service project_id inc) (rr_services t) (rr_services t');
  cl_events : keeps_rest (doomed_event project_id) (events (rr_events t)) (events (rr_events t'));
  cl_heartbeats : keeps_rest worker_heartbeat (heartbeats (rr_events t)) (heartbeats (rr_events t'));
  cl_children : ∀ rid r, runs (rr_jobs t') !! rid = Some r →
    filter (λ a, a.1 = rid) (artifacts (rr_jobs t')) = filter (λ a, a.1 = rid) (artifacts (rr_jobs t))
    ∧ filter (λ h, h.1 = rid) (handoffs (rr_jobs t')) = filter (λ h, h.1 = rid) (handoffs (rr_jobs t));
  cl_counter : event_sequence (rr_events t') = event_sequence (rr_events t)
}.

Lemma drop_ids_filter {A} ids (l : list (string * A)) rid :
  rid ∉ ids → filter (λ x, x.1 = rid) (drop_ids ids l) = filter (λ x, x.1 = rid) l.
Proof.
  intros Hno. unfold drop_ids. rewrite list_filter_filter. apply list_filter_iff. intros x. split; [tauto|].
  intros Hx. split; [done|]. by rewrite Hx.
Qed.

Lemma cleaned_leaves project_id inc t :
  rows_ok t → cleanup_leaves project_id inc t (cleaned project_id inc t).
Proof.
  intros Hok. pose proof (jobs_keyed t Hok) as Hj. pose proof (runs_keyed t Hok) as Hr. split; simpl; try done.
  - apply delete_ids_keeps; [done|]. intros k j Hk.
    exact (elem_of_ids j_id (doomed_job project_id) _ _ _ Hj Hk).
  - apply delete_ids_keeps; [done|]. intros k r Hk. by apply terminal_run_elem.
  - apply delete_ids_keeps; [apply Hok|]. intros k f Hk. by apply finished_fanout_elem.
  - apply delete_ids_keeps; [apply Hok|]. intros k s Hk. by apply idle_service_elem.
  - apply delete_ids_keeps; [apply Hok|]. intros k e Hk.
    exact (elem_of_ids e_id (doomed_event project_id) _ _ _ (lo_key _ (ok_log t Hok)) Hk).
  - apply delete_ids_keeps; [apply Hok|]. intros k h Hk.
    exact (elem_of_ids hb_owner_id worker_heartbeat _ _ _ (ok_heartbeats t Hok) Hk).
  - intros rid r Hrid. apply lookup_delete_ids in Hrid as [_ Hno]; [|done].
    by rewrite !drop_ids_filter.
Qed.

Lemma leaves_ok project_id inc t t' : rows_ok t → cleanup_leaves project_id inc t t' → rows_ok t'.
Proof.
  intros [[Hj Hr] Hf Hs [Hk Hc Hrange Hu Hca] Hh] [Lj Lr Lf Ls Le Lh _ Lc]. split.
  - split; by eapply keeps_rest_Forall.
  - by eapply keeps_rest_Forall.
  - by eapply keeps_rest_Forall.
  - assert (∀ e, e ∈ rows (events (rr_events t')) → e ∈ rows (events (rr_events t))) as Hsub.
    { intros e [k [He _]%Le]%elem_of_rows. apply elem_of_rows. eauto. }
    split; rewrite ?Lc; eauto. by eapply keeps_rest_Forall.
  - by eapply keeps_rest_Forall.
Qed.

Lemma cleanup_counts_removed project_id inc t :
  rows_ok t →
  let c := cleanup_counts project_id inc t in let t' := cleaned project_id inc t in
  cc_jobs c = removed (jobs (rr_jobs t)) (jobs (rr_jobs t'))
  ∧ cc_runs c = removed (runs (rr_jobs t)) (runs (rr_jobs t'))
  ∧ cc_fanouts c = removed (rr_fanouts t) (rr_fanouts t')
  ∧ cc_long_services c = removed (rr_services t) (rr_services t')
  ∧ cc_events c = removed (events (rr_events t)) (events (rr_events t'))
  ∧ cc_worker_heartbeats c = removed (heartbeats (rr_events t)) (heartbeats (rr_events t'))
  ∧ cc_artifacts c = Z.of_nat (length (artifacts (rr_jobs t))) - Z.of_nat (length (artifacts (rr_jobs t')))
  ∧ cc_handoffs c = Z.of_nat (length (handoffs (rr_jobs t))) - Z.of_nat (length (handoffs (rr_jobs t'))).
Proof.
  intros Hok. pose proof (jobs_keyed t Hok) as Hj. pose proof (runs_keyed t Hok) as Hr.
  assert (∀ A ids (l : list (string * A)), Z.of_nat (length (filter (λ x, x.1 ∈ ids) l))
    = Z.of_nat (length l) - Z.of_nat (length (drop_ids ids l))) as Hchildren.
  { intros A ids l. unfold drop_ids. induction l as [|x l IH]; [done|]. rewrite !filter_cons.
    destruct (decide (x.1 ∈ ids)); [rewrite decide_False by tauto|rewrite decide_True by done];
      simpl; lia. }
  unfold removed. simpl. split_and!; try apply Hchildren; apply delete_ids_size; try done; try apply Hok.
  all: try by apply ids_NoDup; try apply Hok.
  all: try by (intros k; eapply ids_are_keys; try apply Hok).
  - by apply finished_fanout_ids_ok.
  - by apply finished_fanout_ids_ok.
  - by apply idle_service_ids_ok.
  - by apply idle_service_ids_ok.
Qed.

(** A dry run changes nothing and returns the very numbers the real call
    returns; the real call returns, for each table, the number of rows it removed,
    and leaves exactly the rows that are not doomed: no queued, leased, running or
    retrying job goes, no running run, no fanout with an unfinished job, no running
    service, no scheduler heartbeat, nothing of another project (worker heartbeats
    have no project and all go), and the artifacts and handoffs of a run that stays
    stay; the tables stay well formed and the event counter goes on, so later
    events are still numbered after the deleted ones. *)
Theorem cleanup_runtime_rows_spec project_id inc t :
  rows_ok t →
  ∃ c t',
    cleanup_runtime_rows project_id true inc t = (t, Ok c)
    ∧ cleanup_runtime_rows project_id false inc t = (t', Ok c)
    ∧ cleanup_leaves project_id inc t t' ∧ rows_ok t'
    ∧ cc_jobs c = removed (jobs (rr_jobs t)) (jobs (rr_jobs t'))
    ∧ cc_runs c = removed (runs (rr_jobs t)) (runs (rr_jobs t'))
    ∧ cc_fanouts c = removed (rr_fanouts t) (rr_fanouts t')
    ∧ cc_long_services c = removed (rr_services t) (rr_services t')
    ∧ cc_events c = removed (events (rr_events t)) (events (rr_events t'))
    ∧ cc_worker_heartbeats c = removed (heartbeats (rr_events t)) (heartbeats (rr_events t'))
    ∧ cc_artifacts c
      = Z.of_nat (length (artifacts (rr_jobs t))) - Z.of_nat (length (artifacts (rr_jobs t')))
    ∧ cc_handoffs c
      = Z.of_nat (length (handoffs (rr_jobs t))) - Z.of_nat (length (handoffs (rr_jobs t'))).
Proof.
  intros Hok. exists (cleanup_counts project_id inc t), (cleaned project_id inc t).
  split; [done|]. split; [done|]. pose proof (cleaned_leaves project_id inc t Hok) as Hleaves.
  split; [done|]. split; [by eapply leaves_ok|]. by apply cleanup_counts_removed.
Qed.

(** ** Concrete instances *)

(** One finished job with its run, and one that is waiting for its retry after a
    failed run. *)
Definition done_job : JobRecord := set_job JCompleted None None None 1 None (sample_job "a" 200 2).
Definition retrying_job : JobRecord := set_job JRetrying None None None 1 (Some "boom") (sample_job "b" 200 2).
Definition history : RuntimeRows :=
  mkRuntimeRows
    (mkJobTables (<["a" := done_job]> {[ "b" := retrying_job ]})
       (<["ra" := sample_run "ra" "a" 1 RCompleted 3 (Some 4) None]>
          {[ "rb" := sample_run "rb" "b" 1 RFailed 3 (Some 4) None ]}) [] [])
    ∅ ∅ empty_event_tables.

Lemma history_ok : rows_ok history.
Proof.
  assert (∀ id s n e, is_active s = false → 0 ≤ n →
    job_ok id (set_job s None None None n e (sample_job id 200 2))) as Hjob.
  { intros id s n e Hs Hn. split; simpl; rewrite ?Hs; [done|..|done|by destruct s];
      by split; [intros [? ?]|]. }
  split; [split|apply map_Forall_empty|apply map_Forall_empty|apply empty_log_ok|apply map_Forall_empty].
  - apply map_Forall_insert_2; [by apply Hjob|]. apply map_Forall_singleton. by apply Hjob.
  - apply map_Forall_insert_2; [|apply map_Forall_singleton];
      (split; simpl; [done|intros ? [= <-]; lia|by eexists]).
Qed.

Lemma cleanup_runtime_rows_spec_witness :
  ∃ c t', cleanup_runtime_rows (Some "p1") false true history = (t', Ok c)
    ∧ jobs (rr_jobs t') !! "b" = Some retrying_job ∧ jobs (rr_jobs t') !! "a" = None.
Proof.
  destruct (cleanup_runtime_rows_spec (Some "p1") true history history_ok)
    as (c & t' & _ & Hrun & [Hjobs _ _ _ _ _ _ _] & _).
  exists c, t'. split; [exact Hrun|]. split; [by apply Hjobs|].
  destruct (jobs (rr_jobs t') !! "a") as [j|] eqn:Hj; [|done].
  apply Hjobs in Hj as [Hj Hno]. simpl in Hj. injection Hj as <-. discriminate.
Defined.

(** Without a finished job the runs are not restricted to jobs: the failed run of a
    job that is still to be retried goes too. *)
Definition unfinished_history : RuntimeRows :=
  mkRuntimeRows
    (mkJobTables {[ "b" := retrying_job ]}
       {[ "rb" := sample_run "rb" "b" 1 RFailed 3 (Some 4) None ]} [] [])
    ∅ ∅ empty_event_tables.
Example cleanup_drops_active_run :
  let t' := (cleanup_runtime_rows None false true unfinished_history).1 in
  jobs (rr_jobs t') !! "b" = Some retrying_job ∧ runs (rr_jobs t') !! "rb" = None.
Proof. split; reflexivity. Qed.
