(* ===== verification/Api.v ===== *)
(** * The HTTP control plane: its state and its gate ([src/src/goblin_king/api.py])

    [create_app] closes its handlers over one [AppState] and one store.  [ApiWorld]
    is that store: the tables the scheduler works on ([World]), identity, the
    directory's catalog and the registered services, with a lens per component.  A
    handler is a call on it that returns the response's record or raises the
    [HTTPException] FastAPI turns into an error reply; parsing a request body is
    Pydantic's, so a handler starts from the typed request.

    This file holds what every handler starts with: the bearer token, the rate limit,
    the role and the project. *)

From S2P Require Import Prelude CausalTime Contracts ResourcePolicies EventStore JobStore JobLifecycle RecordStore Auth Registry World Repository Cleanup.

(** ** State *)

Record ApiWorld := mkApi {
  a_world : World;
  a_entries : table RepositoryEntryRecord;
  a_versions : table RepositoryVersionRecord;
  a_notebook_services : table NotebookServiceRecord;
  a_services : table LongServiceRecord;
  a_users : table UserRecord;
  a_projects : table ProjectRecord;
  a_tokens : table ApiTokenRecord;
  a_rates : table RateLimitRecord;
  a_randoms : nat;
  a_hub_requests : nat;
  a_hub_cache : gmap string (utc * dict)
}.

Definition world_lens : lens ApiWorld World :=
  Lens a_world (λ w a, mkApi w (a_entries a) (a_versions a) (a_notebook_services a) (a_services a)
    (a_users a) (a_projects a) (a_tokens a) (a_rates a) (a_randoms a) (a_hub_requests a) (a_hub_cache a)).

Definition put_notebooks (t : table NotebookGoblinRecord) (w : World) : World :=
  mkWorld (w_process w) (w_events w) (w_jobs w) (w_schedules w) (w_fanouts w) (w_validations w) t
    (w_audit w).
(** The catalog and the notebook records it generates. *)
Definition repo_lens : lens ApiWorld RepoTables :=
  Lens (λ a, mkRepo (a_entries a) (a_versions a) (w_notebooks (a_world a)) (a_notebook_services a))
    (λ t a, mkApi (put_notebooks (repo_goblins t) (a_world a)) (entries t) (versions t)
       (repo_services t) (a_services a) (a_users a) (a_projects a) (a_tokens a) (a_rates a)
       (a_randoms a) (a_hub_requests a) (a_hub_cache a)).
Definition auth_lens : lens ApiWorld AuthState :=
  Lens (λ a, mkAuthState (w_process (a_world a)) (a_users a) (a_projects a) (a_tokens a)
               (w_audit (a_world a)) (a_rates a) (a_randoms a) (a_hub_requests a) (a_hub_cache a))
    (λ s a, let w := a_world a in
       mkApi (mkWorld (au_process s) (w_events w) (w_jobs w) (w_schedules w) (w_fanouts w)
                (w_validations w) (w_notebooks w) (au_audit s))
         (a_entries a) (a_versions a) (a_notebook_services a) (a_services a)
         (au_users s) (au_projects s) (au_tokens s) (au_rates s) (au_randoms s)
         (au_hub_requests s) (au_hub_cache s)).
(** What the cleanup of history deletes from. *)
Definition rows_lens : lens ApiWorld RuntimeRows :=
  Lens (λ a, let w := a_world a in mkRuntimeRows (w_jobs w) (w_fanouts w) (a_services a) (w_events w))
    (λ t a, let w := a_world a in
       mkApi (mkWorld (w_process w) (rr_events t) (rr_jobs t) (w_schedules w) (rr_fanouts t)
                (w_validations w) (w_notebooks w) (w_audit w))
         (a_entries a) (a_versions a) (a_notebook_services a) (rr_services t)
         (a_users a) (a_projects a) (a_tokens a) (a_rates a) (a_randoms a) (a_hub_requests a)
         (a_hub_cache a)).

Definition a_process_lens : lens ApiWorld Process := lens_compose world_lens w_process_lens.
Definition a_bus_lens : lens ApiWorld Bus := lens_compose world_lens w_bus_lens.
Definition a_audited_lens : lens ApiWorld Audited := lens_compose world_lens w_audited_lens.
Definition a_jobs_lens : lens ApiWorld JobTables := lens_compose world_lens w_jobs_lens.
Definition a_schedules_lens : lens ApiWorld (table ScheduleRecord) :=
  lens_compose world_lens w_schedules_lens.

(** The settings the handlers read. *)
Record ApiSettings := mkApiSettings {
  st_bootstrap_admin_token : string;
  st_default_project_id : option string;
  st_rate_limit_per_minute : Z;
  st_oidc : option OidcConfig;
  st_jupyterhub : option JupyterHubConfig;
  st_repository_enabled : bool;
  st_notebook_function_image : string;
  st_notebook_service_image : string
}.

(** [AppState]: the settings and what discovery loaded. *)
Record AppState := mkAppState {
  settings : ApiSettings;
  registry : Registry;
  workers : WorkerImageMap;
  resource_policies : option ResourcePolicySet
}.

Definition PageMeta : Type := Z * Z * Z.    (* limit, offset, count *)
Definition page_meta {A} (limit offset : Z) (items : list A) : PageMeta :=
  (limit, offset, Z.of_nat (length items)).

(** [raise HTTPException(404, ...)] when nothing was found. *)
Definition found_or_404 {S A} (o : option A) (detail : string) : M S A :=
  match o with Some x => ret x | None => raise (HTTPException 404 detail) end.

Section gate.
Context `{Sqlite} `{Env} `{Crypto} `{Jwt} `{Hub}.
Context (state : AppState).

Definition audit_api (action outcome : string) (principal : option Principal)
    (project_id resource_type resource_id : option string) (detail : dict) : M ApiWorld unit :=
  zoom a_audited_lens (audit action outcome principal project_id resource_type resource_id detail).

Definition denied_detail (route reason : string) : dict :=
  {[ "route" := JStr route; "reason" := JStr reason ]}.

(** What the handlers end with. *)
Definition emit_api (event_type : string) (payload : dict)
    (project_id job_id fanout_id schedule_id worker_id : option string) (after : option utc)
    : M ApiWorld unit :=
  do* zoom a_bus_lens (emit event_type
        (mkEmit SrcApi payload project_id job_id None fanout_id schedule_id worker_id None after)) in
  ret tt.
Definition audit_success (action : string) (principal : Principal) (project_id : option string)
    (resource_type resource_id : string) (detail : dict) : M ApiWorld unit :=
  audit_api action "success" (Some principal) project_id (Some resource_type) (Some resource_id) detail.
Definition now_api : M ApiWorld utc := zoom a_process_lens utc_now.
Definition uuid_api : M ApiWorld string := zoom a_process_lens new_uuid.

(** [require_principal]: [credentials] is the bearer token, if there is one. *)
Definition require_principal (route : string) (credentials : option string) : M ApiWorld Principal :=
  match credentials with
  | None =>
      do* audit_api "auth.failure" "denied" None None None None (denied_detail route "missing token") in
      raise (HTTPException 401 "missing or invalid bearer token")
  | Some token =>
      try_catch
        (let* principal := zoom auth_lens
           (authenticate_token token (st_bootstrap_admin_token (settings state))
              (st_oidc (settings state)) (st_jupyterhub (settings state))) in
         do* zoom auth_lens
           (check_rate_limit principal route (st_rate_limit_per_minute (settings state))) in
         ret principal)
        (λ e, match e with
              | AuthError msg code =>
                  do* audit_api "auth.failure" "denied" None None None None
                        (denied_detail route msg) in
                  raise (HTTPException code msg)
              | RateLimitExceeded msg => raise (HTTPException 429 msg)
              | _ => raise e
              end)
  end.

Definition require_admin_principal (principal : Principal) : M ApiWorld Principal :=
  match require_admin principal with
  | Ok _ => ret principal
  | Err (AuthError msg code) =>
      do* audit_api "auth.forbidden" "denied" (Some principal) None None None
            {[ "reason" := JStr msg ]} in
      raise (HTTPException code msg)
  | Err e => raise e
  end.

(** [requested or principal.project_id or settings.default_project_id] *)
Definition requested_project (principal : Principal) (requested_project_id : option string)
    : option string :=
  or_opt (or_opt requested_project_id (pr_project_id principal))
    (st_default_project_id (settings state)).

Definition project_for_request (principal : Principal) (requested_project_id : option string)
    : M ApiWorld (option string) :=
  let project_id := requested_project principal requested_project_id in
  match require_project_access principal project_id with
  | Ok _ => ret project_id
  | Err (AuthError msg code) =>
      do* audit_api "project.access_denied" "denied" (Some principal) project_id None None ∅ in
      raise (HTTPException code msg)
  | Err e => raise e
  end.

(** The project of a run: its job's, or its own when the job is gone. *)
Definition run_project (run : RunRecord) (t : JobTables) : option string :=
  match get_job (r_job_id run) t with
  | Some job => j_project_id job
  | None => r_project_id run
  end.
Definition project_id_for_run (run : RunRecord) (a : ApiWorld) : option string :=
  run_project run (w_jobs (a_world a)).

Definition run_for_principal (run_id : string) (principal : Principal) : M ApiWorld RunRecord :=
  let* found := gets (λ a, get_run run_id (w_jobs (a_world a))) in
  let* run := lift_result found in
  let* run := found_or_404 run ("run not found: " +:+ run_id) in
  let* project := gets (project_id_for_run run) in
  do* project_for_request principal project in
  ret run.
End gate.

(** ** Lemmas: lenses *)

Ltac destruct_states :=
  repeat match goal with
  | a : ApiWorld |- _ => destruct a | w : World |- _ => destruct w
  | s : AuthState |- _ => destruct s | t : RepoTables |- _ => destruct t
  | t : RuntimeRows |- _ => destruct t | b : Bus |- _ => destruct b
  | x : Audited |- _ => destruct x
  end.

#[export] Instance world_lens_lawful : LawfulLens world_lens.
Proof. split; intros; by destruct_states. Qed.
#[export] Instance repo_lens_lawful : LawfulLens repo_lens.
Proof. split; intros; by destruct_states. Qed.
#[export] Instance auth_lens_lawful : LawfulLens auth_lens.
Proof. split; intros; by destruct_states. Qed.
#[export] Instance rows_lens_lawful : LawfulLens rows_lens.
Proof. split; intros; by destruct_states. Qed.

(** ** Lemmas: the gate *)

Section gate_lemmas.
Context (state : AppState).

(** A caller who is not an admin gets no other project than their own. *)
Lemma require_project_access_ok p q :
  require_project_access p q = Ok tt → is_admin p = false →
  q = pr_project_id p ∧ is_Some (pr_project_id p).
Proof.
  unfold require_project_access. intros Hok Hadm. rewrite Hadm in Hok.
  destruct (bool_decide (pr_project_id p = None)) eqn:Hn; [done|].
  destruct (bool_decide (q = pr_project_id p)) eqn:Hq; [|done].
  apply bool_decide_eq_true in Hq. apply bool_decide_eq_false in Hn.
  split; [done|]. by destruct (pr_project_id p).
Qed.

Lemma require_project_access_cases p q :
  require_project_access p q = Ok tt ∨ require_project_access p q = Err (AuthError "project access denied" 403).
Proof.
  unfold require_project_access. destruct (is_admin p); [by left|].
  destruct (_ || _); [by right|by left].
Qed.

(** A request that gets past it changed nothing. *)
Lemma project_for_request_ok `{Env} p requested a a' q :
  project_for_request state p requested a = (a', Ok q) →
  a' = a ∧ (is_admin p = false → q = pr_project_id p ∧ is_Some (pr_project_id p)).
Proof.
  unfold project_for_request. set (project := requested_project state p requested).
  destruct (require_project_access_cases p project) as [E|E]; rewrite E.
  - intros [= <- <-]. split; [done|]. by apply require_project_access_ok.
  - intros (a1 & [] & _ & H1)%bind_ok. done.
Qed.
Lemma require_admin_ok `{Env} p a a' p' :
  require_admin_principal p a = (a', Ok p') → a' = a ∧ p' = p ∧ is_admin p = true.
Proof.
  unfold require_admin_principal, require_admin. destruct (is_admin p); simpl.
  - by intros [= <- <-].
  - intros (a1 & [] & _ & H1)%bind_ok. done.
Qed.
End gate_lemmas.
