(* ===== verification/ApiJobs.v ===== *)
(** * The HTTP handlers of jobs, runs, fanouts, schedules and events ([src/src/goblin_king/api.py])

    One definition per handler, its dependency [principal] an argument, and the
    helpers of [api_runtime.py] and [api_schedules.py] they share.  [ApiTenancy] puts
    the gate in front and dispatches typed requests.

    Query texts that name no status match nothing and are not represented, nor is a
    PATCH with an explicit null for a column that cannot hold one. *)

From S2P Require Import Prelude CausalTime Contracts ResourcePolicies EventStore JobStore JobLifecycle RecordStore Auth Registry World Validation Scheduler Fanout Repository Cleanup Api.

(** ** Requests *)

Record JobCreateRequest := mkJobRequest {
  jc_kind : string; jc_input : dict; jc_priority : Z; jc_project_id : option string;
  jc_correlation_id : option string; jc_max_retries : Z; jc_timeout_seconds : option Z }.

Record ScheduleCreateRequest := mkScheduleRequest {
  sr_kind : string; sr_cron : string; sr_input : dict; sr_timezone : string;
  sr_project_id : option string; sr_enabled : bool; sr_priority : Z; sr_max_retries : Z;
  sr_timeout_seconds : option Z; sr_due_now : bool }.

(** The fields that were sent. *)
Record SchedulePatchRequest := mkSchedulePatch {
  sp_cron : option string; sp_input : option dict; sp_timezone : option string;
  sp_enabled : option bool; sp_priority : option Z; sp_max_retries : option Z;
  sp_timeout_seconds : option (option Z) }.

(** Parsing a cron expression and finding a time zone: [None] when they succeed. *)
Class CronParser := {
  croniter_parse : string → option exn;
  zone_info : string → option exn
}.
Definition is_exn (names : list string) (e : exn) : bool := bool_decide (exn_name e ∈ names).

Section handlers.
Context `{Sqlite} `{Env} `{Pydantic} `{Floats} `{Workers} `{CronParser}.
Context (state : AppState).

(** [api_runtime.effective_policy] *)
Definition effective_policy (kind : string) (timeout_seconds max_retries : option Z)
    : result (option ResourcePolicy) :=
  match resource_policies state with
  | None => Ok None
  | Some ps => let? p := effective_for ps kind timeout_seconds max_retries in Ok (Some p)
  end.

(** [api_runtime.record_policy_rejection] *)
Definition record_policy_rejection (principal : Principal) (project_id : option string)
    (kind error : string) : M ApiWorld unit :=
  let detail : dict := {[ "kind" := JStr kind; "error" := JStr error ]} in
  do* emit_api "resource_policy.rejected" detail project_id None None None None None in
  audit_api "resource_policy.rejected" "failure" (Some principal) project_id
    (Some "resource_policy") None detail.

(** [except ResourcePolicyError: record the rejection, 422] *)
Definition policy_or_422 {A} (principal : Principal) (project_id : option string) (kind : string)
    (r : result A) : M ApiWorld A :=
  match r with
  | Ok x => ret x
  | Err (ResourcePolicyError msg) =>
      do* record_policy_rejection principal project_id kind msg in
      raise (HTTPException 422 msg)
  | Err e => raise e
  end.

(** ** Jobs *)

(** The registry's goblin, or the notebook goblin of that kind. *)
Definition queue_source (kind : string)
    : M ApiWorld (GoblinDefinition * option NotebookGoblinRecord) :=
  match registry_get (registry state) kind with
  | Ok definition => ret (definition, None)
  | Err (RegistryError msg) =>
      let* record := gets (λ a, get_notebook_goblin kind (w_notebooks (a_world a))) in
      let* record := found_or_404 record msg in
      ret (notebook_definition record, Some record)
  | Err e => raise e
  end.

(** [a or b] on numbers *)
Definition or_number (a b : Z) : Z := if a =? 0 then b else a.
Definition or_timeout (a b : option Z) : option Z :=
  match a with Some n => if n =? 0 then b else a | None => b end.

Definition notebook_job_metadata (definition : GoblinDefinition) (r : NotebookGoblinRecord) : dict :=
  <["goblin_source" := JStr "notebook"]>
    (<["notebook_source_hash" := JStr (ng_source_hash r)]>
      (<["notebook_function_name" := JStr (ng_function_name r)]>
        (goblin_job_metadata definition None))).

(** What the job runs with: metadata, retries and timeout. *)
Definition queue_terms (principal : Principal) (project_id : option string) (request : JobCreateRequest)
    (definition : GoblinDefinition) (notebook_record : option NotebookGoblinRecord)
    : M ApiWorld (dict * Z * option Z) :=
  match notebook_record with
  | Some record =>
      do* raise_if (match jc_project_id request with
                    | Some p => negb (bool_decide (Some p = ng_project_id record))
                    | None => false end)
            (HTTPException 403 "notebook goblin cannot be submitted outside its project") in
      ret (notebook_job_metadata definition record,
           or_number (jc_max_retries request) (ng_max_retries record),
           or_timeout (jc_timeout_seconds request) (ng_timeout_seconds record))
  | None =>
      let* policy := policy_or_422 principal project_id (gd_kind definition)
        (effective_policy (gd_kind definition) (jc_timeout_seconds request)
           (Some (jc_max_retries request))) in
      ret (goblin_job_metadata definition policy,
           policy_retries policy (jc_max_retries request),
           policy_timeout policy (jc_timeout_seconds request))
  end.

Definition repository_metadata (entry : RepositoryEntryRecord) (version : RepositoryVersionRecord)
    (metadata : dict) : dict :=
  list_to_map [("goblin_source", JStr "repository"); ("repository_entry_id", JStr (re_id entry));
               ("repository_name", JStr (re_name entry));
               ("repository_version", JInt (rv_version version));
               ("repository_source_hash", JStr (rv_source_hash version))] ∪ metadata.

Definition queued_job (id : string) (created_at : utc) (created_by : string) (kind : string)
    (project_id : option string) (request : JobCreateRequest) (metadata : dict) (retries : Z)
    (timeout : option Z) : JobRecord :=
  mkJob id kind (jc_input request) created_at created_by (jc_correlation_id request) project_id None
    metadata JQueued (jc_priority request) None (Some created_at) None None 0 retries timeout None.

Definition _queue_job (request : JobCreateRequest) (principal : Principal)
    (repository : option (RepositoryEntryRecord * RepositoryVersionRecord)) : M ApiWorld JobRecord :=
  let* (definition, notebook_record) := queue_source (jc_kind request) in
  let* project_id := project_for_request state principal
    (or_opt (jc_project_id request)
       (match notebook_record with Some r => ng_project_id r | None => None end)) in
  let* (metadata, retries, timeout) :=
    queue_terms principal project_id request definition notebook_record in
  let metadata := match repository with
                  | Some (entry, version) => repository_metadata entry version metadata
                  | None => metadata
                  end in
  let* created_at := now_api in
  let* id := uuid_api in
  let job := queued_job id created_at (pr_user_id principal) (gd_kind definition) project_id request
               metadata retries timeout in
  do* zoom a_jobs_lens (save_job job) in
  do* emit_api "job.queued" {[ "kind" := JStr (j_kind job); "created_by" := JStr (j_created_by job) ]}
        project_id (Some (j_id job)) None None None (Some (j_created_at job)) in
  do* audit_success "job.created" principal project_id "job" (j_id job) ∅ in
  ret job.

Definition create_job (request : JobCreateRequest) (principal : Principal) : M ApiWorld JobRecord :=
  _queue_job request principal None.

Definition list_jobs (limit offset : Z) (status : option JobStatus) (project_id : option string)
    (principal : Principal) : M ApiWorld (list JobRecord * PageMeta) :=
  let* scoped_project := project_for_request state principal project_id in
  let* items := gets (λ a, list_jobs_page scoped_project status limit offset (w_jobs (a_world a))) in
  ret (items, page_meta limit offset items).

(** The job of a path parameter, within the caller's reach. *)
Definition job_for_principal (job_id : string) (principal : Principal) : M ApiWorld JobRecord :=
  let* found := gets (λ a, JobStore.get_job job_id (w_jobs (a_world a))) in
  let* job := found_or_404 found ("job not found: " +:+ job_id) in
  do* project_for_request state principal (j_project_id job) in
  ret job.

Definition get_job (job_id : string) (principal : Principal) : M ApiWorld JobRecord :=
  job_for_principal job_id principal.

Definition job_is_terminal (status : JobStatus) : exn :=
  HTTPException 409 ("job is terminal: " +:+ job_status_str status).

Definition cancel_job (job_id : string) (principal : Principal) : M ApiWorld JobRecord :=
  let* before := job_for_principal job_id principal in
  do* raise_if (is_terminal (j_status before)) (job_is_terminal (j_status before)) in
  let* (cancelled, changed) := zoom a_jobs_lens (try_cancel_job job_id) in
  let* cancelled := found_or_404 cancelled ("job not found: " +:+ job_id) in
  do* raise_if (negb changed) (job_is_terminal (j_status cancelled)) in
  do* emit_api "job.cancelled" {[ "kind" := JStr (j_kind cancelled) ]} (j_project_id cancelled)
        (Some (j_id cancelled)) (j_fanout_id cancelled) (j_schedule_id cancelled) None
        (Some (j_created_at cancelled)) in
  do* audit_success "job.cancelled" principal (j_project_id cancelled) "job" (j_id cancelled) ∅ in
  ret cancelled.

(** ** Fanouts and retries *)

(** [for job in detail.jobs: emit("job.queued")] *)
Definition emit_fanout_jobs (project_id : option string) (jobs : list JobRecord) : M ApiWorld unit :=
  forM_ jobs (λ job,
    emit_api "job.queued" {[ "kind" := JStr (j_kind job); "created_by" := JStr (j_created_by job) ]}
      project_id (Some (j_id job)) (j_fanout_id job) None None (Some (j_created_at job))).

Definition create_jobs_fanout (request : FanoutCreateRequest) (principal : Principal)
    : M ApiWorld FanoutDetail :=
  let* project_id := project_for_request state principal None in
  try_catch
    (let* detail := zoom world_lens
       (create_fanout (registry state) request (pr_user_id principal) project_id
          (resource_policies state)) in
     do* emit_api "fanout.created"
           {[ "jobs" := JList (JStr ∘ j_id <$> fd_jobs detail);
              "count" := JInt (Z.of_nat (length (fd_jobs detail))) ]}
           project_id None (Some (f_id (fd_fanout detail))) None None None in
     do* emit_fanout_jobs project_id (fd_jobs detail) in
     do* audit_success "fanout.created" principal project_id "fanout" (f_id (fd_fanout detail)) ∅ in
     ret detail)
    (λ e, match e with RegistryError msg => raise (HTTPException 404 msg) | _ => raise e end).

Definition get_fanouts (principal : Principal) : M ApiWorld (list FanoutDetail) :=
  let* found := gets (λ a, list_fanout_details (a_world a)) in
  let* details := lift_result found in
  ret (if is_admin principal && bool_decide (pr_project_id principal = None) then details
       else filter (λ d, f_project_id (fd_fanout d) = pr_project_id principal) details).

Definition get_fanout (fanout_id : string) (principal : Principal) : M ApiWorld FanoutDetail :=
  try_catch
    (let* found := gets (λ a, fanout_detail fanout_id (a_world a)) in
     let* detail := lift_result found in
     do* project_for_request state principal (f_project_id (fd_fanout detail)) in
     ret detail)
    (λ e, match e with
          | KeyError _ => raise (HTTPException 404 ("fanout not found: " +:+ fanout_id))
          | _ => raise e
          end).

(** The body of the [try], with the source job read once more by [retry_job]. *)
Definition retry_in_project (job_id : string) (request : RetryCreateRequest) (principal : Principal)
    : M ApiWorld JobRecord :=
  let* found := gets (λ a, JobStore.get_job job_id (w_jobs (a_world a))) in
  let* source := (match found with Some j => ret j | None => raise (KeyError job_id) end) in
  do* project_for_request state principal (j_project_id source) in
  let* retry := zoom world_lens
    (retry_job job_id request (pr_user_id principal) (resource_policies state)) in
  do* emit_api "job.retry_queued"
        {[ "kind" := JStr (j_kind retry); "source_job_id" := JStr job_id;
           "reason" := JOptStr (rr_reason request) ]}
        (j_project_id retry) (Some (j_id retry)) (j_fanout_id retry) None None (Some (j_created_at retry)) in
  do* audit_success "job.retry_queued" principal (j_project_id retry) "job" (j_id retry) ∅ in
  ret retry.

(** [source] is what the [try] block bound it to: nothing before the first read. *)
Definition retry_api_job (job_id : string) (request : RetryCreateRequest) (principal : Principal)
    : M ApiWorld JobRecord :=
  let* source := gets (λ a, JobStore.get_job job_id (w_jobs (a_world a))) in
  try_catch (retry_in_project job_id request principal)
    (λ e, match e with
          | KeyError _ => raise (HTTPException 404 ("job not found: " +:+ job_id))
          | ResourcePolicyError msg =>
              do* record_policy_rejection principal (source ≫= j_project_id)
                    (match source with Some j => j_kind j | None => job_id end) msg in
              raise (HTTPException 422 msg)
          | _ => if is_value_error e then raise (HTTPException 409 (exn_str e)) else raise e
          end).

(** ** Schedules *)

Definition validate_cron (value : string) : result unit :=
  match croniter_parse value with
  | None => Ok tt
  | Some e => if is_value_error e || is_exn ["CroniterBadCronError"] e
              then Err (HTTPException 422 ("invalid cron expression: " +:+ value)) else Err e
  end.
Definition validate_timezone (value : string) : result unit :=
  match zone_info value with
  | None => Ok tt
  | Some e => if is_exn ["ZoneInfoNotFoundError"] e
              then Err (HTTPException 422 ("unknown timezone: " +:+ value)) else Err e
  end.

Definition set_next_run (next : utc) (s : ScheduleRecord) : ScheduleRecord :=
  mkSchedule (sc_id s) (sc_kind s) (sc_project_id s) (sc_input s) (sc_cron s) (sc_timezone s)
    (sc_enabled s) (sc_priority s) (sc_created_at s) next (sc_last_materialized_at s)
    (sc_max_retries s) (sc_timeout_seconds s).
Definition set_schedule_project (project_id : option string) (s : ScheduleRecord) : ScheduleRecord :=
  mkSchedule (sc_id s) (sc_kind s) project_id (sc_input s) (sc_cron s) (sc_timezone s)
    (sc_enabled s) (sc_priority s) (sc_created_at s) (sc_next_run_at s) (sc_last_materialized_at s)
    (sc_max_retries s) (sc_timeout_seconds s).

Definition schedule_from_request (request : ScheduleCreateRequest) : M ApiWorld ScheduleRecord :=
  let* definition :=
    (match registry_get (registry state) (sr_kind request) with
     | Ok d => ret d
     | Err (RegistryError msg) => raise (HTTPException 404 msg)
     | Err e => raise e
     end) in
  do* lift_result (validate_cron (sr_cron request)) in
  do* lift_result (validate_timezone (sr_timezone request)) in
  let* created_at := now_api in
  let* id := uuid_api in
  let provisional := mkSchedule id (gd_kind definition) None (sr_input request) (sr_cron request)
    (sr_timezone request) (sr_enabled request) (sr_priority request) created_at created_at None
    (sr_max_retries request) (sr_timeout_seconds request) in
  let* next := lift_result (if sr_due_now request then Ok created_at
                            else next_run_after provisional created_at) in
  ret (set_next_run next provisional).

Definition create_schedule (request : ScheduleCreateRequest) (principal : Principal)
    : M ApiWorld ScheduleRecord :=
  let* project_id := project_for_request state principal (sr_project_id request) in
  let* schedule := schedule_from_request request in
  let schedule := set_schedule_project project_id schedule in
  do* policy_or_422 principal project_id (sc_kind schedule)
        (effective_policy (sc_kind schedule) (sc_timeout_seconds schedule)
           (Some (sc_max_retries schedule))) in
  do* zoom a_schedules_lens (save_schedule schedule) in
  do* emit_api "schedule.created"
        {[ "kind" := JStr (sc_kind schedule); "next_run_at" := JStr (isoformat (sc_next_run_at schedule)) ]}
        project_id None None (Some (sc_id schedule)) None None in
  do* audit_success "schedule.created" principal project_id "schedule" (sc_id schedule) ∅ in
  ret schedule.

Definition list_schedules (principal : Principal) : M ApiWorld (list ScheduleRecord) :=
  let* schedules := gets (λ a, RecordStore.list_schedules (w_schedules (a_world a))) in
  ret (if is_admin principal && bool_decide (pr_project_id principal = None) then schedules
       else filter (λ s, sc_project_id s = pr_project_id principal) schedules).

(** [schedule.model_copy(update=request.model_dump(exclude_unset=True))] *)
Definition patched_schedule (request : SchedulePatchRequest) (s : ScheduleRecord) : ScheduleRecord :=
  mkSchedule (sc_id s) (sc_kind s) (sc_project_id s) (default (sc_input s) (sp_input request))
    (default (sc_cron s) (sp_cron request)) (default (sc_timezone s) (sp_timezone request))
    (default (sc_enabled s) (sp_enabled request)) (default (sc_priority s) (sp_priority request))
    (sc_created_at s) (sc_next_run_at s) (sc_last_materialized_at s)
    (default (sc_max_retries s) (sp_max_retries request))
    (default (sc_timeout_seconds s) (sp_timeout_seconds request)).
Definition changed_timing (request : SchedulePatchRequest) : bool :=
  opt_truthy (sp_cron request) || opt_truthy (sp_timezone request) || opt_truthy (sp_enabled request).

Definition patch_schedule (schedule_id : string) (request : SchedulePatchRequest) (principal : Principal)
    : M ApiWorld ScheduleRecord :=
  let* found := gets (λ a, get_schedule schedule_id (w_schedules (a_world a))) in
  let* schedule := found_or_404 found ("schedule not found: " +:+ schedule_id) in
  do* project_for_request state principal (sc_project_id schedule) in
  do* lift_result (validate_cron (default (sc_cron schedule) (sp_cron request))) in
  do* lift_result (validate_timezone (default (sc_timezone schedule) (sp_timezone request))) in
  let patched := patched_schedule request schedule in
  let* patched :=
    (if changed_timing request then
       let* now := now_api in
       let* next := lift_result (next_run_after patched now) in
       ret (set_next_run next patched)
     else ret patched) in
  do* zoom a_schedules_lens (update_schedule patched) in
  do* emit_api "schedule.updated"
        {[ "kind" := JStr (sc_kind patched); "enabled" := JBool (sc_enabled patched) ]}
        (sc_project_id patched) None None (Some (sc_id patched)) None None in
  ret patched.

(** ** Events, heartbeats, runs *)

Definition list_events (q : EventQuery) (principal : Principal)
    : M ApiWorld (list EventRecord * PageMeta) :=
  let* scoped_project := project_for_request state principal (q_project_id q) in
  let q' := mkEventQuery (q_limit q) (q_event_type q) (q_after_id q) (q_job_id q) (q_run_id q)
              (q_fanout_id q) (q_schedule_id q) (q_worker_id q) (q_scheduler_id q) scoped_project
              (q_offset q) in
  let* items := gets (λ a, EventStore.list_events q' (w_events (a_world a))) in
  ret (items, page_meta (q_limit q) (q_offset q) items).

Definition list_heartbeats : M ApiWorld (list HeartbeatRecord) :=
  gets (λ a, EventStore.list_heartbeats (w_events (a_world a))).
Definition get_heartbeat (owner_id : string) : M ApiWorld HeartbeatRecord :=
  let* found := gets (λ a, EventStore.get_heartbeat owner_id (w_events (a_world a))) in
  found_or_404 found ("heartbeat not found: " +:+ owner_id).

Definition get_run (run_id : string) (principal : Principal) : M ApiWorld RunRecord :=
  run_for_principal state run_id principal.

Definition list_runs (limit offset : Z) (status : option RunStatus) (kind project_id : option string)
    (principal : Principal) : M ApiWorld (list RunRecord * PageMeta) :=
  let* scoped_project := project_for_request state principal project_id in
  let* found := gets (λ a, list_runs_page scoped_project status kind limit offset (w_jobs (a_world a))) in
  let* items := lift_result found in
  ret (items, page_meta limit offset items).

(** Each artifact with its download link. *)
Definition list_run_artifacts (run_id : string) (principal : Principal)
    : M ApiWorld (list (ArtifactRecord * string)) :=
  do* run_for_principal state run_id principal in
  let* items := gets (λ a, JobStore.list_run_artifacts run_id (w_jobs (a_world a))) in
  ret ((λ x, (x, "/runs/" +:+ run_id +:+ "/artifacts/" +:+ a_name x)) <$> items).
End handlers.
