(* ===== verification/NotebookServices.v ===== *)
(** * Runtimes of notebook services ([notebook_services.py])

    The manager that runs an ASGI service written in a notebook as a Docker container or
    as a Deployment with a Service and a ConfigMap, waits until it answers, and stops it.
    Docker, the cluster, the HTTP client, the environment and the file system are the
    class [ServiceHost]: calls on an arbitrary state.  Timeouts are whole seconds. *)

From Stdlib Require Import Ascii.
From S2P Require Import Prelude CausalTime Contracts Text Paths PyValues EventStore JobStore ResourcePolicies Containers Auth Urls Registry World Polling Validation Attempts.

(** A response: status, headers and the bytes of its body. *)
Record HttpResponse := mkResponse { hr_status : Z; hr_headers : dict; hr_body : string }.

Class ServiceHost := {
  sh_environ : string → option string;
  sh_resolve : PosixPath → PosixPath;
  (** [mkdir(parents=True, exist_ok=True)], [write_text] *)
  sh_mkdir : PosixPath → M World unit;
  sh_write : PosixPath → string → M World unit;
  sh_run : list string → M World ProcessOutput;            (* subprocess.run *)
  sh_urlopen : string → M World HttpResponse;
  sh_json_loads : string → option Json;                    (* None: JSONDecodeError *)
  sh_sleep : Z → M World unit;                             (* microseconds *)
  (** [except (OSError, URLError, HTTPError)] *)
  sh_is_os_error : exn → bool;
  (** the cluster: loading a configuration, and calls with a namespace and a name *)
  sh_load_config : M World unit;
  sh_create_config_map : string → Json → M World unit;
  sh_create_deployment : string → Json → M World unit;
  sh_create_service : string → Json → M World unit;
  sh_available_replicas : string → string → M World (option Z);
  sh_delete_deployment : string → string → M World unit;
  sh_delete_service : string → string → M World unit;
  sh_delete_config_map : string → string → M World unit;
  sh_pods : string → string → M World (list string);
  sh_pod_log : string → string → Z → M World string;
  (** the status of an [ApiException] *)
  sh_api_status : exn → option Z
}.

Definition RUNNER_SOURCE_PATH : string := "/goblin-service/source.py".
Definition RUNNER_REQUIREMENTS_PATH : string := "/goblin-service/requirements.txt".
Definition KUBERNETES_RUNTIME_PATH : string := "/tmp/goblin-service-runtime".
Definition DEPENDENCY_PROXY_SETTING : string := "GOBLIN_KING_NOTEBOOK_SERVICE_DEPENDENCY_PROXY".

Definition NotebookServiceRuntimeError (msg : string) : exn := OtherException "NotebookServiceRuntimeError" msg.
Definition is_runtime_error (e : exn) : bool :=
  match e with OtherException n _ => String.eqb n "NotebookServiceRuntimeError" | _ => false end.

Record NotebookServiceRuntimeProof := mkProof {
  pf_backend : string; pf_name : string; pf_base_url : string; pf_probe : dict
}.
(** [model()] *)
Definition proof_model (p : NotebookServiceRuntimeProof) : Json :=
  JObj [("backend", JStr (pf_backend p)); ("name", JStr (pf_name p)); ("base_url", JStr (pf_base_url p));
        ("probe", JObj (map_to_list (pf_probe p)))].

Record NotebookServiceRuntimeManager := mkManager {
  nm_image : string; nm_runtime : string; nm_work_root : PosixPath; nm_docker : string;
  nm_namespace : string; nm_image_pull_policy : string
}.

(** ** Pure parts *)

Section pure.
Context `{ServiceHost}.

Definition _dependency_proxy_environment : result (list (string * string)) :=
  let value := strip (default EmptyString (sh_environ DEPENDENCY_PROXY_SETTING)) in
  if negb (truthy value) then Ok []
  else
    let? parsed := urlsplit_checked value in
    let refused := Err (NotebookServiceRuntimeError (DEPENDENCY_PROXY_SETTING +:+ " must be a credential-free HTTP(S) origin")) in
    if negb (bool_decide (url_scheme parsed ∈ ["http"; "https"])) then refused
    else match url_hostname parsed with
    | None => refused
    | Some hostname =>
        if opt_truthy (url_username parsed) || opt_truthy (url_password parsed)
           || negb (bool_decide (url_path_only parsed ∈ [EmptyString; "/"]))
           || truthy (url_query parsed) || truthy (url_fragment parsed)
        then refused
        else
          let? port := url_port parsed in
          let origin := url_scheme parsed +:+ "://" +:+ hostname
                        +:+ match port with Some p => ":" +:+ pretty p | None => EmptyString end in
          Ok [("HTTP_PROXY", origin); ("HTTPS_PROXY", origin); ("NO_PROXY", "127.0.0.1,localhost,.svc,.cluster.local")]
    end.

Definition _kubernetes_service_resources : Json :=
  JObj [("requests", JObj [("cpu", JStr "100m"); ("memory", JStr "64Mi")]);
        ("limits", JObj [("cpu", JStr "1"); ("memory", JStr "512Mi")])].
Definition _kubernetes_service_security_context : Json :=
  JObj [("allowPrivilegeEscalation", JBool false); ("capabilities", JObj [("drop", JList [JStr "ALL"])]);
        ("privileged", JBool false); ("readOnlyRootFilesystem", JBool true); ("runAsNonRoot", JBool true);
        ("runAsUser", JInt 65532); ("runAsGroup", JInt 65532)].
Definition _kubernetes_service_pod_security_context : Json :=
  JObj [("runAsNonRoot", JBool true); ("runAsUser", JInt 65532); ("runAsGroup", JInt 65532); ("fsGroup", JInt 65532);
        ("fsGroupChangePolicy", JStr "OnRootMismatch"); ("seccompProfile", JObj [("type", JStr "RuntimeDefault")])].

(** [base[:n]] for any [n] *)
Definition slice_to (n : Z) (l : list ascii) : list ascii :=
  if 0 <=? n then take (Z.to_nat n) l else take (Z.to_nat (Z.of_nat (length l) + n)) l.
Definition notebook_service_runtime_name (kind source_hash : string) (suffix : option string) : string :=
  let base := chars (kubernetes_name ("gk-nbsvc-" +:+ kind +:+ "-" +:+ text (take 12 (chars source_hash)))) in
  match suffix with
  | None => text (strip_hyphens (take 63 base))
  | Some suffix =>
      let suffix_part := chars (kubernetes_name suffix) in
      let max_base := 63 - Z.of_nat (length suffix_part) - 1 in
      text (strip_hyphens (strip_hyphens (slice_to max_base base) ++ hyphen :: suffix_part))
  end.

Definition _resolved_backend (m : NotebookServiceRuntimeManager) : string :=
  if negb (String.eqb (nm_runtime m) "auto") then nm_runtime m
  else if truthy_opt (sh_environ "KUBERNETES_SERVICE_HOST") then "kubernetes" else "docker".

Definition _kubernetes_labels (record : NotebookServiceRecord) (name : string) : list (string * Json) :=
  [("app.kubernetes.io/name", JStr "goblin-king"); ("app.kubernetes.io/component", JStr "notebook-service");
   ("goblin-king.io/notebook-service", JStr "true"); ("goblin-king.io/notebook-service-name", JStr name);
   ("goblin-king.io/source-hash", JStr (text (take 32 (chars (ns_source_hash record)))))].
Definition env_entry (kv : string * string) : Json := JObj [("name", JStr kv.1); ("value", JStr kv.2)].
Definition service_container (m : NotebookServiceRuntimeManager) (record : NotebookServiceRecord)
    (dependency_environment : list (string * string)) : Json :=
  JObj [("name", JStr "service"); ("image", JStr (nm_image m)); ("imagePullPolicy", JStr (nm_image_pull_policy m));
        ("ports", JList [JObj [("containerPort", JInt (ns_port record))]]);
        ("env", JList (env_entry <$> ([("GOBLIN_NOTEBOOK_SERVICE_APP", ns_app_name record);
           ("GOBLIN_NOTEBOOK_SERVICE_SOURCE", RUNNER_SOURCE_PATH);
           ("GOBLIN_NOTEBOOK_SERVICE_REQUIREMENTS", RUNNER_REQUIREMENTS_PATH); ("PORT", pretty (ns_port record));
           ("HOME", "/tmp"); ("PIP_TARGET", KUBERNETES_RUNTIME_PATH); ("PYTHONPATH", KUBERNETES_RUNTIME_PATH);
           ("PYTHONDONTWRITEBYTECODE", "1")] ++ dependency_environment)));
        ("resources", _kubernetes_service_resources); ("securityContext", _kubernetes_service_security_context);
        ("volumeMounts", JList [
           JObj [("name", JStr "bundle"); ("mountPath", JStr "/goblin-service"); ("readOnly", JBool true)];
           JObj [("name", JStr "runtime"); ("mountPath", JStr "/tmp")]])].
Definition _deployment_manifest (m : NotebookServiceRuntimeManager) (record : NotebookServiceRecord) (name : string)
    : result Json :=
  let labels := JObj (_kubernetes_labels record name) in
  let? dependency_environment := _dependency_proxy_environment in
  Ok (JObj [("apiVersion", JStr "apps/v1"); ("kind", JStr "Deployment");
    ("metadata", JObj [("name", JStr name); ("labels", labels)]);
    ("spec", JObj [("replicas", JInt 1);
      ("selector", JObj [("matchLabels", JObj [("goblin-king.io/notebook-service-name", JStr name)])]);
      ("template", JObj [("metadata", JObj [("labels", labels)]);
        ("spec", JObj [("automountServiceAccountToken", JBool false);
          ("securityContext", _kubernetes_service_pod_security_context);
          ("containers", JList [service_container m record dependency_environment]);
          ("volumes", JList [JObj [("name", JStr "bundle"); ("configMap", JObj [("name", JStr name)])];
             JObj [("name", JStr "runtime"); ("emptyDir", JObj [("sizeLimit", JStr "512Mi")])]])])])])]).
Definition _service_manifest (record : NotebookServiceRecord) (name : string) : Json :=
  JObj [("apiVersion", JStr "v1"); ("kind", JStr "Service");
    ("metadata", JObj [("name", JStr name); ("labels", JObj (_kubernetes_labels record name))]);
    ("spec", JObj [("selector", JObj [("goblin-king.io/notebook-service-name", JStr name)]);
      ("ports", JList [JObj [("name", JStr "http"); ("port", JInt (ns_port record)); ("targetPort", JInt (ns_port record))]])])].
Definition config_map_body (record : NotebookServiceRecord) (name : string) : Json :=
  JObj [("apiVersion", JStr "v1"); ("kind", JStr "ConfigMap");
    ("metadata", JObj [("name", JStr name); ("labels", JObj (_kubernetes_labels record name))]);
    ("data", JObj [("source.py", JStr (ns_source record)); ("requirements.txt", JStr (py_join newline (ns_requirements record)))])].

Definition _docker_bundle_volume_args (m : NotebookServiceRuntimeManager) (bundle_dir : PosixPath)
    : result (list string * string * string) :=
  let data_mount := default "/goblin-data" (sh_environ "GOBLIN_KING_DOCKER_DATA_MOUNT") in
  match sh_environ "GOBLIN_KING_DOCKER_DATA_VOLUME" with
  | Some data_volume =>
      if truthy data_volume then
        let data_root := parent (sh_resolve (nm_work_root m)) in
        match relative_to bundle_dir data_root with
        | None => Err (ValueError (as_posix bundle_dir +:+ " is not in the subpath of " +:+ as_posix data_root))
        | Some rel =>
            let bundle_rel := as_posix rel in
            Ok (["-v"; data_volume +:+ ":" +:+ data_mount +:+ ":ro"],
                data_mount +:+ "/" +:+ bundle_rel +:+ "/source.py", data_mount +:+ "/" +:+ bundle_rel +:+ "/requirements.txt")
        end
      else Ok (["-v"; as_posix bundle_dir +:+ ":/goblin-service:ro"], RUNNER_SOURCE_PATH, RUNNER_REQUIREMENTS_PATH)
  | None => Ok (["-v"; as_posix bundle_dir +:+ ":/goblin-service:ro"], RUNNER_SOURCE_PATH, RUNNER_REQUIREMENTS_PATH)
  end.
Definition docker_run_command (m : NotebookServiceRuntimeManager) (record : NotebookServiceRecord) (name : string)
    (volume_args : list string) (source_path requirements_path : string) (proxy : list (string * string)) : list string :=
  [nm_docker m; "run"; "-d"; "--name"; name; "--label"; "goblin-king.notebook-service=true";
   "--label"; "goblin-king.notebook-service-kind=" +:+ ns_kind record;
   "--label"; "goblin-king.notebook-service-source=" +:+ ns_source_hash record;
   "--add-host"; "host.docker.internal:host-gateway";
   "-e"; "GOBLIN_NOTEBOOK_SERVICE_APP=" +:+ ns_app_name record;
   "-e"; "GOBLIN_NOTEBOOK_SERVICE_SOURCE=" +:+ source_path;
   "-e"; "GOBLIN_NOTEBOOK_SERVICE_REQUIREMENTS=" +:+ requirements_path;
   "-e"; "PORT=" +:+ pretty (ns_port record)]
  ++ (match sh_environ "GOBLIN_KING_DOCKER_NETWORK" with
      | Some network => if truthy network then ["--network"; network] else ["-p"; "127.0.0.1::" +:+ pretty (ns_port record)]
      | None => ["-p"; "127.0.0.1::" +:+ pretty (ns_port record)]
      end)
  ++ concat ((λ kv, ["-e"; kv.1 +:+ "=" +:+ kv.2]) <$> proxy) ++ volume_args ++ [nm_image m; "serve"].
End pure.

(** ** The manager *)

Section manager.
Context `{Env} `{ServiceHost} (m : NotebookServiceRuntimeManager).

(** One turn of [probe_http]: the answer, or the last error after a second's sleep. *)
Definition probe_answer (r : HttpResponse) : result dict :=
  match utf8_decode (hr_body r) with
  | None => Err (OtherValueError "UnicodeDecodeError" "'utf-8' codec can't decode the body")
  | Some body =>
      let parsed := default (JStr body) (sh_json_loads body) in
      Ok (list_to_map [("ok", JBool ((200 <=? hr_status r) && (hr_status r <? 300))); ("status_code", JInt (hr_status r));
            ("headers", JObj (map_to_list (hr_headers r)));
            ("json", match parsed with JObj _ | JList _ => parsed | _ => JNull end);
            ("text", match parsed with JStr t => JStr t | _ => JStr body end)])
  end.
Definition probe_turn (url : string) (last_error : string) : M World (dict + string) :=
  try_catch
    (let* response := sh_urlopen url in
     let* answer := lift_result (probe_answer response) in
     ret (inl answer))
    (λ e, if sh_is_os_error e then do* sh_sleep 1000000 in ret (inr (exn_str e)) else raise e).
Definition OutOfFuel : exn := OtherException "OutOfFuel" EmptyString.
Definition probe_http (url : string) (timeout_seconds : Z) : M World dict :=
  let* started := zoom w_process_lens time_monotonic in
  let* out := poll w_process_lens (poll_fuel 1000000 (1000000 * timeout_seconds)) (started + 1000000 * timeout_seconds)
                (probe_turn url) "probe timed out" in
  match out with
  | Some (inl answer) => ret answer
  | Some (inr last_error) =>
      raise (NotebookServiceRuntimeError ("service probe failed for " +:+ url +:+ ": " +:+ last_error))
  | None => raise OutOfFuel
  end.

(** *** Docker *)

Definition docker (args : list string) : M World ProcessOutput := sh_run (nm_docker m :: args).
Definition remove_container (name : string) : M World unit := do* docker ["rm"; "-f"; name] in ret tt.
Definition _write_bundle (record : NotebookServiceRecord) (name : string) : M World PosixPath :=
  let bundle_dir := sh_resolve (path_join (nm_work_root m) (parse_path name)) in
  do* sh_mkdir bundle_dir in
  do* sh_write (path_join bundle_dir (parse_path "source.py")) (ns_source record) in
  do* sh_write (path_join bundle_dir (parse_path "requirements.txt"))
        (py_join newline (ns_requirements record)
         +:+ match ns_requirements record with [] => EmptyString | _ => newline end) in
  ret bundle_dir.
Definition _docker_logs (name : string) : M World string :=
  let* completed := docker ["logs"; name] in
  let logs := chars (strip (po_stdout completed +:+ po_stderr completed)) in
  ret (text (drop (length logs - 4000) logs)).
Definition _docker_host_port (name : string) (port : Z) : M World string :=
  let* completed := docker ["port"; name; pretty port +:+ "/tcp"] in
  do* raise_if (negb (po_code completed =? 0)) (NotebookServiceRuntimeError
        ("could not inspect Docker service port for " +:+ name +:+ ": " +:+ strip (po_stderr completed))) in
  match splitlines (strip (po_stdout completed)) with
  | [] => raise (OtherException "IndexError" "list index out of range")
  | mapping :: _ => ret (match rsplit_once ":" (chars mapping) with Some (_, port) => text port | None => mapping end)
  end.
Definition service_url (base_url : string) (record : NotebookServiceRecord) : string :=
  rstrip_slash base_url +:+ ns_probe_path record.
Definition _start_docker (record : NotebookServiceRecord) (name : string) (timeout_seconds : Z)
    : M World NotebookServiceRuntimeProof :=
  let* bundle_dir := _write_bundle record name in
  do* remove_container name in
  let* volumes := lift_result (_docker_bundle_volume_args m bundle_dir) in
  let '(volume_args, source_path, requirements_path) := volumes in
  let* proxy := lift_result _dependency_proxy_environment in
  let* completed := sh_run (docker_run_command m record name volume_args source_path requirements_path proxy) in
  do* raise_if (negb (po_code completed =? 0)) (NotebookServiceRuntimeError
        ("failed to start Docker notebook service " +:+ name +:+ ": " +:+ strip (po_stderr completed))) in
  let* base_url :=
    (if truthy_opt (sh_environ "GOBLIN_KING_DOCKER_NETWORK") then ret ("http://" +:+ name +:+ ":" +:+ pretty (ns_port record))
     else let* port := _docker_host_port name (ns_port record) in ret ("http://127.0.0.1:" +:+ port)) in
  let* probe := try_catch (probe_http (service_url base_url record) timeout_seconds)
    (λ e, if is_runtime_error e then
            let* logs := _docker_logs name in
            do* remove_container name in
            raise (NotebookServiceRuntimeError (exn_str e +:+ "; container logs: " +:+ logs))
          else raise e) in
  ret (mkProof "docker" name base_url probe).

(** *** Kubernetes *)

Definition ns : string := nm_namespace m.
Definition ignore_missing (delete : M World unit) : M World unit :=
  try_catch delete (λ e, match sh_api_status e with
                         | Some status => if status =? 404 then ret tt else raise e
                         | None => raise e
                         end).
Definition _delete_kubernetes_resources (name : string) : M World unit :=
  do* sh_load_config in
  do* ignore_missing (sh_delete_deployment ns name) in
  do* ignore_missing (sh_delete_service ns name) in
  ignore_missing (sh_delete_config_map ns name).
(** [name], then a poll of one second until a replica is available *)
Definition deployment_turn (name : string) (_ : unit) : M World (unit + unit) :=
  let* replicas := sh_available_replicas ns name in
  if 1 <=? default 0 replicas then ret (inl tt) else do* sh_sleep 1000000 in ret (inr tt).
Definition _wait_for_kubernetes_deployment (name : string) (timeout_seconds : Z) : M World unit :=
  let* started := zoom w_process_lens time_monotonic in
  let* out := poll w_process_lens (poll_fuel 1000000 (1000000 * timeout_seconds)) (started + 1000000 * timeout_seconds)
                (deployment_turn name) tt in
  match out with
  | Some (inl _) => ret tt
  | Some (inr _) =>
      raise (NotebookServiceRuntimeError ("kubernetes notebook service deployment did not become available: " +:+ name))
  | None => raise OutOfFuel
  end.
Definition _kubernetes_logs (name : string) : M World string :=
  try_catch
    (let* pods := sh_pods ns ("goblin-king.io/notebook-service-name=" +:+ name) in
     match pods with
     | [] => ret EmptyString
     | pod :: _ => sh_pod_log ns pod 80
     end)
    (λ e, ret ("could not read pod logs: " +:+ exn_str e)).
Definition kubernetes_objects (record : NotebookServiceRecord) (name : string) (timeout_seconds : Z)
    : M World (string * dict) :=
  do* _delete_kubernetes_resources name in
  do* sh_create_config_map ns (config_map_body record name) in
  let* deployment := lift_result (_deployment_manifest m record name) in
  do* sh_create_deployment ns deployment in
  do* sh_create_service ns (_service_manifest record name) in
  do* _wait_for_kubernetes_deployment name timeout_seconds in
  let base_url := "http://" +:+ name +:+ "." +:+ ns +:+ ".svc.cluster.local:" +:+ pretty (ns_port record) in
  let* probe := probe_http (service_url base_url record) timeout_seconds in
  ret (base_url, probe).
Definition _start_kubernetes (record : NotebookServiceRecord) (name : string) (timeout_seconds : Z)
    : M World NotebookServiceRuntimeProof :=
  do* sh_load_config in
  let* started := try_catch (kubernetes_objects record name timeout_seconds)
    (λ e, let* logs := _kubernetes_logs name in
          do* _delete_kubernetes_resources name in
          raise (NotebookServiceRuntimeError
            (if is_runtime_error e then exn_str e +:+ "; pod logs: " +:+ logs
             else "kubernetes notebook service start failed: " +:+ exn_str e +:+ "; pod logs: " +:+ logs))) in
  let '(base_url, probe) := started in
  ret (mkProof "kubernetes" name base_url probe).

(** *** Starting and stopping *)

Definition stop_by_backend (backend name : string) : M World unit :=
  if String.eqb backend "docker" then remove_container name
  else if String.eqb backend "kubernetes" then _delete_kubernetes_resources name
  else raise (NotebookServiceRuntimeError ("unsupported notebook service runtime: " +:+ backend)).
Definition start (record : NotebookServiceRecord) (name : option string) (timeout_seconds : Z)
    : M World NotebookServiceRuntimeProof :=
  let backend := _resolved_backend m in
  let runtime_name := match name with
    | Some n => if truthy n then n else notebook_service_runtime_name (ns_kind record) (ns_source_hash record) None
    | None => notebook_service_runtime_name (ns_kind record) (ns_source_hash record) None
    end in
  if String.eqb backend "kubernetes" then _start_kubernetes record runtime_name timeout_seconds
  else if String.eqb backend "docker" then _start_docker record runtime_name timeout_seconds
  else raise (NotebookServiceRuntimeError ("unsupported notebook service runtime: " +:+ backend)).
Definition validate (record : NotebookServiceRecord) (timeout_seconds : Z) : M World NotebookServiceRuntimeProof :=
  let name := notebook_service_runtime_name (ns_kind record) (ns_source_hash record) (Some "validate") in
  let* proof := start record (Some name) timeout_seconds in
  do* stop_by_backend (pf_backend proof) (pf_name proof) in
  ret proof.
(** The persisted runtime fields, when both are there *)
Definition persisted_runtime (record : NotebookServiceRecord) : option (string * string) :=
  match ns_runtime_backend record, ns_runtime_name record with
  | Some backend, Some name => if truthy backend && truthy name then Some (backend, name) else None
  | _, _ => None
  end.
Definition stop (record : NotebookServiceRecord) : M World dict :=
  match persisted_runtime record with
  | None => ret (list_to_map [("backend", JNull); ("name", JNull); ("stopped", JBool false); ("detail", JStr "no runtime")])
  | Some (backend, name) =>
      do* stop_by_backend backend name in
      ret (list_to_map [("backend", JStr backend); ("name", JStr name); ("stopped", JBool true)])
  end.
End manager.

(** ** A service that does not start leaves nothing in the cluster *)

(** What the cluster promises about the objects of one name: a deletion removes its
    object, brings no other back, and reports at most that there was none; loading the
    configuration works. *)
Class DeletionsWork `{ServiceHost} (namespace name : string) (no_deployment no_service no_map : World → Prop) : Prop := {
  dw_load : ∀ w, (sh_load_config w).2 = Ok tt;
  dw_deployment : ∀ w, no_deployment (sh_delete_deployment namespace name w).1;
  dw_service : ∀ w, no_service (sh_delete_service namespace name w).1;
  dw_map : ∀ w, no_map (sh_delete_config_map namespace name w).1;
  dw_keep_deployment : ∀ w, no_deployment w →
    no_deployment (sh_delete_service namespace name w).1 ∧ no_deployment (sh_delete_config_map namespace name w).1;
  dw_keep_service : ∀ w, no_service w → no_service (sh_delete_config_map namespace name w).1;
  dw_missing : ∀ w e, (sh_delete_deployment namespace name w).2 = Err e ∨ (sh_delete_service namespace name w).2 = Err e
    ∨ (sh_delete_config_map namespace name w).2 = Err e → sh_api_status e = Some 404
}.

Section cleanup.
Context `{Env} `{ServiceHost} (m : NotebookServiceRuntimeManager) (name : string).
Context (no_deployment no_service no_map : World → Prop).
Context `{!DeletionsWork (nm_namespace m) name no_deployment no_service no_map}.
Definition gone (w : World) : Prop := no_deployment w ∧ no_service w ∧ no_map w.

(** A deletion that may only miss its object returns, in the state it leaves. *)
Lemma ignore_missing_ok (delete : M World unit) w :
  (∀ e, (delete w).2 = Err e → sh_api_status e = Some 404) → ignore_missing delete w = ((delete w).1, Ok tt).
Proof.
  intros He. unfold ignore_missing, try_catch. destruct (delete w) as [w' [[]|e]]; [done|]. simpl in *. by rewrite He.
Qed.
Lemma delete_resources_gone w : ∃ w', _delete_kubernetes_resources m name w = (w', Ok tt) ∧ gone w'.
Proof.
  unfold _delete_kubernetes_resources, ns. pose proof (dw_load w) as Hl. unfold bind at 1.
  destruct (sh_load_config w) as [w1 x]. simpl in Hl. subst x. unfold bind at 1.
  rewrite ignore_missing_ok by (intros e He; apply (dw_missing w1); by left).
  pose proof (dw_deployment w1) as Hd. set (w2 := (sh_delete_deployment (nm_namespace m) name w1).1) in *.
  unfold bind. rewrite ignore_missing_ok by (intros e He; apply (dw_missing w2); by right; left).
  pose proof (dw_service w2) as Hs. pose proof (proj1 (dw_keep_deployment w2 Hd)) as Hd'.
  set (w3 := (sh_delete_service (nm_namespace m) name w2).1) in *.
  rewrite ignore_missing_ok by (intros e He; apply (dw_missing w3); by right; right).
  eexists. split; [done|]. split_and!; [exact (proj2 (dw_keep_deployment w3 Hd'))|by apply dw_keep_service|apply dw_map].
Qed.
Lemma kubernetes_logs_ok w : ∃ w' logs, _kubernetes_logs m name w = (w', Ok logs).
Proof. unfold _kubernetes_logs, try_catch. destruct (bind _ _ w) as [w' [logs|e]]; by eexists _, _. Qed.
Lemma start_kubernetes_failed record timeout w w' e :
  _start_kubernetes m record name timeout w = (w', Err e) → is_runtime_error e = true ∧ gone w'.
Proof.
  unfold _start_kubernetes. pose proof (dw_load w) as Hl. unfold bind at 1.
  destruct (sh_load_config w) as [w1 x]. simpl in Hl. subst x. unfold bind at 1, try_catch.
  destruct (kubernetes_objects m record name timeout w1) as [w2 [[base_url probe]|e']]; [done|].
  unfold bind at 1. destruct (kubernetes_logs_ok w2) as (w3 & logs & ->). unfold bind.
  destruct (delete_resources_gone w3) as (w4 & -> & Hgone). intros [= <- <-]. split; [reflexivity|exact Hgone].
Qed.
Lemma start_kubernetes_ok record timeout w w' p :
  _start_kubernetes m record name timeout w = (w', Ok p) → pf_backend p = "kubernetes" ∧ pf_name p = name.
Proof.
  unfold _start_kubernetes. intros (w2 & [] & _ & Hs)%bind_ok.
  by apply bind_ok in Hs as (w3 & [base probe] & _ & [= _ <-]).
Qed.
End cleanup.

(** C23: in a cluster whose deletions work, a notebook service that does not start leaves
    nothing behind: whatever raised, be it the manifest, an object that could not be
    created, the wait for a replica or the probe, the caller gets the manager's own
    error, and the Deployment, the Service and the ConfigMap are gone.  After a
    validation they are gone in any case. *)
Theorem service_start_cleans `{Env} `{ServiceHost} (m : NotebookServiceRuntimeManager) (record : NotebookServiceRecord)
    (no_deployment no_service no_map : World → Prop) (timeout : Z) :
  _resolved_backend m = "kubernetes" →
  let gone w := no_deployment w ∧ no_service w ∧ no_map w in
  let stable := notebook_service_runtime_name (ns_kind record) (ns_source_hash record) in
  (DeletionsWork (nm_namespace m) (stable None) no_deployment no_service no_map →
   ∀ w w' e, start m record None timeout w = (w', Err e) → is_runtime_error e = true ∧ gone w')
  ∧ (truthy (stable (Some "validate")) = true →
     DeletionsWork (nm_namespace m) (stable (Some "validate")) no_deployment no_service no_map →
     ∀ w w' x, validate m record timeout w = (w', x) → gone w').
Proof.
  intros Hbackend gone stable. split.
  - intros Hd w w' e. unfold start. rewrite Hbackend, String.eqb_refl. cbv beta iota zeta. intros Hs.
    by apply (start_kubernetes_failed m _ no_deployment no_service no_map) in Hs.
  - intros Hname Hd w w' x. unfold validate, start. rewrite Hbackend. fold stable. rewrite Hname, String.eqb_refl. cbv beta iota zeta. unfold bind at 1.
    destruct (_start_kubernetes m record (stable (Some "validate")) timeout w) as [w1 [p|e]] eqn:Hs.
    2:{ intros [= <- _]. by eapply start_kubernetes_failed. }
    apply start_kubernetes_ok in Hs as [-> ->].
    unfold stop_by_backend. change (String.eqb "kubernetes" "docker") with false. rewrite String.eqb_refl.
    cbv beta iota. unfold bind.
    destruct (delete_resources_gone m (stable (Some "validate")) no_deployment no_service no_map w1) as (w4 & -> & Hgone).
    by intros [= <- _].
Qed.

(** ** Waiting ends *)

Class HostSleeps `{Env} `{ServiceHost} : Prop := {
  hs_forward : ∀ i j, (i ≤ j)%nat → monotonic_clock i ≤ monotonic_clock j;
  hs_sleep : ∀ t w w' i, sh_sleep t w = (w', Ok tt) → (i < reads w)%nat →
    monotonic_clock i + t ≤ monotonic_clock (reads w');
  hs_open :: ∀ url, Within reads_grow (sh_urlopen url);
  hs_replicas :: ∀ namespace name, Within reads_grow (sh_available_replicas namespace name)
}.
(** After [m], a sleep. *)
Lemma sleeps_after `{Env} `{ServiceHost} `{!HostSleeps} {A B C} (m : M World A) (x : C) (w w1 w' : World) i (b : B + C) :
  Within reads_grow m → (m w).1 = w1 → (do* sh_sleep 1000000 in ret (inr x)) w1 = (w', Ok b) → (i < reads w)%nat →
  monotonic_clock i + 1000000 ≤ monotonic_clock (reads w').
Proof.
  intros Hm <- (w2 & [] & Hs & [= <- _])%bind_ok Hi. specialize (Hm w). unfold reads_grow in Hm.
  apply (hs_sleep _ _ _ i Hs). lia.
Qed.
(** The two waits of the manager end.  If sleeping takes its time and the clock does
    not go back, neither the probe of a service nor the wait for its Deployment spends
    the fuel of one turn per second, whatever the network and the cluster answer. *)
Theorem service_waits_end `{Env} `{ServiceHost} `{!HostSleeps} (m : NotebookServiceRuntimeManager) (url name : string)
    (timeout : Z) (w : World) :
  let started := monotonic_clock (reads w) in
  let w1 := (zoom w_process_lens time_monotonic w).1 in
  (poll w_process_lens (poll_fuel 1000000 (1000000 * timeout)) (started + 1000000 * timeout) (probe_turn url) "probe timed out" w1).2 ≠ Ok None
  ∧ (poll w_process_lens (poll_fuel 1000000 (1000000 * timeout)) (started + 1000000 * timeout) (deployment_turn m name) tt w1).2 ≠ Ok None.
Proof.
  cbv zeta. destruct (monotonic_reading w) as (w1 & -> & Hreads). simpl fst.
  assert (Hstart : monotonic_clock (reads w) ≤ monotonic_clock (reads w1)) by (apply hs_forward; lia).
  split; (apply (poll_with_fuel w_process_lens 1000000); [lia| |done|done]).
  - intros b w2 w3 b' i. unfold probe_turn, try_catch.
    destruct (bind (sh_urlopen url) _ w2) as [w4 [r|e]] eqn:Hb.
    { intros [= -> ->]. apply bind_ok in Hb as (? & ? & _ & Hb). by apply bind_ok in Hb as (? & ? & _ & ?). }
    destruct (sh_is_os_error e); [|done]. intros Hs.
    eapply (sleeps_after (let* response := sh_urlopen url in let* answer := lift_result (probe_answer response) in ret (inl answer : dict + string)));
      [solve_within|by rewrite Hb|exact Hs].
  - intros b w2 w3 b' i. unfold deployment_turn. intros (w4 & replicas & Hr & Hk)%bind_ok.
    destruct (1 <=? _); [done|]. eapply (sleeps_after (sh_available_replicas (ns m) name)); [apply _|by rewrite Hr|exact Hk].
Qed.

(** ** Runtime names are labels *)

Definition label_char (c : ascii) : bool := Ascii.eqb c hyphen || (alphanumeric c && Ascii.eqb (lower_char c) c).
Abbreviation labels l := (Forall (λ c, label_char c = true) l).

Lemma drop_hyphens_suffix l : ∃ k, l = k ++ drop_hyphens l.
Proof.
  induction l as [|c l [k IH]]; [by exists []|]. simpl. destruct (Ascii.eqb c hyphen); [|by exists []].
  exists (c :: k). simpl. by rewrite <- IH.
Qed.
Lemma drop_hyphens_head l c : head (drop_hyphens l) = Some c → c ≠ hyphen.
Proof. induction l as [|x l IH]; [done|]. simpl. destruct (Ascii.eqb_spec x hyphen); [done|]. by intros [= ->]. Qed.
Lemma drop_hyphens_last l c : c ≠ hyphen → ∃ k, drop_hyphens (l ++ [c]) = k ++ [c].
Proof.
  intros Hc. induction l as [|x l [k IH]]; simpl.
  - destruct (Ascii.eqb_spec c hyphen); [done|]. by exists [].
  - destruct (Ascii.eqb x hyphen); [by exists k|]. by exists (x :: l).
Qed.
(** Stripping takes a part of the text. *)
Lemma strip_hyphens_part l : ∃ a b, l = a ++ strip_hyphens l ++ b.
Proof.
  unfold strip_hyphens. destruct (drop_hyphens_suffix l) as [a Ha]. destruct (drop_hyphens_suffix (rev (drop_hyphens l))) as [b Hb].
  exists a, (rev b). rewrite Ha at 1. f_equal. rewrite <- (rev_involutive (drop_hyphens l)) at 1. rewrite Hb at 1. by rewrite rev_app_distr.
Qed.
Lemma strip_hyphens_length l : (length (strip_hyphens l) ≤ length l)%nat.
Proof. destruct (strip_hyphens_part l) as (a & b & Hl). rewrite Hl at 2. rewrite !length_app. lia. Qed.
Lemma strip_hyphens_labels l : labels l → labels (strip_hyphens l).
Proof.
  destruct (strip_hyphens_part l) as (a & b & Hl). rewrite Hl at 1. intros H.
  by apply Forall_app in H as [_ [H _]%Forall_app].
Qed.
Lemma last_of_rev {A} (l : list A) : last (rev l) = head l.
Proof. destruct l; [done|]. simpl. by rewrite last_snoc. Qed.
Lemma strip_hyphens_last l c : last (strip_hyphens l) = Some c → c ≠ hyphen.
Proof. unfold strip_hyphens. rewrite last_of_rev. apply drop_hyphens_head. Qed.
Lemma strip_hyphens_keeps c l : c ≠ hyphen → ∃ k, strip_hyphens (c :: l) = c :: k.
Proof.
  intros Hc. unfold strip_hyphens. simpl. destruct (Ascii.eqb_spec c hyphen); [done|]. simpl.
  destruct (drop_hyphens_last (rev l) c Hc) as [k ->]. exists (rev k). by rewrite rev_app_distr.
Qed.

Lemma labels_take n l : labels l → labels (take n l).
Proof. apply Forall_take. Qed.
Lemma labels_join ws : Forall (λ w, labels w) ws → labels (join_with hyphen ws).
Proof.
  induction 1 as [|w ws Hw Hws IH]; [done|]. simpl. destruct ws as [|w' ws]; [done|].
  apply Forall_app. split; [done|]. by constructor.
Qed.
Lemma labels_split l : labels l → Forall (λ w, labels w) (split_on hyphen l).
Proof.
  induction 1 as [|c l Hc Hl IH]; simpl; [by repeat constructor|]. destruct (Ascii.eqb c hyphen); [by constructor|].
  destruct (split_on hyphen l) as [|w ws]; [by repeat constructor|]. inversion IH; subst. by repeat constructor.
Qed.
Lemma lowered_label c : label_char (if alphanumeric (lower_char c) then lower_char c else hyphen) = true.
Proof.
  unfold label_char. destruct (alphanumeric (lower_char c)) eqn:Ha; [|done].
  by rewrite Ha, lower_char_idemp, Ascii.eqb_refl, orb_true_r.
Qed.
Lemma kubernetes_name_labels value : labels (chars (kubernetes_name value)) ∧ (length (chars (kubernetes_name value)) ≤ 63)%nat.
Proof.
  unfold kubernetes_name. set (lowered := _ <$> map lower_char (chars value)).
  assert (Hl : labels lowered).
  { subst lowered. apply Forall_fmap, Forall_map, Forall_true. intros c. apply lowered_label. }
  set (normalized := join_with hyphen _).
  assert (Hn : labels normalized).
  { subst normalized. apply labels_join, Forall_forall. intros w [_ Hw]%list_elem_of_filter.
    pose proof (labels_split _ Hl) as Hall. rewrite Forall_forall in Hall. by apply Hall. }
  destruct (truthy (text _)); [|split; [by repeat constructor|simpl; lia]]. rewrite chars_text. split.
  - by apply strip_hyphens_labels, labels_take.
  - pose proof (strip_hyphens_length (take 63 normalized)). rewrite length_take in *. lia.
Qed.

(** A name that begins with a word keeps its first letter. *)
Lemma kubernetes_name_starts c rest :
  Ascii.eqb (lower_char c) hyphen = false → alphanumeric (lower_char c) = true →
  ∃ k, chars (kubernetes_name (String c rest)) = lower_char c :: k.
Proof.
  intros Hne Ha. unfold kubernetes_name.
  change (chars (String c rest)) with (c :: chars rest). cbn [map fmap list_fmap]. rewrite Ha.
  set (lowered := _ <$> map lower_char (chars rest)). cbn [split_on]. rewrite Hne.
  assert (Hjoin : ∀ w ws, ∃ k, join_with hyphen ((lower_char c :: w) :: ws) = lower_char c :: k).
  { intros w ws. simpl. destruct ws; by eexists. }
  assert (Hsplit : ∃ w ws, (match split_on hyphen lowered with [] => [[lower_char c]] | w :: ws => (lower_char c :: w) :: ws end)
                           = (lower_char c :: w) :: ws) by (destruct (split_on hyphen lowered); by eexists _, _).
  destruct Hsplit as (w & ws & ->). rewrite filter_cons_True by done. destruct (Hjoin w (filter (λ part, part ≠ []) ws)) as [k ->].
  cbn [take]. destruct (strip_hyphens_keeps (lower_char c) (take 62 k)) as [k' ->].
  { intros Heq. by rewrite Heq, Ascii.eqb_refl in Hne. }
  replace (truthy _) with true by done. exists k'. by rewrite chars_text.
Qed.

(** The name of a service's runtime is a DNS label, so that it can name a Service:
    at most 63 characters, all of them lower-case letters, digits and hyphens, a letter
    at the start and no hyphen at the end, for every kind, every source hash and every
    suffix whose own name leaves two characters. *)
Theorem runtime_name_label (kind source_hash : string) (suffix : option string) :
  (∀ s, suffix = Some s → (length (chars (kubernetes_name s)) ≤ 61)%nat) →
  let name := chars (notebook_service_runtime_name kind source_hash suffix) in
  (length name ≤ 63)%nat ∧ labels name ∧ head name = Some "g"%char ∧ last name ≠ Some hyphen.
Proof.
  intros Hsuffix. cbv zeta. unfold notebook_service_runtime_name.
  set (whole := "gk-nbsvc-" +:+ kind +:+ "-" +:+ text (take 12 (chars source_hash))).
  destruct (kubernetes_name_labels whole) as [Hbase Hlen].
  destruct (kubernetes_name_starts "g" ("k-nbsvc-" +:+ kind +:+ "-" +:+ text (take 12 (chars source_hash)))) as [k Hk]; [done|done|].
  change (String "g" _) with whole in Hk. change (lower_char "g") with "g"%char in Hk. set (base := chars (kubernetes_name whole)) in *.
  assert (Hlast : ∀ l, last (strip_hyphens l) ≠ Some hyphen) by (intros l Hl; by apply strip_hyphens_last in Hl).
  destruct suffix as [s|]; rewrite chars_text.
  - specialize (Hsuffix s eq_refl). destruct (kubernetes_name_labels s) as [Hs _]. set (part := chars (kubernetes_name s)) in *.
    set (n := 63 - Z.of_nat (length part) - 1). unfold slice_to. destruct (Z.leb_spec 0 n); [|lia].
    rewrite Hk. destruct (Z.to_nat n) as [|n'] eqn:Hn; [lia|]. cbn [take].
    destruct (strip_hyphens_keeps "g" (take n' k)) as [k1 Hk1]; [done|]. rewrite Hk1. cbn [app].
    destruct (strip_hyphens_keeps "g" (k1 ++ hyphen :: part)) as [k2 Hk2]; [done|].
    assert (Hk1len : (length ("g"%char :: k1) ≤ S n')%nat).
    { rewrite <- Hk1. etransitivity; [apply strip_hyphens_length|]. cbn [length]. rewrite length_take. lia. }
    split_and!; [| |by rewrite Hk2|apply Hlast].
    + etransitivity; [apply strip_hyphens_length|]. cbn [length] in *. rewrite length_app. cbn [length]. lia.
    + apply strip_hyphens_labels. change ("g"%char :: k1 ++ hyphen :: part) with (("g"%char :: k1) ++ hyphen :: part).
      apply Forall_app. split; [|by constructor]. rewrite <- Hk1. apply strip_hyphens_labels.
      rewrite Hk in Hbase. inversion Hbase; subst. constructor; [done|by apply Forall_take].
  - split_and!; [|by apply strip_hyphens_labels, Forall_take| |apply Hlast].
    + etransitivity; [apply strip_hyphens_length|]. rewrite length_take. lia.
    + rewrite Hk. cbn [take]. destruct (strip_hyphens_keeps "g" (take 62 k)) as [k1 ->]; done.
Qed.

(** ** Runs of the definitions *)

Definition cluster_row : WorkerValidationRecord := mkWorkerValidation "k" "svc" "i" "d" "c" "v" 0 ValidationPassed [] ∅.
Definition object_appears (key : string) : M World unit := zoom w_validations_lens (modify (λ t, <[key := cluster_row]> t)).
Definition object_gone (key : string) : M World unit := zoom w_validations_lens (modify (λ t, delete key t)).
Definition pass_time (t : Z) : M World unit :=
  zoom w_process_lens (modify (λ p, mkProcess (clk_reads p) (clk_last p) (mono_reads p + Z.to_nat (t / 1000000 + 1)) (uuids p))).
Definition second_env : Env := {|
  wall_clock := λ _, of_utc 1000; monotonic_clock := λ n, 1000000 * Z.of_nat n; uuid4 := λ n, "id-" +:+ pretty n;
  unicode_lower := λ s, s; unicode_isalnum := λ _, true
|}.
Definition ApiException (status : Z) : exn := OtherException "ApiException" (pretty status).
(** A host with a Docker network or without, what [docker port] shows, the answer to a
    probe and the replicas of a Deployment; objects are rows, one of each sort. *)
Definition sample_service_host (network : option string) (port : ProcessOutput) (body : string) (replicas : option Z)
    : ServiceHost := {|
  sh_environ := λ key, if String.eqb key "GOBLIN_KING_DOCKER_NETWORK" then network else None;
  sh_resolve := λ p, p; sh_mkdir := λ _, ret tt; sh_write := λ _ _, ret tt;
  sh_run := λ args, match args with
    | _ :: "run" :: _ => do* object_appears "container" in ret (mkOutput 0 "c0ffee" EmptyString)
    | _ :: "rm" :: _ => do* object_gone "container" in ret (mkOutput 0 EmptyString EmptyString)
    | _ :: "port" :: _ => ret port
    | _ => ret (mkOutput 0 "started" EmptyString)
    end;
  sh_urlopen := λ _, if String.eqb body "refused" then raise (OtherException "URLError" "refused") else ret (mkResponse 200 ∅ body);
  sh_json_loads := λ _, None; sh_sleep := pass_time;
  sh_is_os_error := λ e, match e with OtherException n _ => String.eqb n "URLError" | _ => false end;
  sh_load_config := ret tt;
  sh_create_config_map := λ _ _, object_appears "map"; sh_create_deployment := λ _ _, object_appears "deployment";
  sh_create_service := λ _ _, object_appears "service"; sh_available_replicas := λ _ _, ret replicas;
  sh_delete_deployment := λ _ _, do* object_gone "deployment" in raise (ApiException 404);
  sh_delete_service := λ _ _, object_gone "service"; sh_delete_config_map := λ _ _, object_gone "map";
  sh_pods := λ _ _, ret []; sh_pod_log := λ _ _ _, ret EmptyString;
  sh_api_status := λ e, match e with OtherException n "404" => if String.eqb n "ApiException" then Some 404 else None | _ => None end
|}.
Definition hello_service (kind : string) : NotebookServiceRecord :=
  mkNotebookService kind None "Hello" "runner:1" "app = 1" "0123456789abcdef" "app" ["fastapi"] 8000 "/hello" 0 0 "u1" ∅
    None None "registered" None.
Definition sample_manager (backend : string) : NotebookServiceRuntimeManager :=
  mkManager "runner:1" backend (parse_path "/data/notebook-services") "docker" "default" "IfNotPresent".
Definition containers (out : World * result NotebookServiceRuntimeProof) : list string * option string :=
  ((map_to_list (w_validations out.1)).*1, match out.2 with Ok _ => None | Err e => Some (exn_str e) end).
Definition start_hello (backend : string) (h : ServiceHost) : World * result NotebookServiceRuntimeProof :=
  @start second_env h (sample_manager backend) (hello_service "hello") None 3 claimed_world.

(** A refused probe is answered by removing what was started.  But a container goes on
    running, with no record of it, when [docker port] fails, which is outside the [try],
    and when the answer is not UTF-8, which is not a runtime error. *)
Example docker_starts :
  let ok := mkOutput 0 "127.0.0.1:32768" EmptyString in
  containers (start_hello "docker" (sample_service_host None ok "hi" None)) = (["container"], None)
  ∧ containers (start_hello "docker" (sample_service_host (Some "net") ok "refused" None))
    = ([], Some "service probe failed for http://gk-nbsvc-hello-0123456789ab:8000/hello: refused; container logs: started")
  ∧ containers (start_hello "docker" (sample_service_host None (mkOutput 1 EmptyString "no such port") "hi" None))
    = (["container"], Some "could not inspect Docker service port for gk-nbsvc-hello-0123456789ab: no such port")
  ∧ (containers (start_hello "docker" (sample_service_host None ok (text [ascii_of_nat 255]) None))).1 = ["container"].
Proof. split_and!; vm_compute; reflexivity. Qed.
Example kubernetes_starts :
  (containers (start_hello "kubernetes" (sample_service_host None (mkOutput 0 EmptyString EmptyString) "hi" (Some 1)))).2 = None
  ∧ containers (start_hello "kubernetes" (sample_service_host None (mkOutput 0 EmptyString EmptyString) "hi" None))
    = ([], Some "kubernetes notebook service deployment did not become available: gk-nbsvc-hello-0123456789ab; pod logs: ").
Proof. split_and!; vm_compute; reflexivity. Qed.
(** The name keeps 54 characters of the kind and, if it is as long, nothing of the source:
    two services then share one runtime, and starting one removes the other's. *)
Example runtime_names_collide :
  let kind := "analytics-platform.quarterly-revenue-forecast-dashboard." in
  validate_kind (kind +:+ "emea") = Ok (kind +:+ "emea") ∧ validate_kind (kind +:+ "apac") = Ok (kind +:+ "apac")
  ∧ notebook_service_runtime_name (kind +:+ "emea") "aaaaaaaaaaaa" None = notebook_service_runtime_name (kind +:+ "apac") "bbbbbbbbbbbb" None.
Proof. split_and!; vm_compute; reflexivity. Qed.

Lemma sample_deletions port body replicas name :
  @DeletionsWork (sample_service_host None port body replicas) "default" name
    (λ w, w_validations w !! "deployment" = None) (λ w, w_validations w !! "service" = None) (λ w, w_validations w !! "map" = None).
Proof.
  split; intros; simpl in *; try apply lookup_delete_eq; try done.
  - split; by rewrite lookup_delete_ne.
  - by rewrite lookup_delete_ne.
  - destruct H as [He|[He|He]]; [by injection He as <-|done|done].
Qed.
Lemma service_start_cleans_witness :
  let h := sample_service_host None (mkOutput 0 EmptyString EmptyString) "hi" None in
  w_validations (@start second_env h (sample_manager "kubernetes") (hello_service "hello") None 3 claimed_world).1 !! "deployment" = None.
Proof.
  intros h. destruct (@service_start_cleans second_env h (sample_manager "kubernetes") (hello_service "hello")
    (λ w, w_validations w !! "deployment" = None) (λ w, w_validations w !! "service" = None)
    (λ w, w_validations w !! "map" = None) 3 eq_refl) as [Hclean _].
  assert (Hok : is_ok (@start second_env h (sample_manager "kubernetes") (hello_service "hello") None 3 claimed_world).2 = false)
    by (vm_compute; reflexivity).
  destruct (@start second_env h (sample_manager "kubernetes") (hello_service "hello") None 3 claimed_world) as [w' [p|e]] eqn:Hs; [discriminate Hok|].
  destruct (Hclean (sample_deletions _ _ _ _) _ _ _ Hs) as (_ & Hd & _). exact Hd.
Defined.
Lemma sample_sleeps port body replicas : @HostSleeps second_env (sample_service_host None port body replicas).
Proof.
  split; simpl; [lia| | |].
  - intros t w w' i Hs Hi. unfold pass_time in Hs. rewrite zoom_eq in Hs. injection Hs as <-. unfold reads in *. simpl.
    pose proof (Z.mul_succ_div_gt t 1000000 ltac:(lia)). lia.
  - intros url. case_match; apply _.
  - intros namespace name. apply _.
Qed.
Lemma service_waits_end_witness :
  let h := sample_service_host None (mkOutput 0 EmptyString EmptyString) "refused" None in
  let w1 := (zoom w_process_lens (@time_monotonic second_env) claimed_world).1 in
  (@poll second_env World w_process_lens dict string (poll_fuel 1000000 (1000000 * 3)) (0 + 1000000 * 3) (@probe_turn h "http://x") "probe timed out" w1).2 ≠ Ok None.
Proof.
  intros h. apply (@service_waits_end second_env h (sample_sleeps _ _ _) (sample_manager "docker") "http://x" "n" 3 claimed_world).
Defined.
Lemma runtime_name_label_witness :
  head (chars (notebook_service_runtime_name "hello" "0123" (Some "route-12ab34cd"))) = Some "g"%char.
Proof.
  destruct (runtime_name_label "hello" "0123" (Some "route-12ab34cd")) as (_ & _ & Hhead & _); [|exact Hhead].
  intros s [= <-]. vm_compute. lia.
Defined.
