(* ===== verification/ApiServices.v ===== *)
(** * The HTTP handlers of administration, services and notebook goblins ([src/src/goblin_king/api.py])

    Users, projects and tokens; the cleanup of history; the audit log; registered
    services and their probes; notebook-defined goblins and services.  Hosting a service
    is [NotebookServices]' and [ApiRuntimes].

    A probe is an HTTP request: its outcome is the class [HttpProbe], a function of
    the moment it is sent and the URL.  [json.loads] of its body is part of it. *)

From Stdlib Require Import Ascii.
From S2P Require Import Prelude CausalTime Contracts Text PyValues ResourcePolicies EventStore JobStore JobLifecycle RecordStore Auth Registry World Validation Scheduler Repository Cleanup Api.

(** ** URLs *)

(** [str.rstrip] of one character, [str.strip] of one *)
Fixpoint drop_char (c : ascii) (l : list ascii) : list ascii :=
  match l with
  | x :: l' => if Ascii.eqb x c then drop_char c l' else l
  | [] => []
  end.
Definition rstrip_char (c : ascii) (s : string) : string :=
  String.string_of_list_ascii (rev (drop_char c (rev (String.list_ascii_of_string s)))).
Definition slash : ascii := "/".

Definition _normalize_probe_path (value : option string) : string :=
  let probe_path := if truthy_opt value then default EmptyString value else "/hello" in
  if starts_with "/" probe_path then probe_path else "/" +:+ probe_path.
Definition _service_probe_url (service : LongServiceRecord) : string :=
  rstrip_char slash (ls_base_url service) +:+ _normalize_probe_path (Some (ls_probe_path service)).

(** ** Requests *)

Record LongServiceCreateRequest := mkServiceRequest {
  lc_kind : string; lc_image : option string; lc_base_url : option string;
  lc_probe_path : option string; lc_project_id : option string }.

Record NotebookGoblinCreateRequest := mkNotebookRequest {
  nc_kind : string; nc_source : string; nc_function_name : string; nc_display_name : option string;
  nc_image : option string; nc_project_id : option string; nc_timeout_seconds : option Z;
  nc_max_retries : Z; nc_metadata : dict }.

Record NotebookServiceCreateRequest := mkNotebookServiceRequest {
  nr_kind : string; nr_source : string; nr_app_name : string; nr_requirements : list string;
  nr_display_name : option string; nr_image : option string; nr_project_id : option string;
  nr_port : Z; nr_probe_path : string; nr_metadata : dict }.

(** The reply of [urlopen], an HTTP error reply, an [OSError], or another exception. *)
Inductive HttpOutcome :=
| HttpReply (status : Z) (headers : dict) (json : option Json) (text : string)
| HttpErrorReply (status : Z) (headers : dict) (text : string)
| HttpUnreachable (error : string)
| HttpRaised (e : exn).
Class HttpProbe := { http_get : Process → string → HttpOutcome }.

(** The payload's keys are in order already: [sort_keys=True]. *)
Definition notebook_service_source_hash `{Crypto} (source app_name : string) (requirements : list string)
    : string :=
  sha256_hex (json_dumps (JObj [("app_name", JStr app_name); ("requirements", JList (JStr <$> requirements));
                                ("source", JStr source)])).

Definition long_status_str (s : LongServiceStatus) : string :=
  match s with
  | LsRegistered => "registered" | LsRunning => "running" | LsFailed => "failed"
  | LsStopped => "stopped"
  end.

Definition services_lens : lens ApiWorld (table LongServiceRecord) :=
  Lens a_services (λ t a, mkApi (a_world a) (a_entries a) (a_versions a) (a_notebook_services a) t
    (a_users a) (a_projects a) (a_tokens a) (a_rates a) (a_randoms a) (a_hub_requests a) (a_hub_cache a)).
Definition notebooks_lens : lens ApiWorld (table NotebookGoblinRecord) :=
  lens_compose repo_lens goblins_lens.
Definition notebook_services_lens : lens ApiWorld (table NotebookServiceRecord) :=
  lens_compose repo_lens Repository.services_lens.

Section handlers.
Context `{Sqlite} `{Env} `{Crypto} `{HttpProbe}.
Context (state : AppState).

(** ** Users, projects, tokens *)

Definition create_admin_user (email display_name : string) (principal : Principal)
    : M ApiWorld UserRecord :=
  let* user := zoom auth_lens (create_user email display_name) in
  do* audit_success "user.created" principal None "user" (u_id user) ∅ in
  ret user.

Definition create_admin_project (name : string) (principal : Principal) : M ApiWorld ProjectRecord :=
  let* project := zoom auth_lens (create_project name) in
  do* audit_success "project.created" principal (Some (p_id project)) "project" (p_id project) ∅ in
  ret project.

Definition create_admin_token (name user_id : string) (project_id : option string)
    (role : PrincipalRole) (principal : Principal) : M ApiWorld (ApiTokenRecord * string) :=
  let* (token, raw_token) := zoom auth_lens (create_api_token name user_id project_id role) in
  do* audit_success "token.created" principal (t_project_id token) "token" (t_id token) ∅ in
  ret (token, raw_token).

(** ** Cleanup and audit *)

Definition counts_json (c : CleanupCounts) : Json :=
  JObj [("artifacts", JInt (cc_artifacts c)); ("handoffs", JInt (cc_handoffs c));
        ("runs", JInt (cc_runs c)); ("jobs", JInt (cc_jobs c)); ("fanouts", JInt (cc_fanouts c));
        ("events", JInt (cc_events c)); ("worker_heartbeats", JInt (cc_worker_heartbeats c));
        ("long_services", JInt (cc_long_services c))].

Definition cleanup_runtime_rows (dry_run : bool) (project_id : option string)
    (include_unprobed_services : bool) (principal : Principal) : M ApiWorld (bool * CleanupCounts) :=
  let* project_id := project_for_request state principal project_id in
  let* counts := zoom rows_lens
    (Cleanup.cleanup_runtime_rows project_id dry_run include_unprobed_services) in
  do* (if dry_run then ret tt
       else emit_api "admin.runtime.cleaned" {[ "counts" := counts_json counts ]} project_id
              None None None None None) in
  do* audit_api (if dry_run then "runtime.cleanup.preview" else "runtime.cleanup") "success"
        (Some principal) project_id (Some "runtime_rows") None
        {[ "dry_run" := JBool dry_run; "include_unprobed_services" := JBool include_unprobed_services;
           "counts" := counts_json counts ]} in
  ret (negb dry_run, counts).

Definition list_audit_logs (limit offset : Z) (project_id : option string) (principal : Principal)
    : M ApiWorld (list AuditLogRecord * PageMeta) :=
  let* scoped_project := project_for_request state principal project_id in
  let* items := gets (λ a, RecordStore.list_audit_logs scoped_project limit offset (w_audit (a_world a))) in
  ret (items, page_meta limit offset items).

(** ** Registered services *)

Definition metadata_text (definition : option GoblinDefinition) (key : string) : option string :=
  match definition ≫= (λ d, gd_metadata d !! key) with Some (JStr s) => Some s | _ => None end.

(** The goblin and the worker of the kind; the first lookup that fails. *)
Definition service_lookup (kind : string)
    : option GoblinDefinition * option WorkerImageDefinition * option exn :=
  match registry_get (registry state) kind with
  | Err e => (None, None, Some e)
  | Ok d => match worker_get (workers state) kind with
            | Err e => (Some d, None, Some e)
            | Ok w => (Some d, Some w, None)
            end
  end.

Definition new_service (id : string) (created_at : utc) (created_by kind : string)
    (project_id image : option string) (base_url probe_path : string) : LongServiceRecord :=
  mkLongService id kind project_id image base_url probe_path LsRegistered created_at created_by None None.

Definition register_long_running_service (request : LongServiceCreateRequest) (principal : Principal)
    : M ApiWorld LongServiceRecord :=
  let '(definition, worker, error) := service_lookup (lc_kind request) in
  do* (match error with
       | Some e => if is_value_error e
                   then raise_if (negb (truthy_opt (lc_base_url request))) (HTTPException 404 (exn_str e))
                   else raise e
       | None => ret tt
       end) in
  let* project_id := project_for_request state principal (lc_project_id request) in
  let probe_path := _normalize_probe_path
    (or_opt (lc_probe_path request) (metadata_text definition "probe_path")) in
  let base_url := or_opt (lc_base_url request) (metadata_text definition "base_url") in
  do* raise_if (negb (truthy_opt base_url))
        (HTTPException 422 "base_url is required unless the service metadata defines base_url") in
  let* id := uuid_api in
  let* created_at := now_api in
  let url := rstrip_char slash (default EmptyString base_url) in
  do* raise_if (negb (truthy url)) (ValidationError "base_url") in
  let service := new_service id created_at (pr_user_id principal)
    (match definition with Some d => gd_kind d | None => lc_kind request end) project_id
    (match worker with
     | Some w => Some (wi_image w)
     | None => or_opt (lc_image request) (Some (lc_kind request))
     end) url probe_path in
  do* zoom services_lens (save_long_service service) in
  do* emit_api "admin.service.registered"
        {[ "kind" := JStr (ls_kind service); "base_url" := JStr (ls_base_url service);
           "probe_path" := JStr (ls_probe_path service); "image" := JOptStr (ls_image service) ]}
        project_id None None None (Some (ls_id service)) None in
  do* audit_success "service.registered" principal project_id "long_service" (ls_id service) ∅ in
  ret service.

Definition list_long_running_services (principal : Principal) : M ApiWorld (list LongServiceRecord) :=
  gets (λ a, list_long_services (pr_project_id principal) (a_services a)).

Definition service_for_principal (service_id : string) (principal : Principal)
    : M ApiWorld LongServiceRecord :=
  let* found := gets (λ a, get_long_service service_id (a_services a)) in
  let* service := found_or_404 found ("long service not found: " +:+ service_id) in
  do* project_for_request state principal (ls_project_id service) in
  ret service.
Definition get_long_running_service (service_id : string) (principal : Principal)
    : M ApiWorld LongServiceRecord := service_for_principal service_id principal.

(** The response payload of a probe. *)
Definition probe_payload (o : HttpOutcome) : result dict :=
  match o with
  | HttpReply status headers json text =>
      Ok (list_to_map ([("status_code", JInt status); ("headers", JObj (map_to_list headers));
                        ("json", default JNull json)]
                       ++ match json with Some _ => [] | None => [("text", JStr text)] end))
  | HttpErrorReply status headers text =>
      Ok (list_to_map [("status_code", JInt status); ("headers", JObj (map_to_list headers));
                       ("text", JStr text); ("json", JNull)])
  | HttpUnreachable error =>
      Ok (list_to_map [("status_code", JNull); ("headers", JObj []); ("text", JStr error);
                       ("json", JNull)])
  | HttpRaised e => Err e
  end.
Definition probe_ok (payload : dict) : bool :=
  match payload !! "status_code" with
  | Some (JInt code) => (200 <=? code) && (code <? 300)
  | _ => false
  end.

Definition _probe_long_service_record (service : LongServiceRecord)
    : M ApiWorld (LongServiceRecord * string * dict) :=
  let probe_url := _service_probe_url service in
  let* outcome := gets (λ a, http_get (w_process (a_world a)) probe_url) in
  let* payload := lift_result (probe_payload outcome) in
  let status := if probe_ok payload then LsRunning else LsFailed in
  let* now := now_api in
  let* updated := zoom services_lens (update_long_service_probe (ls_id service) status now payload) in
  let* updated := (match updated with Some s => ret s | None => raise AssertionError end) in
  do* emit_api "admin.service.probed"
        {[ "kind" := JStr (ls_kind service); "status" := JStr (long_status_str status);
           "status_code" := default JNull (payload !! "status_code") ]}
        (ls_project_id service) None None None (Some (ls_id service)) None in
  do* raise_if (bool_decide (status = LsFailed)) (HTTPException 502 (ls_id service)) in
  ret (updated, probe_url, payload).

Definition probe_long_running_service (service_id : string) (principal : Principal)
    : M ApiWorld (LongServiceRecord * string * dict) :=
  let* service := service_for_principal service_id principal in
  do* raise_if (bool_decide (ls_status service = LsStopped))
        (HTTPException 409 ("long service is stopped: " +:+ ls_id service)) in
  let* (updated, url, payload) := _probe_long_service_record service in
  do* audit_success "service.probed" principal (ls_project_id service) "long_service" (ls_id service)
        {[ "url" := JStr url ]} in
  ret (updated, url, payload).

Definition stop_long_running_service (service_id : string) (principal : Principal)
    : M ApiWorld LongServiceRecord :=
  let* service := service_for_principal service_id principal in
  if bool_decide (ls_status service = LsStopped) then ret service
  else
    let* stopped := zoom services_lens
      (update_long_service_status (ls_id service) LsStopped
         (Some {[ "message" := JStr "service stopped by King-side admin control";
                  "previous_status" := JStr (long_status_str (ls_status service)) ]})) in
    let* stopped := (match stopped with Some s => ret s | None => raise AssertionError end) in
    do* emit_api "admin.service.stopped"
          {[ "kind" := JStr (ls_kind service); "base_url" := JStr (ls_base_url service) ]}
          (ls_project_id service) None None None (Some (ls_id service)) None in
    do* audit_success "service.stopped" principal (ls_project_id service) "long_service" (ls_id service) ∅ in
    ret stopped.

(** ** Notebook goblins and services *)

Definition _forbid_viewer_write (principal : Principal) : result unit :=
  if bool_decide (pr_role principal = RoleViewer)
  then Err (HTTPException 403 "viewer role cannot create notebook goblins") else Ok tt.

(** [try: registry.get(kind) except RegistryError: pass else: 409] *)
Definition refuse_registered (kind : string) : result unit :=
  match registry_get (registry state) kind with
  | Ok _ => Err (HTTPException 409 ("goblin kind already exists in registry: " +:+ kind))
  | Err (RegistryError _) => Ok tt
  | Err e => Err e
  end.
(** The record of that kind belongs to the request's project. *)
Definition own_record (principal : Principal) (project_id existing_project : option string)
    (detail : string) : M ApiWorld unit :=
  do* project_for_request state principal existing_project in
  raise_if (negb (bool_decide (existing_project = project_id))) (HTTPException 409 detail).
Definition or_text (o : option string) (default_text : string) : string :=
  if truthy_opt o then default EmptyString o else default_text.

Definition create_notebook_goblin (request : NotebookGoblinCreateRequest) (principal : Principal)
    : M ApiWorld NotebookGoblinRecord :=
  do* lift_result (_forbid_viewer_write principal) in
  do* lift_result (refuse_registered (nc_kind request)) in
  let* project_id := project_for_request state principal (nc_project_id request) in
  let* now := now_api in
  let* existing := gets (λ a, get_notebook_goblin (nc_kind request) (w_notebooks (a_world a))) in
  do* (match existing with
       | Some old => own_record principal project_id (ng_project_id old)
                       "notebook goblin kind already belongs to another project"
       | None => ret tt
       end) in
  do* lift_result (validate_kind (nc_kind request)) in
  let record := mkNotebookGoblin (nc_kind request) project_id
    (or_text (nc_display_name request) (nc_kind request))
    (or_text (nc_image request) (st_notebook_function_image (settings state)))
    (nc_source request) (notebook_source_hash (nc_source request) (nc_function_name request))
    (nc_function_name request) (nc_timeout_seconds request) (nc_max_retries request)
    (match existing with Some old => ng_created_at old | None => now end) now
    (match existing with Some old => ng_created_by old | None => pr_user_id principal end)
    (nc_metadata request) in
  do* zoom notebooks_lens (save_notebook_goblin record) in
  do* audit_success "notebook_goblin.built" principal project_id "notebook_goblin" (ng_kind record)
        {[ "image" := JStr (ng_image record); "source_hash" := JStr (ng_source_hash record);
           "function_name" := JStr (ng_function_name record) ]} in
  ret record.

(** [try: project_for_request except HTTPException: continue] *)
Fixpoint visible_records {R} (project : R → option string) (principal : Principal) (l : list R)
    : M ApiWorld (list R) :=
  match l with
  | [] => ret []
  | r :: l' =>
      let* seen := try_catch (do* project_for_request state principal (project r) in ret true)
        (λ e, match e with HTTPException _ _ => ret false | _ => raise e end) in
      let* rest := visible_records project principal l' in
      ret (if seen then r :: rest else rest)
  end.

Definition list_notebook_goblins (principal : Principal) : M ApiWorld (list NotebookGoblinRecord) :=
  let* records := gets (λ a, RecordStore.list_notebook_goblins None (w_notebooks (a_world a))) in
  visible_records ng_project_id principal records.

Definition create_notebook_service (request : NotebookServiceCreateRequest) (principal : Principal)
    : M ApiWorld NotebookServiceRecord :=
  do* lift_result (_forbid_viewer_write principal) in
  do* lift_result (refuse_registered (nr_kind request)) in
  let* goblin := gets (λ a, get_notebook_goblin (nr_kind request) (w_notebooks (a_world a))) in
  do* raise_if (opt_truthy goblin)
        (HTTPException 409 ("notebook function goblin already exists: " +:+ nr_kind request)) in
  let* project_id := project_for_request state principal (nr_project_id request) in
  let* now := now_api in
  let* existing := gets (λ a, get_notebook_service (nr_kind request) (a_notebook_services a)) in
  do* (match existing with
       | Some old =>
           do* own_record principal project_id (ns_project_id old)
                 "notebook service kind already belongs to another project" in
           raise_if (truthy_opt (ns_active_service_id old)
                     && bool_decide (ns_runtime_status old = "running"))
             (HTTPException 409 "stop the notebook service before declaring new source")
       | None => ret tt
       end) in
  do* lift_result (validate_kind (nr_kind request)) in
  let record := mkNotebookService (nr_kind request) project_id
    (or_text (nr_display_name request) (nr_kind request))
    (or_text (nr_image request) (st_notebook_service_image (settings state)))
    (nr_source request)
    (notebook_service_source_hash (nr_source request) (nr_app_name request) (nr_requirements request))
    (nr_app_name request) (nr_requirements request) (nr_port request)
    (validate_probe_path (_normalize_probe_path (Some (nr_probe_path request))))
    (match existing with Some old => ns_created_at old | None => now end) now
    (match existing with Some old => ns_created_by old | None => pr_user_id principal end)
    (nr_metadata request) None None "declared" None in
  do* zoom notebook_services_lens (save_notebook_service record) in
  do* audit_success "notebook_service.declared" principal project_id "notebook_service" (ns_kind record)
        {[ "image" := JStr (ns_image record); "source_hash" := JStr (ns_source_hash record);
           "app_name" := JStr (ns_app_name record); "probe_path" := JStr (ns_probe_path record) ]} in
  ret record.

Definition list_notebook_services (principal : Principal) : M ApiWorld (list NotebookServiceRecord) :=
  let* records := gets (λ a, RecordStore.list_notebook_services None (a_notebook_services a)) in
  visible_records ns_project_id principal records.
End handlers.
