(* ===== verification/ApiDirectory.v ===== *)
(** * The HTTP handlers of the Goblin Directory ([src/src/goblin_king/api.py])

    Submission, validation, review, publication, retirement and deletion of
    directory entries, the reads, and running a published function.  The catalog's
    own rules are [Repository]'s; these handlers decide who may ask for what.

    The runtimes a validation may use are the class [DirectoryRuntime]: the
    Kubernetes job that validates a function and the manager that starts a service. *)

From Stdlib Require Import Ascii.
From S2P Require Import Prelude CausalTime Contracts Text PyValues ResourcePolicies EventStore JobStore JobLifecycle RecordStore Auth Registry World Validation Scheduler Fanout Repository Cleanup Api ApiJobs ApiServices.

(** ** Kinds *)

Definition is_alnum (c : ascii) : bool :=
  let n := nat_of_ascii c in
  (Nat.leb 48 n && Nat.leb n 57) || (Nat.leb 65 n && Nat.leb n 90) || (Nat.leb 97 n && Nat.leb n 122).
Definition dash : ascii := "-".
(** [while "--" in part: part = part.replace("--", "-")] *)
Fixpoint squeeze_dashes (l : list ascii) : list ascii :=
  match l with
  | x :: l' =>
      if Ascii.eqb x dash && match l' with y :: _ => Ascii.eqb y dash | [] => false end
      then squeeze_dashes l' else x :: squeeze_dashes l'
  | [] => []
  end.
Definition strip_dashes (l : list ascii) : list ascii := rev (drop_char dash (rev (drop_char dash l))).
(** [str.lower] and [str.isalnum]; beyond ASCII they are Python's Unicode tables. *)
Definition text_lower `{Env} (s : string) : string := if is_ascii s then lower s else unicode_lower s.
Definition character_isalnum `{Env} (w : list ascii) : bool :=
  match w with [c] => is_alnum c | _ => unicode_isalnum (text w) end.
Definition _repository_kind_part `{Env} (value : option string) : string :=
  let cleaned := concat ((λ w, if character_isalnum w then w else [dash])
                           <$> characters (chars (text_lower (or_text value "global")))) in
  let part := String.string_of_list_ascii (squeeze_dashes (strip_dashes cleaned)) in
  if truthy part then part else "global".
Definition _repository_entry_kind `{Env} (project_id : option string) (name : string) : string :=
  "repository." +:+ _repository_kind_part project_id +:+ "." +:+ name.
Definition _repository_version_kind `{Env} (project_id : option string) (name : string) (version : Z) : string :=
  _repository_entry_kind project_id name +:+ ".v" +:+ pretty version.

(** ** Requests *)

Record RepositorySubmitRequest := mkSubmitRequest {
  rs_name : string; rs_type : RepositoryGoblinType; rs_source : string;
  rs_display_name : option string; rs_description : option string; rs_tags : list string;
  rs_project_id : option string; rs_image : option string; rs_function_name : string;
  rs_timeout_seconds : option Z; rs_max_retries : Z; rs_app_name : string;
  rs_requirements : list string; rs_port : Z; rs_probe_path : string; rs_metadata : dict }.

Record RepositoryValidateRequest := mkValidateRequest {
  rq_input : dict; rq_require_success : bool; rq_timeout_seconds : option Z }.

Record RepositoryFunctionRunRequest := mkFunctionRun {
  rf_input : dict; rf_project_id : option string; rf_version : option Z; rf_priority : Z;
  rf_correlation_id : option string; rf_max_retries : Z; rf_timeout_seconds : option Z }.

Record EntryDetail := mkEntryDetail {
  ed_entry : RepositoryEntryRecord; ed_versions : list RepositoryVersionRecord }.

Class DirectoryRuntime := {
  running_in_kubernetes : bool;
  (** [_validate_notebook_with_kubernetes] *)
  validate_with_kubernetes : NotebookGoblinRecord → dict → bool → option Z →
    M World WorkerValidationResult;
  (** [manager.validate]: the runtime's proof, or the text of its error *)
  manager_validate : NotebookServiceRecord → Z → M World (dict + string)
}.

Definition goblin_type_str (t : RepositoryGoblinType) : string :=
  match t with NotebookFunction => "notebook_function" | NotebookService => "notebook_service" end.

Section handlers.
Context `{Sqlite} `{Env} `{Pydantic} `{Floats} `{Crypto} `{Host} `{Workers}
  `{DirectoryRuntime}.
Context (state : AppState).

(** ** Shared checks *)

Definition _require_repository_enabled : result unit :=
  if st_repository_enabled (settings state) then Ok tt
  else Err (HTTPException 404 "repository service is not enabled").

Definition _require_repository_owner_or_admin (principal : Principal) (entry : RepositoryEntryRecord)
    : result unit :=
  if is_admin principal || bool_decide (re_owner entry = pr_user_id principal) then Ok tt
  else Err (HTTPException 403 "repository entry owner or admin required").

Definition repo_gets {A} (f : RepoTables → A) : M ApiWorld A := gets (λ a, f (view repo_lens a)).

Definition _repository_latest_version (entry : RepositoryEntryRecord)
    (versions : list RepositoryVersionRecord) : result RepositoryVersionRecord :=
  match last versions with
  | Some v => Ok v
  | None => Err (HTTPException 404 ("repository entry has no versions: " +:+ re_id entry))
  end.

Definition _repository_entry_detail (entry : RepositoryEntryRecord) : M ApiWorld EntryDetail :=
  let* versions := repo_gets (list_repository_versions (re_id entry) None) in
  ret (mkEntryDetail entry versions).

Definition _repository_requested_version (entry : RepositoryEntryRecord) (version : option Z)
    : M ApiWorld RepositoryVersionRecord :=
  match version with
  | Some n =>
      let* found := repo_gets (get_repository_version (re_id entry) n) in
      let* record := lift_result found in
      found_or_404 record ("repository version not found: " +:+ re_id entry +:+ ":" +:+ pretty n)
  | None =>
      let* versions := repo_gets (list_repository_versions (re_id entry) None) in
      lift_result (_repository_latest_version entry versions)
  end.

(** The entry of a path parameter, within the caller's reach. *)
Definition entry_for_principal (entry_id : string) (principal : Principal)
    : M ApiWorld RepositoryEntryRecord :=
  let* found := repo_gets (get_repository_entry entry_id) in
  let* entry := found_or_404 found ("repository entry not found: " +:+ entry_id) in
  do* project_for_request state principal (re_project_id entry) in
  ret entry.

Definition audit_entry (action : string) (principal : Principal) (entry : RepositoryEntryRecord)
    (detail : dict) : M ApiWorld unit :=
  audit_success action principal (re_project_id entry) "repository_entry" (re_id entry) detail.

(** [refreshed = get_repository_entry(...); assert; return its detail] *)
Definition refreshed_detail (entry_id : string) : M ApiWorld EntryDetail :=
  let* refreshed := repo_gets (get_repository_entry entry_id) in
  let* refreshed := (match refreshed with Some e => ret e | None => raise AssertionError end) in
  _repository_entry_detail refreshed.

Definition move_version (entry_id : string) (version : Z) (status : RepositoryEntryStatus)
    (proof : option dict) (approved_by : option string) (approved_at : option utc)
    : M ApiWorld RepositoryVersionRecord :=
  let* now := now_api in
  zoom repo_lens (transition_repository_version_status entry_id version status now proof approved_by
                    approved_at None).

(** ** Submission *)

Definition resubmitted (request : RepositorySubmitRequest) (now : utc) (e : RepositoryEntryRecord)
    : RepositoryEntryRecord :=
  mkRepositoryEntry (re_id e) (re_name e) (re_kind e) (re_type e) (re_project_id e) (re_owner e)
    (or_text (rs_display_name request) (re_display_name e)) (rs_description request) (rs_tags request)
    (re_status e) (re_published_version e) (re_created_at e) now.

Definition new_entry `{Env} (request : RepositorySubmitRequest) (id : string) (now : utc)
    (project_id : option string) (owner : string) : result RepositoryEntryRecord :=
  let kind := _repository_entry_kind project_id (rs_name request) in
  if GOBLIN_KIND_PATTERN (rs_name request) && GOBLIN_KIND_PATTERN kind then
    let? tags := validate_tags (rs_tags request) in
    Ok (mkRepositoryEntry id (rs_name request) kind (rs_type request) project_id owner
          (or_text (rs_display_name request) (rs_name request)) (rs_description request) tags
          Draft None now now)
  else Err (ValidationError "value must use lowercase letters, digits, dots, or dashes").

(** The entry the version will belong to, and its number. *)
Definition submit_entry (request : RepositorySubmitRequest) (principal : Principal)
    (project_id : option string) (now : utc) : M ApiWorld (RepositoryEntryRecord * Z) :=
  let* existing := repo_gets (get_repository_entry_by_project_name project_id (rs_name request) false) in
  match existing with
  | Some existing =>
      do* project_for_request state principal (re_project_id existing) in
      do* lift_result (_require_repository_owner_or_admin principal existing) in
      do* raise_if (negb (bool_decide (re_type existing = rs_type request)))
            (HTTPException 409 "repository entry already exists with a different type") in
      let* entry := zoom repo_lens (update_repository_entry (resubmitted request now existing)) in
      let* versions := repo_gets (list_repository_versions (re_id entry) None) in
      let* latest := lift_result (_repository_latest_version entry versions) in
      ret (entry, rv_version latest + 1)
  | None =>
      let* id := uuid_api in
      let* record := lift_result (new_entry request id now project_id (pr_user_id principal)) in
      let* entry := zoom repo_lens (create_repository_entry record) in
      ret (entry, 1)
  end.

Definition submit_metadata (request : RepositorySubmitRequest) (entry : RepositoryEntryRecord) (version : Z)
    : dict :=
  list_to_map [("repository_entry_id", JStr (re_id entry)); ("repository_name", JStr (re_name entry));
               ("repository_version", JInt version)] ∪ rs_metadata request.

(** The notebook record of the version: its source hash and runner image. *)
Definition submit_notebook (request : RepositorySubmitRequest) (principal : Principal)
    (project_id : option string) (now : utc) (entry : RepositoryEntryRecord) (version : Z) (kind : string)
    : M ApiWorld (string * string) :=
  let display := or_text (rs_display_name request) (re_display_name entry) in
  let metadata := submit_metadata request entry version in
  match rs_type request with
  | NotebookFunction =>
      let source_hash := notebook_source_hash (rs_source request) (rs_function_name request) in
      let image := or_text (rs_image request) (st_notebook_function_image (settings state)) in
      do* lift_result (validate_kind kind) in
      do* zoom notebooks_lens (save_notebook_goblin
            (mkNotebookGoblin kind project_id display image (rs_source request) source_hash
               (rs_function_name request) (rs_timeout_seconds request) (rs_max_retries request) now now
               (pr_user_id principal) metadata)) in
      ret (source_hash, image)
  | NotebookService =>
      let source_hash := notebook_service_source_hash (rs_source request) (rs_app_name request)
                           (rs_requirements request) in
      let image := or_text (rs_image request) (st_notebook_service_image (settings state)) in
      do* lift_result (validate_kind kind) in
      do* zoom notebook_services_lens (save_notebook_service
            (mkNotebookService kind project_id display image (rs_source request) source_hash
               (rs_app_name request) (rs_requirements request) (rs_port request)
               (validate_probe_path (_normalize_probe_path (Some (rs_probe_path request)))) now now
               (pr_user_id principal) metadata None None "declared" None)) in
      ret (source_hash, image)
  end.

Definition new_version (id entry_id : string) (version : Z) (kind source_hash runner_image : string)
    (now : utc) : RepositoryVersionRecord :=
  mkRepositoryVersion id entry_id version kind source_hash runner_image ∅ Draft Draft None None None now now.

Definition submit_repository_entry (request : RepositorySubmitRequest) (principal : Principal)
    : M ApiWorld (RepositoryEntryRecord * RepositoryVersionRecord) :=
  do* lift_result _require_repository_enabled in
  do* lift_result (_forbid_viewer_write principal) in
  let* project_id := project_for_request state principal (rs_project_id request) in
  let* now := now_api in
  let* (entry, next_version) := submit_entry request principal project_id now in
  let version_kind := _repository_version_kind project_id (re_name entry) next_version in
  let* (source_hash, runner_image) :=
    submit_notebook request principal project_id now entry next_version version_kind in
  let* id := uuid_api in
  let* version := try_catch
    (zoom repo_lens (create_repository_version
       (new_version id (re_id entry) next_version version_kind source_hash runner_image now)))
    (λ e, if is_value_error e then raise (HTTPException 409 (exn_str e)) else raise e) in
  let* refreshed := repo_gets (get_repository_entry (re_id entry)) in
  let* refreshed := (match refreshed with Some e => ret e | None => raise AssertionError end) in
  do* audit_success "repository.submit" principal project_id "repository_entry" (re_id entry)
        (list_to_map [("name", JStr (re_name entry)); ("type", JStr (goblin_type_str (re_type entry)));
                      ("version", JInt (rv_version version));
                      ("kind", JStr (rv_kind version)); ("source_hash", JStr (rv_source_hash version))]) in
  ret (refreshed, version).

(** ** Reads *)

Definition query_matches (query : string) (e : RepositoryEntryRecord) : bool :=
  in_text query (lower (re_name e)) || in_text query (lower (re_display_name e))
  || existsb (in_text query) (re_tags e)
  || match re_description e with Some d => in_text query (lower d) | None => false end.

Definition entry_visible (principal : Principal) (e : RepositoryEntryRecord) : bool :=
  bool_decide (re_status e = Published) || is_ok (_require_repository_owner_or_admin principal e).

Definition list_repository_entries (limit offset : Z) (project_id : option string)
    (entry_type : option RepositoryGoblinType) (status : option RepositoryEntryStatus) (q : option string)
    (principal : Principal) : M ApiWorld (list EntryDetail * PageMeta) :=
  do* lift_result _require_repository_enabled in
  let* scoped_project := project_for_request state principal project_id in
  let* entries := repo_gets (Repository.list_repository_entries scoped_project status entry_type false) in
  let query := strip_lower (default EmptyString q) in
  let entries := if truthy query then filter (λ e, query_matches query e = true) entries else entries in
  let shown := filter (λ e, entry_visible principal e = true) entries in
  let* visible := repo_gets (λ t, (λ e, mkEntryDetail e (list_repository_versions (re_id e) None t)) <$> shown) in
  let page := take (Z.to_nat limit) (drop (Z.to_nat offset) visible) in
  ret (page, page_meta limit offset page).

Definition get_repository_entry (entry_id : string) (principal : Principal) : M ApiWorld EntryDetail :=
  do* lift_result _require_repository_enabled in
  let* entry := entry_for_principal entry_id principal in
  do* lift_result (if bool_decide (re_status entry = Published) then Ok tt
                   else _require_repository_owner_or_admin principal entry) in
  _repository_entry_detail entry.

(** ** Validation *)

Definition validation_dump (r : WorkerValidationResult) : dict :=
  list_to_map [("kind", JStr (vr_kind r)); ("ok", JBool (vr_ok r)); ("image", JOptStr (vr_image r));
               ("image_digest", JOptStr (vr_image_digest r));
               ("contract_version", JStr (vr_contract_version r));
               ("validator_version", JStr (vr_validator_version r));
               ("result_status", JOptStr (vr_result_status r)); ("result_file", JOptStr (vr_result_file r));
               ("artifact_count", JInt (vr_artifact_count r)); ("error", JOptStr (vr_error r));
               ("checks", JList (JStr <$> vr_checks r))].

(** The proof of a function: the validation result, stored as the newest one. *)
Definition validate_function (request : RepositoryValidateRequest) (record : NotebookGoblinRecord)
    : M World WorkerValidationResult :=
  let input_payload := notebook_worker_input record (rq_input request) in
  let timeout := or_timeout (rq_timeout_seconds request) (ng_timeout_seconds record) in
  let* result :=
    (if running_in_kubernetes
     then validate_with_kubernetes record input_payload (rq_require_success request) timeout
     else
       let* results := validate_workers {[ ng_kind record := notebook_definition record ]}
         (notebook_worker_map record) input_payload [ng_kind record] false (rq_require_success request)
         true timeout None in
       let* result := lift_result (match results with
         | r :: _ => Ok r | [] => Err (OtherException "IndexError" "list index out of range") end) in
       ret (notebook_result (Some (ng_source_hash record)) result)) in
  let* stored := validation_record result
    (if running_in_kubernetes
     then {[ "kubernetes_workload_security" := effective_workload_security (ng_kind record) ]} else ∅) in
  do* zoom w_validations_lens (save_worker_validation stored) in
  ret result.

Definition validation_audit (outcome : string) (principal : Principal) (entry : RepositoryEntryRecord)
    (version : Z) (proof : dict) : M ApiWorld unit :=
  audit_api "repository.validate" outcome (Some principal) (re_project_id entry)
    (Some "repository_entry") (Some (re_id entry))
    {[ "version" := JInt version; "proof" := JObj (map_to_list proof) ]}.

(** The proof of the version, or 422 with its audit row; the detail of the answer is the
    proof itself, here as its JSON text. *)
Definition directory_proof (request : RepositoryValidateRequest) (principal : Principal)
    (entry : RepositoryEntryRecord) (source_version : RepositoryVersionRecord) : M ApiWorld dict :=
  let refuse proof :=
    do* validation_audit "failure" principal entry (rv_version source_version) proof in
    raise (HTTPException 422 (json_dumps (JObj (map_to_list proof)))) in
  match re_type entry with
  | NotebookFunction =>
      let* record := gets (λ a, get_notebook_goblin (rv_kind source_version) (w_notebooks (a_world a))) in
      let* record := (match record with
        | Some r => ret r
        | None => raise (HTTPException 500 ("repository notebook goblin missing: " +:+ rv_kind source_version))
        end) in
      let* result := zoom world_lens (validate_function request record) in
      if vr_ok result then ret (validation_dump result) else refuse (validation_dump result)
  | NotebookService =>
      let* record := gets (λ a, get_notebook_service (rv_kind source_version) (a_notebook_services a)) in
      let* record := (match record with
        | Some r => ret r
        | None => raise (HTTPException 500 ("repository notebook service missing: " +:+ rv_kind source_version))
        end) in
      let* runtime := zoom world_lens
        (manager_validate record (default 120 (or_timeout (rq_timeout_seconds request) (Some 120)))) in
      match runtime with
      | inr error => refuse {[ "ok" := JBool false; "error" := JStr error ]}
      | inl model =>
          let* now := now_api in
          do* zoom notebook_services_lens
                (update_notebook_service_runtime (ns_kind record) "validated" None None None (Some now)) in
          ret {[ "ok" := JBool true; "runtime" := JObj (map_to_list model) ]}
      end
  end.

Definition validate_repository_entry (entry_id : string) (request : RepositoryValidateRequest)
    (version : option Z) (principal : Principal)
    : M ApiWorld (RepositoryEntryRecord * RepositoryVersionRecord * dict) :=
  do* lift_result _require_repository_enabled in
  do* lift_result (_forbid_viewer_write principal) in
  let* entry := entry_for_principal entry_id principal in
  do* lift_result (_require_repository_owner_or_admin principal entry) in
  let* source_version := _repository_requested_version entry version in
  let* proof := directory_proof request principal entry source_version in
  let* updated_version :=
    move_version (re_id entry) (rv_version source_version) Validated (Some proof) None None in
  let* updated_entry := repo_gets (Repository.get_repository_entry (re_id entry)) in
  let* updated_entry := (match updated_entry with Some e => ret e | None => raise AssertionError end) in
  do* validation_audit "success" principal entry (rv_version updated_version) proof in
  ret (updated_entry, updated_version, proof).

(** ** Review *)

Definition request_repository_review (entry_id : string) (note : option string) (version : option Z)
    (principal : Principal) : M ApiWorld EntryDetail :=
  do* lift_result _require_repository_enabled in
  let* entry := entry_for_principal entry_id principal in
  do* lift_result (_require_repository_owner_or_admin principal entry) in
  let* source_version := _repository_requested_version entry version in
  do* raise_if (negb (bool_decide (rv_status source_version = Validated)))
        (HTTPException 409 "repository version must be validated") in
  let* updated := move_version (re_id entry) (rv_version source_version) PendingReview None None None in
  do* audit_entry "repository.review_requested" principal entry
        {[ "version" := JInt (rv_version updated); "note" := JOptStr note ]} in
  refreshed_detail (re_id entry).

Definition approve_repository_entry (entry_id : string) (note : option string) (version : option Z)
    (principal : Principal) : M ApiWorld EntryDetail :=
  do* lift_result _require_repository_enabled in
  let* entry := entry_for_principal entry_id principal in
  let* source_version := _repository_requested_version entry version in
  do* raise_if (negb (bool_decide (rv_status source_version = PendingReview)))
        (HTTPException 409 "repository version must be pending review") in
  let* updated := move_version (re_id entry) (rv_version source_version) Approved None
                    (Some (pr_user_id principal)) None in
  do* audit_entry "repository.approve" principal entry
        {[ "version" := JInt (rv_version updated); "note" := JOptStr note ]} in
  refreshed_detail (re_id entry).

Definition reject_repository_entry (entry_id : string) (note : option string) (version : option Z)
    (principal : Principal) : M ApiWorld EntryDetail :=
  do* lift_result _require_repository_enabled in
  let* entry := entry_for_principal entry_id principal in
  let* source_version := _repository_requested_version entry version in
  let* updated := move_version (re_id entry) (rv_version source_version) Rejected None None None in
  do* audit_entry "repository.reject" principal entry
        {[ "version" := JInt (rv_version updated); "note" := JOptStr note ]} in
  refreshed_detail (re_id entry).

Definition publish_repository_entry (entry_id : string) (version : option Z) (principal : Principal)
    : M ApiWorld EntryDetail :=
  do* lift_result _require_repository_enabled in
  let* entry := entry_for_principal entry_id principal in
  let* source_version := _repository_requested_version entry version in
  do* raise_if (negb (bool_decide (rv_status source_version = Approved)))
        (HTTPException 409 "repository version must be approved") in
  let* updated := move_version (re_id entry) (rv_version source_version) Published None
                    (rv_approved_by source_version) (rv_approved_at source_version) in
  do* audit_entry "repository.publish" principal entry {[ "version" := JInt (rv_version updated) ]} in
  refreshed_detail (re_id entry).

Definition retire_repository_entry (entry_id : string) (note : option string) (principal : Principal)
    : M ApiWorld EntryDetail :=
  do* lift_result _require_repository_enabled in
  let* entry := entry_for_principal entry_id principal in
  let* now := now_api in
  let* updated := zoom repo_lens
    (transition_repository_entry_status (re_id entry) Retired now None) in
  do* audit_entry "repository.retire" principal entry {[ "note" := JOptStr note ]} in
  _repository_entry_detail updated.

(** A version whose service still runs. *)
Definition running_version (a : ApiWorld) (v : RepositoryVersionRecord) : bool :=
  match get_notebook_service (rv_kind v) (a_notebook_services a) with
  | Some r => truthy_opt (ns_active_service_id r)
  | None => false
  end.

Definition delete_repository_entry (entry_id : string) (principal : Principal) : M ApiWorld DeletedEntry :=
  do* lift_result _require_repository_enabled in
  let* entry := entry_for_principal entry_id principal in
  do* raise_if (negb (deletable (re_status entry)))
        (HTTPException 409 "repository entry must be draft, rejected, or retired before permanent deletion; retire published entries first") in
  let* running := gets (λ a, existsb (running_version a)
                                (list_repository_versions (re_id entry) None (view repo_lens a))) in
  do* raise_if (bool_decide (re_type entry = NotebookService) && running)
        (HTTPException 409 "repository service is still running; stop it before deleting") in
  let* deleted := try_catch (zoom repo_lens (Repository.delete_repository_entry (re_id entry)))
    (λ e, if is_value_error e then raise (HTTPException 409 (exn_str e)) else raise e) in
  do* audit_entry "repository.delete" principal entry
        {[ "name" := JStr (re_name entry); "status" := JStr (entry_status_str (re_status entry));
           "deleted_versions" := JInt (de_deleted_versions deleted);
           "deleted_notebook_records" := JInt (de_deleted_notebook_records deleted) ]} in
  ret deleted.

(** ** Running a published function *)

Definition _resolve_published_repository_version (name : string) (expected_type : RepositoryGoblinType)
    (principal : Principal) (project_id : option string) (version : option Z)
    : M ApiWorld (RepositoryEntryRecord * RepositoryVersionRecord) :=
  do* lift_result _require_repository_enabled in
  let* scoped_project := project_for_request state principal project_id in
  let* found := repo_gets (get_repository_entry_by_project_name scoped_project name false) in
  let* entry := found_or_404 found ("published repository entry not found: " +:+ name) in
  do* raise_if (negb (bool_decide (re_type entry = expected_type)))
        (HTTPException 409 ("repository entry is " +:+ goblin_type_str (re_type entry) +:+ ", not "
                            +:+ goblin_type_str expected_type)) in
  match nonzero_or version (re_published_version entry) with
  | None =>
      let* versions := repo_gets (list_repository_versions (re_id entry) None) in
      let* latest := lift_result (match last (filter (λ v, rv_status v = Published) versions) with
        | Some v => Ok v
        | None => Err (HTTPException 409 ("repository entry has no published version: " +:+ name)) end) in
      ret (entry, latest)
  | Some n =>
      let* found := repo_gets (get_repository_version (re_id entry) n) in
      let* found := lift_result found in
      let* resolved := found_or_404 found
        ("repository version not found: " +:+ name +:+ ":" +:+ pretty n) in
      do* raise_if (negb (bool_decide (rv_status resolved = Published)))
            (HTTPException 409 ("repository version is not published: " +:+ name +:+ ":" +:+ pretty n)) in
      ret (entry, resolved)
  end.

Definition run_repository_function (name : string) (request : RepositoryFunctionRunRequest)
    (principal : Principal) : M ApiWorld (RepositoryEntryRecord * RepositoryVersionRecord * JobRecord) :=
  let* (entry, version_record) :=
    _resolve_published_repository_version name NotebookFunction principal (rf_project_id request)
      (rf_version request) in
  let* record := gets (λ a, get_notebook_goblin (rv_kind version_record) (w_notebooks (a_world a))) in
  do* raise_if (negb (opt_truthy record))
        (HTTPException 500 ("repository notebook goblin missing: " +:+ rv_kind version_record)) in
  let* job := _queue_job state
    (mkJobRequest (rv_kind version_record) (rf_input request) (rf_priority request) (re_project_id entry)
       (rf_correlation_id request) (rf_max_retries request) (rf_timeout_seconds request))
    principal (Some (entry, version_record)) in
  do* audit_entry "repository.run" principal entry
        {[ "name" := JStr (re_name entry); "version" := JInt (rv_version version_record);
           "kind" := JStr (rv_kind version_record); "job_id" := JStr (j_id job) ]} in
  ret (entry, version_record, job).
End handlers.

Example kind_part_examples :
  map (@_repository_kind_part frozen_env) [Some "Team A__B"; Some "---"; None; Some "team-a-b"]
  = ["team-a-b"; "global"; "global"; "team-a-b"].
Proof. vm_compute. reflexivity. Qed.

(** ** Lemmas: derived kinds *)

Definition plain (l : list ascii) : Prop := Forall (λ c, is_newline c = false) l.

Lemma kind_chars_join st l c w :
  kind_chars st l = true → plain l → is_kind_sep c = true → kind_chars false w = true →
  kind_chars st (l ++ c :: w) = true.
Proof.
  intros Hl Hp Hc Hw. revert st Hl. induction Hp as [|x l Hx Hp IH]; intros st; simpl.
  - intros ->. by rewrite kind_sep_not_char, Hc.
  - destruct (is_kind_char x); [apply IH|]. destruct (st && is_kind_sep x); [apply IH|].
    by rewrite Hx, andb_false_r.
Qed.
Lemma kind_chars_word l : l ≠ [] → Forall (λ c, is_kind_char c = true) l → kind_chars false l = true.
Proof.
  intros Hne HF. assert (∀ st, kind_chars st l = true ∨ l = []) as Hl.
  { clear Hne. induction HF as [|c l Hc HF IH]; intros st; [by right|left]. simpl. rewrite Hc.
    by destruct (IH true) as [| ->]. }
  by destruct (Hl false).
Qed.

(** Squeezing a word of letters, digits and dashes that does not end in a dash. *)
Lemma squeeze_kind l :
  Forall (λ c, is_kind_char c = true ∨ c = dash) l → last l ≠ Some dash →
  kind_chars true (squeeze_dashes l) = true ∧ plain (squeeze_dashes l).
Proof.
  induction l as [|x l IH]; intros HF Hlast; [by split; [|constructor]|].
  apply Forall_cons in HF as [Hx HF].
  assert (last l ≠ Some dash ∨ l = []) as Hl by (destruct l; [by right|by left]).
  destruct Hx as [Hx| ->].
  - assert (Ascii.eqb x dash = false) as Hd.
    { apply Ascii.eqb_neq. by intros ->. }
    cbn [squeeze_dashes]. rewrite Hd. cbn [andb].
    assert (kind_chars true (squeeze_dashes l) = true ∧ plain (squeeze_dashes l)) as [Hk Hp]
      by (destruct Hl as [Hl| ->]; [by apply IH|by split; [|constructor]]).
    cbn [kind_chars]. rewrite Hx. split; [done|]. constructor; [by apply kind_char_not_newline|done].
  - destruct l as [|y l]; [done|]. destruct (IH HF Hlast) as [Hk Hp].
    change (squeeze_dashes (dash :: y :: l)) with
      (if Ascii.eqb y dash then squeeze_dashes (y :: l) else dash :: squeeze_dashes (y :: l)).
    destruct (Ascii.eqb y dash) eqn:Hy; [done|].
    split; [|by constructor].
    apply Forall_cons in HF as [[Hy'| ->] _]; [|by rewrite Ascii.eqb_refl in Hy].
    cbn [squeeze_dashes] in Hk |- *. rewrite Hy in *. cbn [andb] in *.
    cbn [kind_chars] in *. by rewrite Hy' in *.
Qed.

Lemma drop_char_head c l : head (drop_char c l) ≠ Some c.
Proof. induction l as [|x l IH]; simpl; [done|]. destruct (Ascii.eqb_spec x c) as [->|?]; [done|simpl; congruence]. Qed.
Lemma drop_char_Forall c (P : ascii → Prop) l : Forall P l → Forall P (drop_char c l).
Proof. induction 1 as [|x l Hx HF IH]; simpl; [done|]. destruct (Ascii.eqb x c); [done|by constructor]. Qed.
Lemma drop_char_suffix c l : drop_char c l `suffix_of` l.
Proof.
  induction l as [|x l IH]; simpl; [done|]. destruct (Ascii.eqb x c); [by apply suffix_cons_r|done].
Qed.
Lemma last_suffix {A} (k l : list A) : k `suffix_of` l → k ≠ [] → last k = last l.
Proof. intros [k' ->] Hne. rewrite last_app. destruct (last k) eqn:E; [done|]. by apply last_None in E. Qed.
Lemma rev_ends {A} (l : list A) : head (rev l) = last l ∧ last (rev l) = head l.
Proof.
  rewrite rev_alt. change (rev_append l []) with (reverse l).
  split; [|by rewrite last_reverse]. by rewrite <- (reverse_involutive l) at 2; rewrite last_reverse.
Qed.
Lemma strip_dashes_ends l : head (strip_dashes l) ≠ Some dash ∧ last (strip_dashes l) ≠ Some dash.
Proof.
  unfold strip_dashes. set (m := drop_char dash l). set (k := drop_char dash (rev m)).
  destruct (rev_ends k) as [-> ->]. split; [|apply drop_char_head].
  destruct (decide (k = [])) as [->|Hne]; [done|].
  rewrite (last_suffix k (rev m)) by (done || apply drop_char_suffix).
  destruct (rev_ends m) as [_ ->]. apply drop_char_head.
Qed.
Lemma strip_dashes_Forall (P : ascii → Prop) l : Forall P l → Forall P (strip_dashes l).
Proof. intros HF. unfold strip_dashes. by apply Forall_rev, drop_char_Forall, Forall_rev, drop_char_Forall. Qed.

(** A kind segment: valid on its own, without the newline the pattern tolerates. *)
Definition kind_segment (s : string) : Prop :=
  GOBLIN_KIND_PATTERN s = true ∧ plain (String.list_ascii_of_string s).

Lemma alnum_lower c : is_alnum (lower_char c) = true → is_kind_char (lower_char c) = true.
Proof. destruct c as [[] [] [] [] [] [] [] []]; vm_compute; done. Qed.
Lemma squeezed_segment l :
  Forall (λ c, is_kind_char c = true ∨ c = dash) l → head l ≠ Some dash → last l ≠ Some dash → l ≠ [] →
  kind_chars false (squeeze_dashes l) = true ∧ plain (squeeze_dashes l).
Proof.
  intros HF Hhead Hlast Hne. destruct (squeeze_kind l HF Hlast) as [Hk Hp]. split; [|done].
  destruct l as [|x l]; [done|]. apply Forall_cons in HF as [[Hx| ->] _]; [|done].
  cbn [squeeze_dashes] in *. destruct (Ascii.eqb_spec x dash) as [->|_]; [done|]. cbn [andb] in *.
  cbn [kind_chars] in *. by rewrite Hx in *.
Qed.

(** Of a project with an ASCII name, each character is kept in lower case or becomes a dash. *)
Lemma ascii_cleaned `{Env} s :
  is_ascii s = true →
  concat ((λ w, if character_isalnum w then w else [dash]) <$> characters (chars (text_lower s)))
  = (λ c, if is_alnum c then c else dash) <$> map lower_char (chars s).
Proof.
  intros Hs. unfold text_lower. rewrite Hs. unfold lower. rewrite chars_text. rewrite characters_ascii.
  - clear. induction (map lower_char (chars s)) as [|c l IH]; [done|]. cbn in *. by destruct (is_alnum c); simpl; f_equal.
  - unfold is_ascii in Hs. apply forallb_forall in Hs || rewrite forallb_forall in Hs.
    apply Forall_forall. intros c (d & <- & Hd)%list_elem_of_In%in_map_iff. specialize (Hs d Hd).
    revert Hs. by destruct d as [[] [] [] [] [] [] [] []].
Qed.
(** The part of such a project is a segment. *)
Lemma kind_part_segment `{Env} project : is_ascii (default EmptyString project) = true → kind_segment (_repository_kind_part project).
Proof.
  intros Hascii. unfold _repository_kind_part. rewrite ascii_cleaned
    by (unfold or_text; destruct project as [q|]; simpl in *; [by destruct (truthy q)|done]). set (cleaned := fmap _ _). set (l := strip_dashes cleaned).
  assert (kind_segment "global") as Hglobal by (split; [done|]; by repeat constructor).
  cbv zeta. destruct (decide (l = [])) as [->|Hne]; [done|].
  destruct (squeezed_segment l) as [Hk Hp]; [|apply strip_dashes_ends..|done|].
  { apply strip_dashes_Forall, Forall_fmap, Forall_forall. intros c (c' & <- & _)%list_elem_of_In%in_map_iff.
    unfold compose. cbv beta. destruct (is_alnum (lower_char c')) eqn:Ha; [left; by apply alnum_lower|by right]. }
  destruct (truthy _); [|done]. unfold kind_segment, GOBLIN_KIND_PATTERN.
  by rewrite String.list_ascii_of_string_of_list_ascii.
Qed.

(** Decimal digits. *)
Lemma pretty_digits (n : Z) :
  0 ≤ n → Forall (λ c, is_kind_char c = true) (String.list_ascii_of_string (pretty n))
          ∧ String.list_ascii_of_string (pretty n) ≠ [].
Proof.
  assert (∀ d, is_kind_char (pretty_N_char d) = true) as Hd
    by (intros d; unfold pretty_N_char; repeat case_match; done).
  assert (∀ x s, Forall (λ c, is_kind_char c = true) (String.list_ascii_of_string s) →
    Forall (λ c, is_kind_char c = true) (String.list_ascii_of_string (pretty_N_go x s))
    ∧ (s ≠ EmptyString ∨ (0 < x)%N → String.list_ascii_of_string (pretty_N_go x s) ≠ [])) as Hgo.
  { intros x. induction (N.lt_wf_0 x) as [x _ IH]. intros s HF.
    destruct (decide (0 < x)%N) as [Hx|Hx].
    - rewrite pretty_N_go_step by done. destruct (IH (x `div` 10)%N) with (s := String (pretty_N_char (x `mod` 10)) s)
        as [H1 H2]; [by apply N.div_lt|by constructor|]. split; [done|]. intros _. by apply H2; left.
    - assert (x = 0%N) as -> by lia. rewrite pretty_N_go_0. split; [done|]. intros [Hs|?]; [by destruct s|lia]. }
  intros Hn. destruct n as [|q|q]; [by split; [repeat constructor|]| |lia].
  change (pretty (Z.pos q)) with (pretty (N.pos q)). unfold pretty, pretty_N.
  destruct (decide _); [done|]. destruct (Hgo (N.pos q) EmptyString) as [H1 H2]; [constructor|].
  split; [done|]. apply H2. right. lia.
Qed.

Lemma segment_join s t c :
  kind_segment s → is_kind_sep c = true → kind_segment t → is_newline c = false →
  kind_segment (s +:+ String c t).
Proof.
  intros [Hs Hps] Hc [Ht Hpt] Hn. unfold kind_segment, GOBLIN_KIND_PATTERN, plain in *.
  assert (String.list_ascii_of_string (s +:+ String c t)
          = String.list_ascii_of_string s ++ c :: String.list_ascii_of_string t) as ->
    by (clear; induction s as [|x s IH]; simpl; [done|by f_equal]).
  split; [by apply kind_chars_join|]. apply Forall_app. split; [done|by constructor].
Qed.

(** The kinds derived for a directory entry are valid: whatever a project with an ASCII name is
    called, a name that is a kind without a trailing newline gives an entry kind and
    version kinds the pattern accepts.  Other letters are kept ([accented_project]). *)
Theorem repository_kinds_valid `{Env} project name version :
  is_ascii (default EmptyString project) = true → kind_segment name → 0 ≤ version →
  kind_segment (_repository_entry_kind project name)
  ∧ kind_segment (_repository_version_kind project name version).
Proof.
  intros Hascii Hname Hv. assert (kind_segment (_repository_entry_kind project name)) as He.
  { unfold _repository_entry_kind.
    change ("repository." +:+ ?s) with ("repository" +:+ String "." s).
    apply segment_join; [by split; [|repeat constructor]|done| |done].
    change ("." +:+ name) with (String "." name). apply segment_join; [by apply kind_part_segment|done..]. }
  split; [done|]. unfold _repository_version_kind.
  change (".v" +:+ ?s) with (String "." (String "v" s)). apply segment_join; [done|done| |done].
  destruct (pretty_digits version Hv) as [HF Hne]. unfold kind_segment, GOBLIN_KIND_PATTERN.
  split; [apply kind_chars_word; [done|by constructor]|].
  constructor; [done|]. eapply Forall_impl; [exact HF|]. apply kind_char_not_newline.
Qed.
Lemma repository_kinds_valid_witness :
  kind_segment (@_repository_version_kind frozen_env (Some "Team A") "hello" 1).
Proof. apply (@repository_kinds_valid frozen_env (Some "Team A") "hello" 1); [done|split; [done|repeat constructor]|lia]. Defined.
(** A letter beyond ASCII is alphanumeric and kept, but the pattern of a kind refuses it: a
    submission to such a project fails on the kind it made. *)
Example accented_project :
  let name := text (ascii_of_nat <$> [195; 169; 113]%nat) in
  @_repository_entry_kind frozen_env (Some name) "hello" = "repository." +:+ name +:+ ".hello"
  ∧ GOBLIN_KIND_PATTERN (@_repository_entry_kind frozen_env (Some name) "hello") = false.
Proof. vm_compute. done. Qed.
