(* ===== verification/ApiTenancy.v ===== *)
(** * What a request may see and change

    The typed requests, their dispatch behind the role check, and what the isolation of
    projects is for them: which records an answer may hold ([sees_only_mine]) and which
    rows a request leaves alone ([confined]).  Routes that are not among the requests are
    named at the theorem, [tenant_isolation] of ApiIsolation. *)

From S2P Require Import Prelude CausalTime Contracts ResourcePolicies EventStore JobStore JobLifecycle RecordStore Auth Registry World Validation Scheduler Attempts Fanout Repository Cleanup Api ApiJobs ApiServices ApiDirectory.

Inductive ApiRequest :=
| CreateJob (r : JobCreateRequest)
| ListJobs (limit offset : Z) (status : option JobStatus) (project_id : option string)
| GetJob (job_id : string) | CancelJob (job_id : string)
| CreateFanout (r : FanoutCreateRequest) | GetFanouts | GetFanout (fanout_id : string)
| RetryJob (job_id : string) (r : RetryCreateRequest)
| CreateSchedule (r : ScheduleCreateRequest) | ListSchedules
| PatchSchedule (schedule_id : string) (r : SchedulePatchRequest)
| ListEvents (q : EventQuery)
| GetRun (run_id : string)
| ListRuns (limit offset : Z) (status : option RunStatus) (kind project_id : option string)
| ListRunArtifacts (run_id : string)
| ListAuditLogs (limit offset : Z) (project_id : option string)
| RegisterService (r : LongServiceCreateRequest) | ListServices | GetService (service_id : string)
| ProbeService (service_id : string) | StopService (service_id : string)
| CreateNotebookGoblin (r : NotebookGoblinCreateRequest) | ListNotebookGoblins
| CreateNotebookService (r : NotebookServiceCreateRequest) | ListNotebookServices
| SubmitEntry (r : RepositorySubmitRequest)
| ListEntries (limit offset : Z) (project_id : option string) (type : option RepositoryGoblinType)
    (status : option RepositoryEntryStatus) (q : option string)
| GetEntry (entry_id : string)
| ValidateEntry (entry_id : string) (r : RepositoryValidateRequest) (version : option Z)
| RequestReview (entry_id : string) (note : option string) (version : option Z)
| RunFunction (name : string) (r : RepositoryFunctionRunRequest)
(* admins only *)
| CreateUser (email display_name : string) | CreateProject (name : string)
| CreateToken (name user_id : string) (project_id : option string) (role : PrincipalRole)
| CleanupRows (dry_run : bool) (project_id : option string) (include_unprobed : bool)
| ApproveEntry (entry_id : string) (note : option string) (version : option Z)
| RejectEntry (entry_id : string) (note : option string) (version : option Z)
| PublishEntry (entry_id : string) (version : option Z)
| RetireEntry (entry_id : string) (note : option string)
| DeleteEntry (entry_id : string).

(** The routes that depend on [require_admin_principal]. *)
Definition admin_only (r : ApiRequest) : bool :=
  match r with
  | CreateUser _ _ | CreateProject _ | CreateToken _ _ _ _ | CleanupRows _ _ _ | ApproveEntry _ _ _
  | RejectEntry _ _ _ | PublishEntry _ _ | RetireEntry _ _ | DeleteEntry _ => true
  | _ => false
  end.

Inductive ApiResponse :=
| RJobs (l : list JobRecord) | RFanouts (l : list FanoutDetail) | RSchedules (l : list ScheduleRecord)
| REvents (l : list EventRecord) | RRuns (l : list RunRecord)
| RArtifacts (run_id : string) (l : list (ArtifactRecord * string))
| RAudit (l : list AuditLogRecord) | RServices (l : list LongServiceRecord)
| RNotebooks (l : list NotebookGoblinRecord) | RNotebookServices (l : list NotebookServiceRecord)
| REntries (l : list EntryDetail) | RFunctionRun (d : EntryDetail) (j : JobRecord)
| RAdmin.

Section dispatch.
Context `{Sqlite} `{Env} `{Crypto} `{Pydantic} `{Floats} `{Host} `{Workers} `{CronParser} `{HttpProbe}
  `{DirectoryRuntime}.
Context (state : AppState).

Definition fmap_M {S A B} (f : A → B) (m : M S A) : M S B := let* x := m in ret (f x).

Definition handler (r : ApiRequest) (p : Principal) : M ApiWorld ApiResponse :=
  match r with
  | CreateJob r => fmap_M (λ j, RJobs [j]) (create_job state r p)
  | ListJobs l o s q => fmap_M (λ x, RJobs x.1) (list_jobs state l o s q p)
  | GetJob id => fmap_M (λ j, RJobs [j]) (get_job state id p)
  | CancelJob id => fmap_M (λ j, RJobs [j]) (cancel_job state id p)
  | CreateFanout r => fmap_M (λ d, RFanouts [d]) (create_jobs_fanout state r p)
  | GetFanouts => fmap_M RFanouts (get_fanouts p)
  | GetFanout id => fmap_M (λ d, RFanouts [d]) (get_fanout state id p)
  | RetryJob id r => fmap_M (λ j, RJobs [j]) (retry_api_job state id r p)
  | CreateSchedule r => fmap_M (λ s, RSchedules [s]) (create_schedule state r p)
  | ListSchedules => fmap_M RSchedules (list_schedules p)
  | PatchSchedule id r => fmap_M (λ s, RSchedules [s]) (patch_schedule state id r p)
  | ListEvents q => fmap_M (λ x, REvents x.1) (list_events state q p)
  | GetRun id => fmap_M (λ r, RRuns [r]) (get_run state id p)
  | ListRuns l o s k q => fmap_M (λ x, RRuns x.1) (list_runs state l o s k q p)
  | ListRunArtifacts id => fmap_M (RArtifacts id) (list_run_artifacts state id p)
  | ListAuditLogs l o q => fmap_M (λ x, RAudit x.1) (list_audit_logs state l o q p)
  | RegisterService r => fmap_M (λ s, RServices [s]) (register_long_running_service state r p)
  | ListServices => fmap_M RServices (list_long_running_services p)
  | GetService id => fmap_M (λ s, RServices [s]) (get_long_running_service state id p)
  | ProbeService id => fmap_M (λ x, RServices [x.1.1]) (probe_long_running_service state id p)
  | StopService id => fmap_M (λ s, RServices [s]) (stop_long_running_service state id p)
  | CreateNotebookGoblin r => fmap_M (λ x, RNotebooks [x]) (create_notebook_goblin state r p)
  | ListNotebookGoblins => fmap_M RNotebooks (list_notebook_goblins state p)
  | CreateNotebookService r => fmap_M (λ x, RNotebookServices [x]) (create_notebook_service state r p)
  | ListNotebookServices => fmap_M RNotebookServices (list_notebook_services state p)
  | SubmitEntry r => fmap_M (λ x, REntries [mkEntryDetail x.1 [x.2]]) (submit_repository_entry state r p)
  | ListEntries l o q t s text =>
      fmap_M (λ x, REntries x.1) (list_repository_entries state l o q t s text p)
  | GetEntry id => fmap_M (λ d, REntries [d]) (get_repository_entry state id p)
  | ValidateEntry id r v => fmap_M (λ x, REntries [mkEntryDetail x.1.1 [x.1.2]]) (validate_repository_entry state id r v p)
  | RequestReview id n v => fmap_M (λ d, REntries [d]) (request_repository_review state id n v p)
  | RunFunction n r => fmap_M (λ x, RFunctionRun (mkEntryDetail x.1.1 [x.1.2]) x.2) (run_repository_function state n r p)
  | CreateUser e n => fmap_M (λ _, RAdmin) (create_admin_user e n p)
  | CreateProject n => fmap_M (λ _, RAdmin) (create_admin_project n p)
  | CreateToken n u q r => fmap_M (λ _, RAdmin) (create_admin_token n u q r p)
  | CleanupRows d q i => fmap_M (λ _, RAdmin) (cleanup_runtime_rows state d q i p)
  | ApproveEntry id n v => fmap_M (λ d, REntries [d]) (approve_repository_entry state id n v p)
  | RejectEntry id n v => fmap_M (λ d, REntries [d]) (reject_repository_entry state id n v p)
  | PublishEntry id v => fmap_M (λ d, REntries [d]) (publish_repository_entry state id v p)
  | RetireEntry id n => fmap_M (λ d, REntries [d]) (retire_repository_entry state id n p)
  | DeleteEntry id => fmap_M (λ _, RAdmin) (delete_repository_entry state id p)
  end.

(** The handler behind its dependency. *)
Definition handle (r : ApiRequest) (p : Principal) : M ApiWorld ApiResponse :=
  if admin_only r then do* require_admin_principal p in handler r p else handler r p.
End dispatch.

(** ** Whose records *)

(** The caller's project, or none: a record without a project has no owner. *)
Definition mine (p : Principal) (q : option string) : Prop :=
  q = pr_project_id p ∨ truthy_opt q = false.
Definition foreign (p : Principal) (q : option string) : Prop := ¬ mine p q.

(** An entry of the caller's project, with versions of its own. *)
Definition own_detail (p : Principal) (d : EntryDetail) : Prop :=
  mine p (re_project_id (ed_entry d)) ∧ ∀ v, v ∈ ed_versions d → rv_entry_id v = re_id (ed_entry d).

(** The records of an answer, those nested in it included: a batch's jobs name the batch and
    have its project, its runs are those jobs'; an entry's versions are its own; a run's
    artifacts are its own. *)
Definition sees_only_mine (p : Principal) (a : ApiWorld) (resp : ApiResponse) : Prop :=
  match resp with
  | RJobs l => ∀ j, j ∈ l → mine p (j_project_id j)
  | RFanouts l => ∀ d, d ∈ l → mine p (f_project_id (fd_fanout d)) ∧ (batches (a_world a) → own_batch d)
  | RSchedules l => ∀ s, s ∈ l → mine p (sc_project_id s)
  | REvents l => ∀ e, e ∈ l → mine p (e_project_id e)
  | RRuns l => ∀ r, r ∈ l → mine p (r_project_id r) ∨ mine p (project_id_for_run r a)
  | RArtifacts run_id l => (∃ r, JobStore.get_run run_id (w_jobs (a_world a)) = Ok (Some r)
                                ∧ mine p (project_id_for_run r a))
                           ∧ ∀ x, x ∈ l → (run_id, x.1) ∈ artifacts (w_jobs (a_world a))
  | RAudit l => ∀ x, x ∈ l → mine p (al_project_id x)
  | RServices l => ∀ s, s ∈ l → mine p (ls_project_id s)
  | RNotebooks l => ∀ x, x ∈ l → mine p (ng_project_id x)
  | RNotebookServices l => ∀ x, x ∈ l → mine p (ns_project_id x)
  | REntries l => ∀ d, d ∈ l → own_detail p d
  | RFunctionRun d j => own_detail p d ∧ mine p (j_project_id j)
  | RAdmin => False
  end.

(** Rows under their keys, in the tables whose handlers write back by a record's id. *)
Definition keyed (a : ApiWorld) : Prop :=
  map_Forall (λ k s, sc_id s = k) (w_schedules (a_world a))
  ∧ map_Forall (λ k s, ls_id s = k) (a_services a)
  ∧ map_Forall (λ k e, re_id e = k) (a_entries a).

(** The rows of other projects stay as they are; nothing is taken away from anyone,
    and the identity tables are untouched. *)
Record confined (p : Principal) (a a' : ApiWorld) : Prop := {
  cf_jobs : ∀ id j, jobs (w_jobs (a_world a)) !! id = Some j → foreign p (j_project_id j) →
    jobs (w_jobs (a_world a')) !! id = Some j;
  cf_runs : runs (w_jobs (a_world a')) = runs (w_jobs (a_world a))
    ∧ artifacts (w_jobs (a_world a')) = artifacts (w_jobs (a_world a))
    ∧ handoffs (w_jobs (a_world a')) = handoffs (w_jobs (a_world a));
  cf_schedules : ∀ id s, w_schedules (a_world a) !! id = Some s → foreign p (sc_project_id s) →
    w_schedules (a_world a') !! id = Some s;
  cf_fanouts : ∀ id f, w_fanouts (a_world a) !! id = Some f → w_fanouts (a_world a') !! id = Some f;
  cf_services : ∀ id s, a_services a !! id = Some s → foreign p (ls_project_id s) →
    a_services a' !! id = Some s;
  cf_entries : ∀ id e, a_entries a !! id = Some e → foreign p (re_project_id e) →
    a_entries a' !! id = Some e;
  cf_versions : ∀ id v e, a_versions a !! id = Some v → a_entries a !! rv_entry_id v = Some e →
    foreign p (re_project_id e) → a_versions a' !! id = Some v;
  cf_identity : a_users a' = a_users a ∧ a_projects a' = a_projects a ∧ a_tokens a' = a_tokens a;
  cf_keyed : keyed a → keyed a'
}.

#[export] Instance confined_preorder p : PreOrder (confined p).
Proof.
  split; [intros a; by split|].
  intros a b c [Hj1 (? & ? & ?) Hs1 Hf1 Hl1 He1 Hv1 (? & ? & ?) Hk1]
    [Hj2 (? & ? & ?) Hs2 Hf2 Hl2 He2 Hv2 (? & ? & ?) Hk2].
  split; try (split_and!; congruence); eauto.
Qed.

Abbreviation Confined p m := (Within (confined p) m).

(** What calls on the process, the event log and the audit log leave alone. *)
Definition guarded (a : ApiWorld) :=
  (w_jobs (a_world a), w_schedules (a_world a), w_fanouts (a_world a), a_services a, a_entries a,
   a_versions a, (a_users a, a_projects a, a_tokens a)).

Lemma guarded_confined p a a' : guarded a' = guarded a → confined p a a'.
Proof.
  intros [= Hj Hs Hf Hl He Hv Hu Hp Ht].
  split; unfold keyed; rewrite ?Hj, ?Hs, ?Hf, ?Hl, ?He, ?Hv; auto.
Qed.
#[export] Instance confined_preserved p {A} (m : M ApiWorld A) :
  Preserves guarded m → Confined p m | 100.
Proof. intros Hm a. apply guarded_confined, Hm. Qed.

Section frames.
Context `{Sqlite} `{Env}.
Context (p : Principal) (state : AppState).

#[export] Instance guarded_process {A} (m : M Process A) : Preserves guarded (zoom a_process_lens m).
Proof. intros a. rewrite zoom_eq. by destruct_states. Qed.
#[export] Instance guarded_bus {A} (m : M Bus A) : Preserves guarded (zoom a_bus_lens m).
Proof. intros a. rewrite zoom_eq. by destruct_states. Qed.
#[export] Instance guarded_audited {A} (m : M Audited A) : Preserves guarded (zoom a_audited_lens m).
Proof. intros a. rewrite zoom_eq. by destruct_states. Qed.
#[export] Instance guarded_goblins {A} (m : M (table NotebookGoblinRecord) A) :
  Preserves guarded (zoom notebooks_lens m).
Proof. intros a. rewrite zoom_eq. by destruct_states. Qed.
#[export] Instance guarded_notebook_services {A} (m : M (table NotebookServiceRecord) A) :
  Preserves guarded (zoom notebook_services_lens m).
Proof. intros a. rewrite zoom_eq. by destruct_states. Qed.

#[export] Instance guarded_now : Preserves guarded now_api.
Proof. apply _. Qed.
#[export] Instance guarded_uuid : Preserves guarded uuid_api.
Proof. apply _. Qed.
#[export] Instance guarded_emit ty d q j f s w t : Preserves guarded (emit_api ty d q j f s w t).
Proof. unfold emit_api. apply _. Qed.
#[export] Instance guarded_audit ac o pr q rt ri d : Preserves guarded (audit_api ac o pr q rt ri d).
Proof. apply _. Qed.
#[export] Instance guarded_success ac pr q rt ri d : Preserves guarded (audit_success ac pr q rt ri d).
Proof. apply _. Qed.
#[export] Instance guarded_found {A} (o : option A) d : Preserves guarded (found_or_404 o d).
Proof. destruct o; apply _. Qed.
#[export] Instance guarded_project pr q : Preserves guarded (project_for_request state pr q).
Proof. unfold project_for_request. destruct (require_project_access _ _) as [|[]]; apply _. Qed.
#[export] Instance guarded_run id pr : Preserves guarded (run_for_principal state id pr).
Proof. unfold run_for_principal. apply _. Qed.
#[export] Instance guarded_admin pr : Preserves guarded (require_admin_principal pr).
Proof. unfold require_admin_principal. destruct (require_admin pr) as [|[]]; apply _. Qed.
End frames.

(** ** Concrete instances *)

(** Every cron expression and zone parses; services do not answer; validation runs
    on a cluster and passes. *)
Definition any_cron : CronParser := {| croniter_parse := λ _, None; zone_info := λ _, None |}.
Definition silent_services : HttpProbe := {| http_get := λ _ _, HttpUnreachable "timed out" |}.
Definition local_directory : DirectoryRuntime := {|
  running_in_kubernetes := true;
  validate_with_kubernetes := λ record _ _ _,
    ret (validation_result (ng_kind record) true (Some (ng_image record)) (Some "sha256:1") None
           (Some "success") None 0 None ["image"]);
  manager_validate := λ _ _, ret (inl {[ "status" := JStr "ready" ]})
|}.

Definition plain_settings : ApiSettings :=
  mkApiSettings "boot" None 60 None None true "function:1" "service:1".
Definition plain_state : AppState := mkAppState plain_settings ∅ ∅ None.
Definition plain_handle (r : ApiRequest) (p : Principal) (a : ApiWorld) : ApiWorld * result ApiResponse :=
  @handle sqlite_merge frozen_env plain_crypto strict_pydantic int_floats down_host down_workers any_cron
    silent_services local_directory plain_state r p a.

Definition member (user project : string) : Principal :=
  mkPrincipal user user RoleMember (Some project) false "token".
Definition root : Principal := mkPrincipal "root" "root" RoleAdmin None false "token".
(** Job [high] and a published entry, both of project [p1]. *)
Definition p1_api : ApiWorld :=
  mkApi claimed_world (entries published_repo) (versions published_repo) ∅ ∅ ∅ ∅ ∅ ∅ 0 0 ∅.
Definition empty_api : ApiWorld :=
  mkApi (world_with empty_job_tables) ∅ ∅ ∅ ∅ ∅ ∅ ∅ ∅ 0 0 ∅.

Lemma p1_api_keyed : keyed p1_api.
Proof. split_and!; [apply map_Forall_empty..|]. by apply (bool_decide_unpack _); vm_compute. Qed.

(** A member sees and cancels the job of their own project only. *)
Example cancel_of_others :
  (plain_handle (CancelJob "high") (member "eve" "p2") p1_api).2 = Err (HTTPException 403 "project access denied")
  ∧ is_ok (plain_handle (CancelJob "high") (member "ada" "p1") p1_api).2 = true.
Proof. split; vm_compute; reflexivity. Qed.
