(* ===== verification/ApiIsolation.v ===== *)
(** * Projects are isolated

    A caller who is not an admin, through any handler of [ApiRequest]: the answer holds no
    record of another project, and no row of another project changes in the tables of
    [confined].  [secure] is both at
    once, for a call in a known state; its rules follow the handlers' syntax. *)

From S2P Require Import Prelude CausalTime Contracts ResourcePolicies EventStore JobStore JobLifecycle RecordStore Auth Registry World Validation Scheduler Attempts Fanout Repository Cleanup Api ApiJobs ApiServices ApiDirectory ApiTenancy.

(** ** A secure call *)

Definition secure (p : Principal) {A} (V : A → Prop) (m : M ApiWorld A) (a : ApiWorld) : Prop :=
  confined p a (m a).1 ∧ ∀ x, (m a).2 = Ok x → V x.

Section secure.
Context (p : Principal).
Context {A B : Type} (V : B → Prop).

Lemma secure_bind (m : M ApiWorld A) (k : A → M ApiWorld B) a :
  confined p a (m a).1 → (∀ x b, m a = (b, Ok x) → secure p V (k x) b) → secure p V (bind m k) a.
Proof.
  intros Hm Hk. unfold secure, bind. destruct (m a) as [b [x|e]]; [|by split].
  destruct (Hk x b eq_refl) as [Hc Hv]. split; [by etransitivity|exact Hv].
Qed.
Lemma secure_seq (W : A → Prop) (m : M ApiWorld A) (k : A → M ApiWorld B) a :
  secure p W m a → (∀ x b, W x → secure p V (k x) b) → secure p V (bind m k) a.
Proof.
  intros [Hc Hw] Hk. apply secure_bind; [done|]. intros x b Hb. apply Hk, Hw. by rewrite Hb.
Qed.
Lemma secure_ret (x : B) a : V x → secure p V (ret x) a.
Proof. split; [done|]. by intros ? [= <-]. Qed.
Lemma secure_raise e a : secure p V (raise e) a.
Proof. by split. Qed.
Lemma secure_gets (f : ApiWorld → A) (k : A → M ApiWorld B) a :
  secure p V (k (f a)) a → secure p V (bind (gets f) k) a.
Proof. done. Qed.
Lemma secure_lift (r : result A) (k : A → M ApiWorld B) a :
  (∀ x, r = Ok x → secure p V (k x) a) → secure p V (bind (lift_result r) k) a.
Proof. intros Hk. apply secure_bind; [done|]. intros x b [= <- ->]. by apply Hk. Qed.
Lemma secure_found (o : option A) d (k : A → M ApiWorld B) a :
  (∀ x, o = Some x → secure p V (k x) a) → secure p V (bind (found_or_404 o d) k) a.
Proof. intros Hk. destruct o; [by apply Hk|by split]. Qed.
Lemma secure_guard c e (k : unit → M ApiWorld B) a :
  (c = false → secure p V (k tt) a) → secure p V (bind (raise_if c e) k) a.
Proof. intros Hk. destruct c; [by split|by apply Hk]. Qed.
(** Past a call that leaves the guarded tables alone. *)
Lemma secure_frame (m : M ApiWorld A) (k : A → M ApiWorld B) a :
  Preserves guarded m → (∀ x b, guarded b = guarded a → secure p V (k x) b) →
  secure p V (bind m k) a.
Proof.
  intros Hm Hk. specialize (Hm a). apply secure_bind; [by apply guarded_confined|].
  intros x b Hb. apply Hk. by rewrite Hb in Hm.
Qed.
Lemma secure_step (m : M ApiWorld A) (k : A → M ApiWorld B) a :
  Confined p m → (∀ x b, secure p V (k x) b) → secure p V (bind m k) a.
Proof. intros Hm Hk. apply secure_bind; [apply Hm|]. intros x b _. apply Hk. Qed.
Lemma secure_assoc {C} (m : M ApiWorld C) (j : C → M ApiWorld A) (k : A → M ApiWorld B) a :
  secure p V (bind m (λ x, bind (j x) k)) a → secure p V (bind (bind m j) k) a.
Proof. unfold secure, bind. by destruct (m a) as [b [x|e]]. Qed.
Lemma secure_ret_bind (x : A) (k : A → M ApiWorld B) a :
  secure p V (k x) a → secure p V (bind (ret x) k) a.
Proof. done. Qed.
Lemma secure_raise_bind e (k : A → M ApiWorld B) a : secure p V (bind (raise e) k) a.
Proof. by split. Qed.
(** A handler of exceptions that raises another. *)
Lemma secure_try (m : M ApiWorld B) h a :
  secure p V m a → (∀ e b, secure p V (h e) b) → secure p V (try_catch m h) a.
Proof.
  intros [Hc Hv] Hh. unfold secure, try_catch. destruct (m a) as [b [x|e]]; [by split|].
  destruct (Hh e b) as [Hc' Hv']. split; [by etransitivity|exact Hv'].
Qed.
Lemma secure_fmap (f : A → B) (m : M ApiWorld A) a :
  secure p (V ∘ f) m a → secure p V (fmap_M f m) a.
Proof.
  intros [Hc Hv]. unfold secure, fmap_M, bind. destruct (m a) as [b [x|e]]; simpl in *; [|by split].
  split; [done|]. intros y [= <-]. by apply Hv.
Qed.
Lemma secure_weaken (V' : B → Prop) (m : M ApiWorld B) a :
  secure p V' m a → (∀ x, V' x → V x) → secure p V m a.
Proof. intros [Hc Hv] HV. split; [done|]. intros x Hx. by apply HV, Hv. Qed.
End secure.

(** The caller: not an admin, with a project. *)
Class Tenant (p : Principal) : Prop := {
  tenant_not_admin : is_admin p = false;
  tenant_project : is_Some (pr_project_id p)
}.

Section project.
Context `{Sqlite} `{Env} (p : Principal) `{!Tenant p} (state : AppState).

(** What a request may ask for. *)
Lemma secure_project {B} (V : B → Prop) requested (k : option string → M ApiWorld B) a :
  (mine p requested → secure p V (k (pr_project_id p)) a) →
  secure p V (bind (project_for_request state p requested) k) a.
Proof.
  intros Hk. apply secure_bind; [apply within|]. intros q b Hq.
  assert (q = requested_project state p requested) as Hr.
  { unfold project_for_request in Hq.
    destruct (require_project_access_cases p (requested_project state p requested)) as [E|E];
      rewrite E in Hq; [by injection Hq|]. by apply bind_ok in Hq as (? & ? & ? & ?). }
  apply project_for_request_ok in Hq as [-> Hown]. destruct (Hown tenant_not_admin) as [-> _].
  apply Hk. unfold mine.
  destruct (truthy_opt requested) eqn:Ht; [left|by right].
  unfold requested_project, or_opt in Hr. rewrite Ht, Ht in Hr. by rewrite Hr.
Qed.
End project.

(** One step of a handler. *)
Ltac secure_step :=
  lazymatch goal with
  | |- secure _ _ (ret _) _ => apply secure_ret
  | |- secure _ _ (raise _) _ => apply secure_raise
  | |- secure _ _ (fmap_M _ _) _ => apply secure_fmap
  | |- secure _ _ (bind (bind _ _) _) _ => apply secure_assoc
  | |- secure _ _ (bind (ret _) _) _ => apply secure_ret_bind
  | |- secure _ _ (bind (raise _) _) _ => apply secure_raise_bind
  | |- secure _ _ (bind (gets _) _) _ => apply secure_gets
  | |- secure _ _ (bind (lift_result _) _) _ => apply secure_lift; intros ? ?
  | |- secure _ _ (bind (found_or_404 _ _) _) _ => apply secure_found; intros ? ?
  | |- secure _ _ (bind (raise_if _ _) _) _ => apply secure_guard; intros ?
  | |- secure _ _ (bind (project_for_request _ _ _) _) _ => apply secure_project; [done|intros ?]
  | |- secure _ _ (bind _ _) _ => apply secure_frame; [apply _|intros ? ? ?]
  end.
Ltac secure_steps := repeat (cbv zeta; secure_step).

(** ** Calls on the tables *)

Section tables.
Context (p : Principal).

#[export] Instance confined_zoom_zoom {T U A} (l : lens ApiWorld T) (k : lens T U) (m : M U A) :
  Confined p (zoom (lens_compose l k) m) → Confined p (zoom l (zoom k m)).
Proof. intros Hm a. specialize (Hm a). rewrite zoom_eq in Hm. by rewrite zoom_eq, zoom_eq. Qed.

(** An insertion leaves every row there is. *)
Lemma insert_row_keeps {R} table key (r : R) t k x :
  t !! k = Some x → (insert_row table key r t).1 !! k = Some x.
Proof.
  intros Hx. unfold insert_row. destruct (t !! key) eqn:Hk; [done|]. simpl.
  rewrite lookup_insert_ne; [done|congruence].
Qed.
Lemma insert_row_keyed {R} (key : R → string) table r t :
  map_Forall (λ k x, key x = k) t → map_Forall (λ k x, key x = k) (insert_row table (key r) r t).1.
Proof.
  intros Ht. unfold insert_row. destruct (t !! key r); [done|]. by apply map_Forall_insert_2.
Qed.
(** An update of one row. *)
Lemma update_row_other {R} key q (f : R → R) t k : k ≠ key → (update_row key q f t).1 !! k = t !! k.
Proof.
  intros Hk. unfold update_row. destruct (t !! key) as [x|]; [|done]. destruct (q x); [|done].
  by apply lookup_insert_ne.
Qed.
Lemma update_row_keyed {R} (id : R → string) key q (f : R → R) t :
  (∀ x, id x = key → id (f x) = key) →
  map_Forall (λ k x, id x = k) t → map_Forall (λ k x, id x = k) (update_row key q f t).1.
Proof.
  intros Hf Ht. unfold update_row. destruct (t !! key) as [x|] eqn:Hx; [|done].
  destruct (q x); [|done]. apply map_Forall_insert_2; [by apply Hf, (Ht key x)|done].
Qed.

#[export] Instance confined_save_job job : Confined p (zoom a_jobs_lens (save_job job)).
Proof.
  intros a. rewrite zoom_eq. unfold save_job. rewrite zoom_eq. split; simpl; auto.
  intros id j Hj _. by apply insert_row_keeps.
Qed.
#[export] Instance confined_save_schedule s : Confined p (zoom a_schedules_lens (save_schedule s)).
Proof.
  intros a. rewrite zoom_eq. split; simpl; auto.
  - intros id x Hx _. by apply insert_row_keeps.
  - intros (? & ? & ?). split_and!; [by apply insert_row_keyed|done..].
Qed.
#[export] Instance confined_save_fanout f :
  Confined p (zoom (lens_compose world_lens w_fanouts_lens) (save_fanout f)).
Proof.
  intros a. rewrite zoom_eq. split; simpl; auto.
  intros id x Hx. by apply insert_row_keeps.
Qed.
#[export] Instance confined_save_service s : Confined p (zoom services_lens (save_long_service s)).
Proof.
  intros a. rewrite zoom_eq. split; simpl; auto.
  - intros id x Hx _. by apply insert_row_keeps.
  - intros (? & ? & ?). split_and!; [done|by apply insert_row_keyed|done].
Qed.

(** The updates, of a row that is the caller's. *)
Lemma confined_cancel_job id a :
  (∀ j, jobs (w_jobs (a_world a)) !! id = Some j → mine p (j_project_id j)) →
  confined p a (zoom a_jobs_lens (try_cancel_job id) a).1.
Proof.
  intros Hmine. rewrite zoom_eq. unfold try_cancel_job, bind at 1. rewrite zoom_eq.
  destruct (update_row _ _ _ _) as [t [c|e]] eqn:Hu; simpl.
  all: split; simpl; auto; intros k j Hj Hf.
  all: destruct (decide (k = id)) as [->|Hne]; [by destruct Hf; apply Hmine|].
  all: replace t with (update_row id (λ j, negb (is_terminal (j_status j))) cancelled_job
                         (jobs (w_jobs (a_world a)))).1 by (simpl in Hu; by rewrite Hu).
  all: by rewrite update_row_other.
Qed.
Lemma confined_update_schedule s a :
  (∀ x, w_schedules (a_world a) !! sc_id s = Some x → mine p (sc_project_id x)) →
  confined p a (zoom a_schedules_lens (update_schedule s) a).1.
Proof.
  intros Hmine. rewrite zoom_eq. unfold update_schedule.
  rewrite bind_tail_state by apply _. split; simpl; auto.
  - intros k x Hx Hf. destruct (decide (k = sc_id s)) as [->|Hne]; [by destruct Hf; apply Hmine|].
    by rewrite update_row_other.
  - intros (? & ? & ?). split_and!; [by apply update_row_keyed|done..].
Qed.
Lemma confined_update_service {A} id f (k : bool → M (table LongServiceRecord) A) a :
  (∀ b, Reads (k b)) → (∀ s, ls_id (f s) = ls_id s) →
  (∀ x, a_services a !! id = Some x → mine p (ls_project_id x)) →
  confined p a (zoom services_lens (bind (update_row id (λ _, true) f) k) a).1.
Proof.
  intros Hk Hid Hmine. rewrite zoom_eq, bind_tail_state by done. split; simpl; auto.
  - intros i x Hx Hf. destruct (decide (i = id)) as [->|Hne]; [by destruct Hf; apply Hmine|].
    by rewrite update_row_other.
  - intros (? & ? & ?). split_and!; [done| |done]. apply update_row_keyed; [|done].
    intros x <-. apply Hid.
Qed.
End tables.

(** ** Jobs, fanouts, schedules, events *)

Section jobs.
Context `{Sqlite} `{Env} `{Pydantic} `{Floats} `{Workers} `{CronParser}.
Context (state : AppState) (p : Principal) `{!Tenant p}.

Lemma mine_own : mine p (pr_project_id p).
Proof. by left. Qed.
(** The page of a project holds its rows. *)
Lemma where_own_mine column : where_eq (pr_project_id p) column = true → mine p column.
Proof.
  destruct tenant_project as [q Hq]. unfold where_eq, mine. rewrite Hq.
  intros ?%bool_decide_eq_true. by left.
Qed.
Lemma own_rows_mine {R} (f : R → option string) (l : list R) :
  ∀ x, x ∈ filter (λ r, f r = pr_project_id p) l → mine p (f x).
Proof. intros x [-> _]%list_elem_of_filter. apply mine_own. Qed.

#[export] Instance guarded_policy q kind error : Preserves guarded (record_policy_rejection p q kind error).
Proof. unfold record_policy_rejection. apply _. Qed.
#[export] Instance guarded_policy_or {A} q kind (r : result A) : Preserves guarded (policy_or_422 p q kind r).
Proof. destruct r as [|[]]; apply _. Qed.
#[export] Instance guarded_terms q r d n : Preserves guarded (queue_terms state p q r d n).
Proof. unfold queue_terms. destruct n; apply _. Qed.
#[export] Instance guarded_source kind : Preserves guarded (queue_source state kind).
Proof. unfold queue_source. destruct (registry_get _ _) as [|[]]; apply _. Qed.

Lemma secure_queue_job r repo a :
  secure p (λ j, mine p (j_project_id j)) (_queue_job state r p repo) a.
Proof.
  unfold _queue_job. apply secure_frame; [apply _|]. intros [definition record] b _.
  apply secure_project; [done|]. intros _. apply secure_frame; [apply _|].
  intros [[metadata retries] timeout] b1 _. destruct repo as [[entry version]|]; secure_steps.
  all: apply secure_step; [apply _|]; intros ? ?; secure_steps; apply mine_own.
Qed.

Lemma secure_list_jobs l o s q a :
  secure p (λ x, ∀ j, j ∈ x.1 → mine p (j_project_id j)) (list_jobs state l o s q p) a.
Proof.
  unfold list_jobs. secure_steps. intros j (j0 & -> & Hj)%list_elem_of_fmap.
  apply elem_of_sql_page, order_by_elem, list_elem_of_filter in Hj as [[Hq _]%andb_true_iff _].
  by apply where_own_mine.
Qed.

Lemma secure_job_for {B} (V : B → Prop) id (k : JobRecord → M ApiWorld B) a :
  (∀ j, JobStore.get_job id (w_jobs (a_world a)) = Some j → mine p (j_project_id j) →
     secure p V (k j) a) →
  secure p V (bind (job_for_principal state id p) k) a.
Proof.
  intros Hk. unfold job_for_principal. secure_steps. by apply Hk.
Qed.

Lemma secure_get_job id a : secure p (λ j, mine p (j_project_id j)) (get_job state id p) a.
Proof. unfold get_job, job_for_principal. by secure_steps. Qed.

Lemma secure_cancel_job id a : secure p (λ j, mine p (j_project_id j)) (cancel_job state id p) a.
Proof.
  unfold cancel_job. apply secure_job_for. intros j Hj Hmine. secure_step.
  unfold JobStore.get_job in Hj. destruct (jobs _ !! id) as [row|] eqn:Hrow; [|done].
  injection Hj as <-.
  apply secure_bind; [apply confined_cancel_job; intros x Hx; by simplify_eq|].
  intros [cancelled changed] b Hb. rewrite zoom_eq in Hb. secure_step. secure_steps. subst.
  injection Hb as _ Hb. unfold try_cancel_job, bind in Hb. rewrite zoom_eq in Hb.
  unfold update_row in Hb. simpl in Hb. rewrite Hrow in Hb.
  destruct (negb _); simpl in Hb; rewrite ?lookup_insert_eq, ?Hrow in Hb; by simplify_eq/=.
Qed.

#[export] Instance confined_emit_jobs q l : Confined p (emit_fanout_jobs q l).
Proof. unfold emit_fanout_jobs. solve_within. Qed.

#[export] Instance confined_item_jobs f i l : Confined p (zoom world_lens (item_jobs f i l)).
Proof.
  revert i. induction l as [|[[d item] policy] l IH]; intros i; simpl; [solve_within|].
  apply within_zoom_bind; [apply _..|apply _|]. solve_within.
Qed.
#[export] Instance confined_header r u q : Confined p (zoom world_lens (fanout_header r u q)).
Proof. unfold fanout_header. solve_within. Qed.
#[export] Instance confined_create_fanout registry r u q policies :
  Confined p (zoom world_lens (create_fanout registry r u q policies)).
Proof. unfold create_fanout. solve_within. Qed.
#[export] Instance confined_retry_job id r u policies :
  Confined p (zoom world_lens (retry_job id r u policies)).
Proof. unfold retry_job. solve_within. Qed.

#[export] Instance fanout_after_jobs l : Preserves w_fanouts (forM_ l (λ job, zoom w_jobs_lens (save_job job))).
Proof.
  induction l as [|job l IH]; simpl; [apply _|]. apply preserves_bind; [|by intros _].
  intros w. by rewrite zoom_eq.
Qed.
Lemma create_fanout_project registry r u q policies w w' d :
  create_fanout registry r u q policies w = (w', Ok d) → f_project_id (fd_fanout d) = q.
Proof.
  unfold create_fanout. intros (w1 & checked & _ & (w2 & f & Hf & (w3 & js & _ & Hrest)%bind_ok)%bind_ok)%bind_ok.
  apply bind_ok in Hrest as (w4 & [] & Hsave & (w5 & [] & Hjobs & Hd)%bind_ok).
  assert (f_project_id f = q) as <-.
  { unfold fanout_header in Hf. apply bind_ok in Hf as (? & ? & _ & (? & ? & _ & (? & ? & _ & Hf)%bind_ok)%bind_ok).
    by injection Hf as _ <-. }
  rewrite bind_gets in Hd. injection Hd as _ Hd. unfold fanout_detail, get_fanout in Hd.
  pose proof (fanout_after_jobs js w4) as Hfr. rewrite Hjobs in Hfr. simpl in Hfr. rewrite Hfr in Hd.
  unfold zoom, save_fanout in Hsave. destruct (insert_row _ _ _ _) as [t r'] eqn:Hins.
  injection Hsave as <- ->. apply insert_row_ok in Hins as [_ ->].
  unfold RecordStore.get_fanout in Hd. simpl in Hd. rewrite lookup_insert_eq in Hd.
  destruct (runs_of_jobs _ _); [|done]. by injection Hd as <-.
Qed.
(** A batch of the caller's project, with its own jobs and runs. *)
Definition own_fanout (a : ApiWorld) (d : FanoutDetail) : Prop :=
  mine p (f_project_id (fd_fanout d)) ∧ (batches (a_world a) → own_batch d).
Lemma secure_create_fanout r a : secure p (own_fanout a) (create_jobs_fanout state r p) a.
Proof.
  unfold create_jobs_fanout. secure_step. apply secure_try; [|by intros [] b; secure_step].
  apply secure_bind; [apply (within (R := confined p))|]. intros d b Hd. rewrite zoom_eq in Hd.
  apply secure_frame; [apply _|]. intros [] b1 _. apply secure_step; [apply _|]. intros _ b2.
  secure_steps. injection Hd as _ Hd. split.
  - left. destruct (create_fanout _ _ _ _ _ _) as [w' r'] eqn:Hc. simpl in Hd. subst.
    by apply create_fanout_project in Hc.
  - intros Hw. by eapply create_fanout_own.
Qed.
Lemma secure_get_fanouts a : secure p (λ l, ∀ d, d ∈ l → own_fanout a d) (get_fanouts p) a.
Proof.
  unfold get_fanouts. rewrite tenant_not_admin. secure_step. secure_step. secure_step. intros d Hd. split.
  - exact (own_rows_mine (λ d, f_project_id (fd_fanout d)) _ d Hd).
  - intros Hw. apply list_elem_of_filter in Hd as [_ [i Hi]%list_elem_of_lookup].
    match goal with Hl : list_fanout_details _ = Ok _ |- _ => apply mapM_result_ok in Hl;
      destruct (Forall2_lookup_r _ _ _ _ _ Hl Hi) as (f & _ & Hf) end.
    by eapply fanout_detail_own.
Qed.
Lemma secure_get_fanout id a : secure p (own_fanout a) (get_fanout state id p) a.
Proof.
  unfold get_fanout. apply secure_try; [|by intros [] b; secure_steps].
  secure_steps. split; [done|]. intros Hw. by eapply fanout_detail_own.
Qed.

Lemma secure_retry_job id r a :
  secure p (λ j, mine p (j_project_id j)) (retry_api_job state id r p) a.
Proof.
  unfold retry_api_job, retry_in_project. secure_step. apply secure_try.
  2: { intros e b. destruct e; simpl; try secure_steps; case_match; secure_steps. }
  secure_step. destruct (JobStore.get_job id _) as [source|] eqn:Hs; [|by secure_steps].
  secure_steps. apply secure_bind; [apply (within (R := confined p))|]. intros retry b Hr.
  secure_steps. rewrite zoom_eq in Hr. injection Hr as _ Hr. unfold retry_job in Hr.
  destruct (bind _ _ _) as [w' r'] eqn:Hb. simpl in Hr. subst.
  rewrite bind_gets, bind_lift in Hb. unfold retry_source in Hb. simpl in Hb. rewrite Hs in Hb.
  destruct (negb _) in Hb; [done|].
  assert (∃ pol t n, (let* id := zoom w_process_lens new_uuid in let* c := zoom w_process_lens utc_now in
            let* d := zoom w_process_lens utc_now in
            let j := retry_of source r (pr_user_id p) id c d pol t n in
            do* zoom w_jobs_lens (save_job j) in ret j) (a_world a) = (w', Ok retry)) as (pol & t & n & Hj).
  { destruct (resource_policies state); simpl in Hb; [|by eauto].
    destruct (effective_for _ _ _ _); simpl in Hb; by eauto. }
  apply bind_ok in Hj as (? & ? & _ & (? & ? & _ & (? & ? & _ & (? & ? & _ & Hj)%bind_ok)%bind_ok)%bind_ok).
  by injection Hj as _ <-.
Qed.

#[export] Instance guarded_schedule_from r : Preserves guarded (schedule_from_request state r).
Proof. unfold schedule_from_request. destruct (registry_get _ _) as [|[]]; apply _. Qed.
Lemma secure_create_schedule r a :
  secure p (λ s, mine p (sc_project_id s)) (create_schedule state r p) a.
Proof.
  unfold create_schedule. secure_step. secure_step. secure_step. apply secure_step; [apply _|].
  intros _ b1. secure_steps. apply mine_own.
Qed.
Lemma secure_list_schedules a :
  secure p (λ l, ∀ s, s ∈ l → mine p (sc_project_id s)) (list_schedules p) a.
Proof.
  unfold list_schedules. rewrite tenant_not_admin. secure_steps. by apply (own_rows_mine sc_project_id).
Qed.
Lemma secure_patch_schedule id r a :
  keyed a → secure p (λ s, mine p (sc_project_id s)) (patch_schedule state id r p) a.
Proof.
  intros (Hkey & _). unfold patch_schedule. secure_step. secure_step.
  rename x into s. unfold get_schedule in *. assert (sc_id s = id) as Hid by (by apply (Hkey id s)).
  assert (∀ b s', w_schedules (a_world b) = w_schedules (a_world a) →
            sc_id s' = id → sc_project_id s' = sc_project_id s → mine p (sc_project_id s) →
            secure p (λ s, mine p (sc_project_id s))
              (do* zoom a_schedules_lens (update_schedule s') in
               do* emit_api "schedule.updated"
                     {[ "kind" := JStr (sc_kind s'); "enabled" := JBool (sc_enabled s') ]}
                     (sc_project_id s') None None (Some (sc_id s')) None None in ret s') b) as Htail.
  { intros b s' Hb Hid' Hp Hmine. apply secure_bind.
    - apply confined_update_schedule. intros x Hx. rewrite Hb, Hid' in Hx. by simplify_eq.
    - intros _ b1 _. secure_steps. by rewrite Hp. }
  secure_step. destruct (changed_timing r); secure_steps; apply Htail; simpl; try done.
  match goal with Hg : guarded _ = guarded _ |- _ => by injection Hg end.
Qed.

(** ** Events and runs *)

Lemma secure_list_events q a :
  secure p (λ x, ∀ e, e ∈ x.1 → mine p (e_project_id e)) (list_events state q p) a.
Proof.
  unfold list_events. secure_steps. intros e He.
  apply elem_of_sql_page, order_by_elem, list_elem_of_filter in He as [Hm _].
  unfold event_matches in Hm. rewrite !andb_true_iff in Hm. apply where_own_mine. tauto.
Qed.
Lemma secure_run_for {B} (V : B → Prop) id (k : RunRecord → M ApiWorld B) a :
  (∀ r, JobStore.get_run id (w_jobs (a_world a)) = Ok (Some r) → mine p (project_id_for_run r a) →
     secure p V (k r) a) →
  secure p V (bind (run_for_principal state id p) k) a.
Proof. intros Hk. unfold run_for_principal. secure_steps. subst. by apply Hk. Qed.
Lemma secure_get_run id a : secure p (λ r, mine p (project_id_for_run r a)) (get_run state id p) a.
Proof. unfold get_run, run_for_principal. by secure_steps. Qed.
Lemma secure_list_runs l o s k q a :
  secure p (λ x, ∀ r, r ∈ x.1 → mine p (r_project_id r)) (list_runs state l o s k q p) a.
Proof.
  unfold list_runs. secure_step. secure_steps. intros r Hr. rename x into items.
  match goal with Hl : list_runs_page _ _ _ _ _ _ = _ |- _ => apply mapM_result_ok in Hl as Hall end.
  apply list_elem_of_lookup in Hr as [i Hi].
  destruct (Forall2_lookup_r _ _ _ _ _ Hall Hi) as (row & Hrow%list_elem_of_lookup_2 & Hr).
  apply elem_of_sql_page, order_by_elem, list_elem_of_filter in Hrow as [[[Hq _]%andb_true_iff _]%andb_true_iff _].
  unfold _row_to_run, validate_timestamp_order in Hr. repeat case_match; simplify_eq;
    by apply where_own_mine.
Qed.
Lemma secure_list_artifacts id a :
  secure p (λ l, (∃ r, JobStore.get_run id (w_jobs (a_world a)) = Ok (Some r) ∧ mine p (project_id_for_run r a))
                 ∧ ∀ x, x ∈ l → (id, x.1) ∈ artifacts (w_jobs (a_world a))) (list_run_artifacts state id p) a.
Proof.
  unfold list_run_artifacts. apply secure_run_for. intros r Hr Hm. secure_steps. split; [by eauto|].
  intros x (y & -> & Hy)%list_elem_of_fmap. apply order_by_elem, list_elem_of_fmap in Hy as ([i z] & -> & Hz).
  by apply list_elem_of_filter in Hz as [<- ?].
Qed.
End jobs.

(** ** Services, notebooks and the audit log *)

Section services.
Context `{Sqlite} `{Env} `{Crypto} `{HttpProbe}.
Context (state : AppState) (p : Principal) `{!Tenant p}.

Lemma secure_list_audit_logs l o q a :
  secure p (λ x, ∀ r, r ∈ x.1 → mine p (al_project_id r)) (list_audit_logs state l o q p) a.
Proof.
  unfold list_audit_logs. secure_steps. intros r Hr.
  apply elem_of_sql_page, order_by_elem, list_elem_of_filter in Hr as [Hq _].
  by apply (where_own_mine p).
Qed.

Lemma secure_register_service r a :
  secure p (λ s, mine p (ls_project_id s)) (register_long_running_service state r p) a.
Proof.
  unfold register_long_running_service.
  destruct (service_lookup state (lc_kind r)) as [[definition worker] error].
  apply secure_frame; [destruct error as [e|]; [destruct (is_value_error e)|]; apply _|]. intros [] b _.
  secure_step. cbv zeta. secure_steps. apply secure_step; [apply _|]. intros _ b'. secure_steps. apply mine_own.
Qed.
Lemma secure_list_services a :
  secure p (λ l, ∀ s, s ∈ l → mine p (ls_project_id s)) (list_long_running_services p) a.
Proof.
  split; [done|]. intros l [= <-] s (s0 & -> & Hs)%list_elem_of_fmap.
  apply order_by_elem, list_elem_of_filter in Hs as [Hq _]. by apply (where_own_mine p).
Qed.
Lemma secure_get_service id a :
  secure p (λ s, mine p (ls_project_id s)) (get_long_running_service state id p) a.
Proof. unfold get_long_running_service, service_for_principal. by secure_steps. Qed.

(** The stored row of a service the caller reached. *)
Lemma secure_service_for {B} (V : B → Prop) id (k : LongServiceRecord → M ApiWorld B) a :
  keyed a →
  (∀ s, (∀ x, a_services a !! ls_id s = Some x → mine p (ls_project_id x)) → mine p (ls_project_id s) →
     secure p V (k s) a) →
  secure p V (bind (service_for_principal state id p) k) a.
Proof.
  intros (_ & Hkey & _) Hk. unfold service_for_principal. secure_steps. apply Hk; [|done].
  unfold get_long_service in *. destruct (a_services a !! id) as [s0|] eqn:Hs; simplify_eq/=.
  intros y Hy. rewrite (Hkey id s0 Hs) in Hy. by simplify_eq.
Qed.
Lemma secure_update_service {B} (V : B → Prop) id f (k : option LongServiceRecord → M ApiWorld B) a :
  (∀ s, ls_id (f s) = ls_id s) → (∀ s, ls_project_id (f s) = ls_project_id s) →
  (∀ x, a_services a !! id = Some x → mine p (ls_project_id x)) →
  (∀ o b, (∀ s, o = Some s → mine p (ls_project_id s)) → secure p V (k o) b) →
  secure p V (bind (zoom services_lens
    (do* update_row id (λ _, true) f in gets (get_long_service id))) k) a.
Proof.
  intros Hid Hp Hmine Hk. apply secure_bind; [apply confined_update_service; [apply _|done..]|].
  intros o b Hb. apply Hk. intros s ->. unfold zoom in Hb. simpl in Hb.
  unfold update_row, bind in Hb. destruct (a_services a !! id) as [x|] eqn:Hx; injection Hb as _ Hs.
  all: unfold get_long_service in Hs; rewrite ?lookup_insert_eq, ?Hx in Hs; simplify_eq/=.
  rewrite Hp. by apply Hmine.
Qed.

Lemma secure_probe_service id a :
  keyed a →
  secure p (λ x, mine p (ls_project_id x.1.1)) (probe_long_running_service state id p) a.
Proof.
  intros Hkey. unfold probe_long_running_service. apply secure_service_for; [done|]. intros s Hown Hmine.
  secure_step. unfold _probe_long_service_record. secure_steps. unfold update_long_service_probe.
  apply secure_update_service; [done..| |].
  - match goal with Hg : guarded _ = guarded _ |- _ => by injection Hg as _ _ _ -> end.
  - intros [u|] b1 Hu; secure_steps. by apply Hu.
Qed.
Lemma secure_stop_service id a :
  keyed a → secure p (λ s, mine p (ls_project_id s)) (stop_long_running_service state id p) a.
Proof.
  intros Hkey. unfold stop_long_running_service. apply secure_service_for; [done|]. intros s Hown Hmine.
  destruct (bool_decide _); [by secure_steps|]. unfold update_long_service_status.
  apply secure_update_service; [done..|]. intros [u|] b1 Hu; secure_steps. by apply Hu.
Qed.

Lemma secure_create_notebook_goblin r a :
  secure p (λ x, mine p (ng_project_id x)) (create_notebook_goblin state r p) a.
Proof.
  unfold create_notebook_goblin, own_record. secure_step. secure_step. secure_step. secure_step.
  secure_step. destruct (get_notebook_goblin _ _); secure_steps; apply mine_own.
Qed.
Lemma secure_create_notebook_service r a :
  secure p (λ x, mine p (ns_project_id x)) (create_notebook_service state r p) a.
Proof.
  unfold create_notebook_service, own_record. do 6 secure_step. secure_step.
  destruct (get_notebook_service _ _); secure_steps; apply mine_own.
Qed.

(** A listing that skips what the gate refuses. *)
Lemma secure_visible {R} (project : R → option string) l a :
  secure p (λ rs, ∀ r, r ∈ rs → mine p (project r)) (visible_records state project p l) a.
Proof.
  revert a. induction l as [|r l IH]; intros a; simpl.
  { apply secure_ret. by intros r ?%not_elem_of_nil. }
  apply (secure_seq p _ (λ seen, seen = true → mine p (project r))).
  - apply secure_try; [by secure_steps|]. by intros [] b; secure_steps.
  - intros seen b Hseen. eapply secure_seq; [apply IH|]. intros rs b' Hrs. apply secure_ret.
    destruct seen; [|done]. intros x [->|Hx]%elem_of_cons; auto.
Qed.
Lemma secure_list_notebooks a :
  secure p (λ l, ∀ x, x ∈ l → mine p (ng_project_id x)) (list_notebook_goblins state p) a.
Proof. unfold list_notebook_goblins. secure_step. apply (secure_visible ng_project_id). Qed.
Lemma secure_list_notebook_services a :
  secure p (λ l, ∀ x, x ∈ l → mine p (ns_project_id x)) (list_notebook_services state p) a.
Proof. unfold list_notebook_services. secure_step. apply (secure_visible ns_project_id). Qed.
End services.

(** ** The directory: a call touches one entry *)

Record touches (P : option string → Prop) (id : string) (t t' : RepoTables) : Prop := {
  tc_entries : ∀ k, k ≠ id → entries t' !! k = entries t !! k;
  tc_versions : ∀ k v, versions t !! k = Some v → rv_entry_id v ≠ id → versions t' !! k = Some v;
  tc_own : (∀ e, entries t !! id = Some e → P (re_project_id e)) →
    ∀ e, entries t' !! id = Some e → P (re_project_id e);
  tc_keyed : map_Forall (λ k e, re_id e = k) (entries t) → map_Forall (λ k e, re_id e = k) (entries t')
}.
#[export] Instance touches_preorder P id : PreOrder (touches P id).
Proof.
  split; [intros t; by split|]. intros t1 t2 t3 [He1 Hv1 Ho1 Hk1] [He2 Hv2 Ho2 Hk2]. split; auto.
  intros k Hk. by rewrite He2, He1.
Qed.

Section touches.
Context (P : option string → Prop) (id : string).

#[export] Instance touches_reads {A} (m : M RepoTables A) : Reads m → Within (touches P id) m | 90.
Proof. intros Hm t. by rewrite (Hm t). Qed.

Lemma touches_insert_entry e :
  re_id e = id → P (re_project_id e) → Within (touches P id) (insert_entry e).
Proof.
  intros Hid HP t. unfold insert_entry. rewrite zoom_eq. simpl. unfold insert_unique.
  destruct (index_taken _ _ _ _); [split; simpl; auto|]. unfold insert_row.
  destruct (entries t !! re_id e) eqn:Hnew; [split; simpl; auto|]. subst. split; simpl; auto.
  - intros k Hk. by rewrite lookup_insert_ne.
  - intros _ x Hx. rewrite lookup_insert_eq in Hx. by simplify_eq.
  - intros Hk. by apply map_Forall_insert_2.
Qed.
Lemma touches_update_entry f :
  (∀ e, re_id e = id → re_id (f e) = id) → (∀ e, P (re_project_id e) → P (re_project_id (f e))) →
  Within (touches P id) (update_entry id f).
Proof.
  intros Hid HP t. unfold update_entry. rewrite zoom_eq. simpl. unfold update_unique.
  destruct (entries t !! id) as [e|] eqn:He; [|split; simpl; auto].
  destruct (index_taken _ _ _ _); [split; simpl; auto|]. split; simpl; auto.
  - intros k Hk. by rewrite lookup_insert_ne.
  - intros Hown x Hx. rewrite lookup_insert_eq in Hx. simplify_eq. by apply HP, Hown.
  - intros Hk. apply map_Forall_insert_2; [by apply Hid, (Hk id e)|done].
Qed.
#[export] Instance touches_insert_version v : Within (touches P id) (insert_version v).
Proof.
  intros t. unfold insert_version. rewrite zoom_eq. simpl. unfold insert_unique.
  destruct (index_taken _ _ _ _); [split; simpl; auto|]. split; simpl; auto.
  intros k x Hx _. by apply insert_row_keeps.
Qed.
#[export] Instance touches_follow s at_ pv : Within (touches P id) (follow_entry id s at_ pv).
Proof. by apply touches_update_entry. Qed.

Lemma touches_create_entry e :
  re_id e = id → P (re_project_id e) → Within (touches P id) (create_repository_entry e).
Proof.
  intros. pose proof (touches_insert_entry e). unfold create_repository_entry.
  solve_within. by apply touches_insert_entry.
Qed.
Lemma touches_update_repository_entry e :
  re_id e = id → P (re_project_id e) → Within (touches P id) (update_repository_entry e).
Proof.
  intros Hid HP. unfold update_repository_entry. solve_within. rewrite Hid. by apply touches_update_entry.
Qed.
#[export] Instance touches_version_status n s at_ proof ab aa pa :
  Within (touches P id) (transition_repository_version_status id n s at_ proof ab aa pa).
Proof.
  unfold transition_repository_version_status. solve_within.
  intros t. split; simpl; auto. intros k v Hv Hne.
  rewrite lookup_update_rows, Hv. simpl. by rewrite bool_decide_eq_false_2.
Qed.
Lemma touches_create_version `{Sqlite} v :
  rv_entry_id v = id → Within (touches P id) (create_repository_version v).
Proof.
  intros Hid. unfold create_repository_version. rewrite Hid. solve_within.
  - unfold raise_opt. solve_within.
  - by apply touches_update_entry.
Qed.
End touches.

(** The row a directory call returns. *)
Lemma loaded_entry_ok id t t' e : loaded_entry id t = (t', Ok e) → t' = t ∧ entries t !! id = Some e.
Proof.
  unfold loaded_entry. rewrite bind_gets. unfold Repository.get_repository_entry, ret, raise.
  destruct (entries t !! id) eqn:He; intros; by simplify_eq.
Qed.
Lemma create_entry_loaded e t t' x :
  create_repository_entry e t = (t', Ok x) → entries t' !! re_id e = Some x.
Proof.
  unfold create_repository_entry. rewrite !bind_raise_if.
  destruct (negb _); [done|]. destruct (negb _); [done|].
  by intros (t1 & [] & _ & [-> ?]%loaded_entry_ok)%bind_ok.
Qed.
Lemma create_entry_taken e t x :
  entries t !! re_id e = Some x → ∃ err, create_repository_entry e t = (t, Err err).
Proof.
  intros Hx. unfold create_repository_entry. rewrite !bind_raise_if.
  destruct (negb _); [by eexists|]. destruct (negb _); [by eexists|].
  unfold bind at 1, atomic. rewrite (bind_reads (_ensure_repository_entry_name_available _ _ _)) by apply _.
  destruct (_ensure_repository_entry_name_available _ _ _ t).2; [|by eexists].
  unfold insert_entry. rewrite zoom_eq. simpl. unfold insert_unique, insert_row.
  destruct (index_taken _ _ _ _); simpl; [by eexists|]. rewrite Hx. simpl. by eexists.
Qed.
Lemma update_entry_loaded e t t' x :
  update_repository_entry e t = (t', Ok x) → entries t' !! re_id e = Some x.
Proof.
  unfold update_repository_entry. rewrite bind_gets. destruct (Repository.get_repository_entry _ t); [|done].
  rewrite bind_lift. destruct (_validate_repository_transition _ _); [|done].
  rewrite bind_raise_if. destruct (_ && _); [done|].
  by intros (t1 & [] & _ & [-> ?]%loaded_entry_ok)%bind_ok.
Qed.

(** The versions of an entry are its own, however they are read. *)
Lemma listed_versions_own `{Sqlite} id s t v : v ∈ list_repository_versions id s t → rv_entry_id v = id.
Proof. intros [_ [Hv _]%list_elem_of_filter]%order_by_elem%list_elem_of_filter. done. Qed.
Lemma found_version_own id n t v : get_repository_version id n t = Ok (Some v) → rv_entry_id v = id.
Proof.
  unfold get_repository_version, versions_of. intros Hv.
  assert (v ∈ filter (λ v, rv_version v = n) (filter (λ v, rv_entry_id v = id) (rows (versions t)))) as Hin.
  { destruct (filter _ _) as [|x [|]]; simpl in Hv; simplify_eq. apply list_elem_of_here. }
  by apply list_elem_of_filter in Hin as [_ [? _]%list_elem_of_filter].
Qed.
Lemma loaded_version_own id n t t' v : loaded_version id n t = (t', Ok v) → rv_entry_id v = id.
Proof.
  unfold loaded_version. rewrite bind_gets, bind_lift. destruct (get_repository_version id n t) as [[x|]|] eqn:Hg; [|done..].
  intros [= _ <-]. by eapply found_version_own.
Qed.
Lemma moved_version_own id n s u proof ab aa pa t t' v :
  transition_repository_version_status id n s u proof ab aa pa t = (t', Ok v) → rv_entry_id v = id.
Proof.
  unfold transition_repository_version_status. rewrite bind_gets, bind_lift.
  destruct (get_repository_version id n t) as [[x|]|] eqn:Hg; [|done..]. destruct (bool_decide (rv_status x = Published)).
  - destruct (bool_decide _); [|done]. intros [= _ <-]. by eapply found_version_own.
  - intros (? & ? & _ & (? & ? & _ & (? & ? & _ & Hl)%bind_ok)%bind_ok)%bind_ok. by eapply loaded_version_own.
Qed.
Lemma created_version_own `{Sqlite} v t t' x :
  create_repository_version v t = (t', Ok x) → rv_entry_id x = rv_entry_id v.
Proof.
  unfold create_repository_version.
  intros (? & ? & _ & (? & ? & _ & (? & ? & _ & (? & ? & _ & Hl)%bind_ok)%bind_ok)%bind_ok)%bind_ok.
  by eapply loaded_version_own.
Qed.

(** The entry at a key is the caller's, and what such a call may do. *)
Definition own_entry (p : Principal) (id : string) (a : ApiWorld) : Prop :=
  ∀ e, a_entries a !! id = Some e → mine p (re_project_id e).
Definition tends (p : Principal) (id : string) (a b : ApiWorld) : Prop :=
  own_entry p id a → keyed a → confined p a b ∧ own_entry p id b ∧ keyed b.
#[export] Instance tends_preorder p id : PreOrder (tends p id).
Proof.
  split; [by intros a|]. intros a b c Hab Hbc Hown Hkey.
  destruct (Hab Hown Hkey) as (? & Hown1 & Hkey1). destruct (Hbc Hown1 Hkey1) as (? & ? & ?).
  split_and!; [by etransitivity|done..].
Qed.

Section directory.
Context `{Sqlite} `{Env} `{Pydantic} `{Floats} `{Crypto} `{Host} `{Workers}
  `{DirectoryRuntime}.
Context (state : AppState) (p : Principal) `{!Tenant p}.

#[export] Instance tends_guarded id {A} (m : M ApiWorld A) : Preserves guarded m → Within (tends p id) m | 90.
Proof.
  intros Hm a Hown Hkey. specialize (Hm a). pose proof (guarded_confined p _ _ Hm) as Hc.
  split_and!; [done| |by apply Hc]. unfold own_entry. by injection Hm as _ _ _ _ -> _ _ _ _.
Qed.
#[export] Instance tends_touches id {A} (m : M RepoTables A) :
  Within (touches (mine p) id) m → Within (tends p id) (zoom repo_lens m).
Proof.
  intros Hm a Hown (Hks & Hkl & Hke). rewrite zoom_eq. specialize (Hm (view repo_lens a)).
  destruct Hm as [He Hv Ho Hk]. simpl in *.
  split_and!; [|by intros e; apply Ho|by split_and!; [..|apply Hk]]. split; simpl; auto.
  - intros k e Hlk Hf. rewrite He; [done|]. intros ->. by apply Hf, Hown.
  - intros k v e Hlk Hle Hf. apply Hv; [done|]. intros <-. by apply Hf, Hown.
  - intros _. split_and!; auto.
Qed.

Lemma secure_tend {A B} (V : B → Prop) id (m : M ApiWorld A) (k : A → M ApiWorld B) a :
  Within (tends p id) m → own_entry p id a → keyed a →
  (∀ x b, m a = (b, Ok x) → own_entry p id b → keyed b → secure p V (k x) b) →
  secure p V (bind m k) a.
Proof.
  intros Hm Hown Hkey Hk. destruct (Hm a Hown Hkey) as (Hc & Hown' & Hkey').
  apply secure_bind; [done|]. intros x b Hb. rewrite Hb in Hown', Hkey'. by apply Hk.
Qed.
Lemma own_entry_guarded id a b : guarded b = guarded a → own_entry p id a → own_entry p id b.
Proof. unfold own_entry. by intros [= _ _ _ _ -> _ _ _ _]. Qed.
Lemma keyed_guarded a b : guarded b = guarded a → keyed a → keyed b.
Proof. intros Hg. by apply (guarded_confined p). Qed.

Lemma secure_entry_for {B} (V : B → Prop) id (k : RepositoryEntryRecord → M ApiWorld B) a :
  keyed a →
  (∀ e, own_entry p (re_id e) a → a_entries a !! re_id e = Some e → mine p (re_project_id e) → secure p V (k e) a) →
  secure p V (bind (entry_for_principal state id p) k) a.
Proof.
  intros (_ & _ & Hkey) Hk. unfold entry_for_principal, repo_gets. secure_steps.
  unfold Repository.get_repository_entry in *. simpl in *.
  assert (re_id x = id) as <- by (by apply (Hkey id x)).
  apply Hk; [|done..]. intros e He. by simplify_eq.
Qed.

Lemma secure_list_entries l o q t s text a :
  secure p (λ x, ∀ d, d ∈ x.1 → own_detail p d)
    (list_repository_entries state l o q t s text p) a.
Proof.
  unfold list_repository_entries, repo_gets. secure_steps. intros d Hd.
  apply elem_of_take in Hd as (i & Hd & _). apply list_elem_of_lookup_2, list_elem_of_lookup in Hd as [j Hd].
  rewrite lookup_drop in Hd. apply list_elem_of_lookup_2, list_elem_of_fmap in Hd as (e & -> & He).
  split; simpl; [|intros v; apply listed_versions_own]. apply list_elem_of_filter in He as [_ He].
  assert (e ∈ Repository.list_repository_entries (pr_project_id p) s t false (view repo_lens a)) as He'.
  { destruct (truthy _); [by apply list_elem_of_filter in He as [_ ?]|done]. }
  apply order_by_elem, list_elem_of_filter in He' as [[[Hq _]%andb_true_iff _]%andb_true_iff _].
  by apply (where_own_mine p).
Qed.
Lemma secure_detail e a : mine p (re_project_id e) → secure p (own_detail p) (_repository_entry_detail e) a.
Proof.
  intros Hm. unfold _repository_entry_detail, repo_gets. secure_steps. split; [done|]. intros v. apply listed_versions_own.
Qed.
Lemma secure_get_entry id a : keyed a → secure p (own_detail p) (get_repository_entry state id p) a.
Proof.
  intros Hk. unfold get_repository_entry. secure_step. apply secure_entry_for; [done|].
  intros e _ _ Hm. secure_step. by apply secure_detail.
Qed.

(** The entry the answer shows is the row at its key. *)
Lemma secure_refreshed id a :
  own_entry p id a → secure p (own_detail p) (refreshed_detail id) a.
Proof.
  intros Hown. unfold refreshed_detail, repo_gets. secure_step.
  destruct (Repository.get_repository_entry id _) as [e|] eqn:He; [|by secure_steps].
  secure_step. by apply secure_detail, Hown.
Qed.

#[export] Instance guarded_entry_audit ac e d : Preserves guarded (audit_entry ac p e d).
Proof. apply _. Qed.
#[export] Instance guarded_requested e v : Preserves guarded (_repository_requested_version e v).
Proof. unfold _repository_requested_version, repo_gets. destruct v; apply _. Qed.
#[export] Instance tends_move id n s proof ab aa : Within (tends p id) (move_version id n s proof ab aa).
Proof. unfold move_version. solve_within. Qed.

Lemma secure_request_review id note v a :
  keyed a → secure p (own_detail p) (request_repository_review state id note v p) a.
Proof.
  intros Hk. unfold request_repository_review. secure_step. apply secure_entry_for; [done|].
  intros e Hown _ _. secure_step. apply secure_frame; [apply _|]. intros version b Hb. secure_step.
  apply (secure_tend _ (re_id e)); [apply _|by eapply own_entry_guarded|by eapply keyed_guarded|].
  intros updated b1 _ Hown1 _. apply secure_frame; [apply _|]. intros [] b2 Hb2.
  apply secure_refreshed. by eapply own_entry_guarded.
Qed.

#[export] Instance guarded_submit_notebook r q now e n kind :
  Preserves guarded (submit_notebook state r p q now e n kind).
Proof. unfold submit_notebook. destruct (rs_type r); apply _. Qed.

Lemma own_entry_here e a : a_entries a !! re_id e = Some e → mine p (re_project_id e) → own_entry p (re_id e) a.
Proof. intros He Hm x Hx. by simplify_eq. Qed.

(** The entry a submission adds a version to. *)
Lemma secure_save_entry {B} (V : B → Prop) e m (k : _ → M ApiWorld B) a :
  Within (touches (mine p) (re_id e)) m →
  (∀ t t' x, m t = (t', Ok x) → entries t' !! re_id e = Some x) →
  own_entry p (re_id e) a → keyed a →
  (∀ x b, own_entry p (re_id x) b → keyed b → secure p V (k x) b) →
  secure p V (bind (zoom repo_lens m) k) a.
Proof.
  intros Hm Hload Hown Hkey Hk. apply (secure_tend _ (re_id e)); [apply _|done..|].
  intros x b Hb Hown' Hkey'. apply Hk; [|done]. unfold zoom in Hb.
  destruct (m _) as [t' r] eqn:Hrun. injection Hb as <- ->. apply Hload in Hrun.
  assert (re_id x = re_id e) as -> by (destruct Hkey' as (_ & _ & Hke); by apply (Hke (re_id e) x)).
  done.
Qed.
Lemma secure_create_entry {B} (V : B → Prop) e a (k : _ → M ApiWorld B) :
  mine p (re_project_id e) → keyed a →
  (∀ x b, own_entry p (re_id x) b → keyed b → secure p V (k x) b) →
  secure p V (bind (zoom repo_lens (create_repository_entry e)) k) a.
Proof.
  intros Hm Hkey Hk. destruct (a_entries a !! re_id e) as [x|] eqn:Hx.
  - destruct (create_entry_taken e (view repo_lens a) x Hx) as [err Herr].
    unfold secure, bind. rewrite zoom_eq, Herr. cbn [fst snd]. rewrite put_view. by split.
  - apply (secure_save_entry _ e); [by apply touches_create_entry| |intros y Hy; by simplify_eq|done..].
    intros t t' y Hy. by apply create_entry_loaded in Hy.
Qed.
Lemma secure_submit_entry {B} (V : B → Prop) r now (k : _ → M ApiWorld B) a :
  keyed a →
  (∀ e n b, own_entry p (re_id e) b → keyed b → secure p V (k (e, n)) b) →
  secure p V (bind (submit_entry state r p (pr_project_id p) now) k) a.
Proof.
  intros Hkey Hk. unfold submit_entry, repo_gets. apply secure_assoc, secure_gets.
  set (found := get_repository_entry_by_project_name _ _ _ _).
  destruct found as [old|] eqn:Hfound; subst found.
  - unfold get_repository_entry_by_project_name in Hfound.
    apply head_Some_elem_of, order_by_elem, list_elem_of_filter in Hfound as [_ [key Hold]%elem_of_rows].
    simpl in Hold. assert (re_id old = key) as <- by (destruct Hkey as (_ & _ & Hke); by apply (Hke key old)).
    secure_steps.
    apply (secure_save_entry _ (resubmitted r now old)); [by apply touches_update_repository_entry
      |intros t t' x' Hx; by apply update_entry_loaded in Hx|by apply (own_entry_here old)|done|].
    intros x' b Hown Hkey'. secure_steps. by apply Hk.
  - secure_step. secure_step. cbv beta in *.
    match goal with Hg : guarded ?b = guarded a |- _ => apply (keyed_guarded _ b) in Hg as Hkey'; [|done]; clear Hg end.
    secure_steps. unfold new_entry in *.
    destruct (_ && _); [|done]. destruct (validate_tags _); [|done]. simplify_eq/=.
    apply secure_create_entry; [apply mine_own|done|].
    intros x' b' Hown Hkey''. by apply Hk.
Qed.

Lemma own_detail_one e v : mine p (re_project_id e) → rv_entry_id v = re_id e → own_detail p (mkEntryDetail e [v]).
Proof. intros Hm Hv. split; [done|]. by intros ? ->%list_elem_of_singleton. Qed.
Lemma keyed_entry id e a : keyed a → Repository.get_repository_entry id (view repo_lens a) = Some e → re_id e = id.
Proof. intros (_ & _ & Hk) He. by apply (Hk id e). Qed.
Lemma secure_submit r a :
  keyed a → secure p (λ x, own_detail p (mkEntryDetail x.1 [x.2])) (submit_repository_entry state r p) a.
Proof.
  intros Hkey. unfold submit_repository_entry, repo_gets. secure_step. secure_step.
  secure_step. apply secure_frame; [apply _|]. intros now b Hb.
  apply secure_submit_entry; [by eapply keyed_guarded|]. intros e n b1 Hown1 Hkey1.
  cbv beta iota. apply secure_frame; [apply _|]. intros [hash image] b2 Hb2.
  apply secure_frame; [apply _|]. intros id b3 Hb3. rewrite Hb2 in Hb3.
  apply (secure_tend _ (re_id e)); [|by eapply own_entry_guarded|by eapply keyed_guarded|].
  { apply within_try; [apply _| |intros err; case_match; apply _].
    apply tends_touches. by apply touches_create_version. }
  intros version b4 Hv Hown4 Hkey4. secure_step.
  destruct (Repository.get_repository_entry _ _) as [refreshed|] eqn:He; secure_steps.
  apply own_detail_one; [by apply Hown4|]. simpl. rewrite (keyed_entry _ _ _ Hkey4 He).
  unfold try_catch in Hv. rewrite zoom_eq in Hv. destruct (create_repository_version _ _) as [t' [y|err]] eqn:Hc; simpl in Hv.
  - apply created_version_own in Hc. by simplify_eq.
  - by destruct (is_value_error err).
Qed.

(** Validation: the host and the runtimes are arbitrary, but rest on these tables. *)
Definition rests (w w' : World) : Prop :=
  (w_jobs w', w_schedules w', w_fanouts w') = (w_jobs w, w_schedules w, w_fanouts w).
#[export] Instance rests_preorder : PreOrder rests.
Proof. split; [by intros w|]. unfold rests. intros ????. congruence. Qed.
#[export] Instance rests_clock : ClockWithin rests.
Proof. split; intros w; rewrite zoom_eq; by destruct w. Qed.
#[export] Instance rests_validations {A} (m : M (table WorkerValidationRecord) A) :
  Within rests (zoom w_validations_lens m).
Proof. intros w. rewrite zoom_eq. by destruct w. Qed.
#[export] Instance guarded_rests {A} (m : M World A) : Within rests m → Preserves guarded (zoom world_lens m).
Proof.
  intros Hm a. rewrite zoom_eq. destruct a as [w ? ? ? ? ? ? ? ? ? ? ?]. specialize (Hm w).
  simpl. unfold guarded. simpl. by injection Hm as -> -> ->.
Qed.
Class RuntimeRests : Prop := {
  rr_kubernetes :: ∀ r i s t, Within rests (validate_with_kubernetes r i s t);
  rr_manager :: ∀ r t, Within rests (manager_validate r t)
}.
Context `{!HostWithin rests} `{!RuntimeRests}.

#[export] Instance rests_validate_function r n : Within rests (validate_function r n).
Proof. unfold validate_function. cbv zeta. solve_within. Qed.
#[export] Instance guarded_validation_audit o e v proof : Preserves guarded (validation_audit o p e v proof).
Proof. apply _. Qed.
#[export] Instance guarded_proof r e v : Preserves guarded (directory_proof r p e v).
Proof. unfold directory_proof. solve_preserves. Qed.

Lemma secure_validate id r v a :
  keyed a → secure p (λ x, own_detail p (mkEntryDetail x.1.1 [x.1.2])) (validate_repository_entry state id r v p) a.
Proof.
  intros Hkey. unfold validate_repository_entry, repo_gets. secure_step. secure_step.
  apply secure_entry_for; [done|]. intros e Hown _ _. secure_step.
  apply secure_frame; [apply _|]. intros version b Hb. apply secure_frame; [apply _|].
  intros proof b1 Hb1. rewrite Hb in Hb1.
  apply (secure_tend _ (re_id e)); [apply _|by eapply own_entry_guarded|by eapply keyed_guarded|].
  intros updated b2 Hv Hown2 Hkey2. secure_step.
  destruct (Repository.get_repository_entry _ _) as [refreshed|] eqn:He; secure_steps.
  apply own_detail_one; [by apply Hown2|]. simpl. rewrite (keyed_entry _ _ _ Hkey2 He).
  unfold move_version in Hv. apply bind_ok in Hv as (? & ? & _ & Hv). rewrite zoom_eq in Hv.
  destruct (transition_repository_version_status _ _ _ _ _ _ _ _ _) as [t' r'] eqn:Ht. injection Hv as _ ->.
  by eapply moved_version_own.
Qed.
End directory.

Section run.
Context `{Sqlite} `{Env} `{Pydantic} `{Floats} `{Crypto} `{Host} `{Workers} `{CronParser}
  `{DirectoryRuntime}.
Context (state : AppState) (p : Principal) `{!Tenant p}.

#[export] Instance guarded_resolve name type q v :
  Preserves guarded (_resolve_published_repository_version state name type p q v).
Proof. unfold _resolve_published_repository_version, repo_gets. solve_preserves. Qed.
Lemma secure_resolve name type q n a :
  secure p (λ x, own_detail p (mkEntryDetail x.1 [x.2])) (_resolve_published_repository_version state name type p q n) a.
Proof.
  unfold _resolve_published_repository_version, repo_gets. secure_step. secure_step. secure_step. secure_step.
  match goal with Hf : get_repository_entry_by_project_name _ _ _ _ = Some ?e |- _ => rename e into entry;
    assert (mine p (re_project_id entry)) as Hm end.
  { unfold get_repository_entry_by_project_name in *.
    match goal with H0 : head _ = Some _ |- _ =>
      apply head_Some_elem_of, order_by_elem, list_elem_of_filter in H0 as [Hf _] end.
    apply andb_prop in Hf as [[_ Hq]%andb_prop _]. left. by apply bool_decide_eq_true in Hq. }
  secure_step. destruct (nonzero_or _ _); secure_steps; (apply own_detail_one; [done|]); subst; simpl.
  - by eapply found_version_own.
  - match goal with Hl : match last ?l with _ => _ end = Ok ?v |- _ => destruct (last l) as [y|] eqn:Hy; simplify_eq;
      apply last_Some_elem_of, list_elem_of_filter in Hy as [_ Hy] end. by eapply listed_versions_own.
Qed.
Lemma secure_run_function name r a :
  secure p (λ x, own_detail p (mkEntryDetail x.1.1 [x.1.2]) ∧ mine p (j_project_id x.2)) (run_repository_function state name r p) a.
Proof.
  unfold run_repository_function. eapply secure_seq; [by apply secure_resolve|]. intros [e v] b Hd.
  do 2 secure_step. eapply secure_seq; [by apply secure_queue_job|]. intros j b' Hj. by secure_steps.
Qed.
End run.

(** ** Batches stay whole *)

Definition batched (a b : ApiWorld) : Prop := batches (a_world a) → batches (a_world b).
#[export] Instance batched_preorder : PreOrder batched.
Proof. unfold batched. split; [by intros a|]. intros a b c. auto. Qed.

Section batched.
Context `{Sqlite} `{Env} `{Crypto} `{Pydantic} `{Floats} `{Host} `{Workers} `{CronParser} `{HttpProbe}
  `{DirectoryRuntime}.
Context `{!HostWithin rests} `{!RuntimeRests}.
Context (state : AppState) (p : Principal).

#[export] Instance batched_guarded {A} (m : M ApiWorld A) : Preserves guarded m → Within batched m | 90.
Proof.
  intros Hm a [Hk Hj]. specialize (Hm a). unfold guarded in Hm. injection Hm as Hjobs _ Hf _ _ _ _ _ _.
  split; by rewrite ?Hjobs, ?Hf.
Qed.
#[export] Instance batched_repo {A} (m : M RepoTables A) : Within batched (zoom repo_lens m).
Proof. intros a [Hk Hj]. rewrite zoom_eq. by split. Qed.
#[export] Instance batched_services {A} (m : M (table LongServiceRecord) A) : Within batched (zoom services_lens m).
Proof. intros a [Hk Hj]. rewrite zoom_eq. by split. Qed.
#[export] Instance batched_schedules {A} (m : M (table ScheduleRecord) A) : Within batched (zoom a_schedules_lens m).
Proof. intros a [Hk Hj]. rewrite zoom_eq. by split. Qed.
Lemma batched_save_job job : j_fanout_id job = None → Within batched (zoom a_jobs_lens (save_job job)).
Proof.
  intros Hno a Ha. unfold a_jobs_lens. rewrite zoom_compose, zoom_eq. simpl. apply batches_save_job; [done|]. by rewrite Hno.
Qed.
#[export] Instance batched_cancel id : Within batched (zoom a_jobs_lens (try_cancel_job id)).
Proof.
  intros a [Hk Hj]. rewrite zoom_eq. unfold try_cancel_job, bind at 1. rewrite zoom_eq.
  destruct (update_row _ _ _ _) as [t [c|e]] eqn:Hu; (split; [exact Hk|]); simpl; intros k j f Hkj Hf.
  all: replace t with (update_row id (λ j, negb (is_terminal (j_status j))) cancelled_job
                         (jobs (w_jobs (a_world a)))).1 in Hkj by (simpl in Hu; by rewrite Hu).
  all: unfold update_row in Hkj; destruct (jobs (w_jobs (a_world a)) !! id) as [row|] eqn:Hrow; [|exact (Hj k j f Hkj Hf)].
  all: destruct (negb _); [|exact (Hj k j f Hkj Hf)].
  all: simpl in Hkj; apply lookup_insert_Some in Hkj as [[<- <-]|[_ Hkj]]; [exact (Hj _ row f Hrow Hf)|exact (Hj k j f Hkj Hf)].
Qed.
#[export] Instance batched_create_fanout registry r u q policies :
  Within batched (zoom world_lens (create_fanout registry r u q policies)).
Proof. intros a Ha. rewrite zoom_eq. simpl. by apply create_fanout_own. Qed.
#[export] Instance batched_retry id r u policies : Within batched (zoom world_lens (retry_job id r u policies)).
Proof. intros a Ha. rewrite zoom_eq. simpl. by apply retry_job_batches. Qed.
Lemma batched_queue_job r repo : Within batched (_queue_job state r p repo).
Proof. unfold _queue_job. solve_within; try (apply batched_save_job; done). Qed.
#[export] Instance guarded_visible {R} (project : R → option string) l : Preserves guarded (visible_records state project p l).
Proof. induction l as [|x l IH]; simpl; solve_preserves. Qed.
#[export] Instance batched_register r : Within batched (register_long_running_service state r p).
Proof.
  unfold register_long_running_service. destruct (service_lookup state (lc_kind r)) as [[definition worker] error].
  destruct error as [e|]; [destruct (is_value_error e)|]; solve_within.
Qed.
Lemma batched_handler r : admin_only r = false → Within batched (handler state r p).
Proof.
  destruct r; try discriminate; intros _; cbn [handler]; unfold fmap_M; apply within_bind; try (intros; apply _).
  all: solve_within; first [apply batched_queue_job|by apply batched_save_job].
Qed.
End batched.

(** ** Every request *)

Section requests.
Context `{Sqlite} `{Env} `{Crypto} `{Pydantic} `{Floats} `{Host} `{Workers} `{CronParser} `{HttpProbe}
  `{DirectoryRuntime}.
Context `{!HostWithin rests} `{!RuntimeRests}.
Context (state : AppState).

Lemma secure_create_job r p a : Tenant p → secure p (λ j, mine p (j_project_id j)) (create_job state r p) a.
Proof. intros Hp. by apply secure_queue_job. Qed.
Lemma secure_one {A B} p (f : A → B) (V : B → Prop) (P : A → Prop) m a :
  (∀ x, P x → V (f x)) → secure p P m a → secure p V (fmap_M f m) a.
Proof. intros HV Hm. apply secure_fmap. eapply secure_weaken; [exact Hm|]. intros x Hx. by apply HV. Qed.
Lemma all_of_one {A} (P : A → Prop) x : P x → ∀ y, y ∈ [x] → P y.
Proof. by intros HP y ->%list_elem_of_singleton. Qed.
Lemma secure_admin_gate {B} (V : B → Prop) p k a :
  Tenant p → secure p V (do* require_admin_principal p in k) a.
Proof.
  intros Hp. apply secure_bind; [apply (within (R := confined p))|].
  intros x b (_ & _ & Hadm)%require_admin_ok. by rewrite tenant_not_admin in Hadm.
Qed.

Hint Resolve secure_create_job secure_list_jobs secure_get_job secure_cancel_job secure_create_fanout
  secure_get_fanouts secure_get_fanout secure_retry_job secure_create_schedule secure_list_schedules
  secure_patch_schedule secure_list_events secure_get_run secure_list_runs secure_list_artifacts
  secure_list_audit_logs secure_register_service secure_list_services secure_get_service
  secure_probe_service secure_stop_service secure_create_notebook_goblin secure_create_notebook_service
  secure_list_notebooks secure_list_notebook_services secure_submit secure_list_entries secure_get_entry
  secure_validate secure_request_review secure_run_function : core.

Lemma secure_handle r p a : Tenant p → keyed a → secure p (sees_only_mine p a) (handle state r p) a.
Proof.
  intros Hp Hkey. unfold handle. destruct (admin_only r) eqn:Hr; [by apply secure_admin_gate|].
  destruct r; try discriminate Hr; cbn [handler].
  all: eapply secure_one; [|solve [eauto]]; cbn; intros x Hx; try exact Hx.
  all: try (intros y ->%list_elem_of_singleton; auto).
  intros r Hr'. left. by apply Hx.
Qed.

(** A tenant's request keeps the batches whole. *)
Lemma batched_handle r p a : Tenant p → batched a (handle state r p a).1.
Proof.
  intros Hp. unfold handle. destruct (admin_only r) eqn:Hr; [|by apply batched_handler].
  unfold bind. pose proof (batched_guarded (require_admin_principal p)) as Hg. specialize (Hg _ a).
  destruct (require_admin_principal p a) as [b [[]|e]] eqn:Ha; [|by apply Hg].
  apply require_admin_ok in Ha as (_ & _ & Hadm). by rewrite tenant_not_admin in Hadm.
Qed.

(** C2: projects are isolated, over the requests of [ApiRequest]: those on jobs, batches,
    schedules, events, run records and lists of artifacts, the audit log, the records of
    long-running services, of notebooks and of notebook services, the directory's entries,
    runs of its functions, and nine that are for admins alone.  The caller is not an admin
    and has a project; whichever of these requests it makes, and wherever the request
    fails:
    - the answer holds only records of the caller's project (or of none), nested ones
      included: a batch comes with its own jobs and their runs, an entry with its own
      versions, a list of artifacts is that of the run;
    - no job, run, artifact, schedule, batch, long-running service, directory entry or
      version of another project is changed or removed, nor any user, project or token.
    Of the state it asks that the rows of schedules, long-running services and entries are
    under their ids ([keyed], kept by every request) and, for what is nested in a batch,
    that every job naming a batch names one there is, of its own project ([batches], kept
    too); of the host and of the validating runtimes, that they leave jobs, schedules and
    batches alone ([HostWithin rests], [RuntimeRests]).
    It says nothing of the other routes open to tenants: starting, stopping, probing and
    validating notebook and directory services, the proxies, the websockets and the events
    of a run, downloads of artifacts, heartbeats, the status of the event stream and the
    list of goblins.  Nor does it protect stored notebooks and notebook services: these
    are kept by kind, and the kinds of two projects can be the same, so that one replaces
    the other's (Example [kinds_collide] of ApiReview). *)
Theorem tenant_isolation r p a :
  Tenant p → keyed a →
  confined p a (handle state r p a).1
  ∧ (batches (a_world a) → batches (a_world (handle state r p a).1))
  ∧ ∀ resp, (handle state r p a).2 = Ok resp → sees_only_mine p a resp.
Proof.
  intros Hp Hk. destruct (secure_handle r p a Hp Hk) as [Hc Hv].
  split; [done|]. split; [by apply batched_handle|done].
Qed.

(** A history of requests, each with its caller. *)
Definition serve (a : ApiWorld) (l : list (ApiRequest * Principal)) : ApiWorld :=
  foldl (λ a rp, (handle state rp.1 rp.2 a).1) a l.

(** The rows of one project. *)
Record keeps_project (q : string) (a a' : ApiWorld) : Prop := {
  kp_jobs : ∀ id j, jobs (w_jobs (a_world a)) !! id = Some j → j_project_id j = Some q →
    jobs (w_jobs (a_world a')) !! id = Some j;
  kp_schedules : ∀ id s, w_schedules (a_world a) !! id = Some s → sc_project_id s = Some q →
    w_schedules (a_world a') !! id = Some s;
  kp_services : ∀ id s, a_services a !! id = Some s → ls_project_id s = Some q →
    a_services a' !! id = Some s;
  kp_entries : ∀ id e, a_entries a !! id = Some e → re_project_id e = Some q → a_entries a' !! id = Some e;
  kp_versions : ∀ id v e, a_versions a !! id = Some v → a_entries a !! rv_entry_id v = Some e →
    re_project_id e = Some q → a_versions a' !! id = Some v
}.
Lemma confined_keeps_project p q a a' :
  pr_project_id p ≠ Some q → truthy q = true → confined p a a' → keeps_project q a a'.
Proof.
  intros Hp Hq [Hj _ Hs _ Hl He Hv _ _].
  assert (∀ col, col = Some q → foreign p col) as Hf.
  { intros col -> [Heq|Hfalse]; [by rewrite Heq in Hp|]. simpl in Hfalse. congruence. }
  split; eauto.
Qed.

(** A project's rows are its own: after any history of requests by tenants of
    other projects, every job, schedule, service, directory entry and version of the
    project is as it was. *)
Theorem project_untouched_by_others l q a :
  (∀ r p, (r, p) ∈ l → Tenant p ∧ pr_project_id p ≠ Some q) → truthy q = true → keyed a →
  keeps_project q a (serve a l).
Proof.
  revert a. induction l as [|[r p] l IH]; intros a Hl Hq Hkey; [by split|].
  destruct (Hl r p (list_elem_of_here _ _)) as [Hp Hne].
  destruct (secure_handle r p a Hp Hkey) as [Hc _].
  destruct (confined_keeps_project p q _ _ Hne Hq Hc) as [Hj1 Hs1 Hl1 He1 Hv1].
  destruct (IH (handle state r p a).1) as [Hj2 Hs2 Hl2 He2 Hv2];
    [intros r' p' Hin; apply (Hl r' p'); by right|done|by apply Hc|].
  split; simpl; eauto.
Qed.
End requests.

(** ** Concrete runs *)

Lemma down_host_rests : @HostWithin rests down_host.
Proof. split; intros; apply _. Qed.
Lemma local_directory_rests : @RuntimeRests local_directory.
Proof. split; intros; apply _. Qed.
Lemma member_tenant user project : Tenant (member user project).
Proof. split; [done|by eexists]. Qed.

Lemma tenant_isolation_witness :
  jobs (w_jobs (a_world (plain_handle (CancelJob "high") (member "eve" "p2") p1_api).1)) !! "high"
  = Some claimed_row.
Proof.
  destruct (@tenant_isolation sqlite_merge frozen_env plain_crypto strict_pydantic int_floats down_host
    down_workers any_cron silent_services local_directory down_host_rests
    local_directory_rests plain_state (CancelJob "high") (member "eve" "p2") p1_api
    (member_tenant _ _) p1_api_keyed) as [Hc _].
  apply (cf_jobs _ _ _ Hc); [reflexivity|]. by intros [?|?].
Defined.

Lemma project_untouched_by_others_witness :
  let after := @serve sqlite_merge frozen_env plain_crypto strict_pydantic int_floats down_host
    down_workers any_cron silent_services local_directory plain_state p1_api
    [(CancelJob "high", member "eve" "p2"); (RequestReview "e1" None None, member "mallory" "p3")] in
  jobs (w_jobs (a_world after)) !! "high" = Some claimed_row
  ∧ a_versions after !! "v1" = Some published_row.
Proof.
  destruct (@project_untouched_by_others sqlite_merge frozen_env plain_crypto strict_pydantic int_floats
    down_host down_workers any_cron silent_services local_directory down_host_rests
    local_directory_rests plain_state
    [(CancelJob "high", member "eve" "p2"); (RequestReview "e1" None None, member "mallory" "p3")] "p1" p1_api)
    as [Hj _ _ _ Hv]; [|reflexivity|apply p1_api_keyed|].
  - intros r p [[= -> ->]|[[= -> ->]|[]%not_elem_of_nil]%elem_of_cons]%elem_of_cons;
      (split; [apply member_tenant|done]).
  - split; [by apply Hj|]. eapply Hv; [vm_compute; reflexivity..|reflexivity].
Defined.
