(* ===== verification/ApiReview.v ===== *)
(** * The directory's review, end to end

    Over any history of requests by anyone, the catalog stays well formed and every
    approval recorded in it was given by an admin, through the approval route: the
    role gate of the API and the catalog's own rules together. *)

From S2P Require Import Prelude CausalTime Contracts ResourcePolicies EventStore JobStore JobLifecycle RecordStore Auth Registry World Validation Scheduler Attempts Fanout Repository Cleanup Api ApiJobs ApiServices ApiDirectory ApiTenancy ApiIsolation.

(** ** The invariant *)

Section signed.
Context (approver : string → Prop).

(** Whoever a version names as its approver is one. *)
Definition approvers_ok (vs : table RepositoryVersionRecord) : Prop :=
  ∀ k v u, vs !! k = Some v → rv_approved_by v = Some u → approver u.
Definition signed (t : RepoTables) : Prop := repo_ok t ∧ approvers_ok (versions t).
Definition signed_api (a : ApiWorld) : Prop := signed (view repo_lens a).

(** A call that keeps an assertion. *)
Definition sustains {S} (P : S → Prop) (s s' : S) : Prop := P s → P s'.
#[export] Instance sustains_preorder {S} (P : S → Prop) : PreOrder (sustains P).
Proof. split; [by intros s Hs|]. intros a b c Hab Hbc Ha. by apply Hbc, Hab. Qed.

Lemma signed_catalog t t' :
  entries t' = entries t → versions t' = versions t → signed t → signed t'.
Proof.
  destruct t, t'. simpl. intros -> -> [[] Ha]. by split; [split|].
Qed.

End signed.

(** ** The catalog's calls: whom they may name *)

(** Every approver named after the call is one of [N], or was named before. *)
Definition names (N : string → Prop) (t t' : RepoTables) : Prop :=
  ∀ k v u, versions t' !! k = Some v → rv_approved_by v = Some u →
    N u ∨ ∃ k0 v0, versions t !! k0 = Some v0 ∧ rv_approved_by v0 = Some u.
#[export] Instance names_preorder N : PreOrder (names N).
Proof.
  split; [intros t k v u Hv Hu; right; eauto|].
  intros t1 t2 t3 H12 H23 k v u Hv Hu. destruct (H23 k v u Hv Hu) as [?|(k2 & v2 & Hv2 & Hu2)]; eauto.
Qed.

Section names.
Context (N : string → Prop).

#[export] Instance names_versions {A} (m : M RepoTables A) : Preserves versions m → Within (names N) m | 90.
Proof. intros Hm t k v u Hv Hu. rewrite Hm in Hv. right. eauto. Qed.
#[export] Instance versions_entries {A} (m : M (table RepositoryEntryRecord) A) :
  Preserves versions (zoom entries_lens m).
Proof. intros t. by rewrite zoom_eq. Qed.
#[export] Instance versions_create_entry e : Preserves versions (create_repository_entry e).
Proof.
  unfold create_repository_entry, insert_entry, loaded_entry, _ensure_repository_entry_name_available.
  solve_preserves.
Qed.
#[export] Instance versions_update_entry e : Preserves versions (update_repository_entry e).
Proof.
  unfold update_repository_entry, update_entry, loaded_entry, _ensure_repository_entry_name_available,
    _require_repository_version_status. solve_preserves.
Qed.
#[export] Instance versions_entry_status id s at_ pv :
  Preserves versions (transition_repository_entry_status id s at_ pv).
Proof.
  unfold transition_repository_entry_status, update_entry, loaded_entry,
    _require_repository_version_status. solve_preserves.
Qed.
Lemma names_insert_version v : rv_approved_by v = None → Within (names N) (insert_version v).
Proof.
  intros Hnone t k x u Hx Hu. unfold insert_version in Hx. rewrite zoom_eq in Hx. simpl in Hx.
  unfold insert_unique, insert_row in Hx. destruct (index_taken _ _ _ _); [right; eauto|].
  destruct (versions t !! rv_id v); [right; eauto|]. simpl in Hx.
  apply lookup_insert_Some in Hx as [[_ <-]|[_ Hx]]; [congruence|right; eauto].
Qed.
#[export] Instance versions_update_row id f : Preserves versions (update_entry id f).
Proof. apply _. Qed.
#[export] Instance names_create_version `{Sqlite} v : Within (names N) (create_repository_version v).
Proof.
  intros t. unfold create_repository_version. rewrite !bind_raise_if. destruct (_ || _); [reflexivity|].
  destruct (negb (bool_decide (rv_approved_by v = None)) || _) eqn:Hnone; [reflexivity|].
  apply orb_false_iff in Hnone as [Hnone%negb_false_iff%bool_decide_eq_true _].
  destruct (negb _); [reflexivity|]. rewrite bind_tail_state by apply _.
  pose proof (names_insert_version v Hnone). revert t.
  match goal with |- ∀ t, names N t (?m t).1 => change (Within (names N) m) end.
  unfold raise_opt. solve_within.
Qed.

Lemma version_values_approver existing s at_ proof ab aa pa f row :
  version_values existing s at_ proof ab aa pa = Ok f →
  rv_approved_by (f row) = None ∨ rv_approved_by (f row) = rv_approved_by row
  ∨ rv_approved_by (f row) = ab ∨ rv_approved_by (f row) = rv_approved_by existing.
Proof.
  unfold version_values, truthy_or. destruct s; repeat case_match; intros [= <-]; simpl; auto.
Qed.
Lemma names_version_status id n s at_ proof ab aa pa :
  (∀ u, ab = Some u → N u) →
  Within (names N) (transition_repository_version_status id n s at_ proof ab aa pa).
Proof.
  intros Hab t. unfold transition_repository_version_status. rewrite bind_gets, bind_lift.
  destruct (get_repository_version id n t) as [[x|]|] eqn:Hx; [|reflexivity..].
  apply get_version_some in Hx as (_ & _ & kx & Hx).
  destruct (bool_decide (rv_status x = Published)); [destruct (bool_decide _); reflexivity|].
  rewrite bind_lift. destruct (_validate_repository_transition _ _); [|reflexivity].
  rewrite bind_lift. destruct (version_values _ _ _ _ _ _ _) as [f|] eqn:Hf; [|reflexivity].
  rewrite bind_tail_state by apply _. rewrite atomic_state. case_match; [|reflexivity].
  unfold bind, modify. intros k v u Hv Hu.
  match type of Hv with versions (?m ?t').1 !! _ = _ =>
    assert (versions (m t').1 = versions t') as Hsame by apply (versions_update_row id) end.
  rewrite Hsame in Hv. simpl in Hv. rewrite lookup_update_rows in Hv.
  destruct (versions t !! k) as [v0|] eqn:Hv0; [|done]. simpl in Hv. simplify_eq.
  destruct (_ && _); [|right; eauto].
  destruct (version_values_approver _ _ _ _ _ _ _ _ v0 Hf) as [E|[E|[E|E]]]; rewrite E in Hu;
    [done|right; eauto|left; eauto|right; eauto].
Qed.
#[export] Instance versions_goblins {A} (m : M (table NotebookGoblinRecord) A) :
  Preserves versions (zoom goblins_lens m).
Proof. intros t. by rewrite zoom_eq. Qed.
#[export] Instance versions_services {A} (m : M (table NotebookServiceRecord) A) :
  Preserves versions (zoom Repository.services_lens m).
Proof. intros t. by rewrite zoom_eq. Qed.
#[export] Instance names_delete id : Within (names N) (Repository.delete_repository_entry id).
Proof.
  unfold Repository.delete_repository_entry, delete_notebook_records. solve_within.
  - intros t k v u Hv Hu. rewrite zoom_eq in Hv. simpl in Hv.
    apply lookup_delete_rows in Hv as [Hv _]. right. eauto.
  - apply names_versions, preserves_modify. by intros t.
Qed.
End names.

(** ** The handlers *)

Section sustains.
Context `{Sqlite} `{Env} `{Crypto} `{Pydantic} `{Floats} `{Host} `{Workers} `{CronParser} `{HttpProbe}
  `{DirectoryRuntime}.
Context (state : AppState) (approver : string → Prop).

Abbreviation Signs m := (Within (sustains (signed_api approver)) m).

Lemma signs_call {A} N (m : M RepoTables A) :
  (∀ u, N u → approver u) → (∀ t, repo_ok t → repo_ok (m t).1) → Within (names N) m →
  Signs (zoom repo_lens m).
Proof.
  intros HN Hok Hm a [Hrepo Ha]. rewrite zoom_eq. unfold signed_api, signed. cbn [fst]. rewrite view_put.
  split; [by apply Hok|]. intros k v u Hv Hu.
  destruct (Hm _ k v u Hv Hu) as [?|(k0 & v0 & Hv0 & Hu0)]; [by apply HN|by eapply Ha].
Qed.
Lemma refines_ok {A} removed (m : M RepoTables A) :
  (∀ t, repo_ok t → catalog_change removed t (m t).1) → ∀ t, repo_ok t → repo_ok (m t).1.
Proof. intros Hm t Hok. by eapply catalog_change_ok, Hm. Qed.

#[export] Instance signs_create_entry e : Signs (zoom repo_lens (create_repository_entry e)).
Proof.
  apply (signs_call (λ _, False)); [done| |apply _].
  apply (refines_ok None). intros t _. apply create_entry_refines.
Qed.
#[export] Instance signs_update_entry e : Signs (zoom repo_lens (update_repository_entry e)).
Proof.
  apply (signs_call (λ _, False)); [done| |apply _].
  apply (refines_ok None). intros t _. apply update_entry_refines.
Qed.
#[export] Instance signs_entry_status id s at_ pv :
  Signs (zoom repo_lens (transition_repository_entry_status id s at_ pv)).
Proof.
  apply (signs_call (λ _, False)); [done| |apply _].
  apply (refines_ok None). intros t _. apply entry_status_refines.
Qed.
#[export] Instance signs_create_version v : Signs (zoom repo_lens (create_repository_version v)).
Proof.
  apply (signs_call (λ _, False)); [done| |apply _].
  apply (refines_ok None). intros t _. apply create_version_refines.
Qed.
#[export] Instance signs_delete id : Signs (zoom repo_lens (Repository.delete_repository_entry id)).
Proof.
  apply (signs_call (λ _, False)); [done| |apply _].
  apply (refines_ok (Some id)). intros t _. apply delete_entry_refines.
Qed.

(** What does not touch the catalog. *)
Definition catalog (a : ApiWorld) := (a_entries a, a_versions a).
#[export] Instance signs_catalog {A} (m : M ApiWorld A) : Preserves catalog m → Signs m | 90.
Proof.
  intros Hm a. specialize (Hm a). unfold catalog in Hm. injection Hm as He Hv.
  intros Hs. by apply (signed_catalog _ (view repo_lens a)).
Qed.
#[export] Instance catalog_guarded {A} (m : M ApiWorld A) : Preserves guarded m → Preserves catalog m | 90.
Proof. intros Hm a. specialize (Hm a). unfold catalog. by injection Hm as _ _ _ _ -> -> _ _ _. Qed.
#[export] Instance catalog_world {A} (m : M World A) : Preserves catalog (zoom world_lens m).
Proof. intros a. rewrite zoom_eq. by destruct a. Qed.
#[export] Instance catalog_jobs {A} (m : M JobTables A) : Preserves catalog (zoom a_jobs_lens m).
Proof. intros a. rewrite zoom_eq. by destruct a. Qed.
#[export] Instance catalog_schedules {A} (m : M (table ScheduleRecord) A) :
  Preserves catalog (zoom a_schedules_lens m).
Proof. intros a. rewrite zoom_eq. by destruct a. Qed.
#[export] Instance catalog_services {A} (m : M (table LongServiceRecord) A) :
  Preserves catalog (zoom services_lens m).
Proof. intros a. rewrite zoom_eq. by destruct a. Qed.
#[export] Instance catalog_auth {A} (m : M AuthState A) : Preserves catalog (zoom auth_lens m).
Proof. intros a. rewrite zoom_eq. by destruct a. Qed.
#[export] Instance catalog_rows {A} (m : M RuntimeRows A) : Preserves catalog (zoom rows_lens m).
Proof. intros a. rewrite zoom_eq. by destruct a. Qed.
#[export] Instance catalog_visible {R} (project : R → option string) p l :
  Preserves catalog (visible_records state project p l).
Proof. induction l as [|r l IH]; simpl; solve_preserves. Qed.
#[export] Instance catalog_emit_jobs q l : Preserves catalog (emit_fanout_jobs q l).
Proof. induction l as [|j l IH]; simpl; solve_preserves. Qed.
#[export] Instance catalog_policy {A} p q kind (r : result A) : Preserves catalog (policy_or_422 p q kind r).
Proof. unfold policy_or_422, record_policy_rejection. solve_preserves. Qed.
#[export] Instance catalog_source kind : Preserves catalog (queue_source state kind).
Proof. unfold queue_source. solve_preserves. Qed.
#[export] Instance catalog_queue_job r p repo : Preserves catalog (_queue_job state r p repo).
Proof. unfold _queue_job, queue_terms. solve_preserves. Qed.

(** The requests that never touch the catalog: all but the directory's own. *)
Definition directory_write (r : ApiRequest) : bool :=
  match r with
  | SubmitEntry _ | ValidateEntry _ _ _ | RequestReview _ _ _ | ApproveEntry _ _ _ | RejectEntry _ _ _
  | PublishEntry _ _ | RetireEntry _ _ | DeleteEntry _ => true
  | _ => false
  end.
Lemma catalog_untouched r p : directory_write r = false → Preserves catalog (handler state r p).
Proof.
  intros Hr. destruct r; try discriminate Hr; cbn [handler]; unfold fmap_M.
  all: apply preserves_bind; [|by intros x; apply _].
  all: unfold create_job, list_jobs, get_job, cancel_job, job_for_principal, create_jobs_fanout, get_fanouts,
    get_fanout, retry_api_job, retry_in_project, record_policy_rejection, create_schedule,
    schedule_from_request, list_schedules, patch_schedule, list_events, get_run, list_runs,
    list_run_artifacts, list_audit_logs, register_long_running_service, list_long_running_services,
    get_long_running_service, probe_long_running_service, _probe_long_service_record,
    stop_long_running_service, service_for_principal, create_notebook_goblin, list_notebook_goblins,
    create_notebook_service, list_notebook_services, own_record, list_repository_entries,
    get_repository_entry, entry_for_principal, run_repository_function,
    _resolve_published_repository_version, _repository_entry_detail, repo_gets,
    create_admin_user, create_admin_project, create_admin_token, cleanup_runtime_rows.
  all: solve_preserves.
Qed.

Lemma signs_move id n s proof ab aa :
  (∀ u, ab = Some u → approver u) → Signs (move_version id n s proof ab aa).
Proof.
  intros Hab. unfold move_version. apply within_bind; [apply _|apply _|]. intros now.
  apply (signs_call approver); [done| |by apply names_version_status].
  intros t Hok. apply (catalog_change_ok None t); [done|]. apply version_status_refines, Hok.
Qed.
#[export] Instance signs_review id n s proof aa : Signs (move_version id n s proof None aa).
Proof. by apply signs_move. Qed.

#[export] Instance catalog_entry_for id p : Preserves catalog (entry_for_principal state id p).
Proof. unfold entry_for_principal, repo_gets. apply _. Qed.
#[export] Instance catalog_detail e : Preserves catalog (_repository_entry_detail e).
Proof. unfold _repository_entry_detail, repo_gets. apply _. Qed.
#[export] Instance catalog_refreshed id : Preserves catalog (refreshed_detail id).
Proof. unfold refreshed_detail, repo_gets. solve_preserves. Qed.
#[export] Instance catalog_proof r p e v : Preserves catalog (directory_proof r p e v).
Proof. unfold directory_proof, validation_audit. solve_preserves. Qed.

(** The version a request names is one of the catalog. *)
Lemma requested_version_stored e n a b v :
  _repository_requested_version e n a = (b, Ok v) → a = b ∧ ∃ k, a_versions a !! k = Some v.
Proof.
  unfold _repository_requested_version, repo_gets. destruct n as [n|]; rewrite bind_gets.
  - rewrite bind_lift. destruct (get_repository_version _ _ _) as [[x|]|] eqn:Hx; [|done..].
    intros [= <- <-]. apply get_version_some in Hx as (_ & _ & k & Hk). split; [done|by exists k].
  - unfold _repository_latest_version. destruct (last _) as [x|] eqn:Hx; [|done].
    intros [= <- <-]. split; [done|]. apply last_Some_elem_of, order_by_elem, list_elem_of_filter in Hx as [_ Hx].
    apply elem_of_versions_of in Hx as [_ [k Hk]]. by exists k.
Qed.
(** Publishing carries the stored approval over. *)
#[export] Instance signs_publish id n p : Signs (publish_repository_entry state id n p).
Proof.
  unfold publish_repository_entry. apply within_bind; [apply _..|]. intros _.
  apply within_bind; [apply _..|]. intros e a Hs.
  unfold bind at 1. destruct (_repository_requested_version e n a) as [b [v|err]] eqn:Hv.
  - apply requested_version_stored in Hv as [<- [k Hk]].
    assert (∀ u, rv_approved_by v = Some u → approver u) as Hu by (intros u; by apply (proj2 Hs k)).
    match goal with |- signed_api _ (?m a).1 => enough (Signs m) as Hm by (by apply Hm) end.
    apply within_bind; [apply _..|]. intros _. apply within_bind; [apply _|by apply signs_move|].
    solve_within.
  - assert (Signs (_repository_requested_version e n)) as Hm by apply _. specialize (Hm a Hs).
    by rewrite Hv in Hm.
Qed.

Lemma signs_directory r p :
  directory_write r = true → ((∃ id note v, r = ApproveEntry id note v) → approver (pr_user_id p)) →
  Signs (handler state r p).
Proof.
  intros Hr Hap.
  assert (∀ id note v, r = ApproveEntry id note v → Signs (approve_repository_entry state id note v p)) as Happ.
  { intros id note v ->. assert (∀ i n, Signs (move_version i n Approved None (Some (pr_user_id p)) None))
      by (intros; apply signs_move; intros u [= <-]; apply Hap; eauto).
    unfold approve_repository_entry. solve_within. }
  destruct r; try discriminate Hr; cbn [handler]; unfold fmap_M; (apply within_bind; [apply _| |solve_within]).
  all: try apply _; try by apply Happ.
  all: unfold submit_repository_entry, submit_entry, validate_repository_entry, request_repository_review,
    reject_repository_entry, retire_repository_entry, delete_repository_entry, repo_gets, validation_audit.
  all: solve_within.
Qed.

Lemma signs_handle r p :
  (is_admin p = true → (∃ id note v, r = ApproveEntry id note v) → approver (pr_user_id p)) →
  Signs (handle state r p).
Proof.
  intros Hap a Hs. unfold handle. destruct (admin_only r) eqn:Hadm.
  - unfold bind. destruct (require_admin_principal p a) as [b [x|e]] eqn:Hreq.
    + apply require_admin_ok in Hreq as (-> & _ & Hp). revert a Hs.
      destruct (directory_write r) eqn:Hr; [by apply signs_directory; auto|].
      apply signs_catalog. by apply catalog_untouched.
    + assert (Signs (require_admin_principal p)) as Hm by apply _. specialize (Hm a Hs). by rewrite Hreq in Hm.
  - revert a Hs. destruct (directory_write r) eqn:Hr.
    + apply signs_directory; [done|]. by intros (id & note & v & ->).
    + apply signs_catalog. by apply catalog_untouched.
Qed.

Lemma signs_serve l a :
  (∀ p id note v, (ApproveEntry id note v, p) ∈ l → is_admin p = true → approver (pr_user_id p)) →
  signed_api approver a → signed_api approver (serve state a l).
Proof.
  revert a. induction l as [|[r p] l IH]; intros a Hl Hs; [done|]. simpl. apply IH.
  - intros p' id note v Hin. apply (Hl p' id note v). by right.
  - apply signs_handle; [|done]. intros Hadm (id & note & v & ->). by apply (Hl p id note v); [left|].
Qed.
End sustains.

(** The version is signed by an admin who asked to approve it in the history. *)
Definition signed_by_admin (l : list (ApiRequest * Principal)) (v : RepositoryVersionRecord) : Prop :=
  ∃ p id note n, (ApproveEntry id note n, p) ∈ l ∧ is_admin p = true
    ∧ rv_approved_by v = Some (pr_user_id p).

Section theorems.
Context `{Sqlite} `{Env} `{Crypto} `{Pydantic} `{Floats} `{Host} `{Workers} `{CronParser} `{HttpProbe}
  `{DirectoryRuntime}.

(** C3: no publication without an admin.  However a history of requests went, by
    whomever, starting from an empty catalog: the catalog is well formed, and every
    published version carries the user id of an admin who sent an approval in that
    history. *)
Theorem published_versions_signed state l a :
  a_entries a = ∅ → a_versions a = ∅ →
  repo_ok (view repo_lens (serve state a l))
  ∧ ∀ k v, a_versions (serve state a l) !! k = Some v → rv_status v = Published → signed_by_admin l v.
Proof.
  intros He Hv.
  set (admin u := ∃ p id note n, (ApproveEntry id note n, p) ∈ l ∧ is_admin p = true ∧ u = pr_user_id p).
  assert (signed_api admin (serve state a l)) as [Hok Ha].
  { apply signs_serve; [intros p id note v Hin Hadm; by exists p, id, note, v|].
    split; [|intros k v u Hk; simpl in Hk; by rewrite Hv, lookup_empty in Hk].
    apply (signed_catalog (λ _, True) empty_repo); [by simpl..|]. split; [apply empty_repo_ok|done]. }
  split; [done|]. intros k v Hk Hpub.
  destruct (ro_published _ Hok k v Hk Hpub) as (_ & [u Hu] & _).
  destruct (Ha k v u Hk Hu) as (p & id & note & n & Hin & Hadm & ->).
  by exists p, id, note, n.
Qed.
End theorems.

(** ** Concrete runs *)

Definition plain_serve (a : ApiWorld) (l : list (ApiRequest * Principal)) : ApiWorld :=
  @serve sqlite_merge frozen_env plain_crypto strict_pydantic int_floats down_host down_workers any_cron
    silent_services local_directory plain_state a l.

Definition hello_submission : RepositorySubmitRequest :=
  mkSubmitRequest "hello" NotebookFunction "def run(): pass" None None [] None None "run" None 0 "app" []
    8080 "/hello" ∅.
(** Ada submits, validates and asks for a review; root approves and publishes. *)
Definition publication : list (ApiRequest * Principal) :=
  [(SubmitEntry hello_submission, member "ada" "p1");
   (ValidateEntry "id-0" (mkValidateRequest ∅ true None) None, member "ada" "p1");
   (RequestReview "id-0" None None, member "ada" "p1");
   (ApproveEntry "id-0" None None, root); (PublishEntry "id-0" None, root)].
Definition statuses (a : ApiWorld) : list (RepositoryEntryStatus * option string) :=
  (λ v, (rv_status v, rv_approved_by v)) <$> rows (a_versions a).

Example publication_run :
  statuses (plain_serve empty_api publication) = [(Published, Some "root")]
  ∧ statuses (plain_serve empty_api (take 4 publication)) = [(Approved, Some "root")]
  ∧ statuses (plain_serve empty_api
      (take 3 publication ++ [(ApproveEntry "id-0" None None, member "ada" "p1")])) = [(PendingReview, None)].
Proof. split_and!; vm_compute; reflexivity. Qed.

Lemma published_versions_signed_witness :
  let a := plain_serve empty_api publication in
  repo_ok (view repo_lens a)
  ∧ ∃ k v, a_versions a !! k = Some v ∧ rv_approved_by v = Some "root"
      ∧ ∃ p id note n, (ApproveEntry id note n, p) ∈ publication ∧ is_admin p = true
          ∧ rv_approved_by v = Some (pr_user_id p).
Proof.
  destruct (@published_versions_signed sqlite_merge frozen_env plain_crypto strict_pydantic int_floats
    down_host down_workers any_cron silent_services local_directory plain_state publication
    empty_api) as [Hok Hsigned]; [reflexivity..|].
  split; [exact Hok|]. destruct (a_versions (plain_serve empty_api publication) !! "id-1") as [v|] eqn:Hv;
    [|vm_compute in Hv; discriminate].
  exists "id-1", v. split; [done|].
  assert (rv_status v = Published ∧ rv_approved_by v = Some "root") as [Hpub Hby]
    by (vm_compute in Hv; injection Hv as <-; done).
  split; [done|]. by apply (Hsigned "id-1").
Defined.

(** A project member replaces the source behind a published version, past its review:
    the version still shows the hash that was approved. *)
Definition hello_kind : string := "repository.p1.hello.v1".
Definition overwrite : ApiRequest * Principal :=
  (CreateNotebookGoblin (mkNotebookRequest hello_kind "def run(): steal()" "run" None None None None 0 ∅),
   member "mallory" "p1").
Example review_bypass :
  let published := plain_serve empty_api publication in
  let after := plain_serve published [overwrite] in
  a_versions after = a_versions published
  ∧ (ng_source <$> w_notebooks (a_world published) !! hello_kind) = Some "def run(): pass"
  ∧ (ng_source <$> w_notebooks (a_world after) !! hello_kind) = Some "def run(): steal()".
Proof. split_and!; vm_compute; reflexivity. Qed.

(** A caller with no project at all lists the services of every project. *)
Example services_leak :
  let with_service := plain_serve empty_api
    [(RegisterService (mkServiceRequest "web" None (Some "http://web") None None), member "ada" "p1")] in
  (plain_handle ListServices (mkPrincipal "eve" "eve" RoleMember None false "token") with_service).2
  = (plain_handle ListServices (member "ada" "p1") with_service).2
  ∧ match (plain_handle ListServices (member "ada" "p1") with_service).2 with
    | Ok (RServices [s]) => ls_project_id s = Some "p1" | _ => False end.
Proof. split; vm_compute; reflexivity. Qed.

(** Two projects whose names share a kind: the second submission replaces the source
    of the first. *)
Example kinds_collide :
  let first := plain_serve empty_api [(SubmitEntry hello_submission, member "ada" "team-a")] in
  let second := plain_serve first
    [(SubmitEntry (mkSubmitRequest "hello" NotebookFunction "def run(): other()" None None [] None None
                     "run" None 0 "app" [] 8080 "/hello" ∅), member "bob" "Team A")] in
  length (rows (a_entries second)) = 2%nat
  ∧ (ng_project_id <$> w_notebooks (a_world second) !! "repository.team-a.hello.v1") = Some (Some "Team A").
Proof. split; vm_compute; reflexivity. Qed.

(** A viewer queues a job. *)
Example viewer_writes :
  let state := mkAppState plain_settings {[ "report" := sample_goblin ]} ∅ None in
  is_ok (@handle sqlite_merge frozen_env plain_crypto strict_pydantic int_floats down_host down_workers
    any_cron silent_services local_directory state
    (CreateJob (mkJobRequest "report" ∅ 0 None None 0 None))
    (mkPrincipal "vera" "vera" RoleViewer (Some "p1") false "token") empty_api).2 = true.
Proof. vm_compute. reflexivity. Qed.

(** The pattern tolerates a newline at the end of a name, which the kind of the
    version does not: the entry stays behind without versions, and the name is
    taken. *)
Example newline_name :
  let submit := SubmitEntry (mkSubmitRequest ("hello" +:+ newline) NotebookFunction "def run(): pass" None None
                  [] None None "run" None 0 "app" [] 8080 "/hello" ∅) in
  let first := plain_serve empty_api [(submit, member "ada" "p1")] in
  is_ok (plain_handle submit (member "ada" "p1") empty_api).2 = false
  ∧ length (rows (a_entries first)) = 1%nat ∧ length (rows (a_versions first)) = 0%nat
  ∧ (plain_handle submit (member "ada" "p1") first).2
    = Err (HTTPException 404 "repository entry has no versions: id-0").
Proof. split_and!; vm_compute; reflexivity. Qed.
