(* ===== verification/ApiSpecs.v ===== *)
(** * What the handlers answer and leave behind

    The outcome of the calls that create work: on success exactly one record, with
    its event and its audit row; on any refusal nothing but the evidence of it. *)

From S2P Require Import Prelude CausalTime Contracts ResourcePolicies EventStore JobStore JobLifecycle RecordStore Auth Registry World Validation Scheduler Attempts Fanout Repository Cleanup Api ApiJobs ApiServices ApiDirectory ApiTenancy ApiIsolation ApiReview.

Section specs.
Context `{Sqlite} `{Env} `{Crypto} `{Pydantic} `{Floats} `{Workers} `{CronParser}.
Context `{!Inj eq eq uuid4}.
Context (state : AppState).

(** ** Evidence: an event or an audit row more *)

Definition good_api (a : ApiWorld) : Prop := good (a_world a).
Definition logged (event_type : string) (job_id : option string) (a : ApiWorld) : Prop :=
  ∃ e, events (w_events (a_world a)) !! e_id e = Some e ∧ e_event_type e = event_type ∧ e_job_id e = job_id.
Definition audited (action outcome : string) (a : ApiWorld) : Prop :=
  ∃ l, w_audit (a_world a) !! al_id l = Some l ∧ al_action l = action ∧ al_outcome l = outcome.

Lemma emit_api_run ty d q j f s w t a :
  good_api a →
  ∃ a', emit_api ty d q j f s w t a = (a', Ok tt) ∧ good_api a' ∧ guarded a' = guarded a
    ∧ w_audit (a_world a') = w_audit (a_world a) ∧ logged ty j a'.
Proof.
  intros Hgood. unfold emit_api.
  match goal with |- context [zoom a_bus_lens (emit ty ?x)] =>
    destruct (emit_world ty x (a_world a) Hgood) as (b & e & Hrun & _ & Hgood' & Hty & Hjob & Hev) end.
  exists (put world_lens (put w_bus_lens b (a_world a)) a).
  unfold bind. change a_bus_lens with (lens_compose world_lens w_bus_lens).
  rewrite zoom_compose, zoom_eq. simpl view. rewrite Hrun.
  split_and!; [done|done|by destruct a|by destruct a|].
  exists e. split_and!; [|done..]. simpl. rewrite Hev. apply lookup_insert_eq.
Qed.
Lemma audit_api_run ac o pr q rt ri d a :
  good_api a →
  ∃ a', audit_api ac o pr q rt ri d a = (a', Ok tt) ∧ good_api a' ∧ guarded a' = guarded a
    ∧ w_events (a_world a') = w_events (a_world a) ∧ audited ac o a'.
Proof.
  intros Hgood. unfold audit_api.
  destruct (audit_world ac o pr q rt ri d (a_world a) Hgood)
    as (x & r & Hrun & _ & Hgood' & Hac & Ho & _ & Hlogs).
  exists (put world_lens (put w_audited_lens x (a_world a)) a).
  change a_audited_lens with (lens_compose world_lens w_audited_lens).
  rewrite zoom_compose, zoom_eq. simpl view. rewrite Hrun.
  split_and!; [done|done|by destruct a|by destruct a|].
  exists r. split_and!; [|done..]. simpl. rewrite Hlogs. apply lookup_insert_eq.
Qed.

(** ** Calls that only leave evidence *)

Class Evident {A} (m : M ApiWorld A) : Prop := {
  ev_good :: Within (sustains good_api) m;
  ev_guarded :: Preserves guarded m
}.
#[export] Instance good_emit ty d q j f s w t : Within (sustains good_api) (emit_api ty d q j f s w t).
Proof. intros a Hgood. by destruct (emit_api_run ty d q j f s w t a Hgood) as (a' & -> & ? & _). Qed.
#[export] Instance good_audit ac o pr q rt ri d : Within (sustains good_api) (audit_api ac o pr q rt ri d).
Proof. intros a Hgood. by destruct (audit_api_run ac o pr q rt ri d a Hgood) as (a' & -> & ? & _). Qed.
#[export] Instance good_project p q : Within (sustains good_api) (project_for_request state p q).
Proof. unfold project_for_request. solve_within. Qed.
#[export] Instance good_terms p q r d n : Within (sustains good_api) (queue_terms state p q r d n).
Proof. unfold queue_terms, policy_or_422, record_policy_rejection. solve_within. Qed.
#[export] Instance reads_queue_source kind : Reads (queue_source state kind).
Proof. unfold queue_source, found_or_404. solve_preserves. Qed.

Lemma now_api_good a : good_api a → ∃ a' now, now_api a = (a', Ok now) ∧ good_api a' ∧ guarded a' = guarded a
  ∧ uuids (w_process (a_world a')) = uuids (w_process (a_world a)).
Proof.
  intros [Hl Ht Hi]. unfold now_api. change a_process_lens with (lens_compose world_lens w_process_lens).
  rewrite zoom_compose. do 2 eexists. split; [reflexivity|]. split_and!; [|by destruct a|done].
  split; [done|done|exact Hi].
Qed.
Lemma uuid_api_good a :
  good_api a → ∃ a' id, uuid_api a = (a', Ok id) ∧ guarded a' = guarded a
    ∧ jobs (w_jobs (a_world a)) !! id = None ∧ good_api a' ∧ reserved id (a_world a').
Proof.
  intros [Hl Ht Hi]. unfold uuid_api. change a_process_lens with (lens_compose world_lens w_process_lens).
  rewrite zoom_compose. do 2 eexists. split; [reflexivity|].
  destruct (Hi _ (le_n _)) as (_ & Hj & Hr & _). split_and!; [by destruct a|done| |].
  - split; [done|done|]. intros n Hn. apply Hi. simpl in *. lia.
  - split; [done|]. intros n Hn Heq%(inj uuid4). simpl in *. lia.
Qed.

(** A new job under a drawn id. *)
Definition with_job (j : JobRecord) (t : JobTables) : JobTables :=
  mkJobTables (<[j_id j := j]> (jobs t)) (runs t) (artifacts t) (handoffs t).
Lemma save_new_job j a :
  good_api a → reserved (j_id j) (a_world a) → jobs (w_jobs (a_world a)) !! j_id j = None →
  job_ok (j_id j) j →
  ∃ a', zoom a_jobs_lens (save_job j) a = (a', Ok tt) ∧ good_api a'
    ∧ w_jobs (a_world a') = with_job j (w_jobs (a_world a)).
Proof.
  intros Hgood [_ Hres] Hnew Hok. exists (put a_jobs_lens (with_job j (w_jobs (a_world a))) a).
  split_and!; [| |done].
  - rewrite zoom_eq. unfold save_job. rewrite zoom_eq. unfold insert_row. simpl. by rewrite Hnew.
  - apply good_jobs; [done| | |by left].
    + destruct Hgood as [_ [Hj Hr] _]. split; [by apply map_Forall_insert_2|done].
    + intros k Hk. destruct (decide (k = j_id j)) as [->|Hne]; [by right|left].
      simpl in Hk. by rewrite lookup_insert_ne in Hk.
Qed.

(** Writing a job with its evidence. *)
Definition announce (p : Principal) (q : option string) (job : JobRecord) : M ApiWorld JobRecord :=
  do* zoom a_jobs_lens (save_job job) in
  do* emit_api "job.queued" {[ "kind" := JStr (j_kind job); "created_by" := JStr (j_created_by job) ]}
        q (Some (j_id job)) None None None (Some (j_created_at job)) in
  do* audit_success "job.created" p q "job" (j_id job) ∅ in
  ret job.

Definition announced (job : JobRecord) (a a' : ApiWorld) : Prop :=
  jobs (w_jobs (a_world a)) !! j_id job = None
  ∧ w_jobs (a_world a') = with_job job (w_jobs (a_world a))
  ∧ logged "job.queued" (Some (j_id job)) a' ∧ audited "job.created" "success" a'.

Lemma announce_run p q j a :
  good_api a → reserved (j_id j) (a_world a) → jobs (w_jobs (a_world a)) !! j_id j = None →
  job_ok (j_id j) j → ∃ a', announce p q j a = (a', Ok j) ∧ announced j a a' ∧ good_api a'.
Proof.
  intros Hgood Hres Hnew Hok. unfold announce, announced.
  destruct (save_new_job j a Hgood Hres Hnew Hok) as (a1 & Hsave & Hgood1 & Hjobs).
  unfold bind at 1. rewrite Hsave.
  match goal with |- context [emit_api ?ty ?d q ?jid ?f ?s ?w ?t] =>
    destruct (emit_api_run ty d q jid f s w t a1 Hgood1) as (a2 & Hemit & Hgood2 & Hg2 & _ & Hlog) end.
  unfold bind at 1. rewrite Hemit. unfold audit_success.
  match goal with |- context [audit_api ?ac ?o ?pr ?qq ?rt ?ri ?d] =>
    destruct (audit_api_run ac o pr qq rt ri d a2 Hgood2) as (a3 & Haudit & Hgood3 & Hg3 & Hev & Haud) end.
  unfold bind. rewrite Haudit. exists a3. split_and!; try done.
  - rewrite <- Hjobs. unfold guarded in *. congruence.
  - unfold logged. by rewrite Hev.
Qed.

(** C29: queueing a job.  An accepted request stores exactly one new job, the one it
    answers with: queued, unleased, never attempted, of the goblin the request named
    and the project the caller was cleared for, with its [job.queued] event in the
    log and its audit row.  A refused one leaves the jobs as they were. *)
Theorem create_job_spec r p a :
  good_api a →
  match create_job state r p a with
  | (a', Ok j) =>
      announced j a a'
      ∧ (j_status j = JQueued ∧ j_attempt_count j = 0 ∧ j_lease_owner j = None
         ∧ j_created_by j = pr_user_id p ∧ j_input j = jc_input r ∧ j_priority j = jc_priority r)
      ∧ ∃ d n, (queue_source state (jc_kind r) a).2 = Ok (d, n) ∧ j_kind j = gd_kind d
          ∧ (project_for_request state p (or_opt (jc_project_id r) (n ≫= ng_project_id)) a).2
            = Ok (j_project_id j)
  | (a', Err _) => w_jobs (a_world a') = w_jobs (a_world a)
  end.
Proof.
  intros Hgood. unfold create_job, _queue_job. rewrite bind_reads by apply _.
  destruct (queue_source state (jc_kind r) a).2 as [[d n]|e] eqn:Hsrc; [|done].
  replace (match n with Some r => ng_project_id r | None => None end) with (n ≫= ng_project_id) by by destruct n.
  unfold bind at 1.
  pose proof (guarded_project state p (or_opt (jc_project_id r) (n ≫= ng_project_id)) a) as Hg.
  destruct (project_for_request _ _ _ a) as [a1 [q|e]] eqn:Hq; [|by injection Hg].
  apply project_for_request_ok in Hq as Hsame. destruct Hsame as [-> _]. clear Hg.
  pose proof (guarded_terms state p q r d n a) as Hg. pose proof (good_terms p q r d n a Hgood) as Hgood1.
  unfold bind at 1. destruct (queue_terms state p q r d n a) as [b [[[metadata retries] timeout]|e]];
    [|by injection Hg].
  cbn [fst] in Hg, Hgood1. cbv beta iota zeta.
  destruct (now_api_good b Hgood1) as (b1 & now & Hnow & Hgood2 & Hg1 & _).
  destruct (uuid_api_good b1 Hgood2) as (b2 & id & Hid & Hg2 & Hnew & Hgood3 & Hres).
  unfold bind at 1. rewrite Hnow. unfold bind at 1. rewrite Hid.
  set (job := queued_job id now (pr_user_id p) (gd_kind d) q r metadata retries timeout).
  match goal with |- match ?x with _ => _ end => change x with (announce p q job b2) end.
  assert (w_jobs (a_world b2) = w_jobs (a_world a)) as Hj by (unfold guarded in *; congruence).
  assert (w_jobs (a_world b1) = w_jobs (a_world b2)) as Hj1 by (unfold guarded in *; congruence).
  destruct (announce_run p q job b2) as (a' & Hrun & (Hn & Hw & Hrest) & _); [done|exact Hres|rewrite <- Hj1; exact Hnew| |].
  { split; simpl; [done|split; [by intros []|done]..|lia|done]. }
  rewrite Hrun. split; [by unfold announced; rewrite <- Hj|]. split; [done|].
  exists d, n. by rewrite Hq.
Qed.
End specs.

(** ** Concrete runs *)

Lemma empty_api_good : @good_api frozen_env empty_api.
Proof.
  split; [apply empty_log_ok|by split; apply map_Forall_empty|].
  intros n _. simpl. by rewrite !lookup_empty.
Qed.
Definition report_state : AppState := mkAppState plain_settings {[ "report" := sample_goblin ]} ∅ None.
Definition report_request : JobCreateRequest := mkJobRequest "report" ∅ 3 None None 0 None.

Lemma create_job_spec_witness :
  ∃ a' j, @create_job sqlite_merge frozen_env strict_pydantic int_floats report_state report_request
            (member "ada" "p1") empty_api = (a', Ok j)
    ∧ announced j empty_api a' ∧ j_kind j = "report" ∧ j_status j = JQueued.
Proof.
  pose proof (@create_job_spec sqlite_merge frozen_env strict_pydantic int_floats frozen_inj report_state
    report_request (member "ada" "p1") empty_api empty_api_good) as Hspec.
  destruct (create_job _ _ _ _) as [a' [j|e]] eqn:Hrun.
  - exists a', j. destruct Hspec as (Hann & (Hst & _) & d & n & Hsrc & Hkind & _).
    split; [done|]. split; [done|]. split; [|done]. rewrite Hkind. vm_compute in Hsrc. by injection Hsrc as <- _.
  - exfalso. vm_compute in Hrun. discriminate.
Defined.
