(* ===== verification/ApiRuntimes.v ===== *)
(** * The HTTP handlers that run services ([src/src/goblin_king/api.py])

    Validating, starting and stopping notebook services, and starting, probing and
    stopping the services of published directory entries, with the replacement of a
    running service: the candidate must answer before it becomes the active one, and the
    service it replaces is retired when its websocket relays have drained.

    The state is the API's, the drain registry and the retirements handed to it: the
    callback given to [drain] is its position in that list. *)

From Stdlib Require Import Ascii.
From S2P Require Import Prelude CausalTime Contracts Text Paths PyValues ResourcePolicies Containers EventStore JobStore JobLifecycle RecordStore Auth Registry World Validation Scheduler Repository Drain Cleanup NotebookServices Api ApiServices ApiDirectory ApiTenancy ApiReview.

(** What the closure [retire_previous] captures. *)
Record Retirement := mkRetirement {
  rt_record : NotebookServiceRecord; rt_service : LongServiceRecord; rt_replacement : LongServiceRecord;
  rt_principal : Principal; rt_entry_id : string
}.
Record Hosted := mkHosted { ho_api : ApiWorld; ho_drains : Drains; ho_retirements : list Retirement }.
Definition api_lens : lens Hosted ApiWorld := Lens ho_api (λ a h, mkHosted a (ho_drains h) (ho_retirements h)).
Definition drains_lens : lens Hosted Drains := Lens ho_drains (λ d h, mkHosted (ho_api h) d (ho_retirements h)).
#[export] Instance api_lens_lawful : LawfulLens api_lens.
Proof. split; intros; by repeat match goal with h : Hosted |- _ => destruct h end. Qed.

Definition is_http_exception (e : exn) : bool := match e with HTTPException _ _ => true | _ => false end.
(** [uuid4().hex] *)
Definition uuid_hex (id : string) : list ascii := filter (λ c, negb (Ascii.eqb c hyphen) = true) (chars id).

(** [service_websocket_ready] ([api_service_websockets.py]) *)
Definition service_websocket_ready (service : LongServiceRecord) : bool :=
  bool_decide (ls_status service = LsRunning) && opt_truthy (ls_last_probe_at service)
  && match default ∅ (ls_last_probe_json service) !! "status_code" with
     | Some (JInt code) => (200 <=? code) && (code <? 300)
     | _ => false
     end.

(** [_notebook_service_runtime_manager]: the settings' image, runtime and artifact root *)
Definition _notebook_service_runtime_manager (image runtime artifact_root namespace : string)
    : NotebookServiceRuntimeManager :=
  mkManager image runtime (path_join (parent (parse_path artifact_root)) (parse_path "notebook-services"))
    "docker" namespace "IfNotPresent".

Section handlers.
Context `{Sqlite} `{Env} `{Crypto} `{HttpProbe} `{ServiceHost}.
Context (state : AppState) (manager : NotebookServiceRuntimeManager).

Definition host {A} (m : M World A) : M ApiWorld A := zoom world_lens m.

(** ** Notebook services *)

Definition notebook_service_for (kind : string) (principal : Principal) : M ApiWorld NotebookServiceRecord :=
  do* lift_result (_forbid_viewer_write principal) in
  let* found := gets (λ a, get_notebook_service kind (view notebook_services_lens a)) in
  let* record := found_or_404 found ("notebook service not found: " +:+ kind) in
  do* project_for_request state principal (ns_project_id record) in
  ret record.
Definition mark_runtime (kind status : string) (backend name active : option string)
    : M ApiWorld (option NotebookServiceRecord) :=
  let* now := now_api in
  zoom notebook_services_lens (update_notebook_service_runtime kind status backend name active (Some now)).
(** [assert updated is not None] *)
Definition marked (kind status : string) (backend name active : option string) : M ApiWorld NotebookServiceRecord :=
  let* updated := mark_runtime kind status backend name active in
  match updated with Some r => ret r | None => raise AssertionError end.
Definition set_service_status (service_id : string) (detail : dict) : M ApiWorld (option LongServiceRecord) :=
  zoom ApiServices.services_lens (update_long_service_status service_id LsStopped (Some detail)).
Definition audit_service (action outcome : string) (principal : Principal) (record : NotebookServiceRecord) (detail : dict)
    : M ApiWorld unit :=
  audit_api action outcome (Some principal) (ns_project_id record) (Some "notebook_service") (Some (ns_kind record)) detail.
(** A runtime error of the manager: the record is marked, the failure audited, 422. *)
Definition refuse_runtime {A} (action : string) (principal : Principal) (record : NotebookServiceRecord) (e : exn)
    : M ApiWorld A :=
  if is_runtime_error e then
    do* mark_runtime (ns_kind record) "failed" None None None in
    do* audit_service action "failure" principal record
          {[ "error" := JStr (exn_str e); "source_hash" := JStr (ns_source_hash record) ]} in
    raise (HTTPException 422 (exn_str e))
  else raise e.

Definition validate_notebook_service (kind : string) (timeout_seconds : Z) (principal : Principal)
    : M ApiWorld (NotebookServiceRecord * NotebookServiceRuntimeProof) :=
  let* record := notebook_service_for kind principal in
  let* runtime := try_catch (host (validate manager record timeout_seconds))
    (refuse_runtime "notebook_service.validated" principal record) in
  let* updated := marked (ns_kind record) "validated" None None None in
  do* audit_service "notebook_service.validated" "success" principal updated
        {[ "runtime" := proof_model runtime; "source_hash" := JStr (ns_source_hash updated) ]} in
  ret (updated, runtime).

Definition _stop_existing_notebook_service_runtime (record : NotebookServiceRecord) : M ApiWorld unit :=
  do* (match ns_active_service_id record with
       | Some active =>
           if truthy active
           then do* set_service_status active {[ "stopped_by" := JStr "notebook_service.restart" ]} in ret tt
           else ret tt
       | None => ret tt
       end) in
  match persisted_runtime record with
  | Some (backend, name) =>
      do* host (stop_by_backend manager backend name) in
      do* mark_runtime (ns_kind record) "stopped" None None None in ret tt
  | None => ret tt
  end.

(** The service a runtime serves, not yet probed. *)
Definition registered_service (record : NotebookServiceRecord) (base_url : string) (probe : option dict) (principal : Principal)
    : M ApiWorld LongServiceRecord :=
  let* id := uuid_api in
  let* now := now_api in
  let service := mkLongService id (ns_kind record) (ns_project_id record) (Some (ns_image record)) base_url
                   (ns_probe_path record) LsRegistered now (pr_user_id principal) None probe in
  do* zoom ApiServices.services_lens (save_long_service service) in
  ret service.

Definition Probed : Type := LongServiceRecord * string * dict.
Definition start_notebook_service (kind : string) (timeout_seconds : Z) (principal : Principal)
    : M ApiWorld (NotebookServiceRecord * NotebookServiceRuntimeProof * Probed) :=
  let* record := notebook_service_for kind principal in
  do* _stop_existing_notebook_service_runtime record in
  let* runtime := try_catch (host (start manager record None timeout_seconds))
    (refuse_runtime "notebook_service.started" principal record) in
  let* service := registered_service record (rstrip_slash (pf_base_url runtime)) None principal in
  let* updated := marked (ns_kind record) "running" (Some (pf_backend runtime)) (Some (pf_name runtime)) (Some (ls_id service)) in
  let* probe := try_catch (_probe_long_service_record service) (λ e,
    if is_http_exception e then
      do* host (stop_by_backend manager (pf_backend runtime) (pf_name runtime)) in
      do* mark_runtime (ns_kind record) "failed" (Some (pf_backend runtime)) (Some (pf_name runtime)) (Some (ls_id service)) in
      raise e
    else raise e) in
  do* emit_api "notebook.service.started"
        {[ "kind" := JStr (ns_kind updated); "runtime" := proof_model runtime;
           "probe_status" := default JNull (probe.2 !! "status_code") ]}
        (ns_project_id updated) None None None (Some (ls_id service)) None in
  do* audit_service "notebook_service.started" "success" principal updated
        {[ "service_id" := JStr (ls_id service); "runtime" := proof_model runtime ]} in
  ret (updated, runtime, probe).

(** The service a record points at, stopped *)
Definition stop_active (record : NotebookServiceRecord) (by_ : string) : M ApiWorld (option LongServiceRecord) :=
  match ns_active_service_id record with
  | Some active => if truthy active then set_service_status active {[ "stopped_by" := JStr by_ ]} else ret None
  | None => ret None
  end.
Definition stop_notebook_service (kind : string) (principal : Principal)
    : M ApiWorld (NotebookServiceRecord * option LongServiceRecord * dict) :=
  let* record := notebook_service_for kind principal in
  let* runtime := host (stop manager record) in
  let* service := stop_active record "notebook_service.stop" in
  let* updated := marked (ns_kind record) "stopped" None None None in
  do* audit_service "notebook_service.stopped" "success" principal updated runtime in
  ret (updated, service, runtime).

(** ** Services of the directory *)

Definition _repository_service_record (entry : RepositoryEntryRecord) (version : RepositoryVersionRecord)
    : M ApiWorld NotebookServiceRecord :=
  let* found := gets (λ a, get_notebook_service (rv_kind version) (view notebook_services_lens a)) in
  match found with
  | None => raise (HTTPException 500 ("repository notebook service missing: " +:+ rv_kind version))
  | Some record =>
      do* raise_if (negb (bool_decide (ns_project_id record = re_project_id entry)))
            (HTTPException 500 ("repository notebook service project mismatch: " +:+ rv_kind version)) in
      ret record
  end.
(** The newest ready published runtime *)
Fixpoint first_ready (versions : list RepositoryVersionRecord) (a : ApiWorld)
    : option (RepositoryVersionRecord * NotebookServiceRecord * LongServiceRecord) :=
  match versions with
  | [] => None
  | version :: rest =>
      match get_notebook_service (rv_kind version) (view notebook_services_lens a) with
      | None => first_ready rest a
      | Some record =>
          if negb (truthy_opt (ns_active_service_id record)) then first_ready rest a
          else match get_long_service (default EmptyString (ns_active_service_id record)) (a_services a) with
               | Some service => if service_websocket_ready service then Some (version, record, service) else first_ready rest a
               | None => first_ready rest a
               end
      end
  end.
Definition _last_known_good_repository_service (entry : RepositoryEntryRecord)
    : M ApiWorld (option (RepositoryVersionRecord * NotebookServiceRecord * LongServiceRecord)) :=
  let* versions := repo_gets (list_repository_versions (re_id entry) (Some Published)) in
  gets (first_ready (rev versions)).
Definition _active_repository_service (entry : RepositoryEntryRecord) (version : RepositoryVersionRecord)
    : M ApiWorld (NotebookServiceRecord * LongServiceRecord) :=
  let* record := _repository_service_record entry version in
  do* raise_if (negb (truthy_opt (ns_active_service_id record)))
        (HTTPException 409 ("repository service is not running: " +:+ re_name entry)) in
  let* found := gets (λ a, get_long_service (default EmptyString (ns_active_service_id record)) (a_services a)) in
  match found with
  | None => raise (HTTPException 409 ("repository service runtime is missing: " +:+ re_name entry))
  | Some service => ret (record, service)
  end.

Definition audit_repository (action outcome : string) (principal : Principal) (project_id : option string)
    (entry : RepositoryEntryRecord) (detail : dict) : M ApiWorld unit :=
  audit_api action outcome (Some principal) project_id (Some "repository_entry") (Some (re_id entry)) detail.
Definition named (entry : RepositoryEntryRecord) (version : RepositoryVersionRecord) : dict :=
  {[ "name" := JStr (re_name entry); "version" := JInt (rv_version version) ]}.

(** [_retire_replaced_notebook_service]: whatever raises, the outcome is recorded. *)
Definition stop_replaced (record : NotebookServiceRecord) (service : LongServiceRecord) : M ApiWorld unit :=
  do* (match persisted_runtime record with
       | Some (backend, name) => host (stop_by_backend manager backend name)
       | None => ret tt
       end) in
  let* current := gets (λ a, get_notebook_service (ns_kind record) (view notebook_services_lens a)) in
  match current with
  | Some current =>
      if bool_decide (ns_active_service_id current = Some (ls_id service))
      then do* mark_runtime (ns_kind current) "stopped" None None None in ret tt
      else ret tt
  | None => ret tt
  end.
Definition _retire_replaced_notebook_service (record : NotebookServiceRecord) (service replacement : LongServiceRecord)
    (principal : Principal) (action resource_type resource_id : string) : M ApiWorld unit :=
  let* error := try_catch (do* stop_replaced record service in ret None) (λ e, ret (Some (exn_str e))) in
  let outcome := match error with None => "success" | Some _ => "failed" end in
  let detail : dict := {[ "service_id" := JStr (ls_id service); "replacement_service_id" := JStr (ls_id replacement);
    "runtime_backend" := JOptStr (ns_runtime_backend record); "runtime_name" := JOptStr (ns_runtime_name record);
    "error" := JOptStr error ]} in
  do* audit_api action outcome (Some principal) (ls_project_id service) (Some resource_type) (Some resource_id) detail in
  emit_api "service.websocket_drain_completed" (detail ∪ {[ "kind" := JStr (ls_kind service); "outcome" := JStr outcome ]})
    (ls_project_id service) None None None (Some (ls_id service)) None.

Definition run_retirement (r : Retirement) : M Hosted unit :=
  zoom api_lens (_retire_replaced_notebook_service (rt_record r) (rt_service r) (rt_replacement r) (rt_principal r)
    "repository.websocket_drain" "repository_entry" (rt_entry_id r)).
(** [WebSocketDrainRegistry._retire] *)
Definition _retire (service_id : string) (r : Retirement) : M Hosted unit := λ h,
  let '(h1, x) := run_retirement r h in
  let '(h2, y) := zoom drains_lens (retire_finally service_id) h1 in
  (h2, match y with Ok _ => x | Err e => Err e end).
Definition drain_and_retire (service_id : string) (r : Retirement) : M Hosted unit :=
  let* callback := gets (λ h, length (ho_retirements h)) in
  do* modify (λ h, mkHosted (ho_api h) (ho_drains h) (ho_retirements h ++ [r])) in
  let* outcome := zoom drains_lens (drain service_id callback callback) in
  match outcome with
  | RetireNow => _retire service_id r
  | AlreadyDraining | WaitForClients => ret tt
  end.

(** The candidate's runtime; a failure is audited and refused. *)
Definition start_candidate (record : NotebookServiceRecord) (entry : RepositoryEntryRecord) (version : RepositoryVersionRecord)
    (timeout_seconds : Z) (principal : Principal) : M ApiWorld NotebookServiceRuntimeProof :=
  let* id := uuid_api in
  let name := notebook_service_runtime_name (ns_kind record) (ns_source_hash record)
                (Some ("route-" +:+ text (take 8 (uuid_hex id)))) in
  try_catch (host (start manager record (Some name) timeout_seconds)) (λ e,
    if is_runtime_error e then
      do* audit_repository "repository.start" "failure" principal (ns_project_id record) entry
            (<["error" := JStr (exn_str e)]> (named entry version)) in
      raise (HTTPException 422 (exn_str e))
    else raise e).
(** The candidate must answer, or it is stopped again. *)
Definition probe_candidate (record : NotebookServiceRecord) (entry : RepositoryEntryRecord) (version : RepositoryVersionRecord)
    (runtime : NotebookServiceRuntimeProof) (service : LongServiceRecord) (retained : option string) (principal : Principal)
    : M ApiWorld Probed :=
  try_catch (_probe_long_service_record service) (λ e,
    if is_http_exception e then
      do* host (stop_by_backend manager (pf_backend runtime) (pf_name runtime)) in
      do* audit_repository "repository.start" "readiness_failed" principal (ns_project_id record) entry
            (<["candidate_service_id" := JStr (ls_id service)]> (<["retained_service_id" := JOptStr retained]> (named entry version))) in
      raise e
    else raise e).
(** Everything up to the moment the candidate becomes the active service. *)
Definition ready_candidate (name : string) (project_id : option string) (version : option Z) (timeout_seconds : Z)
    (principal : Principal)
    : M ApiWorld (RepositoryEntryRecord * RepositoryVersionRecord * NotebookServiceRecord
                  * option (RepositoryVersionRecord * NotebookServiceRecord * LongServiceRecord)
                  * NotebookServiceRuntimeProof * LongServiceRecord * Probed) :=
  do* lift_result (_forbid_viewer_write principal) in
  let* (entry, version_record) := _resolve_published_repository_version state name NotebookService principal project_id version in
  let* record := _repository_service_record entry version_record in
  let* previous := _last_known_good_repository_service entry in
  let* runtime := start_candidate record entry version_record timeout_seconds principal in
  let* service := registered_service record (pf_base_url runtime) (Some (pf_probe runtime)) principal in
  let* probe := probe_candidate record entry version_record runtime service ((λ p, ls_id p.2) <$> previous) principal in
  ret (entry, version_record, record, previous, runtime, service, probe).
Definition replaced_detail (replacement : LongServiceRecord) : dict :=
  {[ "stopped_by" := JStr "repository.service.replaced"; "draining" := JBool true;
     "replacement_service_id" := JStr (ls_id replacement) ]}.
Definition replace_previous (previous : option (RepositoryVersionRecord * NotebookServiceRecord * LongServiceRecord))
    (active : LongServiceRecord) (entry : RepositoryEntryRecord) (principal : Principal) : M Hosted unit :=
  match previous with
  | Some (_, previous_record, previous_service) =>
      if bool_decide (ls_id previous_service = ls_id active) then ret tt
      else
        do* zoom api_lens (set_service_status (ls_id previous_service) (replaced_detail active)) in
        drain_and_retire (ls_id previous_service)
          (mkRetirement previous_record previous_service active principal (re_id entry))
  | None => ret tt
  end.
Definition start_repository_service (name : string) (project_id : option string) (version : option Z) (timeout_seconds : Z)
    (principal : Principal) : M Hosted (NotebookServiceRecord * LongServiceRecord * NotebookServiceRuntimeProof) :=
  let* ready := zoom api_lens (ready_candidate name project_id version timeout_seconds principal) in
  let '(entry, version_record, record, previous, runtime, service, probe) := ready in
  let* updated := zoom api_lens
    (marked (ns_kind record) "running" (Some (pf_backend runtime)) (Some (pf_name runtime)) (Some (ls_id service))) in
  let active_service := probe.1.1 in
  do* replace_previous previous active_service entry principal in
  do* zoom api_lens (emit_api "repository.service.started"
        (named entry version_record ∪ {[ "kind" := JStr (ns_kind record); "backend" := JStr (pf_backend runtime) ]})
        (ns_project_id record) None None None (Some (ls_id service)) None) in
  do* zoom api_lens (audit_repository "repository.start" "success" principal (ns_project_id record) entry
        (named entry version_record ∪ {[ "kind" := JStr (ns_kind record); "service_id" := JStr (ls_id service);
                                         "runtime" := proof_model runtime ]})) in
  ret (updated, active_service, runtime).

Definition probe_repository_service (name : string) (project_id : option string) (version : option Z) (principal : Principal)
    : M ApiWorld (NotebookServiceRecord * Probed) :=
  let* (entry, version_record) := _resolve_published_repository_version state name NotebookService principal project_id version in
  let* (record, service) := _active_repository_service entry version_record in
  do* project_for_request state principal (ls_project_id service) in
  do* raise_if (bool_decide (ls_status service = LsStopped)) (HTTPException 409 ("long service is stopped: " +:+ ls_id service)) in
  let* probe := _probe_long_service_record service in
  do* audit_repository "repository.probe" "success" principal (ls_project_id service) entry
        (named entry version_record ∪ {[ "kind" := JStr (ns_kind record); "service_id" := JStr (ls_id service);
                                         "url" := JStr probe.1.2 ]}) in
  ret (record, probe).
Definition stop_repository_service (name : string) (project_id : option string) (version : option Z) (principal : Principal)
    : M ApiWorld (NotebookServiceRecord * option LongServiceRecord * dict) :=
  do* lift_result (_forbid_viewer_write principal) in
  let* (entry, version_record) := _resolve_published_repository_version state name NotebookService principal project_id version in
  let* record := _repository_service_record entry version_record in
  let* runtime := host (stop manager record) in
  let* service := stop_active record "repository.stop" in
  let* updated := marked (ns_kind record) "stopped" None None None in
  do* audit_repository "repository.stop" "success" principal (ns_project_id record) entry
        (named entry version_record ∪ {[ "kind" := JStr (ns_kind record); "service_id" := JOptStr (ls_id <$> service);
                                         "runtime" := JObj (map_to_list runtime) ]}) in
  ret (updated, service, runtime).
End handlers.

(** ** What the handlers leave alone *)

(** What serves: the records of notebook services, and the registered services. *)
Definition serving (a : ApiWorld) : table NotebookServiceRecord * table LongServiceRecord :=
  (view notebook_services_lens a, a_services a).
(** Nothing but the registered service [id] changes. *)
Definition only_service (id : string) (a a' : ApiWorld) : Prop :=
  view notebook_services_lens a' = view notebook_services_lens a
  ∧ ∀ k, k ≠ id → a_services a' !! k = a_services a !! k.
#[export] Instance only_service_preorder id : PreOrder (only_service id).
Proof.
  split; [by intros a|]. intros a b c [H1 H2] [H3 H4]. split; [congruence|]. intros k Hk. by rewrite H4, H2.
Qed.

Section frame.
Context `{Sqlite} `{Env} `{Crypto} `{HttpProbe} `{ServiceHost}.
Context (state : AppState) (manager : NotebookServiceRuntimeManager).

#[export] Instance serving_host {A} (m : M World A) : Preserves serving (host m).
Proof. intros a. unfold host. by rewrite zoom_eq. Qed.
#[export] Instance serving_part {T A} (k : lens World T) (m : M T A) : Preserves serving (zoom (lens_compose world_lens k) m).
Proof. intros a. by rewrite zoom_eq. Qed.
#[export] Instance serving_emit ty p q j f s w at_ : Preserves serving (emit_api ty p q j f s w at_).
Proof. unfold emit_api. solve_preserves. Qed.
#[export] Instance serving_audit ac o p q ty id d : Preserves serving (audit_api ac o p q ty id d).
Proof. apply serving_part. Qed.
#[export] Instance serving_success ac p q ty id d : Preserves serving (audit_success ac p q ty id d).
Proof. apply serving_part. Qed.
#[export] Instance serving_project p q : Preserves serving (project_for_request state p q).
Proof. unfold project_for_request, requested_project, found_or_404, audit_api. solve_preserves. Qed.
#[export] Instance serving_found {A} (o : option A) d : Preserves serving (found_or_404 o d).
Proof. unfold found_or_404. solve_preserves. Qed.
#[export] Instance serving_repo_gets {A} (f : RepoTables → A) : Preserves serving (repo_gets f).
Proof. unfold repo_gets. apply _. Qed.
#[export] Instance serving_now : Preserves serving now_api.
Proof. apply serving_part. Qed.
#[export] Instance serving_uuid : Preserves serving uuid_api.
Proof. apply serving_part. Qed.
#[export] Instance serving_resolve name ty p q v : Preserves serving (_resolve_published_repository_version state name ty p q v).
Proof. unfold _resolve_published_repository_version. solve_preserves. Qed.
#[export] Instance serving_record e v : Preserves serving (_repository_service_record e v).
Proof. unfold _repository_service_record. solve_preserves. Qed.
#[export] Instance serving_last_good e : Preserves serving (_last_known_good_repository_service e).
Proof. unfold _last_known_good_repository_service. solve_preserves. Qed.
#[export] Instance serving_candidate r e v t p : Preserves serving (start_candidate manager r e v t p).
Proof. unfold start_candidate, audit_repository. solve_preserves. Qed.

(** A part that leaves what serves alone does so for any service. *)
Lemma only_of_serving {A} id (m : M ApiWorld A) : Preserves serving m → Within (only_service id) m.
Proof. intros Hm a. specialize (Hm a). unfold serving in Hm. injection Hm as Hn Hs. split; [done|]. intros k _. by rewrite Hs. Qed.
#[export] Instance only_update id {A} (f : LongServiceRecord → LongServiceRecord) (k : M (table LongServiceRecord) A) :
  Preserves (λ t, t) k → Within (only_service id) (zoom ApiServices.services_lens (do* update_row id (λ _, true) f in k)).
Proof.
  intros Hk a. rewrite zoom_eq. split; [done|]. intros j Hj. simpl. unfold bind, update_row.
  destruct (a_services a !! id); rewrite (Hk _); [by rewrite lookup_insert_ne|done].
Qed.
End frame.

Section replacement.
Context `{Sqlite} `{Env} `{Crypto} `{HttpProbe} `{ServiceHost}.
Context (state : AppState) (manager : NotebookServiceRuntimeManager).

Lemma registered_ok record url probe p a a' service :
  registered_service record url probe p a = (a', Ok service) →
  ls_status service = LsRegistered ∧ ls_kind service = ns_kind record ∧ ls_base_url service = url
  ∧ ls_probe_path service = ns_probe_path record
  ∧ a_services a !! ls_id service = None ∧ a_services a' = <[ls_id service := service]> (a_services a)
  ∧ view notebook_services_lens a' = view notebook_services_lens a.
Proof.
  unfold registered_service. intros (a1 & id & Hid & Hk)%bind_ok. apply bind_ok in Hk as (a2 & now & Hnow & Hk).
  apply bind_ok in Hk as (a3 & [] & Hs & [= <- <-]). pose proof (serving_uuid a) as E1. pose proof (serving_now a1) as E2.
  rewrite Hid in E1. rewrite Hnow in E2. unfold serving in *. simpl in *. rewrite zoom_eq in Hs.
  destruct (save_long_service _ (view ApiServices.services_lens a2)) as [t x] eqn:Hsave. injection Hs as <- ->.
  unfold save_long_service in Hsave. apply insert_row_ok in Hsave as [Hnone ->]. simpl in *.
  injection E1 as E1n E1s. injection E2 as E2n E2s. rewrite E2s, E1s in *. split_and!; try done.
  rewrite <- E1n, <- E2n. done.
Qed.
Lemma registered_err record url probe p a a' e : registered_service record url probe p a = (a', Err e) → serving a' = serving a.
Proof.
  unfold registered_service. unfold bind at 1. pose proof (serving_uuid a) as E1.
  destruct (uuid_api a) as [a1 [id|e1]]; simpl in E1; [|by intros [= <- _]].
  unfold bind at 1. pose proof (serving_now a1) as E2.
  destruct (now_api a1) as [a2 [now|e1]]; simpl in E2; [|intros [= <- _]; congruence].
  unfold bind. rewrite zoom_eq. unfold save_long_service, insert_row.
  destruct (view ApiServices.services_lens a2 !! _); simpl; [|done].
  intros [= <- _]. rewrite <- E1, <- E2. by destruct a2.
Qed.

#[export] Instance only_probe service : Within (only_service (ls_id service)) (_probe_long_service_record service).
Proof.
  unfold _probe_long_service_record. apply within_bind; [apply _..|intros outcome].
  apply within_bind; [apply _..|intros payload]. cbv zeta.
  apply within_bind; [apply _|apply only_of_serving, _|intros now].
  apply within_bind; [apply _|apply only_update, _|intros updated].
  apply within_bind; [apply _|destruct updated; apply _|intros updated'].
  apply within_bind; [apply _|apply only_of_serving, _|intros _]. solve_within.
Qed.
#[export] Instance only_candidate_probe r e v runtime service retained p :
  Within (only_service (ls_id service)) (probe_candidate manager r e v runtime service retained p).
Proof.
  unfold probe_candidate. apply within_try; [apply _..|]. intros exn. destruct (is_http_exception exn); [|apply _].
  apply within_bind; [apply _|apply only_of_serving, _|intros _].
  apply within_bind; [apply _|apply only_of_serving; unfold audit_repository; apply _|intros _]. apply _.
Qed.
Lemma serving_goes_on a a' :
  serving a' = serving a → view notebook_services_lens a' = view notebook_services_lens a ∧ a_services a ⊆ a_services a'.
Proof. intros E. split; [exact (f_equal fst E)|]. pose proof (f_equal snd E) as E2. simpl in E2. by rewrite E2. Qed.
(** A step that leaves what serves alone, before one that may fail. *)
Lemma served_step {A B} (m : M ApiWorld A) (k : A → M ApiWorld B) `{!Preserves serving m} a a' e :
  (let* x := m in k x) a = (a', Err e) →
  serving a' = serving a ∨ ∃ a1 x, serving a1 = serving a ∧ k x a1 = (a', Err e).
Proof.
  unfold bind. pose proof (preserves a : serving (m a).1 = serving a) as E. destruct (m a) as [a1 [x|e1]]; simpl in E.
  - intros Hk. right. by exists a1, x.
  - intros [= <- _]. by left.
Qed.
(** A candidate that is not ready changes nothing that serves. *)
Lemma candidate_not_ready name q v t p a a' e :
  ready_candidate state manager name q v t p a = (a', Err e) →
  view notebook_services_lens a' = view notebook_services_lens a ∧ a_services a ⊆ a_services a'.
Proof.
  unfold ready_candidate.
  intros Hk. apply served_step in Hk as [E0|(a0 & [] & E0 & Hk)]; [by apply serving_goes_on| |apply _].
  apply served_step in Hk as [E1|(a1 & [entry version] & E1 & Hk)]; [apply serving_goes_on; congruence| |apply _].
  apply served_step in Hk as [E2|(a2 & record & E2 & Hk)]; [apply serving_goes_on; congruence| |apply _].
  apply served_step in Hk as [E3|(a3 & previous & E3 & Hk)]; [apply serving_goes_on; congruence| |apply _].
  apply served_step in Hk as [E4|(a4 & runtime & E4 & Hk)]; [apply serving_goes_on; congruence| |apply _].
  assert (Hsame : serving a4 = serving a) by congruence. clear E0 E1 E2 E3 E4.
  unfold bind at 1 in Hk. destruct (registered_service _ _ _ _ a4) as [a5 [service|e5]] eqn:Hreg.
  2:{ injection Hk as <- _. apply serving_goes_on. apply registered_err in Hreg. congruence. }
  apply registered_ok in Hreg as (_ & _ & _ & _ & Hnone & Hservices & Hrecords).
  apply serving_goes_on in Hsame as [Hn Hs]. unfold bind in Hk.
  pose proof (only_candidate_probe record entry version runtime service ((λ x, ls_id x.2) <$> previous) p a5) as [Hn6 Hs6].
  destruct (probe_candidate _ _ _ _ _ _ _ _ a5) as [a6 [probe|e6]]; [done|]. injection Hk as <- _. simpl in *.
  split; [congruence|]. apply map_subseteq_spec. intros k x Hk. pose proof (lookup_weaken _ _ _ _ Hk Hs) as Hk4.
  assert (Hne : k ≠ ls_id service) by (intros E; rewrite E in Hk4; congruence).
  by rewrite Hs6, Hservices, lookup_insert_ne.
Qed.

(** C22: a published service goes on serving until its replacement answers.  If starting
    a service fails before the candidate has answered its probe with a success, whatever
    failed, then every record of a notebook service and every registered service is as
    it was, the candidate's own registration apart, and nothing drains. *)
Theorem failed_start_keeps_serving (name : string) (project_id : option string) (version : option Z) (timeout : Z)
    (principal : Principal) (h h' : Hosted) (x : result (NotebookServiceRecord * LongServiceRecord * NotebookServiceRuntimeProof)) :
  start_repository_service state manager name project_id version timeout principal h = (h', x) →
  is_ok (ready_candidate state manager name project_id version timeout principal (ho_api h)).2 = false →
  is_ok x = false
  ∧ view notebook_services_lens (ho_api h') = view notebook_services_lens (ho_api h)
  ∧ a_services (ho_api h) ⊆ a_services (ho_api h')
  ∧ ho_drains h' = ho_drains h ∧ ho_retirements h' = ho_retirements h.
Proof.
  unfold start_repository_service. unfold bind at 1. rewrite zoom_eq. change (view api_lens h) with (ho_api h).
  destruct (ready_candidate state manager name project_id version timeout principal (ho_api h)) as [a' [ready|e]] eqn:Hr; [done|].
  intros [= <- <-] _. apply candidate_not_ready in Hr as [Hn Hs]. by split_and!.
Qed.
End replacement.

Lemma api_step {A} (m : M ApiWorld A) h h' x :
  zoom api_lens m h = (h', x) → ∃ a, m (ho_api h) = (a, x) ∧ h' = mkHosted a (ho_drains h) (ho_retirements h).
Proof. rewrite zoom_eq. change (view api_lens h) with (ho_api h). destruct (m (ho_api h)) as [a y]. intros [= <- <-]. by exists a. Qed.

Section activation.
Context `{Sqlite} `{Env} `{Crypto} `{HttpProbe} `{ServiceHost}.
Context (state : AppState) (manager : NotebookServiceRuntimeManager).

(** The record of [kind] runs the service [id], and each record is under its kind. *)
Definition records_keyed (a : ApiWorld) : Prop := map_Forall (λ k r, ns_kind r = k) (view notebook_services_lens a).
Definition kind_served_by (kind id : string) (a : ApiWorld) : Prop :=
  records_keyed a
  ∧ ∃ r, get_notebook_service kind (view notebook_services_lens a) = Some r
         ∧ ns_active_service_id r = Some id ∧ ns_runtime_status r = "running".
Definition still_runs (kind id : string) (a a' : ApiWorld) : Prop := kind_served_by kind id a → kind_served_by kind id a'.
Definition hosted_runs (kind id : string) (h h' : Hosted) : Prop := still_runs kind id (ho_api h) (ho_api h').
#[export] Instance still_runs_preorder kind id : PreOrder (still_runs kind id).
Proof. split; [by intros a Ha|]. intros a b c Hab Hbc Ha. exact (Hbc (Hab Ha)). Qed.
#[export] Instance hosted_runs_preorder kind id : PreOrder (hosted_runs kind id).
Proof. split; [by intros a Ha|]. intros a b c Hab Hbc Ha. exact (Hbc (Hab Ha)). Qed.

Lemma still_of_records {A} kind id (m : M ApiWorld A) : Preserves (view notebook_services_lens) m → Within (still_runs kind id) m.
Proof. intros Hm a (Hk & r & Hr & Ha). unfold kind_served_by, records_keyed. rewrite (Hm a). split; [done|]. exists r. split; [exact Hr|exact Ha]. Qed.
Lemma records_of_serving {A} (m : M ApiWorld A) : Preserves serving m → Preserves (view notebook_services_lens) m.
Proof. intros Hm a. exact (f_equal fst (Hm a)). Qed.
Lemma still_of_serving {A} kind id (m : M ApiWorld A) : Preserves serving m → Within (still_runs kind id) m.
Proof. intros Hm. by apply still_of_records, records_of_serving. Qed.
#[export] Instance hosted_api {A} kind id (m : M ApiWorld A) : Within (still_runs kind id) m → Within (hosted_runs kind id) (zoom api_lens m).
Proof. intros Hm h. unfold hosted_runs. rewrite zoom_eq. apply Hm. Qed.
#[export] Instance hosted_drains {A} kind id (m : M Drains A) : Within (hosted_runs kind id) (zoom drains_lens m).
Proof. intros h. unfold hosted_runs, zoom. by destruct (m _). Qed.
#[export] Instance records_services {A} (m : M (table LongServiceRecord) A) :
  Preserves (view notebook_services_lens) (zoom ApiServices.services_lens m).
Proof. intros a. by rewrite zoom_eq. Qed.

(** Updating a record: what it becomes, and that the others stay. *)
Lemma update_runtime_total kind status backend name active at_ t :
  let out := update_notebook_service_runtime kind status backend name active at_ t in
  out.2 = Ok (get_notebook_service kind out.1)
  ∧ (∀ other, other ≠ kind → out.1 !! other = t !! other)
  ∧ (map_Forall (λ k r, ns_kind r = k) t → map_Forall (λ k r, ns_kind r = k) out.1)
  ∧ ∀ r, get_notebook_service kind out.1 = Some r →
      ns_active_service_id r = active ∧ ns_runtime_status r = (if truthy status then status else "declared").
Proof.
  unfold update_notebook_service_runtime, update_row, bind, gets. destruct (t !! kind) as [r0|] eqn:Hr; cbn [fst snd].
  - split_and!; [done|by intros; rewrite lookup_insert_ne| |].
    + intros Hk. apply map_Forall_insert_2; [exact (Hk _ _ Hr)|done].
    + intros r. unfold get_notebook_service. rewrite lookup_insert_eq. by intros [= <-].
  - split_and!; try done. intros r. unfold get_notebook_service. by rewrite Hr.
Qed.
Lemma mark_runtime_total kind status backend name active a :
  let out := mark_runtime kind status backend name active a in
  (∀ other, other ≠ kind → view notebook_services_lens out.1 !! other = view notebook_services_lens a !! other)
  ∧ (records_keyed a → records_keyed out.1)
  ∧ ∀ r, out.2 = Ok (Some r) → get_notebook_service kind (view notebook_services_lens out.1) = Some r
      ∧ ns_active_service_id r = active ∧ ns_runtime_status r = (if truthy status then status else "declared").
Proof.
  unfold mark_runtime, records_keyed, bind. pose proof (records_of_serving now_api serving_now a) as Ea.
  destruct (now_api a) as [a1 [now|e]]; cbn [fst snd] in *; [|rewrite Ea; by split_and!].
  rewrite zoom_eq, <- Ea.
  destruct (update_runtime_total kind status backend name active (Some now) (view notebook_services_lens a1))
    as (Hv & Hother & Hkeyed & Hset).
  destruct (update_notebook_service_runtime _ _ _ _ _ _ _) as [t x]. cbn [fst snd] in *. change (view notebook_services_lens (put notebook_services_lens t a1)) with t.
  split_and!; [done..|]. intros r ->. injection Hv as Hv. split; [done|]. by apply Hset.
Qed.
Lemma mark_other kind id other status backend name active a :
  other ≠ kind → still_runs kind id a (mark_runtime other status backend name active a).1.
Proof.
  intros Hne. destruct (mark_runtime_total other status backend name active a) as (Hother & Hkeyed & _).
  intros (Hk & r & Hr & Ha). split; [by apply Hkeyed|]. exists r. split; [|done].
  unfold get_notebook_service in *. by rewrite Hother.
Qed.
Lemma marked_ok kind status backend name active a a' r :
  marked kind status backend name active a = (a', Ok r) → records_keyed a →
  records_keyed a' ∧ get_notebook_service kind (view notebook_services_lens a') = Some r
  ∧ ns_active_service_id r = active ∧ ns_runtime_status r = (if truthy status then status else "declared").
Proof.
  unfold marked. intros (a1 & updated & Hm & Hk)%bind_ok Hkeyed. destruct updated as [r'|]; [|done].
  injection Hk as -> ->. destruct (mark_runtime_total kind status backend name active a) as (_ & Hkey & Hset).
  rewrite Hm in Hkey, Hset. split; [by apply Hkey|]. by apply Hset.
Qed.

(** Retiring the service that was replaced leaves its replacement running. *)
Lemma stop_replaced_still kind id record service :
  ls_id service ≠ id → Within (still_runs kind id) (stop_replaced manager record service).
Proof.
  intros Hne. unfold stop_replaced.
  apply within_bind; [apply _|destruct (persisted_runtime record) as [[]|]; apply still_of_serving, _|intros _].
  intros a. unfold bind at 1, gets. cbn [fst snd].
  destruct (get_notebook_service (ns_kind record) (view notebook_services_lens a)) as [current|] eqn:Hc; [|done].
  case_bool_decide as Hactive; [|done]. unfold bind.
  assert (Hother : still_runs kind id a (mark_runtime (ns_kind current) "stopped" None None None a).1).
  { intros Hruns. apply mark_other; [|done]. intros Hk. destruct Hruns as (Hkeyed & r & Hr & Ha & _).
    unfold get_notebook_service in Hc, Hr. apply fmap_Some in Hc as (c & Hc & ->). pose proof (Hkeyed _ _ Hc) as Hck.
    simpl in *. rewrite Hck in Hk. rewrite Hk in Hc. rewrite Hc in Hr. injection Hr as <-. simpl in *. congruence. }
  destruct (mark_runtime (ns_kind current) "stopped" None None None a) as [a' [x|e]]; exact Hother.
Qed.

#[export] Instance still_retire kind id record service replacement p action ty rid :
  ls_id service ≠ id →
  Within (still_runs kind id) (_retire_replaced_notebook_service manager record service replacement p action ty rid).
Proof.
  intros Hne. unfold _retire_replaced_notebook_service. apply within_bind; [apply _| |intros error].
  - apply within_try; [apply _| |intros e; apply within_ret; apply _].
    apply within_bind; [apply _|by apply stop_replaced_still|intros _; apply within_ret; apply _].
  - apply still_of_serving. cbv zeta. apply _.
Qed.
Lemma drain_still kind id service_id (r : Retirement) :
  ls_id (rt_service r) ≠ id → Within (hosted_runs kind id) (drain_and_retire manager service_id r).
Proof.
  intros Hne. unfold drain_and_retire. apply within_bind; [apply _|apply _|intros callback].
  apply within_bind; [apply _|intros h Hh; exact Hh|intros _].
  apply within_bind; [apply _|apply _|intros outcome].
  destruct outcome; try (apply within_ret; apply _).
  intros h. unfold _retire. pose proof (hosted_api kind id _ (still_retire kind id (rt_record r) (rt_service r)
    (rt_replacement r) (rt_principal r) "repository.websocket_drain" "repository_entry" (rt_entry_id r) Hne) h) as Hw.
  unfold run_retirement in *. destruct (zoom api_lens _ h) as [h1 x]. simpl in Hw |- *.
  pose proof (hosted_drains kind id (retire_finally service_id) h1) as Hw2. unfold zoom in *. simpl in *.
  intros Hruns. apply Hw2, Hw, Hruns.
Qed.
Lemma replace_still kind id previous active entry p :
  ls_id active = id → Within (hosted_runs kind id) (replace_previous manager previous active entry p).
Proof.
  intros <-. unfold replace_previous. destruct previous as [[[version record] service]|]; [|apply within_ret; apply _].
  case_bool_decide as Hid; [apply within_ret; apply _|].
  apply within_bind; [apply _|apply hosted_api, still_of_records; unfold set_service_status; apply _|intros _].
  by apply drain_still.
Qed.
Lemma ready_records name q v t p : Preserves (view notebook_services_lens) (ready_candidate state manager name q v t p).
Proof.
  unfold ready_candidate. apply preserves_bind; [apply _|intros _].
  apply preserves_bind; [apply records_of_serving, _|intros [entry version]].
  apply preserves_bind; [apply records_of_serving, _|intros record].
  apply preserves_bind; [apply records_of_serving, _|intros previous].
  apply preserves_bind; [apply records_of_serving, _|intros runtime].
  apply preserves_bind; [|intros service].
  - unfold registered_service. apply preserves_bind; [apply records_of_serving, _|intros id].
    apply preserves_bind; [apply records_of_serving, _|intros now]. cbv zeta. apply _.
  - apply preserves_bind; [|intros probe; apply _]. intros a.
    exact (proj1 (only_candidate_probe manager record entry version runtime service _ p a)).
Qed.

Lemma probe_update service t status now payload :
  t !! ls_id service = Some service →
  ∃ u, (update_long_service_probe (ls_id service) status now payload t).2 = Ok (Some u)
       ∧ ls_id u = ls_id service ∧ ls_status u = status.
Proof.
  intros Hrow. unfold update_long_service_probe, update_row, bind, gets. rewrite Hrow. cbn [fst snd].
  unfold get_long_service. rewrite lookup_insert_eq. by eexists.
Qed.
(** A candidate whose probe succeeds runs, under the id it was registered with. *)
Lemma probed_running service a a' updated url payload :
  _probe_long_service_record service a = (a', Ok (updated, url, payload)) →
  a_services a !! ls_id service = Some service → ls_id updated = ls_id service ∧ ls_status updated = LsRunning.
Proof.
  unfold _probe_long_service_record. intros Hp Hrow.
  apply bind_ok in Hp as (a1 & outcome & Ho & Hp). injection Ho as <- <-.
  apply bind_ok in Hp as (a2 & payload' & Hl & Hp). destruct (probe_payload _) as [pl|]; [|done]. injection Hl as <- <-.
  apply bind_ok in Hp as (a3 & now & Hnow & Hp). pose proof (serving_now a) as E3. rewrite Hnow in E3.
  apply (f_equal snd) in E3. cbn [fst snd serving] in E3.
  apply bind_ok in Hp as (a4 & found & Hu & Hp). rewrite zoom_eq in Hu.
  change (view ApiServices.services_lens a3) with (a_services a3) in Hu. rewrite E3 in Hu.
  destruct (probe_update service (a_services a) (if probe_ok pl then LsRunning else LsFailed) now pl Hrow) as (u & Hu2 & Hid & Hst).
  destruct (update_long_service_probe _ _ _ _ _) as [t y]. cbn [fst snd] in *. injection Hu as _ ->. injection Hu2 as ->.
  apply bind_ok in Hp as (a5 & updated' & [= <- <-] & Hp).
  apply bind_ok in Hp as (a6 & [] & _ & Hp). apply bind_ok in Hp as (a7 & [] & Hf & [= _ <- _ _]).
  destruct (probe_ok pl); [done|discriminate Hf].
Qed.
(** What a candidate that is ready has become. *)
Lemma candidate_ready name q v t p a a' entry version record previous runtime service probe :
  ready_candidate state manager name q v t p a = (a', Ok (entry, version, record, previous, runtime, service, probe)) →
  ls_id probe.1.1 = ls_id service ∧ ls_status probe.1.1 = LsRunning ∧ ls_base_url service = pf_base_url runtime.
Proof.
  unfold ready_candidate. intros Hr.
  apply bind_ok in Hr as (a0 & [] & _ & Hr). apply bind_ok in Hr as (a1 & [entry' version'] & _ & Hr).
  apply bind_ok in Hr as (a2 & record' & _ & Hr). apply bind_ok in Hr as (a3 & previous' & _ & Hr).
  apply bind_ok in Hr as (a4 & runtime' & _ & Hr). apply bind_ok in Hr as (a5 & service' & Hreg & Hr).
  apply bind_ok in Hr as (a6 & probe' & Hp & [= _ _ _ _ _ <- <- <-]).
  apply registered_ok in Hreg as (_ & _ & Hurl & _ & _ & Hrows & _).
  unfold probe_candidate, try_catch in Hp.
  destruct (_probe_long_service_record service' a5) as [b [[[updated url] payload]|e]] eqn:Hprobe.
  - injection Hp as <- <-. destruct (probed_running _ _ _ _ _ _ Hprobe) as [Hid Hrun]; [by rewrite Hrows, lookup_insert_eq|done].
  - destruct (is_http_exception e); [|discriminate Hp].
    apply bind_ok in Hp as (b1 & [] & _ & Hp). apply bind_ok in Hp as (b2 & [] & _ & [=]).
Qed.

(** C21: a started service is the one its record runs, and retiring the service it
    replaces does not take that back.  When [start_repository_service] returns, the service
    it returns has answered its probe, the record of its kind is marked running and points
    at it, whichever service was draining, stopped or retired on the way. *)
Theorem started_service_active (name : string) (project_id : option string) (version : option Z) (timeout : Z)
    (principal : Principal) (h h' : Hosted) (record : NotebookServiceRecord) (service : LongServiceRecord)
    (runtime : NotebookServiceRuntimeProof) :
  records_keyed (ho_api h) →
  start_repository_service state manager name project_id version timeout principal h = (h', Ok (record, service, runtime)) →
  ls_status service = LsRunning ∧ ns_active_service_id record = Some (ls_id service)
  ∧ kind_served_by (ns_kind record) (ls_id service) (ho_api h').
Proof.
  unfold start_repository_service. intros Hkeyed Hs.
  apply bind_ok in Hs as (h1 & ready & (a1 & Hready & ->)%api_step & Hs).
  pose proof (ready_records name project_id version timeout principal (ho_api h)) as Hrec. rewrite Hready in Hrec. cbn [fst] in Hrec.
  destruct ready as [[[[[[entry version'] record'] previous] runtime'] service'] probe].
  destruct (candidate_ready _ _ _ _ _ _ _ _ _ _ _ _ _ _ Hready) as (Hid & Hrun & _).
  apply bind_ok in Hs as (h2 & updated & (a2 & Hmark & ->)%api_step & Hs). cbn [ho_api ho_drains ho_retirements] in *.
  apply marked_ok in Hmark as (Hk2 & Hg & Hactive & Hstatus); [|unfold records_keyed; by rewrite Hrec].
  assert (Hkind : ns_kind updated = ns_kind record').
  { unfold get_notebook_service in Hg. apply fmap_Some in Hg as (r & Hg & ->). exact (Hk2 _ _ Hg). }
  cbv zeta in Hs. apply bind_ok in Hs as (h3 & [] & Hrep & Hs).
  apply bind_ok in Hs as (h4 & [] & He & Hs). apply bind_ok in Hs as (h5 & [] & Ha & [= <- <- <- <-]).
  split_and!; [done|by rewrite Hid|]. rewrite Hkind, Hid.
  pose proof (replace_still (ns_kind record') (ls_id service') previous probe.1.1 entry principal Hid
    (mkHosted a2 (ho_drains h) (ho_retirements h))) as W1.
  rewrite Hrep in W1. unfold audit_repository in Ha.
  epose proof (hosted_api (ns_kind record') (ls_id service') _ (still_of_serving _ _ _ (serving_emit _ _ _ _ _ _ _ _)) h3) as W2. rewrite He in W2.
  epose proof (hosted_api (ns_kind record') (ls_id service') _ (still_of_serving _ _ _ (serving_audit _ _ _ _ _ _ _)) h4) as W3. rewrite Ha in W3.
  apply W3, W2, W1. split; [exact Hk2|]. by exists updated.
Qed.
End activation.

(** ** Concrete runs *)

Definition live_services : HttpProbe := {| http_get := λ _ _, HttpReply 200 ∅ None "hello" |}.
Definition web_submission : RepositorySubmitRequest :=
  mkSubmitRequest "web" NotebookService "app = 1" None None [] None None "run" None 0 "app" [] 8080 "/hello" ∅.
Definition web_publication : list (ApiRequest * Principal) :=
  [(SubmitEntry web_submission, member "ada" "p1"); (ValidateEntry "id-0" (mkValidateRequest ∅ true None) None, member "ada" "p1");
   (RequestReview "id-0" None None, member "ada" "p1"); (ApproveEntry "id-0" None None, root); (PublishEntry "id-0" None, root)].
Definition published_web : Hosted := mkHosted (plain_serve empty_api web_publication) ∅ [].
Definition web_host : ServiceHost := sample_service_host None (mkOutput 0 "127.0.0.1:32768" EmptyString) "hi" None.
Definition start_web (probe : HttpProbe) (h : Hosted)
    : Hosted * result (NotebookServiceRecord * LongServiceRecord * NotebookServiceRuntimeProof) :=
  @start_repository_service sqlite_merge second_env probe web_host plain_state (sample_manager "docker")
    "web" None None 3 (member "ada" "p1") h.
Definition probe_web (probe : HttpProbe) (h : Hosted) : Hosted :=
  (zoom api_lens (@probe_repository_service sqlite_merge second_env probe plain_state "web" None None (member "ada" "p1")) h).1.
Definition services_of (h : Hosted) : list (string * LongServiceStatus) := (λ s, (ls_id s, ls_status s)) <$> rows (a_services (ho_api h)).
Definition active_of (h : Hosted) : list (option string * option string) :=
  (λ r, (ns_active_service_id r, ns_runtime_name r)) <$> rows (view notebook_services_lens (ho_api h)).

(** A second start replaces the first, whose runtime is retired at once: nobody is
    connected. *)
Example second_start_replaces :
  let twice := (start_web live_services (start_web live_services published_web).1).1 in
  services_of twice = [("id-13", LsRunning); ("id-8", LsStopped)]
  ∧ (active_of twice).*1 = [Some "id-13"] ∧ map_to_list (ho_drains twice) = [] ∧ length (ho_retirements twice) = 1%nat.
Proof. split_and!; vm_compute; reflexivity. Qed.
(** Only a service whose last probe succeeded counts as the one to replace.  After one
    failed probe of a running service the next start overwrites the only record of its
    runtime, and retires nothing: the old container goes on running. *)
Example failed_probe_leaks_runtime :
  let first := (start_web live_services published_web).1 in
  let blip := probe_web silent_services first in
  let second := (start_web live_services blip).1 in
  services_of blip = [("id-8", LsFailed)] ∧ active_of blip = active_of first
  ∧ ho_retirements second = [] ∧ bool_decide ((active_of second).*2 = (active_of first).*2) = false
  ∧ length (services_of second) = 2%nat.
Proof. split_and!; vm_compute; reflexivity. Qed.

Lemma failed_start_keeps_serving_witness :
  let first := (start_web live_services published_web).1 in
  a_services (ho_api first) ⊆ a_services (ho_api (start_web silent_services first).1)
  ∧ ho_retirements (start_web silent_services first).1 = [].
Proof.
  intros first. destruct (start_web silent_services first) as [h x] eqn:Hs.
  pose proof (@failed_start_keeps_serving sqlite_merge second_env silent_services web_host plain_state (sample_manager "docker")
    "web" None None 3 (member "ada" "p1") first h x Hs) as Hkeep.
  destruct Hkeep as (_ & _ & Hservices & _ & Hretired); [vm_compute; reflexivity|]. cbn [fst]. split; [exact Hservices|].
  rewrite Hretired. vm_compute. reflexivity.
Defined.
Lemma started_service_active_witness :
  let first := (start_web live_services published_web).1 in
  match start_web live_services first with
  | (h, Ok (record, service, _)) => kind_served_by (ns_kind record) (ls_id service) (ho_api h)
  | _ => False
  end.
Proof.
  intros first. assert (Hok : is_ok (start_web live_services first).2 = true) by (vm_compute; reflexivity).
  destruct (start_web live_services first) as [h [[[record service] runtime]|e]] eqn:Hs; [|discriminate Hok].
  apply (@started_service_active sqlite_merge second_env live_services web_host plain_state (sample_manager "docker")
    "web" None None 3 (member "ada" "p1") first h record service runtime); [|exact Hs].
  apply (bool_decide_unpack _). vm_compute. exact I.
Defined.
