(* ===== verification/ApiProxy.v ===== *)
(** * The proxies to running services ([src/src/goblin_king/api.py], [api_service_websockets.py])

    HTTP requests and websockets that are passed on to a registered service: who may open
    one, what is forwarded, and what is recorded of it.

    The state is that of the handlers that run services, with the relays that were opened
    and the close frames that were asked for.  While a relay runs other handlers run too:
    what they do to the state is part of the class of the relay, whose outcome obeys the
    relay's step relation. *)

From Stdlib Require Import Ascii.
From S2P Require Import Prelude CausalTime Contracts Text PyValues ResourcePolicies Containers EventStore JobStore JobLifecycle RecordStore Auth Urls World Repository Drain WebSockets NotebookServices Api ApiServices ApiDirectory ApiTenancy ApiReview ApiRuntimes.

(** A request, or the handshake of a websocket *)
Record ProxyRequest := mkProxyRequest {
  rq_method : string; rq_url_path : string; rq_query : string; rq_headers : list (string * string); rq_body : string }.
Record Opened := mkOpened { op_service : string; op_url : string; op_headers : list (string * string) }.
Record Proxied := mkProxied {
  px_hosted : Hosted; px_opened : list Opened; px_closed : list (nat * Z * string) }.
Definition hosted_lens : lens Proxied Hosted := Lens px_hosted (λ h w, mkProxied h (px_opened w) (px_closed w)).
#[export] Instance hosted_lens_lawful : LawfulLens hosted_lens.
Proof. split; intros; by repeat match goal with w : Proxied |- _ => destruct w end. Qed.

(** [urlopen] of a request: method, address, headers and body; and the relay of a
    websocket, with what the other handlers do meanwhile. *)
Class ProxyHost := {
  ph_urlopen : Process → string → string → dict → option string → HttpOutcome;
  ph_relay : ServiceWebSocketProxyConfig → string → list (string * string) →
             M Hosted (list ServiceWebSocketProxyResult * (ServiceWebSocketProxyResult + ServiceWebSocketProxyError))
}.

Definition HOP_BY_HOP_HEADERS : list string :=
  ["connection"; "keep-alive"; "proxy-authenticate"; "proxy-authorization"; "te"; "trailer"; "transfer-encoding"; "upgrade"].
Definition SENSITIVE_PROXY_REQUEST_HEADERS : list string :=
  ["authorization"; "cookie"; "host"; "proxy-authorization"; "x-api-key"; "x-auth-token"].
Definition _service_proxy_url (service : LongServiceRecord) (path query : string) : string :=
  let encoded_path := quote_safe ["/"%char] path in
  let base := rstrip_slash (ls_base_url service) in
  let target := if truthy encoded_path then base +:+ "/" +:+ encoded_path else base in
  if truthy query then target +:+ "?" +:+ query else target.
(** A dictionary made of pairs: the last value of a key counts. *)
Definition header_dict (headers : list (string * string)) : dict :=
  list_to_map (reverse ((λ kv, (kv.1, JStr kv.2)) <$> headers)).
Definition _proxy_request_headers (headers : list (string * string)) : dict :=
  header_dict (filter (λ kv, lower kv.1 ∉ SENSITIVE_PROXY_REQUEST_HEADERS ++ HOP_BY_HOP_HEADERS) headers).
Definition _proxy_response_headers (headers : dict) : dict :=
  filter (λ kv, lower kv.1 ∉ HOP_BY_HOP_HEADERS ++ ["content-length"; "set-cookie"]) headers.
Definition _repository_proxy_query_string (raw_query : string) : string :=
  urlencode (filter (λ kv, kv.1 ∉ ["project_id"; "version"]) (parse_qsl raw_query)).
(** [query_params.get]: the last value of a key *)
Definition query_param (key query : string) : option string :=
  snd <$> last (filter (λ kv, kv.1 = key) (parse_qsl query)).
Definition _websocket_token (request : ProxyRequest) : option string :=
  match header "authorization" (rq_headers request) with
  | Some authorization =>
      match partition_at " " (chars authorization) with
      | (scheme, Some value) =>
          let token := strip (text value) in
          if String.eqb (lower (text scheme)) "bearer" && truthy token then Some token else None
      | (_, None) => None
      end
  | None => match query_param "token" (rq_query request) with
            | Some token => if truthy token then Some token else None
            | None => None
            end
  end.
(** What a handler answers: status, headers, body *)
Definition HttpResponse3 : Type := Z * dict * string.

Section proxies.
Context `{Sqlite} `{Env} `{Crypto} `{Jwt} `{Hub} `{ProxyHost}.
Context (state : AppState) (config : ServiceWebSocketProxyConfig).

Definition api_of {A} (m : M ApiWorld A) : M Proxied A := zoom (lens_compose hosted_lens api_lens) m.

(** ** HTTP *)

Definition audit_proxy (action outcome : string) (principal : Principal) (service : LongServiceRecord)
    (resource_type resource_id : string) (detail : dict) : M ApiWorld unit :=
  audit_api action outcome (Some principal) (ls_project_id service) (Some resource_type) (Some resource_id) detail.
Definition _proxy_long_service_request (service : LongServiceRecord) (request : ProxyRequest) (path : string)
    (principal : Principal) (action resource_type resource_id : string) (detail_extra : dict)
    (query_string : option string) : M ApiWorld HttpResponse3 :=
  let asked : dict := {[ "method" := JStr (rq_method request); "path" := JStr path ]} in
  if bool_decide (ls_status service = LsStopped) then
    do* audit_proxy action "denied" principal service resource_type resource_id
          (detail_extra ∪ <["reason" := JStr "stopped"]> asked) in
    raise (HTTPException 409 ("long service is stopped: " +:+ ls_id service))
  else
    let target_url := _service_proxy_url service path (default (rq_query request) query_string) in
    let* outcome := gets (λ a, ph_urlopen (w_process (a_world a)) (rq_method request) target_url
      (_proxy_request_headers (rq_headers request)) (if truthy (rq_body request) then Some (rq_body request) else None)) in
    let detail := detail_extra ∪ <["url" := JStr target_url]> asked in
    match outcome with
    | HttpReply status headers _ body =>
        do* audit_proxy action "success" principal service resource_type resource_id
              (<["status_code" := JInt status]> detail) in
        ret (status, _proxy_response_headers headers, body)
    | HttpErrorReply code headers body =>
        do* audit_proxy action "upstream_error" principal service resource_type resource_id
              (<["status_code" := JInt code]> detail) in
        ret (code, _proxy_response_headers headers, body)
    | HttpUnreachable error =>
        do* zoom ApiServices.services_lens (update_long_service_status (ls_id service) LsFailed
              (Some {[ "proxy_error" := JStr "upstream_unavailable" ]})) in
        do* audit_proxy action "failed" principal service resource_type resource_id (<["error" := JStr error]> detail) in
        do* emit_api "service.proxy_failed" {[ "path" := JStr path; "reason" := JStr "upstream_unavailable" ]}
              (ls_project_id service) None None None (Some (ls_id service)) None in
        raise (HTTPException 502 "managed service upstream is unavailable")
    | HttpRaised e => raise e
    end.
Definition proxy_long_running_service (service_id : string) (request : ProxyRequest) (path : string) (principal : Principal)
    : M ApiWorld HttpResponse3 :=
  let* service := service_for_principal state service_id principal in
  _proxy_long_service_request service request path principal "service.proxy" "long_service" (ls_id service) ∅ None.
Definition proxied_entry (entry : RepositoryEntryRecord) (version : RepositoryVersionRecord) (record : NotebookServiceRecord) : dict :=
  <["kind" := JStr (ns_kind record)]> (named entry version).
Definition proxy_repository_service (name : string) (request : ProxyRequest) (path : string) (project_id : option string)
    (version : option Z) (principal : Principal) : M ApiWorld HttpResponse3 :=
  let* (entry, version_record) := _resolve_published_repository_version state name NotebookService principal project_id version in
  let* (record, service) := _active_repository_service entry version_record in
  do* project_for_request state principal (ls_project_id service) in
  _proxy_long_service_request service request path principal "repository.proxy" "repository_entry" (re_id entry)
    (<["service_id" := JStr (ls_id service)]> (proxied_entry entry version_record record))
    (Some (_repository_proxy_query_string (rq_query request))).

(** ** Websockets *)

(** [close_websocket]: whether the close goes through does not matter. *)
Definition close_websocket (websocket : nat) (code : Z) (reason : string) : M Proxied unit :=
  modify (λ w, mkProxied (px_hosted w) (px_opened w) (px_closed w ++ [(websocket, code, str_take 123 reason)])).
Definition authenticate_service_websocket (websocket : nat) (request : ProxyRequest) : M Proxied (option Principal) :=
  let route := rq_url_path request in
  match _websocket_token request with
  | None =>
      do* api_of (audit_api "auth.failure" "denied" None None None None (denied_detail route "missing token")) in
      do* close_websocket websocket 1008 "missing or invalid bearer token" in ret None
  | Some token =>
      try_catch
        (let* principal := api_of (zoom auth_lens
           (authenticate_token token (st_bootstrap_admin_token (settings state)) (st_oidc (settings state)) (st_jupyterhub (settings state)))) in
         do* api_of (zoom auth_lens (check_rate_limit principal route (st_rate_limit_per_minute (settings state)))) in
         ret (Some principal))
        (λ e, match e with
              | AuthError msg _ =>
                  do* api_of (audit_api "auth.failure" "denied" None None None None (denied_detail route msg)) in
                  do* close_websocket websocket 1008 "missing or invalid bearer token" in ret None
              | RateLimitExceeded msg =>
                  do* api_of (audit_api "auth.failure" "rate_limited" None None None None (denied_detail route msg)) in
                  do* close_websocket websocket 1013 "rate limit exceeded" in ret None
              | _ => raise e
              end)
  end.
Definition authorize_service_websocket (websocket : nat) (request : ProxyRequest) (principal : Principal)
    (project_id : option string) : M Proxied bool :=
  match require_project_access principal project_id with
  | Ok _ => ret true
  | Err (AuthError msg _) =>
      do* api_of (audit_api "project.access_denied" "denied" (Some principal) project_id None None
                    (denied_detail (rq_url_path request) msg)) in
      do* close_websocket websocket 1008 "project access denied" in ret false
  | Err e => raise e
  end.
(** [_record_proxy_outcome] *)
Definition _record_proxy_outcome (action outcome : string) (principal : Principal) (service : LongServiceRecord)
    (resource_type resource_id : string) (detail : dict) : M ApiWorld unit :=
  do* audit_proxy action outcome principal service resource_type resource_id detail in
  emit_api "service.websocket_proxy"
    {[ "kind" := JStr (ls_kind service); "outcome" := JStr outcome;
       "close_code" := default JNull (detail !! "close_code"); "reason" := default JNull (detail !! "reason") ]}
    (ls_project_id service) None None None (Some (ls_id service)) None.
(** [record_result]: what is recorded of a relay's outcome *)
Definition recorded_outcome (r : ServiceWebSocketProxyResult) : string :=
  if bool_decide (wr_outcome r ∈ ["client_closed"; "upstream_closed"]) && bool_decide (wr_close_code r ∈ [1000; 1001])
  then "success" else wr_outcome r.
Definition result_detail (detail : dict) (r : ServiceWebSocketProxyResult) : dict :=
  let c := wr_traffic r in
  {[ "terminal" := JStr (wr_outcome r); "close_code" := JInt (wr_close_code r); "reason" := JStr (wr_reason r);
     "client_frames" := JInt (client_frames c); "client_bytes" := JInt (client_bytes c);
     "upstream_frames" := JInt (upstream_frames c); "upstream_bytes" := JInt (upstream_bytes c) ]} ∪ detail.
(** [drains.unregister]: the last relay of a draining service retires it. *)
Definition unregister_websocket (manager : NotebookServiceRuntimeManager) `{ServiceHost} (service_id : string) (websocket : nat)
    : M Hosted unit :=
  let* callback := zoom drains_lens (unregister service_id websocket) in
  match callback with
  | None => ret tt
  | Some (callback, _) =>
      let* retirements := gets ho_retirements in
      match retirements !! callback with
      | Some r => _retire manager service_id r
      | None => ret tt
      end
  end.
Context `{ServiceHost} (manager : NotebookServiceRuntimeManager).

(** A relay that could not be run: what the client and the records are told *)
Definition report_failure (action : string) (websocket : nat) (principal : Principal) (service : LongServiceRecord)
    (resource_type resource_id : string) (detail : dict) (close_code : Z) (reason error : string) : M Proxied unit :=
  do* api_of (_record_proxy_outcome action "failed" principal service resource_type resource_id
        (<["error" := JStr error]> (<["reason" := JStr reason]> (<["close_code" := JInt close_code]> detail)))) in
  close_websocket websocket close_code reason.
(** The body of the [try] *)
Definition relay_websocket (websocket : nat) (request : ProxyRequest) (service : LongServiceRecord) (path : string)
    (principal : Principal) (action resource_type resource_id : string) (query_excluded : list string) (detail : dict)
    : M Proxied unit :=
  let query := filtered_query_string (rq_query request) query_excluded in
  match service_websocket_url (ls_base_url service) path query with
  | Err e => report_failure action websocket principal service resource_type resource_id detail 1008 "invalid route" (exn_str e)
  | Ok upstream_url =>
      do* modify (λ w, mkProxied (px_hosted w)
            (px_opened w ++ [mkOpened (ls_id service) upstream_url (proxy_request_headers (rq_headers request))]) (px_closed w)) in
      let* (recorded, outcome) := zoom hosted_lens (ph_relay config upstream_url (rq_headers request)) in
      do* forM_ recorded (λ r, api_of (_record_proxy_outcome action (recorded_outcome r) principal service
            resource_type resource_id (result_detail detail r))) in
      match outcome with
      | inl _ => ret tt
      | inr e => report_failure action websocket principal service resource_type resource_id detail
                   (pe_close_code e) (pe_reason e) (pe_message e)
      end
  end.
(** [try ... finally] *)
Definition finally {S A} (m : M S A) (cleanup : M S unit) : M S A := λ s,
  let '(s1, x) := m s in
  let '(s2, y) := cleanup s1 in
  (s2, match y with Ok _ => x | Err e => Err e end).
Definition proxy_service_websocket (websocket : nat) (request : ProxyRequest) (service : LongServiceRecord) (path : string)
    (principal : Principal) (action resource_type resource_id : string) (query_excluded : list string) (detail_extra : dict)
    : M Proxied unit :=
  let detail : dict := detail_extra ∪ {[ "path" := JStr path; "service_id" := JStr (ls_id service); "kind" := JStr (ls_kind service) ]} in
  if negb (service_websocket_ready service) then
    do* api_of (audit_proxy action "denied" principal service resource_type resource_id
          (<["reason" := JStr "service is not ready"]> detail)) in
    close_websocket websocket 1013 "managed service is not ready"
  else
    let* registered := zoom (lens_compose hosted_lens drains_lens) (register (ls_id service) websocket) in
    if negb registered then
      do* api_of (audit_proxy action "draining" principal service resource_type resource_id
            (<["reason" := JStr "service route is draining"]> detail)) in
      close_websocket websocket 1012 "managed service is being replaced"
    else
      finally (relay_websocket websocket request service path principal action resource_type resource_id query_excluded detail)
        (zoom hosted_lens (unregister_websocket manager (ls_id service) websocket)).

Definition proxy_long_running_service_websocket (websocket : nat) (request : ProxyRequest) (service_id path : string)
    : M Proxied unit :=
  let* principal := authenticate_service_websocket websocket request in
  match principal with
  | None => ret tt
  | Some principal =>
      let* service := api_of (gets (λ a, get_long_service service_id (a_services a))) in
      match service with
      | None => close_websocket websocket 1008 "managed service is unavailable"
      | Some service =>
          let* allowed := authorize_service_websocket websocket request principal (ls_project_id service) in
          if negb allowed then ret tt
          else proxy_service_websocket websocket request service path principal "service.websocket_proxy"
                 "long_service" (ls_id service) ["token"] ∅
      end
  end.
(** The version asked for: a positive integer, or none *)
Definition requested_version (request : ProxyRequest) : result (option Z) :=
  match query_param "version" (rq_query request) with
  | None => Ok None
  | Some raw => let? version := py_int_text raw in
                if version <=? 0 then Err (ValueError EmptyString) else Ok (Some version)
  end.
(** [try ... except HTTPException] *)
Definition unless_http {A} (m : M Proxied A) : M Proxied (option A) :=
  try_catch (let* x := m in ret (Some x)) (λ e, if is_http_exception e then ret None else raise e).
(** The service a client is relayed to: the active one of the version, or else, when no
    version was asked for, the newest that is ready. *)
Definition selected_service (websocket : nat) (entry : RepositoryEntryRecord) (version_record : RepositoryVersionRecord)
    (version : option Z) : M Proxied (option (RepositoryVersionRecord * NotebookServiceRecord * LongServiceRecord)) :=
  let* active := unless_http (api_of (_active_repository_service entry version_record)) in
  let* selected := (match active, version with
    | Some (record, service), _ => ret (Some (version_record, record, service))
    | None, Some _ => do* close_websocket websocket 1008 "repository service is unavailable" in ret None
    | None, None =>
        let* fallback := api_of (_last_known_good_repository_service entry) in
        match fallback with
        | Some selected => ret (Some selected)
        | None => do* close_websocket websocket 1013 "repository service is not ready" in ret None
        end
    end) in
  match selected with
  | Some (_, _, service) =>
      if bool_decide (version = None) && negb (service_websocket_ready service) then
        let* fallback := api_of (_last_known_good_repository_service entry) in
        ret (match fallback with Some good => Some good | None => selected end)
      else ret selected
  | None => ret None
  end.
Definition proxy_repository_service_websocket (websocket : nat) (request : ProxyRequest) (name path : string) : M Proxied unit :=
  let* principal := authenticate_service_websocket websocket request in
  match principal with
  | None => ret tt
  | Some principal =>
      match requested_version request with
      | Err e => if is_value_error e then close_websocket websocket 1008 "invalid repository service version" else raise e
      | Ok version =>
          let* resolved := unless_http (api_of (_resolve_published_repository_version state name NotebookService principal
                                                  (query_param "project_id" (rq_query request)) version)) in
          match resolved with
          | None => close_websocket websocket 1008 "repository service is unavailable"
          | Some (entry, version_record) =>
              let* selected := selected_service websocket entry version_record version in
              match selected with
              | None => ret tt
              | Some (version_record, record, service) =>
                  let* allowed := authorize_service_websocket websocket request principal (ls_project_id service) in
                  if negb allowed then ret tt
                  else proxy_service_websocket websocket request service path principal "repository.websocket_proxy"
                         "repository_entry" (re_id entry) ["token"; "project_id"; "version"]
                         (proxied_entry entry version_record record)
              end
          end
      end
  end.
(** The routes that take websockets *)
Inductive WebSocketRoute := ServiceRoute (service_id path : string) | RepositoryRoute (name path : string).
Definition serve_websocket (websocket : nat) (request : ProxyRequest) (route : WebSocketRoute) : M Proxied unit :=
  match route with
  | ServiceRoute service_id path => proxy_long_running_service_websocket websocket request service_id path
  | RepositoryRoute name path => proxy_repository_service_websocket websocket request name path
  end.
End proxies.

#[export] Instance preserves_unless_http {A B} (f : Proxied → B) (m : M Proxied A) : Preserves f m → Preserves f (unless_http m).
Proof. intros Hm. unfold unless_http. solve_preserves. Qed.
Lemma unless_http_some {A} (m : M Proxied A) w w' x : unless_http m w = (w', Ok (Some x)) → m w = (w', Ok x).
Proof.
  unfold unless_http, try_catch, bind. destruct (m w) as [w1 [y|e]]; [by intros [= <- <-]|].
  by destruct (is_http_exception e).
Qed.

(** ** What a handler opens *)

Section opens.
Context (P : Opened → Prop).
(** At most one relay is opened, and it satisfies [P]. *)
Definition opens (w w' : Proxied) : Prop :=
  px_opened w' = px_opened w ∨ ∃ o, px_opened w' = px_opened w ++ [o] ∧ P o.
Lemma opens_none {A} (m : M Proxied A) `{!Preserves px_opened m} w : opens w (m w).1.
Proof. left. apply preserves. Qed.
Lemma opens_bind {A B} (m : M Proxied A) (k : A → M Proxied B) `{!Preserves px_opened m} w :
  (∀ x w1, m w = (w1, Ok x) → opens w1 (k x w1).1) → opens w ((let* x := m in k x) w).1.
Proof.
  intros Hk. unfold bind. pose proof (preserves w : px_opened (m w).1 = px_opened w) as E.
  destruct (m w) as [w1 [x|e]]; simpl in *; [|by left]. specialize (Hk x w1 eq_refl). unfold opens in *. by rewrite E in Hk.
Qed.
Lemma opens_finally {A} (m : M Proxied A) (cleanup : M Proxied unit) `{!Preserves px_opened cleanup} w :
  opens w (m w).1 → opens w (finally m cleanup w).1.
Proof.
  unfold finally, opens. intros Hm. destruct (m w) as [w1 x]. pose proof (preserves w1 : px_opened (cleanup w1).1 = px_opened w1) as E.
  destruct (cleanup w1) as [w2 y]. simpl in *. by rewrite E.
Qed.
End opens.
Lemma opens_weaken (P Q : Opened → Prop) w w' : (∀ o, P o → Q o) → opens P w w' → opens Q w w'.
Proof. intros Hpq [E|(o & E & Ho)]; [by left|]. right. exists o. auto. Qed.

Section gate.
Context `{Sqlite} `{Env} `{Crypto} `{Jwt} `{Hub} `{ProxyHost} `{ServiceHost}.
Context (state : AppState) (config : ServiceWebSocketProxyConfig) (manager : NotebookServiceRuntimeManager).

#[export] Instance opened_hosted {A} (m : M Hosted A) : Preserves px_opened (zoom hosted_lens m).
Proof. intros w. by rewrite zoom_eq. Qed.
#[export] Instance opened_api {A} (m : M ApiWorld A) : Preserves px_opened (api_of m).
Proof. intros w. unfold api_of, zoom. by destruct (m _). Qed.
#[export] Instance opened_drains {A} (m : M Drains A) : Preserves px_opened (zoom (lens_compose hosted_lens drains_lens) m).
Proof. intros w. unfold zoom. by destruct (m _). Qed.
#[export] Instance opened_close websocket code reason : Preserves px_opened (close_websocket websocket code reason).
Proof. by intros w. Qed.
#[export] Instance opened_report action ws p s ty id d c r e : Preserves px_opened (report_failure action ws p s ty id d c r e).
Proof. unfold report_failure. solve_preserves. Qed.
#[export] Instance opened_authenticate ws request : Preserves px_opened (authenticate_service_websocket state ws request).
Proof. unfold authenticate_service_websocket. solve_preserves. Qed.
#[export] Instance opened_authorize ws request p q : Preserves px_opened (authorize_service_websocket ws request p q).
Proof. unfold authorize_service_websocket. solve_preserves. Qed.
#[export] Instance opened_selected ws entry v version : Preserves px_opened (selected_service ws entry v version).
Proof. unfold selected_service. solve_preserves. Qed.

(** A relay of [service]: to its registered address, without credentials *)
Definition relays (service : LongServiceRecord) (excluded : list string) (o : Opened) : Prop :=
  op_service o = ls_id service
  ∧ (∃ path query, service_websocket_url (ls_base_url service) path (filtered_query_string query excluded) = Ok (op_url o))
  ∧ Forall (λ kv, lower kv.1 ∉ _SENSITIVE_HEADERS) (op_headers o).
Lemma relay_websocket_opens ws request service path p action ty id excluded detail w :
  opens (relays service excluded) w (relay_websocket config ws request service path p action ty id excluded detail w).1.
Proof.
  unfold relay_websocket. destruct (service_websocket_url _ _ _) as [url|e] eqn:Hurl; [|apply opens_none, _].
  right. exists (mkOpened (ls_id service) url (proxy_request_headers (rq_headers request))). split.
  - unfold bind at 1. unfold modify. cbn [fst snd].
    set (w1 := mkProxied _ _ _). set (rest := let* y := _ in _).
    assert (Hrest : Preserves px_opened rest).
    { subst rest. apply preserves_bind; [apply _|intros [recorded outcome]]. apply preserves_bind; [apply _|intros _; destruct outcome; apply _]. }
    by rewrite Hrest.
  - split_and!; [done|by exists path, (rq_query request)|]. apply Forall_forall. intros kv Hin. simpl in Hin.
    unfold proxy_request_headers in Hin. apply list_elem_of_filter in Hin as [Hn _]. set_solver.
Qed.
(** A route accepts relays while nothing drains it. *)
Definition route_open (id : string) (states : Drains) : Prop := retire (default fresh_drain (states !! id)) = None.
Lemma proxy_websocket_opens ws request service path p action ty id excluded extra w :
  opens (λ o, relays service excluded o ∧ service_websocket_ready service = true ∧ route_open (ls_id service) (ho_drains (px_hosted w)))
    w (proxy_service_websocket config manager ws request service path p action ty id excluded extra w).1.
Proof.
  unfold proxy_service_websocket. destruct (service_websocket_ready service) eqn:Hready; [|apply opens_none, _]. simpl.
  apply opens_bind; [apply _|]. intros registered w1 Hreg. destruct registered; [|apply opens_none, _]. simpl.
  apply opens_finally; [apply _|]. eapply opens_weaken; [|apply relay_websocket_opens].
  intros o Ho. split_and!; [done|done|]. unfold route_open. unfold zoom, register in Hreg. simpl in Hreg.
  destruct (retire (default fresh_drain (ho_drains (px_hosted w) !! ls_id service))); [discriminate Hreg|done].
Qed.

(** *** What the checks before the relay leave alone, and what they establish *)

(** The registered services and the draining routes *)
Definition routes (w : Proxied) : table LongServiceRecord * Drains := (a_services (ho_api (px_hosted w)), ho_drains (px_hosted w)).
Lemma routes_api {A} (m : M ApiWorld A) : Preserves a_services m → Preserves routes (api_of m).
Proof.
  intros Hm w. unfold api_of, zoom, routes. simpl. specialize (Hm (ho_api (px_hosted w))).
  destruct (m (ho_api (px_hosted w))) as [a x]. simpl in *. by rewrite Hm.
Qed.
#[export] Instance services_audit ac o p q ty id d : Preserves a_services (audit_api ac o p q ty id d).
Proof. intros a. unfold audit_api. by rewrite zoom_eq. Qed.
#[export] Instance services_auth {A} (m : M AuthState A) : Preserves a_services (zoom auth_lens m).
Proof. intros a. by rewrite zoom_eq. Qed.
#[export] Instance routes_api_instance {A} (m : M ApiWorld A) : Preserves a_services m → Preserves routes (api_of m).
Proof. apply routes_api. Qed.
#[export] Instance routes_close ws code reason : Preserves routes (close_websocket ws code reason).
Proof. by intros w. Qed.
#[export] Instance routes_authenticate ws request : Preserves routes (authenticate_service_websocket state ws request).
Proof. unfold authenticate_service_websocket. solve_preserves. Qed.
#[export] Instance routes_authorize ws request p q : Preserves routes (authorize_service_websocket ws request p q).
Proof. unfold authorize_service_websocket. solve_preserves. Qed.
#[export] Instance services_of_serving {A} (m : M ApiWorld A) : Preserves serving m → Preserves a_services m.
Proof. intros Hm a. exact (f_equal snd (Hm a)). Qed.

(** The caller's token was accepted. *)
Definition accepted_token (request : ProxyRequest) (p : Principal) (w : Proxied) : Prop :=
  ∃ token, _websocket_token request = Some token
    ∧ (zoom auth_lens (authenticate_token token (st_bootstrap_admin_token (settings state)) (st_oidc (settings state))
         (st_jupyterhub (settings state))) (ho_api (px_hosted w))).2 = Ok p.
Lemma authenticate_accepts ws request w w' p :
  authenticate_service_websocket state ws request w = (w', Ok (Some p)) → accepted_token request p w.
Proof.
  unfold authenticate_service_websocket, accepted_token. destruct (_websocket_token request) as [token|].
  2:{ intros Hk. apply bind_ok in Hk as (w1 & [] & _ & Hk). by apply bind_ok in Hk as (w2 & [] & _ & [=]). }
  set (granted := let* principal := api_of (zoom auth_lens (authenticate_token token _ _ _)) in _).
  unfold try_catch. intros Hk. exists token. split; [done|].
  destruct (granted w) as [w1 [x|e]] eqn:Hg.
  - injection Hk as <- ->. subst granted. apply bind_ok in Hg as (w2 & principal & Ha & Hg).
    apply bind_ok in Hg as (w3 & [] & _ & [= _ ->]). unfold api_of, zoom in *. simpl in *.
    destruct (authenticate_token _ _ _ _ _) as [t y]. simpl in *. by injection Ha as _ ->.
  - destruct e; try discriminate Hk; apply bind_ok in Hk as (w2 & [] & _ & Hk); by apply bind_ok in Hk as (w3 & [] & _ & [=]).
Qed.
Lemma authorize_allows ws request p q w w' :
  authorize_service_websocket ws request p q w = (w', Ok true) → require_project_access p q = Ok tt.
Proof.
  unfold authorize_service_websocket. destruct (require_project_access p q) as [[]|e]; [done|].
  destruct e; try (by intros [=]). intros Hk. apply bind_ok in Hk as (w1 & [] & _ & Hk). by apply bind_ok in Hk as (w2 & [] & _ & [=]).
Qed.
(** A service of the table *)
Definition registered_service_of (w : Proxied) (service : LongServiceRecord) : Prop :=
  ∃ id, get_long_service id (a_services (ho_api (px_hosted w))) = Some service.
Lemma first_ready_registered l a version record service :
  first_ready l a = Some (version, record, service) → ∃ id, get_long_service id (a_services a) = Some service.
Proof.
  induction l as [|v l IH]; simpl; [done|]. destruct (get_notebook_service _ _) as [r|]; [|done].
  destruct (negb _); [done|]. destruct (get_long_service _ _) as [s|] eqn:Hs; [|done].
  destruct (service_websocket_ready s); [|done]. intros [= _ _ <-]. by eexists.
Qed.
Lemma active_registered entry version a a' record service :
  _active_repository_service entry version a = (a', Ok (record, service)) →
  ∃ id, get_long_service id (a_services a') = Some service.
Proof.
  unfold _active_repository_service. intros Hk. apply bind_ok in Hk as (a1 & r & _ & Hk).
  apply bind_ok in Hk as (a2 & [] & _ & Hk). apply bind_ok in Hk as (a3 & found & [= <- <-] & Hk).
  destruct (get_long_service _ _) as [s|] eqn:Hs; [|done]. injection Hk as <- _ <-. by eexists.
Qed.
Lemma last_good_registered entry a a' version record service :
  _last_known_good_repository_service entry a = (a', Ok (Some (version, record, service))) →
  ∃ id, get_long_service id (a_services a') = Some service.
Proof.
  unfold _last_known_good_repository_service. intros Hk. apply bind_ok in Hk as (a1 & versions & _ & [= <- Hf]).
  by apply first_ready_registered in Hf.
Qed.
#[export] Instance serving_active entry v : Preserves serving (_active_repository_service entry v).
Proof. unfold _active_repository_service. solve_preserves. Qed.
#[export] Instance routes_selected ws entry v version : Preserves routes (selected_service ws entry v version).
Proof. unfold selected_service. solve_preserves. Qed.
Lemma registered_routes w w' service : routes w' = routes w → registered_service_of w service → registered_service_of w' service.
Proof. intros E [id Hid]. exists id. apply (f_equal fst) in E. cbn [fst routes] in E. by rewrite E. Qed.
(** A lookup of the API that returns a service returns one of the table. *)
Lemma api_lookup {A} (m : M ApiWorld A) (P : A → LongServiceRecord → Prop) w w' x service :
  (∀ a a', m a = (a', Ok x) → P x service → ∃ id, get_long_service id (a_services a') = Some service) →
  api_of m w = (w', Ok x) → P x service → registered_service_of w' service.
Proof.
  intros Hm Hk HP. unfold api_of, zoom in Hk. simpl in Hk.
  destruct (m (ho_api (px_hosted w))) as [a y] eqn:Ha. injection Hk as <- ->. exact (Hm _ _ Ha HP).
Qed.
Lemma selected_registered ws entry v version w w' v' record service :
  selected_service ws entry v version w = (w', Ok (Some (v', record, service))) → registered_service_of w' service.
Proof.
  unfold selected_service. intros Hk. apply bind_ok in Hk as (w1 & active & Hactive & Hk).
  apply bind_ok in Hk as (w2 & selected & Hsel & Hk).
  assert (Hgood : ∀ w3 w4 x y z, api_of (_last_known_good_repository_service entry) w3 = (w4, Ok (Some (x, y, z))) → registered_service_of w4 z).
  { intros w3 w4 x y z Hl. by apply (api_lookup _ (λ r s, ∃ x y, r = Some (x, y, s)) w3 w4 (Some (x, y, z)) z) in Hl; [|
      intros a a' Ha (x' & y' & [= -> ->]); exact (last_good_registered _ _ _ _ _ _ Ha)|by eexists _, _]. }
  assert (Hfirst : ∀ x y z, selected = Some (x, y, z) → registered_service_of w2 z).
  { intros x y z ->. destruct active as [[r1 s1]|].
    - injection Hsel as <- _ _ ->. apply unless_http_some in Hactive.
      by apply (api_lookup _ (λ x s, x.2 = s) w w1 (r1, z) z) in Hactive; [|intros a a' Ha _; exact (active_registered _ _ _ _ _ _ Ha)|].
    - destruct version as [n|]; [by apply bind_ok in Hsel as (w3 & [] & _ & [=])|].
      apply bind_ok in Hsel as (w3 & [[[x1 y1] z1]|] & Hl & Hsel); [|by apply bind_ok in Hsel as (w4 & [] & _ & [=])].
      injection Hsel as <- <- <- <-. by apply (Hgood w1 _ x1 y1 z1). }
  destruct selected as [[[x y] z]|]; [|discriminate Hk].
  destruct (bool_decide (version = None) && negb (service_websocket_ready z)); [|injection Hk as <- <- <- <-; by apply (Hfirst x y z)].
  apply bind_ok in Hk as (w3 & [[[x1 y1] z1]|] & Hl & Hk); [injection Hk as <- <- <- <-; by apply (Hgood w2 _ x1 y1 z1)|].
  injection Hk as <- <- <- <-. eapply registered_routes; [|by apply (Hfirst x y z)].
  pose proof (preserves w2 : routes (api_of (_last_known_good_repository_service entry) w2).1 = routes w2) as E. by rewrite Hl in E.
Qed.

(** A relay that was allowed, seen from the state [w] the request arrived in. *)
Definition allowed_relay (request : ProxyRequest) (w : Proxied) (o : Opened) : Prop :=
  ∃ principal service excluded,
    accepted_token request principal w ∧ registered_service_of w service
    ∧ require_project_access principal (ls_project_id service) = Ok tt
    ∧ service_websocket_ready service = true ∧ route_open (ls_id service) (ho_drains (px_hosted w))
    ∧ "token" ∈ excluded ∧ relays service excluded o.
(** The end that both routes share: access, then the relay. *)
Lemma admitted_opens ws request service path p action ty id excluded extra w0 w :
  accepted_token request p w0 → routes w = routes w0 → registered_service_of w0 service → "token" ∈ excluded →
  opens (allowed_relay request w0) w
    ((let* allowed := authorize_service_websocket ws request p (ls_project_id service) in
      if negb allowed then ret tt
      else proxy_service_websocket config manager ws request service path p action ty id excluded extra) w).1.
Proof.
  intros Hp Hroutes Hs Hex. apply opens_bind; [apply _|]. intros allowed w1 Ha. destruct allowed; [|apply opens_none, _]. simpl.
  eapply opens_weaken; [|apply proxy_websocket_opens]. intros o (Ho & Hready & Hopen).
  exists p, service, excluded. split_and!; try done; [by apply authorize_allows in Ha|].
  pose proof (preserves w : routes (authorize_service_websocket ws request p (ls_project_id service) w).1 = routes w) as E.
  rewrite Ha in E. cbn [fst] in E. rewrite Hroutes in E. apply (f_equal snd) in E. cbn [snd routes] in E. by rewrite <- E.
Qed.
Lemma service_route_opens ws request service_id path w :
  opens (allowed_relay request w) w (proxy_long_running_service_websocket state config manager ws request service_id path w).1.
Proof.
  unfold proxy_long_running_service_websocket. apply opens_bind; [apply _|]. intros [principal|] w1 Hp; [|apply opens_none, _].
  pose proof (preserves w : routes (authenticate_service_websocket state ws request w).1 = routes w) as E1. rewrite Hp in E1. cbn [fst] in E1.
  apply opens_bind; [apply _|]. intros found w2 Hf. destruct found as [service|]; [|apply opens_none, _].
  assert (routes w2 = routes w1 ∧ get_long_service service_id (a_services (ho_api (px_hosted w1))) = Some service) as [E2 Hs].
  { unfold api_of in Hf. rewrite zoom_compose in Hf. unfold zoom, gets in Hf. simpl in Hf. by injection Hf as <- Hs. }
  apply admitted_opens; [by eapply authenticate_accepts|congruence| |set_solver].
  eapply registered_routes; [symmetry; exact E1|]. by exists service_id.
Qed.
Lemma repository_route_opens ws request name path w :
  opens (allowed_relay request w) w (proxy_repository_service_websocket state config manager ws request name path w).1.
Proof.
  unfold proxy_repository_service_websocket. apply opens_bind; [apply _|]. intros [principal|] w1 Hp; [|apply opens_none, _].
  pose proof (preserves w : routes (authenticate_service_websocket state ws request w).1 = routes w) as E1. rewrite Hp in E1. cbn [fst] in E1.
  destruct (requested_version request) as [version|e]; [|destruct (is_value_error e); apply opens_none, _].
  apply opens_bind; [apply _|]. intros resolved w2 Hr. destruct resolved as [[entry version_record]|]; [|apply opens_none, _].
  match type of Hr with ?m w1 = _ => pose proof (preserves w1 : routes (m w1).1 = routes w1) as E2 end. rewrite Hr in E2.
  apply opens_bind; [apply _|]. intros selected w3 Hs. destruct selected as [[[v record] service]|]; [|apply opens_none, _].
  pose proof (preserves w2 : routes (selected_service ws entry version_record version w2).1 = routes w2) as E3. rewrite Hs in E3.
  cbn [fst] in E1, E2, E3. apply admitted_opens; [by eapply authenticate_accepts|congruence| |set_solver].
  apply selected_registered in Hs. eapply registered_routes; [|exact Hs]. congruence.
Qed.
End gate.

Section theorems.
Context `{Sqlite} `{Env} `{Crypto} `{Jwt} `{Hub} `{ProxyHost} `{ServiceHost}.
Context (state : AppState) (config : ServiceWebSocketProxyConfig) (manager : NotebookServiceRuntimeManager).

(** No websocket reaches a service past the gate.  Whatever is requested on either
    route, at most one relay is opened, and then the request carried a token that
    authenticates a principal, who may access the project of a registered service that
    is running with a successful probe and that nothing is draining; the relay goes to
    that service's registered address, without the control plane's token, and none of the
    headers it forwards is a credential. *)
Theorem relay_gate (websocket : nat) (request : ProxyRequest) (route : WebSocketRoute) (w : Proxied) :
  let w' := (serve_websocket state config manager websocket request route w).1 in
  px_opened w' = px_opened w ∨ ∃ o, px_opened w' = px_opened w ++ [o] ∧ allowed_relay state request w o.
Proof. destruct route; [apply service_route_opens|apply repository_route_opens]. Qed.

(** The registry counts the websocket among those of the service. *)
Definition attached (service_id : string) (websocket : nat) (states : Drains) : Prop :=
  websocket ∈ connections (default fresh_drain (states !! service_id)).
Lemma unregister_detaches service_id websocket states :
  ¬ attached service_id websocket (unregister service_id websocket states).1.
Proof.
  unfold attached, unregister. destruct (states !! service_id) as [d|] eqn:Hd; simpl; [|rewrite Hd; simpl; set_solver].
  destruct (retire d) as [callback|]; case_bool_decide; simpl; [destruct (callback_started d)| | |]; simpl;
    rewrite ?lookup_insert_eq, ?lookup_delete_eq; simpl; set_solver.
Qed.
Lemma unregister_websocket_detaches service_id websocket h :
  ¬ attached service_id websocket (ho_drains (unregister_websocket manager service_id websocket h).1).
Proof.
  unfold unregister_websocket. unfold bind at 1. unfold zoom at 1. cbn [view drains_lens].
  pose proof (unregister_detaches service_id websocket (ho_drains h)) as Hd.
  destruct (unregister service_id websocket (ho_drains h)) as [states [[[callback timer]|]|e]]; cbn [fst] in *; [|exact Hd..].
  unfold bind, gets. cbn [fst snd]. destruct (ho_retirements _ !! callback) as [r|]; [|exact Hd].
  unfold _retire. destruct (run_retirement manager r _) as [h1 x]. unfold zoom, retire_finally, attached. simpl.
  rewrite lookup_delete_eq. simpl. set_solver.
Qed.

(** A relay leaves no connection behind.  Whatever becomes of a websocket that asks
    for a relay to a service - it is refused, the upstream fails, the relay ends, another
    handler starts to drain the service meanwhile - when the handler is done the drain
    registry does not count it among the service's connections, so that a replacement
    never waits for it. *)
Theorem relay_detached (websocket : nat) (request : ProxyRequest) (service : LongServiceRecord) (path : string)
    (principal : Principal) (action resource_type resource_id : string) (excluded : list string) (extra : dict) (w : Proxied) :
  ¬ attached (ls_id service) websocket (ho_drains (px_hosted w)) →
  ¬ attached (ls_id service) websocket (ho_drains (px_hosted
      (proxy_service_websocket config manager websocket request service path principal action resource_type resource_id excluded extra w).1)).
Proof.
  intros Hw. unfold proxy_service_websocket.
  assert (Hquiet : ∀ (m : M Proxied unit) w1, Preserves routes m → routes w1 = routes w →
            ¬ attached (ls_id service) websocket (ho_drains (px_hosted (m w1).1))).
  { intros m w1 Hm E. specialize (Hm w1). rewrite E in Hm. apply (f_equal snd) in Hm. cbn [snd routes] in Hm. by rewrite Hm. }
  destruct (negb (service_websocket_ready service)); [apply Hquiet; [unfold audit_proxy; solve_preserves|done]|].
  unfold bind at 1, zoom at 1, register. cbn [view lens_compose hosted_lens drains_lens].
  destruct (retire (default fresh_drain (ho_drains (px_hosted w) !! ls_id service))) as [callback|] eqn:Hr; cbn [negb].
  - set (w1 := put _ _ _). match goal with |- context [(?m w1).1] => assert (Hm : Preserves routes m) by (unfold audit_proxy; solve_preserves) end.
    specialize (Hm w1). apply (f_equal snd) in Hm. cbn [snd routes] in Hm. rewrite Hm. subst w1. unfold attached. simpl.
    rewrite lookup_insert_eq. exact Hw.
  - unfold finally. destruct (relay_websocket _ _ _ _ _ _ _ _ _ _ _ _) as [w2 x]. rewrite zoom_eq.
    pose proof (unregister_websocket_detaches (ls_id service) websocket (view hosted_lens w2)) as Hd.
    destruct (unregister_websocket manager (ls_id service) websocket (view hosted_lens w2)) as [h y]. exact Hd.
Qed.
End theorems.

Section forwarding.
Context `{Sqlite} `{Env} `{Crypto} `{ProxyHost}.

Lemma forwarded_headers headers headers' :
  filter (λ kv, lower kv.1 ∉ SENSITIVE_PROXY_REQUEST_HEADERS) headers = filter (λ kv, lower kv.1 ∉ SENSITIVE_PROXY_REQUEST_HEADERS) headers' →
  _proxy_request_headers headers = _proxy_request_headers headers'.
Proof.
  intros E. assert (Hsplit : ∀ l : list (string * string),
    filter (λ kv, lower kv.1 ∉ SENSITIVE_PROXY_REQUEST_HEADERS ++ HOP_BY_HOP_HEADERS) l
    = filter (λ kv, lower kv.1 ∉ HOP_BY_HOP_HEADERS) (filter (λ kv, lower kv.1 ∉ SENSITIVE_PROXY_REQUEST_HEADERS) l)).
  { intros l. rewrite list_filter_filter. apply list_filter_iff. intros kv. rewrite elem_of_app. tauto. }
  unfold _proxy_request_headers. by rewrite !Hsplit, E.
Qed.
(** The control plane's credentials stay with it.  Two requests that differ only in
    their credentials - the headers of authorization, cookies, tokens and keys - are
    proxied to the service as the same request: with whatever host answers, they yield
    the same reply, the same records and the same state. *)
Theorem credentials_not_forwarded (service : LongServiceRecord) (method url_path query body path : string)
    (headers headers' : list (string * string)) (principal : Principal) (action resource_type resource_id : string)
    (extra : dict) (query_string : option string) (a : ApiWorld) :
  filter (λ kv, lower kv.1 ∉ SENSITIVE_PROXY_REQUEST_HEADERS) headers
  = filter (λ kv, lower kv.1 ∉ SENSITIVE_PROXY_REQUEST_HEADERS) headers' →
  _proxy_long_service_request service (mkProxyRequest method url_path query headers body) path principal action
    resource_type resource_id extra query_string a
  = _proxy_long_service_request service (mkProxyRequest method url_path query headers' body) path principal action
      resource_type resource_id extra query_string a.
Proof. intros E. unfold _proxy_long_service_request. simpl. by rewrite (forwarded_headers headers headers' E). Qed.
End forwarding.

(** ** Concrete runs *)

Definition closed_by_client : ServiceWebSocketProxyResult := mkProxyResult "client_closed" 1001 EmptyString (mkCounters 1 5 1 4).
(** A host whose relays end as given, and whose services say hello *)
Definition relay_host (outcome : ServiceWebSocketProxyResult + ServiceWebSocketProxyError) : ProxyHost := {|
  ph_urlopen := λ _ _ _ headers _, HttpReply 200 headers None "hello";
  ph_relay := λ _ _ _, ret ([closed_by_client], outcome)
|}.
Definition started_web : Proxied := mkProxied (start_web live_services published_web).1 [] [].
Definition handshake (query : string) : ProxyRequest :=
  mkProxyRequest "GET" "/repository/services/web/proxy/ws" query [("cookie", "c"); ("x-trace", "7")] EmptyString.
Definition relay_web (outcome : ServiceWebSocketProxyResult + ServiceWebSocketProxyError) (query : string) : Proxied :=
  (@serve_websocket sqlite_merge second_env plain_crypto no_jwt admin_hub (relay_host outcome) plain_state plain_proxy
     web_host (sample_manager "docker") 7 (handshake query) (RepositoryRoute "web" "ws") started_web).1.
Definition relay_audits (w : Proxied) : list (string * string) :=
  filter (λ x, x.1 = "repository.websocket_proxy") ((λ l, (al_action l, al_outcome l)) <$> rows (w_audit (a_world (ho_api (px_hosted w))))).

(** An admin's websocket reaches the service that runs, with the selectors and the token
    taken out of its query; one without a token, or without access, does not. *)
Example relayed_once :
  let w := relay_web (inl closed_by_client) "token=boot&project_id=p1&room=1" in
  px_opened w = [mkOpened "id-8" "ws://127.0.0.1:32768/ws?room=1" [("x-trace", "7")]]
  ∧ relay_audits w = [("repository.websocket_proxy", "success")] ∧ px_closed w = []
  ∧ map_to_list (ho_drains (px_hosted w)) = [].
Proof. split_and!; vm_compute; reflexivity. Qed.
Example relay_refused :
  px_closed (relay_web (inl closed_by_client) "room=1") = [(7%nat, 1008, "missing or invalid bearer token")]
  ∧ px_closed (relay_web (inl closed_by_client) "token=boot&version=0") = [(7%nat, 1008, "invalid repository service version")]
  ∧ px_opened (relay_web (inl closed_by_client) "token=boot&version=0") = [].
Proof. split_and!; vm_compute; reflexivity. Qed.
(** A relay that raises after its client left is recorded twice, and not as one thing:
    [WebSockets.raised_after_recording] is such a relay. *)
Example recorded_twice :
  let w := relay_web (inr (upstream_failed (OtherException "WebSocketDisconnect" "1006"))) "token=boot&project_id=p1" in
  relay_audits w = [("repository.websocket_proxy", "failed"); ("repository.websocket_proxy", "success")]
  ∨ relay_audits w = [("repository.websocket_proxy", "success"); ("repository.websocket_proxy", "failed")].
Proof. vm_compute. auto. Qed.
(** A service that belongs to no project is open to every member over HTTP, where the
    request falls back to the member's own project, and to none over a websocket. *)
Example boundaries_differ :
  let ada := member "ada" "p1" in
  (@project_for_request second_env plain_state ada None empty_api).2 = Ok (Some "p1")
  ∧ is_ok (require_project_access ada None) = false.
Proof. split; vm_compute; reflexivity. Qed.

Definition sample_service : LongServiceRecord :=
  mkLongService "s" "web" (Some "p1") None "http://svc" "/hello" LsRunning 0 "ada" (Some 0) (Some {[ "status_code" := JInt 200 ]}).
Definition empty_proxied : Proxied := mkProxied (mkHosted empty_api ∅ []) [] [].
Definition relay_sample : Proxied :=
  (@proxy_service_websocket sqlite_merge second_env (relay_host (inl closed_by_client)) plain_proxy web_host
     (sample_manager "docker") 7 (handshake EmptyString) sample_service "ws" root "a" "b" "c" ["token"] ∅ empty_proxied).1.
Lemma relay_detached_witness :
  length (px_opened relay_sample) = 1%nat ∧ ¬ attached (ls_id sample_service) 7 (ho_drains (px_hosted relay_sample)).
Proof.
  split; [vm_compute; reflexivity|].
  assert (Hw : ¬ attached (ls_id sample_service) 7 (ho_drains (px_hosted empty_proxied))) by (apply (bool_decide_unpack _); vm_compute; exact I).
  exact (@relay_detached sqlite_merge second_env (relay_host (inl closed_by_client)) web_host plain_proxy
           (sample_manager "docker") 7 (handshake EmptyString) sample_service "ws" root "a" "b" "c" ["token"] ∅ empty_proxied Hw).
Defined.
Lemma credentials_not_forwarded_witness :
  let send headers := @_proxy_long_service_request sqlite_merge second_env (relay_host (inl closed_by_client))
    (mkLongService "s" "web" (Some "p1") None "http://svc" "/hello" LsRunning 0 "ada" None None)
    (mkProxyRequest "POST" "/x" "q=1" headers "body") "api" root "service.proxy" "long_service" "s" ∅ None empty_api in
  send [("authorization", "Bearer a"); ("x-trace", "7")] = send [("x-trace", "7"); ("Cookie", "c")]
  ∧ match (send [("Cookie", "c"); ("x-trace", "7")]).2 with Ok (_, headers, _) => map_to_list headers = [("x-trace", JStr "7")] | _ => False end.
Proof.
  intros send. split; [|vm_compute; reflexivity].
  apply (@credentials_not_forwarded sqlite_merge second_env (relay_host (inl closed_by_client))
    (mkLongService "s" "web" (Some "p1") None "http://svc" "/hello" LsRunning 0 "ada" None None)
    "POST" "/x" "q=1" "body" "api" [("authorization", "Bearer a"); ("x-trace", "7")] [("x-trace", "7"); ("Cookie", "c")]
    root "service.proxy" "long_service" "s" ∅ None empty_api).
  vm_compute. reflexivity.
Defined.
