(* ===== verification/ApiFiles.v ===== *)
(** * Artifact files behind the API ([src/src/goblin_king/api_artifacts.py], [api.py])

    Where the file of an artifact is, downloading it, and pruning the artifact volume by
    age and size.

    The volume is a table from resolved paths to the size and modification time of the
    regular files there, in microseconds.  Resolving a path is a parameter; the order a
    set is iterated in is one too, and sorting by time keeps it.  Measuring the volume
    and writing a probe file are outside. *)

From Stdlib Require Import Ascii.
From stdpp Require Import sorting.
From S2P Require Import Prelude CausalTime Contracts Text Paths PyValues Containers EventStore JobStore JobLifecycle RecordStore Auth Urls World Api ApiJobs.

Record FileInfo := mkFileInfo { fi_size : Z; fi_mtime : Z }.
Abbreviation Volume := (gmap string FileInfo).
Record Filed := mkFiled { fl_api : ApiWorld; fl_volume : Volume }.
Definition filed_lens : lens Filed ApiWorld := Lens fl_api (λ a w, mkFiled a (fl_volume w)).
#[export] Instance filed_lens_lawful : LawfulLens filed_lens.
Proof. split; intros; by repeat match goal with w : Filed |- _ => destruct w end. Qed.

(** [Path.resolve], the order of a set of paths, and [datetime.now().timestamp()] *)
Class FileHost := {
  fh_resolve : PosixPath → result PosixPath;
  fh_set_order : list PosixPath → list PosixPath;
  fh_set_order_perm : ∀ l, fh_set_order l ≡ₚ l;
  fh_now : Process → Z
}.

Section files.
Context `{FileHost}.

(** [url2pathname(unquote(path))]: the conversion unquotes once more. *)
Definition url_file_path (path : string) : PosixPath := parse_path (unquote (unquote path)).
Definition artifact_candidate (artifact : ArtifactRecord) (mounted_artifact_root : option PosixPath) : result (option PosixPath) :=
  let uri := a_uri artifact in
  if starts_with "artifact://" uri then
    let? parsed := urlsplit_checked uri in
    match mounted_artifact_root with
    | None => Ok None
    | Some mounted =>
        if truthy (url_query parsed) || truthy (url_fragment parsed) then Ok None
        else
          let relative := text (drop_slashes (chars (unquote (default EmptyString (url_netloc parsed) +:+ url_path_only parsed)))) in
          Ok (if String.eqb relative (a_name artifact) then Some (path_join mounted (parse_path relative)) else None)
    end
  else if starts_with "file://" uri then
    let? parsed := urlsplit_checked uri in
    if bool_decide (default EmptyString (url_netloc parsed) ∈ [EmptyString; "localhost"])
    then Ok (Some (url_file_path (url_path_only parsed))) else Ok None
  else if in_text "://" uri then Ok None
  else Ok (Some (parse_path uri)).
Definition artifact_file_path (root : PosixPath) (artifact : ArtifactRecord) (mounted_artifact_root : option PosixPath)
    : result (option PosixPath) :=
  let? candidate := artifact_candidate artifact mounted_artifact_root in
  match candidate with
  | None => Ok None
  | Some candidate =>
      match fh_resolve (path_join root candidate), fh_resolve root with
      | Ok resolved, Ok root => Ok (if bool_decide (is_Some (relative_to resolved root)) then Some resolved else None)
      | Err e, _ | Ok _, Err e => if is_value_error e then Ok None else Err e
      end
  end.

(** ** Pruning the volume *)

Record ArtifactCleanupRequest := mkArtifactCleanup {
  ac_dry_run : bool; ac_project_id : option string; ac_max_age_seconds : option Z; ac_max_total_bytes : option Z }.
Definition is_file (v : Volume) (p : PosixPath) : bool := bool_decide (is_Some (v !! as_posix p)).
Definition file_size (v : Volume) (p : PosixPath) : Z := match v !! as_posix p with Some f => fi_size f | None => 0 end.
Definition file_mtime (v : Volume) (p : PosixPath) : Z := match v !! as_posix p with Some f => fi_mtime f | None => 0 end.
Definition total_size (v : Volume) (paths : list PosixPath) : Z := foldr (λ p n, file_size v p + n) 0 paths.
Definition older (v : Volume) (p q : PosixPath) : Prop := file_mtime v p ≤ file_mtime v q.
#[export] Instance older_dec v : RelDecision (older v).
Proof. intros p q. unfold older. apply _. Defined.
(** [sorted(set(paths), key=mtime)] *)
Definition by_mtime (v : Volume) (paths : list PosixPath) : list PosixPath :=
  merge_sort (older v) (fh_set_order (remove_dups paths)).
Fixpoint file_paths (root : PosixPath) (v : Volume) (artifacts : list ArtifactRecord) : result (list PosixPath) :=
  match artifacts with
  | [] => Ok []
  | artifact :: rest =>
      let? path := artifact_file_path root artifact None in
      let? paths := file_paths root v rest in
      Ok (match path with Some p => if is_file v p then p :: paths else paths | None => paths end)
  end.
Definition project_artifact_paths `{Sqlite} (root : PosixPath) (project_id : option string) (t : JobTables) (v : Volume)
    : result (list PosixPath) :=
  let? paths := file_paths root v (list_artifacts_for_project project_id t) in
  Ok (by_mtime v paths).
(** The oldest files, until the rest fits *)
Fixpoint over_size (v : Volume) (total max_total_bytes : Z) (paths : list PosixPath) : list PosixPath :=
  match paths with
  | [] => []
  | p :: rest => if total <=? max_total_bytes then [] else p :: over_size v (total - file_size v p) max_total_bytes rest
  end.
Definition too_old (v : Volume) (now max_age_seconds : Z) (paths : list PosixPath) : list PosixPath :=
  filter (λ p, 1000000 * max_age_seconds ≤ now - file_mtime v p) paths.
Definition select_artifact_cleanup_candidates (v : Volume) (now : Z) (paths : list PosixPath)
    (max_age_seconds max_total_bytes : option Z) : list PosixPath :=
  by_mtime v
    (match max_age_seconds with Some age => too_old v now age paths | None => [] end
     ++ match max_total_bytes with Some m => over_size v (total_size v paths) m paths | None => [] end).
(** [str(path.relative_to(root))] of each; [None] is the ValueError. *)
Definition relative_names (root : PosixPath) (paths : list PosixPath) : option (list string) :=
  mapM (λ p, as_posix <$> relative_to p root) paths.
Definition unlink_all (paths : list PosixPath) (v : Volume) : Volume := foldl (λ v p, delete (as_posix p) v) v paths.
Record ArtifactCleanup := mkCleanupResult { cr_dry_run : bool; cr_files : list string; cr_bytes : Z }.

Context `{Sqlite} `{Env}.
Context (state : AppState) (artifact_root : PosixPath).

(** [cleanup_artifact_files] of the store *)
Definition cleanup_files (request : ArtifactCleanupRequest) (project_id : option string) : M Filed ArtifactCleanup :=
  let* candidates := (λ w, (w, project_artifact_paths artifact_root project_id (w_jobs (a_world (fl_api w))) (fl_volume w))) in
  let* w := gets (λ w, w) in
  let selected := select_artifact_cleanup_candidates (fl_volume w) (fh_now (w_process (a_world (fl_api w)))) candidates
                    (ac_max_age_seconds request) (ac_max_total_bytes request) in
  let bytes_selected := total_size (fl_volume w) selected in
  do* (if ac_dry_run request then ret tt else modify (λ w, mkFiled (fl_api w) (unlink_all selected (fl_volume w)))) in
  match relative_names artifact_root selected with
  | Some files => ret (mkCleanupResult (ac_dry_run request) files bytes_selected)
  | None => raise (ValueError "is not in the subpath")
  end.
Definition cleanup_detail (r : ArtifactCleanup) : dict :=
  {[ "dry_run" := JBool (cr_dry_run r); "deleted" := JBool (negb (cr_dry_run r)); "root" := JStr (as_posix artifact_root);
     "files_selected" := JInt (Z.of_nat (length (cr_files r))); "bytes_selected" := JInt (cr_bytes r);
     "files" := JList (JStr <$> cr_files r) ]}.
(** The handler; the caller is an admin. *)
Definition cleanup_artifact_files (request : ArtifactCleanupRequest) (principal : Principal) : M Filed ArtifactCleanup :=
  let* project_id := zoom filed_lens (project_for_request state principal (ac_project_id request)) in
  let* r := cleanup_files request project_id in
  do* zoom filed_lens (audit_api (if ac_dry_run request then "artifacts.cleanup.preview" else "artifacts.cleanup") "success"
        (Some principal) project_id (Some "artifact_files") None (cleanup_detail r)) in
  do* (if ac_dry_run request then ret tt
       else zoom filed_lens (emit_api "admin.artifacts.cleaned" (cleanup_detail r) project_id None None None None None)) in
  ret r.
Definition download_artifact (run_id artifact_name : string) (principal : Principal)
    : M Filed (PosixPath * option string * string) :=
  let* run := zoom filed_lens (run_for_principal state run_id principal) in
  let* artifacts := gets (λ w, JobStore.list_run_artifacts run_id (w_jobs (a_world (fl_api w)))) in
  let* artifact := found_or_404 (head (filter (λ a, a_name a = artifact_name) artifacts)) ("artifact not found: " +:+ artifact_name) in
  let* path := lift_result (artifact_file_path artifact_root artifact (Some (path_join artifact_root (parse_path (r_job_id run))))) in
  let missing := HTTPException 404 ("artifact file not found: " +:+ artifact_name) in
  match path with
  | None => raise missing
  | Some path =>
      let* there := gets (λ w, is_file (fl_volume w) path) in
      if there then ret (path, a_media_type artifact, a_name artifact) else raise missing
  end.
End files.

(** ** Lemmas: the selection *)

Section selection.
Context `{FileHost} (v : Volume).

Lemma elem_by_mtime paths p : p ∈ by_mtime v paths ↔ p ∈ paths.
Proof. unfold by_mtime. by rewrite merge_sort_Permutation, fh_set_order_perm, elem_of_remove_dups. Qed.
Lemma over_size_split paths total m :
  total = total_size v paths →
  ∃ rest, paths = over_size v total m paths ++ rest ∧ total_size v rest ≤ Z.max 0 m
    ∧ ∀ p, p ∈ over_size v total m paths → ∃ before after, paths = before ++ p :: after ∧ m < total_size v (p :: after).
Proof.
  revert total. induction paths as [|p paths IH]; intros total ->; simpl.
  - exists []. split_and!; [done|simpl; lia|]. intros p Hp. by apply elem_of_nil in Hp.
  - destruct (Z.leb_spec (file_size v p + total_size v paths) m) as [Hle|Hgt].
    + exists (p :: paths). split_and!; [done|simpl; lia|]. intros q Hq. by apply elem_of_nil in Hq.
    + destruct (IH (file_size v p + total_size v paths - file_size v p)) as (rest & Hrest & Hfits & Hsel); [lia|].
      exists rest. split_and!; [by rewrite <- app_comm_cons, <- Hrest|done|]. intros q [->|Hq]%elem_of_cons.
      * exists [], paths. split; [done|simpl; lia].
      * destruct (Hsel q Hq) as (before & after & -> & Hlt). by exists (p :: before), after.
Qed.
Lemma total_size_sublist l k : (∀ p, 0 ≤ file_size v p) → sublist l k → total_size v l ≤ total_size v k.
Proof. intros Hs Hl. induction Hl as [|p l k Hl IH|p l k Hl IH]; simpl; [lia|lia|]. specialize (Hs p). lia. Qed.
Lemma total_size_filter_app P `{!∀ p, Decision (P p)} l k :
  (∀ p, p ∈ l → ¬ P p) → total_size v (filter P (l ++ k)) = total_size v (filter P k).
Proof.
  intros Hl. rewrite filter_app. induction l as [|p l IH]; [done|].
  rewrite filter_cons_False by (apply Hl; left). apply IH. intros q Hq. apply Hl. by right.
Qed.

Lemma selected_among now paths max_age max_total p :
  p ∈ select_artifact_cleanup_candidates v now paths max_age max_total → p ∈ paths.
Proof.
  unfold select_artifact_cleanup_candidates. rewrite elem_by_mtime, elem_of_app. intros [Hp|Hp].
  - destruct max_age as [age|]; [by apply list_elem_of_filter in Hp as [_ Hp]|by apply elem_of_nil in Hp].
  - destruct max_total as [m|]; [|by apply elem_of_nil in Hp].
    destruct (over_size_split paths _ m eq_refl) as (rest & Hrest & _). rewrite Hrest. apply elem_of_app. by left.
Qed.

(** Pruning keeps what the policy allows and takes no more.  Of the files of a
    project, oldest first: every file that has reached the age limit is selected; what is
    left fits the size limit; and a file below the age limit is selected only if it and
    the files after it do not fit. *)
Theorem cleanup_selects (now : Z) (paths : list PosixPath) (max_age max_total : option Z) :
  (∀ p, 0 ≤ file_size v p) →
  let selected := select_artifact_cleanup_candidates v now paths max_age max_total in
  (∀ p, p ∈ selected → p ∈ paths)
  ∧ (∀ age p, max_age = Some age → p ∈ paths → 1000000 * age ≤ now - file_mtime v p → p ∈ selected)
  ∧ (∀ m, max_total = Some m → 0 ≤ m → total_size v (filter (λ p, p ∉ selected) paths) ≤ m)
  ∧ (∀ p, p ∈ selected → (∀ age, max_age = Some age → now - file_mtime v p < 1000000 * age) →
      ∃ m before after, max_total = Some m ∧ paths = before ++ p :: after ∧ m < total_size v (p :: after)).
Proof.
  intros Hsize selected.
  set (aged := match max_age with Some age => too_old v now age paths | None => [] end).
  set (large := match max_total with Some m => over_size v (total_size v paths) m paths | None => [] end).
  assert (Hin : ∀ p, p ∈ selected ↔ p ∈ aged ∨ p ∈ large) by (intros p; unfold selected, select_artifact_cleanup_candidates; by rewrite elem_by_mtime, elem_of_app).
  assert (Haged : ∀ p, p ∈ aged ↔ ∃ age, max_age = Some age ∧ p ∈ paths ∧ 1000000 * age ≤ now - file_mtime v p).
  { intros p. subst aged. destruct max_age as [age|].
    - unfold too_old. rewrite list_elem_of_filter. split; [intros [? ?]; by exists age|by intros (? & [= <-] & ? & ?)].
    - split; [by intros ?%elem_of_nil|by intros (? & [=] & _)]. }
  split_and!.
  - intros p. apply selected_among.
  - intros age p -> Hp Hold. apply Hin. left. apply Haged. by exists age.
  - intros m -> Hm. subst large. destruct (over_size_split paths _ m eq_refl) as (rest & Hrest & Hfits & _).
    transitivity (total_size v rest); [|lia]. rewrite Hrest at 1. rewrite total_size_filter_app.
    + apply total_size_sublist; [done|]. apply sublist_filter.
    + intros p Hp Hn. apply Hn, Hin. by right.
  - intros p [Hp|Hp]%Hin Hyoung; [apply Haged in Hp as (age & Ha & _ & Hold); specialize (Hyoung age Ha); lia|].
    subst large. destruct max_total as [m|]; [|by apply elem_of_nil in Hp].
    destruct (over_size_split paths _ m eq_refl) as (rest & _ & _ & Hsel). destruct (Hsel p Hp) as (before & after & Heq & Hlt).
    by exists m, before, after.
Qed.
End selection.

Section theorems.
Context `{FileHost} `{Sqlite} `{Env}.
Context (state : AppState) (artifact_root : PosixPath).

Lemma artifact_file_path_inside root artifact mounted path :
  artifact_file_path root artifact mounted = Ok (Some path) →
  ∃ root', fh_resolve root = Ok root' ∧ is_Some (relative_to path root').
Proof.
  unfold artifact_file_path. destruct (artifact_candidate artifact mounted) as [[candidate|]|e]; simpl; [|done..].
  destruct (fh_resolve (path_join root candidate)) as [resolved|e]; destruct (fh_resolve root) as [root'|e'];
    try (destruct (is_value_error _); done).
  case_bool_decide as Hin; [|done]. intros [= <-]. by exists root'.
Qed.
Lemma file_paths_in root v artifacts paths :
  file_paths root v artifacts = Ok paths →
  ∀ p, p ∈ paths → ∃ artifact, artifact ∈ artifacts ∧ artifact_file_path root artifact None = Ok (Some p).
Proof.
  revert paths. induction artifacts as [|a l IH]; intros paths; simpl; [intros [= <-] p Hp; by apply elem_of_nil in Hp|].
  destruct (artifact_file_path root a None) as [path|e] eqn:Hpath; simpl; [|done].
  destruct (file_paths root v l) as [rest|e]; simpl; [|done]. intros [= <-] p Hp.
  assert (p ∈ rest ∨ path = Some p) as [Hr| ->].
  { destruct path as [q|]; [|by left]. destruct (is_file v q); [|by left]. apply elem_of_cons in Hp as [->|Hp]; auto. }
  - destruct (IH rest eq_refl p Hr) as (b & Hb & Hbp). exists b. split; [by right|done].
  - exists a. split; [by left|done].
Qed.
Lemma lookup_unlink_all paths v k f :
  unlink_all paths v !! k = Some f ↔ v !! k = Some f ∧ ∀ p, p ∈ paths → as_posix p ≠ k.
Proof.
  unfold unlink_all. revert v. induction paths as [|p paths IH]; intros v; simpl.
  - split; [intros Hf; split; [done|intros p Hp; by apply elem_of_nil in Hp]|by intros [? _]].
  - rewrite IH. destruct (decide (as_posix p = k)) as [<-|Hne].
    + rewrite lookup_delete_eq. split; [by intros [? _]|]. intros [_ Hp]. by destruct (Hp p (list_elem_of_here _ _)).
    + rewrite lookup_delete_ne by done. split.
      * intros [Hf Hp]. split; [done|]. intros q [->|Hq]%elem_of_cons; [done|auto].
      * intros [Hf Hp]. split; [done|]. intros q Hq. apply Hp. by right.
Qed.
(** What [cleanup_files] does to the volume *)
Lemma cleanup_files_volume request project_id w :
  let w' := (cleanup_files artifact_root request project_id w).1 in
  fl_volume w' = fl_volume w
  ∨ ac_dry_run request = false ∧ ∃ candidates,
      project_artifact_paths artifact_root project_id (w_jobs (a_world (fl_api w))) (fl_volume w) = Ok candidates
      ∧ fl_volume w' = unlink_all (select_artifact_cleanup_candidates (fl_volume w) (fh_now (w_process (a_world (fl_api w)))) candidates
                                     (ac_max_age_seconds request) (ac_max_total_bytes request)) (fl_volume w).
Proof.
  unfold cleanup_files, bind, gets, modify, ret, raise. cbn beta.
  destruct (project_artifact_paths _ _ _ _) as [candidates|e]; [|by left]. cbn beta iota.
  destruct (ac_dry_run request); [left|right; split; [done|]; exists candidates; split; [done|]]; cbn beta iota;
    match goal with |- context [relative_names ?r ?l] => by destruct (relative_names r l) end.
Qed.

#[export] Instance volume_api {A} (m : M ApiWorld A) : Preserves fl_volume (zoom filed_lens m).
Proof. intros w. by rewrite zoom_eq. Qed.
(** ... and the handler, which first checks the caller's access to the project *)
Lemma cleanup_volume request principal w :
  let project := requested_project state principal (ac_project_id request) in
  let v' := fl_volume (cleanup_artifact_files state artifact_root request principal w).1 in
  v' = fl_volume w
  ∨ require_project_access principal project = Ok tt ∧ v' = fl_volume (cleanup_files artifact_root request project w).1.
Proof.
  intros project v'. subst v'. unfold cleanup_artifact_files.
  destruct (zoom filed_lens (project_for_request state principal (ac_project_id request)) w) as [w1 [q|e]] eqn:Hp;
    [rewrite (bind_step _ _ _ _ _ Hp)|rewrite (bind_stop _ _ _ _ _ Hp)].
  2:{ left. pose proof (volume_api (project_for_request state principal (ac_project_id request)) w) as E. by rewrite Hp in E. }
  assert (q = project ∧ w1 = w ∧ require_project_access principal project = Ok tt) as (-> & -> & Hacc).
  { rewrite zoom_eq in Hp. unfold project_for_request in Hp. fold project in Hp.
    destruct (require_project_access principal project) as [[]|e]; [injection Hp as <- <-; split_and!; try done; by destruct w|].
    destruct e; try discriminate Hp. apply (f_equal snd) in Hp. unfold bind in Hp. cbn [snd] in Hp.
    by destruct (audit_api _ _ _ _ _ _ _ _) as [a [[]|e]]. }
  match goal with |- context [bind ?m ?k w] => assert (Hrest : fl_volume (bind m k w).1 = fl_volume (m w).1) end.
  { unfold bind at 1. destruct (cleanup_files _ _ _ w) as [w2 [r|e]]; [|done]. cbn beta.
    match goal with |- fl_volume (?m w2).1 = _ => assert (Hm : Preserves fl_volume m) end; [solve_preserves|].
    apply Hm. }
  right. split; [done|exact Hrest].
Qed.

(** Pruning touches nothing but the caller's artifacts on the volume.  Whatever
    [cleanup_artifact_files] answers, no file appears or changes, and one that is gone was
    asked to be deleted, not previewed, by a principal with access to the project, is
    registered as an artifact of that project, and lies under the artifact root. *)
Theorem cleanup_confined (request : ArtifactCleanupRequest) (principal : Principal) (w : Filed) :
  let project := requested_project state principal (ac_project_id request) in
  let w' := (cleanup_artifact_files state artifact_root request principal w).1 in
  (∀ k f, fl_volume w' !! k = Some f → fl_volume w !! k = Some f)
  ∧ ∀ k, is_Some (fl_volume w !! k) → fl_volume w' !! k = None →
      ac_dry_run request = false ∧ require_project_access principal project = Ok tt
      ∧ ∃ artifact path root', artifact ∈ list_artifacts_for_project project (w_jobs (a_world (fl_api w)))
          ∧ artifact_file_path artifact_root artifact None = Ok (Some path) ∧ as_posix path = k
          ∧ fh_resolve artifact_root = Ok root' ∧ is_Some (relative_to path root').
Proof.
  intros project w'. pose proof (cleanup_volume request principal w) as Hv. fold project in Hv. change (fl_volume _) with (fl_volume w') in Hv at 1.
  assert (fl_volume w' = fl_volume w ∨ ac_dry_run request = false ∧ require_project_access principal project = Ok tt ∧ ∃ candidates,
      project_artifact_paths artifact_root project (w_jobs (a_world (fl_api w))) (fl_volume w) = Ok candidates
      ∧ fl_volume w' = unlink_all (select_artifact_cleanup_candidates (fl_volume w) (fh_now (w_process (a_world (fl_api w)))) candidates
           (ac_max_age_seconds request) (ac_max_total_bytes request)) (fl_volume w))
    as [->|(Hdry & Hacc & candidates & Hcand & ->)]; [|split; [done|intros k [f Hf] Hn; congruence]|].
  { destruct Hv as [Hv|[Hacc Hv]]; [by left|]. rewrite Hv. destruct (cleanup_files_volume request project w) as [E|(Hdry & Hrun)]; [by left|].
    right. split; [done|]. split; [done|exact Hrun]. }
  split; [intros k f Hf; by apply lookup_unlink_all in Hf as [Hf _]|]. intros k [f Hf] Hgone. split_and!; [done..|].
  set (selected := select_artifact_cleanup_candidates _ _ _ _ _) in Hgone.
  assert (∃ p, p ∈ selected ∧ as_posix p = k) as (p & Hpsel & Hpk).
  { destruct (decide (Exists (λ p, as_posix p = k) selected)) as [Hex|Hno]; [by apply Exists_exists in Hex|].
    assert (unlink_all selected (fl_volume w) !! k = Some f) as Hs; [|congruence]. apply lookup_unlink_all. split; [done|].
    intros p Hin Heq. apply Hno, Exists_exists. by exists p. }
  assert (Hpc : p ∈ candidates) by (revert Hpsel; apply selected_among).
  unfold project_artifact_paths in Hcand. destruct (file_paths _ _ _) as [paths|e] eqn:Hfiles; [|discriminate Hcand].
  injection Hcand as <-. apply elem_by_mtime in Hpc. destruct (file_paths_in _ _ _ _ Hfiles p Hpc) as (artifact & Hin & Hpath).
  destruct (artifact_file_path_inside _ _ _ _ Hpath) as (root' & Hroot & Hrel). by exists artifact, p, root'.
Qed.
End theorems.

(** ** Concrete runs *)

Definition plain_files : FileHost := {|
  fh_resolve := Ok; fh_set_order := λ l, l; fh_set_order_perm := λ l, Permutation_refl l; fh_now := λ _, 100000000 |}.
Definition data_root : PosixPath := parse_path "/data".
Definition sample_volume : Volume :=
  {[ "/data/old" := mkFileInfo 10 0; "/data/mid" := mkFileInfo 20 50000000; "/data/new" := mkFileInfo 30 90000000 ]}.
Definition sample_paths : list PosixPath := parse_path <$> ["/data/old"; "/data/mid"; "/data/new"].

Example artifact_paths :
  let path uri := @artifact_file_path plain_files data_root (mkArtifact "a.txt" uri None) (Some (parse_path "/data/job-1")) in
  path "file:///data/x%20y" = Ok (Some (parse_path "/data/x y")) ∧ path "file:///etc/passwd" = Ok None
  ∧ path "report.txt" = Ok (Some (parse_path "/data/report.txt")) ∧ path "s3://bucket/x" = Ok None
  ∧ path "artifact://a.txt" = Ok (Some (parse_path "/data/job-1/a.txt")) ∧ path "artifact://other/a.txt" = Ok None
  ∧ path "artifact://a.txt?v=1" = Ok None.
Proof. split_and!; vm_compute; reflexivity. Qed.
(** An escaped percent sign is unquoted twice: the file [50%41] is looked for as [50A].
    And a bracket in the URI raises before anything is resolved. *)
Example artifact_path_errors :
  let path uri := @artifact_file_path plain_files data_root (mkArtifact "a" uri None) None in
  path "file:///data/50%2541" = Ok (Some (parse_path "/data/50A")) ∧ path "file://[/a" = Err (ValueError "Invalid IPv6 URL").
Proof. split; vm_compute; reflexivity. Qed.
Example selections :
  @select_artifact_cleanup_candidates plain_files sample_volume 100000000 sample_paths (Some 60) None = take 1 sample_paths
  ∧ @select_artifact_cleanup_candidates plain_files sample_volume 100000000 sample_paths None (Some 35) = take 2 sample_paths
  ∧ @select_artifact_cleanup_candidates plain_files sample_volume 100000000 sample_paths None (Some 60) = [].
Proof. split_and!; vm_compute; reflexivity. Qed.
Lemma cleanup_selects_witness :
  let selected := @select_artifact_cleanup_candidates plain_files sample_volume 100000000 sample_paths None (Some 35) in
  total_size sample_volume (filter (λ p, p ∉ selected) sample_paths) ≤ 35.
Proof.
  intros selected. destruct (@cleanup_selects plain_files sample_volume 100000000 sample_paths None (Some 35)) as (_ & _ & Hfits & _).
  - intros p. unfold file_size, sample_volume. destruct (_ !! as_posix p) as [f|] eqn:Hf; [|lia].
    repeat (apply lookup_insert_Some in Hf as [[_ <-]|[_ Hf]]; [simpl; lia|]). apply lookup_singleton_Some in Hf as [_ <-]. simpl. lia.
  - apply Hfits; [done|lia].
Defined.
