(* ===== verification/ApiAdmin.v ===== *)
(** * The operators' handlers ([src/src/goblin_king/api.py], [api_state.py], [api_runtime.py], [termination.py], [deployment.py])

    Reloading the discovered goblins, image promotions and deployment records, and the
    controls that kill what a job or run left running.

    The state is the API's with the promotions, the deployment records and the discovery
    state.  A promotion's row holds its status as text, as the column does.  Loading the
    discovery sources, running a command, and Docker and Kubernetes as far as killing goes
    are class parameters.  The directory of the image map is fixed; times in JSON are
    numbers, as in the rest of the library. *)

From Stdlib Require Import Ascii.
From S2P Require Import Prelude CausalTime Contracts Text Paths PyValues ResourcePolicies Containers EventStore JobStore JobLifecycle RecordStore Auth Registry World Validation Scheduler Attempts Gate Project NotebookServices Api ApiJobs ApiServices ApiTenancy.

(** ** State *)

Record DiscoverySources := mkSources {
  ds_registry_files : list string; ds_entry_points : bool; ds_image_map : string; ds_project_kinds : list string;
  ds_default_resources : dict }.
Record Discovery := mkDiscovery {
  dc_registry : Registry; dc_workers : WorkerImageMap; dc_version : Z; dc_last_success : utc; dc_last_failure : option utc;
  dc_last_error : option string; dc_sources : DiscoverySources }.
Record PromotionRow := mkPromotionRow { pm_record : ImagePromotionRecord; pm_status : string }.
Record Admin := mkAdmin {
  ad_api : ApiWorld; ad_promotions : table PromotionRow; ad_deployments : table DeploymentRecord; ad_discovery : Discovery }.
Definition admin_lens : lens Admin ApiWorld := Lens ad_api (λ a w, mkAdmin a (ad_promotions w) (ad_deployments w) (ad_discovery w)).
Definition promotions_lens : lens Admin (table PromotionRow) :=
  Lens ad_promotions (λ t w, mkAdmin (ad_api w) t (ad_deployments w) (ad_discovery w)).
Definition deployments_lens : lens Admin (table DeploymentRecord) :=
  Lens ad_deployments (λ t w, mkAdmin (ad_api w) (ad_promotions w) t (ad_discovery w)).
Definition discovery_lens : lens Admin Discovery := Lens ad_discovery (λ d w, mkAdmin (ad_api w) (ad_promotions w) (ad_deployments w) d).

#[export] Instance DeploymentRecordStatus_eq : EqDecision DeploymentRecordStatus.
Proof. solve_decision. Defined.

(** [_load_discovery_state] without its effects on the active state: everything is read
    before anything is stored. *)
Class DiscoveryLoader := { ds_load : World → result (Registry * WorkerImageMap * DiscoverySources) }.
(** Docker through its command line, the cluster's Jobs by label, and the namespace file *)
Class TerminationHost (S : Type) := {
  th_run : list string → M S ProcessOutput;
  th_load_config : M S unit;
  th_list_jobs : string → string → M S (list string);
  th_delete_job : string → string → M S unit;
  th_namespace_file : S → result string;
  th_is_os_error : exn → bool
}.

Definition promotion_status_str (s : ImagePromotionStatus) : string :=
  match s with IpPlanned => "planned" | IpBuilt => "built" | IpPushed => "pushed" | IpPromoted => "promoted" | IpFailed => "failed" end.
Definition deployment_status_str (s : DeploymentRecordStatus) : string :=
  match s with DpPlanned => "planned" | DpRendered => "rendered" | DpDryRun => "dry_run" | DpApplied => "applied" | DpFailed => "failed" end.
Definition parse_promotion_status (s : string) : option ImagePromotionStatus :=
  head (filter (λ x, promotion_status_str x = s) [IpPlanned; IpBuilt; IpPushed; IpPromoted; IpFailed]).
(** [_row_to_image_promotion]: the record validates its status. *)
Definition _row_to_image_promotion (row : PromotionRow) : result ImagePromotionRecord :=
  match parse_promotion_status (pm_status row) with
  | None => Err (ValidationError "status")
  | Some status =>
      let p := pm_record row in
      Ok (mkImagePromotion (ip_id p) (ip_kind p) (ip_source_image p) (ip_target_image p) status (ip_actor p) (ip_digest p)
            (ip_created_at p) (ip_updated_at p) (ip_detail p))
  end.
Definition save_image_promotion (p : ImagePromotionRecord) : M (table PromotionRow) unit :=
  insert_row "image_promotions.id" (ip_id p) (mkPromotionRow p (promotion_status_str (ip_status p))).
Definition get_image_promotion (promotion_id : string) : M (table PromotionRow) (option ImagePromotionRecord) :=
  let* row := gets (λ t, t !! promotion_id) in
  match row with None => ret None | Some row => let* p := lift_result (_row_to_image_promotion row) in ret (Some p) end.
(** The row is written before it is read back. *)
Definition update_image_promotion (promotion_id status : string) (updated_at : utc) (digest : option string) (detail : option dict)
    : M (table PromotionRow) (option ImagePromotionRecord) :=
  do* update_row promotion_id (λ _, true) (λ row,
    let p := pm_record row in
    mkPromotionRow (mkImagePromotion (ip_id p) (ip_kind p) (ip_source_image p) (ip_target_image p) (ip_status p) (ip_actor p)
      (match digest with Some _ => digest | None => ip_digest p end) (ip_created_at p) updated_at (default (ip_detail p) detail))
      status) in
  get_image_promotion promotion_id.
Fixpoint promotion_records (l : list PromotionRow) : result (list ImagePromotionRecord) :=
  match l with
  | [] => Ok []
  | row :: l' => let? p := _row_to_image_promotion row in let? ps := promotion_records l' in Ok (p :: ps)
  end.
Definition list_image_promotions `{Sqlite} (limit : Z) (t : table PromotionRow) : result (list ImagePromotionRecord) :=
  promotion_records (sql_page 0 limit (order_by (le_desc (λ row, ip_created_at (pm_record row))) (rows t))).

(** ** Commands *)

Definition helm_template_command (chart release : string) (namespace values : option string) : list string :=
  ["helm"; "template"; release; chart]
  ++ (match namespace with Some n => if truthy n then ["--namespace"; n] else [] | None => [] end)
  ++ (match values with Some v => if truthy v then ["-f"; v] else [] | None => [] end).
Definition image_push_command (image : string) : list string := ["docker"; "push"; image].
Definition run_command {S} `{!TerminationHost S} (command : list string) : M S (Z * string) :=
  let* completed := th_run command in
  ret (po_code completed, strip (py_join newline (filter (λ p, truthy p = true) [po_stdout completed; po_stderr completed]))).

(** ** Termination ([termination.py]) *)

Inductive RuntimeTarget := TargetDocker | TargetKubernetes | TargetBoth.
Definition target_str (t : RuntimeTarget) : string :=
  match t with TargetDocker => "docker" | TargetKubernetes => "kubernetes" | TargetBoth => "both" end.
Record TerminationResult := mkTermination { te_killed : list string; te_errors : list string }.
Definition killed (id : string) (r : TerminationResult) : TerminationResult := mkTermination (te_killed r ++ [id]) (te_errors r).
Definition failed (error : string) (r : TerminationResult) : TerminationResult := mkTermination (te_killed r) (te_errors r ++ [error]).

Definition _label_filters (job_id run_id : option string) : list string :=
  ["goblin-king.worker=true"]
  ++ (match job_id with Some j => if truthy j then ["goblin-king.job-id=" +:+ j] else [] | None => [] end)
  ++ (match run_id with Some r => if truthy r then ["goblin-king.run-id=" +:+ r] else [] | None => [] end).

Section termination.
Context {S : Type} `{!TerminationHost S}.

Definition ps_command (labels : list string) : list string :=
  ["docker"; "ps"; "-q"] ++ concat ((λ label, ["--filter"; "label=" +:+ label]) <$> labels).
Definition kill_command (container_id : string) : list string := ["docker"; "kill"; container_id].
Definition kill_container (r : TerminationResult) (container_id : string) : M S TerminationResult :=
  let* output := th_run (kill_command container_id) in
  ret (if po_code output =? 0 then killed ("docker:" +:+ container_id) r
       else failed (text_or (Some (strip (po_stderr output))) ("docker kill failed: " +:+ container_id)) r).
Definition listed_ids (stdout : string) : list string := filter (λ l, truthy l = true) (strip <$> splitlines stdout).
Definition _terminate_docker (r : TerminationResult) (job_id run_id : option string) : M S TerminationResult :=
  let* listed := th_run (ps_command (_label_filters job_id run_id)) in
  if negb (po_code listed =? 0) then ret (failed (text_or (Some (strip (po_stderr listed))) "docker ps failed") r)
  else foldM kill_container r (listed_ids (po_stdout listed)).
Definition _current_namespace : M S string := λ w,
  match th_namespace_file w with
  | Ok text => (w, Ok (text_or (Some (strip text)) "default"))
  | Err e => (w, if th_is_os_error e then Ok "default" else Err e)
  end.
(** The Jobs one by one: what was deleted before an error stays reported. *)
Fixpoint delete_jobs (namespace : string) (jobs : list string) (r : TerminationResult) : M S TerminationResult :=
  match jobs with
  | [] => ret r
  | name :: jobs' => λ w,
      match th_delete_job namespace name w with
      | (w', Ok _) => delete_jobs namespace jobs' (killed ("kubernetes:" +:+ namespace +:+ "/" +:+ name) r) w'
      | (w', Err e) => (w', Ok (failed ("kubernetes termination unavailable: " +:+ exn_str e) r))
      end
  end.
Definition _terminate_kubernetes (r : TerminationResult) (job_id run_id namespace : option string) : M S TerminationResult :=
  let* listed := try_catch
    (do* th_load_config in
     let* selected := (match namespace with
                       | Some n => if truthy n then ret n else _current_namespace
                       | None => _current_namespace
                       end) in
     let* jobs := th_list_jobs selected (py_join "," (_label_filters job_id run_id)) in
     ret (inl (selected, jobs)))
    (λ e, ret (inr e)) in
  match listed with
  | inl (selected, jobs) => delete_jobs selected jobs r
  | inr e => ret (failed ("kubernetes termination unavailable: " +:+ exn_str e) r)
  end.
Definition terminate_runtime (job_id run_id : option string) (runtime : RuntimeTarget) (namespace : option string)
    : M S TerminationResult :=
  let* r := (match runtime with
             | TargetDocker | TargetBoth => _terminate_docker (mkTermination [] []) job_id run_id
             | TargetKubernetes => ret (mkTermination [] [])
             end) in
  match runtime with
  | TargetKubernetes | TargetBoth => _terminate_kubernetes r job_id run_id namespace
  | TargetDocker => ret r
  end.
End termination.

(** ** Discovery ([AppState]) *)

Definition is_discovery_error (e : exn) : bool :=
  match e with
  | RegistryError _ | WorkerConfigError _ => true
  | OtherValueError name _ | OtherException name _ => String.eqb name "ProjectSettingsError"
  | _ => false
  end.
Record DiscoveryStatus := mkStatus {
  dt_active : Z; dt_mapped : Z; dt_unmapped : list string; dt_version : Z; dt_success : utc; dt_failure : option utc;
  dt_error : option string }.
Definition discovery_status (d : Discovery) : DiscoveryStatus :=
  let goblin_kinds := gd_kind <$> registry_list (dc_registry d) in
  let mapped kind := bool_decide (is_Some (dc_workers d !! kind)) in
  mkStatus (Z.of_nat (length goblin_kinds)) (Z.of_nat (length (filter (λ kind, mapped kind = true) goblin_kinds)))
    (sorted_strings (filter (λ kind, mapped kind = false) goblin_kinds))
    (dc_version d) (dc_last_success d) (dc_last_failure d) (dc_last_error d).
Definition status_fields (s : DiscoveryStatus) : list (string * Json) :=
  [("active_goblin_count", JInt (dt_active s)); ("worker_mapped_count", JInt (dt_mapped s));
   ("worker_unmapped", JList (JStr <$> dt_unmapped s)); ("discovery_version", JInt (dt_version s));
   ("last_successful_reload_at", JInt (dt_success s)); ("last_failed_reload_at", default JNull (JInt <$> dt_failure s));
   ("last_error", JOptStr (dt_error s))].

(** [discovery_sources] *)
Record DiscoverySourcesView := mkSourcesView {
  dv_registry_files : list string; dv_entry_points : bool; dv_image_map : string; dv_kinds : list string;
  dv_mapped : list string; dv_unmapped : list string; dv_rejected : list string; dv_duplicates : list string }.
Definition discovery_sources (d : Discovery) : DiscoverySourcesView :=
  let worker_kinds := sorted_strings (map_to_list (dc_workers d)).*1 in
  let goblin_kinds := gd_kind <$> registry_list (dc_registry d) in
  let error := match dc_last_error d with Some e => [e] | None => [] end in
  mkSourcesView (ds_registry_files (dc_sources d)) (ds_entry_points (dc_sources d)) (ds_image_map (dc_sources d)) goblin_kinds worker_kinds
    (sorted_strings (filter (λ kind, kind ∉ worker_kinds) goblin_kinds))
    (filter (λ e, truthy e = true) error) (filter (λ e, in_text "duplicate goblin kind" e = true) error).

Section handlers.
Context `{Sqlite} `{Env} `{DiscoveryLoader} `{!TerminationHost World}.
Context (state : AppState) (image_map_root : PosixPath) (resolve : PosixPath → PosixPath).

Definition api {A} (m : M ApiWorld A) : M Admin A := zoom admin_lens m.
Definition on_host {A} (m : M World A) : M Admin A := api (zoom world_lens m).

Definition reload_discovery : M Admin DiscoveryStatus :=
  let* loaded := gets (λ w, ds_load (a_world (ad_api w))) in
  match loaded with
  | Ok (registry, workers, sources) =>
      let* now := api now_api in
      do* zoom discovery_lens (modify (λ d, mkDiscovery registry workers (dc_version d + 1) now (dc_last_failure d) None sources)) in
      gets (λ w, discovery_status (ad_discovery w))
  | Err e =>
      if is_discovery_error e then
        let* now := api now_api in
        do* zoom discovery_lens (modify (λ d, mkDiscovery (dc_registry d) (dc_workers d) (dc_version d) (dc_last_success d)
              (Some now) (Some (exn_str e)) (dc_sources d))) in
        raise e
      else raise e
  end.
Definition emit_admin (event_type : string) (payload : dict) : M ApiWorld unit :=
  emit_api event_type payload None None None None None None.
Definition audit_admin (action outcome : string) (principal : Principal) (resource_type : string) (resource_id : option string)
    (detail : dict) : M ApiWorld unit :=
  audit_api action outcome (Some principal) None (Some resource_type) resource_id detail.
(** [reload_discovery] of the API *)
Definition reload_discovery_request (principal : Principal) : M Admin DiscoveryStatus :=
  let* status := try_catch reload_discovery (λ e,
    if is_discovery_error e then
      do* api (audit_admin "discovery.reload" "failed" principal "discovery" None {[ "error" := JStr (exn_str e) ]}) in
      raise (HTTPException 400 (exn_str e))
    else raise e) in
  let detail : dict := {[ "active_goblin_count" := JInt (dt_active status); "discovery_version" := JInt (dt_version status) ]} in
  do* api (emit_admin "admin.discovery.reloaded" detail) in
  do* api (audit_admin "discovery.reload" "success" principal "discovery" None detail) in
  ret status.

(** ** Promotions and deployments *)

Definition json_lines (commands : list (list string)) : Json := JList ((λ c, JList (JStr <$> c)) <$> commands).
Definition promotion_model (p : ImagePromotionRecord) : dict :=
  {[ "id" := JStr (ip_id p); "kind" := JStr (ip_kind p); "source_image" := JStr (ip_source_image p);
     "target_image" := JStr (ip_target_image p); "status" := JStr (promotion_status_str (ip_status p)); "actor" := JStr (ip_actor p);
     "digest" := JOptStr (ip_digest p); "created_at" := JInt (ip_created_at p); "updated_at" := JInt (ip_updated_at p);
     "detail" := JObj (map_to_list (ip_detail p)) ]}.
Definition deployment_model (d : DeploymentRecord) : dict :=
  {[ "id" := JStr (dr_id d); "name" := JStr (dr_name d); "action" := JStr (dr_action d);
     "status" := JStr (deployment_status_str (dr_status d)); "actor" := JStr (dr_actor d);
     "command" := JList (JStr <$> dr_command d); "output" := JOptStr (dr_output d); "created_at" := JInt (dr_created_at d);
     "updated_at" := JInt (dr_updated_at d); "detail" := JObj (map_to_list (dr_detail d)) ]}.
(** [WorkerImageMap.resolved_context] *)
Definition resolved_context (worker : WorkerImageDefinition) : PosixPath :=
  let context := parse_path (wi_context worker) in
  if is_absolute context then context else resolve (path_join image_map_root context).

Record ImagePromotionCreateRequest := mkPromotionRequest {
  pq_kind : string; pq_target_image : string; pq_source_image : option string; pq_actor : string; pq_build : bool;
  pq_push : bool; pq_dry_run : bool }.
Definition promotion_commands (request : ImagePromotionCreateRequest) (worker : WorkerImageDefinition) (source_image : string)
    : list (list string) :=
  let context := resolved_context worker in
  (if pq_build request
   then [["docker"; "build"; "-f"; as_posix (path_join context (parse_path (wi_dockerfile worker))); "-t"; source_image; as_posix context]]
   else [])
  ++ (if pq_push request then [image_push_command (pq_target_image request)] else []).
Definition plan_image_promotion (request : ImagePromotionCreateRequest) (principal : Principal) : M Admin ImagePromotionRecord :=
  let* workers := gets (λ w, dc_workers (ad_discovery w)) in
  match worker_get workers (pq_kind request) with
  | Err e => raise (HTTPException 404 (exn_str e))
  | Ok worker =>
      let* now := api now_api in
      let source_image := text_or (pq_source_image request) (wi_image worker) in
      let detail : dict := {[ "dry_run" := JBool (pq_dry_run request);
        "commands" := json_lines (promotion_commands request worker source_image);
        "worker_context" := JStr (as_posix (resolved_context worker)); "dockerfile" := JStr (wi_dockerfile worker) ]} in
      let* id := api uuid_api in
      let promotion := mkImagePromotion id (pq_kind request) source_image (pq_target_image request) IpPlanned
                         (pq_actor request) None now now detail in
      do* zoom promotions_lens (save_image_promotion promotion) in
      do* api (emit_admin "admin.image_promotion.planned" (promotion_model promotion)) in
      do* api (audit_admin "image_promotion.planned" "success" principal "image_promotion" (Some id) detail) in
      ret promotion
  end.
Definition mark_image_promotion (promotion_id status : string) (digest : option string) (detail : dict) (principal : Principal)
    : M Admin ImagePromotionRecord :=
  let* now := api now_api in
  let* promotion := zoom promotions_lens (update_image_promotion promotion_id status now digest (Some detail)) in
  let* promotion := found_or_404 promotion "image promotion not found" in
  let status := promotion_status_str (ip_status promotion) in
  do* api (emit_admin ("admin.image_promotion." +:+ status) (promotion_model promotion)) in
  do* api (audit_admin "image_promotion.marked" "success" principal "image_promotion" (Some (ip_id promotion))
        {[ "status" := JStr status; "digest" := JOptStr (ip_digest promotion) ]}) in
  ret promotion.

Definition recorded_deployment (name action actor : string) (status : DeploymentRecordStatus) (command : list string)
    (output : option string) (detail : dict) (event_type audit_action : string) (principal : Principal) : M Admin DeploymentRecord :=
  let* now := api now_api in
  let* id := api uuid_api in
  let record := mkDeployment id name action status actor command output now now detail in
  do* zoom deployments_lens (save_deployment_record record) in
  do* api (emit_admin event_type (deployment_model record)) in
  do* api (audit_admin audit_action (if bool_decide (status = DpFailed) then "failed" else "success") principal "deployment" (Some id) detail) in
  ret record.
Record HelmTemplateRequest := mkHelmRequest {
  hq_name : string; hq_release : string; hq_chart : string; hq_namespace : option string; hq_values : option string;
  hq_actor : string; hq_execute : bool }.
Definition record_helm_template (request : HelmTemplateRequest) (principal : Principal) : M Admin DeploymentRecord :=
  let command := helm_template_command (hq_chart request) (hq_release request) (hq_namespace request) (hq_values request) in
  let* (status, output, detail) :=
    (if hq_execute request then
       let* (code, output) := on_host (run_command command) in
       ret (if code =? 0 then DpRendered else DpFailed, Some output,
            {[ "execute" := JBool true; "exit_code" := JInt code ]} : dict)
     else ret (DpPlanned, None, {[ "execute" := JBool false ]} : dict)) in
  recorded_deployment (hq_name request) "helm-template" (hq_actor request) status command output detail
    "admin.deployment.helm_template" "deployment.helm_template" principal.
Definition record_discovery_reload_deployment (principal : Principal) : M Admin DeploymentRecord :=
  let* outcome := try_catch (let* status := reload_discovery in ret (inl status))
    (λ e, if is_discovery_error e then ret (inr (exn_str e)) else raise e) in
  let detail := match outcome with inl status => status_fields status | inr error => [("error", JStr error)] end in
  let status := match outcome with inl _ => DpApplied | inr _ => DpFailed end in
  let* record := recorded_deployment "discovery-reload" "discovery-reload" "api" status
    ["goblin-king"; "api"; "reload-discovery"] (Some (json_dumps (JObj detail))) (list_to_map detail)
    "admin.deployment.discovery_reload" "deployment.discovery_reload" principal in
  match outcome with inr error => raise (HTTPException 400 error) | inl _ => ret record end.

(** ** Kill switches *)

Record RuntimeTermination := mkRuntimeTermination {
  rm_target_type : string; rm_target_id : string; rm_runtime : RuntimeTarget; rm_killed : list string; rm_errors : list string;
  rm_cancelled : bool }.
Definition termination_payload (r : RuntimeTermination) : dict :=
  {[ "target_type" := JStr (rm_target_type r); "target_id" := JStr (rm_target_id r); "runtime" := JStr (target_str (rm_runtime r));
     "killed" := JList (JStr <$> rm_killed r); "errors" := JList (JStr <$> rm_errors r); "cancelled" := JBool (rm_cancelled r) ]}.
Definition record_runtime_termination (principal : Principal) (project_id : option string) (r : RuntimeTermination)
    : M ApiWorld RuntimeTermination :=
  do* emit_api "runtime.terminated" (termination_payload r) project_id None None None None None in
  do* audit_api "runtime.terminated" (if bool_decide (rm_errors r = []) then "success" else "partial") (Some principal)
        project_id (Some (rm_target_type r)) (Some (rm_target_id r)) (termination_payload r) in
  ret r.
Definition kill_long_running_service_runtime (service_id : string) (principal : Principal) : M ApiWorld RuntimeTermination :=
  let* service := service_for_principal state service_id principal in
  do* zoom ApiServices.services_lens (update_long_service_status (ls_id service) LsStopped
        (Some {[ "message" := JStr "service stopped by scoped runtime termination control";
                 "previous_status" := JStr (long_status_str (ls_status service)) ]})) in
  record_runtime_termination principal (ls_project_id service)
    (mkRuntimeTermination "long_service" service_id TargetBoth ["registered-service:" +:+ service_id] [] true).
Definition kill_job_runtime (job_id : string) (runtime : RuntimeTarget) (namespace : option string) (principal : Principal)
    : M ApiWorld RuntimeTermination :=
  let* job := job_for_principal state job_id principal in
  let* r := zoom world_lens (terminate_runtime (Some job_id) None runtime namespace) in
  let* cancelled := (if is_terminal (j_status job) then ret false
    else let* after := zoom a_jobs_lens (JobStore.cancel_job job_id) in ret (match after with Some _ => true | None => false end)) in
  record_runtime_termination principal (j_project_id job)
    (mkRuntimeTermination "job" job_id runtime (te_killed r) (te_errors r) cancelled).
Definition kill_run_runtime (run_id : string) (runtime : RuntimeTarget) (namespace : option string) (principal : Principal)
    : M ApiWorld RuntimeTermination :=
  let* run := run_for_principal state run_id principal in
  let* project := gets (project_id_for_run run) in
  let* r := zoom world_lens (terminate_runtime None (Some run_id) runtime namespace) in
  record_runtime_termination principal project
    (mkRuntimeTermination "run" run_id runtime (te_killed r) (te_errors r) false).
End handlers.

(** ** Only what carries the labels is killed

    A running container, by its id, or a cluster's Job, by its namespace and name; each has
    its labels. *)
Abbreviation Object := (string + string * string)%type.
Section kill.
Context {S : Type} `{!TerminationHost S}.

(** What Docker and the cluster document: listing changes nothing and lists what carries
    every label asked for; killing a container and deleting a Job stop at most that one.
    [th_container] is the container a printed id names. *)
Class KillsByLabel := {
  th_objects : S → gmap Object (list string);
  th_container : string → string;
  kl_ps : ∀ labels s, th_objects (th_run (ps_command labels) s).1 = th_objects s;
  kl_listed : ∀ labels s output, (th_run (ps_command labels) s).2 = Ok output →
    Forall (λ id, ∃ ls, th_objects s !! (inl (th_container id) : Object) = Some ls ∧ labels ⊆ ls) (listed_ids (po_stdout output));
  kl_kill : ∀ id s, th_objects (th_run (kill_command id) s).1 = th_objects s
    ∨ th_objects (th_run (kill_command id) s).1 = delete (inl (th_container id)) (th_objects s);
  kl_config : ∀ s, th_objects (th_load_config s).1 = th_objects s;
  kl_list : ∀ namespace selector s, th_objects (th_list_jobs namespace selector s).1 = th_objects s;
  kl_selected : ∀ namespace labels s names, Forall (λ l, lacks "," (chars l)) labels → (th_list_jobs namespace (py_join "," labels) s).2 = Ok names →
    Forall (λ name, ∃ ls, th_objects s !! (inr (namespace, name) : Object) = Some ls ∧ labels ⊆ ls) names;
  kl_delete : ∀ namespace name s, th_objects (th_delete_job namespace name s).1 = th_objects s
    ∨ th_objects (th_delete_job namespace name s).1 = delete (inr (namespace, name)) (th_objects s)
}.
Context `{!KillsByLabel} (labels : list string).

(** Whoever lacks a label keeps running; [owned] is an object that does not. *)
Definition spares (s s' : S) : Prop := ∀ o ls,
  (th_objects s' !! o = Some ls → th_objects s !! o = Some ls)
  ∧ (th_objects s !! o = Some ls → ¬ labels ⊆ ls → th_objects s' !! o = Some ls).
Definition owned (o : Object) (s : S) : Prop := ∀ ls, th_objects s !! o = Some ls → labels ⊆ ls.
#[export] Instance spares_preorder : PreOrder spares.
Proof. split; [done|]. intros x y z H1 H2 o ls. specialize (H1 o ls); specialize (H2 o ls). naive_solver. Qed.
Lemma spares_same s s' : th_objects s' = th_objects s → spares s s'.
Proof. intros Heq o ls. by rewrite Heq. Qed.
Lemma spares_owned o s s' : spares s s' → owned o s → owned o s'.
Proof. intros Hs Ho ls Hls. by apply Ho, Hs. Qed.
Lemma spares_kill o s s' : owned o s →
  th_objects s' = th_objects s ∨ th_objects s' = delete o (th_objects s) → spares s s'.
Proof.
  intros Ho [Heq|Heq]; [by apply spares_same|]. intros o' ls. rewrite Heq. split.
  - by intros [_ ?]%lookup_delete_Some.
  - intros Hls Hn. apply lookup_delete_Some. split; [|done]. intros <-. by destruct Hn; apply Ho.
Qed.
Lemma owned_listed o s : (∃ ls, th_objects s !! o = Some ls ∧ labels ⊆ ls) → owned o s.
Proof. intros (ls & Hls & Hsub) ls' Hls'. by simplify_eq. Qed.

Lemma spares_containers ids : ∀ s r,
  Forall (λ id, owned (inl (th_container id)) s) ids → spares s (foldM kill_container r ids s).1.
Proof.
  induction ids as [|id ids IH]; intros s r Hids; [done|]. apply Forall_cons in Hids as [Hid Hids].
  simpl. unfold bind at 1, kill_container at 1, bind at 1.
  pose proof (spares_kill _ _ _ Hid (kl_kill id s)) as Hs.
  destruct (th_run (kill_command id) s) as [s1 [output|e]]; simpl in *; [|done].
  etrans; [exact Hs|]. apply IH. eapply Forall_impl; [exact Hids|]. intros ?. by apply spares_owned.
Qed.
Lemma spares_jobs namespace names : ∀ s r,
  Forall (λ name, owned (inr (namespace, name)) s) names → spares s (delete_jobs namespace names r s).1.
Proof.
  induction names as [|name names IH]; intros s r Hnames; [done|]. apply Forall_cons in Hnames as [Hname Hnames].
  simpl. pose proof (spares_kill _ _ _ Hname (kl_delete namespace name s)) as Hs.
  destruct (th_delete_job namespace name s) as [s1 [[]|e]]; simpl in *; [|done].
  etrans; [exact Hs|]. apply IH. eapply Forall_impl; [exact Hnames|]. intros ?. by apply spares_owned.
Qed.
End kill.

Section kill_scoped.
Context {S : Type} `{!TerminationHost S} `{!KillsByLabel} (job_id run_id : option string).
Abbreviation mine := (_label_filters job_id run_id).
(** The labels of what may be stopped *)
Definition required_label (label : string) : Prop :=
  label = "goblin-king.worker=true"
  ∨ (∃ j, job_id = Some j ∧ truthy j = true ∧ label = "goblin-king.job-id=" +:+ j)
  ∨ (∃ r, run_id = Some r ∧ truthy r = true ∧ label = "goblin-king.run-id=" +:+ r).
Lemma required_label_filters label : required_label label → label ∈ mine.
Proof.
  unfold _label_filters. rewrite !elem_of_app. intros [->|[(j & -> & -> & ->)|(r & -> & -> & ->)]]; [left|right; left|right; right]; left.
Qed.
(** A selector separates its labels by commas. *)
Hypothesis Hcomma : Forall (λ l, lacks "," (chars l)) mine.

Lemma spares_docker r s : spares mine s (_terminate_docker r job_id run_id s).1.
Proof.
  unfold _terminate_docker, bind. pose proof (kl_ps mine s) as Hps. pose proof (kl_listed mine s) as Hlisted.
  destruct (th_run (ps_command mine) s) as [s1 [listed|e]]; simpl in *; [|by apply spares_same].
  etrans; [by apply spares_same|]. destruct (negb _); [done|]. apply spares_containers.
  eapply Forall_impl; [by apply Hlisted|]. intros id Hid. apply owned_listed. by rewrite Hps.
Qed.
(** What is listed on the way to the Jobs is in the namespace chosen, and carries the labels. *)
Lemma spares_kubernetes r namespace s : spares mine s (_terminate_kubernetes r job_id run_id namespace s).1.
Proof.
  unfold _terminate_kubernetes. set (chosen := match namespace with Some _ => _ | None => _ end).
  assert (Hchosen : ∀ s, (chosen s).1 = s).
  { intros s0. unfold chosen, _current_namespace. destruct namespace as [n|]; [destruct (truthy n)|];
      try destruct (th_namespace_file s0); reflexivity. }
  unfold bind, try_catch. pose proof (kl_config s) as Hconfig.
  destruct (th_load_config s) as [s1 [[]|e]]; simpl in *; [|by apply spares_same].
  specialize (Hchosen s1). destruct (chosen s1) as [s2 [selected|e]]; simpl in *; subst s2; [|by apply spares_same].
  pose proof (kl_list selected (py_join "," mine) s1) as Hlist. pose proof (kl_selected selected mine s1) as Hselected.
  destruct (th_list_jobs _ _ s1) as [s2 [names|e]]; simpl in *; [|by apply spares_same; rewrite Hlist].
  etrans; [apply spares_same; by rewrite Hlist|]. apply spares_jobs.
  eapply Forall_impl; [by apply Hselected|]. intros name Hname. apply owned_listed. by rewrite Hlist.
Qed.

(** Terminating the runtime of a job or run, in Docker, in the cluster or in both, leaves
    every container and every Job running that lacks one of the labels asked for: the
    worker's label, the job's, the run's (ids without a comma, as the generated ones).  Whatever fails on the way, listings, kills and
    the cluster's configuration included, nothing else is stopped. *)
Theorem kill_scoped (runtime : RuntimeTarget) (namespace : option string) (label : string) (o : Object) (ls : list string) (s : S) :
  required_label label → label ∉ ls → th_objects s !! o = Some ls →
  th_objects (terminate_runtime job_id run_id runtime namespace s).1 !! o = Some ls.
Proof.
  intros Hlabel%required_label_filters Hnot Hls.
  assert (Hs : spares mine s (terminate_runtime job_id run_id runtime namespace s).1).
  { unfold terminate_runtime, bind. pose proof (spares_docker (mkTermination [] []) s) as Hd.
    destruct runtime; simpl; [|apply spares_kubernetes|];
      destruct (_terminate_docker _ _ _ s) as [s1 [r|e]]; simpl in *; try done.
    etrans; [exact Hd|apply spares_kubernetes]. }
  apply Hs; [done|]. intros Hsub. by apply Hnot, Hsub.
Qed.
End kill_scoped.

(** *** A Docker with two containers and a cluster of Jobs *)
Definition labelled (ls : list string) (labels : list string) : bool := forallb (λ l, bool_decide (l ∈ ls)) labels.
Definition carries (s : gmap Object (list string)) (o : Object) (labels : list string) : bool :=
  match s !! o with Some ls => labelled ls labels | None => false end.
Definition filters_of (command : list string) : list string :=
  omap (λ word, if starts_with "label=" word then Some (text (drop 6 (chars word))) else None) command.
Definition two_containers (s : gmap Object (list string)) (labels : list string) : string :=
  match carries s (inl "c1") labels, carries s (inl "c2") labels with
  | true, true => "c1" +:+ newline +:+ "c2" +:+ newline
  | true, false => "c1" +:+ newline
  | false, true => "c2" +:+ newline
  | false, false => EmptyString
  end.
#[export] Instance labelled_host : TerminationHost (gmap Object (list string)) := {
  th_run command s :=
    if bool_decide (take 2 command = ["docker"; "kill"])
    then (delete (inl (default EmptyString (command !! 2%nat)) : Object) s, Ok (mkOutput 0 EmptyString EmptyString))
    else (s, Ok (mkOutput 0 (two_containers s (filters_of command)) EmptyString));
  th_load_config := ret tt;
  th_list_jobs namespace selector s :=
    (s, Ok (omap (λ '(o, ls), match (o : Object) with
       | inr (n, name) => if String.eqb n namespace && labelled ls (text <$> split_on "," (chars selector)) then Some name else None
       | inl _ => None
       end) (map_to_list s)));
  th_delete_job namespace name := modify (delete (inr (namespace, name) : Object));
  th_namespace_file _ := Err (OtherException "FileNotFoundError" "namespace");
  th_is_os_error _ := true
}.
Lemma labelled_subset ls labels : labelled ls labels = true → labels ⊆ ls.
Proof. unfold labelled. rewrite forallb_forall. intros Hl x Hx. apply list_elem_of_In, Hl in Hx. by apply bool_decide_eq_true in Hx. Qed.
Lemma carries_spec s o labels : carries s o labels = true → ∃ ls, s !! o = Some ls ∧ labels ⊆ ls.
Proof. unfold carries. destruct (s !! o) as [ls|]; [|done]. intros Hl%labelled_subset. eauto. Qed.
Lemma filters_of_cons l rest : filters_of ("--filter" :: ("label=" +:+ l) :: rest) = l :: filters_of rest.
Proof.
  unfold filters_of. simpl. change (EmptyString +:+ l) with l.
  replace (starts_with EmptyString l) with true by by destruct l. by rewrite drop_0, text_chars.
Qed.
Lemma filters_of_ps labels : filters_of (ps_command labels) = labels.
Proof.
  change (filters_of (concat ((λ label, ["--filter"; "label=" +:+ label]) <$> labels)) = labels).
  induction labels as [|l labels IH]; [done|]. rewrite fmap_cons. cbn [concat app]. by rewrite filters_of_cons, IH.
Qed.
Lemma chars_join ws : chars (py_join "," ws) = join_with "," (chars <$> ws).
Proof.
  induction ws as [|w [|w' ws] IH]; [done|done|]. cbn [py_join fmap list_fmap join_with] in *. by rewrite !chars_app, IH.
Qed.
Lemma labelled_ps (labels : list string) (s : gmap Object (list string)) :
  th_run (ps_command labels) s = (s, Ok (mkOutput 0 (two_containers s labels) EmptyString)).
Proof. rewrite <- (filters_of_ps labels) at 2. reflexivity. Qed.
#[export] Instance labelled_kills : KillsByLabel (S := gmap Object (list string)).
Proof.
  refine {| th_objects s := s; th_container id := id |}; try done; try (by right).
  - intros labels s output. rewrite labelled_ps. intros [= <-]. cbn [po_stdout].
    unfold two_containers. pose proof (carries_spec s (inl "c1") labels). pose proof (carries_spec s (inl "c2") labels).
    destruct (carries s (inl "c1") labels), (carries s (inl "c2") labels);
      repeat (apply Forall_cons; split); auto.
  - intros namespace labels s names Hcomma [= <-]. apply Forall_forall. intros name ([o ls] & Hin & Hname)%list_elem_of_omap.
    apply elem_of_map_to_list in Hin. destruct o as [c|[n name']]; [done|].
    destruct (String.eqb_spec n namespace) as [->|]; [|done]. destruct (labelled _ _) eqn:Hl; simplify_eq/=.
    exists ls. split; [done|]. apply labelled_subset in Hl. rewrite chars_join in Hl. destruct labels as [|l labels]; [apply list_subseteq_nil|].
    rewrite split_join in Hl; [|done|by apply Forall_fmap]. rewrite <- list_fmap_compose in Hl.
    intros x Hx. apply Hl. apply list_elem_of_fmap. exists x. split; [symmetry; apply text_chars|done].
Defined.

(** ** The lenses of the state *)

#[export] Instance admin_lens_lawful : LawfulLens admin_lens.
Proof. split; intros; by repeat match goal with w : Admin |- _ => destruct w end. Qed.
#[export] Instance discovery_lens_lawful : LawfulLens discovery_lens.
Proof. split; intros; by repeat match goal with w : Admin |- _ => destruct w end. Qed.
#[export] Instance discovery_admin_disjoint : DisjointLens discovery_lens admin_lens.
Proof. by intros [] ?. Qed.
#[export] Instance discovery_promotions_disjoint : DisjointLens discovery_lens promotions_lens.
Proof. by intros [] ?. Qed.
#[export] Instance discovery_deployments_disjoint : DisjointLens discovery_lens deployments_lens.
Proof. by intros [] ?. Qed.

(** ** The version names the discovery *)

(** What a reload replaces: the registry, the image map and where they came from. *)
Definition discovered (d : Discovery) : Registry * WorkerImageMap * DiscoverySources :=
  (dc_registry d, dc_workers d, dc_sources d).

Section discovery.
Context `{Sqlite} `{Env} `{DiscoveryLoader} `{!TerminationHost World}.
Context (root : PosixPath) (resolve : PosixPath → PosixPath).

(** The API's administrators at work; everything else that runs may change the host and
    the store between their requests. *)
Inductive admin_step : Admin → Admin → Prop :=
  | step_reload principal w : admin_step w (reload_discovery_request principal w).1
  | step_reload_deployment principal w : admin_step w (record_discovery_reload_deployment principal w).1
  | step_plan request principal w : admin_step w (plan_image_promotion root resolve request principal w).1
  | step_mark id status digest detail principal w : admin_step w (mark_image_promotion id status digest detail principal w).1
  | step_helm request principal w : admin_step w (record_helm_template request principal w).1
  | step_elsewhere api w : admin_step w (put admin_lens api w).

(** The version never falls; while it stands, what is discovered stands; and what is
    discovered was there before or is what one load returned. *)
Definition discovery_advances (w w' : Admin) : Prop :=
  let d := ad_discovery w in
  let d' := ad_discovery w' in
  dc_version d ≤ dc_version d' ∧ (dc_version d = dc_version d' → discovered d' = discovered d)
  ∧ (discovered d' = discovered d ∨ ∃ host, ds_load host = Ok (discovered d')).
#[export] Instance discovery_advances_preorder : PreOrder discovery_advances.
Proof.
  split.
  - intros w. split_and!; [done|done|by left].
  - intros x y z (V1 & S1 & L1) (V2 & S2 & L2). split_and!.
    + lia.
    + intros Heq. rewrite S2, S1; [done|lia..].
    + destruct L2 as [->|L2]; [exact L1|by right].
Qed.
Lemma advances_elsewhere {A} (m : M Admin A) : Preserves (view discovery_lens) m → Within discovery_advances m.
Proof. intros Hm w. specialize (Hm w). simpl in Hm. hnf. rewrite Hm. split_and!; [done|done|by left]. Qed.

#[export] Instance api_advances {A} (m : M ApiWorld A) : Within discovery_advances (api m).
Proof. apply advances_elsewhere. apply _. Qed.
#[export] Instance host_advances {A} (m : M World A) : Within discovery_advances (on_host m).
Proof. apply api_advances. Qed.
#[export] Instance promotions_advance {A} (m : M (table PromotionRow) A) : Within discovery_advances (zoom promotions_lens m).
Proof. apply advances_elsewhere. apply _. Qed.
#[export] Instance deployments_advance {A} (m : M (table DeploymentRecord) A) : Within discovery_advances (zoom deployments_lens m).
Proof. apply advances_elsewhere. apply _. Qed.
(** The clock does not read the discovery: storing what was loaded first is the step. *)
#[export] Instance reload_advances : Within discovery_advances reload_discovery.
Proof.
  intros w. unfold discovery_advances, reload_discovery, bind, gets. cbn [fst snd].
  destruct (ds_load (a_world (ad_api w))) as [[[registry workers] sources]|e] eqn:Hload.
  - cbn zeta. unfold api. rewrite zoom_eq. destruct (now_api _) as [a' [now|e]]; cbn; split_and!; try done; try (intros; lia); [right|by left].
    by exists (a_world (ad_api w)).
  - destruct (is_discovery_error e); [|split_and!; [done|done|by left]].
    cbn zeta. unfold api. rewrite zoom_eq. destruct (now_api _) as [a' [now|e']]; cbn; split_and!; try done; by left.
Qed.
#[export] Instance recorded_advances n a c s k o d t u p : Within discovery_advances (recorded_deployment n a c s k o d t u p).
Proof. unfold recorded_deployment. solve_within. Qed.
#[export] Instance request_advances principal : Within discovery_advances (reload_discovery_request principal).
Proof. unfold reload_discovery_request. solve_within. Qed.
#[export] Instance reload_deployment_advances principal : Within discovery_advances (record_discovery_reload_deployment principal).
Proof. unfold record_discovery_reload_deployment. solve_within. Qed.
#[export] Instance plan_advances request principal : Within discovery_advances (plan_image_promotion root resolve request principal).
Proof. unfold plan_image_promotion. solve_within. Qed.
#[export] Instance mark_advances id s g d principal : Within discovery_advances (mark_image_promotion id s g d principal).
Proof. unfold mark_image_promotion, found_or_404. solve_within. Qed.
#[export] Instance helm_advances request principal : Within discovery_advances (record_helm_template request principal).
Proof. unfold record_helm_template. solve_within. Qed.
Lemma admin_step_advances w w' : admin_step w w' → discovery_advances w w'.
Proof. destruct 1; try apply (within (R := discovery_advances)). split_and!; [done|done|by left]. Qed.

(** However the administrators reload discovery, plan and mark promotions and record
    deployments, in any order and whatever the host and the store become between their
    requests, the discovery version never falls, as long as it stands the registry, the
    worker map and their sources stand with it, and what is active is what was active at
    the start or all that one load returned: a reload that fails replaces nothing, and no
    registry of one load is ever served with the worker map of another. *)
Theorem version_names_discovery (w w' : Admin) :
  rtc admin_step w w' →
  dc_version (ad_discovery w) ≤ dc_version (ad_discovery w')
  ∧ (dc_version (ad_discovery w) = dc_version (ad_discovery w') → discovered (ad_discovery w') = discovered (ad_discovery w))
  ∧ (discovered (ad_discovery w') = discovered (ad_discovery w) ∨ ∃ host, ds_load host = Ok (discovered (ad_discovery w'))).
Proof.
  induction 1 as [w|w1 w2 w3 Hstep _ IH]; [apply (reflexivity (R := discovery_advances))|].
  exact (transitivity (R := discovery_advances) (admin_step_advances _ _ Hstep) IH).
Qed.
End discovery.

(** ** Runs *)

(** Two containers of one project's jobs and somebody's database; a Job of another job. *)
Definition sample_objects : gmap Object (list string) :=
  <[inl "c1" : Object := ["goblin-king.worker=true"; "goblin-king.job-id=j1"; "goblin-king.run-id=r1"]]>
  (<[inl "c2" : Object := ["goblin-king.worker=true"; "goblin-king.job-id=j2"; "goblin-king.run-id=r2"]]>
  (<[inr ("default", "gk-j2") : Object := ["goblin-king.worker=true"; "goblin-king.job-id=j2"]]>
  {[ inl "db" : Object := ["com.example=true"] ]})).
Lemma kill_scoped_witness :
  th_objects (terminate_runtime (Some "j1") None TargetBoth None sample_objects).1 !! (inl "c2" : Object)
    = Some ["goblin-king.worker=true"; "goblin-king.job-id=j2"; "goblin-king.run-id=r2"].
Proof.
  apply (kill_scoped (Some "j1") None) with (label := "goblin-king.job-id=j1");
    [repeat constructor|right; left; by exists "j1"|by apply (bool_decide_unpack _); vm_compute|by vm_compute].
Defined.
(** The kill stops the job's own container, and the run's id selects as the job's does. *)
Example killed_by_job :
  (terminate_runtime (Some "j1") None TargetBoth None sample_objects).2 = Ok (mkTermination ["docker:c1"] [])
  ∧ bool_decide ((map_to_list (terminate_runtime (Some "j1") None TargetBoth None sample_objects).1).*1 = (map_to_list (delete (inl "c1" : Object) sample_objects)).*1) = true.
Proof. split; vm_compute; reflexivity. Qed.
Example killed_by_run :
  (terminate_runtime (Some "j2") None TargetBoth None sample_objects).2
    = Ok (mkTermination ["docker:c2"; "kubernetes:default/gk-j2"] [])
  ∧ (terminate_runtime None (Some "r2") TargetBoth None sample_objects).2 = Ok (mkTermination ["docker:c2"] []).
Proof. split; vm_compute; reflexivity. Qed.

(** A deployment with nothing discovered yet, and hosts whose sources load or do not. *)
Definition no_sources : DiscoverySources := mkSources [] false EmptyString [] ∅.
Definition report_sources : DiscoverySources := mkSources ["goblins.json"] false "goblin-images.json" [] ∅.
Definition report_registry : Registry := {[ "report" := sample_goblin ]}.
Definition good_loader : DiscoveryLoader := {| ds_load _ := Ok (report_registry, sample_workers, report_sources) |}.
Definition bad_loader : DiscoveryLoader := {| ds_load _ := Err (RegistryError "duplicate goblin kind: report") |}.
#[export] Instance no_containers : TerminationHost World := {
  th_run _ := ret (mkOutput 1 EmptyString "Cannot connect to the Docker daemon");
  th_load_config := raise (OtherException "ConfigException" "no configuration found");
  th_list_jobs _ _ := ret [];
  th_delete_job _ _ := ret tt;
  th_namespace_file _ := Ok "goblins";
  th_is_os_error _ := false
}.
Definition first_admin : Admin := mkAdmin empty_api ∅ ∅ (mkDiscovery ∅ ∅ 1 0 None None no_sources).
Definition reloaded (loader : DiscoveryLoader) (w : Admin) : Admin * result DiscoveryStatus :=
  @reload_discovery_request sqlite_merge second_env loader root w.
Definition second_admin : Admin := (reloaded good_loader first_admin).1.

Lemma version_names_discovery_witness :
  dc_version (ad_discovery second_admin) = 2
  ∧ (discovered (ad_discovery second_admin) = discovered (ad_discovery first_admin)
     ∨ ∃ host, @ds_load good_loader host = Ok (discovered (ad_discovery second_admin))).
Proof.
  split; [by vm_compute|].
  assert (Hreach : rtc (@admin_step sqlite_merge second_env good_loader no_containers (parse_path "/app") id) first_admin second_admin).
  { apply rtc_once. apply (@step_reload sqlite_merge second_env good_loader). }
  exact (proj2 (proj2 (@version_names_discovery sqlite_merge second_env good_loader no_containers (parse_path "/app") id
    first_admin second_admin Hreach))).
Defined.
(** A reload that fails keeps the registry, the map and the version of the last one, and
    tells so. *)
Example failed_reload :
  let (w, r) := reloaded bad_loader second_admin in
  r = Err (HTTPException 400 "duplicate goblin kind: report")
  ∧ (map_to_list (dc_registry (ad_discovery w))).*1 = ["report"] ∧ (map_to_list (dc_workers (ad_discovery w))).*1 = (map_to_list sample_workers).*1
  ∧ dc_sources (ad_discovery w) = report_sources ∧ dc_version (ad_discovery w) = 2
  ∧ dc_last_error (ad_discovery w) = Some "duplicate goblin kind: report".
Proof. vm_compute. split_and!; reflexivity. Qed.

(** A project whose kind is none is refused by an exception the reload does not expect:
    nothing is recorded. *)
Definition project_loader (kind : string) : DiscoveryLoader := {|
  ds_load _ :=
    let? s := loaded kind in
    let? definitions := registry_definitions s in
    let? registry := from_definitions definitions in
    Ok (registry, worker_definitions s, no_sources)
|}.
Example invalid_kind_reload :
  let (w, r) := reloaded (project_loader "Bad Kind") second_admin in
  r = Err (ValidationError "kind must use lowercase letters, digits, dots, or dashes")
  ∧ dc_last_error (ad_discovery w) = None ∧ dc_last_failure (ad_discovery w) = None
  ∧ dc_version (ad_discovery (reloaded (project_loader "report") second_admin).1) = 3.
Proof. vm_compute. split_and!; reflexivity. Qed.

(** A promotion marked with a status that is none: the answer is an error, the row keeps
    it, and the history cannot be read any more.  Marking without a detail drops what the
    plan recorded. *)
Definition planned (w : Admin) : Admin * result ImagePromotionRecord :=
  @plan_image_promotion sqlite_merge second_env (parse_path "/app") id
    (mkPromotionRequest "report" "registry/report:1" None "ops" true true true) root w.
Definition after_mark (id status : string) (w : Admin) : Admin * result ImagePromotionRecord :=
  @mark_image_promotion sqlite_merge second_env id status None ∅ root w.
Definition planned_id : string := match (planned second_admin).2 with Ok p => ip_id p | Err _ => EmptyString end.
Example promotion_poisoned :
  let w := (planned second_admin).1 in
  let (w', r) := after_mark planned_id "shipped" w in
  is_ok (@list_image_promotions sqlite_merge 50 (ad_promotions w)) = true
  ∧ r = Err (ValidationError "status") ∧ @list_image_promotions sqlite_merge 50 (ad_promotions w') = Err (ValidationError "status").
Proof. vm_compute. split_and!; reflexivity. Qed.
Example mark_drops_detail :
  match (planned second_admin).2, (after_mark planned_id "built" (planned second_admin).1).2 with
  | Ok before, Ok after => is_Some (ip_detail before !! "commands") ∧ ip_detail after = ∅ ∧ ip_status after = IpBuilt
  | _, _ => False
  end.
Proof. vm_compute. split_and!; [by eexists|reflexivity..]. Qed.

(** A job that its worker finishes while Docker is asked is reported as cancelled. *)
Definition finishing_host : TerminationHost World := {|
  th_run _ := do* zoom w_jobs_lens (finish_job "high" JCompleted None None) in ret (mkOutput 0 EmptyString EmptyString);
  th_load_config := ret tt;
  th_list_jobs _ _ := ret [];
  th_delete_job _ _ := ret tt;
  th_namespace_file _ := Ok "goblins";
  th_is_os_error _ := false
|}.
Example cancelled_after_completion :
  let (w, r) := @kill_job_runtime sqlite_merge second_env finishing_host plain_state "high" TargetDocker None root p1_api in
  match r with Ok t => rm_cancelled t | Err _ => false end = true ∧ (j_status <$> jobs (w_jobs (a_world w)) !! "high") = Some JCompleted.
Proof. vm_compute. split; reflexivity. Qed.
