(* ===== verification/ApiValidation.v ===== *)
(** * The HTTP handlers of validation, discovery listings and run events ([src/src/goblin_king/api.py])

    The list of goblins, validation of workers and of notebook-defined functions, and a
    run's events, replayed over HTTP and streamed over a websocket.

    [Bench] is the API's state with the retention volume a validation Job writes to;
    [Live] is the API's state with the Redis server the events are read from.  A
    websocket is what the handler sends on it; what workers and other handlers do between
    two reads of a stream is an arbitrary call.  The status of a proof that a listing shows
    is [validation_status_payload]. *)

From S2P Require Import Prelude CausalTime Contracts Text PyValues ResourcePolicies Containers EventStore JobStore JobLifecycle RecordStore Auth Bundles KubeSettings KubeManifest Registry World Validation Scheduler Attempts Gate KubeArtifacts WorkerChannel KubeRuntime KubeValidation RunEvents Api ApiJobs ApiServices ApiTenancy.

(** ** The goblins there are *)

Record NotebookItem := mkNotebookItem {
  ni_source_hash : string; ni_function_name : string; ni_project_id : option string }.
Record GoblinItem := mkGoblinItem {
  gi_definition : GoblinDefinition; gi_worker_image : option string; gi_worker_mapped : bool;
  gi_validation : option WorkerValidationRecord; gi_validation_status : ProofState * string;
  gi_source : string; gi_defaults : dict; gi_notebook : option NotebookItem }.

Section listing.
Context `{Sqlite} `{Env}.
Context (state : AppState) (project_defined_kinds : list string) (project_default_resources : dict).

Definition registered_item (a : ApiWorld) (definition : GoblinDefinition) : GoblinItem :=
  let worker := workers state !! gd_kind definition in
  let validation := latest_worker_validation_for_kind (gd_kind definition) (w_validations (a_world a)) in
  mkGoblinItem definition (wi_image <$> worker) (bool_decide (is_Some worker)) validation
    (validation_status_payload (wi_image <$> worker) validation)
    (if bool_decide (gd_kind definition ∈ project_defined_kinds) then "project-config" else "registry")
    project_default_resources None.
Definition notebook_item (a : ApiWorld) (record : NotebookGoblinRecord) : GoblinItem :=
  let validation := latest_worker_validation_for_kind (ng_kind record) (w_validations (a_world a)) in
  mkGoblinItem (notebook_definition record) (Some (ng_image record)) true validation
    (validation_status_payload (Some (ng_image record)) validation) "notebook" project_default_resources
    (Some (mkNotebookItem (ng_source_hash record) (ng_function_name record) (ng_project_id record))).

(** A record of another project is left out; that leaves a row of the refusal. *)
Definition list_goblins (principal : Principal) : M ApiWorld (list GoblinItem) :=
  let* registered := gets (λ a, registered_item a <$> registry_list (registry state)) in
  let* records := gets (λ a, RecordStore.list_notebook_goblins None (w_notebooks (a_world a))) in
  foldM (λ payload record,
    let* allowed := try_catch (do* project_for_request state principal (ng_project_id record) in ret true)
      (λ e, match e with HTTPException _ _ => ret false | _ => raise e end) in
    if allowed then let* item := gets (λ a, notebook_item a record) in ret (payload ++ [item])
    else ret payload) registered records.
End listing.

(** ** Validation *)

Record Bench `{ArtifactSource} := mkBench { bn_api : ApiWorld; bn_depot : Depot }.
Arguments mkBench {_} bn_api bn_depot.

Record NotebookGoblinValidateRequest := mkNotebookValidate {
  nv_input : dict; nv_require_success : bool; nv_timeout_seconds : option Z }.
Record KubernetesWorkerValidateRequest := mkWorkersValidate {
  kw_kinds : option (list string); kw_input : dict; kw_require_success : bool; kw_timeout_seconds : Z }.

Section validation.
Context `{Sqlite} `{Env} `{Crypto} `{Quantities} `{Host} `{KubeCluster} `{ArtifactSource}.
Context (conditions : Conditions) (state : AppState) (kubernetes : KubernetesRuntimeSettings) (redis_url namespace : string).
(** [_running_in_kubernetes]: whether the environment names the cluster's API server *)
Context (_running_in_kubernetes : bool).

Definition bn_api_lens : lens Bench ApiWorld := Lens bn_api (λ a b, mkBench a (bn_depot b)).
Definition bn_station_lens : lens Bench Station :=
  Lens (λ b, mkStation (a_world (bn_api b)) (bn_depot b))
    (λ s b, mkBench (put world_lens (sn_world s) (bn_api b)) (sn_depot s)).

Definition _validate_notebook_with_kubernetes (record : NotebookGoblinRecord) (input_payload : dict)
    (require_success : bool) (timeout_seconds : option Z) : M Station KubernetesValidation :=
  let runtime := build_kubernetes_runtime redis_url namespace kubernetes (notebook_worker_map record) in
  let image_identity := settings_image_identity kubernetes (ng_image record) (Some (ng_kind record)) in
  let digest := Some (notebook_validation_identity (Some image_identity) (ng_source_hash record)) in
  let* job_id := zoom sn_world_lens (KubeValidation.validation_job_id (ng_kind record)) in
  let* context := zoom sn_world_lens (new_run_context job_id (ng_kind record) 1) in
  let* seen := try_catch
    (let* r := zoom sn_world_lens (kube_run runtime (notebook_definition record) input_payload context timeout_seconds None) in
     ret (inr r))
    (λ e, ret (inl e)) in
  let* now := station_now in
  let validation := match seen with
    | inl e => validation_result (ng_kind record) false (Some (ng_image record)) digest now None None 0
                 (Some (exn_str e)) ["kubernetes-job"]
    | inr r =>
        let ok := bool_decide (gr_status r = ResSuccess) || negb require_success in
        validation_result (ng_kind record) ok (Some (ng_image record)) digest now
          (Some (result_status_str (gr_status r))) None 0
          (if ok then None else Some (text_or (gr_error r) "worker returned failed status"))
          ["kubernetes-job"; "result-envelope"]
    end in
  with_kubernetes_validation_cleanup conditions (plain_validation validation) kubernetes context.

(** The first verdict of [validate_workers], under the identity of the image and the source *)
Definition validate_notebook_with_docker (record : NotebookGoblinRecord) (input_payload : dict)
    (require_success : bool) (timeout_seconds : option Z) : M Station KubernetesValidation :=
  let* results := zoom sn_world_lens
    (validate_workers {[ ng_kind record := notebook_definition record ]} (notebook_worker_map record) input_payload
       [ng_kind record] false require_success true timeout_seconds None) in
  let* result := lift_result (head_or results (OtherException "IndexError" "list index out of range")) in
  ret (plain_validation (notebook_result (Some (ng_source_hash record)) result)).

Definition security_policy (kind : string) : dict :=
  {[ "kubernetes_workload_security" := settings_workload_security kubernetes (Some kind) ]}.

(** [state.store.save_worker_validation(validation_record(result, effective_policy=...))] *)
Definition store_validation (result : WorkerValidationResult) (effective_policy : dict) : M Bench unit :=
  zoom bn_api_lens (zoom world_lens
    (let* record := validation_record result effective_policy in
     zoom w_validations_lens (save_worker_validation record))).

Definition validate_notebook_goblin (kind : string) (request : NotebookGoblinValidateRequest) (principal : Principal)
    : M Bench (NotebookGoblinRecord * KubernetesValidation) :=
  do* lift_result (_forbid_viewer_write principal) in
  let* found := gets (λ b, get_notebook_goblin kind (w_notebooks (a_world (bn_api b)))) in
  let* record := found_or_404 found ("notebook goblin not found: " +:+ kind) in
  do* zoom bn_api_lens (project_for_request state principal (ng_project_id record)) in
  let input_payload := notebook_worker_input record (nv_input request) in
  let timeout_seconds := or_timeout (nv_timeout_seconds request) (ng_timeout_seconds record) in
  let* result := zoom bn_station_lens
    ((if _running_in_kubernetes then _validate_notebook_with_kubernetes else validate_notebook_with_docker)
       record input_payload (nv_require_success request) timeout_seconds) in
  do* store_validation (kv_result result)
        (if _running_in_kubernetes then security_policy (ng_kind record) else ∅) in
  let ok := vr_ok (kv_result result) in
  do* zoom bn_api_lens (audit_api "notebook_goblin.validated" (if ok then "success" else "failure") (Some principal)
        (ng_project_id record) (Some "notebook_goblin") (Some (ng_kind record))
        (list_to_map [("image", JStr (ng_image record)); ("source_hash", JStr (ng_source_hash record)); ("ok", JBool ok)])) in
  ret (record, result).

Definition kinds_where (p : bool → bool) (results : list KubernetesValidation) : Json :=
  JList (JStr ∘ vr_kind ∘ kv_result <$> filter (λ r, p (vr_ok (kv_result r)) = true) results).

Definition validate_generic_workers_with_kubernetes (request : KubernetesWorkerValidateRequest) (principal : Principal)
    : M Bench (list KubernetesValidation) :=
  let* principal := zoom bn_api_lens (require_admin_principal principal) in
  let* results := zoom bn_station_lens
    (validate_workers_with_kubernetes conditions (build_kubernetes_runtime redis_url namespace kubernetes (workers state))
       (registry state) (kw_input request) (default [] (kw_kinds request)) (kw_require_success request)
       (kw_timeout_seconds request)) in
  do* forM_ results (λ r, store_validation (kv_result r) (security_policy (vr_kind (kv_result r)))) in
  do* zoom bn_api_lens (audit_api "worker.kubernetes_validated"
        (if forallb (λ r, vr_ok (kv_result r)) results then "success" else "failure") (Some principal)
        (pr_project_id principal) (Some "worker_validation") None
        (list_to_map [("kinds", kinds_where (λ _, true) results); ("passed", kinds_where id results);
                      ("failed", kinds_where negb results)])) in
  ret results.
End validation.

(** ** A validated function may run *)

Section opening.
Context `{Sqlite} `{Env} `{Crypto} `{Pydantic} `{Floats} `{Imports} `{Quantities} `{Host} `{KubeCluster} `{ArtifactSource}.
Context (conditions : Conditions) (state : AppState) (kubernetes : KubernetesRuntimeSettings) (redis_url namespace : string).
Context (base : Workers).
(** a digest is not empty *)
Context (digests : ∀ s, truthy (sha256_hex s) = true).

Abbreviation validations b := (w_validations (a_world (bn_api b))).
(** The scheduler with the API's Kubernetes settings *)
#[local] Instance api_workers : Workers := kube_workers base redis_url namespace kubernetes.

(** The identity that a job of the function is checked against *)
Definition function_identity (record : NotebookGoblinRecord) : string :=
  notebook_validation_identity (Some (settings_image_identity kubernetes (ng_image record) (Some (ng_kind record))))
    (ng_source_hash record).

Lemma notebook_run_seen record input require_success timeout s s' v :
  _validate_notebook_with_kubernetes conditions kubernetes redis_url namespace record input require_success timeout s
    = (s', Ok v) →
  vr_ok (kv_result v) = true →
  (vr_kind (kv_result v) = ng_kind record ∧ vr_image_digest (kv_result v) = Some (function_identity record)
   ∧ vr_contract_version (kv_result v) = GOBLIN_CONTAINER_CONTRACT_VERSION
   ∧ vr_validator_version (kv_result v) = VALIDATOR_VERSION)
  ∧ ∃ context w1 w2 r,
    kube_run (build_kubernetes_runtime redis_url namespace kubernetes (notebook_worker_map record))
      (notebook_definition record) input context timeout None w1 = (w2, Ok r)
    ∧ (require_success = true → gr_status r = ResSuccess).
Proof.
  unfold _validate_notebook_with_kubernetes. intros (s1 & job_id & _ & Hk)%bind_ok Hok.
  apply bind_ok in Hk as (s2 & context & _ & Hk). apply bind_ok in Hk as (s3 & seen & Hseen & Hk).
  apply bind_ok in Hk as (s4 & now & _ & Hk). apply cleaned_ok in Hk as [-> _]; [|done].
  destruct seen as [e|r]; [done|]. simpl in Hok. split; [done|].
  unfold try_catch in Hseen. destruct (bind _ _ s2) as [s5 [x|e]] eqn:Hb; [|done]. injection Hseen as -> ->.
  apply bind_ok in Hb as (s6 & r' & Hr & [= -> ->]). apply zoomed_ok in Hr.
  exists context, (sn_world s2), (sn_world s3), r. split; [exact Hr|]. intros ->.
  rewrite orb_false_r in Hok. by apply bool_decide_eq_true in Hok.
Qed.

Lemma store_validation_ok r policy (b b' : Bench) :
  store_validation r policy b = (b', Ok tt) →
  ∃ id proof, validations b' = <[id := proof]> (validations b)
    ∧ wv_kind proof = vr_kind r ∧ wv_image_digest proof = text_or (vr_image_digest r) EmptyString
    ∧ wv_contract_version proof = vr_contract_version r ∧ wv_validator_version proof = vr_validator_version r
    ∧ wv_status proof = if vr_ok r then ValidationPassed else ValidationFailed.
Proof.
  unfold store_validation. intros (a & Ha & ->)%zoom_ok. apply zoom_ok in Ha as (w & Hw & ->).
  apply bind_ok in Hw as (w1 & record & Hrec & Hsave). apply zoom_ok in Hsave as (t & [_ ->]%insert_row_ok & ->).
  assert (w_validations w1 = validations b) as Hsame.
  { assert (Preserves w_validations (validation_record r policy)) as Hp.
    { unfold validation_record. apply preserves_bind; [intros w0; by rewrite zoom_eq|].
      intros id. apply preserves_bind; [|intros; apply _].
      destruct (vr_validated_at r); [apply _|]. intros w0. by rewrite zoom_eq. }
    specialize (Hp (a_world (bn_api b))). simpl in Hrec. by rewrite Hrec in Hp. }
  unfold validation_record in Hrec. apply bind_ok in Hrec as (w2 & id & _ & Hrec).
  apply bind_ok in Hrec as (w3 & at_ & _ & [= <- <-]).
  eexists id, _. split; [simpl; by rewrite <- Hsame|]. done.
Qed.

(** The gate on a stored proof that no failure has followed *)
Lemma proof_passes_gate record proof (w : World) s job registry runtime payload policy :
  proof ∈ rows (w_validations w) → wv_kind proof = ng_kind record →
  wv_image_digest proof = function_identity record → wv_status proof = ValidationPassed →
  wv_contract_version proof = GOBLIN_CONTAINER_CONTRACT_VERSION → wv_validator_version proof = VALIDATOR_VERSION →
  (∀ x, x ∈ rows (w_validations w) → wv_kind x = ng_kind record → wv_image_digest x = function_identity record →
    wv_status x = ValidationFailed → wv_validated_at x < wv_validated_at proof) →
  is_kubernetes runtime = true →
  _validate_before_container_run s job (ng_kind record) registry (Some (notebook_worker_map record)) runtime payload
    (Some (ng_source_hash record)) policy w = (w, Ok None).
Proof.
  intros Hin Hk Hd Hpass Hc Hv Hnew Hrt. unfold _validate_before_container_run.
  assert (worker_get (notebook_worker_map record) (ng_kind record) = Ok (mkWorkerImage "." "Dockerfile" (ng_image record))) as ->.
  { unfold worker_get, notebook_worker_map. by rewrite lookup_singleton_eq. }
  cbv zeta. unfold gate_identity. rewrite Hrt. unfold bind, ret, gets. cbn [wi_image].
  assert (text_or (Some (notebook_validation_identity (Some (validation_image_identity (ng_image record) (ng_kind record)))
      (ng_source_hash record))) (validation_image_identity (ng_image record) (ng_kind record)) = function_identity record) as ->.
  { unfold text_or, notebook_validation_identity at 1. by rewrite digests. }
  destruct (get_latest_worker_validation _ _ _ _ _) as [v|] eqn:Hget.
  - apply latest_validation_spec in Hget as (Hvin & Hvk & Hvd & Hvc & Hvv & Hmax).
    destruct (wv_status v) eqn:Hs; [done|]. specialize (Hnew v Hvin Hvk Hvd Hs).
    specialize (Hmax proof Hin Hk Hd Hc Hv). lia.
  - exfalso. unfold get_latest_worker_validation in Hget.
    match type of Hget with head (order_by _ ?l) = _ => pose proof (order_by_desc_head wv_validated_at l) as Hh end.
    rewrite Hget in Hh. apply (not_elem_of_nil proof). rewrite <- Hh. by apply list_elem_of_filter.
Qed.

(** Validating a notebook function through the API, inside the cluster, is what lets
    it run.  A favourable answer is given to a caller who may write and whose project the
    function is in, on the evidence of a Kubernetes Job of the function's own image and
    source that succeeded where success was demanded; and it leaves a proof under the
    identity of exactly that image, its security settings and that source, with which the
    scheduler's gate lets a job of the function through, changing nothing, unless a failure
    has been recorded since. *)
Theorem notebook_proof_opens_gate (kind : string) (request : NotebookGoblinValidateRequest) (p : Principal)
    (b b' : Bench) (record : NotebookGoblinRecord) (v : KubernetesValidation) :
  validate_notebook_goblin conditions state kubernetes redis_url namespace true kind request p b = (b', Ok (record, v)) →
  vr_ok (kv_result v) = true →
  w_notebooks (a_world (bn_api b)) !! kind = Some record
  ∧ pr_role p ≠ RoleViewer ∧ require_project_access p (requested_project state p (ng_project_id record)) = Ok tt
  ∧ (∃ context w1 w2 r,
      kube_run (build_kubernetes_runtime redis_url namespace kubernetes (notebook_worker_map record))
        (notebook_definition record) (notebook_worker_input record (nv_input request)) context
        (or_timeout (nv_timeout_seconds request) (ng_timeout_seconds record)) None w1 = (w2, Ok r)
      ∧ (nv_require_success request = true → gr_status r = ResSuccess))
  ∧ ∃ proof, proof ∈ rows (validations b') ∧ wv_image_digest proof = function_identity record
    ∧ wv_status proof = ValidationPassed
    ∧ ((∀ x, x ∈ rows (validations b') → wv_kind x = ng_kind record → wv_image_digest x = function_identity record →
          wv_status x = ValidationFailed → wv_validated_at x < wv_validated_at proof) →
       ∀ s job registry runtime payload policy, is_kubernetes runtime = true →
         _validate_before_container_run s job (ng_kind record) registry (Some (notebook_worker_map record)) runtime
           payload (Some (ng_source_hash record)) policy (a_world (bn_api b')) = (a_world (bn_api b'), Ok None)).
Proof.
  unfold validate_notebook_goblin. intros Hrun Hok.
  apply bind_ok in Hrun as (b1 & [] & Hviewer & Hrun). unfold lift_result in Hviewer. injection Hviewer as <- Hviewer.
  rewrite bind_gets in Hrun. apply bind_ok in Hrun as (b2 & record' & Hfound & Hrun).
  unfold found_or_404 in Hfound. destruct (get_notebook_goblin kind _) as [r0|] eqn:Hget; [|done].
  injection Hfound as <- <-. apply bind_ok in Hrun as (b3 & q & Hp & Hrun).
  apply zoom_ok in Hp as (a1 & Hp & ->). cbv zeta in Hrun.
  apply bind_ok in Hrun as (b4 & result & Hval & Hrun). apply bind_ok in Hrun as (b5 & [] & Hstore & Hrun).
  apply bind_ok in Hrun as (b6 & [] & Haudit & Hrun). injection Hrun as <- <- <-.
  apply zoom_ok in Hval as (st & Hval & ->).
  destruct (notebook_run_seen _ _ _ _ _ _ _ Hval Hok) as [(Hk & Hd & Hc & Hvv) Hseen].
  destruct (store_validation_ok _ _ _ _ Hstore) as (id & proof & Ht & Pk & Pd & Pc & Pv & Ps).
  assert (validations b6 = validations b5) as Hsame.
  { apply zoom_ok in Haudit as (a & Ha & ->). unfold audit_api in Ha. apply zoom_ok in Ha as (x & _ & ->). done. }
  rewrite Hd in Pd. assert (wv_image_digest proof = function_identity r0) as Pd'.
  { rewrite Pd. unfold text_or, function_identity, notebook_validation_identity. by rewrite digests. }
  rewrite Hok in Ps. split_and!; [done| | |exact Hseen|].
  - unfold _forbid_viewer_write in Hviewer. by case_bool_decide.
  - unfold project_for_request in Hp. destruct (require_project_access p _) as [[]|e]; [done|].
    destruct e; try done. by apply bind_ok in Hp as (? & ? & _ & ?).
  - exists proof. assert (proof ∈ rows (validations b6)) as Hin.
    { rewrite Hsame, Ht. apply elem_of_rows. exists id. apply lookup_insert_eq. }
    split_and!; [done..|]. intros Hnew s job registry runtime payload policy Hrt.
    eapply proof_passes_gate; [exact Hin|..]; try done; congruence.
Qed.
End opening.

(** ** The events of a run, read and streamed *)

Record RunEventRecord := mkRunEventRecord {
  re_event : RunEventEnvelope; re_job_id : string; re_project : option string }.

(** What a handler does with its websocket *)
Inductive SocketFrame :=
| SocketAccept
| SocketText (text : string)
| SocketEvent (event : RunEventRecord)
| SocketError (error : string)
| SocketClose (code : Z).

Record Live `{RunEventRedis} := mkLive { lv_api : ApiWorld; lv_redis : server; lv_sent : list SocketFrame }.
Arguments mkLive {_} lv_api lv_redis lv_sent.

Section live.
Context `{Sqlite} `{Env} `{Crypto} `{Jwt} `{Hub} `{RunEventRedis}.
Context (state : AppState).

Definition lv_api_lens : lens Live ApiWorld := Lens lv_api (λ a l, mkLive a (lv_redis l) (lv_sent l)).
Definition lv_redis_lens : lens Live server := Lens lv_redis (λ r l, mkLive (lv_api l) r (lv_sent l)).
Definition send (f : SocketFrame) : M Live unit :=
  modify (λ l, mkLive (lv_api l) (lv_redis l) (lv_sent l ++ [f])).

Definition run_event_record (run : RunRecord) (project : option string) (entry : string * RunEventEnvelope) : RunEventRecord :=
  mkRunEventRecord entry.2 (r_job_id run) project.

Definition list_run_events (run_id : string) (after_sequence limit : Z) (principal : Principal)
    : M Live (list RunEventRecord * PageMeta * Z) :=
  let* run := zoom lv_api_lens (run_for_principal state run_id principal) in
  let* entries := try_catch (zoom lv_redis_lens (read_run_event_entries (r_id run) after_sequence limit))
    (λ e, if is_transport_error e then raise (HTTPException 503 (exn_str e)) else raise e) in
  let* project := gets (λ l, project_id_for_run run (lv_api l)) in
  let items := run_event_record run project <$> entries in
  ret (items, page_meta limit after_sequence items,
       match last items with Some item => ev_sequence (re_event item) | None => after_sequence end).

Definition authenticate (token : string) : M Live Principal :=
  zoom lv_api_lens (zoom auth_lens (authenticate_token token (st_bootstrap_admin_token (settings state))
    (st_oidc (settings state)) (st_jupyterhub (settings state)))).

(** The loop of [stream_run_events], so many rounds of it; [meanwhile] is what happens
    around each of them. *)
Fixpoint stream_rounds (meanwhile : nat → M Live unit) (n turn : nat) (run : RunRecord) (last_sequence : Z) : M Live unit :=
  match n with
  | O => ret tt
  | S n' =>
      let* read := try_catch
        (let* entries := zoom lv_redis_lens (read_run_event_entries (r_id run) last_sequence MAX_RUN_EVENT_READ_LIMIT) in
         ret (Some entries))
        (λ e, if is_transport_error e then ret None else raise e) in
      match read with
      | None => do* send (SocketError "run event transport is unavailable") in send (SocketClose 1011)
      | Some entries =>
          let* project := gets (λ l, project_id_for_run run (lv_api l)) in
          do* forM_ entries (λ entry, send (SocketEvent (run_event_record run project entry))) in
          do* meanwhile turn in
          stream_rounds meanwhile n' (S turn) run (default last_sequence (sequence_of <$> last entries))
      end
  end.

(** [int(query_params.get("after_sequence", "0"))], refused below 0 *)
Definition after_sequence_of (query : option string) : result Z :=
  let? n := py_int_text (default "0" query) in
  if n <? 0 then Err (ValueError "after_sequence must be non-negative") else Ok n.

Definition closes_quietly (e : exn) : bool :=
  is_value_error e || match e with HTTPException _ _ => true | _ => false end.

Definition stream_run_events (run_id : string) (token after_sequence : option string)
    (meanwhile : nat → M Live unit) (rounds : nat) : M Live unit :=
  match token with
  | None => send (SocketClose 1008)
  | Some token =>
      let* admitted := try_catch
        (let* principal := authenticate token in
         let* run := zoom lv_api_lens (run_for_principal state run_id principal) in
         let* after := lift_result (after_sequence_of after_sequence) in
         ret (Some (run, after)))
        (λ e, if closes_quietly e then ret None else raise e) in
      match admitted with
      | None => send (SocketClose 1008)
      | Some (run, after) => do* send SocketAccept in stream_rounds meanwhile rounds 0 run after
      end
  end.

(** What [pubsub.get_message] answers: nothing, a message of another type, bytes or a text *)
Inductive PubsubMessage := NoMessage | OtherMessage | BytesMessage (data : string) | TextMessage (data : string).

(** [stream_runs], given the messages the channel of all events delivers *)
Definition stream_runs (token : option string) (messages : list PubsubMessage) : M Live unit :=
  match token with
  | None => send (SocketClose 1008)
  | Some token =>
      let* admitted := try_catch (do* authenticate token in ret true)
        (λ e, match e with AuthError _ _ => ret false | _ => raise e end) in
      if negb admitted then send (SocketClose 1008) else
      do* send SocketAccept in
      forM_ messages (λ message,
        match message with
        | NoMessage | OtherMessage => ret tt
        | TextMessage data => send (SocketText data)
        | BytesMessage data =>
            match utf8_decode data with
            | Some text => send (SocketText text)
            | None => raise (OtherValueError "UnicodeDecodeError" "invalid start byte")
            end
        end)
  end.
End live.

(** ** A stream in order *)

Section streaming.
Context `{Sqlite} `{Env} `{Crypto} `{Jwt} `{Hub} `{RunEventRedis}.
Context (state : AppState).

Definition later (x y : RunEventRecord) : Prop := ev_sequence (re_event x) < ev_sequence (re_event y).
Definition of_run (run : RunRecord) (after : Z) (x : RunEventRecord) : Prop :=
  after < ev_sequence (re_event x) ∧ ev_run_id (re_event x) = r_id run ∧ re_job_id x = r_job_id run.
Definition streamed (frames : list SocketFrame) : list RunEventRecord :=
  omap (λ f, match f with SocketEvent e => Some e | _ => None end) frames.

Lemma streamed_app k l : streamed (k ++ l) = streamed k ++ streamed l.
Proof. apply omap_app. Qed.
Lemma streamed_events es : streamed (SocketEvent <$> es) = es.
Proof. unfold streamed. induction es as [|e es IH]; [done|]. simpl. f_equal. exact IH. Qed.

Lemma send_events run project entries l :
  forM_ entries (λ entry, send (SocketEvent (run_event_record run project entry))) l
  = (mkLive (lv_api l) (lv_redis l) (lv_sent l ++ (SocketEvent <$> (run_event_record run project <$> entries))), Ok tt).
Proof.
  revert l. induction entries as [|entry entries IH]; intros l; simpl.
  - rewrite app_nil_r. by destruct l.
  - unfold bind, send, modify. rewrite IH. simpl. by rewrite <- app_assoc.
Qed.

Lemma read_ordered run_id after limit s s' entries :
  read_run_event_entries run_id after limit s = (s', Ok entries) →
  StronglySorted seq_lt entries ∧ Forall (λ x, after < sequence_of x ∧ ev_run_id x.2 = run_id) entries.
Proof.
  unfold read_run_event_entries. destruct (after <? 0); [done|]. destruct (negb _); [done|].
  intros (s1 & raw & _ & Hr)%bind_ok. unfold lift_result in Hr. injection Hr as _ Hr. unfold replay in Hr.
  destruct (decode_entries run_id after raw) as [decoded|] eqn:Hd; [|done]. simpl in Hr. injection Hr as <-.
  destruct (monotonic_selected after (sort_events decoded)) as [Hs Ha Hf _]; [apply sort_events_sorted|].
  split; [by apply sorted_take|]. apply Forall_take, Forall_forall. intros x Hx.
  rewrite Forall_forall in Ha. split; [by apply Ha|].
  apply Hf in Hx. rewrite sort_events_perm in Hx. apply (decode_entries_elem _ _ _ _ x Hd) in Hx as (entry & _ & He).
  by apply decode_entry_some in He as (? & _ & _ & _ & _ & Hrun & _).
Qed.

Lemma last_above (entries : list (string * RunEventEnvelope)) after :
  StronglySorted seq_lt entries → Forall (λ x, after < sequence_of x) entries →
  let next := default after (sequence_of <$> last entries) in
  after ≤ next ∧ Forall (λ x, sequence_of x ≤ next) entries.
Proof.
  intros Hs. revert after. induction Hs as [|x l Hs IH Hx]; intros after; simpl; [intros _; split; [lia|constructor]|].
  intros [Hlt _]%Forall_cons. destruct (IH (sequence_of x) Hx) as [Hlow Hhigh].
  assert (default after (sequence_of <$> last (x :: l)) = default (sequence_of x) (sequence_of <$> last l)) as E.
  { destruct l as [|y l]; [done|]. change (last (x :: y :: l)) with (last (y :: l)).
    destruct (last (y :: l)) as [z|] eqn:Hz; [done|]. by apply last_None in Hz. }
  simpl in E. rewrite E. split; [lia|]. constructor; [lia|done].
Qed.

Lemma stream_rounds_sent meanwhile n turn run after l :
  (∀ k, Preserves lv_sent (meanwhile k)) →
  ∃ frames, lv_sent (stream_rounds meanwhile n turn run after l).1 = lv_sent l ++ frames
    ∧ StronglySorted later (streamed frames) ∧ Forall (of_run run after) (streamed frames).
Proof.
  intros Hm. revert turn after l. induction n as [|n IH]; intros turn after l; simpl.
  { exists []. rewrite app_nil_r. split_and!; [done|constructor|constructor]. }
  assert (∀ l1, lv_sent l1 = lv_sent l → ∃ frames, lv_sent l1 = lv_sent l ++ frames
    ∧ StronglySorted later (streamed frames) ∧ Forall (of_run run after) (streamed frames)) as Hstop.
  { intros l1 ->. exists []. rewrite app_nil_r. split_and!; [done|constructor|constructor]. }
  unfold bind at 1, try_catch, bind at 1. rewrite zoom_eq.
  destruct (read_run_event_entries _ _ _ (view lv_redis_lens l)) as [s1 [entries|e]] eqn:Hread; simpl.
  2:{ destruct (is_transport_error e); [|by apply Hstop].
      exists [SocketError "run event transport is unavailable"; SocketClose 1011]. simpl.
      rewrite <- app_assoc. split_and!; [done|constructor|constructor]. }
  apply read_ordered in Hread as [Hs Hall].
  rewrite bind_gets. cbn [lv_api]. set (project := project_id_for_run run (lv_api l)).
  unfold bind at 1. rewrite send_events. cbn [lv_api lv_redis lv_sent]. unfold bind.
  set (l1 := mkLive _ _ _). specialize (Hm turn l1) as Hm1.
  destruct (last_above entries after Hs) as [Hle Hnext]; [eapply Forall_impl; [exact Hall|]; simpl; tauto|].
  assert (StronglySorted later (run_event_record run project <$> entries)) as Hs'.
  { clear -Hs. induction Hs as [|x xs Hs IH Hx]; simpl; constructor; [done|].
    apply Forall_fmap. exact Hx. }
  assert (Forall (of_run run after) (run_event_record run project <$> entries)) as Hof.
  { apply Forall_fmap. eapply Forall_impl; [exact Hall|]. intros x [Ha Hr]. by split_and!. }
  destruct (meanwhile turn l1) as [l2 [[]|e]]; simpl in Hm1.
  - destruct (IH (S turn) (default after (sequence_of <$> last entries)) l2) as (frames & Hf & Hsf & Hff).
    exists ((SocketEvent <$> (run_event_record run project <$> entries)) ++ frames). rewrite Hf, Hm1, streamed_app, streamed_events.
    split_and!; [by rewrite <- app_assoc| |].
    + apply StronglySorted_app_2; [|done|done]. intros x y Hx Hy.
      rewrite Forall_forall in Hff. destruct (Hff y Hy) as [Hlt _].
      apply list_elem_of_fmap in Hx as (e & -> & He). rewrite Forall_forall in Hnext. specialize (Hnext e He).
      unfold later, run_event_record, sequence_of in *. simpl. lia.
    + apply Forall_app_2; [done|]. eapply Forall_impl; [exact Hff|]. intros x (Hx & ? & ?). split_and!; [lia|done..].
  - exists (SocketEvent <$> (run_event_record run project <$> entries)). rewrite streamed_events. by split_and!.
Qed.

(** A streamed run shows each of its events once, in order, and to nobody else.  Whatever
    workers and other handlers do between the reads and however long it goes on, the events
    sent on a websocket strictly increase in sequence; and any are sent only to a caller
    whose token authenticates and whom the project gate lets at the run, all of them
    events of exactly this run above the cursor the caller named. *)
Theorem run_stream_ordered (run_id : string) (token after_sequence : option string) (meanwhile : nat → M Live unit)
    (rounds : nat) (l : Live) :
  (∀ k, Preserves lv_sent (meanwhile k)) → lv_sent l = [] →
  let events := streamed (lv_sent (stream_run_events state run_id token after_sequence meanwhile rounds l).1) in
  StronglySorted later events
  ∧ (events ≠ [] → ∃ t p run after l1 a,
       token = Some t ∧ authenticate state t l = (l1, Ok p)
       ∧ run_for_principal state run_id p (lv_api l1) = (a, Ok run)
       ∧ after_sequence_of after_sequence = Ok after ∧ Forall (of_run run after) events).
Proof.
  intros Hm Hl. cbv zeta. generalize (eq_refl (streamed (lv_sent (stream_run_events state run_id token after_sequence meanwhile rounds l).1))).
  generalize (streamed (lv_sent (stream_run_events state run_id token after_sequence meanwhile rounds l).1)) at 2 3 4 5.
  intros events. unfold stream_run_events. destruct token as [t|].
  2:{ simpl. rewrite Hl. intros <-. split; [constructor|done]. }
  unfold bind at 1, try_catch. set (gate := bind (authenticate state t) _).
  assert (lv_sent (gate l).1 = []) as Hsent.
  { assert (Preserves lv_sent gate) as Hp; [|by rewrite (Hp l)]. unfold gate, authenticate.
    apply preserves_bind; [intros l0; by rewrite zoom_eq|]. intros p.
    apply preserves_bind; [intros l0; by rewrite zoom_eq|]. intros run. apply _. }
  destruct (gate l) as [l' [[[run after]|]|e]] eqn:Hgate; simpl in Hsent.
  - apply bind_ok in Hgate as (l1 & p & Hauth & Hgate). apply bind_ok in Hgate as (l2 & run' & Hrun & Hgate).
    apply bind_ok in Hgate as (l3 & after' & Hafter & Hgate). injection Hgate as <- <- <-.
    injection Hafter as <- Hafter. apply zoom_ok in Hrun as (a & Hrun & Hl2).
    set (l4 := mkLive (lv_api l2) (lv_redis l2) (lv_sent l2 ++ [SocketAccept])).
    destruct (stream_rounds_sent meanwhile rounds 0 run' after' l4 Hm) as (frames & Hf & Hs & Hof).
    change ((bind (send SocketAccept) (λ _, stream_rounds meanwhile rounds 0 run' after')) l2)
      with (stream_rounds meanwhile rounds 0 run' after' l4).
    rewrite Hf. unfold l4. simpl lv_sent. rewrite Hsent. intros <-. split; [exact Hs|]. intros _.
    exists t, p, run', after', l1, a. split_and!; [done|exact Hauth|exact Hrun|exact Hafter|exact Hof].
  - simpl. rewrite Hsent. intros <-. split; [constructor|done].
  - destruct (closes_quietly e); simpl; rewrite Hsent; intros <-; (split; [constructor|done]).
Qed.
End streaming.

(** ** Runs on concrete inputs *)

Definition noted_function : NotebookGoblinRecord :=
  mkNotebookGoblin "note.clean.v1" (Some "p1") "Clean" "function:1" "def run(): ..." "src" "run" None 0 0 0 "ann" ∅.
Definition bench_api : ApiWorld :=
  mkApi (put_notebooks {[ "note.clean.v1" := noted_function ]} claimed_world) ∅ ∅ ∅ ∅ ∅ ∅ ∅ ∅ 0 0 ∅.
Definition bench_kube : KubernetesRuntimeSettings :=
  mkKubeSettings "forwarder:1" PullIfNotPresent PullIfNotPresent [] true bound_accounts None.
Definition bench : @Bench (one_file "hello") :=
  @mkBench (one_file "hello") bench_api (@mkDepot (one_file "hello") EmptyString ∅ 0).
Definition passing_cluster : KubeCluster :=
  sample_cluster (mkJobStatus 1 0) [ended_pod] (LogText "hi") (Some "{}").
Definition prove_note (p : Principal) :=
  @validate_notebook_goblin sqlite_merge ticking_env plain_crypto plain_quantities down_host passing_cluster (one_file "hello")
    calm plain_state bench_kube "redis://cache" "default" true "note.clean.v1" (mkNotebookValidate ∅ true None) p bench.

Definition verdict_of (r : @Bench (one_file "hello") * result (NotebookGoblinRecord * KubernetesValidation)) : bool + string :=
  match r.2 with Ok (_, v) => inl (vr_ok (kv_result v)) | Err e => inr (exn_str e) end.
(** A member proves the function of their project; a viewer and a stranger may not. *)
Example note_proved :
  verdict_of (prove_note (member "ann" "p1")) = inl true
  ∧ verdict_of (prove_note (mkPrincipal "eve" "eve" RoleViewer (Some "p1") false "token"))
    = inr "403: viewer role cannot create notebook goblins"
  ∧ verdict_of (prove_note (member "bob" "p2")) = inr "403: project access denied".
Proof. by vm_compute. Qed.

Lemma notebook_proof_opens_gate_witness :
  ∃ b v, prove_note (member "ann" "p1") = (b, Ok (noted_function, v))
  ∧ ∃ proof, proof ∈ rows (w_validations (a_world (bn_api b))) ∧ wv_status proof = ValidationPassed.
Proof.
  assert (Hok : verdict_of (prove_note (member "ann" "p1")) = inl true) by (by vm_compute).
  destruct (prove_note (member "ann" "p1")) as [b [[r v]|e]] eqn:Hrun; [|discriminate Hok].
  unfold verdict_of in Hok. simpl in Hok. injection Hok as Hok. pose proof Hrun as Hrun'. unfold prove_note in Hrun'.
  destruct (@notebook_proof_opens_gate sqlite_merge ticking_env plain_crypto plain_quantities down_host passing_cluster
    (one_file "hello") calm plain_state bench_kube "redis://cache" "default" down_workers (λ s, eq_refl)
    "note.clean.v1" (mkNotebookValidate ∅ true None) (member "ann" "p1") bench b r v Hrun' Hok)
    as (Hget & _ & _ & _ & proof & Hin & _ & Hpass & _).
  assert (w_notebooks (a_world (bn_api bench)) !! "note.clean.v1" = Some noted_function) as Hn by reflexivity.
  rewrite Hn in Hget. injection Hget as <-. exists b, v. split; [reflexivity|]. exists proof. split; [exact Hin|exact Hpass].
Defined.

Definition live_api : ApiWorld :=
  mkApi (world_with (mkJobTables {[ "high" := claimed_row ]} {[ "run-1" := sample_run "run-1" "high" 1 RRunning 5 None None ]} [] []))
    ∅ ∅ ∅ ∅ ∅ ∅ ∅ ∅ 0 0 ∅.
Definition stream_of (texts : list string) : @server small_redis :=
  (∅, {[ run_event_stream_key "run-1" := (λ t, (t, Some t)) <$> texts ]}).
Definition live : @Live small_redis := @mkLive small_redis live_api (stream_of ["2"; "1"; "4"; "2"]) [].
(** A worker that publishes an event per round *)
Definition publishing (turn : nat) : M (@Live small_redis) unit :=
  modify (λ l, @mkLive small_redis (@lv_api small_redis l)
    (stream_of (["4"; "1"; "2"] ++ (pretty <$> seqZ 5 (Z.of_nat turn + 1)))) (@lv_sent small_redis l)).
Definition watch (token after : option string) : @Live small_redis :=
  (@stream_run_events ticking_env plain_crypto no_jwt admin_hub small_redis plain_state "run-1" token after
     publishing 3 live).1.

(** Each event is sent once, and a caller without a token or with a bad cursor is not
    let in. *)
Example watched :
  ev_sequence ∘ re_event <$> streamed (@lv_sent small_redis (watch (Some "boot") (Some "1"))) = [2; 4; 5; 6]
  ∧ @lv_sent small_redis (watch None None) = [SocketClose 1008]
  ∧ @lv_sent small_redis (watch (Some "boot") (Some "-1")) = [SocketClose 1008].
Proof. by vm_compute. Qed.

Lemma run_stream_ordered_witness :
  StronglySorted later (streamed (@lv_sent small_redis (watch (Some "boot") (Some "1")))).
Proof.
  apply (@run_stream_ordered ticking_env plain_crypto no_jwt admin_hub small_redis plain_state "run-1"
    (Some "boot") (Some "1") publishing 3 live); [by intros k l|reflexivity].
Defined.

(** The stream of all events asks for a token and for nothing else: a member of one
    project is sent the events of another. *)
Definition eavesdrop : list SocketFrame :=
  let token := mkApiToken "t1" "t" "h:tok" 0 "u1" (Some "p1") RoleMember None in
  let a := mkApi (world_with empty_job_tables) ∅ ∅ ∅ ∅ {[ "u1" := mkUser "u1" "u@x" "U" 0 false ]} ∅ {[ "t1" := token ]} ∅ 0 0 ∅ in
  @lv_sent small_redis (@stream_runs ticking_env plain_crypto no_jwt admin_hub small_redis plain_state (Some "tok")
    [NoMessage; BytesMessage "{project_id: p2}"] (@mkLive small_redis a (stream_of []) [])).1.
Example events_of_other_projects : eavesdrop = [SocketAccept; SocketText "{project_id: p2}"].
Proof. by vm_compute. Qed.

(** The listing leaves out the functions of other projects. *)
Definition listed (p : Principal) : list (string * string) :=
  match (@list_goblins sqlite_merge ticking_env (mkAppState plain_settings {[ "report" := sample_goblin ]} ∅ None) ["report"] ∅ p bench_api).2 with
  | Ok items => (λ i, (gd_kind (gi_definition i), gi_source i)) <$> items
  | Err _ => []
  end.
Example listings :
  listed (member "ann" "p1") = [("report", "project-config"); ("note.clean.v1", "notebook")]
  ∧ listed (member "bob" "p2") = [("report", "project-config")].
Proof. by vm_compute. Qed.
