(* ===== verification/StoreRows.v ===== *)
(** * Records as rows ([src/src/goblin_king/store_rows.py], the inserts of [store.py] and
    [store_run_lifecycle.py])

    The tables of this library hold the records that were written.  The code writes a
    record's values into the columns of a row and builds the record again from them; this
    file models both ways and proves that they come to the same.

    A column holds what SQLAlchemy hands out for it: NULL, a number, a text, a timestamp or
    a JSON text, the last as the value it denotes.  A [DateTime] column of SQLite keeps the
    local fields of a timestamp and drops its offset.  Constructing a record checks its
    fields. *)

From Stdlib Require Import Ascii.
From S2P Require Import Prelude CausalTime Contracts Text EventStore JobStore RecordStore Validation Delivery Api ApiServices ApiDirectory ApiAdmin Doctor.

Inductive column_value :=
| VNull
| VInt (z : Z)
| VText (s : string)
| VTime (t : datetime)
| VJson (j : Json)
| VResult (r : GoblinResult).

(** The mapping [payload] of a row *)
Definition RowPayload : Type := list (string * column_value).

(** [datetime.fromisoformat], for timestamps that arrive as texts *)
Class IsoFormat := { fromisoformat : string → result datetime }.

Fixpoint field (p : RowPayload) (key : string) : option column_value :=
  match p with
  | [] => None
  | (k, v) :: p' => if String.eqb k key then Some v else field p' key
  end.
(** [payload[key]] and [payload.get(key)] *)
Definition item (p : RowPayload) (key : string) : result column_value :=
  match field p key with Some v => Ok v | None => Err (KeyError key) end.
Definition get (p : RowPayload) (key : string) : column_value := default VNull (field p key).

Definition invalid {A} (field : string) : result A := Err (ValidationError field).
Definition falsy (v : column_value) : bool :=
  match v with
  | VNull => true
  | VInt z => z =? 0
  | VText s => negb (truthy s)
  | VTime _ | VJson _ | VResult _ => false
  end.

(** Fields of a record, as Pydantic accepts them *)
Definition as_text (v : column_value) : result string := match v with VText s => Ok s | _ => invalid "str" end.
Definition as_opt_text (v : column_value) : result (option string) :=
  match v with VNull => Ok None | VText s => Ok (Some s) | _ => invalid "str" end.
Definition as_int (v : column_value) : result Z := match v with VInt z => Ok z | _ => invalid "int" end.
Definition as_opt_int (v : column_value) : result (option Z) :=
  match v with VNull => Ok None | VInt z => Ok (Some z) | _ => invalid "int" end.
Definition dict_of (v : column_value) : result dict :=
  match v with VJson (JObj o) => Ok (list_to_map o) | _ => invalid "dict" end.
Definition texts_of (l : list Json) : result (list string) :=
  mapM_result (λ j, match j with JStr s => Ok s | _ => invalid "str" end) l.
Definition as_texts (v : column_value) : result (list string) :=
  match v with VJson (JList l) => texts_of l | _ => invalid "list" end.
Definition literal {A} (name : A → string) (all : list A) (v : column_value) : result A :=
  match v with
  | VText s => match head (filter (λ x, name x = s) all) with Some x => Ok x | None => invalid "literal" end
  | _ => invalid "literal"
  end.
(** [json.loads(value or text)] *)
Definition loads_or (default_value : Json) (v : column_value) : column_value :=
  if falsy v then VJson default_value else v.
(** [value or n], [bool(value)] *)
Definition int_or (n : Z) (v : column_value) : column_value := if falsy v then VInt n else v.
Definition text_default_to (s : string) (v : column_value) : column_value := if falsy v then VText s else v.
Definition as_bool (v : column_value) : bool := negb (falsy v).

Section reading.
Context `{IsoFormat}.

Definition _coerce_datetime (v : column_value) : result utc :=
  match v with
  | VTime t => Ok (ensure_utc t)
  | VText s => let? t := fromisoformat s in Ok (ensure_utc t)
  | _ => Err (TypeError "fromisoformat: argument must be str")
  end.
(** [_coerce_datetime(value) if value else None] *)
Definition opt_datetime (v : column_value) : result (option utc) :=
  if falsy v then Ok None else let? t := _coerce_datetime v in Ok (Some t).

Definition text_at (p : RowPayload) (key : string) : result string := let? v := item p key in as_text v.
Definition opt_text_at (p : RowPayload) (key : string) : result (option string) := as_opt_text (get p key).
Definition time_at (p : RowPayload) (key : string) : result utc := let? v := item p key in _coerce_datetime v.
Definition int_at (p : RowPayload) (key : string) : result Z := let? v := item p key in as_int v.

(** ** What constructing a record checks *)
Definition checked {A} (ok : bool) (x : A) : result A := if ok then Ok x else invalid "model".
Definition positive (o : option Z) : bool := match o with Some n => 0 <? n | None => true end.

Definition job_statuses : list JobStatus :=
  [JQueued; JLeased; JRunning; JCompleted; JFailed; JRetrying; JTimedOut; JCancelled].
Definition run_statuses : list RunStatus := [RRunning; RCompleted; RFailed; RTimedOut].
Definition event_sources : list EventSource := [SrcApi; SrcScheduler; SrcRuntime; SrcWorker; SrcCli].
Definition owner_types : list HeartbeatOwnerType := [OwnerScheduler; OwnerWorker].
Definition owner_type_str (o : HeartbeatOwnerType) : string :=
  match o with OwnerScheduler => "scheduler" | OwnerWorker => "worker" end.
Definition principal_roles : list PrincipalRole := [RoleAdmin; RoleMember; RoleViewer].
Definition principal_role_str (r : PrincipalRole) : string :=
  match r with RoleAdmin => "admin" | RoleMember => "member" | RoleViewer => "viewer" end.
Definition service_statuses : list LongServiceStatus := [LsRegistered; LsRunning; LsFailed; LsStopped].
Definition promotion_statuses : list ImagePromotionStatus := [IpPlanned; IpBuilt; IpPushed; IpPromoted; IpFailed].
Definition deployment_statuses : list DeploymentRecordStatus := [DpPlanned; DpRendered; DpDryRun; DpApplied; DpFailed].
Definition validation_statuses : list ValidationStatus := [ValidationPassed; ValidationFailed].
Definition goblin_types : list RepositoryGoblinType := [NotebookFunction; NotebookService].
Definition entry_statuses : list RepositoryEntryStatus :=
  [Draft; Validated; PendingReview; Approved; Published; Rejected; Retired].

Definition event_ok (x : EventRecord) : bool :=
  (0 <=? e_sequence x) && truthy (e_event_type x).
Definition heartbeat_ok (x : HeartbeatRecord) : bool :=
  truthy (hb_status x).
Definition long_service_ok (x : LongServiceRecord) : bool :=
  truthy (ls_base_url x) && truthy (ls_probe_path x).
Definition notebook_goblin_ok (x : NotebookGoblinRecord) : bool :=
  positive (ng_timeout_seconds x) && (0 <=? ng_max_retries x) && is_ok (validate_kind (ng_kind x)).
Definition notebook_service_ok (x : NotebookServiceRecord) : bool :=
  (0 <? ns_port x) && truthy (ns_probe_path x) && is_ok (validate_kind (ns_kind x)).
Definition repository_entry_ok (x : RepositoryEntryRecord) : bool :=
  truthy (re_id x) && truthy (re_owner x) && truthy (re_display_name x) && positive (re_published_version x) && is_ok (validate_kind (re_name x)) && is_ok (validate_kind (re_kind x)).
Definition repository_version_ok (x : RepositoryVersionRecord) : bool :=
  truthy (rv_id x) && truthy (rv_entry_id x) && (0 <? rv_version x) && truthy (rv_source_hash x) && truthy (rv_runner_image x) && is_ok (validate_kind (rv_kind x)).

(** [NotebookServiceRecord(...)]: the probe path becomes absolute *)
Definition build_notebook_service (x : NotebookServiceRecord) : result NotebookServiceRecord :=
  checked (notebook_service_ok x)
    (mkNotebookService (ns_kind x) (ns_project_id x) (ns_display_name x) (ns_image x) (ns_source x) (ns_source_hash x)
       (ns_app_name x) (ns_requirements x) (ns_port x) (validate_probe_path (ns_probe_path x)) (ns_created_at x)
       (ns_updated_at x) (ns_created_by x) (ns_metadata x) (ns_runtime_backend x) (ns_runtime_name x)
       (ns_runtime_status x) (ns_active_service_id x)).
(** [RepositoryEntryRecord(...)]: the tags are normalised *)
Definition build_entry (x : RepositoryEntryRecord) : result RepositoryEntryRecord :=
  if negb (repository_entry_ok x) then invalid "model"
  else match validate_tags (re_tags x) with
  | Err _ => invalid "tags"
  | Ok tags => Ok (mkRepositoryEntry (re_id x) (re_name x) (re_kind x) (re_type x) (re_project_id x) (re_owner x)
      (re_display_name x) (re_description x) tags (re_status x) (re_published_version x) (re_created_at x) (re_updated_at x))
  end.

(** [json.loads(value) if value else None] *)
Definition opt_dict (v : column_value) : result (option dict) :=
  if falsy v then Ok None else let? d := dict_of v in Ok (Some d).
Definition opt_result (v : column_value) : result (option GoblinResult) :=
  match v with
  | VResult r => Ok (Some r)
  | v => if falsy v then Ok None else invalid "GoblinResult"
  end.
(** The kind of a version, or one made of its entry and number *)
Definition version_kind (p : RowPayload) : result string :=
  let v := get p "kind" in
  if falsy v then
    let? entry_id := text_at p "entry_id" in
    let? version := int_at p "version" in
    Ok (text ((λ c, if Ascii.eqb c "_" then "-"%char else c)
         <$> chars ("repository." +:+ entry_id +:+ ".v" +:+ pretty version)))
  else as_text v.

(** ** Reading rows *)

Definition _row_to_fanout (p : RowPayload) : result FanoutRecord :=
  let? x_id := text_at p "id" in
  let? x_created_at := time_at p "created_at" in
  let? x_created_by := text_at p "created_by" in
  let? x_project_id := opt_text_at p "project_id" in
  let? x_correlation_id := opt_text_at p "correlation_id" in
  let? x_description := opt_text_at p "description" in
  Ok (mkFanout x_id x_created_at x_created_by x_project_id x_correlation_id x_description).
Definition _row_to_schedule (p : RowPayload) : result ScheduleRecord :=
  let? x_id := text_at p "id" in
  let? x_kind := text_at p "kind" in
  let? x_project_id := opt_text_at p "project_id" in
  let? x_input_json := (let? v := item p "input_json" in dict_of v) in
  let? x_cron := text_at p "cron" in
  let? x_timezone := text_at p "timezone" in
  let? x_enabled := (let? v := item p "enabled" in Ok (as_bool v)) in
  let? x_priority := int_at p "priority" in
  let? x_created_at := time_at p "created_at" in
  let? x_next_run_at := time_at p "next_run_at" in
  let? x_last_materialized_at := opt_datetime (get p "last_materialized_at") in
  let? x_max_retries := int_at p "max_retries" in
  let? x_timeout_seconds := as_opt_int (get p "timeout_seconds") in
  Ok (mkSchedule x_id x_kind x_project_id x_input_json x_cron x_timezone x_enabled x_priority
      x_created_at x_next_run_at x_last_materialized_at x_max_retries x_timeout_seconds).
Definition _row_to_event (p : RowPayload) : result EventRecord :=
  let? x_id := text_at p "id" in
  let? x_sequence := as_int (int_or 0 (get p "sequence")) in
  let? x_created_at := time_at p "created_at" in
  let? x_event_type := text_at p "event_type" in
  let? x_source := (let? v := item p "source" in literal event_source_str event_sources v) in
  let? x_project_id := opt_text_at p "project_id" in
  let? x_job_id := opt_text_at p "job_id" in
  let? x_run_id := opt_text_at p "run_id" in
  let? x_fanout_id := opt_text_at p "fanout_id" in
  let? x_schedule_id := opt_text_at p "schedule_id" in
  let? x_worker_id := opt_text_at p "worker_id" in
  let? x_scheduler_id := opt_text_at p "scheduler_id" in
  let? x_payload_json := dict_of (loads_or (JObj []) (get p "payload_json")) in
  let x := mkEvent x_id x_sequence x_created_at x_event_type x_source x_project_id x_job_id x_run_id
      x_fanout_id x_schedule_id x_worker_id x_scheduler_id x_payload_json in
  checked (event_ok x) x.
Definition _row_to_user (p : RowPayload) : result UserRecord :=
  let? x_id := text_at p "id" in
  let? x_email := text_at p "email" in
  let? x_display_name := text_at p "display_name" in
  let? x_created_at := time_at p "created_at" in
  let? x_disabled := (let? v := item p "disabled" in Ok (as_bool v)) in
  Ok (mkUser x_id x_email x_display_name x_created_at x_disabled).
Definition _row_to_project (p : RowPayload) : result ProjectRecord :=
  let? x_id := text_at p "id" in
  let? x_name := text_at p "name" in
  let? x_created_at := time_at p "created_at" in
  Ok (mkProject x_id x_name x_created_at).
Definition _row_to_api_token (p : RowPayload) : result ApiTokenRecord :=
  let? x_id := text_at p "id" in
  let? x_name := text_at p "name" in
  let? x_token_hash := text_at p "token_hash" in
  let? x_created_at := time_at p "created_at" in
  let? x_user_id := text_at p "user_id" in
  let? x_project_id := opt_text_at p "project_id" in
  let? x_role := (let? v := item p "role" in literal principal_role_str principal_roles v) in
  let? x_revoked_at := opt_datetime (get p "revoked_at") in
  Ok (mkApiToken x_id x_name x_token_hash x_created_at x_user_id x_project_id x_role x_revoked_at).
Definition _row_to_audit_log (p : RowPayload) : result AuditLogRecord :=
  let? x_id := text_at p "id" in
  let? x_created_at := time_at p "created_at" in
  let? x_action := text_at p "action" in
  let? x_outcome := text_at p "outcome" in
  let? x_user_id := opt_text_at p "user_id" in
  let? x_token_id := opt_text_at p "token_id" in
  let? x_project_id := opt_text_at p "project_id" in
  let? x_resource_type := opt_text_at p "resource_type" in
  let? x_resource_id := opt_text_at p "resource_id" in
  let? x_detail_json := dict_of (loads_or (JObj []) (get p "detail_json")) in
  Ok (mkAuditLog x_id x_created_at x_action x_outcome x_user_id x_token_id x_project_id
      x_resource_type x_resource_id x_detail_json).
Definition _row_to_heartbeat (p : RowPayload) : result HeartbeatRecord :=
  let? x_owner_id := text_at p "owner_id" in
  let? x_owner_type := (let? v := item p "owner_type" in literal owner_type_str owner_types v) in
  let? x_status := text_at p "status" in
  let? x_last_seen_at := time_at p "last_seen_at" in
  let? x_job_id := opt_text_at p "job_id" in
  let? x_run_id := opt_text_at p "run_id" in
  let? x_payload_json := dict_of (loads_or (JObj []) (get p "payload_json")) in
  let x := mkHeartbeat x_owner_id x_owner_type x_status x_last_seen_at x_job_id x_run_id
      x_payload_json in
  checked (heartbeat_ok x) x.
Definition _row_to_long_service (p : RowPayload) : result LongServiceRecord :=
  let? x_id := text_at p "id" in
  let? x_kind := text_at p "kind" in
  let? x_project_id := opt_text_at p "project_id" in
  let? x_image := opt_text_at p "image" in
  let? x_base_url := text_at p "base_url" in
  let? x_probe_path := as_text (text_default_to "/hello" (get p "probe_path")) in
  let? x_status := (let? v := item p "status" in literal long_status_str service_statuses v) in
  let? x_created_at := time_at p "created_at" in
  let? x_created_by := text_at p "created_by" in
  let? x_last_probe_at := opt_datetime (get p "last_probe_at") in
  let? x_last_probe_json := opt_dict (get p "last_probe_json") in
  let x := mkLongService x_id x_kind x_project_id x_image x_base_url x_probe_path x_status
      x_created_at x_created_by x_last_probe_at x_last_probe_json in
  checked (long_service_ok x) x.
Definition _row_to_notebook_goblin (p : RowPayload) : result NotebookGoblinRecord :=
  let? x_kind := text_at p "kind" in
  let? x_project_id := opt_text_at p "project_id" in
  let? x_display_name := text_at p "display_name" in
  let? x_image := text_at p "image" in
  let? x_source := text_at p "source" in
  let? x_source_hash := text_at p "source_hash" in
  let? x_function_name := text_at p "function_name" in
  let? x_timeout_seconds := as_opt_int (get p "timeout_seconds") in
  let? x_max_retries := as_int (int_or 0 (get p "max_retries")) in
  let? x_created_at := time_at p "created_at" in
  let? x_updated_at := time_at p "updated_at" in
  let? x_created_by := text_at p "created_by" in
  let? x_metadata_json := dict_of (loads_or (JObj []) (get p "metadata_json")) in
  let x := mkNotebookGoblin x_kind x_project_id x_display_name x_image x_source x_source_hash
      x_function_name x_timeout_seconds x_max_retries x_created_at x_updated_at x_created_by
      x_metadata_json in
  checked (notebook_goblin_ok x) x.
Definition _row_to_notebook_service (p : RowPayload) : result NotebookServiceRecord :=
  let? x_kind := text_at p "kind" in
  let? x_project_id := opt_text_at p "project_id" in
  let? x_display_name := text_at p "display_name" in
  let? x_image := text_at p "image" in
  let? x_source := text_at p "source" in
  let? x_source_hash := text_at p "source_hash" in
  let? x_app_name := text_at p "app_name" in
  let? x_requirements_json := as_texts (loads_or (JList []) (get p "requirements_json")) in
  let? x_port := as_int (int_or 8080 (get p "port")) in
  let? x_probe_path := as_text (text_default_to "/hello" (get p "probe_path")) in
  let? x_created_at := time_at p "created_at" in
  let? x_updated_at := time_at p "updated_at" in
  let? x_created_by := text_at p "created_by" in
  let? x_metadata_json := dict_of (loads_or (JObj []) (get p "metadata_json")) in
  let? x_runtime_backend := opt_text_at p "runtime_backend" in
  let? x_runtime_name := opt_text_at p "runtime_name" in
  let? x_runtime_status := as_text (text_default_to "declared" (get p "runtime_status")) in
  let? x_active_service_id := opt_text_at p "active_service_id" in
  build_notebook_service (mkNotebookService x_kind x_project_id x_display_name x_image x_source x_source_hash
      x_app_name x_requirements_json x_port x_probe_path x_created_at x_updated_at x_created_by
      x_metadata_json x_runtime_backend x_runtime_name x_runtime_status x_active_service_id).
Definition _row_to_repository_entry (p : RowPayload) : result RepositoryEntryRecord :=
  let? x_id := text_at p "id" in
  let? x_name := text_at p "name" in
  let? x_kind := text_at p "kind" in
  let? x_type := (let? v := item p "type" in literal goblin_type_str goblin_types v) in
  let? x_project_id := opt_text_at p "project_id" in
  let? x_owner := text_at p "owner" in
  let? x_display_name := text_at p "display_name" in
  let? x_description := opt_text_at p "description" in
  let? x_tags_json := as_texts (loads_or (JList []) (get p "tags_json")) in
  let? x_status := (let? v := item p "status" in literal entry_status_str entry_statuses v) in
  let? x_published_version := as_opt_int (get p "published_version") in
  let? x_created_at := time_at p "created_at" in
  let? x_updated_at := time_at p "updated_at" in
  build_entry (mkRepositoryEntry x_id x_name x_kind x_type x_project_id x_owner x_display_name
      x_description x_tags_json x_status x_published_version x_created_at x_updated_at).
Definition _row_to_repository_version (p : RowPayload) : result RepositoryVersionRecord :=
  let? x_id := text_at p "id" in
  let? x_entry_id := text_at p "entry_id" in
  let? x_version := int_at p "version" in
  let? x_kind := version_kind p in
  let? x_source_hash := text_at p "source_hash" in
  let? x_runner_image := text_at p "runner_image" in
  let? x_validation_proof_json := dict_of (loads_or (JObj []) (get p "validation_proof_json")) in
  let? x_approval_status := literal entry_status_str entry_statuses (text_default_to "draft" (get p "approval_status")) in
  let? x_status := (let? v := item p "status" in literal entry_status_str entry_statuses v) in
  let? x_approved_by := opt_text_at p "approved_by" in
  let? x_approved_at := opt_datetime (get p "approved_at") in
  let? x_published_at := opt_datetime (get p "published_at") in
  let? x_created_at := time_at p "created_at" in
  let? x_updated_at := time_at p "updated_at" in
  let x := mkRepositoryVersion x_id x_entry_id x_version x_kind x_source_hash x_runner_image
      x_validation_proof_json x_approval_status x_status x_approved_by x_approved_at
      x_published_at x_created_at x_updated_at in
  checked (repository_version_ok x) x.
Definition _row_to_deployment_record (p : RowPayload) : result DeploymentRecord :=
  let? x_id := text_at p "id" in
  let? x_name := text_at p "name" in
  let? x_action := text_at p "action" in
  let? x_status := (let? v := item p "status" in literal deployment_status_str deployment_statuses v) in
  let? x_actor := text_at p "actor" in
  let? x_command_json := as_texts (loads_or (JList []) (get p "command_json")) in
  let? x_output := opt_text_at p "output" in
  let? x_created_at := time_at p "created_at" in
  let? x_updated_at := time_at p "updated_at" in
  let? x_detail_json := dict_of (loads_or (JObj []) (get p "detail_json")) in
  Ok (mkDeployment x_id x_name x_action x_status x_actor x_command_json x_output x_created_at
      x_updated_at x_detail_json).
Definition _row_to_image_promotion (p : RowPayload) : result ImagePromotionRecord :=
  let? x_id := text_at p "id" in
  let? x_kind := text_at p "kind" in
  let? x_source_image := text_at p "source_image" in
  let? x_target_image := text_at p "target_image" in
  let? x_status := (let? v := item p "status" in literal promotion_status_str promotion_statuses v) in
  let? x_actor := text_at p "actor" in
  let? x_digest := opt_text_at p "digest" in
  let? x_created_at := time_at p "created_at" in
  let? x_updated_at := time_at p "updated_at" in
  let? x_detail_json := dict_of (loads_or (JObj []) (get p "detail_json")) in
  Ok (mkImagePromotion x_id x_kind x_source_image x_target_image x_status x_actor x_digest
      x_created_at x_updated_at x_detail_json).
Definition _row_to_worker_validation (p : RowPayload) : result WorkerValidationRecord :=
  let? x_id := text_at p "id" in
  let? x_kind := text_at p "kind" in
  let? x_image := text_at p "image" in
  let? x_image_digest := text_at p "image_digest" in
  let? x_contract_version := text_at p "contract_version" in
  let? x_validator_version := text_at p "validator_version" in
  let? x_validated_at := time_at p "validated_at" in
  let? x_status := (let? v := item p "status" in literal validation_status_str validation_statuses v) in
  let? x_failure_reasons_json := as_texts (loads_or (JList []) (get p "failure_reasons_json")) in
  let? x_effective_policy_json := dict_of (loads_or (JObj []) (get p "effective_policy_json")) in
  Ok (mkWorkerValidation x_id x_kind x_image x_image_digest x_contract_version
      x_validator_version x_validated_at x_status x_failure_reasons_json x_effective_policy_json).
Definition _row_to_job (p : RowPayload) : result JobRecord :=
  let? x_id := text_at p "id" in
  let? x_kind := text_at p "kind" in
  let? x_input_json := (let? v := item p "input_json" in dict_of v) in
  let? x_created_at := time_at p "created_at" in
  let? x_created_by := text_at p "created_by" in
  let? x_correlation_id := opt_text_at p "correlation_id" in
  let? x_project_id := opt_text_at p "project_id" in
  let? x_fanout_id := opt_text_at p "fanout_id" in
  let? x_metadata_json := dict_of (loads_or (JObj []) (get p "metadata_json")) in
  let? x_status := literal job_status_str job_statuses (text_default_to "queued" (get p "status")) in
  let? x_priority := as_int (int_or 100 (get p "priority")) in
  let? x_schedule_id := opt_text_at p "schedule_id" in
  let? x_due_at := opt_datetime (get p "due_at") in
  let? x_lease_owner := opt_text_at p "lease_owner" in
  let? x_leased_until := opt_datetime (get p "leased_until") in
  let? x_attempt_count := as_int (int_or 0 (get p "attempt_count")) in
  let? x_max_retries := as_int (int_or 0 (get p "max_retries")) in
  let? x_timeout_seconds := as_opt_int (get p "timeout_seconds") in
  let? x_last_error := opt_text_at p "last_error" in
  Ok (mkJob x_id x_kind x_input_json x_created_at x_created_by x_correlation_id x_project_id
      x_fanout_id x_metadata_json x_status x_priority x_schedule_id x_due_at x_lease_owner
      x_leased_until x_attempt_count x_max_retries x_timeout_seconds x_last_error).
Definition _row_to_run (p : RowPayload) : result RunRecord :=
  let? x_id := text_at p "id" in
  let? x_job_id := text_at p "job_id" in
  let? x_kind := text_at p "kind" in
  let? x_project_id := opt_text_at p "project_id" in
  let? x_attempt := int_at p "attempt" in
  let? x_status := (let? v := item p "status" in literal run_status_str run_statuses v) in
  let? x_started_at := time_at p "started_at" in
  let? x_finished_at := opt_datetime (get p "finished_at") in
  let? x_result_json := (let? v := item p "result_json" in opt_result v) in
  let? x_error := opt_text_at p "error" in
  let? x_timeout_seconds := as_opt_int (get p "timeout_seconds") in
  let? x_max_retries := as_int (int_or 0 (get p "max_retries")) in
  let? x_leased_until := opt_datetime (get p "leased_until") in
  let? x_resource_policy_json := opt_dict (get p "resource_policy_json") in
  validate_timestamp_order (mkRun x_id x_job_id x_kind x_project_id x_attempt x_status x_started_at x_finished_at
      x_result_json x_error x_timeout_seconds x_max_retries x_leased_until x_resource_policy_json).
End reading.

(** ** Writing records *)

Definition v_opt {A} (f : A → column_value) (o : option A) : column_value :=
  match o with Some x => f x | None => VNull end.
Definition v_time (t : utc) : column_value := VTime (of_utc t).
Definition v_dict (d : dict) : column_value := VJson (JObj (map_to_list d)).
Definition v_texts (l : list string) : column_value := VJson (JList (JStr <$> l)).
Definition if_truthy (d : option dict) : option dict :=
  match d with Some d => if bool_decide (d = ∅) then None else Some d | None => None end.

Definition fanout_values (x : FanoutRecord) : RowPayload :=
  [("id", VText (f_id x));
   ("created_at", v_time (f_created_at x));
   ("created_by", VText (f_created_by x));
   ("project_id", v_opt VText (f_project_id x));
   ("correlation_id", v_opt VText (f_correlation_id x));
   ("description", v_opt VText (f_description x))].
Definition schedule_values (x : ScheduleRecord) : RowPayload :=
  [("id", VText (sc_id x));
   ("kind", VText (sc_kind x));
   ("project_id", v_opt VText (sc_project_id x));
   ("input_json", v_dict (sc_input x));
   ("cron", VText (sc_cron x));
   ("timezone", VText (sc_timezone x));
   ("enabled", VInt (if sc_enabled x then 1 else 0));
   ("priority", VInt (sc_priority x));
   ("created_at", v_time (sc_created_at x));
   ("next_run_at", v_time (sc_next_run_at x));
   ("last_materialized_at", v_opt v_time (sc_last_materialized_at x));
   ("max_retries", VInt (sc_max_retries x));
   ("timeout_seconds", v_opt VInt (sc_timeout_seconds x))].
Definition event_values (x : EventRecord) : RowPayload :=
  [("id", VText (e_id x));
   ("sequence", VInt (e_sequence x));
   ("created_at", v_time (e_created_at x));
   ("event_type", VText (e_event_type x));
   ("source", VText (event_source_str (e_source x)));
   ("project_id", v_opt VText (e_project_id x));
   ("job_id", v_opt VText (e_job_id x));
   ("run_id", v_opt VText (e_run_id x));
   ("fanout_id", v_opt VText (e_fanout_id x));
   ("schedule_id", v_opt VText (e_schedule_id x));
   ("worker_id", v_opt VText (e_worker_id x));
   ("scheduler_id", v_opt VText (e_scheduler_id x));
   ("payload_json", v_dict (e_payload x))].
Definition user_values (x : UserRecord) : RowPayload :=
  [("id", VText (u_id x));
   ("email", VText (u_email x));
   ("display_name", VText (u_display_name x));
   ("created_at", v_time (u_created_at x));
   ("disabled", VInt (if u_disabled x then 1 else 0))].
Definition project_values (x : ProjectRecord) : RowPayload :=
  [("id", VText (p_id x));
   ("name", VText (p_name x));
   ("created_at", v_time (p_created_at x))].
Definition api_token_values (x : ApiTokenRecord) : RowPayload :=
  [("id", VText (t_id x));
   ("name", VText (t_name x));
   ("token_hash", VText (t_token_hash x));
   ("created_at", v_time (t_created_at x));
   ("user_id", VText (t_user_id x));
   ("project_id", v_opt VText (t_project_id x));
   ("role", VText (principal_role_str (t_role x)));
   ("revoked_at", v_opt v_time (t_revoked_at x))].
Definition audit_log_values (x : AuditLogRecord) : RowPayload :=
  [("id", VText (al_id x));
   ("created_at", v_time (al_created_at x));
   ("action", VText (al_action x));
   ("outcome", VText (al_outcome x));
   ("user_id", v_opt VText (al_user_id x));
   ("token_id", v_opt VText (al_token_id x));
   ("project_id", v_opt VText (al_project_id x));
   ("resource_type", v_opt VText (al_resource_type x));
   ("resource_id", v_opt VText (al_resource_id x));
   ("detail_json", v_dict (al_detail x))].
Definition heartbeat_values (x : HeartbeatRecord) : RowPayload :=
  [("owner_id", VText (hb_owner_id x));
   ("owner_type", VText (owner_type_str (hb_owner_type x)));
   ("status", VText (hb_status x));
   ("last_seen_at", v_time (hb_last_seen_at x));
   ("job_id", v_opt VText (hb_job_id x));
   ("run_id", v_opt VText (hb_run_id x));
   ("payload_json", v_dict (hb_payload x))].
Definition long_service_values (x : LongServiceRecord) : RowPayload :=
  [("id", VText (ls_id x));
   ("kind", VText (ls_kind x));
   ("project_id", v_opt VText (ls_project_id x));
   ("image", v_opt VText (ls_image x));
   ("base_url", VText (ls_base_url x));
   ("probe_path", VText (ls_probe_path x));
   ("status", VText (long_status_str (ls_status x)));
   ("created_at", v_time (ls_created_at x));
   ("created_by", VText (ls_created_by x));
   ("last_probe_at", v_opt v_time (ls_last_probe_at x));
   ("last_probe_json", v_opt v_dict (ls_last_probe_json x))].
Definition notebook_goblin_values (x : NotebookGoblinRecord) : RowPayload :=
  [("kind", VText (ng_kind x));
   ("project_id", v_opt VText (ng_project_id x));
   ("display_name", VText (ng_display_name x));
   ("image", VText (ng_image x));
   ("source", VText (ng_source x));
   ("source_hash", VText (ng_source_hash x));
   ("function_name", VText (ng_function_name x));
   ("timeout_seconds", v_opt VInt (ng_timeout_seconds x));
   ("max_retries", VInt (ng_max_retries x));
   ("created_at", v_time (ng_created_at x));
   ("updated_at", v_time (ng_updated_at x));
   ("created_by", VText (ng_created_by x));
   ("metadata_json", v_dict (ng_metadata x))].
Definition notebook_service_values (x : NotebookServiceRecord) : RowPayload :=
  [("kind", VText (ns_kind x));
   ("project_id", v_opt VText (ns_project_id x));
   ("display_name", VText (ns_display_name x));
   ("image", VText (ns_image x));
   ("source", VText (ns_source x));
   ("source_hash", VText (ns_source_hash x));
   ("app_name", VText (ns_app_name x));
   ("requirements_json", v_texts (ns_requirements x));
   ("port", VInt (ns_port x));
   ("probe_path", VText (ns_probe_path x));
   ("created_at", v_time (ns_created_at x));
   ("updated_at", v_time (ns_updated_at x));
   ("created_by", VText (ns_created_by x));
   ("metadata_json", v_dict (ns_metadata x));
   ("runtime_backend", v_opt VText (ns_runtime_backend x));
   ("runtime_name", v_opt VText (ns_runtime_name x));
   ("runtime_status", VText (ns_runtime_status x));
   ("active_service_id", v_opt VText (ns_active_service_id x))].
Definition repository_entry_values (x : RepositoryEntryRecord) : RowPayload :=
  [("id", VText (re_id x));
   ("name", VText (re_name x));
   ("kind", VText (re_kind x));
   ("type", VText (goblin_type_str (re_type x)));
   ("project_id", v_opt VText (re_project_id x));
   ("owner", VText (re_owner x));
   ("display_name", VText (re_display_name x));
   ("description", v_opt VText (re_description x));
   ("tags_json", v_texts (re_tags x));
   ("status", VText (entry_status_str (re_status x)));
   ("published_version", v_opt VInt (re_published_version x));
   ("created_at", v_time (re_created_at x));
   ("updated_at", v_time (re_updated_at x))].
Definition repository_version_values (x : RepositoryVersionRecord) : RowPayload :=
  [("id", VText (rv_id x));
   ("entry_id", VText (rv_entry_id x));
   ("version", VInt (rv_version x));
   ("kind", VText (rv_kind x));
   ("source_hash", VText (rv_source_hash x));
   ("runner_image", VText (rv_runner_image x));
   ("validation_proof_json", v_dict (rv_validation_proof x));
   ("approval_status", VText (entry_status_str (rv_approval_status x)));
   ("status", VText (entry_status_str (rv_status x)));
   ("approved_by", v_opt VText (rv_approved_by x));
   ("approved_at", v_opt v_time (rv_approved_at x));
   ("published_at", v_opt v_time (rv_published_at x));
   ("created_at", v_time (rv_created_at x));
   ("updated_at", v_time (rv_updated_at x))].
Definition deployment_record_values (x : DeploymentRecord) : RowPayload :=
  [("id", VText (dr_id x));
   ("name", VText (dr_name x));
   ("action", VText (dr_action x));
   ("status", VText (deployment_status_str (dr_status x)));
   ("actor", VText (dr_actor x));
   ("command_json", v_texts (dr_command x));
   ("output", v_opt VText (dr_output x));
   ("created_at", v_time (dr_created_at x));
   ("updated_at", v_time (dr_updated_at x));
   ("detail_json", v_dict (dr_detail x))].
Definition image_promotion_values (x : ImagePromotionRecord) : RowPayload :=
  [("id", VText (ip_id x));
   ("kind", VText (ip_kind x));
   ("source_image", VText (ip_source_image x));
   ("target_image", VText (ip_target_image x));
   ("status", VText (promotion_status_str (ip_status x)));
   ("actor", VText (ip_actor x));
   ("digest", v_opt VText (ip_digest x));
   ("created_at", v_time (ip_created_at x));
   ("updated_at", v_time (ip_updated_at x));
   ("detail_json", v_dict (ip_detail x))].
Definition worker_validation_values (x : WorkerValidationRecord) : RowPayload :=
  [("id", VText (wv_id x));
   ("kind", VText (wv_kind x));
   ("image", VText (wv_image x));
   ("image_digest", VText (wv_image_digest x));
   ("contract_version", VText (wv_contract_version x));
   ("validator_version", VText (wv_validator_version x));
   ("validated_at", v_time (wv_validated_at x));
   ("status", VText (validation_status_str (wv_status x)));
   ("failure_reasons_json", v_texts (wv_failure_reasons x));
   ("effective_policy_json", v_dict (wv_effective_policy x))].
Definition job_values (x : JobRecord) : RowPayload :=
  [("id", VText (j_id x));
   ("kind", VText (j_kind x));
   ("input_json", v_dict (j_input x));
   ("created_at", v_time (j_created_at x));
   ("created_by", VText (j_created_by x));
   ("correlation_id", v_opt VText (j_correlation_id x));
   ("project_id", v_opt VText (j_project_id x));
   ("fanout_id", v_opt VText (j_fanout_id x));
   ("metadata_json", v_dict (j_metadata x));
   ("status", VText (job_status_str (j_status x)));
   ("priority", VInt (j_priority x));
   ("schedule_id", v_opt VText (j_schedule_id x));
   ("due_at", v_opt v_time (j_due_at x));
   ("lease_owner", v_opt VText (j_lease_owner x));
   ("leased_until", v_opt v_time (j_leased_until x));
   ("attempt_count", VInt (j_attempt_count x));
   ("max_retries", VInt (j_max_retries x));
   ("timeout_seconds", v_opt VInt (j_timeout_seconds x));
   ("last_error", v_opt VText (j_last_error x))].
Definition run_values (x : RunRecord) : RowPayload :=
  [("id", VText (r_id x));
   ("job_id", VText (r_job_id x));
   ("kind", VText (r_kind x));
   ("project_id", v_opt VText (r_project_id x));
   ("attempt", VInt (r_attempt x));
   ("status", VText (run_status_str (r_status x)));
   ("started_at", v_time (r_started_at x));
   ("finished_at", v_opt v_time (r_finished_at x));
   ("result_json", v_opt VResult (r_result x));
   ("error", v_opt VText (r_error x));
   ("timeout_seconds", v_opt VInt (r_timeout_seconds x));
   ("max_retries", VInt (r_max_retries x));
   ("leased_until", v_opt v_time (r_leased_until x));
   ("resource_policy_json", v_opt v_dict (if_truthy (r_resource_policy x)))].

(** What the columns keep of the values *)
Definition keep (v : column_value) : column_value :=
  match v with VTime t => VTime (mkDatetime (dt_local t) None) | _ => v end.
Definition stored (p : RowPayload) : RowPayload := prod_map id keep <$> p.

(** ** Lemmas: a value survives its column *)

Section columns.
Context `{IsoFormat}.

Create HintDb rows.

Lemma keep_text s : as_text (keep (VText s)) = Ok s. Proof. done. Qed.
Lemma keep_opt_text o : as_opt_text (keep (v_opt VText o)) = Ok o. Proof. by destruct o. Qed.
Lemma keep_int z : as_int (keep (VInt z)) = Ok z. Proof. done. Qed.
Lemma keep_opt_int o : as_opt_int (keep (v_opt VInt o)) = Ok o. Proof. by destruct o. Qed.
Lemma keep_int_or n z : as_int (int_or n (keep (VInt z))) = Ok (if z =? 0 then n else z).
Proof. unfold int_or. simpl. by destruct (z =? 0). Qed.
Lemma keep_zero z : (if z =? 0 then 0 else z) = z.
Proof. destruct (Z.eqb_spec z 0); congruence. Qed.
Lemma keep_text_default d s : as_text (text_default_to d (keep (VText s))) = Ok (if truthy s then s else d).
Proof. unfold text_default_to. simpl. by destruct (truthy s). Qed.
Lemma keep_bool (b : bool) : as_bool (keep (VInt (if b then 1 else 0))) = b. Proof. by destruct b. Qed.
Lemma keep_time t : _coerce_datetime (keep (v_time t)) = Ok t. Proof. done. Qed.
Lemma keep_opt_time o : opt_datetime (keep (v_opt v_time o)) = Ok o. Proof. by destruct o. Qed.
Lemma keep_dict d : dict_of (keep (v_dict d)) = Ok d.
Proof. unfold dict_of, v_dict. simpl. by rewrite list_to_map_to_list. Qed.
Lemma keep_dict_or d : dict_of (loads_or (JObj []) (keep (v_dict d))) = Ok d.
Proof. unfold loads_or. simpl. apply keep_dict. Qed.
Lemma keep_opt_dict o : opt_dict (keep (v_opt v_dict o)) = Ok o.
Proof. destruct o as [d|]; [|done]. unfold opt_dict. simpl. by rewrite list_to_map_to_list. Qed.
Lemma keep_texts l : as_texts (loads_or (JList []) (keep (v_texts l))) = Ok l.
Proof.
  unfold loads_or. simpl. apply mapM_result_ok. induction l as [|s l IH]; by constructor.
Qed.
Lemma keep_result o : opt_result (keep (v_opt VResult o)) = Ok o. Proof. by destruct o. Qed.
Lemma keep_literal {A} (name : A → string) (all : list A) x :
  (∀ y, y ∈ all → name y = name x → y = x) → x ∈ all → literal name all (keep (VText (name x))) = Ok x.
Proof.
  intros Hinj Hin. simpl. destruct (head (filter _ all)) as [y|] eqn:Hh.
  - apply head_Some_elem_of in Hh. apply list_elem_of_filter in Hh as [Hn Hy]. by rewrite (Hinj y Hy Hn).
  - apply head_None in Hh. exfalso. apply (not_elem_of_nil x). rewrite <- Hh. by apply list_elem_of_filter.
Qed.

Lemma keep_job_status x : literal job_status_str job_statuses (text_default_to "queued" (keep (VText (job_status_str x)))) = Ok x.
Proof. by destruct x. Qed.
Lemma keep_run_status x : literal run_status_str run_statuses (keep (VText (run_status_str x))) = Ok x.
Proof. by destruct x. Qed.
Lemma keep_source x : literal event_source_str event_sources (keep (VText (event_source_str x))) = Ok x.
Proof. by destruct x. Qed.
Lemma keep_owner_type x : literal owner_type_str owner_types (keep (VText (owner_type_str x))) = Ok x.
Proof. by destruct x. Qed.
Lemma keep_role x : literal principal_role_str principal_roles (keep (VText (principal_role_str x))) = Ok x.
Proof. by destruct x. Qed.
Lemma keep_service_status x : literal long_status_str service_statuses (keep (VText (long_status_str x))) = Ok x.
Proof. by destruct x. Qed.
Lemma keep_promotion_status x : literal promotion_status_str promotion_statuses (keep (VText (promotion_status_str x))) = Ok x.
Proof. by destruct x. Qed.
Lemma keep_deployment_status x :
  literal deployment_status_str deployment_statuses (keep (VText (deployment_status_str x))) = Ok x.
Proof. by destruct x. Qed.
Lemma keep_validation_status x :
  literal validation_status_str validation_statuses (keep (VText (validation_status_str x))) = Ok x.
Proof. by destruct x. Qed.
Lemma keep_goblin_type x : literal goblin_type_str goblin_types (keep (VText (goblin_type_str x))) = Ok x.
Proof. by destruct x. Qed.
Lemma keep_entry_status x : literal entry_status_str entry_statuses (keep (VText (entry_status_str x))) = Ok x.
Proof. by destruct x. Qed.
Lemma keep_approval x :
  literal entry_status_str entry_statuses (text_default_to "draft" (keep (VText (entry_status_str x)))) = Ok x.
Proof. by destruct x. Qed.
End columns.

#[local] Hint Rewrite @keep_text @keep_opt_text @keep_int @keep_opt_int @keep_int_or @keep_zero @keep_text_default
  @keep_bool @keep_time @keep_opt_time @keep_dict @keep_dict_or @keep_opt_dict @keep_texts @keep_result @keep_job_status
  @keep_run_status @keep_source @keep_owner_type @keep_role @keep_service_status @keep_promotion_status
  @keep_deployment_status @keep_validation_status @keep_goblin_type @keep_entry_status @keep_approval : rows.

(** Read the fields of a row one by one. *)
Ltac read_row :=
  unfold stored, text_at, opt_text_at, time_at, int_at, item, get;
  repeat progress (cbn -[keep v_opt v_time v_dict v_texts as_text as_opt_text as_int as_opt_int dict_of as_texts as_bool
    literal loads_or int_or text_default_to _coerce_datetime opt_datetime opt_dict opt_result checked truthy positive
    job_statuses run_statuses event_sources owner_types principal_roles service_statuses promotion_statuses
    deployment_statuses validation_statuses goblin_types entry_statuses]; autorewrite with rows).

Section rows.
Context `{IsoFormat}.

Lemma fanout_row x : _row_to_fanout (stored (fanout_values x)) = Ok x.
Proof. destruct x. unfold _row_to_fanout, fanout_values. by read_row. Qed.
Lemma schedule_row x : _row_to_schedule (stored (schedule_values x)) = Ok x.
Proof. destruct x. unfold _row_to_schedule, schedule_values. by read_row. Qed.
Lemma event_row x : event_ok x = true → _row_to_event (stored (event_values x)) = Ok x.
Proof. destruct x. unfold _row_to_event, event_values. intros Hok. read_row. unfold checked. by rewrite Hok. Qed.
Lemma user_row x : _row_to_user (stored (user_values x)) = Ok x.
Proof. destruct x. unfold _row_to_user, user_values. by read_row. Qed.
Lemma project_row x : _row_to_project (stored (project_values x)) = Ok x.
Proof. destruct x. unfold _row_to_project, project_values. by read_row. Qed.
Lemma api_token_row x : _row_to_api_token (stored (api_token_values x)) = Ok x.
Proof. destruct x. unfold _row_to_api_token, api_token_values. by read_row. Qed.
Lemma audit_log_row x : _row_to_audit_log (stored (audit_log_values x)) = Ok x.
Proof. destruct x. unfold _row_to_audit_log, audit_log_values. by read_row. Qed.
Lemma heartbeat_row x : heartbeat_ok x = true → _row_to_heartbeat (stored (heartbeat_values x)) = Ok x.
Proof. destruct x. unfold _row_to_heartbeat, heartbeat_values. intros Hok. read_row. unfold checked. by rewrite Hok. Qed.
Lemma deployment_record_row x : _row_to_deployment_record (stored (deployment_record_values x)) = Ok x.
Proof. destruct x. unfold _row_to_deployment_record, deployment_record_values. by read_row. Qed.
Lemma image_promotion_row x : _row_to_image_promotion (stored (image_promotion_values x)) = Ok x.
Proof. destruct x. unfold _row_to_image_promotion, image_promotion_values. by read_row. Qed.
Lemma worker_validation_row x : _row_to_worker_validation (stored (worker_validation_values x)) = Ok x.
Proof. destruct x. unfold _row_to_worker_validation, worker_validation_values. by read_row. Qed.
Lemma job_row x : _row_to_job (stored (job_values x)) = Ok (JobStore._row_to_job x).
Proof. destruct x. unfold _row_to_job, job_values. by read_row. Qed.
Lemma notebook_goblin_row x :
  notebook_goblin_ok x = true → _row_to_notebook_goblin (stored (notebook_goblin_values x)) = Ok x.
Proof.
  destruct x. unfold _row_to_notebook_goblin, notebook_goblin_values. intros Hok. read_row. unfold checked. by rewrite Hok.
Qed.

Lemma run_row x : _row_to_run (stored (run_values x)) = JobStore._row_to_run (JobStore._run_values x).
Proof. destruct x. unfold _row_to_run, run_values. read_row. by destruct r_resource_policy. Qed.
Lemma long_service_row x :
  truthy (ls_base_url x) = true →
  _row_to_long_service (stored (long_service_values x)) = Ok (RecordStore._row_to_long_service x).
Proof.
  destruct x as [? ? ? ? ? path]. unfold _row_to_long_service, long_service_values. intros Hok. read_row.
  unfold checked, long_service_ok. simpl in *. rewrite Hok. simpl. unfold RecordStore._row_to_long_service. simpl.
  destruct (truthy path) eqn:Hp; [by rewrite Hp|reflexivity].
Qed.
Lemma notebook_service_row x :
  notebook_service_ok x = true →
  _row_to_notebook_service (stored (notebook_service_values x)) = Ok (RecordStore._row_to_notebook_service x).
Proof.
  destruct x. intros Hok. unfold _row_to_notebook_service, notebook_service_values. read_row.
  unfold build_notebook_service, notebook_service_ok, checked in *. simpl in *.
  apply andb_true_iff in Hok as [[Hport Hpath]%andb_true_iff Hkind].
  assert (ns_port =? 0 = false) as Hzero by (apply Z.eqb_neq; apply Z.ltb_lt in Hport; lia).
  unfold RecordStore._row_to_notebook_service. simpl. rewrite Hpath, Hzero, Hport, Hpath, Hkind. done.
Qed.
Lemma repository_entry_row x :
  repository_entry_ok x = true → validate_tags (re_tags x) = Ok (re_tags x) →
  _row_to_repository_entry (stored (repository_entry_values x)) = Ok x.
Proof.
  destruct x. unfold _row_to_repository_entry, repository_entry_values. intros Hok Htags. read_row.
  unfold build_entry. rewrite Hok. simpl in *. by rewrite Htags.
Qed.
Lemma truthy_nonempty_kind s : is_ok (validate_kind s) = true → truthy s = true.
Proof. destruct s; [done|]. intros _. by vm_compute. Qed.
Lemma repository_version_row x :
  repository_version_ok x = true → _row_to_repository_version (stored (repository_version_values x)) = Ok x.
Proof.
  intros Hok. assert (truthy (rv_kind x) = true) as Hkind.
  { unfold repository_version_ok in Hok. apply truthy_nonempty_kind. by repeat apply andb_true_iff in Hok as [Hok ?]. }
  destruct x. unfold _row_to_repository_version, repository_version_values, version_kind. read_row.
  unfold checked. simpl in *. rewrite Hkind. simpl. by rewrite Hok.
Qed.

(** What is written is what is read.  Writing a record's values into its columns, where
    timestamps lose their offset and JSON becomes text, and building the record again
    from the row gives the record back, in every table: runs, schedules, batches, events,
    heartbeats, users, projects, tokens, audit rows, notebook functions, the catalog's
    entries and versions, promotions, deployments and proofs.  Only the defaults that replace
    a value count: a job's priority of zero becomes 100, an empty probe path its default.
    So a table may hold the records themselves, as the other files of this library have
    it. *)
Theorem store_rows_roundtrip :
  (∀ x, _row_to_job (stored (job_values x)) = Ok (JobStore._row_to_job x))
  ∧ (∀ x, _row_to_run (stored (run_values x)) = JobStore._row_to_run (JobStore._run_values x))
  ∧ (∀ x, _row_to_fanout (stored (fanout_values x)) = Ok x)
  ∧ (∀ x, _row_to_schedule (stored (schedule_values x)) = Ok x)
  ∧ (∀ x, event_ok x = true → _row_to_event (stored (event_values x)) = Ok x)
  ∧ (∀ x, heartbeat_ok x = true → _row_to_heartbeat (stored (heartbeat_values x)) = Ok x)
  ∧ (∀ x, _row_to_user (stored (user_values x)) = Ok x)
  ∧ (∀ x, _row_to_project (stored (project_values x)) = Ok x)
  ∧ (∀ x, _row_to_api_token (stored (api_token_values x)) = Ok x)
  ∧ (∀ x, _row_to_audit_log (stored (audit_log_values x)) = Ok x)
  ∧ (∀ x, truthy (ls_base_url x) = true →
      _row_to_long_service (stored (long_service_values x)) = Ok (RecordStore._row_to_long_service x))
  ∧ (∀ x, notebook_goblin_ok x = true → _row_to_notebook_goblin (stored (notebook_goblin_values x)) = Ok x)
  ∧ (∀ x, notebook_service_ok x = true →
      _row_to_notebook_service (stored (notebook_service_values x)) = Ok (RecordStore._row_to_notebook_service x))
  ∧ (∀ x, repository_entry_ok x = true → validate_tags (re_tags x) = Ok (re_tags x) →
      _row_to_repository_entry (stored (repository_entry_values x)) = Ok x)
  ∧ (∀ x, repository_version_ok x = true → _row_to_repository_version (stored (repository_version_values x)) = Ok x)
  ∧ (∀ x, _row_to_image_promotion (stored (image_promotion_values x)) = Ok x)
  ∧ (∀ x, _row_to_deployment_record (stored (deployment_record_values x)) = Ok x)
  ∧ (∀ x, _row_to_worker_validation (stored (worker_validation_values x)) = Ok x).
Proof.
  split_and!; intros; [apply job_row|apply run_row|apply fanout_row|apply schedule_row|by apply event_row|by apply heartbeat_row
    |apply user_row|apply project_row|apply api_token_row|apply audit_log_row|by apply long_service_row
    |by apply notebook_goblin_row|by apply notebook_service_row|by apply repository_entry_row|by apply repository_version_row
    |apply image_promotion_row|apply deployment_record_row|apply worker_validation_row].
Qed.
End rows.

(** ** Rows on concrete inputs *)

Definition no_iso : IsoFormat := {| fromisoformat s := Err (ValueError ("Invalid isoformat string: " +:+ py_repr s)) |}.

(** A priority of zero is not kept; a timestamp written with an offset is read as another
    instant, as its local time taken for UTC. *)
Example lost_in_columns :
  match @_row_to_job no_iso (stored (job_values (mkJob "j" "report" ∅ 5 "cli" None None None ∅ JQueued 0 None None None None 0 0 None None))) with
  | Ok j => j_priority j = 100
  | Err _ => False
  end
  ∧ @_coerce_datetime no_iso (keep (VTime (mkDatetime 7200000000 (Some 7200000000)))) = Ok 7200000000.
Proof. by vm_compute. Qed.

(** A row whose status is none of the literals, or without a column that every row has,
    cannot be read. *)
Example unreadable_rows :
  @_row_to_project no_iso [("id", VText "p"); ("created_at", VTime (mkDatetime 0 None))] = Err (KeyError "name")
  ∧ @_row_to_heartbeat no_iso [("owner_id", VText "w"); ("owner_type", VText "robot")] = Err (ValidationError "literal").
Proof. by vm_compute. Qed.

Lemma store_rows_roundtrip_witness :
  let e := mkEvent "e1" 3 7 "job.queued" SrcApi (Some "p1") (Some "j1") None None None None None {[ "n" := JInt 1 ]} in
  event_ok e = true ∧ @_row_to_event no_iso (stored (event_values e)) = Ok e.
Proof.
  split; [reflexivity|].
  destruct (@store_rows_roundtrip no_iso) as (_ & _ & _ & _ & Hevent & _). apply Hevent. reflexivity.
Defined.
